(* ===== verification/_CoqProject ===== *)
-Q . S2P
Prelude.v
RdbErrno.v
StdMap.v
Strings.v
AbsPredicates.v
AbsPredicatesSpec.v
RdbPredicates.v
ResultSet.v
SqliteUtils.v
ConnectionPool.v
Disk.v
PreferencesErrno.v
PreferencesXml.v
PreferencesImpl.v
PreferencesSpec.v
TaskPool.v
PreferencesHelper.v
DataShareErrno.v
DataShareAbsResultSet.v
KvCache.v
KvStore.v
Memory.v
Parcel.v
SharedBlock.v
SharedBlockRepr.v
SharedBlockProps.v
SharedBlockFill.v
SharedBlockFillSpec.v
ValueObject.v
ValuesBucket.v
SqlBuilder.v
SharedResultSet.v
SharedResultSetSpec.v
SqliteStatement.v
StepResultSet.v
SqliteConnection.v
StoreSession.v
StoreSessionSpec.v
RdbStoreImpl.v
RdbStoreImplSpec.v
DataShareValueObject.v
DataShareValuesBucket.v
DataSharePredicatesObject.v
DataSharePredicates.v
DataShareOperation.v
DataShareResult.v
DataShareIpc.v
DataShareOperationSpec.v
DataShareIpcSpec.v
RdbUtils.v
RdbUtilsSpec.v
DataShareBlockWriter.v
RdbResultSetBridge.v
DataShareResultSet.v
RdbResultSetBridgeSpec.v
DataShareResultSetSpec.v
DataShareChainSpec.v
DataShareSetIpc.v
UtilsFile.v
DbmStore.v
DbmLogic.v
DbmLayout.v
DbmSpec.v
DbmPut.v
DbmTrace.v
KvStoreHal.v
RdbHelper.v
DataShareHelper.v
DataShareHelperSpec.v
DataAbility.v
DataShareUvQueue.v
RdbHelperSpec.v
Napi.v
JsPredicates.v
NapiAsync.v
JsPreferences.v
JsRdbStore.v
JsResultSet.v
JsDataShareHelper.v
