(* ===== verification/Prelude.v ===== *)
(** * Verification of distributeddatamgr_appdatamgr

    The repository is the application data management of OpenHarmony. Its parts:

    - a relational database (RDB) on SQLite: an application describes a query with
      predicates or with SQL text; a store runs it in the session of the calling
      thread on a connection borrowed from a pool; the rows come back in a block of
      shared memory or one at a time;
    - preferences: a map kept in memory and written to an XML file by a task pool;
    - DataShare: a consumer process calls a provider process through parcels, with
      predicates, values and result sets of its own, adapted to the database;
      data ability, its predecessor, sends its predicates;
    - key-value stores in C for small devices: one value per file with a cache, and
      the DBM store with its sum file, backups and repair;
    - the JavaScript bindings of the database, the preferences and DataShare: values
      are converted, calls become works of the runtime's pool, results become promises.

    ** What models what

    Sources are under src/frameworks/native, src/interfaces/inner_api/native and, for
    the bindings, src/frameworks/js/napi. A C++ class is a record of its fields, a method a function from the record (and what the
    environment answers) to its result and the new record; integers are [Z] kept in the
    range of their type by the conversions below; doubles are their 64-bit patterns;
    bytes are [Byte.byte]; out parameters are results; an exception or undefined
    behaviour is a value of [outcome] or an absent result.

    Foundations. Memory: little-endian access to a map from addresses to bytes and C
    text in it. Strings, StdMap: what is used of std::string, getline, std::regex,
    std::map and of texts of numbers. Parcel: MessageParcel as a queue of items, and
    uris. Disk, UtilsFile: files whose calls may fail or be cut off. RdbErrno,
    PreferencesErrno, DataShareErrno: error codes.

    The relational database.
    - SharedBlock (shared_block.cpp) as bytes of the mapping; SharedBlockRepr, the
      invariant that gives every byte an owner; SharedBlockProps.
      SharedBlockFill(Spec): share_block.cpp, shared_block_serializer_info.cpp.
    - ValueObject, ValuesBucket; AbsPredicates(Spec), RdbPredicates; SqlBuilder;
      SqliteUtils: the files of the same names in rdb/src.
    - ResultSet: abs_result_set.cpp over an interface; SharedResultSet(Spec):
      abs_shared_result_set.cpp, sqlite_shared_result_set.cpp; SqliteStatement,
      StepResultSet.
    - SqliteConnection; ConnectionPool, with the interleavings of the threads as
      a step relation, and base_transaction.cpp; StoreSession(Spec)
      in a state monad with a small program logic;
      RdbStoreImpl(Spec): the store with its thread sessions and queries.
    - RdbHelper(Spec): rdb_helper.cpp, the configuration records, the path functions of
      sqlite_database_utils.cpp, the settings of a store and its calls of the
      distributed service.

    Preferences. PreferencesXml, PreferencesImpl, PreferencesHelper: the values and
    their XML, the map with its loading and writing, opening and deleting.
    PreferencesSpec: the file and the map over a life. TaskPool: the threads of the
    pool.

    DataShare.
    - Data: DataShareValueObject, DataShareValuesBucket, DataSharePredicatesObject,
      DataSharePredicates, DataShareOperation(Spec), DataShareResult; RdbUtils(Spec)
      turns them into those of the database.
    - Calls: DataShareIpc(Spec), the fifteen commands of proxy and stub;
      DataShareHelper(Spec), the consumer's helper and its connection, and the base
      extension; DataShareUvQueue, running a call on the extension's thread.
    - Result sets: DataShareAbsResultSet, DataShareBlockWriter, RdbResultSetBridge(Spec),
      DataShareResultSet(Spec), DataShareChainSpec, DataShareSetIpc.
    - DataAbility: the predicates of data ability.

    Key-value stores. KvCache, KvStore, KvStoreHal: the cache, the store on POSIX and
    on HAL files. DbmStore: dbm_kv_store.c; DbmLogic, DbmLayout, DbmSpec, DbmPut,
    DbmTrace: interrupted executions, the map the files stand for, the
    operations, the repair and the life of a store.

    JavaScript bindings. Napi: values of scripts, the runtime's functions, the
    conversions of common and data_share/common, and the two value buckets. NapiAsync:
    napi_async_proxy.h, calls, works and promises as a step relation. JsPredicates,
    JsPreferences, JsRdbStore, JsResultSet, JsDataShareHelper: the classes scripts see,
    with their helpers, over the native components or an interface of their calls.

    ** Interfaces

    Components are proved against type classes their neighbours discharge: the cursor
    contract of ResultSet, [RowSource] and [WindowSet] for result sets in the DataShare
    chain, [IDataShare] for the service, which the proxy, the stub's provider and the
    base extension implement, [Connections] for the sessions, [RdbStores] and
    [VersionLaws] for the helper, which RdbHelperSpec discharges with RdbStoreImpl,
    [NativeStores], [NativeHelpers] for the native calls of the bindings.
    Code outside the repository is a class or an argument, with its documented
    behaviour as laws: [SecureC], [CLib], [FloatText], [Parcel] and [ParcelLaws],
    [UriOps], [UriParts], [IpcCodes], [SetIpcCodes], [Xml] and [XmlLaws], [RealPath],
    [Files], [Sqlite], [DistributedPredicates], [DistributedTypes],
    [RdbServices], [KvConfig], [UtilsFile] and its laws,
    [InterfaceCast], [UserVersion], [Napi] and [NapiLaws], [AbilityRuntime], [AbilityNapi]
    and its laws; the records [Store] and [Query] are what SQLite answers to a result
    set. Each theorem that uses one has a witness with a concrete instance.

    ** What the theorems show

    - The shared block refines a table under every sequence of row and cell operations
      and stays inside its mapping. A block filled from a query holds an exact window of the rows;
      result sets read back what the query has, in the process of the database, in the
      DataShare set and in a consumer process; traversals visit each row once; loops
      of the stepped set end.
    - Clauses are well formed, a query or update has one argument per placeholder, and
      shared or sent predicates, values and operations mean what the same calls mean
      on the database, but for what is named.
    - No connection is in two hands, no statement leaks one, nested transactions become
      one of the database, read connections do not write, opening brings the version.
    - Preferences refine a map, what was flushed is found by the next process, and a
      crash while writing leaves the old or the new map, each up to booleans. Tasks of
      one tag run one by one in order.
    - A call of the consumer's helper is the call of the provider, over the connection,
      proxy, parcels and stub; the connection has a proxy while it says so, if no callback
      is interrupted; a call served in time ran its function once.
    - The key-value stores refine bounded maps; the DBM store keeps the old or the new
      map through a loss of power at any call.
    - In the bindings, conversions go both ways, a call is answered as its work
      reported, once, predicates, preferences and result sets of scripts are the native
      ones, and what is counted to keep an object alive is known exactly.
    - Further theorems and examples pin down behaviour that departs from what the code
      intends; each says in its comment what happens.

    ** Bounds and fuel

    The loops over the row groups of a block take 100 off the row in every round, so the
    row divided by 100 bounds them. [StepResultSet.GoToRow] moves one row per round:
    [row_fuel] is the target plus two; counting rows takes one answer of SQLite per
    round. The termination theorem of the stepped set shows that neither runs out. The
    loops over the cache of the key-value stores have the number of its items as fuel,
    which the invariant of the list shows to be enough; the loops over the sum file of
    the DBM store run over the number of its items, as in the source. Everything else
    is structural recursion, on the answers of SQLite, the text or the list at hand.

    ** What is not modelled

    The result sets of data ability, whose text is that of the DataShare ones over
    another base class; the JavaScript extension (js_datashare_ext_ability.cpp) and the
    registration of the modules, which are glue over the N-API runtime; the DBM store on
    POSIX, which supports nothing; ICU collation; mapping a block received in a parcel,
    beyond its name and handle; logging and tracing. *)
From stdpp Require Export base tactics option list numbers strings gmap pretty.
From Stdlib Require Export ZArith Lia.

#[global] Open Scope Z_scope.

(** ** Machine integers

    Every fixed-width C++ integer is a [Z] in the range of its type; the
    functions below are the conversions into those ranges (the source relies on
    two's complement for the signed ones). *)

Definition wrap (w z : Z) : Z := z mod 2 ^ w.
Definition u8 (z : Z) : Z := wrap 8 z.
Definition u32 (z : Z) : Z := wrap 32 z.
Definition u64 (z : Z) : Z := wrap 64 z.
Definition swrap (w z : Z) : Z := (z + 2 ^ (w - 1)) mod 2 ^ w - 2 ^ (w - 1).
Definition s32 (z : Z) : Z := swrap 32 z.
Definition s64 (z : Z) : Z := swrap 64 z.

Lemma wrap_small w z : 0 <= z < 2 ^ w -> wrap w z = z.
Proof. intros H. unfold wrap. by apply Z.mod_small. Qed.

Lemma wrap_range w z : 0 <= w -> 0 <= wrap w z < 2 ^ w.
Proof. intros H. unfold wrap. apply Z.mod_pos_bound. lia. Qed.

Lemma u32_small z : 0 <= z < 4294967296 -> u32 z = z.
Proof. intros H. apply (wrap_small 32). lia. Qed.

Lemma u64_small z : 0 <= z < 18446744073709551616 -> u64 z = z.
Proof. intros H. apply (wrap_small 64). lia. Qed.

Lemma u32_range z : 0 <= u32 z < 4294967296.
Proof. apply (wrap_range 32). lia. Qed.

Lemma swrap_small w z :
  0 < w -> - 2 ^ (w - 1) <= z < 2 ^ (w - 1) -> swrap w z = z.
Proof.
  intros Hw Hz. unfold swrap.
  assert (2 ^ w = 2 * 2 ^ (w - 1)) as Hp.
  { rewrite <- Z.pow_succ_r by lia. f_equal. lia. }
  rewrite Z.mod_small by lia. lia.
Qed.

Lemma s32_small z : -2147483648 <= z < 2147483648 -> s32 z = z.
Proof. intros H. apply (swrap_small 32); lia. Qed.

Lemma s64_small z :
  -9223372036854775808 <= z < 9223372036854775808 -> s64 z = z.
Proof. intros H. apply (swrap_small 64); lia. Qed.

(** A signed value stored through its unsigned pattern comes back. *)
Lemma s64_u64 z :
  -9223372036854775808 <= z < 9223372036854775808 -> s64 (u64 z) = z.
Proof.
  intros H. unfold s64, swrap, u64, wrap.
  rewrite Z.add_mod_idemp_l by lia.
  change (2 ^ (64 - 1)) with 9223372036854775808.
  rewrite Z.mod_small by lia. lia.
Qed.

(** ** Proof automation *)

Create HintDb appdata.

(** Turns boolean comparisons of the context and the goal into propositions. *)
Ltac to_prop :=
  repeat match goal with
  | H : (_ && _)%bool = true |- _ => apply andb_prop in H as [? ?]
  | H : (_ || _)%bool = false |- _ => apply orb_false_elim in H as [? ?]
  | H : negb _ = true |- _ => apply negb_true_iff in H
  | H : negb _ = false |- _ => apply negb_false_iff in H
  | H : (_ =? _) = true |- _ => apply Z.eqb_eq in H
  | H : (_ =? _) = false |- _ => apply Z.eqb_neq in H
  | H : (_ <? _) = true |- _ => apply Z.ltb_lt in H
  | H : (_ <? _) = false |- _ => apply Z.ltb_ge in H
  | H : (_ <=? _) = true |- _ => apply Z.leb_le in H
  | H : (_ <=? _) = false |- _ => apply Z.leb_gt in H
  | H : (_ >? _) = true |- _ => apply Z.gtb_lt in H
  | H : (_ >? _) = false |- _ => rewrite Z.gtb_ltb in H; apply Z.ltb_ge in H
  | H : (_ >=? _) = true |- _ => apply Z.geb_le in H
  | H : (_ >=? _) = false |- _ => rewrite Z.geb_leb in H; apply Z.leb_gt in H
  end.

(** Splits on the condition of the first conditional of the goal. *)
Ltac case_if :=
  match goal with
  | |- context [if ?b then _ else _] =>
      lazymatch type of b with
      | bool => let E := fresh "E" in destruct b eqn:E
      | _ => destruct b
      end
  end.

Ltac case_if_in H :=
  match type of H with
  | context [if ?b then _ else _] =>
      lazymatch type of b with
      | bool => let E := fresh "E" in destruct b eqn:E
      | _ => destruct b
      end
  end.

Ltac zlia := to_prop; lia.

(** ** Results of fallible operations

    [Ok] with the values handed back through the out parameters, [Err] with the
    error code, [Throws] when a C++ exception leaves the function, [Undefined] when
    the execution has no defined behaviour (an element read past the end of a
    vector, a null pointer dereferenced). *)
Inductive outcome (A : Type) : Type :=
| Ok (a : A)
| Err (code : Z)
| Throws
| Undefined.
#[global] Arguments Ok {A} a.
#[global] Arguments Err {A} code.
#[global] Arguments Throws {A}.
#[global] Arguments Undefined {A}.

Definition outcome_bind {A B} (x : outcome A) (f : A -> outcome B) : outcome B :=
  match x with Ok a => f a | Err c => Err c | Throws => Throws | Undefined => Undefined end.

Notation "x <-- e ; f" := (outcome_bind e (fun x => f))
  (at level 20, e at level 100, f at level 200, right associativity).

(** A getter called for its out parameter, the code it returns dropped: on failure
    the variable stays uninitialised, and reading it is undefined. *)
Definition out_parameter {A} (x : outcome A) : outcome A :=
  match x with Err _ => Undefined | x => x end.

(** ** Lists *)
Lemma lookup_snoc_len {A} (l : list A) x n : n = length l -> (l ++ [x]) !! n = Some x.
Proof. intros ->. rewrite lookup_app_r by lia. by rewrite Nat.sub_diag. Qed.
