(* ===== verification/RdbErrno.v ===== *)
(** * Error codes

    The result codes of interfaces/inner_api/native/rdb/include/rdb_errno.h that
    the modelled code returns. *)
From S2P Require Import Prelude.

Definition E_OK : Z := 0.
Definition E_BASE : Z := 1000.
Definition E_ERROR : Z := E_BASE + 1.
Definition E_CANNOT_UPDATE_READONLY : Z := E_BASE + 2.
Definition E_REMOVE_FILE : Z := E_BASE + 3.
Definition E_EMPTY_FILE_NAME : Z := E_BASE + 4.
Definition E_EMPTY_TABLE_NAME : Z := E_BASE + 5.
Definition E_EMPTY_VALUES_BUCKET : Z := E_BASE + 6.
Definition E_INVALID_STATEMENT : Z := E_BASE + 7.
Definition E_INVALID_COLUMN_INDEX : Z := E_BASE + 8.
Definition E_INVALID_COLUMN_TYPE : Z := E_BASE + 9.
Definition E_INVALID_COLUMN_NAME : Z := E_BASE + 10.
Definition E_QUERY_IN_EXECUTE : Z := E_BASE + 11.
Definition E_TRANSACTION_IN_EXECUTE : Z := E_BASE + 12.
Definition E_EXECUTE_IN_STEP_QUERY : Z := E_BASE + 13.
Definition E_EXECUTE_WRITE_IN_READ_CONNECTION : Z := E_BASE + 14.
Definition E_BEGIN_TRANSACTION_IN_READ_CONNECTION : Z := E_BASE + 15.
Definition E_NO_TRANSACTION_IN_SESSION : Z := E_BASE + 16.
Definition E_MORE_STEP_QUERY_IN_ONE_SESSION : Z := E_BASE + 17.
Definition E_NO_ROW_IN_QUERY : Z := E_BASE + 18.
Definition E_INVALID_BIND_ARGS_COUNT : Z := E_BASE + 19.
Definition E_INVALID_OBJECT_TYPE : Z := E_BASE + 20.
Definition E_INVALID_CONFLICT_FLAG : Z := E_BASE + 21.
Definition E_NOT_SUPPORTED_BY_STEP_RESULT_SET : Z := E_BASE + 23.
Definition E_STEP_RESULT_SET_CROSS_THREADS : Z := E_BASE + 24.
Definition E_STEP_RESULT_QUERY_NOT_EXECUTED : Z := E_BASE + 25.
Definition E_STEP_RESULT_IS_AFTER_LAST : Z := E_BASE + 26.
Definition E_STEP_RESULT_QUERY_EXCEEDED : Z := E_BASE + 27.
Definition E_STATEMENT_NOT_PREPARED : Z := E_BASE + 28.
Definition E_EXECUTE_RESULT_INCORRECT : Z := E_BASE + 29.
Definition E_STEP_RESULT_CLOSED : Z := E_BASE + 30.
Definition E_RELATIVE_PATH : Z := E_BASE + 31.
Definition E_EMPTY_NEW_ENCRYPT_KEY : Z := E_BASE + 32.
Definition E_CHANGE_UNENCRYPTED_TO_ENCRYPTED : Z := E_BASE + 33.
Definition E_CHANGE_ENCRYPT_KEY_IN_BUSY : Z := E_BASE + 34.
Definition E_STEP_STATEMENT_NOT_INIT : Z := E_BASE + 35.
Definition E_NOT_SUPPORTED_ATTACH_IN_WAL_MODE : Z := E_BASE + 36.
Definition E_CREATE_FOLDER_FAIL : Z := E_BASE + 37.
Definition E_SQLITE_SQL_BUILDER_NORMALIZE_FAIL : Z := E_BASE + 38.
Definition E_STORE_SESSION_NOT_GIVE_CONNECTION_TEMPORARILY : Z := E_BASE + 39.
Definition E_STORE_SESSION_NO_CURRENT_TRANSACTION : Z := E_BASE + 40.
Definition E_NOT_SUPPORT : Z := E_BASE + 41.
Definition E_INVALID_FILE_PATH : Z := E_BASE + 43.
