(* ===== verification/StdMap.v ===== *)
(** * Ordered maps with string keys

    [std::map<std::string, V>] as the association list its iterators walk: the
    keys in strictly increasing order of [std::string::compare] (bytes compared
    as unsigned values). The order is visible in the SQL text and in the parcels
    built from such maps, so it is kept. *)
From S2P Require Import Prelude.
From Stdlib Require Import String Ascii Sorted.

Definition key_lt (k1 k2 : string) : Prop := String.compare k1 k2 = Lt.

Lemma compare_refl k : String.compare k k = Eq.
Proof.
  induction k as [|c k IH]; [done|]. simpl.
  by rewrite (N.compare_refl (N_of_ascii c) : Ascii.compare c c = Eq).
Qed.

Lemma compare_gt k1 k2 : String.compare k1 k2 = Gt <-> key_lt k2 k1.
Proof. unfold key_lt. rewrite String.compare_antisym. by destruct (String.compare k2 k1). Qed.

Lemma key_lt_irrefl k : ~ key_lt k k.
Proof. unfold key_lt. by rewrite compare_refl. Qed.

Lemma key_lt_trans k1 k2 k3 : key_lt k1 k2 -> key_lt k2 k3 -> key_lt k1 k3.
Proof.
  unfold key_lt. revert k2 k3. induction k1 as [|a k1 IH]; intros [|b k2] [|c k3]; simpl; try done.
  destruct (Ascii.compare a b) eqn:E1; [|intros _|done].
  - apply Ascii.compare_eq_iff in E1 as ->. destruct (Ascii.compare b c); eauto; done.
  - destruct (Ascii.compare b c) eqn:E2; [|intros _|done].
    + apply Ascii.compare_eq_iff in E2 as ->. by rewrite E1.
    + assert (Ascii.compare a c = Lt) as ->; [|done].
      unfold Ascii.compare in *. rewrite N.compare_lt_iff in *. lia.
Qed.

Section StdMap.
Context {V : Type}.
Implicit Types (m : list (string * V)) (k : string) (v : V).

Fixpoint sm_find k m : option V :=
  match m with
  | [] => None
  | (k', v') :: m => if decide (k = k') then Some v' else sm_find k m
  end.

(** [std::map::insert]: an existing entry is kept. *)
Fixpoint sm_insert k v m : list (string * V) :=
  match m with
  | [] => [(k, v)]
  | (k', v') :: m' =>
      match String.compare k k' with
      | Lt => (k, v) :: m
      | Eq => m
      | Gt => (k', v') :: sm_insert k v m'
      end
  end.

(** [std::map::insert_or_assign] and assignment through [operator[]]. *)
Fixpoint sm_set k v m : list (string * V) :=
  match m with
  | [] => [(k, v)]
  | (k', v') :: m' =>
      match String.compare k k' with
      | Lt => (k, v) :: m
      | Eq => (k, v) :: m'
      | Gt => (k', v') :: sm_set k v m'
      end
  end.

Definition sm_erase k m : list (string * V) := filter (fun p => p.1 <> k) m.

Definition sm_sorted m : Prop := StronglySorted (fun p q => key_lt p.1 q.1) m.

Lemma sm_sorted_nil : sm_sorted [].
Proof. constructor. Qed.

Lemma sm_find_lt k m : Forall (fun p => key_lt k p.1) m -> sm_find k m = None.
Proof.
  induction 1 as [|[k' v'] m Hk _ IH]; [done|]. simpl in *. case_decide as E; [|done].
  subst. by apply key_lt_irrefl in Hk.
Qed.

Lemma Forall_key_lt_trans k k' m :
  key_lt k k' -> Forall (fun p => key_lt k' p.1) m -> Forall (fun p => key_lt k p.1) m.
Proof. intros Hk Hf. eapply Forall_impl; [done|]. intros p. by apply key_lt_trans. Qed.

Lemma sm_insert_Forall (P : string -> Prop) k v m :
  P k -> Forall (fun p => P p.1) m -> Forall (fun p => P p.1) (sm_insert k v m).
Proof.
  intros Hk. induction 1 as [|[k' v'] m Hk' Hm IH]; simpl; [by constructor|].
  destruct (String.compare k k'); repeat (constructor; try done).
Qed.

Lemma sm_set_Forall (P : string -> Prop) k v m :
  P k -> Forall (fun p => P p.1) m -> Forall (fun p => P p.1) (sm_set k v m).
Proof.
  intros Hk. induction 1 as [|[k' v'] m Hk' Hm IH]; simpl; [by constructor|].
  destruct (String.compare k k'); repeat (constructor; try done).
Qed.

Lemma sm_insert_sorted k v m : sm_sorted m -> sm_sorted (sm_insert k v m).
Proof.
  unfold sm_sorted. induction 1 as [|[k' v'] m Hs IH Hf]; simpl; [by repeat constructor|].
  destruct (String.compare k k') eqn:E.
  - by constructor.
  - repeat constructor; try done. by eapply Forall_key_lt_trans.
  - constructor; [done|]. apply (sm_insert_Forall (key_lt k')); [by apply compare_gt|done].
Qed.

Lemma sm_set_sorted k v m : sm_sorted m -> sm_sorted (sm_set k v m).
Proof.
  unfold sm_sorted. induction 1 as [|[k' v'] m Hs IH Hf]; simpl; [by repeat constructor|].
  destruct (String.compare k k') eqn:E.
  - apply String.compare_eq_iff in E as ->. by constructor.
  - repeat constructor; try done. by eapply Forall_key_lt_trans.
  - constructor; [done|]. apply (sm_set_Forall (key_lt k')); [by apply compare_gt|done].
Qed.

Lemma sm_erase_sorted k m : sm_sorted m -> sm_sorted (sm_erase k m).
Proof.
  unfold sm_sorted, sm_erase. induction 1 as [|[k' v'] m Hs IH Hf]; [constructor|].
  rewrite filter_cons. case_decide; [|done]. constructor; [done|].
  rewrite Forall_forall in *. intros p [_ Hp]%list_elem_of_filter. by apply Hf.
Qed.

Lemma sm_find_insert k v m k' :
  sm_sorted m ->
  sm_find k' (sm_insert k v m) =
    if decide (k' = k) then Some (default v (sm_find k m)) else sm_find k' m.
Proof.
  induction 1 as [|[k0 v0] m Hs IH Hf]; simpl; [done|]. simpl in Hf.
  destruct (String.compare k k0) eqn:E; simpl.
  - apply String.compare_eq_iff in E as ->. repeat case_decide; simplify_eq; done.
  - assert (k <> k0) by (intros ->; by apply key_lt_irrefl in E).
    rewrite (sm_find_lt k m) by (by eapply Forall_key_lt_trans).
    repeat case_decide; simplify_eq; done.
  - apply compare_gt in E. assert (k <> k0) by (intros ->; by apply key_lt_irrefl in E).
    rewrite IH. repeat case_decide; simplify_eq; done.
Qed.

Lemma sm_find_set k v m k' :
  sm_sorted m -> sm_find k' (sm_set k v m) = if decide (k' = k) then Some v else sm_find k' m.
Proof.
  induction 1 as [|[k0 v0] m Hs IH Hf]; simpl; [done|].
  destruct (String.compare k k0) eqn:E; simpl.
  - apply String.compare_eq_iff in E as ->. repeat case_decide; simplify_eq; done.
  - repeat case_decide; simplify_eq; done.
  - apply compare_gt in E. assert (k <> k0) by (intros ->; by apply key_lt_irrefl in E).
    rewrite IH. repeat case_decide; simplify_eq; done.
Qed.

Lemma sm_find_erase k m k' :
  sm_find k' (sm_erase k m) = if decide (k' = k) then None else sm_find k' m.
Proof.
  unfold sm_erase. induction m as [|[k0 v0] m IH]; simpl; [by case_decide|].
  rewrite filter_cons. simpl. repeat (case_decide; simplify_eq; simpl); done.
Qed.

(** Appending an entry whose key is above all others. *)
Lemma sm_insert_snoc k v m :
  Forall (fun p => key_lt p.1 k) m -> sm_insert k v m = m ++ [(k, v)].
Proof.
  induction 1 as [|[k' v'] m Hk _ IH]; [done|]. simpl in *.
  by rewrite (proj2 (compare_gt k k') Hk), IH.
Qed.

(** A sorted map is determined by its lookups. *)
Lemma sm_ext m1 m2 :
  sm_sorted m1 -> sm_sorted m2 -> (forall k, sm_find k m1 = sm_find k m2) -> m1 = m2.
Proof.
  intros Hs1. revert m2. induction Hs1 as [|[k1 v1] m1 Hs1 IH Hf1]; intros m2 Hs2 E.
  { destruct m2 as [|[k v] m2]; [done|]. specialize (E k). simpl in E. by case_decide. }
  destruct Hs2 as [|[k2 v2] m2 Hs2 Hf2].
  { specialize (E k1). simpl in E. by case_decide. }
  assert (k1 = k2) as ->.
  { pose proof (E k1) as E1. pose proof (E k2) as E2. simpl in E1, E2, Hf1, Hf2.
    repeat case_decide; simplify_eq; try done.
    destruct (String.compare k1 k2) eqn:C.
    - by apply String.compare_eq_iff in C.
    - rewrite (sm_find_lt k1 m2) in E1; [done|by eapply Forall_key_lt_trans].
    - apply compare_gt in C. rewrite (sm_find_lt k2 m1) in E2; [done|].
      by eapply Forall_key_lt_trans. }
  pose proof (E k2) as E2. simpl in E2. case_decide; [|done]. simplify_eq. f_equal.
  apply IH; [done|]. intros k. specialize (E k). simpl in E, Hf1, Hf2.
  case_decide; [|done]. subst. by rewrite !sm_find_lt.
Qed.

Lemma elem_of_sm_find m k v : sm_sorted m -> (k, v) ∈ m -> sm_find k m = Some v.
Proof.
  induction 1 as [|[k' v'] m Hs IH Hf]; [by intros ?%elem_of_nil|].
  rewrite elem_of_cons. simpl. intros [?|Hin]; simplify_eq; [by rewrite decide_True|].
  case_decide as E; [|by apply IH]. subst. rewrite Forall_forall in Hf.
  by apply Hf, key_lt_irrefl in Hin.
Qed.

Lemma sm_find_elem m k v : sm_find k m = Some v -> (k, v) ∈ m.
Proof.
  induction m as [|[k' v'] m IH]; [done|]. cbn. rewrite elem_of_cons. case_decide; intros ?; simplify_eq; auto.
Qed.

Lemma sm_find_Forall (P : string * V -> Prop) m k v :
  Forall P m -> sm_find k m = Some v -> P (k, v).
Proof. intros Hf Hk. by eapply Forall_forall in Hf; [|by apply sm_find_elem]. Qed.
End StdMap.

#[export] Hint Resolve sm_sorted_nil sm_insert_sorted sm_set_sorted sm_erase_sorted : appdata.
