(* ===== verification/Strings.v ===== *)
(** * Strings

    The operations on [std::string] the modelled code uses, and model of
    frameworks/native/rdb/src/string_utils.cpp. *)
From S2P Require Import Prelude.
From Stdlib Require Import Ascii DecimalString DecimalZ DecimalFacts DecimalPos.
From Stdlib Require Import Ascii.

#[global] Open Scope string_scope.
#[global] Open Scope Z_scope.

Definition empty (s : string) : bool := match s with EmptyString => true | _ => false end.

(** ** Characters *)
Fixpoint count_char (c : ascii) (s : string) : nat :=
  match s with
  | EmptyString => 0
  | String c' s => (if Ascii.eqb c' c then 1 else 0) + count_char c s
  end%nat.

Fixpoint string_forall (P : ascii -> bool) (s : string) : bool :=
  match s with EmptyString => true | String c s => P c && string_forall P s end.

(** What is before and after the last slash. *)
Fixpoint split_last (s : string) : option (string * string) :=
  match s with
  | EmptyString => None
  | String c s' =>
      match split_last s' with
      | Some (dir, name) => Some (String c dir, name)
      | None => if Ascii.eqb c "/" then Some ("", s') else None
      end
  end.

Lemma append_cons c s1 s2 : String c s1 +:+ s2 = String c (s1 +:+ s2).
Proof. reflexivity. Qed.

Lemma append_assoc s1 s2 s3 : (s1 +:+ s2) +:+ s3 = s1 +:+ (s2 +:+ s3).
Proof. induction s1 as [|c s1 IH]; [done|]. exact (f_equal (String c) IH). Qed.

Lemma append_nil_r s : s +:+ "" = s.
Proof. induction s as [|c s IH]; [done|]. exact (f_equal (String c) IH). Qed.

Lemma count_char_app c s1 s2 :
  count_char c (s1 +:+ s2) = (count_char c s1 + count_char c s2)%nat.
Proof. induction s1 as [|c' s1 IH]; [done|]. rewrite append_cons. simpl. rewrite IH. lia. Qed.

Lemma string_forall_app P s1 s2 :
  string_forall P (s1 +:+ s2) = string_forall P s1 && string_forall P s2.
Proof. induction s1 as [|c s1 IH]; [done|]. rewrite append_cons. simpl. by rewrite IH, andb_assoc. Qed.

Lemma count_char_forall c s :
  count_char c s = 0%nat <-> string_forall (fun c' => negb (Ascii.eqb c' c)) s = true.
Proof.
  induction s as [|c' s IH]; simpl; [done|]. destruct (Ascii.eqb c' c); simpl; [done|done].
Qed.

(** ** Erasing characters: [erase(std::remove(...))] *)
Fixpoint remove_char (c : ascii) (s : string) : string :=
  match s with
  | EmptyString => EmptyString
  | String c' s => if Ascii.eqb c' c then remove_char c s else String c' (remove_char c s)
  end.

Lemma count_char_remove c c' s :
  count_char c (remove_char c' s) = if Ascii.eqb c c' then 0%nat else count_char c s.
Proof.
  induction s as [|a s IH]; simpl; [by case_if|].
  destruct (Ascii.eqb_spec a c') as [->|Hac]; simpl; rewrite IH.
  - rewrite (Ascii.eqb_sym c' c). by destruct (Ascii.eqb c c').
  - destruct (Ascii.eqb_spec c c') as [->|]; [|done].
    by rewrite (proj2 (Ascii.eqb_neq a c') Hac).
Qed.

Lemma count_char_remove_le c c' s : (count_char c (remove_char c' s) <= count_char c s)%nat.
Proof. rewrite count_char_remove. case_if; lia. Qed.

Lemma remove_char_id c s : count_char c s = 0%nat -> remove_char c s = s.
Proof.
  induction s as [|a s IH]; [done|]. simpl. destruct (Ascii.eqb a c); [done|]. intros Hc. by rewrite IH.
Qed.

Lemma remove_char_app c s1 s2 : remove_char c (s1 +:+ s2) = remove_char c s1 +:+ remove_char c s2.
Proof.
  induction s1 as [|a s1 IH]; [done|]. rewrite append_cons. simpl. rewrite IH. by destruct (Ascii.eqb a c).
Qed.

(** ** Reading a text piece by piece

    [std::getline] on a string stream until it fails: the pieces between the
    delimiters; what follows the last delimiter only when it is not empty. [acc] is
    the text since the last delimiter. *)
Fixpoint getlines (delim : ascii) (s acc : string) : list string :=
  match s with
  | EmptyString => if empty acc then [] else [acc]
  | String c s => if Ascii.eqb c delim then acc :: getlines delim s "" else getlines delim s (acc +:+ String c "")
  end.

Lemma getlines_prefix d a s acc :
  count_char d a = 0%nat -> getlines d (a +:+ String d "" +:+ s) acc = (acc +:+ a) :: getlines d s "".
Proof.
  revert acc. induction a as [|c a IH]; intros acc Ha.
  - simpl. rewrite Ascii.eqb_refl. by rewrite append_nil_r.
  - rewrite append_cons. simpl in *. destruct (Ascii.eqb c d); [done|]. rewrite IH by done. by rewrite append_assoc.
Qed.

Lemma getlines_last d b acc :
  count_char d b = 0%nat -> empty (acc +:+ b) = false -> getlines d b acc = [acc +:+ b].
Proof.
  revert acc. induction b as [|c b IH]; intros acc Hb He; simpl in *.
  - rewrite append_nil_r in *. by rewrite He.
  - destruct (Ascii.eqb c d); [done|]. rewrite IH; rewrite ?append_assoc; done.
Qed.

Lemma getlines_nonnil d s : forall acc, empty acc = false \/ empty s = false -> getlines d s acc <> [].
Proof.
  induction s as [|c s IH]; intros acc He; simpl.
  - destruct He as [->|]; done.
  - destruct (Ascii.eqb c d); [done|]. apply IH. left. by destruct acc.
Qed.

Lemma getlines_concat d l :
  Forall (fun t => count_char d t = 0%nat /\ empty t = false) l -> getlines d (String.concat (String d "") l) "" = l.
Proof.
  induction 1 as [|t l [Hc He] Hl IH]; [done|]. destruct l as [|u l]; [by apply getlines_last|].
  change (String.concat _ (t :: u :: l)) with (t +:+ String d "" +:+ String.concat (String d "") (u :: l)).
  rewrite getlines_prefix, IH by done. done.
Qed.

(** ** string_utils.cpp *)
Definition IsEmpty (s : string) : bool := empty s.

Definition SurroundWithQuote (value quote : string) : string :=
  if empty value then value else quote +:+ value +:+ quote.

Fixpoint SurroundWithFunction_loop (separator : string) (array : list string)
    (isFirst : bool) (builder : string) : string :=
  match array with
  | [] => builder
  | text :: array =>
      let builder := if negb isFirst then builder +:+ " " +:+ separator +:+ " " else builder in
      SurroundWithFunction_loop separator array false (builder +:+ text)
  end.

Definition SurroundWithFunction (function separator : string) (array : list string) : string :=
  SurroundWithFunction_loop separator array true (function +:+ "(") +:+ ")".

(** The members of the array with the separator between them. *)
Definition join_args (separator : string) (array : list string) : string :=
  String.concat (" " +:+ separator +:+ " ") array.

Lemma SurroundWithFunction_loop_rest sep array b :
  SurroundWithFunction_loop sep array false b =
    b +:+ foldr (fun t s => (" " +:+ sep +:+ " ") +:+ t +:+ s) "" array.
Proof.
  revert b. induction array as [|t array IH]; intros b; simpl; [by rewrite append_nil_r|].
  rewrite IH. by rewrite !append_assoc.
Qed.

Lemma concat_foldr sep t array :
  String.concat sep (t :: array) = t +:+ foldr (fun t s => sep +:+ t +:+ s) "" array.
Proof.
  revert t. induction array as [|t' array IH]; intros t; [by rewrite append_nil_r|].
  change (String.concat sep (t :: t' :: array))
    with (t +:+ sep +:+ String.concat sep (t' :: array)).
  by rewrite IH.
Qed.

Lemma SurroundWithFunction_eq f sep array :
  SurroundWithFunction f sep array = f +:+ "(" +:+ join_args sep array +:+ ")".
Proof.
  unfold SurroundWithFunction, join_args. destruct array as [|t array].
  { simpl. by rewrite append_assoc. }
  rewrite concat_foldr. simpl. rewrite SurroundWithFunction_loop_rest. by rewrite !append_assoc.
Qed.

Lemma count_char_function c f sep array :
  count_char c (SurroundWithFunction f sep array) =
    (count_char c f + count_char c "(" + count_char c ")" + sum_list (count_char c <$> array) +
     (length array - 1) * (count_char c " " + count_char c sep + count_char c " "))%nat.
Proof.
  rewrite SurroundWithFunction_eq, !count_char_app. unfold join_args.
  assert (Hcat : count_char c (String.concat (" " +:+ sep +:+ " ") array) =
    (sum_list (count_char c <$> array) +
     (length array - 1) * (count_char c " " + count_char c sep + count_char c " "))%nat).
  { destruct array as [|t array]; [done|]. rewrite concat_foldr, count_char_app. simpl.
    rewrite Nat.sub_0_r. clear. revert t.
    induction array as [|t' array IH]; intros t; simpl; [lia|].
    rewrite !count_char_app. specialize (IH t'). simpl in *. lia. }
  rewrite Hcat. lia.
Qed.

(** ** Numbers *)

(** [std::to_string] on an [int]. *)
Definition to_string (z : Z) : string := NilEmpty.string_of_int (Z.to_int z).

Definition is_digit (c : ascii) : bool :=
  let n := N_of_ascii c in (48 <=? n)%N && (n <=? 57)%N.

(** The characters [isspace] accepts. *)
Definition is_space (c : ascii) : bool :=
  let n := N_of_ascii c in (n =? 32)%N || ((9 <=? n)%N && (n <=? 13)%N).

Fixpoint skip_spaces (s : string) : string :=
  match s with String c s' => if is_space c then skip_spaces s' else s | EmptyString => s end.

Fixpoint take_digits (s : string) : string :=
  match s with
  | String c s => if is_digit c then String c (take_digits s) else EmptyString
  | EmptyString => EmptyString
  end.

(** [std::stoi] and [std::stoll]: leading white space, a sign and the longest run of
    digits; they throw when there is no digit or the value is out of range. *)
Definition parse_int (low high : Z) (s : string) : outcome Z :=
  let s := skip_spaces s in
  let '(sign, s) :=
    match s with
    | String c s' =>
        if Ascii.eqb c "-" then (-1, s') else if Ascii.eqb c "+" then (1, s') else (1, s)
    | EmptyString => (1, s)
    end in
  let digits := take_digits s in
  if empty digits then Throws
  else
    match NilEmpty.uint_of_string digits with
    | None => Throws
    | Some d =>
        let v := sign * Z.of_N (N.of_uint d) in
        if (v <? low) || (high <? v) then Throws else Ok v
    end.

Definition stoi (s : string) : outcome Z := parse_int (-2147483648) 2147483647 s.
Definition stoll (s : string) : outcome Z :=
  parse_int (-9223372036854775808) 9223372036854775807 s.

Lemma take_digits_uint d : take_digits (NilEmpty.string_of_uint d) = NilEmpty.string_of_uint d.
Proof. induction d as [|d IH|d IH|d IH|d IH|d IH|d IH|d IH|d IH|d IH|d IH];
  simpl; try done; f_equal; exact IH. Qed.

Lemma to_uint_nonnil p : Pos.to_uint p <> Decimal.Nil.
Proof.
  intros E. pose proof (DecimalPos.Unsigned.to_uint_nonnil p). congruence.
Qed.

Lemma string_of_uint_sign d :
  d <> Decimal.Nil ->
  exists c s, NilEmpty.string_of_uint d = String c s /\ is_space c = false /\
    Ascii.eqb c "-" = false /\ Ascii.eqb c "+" = false.
Proof. intros Hd. destruct d; try done; simpl; eexists _, _; split_and!; done. Qed.

Lemma parse_int_to_string low high z :
  low <= z <= high -> parse_int low high (to_string z) = Ok z.
Proof.
  intros Hz. unfold parse_int, to_string.
  assert (Hpos : forall p,
    empty (take_digits (NilEmpty.string_of_uint (Pos.to_uint p))) = false /\
    NilEmpty.uint_of_string (take_digits (NilEmpty.string_of_uint (Pos.to_uint p))) =
      Some (Pos.to_uint p) /\
    Z.of_N (N.of_uint (Pos.to_uint p)) = Z.pos p).
  { intros p. rewrite take_digits_uint, NilEmpty.usu. split_and!; [|done|].
    - by destruct (string_of_uint_sign _ (to_uint_nonnil p)) as (c & s & -> & _).
    - unfold N.of_uint. by rewrite DecimalPos.Unsigned.of_to. }
  destruct z as [|p|p].
  { vm_compute (skip_spaces _). cbn -[Z.ltb Z.mul is_digit].
    change (is_digit "0") with true. cbn -[Z.ltb].
    case_if; [apply orb_true_iff in E as [E|E]; zlia|done]. }
  - simpl Z.to_int. simpl NilEmpty.string_of_int.
    destruct (Hpos p) as (E1 & E2 & E3).
    destruct (string_of_uint_sign _ (to_uint_nonnil p)) as (c & s & Es & Hs & Hm & Hp).
    rewrite Es in *. cbn [skip_spaces]. rewrite Hs, Hm, Hp, E1, E2, E3.
    case_if; [apply orb_true_iff in E as [E|E]; zlia|done].
  - simpl Z.to_int. simpl NilEmpty.string_of_int.
    destruct (Hpos p) as (E1 & E2 & E3). 
    cbn [skip_spaces]. change (is_space "-") with false. cbn beta iota.
    change (Ascii.eqb "-" "-") with true. cbn beta iota zeta.
    rewrite E1, E2, E3. case_if; [apply orb_true_iff in E as [E|E]; zlia|f_equal; lia].
Qed.

Lemma stoi_to_string z : -2147483648 <= z <= 2147483647 -> stoi (to_string z) = Ok z.
Proof. apply parse_int_to_string. Qed.

Lemma stoll_to_string z :
  -9223372036854775808 <= z <= 9223372036854775807 -> stoll (to_string z) = Ok z.
Proof. apply parse_int_to_string. Qed.

(** * Regular expressions

    The fragment of [std::regex] (ECMAScript grammar) the SQL builder uses, with
    the backtracking search for the first match in the order of the alternatives.
    Repetition is only used on character classes. A back reference to a group that
    took no part in the match fails. *)

Inductive re :=
| RChar (P : ascii -> bool)
| RStar (P : ascii -> bool)
| RCat (r1 r2 : re)
| RAlt (r1 r2 : re)
| ROpt (r : re)
| RGroup (n : nat) (r : re)
| RBack (n : nat).

(** The groups matched so far, newest first. *)
Definition captures : Type := list (nat * string).

Fixpoint capture (n : nat) (m : captures) : option string :=
  match m with
  | [] => None
  | (n', s) :: m => if Nat.eqb n n' then Some s else capture n m
  end.

(** The text of an unmatched group is empty. *)
Definition group_text (n : nat) (m : captures) : string := default "" (capture n m).

Fixpoint exec_star {A} (P : ascii -> bool) (s : string) (k : string -> option A) : option A :=
  match s with
  | String c s' =>
      if P c then match exec_star P s' k with Some r => Some r | None => k s end else k s
  | EmptyString => k s
  end.

Fixpoint strip_prefix (pre s : string) : option string :=
  match pre, s with
  | EmptyString, _ => Some s
  | String a pre, String b s => if Ascii.eqb a b then strip_prefix pre s else None
  | _, _ => None
  end.

Definition consumed (s rest : string) : string :=
  String.substring 0 (String.length s - String.length rest) s.

Fixpoint exec (r : re) (s : string) (m : captures)
    (k : string -> captures -> option captures) : option captures :=
  match r with
  | RChar P =>
      match s with String c s' => if P c then k s' m else None | EmptyString => None end
  | RStar P => exec_star P s (fun s' => k s' m)
  | RCat r1 r2 => exec r1 s m (fun s' m' => exec r2 s' m' k)
  | RAlt r1 r2 =>
      match exec r1 s m k with Some res => Some res | None => exec r2 s m k end
  | ROpt r => match exec r s m k with Some res => Some res | None => k s m end
  | RGroup n r => exec r s m (fun s' m' => k s' ((n, consumed s s') :: m'))
  | RBack n =>
      match capture n m with
      | None => None
      | Some t => match strip_prefix t s with None => None | Some s' => k s' m end
      end
  end.

Definition regex_match (r : re) (s : string) : option captures :=
  exec r s [] (fun s' m => if empty s' then Some m else None).

Definition RPlus (P : ascii -> bool) : re := RCat (RChar P) (RStar P).
Definition RLit (c : ascii) : re := RChar (Ascii.eqb c).

Definition is_word (c : ascii) : bool :=
  let n := N_of_ascii c in
  is_digit c || ((65 <=? n)%N && (n <=? 90)%N) || ((97 <=? n)%N && (n <=? 122)%N) || (n =? 95)%N.

Definition is_quote (c : ascii) : bool :=
  Ascii.eqb c "'" || Ascii.eqb c "034" || Ascii.eqb c "`".

(** ** Lemmas *)
Lemma substring_all s : String.substring 0 (String.length s) s = s.
Proof. induction s as [|c s IH]; [done|]. simpl. by rewrite IH. Qed.

Lemma length_append s1 s2 :
  String.length (s1 +:+ s2) = (String.length s1 + String.length s2)%nat.
Proof. induction s1 as [|c s1 IH]; [done|]. rewrite append_cons. simpl. by rewrite IH. Qed.

Lemma substring_prefix s1 s2 : String.substring 0 (String.length s1) (s1 +:+ s2) = s1.
Proof.
  induction s1 as [|c s1 IH]; [by destruct s2|]. rewrite append_cons. simpl. by rewrite IH.
Qed.

Lemma consumed_app s rest : consumed (s +:+ rest) rest = s.
Proof.
  unfold consumed. rewrite length_append.
  replace (String.length s + String.length rest - String.length rest)%nat
    with (String.length s) by lia. apply substring_prefix.
Qed.

Definition stops (P : ascii -> bool) (s : string) : Prop :=
  match s with EmptyString => True | String c _ => P c = false end.

(** A star takes the longest run when the continuation accepts what follows it. *)
Lemma exec_star_run {A} P w rest (k : string -> option A) r :
  string_forall P w = true -> stops P rest -> k rest = Some r ->
  exec_star P (w +:+ rest) k = Some r.
Proof.
  intros Hw Hs Hk. induction w as [|c w IH].
  - change ("" +:+ rest) with rest. destruct rest as [|c rest]; simpl in *; [done|].
    by rewrite Hs.
  - rewrite append_cons. simpl in *. apply andb_prop in Hw as [-> Hw]. by rewrite IH.
Qed.

Lemma exec_plus_run P w rest m k r :
  empty w = false -> string_forall P w = true -> stops P rest -> k rest m = Some r ->
  exec (RPlus P) (w +:+ rest) m k = Some r.
Proof.
  intros He Hw Hs Hk. destruct w as [|c w]; [done|]. rewrite append_cons. simpl in *.
  apply andb_prop in Hw as [-> Hw]. by apply exec_star_run.
Qed.

(** A character outside the class stops the star at once. *)
Lemma exec_star_stop {A} P s (k : string -> option A) : stops P s -> exec_star P s k = k s.
Proof. destruct s as [|c s]; simpl; [done|]. by intros ->. Qed.

Lemma regex_match_plus P w :
  empty w = false -> string_forall P w = true -> regex_match (RPlus P) w = Some [].
Proof.
  intros He Hw. unfold regex_match. rewrite <- (append_nil_r w). by apply exec_plus_run.
Qed.

(** A star never skips a character outside its class. *)
Lemma exec_star_all {A} P s (k : string -> option A) r :
  exec_star P s k = Some r ->
  exists w rest, s = w +:+ rest /\ string_forall P w = true /\ k rest = Some r.
Proof.
  induction s as [|c s IH]; simpl; [by exists "", ""|].
  destruct (P c) eqn:Pc; [|by exists "", (String c s)].
  destruct (exec_star P s k) as [r'|] eqn:E; [|by exists "", (String c s)].
  intros ?; simplify_eq. destruct IH as (w & rest & -> & Hw & Hk); [done|].
  exists (String c w), rest. simpl. by rewrite Pc.
Qed.

Lemma regex_match_plus_none P s :
  string_forall P s = false -> regex_match (RPlus P) s = None.
Proof.
  intros Hs. unfold regex_match. destruct s as [|c s]; [done|]. simpl in *.
  destruct (P c); [|done]. simpl in Hs.
  destruct (exec_star P s _) as [r|] eqn:E; [|done].
  apply exec_star_all in E as (w & rest & -> & Hw & Hk).
  destruct rest; [|done]. rewrite append_nil_r in Hs. congruence.
Qed.

(** * Floating-point numbers

    The values behind the bit patterns of [float] and [double], their comparison,
    and the text [std::to_string] gives for them. *)

(** A number with [m] bits of mantissa and [e] bits of exponent below the sign. *)
Inductive fp :=
| Finite (negative : bool) (mantissa exponent : Z)
| Infinite (negative : bool)
| NaN (negative : bool).

Definition decode_fp (m e bits : Z) : fp :=
  let negative := Z.testbit bits (m + e) in
  let exponent := Z.land (Z.shiftr bits m) (2 ^ e - 1) in
  let mantissa := Z.land bits (2 ^ m - 1) in
  let bias := 2 ^ (e - 1) - 1 in
  if exponent =? 2 ^ e - 1 then if mantissa =? 0 then Infinite negative else NaN negative
  else if exponent =? 0 then Finite negative mantissa (1 - bias - m)
  else Finite negative (mantissa + 2 ^ m) (exponent - bias - m).

Definition decode_float : Z -> fp := decode_fp 23 8.
Definition decode_double : Z -> fp := decode_fp 52 11.

(** [==] on numbers of one type: a NaN is unequal to itself, the zeros are equal. *)
Definition fp_eqb (dec : Z -> fp) (b1 b2 : Z) : bool :=
  match dec b1, dec b2 with
  | NaN _, _ | _, NaN _ => false
  | Finite _ 0 _, Finite _ 0 _ => true
  | _, _ => b1 =? b2
  end.

(** The quotient rounded to nearest, ties to even. *)
Definition div_even (n d : Z) : Z :=
  let q := n / d in
  let r := n mod d in
  if 2 * r <? d then q
  else if d <? 2 * r then q + 1
  else if Z.even q then q else q + 1.

(** The six digits after the point. *)
Definition six_digits (n : Z) : string :=
  let s := to_string n in
  String.concat "" (replicate (6 - String.length s) "0") +:+ s.

(** [std::to_string] on [float] and [double]: the format [%f]. *)
Definition to_string_fp (x : fp) : string :=
  let sign (negative : bool) := if negative then "-" else "" in
  match x with
  | Infinite negative => sign negative +:+ "inf"
  | NaN negative => sign negative +:+ "nan"
  | Finite negative m e =>
      let n := if 0 <=? e then m * 2 ^ e * 1000000 else div_even (m * 1000000) (2 ^ (- e)) in
      sign negative +:+ to_string (n / 1000000) +:+ "." +:+ six_digits (n mod 1000000)
  end.
