(* ===== verification/AbsPredicates.v ===== *)
(** * Query predicates

    Model of frameworks/native/rdb/src/abs_predicates.cpp: the builder of the
    WHERE, ORDER BY, GROUP BY, LIMIT, OFFSET and INDEXED BY parts of a statement.
    The methods return [this]; here they return the new state. *)
From S2P Require Import Prelude Strings.
From Stdlib Require Import Ascii.

Record AbsPredicates := mkPredicates {
  whereClause : string;
  whereArgs : list string;
  order : string;
  group : string;
  index : string;
  limit : Z;
  offset : Z;
  distinct : bool;
  isNeedAnd : bool;
  isSorted : bool;
}.

Definition Initial : AbsPredicates := mkPredicates "" [] "" "" "" (-1) (-1) false false false.
Definition Clear (p : AbsPredicates) : AbsPredicates := Initial.
Definition IsNeedAnd (p : AbsPredicates) : bool := isNeedAnd p.

(** ** Field updates *)
Definition with_where (p : AbsPredicates) (clause : string) (args : list string) (need : bool)
    : AbsPredicates :=
  mkPredicates clause args (order p) (group p) (index p) (limit p) (offset p) (distinct p)
    need (isSorted p).
Definition with_order (p : AbsPredicates) (o : string) (sorted : bool) : AbsPredicates :=
  mkPredicates (whereClause p) (whereArgs p) o (group p) (index p) (limit p) (offset p)
    (distinct p) (isNeedAnd p) sorted.
Definition with_group (p : AbsPredicates) (g : string) : AbsPredicates :=
  mkPredicates (whereClause p) (whereArgs p) (order p) g (index p) (limit p) (offset p)
    (distinct p) (isNeedAnd p) (isSorted p).
Definition with_index (p : AbsPredicates) (i : string) : AbsPredicates :=
  mkPredicates (whereClause p) (whereArgs p) (order p) (group p) i (limit p) (offset p)
    (distinct p) (isNeedAnd p) (isSorted p).
Definition with_limits (p : AbsPredicates) (l o : Z) (d : bool) : AbsPredicates :=
  mkPredicates (whereClause p) (whereArgs p) (order p) (group p) (index p) l o d
    (isNeedAnd p) (isSorted p).

(** [whereClause = whereClause + text]. *)
Definition append_where (p : AbsPredicates) (text : string) : AbsPredicates :=
  with_where p (whereClause p +:+ text) (whereArgs p) (isNeedAnd p).
(** [whereArgs.push_back(value)]. *)
Definition push_arg (p : AbsPredicates) (value : string) : AbsPredicates :=
  with_where p (whereClause p) (whereArgs p ++ [value]) (isNeedAnd p).

(** ** Helpers *)
Definition CheckParameter (field : string) (args : list string) : bool :=
  if empty field then false
  else if existsb empty args then false else true.

Definition RemoveQuotes (source : string) : string :=
  if empty source then source
  else
    let source := remove_char "'" source in
    let source := remove_char "034" source in
    remove_char "`" source.

(** The pieces between the dots; [acc] is the text since the last dot. *)
Definition split_dots (source acc : string) : list string := getlines "." source acc.

Definition Normalized (source : string) : string :=
  if empty source then source
  else if Nat.eqb (count_char "." source) 0 then SurroundWithQuote source "`"
  else
    match split_dots source "" with
    | [split0; split1] => SurroundWithQuote split0 "`" +:+ "." +:+ SurroundWithQuote split1 "`"
    | _ => source
    end.

Definition CheckIsNeedAnd (p : AbsPredicates) : AbsPredicates :=
  if isNeedAnd p then append_where p " AND " else with_where p (whereClause p) (whereArgs p) true.

Definition AppendWhereClauseWithInOrNotIn (p : AbsPredicates) (methodName field : string)
    (replaceValues : list string) : AbsPredicates :=
  append_where p
    (Normalized (RemoveQuotes field) +:+ SurroundWithFunction methodName "," replaceValues).

(** ** Conditions *)
Definition EqualTo (p : AbsPredicates) (field value : string) : AbsPredicates :=
  if negb (CheckParameter field [value]) then p
  else
    let p :=
      if isNeedAnd p then append_where p "AND "
      else with_where p (whereClause p) (whereArgs p) true in
    push_arg (append_where p (Normalized (RemoveQuotes field) +:+ " = ? ")) value.

Definition NotEqualTo (p : AbsPredicates) (field value : string) : AbsPredicates :=
  if negb (CheckParameter field [value]) then p
  else
    let p := CheckIsNeedAnd p in
    push_arg (append_where p (Normalized (RemoveQuotes field) +:+ " <> ? ")) value.

Definition BeginWrap (p : AbsPredicates) : AbsPredicates :=
  let p :=
    if isNeedAnd p then with_where p (whereClause p +:+ "AND ") (whereArgs p) false else p in
  append_where p " ( ".

Definition EndWrap (p : AbsPredicates) : AbsPredicates :=
  if negb (isNeedAnd p) then p else append_where p " ) ".

Definition Or (p : AbsPredicates) : AbsPredicates :=
  if negb (isNeedAnd p) then p else with_where p (whereClause p +:+ " OR ") (whereArgs p) false.

Definition And (p : AbsPredicates) : AbsPredicates := if negb (isNeedAnd p) then p else p.

Definition Contains (p : AbsPredicates) (field value : string) : AbsPredicates :=
  if negb (CheckParameter field [value]) then p
  else
    let p := CheckIsNeedAnd p in
    push_arg (append_where p (Normalized (RemoveQuotes field) +:+ " LIKE ? "))
      ("%" +:+ value +:+ "%").

Definition BeginsWith (p : AbsPredicates) (field value : string) : AbsPredicates :=
  if negb (CheckParameter field [value]) then p
  else
    let p := CheckIsNeedAnd p in
    push_arg (append_where p (Normalized (RemoveQuotes field) +:+ " LIKE ? ")) (value +:+ "%").

Definition EndsWith (p : AbsPredicates) (field value : string) : AbsPredicates :=
  if negb (CheckParameter field [value]) then p
  else
    let p := CheckIsNeedAnd p in
    push_arg (append_where p (Normalized (RemoveQuotes field) +:+ " LIKE ? ")) ("%" +:+ value).

Definition IsNull (p : AbsPredicates) (field : string) : AbsPredicates :=
  if negb (CheckParameter field []) then p
  else append_where (CheckIsNeedAnd p) (Normalized (RemoveQuotes field) +:+ " is null ").

Definition IsNotNull (p : AbsPredicates) (field : string) : AbsPredicates :=
  if negb (CheckParameter field []) then p
  else append_where (CheckIsNeedAnd p) (Normalized (RemoveQuotes field) +:+ " is not null ").

Definition Like (p : AbsPredicates) (field value : string) : AbsPredicates :=
  if negb (CheckParameter field [value]) then p
  else
    let p := CheckIsNeedAnd p in
    push_arg (append_where p (Normalized (RemoveQuotes field) +:+ " LIKE ? ")) value.

Definition Glob (p : AbsPredicates) (field value : string) : AbsPredicates :=
  if negb (CheckParameter field [value]) then p
  else
    let p := CheckIsNeedAnd p in
    push_arg (append_where p (Normalized (RemoveQuotes field) +:+ " GLOB ? ")) value.

Definition Between (p : AbsPredicates) (field low high : string) : AbsPredicates :=
  if negb (CheckParameter field [low; high]) then p
  else
    let p := CheckIsNeedAnd p in
    let p := append_where p (Normalized (RemoveQuotes field) +:+ " BETWEEN ? AND ? ") in
    push_arg (push_arg p low) high.

Definition NotBetween (p : AbsPredicates) (field low high : string) : AbsPredicates :=
  if negb (CheckParameter field [low; high]) then p
  else
    let p := CheckIsNeedAnd p in
    let p := append_where p (Normalized (RemoveQuotes field) +:+ " NOT BETWEEN ? AND ? ") in
    push_arg (push_arg p low) high.

Definition GreaterThan (p : AbsPredicates) (field value : string) : AbsPredicates :=
  if negb (CheckParameter field [value]) then p
  else
    let p := CheckIsNeedAnd p in
    push_arg (append_where p (Normalized (RemoveQuotes field) +:+ " > ? ")) value.

Definition LessThan (p : AbsPredicates) (field value : string) : AbsPredicates :=
  if negb (CheckParameter field [value]) then p
  else
    let p := CheckIsNeedAnd p in
    push_arg (append_where p (Normalized (RemoveQuotes field) +:+ " < ? ")) value.

Definition GreaterThanOrEqualTo (p : AbsPredicates) (field value : string) : AbsPredicates :=
  if negb (CheckParameter field [value]) then p
  else
    let p := CheckIsNeedAnd p in
    push_arg (append_where p (Normalized (RemoveQuotes field) +:+ " >= ? ")) value.

Definition LessThanOrEqualTo (p : AbsPredicates) (field value : string) : AbsPredicates :=
  if negb (CheckParameter field [value]) then p
  else
    let p := CheckIsNeedAnd p in
    push_arg (append_where p (Normalized (RemoveQuotes field) +:+ " <= ? ")) value.

(** The loop of [In] and [NotIn] pushes a placeholder and an argument per value. *)
Definition In (p : AbsPredicates) (field : string) (values : list string) : AbsPredicates :=
  if negb (CheckParameter field []) then p
  else
    match values with
    | [] => p
    | _ =>
        let p := CheckIsNeedAnd p in
        let replaceValues := (fun _ => "?") <$> values in
        let p := foldl push_arg p values in
        AppendWhereClauseWithInOrNotIn p " IN " field replaceValues
    end.

Definition NotIn (p : AbsPredicates) (field : string) (values : list string) : AbsPredicates :=
  if negb (CheckParameter field []) then p
  else
    match values with
    | [] => p
    | _ =>
        let p := CheckIsNeedAnd p in
        let replaceValues := (fun _ => "?") <$> values in
        let p := foldl push_arg p values in
        AppendWhereClauseWithInOrNotIn p " NOT IN " field replaceValues
    end.

(** ** Ordering, grouping and limits *)
Definition OrderByAsc (p : AbsPredicates) (field : string) : AbsPredicates :=
  if negb (CheckParameter field []) then p
  else
    let o := if isSorted p then order p +:+ "," else order p in
    with_order p (o +:+ Normalized (RemoveQuotes field) +:+ " ASC ") true.

Definition OrderByDesc (p : AbsPredicates) (field : string) : AbsPredicates :=
  if negb (CheckParameter field []) then p
  else
    let o := if isSorted p then order p +:+ "," else order p in
    with_order p (o +:+ Normalized (RemoveQuotes field) +:+ " DESC ") true.

Definition Distinct (p : AbsPredicates) : AbsPredicates :=
  with_limits p (limit p) (offset p) true.

Definition Limit (p : AbsPredicates) (value : Z) : AbsPredicates :=
  if negb (limit p =? -1) then p
  else if value <? 1 then p
  else with_limits p value (offset p) (distinct p).

Definition Offset (p : AbsPredicates) (rowOffset : Z) : AbsPredicates :=
  if negb (offset p =? -1) then p
  else if rowOffset <? 1 then p
  else with_limits p (limit p) rowOffset (distinct p).

(** [group.erase(group.find_last_of(","), 1)] when there is a comma. *)
Fixpoint erase_last (c : ascii) (s : string) : string :=
  match s with
  | EmptyString => EmptyString
  | String c' s' =>
      if Ascii.eqb c' c && Nat.eqb (count_char c s') 0 then s'
      else String c' (erase_last c s')
  end.

(** The loop stops at the first empty field; the flag says whether it did. *)
Fixpoint GroupBy_loop (p : AbsPredicates) (fields : list string) : bool * AbsPredicates :=
  match fields with
  | [] => (true, p)
  | field :: fields =>
      if negb (CheckParameter field []) then (false, p)
      else
        GroupBy_loop (with_group p (group p +:+ Normalized (RemoveQuotes field) +:+ ",")) fields
  end.

Definition GroupBy (p : AbsPredicates) (fields : list string) : AbsPredicates :=
  match fields with
  | [] => p
  | _ =>
      let '(completed, p) := GroupBy_loop p fields in
      if negb completed then p else with_group p (erase_last "," (group p))
  end.

Definition IndexedBy (p : AbsPredicates) (indexName : string) : AbsPredicates :=
  if negb (CheckParameter indexName []) then p
  else with_index p (RemoveQuotes indexName).

(** ** Accessors *)
Definition GetWhereClause (p : AbsPredicates) : string := whereClause p.
Definition SetWhereClause (p : AbsPredicates) (clause : string) : AbsPredicates :=
  if empty clause then p else with_where p clause (whereArgs p) (isNeedAnd p).
Definition GetWhereArgs (p : AbsPredicates) : list string := whereArgs p.
Definition SetWhereArgs (p : AbsPredicates) (args : list string) : AbsPredicates :=
  with_where p (whereClause p) args (isNeedAnd p).
Definition GetOrder (p : AbsPredicates) : string := order p.
Definition SetOrder (p : AbsPredicates) (o : string) : AbsPredicates :=
  if empty o then p else with_order p o (isSorted p).
Definition GetLimit (p : AbsPredicates) : Z := limit p.
Definition GetOffset (p : AbsPredicates) : Z := offset p.
Definition IsDistinct (p : AbsPredicates) : bool := distinct p.
Definition IsSorted (p : AbsPredicates) : bool := isSorted p.
Definition GetGroup (p : AbsPredicates) : string := group p.
Definition GetIndex (p : AbsPredicates) : string := index p.
