(* ===== verification/AbsPredicatesSpec.v ===== *)
(** * Correctness of the predicates

    The methods as operations on an abstract clause: a list of tokens with the
    arguments of its placeholders. The theorems say that the text handed to SQLite
    is the rendering of that clause, that it is grammatical, and that every
    placeholder has its argument. *)
From S2P Require Import Prelude Strings AbsPredicates.
From Stdlib Require Import Ascii.

#[local] Open Scope list_scope.

(** ** Calls *)
Inductive comparison_op :=
| CEqualTo | CNotEqualTo | CContains | CBeginsWith | CEndsWith | CLike | CGlob
| CGreaterThan | CLessThan | CGreaterThanOrEqualTo | CLessThanOrEqualTo.

Inductive pred_op :=
| OpCompare (c : comparison_op) (field value : string)
| OpNull (positive : bool) (field : string)
| OpBetween (positive : bool) (field low high : string)
| OpIn (positive : bool) (field : string) (values : list string)
| OpBeginWrap | OpEndWrap | OpOr | OpAnd
| OpOrderBy (asc : bool) (field : string)
| OpDistinct
| OpLimit (value : Z)
| OpOffset (value : Z)
| OpGroupBy (fields : list string)
| OpIndexedBy (name : string).

Definition run_compare (c : comparison_op) : AbsPredicates -> string -> string -> AbsPredicates :=
  match c with
  | CEqualTo => EqualTo | CNotEqualTo => NotEqualTo | CContains => Contains
  | CBeginsWith => BeginsWith | CEndsWith => EndsWith | CLike => Like | CGlob => Glob
  | CGreaterThan => GreaterThan | CLessThan => LessThan
  | CGreaterThanOrEqualTo => GreaterThanOrEqualTo | CLessThanOrEqualTo => LessThanOrEqualTo
  end.

Definition run_op (o : pred_op) (p : AbsPredicates) : AbsPredicates :=
  match o with
  | OpCompare c field value => run_compare c p field value
  | OpNull true field => IsNull p field
  | OpNull false field => IsNotNull p field
  | OpBetween true field low high => Between p field low high
  | OpBetween false field low high => NotBetween p field low high
  | OpIn true field values => In p field values
  | OpIn false field values => NotIn p field values
  | OpBeginWrap => BeginWrap p
  | OpEndWrap => EndWrap p
  | OpOr => Or p
  | OpAnd => And p
  | OpOrderBy true field => OrderByAsc p field
  | OpOrderBy false field => OrderByDesc p field
  | OpDistinct => Distinct p
  | OpLimit value => Limit p value
  | OpOffset value => Offset p value
  | OpGroupBy fields => GroupBy p fields
  | OpIndexedBy name => IndexedBy p name
  end.

Definition run_ops (ops : list pred_op) : AbsPredicates :=
  foldl (fun p o => run_op o p) Initial ops.

(** ** Tokens *)
Inductive tok :=
| TCond (text : string)
| TAnd (text : string)
| TOr
| TOpen
| TClose.

Definition render_tok (t : tok) : string :=
  match t with
  | TCond text | TAnd text => text
  | TOr => " OR "
  | TOpen => " ( "
  | TClose => " ) "
  end.

Definition render (ts : list tok) : string := foldr (fun t s => render_tok t +:+ s) "" ts.

Lemma render_app ts1 ts2 : render (ts1 ++ ts2) = render ts1 +:+ render ts2.
Proof.
  induction ts1 as [|t ts1 IH]; [done|]. simpl. by rewrite IH, append_assoc.
Qed.

(** What a call means for the clause. *)
Inductive effect :=
| ECond (sep text : string) (args : list string)
| EOpen
| EClose
| EOr
| ENone.

Definition compare_text (c : comparison_op) (value : string) : string * string :=
  match c with
  | CEqualTo => (" = ? ", value)
  | CNotEqualTo => (" <> ? ", value)
  | CContains => (" LIKE ? ", "%" +:+ value +:+ "%")
  | CBeginsWith => (" LIKE ? ", value +:+ "%")
  | CEndsWith => (" LIKE ? ", "%" +:+ value)
  | CLike => (" LIKE ? ", value)
  | CGlob => (" GLOB ? ", value)
  | CGreaterThan => (" > ? ", value)
  | CLessThan => (" < ? ", value)
  | CGreaterThanOrEqualTo => (" >= ? ", value)
  | CLessThanOrEqualTo => (" <= ? ", value)
  end.

Definition column (field : string) : string := Normalized (RemoveQuotes field).

(** A condition with an empty field or an empty value is dropped, and so is a
    membership test without values. *)
Definition effect_of (o : pred_op) : effect :=
  match o with
  | OpCompare c field value =>
      if CheckParameter field [value] then
        let '(text, arg) := compare_text c value in
        ECond (match c with CEqualTo => "AND " | _ => " AND " end) (column field +:+ text) [arg]
      else ENone
  | OpNull positive field =>
      if CheckParameter field [] then
        ECond " AND " (column field +:+ (if positive then " is null " else " is not null ")) []
      else ENone
  | OpBetween positive field low high =>
      if CheckParameter field [low; high] then
        ECond " AND "
          (column field +:+ (if positive then " BETWEEN ? AND ? " else " NOT BETWEEN ? AND ? "))
          [low; high]
      else ENone
  | OpIn positive field values =>
      if CheckParameter field [] && negb (Nat.eqb (length values) 0) then
        ECond " AND "
          (column field +:+ SurroundWithFunction (if positive then " IN " else " NOT IN ") ","
             ((fun _ => "?") <$> values)) values
      else ENone
  | OpBeginWrap => EOpen
  | OpEndWrap => EClose
  | OpOr => EOr
  | _ => ENone
  end.

(** The tokens a call adds, given whether an operand has just been completed, and
    whether one has been completed afterwards. *)
Definition emit (need : bool) (e : effect) : list tok :=
  match e with
  | ECond sep text _ => (if need then [TAnd sep] else []) ++ [TCond text]
  | EOpen => (if need then [TAnd "AND "] else []) ++ [TOpen]
  | EClose => if need then [TClose] else []
  | EOr => if need then [TOr] else []
  | ENone => []
  end.

Definition need_after (need : bool) (e : effect) : bool :=
  match e with ECond _ _ _ => true | EOpen => false | EOr => false | _ => need end.

Definition args_of (e : effect) : list string :=
  match e with ECond _ _ args => args | _ => [] end.

Lemma foldl_push_arg values p :
  foldl push_arg p values =
    with_where p (whereClause p) (whereArgs p ++ values) (isNeedAnd p).
Proof.
  revert p. induction values as [|v values IH]; intros p; simpl.
  - rewrite app_nil_r. by destruct p.
  - rewrite IH. unfold push_arg, with_where. simpl. by rewrite <- app_assoc.
Qed.

Definition where_part (p : AbsPredicates) : string * list string * bool :=
  (whereClause p, whereArgs p, isNeedAnd p).

(** The state a call with effect [e] leaves of the WHERE part. *)
Definition where_step (e : effect) (p : AbsPredicates) : string * list string * bool :=
  (whereClause p +:+ render (emit (isNeedAnd p) e), (whereArgs p ++ args_of e)%list,
   need_after (isNeedAnd p) e).

Ltac where_norm :=
  unfold where_part, where_step; simpl;
  by rewrite <- ?app_assoc, ?append_assoc, ?append_nil_r, ?app_nil_r.

Lemma run_compare_where c field value p :
  where_part (run_compare c p field value) = where_step (effect_of (OpCompare c field value)) p.
Proof.
  destruct p as [clause args ord grp idx lim off dst need srt].
  destruct c; simpl;
    unfold EqualTo, NotEqualTo, Contains, BeginsWith, EndsWith, Like, Glob, GreaterThan,
      LessThan, GreaterThanOrEqualTo, LessThanOrEqualTo, CheckIsNeedAnd;
    destruct (CheckParameter field [value]), need; where_norm.
Qed.

Lemma run_in_where positive field values p :
  where_part (run_op (OpIn positive field values) p) =
    where_step (effect_of (OpIn positive field values)) p.
Proof.
  destruct p as [clause args ord grp idx lim off dst need srt].
  destruct positive; simpl; unfold In, NotIn, CheckIsNeedAnd;
    destruct (CheckParameter field []), values as [|v values]; simpl;
    rewrite ?foldl_push_arg; try where_norm; destruct need; where_norm.
Qed.

Lemma GroupBy_where p fields : where_part (GroupBy p fields) = where_part p.
Proof.
  assert (Hloop : forall fs p, where_part (GroupBy_loop p fs).2 = where_part p).
  { induction fs as [|f fs IH]; intros q; simpl; [done|]. case_if; [done|]. by rewrite IH. }
  unfold GroupBy. destruct fields as [|f fields]; [done|].
  specialize (Hloop (f :: fields) p). destruct (GroupBy_loop p (f :: fields)) as [[] q]; done.
Qed.

(** Every method changes the WHERE part as its effect says. *)
Lemma run_op_where o p : where_part (run_op o p) = where_step (effect_of o) p.
Proof.
  destruct o as [c field value|b field|b field low high|b field values| | | | |b field
                |  | value|value|fields|name]; [apply run_compare_where| | |apply run_in_where| ..];
    destruct p as [clause args ord grp idx lim off dst need srt]; simpl.
  - destruct b; unfold IsNull, IsNotNull, CheckIsNeedAnd;
      destruct (CheckParameter field []), need; where_norm.
  - destruct b; unfold Between, NotBetween, CheckIsNeedAnd;
      destruct (CheckParameter field [low; high]), need; where_norm.
  - unfold BeginWrap. destruct need; where_norm.
  - unfold EndWrap. destruct need; where_norm.
  - unfold Or. destruct need; where_norm.
  - unfold And. destruct need; where_norm.
  - destruct b; unfold OrderByAsc, OrderByDesc; destruct (CheckParameter field []); where_norm.
  - where_norm.
  - unfold Limit. repeat case_if; where_norm.
  - unfold Offset. repeat case_if; where_norm.
  - rewrite GroupBy_where. where_norm.
  - unfold IndexedBy. destruct (CheckParameter name []); where_norm.
Qed.

(** ** The clause of a sequence of calls *)
Fixpoint clause_from (need : bool) (ops : list pred_op) : list tok * bool :=
  match ops with
  | [] => ([], need)
  | o :: ops =>
      let '(ts, need') := clause_from (need_after need (effect_of o)) ops in
      ((emit need (effect_of o) ++ ts)%list, need')
  end.

Definition clause_tokens (ops : list pred_op) : list tok := (clause_from false ops).1.
Definition clause_args (ops : list pred_op) : list string :=
  ops ≫= (fun o => args_of (effect_of o)).

Lemma run_ops_where ops : forall p,
  where_part (foldl (fun p o => run_op o p) p ops) =
    (whereClause p +:+ render (clause_from (isNeedAnd p) ops).1,
     (whereArgs p ++ clause_args ops)%list, (clause_from (isNeedAnd p) ops).2).
Proof.
  induction ops as [|o ops IH]; intros p; simpl; [where_norm|].
  rewrite IH. pose proof (run_op_where o p) as E. unfold where_part, where_step in E.
  injection E as -> -> ->. destruct (clause_from (need_after _ _) ops) as [ts need'] eqn:E'.
  simpl. by rewrite render_app, append_assoc, <- app_assoc.
Qed.

Lemma run_ops_clause ops :
  GetWhereClause (run_ops ops) = render (clause_tokens ops) /\
  GetWhereArgs (run_ops ops) = clause_args ops /\
  IsNeedAnd (run_ops ops) = (clause_from false ops).2.
Proof. pose proof (run_ops_where ops Initial) as E. by injection E as E1 E2 E3. Qed.

(** ** Placeholders *)

(** The columns a call names have no question mark. *)
Definition plain (field : string) : Prop := count_char "?" field = 0%nat.

Definition op_plain (o : pred_op) : Prop :=
  match o with
  | OpCompare _ field _ | OpNull _ field | OpBetween _ field _ _ | OpIn _ field _ => plain field
  | _ => True
  end.

Lemma split_dots_plain c s : forall acc,
  (sum_list (count_char c <$> split_dots s acc) <= count_char c s + count_char c acc)%nat.
Proof.
  unfold split_dots.
  induction s as [|c' s IH]; intros acc; csimpl.
  - destruct (empty acc); csimpl; lia.
  - destruct (Ascii.eqb c' "."); csimpl.
    + specialize (IH ""). simpl in IH. destruct (Ascii.eqb c' c); lia.
    + specialize (IH (acc +:+ String c' "")). rewrite count_char_app in IH. simpl in IH.
      destruct (Ascii.eqb c' c); lia.
Qed.

Lemma count_quote c s : c <> "`"%char -> count_char c (SurroundWithQuote s "`") = count_char c s.
Proof.
  intros Hc. unfold SurroundWithQuote. destruct (empty s); [done|].
  rewrite !count_char_app. assert (E : count_char c "`" = 0%nat).
  { cbn [count_char]. by rewrite (proj2 (Ascii.eqb_neq _ _) (not_eq_sym Hc)). }
  lia.
Qed.

Lemma Normalized_plain s : plain s -> plain (Normalized s).
Proof.
  unfold plain, Normalized. intros Hs. destruct (empty s); [done|].
  destruct (Nat.eqb _ 0); [by rewrite count_quote|].
  pose proof (split_dots_plain "?" s "") as Hsum. simpl in Hsum.
  destruct (split_dots s "") as [|s0 [|s1 [|]]]; try done. simpl in Hsum.
  rewrite !count_char_app, !count_quote by done. simpl. lia.
Qed.

Lemma RemoveQuotes_plain s : plain s -> plain (RemoveQuotes s).
Proof.
  unfold plain, RemoveQuotes. intros Hs. destruct (empty s); [done|].
  by rewrite !count_char_remove.
Qed.

Lemma column_plain field : plain field -> count_char "?" (column field) = 0%nat.
Proof. intros H. by apply Normalized_plain, RemoveQuotes_plain. Qed.

Lemma sum_list_placeholders (values : list string) :
  sum_list (count_char "?" <$> ((fun _ => "?") <$> values)) = length values.
Proof. induction values as [|v values IH]; [done|]. csimpl. by rewrite IH. Qed.

Lemma effect_placeholders o need :
  op_plain o ->
  count_char "?" (render (emit need (effect_of o))) = length (args_of (effect_of o)).
Proof.
  intros Hp. destruct o as [c field value|b field|b field low high|b field values| | | | |
                           |  | | | |]; try (by destruct need); simpl.
  - destruct (CheckParameter field [value]); [|done].
    destruct c, need; simpl; rewrite ?count_char_app, column_plain by done; done.
  - destruct (CheckParameter field []); [|done].
    destruct b, need; simpl; rewrite ?count_char_app, column_plain by done; done.
  - destruct (CheckParameter field [low; high]); [|done].
    destruct b, need; simpl; rewrite ?count_char_app, column_plain by done; done.
  - destruct (CheckParameter field [] && _); [|done].
    destruct b, need; simpl;
      rewrite !count_char_app, column_plain, count_char_function, sum_list_placeholders by done;
      simpl; lia.
Qed.

Lemma clause_placeholders ops : Forall op_plain ops -> forall need,
  count_char "?" (render (clause_from need ops).1) = length (clause_args ops).
Proof.
  induction 1 as [|o ops Ho _ IH]; intros need; [done|]. simpl.
  specialize (IH (need_after need (effect_of o))).
  destruct (clause_from _ ops) as [ts need'] eqn:E. simpl in IH. simpl.
  rewrite render_app, count_char_app, length_app. by rewrite effect_placeholders, IH.
Qed.

(** Every placeholder of the WHERE clause has its argument: after any sequence
    of calls whose column names contain no question mark, the clause contains as
    many question marks as there are WHERE arguments. *)
Theorem where_placeholders ops :
  Forall op_plain ops ->
  count_char "?" (GetWhereClause (run_ops ops)) = length (GetWhereArgs (run_ops ops)).
Proof.
  intros Hops. destruct (run_ops_clause ops) as (-> & -> & _). by apply clause_placeholders.
Qed.

Definition demo_calls : list pred_op :=
  [OpCompare CEqualTo "name" "Li"; OpBeginWrap; OpIn true "t.age" ["1"; "2"]; OpOr;
   OpBetween false "salary" "10" "20"; OpEndWrap; OpCompare CContains "" "dropped";
   OpNull true "end"; OpLimit 5; OpLimit 9].

Example demo_clause :
  GetWhereClause (run_ops demo_calls) =
    "`name` = ? AND  ( `t`.`age` IN (? , ?) OR `salary` NOT BETWEEN ? AND ?  )  AND `end` is null ".
Proof. vm_compute. reflexivity. Qed.

Lemma where_placeholders_witness :
  count_char "?" (GetWhereClause (run_ops demo_calls)) =
    length (GetWhereArgs (run_ops demo_calls)).
Proof. apply (where_placeholders demo_calls). repeat constructor; vm_compute; done. Defined.

(** ** Grammar

    A clause is a sequence of terms joined by AND and OR; a term is a condition or
    a clause in parentheses. *)
Definition is_op (t : tok) : Prop := match t with TAnd _ | TOr => True | _ => False end.

Inductive is_term : list tok -> Prop :=
| term_cond text : is_term [TCond text]
| term_wrap ts : is_clause ts -> is_term (TOpen :: ts ++ [TClose])
with is_clause : list tok -> Prop :=
| clause_term ts : is_term ts -> is_clause ts
| clause_op ts t us : is_clause ts -> is_op t -> is_term us -> is_clause (ts ++ t :: us).

(** The nesting depth after the tokens, [None] when a parenthesis is closed that
    was never opened. *)
Fixpoint nest (d : nat) (ts : list tok) : option nat :=
  match ts with
  | [] => Some d
  | TOpen :: ts => nest (S d) ts
  | TClose :: ts => match d with O => None | S d => nest d ts end
  | _ :: ts => nest d ts
  end.

(** What stands inside the innermost open parenthesis: a clause when an operand was
    completed last, otherwise nothing or a clause followed by an operator. *)
Inductive level : bool -> list tok -> Prop :=
| level_start : level false []
| level_op ts t : is_clause ts -> is_op t -> level false (ts ++ [t])
| level_clause ts : is_clause ts -> level true ts.

Fixpoint partial (d : nat) (need : bool) (ts : list tok) : Prop :=
  match d with
  | O => level need ts
  | S d => exists pre inner, ts = pre ++ TOpen :: inner /\ partial d false pre /\ level need inner
  end.

Lemma level_term ts us : level false ts -> is_term us -> level true (ts ++ us).
Proof.
  inversion 1 as [|ts' t Hc Ht|]; subst; intros Hu; constructor; [by constructor|].
  rewrite <- app_assoc. by apply clause_op.
Qed.

Lemma level_operator ts t : level true ts -> is_op t -> level false (ts ++ [t]).
Proof. inversion 1; subst. by constructor. Qed.

Lemma partial_lift d need need' ts us :
  (forall l, level need l -> level need' (l ++ us)) ->
  partial d need ts -> partial d need' (ts ++ us).
Proof.
  intros Hl. destruct d as [|d]; simpl; [apply Hl|].
  intros (pre & inner & -> & Hp & Hi). exists pre, (inner ++ us).
  split_and!; [by rewrite <- app_assoc|done|by apply Hl].
Qed.

Lemma partial_term d ts us : partial d false ts -> is_term us -> partial d true (ts ++ us).
Proof. intros Hp Hu. eapply partial_lift, Hp. intros l Hl. by apply level_term. Qed.

Lemma partial_operator d ts t : partial d true ts -> is_op t -> partial d false (ts ++ [t]).
Proof. intros Hp Ht. eapply partial_lift, Hp. intros l Hl. by apply level_operator. Qed.

Lemma partial_open d ts : partial d false ts -> partial (S d) false (ts ++ [TOpen]).
Proof. intros Hp. exists ts, []. split_and!; [done|done|constructor]. Qed.

Lemma partial_close d ts : partial (S d) true ts -> partial d true (ts ++ [TClose]).
Proof.
  intros (pre & inner & -> & Hp & Hi). inversion Hi; subst. rewrite <- app_assoc. simpl.
  apply partial_term; [done|]. by constructor.
Qed.

Lemma nest_app d ts us : nest d (ts ++ us) = nest d ts ≫= (fun d' => nest d' us).
Proof.
  revert d. induction ts as [|t ts IH]; intros d; [done|].
  destruct t; simpl; try apply IH. destruct d; [done|apply IH].
Qed.

(** One call keeps the clause well formed. *)
Lemma emit_partial e d need d' ts :
  partial d need ts -> nest d (emit need e) = Some d' ->
  partial d' (need_after need e) (ts ++ emit need e).
Proof.
  intros Hp Hn. destruct e as [sep text args| | | |]; simpl in *.
  - assert (d' = d) as -> by (destruct need; simpl in Hn; congruence).
    destruct need; simpl; [|apply partial_term; [done|constructor]].
    rewrite (cons_middle (TAnd sep)), app_assoc.
    apply partial_term; [by apply partial_operator|constructor].
  - assert (d' = S d) as -> by (destruct need; simpl in Hn; congruence).
    destruct need; simpl; [|by apply partial_open].
    rewrite (cons_middle (TAnd _)), app_assoc. by apply partial_open, partial_operator.
  - destruct need; simpl in *; [|rewrite app_nil_r; congruence].
    destruct d as [|d]; [done|]. simplify_eq. by apply partial_close.
  - destruct need; simpl in *; simplify_eq; [by apply partial_operator|by rewrite app_nil_r].
  - simplify_eq. by rewrite app_nil_r.
Qed.

Lemma clause_partial ops : forall d need d' ts,
  partial d need ts -> nest d (clause_from need ops).1 = Some d' ->
  partial d' (clause_from need ops).2 (ts ++ (clause_from need ops).1).
Proof.
  induction ops as [|o ops IH]; intros d need d' ts Hp Hn; simpl in *.
  { simplify_eq. by rewrite app_nil_r. }
  destruct (clause_from (need_after need (effect_of o)) ops) as [us need'] eqn:E. simpl in *.
  rewrite nest_app in Hn. apply bind_Some in Hn as (d1 & Hn1 & Hn2).
  pose proof (emit_partial _ _ _ _ _ Hp Hn1) as Hp1.
  specialize (IH d1 (need_after need (effect_of o)) d' (ts ++ emit need (effect_of o))).
  rewrite E in IH. simpl in IH. rewrite app_assoc. by apply IH.
Qed.

(** C12: The WHERE clause is the rendering of the conditions in the order of the
    calls, joined by AND except where [Or] was called, and it is a well-formed
    expression whenever the parentheses were closed and the last call that took
    effect completed an operand. *)
Theorem where_clause_grammar ops :
  nest 0 (clause_tokens ops) = Some 0%nat -> IsNeedAnd (run_ops ops) = true ->
  GetWhereClause (run_ops ops) = render (clause_tokens ops) /\
  GetWhereArgs (run_ops ops) = clause_args ops /\
  is_clause (clause_tokens ops).
Proof.
  destruct (run_ops_clause ops) as (Hc & Ha & Hn). intros Hd Hneed. split_and!; [done|done|].
  pose proof (clause_partial ops 0 false 0 [] level_start Hd) as Hp.
  rewrite <- Hn, Hneed in Hp. by inversion Hp.
Qed.

Lemma where_clause_grammar_witness :
  GetWhereClause (run_ops demo_calls) = render (clause_tokens demo_calls) /\
  GetWhereArgs (run_ops demo_calls) = clause_args demo_calls /\
  is_clause (clause_tokens demo_calls).
Proof. apply (where_clause_grammar demo_calls); vm_compute; reflexivity. Defined.

(** ** Quoting of column names *)
Definition quote_free (s : string) : Prop :=
  count_char "'" s = 0%nat /\ count_char "034" s = 0%nat /\ count_char "`" s = 0%nat.

Lemma RemoveQuotes_quote_free s : quote_free (RemoveQuotes s).
Proof.
  unfold quote_free, RemoveQuotes. destruct s as [|c s]; [done|]. cbn [empty].
  by rewrite !count_char_remove.
Qed.

Lemma count_dot_sep a s :
  Nat.eqb (count_char "." (a +:+ "." +:+ s)) 0 = false.
Proof. rewrite !count_char_app. apply Nat.eqb_neq. simpl. lia. Qed.

Lemma empty_sep a s : empty (a +:+ "." +:+ s) = false.
Proof. by destruct a. Qed.

(** A column name reaches the statement without quote characters of its own;
    a plain name is put between back quotes, and so are the two parts of a
    [table.column] name. A name with more parts is left as it is. *)
Theorem column_quoting field :
  quote_free (RemoveQuotes field) /\
  (RemoveQuotes field <> "" -> count_char "." (RemoveQuotes field) = 0%nat ->
     column field = "`" +:+ RemoveQuotes field +:+ "`") /\
  (forall table name, RemoveQuotes field = table +:+ "." +:+ name ->
     count_char "." table = 0%nat -> count_char "." name = 0%nat ->
     empty table = false -> empty name = false ->
     column field = "`" +:+ table +:+ "`.`" +:+ name +:+ "`") /\
  (forall a b c, RemoveQuotes field = a +:+ "." +:+ b +:+ "." +:+ c ->
     count_char "." a = 0%nat -> count_char "." b = 0%nat -> empty c = false ->
     column field = RemoveQuotes field).
Proof.
  unfold column, Normalized, split_dots. split_and!.
  - apply RemoveQuotes_quote_free.
  - intros Hne Hdot. rewrite Hdot. unfold SurroundWithQuote.
    destruct (RemoveQuotes field); done.
  - intros t n -> Ht Hn Et En. rewrite empty_sep, count_dot_sep, getlines_prefix by done.
    rewrite getlines_last by done. unfold SurroundWithQuote.
    change ("" +:+ t) with t. change ("" +:+ n) with n. rewrite Et, En.
    by rewrite !append_assoc.
  - intros a b c -> Ha Hb Hc. rewrite empty_sep, count_dot_sep, getlines_prefix by done.
    rewrite getlines_prefix by done.
    pose proof (getlines_nonnil "." c "" (or_intror Hc)). by destruct (getlines "." c "").
Qed.

Lemma column_quoting_witness :
  column "person.'name'" = "`" +:+ "person" +:+ "`.`" +:+ "name" +:+ "`" /\
  column "a.b.c; --" = "a.b.c; --".
Proof.
  split.
  - apply (proj1 (proj2 (proj2 (column_quoting "person.'name'")))); vm_compute; reflexivity.
  - apply (proj2 (proj2 (proj2 (column_quoting "a.b.c; --"))) "a" "b" "c; --");
      vm_compute; reflexivity.
Defined.

(** ** Ordering, limits and grouping *)
Definition order_term (o : pred_op) : option string :=
  match o with
  | OpOrderBy asc field =>
      if CheckParameter field [] then
        Some (column field +:+ (if asc then " ASC " else " DESC "))
      else None
  | _ => None
  end.

Definition limit_value (o : pred_op) : option Z :=
  match o with OpLimit v => if v <? 1 then None else Some v | _ => None end.
Definition offset_value (o : pred_op) : option Z :=
  match o with OpOffset v => if v <? 1 then None else Some v | _ => None end.
Definition is_distinct (o : pred_op) : bool := match o with OpDistinct => true | _ => false end.

(** The fields the WHERE methods leave alone. *)
Definition rest_part (p : AbsPredicates) : string * bool * Z * Z * bool :=
  (order p, isSorted p, limit p, offset p, distinct p).

(** A value is taken only while none has been set. *)
Definition set_once (old : Z) (new : option Z) : Z :=
  if old =? -1 then default old new else old.

Definition rest_step (o : pred_op) (p : AbsPredicates) : string * bool * Z * Z * bool :=
  (match order_term o with
   | Some t => if isSorted p then order p +:+ "," +:+ t else order p +:+ t
   | None => order p
   end,
   match order_term o with Some _ => true | None => isSorted p end,
   set_once (limit p) (limit_value o), set_once (offset p) (offset_value o),
   distinct p || is_distinct o).

Lemma rest_same o p :
  order_term o = None -> limit_value o = None -> offset_value o = None -> is_distinct o = false ->
  rest_step o p = rest_part p.
Proof.
  intros E1 E2 E3 E4. unfold rest_step, rest_part, set_once.
  rewrite E1, E2, E3, E4, orb_false_r. simpl. by repeat case_if.
Qed.

Lemma foldl_push_arg_rest values p : rest_part (foldl push_arg p values) = rest_part p.
Proof. by rewrite foldl_push_arg. Qed.

Lemma GroupBy_rest p fields : rest_part (GroupBy p fields) = rest_part p.
Proof.
  assert (Hloop : forall fs p, rest_part (GroupBy_loop p fs).2 = rest_part p).
  { induction fs as [|f fs IH]; intros q; simpl; [done|]. case_if; [done|]. by rewrite IH. }
  unfold GroupBy. destruct fields as [|f fields]; [done|].
  specialize (Hloop (f :: fields) p). by destruct (GroupBy_loop p (f :: fields)) as [[] q].
Qed.

Lemma run_compare_rest c field value p : rest_part (run_compare c p field value) = rest_part p.
Proof.
  destruct c; simpl;
    unfold EqualTo, NotEqualTo, Contains, BeginsWith, EndsWith, Like, Glob, GreaterThan,
      LessThan, GreaterThanOrEqualTo, LessThanOrEqualTo, CheckIsNeedAnd;
    destruct (CheckParameter field [value]), (isNeedAnd p); done.
Qed.

Lemma run_op_rest o p : rest_part (run_op o p) = rest_step o p.
Proof.
  destruct o as [c field value|b field|b field low high|b field values| | | | |b field
                |  | value|value|fields|name];
    try (rewrite rest_same by done); simpl.
  - apply run_compare_rest.
  - destruct b; unfold IsNull, IsNotNull, CheckIsNeedAnd; by repeat case_if.
  - destruct b; unfold Between, NotBetween, CheckIsNeedAnd; by repeat case_if.
  - destruct b; unfold In, NotIn, CheckIsNeedAnd; destruct values; repeat case_if; try done;
      unfold AppendWhereClauseWithInOrNotIn; by rewrite foldl_push_arg.
  - unfold BeginWrap. by case_if.
  - unfold EndWrap. by case_if.
  - unfold Or. by case_if.
  - unfold And. by case_if.
  - unfold rest_step, rest_part, set_once. simpl. rewrite orb_false_r.
    destruct b; unfold OrderByAsc, OrderByDesc; destruct (CheckParameter field []); simpl;
      repeat case_if; by rewrite ?append_assoc.
  - unfold rest_step, rest_part, set_once. simpl. rewrite orb_true_r. by repeat case_if.
  - unfold rest_step, rest_part, set_once, Limit. simpl. rewrite orb_false_r.
    destruct (limit p =? -1), (value <? 1); simpl; by repeat case_if.
  - unfold rest_step, rest_part, set_once, Offset. simpl. rewrite orb_false_r.
    destruct (offset p =? -1), (value <? 1); simpl; by repeat case_if.
  - apply GroupBy_rest.
  - unfold IndexedBy. by case_if.
Qed.

Lemma concat_snoc sep (l : list string) t :
  String.concat sep (l ++ [t]) =
    match l with [] => t | _ => String.concat sep l +:+ sep +:+ t end.
Proof.
  destruct l as [|x l]; [done|]. revert x. induction l as [|y l IH]; intros x; [done|].
  simpl in *. rewrite IH. by rewrite !append_assoc.
Qed.

Lemma set_once_first (l : list Z) new :
  Forall (fun v => 1 <= v) l ->
  set_once (default (-1) (head l)) new = default (-1) (head (l ++ option_list new)).
Proof.
  unfold set_once. destruct l as [|v l]; simpl; [by destruct new|].
  inversion 1; subst. destruct (v =? -1) eqn:E; [zlia|done].
Qed.

Lemma limit_value_pos ops : Forall (fun v => 1 <= v) (omap limit_value ops).
Proof.
  apply Forall_forall. intros v Hv. apply list_elem_of_omap in Hv as (o & _ & Ho).
  destruct o; try done. simpl in Ho. case_if_in Ho; [done|]. simplify_eq. zlia.
Qed.

Lemma offset_value_pos ops : Forall (fun v => 1 <= v) (omap offset_value ops).
Proof.
  apply Forall_forall. intros v Hv. apply list_elem_of_omap in Hv as (o & _ & Ho).
  destruct o; try done. simpl in Ho. case_if_in Ho; [done|]. simplify_eq. zlia.
Qed.

Lemma omap_snoc {A B} (f : A -> option B) l x :
  omap f (l ++ [x]) = omap f l ++ option_list (f x).
Proof. rewrite omap_app. simpl. by destruct (f x). Qed.

(** The ORDER BY text lists the valid terms of the calls in order, separated by
    commas; LIMIT and OFFSET are the first valid value given and stay at -1 without
    one; the query is distinct iff [Distinct] was called. *)
Theorem selection_parts ops :
  GetOrder (run_ops ops) = String.concat "," (omap order_term ops) /\
  IsSorted (run_ops ops) = negb (Nat.eqb (length (omap order_term ops)) 0) /\
  GetLimit (run_ops ops) = default (-1) (head (omap limit_value ops)) /\
  GetOffset (run_ops ops) = default (-1) (head (omap offset_value ops)) /\
  IsDistinct (run_ops ops) = existsb is_distinct ops.
Proof.
  induction ops as [|o ops IH] using rev_ind; [done|]. destruct IH as (E1 & E2 & E3 & E4 & E5).
  unfold run_ops in *. rewrite foldl_snoc. set (p := foldl _ Initial ops) in *.
  pose proof (run_op_rest o p) as E. unfold rest_part, rest_step in E.
  injection E as F1 F2 F3 F4 F5.
  unfold GetOrder, IsSorted, GetLimit, GetOffset, IsDistinct in *.
  rewrite F1, F2, F3, F4, F5, E1, E2, E3, E4, E5, !omap_snoc, existsb_app. simpl.
  rewrite orb_false_r, length_app. split_and!; try done.
  - destruct (order_term o) as [t|]; simpl; [|by rewrite app_nil_r]. rewrite concat_snoc.
    by destruct (omap order_term ops).
  - destruct (order_term o); simpl; [|by rewrite Nat.add_0_r].
    by rewrite Nat.add_comm.
  - apply set_once_first, limit_value_pos.
  - apply set_once_first, offset_value_pos.
Qed.

Lemma erase_last_snoc c s : erase_last c (s +:+ String c "") = s.
Proof.
  induction s as [|c' s IH]; [by simpl; rewrite Ascii.eqb_refl|].
  rewrite append_cons. simpl. rewrite count_char_app. simpl. rewrite Ascii.eqb_refl.
  rewrite (proj2 (Nat.eqb_neq _ 0)) by lia. rewrite andb_false_r. by rewrite IH.
Qed.

Lemma GroupBy_loop_ok p fields :
  Forall (fun f => empty f = false) fields ->
  (GroupBy_loop p fields).1 = true /\
  group (GroupBy_loop p fields).2 =
    group p +:+ foldr (fun f s => column f +:+ "," +:+ s) "" fields.
Proof.
  intros Hf. revert p. induction Hf as [|f fields Hne _ IH]; intros p; simpl.
  { by rewrite append_nil_r. }
  unfold CheckParameter. rewrite Hne. simpl.
  destruct (IH (with_group p (group p +:+ column f +:+ ","))) as [E1 E2].
  split; [exact E1|]. etransitivity; [exact E2|]. simpl. by rewrite !append_assoc.
Qed.

Lemma foldr_concat f fields :
  foldr (fun f s => column f +:+ "," +:+ s) "" (f :: fields) =
    String.concat "," (column <$> f :: fields) +:+ ",".
Proof.
  revert f. induction fields as [|g fields IH]; intros f; [by simpl; rewrite append_nil_r|].
  change (column f +:+ "," +:+ foldr (fun f s => column f +:+ "," +:+ s) "" (g :: fields) =
    (column f +:+ "," +:+ String.concat "," (column <$> g :: fields)) +:+ ",").
  rewrite IH. by rewrite !append_assoc.
Qed.

(** [GroupBy] with valid fields appends the quoted fields, separated by commas,
    to the GROUP BY text. Nothing separates them from the fields of an earlier
    call: the second of two calls runs its first field into the last field of the
    first. *)
Theorem GroupBy_appends p f fields :
  Forall (fun f => empty f = false) (f :: fields) ->
  GetGroup (GroupBy p (f :: fields)) =
    GetGroup p +:+ String.concat "," (column <$> f :: fields).
Proof.
  intros Hf. destruct (GroupBy_loop_ok p _ Hf) as [E1 E2]. unfold GetGroup, GroupBy.
  destruct (GroupBy_loop p (f :: fields)) as [b q]. simpl in E1, E2. subst b. simpl negb.
  cbv iota. unfold with_group, group at 1. rewrite E2.
  change (column f +:+ "," +:+ foldr (fun f s => column f +:+ "," +:+ s) "" fields)
    with (foldr (fun f s => column f +:+ "," +:+ s) "" (f :: fields)).
  rewrite foldr_concat, <- append_assoc. apply erase_last_snoc.
Qed.

Lemma GroupBy_appends_witness :
  GetGroup (GroupBy (GroupBy Initial ["a"; "b"]) ["c"]) = "`a`,`b`" +:+ "`c`".
Proof.
  apply (GroupBy_appends (GroupBy Initial ["a"; "b"]) "c" []). by repeat constructor.
Defined.

(** ** Index and group *)
Lemma GroupBy_only_group p fields : GroupBy p fields = with_group p (group (GroupBy p fields)).
Proof.
  assert (Hloop : forall fs p, (GroupBy_loop p fs).2 = with_group p (group (GroupBy_loop p fs).2)).
  { induction fs as [|f fs IH]; intros q; simpl; [by destruct q|]. destruct (negb _); simpl; [by destruct q|].
    by rewrite IH. }
  unfold GroupBy. destruct fields as [|f fields]; [by destruct p|].
  specialize (Hloop (f :: fields) p). destruct (GroupBy_loop p (f :: fields)) as [[] q]; simpl in *; [|done].
  by rewrite Hloop.
Qed.

Lemma run_op_index_group o p :
  (index (run_op o p), group (run_op o p)) =
    match o with
    | OpIndexedBy name => (if empty name then index p else RemoveQuotes name, group p)
    | OpGroupBy fields => (index p, group (GroupBy p fields))
    | _ => (index p, group p)
    end.
Proof.
  destruct o as [c field value|b field|b field low high|b field values| | | | |b field
                |  | value|value|fields|name]; simpl.
  - destruct c; simpl;
      unfold EqualTo, NotEqualTo, Contains, BeginsWith, EndsWith, Like, Glob, GreaterThan,
        LessThan, GreaterThanOrEqualTo, LessThanOrEqualTo, CheckIsNeedAnd;
      destruct (CheckParameter field [value]), (isNeedAnd p); done.
  - destruct b; unfold IsNull, IsNotNull, CheckIsNeedAnd; by repeat case_if.
  - destruct b; unfold Between, NotBetween, CheckIsNeedAnd; by repeat case_if.
  - destruct b; unfold In, NotIn, CheckIsNeedAnd; destruct values; repeat case_if; try done;
      unfold AppendWhereClauseWithInOrNotIn; by rewrite foldl_push_arg.
  - unfold BeginWrap. by case_if.
  - unfold EndWrap. by case_if.
  - unfold Or. by case_if.
  - unfold And. by case_if.
  - destruct b; unfold OrderByAsc, OrderByDesc; by repeat case_if.
  - done.
  - unfold Limit. by repeat case_if.
  - unfold Offset. by repeat case_if.
  - by rewrite GroupBy_only_group.
  - unfold IndexedBy, CheckParameter. by destruct (empty name).
Qed.

(** No name in the calls has a question mark. *)
Definition names_plain (o : pred_op) : Prop :=
  match o with
  | OpOrderBy _ field => plain field
  | OpGroupBy fields => Forall plain fields
  | OpIndexedBy name => plain name
  | o => op_plain o
  end.

Lemma erase_last_le c c' s : (count_char c (erase_last c' s) <= count_char c s)%nat.
Proof. induction s as [|a s IH]; simpl; [done|]. destruct (Ascii.eqb a c' && _); simpl; lia. Qed.

Lemma GroupBy_plain p fields : Forall plain fields -> plain (group p) -> plain (group (GroupBy p fields)).
Proof.
  intros Hf Hp. assert (Hloop : plain (group (GroupBy_loop p fields).2)).
  { revert p Hp. induction Hf as [|f fields Hx _ IH]; intros p Hp; simpl; [done|]. destruct (negb _); [done|].
    apply IH. unfold plain in *. simpl. rewrite !count_char_app.
    pose proof (column_plain f Hx) as E. unfold column in E. rewrite Hp, E. done. }
  unfold GroupBy. destruct fields as [|f fields]; [done|]. destruct (GroupBy_loop p (f :: fields)) as [[] q]; [|done].
  unfold plain in *. simpl in *. pose proof (erase_last_le "?" "," (group q)). lia.
Qed.

Lemma run_ops_plain ops :
  Forall names_plain ops ->
  plain (GetOrder (run_ops ops)) /\ plain (GetGroup (run_ops ops)) /\ plain (GetIndex (run_ops ops)).
Proof.
  unfold GetOrder, GetGroup, GetIndex. induction ops as [|o ops IH] using rev_ind; [done|].
  intros [Hops Ho]%Forall_app. apply Forall_cons in Ho as [Ho _]. destruct (IH Hops) as (H1 & H2 & H3). clear IH.
  unfold run_ops in *. rewrite foldl_snoc. set (p := foldl _ Initial ops) in *.
  pose proof (f_equal fst (run_op_index_group o p)) as Ei. pose proof (f_equal snd (run_op_index_group o p)) as Eg.
  pose proof (run_op_rest o p) as Er. unfold rest_part, rest_step in Er. injection Er as Eo _ _ _ _.
  simpl in Ei, Eg. rewrite Eo, Ei, Eg. clear Eo Ei Eg. split; [|split].
  - destruct o as [| | | | | | | |asc field| | | | |]; try done. simpl. destruct (CheckParameter field []); [|done].
    unfold plain in *. pose proof (column_plain field Ho) as E.
    destruct (isSorted p), asc; rewrite !count_char_app, H1, E; done.
  - destruct o; try done. by apply GroupBy_plain.
  - destruct o as [| | | | | | | | | | | | |name]; try done. simpl. destruct (empty name); [done|].
    by apply RemoveQuotes_plain.
Qed.

(** [SetWhereClause] does not record that an operand has been completed: the
    next condition is appended to the given clause without an AND. *)
Theorem SetWhereClause_joins_nothing clause field value :
  empty clause = false -> empty field = false -> empty value = false ->
  GetWhereClause (NotEqualTo (SetWhereClause Initial clause) field value) =
    clause +:+ column field +:+ " <> ? ".
Proof.
  intros Hc Hf Hv. unfold SetWhereClause. rewrite Hc.
  unfold NotEqualTo, CheckParameter. rewrite Hf. simpl. by rewrite Hv.
Qed.

Lemma SetWhereClause_joins_nothing_witness :
  GetWhereClause (NotEqualTo (SetWhereClause Initial "a = 1") "b" "2") = "a = 1" +:+ "`b`" +:+ " <> ? ".
Proof. apply (SetWhereClause_joins_nothing "a = 1" "b" "2"); reflexivity. Defined.
