(* ===== verification/RdbPredicates.v ===== *)
(** * Predicates on tables

    Model of frameworks/native/rdb/src/abs_rdb_predicates.cpp and
    rdb_predicates.cpp: predicates with a table name, a copy of the conditions for
    distributed queries, and joins. *)
From S2P Require Import Prelude Strings AbsPredicates.

#[local] Open Scope list_scope.

(** [DistributedRdb::RdbPredicates] belongs to another repository. *)
Inductive RdbPredicateOperator := EQUAL_TO | NOT_EQUAL_TO | AND | OR | ORDER_BY | LIMIT.

Class DistributedPredicates := {
  dpred : Type;
  dpred_empty : dpred;
  set_table_ : dpred -> string -> dpred;
  set_devices_ : dpred -> list string -> dpred;
  AddOperation : dpred -> RdbPredicateOperator -> string -> string -> dpred;
}.

Section Predicates.
Context `{DistributedPredicates}.

Record AbsRdbPredicates := mkRdb {
  base : AbsPredicates;
  joinTypes : list string;
  joinTableNames : list string;
  joinConditions : list string;
  joinCount : Z;
  tableName : string;
  predicates_ : dpred;
}.

Definition with_base (p : AbsRdbPredicates) (b : AbsPredicates) (d : dpred) : AbsRdbPredicates :=
  mkRdb b (joinTypes p) (joinTableNames p) (joinConditions p) (joinCount p) (tableName p) d.
Definition with_joins (p : AbsRdbPredicates) (types names conds : list string) (count : Z)
    : AbsRdbPredicates :=
  mkRdb (base p) types names conds count (tableName p) (predicates_ p).

(** ** abs_rdb_predicates.cpp *)
Definition new_AbsRdbPredicates (name : string) : AbsRdbPredicates :=
  if empty name then mkRdb Initial [] [] [] 0 "" dpred_empty
  else mkRdb Initial [] [] [] 0 name (set_table_ dpred_empty name).

Definition InitialParam (p : AbsRdbPredicates) : AbsRdbPredicates := with_joins p [] [] [] 0.

Definition Clear (p : AbsRdbPredicates) : AbsRdbPredicates :=
  InitialParam (with_base p (AbsPredicates.Clear (base p)) (predicates_ p)).

Definition GetJoinTypes (p : AbsRdbPredicates) : list string := joinTypes p.
Definition SetJoinTypes (p : AbsRdbPredicates) (l : list string) : AbsRdbPredicates :=
  with_joins p l (joinTableNames p) (joinConditions p) (joinCount p).
Definition GetJoinTableNames (p : AbsRdbPredicates) : list string := joinTableNames p.
Definition SetJoinTableNames (p : AbsRdbPredicates) (l : list string) : AbsRdbPredicates :=
  with_joins p (joinTypes p) l (joinConditions p) (joinCount p).
Definition GetJoinConditions (p : AbsRdbPredicates) : list string := joinConditions p.
Definition SetJoinConditions (p : AbsRdbPredicates) (l : list string) : AbsRdbPredicates :=
  with_joins p (joinTypes p) (joinTableNames p) l (joinCount p).
Definition AbsGetJoinClause (p : AbsRdbPredicates) : string := tableName p.
Definition GetJoinCount (p : AbsRdbPredicates) : Z := joinCount p.
Definition SetJoinCount (p : AbsRdbPredicates) (n : Z) : AbsRdbPredicates :=
  with_joins p (joinTypes p) (joinTableNames p) (joinConditions p) n.
Definition GetTableName (p : AbsRdbPredicates) : string := tableName p.

Definition bool_to_string (b : bool) : string := if b then "1" else "0".

Definition ToString (p : AbsRdbPredicates) : string :=
  let b := base p in
  let args := foldl (fun args item => args +:+ item +:+ ", ") "" (GetWhereArgs b) in
  "TableName = " +:+ GetTableName p +:+ ", {WhereClause:" +:+ GetWhereClause b
  +:+ ", whereArgs:{" +:+ args +:+ "}" +:+ ", order:" +:+ GetOrder b
  +:+ ", group:" +:+ GetGroup b +:+ ", index:" +:+ GetIndex b
  +:+ ", limit:" +:+ to_string (GetLimit b) +:+ ", offset:" +:+ to_string (GetOffset b)
  +:+ ", distinct:" +:+ bool_to_string (IsDistinct b)
  +:+ ", isNeedAnd:" +:+ bool_to_string (IsNeedAnd b)
  +:+ ", isSorted:" +:+ bool_to_string (IsSorted b) +:+ "}".

Definition InDevices (p : AbsRdbPredicates) (devices : list string) : AbsRdbPredicates :=
  with_base p (base p) (set_devices_ (predicates_ p) devices).
Definition InAllDevices (p : AbsRdbPredicates) : AbsRdbPredicates :=
  with_base p (base p) (set_devices_ (predicates_ p) []).

(** A [const] method that changes the mutable [predicates_]. *)
Definition GetDistributedPredicates (p : AbsRdbPredicates) : dpred * AbsRdbPredicates :=
  let limit := GetLimit (base p) in
  let d :=
    if limit >=? 0 then
      AddOperation (predicates_ p) LIMIT (to_string limit) (to_string (GetOffset (base p)))
    else predicates_ p in
  (d, with_base p (base p) d).

Definition EqualTo (p : AbsRdbPredicates) (field value : string) : AbsRdbPredicates :=
  with_base p (AbsPredicates.EqualTo (base p) field value)
    (AddOperation (predicates_ p) EQUAL_TO field value).
Definition NotEqualTo (p : AbsRdbPredicates) (field value : string) : AbsRdbPredicates :=
  with_base p (AbsPredicates.NotEqualTo (base p) field value)
    (AddOperation (predicates_ p) NOT_EQUAL_TO field value).
Definition And (p : AbsRdbPredicates) : AbsRdbPredicates :=
  with_base p (AbsPredicates.And (base p)) (AddOperation (predicates_ p) AND "" "").
Definition Or (p : AbsRdbPredicates) : AbsRdbPredicates :=
  with_base p (AbsPredicates.Or (base p)) (AddOperation (predicates_ p) OR "" "").
Definition OrderByAsc (p : AbsRdbPredicates) (field : string) : AbsRdbPredicates :=
  with_base p (AbsPredicates.OrderByAsc (base p) field)
    (AddOperation (predicates_ p) ORDER_BY field "true").
Definition OrderByDesc (p : AbsRdbPredicates) (field : string) : AbsRdbPredicates :=
  with_base p (AbsPredicates.OrderByDesc (base p) field)
    (AddOperation (predicates_ p) ORDER_BY field "false").

(** ** rdb_predicates.cpp *)
Inductive JoinType := INNER | LEFT | CROSS.

Definition new_RdbPredicates (name : string) : AbsRdbPredicates :=
  InitialParam (new_AbsRdbPredicates name).

Definition GetGrammar (type : JoinType) : string :=
  match type with INNER => "INNER JOIN" | LEFT => "LEFT OUTER JOIN" | CROSS => "CROSS JOIN" end.

Definition Join (p : AbsRdbPredicates) (join : JoinType) (name : string) : AbsRdbPredicates :=
  if empty name then p
  else
    with_joins p (joinTypes p ++ [GetGrammar join]) (joinTableNames p ++ [name])
      (joinConditions p) (joinCount p + 1).

Definition CrossJoin (p : AbsRdbPredicates) (name : string) := Join p CROSS name.
Definition InnerJoin (p : AbsRdbPredicates) (name : string) := Join p INNER name.
Definition LeftOuterJoin (p : AbsRdbPredicates) (name : string) := Join p LEFT name.

(** The joins since the last condition get empty conditions, but for the newest. *)
Fixpoint pad_conditions (n : nat) (conds : list string) (count : Z) : list string * Z :=
  match n with
  | O => (conds, count)
  | S n => if count >? 1 then pad_conditions n (conds ++ [""]) (count - 1) else (conds, count)
  end.

Definition add_condition (p : AbsRdbPredicates) (text : string) : AbsRdbPredicates :=
  let '(conds, count) := pad_conditions (Z.to_nat (joinCount p)) (joinConditions p) (joinCount p) in
  with_joins p (joinTypes p) (joinTableNames p) (conds ++ [text]) (count - 1).

Definition Using (p : AbsRdbPredicates) (fields : list string) : AbsRdbPredicates :=
  match fields with
  | [] => p
  | _ =>
      if joinCount p <=? 0 then p
      else add_condition p (SurroundWithFunction "USING" "," fields)
  end.

Definition On (p : AbsRdbPredicates) (clauses : list string) : AbsRdbPredicates :=
  match clauses with
  | [] => p
  | _ =>
      if joinCount p <=? 0 then p
      else add_condition p (SurroundWithFunction "ON" "AND" clauses)
  end.

(** The loop over the joined tables; an element past the end of a vector is read
    with undefined behaviour. *)
Fixpoint ProcessJoins_loop (types names conds : list string) (builder : string)
    : outcome string :=
  match names with
  | [] => Ok builder
  | name :: names =>
      match types, conds with
      | type :: types, cond :: conds =>
          let builder := builder +:+ " " +:+ type +:+ " " +:+ name in
          let builder := if negb (empty cond) then builder +:+ " " +:+ cond else builder in
          ProcessJoins_loop types names conds builder
      | _, _ => Undefined
      end
  end.

Definition ProcessJoins (p : AbsRdbPredicates) : outcome string :=
  ProcessJoins_loop (joinTypes p) (joinTableNames p) (joinConditions p) (GetTableName p).

Definition GetJoinClause (p : AbsRdbPredicates) : outcome string :=
  match joinTableNames p with
  | [] => Ok (GetTableName p)
  | _ => ProcessJoins p
  end.

(** ** Joins *)
Inductive join_call :=
| CallJoin (type : JoinType) (name : string)
| CallUsing (fields : list string)
| CallOn (clauses : list string)
| CallClear.

Definition run_join (c : join_call) (p : AbsRdbPredicates) : AbsRdbPredicates :=
  match c with
  | CallJoin type name => Join p type name
  | CallUsing fields => Using p fields
  | CallOn clauses => On p clauses
  | CallClear => Clear p
  end.

Definition run_joins (name : string) (cs : list join_call) : AbsRdbPredicates :=
  foldl (fun p c => run_join c p) (new_RdbPredicates name) cs.

(** Every joined table has a type, and a condition unless it is one of the last
    [joinCount] ones. *)
Definition joins_ok (p : AbsRdbPredicates) : Prop :=
  length (joinTypes p) = length (joinTableNames p) /\ 0 <= joinCount p /\
  Z.of_nat (length (joinConditions p)) + joinCount p = Z.of_nat (length (joinTableNames p)).

Lemma pad_conditions_spec n conds count :
  (Z.to_nat count <= S n)%nat -> 1 <= count ->
  pad_conditions n conds count = (conds ++ replicate (Z.to_nat (count - 1)) "", 1).
Proof.
  revert conds count. induction n as [|n IH]; intros conds count Hn Hc; simpl.
  - assert (count = 1) as -> by lia. by rewrite app_nil_r.
  - destruct (count >? 1) eqn:E; to_prop.
    + rewrite IH by lia. replace (Z.to_nat (count - 1)) with (S (Z.to_nat (count - 1 - 1))) by lia.
      simpl. by rewrite <- app_assoc.
    + assert (count = 1) as -> by lia. by rewrite app_nil_r.
Qed.

Lemma add_condition_ok p text :
  joins_ok p -> 0 < joinCount p -> joins_ok (add_condition p text) /\ joinCount (add_condition p text) = 0.
Proof.
  intros (H1 & H2 & H3) Hpos. unfold add_condition. rewrite pad_conditions_spec by lia.
  split; [|done]. split_and!; simpl; [done|done|].
  rewrite !length_app, length_replicate. simpl. lia.
Qed.

Lemma run_join_ok c p : joins_ok p -> joins_ok (run_join c p).
Proof.
  intros Hp. destruct c as [type name|fields|clauses|]; simpl.
  - unfold Join. destruct (empty name); [done|]. destruct Hp as (H1 & H2 & H3).
    split_and!; simpl; rewrite ?length_app; simpl; lia.
  - unfold Using. destruct fields; [done|]. case_if; [done|]. apply add_condition_ok; zlia || done.
  - unfold On. destruct clauses; [done|]. case_if; [done|]. apply add_condition_ok; zlia || done.
  - done.
Qed.

Lemma run_joins_ok name cs : joins_ok (run_joins name cs).
Proof.
  unfold run_joins. assert (joins_ok (new_RdbPredicates name)) as Hp.
  { unfold new_RdbPredicates, new_AbsRdbPredicates. by destruct (empty name). }
  revert Hp. generalize (new_RdbPredicates name). induction cs as [|c cs IH]; intros p Hp; [done|].
  by apply IH, run_join_ok.
Qed.

(** The text of one join. *)
Definition join_text (t : string * string * string) : string :=
  let '(type, name, cond) := t in
  " " +:+ type +:+ " " +:+ name +:+ (if empty cond then "" else " " +:+ cond).

Lemma ProcessJoins_loop_ok types names conds b :
  length types = length names -> (length names <= length conds)%nat ->
  ProcessJoins_loop types names conds b =
    Ok (b +:+ foldr (fun t s => join_text t +:+ s) "" (zip (zip types names) conds)).
Proof.
  revert types conds b. induction names as [|n names IH]; intros [|t types] [|c conds] b; simpl;
    try lia; intros H1 H2; rewrite ?append_nil_r; try done.
  rewrite IH by lia. destruct (empty c); simpl; by rewrite !append_assoc, ?append_nil_r.
Qed.

Lemma ProcessJoins_loop_short types names conds b :
  (length conds < length names)%nat -> ProcessJoins_loop types names conds b = Undefined.
Proof.
  revert types conds b. induction names as [|n names IH]; intros [|t types] [|c conds] b; simpl;
    try lia; try done. intros Hl. apply IH. lia.
Qed.

(** The join clause of predicates built with joins and their conditions is the
    table name followed by every join with its condition, provided the last join
    was given a condition. Otherwise [ProcessJoins] reads past the end of
    [joinConditions]: a cross join, which needs no condition, is enough. *)
Theorem join_clause_defined name cs :
  let p := run_joins name cs in
  GetJoinClause p =
    if (length (joinTableNames p) =? 0)%nat || (joinCount p =? 0) then
      Ok (GetTableName p +:+
          foldr (fun t s => join_text t +:+ s) ""
            (zip (zip (joinTypes p) (joinTableNames p)) (joinConditions p)))
    else Undefined.
Proof.
  cbv zeta. destruct (run_joins_ok name cs) as (H1 & H2 & H3).
  set (p := run_joins name cs) in *. unfold GetJoinClause, ProcessJoins.
  destruct (joinTableNames p) as [|n names] eqn:E; simpl in H1.
  { destruct (joinTypes p); [|done]. simpl. by rewrite append_nil_r. }
  destruct (joinCount p =? 0) eqn:Ec; to_prop; simpl.
  - rewrite Ec in H3. apply (ProcessJoins_loop_ok _ (n :: names)); [done|]. simpl in *. lia.
  - apply (ProcessJoins_loop_short _ (n :: names)). simpl in *. lia.
Qed.

(** [Clear] resets the local predicates and the joins but keeps the conditions
    recorded for distributed queries, and asking twice for the distributed
    predicates of a limited query records the limit twice. *)
Theorem distributed_predicates_accumulate p :
  predicates_ (Clear p) = predicates_ p /\
  GetWhereClause (base (Clear p)) = "" /\
  (0 <= GetLimit (base p) ->
   let op d := AddOperation d LIMIT (to_string (GetLimit (base p)))
                 (to_string (GetOffset (base p))) in
   fst (GetDistributedPredicates (snd (GetDistributedPredicates p))) = op (op (predicates_ p))).
Proof.
  split_and!; [done|done|]. intros Hl. cbv zeta. unfold GetDistributedPredicates. simpl.
  destruct (GetLimit (base p) >=? 0) eqn:E; [done|]. zlia.
Qed.
End Predicates.

(** The distributed predicates as the list of recorded operations. *)
#[global] Instance recorded : DistributedPredicates := {|
  dpred := list (RdbPredicateOperator * string * string);
  dpred_empty := [];
  set_table_ d _ := d;
  set_devices_ d _ := d;
  AddOperation d o f v := d ++ [(o, f, v)];
|}.

Example cross_join_alone :
  GetJoinClause (CrossJoin (new_RdbPredicates "a") "b") = Undefined /\
  GetJoinClause (On (InnerJoin (CrossJoin (new_RdbPredicates "a") "b") "c") ["a.x = c.x"]) =
    Ok "a CROSS JOIN b INNER JOIN c ON(a.x = c.x)".
Proof. split; vm_compute; reflexivity. Qed.

Lemma distributed_predicates_accumulate_witness :
  let p := with_base (EqualTo (new_RdbPredicates "a") "x" "1")
             (AbsPredicates.Limit (base (EqualTo (new_RdbPredicates "a") "x" "1")) 5)
             [(EQUAL_TO, "x", "1")] in
  predicates_ (Clear p) = predicates_ p /\
  fst (GetDistributedPredicates (snd (GetDistributedPredicates p))) =
    [(EQUAL_TO, "x", "1"); (LIMIT, "5", "-1"); (LIMIT, "5", "-1")].
Proof.
  set (p := with_base _ _ _). cbv zeta. split.
  - apply (distributed_predicates_accumulate p).
  - etransitivity; [apply (distributed_predicates_accumulate p)|]; vm_compute; done.
Defined.
