(* ===== verification/ResultSet.v ===== *)
(** * Result sets

    Model of frameworks/native/rdb/src/abs_result_set.cpp: the navigation and the
    column lookup every result set inherits, written against the virtual methods
    the concrete classes override. *)
From S2P Require Import Prelude Strings RdbErrno.
From Stdlib Require Import Ascii.

#[local] Open Scope list_scope.

Definition INIT_POS : Z := -1.

(** The virtual methods a concrete result set of state [S] provides. A method
    returns its error code, its out parameter and the new state. *)
Class ResultSetOps (S : Type) := {
  rowPos : S -> Z;
  GetRowCount : S -> Z * Z * S;
  GetAllColumnNames : S -> Z * list string * S;
  GoToRow : S -> Z -> Z * S;
}.

Section AbsResultSet.
Context {S : Type} `{ResultSetOps S}.
Implicit Types s : S.

Definition GetRowIndex s : Z := rowPos s.

Definition GoTo s (offset : Z) : Z * S := GoToRow s (s32 (rowPos s + offset)).
Definition GoToFirstRow s : Z * S := GoToRow s 0.
Definition GoToLastRow s : Z * S :=
  let '(ret, rowCnt, s) := GetRowCount s in
  if negb (ret =? E_OK) then (ret, s) else GoToRow s (s32 (rowCnt - 1)).
Definition GoToNextRow s : Z * S := GoToRow s (s32 (rowPos s + 1)).
Definition GoToPreviousRow s : Z * S := GoToRow s (s32 (rowPos s - 1)).

Definition IsAtFirstRow s : bool := rowPos s =? 0.
Definition IsAtLastRow s : outcome bool * S :=
  let '(ret, rowCnt, s) := GetRowCount s in
  (if negb (ret =? E_OK) then Err ret else Ok (rowPos s =? s32 (rowCnt - 1)), s).
Definition IsStarted s : bool := negb (rowPos s =? INIT_POS).
Definition IsEnded s : outcome bool * S :=
  let '(ret, rowCnt, s) := GetRowCount s in
  (if negb (ret =? E_OK) then Err ret
   else Ok (if rowCnt =? 0 then true else rowPos s =? rowCnt), s).

Definition GetColumnCount s : outcome Z * S :=
  let '(ret, columnNames, s) := GetAllColumnNames s in
  (if negb (ret =? E_OK) then Err ret else Ok (s32 (Z.of_nat (length columnNames))), s).

(** [::tolower] in the C locale. *)
Definition tolower (c : ascii) : ascii :=
  let n := N_of_ascii c in
  if (65 <=? n)%N && (n <=? 90)%N then ascii_of_N (n + 32) else c.
Fixpoint lower (s : string) : string :=
  match s with EmptyString => EmptyString | String c s => String (tolower c) (lower s) end.

(** What follows the last dot: [substr(rfind('.') + 1)]. *)
Fixpoint after_last_dot (s : string) : string :=
  match s with
  | EmptyString => EmptyString
  | String c s' =>
      if Ascii.eqb c "." && Nat.eqb (count_char "." s') 0 then s'
      else if Nat.eqb (count_char "." s') 0 then s else after_last_dot s'
  end.

Fixpoint find_column (name : string) (columnNames : list string) (columnIndex : Z) : option Z :=
  match columnNames with
  | [] => None
  | n :: columnNames =>
      if decide (lower n = name) then Some columnIndex
      else find_column name columnNames (columnIndex + 1)
  end.

(** The error code and the index, -1 when the column is not found; [None] when the
    out parameter is left alone. *)
Definition GetColumnIndex s (columnName : string) : Z * option Z * S :=
  let columnNameLower := lower (after_last_dot columnName) in
  let '(ret, columnNames, s) := GetAllColumnNames s in
  if negb (ret =? E_OK) then (ret, None, s)
  else
    match find_column columnNameLower columnNames 0 with
    | Some columnIndex => (E_OK, Some columnIndex, s)
    | None => (E_ERROR, Some (-1), s)
    end.

Definition GetColumnName s (columnIndex : Z) : outcome string * S :=
  let '(count, s) := GetColumnCount s in
  match count with
  | Ok rowCnt =>
      if (columnIndex >=? rowCnt) || (columnIndex <? 0) then (Err E_INVALID_COLUMN_INDEX, s)
      else
        let '(_, columnNames, s) := GetAllColumnNames s in
        (match columnNames !! Z.to_nat columnIndex with
         | Some name => Ok name
         | None => Undefined
         end, s)
  | Err e => (Err e, s)
  | Throws => (Throws, s)
  | Undefined => (Undefined, s)
  end.
End AbsResultSet.

(** ** The contract of a cursor

    [inv] is the invariant of the concrete class and [count] the number of rows it
    stands for; a move inside the result succeeds, a move outside fails and parks
    the cursor before the first or after the last row. *)
Class Cursor (S : Type) `{ResultSetOps S} (inv : S -> Prop) (count : Z) := {
  cursor_count_range : 0 <= count < 2147483647;
  cursor_pos_range s : inv s -> -1 <= rowPos s <= count;
  cursor_GetRowCount s :
    inv s -> exists s', GetRowCount s = (E_OK, count, s') /\ inv s' /\ rowPos s' = rowPos s;
  cursor_GoToRow s p :
    inv s -> -2147483648 <= p <= 2147483647 ->
    exists s', inv s' /\
      GoToRow s p = (if (0 <=? p) && (p <? count) then E_OK else E_ERROR, s') /\
      rowPos s' = (if p <? 0 then INIT_POS else if p <? count then p else count);
}.

Section Traversal.
Context {S : Type} `{Cursor S inv count}.

(** Moving to the next row until the cursor refuses, and the positions visited. *)
Fixpoint next_rows (fuel : nat) (s : S) : list Z * S :=
  match fuel with
  | O => ([], s)
  | Datatypes.S fuel =>
      let '(ret, s) := GoToNextRow s in
      if negb (ret =? E_OK) then ([], s)
      else let '(ps, s') := next_rows fuel s in (rowPos s :: ps, s')
  end.

Lemma GoToNextRow_spec s :
  inv s ->
  exists s', inv s' /\
    GoToNextRow s = (if rowPos s + 1 <? count then E_OK else E_ERROR, s') /\
    rowPos s' = if rowPos s + 1 <? count then rowPos s + 1 else count.
Proof.
  intros Hi. pose proof (cursor_pos_range s Hi). pose proof cursor_count_range.
  unfold GoToNextRow. rewrite s32_small by lia.
  destruct (cursor_GoToRow s (rowPos s + 1) Hi) as (s' & Hi' & E & Hp); [lia|].
  exists s'. split; [done|]. rewrite E, Hp.
  rewrite (proj2 (Z.leb_le 0 (rowPos s + 1))), (proj2 (Z.ltb_ge (rowPos s + 1) 0)) by lia.
  done.
Qed.

Lemma next_rows_spec fuel s :
  inv s -> count - rowPos s <= Z.of_nat fuel ->
  exists s', inv s' /\ rowPos s' = count /\
    next_rows fuel s = (seqZ (rowPos s + 1) (count - rowPos s - 1), s').
Proof.
  revert s. induction fuel as [|fuel IH]; intros s Hi Hf; pose proof (cursor_pos_range s Hi).
  { exists s. split_and!; [done|lia|]. rewrite seqZ_nil by lia. done. }
  destruct (GoToNextRow_spec s Hi) as (s1 & Hi1 & E & Hp). simpl. rewrite E.
  destruct (rowPos s + 1 <? count) eqn:Hlt; to_prop; simpl.
  - destruct (IH s1 Hi1) as (s2 & Hi2 & Hp2 & E2); [lia|]. exists s2. split_and!; [done|done|].
    rewrite E2, Hp. rewrite (seqZ_cons (rowPos s + 1)) by lia. repeat f_equal; lia.
  - exists s1. split_and!; [done|done|]. by rewrite seqZ_nil by lia.
Qed.

(** A traversal with [GoToFirstRow] and [GoToNextRow] of any result set that
    keeps the cursor contract visits every row once, in order, and ends with
    [IsEnded] true. *)
Theorem traversal_complete s :
  inv s -> 0 < count ->
  exists s1 s2 s3,
    GoToFirstRow s = (E_OK, s1) /\ rowPos s1 = 0 /\
    next_rows (Z.to_nat count) s1 = (seqZ 1 (count - 1), s2) /\
    rowPos s2 = count /\ IsEnded s2 = (Ok true, s3).
Proof.
  intros Hi Hc. unfold GoToFirstRow.
  destruct (cursor_GoToRow s 0 Hi) as (s1 & Hi1 & E1 & Hp1); [lia|].
  rewrite (proj2 (Z.ltb_lt 0 count)) in E1, Hp1 by lia. simpl in E1, Hp1.
  destruct (next_rows_spec (Z.to_nat count) s1 Hi1) as (s2 & Hi2 & Hp2 & E2); [lia|].
  destruct (cursor_GetRowCount s2 Hi2) as (s3 & E3 & Hi3 & Hp3).
  exists s1, s2, s3. split_and!; [done|done| |done|].
  - rewrite E2. repeat f_equal; lia.
  - unfold IsEnded. rewrite E3. simpl. rewrite (proj2 (Z.eqb_neq count 0)) by lia.
    rewrite (proj2 (Z.eqb_eq (rowPos s3) count)) by lia. done.
Qed.

(** [GoToLastRow] and [GoToPreviousRow] under the same contract. *)
Lemma GoToLastRow_spec s :
  inv s -> 0 < count ->
  exists s', inv s' /\ GoToLastRow s = (E_OK, s') /\ rowPos s' = count - 1.
Proof.
  intros Hi Hc. pose proof cursor_count_range. unfold GoToLastRow.
  destruct (cursor_GetRowCount s Hi) as (s1 & E & Hi1 & _). rewrite E. simpl.
  rewrite s32_small by lia.
  destruct (cursor_GoToRow s1 (count - 1) Hi1) as (s2 & Hi2 & E2 & Hp2); [lia|].
  rewrite (proj2 (Z.leb_le 0 (count - 1))), (proj2 (Z.ltb_lt (count - 1) count)),
    ?(proj2 (Z.ltb_ge (count - 1) 0)) in * by lia.
  by exists s2.
Qed.
End Traversal.

(** ** Columns *)
Lemma find_column_spec name names i :
  match find_column name names i with
  | Some j => exists k n, j = i + Z.of_nat k /\ names !! k = Some n /\ lower n = name /\
                forall k', (k' < k)%nat -> exists n', names !! k' = Some n' /\ lower n' <> name
  | None => Forall (fun n => lower n <> name) names
  end.
Proof.
  revert i. induction names as [|n names IH]; intros i; simpl; [done|].
  case_decide as E.
  - exists 0%nat, n. split_and!; [lia|done|done|]. lia.
  - specialize (IH (i + 1)). destruct (find_column name names (i + 1)) as [j|].
    + destruct IH as (k & n' & -> & Hk & Hn & Hf). exists (Datatypes.S k), n'.
      split_and!; [lia|done|done|]. intros [|k'] Hk'; [by exists n|]. apply Hf. lia.
    + by constructor.
Qed.
