(* ===== verification/SqliteUtils.v ===== *)
(** * Kinds of SQL statements

    Model of the text functions of frameworks/native/rdb/src/sqlite_utils.cpp. *)
From S2P Require Import Prelude Strings RdbErrno.
From Stdlib Require Import Ascii.

Definition STATEMENT_SELECT : Z := 1.
Definition STATEMENT_UPDATE : Z := 2.
Definition STATEMENT_ATTACH : Z := 3.
Definition STATEMENT_DETACH : Z := 4.
Definition STATEMENT_BEGIN : Z := 5.
Definition STATEMENT_COMMIT : Z := 6.
Definition STATEMENT_ROLLBACK : Z := 7.
Definition STATEMENT_PRAGMA : Z := 8.
Definition STATEMENT_DDL : Z := 9.
Definition STATEMENT_OTHER : Z := 99.

Definition SQL_TYPE_MAP : list (string * Z) :=
  [("SEL", STATEMENT_SELECT); ("INS", STATEMENT_UPDATE); ("UPD", STATEMENT_UPDATE);
   ("REP", STATEMENT_UPDATE); ("DEL", STATEMENT_UPDATE); ("ATT", STATEMENT_ATTACH);
   ("DET", STATEMENT_DETACH); ("COM", STATEMENT_COMMIT); ("END", STATEMENT_COMMIT);
   ("ROL", STATEMENT_ROLLBACK); ("BEG", STATEMENT_BEGIN); ("PRA", STATEMENT_PRAGMA);
   ("CRE", STATEMENT_DDL); ("DRO", STATEMENT_DDL); ("ALT", STATEMENT_DDL)].

Definition toupper (c : ascii) : ascii :=
  let n := N_of_ascii c in
  if (97 <=? n)%N && (n <=? 122)%N then ascii_of_N (n - 32) else c.

Fixpoint StrToUpper (s : string) : string :=
  match s with EmptyString => EmptyString | String c s => String (toupper c) (StrToUpper s) end.

Fixpoint type_lookup (k : string) (m : list (string * Z)) : option Z :=
  match m with
  | [] => None
  | (k', v) :: m => if decide (k = k') then Some v else type_lookup k m
  end.

Definition GetSqlStatementType (sql : string) : Z :=
  if (String.length sql <? 3)%nat then STATEMENT_OTHER
  else
    let prefixSql := StrToUpper (String.substring 0 3 sql) in
    match type_lookup prefixSql SQL_TYPE_MAP with
    | Some type => type
    | None => STATEMENT_OTHER
    end.

Definition IsSqlReadOnly (sqlType : Z) : bool := sqlType =? STATEMENT_SELECT.

Definition IsSpecial (sqlType : Z) : bool :=
  (sqlType =? STATEMENT_BEGIN) || (sqlType =? STATEMENT_COMMIT) || (sqlType =? STATEMENT_ROLLBACK).

Definition CONFLICT_CLAUSE_COUNT : Z := 6.
Definition ON_CONFLICT_CLAUSE : list string :=
  [""; " OR ROLLBACK"; " OR ABORT"; " OR FAIL"; " OR IGNORE"; " OR REPLACE"].

Definition GetConflictClause (conflictResolution : Z) : outcome string :=
  if (conflictResolution <? 0) || (conflictResolution >=? CONFLICT_CLAUSE_COUNT) then
    Err E_INVALID_CONFLICT_FLAG
  else
    match ON_CONFLICT_CLAUSE !! Z.to_nat conflictResolution with
    | Some clause => Ok clause
    | None => Undefined
    end.

Lemma GetConflictClause_defined c : GetConflictClause c <> Undefined.
Proof.
  unfold GetConflictClause, CONFLICT_CLAUSE_COUNT. case_if; [done|]. to_prop.
  destruct (lookup_lt_is_Some_2 ON_CONFLICT_CLAUSE (Z.to_nat c)) as [x ->]; [simpl; lia|done].
Qed.

Example statement_types :
  GetSqlStatementType <$>
    ["select 1"; "Insert into t"; "COMMIT;"; "rollback to x"; "SAVEPOINT a"; " COMMIT"; "xx"] =
  [1; 2; 6; 7; 99; 99; 99].
Proof. vm_compute. reflexivity. Qed.
