(* ===== verification/ConnectionPool.v ===== *)
(** * Connection pool

    Model of frameworks/native/rdb/src/sqlite_connection_pool.cpp and
    base_transaction.cpp. A connection is an identifier. The pool's operations are
    the critical sections the mutexes protect; an operation whose wait condition
    does not hold is [None], the caller is blocked. *)
From S2P Require Import Prelude RdbErrno Strings.

#[local] Open Scope list_scope.

(** ** Transactions *)
Inductive TransType := ROLLBACK_SELF | ROLLBACK_PARENT.

Record BaseTransaction := mkTransaction {
  allBeforeSuccessful : bool;
  markedSuccessful : bool;
  childFailure : bool;
  type : TransType;
  id : Z;
}.

Definition new_BaseTransaction (id : Z) : BaseTransaction :=
  mkTransaction true false false ROLLBACK_SELF id.

Definition IsAllBeforeSuccessful (t : BaseTransaction) : bool := allBeforeSuccessful t.
Definition SetAllBeforeSuccessful (t : BaseTransaction) (b : bool) : BaseTransaction :=
  mkTransaction b (markedSuccessful t) (childFailure t) (type t) (id t).
Definition IsMarkedSuccessful (t : BaseTransaction) : bool := markedSuccessful t.
Definition SetMarkedSuccessful (t : BaseTransaction) (b : bool) : BaseTransaction :=
  mkTransaction (allBeforeSuccessful t) b (childFailure t) (type t) (id t).
Definition getType (t : BaseTransaction) : TransType := type t.
Definition IsChildFailure (t : BaseTransaction) : bool := childFailure t.
Definition setChildFailure (t : BaseTransaction) (b : bool) : BaseTransaction :=
  mkTransaction (allBeforeSuccessful t) (markedSuccessful t) b (type t) (id t).

Definition getTransactionStr (t : BaseTransaction) : string :=
  (if id t =? 0 then "BEGIN EXCLUSIVE"
   else "SAVEPOINT" +:+ " " +:+ "TRANS_STR" +:+ to_string (id t)) +:+ ";".
Definition getCommitStr (t : BaseTransaction) : string :=
  (if id t =? 0 then "COMMIT" else "") +:+ ";".
Definition getRollbackStr (t : BaseTransaction) : string :=
  (if id t =? 0 then "ROLLBACK"
   else "ROLLBACK TO" +:+ " " +:+ "TRANS_STR" +:+ to_string (id t)) +:+ ";".

(** ** The pool *)
Record PoolConfig := {
  isMemory : bool;
  isWal : bool;
  globalReadCount : Z;
  isInitEncrypted : bool;
}.

Record Pool := mkPool {
  config : PoolConfig;
  writeConnection : option Z;
  writeConnectionUsed : bool;
  readConnections : list Z;
  readConnectionCount : Z;
  idleReadConnectionCount : Z;
  transactionStack : list BaseTransaction;
}.

Definition with_write (p : Pool) (w : option Z) (used : bool) : Pool :=
  mkPool (config p) w used (readConnections p) (readConnectionCount p)
    (idleReadConnectionCount p) (transactionStack p).
Definition with_reads (p : Pool) (reads : list Z) (idle : Z) : Pool :=
  mkPool (config p) (writeConnection p) (writeConnectionUsed p) reads (readConnectionCount p)
    idle (transactionStack p).
Definition with_readCount (p : Pool) (n : Z) : Pool :=
  mkPool (config p) (writeConnection p) (writeConnectionUsed p) (readConnections p) n
    (idleReadConnectionCount p) (transactionStack p).
(** The top of the stack is the head of the list. *)
Definition with_stack (p : Pool) (st : list BaseTransaction) : Pool :=
  mkPool (config p) (writeConnection p) (writeConnectionUsed p) (readConnections p)
    (readConnectionCount p) (idleReadConnectionCount p) st.

Definition new_Pool (c : PoolConfig) : Pool := mkPool c None true [] 0 0 [].

Definition InitReadConnectionCount (p : Pool) : Pool :=
  with_readCount p
    (if isMemory (config p) then 0
     else if isWal (config p) then globalReadCount (config p)
     else 0).

Definition CloseAllConnections (p : Pool) : Pool :=
  with_reads (with_write p None true) [] 0.

(** The loop that opens [n] read connections; [opens] are the answers of
    [SqliteConnection::Open], an error or a connection. *)
Fixpoint open_reads (n : nat) (opens : list (Z + Z)) (reads : list Z) : Z + list Z :=
  match n with
  | O => inr reads
  | S n =>
      match opens with
      | inr c :: opens => open_reads n opens (reads ++ [c])
      | inl e :: _ => inl e
      | [] => inl E_ERROR
      end
  end.

Definition Init (p : Pool) (opens : list (Z + Z)) : Z * Pool :=
  match opens with
  | inr w :: opens =>
      let p := InitReadConnectionCount (with_write p (Some w) (writeConnectionUsed p)) in
      match open_reads (Z.to_nat (readConnectionCount p)) opens (readConnections p) with
      | inl e => (e, CloseAllConnections p)
      | inr reads =>
          (E_OK, with_reads (with_write p (writeConnection p) false) reads (readConnectionCount p))
      end
  | inl e :: _ => (e, with_write p None (writeConnectionUsed p))
  | [] => (E_ERROR, p)
  end.

Definition Create (c : PoolConfig) (opens : list (Z + Z)) : Z * option Pool :=
  let '(errCode, p) := Init (new_Pool c) opens in
  if negb (errCode =? E_OK) then (errCode, None) else (errCode, Some p).

(** ** Acquiring and releasing *)
Definition AcquireWriteConnection (p : Pool) : option (option Z * Pool) :=
  if writeConnectionUsed p then None
  else Some (writeConnection p, with_write p (writeConnection p) true).

Definition ReleaseWriteConnection (p : Pool) : Pool := with_write p (writeConnection p) false.

(** The last element of the vector; [None] is what [back] of an empty vector, which has
    no defined value, would give. *)
Definition AcquireReadConnection (p : Pool) : option (option Z * Pool) :=
  if idleReadConnectionCount p >? 0 then
    Some (last (readConnections p),
          with_reads p (removelast (readConnections p)) (idleReadConnectionCount p - 1))
  else None.

Definition ReleaseReadConnection (p : Pool) (connection : Z) : Pool :=
  with_reads p (readConnections p ++ [connection]) (idleReadConnectionCount p + 1).

Definition AcquireConnection (p : Pool) (isReadOnly : bool) : option (option Z * Pool) :=
  if isReadOnly && negb (readConnectionCount p =? 0) then AcquireReadConnection p
  else AcquireWriteConnection p.

Definition ReleaseConnection (p : Pool) (connection : Z) : Pool :=
  if decide (Some connection = writeConnection p) then ReleaseWriteConnection p
  else ReleaseReadConnection p connection.

(** ** Maintenance *)
Definition LIMITATION : Z := 1024.
Definition IsOverLength (newKey : list Z) : bool :=
  match newKey with [] => false | _ => Z.of_nat (length newKey) >? LIMITATION end.

Definition InnerReOpenReadConnections (p : Pool) (opens : list (Z + Z)) : Z * Pool :=
  match open_reads (Z.to_nat (readConnectionCount p)) opens [] with
  | inl e => (e, CloseAllConnections p)
  | inr reads => (E_OK, with_reads p reads (idleReadConnectionCount p))
  end.

(** [changed] is what the write connection answers. *)
Definition ChangeEncryptKey (p : Pool) (newKey : list Z) (changed : Z) (opens : list (Z + Z))
    : Z * Pool :=
  if negb (isInitEncrypted (config p)) then (E_CHANGE_UNENCRYPTED_TO_ENCRYPTED, p)
  else
    match newKey with
    | [] => (E_EMPTY_NEW_ENCRYPT_KEY, p)
    | _ =>
        if IsOverLength newKey then (E_ERROR, p)
        else if writeConnectionUsed p then (E_CHANGE_ENCRYPT_KEY_IN_BUSY, p)
        else if idleReadConnectionCount p <? readConnectionCount p then
          (E_CHANGE_ENCRYPT_KEY_IN_BUSY, p)
        else if negb (changed =? E_OK) then (changed, p)
        else InnerReOpenReadConnections p opens
    end.

Definition ReOpenAvailableReadConnections (p : Pool) (opens : list (Z + Z)) : Z * Pool :=
  InnerReOpenReadConnections p opens.

(** The file operations of the restore happen between closing and opening. *)
Definition ChangeDbFileForRestore (p : Pool) (opens : list (Z + Z)) : Z * Pool :=
  if writeConnectionUsed p || negb (idleReadConnectionCount p =? readConnectionCount p) then
    (E_ERROR, p)
  else Init (CloseAllConnections p) opens.

Definition ConfigLocale (p : Pool) : Z :=
  if negb (idleReadConnectionCount p =? readConnectionCount p) then E_NO_ROW_IN_QUERY
  else match writeConnection p with None => E_ERROR | Some _ => E_OK end.

Definition getTransactionStack (p : Pool) : list BaseTransaction := transactionStack p.

(** * Connection pool: exclusive use of connections

    The threads of a process share one pool. A state of the system is the pool and
    the connections in the threads' hands; a step is one critical section of
    sqlite_connection_pool.cpp: acquiring, releasing, changing the key, and opening the
    read connections again after a statement that defines tables. A restore takes no
    lock; it is one step here, so the theorems hold where nothing else uses the pool
    during a restore, and [unlocked_restore] shows what happens otherwise. A connection
    that is opened has an address no live connection has. The invariant is proved by
    rule induction over the steps. *)

(** The connections [SqliteConnection::Open] hands out. *)
Definition opened (opens : list (Z + Z)) : list Z :=
  omap (fun o => match o with inr c => Some c | inl _ => None end) opens.

Inductive pool_step : Pool * list Z -> Pool * list Z -> Prop :=
| step_acquire p held ro c p' :
    AcquireConnection p ro = Some (Some c, p') ->
    pool_step (p, held) (p', c :: held)
| step_release p held c held' :
    held ≡ₚ c :: held' ->
    pool_step (p, held) (ReleaseConnection p c, held')
| step_rekey p held key changed opens e p' :
    NoDup (opened opens) ->
    (forall c, c ∈ opened opens -> writeConnection p <> Some c) ->
    ChangeEncryptKey p key changed opens = (e, p') ->
    pool_step (p, held) (p', held)
| step_reopen p held opens e p' :
    NoDup (opened opens) ->
    (forall c, c ∈ opened opens -> (c ∉ held) /\ (writeConnection p <> Some c)) ->
    ReOpenAvailableReadConnections p opens = (e, p') ->
    pool_step (p, held) (p', held)
| step_restore p held opens e p' :
    NoDup (opened opens) ->
    ChangeDbFileForRestore p opens = (e, p') ->
    pool_step (p, held) (p', held).

(** ** The invariant *)

(** The connections the pool has at hand. *)
Definition idle_connections (p : Pool) (w : Z) : list Z :=
  (if writeConnectionUsed p then [] else [w]) ++ readConnections p.

(** An open pool: no connection is in two hands, and the counters tell how many are
    held. The vector may be longer than the counter of idle connections: it is filled
    up when the connections are opened again while some are in use, which come back to
    it afterwards. *)
Record pool_open (p : Pool) (held : list Z) (w : Z) : Prop := {
  open_write : writeConnection p = Some w;
  open_nodup : NoDup (idle_connections p w ++ held);
  open_all : (if writeConnectionUsed p then 0 else 1) + idleReadConnectionCount p + Z.of_nat (length held) =
    readConnectionCount p + 1;
  open_used : writeConnectionUsed p = true -> w ∈ held;
  open_idle : 0 <= idleReadConnectionCount p <= Z.of_nat (length (readConnections p));
}.

(** A pool whose connections could not be opened again. *)
Record pool_closed (p : Pool) : Prop := {
  closed_write : writeConnection p = None;
  closed_used : writeConnectionUsed p = true;
}.
(** A closed pool nobody holds a connection of. *)
Record pool_shut (p : Pool) (held : list Z) : Prop := {
  shut_closed : pool_closed p;
  shut_idle : idleReadConnectionCount p = 0;
  shut_held : held = [];
}.

Definition pool_inv (s : Pool * list Z) : Prop :=
  0 <= globalReadCount (config s.1) /\
  ((exists w, pool_open s.1 s.2 w) \/ pool_closed s.1).

(** ** Opening connections *)
Ltac len_lia := cbn in *; rewrite ?length_app in *; cbn in *; rewrite ?length_app in *; cbn in *; lia.

Lemma open_reads_inr n opens acc reads :
  open_reads n opens acc = inr reads ->
  exists new, reads = acc ++ new /\ length new = n /\ new `prefix_of` opened opens.
Proof.
  revert opens acc; induction n as [|n IH]; intros opens acc; cbn.
  - intros [= <-]. exists []. rewrite app_nil_r. eauto using prefix_nil.
  - destruct opens as [|[e|c] opens]; [done..|]. intros (new & -> & Hl & Hp)%IH.
    exists (c :: new). rewrite <- (assoc_L (++)). cbn. auto using prefix_cons.
Qed.

Lemma prefix_NoDup {A} (l k : list A) : l `prefix_of` k -> NoDup k -> NoDup l.
Proof. intros [r ->] [? _]%NoDup_app. done. Qed.

Lemma prefix_not_in {A} (l k : list A) x : l `prefix_of` k -> x ∉ k -> x ∉ l.
Proof. intros [r ->]. rewrite elem_of_app. tauto. Qed.

Lemma last_removelast {A} (l : list A) x :
  last l = Some x -> l = removelast l ++ [x].
Proof.
  intros Hl. destruct (exists_last (l := l)) as (l' & y & ->); [by intros ->|].
  rewrite last_snoc in Hl. simplify_eq. by rewrite removelast_last.
Qed.

Lemma CloseAllConnections_closed p : pool_closed (CloseAllConnections p).
Proof. done. Qed.

Lemma readCount_nonneg p :
  0 <= globalReadCount (config p) -> 0 <= readConnectionCount (InitReadConnectionCount p).
Proof. intros H. cbn. by repeat case_match. Qed.

(** [Init] on a pool without connections opens them all or leaves it closed. *)
Lemma Init_inv p opens e p' :
  NoDup (opened opens) -> 0 <= globalReadCount (config p) -> pool_closed p -> readConnections p = [] ->
  Init p opens = (e, p') -> pool_inv (p', []).
Proof.
  intros Hnd Hg Hc Hre H. unfold Init in H.
  destruct opens as [|[e0|w] opens].
  - simplify_eq. split; [done|by right].
  - simplify_eq. split; [done|]. right. by destruct Hc.
  - destruct (open_reads _ _ _) as [e0|reads] eqn:Ho in H; simplify_eq/=.
    { split; [done|right]. apply CloseAllConnections_closed. }
    split; [done|left]. exists w.
    apply open_reads_inr in Ho as (new & -> & Hl & Hp). rewrite Hre. cbn.
    apply NoDup_cons in Hnd as [Hw Hnd].
    pose proof (readCount_nonneg p Hg) as Hn. cbn in Hn.
    split; cbn; rewrite ?app_nil_r; [done| | |done|].
    + constructor; [|by eapply prefix_NoDup]. by eapply prefix_not_in.
    + lia.
    + rewrite Hl. lia.
Qed.

(** Opening the read connections again, whatever is held. *)
Lemma InnerReOpen_open p held opens p' w :
  NoDup (opened opens) -> w ∉ opened opens -> (forall c, c ∈ opened opens -> c ∉ held) -> pool_open p held w ->
  InnerReOpenReadConnections p opens = (E_OK, p') -> writeConnection p' <> None -> pool_open p' held w.
Proof.
  intros Hnd Hw Hfr [Ho1 Ho2 Ho3 Ho4 Ho5] H Hne. unfold InnerReOpenReadConnections in H.
  destruct (open_reads _ _ _) as [e0|reads] eqn:Hr in H; simplify_eq/=.
  apply open_reads_inr in Hr as (new & -> & Hl & Hp). cbn.
  unfold idle_connections in *. split; cbn; unfold idle_connections; cbn; [done| |done|done|].
  - assert (Hn : NoDup new) by (by eapply prefix_NoDup). assert (Hwn : w ∉ new) by (by eapply prefix_not_in).
    assert (Hd : forall c, c ∈ new -> c ∉ held).
    { intros c Hc. apply Hfr. destruct Hp as [k ->]. set_solver. }
    rewrite <- (assoc_L (++)) in Ho2. apply NoDup_app in Ho2 as (Hw1 & Hw2 & (_ & _ & Hh)%NoDup_app).
    rewrite <- (assoc_L (++)). apply NoDup_app. split; [done|]. split; [|by apply NoDup_app; eauto].
    intros c Hc. rewrite elem_of_app. specialize (Hw2 c Hc). destruct (writeConnectionUsed p); set_solver.
  - pose proof (Zle_0_nat (length held)). destruct (writeConnectionUsed p) eqn:Hu; [|lia].
    specialize (Ho4 eq_refl). destruct held; [by apply not_elem_of_nil in Ho4|]. cbn in *. lia.
Qed.

Lemma InnerReOpen_inv p held opens e p' w :
  NoDup (opened opens) -> w ∉ opened opens -> (forall c, c ∈ opened opens -> c ∉ held) -> pool_open p held w ->
  0 <= globalReadCount (config p) ->
  InnerReOpenReadConnections p opens = (e, p') -> pool_inv (p', held).
Proof.
  intros Hnd Hw Hfr Ho Hg H. pose proof H as H'. unfold InnerReOpenReadConnections in H'.
  destruct (open_reads _ _ _) as [e0|reads] eqn:Hr in H'; simplify_eq/=.
  { split; [done|right]. apply (CloseAllConnections_closed p). }
  split; [done|left]. exists w. eapply InnerReOpen_open; try done. cbn. by rewrite (open_write _ _ _ Ho).
Qed.

(** ** Acquiring and releasing *)
Lemma AcquireConnection_inv p ro c p' held w :
  pool_open p held w -> AcquireConnection p ro = Some (Some c, p') ->
  pool_open p' (c :: held) w /\ c ∈ idle_connections p w.
Proof.
  intros [H1 H2 H3 H4 H5] H. unfold AcquireConnection in H.
  unfold idle_connections in *. case_match.
  - unfold AcquireReadConnection in H. case_match; simplify_eq.
    destruct p as [cf wr u reads cnt idle st]; cbn in *.
    match goal with Hl : last reads = Some c |- _ => apply last_removelast in Hl; rename Hl into Hl end.
    set (reads' := removelast reads) in *. clearbody reads'. subst reads.
    split; [|set_solver]. split; cbn; unfold idle_connections; cbn.
    + done.
    + eapply NoDup_Permutation_proper; [|exact H2]. solve_Permutation.
    + len_lia.
    + set_solver.
    + len_lia.
  - unfold AcquireWriteConnection in H.
    destruct p as [cf wr u reads cnt idle st]; cbn in *. destruct u; [done|]. simplify_eq.
    cbn in *. split; [|set_solver]. split; cbn; unfold idle_connections; cbn; [done| | |set_solver|done].
    + eapply NoDup_Permutation_proper; [|exact H2]. solve_Permutation.
    + len_lia.
Qed.

Lemma ReleaseConnection_inv p c held held' w :
  pool_open p held w -> held ≡ₚ c :: held' -> pool_open (ReleaseConnection p c) held' w.
Proof.
  intros [H1 H2 H3 H4 H5] Hh. rewrite Hh in H2, H3.
  assert (writeConnectionUsed p = true -> w ∈ c :: held') as H4' by (rewrite <- Hh; done).
  clear H4 Hh. unfold ReleaseConnection, idle_connections in *.
  destruct p as [cf wr u reads cnt idle st]; cbn in *. case_decide as Hd; simplify_eq.
  - destruct u.
    2: { apply NoDup_cons in H2. set_solver. }
    cbn in *. split; cbn; unfold idle_connections; cbn; [done| | |done|done].
    + eapply NoDup_Permutation_proper; [|exact H2]. solve_Permutation.
    + len_lia.
  - split; cbn; unfold idle_connections; cbn; [done| | | |].
    + eapply NoDup_Permutation_proper; [|exact H2]. solve_Permutation.
    + len_lia.
    + intros Hu. specialize (H4' Hu). set_solver.
    + len_lia.
Qed.

(** ** Every step keeps the invariant *)
Lemma shut_blocks p held ro : pool_shut p held -> AcquireConnection p ro = None.
Proof.
  intros [[_ Hu] Hi _]. unfold AcquireConnection, AcquireReadConnection, AcquireWriteConnection.
  rewrite Hu, Hi. by case_match.
Qed.

(** Neither acquiring, releasing nor opening read connections brings the write
    connection of a closed pool back. *)
Lemma Acquire_closed p ro c p' : pool_closed p -> AcquireConnection p ro = Some (c, p') -> pool_closed p'.
Proof.
  intros [Hw Hu] Ha. unfold AcquireConnection, AcquireReadConnection, AcquireWriteConnection in Ha.
  rewrite Hu in Ha. repeat case_match; by simplify_eq.
Qed.
Lemma Release_closed p c : pool_closed p -> pool_closed (ReleaseConnection p c).
Proof. intros [Hw Hu]. unfold ReleaseConnection. rewrite Hw. by case_decide. Qed.
Lemma InnerReOpen_closed p opens e p' : pool_closed p -> InnerReOpenReadConnections p opens = (e, p') -> pool_closed p'.
Proof. intros [Hw Hu] H. unfold InnerReOpenReadConnections in H. case_match; by simplify_eq. Qed.

(** With every counter at rest nothing is held. *)
Lemma open_nothing_held p held w :
  pool_open p held w -> writeConnectionUsed p = false ->
  readConnectionCount p <= idleReadConnectionCount p -> held = [].
Proof.
  intros [H1 H2 H3 H4 H5] Hu Hi. unfold idle_connections in *. rewrite Hu in *.
  destruct held; [done|]. len_lia.
Qed.

Lemma ChangeEncryptKey_inv p held key changed opens e p' :
  NoDup (opened opens) -> (forall c, c ∈ opened opens -> writeConnection p <> Some c) ->
  pool_inv (p, held) -> ChangeEncryptKey p key changed opens = (e, p') -> pool_inv (p', held).
Proof.
  intros Hnd Hfr Hinv H. unfold ChangeEncryptKey in H.
  repeat (case_match; simplify_eq; try done). to_prop.
  destruct Hinv as [Hg [[w Ho]|Hc]]; cbn in *; [|by rewrite (closed_used _ Hc) in *].
  assert (held = []) as -> by (by eapply open_nothing_held).
  eapply InnerReOpen_inv; try done; [|by intros ? _ ?%not_elem_of_nil].
  intros Hw%Hfr. by rewrite (open_write _ _ _ Ho) in Hw.
Qed.

Lemma ChangeDbFileForRestore_inv p held opens e p' :
  NoDup (opened opens) -> pool_inv (p, held) ->
  ChangeDbFileForRestore p opens = (e, p') -> pool_inv (p', held).
Proof.
  intros Hnd Hinv H. unfold ChangeDbFileForRestore in H. case_match; [by simplify_eq|]. to_prop.
  destruct Hinv as [Hg [[w Ho]|Hc]]; cbn in *; [|by rewrite (closed_used _ Hc) in *].
  assert (held = []) as -> by (eapply open_nothing_held; [done|done|lia]).
  eapply Init_inv; [done| | | |done]; [done|apply CloseAllConnections_closed|done].
Qed.

Lemma ReOpen_inv p held opens e p' :
  NoDup (opened opens) -> (forall c, c ∈ opened opens -> (c ∉ held) /\ (writeConnection p <> Some c)) ->
  pool_inv (p, held) -> ReOpenAvailableReadConnections p opens = (e, p') -> pool_inv (p', held).
Proof.
  intros Hnd Hfr [Hg [[w Ho]|Hc]] H; cbn in *.
  - eapply InnerReOpen_inv; [done| | |exact Ho|done|exact H]; [|by intros c [Hc _]%Hfr].
    intros [_ Hw]%Hfr. by rewrite (open_write _ _ _ Ho) in Hw.
  - split; [|right; by eapply InnerReOpen_closed].
    unfold ReOpenAvailableReadConnections, InnerReOpenReadConnections in H. case_match; by simplify_eq.
Qed.

Lemma pool_step_inv s s' : pool_step s s' -> pool_inv s -> pool_inv s'.
Proof.
  intros [p held ro c p' Ha|p held c held' Hh|p held key ch opens e p' ?? He|p held opens e p' ?? He|p held opens e p' ? He]
    Hinv; eauto using ChangeEncryptKey_inv, ChangeDbFileForRestore_inv, ReOpen_inv.
  - destruct Hinv as [Hg Hinv]; cbn in *. split.
    { unfold AcquireConnection, AcquireReadConnection, AcquireWriteConnection in Ha. repeat case_match; by simplify_eq. }
    destruct Hinv as [[w Ho]|Hc]; [left; exists w; by eapply AcquireConnection_inv|right; by eapply Acquire_closed].
  - destruct Hinv as [Hg Hinv]; cbn in *. split; [unfold ReleaseConnection; by case_match|].
    destruct Hinv as [[w Ho]|Hc]; [left; exists w; by eapply ReleaseConnection_inv|right; by apply Release_closed].
Qed.

Lemma pool_reachable_inv s s' : rtc pool_step s s' -> pool_inv s -> pool_inv s'.
Proof. induction 1; eauto using pool_step_inv. Qed.

Lemma shut_step s s' : pool_step s s' -> pool_shut s.1 s.2 -> pool_shut s'.1 s'.2.
Proof.
  intros [p held ro c p' Ha|p held c held' Hh|p held key ch opens e p' ?? He|p held opens e p' ?? He|p held opens e p' ? He]
    Hc; cbn in *.
  - by rewrite (shut_blocks p held ro Hc) in Ha.
  - rewrite (shut_held _ _ Hc) in Hh. by apply Permutation_nil_cons in Hh.
  - unfold ChangeEncryptKey in He. rewrite (closed_used _ (shut_closed _ _ Hc)) in He.
    repeat case_match; by simplify_eq.
  - destruct Hc as [Hc Hi Hh]. split; [by eapply InnerReOpen_closed| |done].
    unfold ReOpenAvailableReadConnections, InnerReOpenReadConnections in He. case_match; by simplify_eq/=.
  - unfold ChangeDbFileForRestore in He. rewrite (closed_used _ (shut_closed _ _ Hc)) in He. by simplify_eq/=.
Qed.

Lemma shut_reachable s s' : rtc pool_step s s' -> pool_shut s.1 s.2 -> pool_shut s'.1 s'.2.
Proof. induction 1; eauto using shut_step. Qed.

Lemma Create_inv c opens p :
  NoDup (opened opens) -> 0 <= globalReadCount c ->
  Create c opens = (E_OK, Some p) -> pool_inv (p, []).
Proof.
  intros Hnd Hg H. unfold Create in H. destruct (Init _ _) as [e p'] eqn:Hi.
  case_match; simplify_eq. by eapply (Init_inv (new_Pool c)).
Qed.

Lemma Create_shut c opens e p : Create c opens = (e, Some p) -> pool_closed p -> pool_shut p [].
Proof.
  intros H Hc. split; [done| |done]. destruct Hc as [Hw _]. unfold Create, Init in H. repeat case_match; by simplify_eq/=.
Qed.

(** What a connection request does in an open pool. *)
Lemma AcquireConnection_open p held w ro :
  pool_open p held w ->
  match AcquireConnection p ro with
  | Some (Some c, _) => c ∉ held
  | Some (None, _) => False
  | None => w ∈ held \/ readConnectionCount p <= Z.of_nat (length held)
  end.
Proof.
  intros Ho. destruct (AcquireConnection p ro) as [[[c|] q]|] eqn:Ha.
  - apply (AcquireConnection_inv _ _ _ _ held w) in Ha as [_ Hin]; [|done].
    pose proof (open_nodup _ _ _ Ho) as (_ & Hd & _)%NoDup_app. by apply Hd.
  - destruct Ho as [H1 H2 H3 H4 H5].
    unfold AcquireConnection, AcquireReadConnection, AcquireWriteConnection in Ha.
    repeat case_match; simplify_eq; to_prop;
    match goal with Hl : last _ = None |- _ => apply last_None in Hl; rewrite Hl in * end; cbn in *; lia.
  - destruct Ho as [H1 H2 H3 H4 H5].
    unfold AcquireConnection, AcquireReadConnection, AcquireWriteConnection in Ha.
    repeat case_match; simplify_eq; to_prop; (by left; apply H4) || (right; lia).
Qed.

(** C5: a pool created over distinct connections never hands one connection to two
    users: after any sequence of acquiring, releasing, changing the key, opening the
    read connections again after the definition of a table, and restores during which
    nothing else uses the pool, the held connections are distinct, a request
    gets a connection nobody holds (never a null one), a request blocks only while
    the write connection or all read connections are held, and once everything
    has been released the write connection and every read connection are idle.
    The exception is a pool whose connections could not be opened again. *)
Theorem pool_exclusive c opens p p' held :
  NoDup (opened opens) -> 0 <= globalReadCount c ->
  Create c opens = (E_OK, Some p) -> rtc pool_step (p, []) (p', held) ->
  writeConnection p' <> None ->
  NoDup held /\
  (forall ro, match AcquireConnection p' ro with
              | Some (Some conn, _) => conn ∉ held
              | Some (None, _) => False
              | None => (exists w, writeConnection p' = Some w /\ w ∈ held) \/
                        readConnectionCount p' <= Z.of_nat (length held)
              end) /\
  (held = [] -> writeConnectionUsed p' = false /\
                idleReadConnectionCount p' = readConnectionCount p').
Proof.
  intros Hnd Hg Hc Hr Hw.
  destruct (pool_reachable_inv _ _ Hr (Create_inv _ _ _ Hnd Hg Hc)) as [_ [[w Ho]|Hx]]; cbn in *;
    [|by rewrite (closed_write _ Hx) in Hw].
  split_and!.
  - by pose proof (open_nodup _ _ _ Ho) as (_ & _ & ?)%NoDup_app.
  - intros ro. pose proof (AcquireConnection_open p' held w ro Ho) as Ha.
    repeat case_match; try done. destruct Ha; [left|by right]. exists w. by destruct Ho.
  - intros ->. destruct Ho as [H1 H2 H3 H4 H5].
    destruct (writeConnectionUsed p') eqn:Hu; [specialize (H4 eq_refl); set_solver|].
    split; [done|]. unfold idle_connections in *. rewrite Hu in *. len_lia.
Qed.

Definition wal_config : PoolConfig :=
  {| isMemory := false; isWal := true; globalReadCount := 2; isInitEncrypted := true |}.
Definition two_readers : Pool := mkPool wal_config (Some 10) false [11; 12] 2 2 [].

(** A reader and a writer at work. *)
Lemma pool_exclusive_witness :
  NoDup [12; 10].
Proof.
  refine (proj1 (pool_exclusive wal_config [inr 10; inr 11; inr 12] two_readers
    (mkPool wal_config (Some 10) true [11] 2 1 []) [12; 10] _ _ _ _ _)).
  - apply (bool_decide_unpack _). vm_compute. exact I.
  - vm_compute. discriminate.
  - vm_compute. reflexivity.
  - eapply rtc_l; [apply (step_acquire _ _ false); reflexivity|].
    eapply rtc_l; [apply (step_acquire _ _ true); reflexivity|].
    apply rtc_refl.
  - discriminate.
Defined.

(** when a read connection cannot be opened again after a key change, the
    pool closes itself for good: the error is returned once, and from then on
    every request for a connection waits forever, whatever other threads do
    (changing the key or restoring again is refused as busy). *)
Theorem failed_rekey_blocks_forever c opens p key changed opens' e p1 p2 held :
  NoDup (opened opens) -> 0 <= globalReadCount c -> Create c opens = (E_OK, Some p) ->
  ChangeEncryptKey p key changed opens' = (e, p1) -> writeConnection p1 = None ->
  rtc pool_step (p1, []) (p2, held) ->
  held = [] /\ forall ro, AcquireConnection p2 ro = None.
Proof.
  intros Hnd Hg Hc He Hw Hr.
  assert (pool_shut p1 []) as Hx.
  { unfold ChangeEncryptKey, InnerReOpenReadConnections in He.
    destruct (Create_inv _ _ _ Hnd Hg Hc) as [_ [[w Ho]|Hx]]; cbn in *.
    - apply open_write in Ho. repeat case_match; simplify_eq/=; congruence || done.
    - rewrite (closed_used _ Hx) in He. apply (Create_shut _ _ _ _ Hc) in Hx. repeat case_match; by simplify_eq/=. }
  pose proof (shut_reachable _ _ Hr Hx) as Hx2. cbn in Hx2.
  split; [by destruct Hx2|]. intros ro. by apply (shut_blocks _ held).
Qed.

Lemma failed_rekey_blocks_forever_witness :
  AcquireConnection (CloseAllConnections two_readers) true = None.
Proof.
  refine (proj2 (failed_rekey_blocks_forever wal_config [inr 10; inr 11; inr 12] two_readers
    [1] E_OK [inr 13; inl E_ERROR] E_ERROR (CloseAllConnections two_readers)
    (CloseAllConnections two_readers) [] _ _ _ _ _ _) true).
  - apply (bool_decide_unpack _). vm_compute. exact I.
  - vm_compute. discriminate.
  - vm_compute. reflexivity.
  - vm_compute. reflexivity.
  - reflexivity.
  - apply rtc_refl.
Defined.

(** A restore takes no lock. A reader that gets a connection between the check and the
    closing has a connection in its hands that is deleted; when it gives it back, the
    deleted connection is among the idle ones of the new pool. *)
Example unlocked_restore :
  match AcquireConnection two_readers true with
  | Some (Some c, p) =>
      let '(e, p) := Init (CloseAllConnections p) [inr 20; inr 21; inr 22] in
      c = 12 /\ e = E_OK /\ readConnections (ReleaseConnection p c) = [21; 22; 12]
  | _ => False
  end.
Proof. vm_compute. auto. Qed.

(** Read connections opened again while one is in use: both the old and the new ones
    are kept. *)
Example reopened_in_use :
  match AcquireConnection two_readers true with
  | Some (Some c, p) =>
      let p := (ReOpenAvailableReadConnections p [inr 21; inr 22]).2 in
      let p := ReleaseConnection p c in
      readConnections p = [21; 22; 12] /\ idleReadConnectionCount p = 2
  | _ => False
  end.
Proof. vm_compute. auto. Qed.
