(* ===== verification/Disk.v ===== *)
(** * Files

    The file system the preferences are kept in: a map from paths to contents, and
    the calls of the C library that change it. Every call may fail, as the list of
    faults says; a call that writes a file may be interrupted after any number of
    characters. The states the disk goes through are recorded: they are what a crash
    of the process can leave behind. *)
From S2P Require Import Prelude.
From Stdlib Require Import String.

#[local] Open Scope list_scope.

Abbreviation disk := (gmap string string).

(** [Fails n] is a call that fails: a write after [n - 1] characters, or before it
    touches the file when [n] is 0; the other calls without any effect. *)
Inductive fault :=
| Works
| Fails (n : nat).

Record FS := mkFS {
  files : disk;
  faults : list fault;
  crashes : list disk;
}.

Definition F (A : Type) : Type := FS -> A * FS.
#[global] Instance F_ret : MRet F := fun A a w => (a, w).
#[global] Instance F_bind : MBind F := fun A B f m w => let '(a, w) := m w in f a w.

Definition next_fault (w : FS) : fault := default Works (head (faults w)).

(** A call that is finished, with the states it went through. *)
Definition done_with (w : FS) (d : disk) (through : list disk) : FS :=
  mkFS d (tail (faults w)) (crashes w ++ through ++ [d]).

(** [std::remove]; true when it fails. *)
Definition remove (path : string) : F bool := fun w =>
  match next_fault w, files w !! path with
  | Works, Some _ => (false, done_with w (delete path (files w)) [])
  | _, _ => (true, done_with w (files w) [])
  end.

(** [std::rename]; true when it fails. *)
Definition rename (old new : string) : F bool := fun w =>
  match next_fault w, files w !! old with
  | Works, Some content => (false, done_with w (<[new := content]> (delete old (files w))) [])
  | _, _ => (true, done_with w (files w) [])
  end.

(** The disk while [n] characters have been written. *)
Definition partial (d : disk) (path content : string) (n : nat) : disk :=
  <[path := substring 0 n content]> d.

(** Writing a whole file; true when it succeeds. *)
Definition save (path content : string) : F bool := fun w =>
  let states n := partial (files w) path content <$> seq 0 n in
  match next_fault w with
  | Works =>
      (true, done_with w (<[path := content]> (files w)) (states (String.length content)))
  | Fails O => (false, done_with w (files w) [])
  | Fails (S n) => (false, done_with w (partial (files w) path content n) (states n))
  end.

(** Opening a file for reading succeeds. *)
Definition opens (path : string) : F bool := fun w => (bool_decide (is_Some (files w !! path)), w).
Definition content_of (path : string) : F (option string) := fun w => (files w !! path, w).

(** [PATH_MAX] of the C library. *)
Definition PATH_MAX : nat := 4096.
