(* ===== verification/PreferencesErrno.v ===== *)
(** * Error codes of the preferences

    The codes of preferences_errno.h that the modelled code returns. *)
From S2P Require Import Prelude.

Definition E_OK : Z := 0.
Definition E_BASE : Z := -1000.
Definition E_ERROR : Z := E_BASE - 1.
Definition E_STALE : Z := E_BASE - 2.
Definition E_INVALID_ARGS : Z := E_BASE - 3.
Definition E_NOT_PERMIT : Z := E_BASE - 5.
Definition E_KEY_EMPTY : Z := E_BASE - 6.
Definition E_KEY_EXCEED_MAX_LENGTH : Z := E_BASE - 7.
Definition E_DELETE_FILE_FAIL : Z := E_BASE - 9.
Definition E_EMPTY_FILE_PATH : Z := E_BASE - 10.
Definition E_RELATIVE_PATH : Z := E_BASE - 11.
Definition E_EMPTY_FILE_NAME : Z := E_BASE - 12.
Definition E_INVALID_FILE_PATH : Z := E_BASE - 13.
Definition E_PATH_EXCEED_MAX_LENGTH : Z := E_BASE - 14.
Definition E_VALUE_EXCEED_MAX_LENGTH : Z := E_BASE - 15.
Definition E_KEY_EXCEED_LENGTH_LIMIT : Z := E_BASE - 16.
Definition E_VALUE_EXCEED_LENGTH_LIMIT : Z := E_BASE - 17.
Definition E_DEFAULT_EXCEED_LENGTH_LIMIT : Z := E_BASE - 18.
