(* ===== verification/PreferencesXml.v ===== *)
(** * Values of preferences and their XML

    Models of preferences_value.cpp and preferences_xml_utils.cpp: the value types,
    the elements a preferences file consists of, and their translation to and from
    XML nodes. Libxml, which prints and parses the nodes, is the interface [Xml]. *)
From S2P Require Import Prelude Strings StdMap Disk.
From Stdlib Require Import Ascii.

#[local] Open Scope list_scope.

(** ** Values

    A [float] or [double] is its bit pattern; a [std::set<std::string>] is the list
    of its elements in increasing order. *)
Inductive PreferencesValue :=
| PInt (z : Z)
| PLong (z : Z)
| PFloat (bits : Z)
| PDouble (bits : Z)
| PBool (b : bool)
| PString (s : string)
| PSet (l : list string).

Definition IsInt (v : PreferencesValue) : bool := match v with PInt _ => true | _ => false end.
Definition IsLong (v : PreferencesValue) : bool := match v with PLong _ => true | _ => false end.
Definition IsFloat (v : PreferencesValue) : bool := match v with PFloat _ => true | _ => false end.
Definition IsDouble (v : PreferencesValue) : bool :=
  match v with PDouble _ => true | _ => false end.
Definition IsBool (v : PreferencesValue) : bool := match v with PBool _ => true | _ => false end.
Definition IsString (v : PreferencesValue) : bool :=
  match v with PString _ => true | _ => false end.
Definition IsSet (v : PreferencesValue) : bool := match v with PSet _ => true | _ => false end.

(** ** Comparison *)

(** [operator==] of the variants. *)
Definition PreferencesValue_eqb (v1 v2 : PreferencesValue) : bool :=
  match v1, v2 with
  | PInt z1, PInt z2 | PLong z1, PLong z2 => z1 =? z2
  | PFloat b1, PFloat b2 => fp_eqb decode_float b1 b2
  | PDouble b1, PDouble b2 => fp_eqb decode_double b1 b2
  | PBool b1, PBool b2 => Bool.eqb b1 b2
  | PString s1, PString s2 => (s1 =? s2)%string
  | PSet l1, PSet l2 => bool_decide (l1 = l2)
  | _, _ => false
  end.

(** ** XML nodes *)
Inductive xmlNode :=
| XElement (name : string) (props : list (string * string)) (children : list xmlNode)
| XText (content : string).

Definition node_name (n : xmlNode) : string :=
  match n with XElement name _ _ => name | XText _ => "text" end.
Definition node_children (n : xmlNode) : list xmlNode :=
  match n with XElement _ _ children => children | XText _ => [] end.

(** [xmlGetProp]. *)
Definition xmlGetProp (n : xmlNode) (name : string) : option string :=
  match n with
  | XElement _ props _ => snd <$> List.find (fun p => (fst p =? name)%string) props
  | XText _ => None
  end.

(** [xmlNodeGetContent]: the text below the node. *)
Fixpoint xmlNodeGetContent (n : xmlNode) : string :=
  match n with
  | XText content => content
  | XElement _ _ children => foldr (fun c s => xmlNodeGetContent c +:+ s) "" children
  end.

Definition is_element (n : xmlNode) : bool :=
  match n with XElement _ _ _ => true | XText _ => false end.
Definition is_empty_text (n : xmlNode) : bool :=
  match n with XText "" => true | _ => false end.

(** A text of length 0 is not a node any more once it has been read back. *)
Fixpoint xml_norm (n : xmlNode) : xmlNode :=
  match n with
  | XText content => XText content
  | XElement name props children =>
      XElement name props (List.filter (fun c => negb (is_empty_text c)) (map xml_norm children))
  end.

(** ** What XML can represent: the characters of XML 1.0 in UTF-8 *)
Definition continues (c : ascii) : bool :=
  let n := N_of_ascii c in (128 <=? n)%N && (n <=? 191)%N.

Fixpoint xml_text (s : string) : bool :=
  match s with
  | EmptyString => true
  | String c s1 =>
      let n := Z.of_N (N_of_ascii c) in
      if n <? 128 then ((n =? 9) || (n =? 10) || (n =? 13) || (32 <=? n)) && xml_text s1
      else
        match s1 with
        | EmptyString => false
        | String c1 s2 =>
            let n1 := Z.of_N (N_of_ascii c1) in
            continues c1 &&
            (if n <? 194 then false
             else if n <? 224 then xml_text s2
             else
               match s2 with
               | EmptyString => false
               | String c2 s3 =>
                   let n2 := Z.of_N (N_of_ascii c2) in
                   continues c2 &&
                   (if n <? 240 then
                      negb ((n =? 224) && (n1 <? 160)) && negb ((n =? 237) && (159 <? n1)) &&
                      negb ((n =? 239) && (n1 =? 191) && (189 <? n2)) && xml_text s3
                    else
                      match s3 with
                      | EmptyString => false
                      | String c3 s4 =>
                          continues c3 && (n <? 245) && negb ((n =? 240) && (n1 <? 144)) &&
                          negb ((n =? 244) && (143 <? n1)) && xml_text s4
                      end)
               end)
        end
  end.

Definition xml_name (s : string) : bool :=
  negb (empty s) &&
  string_forall (fun c => let n := N_of_ascii c in (97 <=? n)%N && (n <=? 122)%N) s.

(** Nodes that survive printing with indentation: no element has both text and
    elements in it. *)
Fixpoint xml_plain (n : xmlNode) : bool :=
  match n with
  | XText content => xml_text content
  | XElement name props children =>
      xml_name name && forallb (fun p => xml_name (fst p) && xml_text (snd p)) props &&
      bool_decide (NoDup (fst <$> props)) &&
      (forallb is_element children || (length children =? 1)%nat) && forallb xml_plain children
  end.

(** [xmlSaveFormatFileEnc] and [xmlReadFile] without blanks, as functions between the
    root element and the text of the file. *)
Class Xml := {
  xmlSave : xmlNode -> string;
  xmlRead : string -> option xmlNode;
}.

(** A saved document is read back, and a document that was cut short is refused
    unless only the white space after the root element is missing. *)
Class XmlLaws `{Xml} := {
  read_saved n : xml_plain n = true -> is_element n = true -> xmlRead (xmlSave n) = Some (xml_norm n);
  read_cut n k : xml_plain n = true -> is_element n = true ->
    xmlRead (String.substring 0 k (xmlSave n)) = None \/
    xmlRead (String.substring 0 k (xmlSave n)) = xmlRead (xmlSave n);
}.

(** ** Elements *)
Inductive Element :=
| mkElement (tag_ key_ value_ : string) (children_ : list Element).

(** The text up to the first NUL character. *)
Fixpoint c_str (s : string) : string :=
  match s with
  | String c s => if Ascii.eqb c "000" then EmptyString else String c (c_str s)
  | EmptyString => EmptyString
  end.

Definition is_primitive (tag : string) : bool :=
  (tag =? "int")%string || (tag =? "long")%string || (tag =? "bool")%string ||
  (tag =? "float")%string || (tag =? "double")%string.

Definition ParsePrimitiveNodeElement (node : xmlNode) : option Element :=
  match xmlGetProp node "key", xmlGetProp node "value" with
  | Some key, Some value => Some (mkElement (node_name node) key value [])
  | _, _ => None
  end.

Definition ParseStringNodeElement (node : xmlNode) : option Element :=
  let key := default "" (xmlGetProp node "key") in
  Some (mkElement (node_name node) key (xmlNodeGetContent node) []).

(** The loop over the children, stopped by the first that is refused. *)
Definition parse_children (parse : xmlNode -> option Element)
    : list xmlNode -> option (list Element) :=
  fix loop children :=
    match children with
    | [] => Some []
    | cur :: children =>
        match parse cur with
        | None => None
        | Some child => cons child <$> loop children
        end
    end.

Definition ParseSetNodeElement (children : option (list Element)) (node : xmlNode)
    : option Element :=
  match xmlGetProp node "key" with
  | None => None
  | Some key => mkElement (node_name node) key "" <$> children
  end.

Fixpoint ParseNodeElement (node : xmlNode) : option Element :=
  if is_primitive (node_name node) then ParsePrimitiveNodeElement node
  else if (node_name node =? "string")%string then ParseStringNodeElement node
  else if (node_name node =? "set")%string then
    ParseSetNodeElement
      (match node with
       | XElement _ _ children => parse_children ParseNodeElement children
       | XText _ => Some []
       end) node
  else None.

Definition CreatePrimitiveNode (tag_ key_ value_ : string) : xmlNode :=
  XElement (c_str tag_) [("key", c_str key_); ("value", c_str value_)] [].

Definition CreateStringNode (tag_ key_ value_ : string) : xmlNode :=
  XElement (c_str tag_) (if empty key_ then [] else [("key", c_str key_)]) [XText (c_str value_)].

(** A child without a node is skipped. *)
Definition CreateSetNode (tag_ key_ : string) (children : list (option xmlNode)) : xmlNode :=
  XElement (c_str tag_) [("key", c_str key_)] (omap id children).

Fixpoint CreateElementNode (element : Element) : option xmlNode :=
  match element with
  | mkElement tag_ key_ value_ children_ =>
      if is_primitive tag_ then Some (CreatePrimitiveNode tag_ key_ value_)
      else if (tag_ =? "string")%string then Some (CreateStringNode tag_ key_ value_)
      else if (tag_ =? "set")%string then
        Some (CreateSetNode tag_ key_ (map CreateElementNode children_))
      else None
  end.

(** ** Files *)
Section Files.
Context `{Xml}.

Definition ReadSettingXml (fileName : string) : F (option (list Element)) :=
  if empty fileName then mret None
  else
    content ← content_of fileName;
    match content with
    | None => mret None
    | Some content =>
        if (PATH_MAX <? String.length fileName)%nat then mret None
        else
          match xmlRead content with
          | None => mret None
          | Some root =>
              if (node_name root =? "preferences")%string
              then mret (parse_children ParseNodeElement (node_children root))
              else mret None
          end
    end.

(** The nodes of the elements; the loop ends at an element without a node. *)
Fixpoint create_nodes (settings : list Element) : option (list xmlNode) :=
  match settings with
  | [] => Some []
  | element :: settings =>
      match CreateElementNode element with
      | None => None
      | Some node => cons node <$> create_nodes settings
      end
  end.

Definition settings_root (nodes : list xmlNode) : xmlNode :=
  XElement "preferences" [("version", "1.0")] nodes.

(** The permission bits set afterwards are left out. *)
Definition WriteSettingXml (fileName : string) (settings : list Element) : F bool :=
  if empty fileName then mret false
  else
    match create_nodes settings with
    | None => mret false
    | Some nodes => save fileName (xmlSave (settings_root nodes))
    end.
End Files.
