(* ===== verification/PreferencesImpl.v ===== *)
(** * Preferences

    Model of preferences_impl.cpp: a map in memory that is loaded from an XML file when
    the object is created and written back by [Flush] and [FlushSync]. Loading and
    writing are tasks of the task pool; they are all scheduled under one tag, so they
    run one after the other in the order in which they were scheduled, between the
    operations of the client. *)
From S2P Require Import Prelude Strings StdMap Disk PreferencesErrno PreferencesXml.
From Stdlib Require Import Ascii.

#[local] Open Scope list_scope.

Definition prefs : Type := list (string * PreferencesValue).

(** Observers are weak pointers, here the identities of the objects. *)
Record PreferencesImpl := mkPreferences {
  loaded_ : bool;
  currentMemoryStateGeneration_ : Z;
  diskStateGeneration_ : Z;
  preferencesObservers_ : list Z;
  map_ : prefs;
  modifiedKeys_ : list string;
  filePath_ : string;
}.

Record MemoryToDiskRequest := mkRequest {
  isSyncRequest_ : bool;
  memoryStateGeneration_ : Z;
  writeToDiskMap_ : prefs;
  keysModified_ : list string;
  requestObservers_ : list Z;
}.

Inductive task :=
| LoadTask
| WriteTask (mcr : MemoryToDiskRequest).

(** The object, the disk, the tasks that wait and the notifications sent. *)
Record World := mkWorld {
  impl : PreferencesImpl;
  fs : FS;
  tasks : list task;
  notified : list (Z * string);
}.

(** An operation returns, waits for the file to be loaded, or ends the process with
    an exception nobody catches. *)
Inductive result (A : Type) :=
| Returns (a : A)
| Waits
| Terminates.
#[global] Arguments Returns {A} a.
#[global] Arguments Waits {A}.
#[global] Arguments Terminates {A}.

Definition P (A : Type) : Type := World -> result (A * World).
#[global] Instance P_ret : MRet P := fun A a w => Returns (a, w).
#[global] Instance P_bind : MBind P := fun A B f m w =>
  match m w with Returns (a, w) => f a w | Waits => Waits | Terminates => Terminates end.

#[global] Instance P_fmap : FMap P := fun A B f m w =>
  match m w with Returns (a, w) => Returns (f a, w) | Waits => Waits | Terminates => Terminates end.

Definition get_impl : P PreferencesImpl := fun w => Returns (impl w, w).
Definition set_impl (p : PreferencesImpl) : P unit := fun w =>
  Returns (tt, mkWorld p (fs w) (tasks w) (notified w)).
Definition on_disk {A} (m : F A) : P A := fun w =>
  let '(a, d) := m (fs w) in Returns (a, mkWorld (impl w) d (tasks w) (notified w)).

Definition with_map (p : PreferencesImpl) (m : prefs) (keys : list string) : PreferencesImpl :=
  mkPreferences (loaded_ p) (currentMemoryStateGeneration_ p) (diskStateGeneration_ p)
    (preferencesObservers_ p) m keys (filePath_ p).
Definition with_observers (p : PreferencesImpl) (l : list Z) : PreferencesImpl :=
  mkPreferences (loaded_ p) (currentMemoryStateGeneration_ p) (diskStateGeneration_ p) l
    (map_ p) (modifiedKeys_ p) (filePath_ p).
Definition with_disk_generation (p : PreferencesImpl) (g : Z) : PreferencesImpl :=
  mkPreferences (loaded_ p) (currentMemoryStateGeneration_ p) g (preferencesObservers_ p)
    (map_ p) (modifiedKeys_ p) (filePath_ p).
Definition with_loaded (p : PreferencesImpl) (l : bool) (m : prefs) : PreferencesImpl :=
  mkPreferences l (currentMemoryStateGeneration_ p) (diskStateGeneration_ p)
    (preferencesObservers_ p) m (modifiedKeys_ p) (filePath_ p).

Definition MAX_KEY_LENGTH : nat := 80.
Definition MAX_VALUE_LENGTH : nat := 8 * 1024.

(** ** Files *)
Definition IsFileExist (inputPath : string) : F bool :=
  if (PATH_MAX <? String.length inputPath)%nat then mret false else opens inputPath.

Definition MakeBackupPath (prefPath : string) : string := prefPath +:+ ".bak".
Definition MakeBrokenPath (prefPath : string) : string := prefPath +:+ ".bak".

Definition new_PreferencesImpl (filePath : string) : PreferencesImpl :=
  mkPreferences false 0 0 [] [] [] filePath.

Definition backupPath_ (p : PreferencesImpl) : string := MakeBackupPath (filePath_ p).

(** ** Reading and writing the map *)

(** A [std::set] built by inserting. *)
Definition set_insert (s : string) (l : list string) : list string :=
  fst <$> sm_insert s tt ((fun x => (x, tt)) <$> l).

(** The conversions of the C library from text to numbers. *)
Class FloatText := {
  stof : string -> outcome Z;
  stod : string -> outcome Z;
}.

Section Preferences.
Context `{Xml} `{FloatText}.

(** The value of an element; [None] for an unknown tag. *)
Definition element_value (element : Element) : outcome (option PreferencesValue) :=
  let '(mkElement tag_ key_ value_ children_) := element in
  if (tag_ =? "int")%string then value <-- stoi value_; Ok (Some (PInt value))
  else if (tag_ =? "bool")%string then Ok (Some (PBool (value_ =? "true")%string))
  else if (tag_ =? "long")%string then value <-- stoll value_; Ok (Some (PLong value))
  else if (tag_ =? "float")%string then value <-- stof value_; Ok (Some (PFloat value))
  else if (tag_ =? "double")%string then value <-- stod value_; Ok (Some (PDouble value))
  else if (tag_ =? "string")%string then Ok (Some (PString value_))
  else if (tag_ =? "set")%string then
    Ok (Some (PSet (foldl (fun values child =>
                             let '(mkElement _ _ value_ _) := child in set_insert value_ values)
                      [] children_)))
  else Ok None.

Definition element_key (element : Element) : string :=
  let '(mkElement _ key_ _ _) := element in key_.

Fixpoint read_elements (settings : list Element) (prefMap : prefs) : outcome prefs :=
  match settings with
  | [] => Ok prefMap
  | element :: settings =>
      v <-- element_value element;
      read_elements settings
        (match v with
         | Some value => sm_insert (element_key element) value prefMap
         | None => prefMap
         end)
  end.

Definition ReadSettingXml (prefPath : string) (prefMap : prefs) : F (outcome prefs) :=
  settings ← PreferencesXml.ReadSettingXml prefPath;
  mret (match settings with
        | None => Ok prefMap
        | Some settings => read_elements settings prefMap
        end).

Definition value_element (key : string) (value : PreferencesValue) : Element :=
  match value with
  | PInt z => mkElement "int" key (to_string z) []
  | PBool b => mkElement "bool" key (to_string (if b then 1 else 0)) []
  | PLong z => mkElement "long" key (to_string z) []
  | PFloat bits => mkElement "float" key (to_string_fp (decode_float bits)) []
  | PDouble bits => mkElement "double" key (to_string_fp (decode_double bits)) []
  | PString s => mkElement "string" key s []
  | PSet values => mkElement "set" key "" ((fun val => mkElement "string" "" val []) <$> values)
  end.

Definition WriteSettingXml (prefPath : string) (prefMap : prefs) : F bool :=
  PreferencesXml.WriteSettingXml prefPath ((fun kv => value_element (fst kv) (snd kv)) <$> prefMap).

(** ** Tasks *)
Definition LoadFromDisk (pref : PreferencesImpl) : F (outcome PreferencesImpl) :=
  if loaded_ pref then mret (Ok pref)
  else
    backup ← IsFileExist (backupPath_ pref);
    (if backup : bool then
       remove (filePath_ pref) ;;
       rename (backupPath_ pref) (filePath_ pref) ;;
       mret tt
     else mret tt) ;;
    exists_ ← IsFileExist (filePath_ pref);
    m ← (if exists_ : bool then ReadSettingXml (filePath_ pref) (map_ pref)
         else mret (Ok (map_ pref)));
    mret (m <-- m; Ok (with_loaded pref true m)).

Definition CheckRequestValidForStateGeneration (p : PreferencesImpl) (mcr : MemoryToDiskRequest)
    : bool :=
  if diskStateGeneration_ p <? memoryStateGeneration_ mcr then
    if isSyncRequest_ mcr then true
    else currentMemoryStateGeneration_ p =? memoryStateGeneration_ mcr
  else false.

(** The second half of [WriteToDiskFile]: the branch of a complete file, the clean-up
    of a partial one, and the choice between them. *)
Definition write_done (p : PreferencesImpl) (mcr : MemoryToDiskRequest)
    : F ((bool * Z) * PreferencesImpl) :=
  backup ← IsFileExist (backupPath_ p);
  (if backup : bool then remove (backupPath_ p) else mret false) ;;
  mret ((true, E_OK), with_disk_generation p (memoryStateGeneration_ mcr)).

Definition write_failed (p : PreferencesImpl) : F ((bool * Z) * PreferencesImpl) :=
  exists_ ← IsFileExist (filePath_ p);
  (if exists_ : bool then remove (filePath_ p) else mret false) ;;
  mret ((false, E_ERROR), p).

Definition write_map (p : PreferencesImpl) (mcr : MemoryToDiskRequest)
    : F ((bool * Z) * PreferencesImpl) :=
  written ← WriteSettingXml (filePath_ p) (writeToDiskMap_ mcr);
  if written : bool then write_done p mcr else write_failed p.

(** What [SetDiskWriteResult] was given, and the object. *)
Definition WriteToDiskFile (p : PreferencesImpl) (mcr : MemoryToDiskRequest)
    : F ((bool * Z) * PreferencesImpl) :=
  fileExists ← IsFileExist (filePath_ p);
  if fileExists : bool then
    if negb (CheckRequestValidForStateGeneration p mcr) then mret ((false, E_OK), p)
    else
      backup ← IsFileExist (backupPath_ p);
      if backup : bool then remove (filePath_ p) ;; write_map p mcr
      else
        failed ← rename (filePath_ p) (backupPath_ p);
        if failed : bool then mret ((false, E_ERROR), p) else write_map p mcr
  else write_map p mcr.

(** A thread of the pool runs a task. *)
Definition run_task (t : task) : P (bool * Z) :=
  p ← get_impl;
  match t with
  | LoadTask =>
      r ← on_disk (LoadFromDisk p);
      match r with
      | Ok p => set_impl p ;; mret (false, E_ERROR)
      | _ => fun _ => Terminates
      end
  | WriteTask mcr =>
      r ← on_disk (WriteToDiskFile p mcr);
      set_impl (snd r) ;;
      mret (fst r)
  end.

(** The thread takes the first task. *)
Definition work : P unit := fun w =>
  match tasks w with
  | [] => Returns (tt, w)
  | t :: ts => (run_task t ;; mret tt) (mkWorld (impl w) (fs w) ts (notified w))
  end.

(** The tasks that wait, with the outcome of the last one. *)
Fixpoint run_tasks (ts : list task) (last : bool * Z) : P (bool * Z) :=
  match ts with
  | [] => mret last
  | t :: ts => r ← run_task t; run_tasks ts r
  end.
Definition drain : P (bool * Z) := fun w =>
  run_tasks (tasks w) (false, E_ERROR) (mkWorld (impl w) (fs w) [] (notified w)).

Definition Schedule (t : task) : P unit := fun w =>
  Returns (tt, mkWorld (impl w) (fs w) (tasks w ++ [t]) (notified w)).

Definition StartLoadFromDisk : P unit :=
  p ← get_impl;
  set_impl (with_loaded p false (map_ p)) ;;
  Schedule LoadTask.

(** [startCode] is what starting the task pool answered. *)
Definition Init (startCode : Z) : P Z :=
  if negb (startCode =? E_OK) then mret startCode
  else StartLoadFromDisk ;; mret E_OK.

(** ** Operations *)
Definition CheckKey (key : string) : Z :=
  if empty key then E_KEY_EMPTY
  else if (MAX_KEY_LENGTH <? String.length key)%nat then E_KEY_EXCEED_MAX_LENGTH
  else E_OK.

Definition CheckStringValue (value : string) : Z :=
  if (MAX_VALUE_LENGTH <? String.length value)%nat then E_VALUE_EXCEED_MAX_LENGTH else E_OK.

Definition AwaitLoadFile : P unit := fun w => if loaded_ (impl w) then Returns (tt, w) else Waits.

(** What the getters have in common: [pick] is the type test with the conversion. *)
Definition get_value {A} (pick : PreferencesValue -> option A) (key : string) (defValue : A) : P A :=
  if negb (CheckKey key =? E_OK) then mret defValue
  else
    AwaitLoadFile ;;
    p ← get_impl;
    mret (match sm_find key (map_ p) with
          | Some val => default defValue (pick val)
          | None => defValue
          end).

Definition GetInt : string -> Z -> P Z :=
  get_value (fun v => match v with PInt z => Some z | _ => None end).
Definition GetString : string -> string -> P string :=
  get_value (fun v => match v with PString s => Some s | _ => None end).
Definition GetBool : string -> bool -> P bool :=
  get_value (fun v => match v with PBool b => Some b | _ => None end).
Definition GetFloat : string -> Z -> P Z :=
  get_value (fun v => match v with PFloat b => Some b | _ => None end).
Definition GetDouble : string -> Z -> P Z :=
  get_value (fun v => match v with PDouble b => Some b | _ => None end).
Definition GetLong : string -> Z -> P Z :=
  get_value (fun v => match v with PLong z => Some z | _ => None end).
Definition GetStringSet : string -> list string -> P (list string) :=
  get_value (fun v => match v with PSet l => Some l | _ => None end).

Definition GetAll : P prefs := AwaitLoadFile ;; p ← get_impl; mret (map_ p).

Definition HasKey (key : string) : P bool :=
  if negb (CheckKey key =? E_OK) then mret false
  else
    AwaitLoadFile ;;
    p ← get_impl;
    mret (bool_decide (is_Some (sm_find key (map_ p)))).

Definition PutPreferencesValue (key : string) (value : PreferencesValue) : P unit :=
  AwaitLoadFile ;;
  p ← get_impl;
  let change := set_impl (with_map p (sm_set key value (map_ p)) (modifiedKeys_ p ++ [key])) in
  match sm_find key (map_ p) with
  | Some val => if PreferencesValue_eqb val value then mret tt else change
  | None => change
  end.

(** The puts of values without further checks. *)
Definition put_value (key : string) (value : PreferencesValue) : P Z :=
  let errCode := CheckKey key in
  if negb (errCode =? E_OK) then mret errCode
  else PutPreferencesValue key value ;; mret E_OK.

Definition PutInt (key : string) (value : Z) : P Z := put_value key (PInt value).
Definition PutBool (key : string) (value : bool) : P Z := put_value key (PBool value).
Definition PutLong (key : string) (value : Z) : P Z := put_value key (PLong value).
Definition PutFloat (key : string) (value : Z) : P Z := put_value key (PFloat value).
Definition PutDouble (key : string) (value : Z) : P Z := put_value key (PDouble value).

Definition PutString (key value : string) : P Z :=
  let errCode := CheckKey key in
  if negb (errCode =? E_OK) then mret errCode
  else
    let errCode := CheckStringValue value in
    if negb (errCode =? E_OK) then mret errCode
    else PutPreferencesValue key (PString value) ;; mret E_OK.

(** The set comes as the list of its elements in order. *)
Definition PutStringSet (key : string) (value : list string) : P Z :=
  let errCode := CheckKey key in
  if negb (errCode =? E_OK) then mret errCode
  else if existsb (fun child => negb (CheckStringValue child =? E_OK)) value then mret errCode
  else PutPreferencesValue key (PSet value) ;; mret E_OK.

Definition Delete (key : string) : P Z :=
  let errCode := CheckKey key in
  if negb (errCode =? E_OK) then mret errCode
  else
    p ← get_impl;
    match sm_find key (map_ p) with
    | Some _ => set_impl (with_map p (sm_erase key (map_ p)) (modifiedKeys_ p ++ [key])) ;; mret E_OK
    | None => mret E_OK
    end.

Definition Clear : P Z :=
  p ← get_impl;
  match map_ p with
  | [] => mret E_OK
  | _ => set_impl (with_map p [] (modifiedKeys_ p ++ (fst <$> map_ p))) ;; mret E_OK
  end.

(** ** Flushing *)
Definition commitToMemory (sync : bool) : P MemoryToDiskRequest :=
  p ← get_impl;
  let changed := negb (bool_decide (modifiedKeys_ p = [])) in
  let generation := currentMemoryStateGeneration_ p + (if changed then 1 else 0) in
  set_impl (mkPreferences (loaded_ p) generation (diskStateGeneration_ p)
              (preferencesObservers_ p) (map_ p) [] (filePath_ p)) ;;
  mret (mkRequest sync generation (map_ p) (modifiedKeys_ p) (preferencesObservers_ p)).

(** [alive] says which observers still exist. *)
Definition notifyPreferencesObserver (alive : Z -> bool) (request : MemoryToDiskRequest) : P unit :=
  fun w =>
    let calls key := (fun o => (o, key)) <$> List.filter alive (requestObservers_ request) in
    Returns (tt, mkWorld (impl w) (fs w) (tasks w)
                   (notified w ++ concat (calls <$> keysModified_ request))).

Definition Flush (alive : Z -> bool) : P unit :=
  request ← commitToMemory false;
  Schedule (WriteTask request) ;;
  notifyPreferencesObserver alive request.

(** Waiting for the request to be handled lets the tasks run up to it. This is so when the
    pool runs every task that was scheduled; when it forgets one (TaskPool), the call does
    not return. *)
Definition FlushSync (alive : Z -> bool) : P Z :=
  request ← commitToMemory true;
  Schedule (WriteTask request) ;;
  r ← drain;
  notifyPreferencesObserver alive request ;;
  mret (snd r).

(** ** Observers *)
Definition RegisterObserver (o : Z) : P unit :=
  p ← get_impl; set_impl (with_observers p (preferencesObservers_ p ++ [o])).

(** Erases the first observer that is gone or the one asked for. *)
Fixpoint erase_observer (alive : Z -> bool) (o : Z) (l : list Z) : list Z :=
  match l with
  | [] => []
  | x :: l => if negb (alive x) || (x =? o) then l else x :: erase_observer alive o l
  end.

Definition UnRegisterObserver (alive : Z -> bool) (o : Z) : P unit :=
  p ← get_impl; set_impl (with_observers p (erase_observer alive o (preferencesObservers_ p))).
End Preferences.
