(* ===== verification/PreferencesSpec.v ===== *)
(** * Memory and disk

    The preferences as a system of a client and the thread that loads and writes:
    whatever the client does and however the tasks fall between its operations, once
    the tasks are done and no change is pending the disk holds what memory holds. *)
From S2P Require Import Prelude StdMap Strings Disk PreferencesErrno PreferencesXml PreferencesImpl.
From Stdlib Require Import Ascii Sorted.
From Stdlib Require Import Ascii.

#[local] Open Scope list_scope.

(** * Preferences on disk

    Writing a map keeps the old file as a backup until the new one is complete: at
    whatever point the process is interrupted, and whichever calls of the file system
    fail, the next process loads the old map or the new one. *)

(** * What a preferences file holds

    The text written for a map is read back as that map, value by value, except that
    a saved [true] comes back as [false]. *)

(** ** Texts *)
Definition no_nul (s : string) : bool := string_forall (fun c => negb (Ascii.eqb c "000")) s.

Lemma c_str_no_nul s : no_nul s = true -> c_str s = s.
Proof.
  induction s as [|c s IH]; [done|]. cbn. intros [Hc Hs]%andb_prop.
  apply negb_true_iff in Hc. by rewrite Hc, IH.
Qed.

Lemma high_not_nul c : 9 <= Z.of_N (N_of_ascii c) -> negb (Ascii.eqb c "000") = true.
Proof.
  intros Hc. apply negb_true_iff, Ascii.eqb_neq. intros ->. cbn in Hc. lia.
Qed.

Lemma continues_not_nul c : continues c = true -> negb (Ascii.eqb c "000") = true.
Proof.
  unfold continues. intros [Hc _]%andb_prop. apply high_not_nul. apply N.leb_le in Hc. lia.
Qed.

(** Proofs about [xml_text] go by the length, since a character has up to four bytes. *)
Lemma xml_text_no_nul s : xml_text s = true -> no_nul s = true.
Proof.
  remember (String.length s) as n eqn:Hn. revert s Hn.
  induction (lt_wf n) as [n _ IH]. intros [|c s] -> Hs; [done|].
  assert (Hrec : forall s', (String.length s' < String.length (String c s))%nat ->
    xml_text s' = true -> no_nul s' = true) by (intros s' Hl; by apply (IH (String.length s'))).
  clear IH. cbn [xml_text] in Hs. unfold no_nul in *. cbn [string_forall]. cbn [String.length] in Hrec.
  destruct (Z.of_N (N_of_ascii c) <? 128) eqn:E1.
  { apply andb_prop in Hs as [Hc Hs]. rewrite (Hrec s) by (done || lia).
    rewrite high_not_nul; [done|]. repeat (apply orb_true_iff in Hc as [Hc|Hc]); zlia. }
  rewrite high_not_nul by zlia. cbn [andb].
  destruct s as [|c1 s]; [done|]. apply andb_prop in Hs as [H1 Hs]. cbn [string_forall].
  rewrite (continues_not_nul _ H1). cbn [andb].
  destruct (_ <? 194); [done|]. cbn [String.length] in Hrec.
  destruct (_ <? 224); [apply Hrec; [lia|done]|].
  destruct s as [|c2 s]; [done|]. apply andb_prop in Hs as [H2 Hs]. cbn [string_forall].
  rewrite (continues_not_nul _ H2). cbn [andb]. cbn [String.length] in Hrec.
  destruct (_ <? 240); [apply andb_prop in Hs as [_ Hs]; apply Hrec; [lia|done]|].
  destruct s as [|c3 s]; [done|]. cbn [string_forall]. cbn [String.length] in Hrec.
  apply andb_prop in Hs as [[[[Hs _]%andb_prop _]%andb_prop _]%andb_prop Hr]. rewrite (continues_not_nul _ Hs). cbn [andb].
  apply Hrec; [lia|done].
Qed.

Lemma c_str_text s : xml_text s = true -> c_str s = s.
Proof. intros Hs. by apply c_str_no_nul, xml_text_no_nul. Qed.

Definition ascii_text (s : string) : bool :=
  string_forall (fun c => let n := Z.of_N (N_of_ascii c) in (32 <=? n) && (n <? 128)) s.

Lemma ascii_app s1 s2 : ascii_text (s1 +:+ s2) = ascii_text s1 && ascii_text s2.
Proof. apply string_forall_app. Qed.

Lemma xml_text_ascii s : ascii_text s = true -> xml_text s = true.
Proof.
  induction s as [|c s IH]; [done|]. cbn. intros [[Hc1 Hc2]%andb_prop Hs]%andb_prop.
  rewrite Hc2, Hc1, IH by done. by rewrite !orb_true_r.
Qed.

Lemma ascii_uint d : ascii_text (DecimalString.NilEmpty.string_of_uint d) = true.
Proof. by induction d. Qed.

Lemma ascii_to_string z : ascii_text (to_string z) = true.
Proof. unfold to_string. destruct (Z.to_int z); cbn; apply ascii_uint. Qed.

Lemma ascii_six n : ascii_text (six_digits n) = true.
Proof.
  unfold six_digits. cbv zeta. rewrite ascii_app, ascii_to_string, andb_true_r.
  generalize (6 - String.length (to_string n))%nat. intros k.
  induction k as [|[|k] IH]; [done..|]. exact IH.
Qed.

Lemma ascii_fp x : ascii_text (to_string_fp x) = true.
Proof.
  destruct x as [[] m e|[]|[]]; try done; unfold to_string_fp;
    by rewrite !ascii_app, ascii_to_string, ascii_six.
Qed.

#[local] Hint Resolve xml_text_ascii ascii_to_string ascii_fp : core.

(** ** Elements *)

(** The values a file can hold: texts XML can represent, numbers in range, and
    floating-point numbers whose six decimals the C library reads back. *)
Definition storable `{FloatText} (v : PreferencesValue) : Prop :=
  match v with
  | PInt z => -2147483648 <= z <= 2147483647
  | PLong z => -9223372036854775808 <= z <= 9223372036854775807
  | PFloat b => stof (to_string_fp (decode_float b)) = Ok b
  | PDouble b => stod (to_string_fp (decode_double b)) = Ok b
  | PBool _ => True
  | PString s => xml_text s = true
  | PSet l => Forall (fun s => xml_text s = true) l /\ StronglySorted key_lt l
  end.

(** What is read back. *)
Definition canon (v : PreferencesValue) : PreferencesValue :=
  match v with PBool _ => PBool false | v => v end.

Section Elements.
Context `{Xml} `{FloatText}.

Lemma set_insert_snoc s l :
  Forall (fun x => key_lt x s) l -> set_insert s l = l ++ [s].
Proof.
  intros Hl. unfold set_insert. rewrite sm_insert_snoc.
  - rewrite fmap_app, <- list_fmap_compose. cbn. f_equal. induction l; [done|].
    inversion Hl; simplify_eq. cbn. f_equal. auto.
  - by apply Forall_fmap.
Qed.

Lemma set_rebuild l : forall l0,
  StronglySorted key_lt (l0 ++ l) ->
  foldl (fun values child => let '(mkElement _ _ v _) := child in set_insert v values) l0
    ((fun val => mkElement "string" "" val []) <$> l) = l0 ++ l.
Proof.
  induction l as [|s l IH]; intros l0 Hs; cbn; [by rewrite app_nil_r|].
  rewrite set_insert_snoc.
  - rewrite IH; rewrite <- app_assoc; done.
  - clear IH. induction l0 as [|x l0 IH]; [done|]. inversion Hs as [|?? Hs' Hf]; simplify_eq.
    constructor; [|by apply IH]. apply Forall_app in Hf as [_ Hf]. by inversion Hf.
Qed.

Lemma element_value_read k v :
  storable v -> element_value (value_element k v) = Ok (Some (canon v)).
Proof.
  destruct v as [z|z|b|b|[]|s|l]; cbn -[stoi stoll to_string]; intros Hv; try done.
  - by rewrite stoi_to_string.
  - by rewrite stoll_to_string.
  - by rewrite Hv.
  - by rewrite Hv.
  - destruct Hv as [_ Hv]. do 3 f_equal. by apply (set_rebuild l []).
Qed.

(** ** Nodes *)

(** A node that stands for the element. *)
Definition node_for (e : Element) (n : xmlNode) : Prop :=
  CreateElementNode e = Some n /\ is_element n = true /\ xml_plain n = true /\
  ParseNodeElement (xml_norm n) = Some e.

Lemma plain_intro name props children :
  xml_name name = true -> NoDup (fst <$> props) ->
  Forall (fun p => xml_name (fst p) = true /\ xml_text (snd p) = true) props ->
  forallb is_element children = true \/ length children = 1%nat ->
  forallb xml_plain children = true ->
  xml_plain (XElement name props children) = true.
Proof.
  intros Hn Hd Hp Hc Hr. cbn [xml_plain]. rewrite Hn, Hr, bool_decide_eq_true_2 by done.
  assert (forallb (fun p => xml_name (fst p) && xml_text (snd p)) props = true) as ->.
  { apply forallb_forall. intros p Hin. rewrite Forall_forall in Hp.
    destruct (Hp p) as [-> ->]; [by apply list_elem_of_In|done]. }
  by destruct Hc as [->| ->]; rewrite ?orb_true_r.
Qed.

Lemma string_node k s :
  xml_text k = true -> xml_text s = true ->
  node_for (mkElement "string" k s []) (CreateStringNode "string" k s).
Proof.
  intros Hk Hs. unfold node_for, CreateStringNode. rewrite !c_str_text by done.
  split; [|split; [done|split]].
  - cbn. unfold CreateStringNode. by rewrite !c_str_text by done.
  - apply plain_intro; [done| | |by right|cbn -[xml_text]; by rewrite Hs];
      destruct k; repeat constructor; try done; by apply not_elem_of_nil.
  - destruct s as [|c s], k as [|c' k]; cbn; unfold ParseStringNodeElement; cbn;
      by rewrite ?append_nil_r.
Qed.

Lemma primitive_node tag k s :
  is_primitive tag = true -> xml_text k = true -> xml_text s = true ->
  node_for (mkElement tag k s []) (CreatePrimitiveNode tag k s).
Proof.
  intros Ht Hk Hs. unfold node_for. cbn [CreateElementNode]. rewrite Ht.
  assert (c_str tag = tag /\ xml_name tag = true) as [Et En].
  { unfold is_primitive in Ht. repeat apply orb_true_iff in Ht as [Ht|Ht];
      apply String.eqb_eq in Ht as ->; by split. }
  unfold CreatePrimitiveNode. rewrite Et, (c_str_text k), (c_str_text s) by done.
  split; [done|split; [done|split]].
  - apply plain_intro; [done| | |by left|done]; [|by repeat constructor].
    apply (bool_decide_unpack _). exact I.
  - cbn -[is_primitive]. by rewrite Ht.
Qed.

Lemma nodes_for es :
  Forall (fun e => exists n, node_for e n) es ->
  exists ns, Forall2 node_for es ns.
Proof.
  induction 1 as [|e es [n Hn] _ [ns IH]]; [by exists []|]. exists (n :: ns). by constructor.
Qed.

Lemma created es ns : Forall2 node_for es ns -> omap id (map CreateElementNode es) = ns.
Proof.
  induction 1 as [|e n es ns (Hc & _) _ IH]; [done|]. cbn. rewrite Hc. cbn. by f_equal.
Qed.

Lemma created_all es ns : Forall2 node_for es ns -> create_nodes es = Some ns.
Proof.
  induction 1 as [|e n es ns (Hc & _) _ IH]; [done|]. cbn. by rewrite Hc, IH.
Qed.

Lemma norm_elements es ns :
  Forall2 node_for es ns ->
  List.filter (fun c => negb (is_empty_text c)) (map xml_norm ns) = map xml_norm ns.
Proof.
  induction 1 as [|e n es ns (_ & He & _) _ IH]; [done|].
  destruct n; [|done]. cbn in *. by rewrite IH.
Qed.

Lemma parse_children_cons parse n ns :
  parse_children parse (n :: ns) =
    match parse n with None => None | Some e => cons e <$> parse_children parse ns end.
Proof. done. Qed.

Lemma parsed_all es ns :
  Forall2 node_for es ns -> parse_children ParseNodeElement (map xml_norm ns) = Some es.
Proof.
  induction 1 as [|e n es ns (_ & _ & _ & Hp) _ IH]; [done|].
  cbn [map]. by rewrite parse_children_cons, Hp, IH.
Qed.

Lemma plain_all es ns :
  Forall2 node_for es ns -> forallb is_element ns = true /\ forallb xml_plain ns = true.
Proof.
  induction 1 as [|e n es ns (_ & He & Hp & _) _ [IH1 IH2]]; [done|]. cbn.
  by rewrite He, Hp, IH1, IH2.
Qed.

Lemma set_node k l :
  xml_text k = true -> Forall (fun s => xml_text s = true) l ->
  exists n, node_for (value_element k (PSet l)) n.
Proof.
  intros Hk Hl. destruct (nodes_for ((fun val => mkElement "string" "" val []) <$> l)) as [ns Hn].
  { apply Forall_fmap. eapply Forall_impl; [exact Hl|]. intros s Hs. eexists.
    by apply string_node. }
  destruct (plain_all _ _ Hn) as [He Hp].
  exists (XElement "set" [("key", k)] ns). split; [|split; [done|split]].
  - cbn -[omap]. unfold CreateSetNode. by rewrite (created _ _ Hn), (c_str_text k).
  - apply plain_intro; [done| | |by left|done]; [cbn|by repeat constructor].
    apply (bool_decide_unpack _). exact I.
  - cbn -[parse_children ParseNodeElement] in *. rewrite (norm_elements _ _ Hn).
    cbn -[parse_children]. unfold ParseSetNodeElement. cbn -[parse_children].
    by rewrite (parsed_all _ _ Hn).
Qed.

Lemma value_node k v :
  xml_text k = true -> storable v -> exists n, node_for (value_element k v) n.
Proof.
  intros Hk Hv. destruct v; try (eexists; apply primitive_node; by auto).
  - eexists. by apply string_node.
  - apply set_node; [done|apply Hv].
Qed.

(** ** Maps *)
Definition storable_map (m : prefs) : Prop :=
  sm_sorted m /\ Forall (fun kv => xml_text (fst kv) = true /\ storable (snd kv)) m.

Definition canon_map (m : prefs) : prefs := prod_map id canon <$> m.

Definition map_elements (m : prefs) : list Element :=
  (fun kv => value_element (fst kv) (snd kv)) <$> m.

(** The document and the text [WriteSettingXml] makes of a map. *)
Definition map_root (m : prefs) : xmlNode :=
  settings_root (default [] (create_nodes (map_elements m))).
Definition saved (m : prefs) : string := xmlSave (map_root m).

(** What loading makes of the text of a file. *)
Definition read_content (content : string) : outcome prefs :=
  match xmlRead content with
  | None => Ok []
  | Some root =>
      if (node_name root =? "preferences")%string then
        match parse_children ParseNodeElement (node_children root) with
        | None => Ok []
        | Some settings => read_elements settings []
        end
      else Ok []
  end.

Lemma map_nodes m : storable_map m -> exists ns, Forall2 node_for (map_elements m) ns.
Proof.
  intros [_ Hm]. apply nodes_for. unfold map_elements. apply Forall_fmap.
  eapply Forall_impl; [exact Hm|]. intros [k v] [Hk Hv]. by apply value_node.
Qed.

Lemma read_elements_map m : forall m0,
  Forall (fun kv => storable (snd kv)) m ->
  sm_sorted (canon_map (m0 ++ m)) ->
  read_elements (map_elements m) (canon_map m0) = Ok (canon_map (m0 ++ m)).
Proof.
  induction m as [|[k v] m IH]; intros m0 Hm Hs; [by rewrite app_nil_r|].
  inversion Hm as [|?? Hv Hm']; simplify_eq. cbn [snd] in Hv.
  cbn [map_elements fmap list_fmap read_elements fst snd].
  rewrite element_value_read by done. cbn [outcome_bind].
  assert (element_key (value_element k v) = k) as -> by (by destruct v).
  rewrite sm_insert_snoc.
  - replace (canon_map m0 ++ [(k, canon v)]) with (canon_map (m0 ++ [(k, v)]))
      by (unfold canon_map; by rewrite fmap_app).
    specialize (IH (m0 ++ [(k, v)])). rewrite <- app_assoc in IH. by apply IH.
  - clear IH Hm. unfold canon_map in *. rewrite fmap_app in Hs. cbn in Hs.
    induction m0 as [|x m0 IH]; [constructor|]. inversion Hs as [|?? Hs' Hf]; simplify_eq.
    constructor; [|by apply IH]. apply Forall_app in Hf as [_ Hf]. by inversion Hf.
Qed.

Lemma canon_map_sorted m : sm_sorted m -> sm_sorted (canon_map m).
Proof.
  unfold sm_sorted, canon_map. induction 1 as [|[k v] m Hs IH Hf]; [constructor|].
  constructor; [done|]. apply Forall_fmap. by eapply Forall_impl.
Qed.

Lemma saved_write path m :
  path <> "" -> storable_map m -> WriteSettingXml path m = save path (saved m).
Proof.
  intros Hp Hm. unfold WriteSettingXml, PreferencesXml.WriteSettingXml, saved, map_root.
  change (_ <$> m) with (map_elements m). destruct (map_nodes m Hm) as [ns Hn].
  rewrite (created_all _ _ Hn). by destruct path.
Qed.

Lemma map_root_plain m :
  storable_map m -> xml_plain (map_root m) = true /\ is_element (map_root m) = true.
Proof.
  intros Hm. destruct (map_nodes m Hm) as [ns Hn]. split; [|done]. unfold map_root.
  rewrite (created_all _ _ Hn). destruct (plain_all _ _ Hn) as [He Hp].
  apply plain_intro; [done| | |by left|done]; [|by repeat constructor].
  apply (bool_decide_unpack _). exact I.
Qed.

Context `{!XmlLaws}.

Lemma read_saved_map m : storable_map m -> read_content (saved m) = Ok (canon_map m).
Proof.
  intros Hm. destruct (map_root_plain m Hm) as [Hp He]. unfold read_content, saved.
  rewrite read_saved by done. destruct (map_nodes m Hm) as [ns Hn]. unfold map_root.
  rewrite (created_all _ _ Hn). cbn -[parse_children].
  rewrite (norm_elements _ _ Hn), (parsed_all _ _ Hn).
  destruct Hm as [Hs Hm]. apply (read_elements_map m []); [|by apply canon_map_sorted].
  eapply Forall_impl; [exact Hm|]. by intros ? [].
Qed.

(** A file that was cut short is read as empty or as the whole. *)
Lemma read_cut_map m k :
  storable_map m ->
  read_content (String.substring 0 k (saved m)) = Ok [] \/
  read_content (String.substring 0 k (saved m)) = Ok (canon_map m).
Proof.
  intros Hm. destruct (map_root_plain m Hm) as [Hp He].
  destruct (read_cut (map_root m) k Hp He) as [Hr|Hr].
  - left. unfold read_content, saved. by rewrite Hr.
  - right. rewrite <- (read_saved_map m Hm). unfold read_content, saved. by rewrite Hr.
Qed.
End Elements.

(** ** An implementation of the XML interface

    It prints the number of the tree in binary with a mark at the end. *)
Fixpoint tree_of (n : xmlNode) : gen_tree (string + string * list (string * string)) :=
  match n with
  | XText c => GenLeaf (inl c)
  | XElement name props children => GenNode 0 (GenLeaf (inr (name, props)) :: map tree_of children)
  end.

Fixpoint node_of (t : gen_tree (string + string * list (string * string))) : xmlNode :=
  match t with
  | GenLeaf (inl c) => XText c
  | GenLeaf (inr (name, props)) => XElement name props []
  | GenNode _ (GenLeaf (inr (name, props)) :: l) => XElement name props (map node_of l)
  | GenNode _ _ => XText ""
  end.

Lemma node_of_tree_of : forall n, node_of (tree_of n) = n.
Proof.
  fix IH 1. intros [name props children|c]; [|done]. cbn. f_equal.
  induction children as [|c l IHl]; [done|]. cbn. by rewrite IH, IHl.
Qed.

Fixpoint pos_text (p : positive) : string :=
  match p with
  | xO p => String "0" (pos_text p)
  | xI p => String "1" (pos_text p)
  | xH => ";"
  end.

Fixpoint text_pos (s : string) : option positive :=
  match s with
  | EmptyString => None
  | String c s =>
      if Ascii.eqb c ";" then Some xH
      else (if Ascii.eqb c "0" then xO else xI) <$> text_pos s
  end.

Lemma text_pos_text p : text_pos (pos_text p) = Some p.
Proof. induction p as [p IH|p IH|]; cbn; by rewrite ?IH. Qed.

Lemma text_pos_cut p k :
  text_pos (String.substring 0 k (pos_text p)) = None \/
  text_pos (String.substring 0 k (pos_text p)) = Some p.
Proof.
  revert k. induction p as [p IH|p IH|]; intros [|k]; cbn; try by left.
  - destruct (IH k) as [->| ->]; cbn; eauto.
  - destruct (IH k) as [->| ->]; cbn; eauto.
  - by right.
Qed.

Definition tree_xml : Xml := {|
  xmlSave n := pos_text (encode (tree_of n));
  xmlRead s := p ← text_pos s; t ← decode p; Some (xml_norm (node_of t));
|}.

Lemma tree_xml_laws : @XmlLaws tree_xml.
Proof.
  assert (Hread : forall n, @xmlRead tree_xml (@xmlSave tree_xml n) = Some (xml_norm n)).
  { intros n. cbn. rewrite text_pos_text. cbn. rewrite decode_encode. cbn.
    by rewrite node_of_tree_of. }
  split; [by intros; apply Hread|]. intros n k _ _. rewrite Hread. cbn.
  destruct (text_pos_cut (encode (tree_of n)) k) as [->| ->]; [by left|right].
  cbn. rewrite decode_encode. cbn. by rewrite node_of_tree_of.
Qed.

(** ** Calls of the file system *)

(** The states between two points of a run all satisfy [S]. *)
Definition through (S : disk -> Prop) (w w' : FS) : Prop :=
  exists l, crashes w' = crashes w ++ l /\ Forall S l.

Lemma through_refl S w : through S w w.
Proof. exists []. by rewrite app_nil_r. Qed.

Lemma through_trans S w1 w2 w3 : through S w1 w2 -> through S w2 w3 -> through S w1 w3.
Proof.
  intros (l1 & E1 & H1) (l2 & E2 & H2). exists (l1 ++ l2).
  rewrite E2, E1, app_assoc. split; [done|]. by apply Forall_app.
Qed.

Lemma through_done (S : disk -> Prop) w d l :
  Forall S l -> S d -> through S w (done_with w d l).
Proof. intros Hl Hd. exists (l ++ [d]). split; [done|]. apply Forall_app. by repeat constructor. Qed.

#[local] Hint Resolve through_refl : core.

Lemma remove_spec (S : disk -> Prop) path w b w' :
  remove path w = (b, w') -> S (files w) -> S (delete path (files w)) ->
  through S w w' /\ faults w' = tail (faults w) /\
  (b = true /\ files w' = files w \/ b = false /\ files w' = delete path (files w)).
Proof.
  unfold remove. intros He H0 H1. destruct (next_fault w), (files w !! path); simplify_eq;
    (split; [by apply through_done|split; [done|]]); cbn; eauto.
Qed.

Lemma rename_spec (S : disk -> Prop) old new content w b w' :
  rename old new w = (b, w') -> files w !! old = Some content ->
  S (files w) -> S (<[new := content]> (delete old (files w))) ->
  through S w w' /\ faults w' = tail (faults w) /\
  (b = true /\ files w' = files w \/
   b = false /\ files w' = <[new := content]> (delete old (files w))).
Proof.
  unfold rename. intros He Ho H0 H1. rewrite Ho in He. destruct (next_fault w); simplify_eq;
    (split; [by apply through_done|split; [done|]]); cbn; eauto.
Qed.

Lemma save_spec (S : disk -> Prop) path content w b w' :
  save path content w = (b, w') -> S (files w) ->
  (forall k, S (<[path := String.substring 0 k content]> (files w))) ->
  through S w w' /\ faults w' = tail (faults w) /\
  (b = true /\ files w' = <[path := content]> (files w) \/
   b = false /\ (files w' = files w \/
                 exists k, files w' = <[path := String.substring 0 k content]> (files w))).
Proof.
  intros He H0 Hk. unfold save in He. cbv zeta in He.
  assert (Hs : forall n, Forall S (partial (files w) path content <$> seq 0 n)).
  { intros n. apply Forall_fmap, Forall_true. intros k. apply Hk. }
  destruct (next_fault w) as [|[|n]]; simplify_eq.
  - split; [|split; [done|by left]]. apply through_done; [done|].
    rewrite <- (substring_all content) at 1. apply Hk.
  - split; [by apply through_done|split; [done|]]. right. eauto.
  - split; [apply through_done; [done|apply Hk]|split; [done|]]. right. split; [done|]. right. by exists n.
Qed.

(** ** What the next process loads *)
Section Disk.
Context `{Xml} `{FloatText} `{!XmlLaws}.

(** Paths the code accepts: not empty, and the backup within the limit. *)
Definition usable (path : string) : Prop :=
  path <> "" /\ (String.length path + 4 <= PATH_MAX)%nat.

Lemma backup_length path :
  String.length (MakeBackupPath path) = (String.length path + 4)%nat.
Proof. unfold MakeBackupPath. by rewrite length_append. Qed.

Lemma backup_other path : path <> MakeBackupPath path.
Proof. intros E. apply (f_equal String.length) in E. rewrite backup_length in E. lia. Qed.

Lemma IsFileExist_usable path w :
  (String.length path <= PATH_MAX)%nat ->
  IsFileExist path w = (bool_decide (is_Some (files w !! path)), w).
Proof.
  intros Hl. unfold IsFileExist. by rewrite (proj2 (Nat.ltb_ge _ _)).
Qed.

(** The map [LoadFromDisk] finds: in the backup if there is one. *)
Definition recovered (path : string) (d : disk) : outcome prefs :=
  match d !! MakeBackupPath path, d !! path with
  | Some c, _ => read_content c
  | None, Some c => read_content c
  | None, None => Ok []
  end.

Lemma ReadSettingXml_content path content w :
  usable path -> files w !! path = Some content ->
  ReadSettingXml path [] w = (read_content content, w).
Proof.
  intros [Hp Hl] Hc. unfold ReadSettingXml, PreferencesXml.ReadSettingXml, read_content.
  destruct (empty path) eqn:E; [by destruct path|].
  unfold mbind, F_bind, mret, F_ret, content_of. rewrite Hc.
  rewrite (proj2 (Nat.ltb_ge PATH_MAX _)) by lia. destruct (xmlRead content) as [root|]; [|done].
  destruct (_ =? _)%string; [|done]. by destruct (parse_children _ _).
Qed.

Lemma recovered_backup path d c :
  d !! MakeBackupPath path = Some c -> recovered path d = read_content c.
Proof. intros E. unfold recovered. by rewrite E. Qed.

Lemma recovered_main path d c :
  d !! MakeBackupPath path = None -> d !! path = Some c -> recovered path d = read_content c.
Proof. intros E1 E2. unfold recovered. by rewrite E1, E2. Qed.

Lemma recovered_none path d :
  d !! MakeBackupPath path = None -> d !! path = None -> recovered path d = Ok [].
Proof. intros E1 E2. unfold recovered. by rewrite E1, E2. Qed.

(** Loading without faults leaves the file it read under its own name. *)
Lemma LoadFromDisk_spec p w :
  usable (filePath_ p) -> loaded_ p = false -> map_ p = [] -> faults w = [] ->
  exists w', LoadFromDisk p w =
      (m <-- recovered (filePath_ p) (files w); Ok (with_loaded p true m), w') /\
    faults w' = [] /\ files w' !! backupPath_ p = None /\
    recovered (filePath_ p) (files w') = recovered (filePath_ p) (files w) /\
    files w' !! filePath_ p =
      match files w !! backupPath_ p with Some c => Some c | None => files w !! filePath_ p end.
Proof.
  intros Hu Hl Hm Hf. pose proof (backup_other (filePath_ p)) as Hne. destruct Hu as [Hp Hlen].
  unfold LoadFromDisk. rewrite Hl, Hm. unfold mbind, F_bind, mret, F_ret, backupPath_.
  rewrite IsFileExist_usable by (rewrite backup_length; lia).
  destruct (files w !! MakeBackupPath (filePath_ p)) as [c|] eqn:Eb.
  - rewrite bool_decide_eq_true_2 by eauto. destruct (remove (filePath_ p) w) as [b1 w1] eqn:E1.
    assert (files w1 !! MakeBackupPath (filePath_ p) = Some c /\ faults w1 = []) as [Eb1 Hf1].
    { apply (remove_spec (fun _ => True)) in E1 as (_ & -> & [[_ ->]|[_ ->]]); try done;
        rewrite Hf, ?lookup_delete_ne by done; by split. }
    unfold rename, next_fault. rewrite Eb1, Hf1. cbn [head default].
    rewrite IsFileExist_usable by lia. cbn [files done_with].
    rewrite lookup_insert_eq, bool_decide_eq_true_2 by eauto.
    erewrite ReadSettingXml_content; [|done|apply lookup_insert_eq].
    rewrite (recovered_backup _ _ _ Eb). eexists. split; [done|]. cbn [faults files done_with].
    rewrite Hf1. split_and!; [done| | |].
    + rewrite lookup_insert_ne by done. apply lookup_delete_eq.
    + erewrite recovered_main; [done| |apply lookup_insert_eq].
      rewrite lookup_insert_ne by done. apply lookup_delete_eq.
    + apply lookup_insert_eq.
  - rewrite bool_decide_eq_false_2 by (by intros []). rewrite IsFileExist_usable by lia.
    destruct (files w !! filePath_ p) as [c|] eqn:Em.
    + rewrite bool_decide_eq_true_2 by eauto.
      rewrite (ReadSettingXml_content _ _ _ (conj Hp Hlen) Em), (recovered_main _ _ _ Eb Em).
      exists w. by rewrite (recovered_main _ _ _ Eb Em).
    + rewrite bool_decide_eq_false_2 by (by intros []). rewrite (recovered_none _ _ Eb Em).
      exists w. by rewrite (recovered_none _ _ Eb Em).
Qed.

(** ** Writing *)

(** The old map is safe while the main file is written: it is in the backup, or there
    is no file and it is empty. *)
Definition old_safe (path : string) (old : prefs) (d : disk) : Prop :=
  (exists c, d !! MakeBackupPath path = Some c /\ read_content c = Ok old) \/
  (d !! MakeBackupPath path = None /\ d !! path = None /\ old = []).

Definition old_or_new (path : string) (old new : prefs) (d : disk) : Prop :=
  recovered path d = Ok old \/ recovered path d = Ok (canon_map new).

Lemma old_safe_recovered path old d : old_safe path old d -> recovered path d = Ok old.
Proof.
  intros [(c & Ec & Hc)|(E1 & E2 & ->)]; [by rewrite (recovered_backup _ _ _ Ec)|].
  by apply recovered_none.
Qed.

Lemma old_safe_cut path old new d k :
  storable_map new -> old_safe path old d ->
  old_or_new path old new (<[path := String.substring 0 k (saved new)]> d).
Proof.
  intros Hn Hs. pose proof (backup_other path) as Hne. unfold old_or_new.
  destruct Hs as [(c & Ec & Hc)|(E1 & E2 & ->)].
  - left. rewrite (recovered_backup _ _ c); [done|]. by rewrite lookup_insert_ne.
  - erewrite recovered_main; [|by rewrite lookup_insert_ne|apply lookup_insert_eq].
    by apply read_cut_map.
Qed.

Lemma old_safe_delete path old d : old_safe path old d -> old_safe path old (delete path d).
Proof.
  pose proof (backup_other path) as Hne. intros [(c & Ec & Hc)|(E1 & E2 & ->)].
  - left. exists c. by rewrite lookup_delete_ne.
  - right. by rewrite lookup_delete_ne, lookup_delete_eq.
Qed.

(** The outcome of a write: what it reports and what is on disk. *)
Definition write_outcome (p : PreferencesImpl) (mcr : MemoryToDiskRequest) (old : prefs)
    (r : (bool * Z) * PreferencesImpl) (d : disk) : Prop :=
  match r with
  | ((true, code), p') =>
      code = E_OK /\ p' = with_disk_generation p (memoryStateGeneration_ mcr) /\
      d !! filePath_ p = Some (saved (writeToDiskMap_ mcr)) /\
      (d !! backupPath_ p = None \/ recovered (filePath_ p) d = Ok old)
  | ((false, code), p') => p' = p /\ old_or_new (filePath_ p) old (writeToDiskMap_ mcr) d
  end.

Lemma write_done_spec p mcr old d w :
  usable (filePath_ p) -> storable_map (writeToDiskMap_ mcr) ->
  old_safe (filePath_ p) old d ->
  files w = <[filePath_ p := saved (writeToDiskMap_ mcr)]> d ->
  let '(r, w') := write_done p mcr w in
  through (old_or_new (filePath_ p) old (writeToDiskMap_ mcr)) w w' /\
  write_outcome p mcr old r (files w') /\
  (faults w = [] -> fst r = (true, E_OK) /\ faults w' = [] /\ files w' !! backupPath_ p = None).
Proof.
  intros [Hp Hlen] Hm Hsafe Hfiles. set (m := writeToDiskMap_ mcr) in *.
  pose proof (backup_other (filePath_ p)) as Hne.
  assert (Hb : files w !! MakeBackupPath (filePath_ p) = d !! MakeBackupPath (filePath_ p))
    by (rewrite Hfiles; by rewrite lookup_insert_ne).
  assert (Hmain : files w !! filePath_ p = Some (saved m))
    by (rewrite Hfiles; apply lookup_insert_eq).
  unfold write_done, mbind, F_bind, mret, F_ret, backupPath_.
  rewrite IsFileExist_usable by (rewrite backup_length; lia). rewrite Hb.
  destruct Hsafe as [(c & Ec & Hc)|(E1 & E2 & ->)].
  2: { rewrite E1, bool_decide_eq_false_2 by (by intros []). cbn. unfold backupPath_.
       rewrite Hb. split_and!; try done. by left. }
  rewrite Ec, bool_decide_eq_true_2 by eauto.
  assert (Hold : recovered (filePath_ p) (files w) = Ok old)
    by (by rewrite (recovered_backup _ _ c) by (by rewrite Hb)).
  destruct (remove (MakeBackupPath (filePath_ p)) w) as [b w2] eqn:Er. pose proof Er as Er'. cbn.
  apply (remove_spec (old_or_new (filePath_ p) old m)) in Er as (Ht & Hf & Hfiles2); [|by left|].
  2: { right. rewrite <- (read_saved_map m Hm).
       apply recovered_main; [apply lookup_delete_eq|by rewrite lookup_delete_ne]. }
  split; [done|]. destruct Hfiles2 as [[-> ->]|[-> ->]].
  - split; [split_and!; try done; by right|]. intros Hnf. exfalso.
    unfold remove, next_fault in Er'. by rewrite Hnf, Hb, Ec in Er'.
  - split; [split_and!; try done; [by rewrite lookup_delete_ne|left; apply lookup_delete_eq]|].
    intros Hnf. rewrite Hf, Hnf. split_and!; try done. apply lookup_delete_eq.
Qed.

Lemma write_failed_spec p mcr old d w :
  usable (filePath_ p) -> storable_map (writeToDiskMap_ mcr) ->
  old_safe (filePath_ p) old d ->
  (files w = d \/
   exists k, files w = <[filePath_ p := String.substring 0 k (saved (writeToDiskMap_ mcr))]> d) ->
  let '(r, w') := write_failed p w in
  through (old_or_new (filePath_ p) old (writeToDiskMap_ mcr)) w w' /\
  write_outcome p mcr old r (files w').
Proof.
  intros [Hp Hlen] Hm Hsafe Hfiles. set (m := writeToDiskMap_ mcr) in *.
  unfold write_failed, mbind, F_bind, mret, F_ret. rewrite IsFileExist_usable by lia.
  assert (Hpart : old_or_new (filePath_ p) old m (files w)).
  { destruct Hfiles as [->|[k ->]]; [left; by apply old_safe_recovered|by apply old_safe_cut]. }
  case_bool_decide; cbn; [|by split_and!].
  destruct (remove (filePath_ p) w) as [b w2] eqn:Er. cbn.
  apply (remove_spec (old_or_new (filePath_ p) old m)) in Er as (Ht & _ & Hfiles2); [|done|].
  2: { left. apply old_safe_recovered. destruct Hfiles as [->|[k ->]];
         rewrite ?delete_insert_eq; by apply old_safe_delete. }
  split; [done|]. split; [done|]. destruct Hfiles2 as [[_ ->]|[_ ->]]; [done|].
  left. apply old_safe_recovered. destruct Hfiles as [->|[k ->]];
    rewrite ?delete_insert_eq; by apply old_safe_delete.
Qed.

Lemma write_map_spec p mcr old w :
  usable (filePath_ p) -> storable_map (writeToDiskMap_ mcr) ->
  old_safe (filePath_ p) old (files w) ->
  let '(r, w') := write_map p mcr w in
  through (old_or_new (filePath_ p) old (writeToDiskMap_ mcr)) w w' /\
  write_outcome p mcr old r (files w') /\
  (faults w = [] -> fst r = (true, E_OK) /\ faults w' = [] /\ files w' !! backupPath_ p = None).
Proof.
  intros Hu Hm Hsafe. set (m := writeToDiskMap_ mcr) in *.
  unfold write_map, mbind, F_bind. rewrite saved_write by (apply Hu || done). fold m.
  destruct (save _ _ w) as [b w1] eqn:Es. pose proof Es as Es'.
  apply (save_spec (old_or_new (filePath_ p) old m)) in Es as (Ht & Hf & Hfiles);
    [|left; by apply old_safe_recovered|intros k; by apply old_safe_cut].
  destruct b; destruct Hfiles as [[? Hfiles]|[? Hfiles]]; try done.
  - pose proof (write_done_spec p mcr old _ w1 Hu Hm Hsafe Hfiles) as Hd.
    destruct (write_done p mcr w1) as [r w2]. destruct Hd as (Ht2 & Ho & Hn).
    split; [by eapply through_trans|]. split; [done|]. intros Hnf. apply Hn. by rewrite Hf, Hnf.
  - pose proof (write_failed_spec p mcr old _ w1 Hu Hm Hsafe Hfiles) as Hd.
    destruct (write_failed p w1) as [r w2]. destruct Hd as (Ht2 & Ho).
    split; [by eapply through_trans|]. split; [done|]. intros Hnf.
    unfold save, next_fault in Es'. by rewrite Hnf in Es'.
Qed.

Lemma old_safe_backup path old d c :
  d !! MakeBackupPath path = Some c -> recovered path d = Ok old -> old_safe path old d.
Proof. intros Ec Hr. left. exists c. by rewrite <- (recovered_backup _ _ _ Ec). Qed.

Lemma WriteToDiskFile_spec p mcr old w :
  usable (filePath_ p) -> storable_map (writeToDiskMap_ mcr) ->
  recovered (filePath_ p) (files w) = Ok old ->
  let '(r, w') := WriteToDiskFile p mcr w in
  through (old_or_new (filePath_ p) old (writeToDiskMap_ mcr)) w w' /\
  write_outcome p mcr old r (files w').
Proof.
  intros Hu Hm Hr. set (S := old_or_new (filePath_ p) old (writeToDiskMap_ mcr)).
  pose proof (backup_other (filePath_ p)) as Hne. assert (Hw : S (files w)) by (by left).
  assert (Hrest : forall w1, through S w w1 -> old_safe (filePath_ p) old (files w1) ->
    let '(r, w') := write_map p mcr w1 in
    through S w w' /\ write_outcome p mcr old r (files w')).
  { intros w1 Ht Hs. pose proof (write_map_spec p mcr old w1 Hu Hm Hs) as Hd.
    destruct (write_map p mcr w1) as [r w2]. destruct Hd as (Ht2 & Ho & _).
    split; [by eapply through_trans|done]. }
  unfold WriteToDiskFile, mbind, F_bind, mret, F_ret.
  rewrite IsFileExist_usable by (destruct Hu; lia).
  destruct (files w !! filePath_ p) as [c|] eqn:Em.
  - rewrite bool_decide_eq_true_2 by eauto. case_if; [by split|].
    rewrite IsFileExist_usable by (unfold backupPath_; rewrite backup_length; apply Hu).
    unfold backupPath_. destruct (files w !! MakeBackupPath (filePath_ p)) as [cb|] eqn:Eb.
    + rewrite bool_decide_eq_true_2 by eauto. destruct (remove _ w) as [b w1] eqn:Er.
      assert (Hs : old_safe (filePath_ p) old (files w)) by (by eapply old_safe_backup).
      apply (remove_spec S) in Er as (Ht & _ & Hf);
        [|done|left; by apply old_safe_recovered, old_safe_delete].
      apply Hrest; [done|]. destruct Hf as [[_ ->]|[_ ->]]; [done|by apply old_safe_delete].
    + rewrite bool_decide_eq_false_2 by (by intros []). destruct (rename _ _ w) as [b w1] eqn:Er.
      assert (Hs : old_safe (filePath_ p) old
        (<[MakeBackupPath (filePath_ p) := c]> (delete (filePath_ p) (files w)))).
      { left. exists c. rewrite lookup_insert_eq. split; [done|].
        by rewrite <- (recovered_main _ _ _ Eb Em). }
      apply (rename_spec S _ _ c) in Er as (Ht & _ & [[-> Hf]|[-> Hf]]);
        [|apply Hrest; [done|by rewrite Hf]|done|done|left; by apply old_safe_recovered].
      split; [done|]. split; [done|]. by rewrite Hf.
  - rewrite bool_decide_eq_false_2 by (by intros []). apply Hrest; [done|].
    destruct (files w !! MakeBackupPath (filePath_ p)) as [cb|] eqn:Eb;
      [by eapply old_safe_backup|]. right. split_and!; try done.
    rewrite (recovered_none _ _ Eb Em) in Hr. by simplify_eq.
Qed.

(** what is written is read back: a map of storable values written by
    [WriteSettingXml] and read into an empty map comes back with the same keys and the
    same values, except that every boolean is read as [false]. *)
Theorem preferences_roundtrip path m w :
  usable path -> storable_map m -> faults w = [] ->
  exists w', WriteSettingXml path m w = (true, w') /\
    ReadSettingXml path [] w' = (Ok (canon_map m), w').
Proof.
  intros Hu Hm Hf. rewrite saved_write by (apply Hu || done). unfold save, next_fault. rewrite Hf.
  eexists. split; [done|]. rewrite <- (read_saved_map m Hm).
  apply ReadSettingXml_content; [done|]. apply lookup_insert_eq.
Qed.

(** A new process finds the map [m] on the disk. *)
Definition loads (path : string) (d : disk) (m : prefs) : Prop :=
  exists p w', LoadFromDisk (new_PreferencesImpl path) (mkFS d [] []) = (Ok p, w') /\
    loaded_ p = true /\ map_ p = m.

Lemma loads_recovered path d m :
  usable path -> loads path d m <-> recovered path d = Ok m.
Proof.
  intros Hu. destruct (LoadFromDisk_spec (new_PreferencesImpl path) (mkFS d [] []))
    as (w' & He & _); [done..|]. unfold loads. rewrite He. cbn [filePath_ new_PreferencesImpl files].
  split.
  - intros (p & w1 & E & _ & Hm). destruct (recovered path d) as [m'| | |]; simplify_eq/=. done.
  - intros ->. by eexists _, _.
Qed.

(** C10: a write can be interrupted anywhere: in every state of the disk that
    [WriteToDiskFile] goes through with a map of values that a file can hold and a path within the limits, whichever of
    its calls fail, a new process loads the map that was there before, or the map being
    written with every [true] in it as [false].
    When the write reports success the file is complete, and the new map is what is
    loaded unless the backup could not be removed. *)
Theorem write_crash_safe p mcr old w :
  usable (filePath_ p) -> storable_map (writeToDiskMap_ mcr) ->
  loads (filePath_ p) (files w) old ->
  let new := canon_map (writeToDiskMap_ mcr) in
  let '((wasWritten, code, p'), w') := WriteToDiskFile p mcr w in
  (exists states, crashes w' = crashes w ++ states /\
    forall d, d ∈ states -> loads (filePath_ p) d old \/ loads (filePath_ p) d new) /\
  (wasWritten = true ->
    code = E_OK /\ diskStateGeneration_ p' = memoryStateGeneration_ mcr /\
    files w' !! filePath_ p = Some (saved (writeToDiskMap_ mcr)) /\
    (files w' !! backupPath_ p = None -> loads (filePath_ p) (files w') new)).
Proof.
  intros Hu Hm Hl%loads_recovered; [|done].
  pose proof (WriteToDiskFile_spec p mcr old w Hu Hm Hl) as Hd.
  destruct (WriteToDiskFile p mcr w) as [[[b code] p'] w']. destruct Hd as [(l & El & Hf) Ho].
  split.
  - exists l. split; [done|]. intros d Hin. rewrite !loads_recovered by done.
    exact (proj1 (Forall_forall _ _) Hf d Hin).
  - intros ->. destruct Ho as (-> & -> & Hmain & _). split_and!; try done.
    intros Hb. apply loads_recovered; [done|]. rewrite (recovered_main _ _ _ Hb Hmain).
    by apply read_saved_map.
Qed.
End Disk.

(** ** Examples *)
Definition no_floats : FloatText := {| stof := fun _ => Throws; stod := fun _ => Throws |}.
Definition demo_prefs : prefs := [("a", PInt 1); ("b", PBool true); ("c", PSet ["x"; "y"])].

Lemma demo_prefs_storable : @storable_map no_floats demo_prefs.
Proof.
  split.
  - repeat constructor.
  - repeat constructor; cbn; lia.
Qed.

Lemma demo_usable : usable "/data/p.xml".
Proof. split; [done|]. unfold PATH_MAX. cbn. lia. Qed.

Lemma preferences_roundtrip_witness :
  exists w', @WriteSettingXml tree_xml "/data/p.xml" demo_prefs (mkFS ∅ [] []) = (true, w') /\
    @ReadSettingXml tree_xml no_floats "/data/p.xml" [] w' =
      (Ok [("a", PInt 1); ("b", PBool false); ("c", PSet ["x"; "y"])], w').
Proof.
  apply (@preferences_roundtrip tree_xml no_floats tree_xml_laws "/data/p.xml" demo_prefs
    (mkFS ∅ [] []) demo_usable demo_prefs_storable eq_refl).
Defined.

Definition demo_request : MemoryToDiskRequest := mkRequest true 1 demo_prefs ["a"] [].
Definition demo_old : prefs := [("a", PInt 7)].
Definition demo_disk : disk := {["/data/p.xml" := @saved tree_xml demo_old]}.

Lemma demo_old_storable : @storable_map no_floats demo_old.
Proof. split; repeat constructor; cbn; lia. Qed.

Lemma demo_loads : @loads tree_xml no_floats "/data/p.xml" demo_disk demo_old.
Proof.
  apply loads_recovered; [apply demo_usable|]. unfold demo_disk.
  erewrite recovered_main; [|by rewrite lookup_singleton_ne|apply lookup_singleton_eq].
  apply (@read_saved_map tree_xml no_floats tree_xml_laws demo_old demo_old_storable).
Qed.

Lemma write_crash_safe_witness :
  let p := new_PreferencesImpl "/data/p.xml" in
  let '((wasWritten, code, p'), w') :=
    @WriteToDiskFile tree_xml p demo_request (mkFS demo_disk [] []) in
  (exists states, crashes w' = [] ++ states /\
    forall d, d ∈ states ->
      @loads tree_xml no_floats "/data/p.xml" d demo_old \/
      @loads tree_xml no_floats "/data/p.xml" d (canon_map demo_prefs)) /\
  (wasWritten = true ->
    code = E_OK /\ diskStateGeneration_ p' = 1 /\
    files w' !! "/data/p.xml" = Some (@saved tree_xml demo_prefs) /\
    (files w' !! "/data/p.xml.bak" = None ->
     @loads tree_xml no_floats "/data/p.xml" (files w') (canon_map demo_prefs))).
Proof.
  exact (@write_crash_safe tree_xml no_floats tree_xml_laws (new_PreferencesImpl "/data/p.xml")
    demo_request demo_old (mkFS demo_disk [] []) demo_usable demo_prefs_storable demo_loads).
Defined.

(** ** Runs *)
Inductive pref_op :=
| OpPut (key : string) (value : PreferencesValue)
| OpDelete (key : string)
| OpClear
| OpFlush
| OpFlushSync
| OpRegister (o : Z)
| OpUnRegister (o : Z)
| OpWork.

Section System.
Context `{Xml} `{FloatText} `{!XmlLaws} (alive : Z -> bool).

Definition put_op (key : string) (value : PreferencesValue) : P Z :=
  match value with
  | PInt z => PutInt key z
  | PLong z => PutLong key z
  | PFloat b => PutFloat key b
  | PDouble b => PutDouble key b
  | PBool b => PutBool key b
  | PString s => PutString key s
  | PSet l => PutStringSet key l
  end.

(** A client that waits for the file goes on once the thread has run a task. *)
Definition awaiting {A} (m : P A) : P A := fun w =>
  match m w with Waits => (work ;; m) w | r => r end.

Definition run_pref_op (o : pref_op) : P Z :=
  match o with
  | OpPut key value => awaiting (put_op key value)
  | OpDelete key => Delete key
  | OpClear => Clear
  | OpFlush => Flush alive ;; mret E_OK
  | OpFlushSync => FlushSync alive
  | OpRegister o => RegisterObserver o ;; mret E_OK
  | OpUnRegister o => UnRegisterObserver alive o ;; mret E_OK
  | OpWork => work ;; mret E_OK
  end.

Fixpoint run_pref_ops (os : list pref_op) : P (list Z) :=
  match os with
  | [] => mret []
  | o :: os => r ← run_pref_op o; rs ← run_pref_ops os; mret (r :: rs)
  end.

Definition op_storable (o : pref_op) : Prop :=
  match o with OpPut key value => xml_text key = true /\ storable value | _ => True end.

(** ** The invariant

    [hist] gives the map of every generation. A request that waits carries the map of
    its generation, unless the disk has that generation already. *)
Definition request_ok (hist : Z -> prefs) (p : PreferencesImpl) (file : bool)
    (r : MemoryToDiskRequest) : Prop :=
  0 <= memoryStateGeneration_ r <= currentMemoryStateGeneration_ p /\
  storable_map (writeToDiskMap_ r) /\
  (writeToDiskMap_ r = hist (memoryStateGeneration_ r) \/
   file = true /\ memoryStateGeneration_ r <= diskStateGeneration_ p).

Definition has_file (path : string) (d : disk) : bool := bool_decide (is_Some (d !! path)).

(** The disk holds the map, up to booleans. *)
Definition disk_holds (path : string) (d : disk) (m : prefs) : Prop :=
  exists md, recovered path d = Ok md /\ canon_map md = canon_map m.

Record loaded_inv (path : string) (hist : Z -> prefs) (p : PreferencesImpl) (d : disk)
    (rs : list MemoryToDiskRequest) : Prop := {
  li_loaded : loaded_ p = true;
  li_gens : 0 <= diskStateGeneration_ p <= currentMemoryStateGeneration_ p;
  li_map : storable_map (map_ p);
  li_backup : d !! MakeBackupPath path = None;
  li_disk : disk_holds path d (hist (diskStateGeneration_ p));
  li_fresh : has_file path d = false -> diskStateGeneration_ p = 0;
  li_requests : Forall (request_ok hist p (has_file path d)) rs;
  li_pending : diskStateGeneration_ p = currentMemoryStateGeneration_ p \/
    exists r, r ∈ rs /\ memoryStateGeneration_ r = currentMemoryStateGeneration_ p;
  li_current : modifiedKeys_ p = [] -> map_ p = hist (currentMemoryStateGeneration_ p);
}.

(** Before the file is loaded nothing can be changed. *)
Record unloaded_inv (path : string) (m0 : prefs) (p : PreferencesImpl) (d : disk)
    (rs : list MemoryToDiskRequest) : Prop := {
  ui_loaded : loaded_ p = false;
  ui_gens : currentMemoryStateGeneration_ p = 0 /\ diskStateGeneration_ p = 0;
  ui_map : map_ p = [] /\ modifiedKeys_ p = [];
  ui_disk : recovered path d = Ok m0;
  ui_requests : Forall (fun r => memoryStateGeneration_ r = 0 /\ writeToDiskMap_ r = []) rs;
}.

Definition inv (path : string) (m0 : prefs) (p : PreferencesImpl) (f : FS) (ts : list task)
    : Prop :=
  usable path /\ storable_map m0 /\ filePath_ p = path /\ faults f = [] /\
  exists rs,
    (ts = LoadTask :: (WriteTask <$> rs) /\ unloaded_inv path m0 p (files f) rs) \/
    (ts = WriteTask <$> rs /\ exists hist, loaded_inv path hist p (files f) rs).

Definition sys_inv (path : string) (m0 : prefs) (w : World) : Prop :=
  inv path m0 (impl w) (fs w) (tasks w).

Lemma storable_nil : storable_map [].
Proof. split; [constructor|done]. Qed.

(** ** Tasks *)
Lemma load_step path m0 p f rs :
  usable path -> storable_map m0 -> filePath_ p = path -> faults f = [] ->
  unloaded_inv path m0 p (files f) rs ->
  exists f', LoadFromDisk p f = (Ok (with_loaded p true m0), f') /\ faults f' = [] /\
    loaded_inv path (fun _ => m0) (with_loaded p true m0) (files f') rs.
Proof.
  intros Hu Hm <- Hf [Hl [Hc Hd] [Hmap Hk] Hr Hrs].
  destruct (LoadFromDisk_spec p f Hu Hl Hmap Hf) as (f' & He & Hf' & Hb & Hrec & Hmain).
  rewrite Hr in He, Hrec. exists f'. split; [exact He|]. split; [done|].
  split; cbn; rewrite ?Hc, ?Hd; try done.
  - by exists m0.
  - eapply Forall_impl; [exact Hrs|]. intros r [Hg Hw]. split; [rewrite Hg; cbn; lia|].
    rewrite Hw. split; [apply storable_nil|]. unfold has_file. case_bool_decide as Ef.
    + right. rewrite Hg. cbn. by rewrite Hd.
    + left. rewrite (recovered_none _ _ Hb) in Hrec; [by simplify_eq|]. by apply eq_None_not_Some.
  - by left.
Qed.

Lemma write_map_quiet p mcr old f :
  usable (filePath_ p) -> storable_map (writeToDiskMap_ mcr) -> faults f = [] ->
  old_safe (filePath_ p) old (files f) ->
  exists f', write_map p mcr f =
      (((true, E_OK), with_disk_generation p (memoryStateGeneration_ mcr)), f') /\
    faults f' = [] /\ files f' !! backupPath_ p = None /\
    files f' !! filePath_ p = Some (saved (writeToDiskMap_ mcr)).
Proof.
  intros Hu Hm Hf Hs. pose proof (write_map_spec p mcr old f Hu Hm Hs) as Hd.
  destruct (write_map p mcr f) as [[res p'] f']. destruct Hd as (_ & Ho & Hn).
  destruct (Hn Hf) as (E & Hf' & Hb). cbn in E. subst res. destruct Ho as (_ & -> & Hmain & _).
  by exists f'.
Qed.

(** A write without faults on a disk without backup. *)
Lemma write_quiet p mcr old f :
  usable (filePath_ p) -> storable_map (writeToDiskMap_ mcr) -> faults f = [] ->
  files f !! backupPath_ p = None -> recovered (filePath_ p) (files f) = Ok old ->
  if has_file (filePath_ p) (files f) && negb (CheckRequestValidForStateGeneration p mcr)
  then WriteToDiskFile p mcr f = (((false, E_OK), p), f)
  else exists f', WriteToDiskFile p mcr f =
      (((true, E_OK), with_disk_generation p (memoryStateGeneration_ mcr)), f') /\
    faults f' = [] /\ files f' !! backupPath_ p = None /\
    files f' !! filePath_ p = Some (saved (writeToDiskMap_ mcr)).
Proof.
  intros Hu Hm Hf Hb Hr. pose proof (backup_other (filePath_ p)) as Hne.
  unfold WriteToDiskFile, mbind, F_bind, mret, F_ret.
  rewrite IsFileExist_usable by (destruct Hu; lia). fold (has_file (filePath_ p) (files f)).
  destruct (has_file (filePath_ p) (files f)) eqn:Ef; cbn [andb].
  - destruct (CheckRequestValidForStateGeneration p mcr); cbn [negb]; [|done].
    rewrite IsFileExist_usable by (unfold backupPath_; rewrite backup_length; apply Hu).
    rewrite Hb, bool_decide_eq_false_2 by (by intros []).
    unfold has_file in Ef. apply bool_decide_eq_true in Ef as [c Ec].
    unfold rename, next_fault. rewrite Hf, Ec. cbn [head default].
    apply (write_map_quiet p mcr old); [done|done|cbn; by rewrite Hf|]. left. exists c.
    cbn [files done_with]. unfold backupPath_ in *. rewrite lookup_insert_eq. split; [done|].
    by rewrite <- (recovered_main _ _ _ Hb Ec).
  - apply (write_map_quiet p mcr old); [done..|]. right.
    apply bool_decide_eq_false, eq_None_not_Some in Ef. split_and!; [done|done|].
    rewrite (recovered_none _ _ Hb Ef) in Hr. by simplify_eq.
Qed.

Lemma canon_idem m : canon_map (canon_map m) = canon_map m.
Proof.
  unfold canon_map. rewrite <- list_fmap_compose. apply list_fmap_ext. intros _ [k v] _.
  by destruct v.
Qed.

Lemma saved_holds path d m :
  storable_map m -> d !! MakeBackupPath path = None -> d !! path = Some (saved m) ->
  disk_holds path d m.
Proof.
  intros Hm Hb Hp. exists (canon_map m). rewrite (recovered_main _ _ _ Hb Hp).
  split; [by apply read_saved_map|]. apply canon_idem.
Qed.

Lemma write_step path hist p f r rs :
  usable path -> filePath_ p = path -> faults f = [] ->
  loaded_inv path hist p (files f) (r :: rs) ->
  exists b p' f', WriteToDiskFile p r f = (((b, E_OK), p'), f') /\ faults f' = [] /\
    (exists g, p' = with_disk_generation p g) /\ loaded_inv path hist p' (files f') rs.
Proof.
  intros Hu <- Hf [Hl Hg Hm Hb Hd Hfr Hrs Hp Hc]. destruct Hd as (md & Hmd & Hcd).
  apply Forall_cons in Hrs as [(Hrg & Hrm & Hr) Hrs].
  pose proof (write_quiet p r md f Hu Hrm Hf Hb Hmd) as Hw.
  destruct (has_file (filePath_ p) (files f) && _) eqn:E.
  - exists false, p, f. split; [done|]. split; [done|]. split; [by exists (diskStateGeneration_ p); destruct p|].
    apply andb_prop in E as [Ef Ev]. split; try done; [by exists md|].
    destruct Hp as [Hp|(r' & Hin & Hgr)]; [by left|]. apply elem_of_cons in Hin as [->|Hin]; [|eauto].
    left. unfold CheckRequestValidForStateGeneration in Ev. rewrite Hgr, Z.eqb_refl in Ev.
    destruct (_ <? _) eqn:El; [by destruct (isSyncRequest_ r)|]. zlia.
  - destruct Hw as (f' & He & Hf' & Hb' & Hmain). exists true. eexists _, f'. split; [exact He|].
    split; [done|]. split; [by eexists|].
    assert (Hfile : has_file (filePath_ p) (files f') = true).
    { apply bool_decide_eq_true. by rewrite Hmain. }
    assert (Hle : diskStateGeneration_ p <= memoryStateGeneration_ r /\
                  writeToDiskMap_ r = hist (memoryStateGeneration_ r)).
    { destruct (has_file (filePath_ p) (files f)) eqn:Ef.
      - unfold CheckRequestValidForStateGeneration in E. destruct (_ <? _) eqn:El; [|done].
        destruct Hr as [Hr|[_ Hr]]; zlia || (split; [zlia|done]).
      - rewrite (Hfr eq_refl). split; [lia|]. by destruct Hr as [Hr|[? _]]. }
    destruct Hle as [Hle Hmap].
    split; cbn; try done; try lia.
    + rewrite <- Hmap. by apply saved_holds.
    + by rewrite Hfile.
    + rewrite Hfile. eapply Forall_impl; [exact Hrs|]. intros r' (K1 & K2 & K3).
      split; [done|]. split; [done|]. cbn. destruct K3 as [K3|[_ K3]]; [by left|right]. split; [done|lia].
    + destruct (decide (memoryStateGeneration_ r = currentMemoryStateGeneration_ p)) as [->|Hn];
        [by left|]. right. destruct Hp as [Hp|(r' & Hin & Hgr)]; [lia|].
      apply elem_of_cons in Hin as [->|Hin]; [done|eauto].
Qed.

Lemma task_step path m0 p f t ts ts' n :
  inv path m0 p f (t :: ts) ->
  exists res p' f', run_task t (mkWorld p f ts' n) = Returns (res, mkWorld p' f' ts' n) /\
    inv path m0 p' f' ts /\ loaded_ p' = true /\ modifiedKeys_ p' = modifiedKeys_ p /\
    (t <> LoadTask -> snd res = E_OK).
Proof.
  intros (Hu & Hm0 & Hp & Hf & rs & [[Et Hi]|[Et (hist & Hi)]]).
  - simplify_eq. destruct (load_step _ _ _ _ _ Hu Hm0 eq_refl Hf Hi) as (f' & He & Hf' & Hi').
    unfold run_task, mbind, P_bind, get_impl, on_disk. cbn [impl fs]. rewrite He.
    eexists _, _, f'. split; [done|]. split; [|done].
    split_and!; try done. exists rs. right. split; [done|]. by eexists.
  - destruct rs as [|r rs]; [done|]. cbn in Et. simplify_eq.
    destruct (write_step _ _ _ _ _ _ Hu eq_refl Hf Hi) as (b & p' & f' & He & Hf' & (g & ->) & Hi').
    unfold run_task, mbind, P_bind, get_impl, on_disk. cbn [impl fs]. rewrite He.
    eexists _, _, f'. split; [done|]. split; [|split; [apply Hi'|done]].
    split_and!; try done. exists rs. right. split; [done|]. by eexists.
Qed.

Lemma run_tasks_all path m0 n ts : forall last p f,
  inv path m0 p f ts ->
  exists res p' f', run_tasks ts last (mkWorld p f [] n) = Returns (res, mkWorld p' f' [] n) /\
    inv path m0 p' f' [] /\ modifiedKeys_ p' = modifiedKeys_ p /\ (ts = [] -> res = last) /\
    (forall ts0 r, ts = ts0 ++ [WriteTask r] -> snd res = E_OK).
Proof.
  induction ts as [|t ts IH]; intros last p f Hi.
  { eexists _, _, _. split; [done|]. split_and!; try done. by intros [|]. }
  destruct (task_step _ _ _ _ _ _ [] n Hi) as (res & p1 & f1 & He & Hi1 & _ & Hk & Hres).
  destruct (IH res p1 f1 Hi1) as (res' & p2 & f2 & He2 & Hi2 & Hk2 & Hnil & Hlast).
  exists res', p2, f2. cbn [run_tasks]. unfold mbind, P_bind. rewrite He, He2.
  split_and!; try done; [congruence|]. intros [|t0 ts0] r E; simplify_eq/=.
  - rewrite (Hnil eq_refl). by apply Hres.
  - by eapply Hlast.
Qed.

(** ** Operations of the client *)
Definition committed (p : PreferencesImpl) : PreferencesImpl :=
  mkPreferences (loaded_ p)
    (currentMemoryStateGeneration_ p + (if negb (bool_decide (modifiedKeys_ p = [])) then 1 else 0))
    (diskStateGeneration_ p) (preferencesObservers_ p) (map_ p) [] (filePath_ p).
Definition request_of (p : PreferencesImpl) (sync : bool) : MemoryToDiskRequest :=
  mkRequest sync (currentMemoryStateGeneration_ (committed p)) (map_ p) (modifiedKeys_ p)
    (preferencesObservers_ p).

Lemma commit_inv path m0 p f ts sync :
  inv path m0 p f ts -> inv path m0 (committed p) f (ts ++ [WriteTask (request_of p sync)]).
Proof.
  intros (Hu & Hm0 & Hp & Hf & rs & Hi). split_and!; try done.
  exists (rs ++ [request_of p sync]). rewrite fmap_app.
  destruct Hi as [[-> [Hl [Hc Hd] [Hmap Hk] Hr Hrs]]|[-> (hist & [Hl Hg Hm Hb Hd Hfr Hrs Hpe Hcu])]].
  - left. split; [done|]. assert (E : bool_decide (modifiedKeys_ p = []) = true)
      by (by apply bool_decide_eq_true).
    split; cbn; rewrite ?E, ?Hc; try done. apply Forall_app. split; [done|].
    repeat constructor; cbn; by rewrite ?E, ?Hc.
  - right. split; [done|]. set (g := currentMemoryStateGeneration_ (committed p)).
    assert (Hge : currentMemoryStateGeneration_ p <= g) by (unfold g; cbn; case_match; lia).
    exists (fun x => if x =? g then map_ p else hist x).
    assert (Hold : forall x, x <= currentMemoryStateGeneration_ p ->
      (if x =? g then map_ p else hist x) = hist x).
    { intros x Hx. destruct (x =? g) eqn:E; [|done]. to_prop. subst x.
      unfold g in *. cbn in *. case_bool_decide as Ek; cbn in *; [|lia]. rewrite Z.add_0_r in *.
      by apply Hcu. }
    split; cbn -[committed]; fold g;
      try change (diskStateGeneration_ (committed p)) with (diskStateGeneration_ p); try done.
    + lia.
    + rewrite Hold by lia. done.
    + apply Forall_app. split.
      * eapply Forall_impl; [exact Hrs|]. intros r (K1 & K2 & K3). split; [fold g; lia|].
        split; [done|]. rewrite Hold by lia. done.
      * constructor; [|done]. split; [change (0 <= g <= g); lia|]. split; [done|]. left.
        change (map_ p = if g =? g then map_ p else hist g). by rewrite Z.eqb_refl.
    + right. exists (request_of p sync). split; [|done]. apply elem_of_app. right. by apply list_elem_of_singleton.
    + intros _. by rewrite Z.eqb_refl.
Qed.

Lemma sm_set_pairs {V} (Q : string * V -> Prop) k v m :
  Q (k, v) -> Forall Q m -> Forall Q (sm_set k v m).
Proof.
  intros Hq. induction 1 as [|[k' v'] m Hk Hm IH]; cbn; [by constructor|].
  destruct (String.compare k k'); repeat (constructor; try done).
Qed.

Lemma storable_set k v m :
  xml_text k = true -> storable v -> storable_map m -> storable_map (sm_set k v m).
Proof.
  intros Hk Hv [Hs Hm]. split; [by apply sm_set_sorted|]. by apply sm_set_pairs.
Qed.

Lemma storable_erase k m : storable_map m -> storable_map (sm_erase k m).
Proof.
  intros [Hs Hm]. split; [by apply sm_erase_sorted|]. apply Forall_forall.
  intros x [_ Hx]%list_elem_of_filter. by apply (proj1 (Forall_forall _ _) Hm).
Qed.

Lemma change_inv path m0 p f ts m ks k :
  inv path m0 p f ts -> loaded_ p = true -> storable_map m -> k ∈ ks ->
  inv path m0 (with_map p m ks) f ts.
Proof.
  intros (Hu & Hm0 & Hp & Hf & rs & [[_ Hi]|[-> (hist & [])]]) Hl Hm Hk.
  { by rewrite (ui_loaded _ _ _ _ _ Hi) in Hl. }
  split_and!; try done. exists rs. right. split; [done|]. exists hist. split; try done.
  cbn. intros ->. by apply not_elem_of_nil in Hk.
Qed.

Lemma inv_map path m0 p f ts : inv path m0 p f ts -> storable_map (map_ p).
Proof.
  intros (_ & _ & _ & _ & rs & [[_ [_ _ [-> _] _ _]]|[_ (hist & [])]]); [apply storable_nil|done].
Qed.

Lemma inv_unloaded path m0 p f ts :
  inv path m0 p f ts -> loaded_ p = false -> map_ p = [] /\ exists ts', ts = LoadTask :: ts'.
Proof.
  intros (_ & _ & _ & _ & rs & [[-> []]|[-> (hist & [])]]) Hl; [|congruence].
  split; [by destruct ui_map0|]. by eexists.
Qed.

(** An operation that returns and keeps the invariant. *)
Definition keeps {A} (path : string) (m0 : prefs) (m : P A) : Prop :=
  forall w, sys_inv path m0 w ->
    exists a w', m w = Returns (a, w') /\ sys_inv path m0 w'.

Lemma keeps_bind {A B} path m0 (m : P A) (k : A -> P B) :
  keeps path m0 m -> (forall a, keeps path m0 (k a)) -> keeps path m0 (m ≫= k).
Proof.
  intros Hm Hk w Hw. destruct (Hm w Hw) as (a & w1 & E & Hw1). unfold mbind, P_bind. rewrite E.
  by apply Hk.
Qed.

Lemma keeps_ret {A} path m0 (a : A) : keeps path m0 (mret a).
Proof. intros w Hw. by exists a, w. Qed.

Lemma work_keeps path m0 : keeps path m0 work.
Proof.
  intros w Hw. unfold work. destruct (tasks w) as [|t ts] eqn:Et; [by exists tt, w|].
  unfold sys_inv in Hw. rewrite Et in Hw.
  destruct (task_step _ _ _ _ _ _ ts (notified w) Hw) as (res & p' & f' & He & Hi & _).
  unfold mbind, P_bind. rewrite He. by eexists _, _.
Qed.

Lemma work_loads path m0 w :
  sys_inv path m0 w -> loaded_ (impl w) = false ->
  exists w', work w = Returns (tt, w') /\ sys_inv path m0 w' /\ loaded_ (impl w') = true.
Proof.
  intros Hw Hl. unfold work, sys_inv in *. destruct (inv_unloaded _ _ _ _ _ Hw Hl) as (_ & ts & Et).
  rewrite Et in *.
  destruct (task_step _ _ _ _ _ _ ts (notified w) Hw) as (res & p' & f' & He & Hi & Hl' & _).
  unfold mbind, P_bind. rewrite He. by eexists.
Qed.

Lemma PutPreferencesValue_loaded path m0 key value w :
  xml_text key = true -> storable value -> sys_inv path m0 w -> loaded_ (impl w) = true ->
  exists w', PutPreferencesValue key value w = Returns (tt, w') /\ sys_inv path m0 w'.
Proof.
  intros Hk Hv Hw Hl. unfold PutPreferencesValue, AwaitLoadFile, mbind, P_bind, get_impl.
  rewrite Hl.
  assert (Hc : sys_inv path m0
    (mkWorld (with_map (impl w) (sm_set key value (map_ (impl w))) (modifiedKeys_ (impl w) ++ [key]))
       (fs w) (tasks w) (notified w))).
  { apply (change_inv _ _ _ _ _ _ _ key); [done|done| |set_solver].
    apply storable_set; [done..|]. by eapply inv_map. }
  destruct (sm_find key (map_ (impl w))); [case_if|]; by eexists.
Qed.

Lemma put_op_cases key value :
  (exists code, put_op key value = mret code) \/
  put_op key value = (PutPreferencesValue key value ;; mret E_OK).
Proof.
  destruct value; cbn [put_op]; unfold PutInt, PutLong, PutFloat, PutDouble, PutBool, put_value,
    PutString, PutStringSet; repeat case_if; eauto.
Qed.

Lemma put_keeps path m0 key value :
  xml_text key = true -> storable value -> keeps path m0 (awaiting (put_op key value)).
Proof.
  intros Hk Hv w Hw. unfold awaiting. destruct (put_op_cases key value) as [[code ->]| ->].
  { by exists code, w. }
  assert (Hput : forall w, sys_inv path m0 w -> loaded_ (impl w) = true ->
    exists w', (PutPreferencesValue key value ;; mret E_OK) w = Returns (E_OK, w') /\
      sys_inv path m0 w').
  { intros w1 Hw1 Hl. destruct (PutPreferencesValue_loaded _ _ _ _ _ Hk Hv Hw1 Hl) as (w' & E & Hw').
    unfold mbind, P_bind at 1. rewrite E. by exists w'. }
  destruct (loaded_ (impl w)) eqn:Hl.
  - destruct (Hput w Hw Hl) as (w' & -> & Hw'). by eexists _, _.
  - destruct (work_loads _ _ _ Hw Hl) as (w1 & E1 & Hw1 & Hl1).
    destruct (Hput w1 Hw1 Hl1) as (w' & E & Hw'). exists E_OK, w'. split; [|done].
    unfold PutPreferencesValue at 1, AwaitLoadFile at 1, mbind, P_bind. rewrite Hl, E1. exact E.
Qed.

(** Delete and clear do nothing while the map is empty. *)
Lemma nonempty_loaded path m0 w : sys_inv path m0 w -> map_ (impl w) <> [] -> loaded_ (impl w) = true.
Proof.
  intros Hw Hm. destruct (loaded_ (impl w)) eqn:Hl; [done|]. by destruct (inv_unloaded _ _ _ _ _ Hw Hl).
Qed.

Lemma Delete_keeps path m0 key : keeps path m0 (Delete key).
Proof.
  intros w Hw. unfold Delete. case_if; [by eexists _, w|]. unfold mbind, P_bind, get_impl.
  destruct (sm_find key (map_ (impl w))) eqn:Ef; [|by eexists _, w].
  eexists _, _. split; [done|]. apply (change_inv _ _ _ _ _ _ _ key); [done| | |set_solver].
  - eapply nonempty_loaded; [done|]. intros Em. by rewrite Em in Ef.
  - apply storable_erase. by eapply inv_map.
Qed.

Lemma Clear_keeps path m0 : keeps path m0 Clear.
Proof.
  intros w Hw. unfold Clear, mbind, P_bind, get_impl.
  destruct (map_ (impl w)) as [|[k v] m] eqn:Em; [by eexists _, w|].
  eexists _, _. split; [done|]. apply (change_inv _ _ _ _ _ _ _ k); [done| |apply storable_nil|].
  - eapply nonempty_loaded; [done|]. by rewrite Em.
  - apply elem_of_app. right. cbn. by left.
Qed.

Lemma Flush_keeps path m0 : keeps path m0 (Flush alive).
Proof.
  intros w Hw. eexists _, _. split; [done|]. exact (commit_inv _ _ _ _ _ false Hw).
Qed.

(** The file is loaded, no task waits and no change is pending. *)
Definition at_rest (w : World) : Prop :=
  loaded_ (impl w) = true /\ tasks w = [] /\ modifiedKeys_ (impl w) = [].

Lemma FlushSync_spec path m0 w :
  sys_inv path m0 w ->
  exists w', FlushSync alive w = Returns (E_OK, w') /\ sys_inv path m0 w' /\ at_rest w'.
Proof.
  intros Hw. pose proof (commit_inv _ _ _ _ _ true Hw) as Hi.
  destruct (run_tasks_all _ _ (notified w) _ (false, E_ERROR) _ _ Hi)
    as (res & p' & f' & He & Hi' & Hk & _ & Hres).
  assert (E : FlushSync alive w =
    match run_tasks (tasks w ++ [WriteTask (request_of (impl w) true)]) (false, E_ERROR)
            (mkWorld (committed (impl w)) (fs w) [] (notified w)) with
    | Returns (r, w1) =>
        (notifyPreferencesObserver alive (request_of (impl w) true) ;; mret (snd r)) w1
    | Waits => Waits
    | Terminates => Terminates
    end) by done.
  rewrite E, He. eexists. split; [cbn; by rewrite (Hres _ _ eq_refl)|]. split; [exact Hi'|].
  split_and!; [|done|exact Hk].
  destruct Hi' as (_ & _ & _ & _ & rs & [[? _]|[_ (hist & [])]]); [done|done].
Qed.

Lemma observers_keep path m0 l w :
  sys_inv path m0 w ->
  sys_inv path m0 (mkWorld (with_observers (impl w) l) (fs w) (tasks w) (notified w)).
Proof.
  intros (Hu & Hm0 & Hp & Hf & rs & Hi). split_and!; try done. exists rs.
  destruct Hi as [[Et []]|[Et (hist & [])]]; [left|right]; (split; [exact Et|]); [by split|].
  exists hist. split; assumption.
Qed.

Lemma run_pref_op_keeps path m0 o : op_storable o -> keeps path m0 (run_pref_op o).
Proof.
  destruct o; cbn [op_storable run_pref_op]; intros Ho.
  - destruct Ho. by apply put_keeps.
  - apply Delete_keeps.
  - apply Clear_keeps.
  - apply keeps_bind; [apply Flush_keeps|intros; apply keeps_ret].
  - intros w Hw. destruct (FlushSync_spec _ _ _ Hw) as (w' & E & Hw' & _). by eexists _, _.
  - intros w Hw. eexists _, _. split; [done|]. by apply observers_keep.
  - intros w Hw. eexists _, _. split; [done|]. by apply observers_keep.
  - apply keeps_bind; [apply work_keeps|intros; apply keeps_ret].
Qed.

Lemma run_pref_ops_keeps path m0 os : Forall op_storable os -> keeps path m0 (run_pref_ops os).
Proof.
  induction 1 as [|o os Ho _ IH]; [apply keeps_ret|]. cbn.
  apply keeps_bind; [by apply run_pref_op_keeps|]. intros a.
  apply keeps_bind; [done|]. intros. apply keeps_ret.
Qed.

Lemma rest_agrees path m0 w :
  sys_inv path m0 w -> at_rest w -> disk_holds path (files (fs w)) (map_ (impl w)).
Proof.
  intros (_ & _ & _ & _ & rs & Hi) (Hl & Ht & Hk). rewrite Ht in Hi.
  destruct Hi as [[? _]|[Et (hist & [])]]; [done|]. destruct rs; [|done].
  rewrite li_current0 by done. destruct li_pending0 as [<-|(r & Hin & _)]; [done|].
  by apply not_elem_of_nil in Hin.
Qed.

(** A process that has just created the object. *)
Definition started (path : string) (d : disk) : World :=
  mkWorld (new_PreferencesImpl path) (mkFS d [] []) [LoadTask] [].

Lemma started_inv path d m0 :
  usable path -> storable_map m0 -> loads path d m0 -> sys_inv path m0 (started path d).
Proof.
  intros Hu Hm Hl. split_and!; try done. exists []. left. split; [done|]. split; try done.
  by apply loads_recovered.
Qed.

Lemma started_Init path d :
  Init E_OK (mkWorld (new_PreferencesImpl path) (mkFS d [] []) [] []) = Returns (E_OK, started path d).
Proof. done. Qed.

(** C9: the preferences are kept, under a path within the limits on a disk whose calls do
    not fail, with a pool that runs
    every task that was scheduled, and for values that a file can hold (texts of
    XML, integers of their width, floating-point numbers whose six decimals are read back
    as they were). Whatever such values a client puts, whatever it deletes, clears and
    flushes, and however loading and writing fall between its operations, no operation
    throws, and none waits longer than the next task takes; whenever no task and no change is pending, a
    new process would load what is in memory, up to booleans; and a [FlushSync] reports
    success and leaves the disk in that state. [TaskPool.task_forgotten] shows a pool that
    does not run a task. *)
Theorem preferences_durable path d m0 os :
  usable path -> storable_map m0 -> loads path d m0 -> Forall op_storable os ->
  let kept w := exists md, loads path (files (fs w)) md /\ canon_map md = canon_map (map_ (impl w)) in
  exists codes w, run_pref_ops os (started path d) = Returns (codes, w) /\
    (at_rest w -> kept w) /\
    exists w', FlushSync alive w = Returns (E_OK, w') /\ at_rest w' /\ kept w'.
Proof.
  intros Hu Hm Hl Hos kept.
  assert (Hkept : forall w, sys_inv path m0 w -> at_rest w -> kept w).
  { intros w Hw Hr. destruct (rest_agrees _ _ _ Hw Hr) as (md & Hmd & Hc). exists md.
    split; [by apply loads_recovered|done]. }
  destruct (run_pref_ops_keeps path m0 os Hos (started path d)) as (codes & w & E & Hw);
    [by apply started_inv|].
  exists codes, w. split; [done|]. split; [by apply Hkept|].
  destruct (FlushSync_spec _ _ _ Hw) as (w' & E' & Hw' & Hr'). exists w'. eauto.
Qed.
End System.

Definition demo_ops : list pref_op :=
  [OpFlush; OpPut "a" (PInt 2); OpFlush; OpDelete "a"; OpPut "d" (PString "x"); OpFlush; OpWork].

Lemma demo_ops_storable : Forall (@op_storable no_floats) demo_ops.
Proof. by repeat constructor. Qed.

Lemma preferences_durable_witness :
  let kept w := exists md, @loads tree_xml no_floats "/data/p.xml" (files (fs w)) md /\
    canon_map md = canon_map (map_ (impl w)) in
  exists codes w,
    @run_pref_ops tree_xml no_floats (fun _ => true) demo_ops (started "/data/p.xml" demo_disk) =
      Returns (codes, w) /\
    (at_rest w -> kept w) /\
    exists w', @FlushSync tree_xml no_floats (fun _ => true) w = Returns (E_OK, w') /\
      at_rest w' /\ kept w'.
Proof.
  apply (@preferences_durable tree_xml no_floats tree_xml_laws (fun _ => true) "/data/p.xml"
    demo_disk demo_old demo_ops demo_usable demo_old_storable demo_loads demo_ops_storable).
Defined.

(** * Preferences as a map

    Loaded preferences behave as a finite map from keys to typed values: the answers of
    every operation, the map afterwards and the keys that observers will hear about. *)

Inductive data_op :=
| DPut (key : string) (value : PreferencesValue)
| DGet (key : string) (defValue : PreferencesValue)
| DHas (key : string)
| DDelete (key : string)
| DClear.

Inductive answer :=
| Code (code : Z)
| Found (b : bool)
| Value (v : PreferencesValue).

(** ** The code *)
Definition run_data (o : data_op) : P answer :=
  match o with
  | DPut key (PInt z) => Code <$> PutInt key z
  | DPut key (PLong z) => Code <$> PutLong key z
  | DPut key (PFloat b) => Code <$> PutFloat key b
  | DPut key (PDouble b) => Code <$> PutDouble key b
  | DPut key (PBool b) => Code <$> PutBool key b
  | DPut key (PString s) => Code <$> PutString key s
  | DPut key (PSet l) => Code <$> PutStringSet key l
  | DGet key (PInt z) => (fun v => Value (PInt v)) <$> GetInt key z
  | DGet key (PLong z) => (fun v => Value (PLong v)) <$> GetLong key z
  | DGet key (PFloat b) => (fun v => Value (PFloat v)) <$> GetFloat key b
  | DGet key (PDouble b) => (fun v => Value (PDouble v)) <$> GetDouble key b
  | DGet key (PBool b) => (fun v => Value (PBool v)) <$> GetBool key b
  | DGet key (PString s) => (fun v => Value (PString v)) <$> GetString key s
  | DGet key (PSet l) => (fun v => Value (PSet v)) <$> GetStringSet key l
  | DHas key => Found <$> HasKey key
  | DDelete key => Code <$> PreferencesImpl.Delete key
  | DClear => Code <$> Clear
  end.

Fixpoint run_datas (os : list data_op) : P (list answer) :=
  match os with
  | [] => mret []
  | o :: os => a ← run_data o; l ← run_datas os; mret (a :: l)
  end.

(** ** The specification *)
Definition same_type (v1 v2 : PreferencesValue) : bool :=
  match v1, v2 with
  | PInt _, PInt _ | PLong _, PLong _ | PFloat _, PFloat _ | PDouble _, PDouble _
  | PBool _, PBool _ | PString _, PString _ | PSet _, PSet _ => true
  | _, _ => false
  end.

(** The code of a put, and whether the value is put. A set with a long element is
    dropped without an error. *)
Definition put_code (key : string) (value : PreferencesValue) : Z * bool :=
  if negb (CheckKey key =? E_OK) then (CheckKey key, false)
  else
    match value with
    | PString s => (CheckStringValue s, CheckStringValue s =? E_OK)
    | PSet l => (E_OK, forallb (fun s => CheckStringValue s =? E_OK) l)
    | _ => (E_OK, true)
    end.

Definition spec_state : Type := gmap string PreferencesValue * gset string.

Definition spec_data (o : data_op) (s : spec_state) : answer * spec_state :=
  let '(m, changed) := s in
  match o with
  | DPut key value =>
      let '(code, put) := put_code key value in
      let kept := match m !! key with Some v => PreferencesValue_eqb v value | None => false end in
      (Code code, if put && negb kept then (<[key := value]> m, {[key]} ∪ changed) else s)
  | DGet key defValue =>
      (Value (if CheckKey key =? E_OK then
                match m !! key with
                | Some v => if same_type v defValue then v else defValue
                | None => defValue
                end
              else defValue), s)
  | DHas key => (Found ((CheckKey key =? E_OK) && bool_decide (is_Some (m !! key))), s)
  | DDelete key =>
      (Code (CheckKey key),
       if (CheckKey key =? E_OK) && bool_decide (is_Some (m !! key))
       then (delete key m, {[key]} ∪ changed) else s)
  | DClear => (Code E_OK, (∅, dom m ∪ changed))
  end.

Fixpoint spec_datas (os : list data_op) (s : spec_state) : list answer * spec_state :=
  match os with
  | [] => ([], s)
  | o :: os => let '(a, s) := spec_data o s in let '(l, s) := spec_datas os s in (a :: l, s)
  end.

(** ** Refinement *)
Definition abs (p : PreferencesImpl) : spec_state :=
  (list_to_map (map_ p), list_to_set (modifiedKeys_ p)).

Lemma abs_find m k : (list_to_map m : gmap string PreferencesValue) !! k = sm_find k m.
Proof.
  induction m as [|[k' v] m IH]; [done|]. cbn. case_decide as E; [subst; apply lookup_insert_eq|].
  by rewrite lookup_insert_ne by done.
Qed.

Lemma abs_set m k v : sm_sorted m ->
  (list_to_map (sm_set k v m) : gmap string PreferencesValue) = <[k := v]> (list_to_map m).
Proof.
  intros Hs. apply map_eq. intros k'. rewrite abs_find, sm_find_set by done. case_decide as E.
  - subst. by rewrite lookup_insert_eq.
  - rewrite lookup_insert_ne by done. by rewrite abs_find.
Qed.

Lemma abs_erase m k :
  (list_to_map (sm_erase k m) : gmap string PreferencesValue) = delete k (list_to_map m).
Proof.
  apply map_eq. intros k'. rewrite abs_find, sm_find_erase. case_decide as E.
  - subst. by rewrite lookup_delete_eq.
  - rewrite lookup_delete_ne by done. by rewrite abs_find.
Qed.

Lemma abs_dom m :
  list_to_set (fst <$> m) = dom (list_to_map m : gmap string PreferencesValue).
Proof. by rewrite dom_list_to_map_L. Qed.

Lemma snoc_set (l : list string) k :
  (list_to_set (l ++ [k]) : gset string) = {[k]} ∪ list_to_set l.
Proof.
  rewrite list_to_set_app_L. cbn. by rewrite (right_id_L ∅ (∪)), (comm_L (∪)).
Qed.

(** A run of one operation on loaded preferences. *)
Definition refines (o : data_op) (w : World) : Prop :=
  exists p', run_data o w =
      Returns (fst (spec_data o (abs (impl w))), mkWorld p' (fs w) (tasks w) (notified w)) /\
    abs p' = snd (spec_data o (abs (impl w))) /\ loaded_ p' = true /\ sm_sorted (map_ p').

Lemma unchanged o w :
  loaded_ (impl w) = true -> sm_sorted (map_ (impl w)) ->
  snd (spec_data o (abs (impl w))) = abs (impl w) ->
  run_data o w = Returns (fst (spec_data o (abs (impl w))), w) ->
  refines o w.
Proof. intros Hl Hs Hspec He. exists (impl w). rewrite He, Hspec. by destruct w. Qed.

Lemma PutPreferencesValue_spec key value w :
  loaded_ (impl w) = true -> sm_sorted (map_ (impl w)) ->
  exists p', PutPreferencesValue key value w =
      Returns (tt, mkWorld p' (fs w) (tasks w) (notified w)) /\
    abs p' = (if negb (match fst (abs (impl w)) !! key with
                       | Some v => PreferencesValue_eqb v value
                       | None => false
                       end)
              then (<[key := value]> (fst (abs (impl w))), {[key]} ∪ snd (abs (impl w)))
              else abs (impl w)) /\
    loaded_ p' = true /\ sm_sorted (map_ p').
Proof.
  intros Hl Hs. unfold PutPreferencesValue, AwaitLoadFile, mbind, P_bind, get_impl. rewrite Hl.
  cbn [abs fst]. rewrite abs_find.
  assert (Hc : abs (with_map (impl w) (sm_set key value (map_ (impl w))) (modifiedKeys_ (impl w) ++ [key]))
    = (<[key := value]> (fst (abs (impl w))), {[key]} ∪ snd (abs (impl w)))).
  { unfold abs. cbn. rewrite abs_set by done. by rewrite snoc_set. }
  destruct (sm_find key (map_ (impl w))) as [v|]; [destruct (PreferencesValue_eqb v value)|].
  - exists (impl w). by destruct w.
  - eexists. split; [done|]. split; [done|]. split; [done|]. by apply sm_set_sorted.
  - eexists. split; [done|]. split; [done|]. split; [done|]. by apply sm_set_sorted.
Qed.

(** All typed puts are the put of the value after their checks. *)
Lemma run_put key value w :
  run_data (DPut key value) w =
    let '(code, put) := put_code key value in
    if put then ((fun _ : unit => Code E_OK) <$> PutPreferencesValue key value) w
    else Returns (Code code, w).
Proof.
  unfold put_code. destruct value; cbn [run_data];
    unfold PutInt, PutLong, PutFloat, PutDouble, PutBool, put_value, PutString, PutStringSet,
      fmap, P_fmap, mbind, P_bind, mret, P_ret.
  all: destruct (negb (CheckKey key =? E_OK)) eqn:Ek; [done|].
  1-5: by destruct (PutPreferencesValue _ _ _) as [[[] ?]| |].
  - destruct (CheckStringValue s =? E_OK); cbn [negb]; [|done].
    by destruct (PutPreferencesValue _ _ _) as [[[] ?]| |].
  - assert (existsb (fun child => negb (CheckStringValue child =? E_OK)) l =
            negb (forallb (fun s => CheckStringValue s =? E_OK) l)) as ->.
    { induction l as [|s l IH]; [done|]. cbn [existsb forallb]. rewrite IH. by destruct (CheckStringValue s =? E_OK). }
    to_prop. rewrite Ek. destruct (forallb _ l); cbn [negb]; [|done].
    by destruct (PutPreferencesValue _ _ _) as [[[] ?]| |].
Qed.

Lemma put_refines key value w :
  loaded_ (impl w) = true -> sm_sorted (map_ (impl w)) -> refines (DPut key value) w.
Proof.
  intros Hl Hs. unfold refines. rewrite run_put.
  destruct (PutPreferencesValue_spec key value w Hl Hs) as (p' & He & Ha & Hl' & Hs').
  assert (Hcode : forall code, put_code key value = (code, true) -> code = E_OK).
  { unfold put_code. intros code. case_if; [done|]. destruct value; intros ?; simplify_eq; try done. by to_prop. }
  destruct (abs (impl w)) as [m ks] eqn:Em. cbn [spec_data].
  destruct (put_code key value) as [code []] eqn:Ep; cbn [andb].
  - pose proof (Hcode _ eq_refl) as ->. unfold fmap, P_fmap. rewrite He. exists p'. by split_and!.
  - exists (impl w). by destruct w.
Qed.

Lemma get_refines key defValue w :
  loaded_ (impl w) = true -> sm_sorted (map_ (impl w)) -> refines (DGet key defValue) w.
Proof.
  intros Hl Hs. apply unchanged; [done..|]. cbn [spec_data abs]. rewrite abs_find.
  destruct defValue; cbn [run_data];
    unfold GetInt, GetLong, GetFloat, GetDouble, GetBool, GetString, GetStringSet, get_value,
      fmap, P_fmap, mbind, P_bind, AwaitLoadFile, get_impl;
    (destruct (CheckKey key =? E_OK); cbn [negb]; [rewrite Hl|done]);
    (destruct (sm_find key (map_ (impl w))) as [[]|]; done).
Qed.

Lemma data_refines o w :
  loaded_ (impl w) = true -> sm_sorted (map_ (impl w)) -> refines o w.
Proof.
  intros Hl Hs. destruct o as [key value|key defValue|key|key|].
  - by apply put_refines.
  - by apply get_refines.
  - apply unchanged; [done..|]. cbn [spec_data abs run_data]. rewrite abs_find.
    unfold HasKey, fmap, P_fmap, mbind, P_bind, AwaitLoadFile, get_impl.
    destruct (CheckKey key =? E_OK); cbn [negb]; [by rewrite Hl|done].
  - cbn [run_data]. unfold refines. cbn [spec_data run_data abs]. rewrite abs_find.
    unfold Delete, fmap, P_fmap, mbind, P_bind, get_impl.
    destruct (CheckKey key =? E_OK) eqn:Ek; cbn [negb andb]; [|exists (impl w); by destruct w].
    to_prop. rewrite Ek. destruct (sm_find key (map_ (impl w))) as [v|] eqn:Ef.
    + rewrite bool_decide_eq_true_2 by eauto. eexists. split; [done|]. split_and!; [|done|].
      * unfold abs. cbn. by rewrite abs_erase, snoc_set.
      * by apply sm_erase_sorted.
    + rewrite bool_decide_eq_false_2 by (by intros []). exists (impl w). by destruct w.
  - unfold refines. cbn [spec_data run_data abs]. unfold Clear, fmap, P_fmap, mbind, P_bind, get_impl.
    destruct (map_ (impl w)) as [|kv m] eqn:Em.
    + exists (impl w). split; [by destruct w|]. split_and!; [|done|by rewrite Em].
      unfold abs. rewrite Em. cbn. by rewrite dom_empty_L, (left_id_L ∅ (∪)).
    + eexists. split; [done|]. split_and!; [|done|constructor].
      rewrite <- Em. unfold abs. cbn. by rewrite list_to_set_app_L, abs_dom, (comm_L (∪)).
Qed.

(** loaded preferences refine a finite map: any sequence of puts, gets, deletes and
    clears gives the answers of the specification, ends with its map, and has recorded
    for the observers exactly the keys that changed; neither the disk nor the tasks
    are touched. *)
Theorem prefs_refine_map os : forall w,
  loaded_ (impl w) = true -> sm_sorted (map_ (impl w)) ->
  exists p', run_datas os w =
      Returns (fst (spec_datas os (abs (impl w))), mkWorld p' (fs w) (tasks w) (notified w)) /\
    abs p' = snd (spec_datas os (abs (impl w))) /\ loaded_ p' = true /\ sm_sorted (map_ p').
Proof.
  induction os as [|o os IH]; intros w Hl Hs.
  { exists (impl w). by destruct w. }
  destruct (data_refines o w Hl Hs) as (p1 & He & Ha & Hl1 & Hs1).
  destruct (IH (mkWorld p1 (fs w) (tasks w) (notified w)) Hl1 Hs1) as (p2 & He2 & Ha2 & Hl2 & Hs2).
  cbn [run_datas spec_datas]. unfold mbind, P_bind. rewrite He, He2. cbn [impl] in Ha2. cbn [impl].
  rewrite Ha in *. destruct (spec_data o (abs (impl w))) as [a s]. cbn [snd] in *.
  destruct (spec_datas os s) as [l s2]. exists p2. by split_and!.
Qed.

Definition demo_world : World :=
  mkWorld (mkPreferences true 0 0 [] [("a", PInt 1)] [] "/data/p.xml") (mkFS ∅ [] []) [] [].
Definition demo_datas : list data_op :=
  [DGet "a" (PInt 0); DPut "b" (PString "x"); DPut "a" (PInt 1); DGet "a" (PString "d");
   DDelete "a"; DHas "a"; DPut "" (PInt 3); DGet "b" (PString "")].

Lemma prefs_refine_map_witness :
  exists p', run_datas demo_datas demo_world =
      Returns ([Value (PInt 1); Code E_OK; Code E_OK; Value (PString "d"); Code E_OK; Found false;
                Code E_KEY_EMPTY; Value (PString "x")], mkWorld p' (mkFS ∅ [] []) [] []) /\
    fst (abs p') = {["b" := PString "x"]}.
Proof.
  destruct (prefs_refine_map demo_datas demo_world eq_refl) as (p' & He & Ha & _);
    [by repeat constructor|].
  exists p'. split; [exact He|]. rewrite Ha. done.
Defined.
