(* ===== verification/TaskPool.v ===== *)
(** * The task pool of the preferences

    Model of task_queue.cpp and task_pool.cpp. Everything happens under one mutex except
    running the tasks themselves, so the critical sections are the steps of a
    transition system: each function below is a critical section or a part of one,
    run by the thread [this]. Notifications and the creation of threads are effects
    that the system of threads interprets. *)
From S2P Require Import Prelude StdMap Strings PreferencesErrno.
From Stdlib Require Import Sorted.

#[local] Open Scope list_scope.

(** A task is its identity; thread identities are positive, 0 is the identity of no
    thread. *)
Definition Task : Type := Z.

(** ** Queues *)
Record TaskQueue := mkQueue {
  lockable_ : bool;
  lockThread_ : Z;
  tasks_ : list Task;
}.

Definition new_TaskQueue (lockable : bool) : TaskQueue := mkQueue lockable 0 [].

Definition PutTask (q : TaskQueue) (t : Task) : TaskQueue :=
  mkQueue (lockable_ q) (lockThread_ q) (tasks_ q ++ [t]).

Definition ReleaseLock (this : Z) (q : TaskQueue) : TaskQueue :=
  if negb (lockable_ q) then q
  else if lockThread_ q =? this then mkQueue (lockable_ q) 0 (tasks_ q) else q.

(** The first task, if the calling thread has the queue or can take it. *)
Definition GetTaskAutoLock (this : Z) (q : TaskQueue) : option Task * TaskQueue :=
  let take (q : TaskQueue) :=
    match tasks_ q with
    | [] => (None, ReleaseLock this q)
    | t :: ts => (Some t, mkQueue (lockable_ q) (lockThread_ q) ts)
    end in
  if lockable_ q then
    if negb (lockThread_ q =? this) then
      if lockThread_ q =? 0 then take (mkQueue (lockable_ q) this (tasks_ q)) else (None, q)
    else take q
  else take q.

Definition IsEmptyAndUnlocked (q : TaskQueue) : bool :=
  if lockable_ q && negb (lockThread_ q =? 0) then false else bool_decide (tasks_ q = []).

(** ** The pool *)
Record TaskPool := mkTaskPool {
  genericTasks_ : TaskQueue;
  queuedTasks_ : list (string * TaskQueue);
  genericTaskCount_ : Z;
  queuedTaskCount_ : Z;
  isStarted_ : bool;
  isStopping_ : bool;
  isGenericThreadIdle_ : bool;
  genericThread_ : Z;
  maxThreads_ : Z;
  minThreads_ : Z;
  curThreads_ : Z;
  idleThreads_ : Z;
}.

Inductive effect :=
| NotifyOne
| NotifyAll
| NotifyExited
| Spawn.

Definition new_TaskPool (maxThreads minThreads : Z) : TaskPool :=
  mkTaskPool (new_TaskQueue false) [] 0 0 false false false 0 maxThreads minThreads 0 0.

Definition set_queues (p : TaskPool) (g : TaskQueue) (m : list (string * TaskQueue)) : TaskPool :=
  mkTaskPool g m (genericTaskCount_ p) (queuedTaskCount_ p) (isStarted_ p) (isStopping_ p)
    (isGenericThreadIdle_ p) (genericThread_ p) (maxThreads_ p) (minThreads_ p) (curThreads_ p)
    (idleThreads_ p).
Definition set_counts (p : TaskPool) (generic queued : Z) : TaskPool :=
  mkTaskPool (genericTasks_ p) (queuedTasks_ p) generic queued (isStarted_ p) (isStopping_ p)
    (isGenericThreadIdle_ p) (genericThread_ p) (maxThreads_ p) (minThreads_ p) (curThreads_ p)
    (idleThreads_ p).
Definition set_started (p : TaskPool) (started stopping : bool) : TaskPool :=
  mkTaskPool (genericTasks_ p) (queuedTasks_ p) (genericTaskCount_ p) (queuedTaskCount_ p)
    started stopping (isGenericThreadIdle_ p) (genericThread_ p) (maxThreads_ p) (minThreads_ p)
    (curThreads_ p) (idleThreads_ p).
Definition set_generic (p : TaskPool) (idle : bool) (thread : Z) : TaskPool :=
  mkTaskPool (genericTasks_ p) (queuedTasks_ p) (genericTaskCount_ p) (queuedTaskCount_ p)
    (isStarted_ p) (isStopping_ p) idle thread (maxThreads_ p) (minThreads_ p) (curThreads_ p)
    (idleThreads_ p).
Definition set_threads (p : TaskPool) (cur idle : Z) : TaskPool :=
  mkTaskPool (genericTasks_ p) (queuedTasks_ p) (genericTaskCount_ p) (queuedTaskCount_ p)
    (isStarted_ p) (isStopping_ p) (isGenericThreadIdle_ p) (genericThread_ p) (maxThreads_ p)
    (minThreads_ p) cur idle.

Definition IsGenericWorker (this : Z) (p : TaskPool) : bool := genericThread_ p =? this.

(** The loop of [SpawnThreads] creates the threads that are missing. *)
Definition SpawnThreads (isStart : bool) (p : TaskPool) : Z * TaskPool * list effect :=
  if negb (isStarted_ p) then (E_NOT_PERMIT, p, [])
  else if curThreads_ p >=? maxThreads_ p then (E_OK, p, [])
  else
    let limits := if isStart then minThreads_ p else curThreads_ p + 1 in
    (E_OK, set_threads p (Z.max (curThreads_ p) limits) (idleThreads_ p),
     replicate (Z.to_nat (limits - curThreads_ p)) Spawn).

Definition Start (p : TaskPool) : Z * TaskPool * list effect :=
  if maxThreads_ p <? minThreads_ p then (E_INVALID_ARGS, p, [])
  else if maxThreads_ p <=? 0 then (E_INVALID_ARGS, p, [])
  else if minThreads_ p <? 0 then (E_INVALID_ARGS, p, [])
  else
    let '(_, p, es) := SpawnThreads true (set_started p true false) in
    (E_OK, p, es).

(** [Stop] up to the wait for the threads; [Stopped] is what follows the wait. *)
Definition Stop (p : TaskPool) : TaskPool * list effect :=
  if negb (isStarted_ p) then (p, []) else (set_started p (isStarted_ p) true, [NotifyAll]).
Definition Stopped (p : TaskPool) : TaskPool := set_started p false (isStopping_ p).

Definition TryToSpawnThreads (p : TaskPool) : TaskPool * list effect :=
  if (curThreads_ p >=? maxThreads_ p) || (curThreads_ p >=? queuedTaskCount_ p + genericTaskCount_ p)
  then (p, [])
  else let '(_, p, es) := SpawnThreads false p in (p, es).

Definition INT_MAX : Z := 2147483647.

Definition ScheduleGeneric (t : Task) (p : TaskPool) : Z * TaskPool * list effect :=
  if negb (isStarted_ p) then (E_NOT_PERMIT, p, [])
  else if isStopping_ p then (E_STALE, p, [])
  else if genericTaskCount_ p =? INT_MAX then (E_ERROR, p, [])
  else
    let p := set_queues p (PutTask (genericTasks_ p) t) (queuedTasks_ p) in
    let p := set_counts p (genericTaskCount_ p + 1) (queuedTaskCount_ p) in
    let '(p, es) := TryToSpawnThreads p in
    (E_OK, p, NotifyOne :: es).

(** The queue of a tag; [operator[]] creates it. *)
Definition queue_of (tag : string) (p : TaskPool) : TaskQueue :=
  default (new_TaskQueue true) (sm_find tag (queuedTasks_ p)).

Definition Schedule (queueTag : string) (t : Task) (p : TaskPool) : Z * TaskPool * list effect :=
  if negb (isStarted_ p) then (E_NOT_PERMIT, p, [])
  else if isStopping_ p then (E_STALE, p, [])
  else if queuedTaskCount_ p =? INT_MAX then (E_ERROR, p, [])
  else
    let q := PutTask (queue_of queueTag p) t in
    let p := set_queues p (genericTasks_ p) (sm_set queueTag q (queuedTasks_ p)) in
    let p := set_counts p (genericTaskCount_ p) (queuedTaskCount_ p + 1) in
    let '(p, es) := TryToSpawnThreads p in
    (E_OK, p, NotifyAll :: es).

Definition ShrinkMemory (tag : string) (p : TaskPool) : TaskPool :=
  match sm_find tag (queuedTasks_ p) with
  | Some q =>
      if IsEmptyAndUnlocked q
      then set_queues p (genericTasks_ p) (sm_erase tag (queuedTasks_ p)) else p
  | None => p
  end.

Definition SetThreadFree (this : Z) (p : TaskPool) : TaskPool :=
  set_queues p (genericTasks_ p)
    ((fun kv => (fst kv, ReleaseLock this (snd kv))) <$> queuedTasks_ p).

(** The loop over the queues: the first that gives a task. *)
Fixpoint reap_queues (this : Z) (m : list (string * TaskQueue))
    : option (Task * string) * list (string * TaskQueue) :=
  match m with
  | [] => (None, [])
  | (tag, q) :: m =>
      let '(task, q) := GetTaskAutoLock this q in
      match task with
      | Some t => (Some (t, tag), (tag, q) :: m)
      | None => let '(r, m) := reap_queues this m in (r, (tag, q) :: m)
      end
  end.

(** The task with its queue, none for a generic task. *)
Definition ReapTask (this : Z) (p : TaskPool) : option (Task * option string) * TaskPool :=
  let '(task, g) := GetTaskAutoLock this (genericTasks_ p) in
  let p := set_queues p g (queuedTasks_ p) in
  match task with
  | Some t => (Some (t, None), p)
  | None =>
      if IsGenericWorker this p && (curThreads_ p >? 1) then (None, SetThreadFree this p)
      else
        let '(r, m) := reap_queues this (queuedTasks_ p) in
        ((fun x => (fst x, Some (snd x))) <$> r, set_queues p (genericTasks_ p) m)
  end.

(** What a thread that looked for a task does next. *)
Inductive next :=
| Run (t : Task) (queue : option string)
| Exit
| Wait (timed : bool).

(** One round of [GetTask], up to the wait in [IdleExit]. *)
Definition look (this : Z) (p : TaskPool) : next * TaskPool * list effect :=
  match ReapTask this p with
  | (Some (t, queue), p) => (Run t queue, p, [])
  | (None, p) =>
      if isStopping_ p then (Exit, p, [])
      else
        let p := set_threads p (curThreads_ p) (idleThreads_ p + 1) in
        let isGenericWorker := IsGenericWorker this p in
        if negb isGenericWorker && (curThreads_ p >? minThreads_ p) then (Wait true, p, [])
        else if isGenericWorker then (Wait false, set_generic p true (genericThread_ p), [NotifyAll])
        else (Wait false, p, [])
  end.

(** The wait of [IdleExit] is over: leave, or look again. *)
Definition woken (this : Z) (timed timeout : bool) (p : TaskPool) : next * TaskPool * list effect :=
  if timed then
    if timeout && (genericTaskCount_ p <=? 0)
    then (Exit, set_threads p (curThreads_ p) (idleThreads_ p - 1), [])
    else look this (set_threads p (curThreads_ p) (idleThreads_ p - 1))
  else
    let p := if IsGenericWorker this p then set_generic p false (genericThread_ p) else p in
    look this (set_threads p (curThreads_ p) (idleThreads_ p - 1)).

Definition BecomeGenericWorker (this : Z) (p : TaskPool) : TaskPool :=
  if genericThread_ p =? 0 then set_generic p (isGenericThreadIdle_ p) this else p.

Definition ExitGenericWorker (this : Z) (p : TaskPool) : TaskPool * list effect :=
  let p := if IsGenericWorker this p then set_generic p (isGenericThreadIdle_ p) 0 else p in
  (set_threads p (curThreads_ p - 1) (idleThreads_ p), [NotifyExited]).

(** The queue of a task that was running is still in the map. *)
Definition FinishExecuteTask (this : Z) (queue : option string) (p : TaskPool) : outcome TaskPool :=
  match queue with
  | Some tag =>
      match sm_find tag (queuedTasks_ p) with
      | Some q =>
          let p := set_queues p (genericTasks_ p)
                     (sm_set tag (ReleaseLock this q) (queuedTasks_ p)) in
          Ok (set_counts p (genericTaskCount_ p) (queuedTaskCount_ p - 1))
      | None => Undefined
      end
  | None => Ok (set_counts p (genericTaskCount_ p - 1) (queuedTaskCount_ p))
  end.

(** * The threads of the task pool

    All interleavings of the critical sections: the tasks of one tag are started in
    the order in which they were scheduled and never overlap. *)

(** ** The transition system *)
Inductive thread :=
| TSpawned
| TLooking
| TWaiting (timed notified : bool)
| TRunning (t : Task) (queue : option string)
| TExiting.

(** The pool, its threads, and the queued tasks accepted and started so far. *)
Record Sys := mkSys {
  pool : TaskPool;
  threads : gmap Z thread;
  scheduled : list (string * Task);
  started : list (string * Task);
}.

Definition notify (s : thread) : thread :=
  match s with TWaiting timed _ => TWaiting timed true | s => s end.

Inductive effects : list effect -> gmap Z thread -> gmap Z thread -> Prop :=
| effects_nil th : effects [] th th
| effects_all th th' es : effects es (notify <$> th) th' -> effects (NotifyAll :: es) th th'
| effects_one th th' es i s :
    th !! i = Some s -> effects es (<[i := notify s]> th) th' -> effects (NotifyOne :: es) th th'
| effects_none th th' es : effects es th th' -> effects (NotifyOne :: es) th th'
| effects_exited th th' es : effects es th th' -> effects (NotifyExited :: es) th th'
| effects_spawn th th' es i :
    0 < i -> th !! i = None -> effects es (<[i := TSpawned]> th) th' -> effects (Spawn :: es) th th'.

Definition state_after (n : next) : thread :=
  match n with Run t queue => TRunning t queue | Exit => TExiting | Wait timed => TWaiting timed false end.

Definition log_start (n : next) (l : list (string * Task)) : list (string * Task) :=
  match n with Run t (Some tag) => l ++ [(tag, t)] | _ => l end.

(** A wait ends when it is notified, when its time is over, or for no reason. *)
Inductive step (s : Sys) : Sys -> Prop :=
| StepStart code p es th :
    Start (pool s) = (code, p, es) -> effects es (threads s) th ->
    step s (mkSys p th (scheduled s) (started s))
| StepStop p es th :
    Stop (pool s) = (p, es) -> effects es (threads s) th ->
    step s (mkSys p th (scheduled s) (started s))
| StepStopped :
    curThreads_ (pool s) <= 0 ->
    step s (mkSys (Stopped (pool s)) (threads s) (scheduled s) (started s))
| StepSchedule tag t code p es th :
    Schedule tag t (pool s) = (code, p, es) -> effects es (threads s) th ->
    step s (mkSys p th (if code =? E_OK then scheduled s ++ [(tag, t)] else scheduled s) (started s))
| StepScheduleGeneric t code p es th :
    ScheduleGeneric t (pool s) = (code, p, es) -> effects es (threads s) th ->
    step s (mkSys p th (scheduled s) (started s))
| StepShrink tag :
    step s (mkSys (ShrinkMemory tag (pool s)) (threads s) (scheduled s) (started s))
| StepBecome i :
    threads s !! i = Some TSpawned ->
    step s (mkSys (BecomeGenericWorker i (pool s)) (<[i := TLooking]> (threads s)) (scheduled s)
              (started s))
| StepLook i n p es th :
    threads s !! i = Some TLooking -> look i (pool s) = (n, p, es) ->
    effects es (threads s) th ->
    step s (mkSys p (<[i := state_after n]> th) (scheduled s) (log_start n (started s)))
| StepWake i timed notified timeout n p es th :
    threads s !! i = Some (TWaiting timed notified) -> (timeout = true -> timed = true) ->
    woken i timed timeout (pool s) = (n, p, es) -> effects es (threads s) th ->
    step s (mkSys p (<[i := state_after n]> th) (scheduled s) (log_start n (started s)))
| StepFinish i t queue p :
    threads s !! i = Some (TRunning t queue) -> FinishExecuteTask i queue (pool s) = Ok p ->
    step s (mkSys p (<[i := TLooking]> (threads s)) (scheduled s) (started s))
| StepExit i p es th :
    threads s !! i = Some TExiting -> ExitGenericWorker i (pool s) = (p, es) ->
    effects es (delete i (threads s)) th ->
    step s (mkSys p th (scheduled s) (started s)).

Definition new_Sys (maxThreads minThreads : Z) : Sys :=
  mkSys (new_TaskPool maxThreads minThreads) ∅ [] [].

Inductive reachable (maxThreads minThreads : Z) : Sys -> Prop :=
| reachable_new : reachable maxThreads minThreads (new_Sys maxThreads minThreads)
| reachable_step s s' :
    reachable maxThreads minThreads s -> step s s' -> reachable maxThreads minThreads s'.

(** The tasks of a tag in a log. *)
Definition of_tag (tag : string) (l : list (string * Task)) : list Task :=
  omap (fun x => if decide (fst x = tag) then Some (snd x) else None) l.

Lemma of_tag_app tag l1 l2 : of_tag tag (l1 ++ l2) = of_tag tag l1 ++ of_tag tag l2.
Proof. apply omap_app. Qed.

(** ** Queues *)
Lemma GetTask_free this q :
  lockable_ q = true -> lockThread_ q <> this -> this <> 0 ->
  GetTaskAutoLock this q =
    if negb (lockThread_ q =? 0) then (None, q)
    else match tasks_ q with
         | [] => (None, q)
         | t :: ts => (Some t, mkQueue true this ts)
         end.
Proof.
  intros Hl Hn H0. unfold GetTaskAutoLock. rewrite Hl, (proj2 (Z.eqb_neq _ _) Hn). cbn [negb].
  destruct (lockThread_ q =? 0) eqn:E; [|done]. to_prop. cbn [negb tasks_ lockable_ lockThread_].
  destruct (tasks_ q) as [|t ts] eqn:Et; [|done]. unfold ReleaseLock. cbn. rewrite Z.eqb_refl.
  destruct q; cbn in *. by subst.
Qed.

Lemma ReleaseLock_other this q : lockThread_ q <> this -> ReleaseLock this q = q.
Proof.
  intros Hn. unfold ReleaseLock. rewrite (proj2 (Z.eqb_neq _ _) Hn). by destruct (negb _).
Qed.

(** No queue is locked by the thread. *)
Definition lock_free (this : Z) (m : list (string * TaskQueue)) : Prop :=
  Forall (fun kv => lockable_ (snd kv) = true /\ lockThread_ (snd kv) <> this) m.

Lemma reap_queues_spec this m :
  sm_sorted m -> lock_free this m -> this <> 0 ->
  reap_queues this m = (None, m) \/
  exists t ts tag q, sm_find tag m = Some q /\ lockThread_ q = 0 /\ tasks_ q = t :: ts /\
    reap_queues this m = (Some (t, tag), sm_set tag (mkQueue true this ts) m).
Proof.
  intros Hs Hf H0. induction Hs as [|[k q] m Hs IH Hk]; [by left|].
  apply Forall_cons in Hf as [[Hl Hn] Hf]. cbn [snd] in *. cbn [reap_queues].
  rewrite GetTask_free by done.
  assert (Hrest : (let '(r, m') := reap_queues this m in (r, (k, q) :: m')) =
      (None, (k, q) :: m) \/
    exists t ts tag q', sm_find tag ((k, q) :: m) = Some q' /\ lockThread_ q' = 0 /\
      tasks_ q' = t :: ts /\
      (let '(r, m') := reap_queues this m in (r, (k, q) :: m')) =
      (Some (t, tag), sm_set tag (mkQueue true this ts) ((k, q) :: m))).
  { destruct (IH Hf) as [->|(t & ts & tag & q' & Hfind & Hq & Ht & ->)]; [by left|right].
    pose proof (sm_find_Forall _ _ _ _ Hk Hfind) as Hlt. cbn [fst] in Hlt.
    assert (tag <> k) by (intros ->; by apply key_lt_irrefl in Hlt).
    exists t, ts, tag, q'. cbn [sm_find sm_set]. rewrite decide_False by done.
    by rewrite (proj2 (compare_gt _ _) Hlt). }
  destruct (lockThread_ q =? 0) eqn:E; cbn [negb]; [|done]. to_prop.
  destruct (tasks_ q) as [|t ts] eqn:Et; [done|]. right. exists t, ts, k, q.
  cbn [sm_find sm_set]. by rewrite decide_True, compare_refl.
Qed.

(** ** Invariants *)
Definition queues := list (string * TaskQueue).

(** A locked queue is locked by the thread that runs one of its tasks. *)
Record locks_ok (m : queues) (th : gmap Z thread) : Prop := {
  lo_sorted : sm_sorted m;
  lo_locks : forall tag q, sm_find tag m = Some q ->
    lockable_ q = true /\
    (lockThread_ q = 0 \/ exists t, th !! lockThread_ q = Some (TRunning t (Some tag)));
  lo_runs : forall i t tag, th !! i = Some (TRunning t (Some tag)) ->
    exists q, sm_find tag m = Some q /\ lockThread_ q = i;
  lo_ids : forall i st, th !! i = Some st -> 0 < i;
}.

Definition queue_in (tag : string) (m : queues) : TaskQueue :=
  default (new_TaskQueue true) (sm_find tag m).

Definition fifo (m : queues) (sched start : list (string * Task)) : Prop :=
  forall tag, of_tag tag start ++ tasks_ (queue_in tag m) = of_tag tag sched.

Definition idle_state (st : thread) : Prop :=
  match st with TRunning _ (Some _) => False | _ => True end.

(** What effects leave alone. *)
Record similar (n : Z) (th th' : gmap Z thread) : Prop := {
  si_runs : forall i t q, th' !! i = Some (TRunning t q) <-> th !! i = Some (TRunning t q);
  si_ids : (forall i st, th !! i = Some st -> 0 < i) -> forall i st, th' !! i = Some st -> 0 < i;
  si_size : Z.of_nat (size th') = Z.of_nat (size th) + n;
  si_in : forall i, is_Some (th !! i) -> is_Some (th' !! i);
}.

Lemma similar_refl th : similar 0 th th.
Proof. split; try done. lia. Qed.

Lemma similar_trans n1 n2 th1 th2 th3 :
  similar n1 th1 th2 -> similar n2 th2 th3 -> similar (n1 + n2) th1 th3.
Proof.
  intros [A1 A2 A3 A4] [B1 B2 B3 B4]. split; [|intros Hids; apply B2, A2, Hids|lia|intros i Hi; by apply B4, A4].
  intros i t q. by rewrite B1, A1.
Qed.

Lemma notify_running st t q : notify st = TRunning t q <-> st = TRunning t q.
Proof. by destruct st. Qed.

Fixpoint spawns (es : list effect) : Z :=
  match es with [] => 0 | Spawn :: es => 1 + spawns es | _ :: es => spawns es end.

Lemma effects_similar es th th' : effects es th th' -> similar (spawns es) th th'.
Proof.
  induction 1 as [th|th th' es _ IH|th th' es i s Hi _ IH|th th' es _ IH|th th' es _ IH|th th' es i H0 Hi _ IH];
    cbn [spawns]; [apply similar_refl| |  |done|done|].
  - apply (similar_trans 0 _ _ (notify <$> th)); [|done]. split; [| |rewrite map_size_fmap; lia|].
    + intros i t q. rewrite lookup_fmap, fmap_Some. setoid_rewrite (eq_comm (TRunning t q)).
      setoid_rewrite notify_running. naive_solver.
    + intros Hids i st. rewrite lookup_fmap, fmap_Some. naive_solver.
    + intros i. by rewrite lookup_fmap, fmap_is_Some.
  - apply (similar_trans 0 _ _ (<[i := notify s]> th)); [|done]. split.
    + intros j t q. destruct (decide (i = j)) as [<-|Hj].
      * rewrite lookup_insert_eq, Hi. split; intros [= E]; [|by rewrite E]; f_equal; by apply notify_running.
      * by rewrite lookup_insert_ne.
    + intros Hids j st. rewrite lookup_insert_Some. naive_solver.
    + rewrite map_size_insert_Some by eauto. lia.
    + intros j Hj. apply lookup_insert_is_Some'. by right.
  - apply (similar_trans 1 _ _ (<[i := TSpawned]> th)); [|done]. split.
    + intros j t q. destruct (decide (i = j)) as [<-|Hj]; [|by rewrite lookup_insert_ne].
      by rewrite lookup_insert_eq, Hi.
    + intros Hids j st. rewrite lookup_insert_Some. naive_solver.
    + rewrite map_size_insert_None by done. lia.
    + intros j Hj. apply lookup_insert_is_Some'. by right.
Qed.

(** ** Locks *)
Definition not_running (th : gmap Z thread) (i : Z) : Prop :=
  forall t tag, th !! i <> Some (TRunning t (Some tag)).

Lemma locks_similar n m th th' : similar n th th' -> locks_ok m th -> locks_ok m th'.
Proof.
  intros Hs [L1 L2 L3 L4]. split; [done| | |by apply Hs].
  - intros tag q Hq. destruct (L2 tag q Hq) as [Hl [H0|[t Ht]]]; (split; [done|]); [by left|right].
    exists t. by apply Hs.
  - intros i t tag Hi. apply (L3 i t). by apply Hs in Hi.
Qed.

Lemma locks_idle m th i st :
  locks_ok m th -> not_running th i -> idle_state st -> 0 < i -> locks_ok m (<[i := st]> th).
Proof.
  intros [L1 L2 L3 L4] Hn Hi H0. split; [done| | |].
  - intros tag q Hq. destruct (L2 tag q Hq) as [Hl [E|[t Ht]]]; (split; [done|]); [by left|right].
    exists t. rewrite lookup_insert_ne; [done|]. intros ->. by apply Hn in Ht.
  - intros j t tag. rewrite lookup_insert_Some. intros [[<- ->]|[_ Hj]]; [done|by eapply L3].
  - intros j st'. rewrite lookup_insert_Some. intros [[<- _]|[_ Hj]]; [done|by eapply L4].
Qed.

Lemma locks_free m th i : locks_ok m th -> not_running th i -> 0 < i -> lock_free i m.
Proof.
  intros [L1 L2 L3 L4] Hn H0. apply Forall_forall. intros [tag q] Hin. cbn [snd].
  destruct (L2 tag q) as [Hl Hlock]; [by apply elem_of_sm_find|]. split; [done|].
  destruct Hlock as [->|[t Ht]]; [lia|]. intros <-. by apply Hn in Ht.
Qed.

(** Replacing a queue by one with another lock. *)
Lemma locks_set m th tag q q' th' :
  locks_ok m th -> sm_find tag m = Some q -> lockable_ q' = true ->
  (forall i st, th' !! i = Some st -> 0 < i) ->
  (forall i t tag', tag' <> tag ->
    th' !! i = Some (TRunning t (Some tag')) <-> th !! i = Some (TRunning t (Some tag'))) ->
  (lockThread_ q' = 0 \/ exists t, th' !! lockThread_ q' = Some (TRunning t (Some tag))) ->
  (forall i t, th' !! i = Some (TRunning t (Some tag)) -> lockThread_ q' = i) ->
  locks_ok (sm_set tag q' m) th'.
Proof.
  intros [L1 L2 L3 L4] Hq Hl Hids Hoth Hlock Hrun. split; [by apply sm_set_sorted| | |done].
  - intros tag' q0. rewrite sm_find_set by done. case_decide as E; intros Hq'; [by simplify_eq|].
    destruct (L2 tag' q0 Hq') as [Hl0 [E0|[t Ht]]]; (split; [done|]); [by left|right]. exists t. by apply Hoth.
  - intros i t tag' Hi. rewrite sm_find_set by done. case_decide as E.
    + subst. exists q'. split; [done|]. by eapply Hrun.
    + apply (L3 i t). by apply Hoth.
Qed.

Lemma locks_take m th i t tag ts q :
  locks_ok m th -> not_running th i -> 0 < i -> sm_find tag m = Some q -> lockThread_ q = 0 ->
  locks_ok (sm_set tag (mkQueue true i ts) m) (<[i := TRunning t (Some tag)]> th).
Proof.
  intros HL Hn H0 Hq Hlock. apply (locks_set m th tag q); [done|done|done| | | |].
  - intros j st. rewrite lookup_insert_Some. intros [[<- _]|[_ Hj]]; [done|by eapply lo_ids].
  - intros j t' tag' Hne. rewrite lookup_insert_Some. split; [naive_solver|].
    intros Hj. right. split; [|done]. intros ->. by apply Hn in Hj.
  - right. exists t. apply lookup_insert_eq.
  - intros j t'. rewrite lookup_insert_Some. intros [[<- _]|[_ Hj]]; [done|]. exfalso.
    destruct (lo_runs _ _ HL _ _ _ Hj) as (q' & Hq' & <-). rewrite Hq in Hq'. simplify_eq.
    pose proof (lo_ids _ _ HL _ _ Hj). lia.
Qed.

Lemma locks_release m th i t tag q st :
  locks_ok m th -> th !! i = Some (TRunning t (Some tag)) -> sm_find tag m = Some q ->
  idle_state st -> locks_ok (sm_set tag (ReleaseLock i q) m) (<[i := st]> th).
Proof.
  intros HL Hi Hq Hst. pose proof (lo_ids _ _ HL _ _ Hi) as H0.
  destruct (lo_runs _ _ HL _ _ _ Hi) as (q' & Hq' & Hlock). rewrite Hq in Hq'. simplify_eq.
  destruct (lo_locks _ _ HL _ _ Hq) as [Hl _]. unfold ReleaseLock. rewrite Hl, Z.eqb_refl. cbn [negb].
  apply (locks_set m th tag q'); [done|done|done| | |by left|].
  - intros j s. rewrite lookup_insert_Some. intros [[<- _]|[_ Hj]]; [done|by eapply lo_ids].
  - intros j t' tag' Hne. rewrite lookup_insert_Some. split; [intros [[_ ->]|[_ ?]]; done|].
    intros Hj. right. split; [|done]. intros <-. rewrite Hi in Hj. by simplify_eq.
  - intros j t'. rewrite lookup_insert_Some. intros [[_ ->]|[Hne Hj]]; [done|].
    destruct (lo_runs _ _ HL _ _ _ Hj) as (q2 & Hq2 & <-). rewrite Hq in Hq2. by simplify_eq.
Qed.

Lemma locks_put m th tag t :
  locks_ok m th -> locks_ok (sm_set tag (PutTask (queue_in tag m) t) m) th.
Proof.
  intros HL. unfold queue_in. destruct (sm_find tag m) as [q|] eqn:Hq; cbn [default].
  - destruct (lo_locks _ _ HL _ _ Hq) as [Hl Hlock].
    apply (locks_set m th tag q); [done|done|done|apply HL|done|done|].
    intros i t' Hi. destruct (lo_runs _ _ HL _ _ _ Hi) as (q' & Hq' & <-). by simplify_eq.
  - destruct HL as [L1 L2 L3 L4]. split; [by apply sm_set_sorted| | |done].
    + intros tag' q. rewrite sm_find_set by done. case_decide as E; [|by apply L2].
      intros ?; simplify_eq. by split; [|left].
    + intros i t' tag' Hi. destruct (L3 i t' tag' Hi) as (q' & Hq' & Hl'). exists q'.
      rewrite sm_find_set by done. rewrite decide_False; [done|]. intros ->. by simplify_eq.
Qed.

Lemma locks_erase m th tag q :
  locks_ok m th -> sm_find tag m = Some q -> IsEmptyAndUnlocked q = true ->
  locks_ok (sm_erase tag m) th.
Proof.
  intros HL Hq He. destruct (lo_locks _ _ HL _ _ Hq) as [Hl _]. unfold IsEmptyAndUnlocked in He.
  rewrite Hl in He. cbn [andb] in He. destruct (lockThread_ q =? 0) eqn:E0; [|done]. to_prop.
  split; [apply sm_erase_sorted, HL| | |apply HL].
  - intros tag' q'. rewrite sm_find_erase. case_decide; [done|]. apply HL.
  - intros i t tag' Hi. destruct (lo_runs _ _ HL _ _ _ Hi) as (q' & Hq' & Hl'). exists q'.
    rewrite sm_find_erase. rewrite decide_False; [done|]. intros ->. rewrite Hq in Hq'. simplify_eq.
    pose proof (lo_ids _ _ HL _ _ Hi). lia.
Qed.

(** ** Order *)
Lemma queue_in_set tag q m tag' :
  sm_sorted m -> queue_in tag' (sm_set tag q m) = if decide (tag' = tag) then q else queue_in tag' m.
Proof. intros Hs. unfold queue_in. rewrite sm_find_set by done. by case_decide. Qed.

Lemma fifo_take m sched start tag q t ts i :
  sm_sorted m -> fifo m sched start -> sm_find tag m = Some q -> tasks_ q = t :: ts ->
  fifo (sm_set tag (mkQueue true i ts) m) sched (start ++ [(tag, t)]).
Proof.
  intros Hs Hf Hq Ht tag'. rewrite queue_in_set, of_tag_app, <- (Hf tag') by done. cbn.
  case_decide as E; [|rewrite decide_False by congruence; by rewrite app_nil_r].
  subst. rewrite decide_True by done. unfold queue_in. rewrite Hq. cbn. rewrite Ht. by rewrite <- app_assoc.
Qed.

Lemma fifo_same_tasks m sched start tag q q' :
  sm_sorted m -> fifo m sched start -> sm_find tag m = Some q -> tasks_ q' = tasks_ q ->
  fifo (sm_set tag q' m) sched start.
Proof.
  intros Hs Hf Hq Ht tag'. rewrite queue_in_set by done. rewrite <- (Hf tag').
  case_decide as E; [|done]. subst. unfold queue_in. by rewrite Hq, Ht.
Qed.

Lemma fifo_put m sched start tag t :
  sm_sorted m -> fifo m sched start ->
  fifo (sm_set tag (PutTask (queue_in tag m) t) m) (sched ++ [(tag, t)]) start.
Proof.
  intros Hs Hf tag'. rewrite queue_in_set, of_tag_app, <- (Hf tag') by done. cbn.
  case_decide as E; [|rewrite decide_False by congruence; by rewrite app_nil_r].
  subst. rewrite decide_True by done. cbn. by rewrite app_assoc.
Qed.

Lemma fifo_erase m sched start tag q :
  fifo m sched start -> sm_find tag m = Some q -> IsEmptyAndUnlocked q = true ->
  fifo (sm_erase tag m) sched start.
Proof.
  intros Hf Hq He tag'. rewrite <- (Hf tag'). unfold queue_in. rewrite sm_find_erase.
  case_decide as E; [|done]. subst. rewrite Hq. cbn. f_equal. unfold IsEmptyAndUnlocked in He.
  case_if_in He; [done|]. by apply bool_decide_eq_true in He.
Qed.

(** ** Critical sections *)

(** What all of them keep of the pool. *)
Definition same_limits (p p' : TaskPool) : Prop :=
  maxThreads_ p' = maxThreads_ p /\ minThreads_ p' = minThreads_ p.

(** A thread looks for a task: it takes the first task of an unlocked queue, or the
    queues stay as they are. *)
Definition look_result (i : Z) (p p' : TaskPool) (n : next) (es : list effect) : Prop :=
  same_limits p p' /\ curThreads_ p' = curThreads_ p /\ spawns es = 0 /\
  ((queuedTasks_ p' = queuedTasks_ p /\ idle_state (state_after n) /\ forall l, log_start n l = l) \/
   exists t ts tag q, sm_find tag (queuedTasks_ p) = Some q /\ lockThread_ q = 0 /\
     tasks_ q = t :: ts /\ n = Run t (Some tag) /\
     queuedTasks_ p' = sm_set tag (mkQueue true i ts) (queuedTasks_ p)).

Lemma SetThreadFree_free i m :
  lock_free i m -> (fun kv : string * TaskQueue => (fst kv, ReleaseLock i (snd kv))) <$> m = m.
Proof.
  induction 1 as [|[tag q] m [_ Hn] _ IH]; [done|]. rewrite fmap_cons, IH. cbn [fst snd] in *.
  by rewrite ReleaseLock_other.
Qed.

Lemma look_spec i p n p' es :
  sm_sorted (queuedTasks_ p) -> lock_free i (queuedTasks_ p) -> 0 < i ->
  look i p = (n, p', es) -> look_result i p p' n es.
Proof.
  intros Hs Hf H0 He. unfold look, ReapTask in He.
  destruct (GetTaskAutoLock i (genericTasks_ p)) as [[t|] g].
  { simplify_eq. split_and!; try done. by left. }
  assert (Hnone : forall p1, queuedTasks_ p1 = queuedTasks_ p -> same_limits p p1 ->
    curThreads_ p1 = curThreads_ p ->
    (if isStopping_ p1 then (Exit, p1, [])
     else
       let p2 := set_threads p1 (curThreads_ p1) (idleThreads_ p1 + 1) in
       let isGenericWorker := IsGenericWorker i p2 in
       if negb isGenericWorker && (curThreads_ p2 >? minThreads_ p2) then (Wait true, p2, [])
       else if isGenericWorker then (Wait false, set_generic p2 true (genericThread_ p2), [NotifyAll])
       else (Wait false, p2, [])) = (n, p', es) -> look_result i p p' n es).
  { intros p1 Hq Hlim Hc E. cbv zeta in E.
    repeat (case_if_in E); simplify_eq; (split_and!; [done|done|done|by left]). }
  destruct (IsGenericWorker i _ && _).
  - apply (Hnone (SetThreadFree i (set_queues p g (queuedTasks_ p)))); try done.
    cbn. by apply SetThreadFree_free.
  - cbn [queuedTasks_ set_queues] in He.
    destruct (reap_queues_spec i (queuedTasks_ p) Hs Hf) as [E|(t & ts & tag & q & H1 & H2 & H3 & E)];
      [lia| |]; rewrite E in He; cbn in He.
    + by apply (Hnone (set_queues (set_queues p g (queuedTasks_ p)) g (queuedTasks_ p))).
    + simplify_eq. split_and!; try done. right. by exists t, ts, tag, q.
Qed.

Lemma woken_spec i timed timeout p n p' es :
  sm_sorted (queuedTasks_ p) -> lock_free i (queuedTasks_ p) -> 0 < i ->
  woken i timed timeout p = (n, p', es) -> look_result i p p' n es.
Proof.
  intros Hs Hf H0 He. unfold woken in He.
  assert (Hlook : forall p1, queuedTasks_ p1 = queuedTasks_ p -> same_limits p p1 ->
    curThreads_ p1 = curThreads_ p -> look i p1 = (n, p', es) -> look_result i p p' n es).
  { intros p1 Hq [Hl1 Hl2] Hc E. apply look_spec in E as ((A1 & A2) & A3 & A4 & A5);
      [|by rewrite Hq|by rewrite Hq|done].
    rewrite Hq in A5. split_and!; try done; [split; congruence|congruence]. }
  destruct timed.
  - case_if_in He; [simplify_eq; split_and!; try done; by left|]. by eapply Hlook; [..|exact He].
  - destruct (IsGenericWorker i p); by eapply Hlook; [..|exact He].
Qed.

Lemma spawns_replicate n : spawns (replicate n Spawn) = Z.of_nat n.
Proof. induction n as [|n IH]; [done|]. cbn [replicate spawns]. lia. Qed.

(** A critical section of a client that leaves the queues [m]. *)
Definition grows (p p' : TaskPool) (m : queues) (es : list effect) : Prop :=
  same_limits p p' /\ queuedTasks_ p' = m /\ curThreads_ p' = curThreads_ p + spawns es /\
  (minThreads_ p <= maxThreads_ p -> curThreads_ p <= maxThreads_ p ->
   curThreads_ p' <= maxThreads_ p).

Lemma SpawnThreads_grows b p code p' es :
  SpawnThreads b p = (code, p', es) -> grows p p' (queuedTasks_ p) es.
Proof.
  unfold SpawnThreads. intros He. case_if_in He; [simplify_eq; split_and!; try done; cbn; lia|].
  case_if_in He; simplify_eq; [split_and!; try done; cbn; lia|]. to_prop.
  split_and!; try done; cbn; [rewrite spawns_replicate; lia|]. destruct b; lia.
Qed.

Lemma Start_grows p code p' es :
  Start p = (code, p', es) -> grows p p' (queuedTasks_ p) es.
Proof.
  unfold Start. intros He.
  repeat (case_if_in He; [simplify_eq; split_and!; try done; cbn; lia|]).
  destruct (SpawnThreads true _) as [[c p1] es1] eqn:Es. simplify_eq.
  by apply SpawnThreads_grows in Es.
Qed.

Lemma TryToSpawn_grows p p' es :
  TryToSpawnThreads p = (p', es) -> grows p p' (queuedTasks_ p) es.
Proof.
  unfold TryToSpawnThreads. intros He. case_if_in He; [simplify_eq; split_and!; try done; cbn; lia|].
  destruct (SpawnThreads false p) as [[c p1] es1] eqn:Es. simplify_eq.
  by apply SpawnThreads_grows in Es.
Qed.

Lemma Schedule_grows tag t p code p' es :
  Schedule tag t p = (code, p', es) ->
  grows p p' (if code =? E_OK then sm_set tag (PutTask (queue_in tag (queuedTasks_ p)) t) (queuedTasks_ p)
              else queuedTasks_ p) es.
Proof.
  unfold Schedule. intros He.
  repeat (case_if_in He; [simplify_eq; cbn; split_and!; try done; cbn; lia|]).
  destruct (TryToSpawnThreads _) as [p1 es1] eqn:Es. simplify_eq. cbn [Z.eqb].
  by apply TryToSpawn_grows in Es.
Qed.

Lemma ScheduleGeneric_grows t p code p' es :
  ScheduleGeneric t p = (code, p', es) -> grows p p' (queuedTasks_ p) es.
Proof.
  unfold ScheduleGeneric. intros He.
  repeat (case_if_in He; [simplify_eq; cbn; split_and!; try done; cbn; lia|]).
  destruct (TryToSpawnThreads _) as [p1 es1] eqn:Es. simplify_eq.
  by apply TryToSpawn_grows in Es.
Qed.

Record pool_inv (maxT minT : Z) (s : Sys) : Prop := {
  pv_limits : maxThreads_ (pool s) = maxT /\ minThreads_ (pool s) = minT;
  pv_locks : locks_ok (queuedTasks_ (pool s)) (threads s);
  pv_fifo : fifo (queuedTasks_ (pool s)) (scheduled s) (started s);
  pv_count : curThreads_ (pool s) = Z.of_nat (size (threads s));
  pv_max : curThreads_ (pool s) <= maxT;
}.

Lemma grows_inv maxT minT s p m es th sched :
  minT <= maxT -> pool_inv maxT minT s -> grows (pool s) p m es -> effects es (threads s) th ->
  locks_ok m (threads s) -> fifo m sched (started s) ->
  pool_inv maxT minT (mkSys p th sched (started s)).
Proof.
  intros Hle [[E1 E2] _ _ Hc Hm] ((G1 & G2) & G3 & G4 & G5) He%effects_similar Hl Hf.
  rewrite E1, E2 in *. split; cbn [pool threads scheduled started]; rewrite ?G3; try done.
  - by eapply locks_similar.
  - rewrite G4, Hc, (si_size _ _ _ He). lia.
  - auto.
Qed.

Lemma look_inv maxT minT s i n p es th :
  pool_inv maxT minT s -> not_running (threads s) i -> is_Some (threads s !! i) -> 0 < i ->
  look_result i (pool s) p n es -> effects es (threads s) th ->
  pool_inv maxT minT
    (mkSys p (<[i := state_after n]> th) (scheduled s) (log_start n (started s))).
Proof.
  intros [[E1 E2] HL HF Hc Hm] Hn Hin H0 ((G1 & G2) & G3 & G4 & G5) He%effects_similar.
  rewrite G4 in He. pose proof (locks_similar _ _ _ _ He HL) as HL'.
  assert (Hn' : not_running th i) by (intros t tag Ht; apply He in Ht; by apply Hn in Ht).
  assert (Hsize : Z.of_nat (size (<[i := state_after n]> th)) = Z.of_nat (size (threads s))).
  { rewrite map_size_insert_Some by (by apply He). rewrite (si_size _ _ _ He). lia. }
  split; cbn [pool threads scheduled started]; [split; congruence| | |lia|lia].
  - destruct G5 as [(Hq & Hid & _)|(t & ts & tag & q & Hq & Hl & _ & -> & ->)].
    + rewrite Hq. by apply locks_idle.
    + by eapply locks_take.
  - destruct G5 as [(Hq & _ & Hlog)|(t & ts & tag & q & Hq & Hl & Ht & -> & ->)].
    + by rewrite Hq, Hlog.
    + eapply fifo_take; [apply HL|done..].
Qed.

Lemma become_inv maxT minT s i :
  pool_inv maxT minT s -> threads s !! i = Some TSpawned ->
  pool_inv maxT minT
    (mkSys (BecomeGenericWorker i (pool s)) (<[i := TLooking]> (threads s)) (scheduled s) (started s)).
Proof.
  intros [[E1 E2] HL HF Hc Hm] Hst.
  assert (Hq : queuedTasks_ (BecomeGenericWorker i (pool s)) = queuedTasks_ (pool s) /\
    same_limits (pool s) (BecomeGenericWorker i (pool s)) /\
    curThreads_ (BecomeGenericWorker i (pool s)) = curThreads_ (pool s))
    by (unfold BecomeGenericWorker; by case_if).
  destruct Hq as (Hq & [Hl1 Hl2] & Hcu).
  split; cbn [pool threads scheduled started]; rewrite ?Hq, ?Hcu; [split; congruence| |done| |done].
  - apply locks_idle; [done| |done|by eapply lo_ids]. intros t tag Ht. by simplify_eq.
  - rewrite map_size_insert_Some by eauto. done.
Qed.

Lemma finish_inv maxT minT s i t queue p :
  pool_inv maxT minT s -> threads s !! i = Some (TRunning t queue) ->
  FinishExecuteTask i queue (pool s) = Ok p ->
  pool_inv maxT minT (mkSys p (<[i := TLooking]> (threads s)) (scheduled s) (started s)).
Proof.
  intros [[E1 E2] HL HF Hc Hm] Hst He.
  assert (Hsize : size (<[i := TLooking]> (threads s)) = size (threads s))
    by (by rewrite map_size_insert_Some by eauto).
  unfold FinishExecuteTask in He. destruct queue as [tag|].
  - destruct (sm_find tag (queuedTasks_ (pool s))) as [q|] eqn:Hq; [|done]. simplify_eq.
    split; cbn; rewrite ?Hsize; try done; [by eapply locks_release|].
    eapply fifo_same_tasks; [apply HL|done|done|]. unfold ReleaseLock. by repeat case_if.
  - simplify_eq. split; cbn; rewrite ?Hsize; try done.
    apply locks_idle; [done| |done|by eapply lo_ids]. intros t' tag Ht. by simplify_eq.
Qed.

Lemma exit_inv maxT minT s i p es th :
  pool_inv maxT minT s -> threads s !! i = Some TExiting ->
  ExitGenericWorker i (pool s) = (p, es) -> effects es (delete i (threads s)) th ->
  pool_inv maxT minT (mkSys p th (scheduled s) (started s)).
Proof.
  intros [[E1 E2] HL HF Hc Hm] Hst He Hef. unfold ExitGenericWorker in He. simplify_eq.
  apply effects_similar in Hef. cbn [spawns] in Hef.
  assert (Hsize : Z.of_nat (size th) = Z.of_nat (size (threads s)) - 1).
  { rewrite (si_size _ _ _ Hef), map_size_delete, Hst.
    assert (size (threads s) <> 0%nat); [|lia].
    intros Hs. apply map_size_empty_inv in Hs. by rewrite Hs in Hst. }
  assert (HL' : locks_ok (queuedTasks_ (pool s)) th).
  { eapply locks_similar; [done|]. destruct HL as [L1 L2 L3 L4]. split; [done| | |].
    - intros tag q Hq. destruct (L2 tag q Hq) as [Hl [H0|[t Ht]]]; (split; [done|]); [by left|right].
      exists t. rewrite lookup_delete_ne; [done|]. intros ->. by simplify_eq.
    - intros j t tag. rewrite lookup_delete_Some. intros [_ Hj]. by eapply L3.
    - intros j st. rewrite lookup_delete_Some. intros [_ Hj]. by eapply L4. }
  split; cbn [pool threads scheduled started]; case_if; try done; cbn; lia.
Qed.

Lemma looking_inv maxT minT s i st n p es th :
  pool_inv maxT minT s -> threads s !! i = Some st -> idle_state st ->
  (sm_sorted (queuedTasks_ (pool s)) -> lock_free i (queuedTasks_ (pool s)) -> 0 < i ->
   look_result i (pool s) p n es) ->
  effects es (threads s) th ->
  pool_inv maxT minT
    (mkSys p (<[i := state_after n]> th) (scheduled s) (log_start n (started s))).
Proof.
  intros Hi Hst Hid Hlook Hef. destruct (pv_locks _ _ _ Hi) as [L1 L2 L3 L4].
  assert (H0 : 0 < i) by (by eapply L4).
  assert (Hn : not_running (threads s) i) by (intros t tag Ht; by simplify_eq).
  eapply look_inv; [done|done|by eauto|done| |done].
  apply Hlook; [done| |done]. eapply locks_free; [by apply Hi|done|done].
Qed.

Lemma step_inv maxT minT s s' :
  minT <= maxT -> pool_inv maxT minT s -> step s s' -> pool_inv maxT minT s'.
Proof.
  intros Hle Hi Hst. pose proof Hi as [[E1 E2] HL HF Hc Hm].
  destruct Hst as [code p es th He Hef|p es th He Hef|Hcur|tag t code p es th He Hef
    |t code p es th He Hef|tag|i Hst|i n p es th Hst He Hef|i timed notified timeout n p es th Hst _ He Hef
    |i t queue p Hst He|i p es th Hst He Hef].
  - eapply grows_inv; [done|done|by eapply Start_grows|done..].
  - eapply grows_inv; [done|done| |done..]. unfold Stop in He. case_if_in He; simplify_eq;
      split_and!; try done; cbn; lia.
  - by split.
  - eapply grows_inv; [done|done|by eapply Schedule_grows|done|..];
      case_if; [by apply locks_put|done|apply fifo_put; [apply HL|done]|done].
  - eapply grows_inv; [done|done|by eapply ScheduleGeneric_grows|done..].
  - unfold ShrinkMemory. destruct (sm_find tag _) as [q|] eqn:Hq; [|by split].
    destruct (IsEmptyAndUnlocked q) eqn:Hu; [|by split].
    split; cbn; try done; [by eapply locks_erase|by eapply fifo_erase].
  - by apply become_inv.
  - eapply looking_inv; [done|done|done| |done]. intros. by eapply look_spec.
  - eapply looking_inv; [done|done|done| |done]. intros. by eapply woken_spec.
  - by eapply finish_inv.
  - by eapply exit_inv.
Qed.

Lemma reachable_inv maxT minT s :
  0 < maxT -> minT <= maxT -> reachable maxT minT s -> pool_inv maxT minT s.
Proof.
  intros H0 Hle. induction 1 as [|s s' _ IH Hst]; [|by eapply step_inv].
  split; cbn; try done; [|lia]. split; try done; [constructor|..]; intros *; by rewrite lookup_empty.
Qed.

(** C11: the tasks of one tag run one by one and in order: in every state the
    threads of the pool can reach, at most one thread runs a task of a tag and it can
    finish it (its queue is still there, locked by it); the tasks of the tag that were
    started, followed by those in its queue, are the tasks that were scheduled, in that
    order; and there are never more threads than the maximum. *)
Theorem tasks_one_by_one maxThreads minThreads s :
  0 < maxThreads -> minThreads <= maxThreads -> reachable maxThreads minThreads s ->
  (forall i j t u tag,
    threads s !! i = Some (TRunning t (Some tag)) -> threads s !! j = Some (TRunning u (Some tag)) ->
    i = j) /\
  (forall i t queue, threads s !! i = Some (TRunning t queue) ->
    exists p, FinishExecuteTask i queue (pool s) = Ok p) /\
  (forall tag, of_tag tag (started s) ++ tasks_ (queue_of tag (pool s)) = of_tag tag (scheduled s)) /\
  Z.of_nat (size (threads s)) <= maxThreads.
Proof.
  intros H0 Hle Hr. destruct (reachable_inv _ _ _ H0 Hle Hr) as [_ [_ _ L3 _] HF Hc Hm].
  split_and!; [| |done|lia].
  - intros i j t u tag Hi Hj. destruct (L3 _ _ _ Hi) as (q & Hq & <-), (L3 _ _ _ Hj) as (q' & Hq' & <-).
    by simplify_eq.
  - intros i t [tag|] Hi; [|by eexists]. destruct (L3 _ _ _ Hi) as (q & Hq & _).
    unfold FinishExecuteTask. rewrite Hq. by eexists.
Qed.

(** ** Runs that are computed

    New threads get the first number above the number of threads. *)
Fixpoint run_effects (es : list effect) (th : gmap Z thread) : option (gmap Z thread) :=
  match es with
  | [] => Some th
  | NotifyAll :: es => run_effects es (notify <$> th)
  | (NotifyOne | NotifyExited) :: es => run_effects es th
  | Spawn :: es =>
      let i := Z.of_nat (size th) + 1 in
      match th !! i with None => run_effects es (<[i := TSpawned]> th) | Some _ => None end
  end.

Lemma run_effects_sound es : forall th th', run_effects es th = Some th' -> effects es th th'.
Proof.
  induction es as [|[] es IH]; cbn; intros th th' He.
  - simplify_eq. constructor.
  - by apply effects_none, IH.
  - by apply effects_all, IH.
  - by apply effects_exited, IH.
  - destruct (th !! _) eqn:E; [done|]. eapply effects_spawn; [|exact E|by apply IH]. lia.
Qed.

Inductive action :=
| AStart
| ASchedule (tag : string) (t : Task)
| ABecome (i : Z)
| ALook (i : Z)
| AWake (i : Z) (timeout : bool)
| AFinish (i : Z)
| AExit (i : Z).

Definition act (a : action) (s : Sys) : option Sys :=
  match a with
  | AStart =>
      let '(_, p, es) := Start (pool s) in
      th ← run_effects es (threads s); Some (mkSys p th (scheduled s) (started s))
  | ASchedule tag t =>
      let '(code, p, es) := Schedule tag t (pool s) in
      th ← run_effects es (threads s);
      Some (mkSys p th (if code =? E_OK then scheduled s ++ [(tag, t)] else scheduled s) (started s))
  | ABecome i =>
      match threads s !! i with
      | Some TSpawned =>
          Some (mkSys (BecomeGenericWorker i (pool s)) (<[i := TLooking]> (threads s)) (scheduled s)
                  (started s))
      | _ => None
      end
  | ALook i =>
      match threads s !! i with
      | Some TLooking =>
          let '(n, p, es) := look i (pool s) in
          th ← run_effects es (threads s);
          Some (mkSys p (<[i := state_after n]> th) (scheduled s) (log_start n (started s)))
      | _ => None
      end
  | AWake i timeout =>
      match threads s !! i with
      | Some (TWaiting timed notified) =>
          if timeout && negb timed then None
          else
            let '(n, p, es) := woken i timed timeout (pool s) in
            th ← run_effects es (threads s);
            Some (mkSys p (<[i := state_after n]> th) (scheduled s) (log_start n (started s)))
      | _ => None
      end
  | AFinish i =>
      match threads s !! i with
      | Some (TRunning t queue) =>
          match FinishExecuteTask i queue (pool s) with
          | Ok p => Some (mkSys p (<[i := TLooking]> (threads s)) (scheduled s) (started s))
          | _ => None
          end
      | _ => None
      end
  | AExit i =>
      match threads s !! i with
      | Some TExiting =>
          let '(p, es) := ExitGenericWorker i (pool s) in
          th ← run_effects es (delete i (threads s)); Some (mkSys p th (scheduled s) (started s))
      | _ => None
      end
  end.

Fixpoint acts (l : list action) (s : Sys) : option Sys :=
  match l with [] => Some s | a :: l => s ← act a s; acts l s end.

Lemma act_sound a s s' : act a s = Some s' -> step s s'.
Proof.
  intros Ha. destruct a as [|tag t|i|i|i timeout|i|i]; cbn [act] in Ha.
  - destruct (Start _) as [[code p] es] eqn:E. apply bind_Some in Ha as (th & He%run_effects_sound & ?).
    simplify_eq. by eapply StepStart.
  - destruct (Schedule _ _ _) as [[code p] es] eqn:E.
    apply bind_Some in Ha as (th & He%run_effects_sound & ?). simplify_eq. by eapply StepSchedule.
  - destruct (threads s !! i) as [[]|] eqn:Ei; try done. simplify_eq. by apply StepBecome.
  - destruct (threads s !! i) as [[]|] eqn:Ei; try done. destruct (look _ _) as [[n p] es] eqn:E.
    apply bind_Some in Ha as (th & He%run_effects_sound & ?). simplify_eq. by eapply StepLook.
  - destruct (threads s !! i) as [[| |timed notified| |]|] eqn:Ei; try done. case_if_in Ha; [done|].
    destruct (woken _ _ _ _) as [[n p] es] eqn:E'.
    apply bind_Some in Ha as (th & He%run_effects_sound & ?). simplify_eq.
    eapply StepWake; [done| |done|done]. by destruct timeout, timed.
  - destruct (threads s !! i) as [[| | |t queue|]|] eqn:Ei; try done.
    destruct (FinishExecuteTask _ _ _) as [p| | |] eqn:E; try done. simplify_eq. by eapply StepFinish.
  - destruct (threads s !! i) as [[]|] eqn:Ei; try done.
    destruct (ExitGenericWorker _ _) as [p es] eqn:E.
    apply bind_Some in Ha as (th & He%run_effects_sound & ?). simplify_eq. by eapply StepExit.
Qed.

Lemma acts_reachable maxT minT l : forall s s',
  reachable maxT minT s -> acts l s = Some s' -> reachable maxT minT s'.
Proof.
  induction l as [|a l IH]; cbn; intros s s' Hr He; [by simplify_eq|].
  apply bind_Some in He as (s1 & Ha%act_sound & He). eapply IH; [|done].
  by eapply reachable_step.
Qed.

(** A second thread was started for a second task; its wait for more runs out just
    when a third task is scheduled. *)
Definition lost_run : list action :=
  [AStart; ABecome 1; ASchedule "PreferencesImpl" 100; ALook 1;
   ASchedule "PreferencesImpl" 101; ABecome 2; ALook 2; AFinish 1; ALook 1;
   AWake 2 false; AFinish 2; ALook 2;
   ASchedule "PreferencesImpl" 102; AWake 1 false; AWake 2 true; AExit 2].

(** Nothing wakes the thread: it waits without a time limit and was not notified. *)
Definition asleep (s : Sys) : bool :=
  forallb (fun x => match snd x with TWaiting false false => true | _ => false end)
    (map_to_list (threads s)).

Definition lost_check (s : Sys) : bool :=
  asleep s && bool_decide (tasks_ (queue_of "PreferencesImpl" (pool s)) = [102]) &&
  isStarted_ (pool s) && negb (isStopping_ (pool s)).

Lemma lost_run_check : match acts lost_run (new_Sys 10 1) with Some s => lost_check s | None => false end = true.
Proof. vm_compute. reflexivity. Qed.

Lemma lost_state o :
  match o with Some s => lost_check s | None => false end = true ->
  exists s, o = Some s /\ lost_check s = true.
Proof. destruct o as [s|]; [by exists s|done]. Qed.

(** C30: a task can be forgotten: with the ten and one threads of the preferences, a
    state can be reached in which a scheduled task waits in its queue while every
    thread of the started pool waits without a time limit and without a notification
    on its way, so nothing runs the task until another one is scheduled. *)
Theorem task_forgotten :
  exists s, reachable 10 1 s /\ isStarted_ (pool s) = true /\ isStopping_ (pool s) = false /\
    tasks_ (queue_of "PreferencesImpl" (pool s)) <> [] /\
    forall i st, threads s !! i = Some st -> st = TWaiting false false.
Proof.
  destruct (lost_state (acts lost_run (new_Sys 10 1)) lost_run_check) as (s & E & Hc). exists s.
  split; [exact (acts_reachable _ _ _ _ _ (reachable_new _ _) E)|]. clear E.
  unfold lost_check in Hc. apply andb_prop in Hc as [[[Ha Ht]%andb_prop Hs]%andb_prop Hp].
  apply bool_decide_eq_true in Ht. rewrite Ht. to_prop. split_and!; try done.
  intros i st Hi. unfold asleep in Ha. rewrite forallb_forall in Ha.
  assert (Hin : In (i, st) (map_to_list (threads s))) by (by apply list_elem_of_In, elem_of_map_to_list).
  specialize (Ha _ Hin). cbn in Ha. by destruct st as [| |[] []| |].
Qed.

Lemma tasks_one_by_one_witness :
  exists s, acts lost_run (new_Sys 10 1) = Some s /\
  (forall i j t u tag,
    threads s !! i = Some (TRunning t (Some tag)) -> threads s !! j = Some (TRunning u (Some tag)) ->
    i = j) /\
  (forall i t queue, threads s !! i = Some (TRunning t queue) ->
    exists p, FinishExecuteTask i queue (pool s) = Ok p) /\
  (forall tag, of_tag tag (started s) ++ tasks_ (queue_of tag (pool s)) = of_tag tag (scheduled s)) /\
  Z.of_nat (size (threads s)) <= 10.
Proof.
  destruct (lost_state (acts lost_run (new_Sys 10 1)) lost_run_check) as (s & E & _).
  exists s. split; [exact E|].
  exact (tasks_one_by_one 10 1 s ltac:(lia) ltac:(lia)
    (acts_reachable _ _ _ _ _ (reachable_new _ _) E)).
Defined.
