(* ===== verification/PreferencesHelper.v ===== *)
(** * Opening preferences

    Model of preferences_helper.cpp: the path is made canonical, and every canonical
    path has at most one object, which the cache keeps until it is removed. An object
    is its identity; what the objects do is the subject of the other files. *)
From S2P Require Import Prelude Strings StdMap Disk PreferencesErrno PreferencesXml PreferencesImpl PreferencesSpec TaskPool.
From Stdlib Require Import Ascii.

#[local] Open Scope list_scope.

(** [realpath] of the C library on a directory. *)
Class RealPath := { realpath : string -> option string }.

(** The cache, and the objects created so far with their paths, oldest first. *)
Record Helper := mkHelper {
  prefsCache_ : list (string * nat);
  created : list string;
}.

Definition new_Helper : Helper := mkHelper [] [].

Definition IsFileExist (path : string) : F bool := opens path.

(** The threads of a new task pool. *)
Definition MAX_TP_THREADS : Z := 10.
Definition MIN_TP_THREADS : Z := 1.
Definition start_code : Z :=
  let '(code, _, _) := TaskPool.Start (new_TaskPool MAX_TP_THREADS MIN_TP_THREADS) in code.

Section Helper.
Context `{RealPath}.

Definition GetRealPath (path : string) : Z * string :=
  match path with
  | EmptyString => (E_EMPTY_FILE_PATH, "")
  | String c _ =>
      if negb (Ascii.eqb c "/") then (E_RELATIVE_PATH, "")
      else if (PATH_MAX <? String.length (c_str path))%nat then (E_PATH_EXCEED_MAX_LENGTH, "")
      else
        match split_last path with
        | None => (E_RELATIVE_PATH, "")
        | Some (filePath, fileName) =>
            match realpath (c_str filePath) with
            | None => (E_INVALID_FILE_PATH, "")
            | Some canonicalPath =>
                if empty fileName then (E_EMPTY_FILE_NAME, "")
                else (E_OK, canonicalPath +:+ "/" +:+ fileName)
            end
        end
  end.

(** The error code and the object; [Init] starts the pool and schedules the loading. *)
Definition GetPreferences (path : string) (h : Helper) : Z * option nat * Helper :=
  let '(errCode, realPath) := GetRealPath path in
  if empty realPath || negb (errCode =? E_OK) then (errCode, None, h)
  else
    match sm_find realPath (prefsCache_ h) with
    | Some pref => (errCode, Some pref, h)
    | None =>
        let pref := length (created h) in
        let h := mkHelper (prefsCache_ h) (created h ++ [c_str realPath]) in
        if negb (start_code =? E_OK) then (start_code, None, h)
        else (start_code, Some pref, mkHelper (sm_insert realPath pref (prefsCache_ h)) (created h))
    end.

Definition DeletePreferences (path : string) (h : Helper) : F (Z * Helper) :=
  let '(errCode, realPath) := GetRealPath path in
  if empty realPath || negb (errCode =? E_OK) then mret (errCode, h)
  else
    let h := match sm_find realPath (prefsCache_ h) with
             | Some _ => mkHelper (sm_erase realPath (prefsCache_ h)) (created h)
             | None => h
             end in
    let filePath := c_str realPath in
    let backupPath := MakeBackupPath filePath in
    let brokenPath := MakeBrokenPath filePath in
    remove filePath ;;
    remove backupPath ;;
    remove brokenPath ;;
    e1 ← IsFileExist filePath;
    e2 ← IsFileExist backupPath;
    e3 ← IsFileExist brokenPath;
    if (e1 || e2 || e3 : bool) then mret (E_DELETE_FILE_FAIL, h) else mret (E_OK, h).

Definition RemovePreferencesFromCache (path : string) (h : Helper) : Z * Helper :=
  let '(errCode, realPath) := GetRealPath path in
  if empty realPath || negb (errCode =? E_OK) then (errCode, h)
  else
    match sm_find realPath (prefsCache_ h) with
    | None => (E_OK, h)
    | Some _ => (E_OK, mkHelper (sm_erase realPath (prefsCache_ h)) (created h))
    end.
End Helper.

(** * One object per file

    While a path is in the cache every request for it gets the same object, and
    different files have different objects. *)

Section Spec.
Context `{RealPath}.

Inductive helper_op :=
| HGet (path : string)
| HDelete (path : string) (w : FS)
| HRemove (path : string).

Definition run_helper (o : helper_op) (h : Helper) : Helper :=
  match o with
  | HGet path => snd (GetPreferences path h)
  | HDelete path w => snd (fst (DeletePreferences path h w))
  | HRemove path => snd (RemovePreferencesFromCache path h)
  end.

Definition run_helpers (os : list helper_op) : Helper := foldl (fun h o => run_helper o h) new_Helper os.

(** The cache knows the objects by their paths, and no object twice. *)
Record helper_ok (h : Helper) : Prop := {
  ho_sorted : sm_sorted (prefsCache_ h);
  ho_created : forall p o, sm_find p (prefsCache_ h) = Some o -> created h !! o = Some (c_str p);
  ho_once : forall p1 p2 o, sm_find p1 (prefsCache_ h) = Some o ->
    sm_find p2 (prefsCache_ h) = Some o -> p1 = p2;
}.

Lemma start_code_ok : start_code = E_OK.
Proof. reflexivity. Qed.

Lemma usable_path path real : GetRealPath path = (E_OK, real) -> empty real = false.
Proof.
  unfold GetRealPath. destruct path as [|c path]; [done|]. repeat (case_if; [done|]).
  destruct (split_last _) as [[d n]|]; [|done]. destruct (realpath _) as [canon|]; [|done].
  case_if; [done|]. intros [= <-]. by destruct canon.
Qed.

Lemma refused_path path : let '(code, real) := GetRealPath path in code <> E_OK -> real = "".
Proof.
  unfold GetRealPath. destruct path as [|c path]; [done|]. repeat (case_if; [done|]).
  destruct (split_last _) as [[d n]|]; [|done]. destruct (realpath _); [|done]. by case_if.
Qed.

(** The guard of the three operations. *)
Lemma path_guard path :
  let '(code, real) := GetRealPath path in
  empty real || negb (code =? E_OK) = negb (code =? E_OK).
Proof.
  destruct (GetRealPath path) as [code real] eqn:E. destruct (code =? E_OK) eqn:Ec; to_prop.
  - subst. by rewrite (usable_path _ _ E).
  - pose proof (refused_path path) as Hr. rewrite E in Hr. by rewrite (Hr Ec).
Qed.

Lemma erase_ok h p :
  helper_ok h -> helper_ok (mkHelper (sm_erase p (prefsCache_ h)) (created h)).
Proof.
  intros [S C O]. split; cbn; [by apply sm_erase_sorted| |].
  - intros p' o. rewrite sm_find_erase. case_decide; [done|]. apply C.
  - intros p1 p2 o. rewrite !sm_find_erase. repeat case_decide; try done. apply O.
Qed.

Lemma insert_ok h p :
  helper_ok h -> sm_find p (prefsCache_ h) = None ->
  helper_ok (mkHelper (sm_insert p (length (created h)) (prefsCache_ h)) (created h ++ [c_str p])).
Proof.
  intros [S C O] Hp.
  assert (Hlt : forall p' o, sm_find p' (prefsCache_ h) = Some o -> (o < length (created h))%nat).
  { intros p' o Ho%C. by eapply lookup_lt_Some. }
  split; cbn; [by apply sm_insert_sorted| |].
  - intros p' o. rewrite sm_find_insert by done. rewrite Hp. cbn. case_decide.
    + intros [= <-]. subst. by apply lookup_snoc_len.
    + intros Ho. rewrite lookup_app_l by (by eapply Hlt). by apply C.
  - intros p1 p2 o. rewrite !sm_find_insert by done. rewrite Hp. cbn.
    repeat case_decide; subst; try done; [| |by apply O].
    + intros [= <-] Ho%Hlt. lia.
    + intros Ho%Hlt [= <-]. lia.
Qed.

Lemma get_ok path h : helper_ok h -> helper_ok (snd (GetPreferences path h)).
Proof.
  intros Hok. unfold GetPreferences. pose proof (path_guard path) as Hg.
  destruct (GetRealPath path) as [code real]. rewrite Hg. case_if; [done|].
  destruct (sm_find real (prefsCache_ h)) eqn:Ef; [done|]. rewrite start_code_ok. cbn.
  by apply insert_ok.
Qed.

(** The path is out of the cache whatever becomes of the files. *)
Definition dropped (real : string) (h : Helper) : Helper :=
  match sm_find real (prefsCache_ h) with
  | Some _ => mkHelper (sm_erase real (prefsCache_ h)) (created h)
  | None => h
  end.

Lemma dropped_ok real h : helper_ok h -> helper_ok (dropped real h).
Proof. intros Hok. unfold dropped. destruct (sm_find _ _); [by apply erase_ok|done]. Qed.

Lemma delete_spec path h w :
  let '(code, real) := GetRealPath path in
  let p := c_str real in
  exists code' w', DeletePreferences path h w =
      ((code', if code =? E_OK then dropped real h else h), w') /\
    (code <> E_OK -> code' = code /\ w' = w) /\
    (code = E_OK -> (code' = E_OK <-> files w' !! p = None /\ files w' !! MakeBackupPath p = None)).
Proof.
  unfold DeletePreferences. pose proof (path_guard path) as Hg.
  destruct (GetRealPath path) as [code real]. rewrite Hg. destruct (code =? E_OK) eqn:Ec; to_prop; cbn [negb].
  2: { by exists code, w. }
  unfold mbind, F_bind, mret, F_ret, IsFileExist, opens. fold (dropped real h).
  destruct (remove (c_str real) w) as [b1 w1], (remove _ w1) as [b2 w2], (remove _ w2) as [b3 w3].
  unfold MakeBrokenPath. fold (MakeBackupPath (c_str real)).
  do 2 case_bool_decide; cbn [orb]; eexists _, w3; (split; [done|]); (split; [done|]); intros _;
    rewrite ?eq_None_not_Some; split; try done; by intros [].
Qed.

Lemma run_helper_ok o h : helper_ok h -> helper_ok (run_helper o h).
Proof.
  intros Hok. destruct o as [path|path w|path]; cbn [run_helper].
  - by apply get_ok.
  - pose proof (delete_spec path h w) as Hd. destruct (GetRealPath path) as [code real].
    destruct Hd as (code' & w' & -> & _). cbn. case_if; [by apply dropped_ok|done].
  - unfold RemovePreferencesFromCache. destruct (GetRealPath path) as [code real]. case_if; [done|].
    destruct (sm_find _ _); [by apply erase_ok|done].
Qed.

Lemma run_helpers_ok os : helper_ok (run_helpers os).
Proof.
  unfold run_helpers. assert (Hnew : helper_ok new_Helper) by (split; [constructor|done|done]).
  revert Hnew. generalize new_Helper. induction os as [|o os IH]; intros h Hok; [done|].
  cbn. by apply IH, run_helper_ok.
Qed.

(** The object a request gets, and the helper afterwards. *)
Lemma get_spec path h real :
  helper_ok h -> GetRealPath path = (E_OK, real) ->
  exists o h', GetPreferences path h = (E_OK, Some o, h') /\
    sm_find real (prefsCache_ h') = Some o /\ created h' !! o = Some (c_str real) /\
    (forall real', real' <> real -> sm_find real' (prefsCache_ h') = sm_find real' (prefsCache_ h)).
Proof.
  intros Hok Hp. pose proof (get_ok path h Hok) as Hok'. unfold GetPreferences in *.
  pose proof (path_guard path) as Hg. rewrite Hp in Hg, Hok' |- *. rewrite Hg in *. cbn [negb Z.eqb] in *.
  destruct (sm_find real (prefsCache_ h)) as [o|] eqn:Ef.
  - exists o, h. split; [done|]. split; [done|]. split; [by apply ho_created|done].
  - rewrite start_code_ok in *. cbn in Hok' |- *. eexists _, _. split; [done|].
    assert (Hf : sm_find real (sm_insert real (length (created h)) (prefsCache_ h)) =
      Some (length (created h))).
    { rewrite sm_find_insert by apply Hok. by rewrite Ef, decide_True. }
    split; [done|]. split; [by apply lookup_snoc_len|]. intros real' Hne. cbn.
    rewrite sm_find_insert by apply Hok. by rewrite decide_False.
Qed.

(** one object per file: after any sequence of requests, deletions and removals,
    a request for a valid path succeeds with an object created for the canonical path;
    a second request for the same file gets the same object and changes nothing, and a
    request for another file gets another object. Deleting takes the path out of the
    cache, and reports success exactly if neither file nor backup are left. *)
Theorem helper_one_object os path real :
  GetRealPath path = (E_OK, real) ->
  let h := run_helpers os in
  exists o h1, GetPreferences path h = (E_OK, Some o, h1) /\ created h1 !! o = Some (c_str real) /\
    (forall path', GetRealPath path' = (E_OK, real) -> GetPreferences path' h1 = (E_OK, Some o, h1)) /\
    (forall path' real', GetRealPath path' = (E_OK, real') -> real' <> real ->
      exists o' h2, GetPreferences path' h1 = (E_OK, Some o', h2) /\ o' <> o) /\
    (forall w, exists code h2 w', DeletePreferences path h1 w = ((code, h2), w') /\
      sm_find real (prefsCache_ h2) = None /\
      (code = E_OK <->
       files w' !! c_str real = None /\ files w' !! MakeBackupPath (c_str real) = None)).
Proof.
  intros Hp h. pose proof (run_helpers_ok os) as Hok. fold h in Hok.
  destruct (get_spec path h real Hok Hp) as (o & h1 & E & Hf & Hc & _).
  pose proof (get_ok path h Hok) as Hok1. rewrite E in Hok1. cbn [snd] in Hok1.
  exists o, h1. split; [done|]. split; [done|]. split_and!.
  - intros path' Hp'. unfold GetPreferences. pose proof (path_guard path') as Hg.
    rewrite Hp' in Hg |- *. rewrite Hg. cbn [negb Z.eqb]. by rewrite Hf.
  - intros path' real' Hp' Hne. destruct (get_spec path' h1 real' Hok1 Hp') as (o' & h2 & E2 & Hf2 & _ & Hk).
    exists o', h2. split; [done|]. intros ->. pose proof (get_ok path' h1 Hok1) as Hok2.
    rewrite E2 in Hok2. cbn [snd] in Hok2. apply Hne, (ho_once _ Hok2 _ _ _ Hf2). by rewrite Hk by congruence.
  - intros w. pose proof (delete_spec path h1 w) as Hd. rewrite Hp in Hd.
    destruct Hd as (code' & w' & -> & _ & Hd). cbn [Z.eqb]. eexists _, _, w'. split; [done|].
    split; [|by apply Hd]. unfold dropped. rewrite Hf. cbn. rewrite sm_find_erase. by rewrite decide_True.
Qed.
End Spec.

Definition demo_realpath : RealPath := {| realpath := fun d => Some d |}.

Lemma helper_one_object_witness :
  let h := @run_helpers demo_realpath [HGet "/data/a"; HGet "/data/b"; HRemove "/data/a"] in
  exists o h1, @GetPreferences demo_realpath "/data/b" h = (E_OK, Some o, h1) /\
    created h1 !! o = Some "/data/b" /\
    (forall path', @GetRealPath demo_realpath path' = (E_OK, "/data/b") ->
      @GetPreferences demo_realpath path' h1 = (E_OK, Some o, h1)) /\
    (forall path' real', @GetRealPath demo_realpath path' = (E_OK, real') -> real' <> "/data/b" ->
      exists o' h2, @GetPreferences demo_realpath path' h1 = (E_OK, Some o', h2) /\ o' <> o) /\
    (forall w, exists code h2 w', @DeletePreferences demo_realpath "/data/b" h1 w = ((code, h2), w') /\
      sm_find "/data/b" (prefsCache_ h2) = None /\
      (code = E_OK <-> files w' !! "/data/b" = None /\ files w' !! "/data/b.bak" = None)).
Proof.
  exact (@helper_one_object demo_realpath [HGet "/data/a"; HGet "/data/b"; HRemove "/data/a"]
    "/data/b" "/data/b" eq_refl).
Defined.
