(* ===== verification/DataShareErrno.v ===== *)
(** * Error codes of the data share framework

    The codes of datashare_errno.h that the modelled code returns. *)
From S2P Require Import Prelude.

Definition E_OK : Z := 0.
Definition E_BASE : Z := 1000.
Definition E_ERROR : Z := E_BASE + 1.
Definition E_INVALID_STATEMENT : Z := E_BASE + 7.
Definition E_INVALID_COLUMN_INDEX : Z := E_BASE + 8.
Definition E_INVALID_OBJECT_TYPE : Z := E_BASE + 20.
Definition E_INVALID_PARCEL : Z := E_BASE + 42.
