(* ===== verification/DataShareAbsResultSet.v ===== *)
(** * Data share result sets: navigation

    Model of frameworks/native/data_share/common/src/datashare_abs_result_set.cpp:
    the moves and the column look-up every data share result set inherits, written
    against the virtual methods. *)
From S2P Require Import Prelude Strings DataShareErrno ResultSet.

#[local] Open Scope list_scope.

(** The virtual methods of a set with state [S]: the error code, the out parameter
    (left alone on failure) and the new state. *)
Class ShareSetOps (S : Type) := {
  rowPos_ : S -> Z;
  GetRowCount : S -> outcome Z * S;
  GetAllColumnNames : S -> outcome (list string) * S;
  GoToRow : S -> Z -> outcome (Z * S);
}.

Section AbsResultSet.
Context {S : Type} `{ShareSetOps S}.
Implicit Types s : S.

Definition GetRowIndex s : Z := rowPos_ s.

Definition GoTo s (offset : Z) : outcome (Z * S) := GoToRow s (s32 (rowPos_ s + offset)).
Definition GoToFirstRow s : outcome (Z * S) := GoToRow s 0.
Definition GoToLastRow s : outcome (Z * S) :=
  let '(count, s) := GetRowCount s in
  match count with
  | Ok rowCnt => GoToRow s (s32 (rowCnt - 1))
  | Err ret => Ok (ret, s)
  | Throws => Throws
  | Undefined => Undefined
  end.
Definition GoToNextRow s : outcome (Z * S) := GoToRow s (s32 (rowPos_ s + 1)).
Definition GoToPreviousRow s : outcome (Z * S) := GoToRow s (s32 (rowPos_ s - 1)).

Definition IsAtFirstRow s : bool := rowPos_ s =? 0.
Definition IsAtLastRow s : outcome bool * S :=
  let '(count, s) := GetRowCount s in
  (rowCnt <-- count; Ok (rowPos_ s =? s32 (rowCnt - 1)), s).
Definition IsStarted s : bool := negb (rowPos_ s =? INIT_POS).
Definition IsEnded s : outcome bool * S :=
  let '(count, s) := GetRowCount s in
  (rowCnt <-- count; Ok (if rowCnt =? 0 then true else rowPos_ s =? rowCnt), s).

Definition GetColumnCount s : outcome Z * S :=
  let '(names, s) := GetAllColumnNames s in
  (columnNames <-- names; Ok (s32 (Z.of_nat (length columnNames))), s).

(** The error code and the index, -1 when the column is not found; [None] when the
    out parameter is left alone. *)
Definition GetColumnIndex s (columnName : string) : outcome (Z * option Z) * S :=
  let columnNameLower := lower (after_last_dot columnName) in
  let '(names, s) := GetAllColumnNames s in
  (match names with
   | Ok columnNames =>
       match find_column columnNameLower columnNames 0 with
       | Some columnIndex => Ok (E_OK, Some columnIndex)
       | None => Ok (E_ERROR, Some (-1))
       end
   | Err ret => Ok (ret, None)
   | Throws => Throws
   | Undefined => Undefined
   end, s).

Definition GetColumnName s (columnIndex : Z) : outcome string * S :=
  let '(count, s) := GetColumnCount s in
  match count with
  | Ok rowCnt =>
      if (columnIndex >=? rowCnt) || (columnIndex <? 0) then (Err E_INVALID_COLUMN_INDEX, s)
      else
        let '(names, s) := GetAllColumnNames s in
        let columnNames := match names with Ok l => l | _ => [] end in
        (match columnNames !! Z.to_nat columnIndex with
         | Some name => Ok name
         | None => Undefined
         end, s)
  | Err e => (Err e, s)
  | Throws => (Throws, s)
  | Undefined => (Undefined, s)
  end.
End AbsResultSet.
