(* ===== verification/KvCache.v ===== *)
(** * The cache of the key-value store

    Model of frameworks/native/kv_store/src/kvstore_common/kvstore_common.c. The cache
    is a doubly linked list of items on the heap with a head, a tail and a count in
    global variables; a pointer is an address, [None] the null pointer, and a function
    is [None] when it follows a null or freed pointer. Strings are those of C, without
    NUL. The error codes and limits are constants of headers outside the repository. *)
From S2P Require Import Prelude.
From Stdlib Require Import Ascii.

#[local] Open Scope list_scope.

Class KvConfig := {
  EC_SUCCESS : Z;
  EC_FAILURE : Z;
  EC_INVALID : Z;
  MAX_CACHE_SIZE : Z;
  MAX_KV_SUM : Z;
  success_zero : EC_SUCCESS = 0;
  failure_negative : EC_FAILURE < 0;
  cache_holds_one : 1 <= MAX_CACHE_SIZE;
}.

Definition MAX_KEY_LEN : nat := 32.
Definition MAX_VALUE_LEN : nat := 128.

(** ** Validity of keys and values *)
Definition IsValidChar (ch : ascii) : bool :=
  let c := Z.of_N (N_of_ascii ch) in
  ((97 <=? c) && (c <=? 122)) || ((48 <=? c) && (c <=? 57)) || (c =? 95) || (c =? 46).

(** [strnlen(s, n)]. *)
Definition strnlen (s : string) (n : nat) : nat := Nat.min (String.length s) n.

Definition IsValidValue (value : string) (len : nat) : bool :=
  let valueLen := strnlen value MAX_VALUE_LEN in
  negb ((valueLen =? 0)%nat || (MAX_VALUE_LEN <=? valueLen)%nat || (len <=? valueLen)%nat).

Fixpoint all_chars (f : ascii -> bool) (s : string) : bool :=
  match s with EmptyString => true | String c s => f c && all_chars f s end.

Definition IsValidKey (key : string) : bool :=
  IsValidValue key MAX_KEY_LEN && all_chars IsValidChar key.

(** ** The list on the heap *)
Record KvItem := mkItem { it_key : string; it_value : string; it_next : option Z; it_prev : option Z }.

(** [brk] is the next address [malloc] hands out; [mallocs] tells which of its calls
    to come give memory, all of them once the list is used up. *)
Record Cache := mkCache {
  heap : gmap Z KvItem;
  g_itemHeader : option Z;
  g_itemTail : option Z;
  g_sum : Z;
  brk : Z;
  mallocs : list bool;
}.

Definition empty_cache : Cache := mkCache ∅ None None 0 0 [].

Definition malloc (c : Cache) : bool * Cache :=
  (default true (head (mallocs c)),
   mkCache (heap c) (g_itemHeader c) (g_itemTail c) (g_sum c) (brk c) (tail (mallocs c))).

(** [p->next = q], [p->prev = q] and [free(p)]. *)
Definition store_next (h : gmap Z KvItem) (p q : option Z) : option (gmap Z KvItem) :=
  p ← p; it ← h !! p; Some (<[p := mkItem (it_key it) (it_value it) q (it_prev it)]> h).
Definition store_prev (h : gmap Z KvItem) (p q : option Z) : option (gmap Z KvItem) :=
  p ← p; it ← h !! p; Some (<[p := mkItem (it_key it) (it_value it) (it_next it) q]> h).
Definition FreeItem (h : gmap Z KvItem) (p : Z) : option (gmap Z KvItem) :=
  _ ← h !! p; Some (delete p h).

(** The loop that looks for a key from an item on. [fuel] is the number of items that
    can come after it. *)
Fixpoint find_item (fuel : nat) (h : gmap Z KvItem) (key : string) (item : Z) : option (option Z) :=
  it ← h !! item;
  if decide (key = it_key it) then Some (Some item)
  else
    match it_next it with
    | None => Some None
    | Some next => match fuel with O => None | S fuel => find_item fuel h key next end
    end.

Definition DeleteKVCache (key : string) (c : Cache) : option Cache :=
  let '(mkCache h header tail_ sum b ms) := c in
  match header with
  | None => Some c
  | Some first =>
      found ← find_item (size h) h key first;
      match found with
      | None => Some c
      | Some item =>
          it ← h !! item;
          let sum := sum - 1 in
          if sum =? 0 then
            h ← FreeItem h item; Some (mkCache h None None sum b ms)
          else if decide (Some item = header) then
            h ← store_prev h (it_next it) None;
            h ← FreeItem h item; Some (mkCache h (it_next it) tail_ sum b ms)
          else if decide (Some item = tail_) then
            h ← store_next h (it_prev it) None;
            h ← FreeItem h item; Some (mkCache h header (it_prev it) sum b ms)
          else
            h ← store_next h (it_prev it) (it_next it);
            h ← store_prev h (it_next it) (it_prev it);
            h ← FreeItem h item; Some (mkCache h header tail_ sum b ms)
      end
  end.

Section Limit.
Context `{KvConfig}.

(** The loop that drops items at the tail. *)
Fixpoint drop_items (fuel : nat) (c : Cache) : option Cache :=
  let '(mkCache h header tail_ sum b ms) := c in
  if sum >? MAX_CACHE_SIZE then
    match fuel with
    | O => None
    | S fuel =>
        needDel ← tail_;
        it ← h !! needDel;
        h ← FreeItem h needDel;
        h ← store_next h (it_prev it) None;
        drop_items fuel (mkCache h header (it_prev it) (sum - 1) b ms)
    end
  else Some c.

Definition AddKVCache (key value : string) (isNew : bool) (c : Cache) : option Cache :=
  let keyLen := strnlen key MAX_KEY_LEN in
  let valueLen := strnlen value MAX_VALUE_LEN in
  if (MAX_KEY_LEN <=? keyLen)%nat || (MAX_VALUE_LEN <=? valueLen)%nat then Some c
  else
    c ← (if isNew then DeleteKVCache key c else Some c);
    let '(item_ok, c) := malloc c in
    if negb item_ok then Some c
    else
      let '(key_ok, c) := malloc c in
      let '(value_ok, c) := malloc c in
      if negb key_ok || negb value_ok then Some c
      else
        let '(mkCache h header tail_ sum b ms) := c in
        let item := b in
        match header with
        | None =>
            Some (mkCache (<[item := mkItem key value None None]> h) (Some item) (Some item)
                    (sum + 1) (b + 1) ms)
        | Some first =>
            h ← store_prev (<[item := mkItem key value header None]> h) header (Some item);
            drop_items (Z.to_nat (sum + 1)) (mkCache h (Some item) tail_ (sum + 1) (b + 1) ms)
        end.
(** The value into a buffer of [maxLen] bytes: the code and what is in the buffer. *)
Definition GetValueByCache (key : string) (maxLen : Z) (c : Cache) : option (Z * option string) :=
  match g_itemHeader c with
  | None => Some (EC_FAILURE, None)
  | Some first =>
      found ← find_item (size (heap c)) (heap c) key first;
      match found with
      | None => Some (EC_FAILURE, None)
      | Some item =>
          it ← heap c !! item;
          let valueLen := strnlen (it_value it) MAX_VALUE_LEN in
          if (MAX_VALUE_LEN <=? valueLen)%nat then Some (EC_FAILURE, None)
          else if maxLen <=? Z.of_nat valueLen then Some (EC_FAILURE, None)
          else Some (EC_SUCCESS, Some (it_value it))
      end
  end.

(** The loop that frees every item. *)
Fixpoint free_items (fuel : nat) (h : gmap Z KvItem) (item : option Z) (sum : Z)
    : option (gmap Z KvItem * Z) :=
  match item with
  | None => Some (h, sum)
  | Some p =>
      match fuel with
      | O => None
      | S fuel => it ← h !! p; h ← FreeItem h p; free_items fuel h (it_next it) (sum - 1)
      end
  end.

Definition ClearKVCacheInner (c : Cache) : option (Z * Cache) :=
  match g_itemHeader c with
  | None => Some (EC_SUCCESS, c)
  | Some _ =>
      '(h, sum) ← free_items (size (heap c)) (heap c) (g_itemHeader c) (g_sum c);
      Some (if sum =? 0 then EC_SUCCESS else EC_FAILURE, mkCache h None None sum (brk c) (mallocs c))
  end.
End Limit.

(** * The cache refines a bounded list

    The items on the heap, followed from the head, spell out a list of keys and values,
    the newest first; every operation is defined and does to that list what the
    abstract operation does. *)

(** ** The abstract cache *)
Abbreviation entry := (string * string)%type.

Fixpoint forget (key : string) (l : list entry) : list entry :=
  match l with
  | [] => []
  | (k, v) :: l => if decide (key = k) then l else (k, v) :: forget key l
  end.

Fixpoint recall (key : string) (l : list entry) : option string :=
  match l with
  | [] => None
  | (k, v) :: l => if decide (key = k) then Some v else recall key l
  end.

(** ** Segments of the list: items from the first on, with what lies before and after *)
Abbreviation node := (Z * entry)%type.

Definition first_or (next : option Z) (l : list node) : option Z :=
  match l with [] => next | (p, _) :: _ => Some p end.
Fixpoint last_or (prev : option Z) (l : list node) : option Z :=
  match l with [] => prev | (p, _) :: l => last_or (Some p) l end.

Fixpoint seg (h : gmap Z KvItem) (prev : option Z) (l : list node) (next : option Z) : Prop :=
  match l with
  | [] => True
  | (p, (k, v)) :: l =>
      h !! p = Some (mkItem k v (first_or next l) prev) /\ seg h (Some p) l next
  end.

Lemma first_or_app next l1 l2 : first_or next (l1 ++ l2) = first_or (first_or next l2) l1.
Proof. by destruct l1 as [|[p e] l1]. Qed.

Lemma last_or_app l1 : forall prev l2, last_or prev (l1 ++ l2) = last_or (last_or prev l1) l2.
Proof. induction l1 as [|[p e] l1 IH]; intros prev l2; [done|]. apply IH. Qed.

Lemma seg_app h l1 : forall prev l2 next,
  seg h prev (l1 ++ l2) next <->
  seg h prev l1 (first_or next l2) /\ seg h (last_or prev l1) l2 next.
Proof.
  induction l1 as [|[p [k v]] l1 IH]; intros prev l2 next; simpl; [tauto|].
  rewrite IH, first_or_app. tauto.
Qed.

(** A segment depends on its own items only. *)
Lemma seg_frame h h' l : forall prev next,
  (forall p, p ∈ l.*1 -> h' !! p = h !! p) -> seg h prev l next -> seg h' prev l next.
Proof.
  induction l as [|[p [k v]] l IH]; intros prev next Hh; [done|]. intros [Hp Hl]. split.
  - rewrite Hh; [done|]. rewrite fmap_cons. by left.
  - apply IH; [|done]. intros q Hq. apply Hh. rewrite fmap_cons. by right.
Qed.

(** Pointing the last item elsewhere, and the first. *)
Lemma seg_set_next h l p k v prev next next' :
  p ∉ l.*1 -> seg h prev (l ++ [(p, (k, v))]) next ->
  exists h', store_next h (Some p) next' = Some h' /\
    seg h' prev (l ++ [(p, (k, v))]) next' /\ forall q, q <> p -> h' !! q = h !! q.
Proof.
  intros Hp Hs. apply seg_app in Hs as [Hs1 [Hs2 _]]. unfold store_next. simpl. rewrite Hs2. simpl.
  eexists. split; [done|]. split; [|intros q Hq; by rewrite lookup_insert_ne].
  apply seg_app. split; [|split; [by rewrite lookup_insert_eq|done]].
  eapply seg_frame; [|exact Hs1]. intros q Hq. rewrite lookup_insert_ne; [done|]. by intros ->.
Qed.

Lemma seg_set_prev h l p k v prev next prev' :
  p ∉ l.*1 -> seg h prev ((p, (k, v)) :: l) next ->
  exists h', store_prev h (Some p) prev' = Some h' /\
    seg h' prev' ((p, (k, v)) :: l) next /\ forall q, q <> p -> h' !! q = h !! q.
Proof.
  intros Hp [Hs1 Hs2]. unfold store_prev. simpl. rewrite Hs1. simpl.
  eexists. split; [done|]. split; [|intros q Hq; by rewrite lookup_insert_ne].
  split; [by rewrite lookup_insert_eq|]. eapply seg_frame; [|exact Hs2].
  intros q Hq. rewrite lookup_insert_ne; [done|]. by intros ->.
Qed.

(** ** The invariant: the heap holds exactly the items of the list *)
Record cache_list (c : Cache) (l : list node) : Prop := {
  cl_seg : seg (heap c) None l None;
  cl_nodup : NoDup l.*1;
  cl_dom : forall p, is_Some (heap c !! p) -> p ∈ l.*1;
  cl_header : g_itemHeader c = first_or None l;
  cl_tail : g_itemTail c = last_or None l;
  cl_sum : g_sum c = Z.of_nat (length l);
  cl_brk : forall p, p ∈ l.*1 -> p < brk c;
}.

(** What a cache stands for. *)
Definition cache_is (c : Cache) (es : list entry) : Prop := exists l, cache_list c l /\ l.*2 = es.

Lemma cache_size c l : cache_list c l -> size (heap c) = length l.
Proof.
  intros Hc. rewrite <- size_dom. replace (dom (heap c)) with (list_to_set l.*1 : gset Z).
  - rewrite size_list_to_set by apply Hc. by rewrite length_fmap.
  - apply set_eq. intros p. rewrite elem_of_list_to_set, elem_of_dom. split; [|apply Hc].
    intros Hp. apply list_elem_of_fmap in Hp as ([p' [k v]] & -> & Hp).
    apply list_elem_of_split in Hp as (l1 & l2 & ->). pose proof (cl_seg _ _ Hc) as Hs.
    apply seg_app in Hs as [_ [Hs _]]. simpl. by eexists.
Qed.

(** ** The search *)
Fixpoint where_is (key : string) (l : list node) : option Z :=
  match l with
  | [] => None
  | (p, (k, _)) :: l => if decide (key = k) then Some p else where_is key l
  end.

Lemma find_item_spec h key l : forall p e prev fuel,
  seg h prev ((p, e) :: l) None -> (length l <= fuel)%nat ->
  find_item fuel h key p = Some (where_is key ((p, e) :: l)).
Proof.
  induction l as [|[q e'] l IH]; intros p [k v] prev fuel [Hp Hs] Hf; destruct fuel as [|fuel];
    simpl in Hf; try lia; cbn [find_item where_is]; rewrite Hp;
    cbn [mbind option_bind it_key it_next first_or]; destruct (decide (key = k)); try done.
  rewrite (IH q e' (Some p)); [done|exact Hs|lia].
Qed.

Lemma where_is_spec key l :
  match where_is key l with
  | Some p => exists l1 v l2, l = l1 ++ (p, (key, v)) :: l2 /\
      forget key l.*2 = l1.*2 ++ l2.*2 /\ recall key l.*2 = Some v
  | None => forget key l.*2 = l.*2 /\ recall key l.*2 = None
  end.
Proof.
  induction l as [|[p [k v]] l IH]; [done|]. rewrite !fmap_cons. cbn [where_is forget recall snd].
  destruct (decide (key = k)) as [<-|Hk]; [by exists [], v, l|].
  destruct (where_is key l) as [q|].
  - destruct IH as (l1 & v' & l2 & -> & Hf & Hr). exists ((p, (k, v)) :: l1), v', l2.
    by rewrite Hf, Hr, !fmap_cons.
  - by destruct IH as [-> ->].
Qed.

Lemma cache_finds c p e l key :
  cache_list c ((p, e) :: l) ->
  find_item (size (heap c)) (heap c) key p = Some (where_is key ((p, e) :: l)).
Proof.
  intros Hc. apply (find_item_spec _ _ _ _ _ None); [apply Hc|]. rewrite (cache_size _ _ Hc). simpl. lia.
Qed.

Lemma strnlen_leb s n : (n <=? strnlen s n)%nat = (n <=? String.length s)%nat.
Proof.
  unfold strnlen. destruct (Nat.leb_spec n (String.length s));
    [apply Nat.leb_le|apply Nat.leb_gt]; lia.
Qed.
Lemma strnlen_small s n : (String.length s < n)%nat -> strnlen s n = String.length s.
Proof. unfold strnlen. lia. Qed.

(** ** Looking up *)
Lemma GetValueByCache_spec `{KvConfig} c es key maxLen :
  cache_is c es ->
  GetValueByCache key maxLen c =
    Some (match recall key es with
          | Some v =>
              if (MAX_VALUE_LEN <=? String.length v)%nat || (maxLen <=? Z.of_nat (String.length v))
              then (EC_FAILURE, None) else (EC_SUCCESS, Some v)
          | None => (EC_FAILURE, None)
          end).
Proof.
  intros (l & Hc & <-). unfold GetValueByCache. rewrite (cl_header _ _ Hc).
  destruct l as [|[p e] l]; [done|]. cbn [first_or]. rewrite (cache_finds c p e l key Hc).
  cbn [mbind option_bind]. pose proof (where_is_spec key ((p, e) :: l)) as Hw.
  destruct (where_is key ((p, e) :: l)) as [q|].
  - destruct Hw as (l1 & v & l2 & El & _ & ->). pose proof (cl_seg _ _ Hc) as Hs. rewrite El in Hs.
    apply seg_app in Hs as [_ [Hq _]]. rewrite Hq. cbn [mbind option_bind it_value].
    rewrite strnlen_leb. destruct (Nat.leb_spec MAX_VALUE_LEN (String.length v)) as [Hl|Hl]; [done|].
    rewrite strnlen_small by done. cbn [orb]. by destruct (maxLen <=? _).
  - by destruct Hw as [_ ->].
Qed.

(** ** Relinking: the neighbours of a removed item *)
Lemma relink_next h prev l next next' :
  l <> [] -> NoDup l.*1 -> seg h prev l next ->
  exists h', store_next h (last_or prev l) next' = Some h' /\ seg h' prev l next' /\
    (forall q, q ∉ l.*1 -> h' !! q = h !! q) /\ dom h' = dom h.
Proof.
  intros Hne Hnd Hs. destruct l as [|[p [k v]] l _] using rev_ind; [done|].
  rewrite fmap_app in Hnd. apply NoDup_app in Hnd as (_ & Hp & _).
  destruct (seg_set_next h l p k v prev next next') as (h' & E & Hs' & Hq); [|done|].
  { intros Hin. apply (Hp p Hin). by left. }
  exists h'. rewrite last_or_app. split_and!; [done|done| |].
  - intros q Hq'. apply Hq. intros ->. apply Hq'. rewrite fmap_app. apply elem_of_app. right. by left.
  - unfold store_next in E. apply bind_Some in E as (x & Ex & E). apply bind_Some in E as (it & Eit & E).
    simplify_eq. rewrite dom_insert_L. apply subseteq_union_1_L. apply singleton_subseteq_l.
    by apply elem_of_dom.
Qed.

Lemma relink_prev h prev l next prev' :
  l <> [] -> NoDup l.*1 -> seg h prev l next ->
  exists h', store_prev h (first_or next l) prev' = Some h' /\ seg h' prev' l next /\
    (forall q, q ∉ l.*1 -> h' !! q = h !! q) /\ dom h' = dom h.
Proof.
  intros Hne Hnd Hs. destruct l as [|[p [k v]] l]; [done|].
  rewrite fmap_cons in Hnd. apply NoDup_cons in Hnd as [Hp _].
  destruct (seg_set_prev h l p k v prev next prev') as (h' & E & Hs' & Hq); [done|done|].
  exists h'. split_and!; [done|done| |].
  - intros q Hq'. apply Hq. intros ->. apply Hq'. by left.
  - unfold store_prev in E. apply bind_Some in E as (x & Ex & E). apply bind_Some in E as (it & Eit & E).
    simplify_eq. rewrite dom_insert_L. apply subseteq_union_1_L. apply singleton_subseteq_l.
    by apply elem_of_dom.
Qed.

(** The list without an item, whose neighbours were relinked. *)
Lemma unlinked h p e l1 l2 sum b ms :
  seg h None l1 (first_or None l2) -> seg h (last_or None l1) l2 None ->
  NoDup ((l1 ++ (p, e) :: l2).*1) -> is_Some (h !! p) ->
  (forall q, q ∈ dom h -> q ∈ (l1 ++ (p, e) :: l2).*1) ->
  (forall q, q ∈ (l1 ++ (p, e) :: l2).*1 -> q < b) -> sum = Z.of_nat (length l1 + length l2) ->
  exists h', FreeItem h p = Some h' /\
    cache_list (mkCache h' (first_or None (l1 ++ l2)) (last_or None (l1 ++ l2)) sum b ms) (l1 ++ l2).
Proof.
  intros H1 H2 Hnd [it Hit] Hdom Hb Hsum. unfold FreeItem. rewrite Hit. simpl. eexists. split; [done|].
  rewrite fmap_app, fmap_cons in *.
  assert (Hp : (p ∉ l1.*1) /\ (p ∉ l2.*1)).
  { apply NoDup_app in Hnd as (_ & Hd & Hn). apply NoDup_cons in Hn as [Hn _]. split; [|done].
    intros Hin. apply (Hd p Hin). by left. }
  destruct Hp as [Hp1 Hp2]. split; simpl; try done.
  - apply seg_app. split; (eapply seg_frame; [|eassumption]); intros q Hq;
      (rewrite lookup_delete_ne; [done|]); by intros <-.
  - rewrite fmap_app. apply NoDup_app in Hnd as (Hn1 & Hd & Hn). apply NoDup_cons in Hn as [_ Hn2].
    apply NoDup_app. split_and!; try done. intros q Hq Hq2. apply (Hd q Hq). by right.
  - intros q Hq. apply elem_of_dom in Hq. rewrite dom_delete in Hq. apply elem_of_difference in Hq as [Hq Hne].
    apply Hdom in Hq. rewrite fmap_app. apply elem_of_app in Hq as [Hq|Hq]; apply elem_of_app; [by left|].
    apply elem_of_cons in Hq as [->|Hq]; [|by right]. by destruct Hne; apply elem_of_singleton.
  - rewrite length_app. lia.
  - intros q Hq. apply Hb. rewrite fmap_app in Hq. apply elem_of_app in Hq as [Hq|Hq]; apply elem_of_app;
      [by left|by right; right].
Qed.

(** ** Deleting *)
Lemma nodup_parts (l1 : list node) p e l2 :
  NoDup (l1 ++ (p, e) :: l2).*1 ->
  NoDup l1.*1 /\ NoDup l2.*1 /\ (p ∉ l1.*1) /\ (p ∉ l2.*1) /\ (forall q, q ∈ l1.*1 -> q ∉ l2.*1).
Proof.
  rewrite fmap_app, fmap_cons. intros (Hn1 & Hd & Hn)%NoDup_app. apply NoDup_cons in Hn as [Hp Hn2].
  split_and!; try done.
  - intros Hin. apply (Hd p Hin). by left.
  - intros q Hq Hq2. apply (Hd q Hq). by right.
Qed.

Lemma last_or_elem l : forall prev p, last_or prev l = Some p -> l <> [] -> p ∈ l.*1.
Proof.
  induction l as [|[q e] l IH]; intros prev p Hl Hne; [done|]. rewrite fmap_cons. simpl in Hl.
  destruct l as [|x l]; [simpl in Hl; simplify_eq; by left|right]. by eapply IH.
Qed.

Lemma DeleteKVCache_list c l l1 q key v l2 :
  cache_list c l -> l = l1 ++ (q, (key, v)) :: l2 -> where_is key l = Some q ->
  exists c', DeleteKVCache key c = Some c' /\ cache_list c' (l1 ++ l2) /\ mallocs c' = mallocs c.
Proof.
  intros Hc El Hw. destruct c as [h hd tl sum b ms]. pose proof Hc as [Hs Hnd Hdom Hh Ht Hsum Hb].
  cbn [heap g_itemHeader g_itemTail g_sum brk] in *. unfold DeleteKVCache.
  destruct l as [|[p e] l]; [by destruct l1|]. cbn [first_or] in Hh. subst hd.
  pose proof (cache_finds _ _ _ _ key Hc) as Ef. cbn [heap] in Ef. rewrite Ef, Hw. cbn [mbind option_bind].
  rewrite El in Hs, Hnd, Hdom, Ht, Hsum, Hb.
  pose proof (nodup_parts _ _ _ _ Hnd) as (Hn1 & Hn2 & Hq1 & Hq2 & Hd).
  apply seg_app in Hs as [Hs1 [Hq Hs2]]. cbn [first_or] in Hs1. rewrite Hq. cbn [mbind option_bind it_next it_prev].
  assert (Hdom' : forall x, x ∈ dom h -> x ∈ (l1 ++ (q, (key, v)) :: l2).*1)
    by (intros x Hx; apply Hdom; by apply elem_of_dom).
  rewrite length_app in Hsum. cbn [length] in Hsum.
  assert (Hp : Some p = first_or None (l1 ++ (q, (key, v)) :: l2)) by (by rewrite <- El).
  rewrite last_or_app in Ht. cbn [last_or] in Ht.
  destruct l1 as [|x1 l1'] eqn:E1; destruct l2 as [|[p2 e2] l2'] eqn:E2.
  - (* the only item *)
    simpl in Hsum. replace (sum - 1 =? 0) with true by (symmetry; apply Z.eqb_eq; lia).
    destruct (unlinked h q (key, v) [] [] (sum - 1) b ms) as (h' & -> & Hc'); try done; [simpl; lia|].
    cbn [mbind option_bind]. by eexists.
  - (* the head *)
    simpl in Hsum. rewrite (proj2 (Z.eqb_neq _ _)) by lia. injection Hp as ->.
    rewrite decide_True by done.
    destruct (relink_prev h (Some q) ((p2, e2) :: l2') None None) as (h1 & E & Hs' & Hk & Hdm); try done.
    rewrite E. cbn [mbind option_bind first_or].
    destruct (unlinked h1 q (key, v) [] ((p2, e2) :: l2') (sum - 1) b ms) as (h' & -> & Hc'); try done.
    + rewrite Hk by done. by eexists.
    + by rewrite Hdm.
    + simpl. lia.
    + cbn [mbind option_bind]. eexists. split; [done|]. split; [|done]. by rewrite Ht.
  - (* the tail *)
    rewrite <- E1 in *. simpl in Hsum. rewrite (proj2 (Z.eqb_neq _ _)) by (rewrite E1 in Hsum; simpl in Hsum; lia).
    assert (Hpq : Some q <> Some p).
    { intros [= ->]. apply Hq1. rewrite E1 in Hp |- *. destruct x1. simpl in Hp. simplify_eq. by left. }
    rewrite decide_False by done. rewrite decide_True by (by rewrite Ht).
    destruct (relink_next h None l1 (Some q) None) as (h1 & E & Hs' & Hk & Hdm); try done; [by rewrite E1|].
    rewrite E. cbn [mbind option_bind].
    destruct (unlinked h1 q (key, v) l1 [] (sum - 1) b ms) as (h' & -> & Hc'); try done.
    + rewrite Hk by done. by eexists.
    + by rewrite Hdm.
    + simpl. lia.
    + cbn [mbind option_bind]. eexists. split; [done|]. rewrite app_nil_r in *. split; [|done].
      replace (Some p) with (first_or None l1); [done|]. rewrite Hp, E1. by destruct x1.
  - (* in the middle *)
    rewrite <- E1 in *. rewrite <- E2 in *. assert (Hl1 : l1 <> []) by (by rewrite E1).
    assert (Hl2 : l2 <> []) by (by rewrite E2).
    rewrite (proj2 (Z.eqb_neq _ _)) by (rewrite E1, E2 in Hsum; simpl in Hsum; lia).
    assert (Hpq : Some q <> Some p).
    { intros [= ->]. apply Hq1. rewrite E1 in Hp |- *. destruct x1. simpl in Hp. simplify_eq. by left. }
    assert (Hqt : Some q <> tl).
    { rewrite Ht. intros Heq. symmetry in Heq. apply last_or_elem in Heq; [|done]. done. }
    rewrite !decide_False by done.
    destruct (relink_next h None l1 (Some q) (first_or None l2)) as (h1 & E & Hs1' & Hk & Hdm); try done.
    rewrite E. cbn [mbind option_bind].
    destruct (relink_prev h1 (Some q) l2 None (last_or None l1)) as (h2 & E' & Hs2' & Hk2 & Hdm2); try done.
    { eapply seg_frame; [|exact Hs2]. intros x Hx. apply Hk. intros Hx1. by apply (Hd x). }
    rewrite E'. cbn [mbind option_bind].
    destruct (unlinked h2 q (key, v) l1 l2 (sum - 1) b ms) as (h' & -> & Hc'); try done.
    + eapply seg_frame; [|exact Hs1']. intros x Hx. apply Hk2. by apply Hd.
    + rewrite Hk2, Hk by done. by eexists.
    + by rewrite Hdm2, Hdm.
    + simpl in Hsum. lia.
    + cbn [mbind option_bind]. eexists. split; [done|]. split; [|done].
      replace tl with (last_or None (l1 ++ l2)) by (rewrite Ht, last_or_app, E2; done).
      replace (Some p) with (first_or None (l1 ++ l2)); [done|].
      rewrite Hp, !first_or_app, E1. by destruct x1.
Qed.

Lemma DeleteKVCache_spec c es key :
  cache_is c es ->
  exists c', DeleteKVCache key c = Some c' /\ cache_is c' (forget key es) /\ mallocs c' = mallocs c.
Proof.
  intros (l & Hc & <-). pose proof (where_is_spec key l) as Hw. destruct (where_is key l) as [q|] eqn:Eq.
  - destruct Hw as (l1 & v & l2 & El & -> & _).
    destruct (DeleteKVCache_list c l l1 q key v l2 Hc El Eq) as (c' & E & Hc' & Hm).
    exists c'. split_and!; [done| |done]. exists (l1 ++ l2). by rewrite fmap_app.
  - destruct Hw as [-> _]. exists c. split_and!; [|by exists l|done]. unfold DeleteKVCache.
    destruct c as [h hd tl sum b ms]. pose proof (cl_header _ _ Hc) as Hh. cbn [g_itemHeader] in Hh. subst hd.
    destruct l as [|[p e] l]; [done|]. cbn [first_or].
    pose proof (cache_finds _ _ _ _ key Hc) as Ef. cbn [heap] in Ef. by rewrite Ef, Eq.
Qed.

(** ** Dropping the oldest items *)
Lemma store_next_delete h p q next h' :
  q <> Some p -> store_next h q next = Some h' -> store_next (delete p h) q next = Some (delete p h').
Proof.
  unfold store_next. destruct q as [q|]; [|done]. intros Hpq. cbn [mbind option_bind].
  rewrite lookup_delete_ne by congruence. destruct (h !! q) as [it|]; [|done].
  cbn [mbind option_bind]. intros [= <-]. rewrite delete_insert_ne by congruence. done.
Qed.

Lemma drop_last h hd tl sum b ms l p k v :
  cache_list (mkCache h hd tl sum b ms) (l ++ [(p, (k, v))]) -> l <> [] ->
  exists it h1 h2, tl = Some p /\ h !! p = Some it /\ FreeItem h p = Some h1 /\
    store_next h1 (it_prev it) None = Some h2 /\
    cache_list (mkCache h2 hd (it_prev it) (sum - 1) b ms) l.
Proof.
  intros Hc Hl. pose proof Hc as [Hs Hnd Hdom Hh Ht Hsum Hb]. cbn [heap g_itemHeader g_itemTail g_sum brk] in *.
  pose proof (nodup_parts _ _ _ _ Hnd) as (Hn1 & _ & Hq1 & _ & _).
  apply seg_app in Hs as [Hs1 [Hp _]]. cbn [first_or] in Hs1, Hp. rewrite last_or_app in Ht. cbn [last_or] in Ht.
  destruct (relink_next h None l (Some p) None Hl Hn1 Hs1) as (h' & E & Hs' & Hk & Hdm).
  destruct (unlinked h' p (k, v) l [] (sum - 1) b ms) as (h'' & Ef & Hc'); try done.
  - rewrite Hk by done. by eexists.
  - rewrite Hdm. intros x Hx. apply Hdom. by apply elem_of_dom.
  - rewrite length_app in Hsum. simpl in *. lia.
  - exists (mkItem k v None (last_or None l)), (delete p h), (delete p h'). cbn [it_prev].
    assert (Hne : last_or None l <> Some p) by (intros Heq; by apply last_or_elem in Heq).
    split_and!; [done|done|by unfold FreeItem; rewrite Hp|by apply store_next_delete|].
    rewrite app_nil_r in Hc'. unfold FreeItem in Ef. rewrite Hk, Hp in Ef by done. injection Ef as <-.
    rewrite Hh. destruct l as [|[p1 e1] l]; [done|]. exact Hc'.
Qed.

Lemma drop_items_spec `{KvConfig} fuel : forall c l,
  cache_list c l -> (length l <= fuel)%nat ->
  exists c', drop_items fuel c = Some c' /\ cache_list c' (take (Z.to_nat MAX_CACHE_SIZE) l) /\
    mallocs c' = mallocs c.
Proof.
  pose proof cache_holds_one as Hone.
  induction fuel as [|fuel IH]; intros c l Hc Hf; destruct c as [h hd tl sum b ms]; cbn [drop_items];
    pose proof (cl_sum _ _ Hc) as Hsum; cbn [g_sum] in Hsum; destruct (Z.gtb_spec sum MAX_CACHE_SIZE) as [Hgt|Hle];
    try lia; try (rewrite take_ge by lia; by eexists).
  destruct l as [|[p [k v]] l _] using rev_ind; [simpl in Hsum; lia|]. rewrite length_app in Hsum, Hf.
  simpl in Hsum, Hf. assert (Hl : l <> []) by (intros ->; simpl in Hsum; lia).
  destruct (drop_last _ _ _ _ _ _ _ _ _ _ Hc Hl) as (it & h1 & h2 & -> & Ep & Ef & E & Hc').
  cbn [mbind option_bind]. rewrite Ep. cbn [mbind option_bind]. rewrite Ef. cbn [mbind option_bind].
  rewrite E. cbn [mbind option_bind].
  destruct (IH _ l Hc') as (c' & -> & Hc'' & Hm); [lia|]. exists c'. split_and!; [done| |done].
  rewrite take_app_le by lia. done.
Qed.

(** ** Adding *)
(** Three allocations: the item, its key and its value; the last two are tried both. *)
Definition allocated (ms : list bool) : bool :=
  default true (head ms) && (default true (head (tail ms)) && default true (head (tail (tail ms)))).

Definition remember `{KvConfig} (key value : string) (isNew got : bool) (es : list entry) : list entry :=
  if ((MAX_KEY_LEN <=? String.length key) || (MAX_VALUE_LEN <=? String.length value))%nat then es
  else
    let es := if isNew then forget key es else es in
    if got then take (Z.to_nat MAX_CACHE_SIZE) ((key, value) :: es) else es.

Lemma cache_list_malloc c l ms :
  cache_list c l ->
  cache_list (mkCache (heap c) (g_itemHeader c) (g_itemTail c) (g_sum c) (brk c) ms) l.
Proof. by intros [? ? ? ? ? ? ?]. Qed.

(** Linking a new item in front. *)
Lemma cache_list_push h hd tl sum b ms l key value :
  cache_list (mkCache h hd tl sum b ms) l ->
  match l with
  | [] => cache_list (mkCache (<[b := mkItem key value None None]> h) (Some b) (Some b) (sum + 1) (b + 1) ms)
            [(b, (key, value))]
  | _ => exists h', store_prev (<[b := mkItem key value hd None]> h) hd (Some b) = Some h' /\
      cache_list (mkCache h' (Some b) tl (sum + 1) (b + 1) ms) ((b, (key, value)) :: l)
  end.
Proof.
  intros [Hs Hnd Hdom Hh Ht Hsum Hb]. cbn [heap g_itemHeader g_itemTail g_sum brk] in *.
  assert (Hfresh : b ∉ l.*1) by (intros Hin; apply Hb in Hin; lia).
  set (h0 := <[b := mkItem key value hd None]> h).
  assert (Hs0 : seg h0 None l None).
  { eapply seg_frame; [|exact Hs]. intros q Hq. unfold h0. rewrite lookup_insert_ne; [done|]. by intros <-. }
  assert (Hb' : forall p, p ∈ ((b, (key, value)) :: l).*1 -> p < b + 1).
  { intros p Hp. apply elem_of_cons in Hp as [->|Hp]; [simpl; lia|]. apply Hb in Hp. lia. }
  destruct l as [|[p1 e1] l].
  - subst hd. split; simpl; try done.
    + split; [by rewrite lookup_insert_eq|done].
    + apply NoDup_singleton.
    + intros p [it Hp]. rewrite lookup_insert in Hp. case_decide as Hd; [subst; by left|].
      right. apply Hdom. by rewrite Hp.
    + simpl in Hsum. lia.
  - destruct (relink_prev h0 None ((p1, e1) :: l) None (Some b)) as (h' & E & Hs' & Hk & Hdm); try done.
    exists h'. split; [by rewrite <- Hh in E|]. split; simpl; try done.
    + split; [|exact Hs']. rewrite Hk by done. unfold h0. rewrite lookup_insert_eq. by rewrite Hh.
    + apply NoDup_cons. done.
    + intros p Hp. apply elem_of_dom in Hp. rewrite Hdm in Hp. unfold h0 in Hp. rewrite dom_insert in Hp.
      apply elem_of_union in Hp as [Hp|Hp]; [apply elem_of_singleton in Hp as ->; by left|].
      right. apply Hdom. by apply elem_of_dom.
    + simpl in Hsum |- *. lia.
Qed.

Lemma AddKVCache_spec `{KvConfig} c es key value isNew :
  cache_is c es ->
  exists c', AddKVCache key value isNew c = Some c' /\
    cache_is c' (remember key value isNew (allocated (mallocs c)) es).
Proof.
  intros Hc. unfold AddKVCache, remember. rewrite !strnlen_leb.
  destruct (_ || _); [by eexists|].
  assert (exists c0, (if isNew then DeleteKVCache key c else Some c) = Some c0 /\
    cache_is c0 (if isNew then forget key es else es) /\ mallocs c0 = mallocs c) as (c0 & -> & Hc0 & <-).
  { destruct isNew; [by apply DeleteKVCache_spec|]. by exists c. }
  set (es0 := if isNew then forget key es else es) in *. clearbody es0. clear Hc c es isNew.
  destruct Hc0 as (l & Hc & <-). destruct c0 as [h hd tl sum b ms]. cbn [mbind option_bind].
  unfold malloc, allocated. cbn [heap g_itemHeader g_itemTail g_sum brk mallocs].
  assert (Hany : forall ms', cache_is (mkCache h hd tl sum b ms') l.*2).
  { intros ms'. exists l. split; [|done]. exact (cache_list_malloc _ _ ms' Hc). }
  destruct (default true (head ms)); cbn [negb andb]; [|by eexists].
  destruct (default true (head (tail ms))); cbn [negb orb andb]; [|by eexists].
  destruct (default true (head (tail (tail ms)))); cbn [negb]; [|by eexists].
  apply (cache_list_malloc _ _ (tail (tail (tail ms)))) in Hc. cbn in Hc.
  pose proof (cache_list_push _ _ _ _ _ _ _ key value Hc) as Hp. pose proof (cl_header _ _ Hc) as Hh.
  cbn [g_itemHeader] in Hh. pose proof cache_holds_one as Hone. destruct l as [|[p1 e1] l]; subst hd; cbn [first_or].
  - eexists. split; [done|]. exists [(b, (key, value))]. split; [exact Hp|].
    rewrite take_ge; [done|]. simpl. lia.
  - destruct Hp as (h' & E & Hp). cbn [first_or] in *. rewrite E. cbn [mbind option_bind].
    pose proof (cl_sum _ _ Hc) as Hsum. cbn [g_sum] in Hsum.
    destruct (drop_items_spec (Z.to_nat (sum + 1)) _ _ Hp) as (c' & -> & Hc' & _); [simpl in *; lia|].
    eexists. split; [done|]. exists (take (Z.to_nat MAX_CACHE_SIZE) ((b, (key, value)) :: (p1, e1) :: l)).
    split; [done|]. by rewrite fmap_take.
Qed.

(** ** Clearing *)
Lemma free_items_spec fuel : forall h prev l sum,
  seg h prev l None -> NoDup l.*1 -> (length l <= fuel)%nat ->
  exists h', free_items fuel h (first_or None l) sum = Some (h', sum - Z.of_nat (length l)) /\
    forall p, h' !! p = if decide (p ∈ l.*1) then None else h !! p.
Proof.
  induction fuel as [|fuel IH]; intros h prev l sum Hs Hnd Hf; destruct l as [|[p [k v]] l];
    try (simpl in Hf; lia); try (exists h; split; [cbn [first_or free_items length]; do 2 f_equal; lia|];
      intros p; rewrite decide_False; [done|]; by intros ?%not_elem_of_nil).
  destruct Hs as [Hp Hs]. rewrite fmap_cons in Hnd. apply NoDup_cons in Hnd as [Hpl Hnd].
  cbn [first_or free_items]. unfold FreeItem. rewrite Hp. cbn [mbind option_bind it_next].
  destruct (IH (delete p h) (Some p) l (sum - 1)) as (h' & E & Hh'); [|done|simpl in Hf; lia|].
  { eapply seg_frame; [|exact Hs]. intros q Hq. rewrite lookup_delete_ne; [done|]. by intros <-. }
  exists h'. split; [rewrite E; do 2 f_equal; simpl; lia|]. intros q. rewrite Hh', fmap_cons.
  destruct (decide (q ∈ l.*1)) as [Hq|Hq].
  - rewrite decide_True; [done|]. by right.
  - destruct (decide (q = p)) as [->|Hqp].
    + rewrite decide_True by (by left). by rewrite lookup_delete_eq.
    + rewrite decide_False by (intros [?|?]%elem_of_cons; done). by rewrite lookup_delete_ne.
Qed.

Lemma ClearKVCacheInner_spec `{KvConfig} c es :
  cache_is c es ->
  exists c', ClearKVCacheInner c = Some (EC_SUCCESS, c') /\ cache_is c' [] /\ mallocs c' = mallocs c.
Proof.
  intros (l & Hc & <-). unfold ClearKVCacheInner. pose proof (cl_header _ _ Hc) as Hh.
  destruct l as [|[p e] l].
  { rewrite Hh. exists c. split_and!; [done| |done]. by exists []. }
  rewrite Hh. cbn [first_or] in *. change (Some p) with (first_or None ((p, e) :: l)).
  destruct (free_items_spec (size (heap c)) (heap c) None ((p, e) :: l) (g_sum c)) as (h' & -> & Hh');
    [apply Hc|apply Hc|by rewrite (cache_size _ _ Hc)|].
  cbn [mbind option_bind]. rewrite (cl_sum _ _ Hc), Z.sub_diag.
  eexists. split; [done|]. split; [|done]. exists []. split; [|done]. split; simpl; try done.
  - apply NoDup_nil_2.
  - intros q [it Hq]. rewrite Hh' in Hq. case_decide as Hd; [done|]. destruct Hd. apply Hc. by rewrite Hq.
  - intros q Hq. by apply not_elem_of_nil in Hq.
Qed.
