(* ===== verification/KvStore.v ===== *)
(** * The key-value store on POSIX files

    Model of frameworks/native/kv_store/src/kvstore_impl_posix/kv_store.c: every value
    is a file of the directory "kvstore" under a data path, recent ones are in the
    cache too, and a counter remembers how many files there are.

    A computation is a function from the state to its result and the new state, or
    [None] where the execution is undefined (only the cache follows pointers).
    The directories are known by the path they are spelled with and hold regular
    files without NUL in their contents; every system call and allocation takes the next
    answer of the environment, which may be a failure. *)
From S2P Require Import Prelude KvCache.
From Stdlib Require Import Ascii.

#[local] Open Scope list_scope.

(** What the environment does to a call: a write may also stop early. *)
Inductive answer := Works | Fails | Short (n : nat).

Abbreviation directory := (gmap string string).

(** A data path that exists has a "kvstore" directory or not. *)
Record KvState := mkState {
  cache : Cache;
  g_kvSum : Z;
  g_getKvSum : bool;
  g_dataPath : string;
  disks : gmap string (option directory);
  answers : list answer;
}.

Definition M (A : Type) : Type := KvState -> option (A * KvState).
#[global] Instance M_ret : MRet M := fun A a s => Some (a, s).
#[global] Instance M_bind : MBind M := fun A B f m s => '(a, s) ← m s; f a s.

Definition with_cache (s : KvState) (c : Cache) : KvState :=
  mkState c (g_kvSum s) (g_getKvSum s) (g_dataPath s) (disks s) (answers s).
Definition with_disks (s : KvState) (d : gmap string (option directory)) : KvState :=
  mkState (cache s) (g_kvSum s) (g_getKvSum s) (g_dataPath s) d (answers s).

Definition get {A} (f : KvState -> A) : M A := fun s => Some (f s, s).
Definition set_kvSum (n : Z) : M unit := fun s =>
  Some ((), mkState (cache s) n (g_getKvSum s) (g_dataPath s) (disks s) (answers s)).
Definition set_getKvSum (b : bool) : M unit := fun s =>
  Some ((), mkState (cache s) (g_kvSum s) b (g_dataPath s) (disks s) (answers s)).
Definition cached {A} (f : Cache -> option (A * Cache)) : M A := fun s =>
  '(a, c) ← f (cache s); Some (a, with_cache s c).
Definition next_answer : M answer := fun s =>
  Some (default Works (head (answers s)),
        mkState (cache s) (g_kvSum s) (g_getKvSum s) (g_dataPath s) (disks s) (tail (answers s))).
(** A call without other outcomes than success and failure. *)
Definition works : M bool := a ← next_answer; mret (match a with Fails => false | _ => true end).

Definition KVSTORE_PATH : string := "kvstore".
Definition MAX_KEY_PATH : nat := 256.
Definition MAX_GET_VALUE_LEN : Z := 0x7FFFFFFF.
Definition PATH_MAX : nat := 4096.

(** "%s/%s" and "%s/%s/%s" into a buffer of [MAX_KEY_PATH + 1] bytes. *)
Definition kv_path (dataPath : string) : string := dataPath +:+ "/" +:+ KVSTORE_PATH.
Definition key_path (dataPath key : string) : string := kv_path dataPath +:+ "/" +:+ key.
Definition sprintf_ok (s : string) : bool := (String.length s <=? MAX_KEY_PATH)%nat.

(** The directory of a data path, and what a name in it is. The names "." and ".."
    are directories. *)
Definition directory_of (dataPath : string) (s : KvState) : option directory :=
  mjoin (disks s !! dataPath).
Definition is_dot (name : string) : bool := bool_decide (name = "." \/ name = "..").
Inductive node := NoEntry | Directory | File (content : string).
Definition lookup_node (dataPath name : string) (s : KvState) : node :=
  match directory_of dataPath s with
  | None => NoEntry
  | Some d =>
      if is_dot name then Directory
      else match d !! name with Some content => File content | None => NoEntry end
  end.
Definition change (dataPath : string) (f : directory -> directory) : M unit := fun s =>
  Some ((), with_disks s (match directory_of dataPath s with
                          | Some d => <[dataPath := Some (f d)]> (disks s)
                          | None => disks s
                          end)).
Definition make (dataPath : string) : M unit := fun s =>
  Some ((), with_disks s (<[dataPath := Some ∅]> (disks s))).

Section Store.
Context `{KvConfig}.

(** [realpath] of a path that does not exist fails with [ENOENT], and then the path
    is used as it is. There are no symbolic links: the file is the same. *)
Definition GetResolvedPath (dataPath key : string) (len : nat) : M Z :=
  got ← works;
  if negb got then mret EC_FAILURE
  else if negb (sprintf_ok (key_path dataPath key)) then mret EC_FAILURE
  else
    resolved ← works;
    if negb resolved then mret EC_FAILURE
    else
      n ← get (lookup_node dataPath key);
      mret (match n with
            | NoEntry => if (String.length (key_path dataPath key) <? len)%nat then EC_SUCCESS else EC_FAILURE
            | _ => EC_SUCCESS
            end).

(** The length or the failure, and the buffer. *)
Definition GetValueByFile (dataPath key : string) (len : Z) : M (Z * option string) :=
  got ← works;
  if negb got then mret (EC_FAILURE, None)
  else
    code ← GetResolvedPath dataPath key (PATH_MAX + 1);
    if negb (code =? EC_SUCCESS) then mret (EC_FAILURE, None)
    else
      stat ← works;
      n ← get (lookup_node dataPath key);
      match n with
      | NoEntry => mret (EC_FAILURE, None)
      | Directory => mret (EC_FAILURE, None) (* [read] fails on a directory, if not [stat] or the size before *)
      | File content =>
          let st_size := Z.of_nat (String.length content) in
          if negb stat then mret (EC_FAILURE, None)
          else if len <=? st_size then mret (EC_FAILURE, None)
          else
            opened ← works;
            if negb opened then mret (EC_FAILURE, None)
            else
              read ← works;
              if negb read then mret (EC_FAILURE, None) else mret (st_size, Some content)
      end.

Definition SetValueToFile (dataPath key value : string) : M Z :=
  got ← works;
  if negb got then mret EC_FAILURE
  else
    code ← GetResolvedPath dataPath key (PATH_MAX + 1);
    if negb (code =? EC_SUCCESS) then mret EC_FAILURE
    else
      opened ← works;
      n ← get (lookup_node dataPath key);
      d ← get (directory_of dataPath);
      if negb opened then mret EC_FAILURE
      else
        match d, n with
        | None, _ | _, Directory => mret EC_FAILURE
        | Some _, _ =>
            _ ← change dataPath (insert key "");
            a ← next_answer;
            match a with
            | Fails => mret EC_FAILURE
            | Short k => _ ← change dataPath (insert key (String.substring 0 k value)); mret EC_SUCCESS
            | Works => _ ← change dataPath (insert key value); mret EC_SUCCESS
            end
        end.

Definition DeleteValueFromFile (dataPath key : string) : M Z :=
  got ← works;
  if negb got then mret EC_FAILURE
  else if negb (sprintf_ok (key_path dataPath key)) then mret EC_FAILURE
  else
    unlinked ← works;
    n ← get (lookup_node dataPath key);
    match n with
    | File _ => if (unlinked : bool) then _ ← change dataPath (delete key); mret 0 else mret (-1)
    | _ => mret (-1)
    end.

Definition InitKv (dataPath : string) : M Z :=
  got ← works;
  if negb got then mret EC_FAILURE
  else if negb (sprintf_ok (kv_path dataPath)) then mret EC_FAILURE
  else
    accessed ← works;
    d ← get (directory_of dataPath);
    match d with
    | Some _ => if (accessed : bool) then mret EC_SUCCESS else mret EC_FAILURE (* [mkdir] finds it there *)
    | None =>
        made ← works;
        parent ← get (fun s => disks s !! dataPath);
        match parent with
        | Some None =>
            if (made : bool) then _ ← make dataPath; mret EC_SUCCESS else mret EC_FAILURE
        | _ => mret EC_FAILURE
        end
    end.

(** The loop over the names of the directory, "." and ".." among them. *)
Fixpoint count_items (kvPath : string) (names : list string) (sum : Z) : M Z :=
  match names with
  | [] => mret sum
  | name :: names =>
      if negb (sprintf_ok (kvPath +:+ "/" +:+ name)) then mret EC_FAILURE
      else
        stat ← works;
        if negb stat then mret EC_FAILURE
        else count_items kvPath names (if is_dot name then sum else sum + 1)
  end.

Definition GetCurrentItem (dataPath : string) : M Z :=
  if negb (sprintf_ok (kv_path dataPath)) then mret EC_FAILURE
  else
    opened ← works;
    d ← get (directory_of dataPath);
    match d with
    | None => mret EC_FAILURE
    | Some d =>
        if negb opened then mret EC_FAILURE
        else count_items (kv_path dataPath) ("." :: ".." :: (map_to_list d).*1) 0
    end.

Definition NewItem (dataPath key : string) : M bool :=
  got ← works;
  if negb got then mret false
  else if negb (sprintf_ok (key_path dataPath key)) then mret false
  else
    accessed ← works;
    n ← get (lookup_node dataPath key);
    mret (match n with NoEntry => true | _ => negb accessed end).

Definition UtilsGetValue (key : string) (len : Z) : M (Z * option string) :=
  if negb (IsValidKey key) || (len >? MAX_GET_VALUE_LEN) then mret (EC_INVALID, None)
  else
    dataPath ← get g_dataPath;
    '(hit, value) ← cached (fun c => r ← GetValueByCache key len c; Some (r, c));
    if hit =? EC_SUCCESS then mret (EC_SUCCESS, value)
    else
      '(ret, value) ← GetValueByFile dataPath key len;
      if ret <? 0 then mret (EC_FAILURE, None)
      else
        match value with
        | Some v =>
            _ ← cached (fun c => c ← AddKVCache key v false c; Some ((), c));
            mret (ret, Some v)
        | None => mret (ret, None)
        end.

(** The files are counted once. *)
Definition count_once (dataPath : string) : M bool :=
  known ← get g_getKvSum;
  if (known : bool) then mret true
  else
    n ← GetCurrentItem dataPath;
    _ ← set_kvSum n;
    if n <? 0 then mret false else _ ← set_getKvSum true; mret true.

Definition UtilsSetValue (key value : string) : M Z :=
  if negb (IsValidKey key) || negb (IsValidValue value MAX_VALUE_LEN) then mret EC_INVALID
  else
    dataPath ← get g_dataPath;
    ret ← InitKv dataPath;
    if negb (ret =? EC_SUCCESS) then _ ← set_getKvSum false; mret EC_FAILURE
    else
      counted ← count_once dataPath;
      if negb counted then mret EC_FAILURE
      else
        newItem ← NewItem dataPath key;
        kvSum ← get g_kvSum;
        if (MAX_KV_SUM <=? kvSum) && newItem then mret EC_FAILURE
        else
          ret ← SetValueToFile dataPath key value;
          if ret =? EC_SUCCESS then
            _ ← cached (fun c => c ← AddKVCache key value true c; Some ((), c));
            _ ← (if newItem : bool then set_kvSum (kvSum + 1) else mret ());
            mret ret
          else mret ret.

Definition UtilsDeleteValue (key : string) : M Z :=
  if negb (IsValidKey key) then mret EC_INVALID
  else
    dataPath ← get g_dataPath;
    _ ← cached (fun c => c ← DeleteKVCache key c; Some ((), c));
    ret ← DeleteValueFromFile dataPath key;
    if ret =? EC_SUCCESS then
      kvSum ← get g_kvSum;
      _ ← set_kvSum (kvSum - 1); mret ret
    else mret ret.

Definition ClearKVCache : M Z := cached ClearKVCacheInner.

(** [strcpy_s] of a path that does not fit empties the destination. *)
Definition UtilsSetEnv (path : string) : M Z := fun s =>
  if (String.length path <? MAX_KEY_PATH + 1)%nat then
    Some (EC_SUCCESS, mkState (cache s) (g_kvSum s) (g_getKvSum s) path (disks s) (answers s))
  else
    Some (EC_FAILURE, mkState (cache s) (g_kvSum s) (g_getKvSum s) "" (disks s) (answers s)).
End Store.

Definition initial (d : gmap string (option directory)) (l : list answer) : KvState :=
  mkState empty_cache 0 false "" d l.

(** * The store refines a bounded map

    On a disk whose calls work, the store behaves as a map from keys to values of a
    bounded size, whatever the cache holds and whichever of its allocations fail. *)

(** ** The abstract store *)
Definition storable (key : string) : bool := IsValidKey key && negb (is_dot key).

Inductive op :=
| OpGet (key : string) (len : Z)
| OpSet (key value : string)
| OpDelete (key : string)
| OpClear.

Inductive reply := Code (c : Z) | Value (v : string).

Section Abstract.
Context `{KvConfig}.

Definition spec (o : op) (m : directory) : reply * directory :=
  match o with
  | OpGet key len =>
      if negb (IsValidKey key) || (len >? MAX_GET_VALUE_LEN) then (Code EC_INVALID, m)
      else
        match m !! key with
        | Some v => if len <=? Z.of_nat (String.length v) then (Code EC_FAILURE, m) else (Value v, m)
        | None => (Code EC_FAILURE, m)
        end
  | OpSet key value =>
      if negb (IsValidKey key) || negb (IsValidValue value MAX_VALUE_LEN) then (Code EC_INVALID, m)
      else if negb (storable key) then (Code EC_FAILURE, m)
      else if (MAX_KV_SUM <=? Z.of_nat (size m)) && bool_decide (m !! key = None) then (Code EC_FAILURE, m)
      else (Code EC_SUCCESS, <[key := value]> m)
  | OpDelete key =>
      if negb (IsValidKey key) then (Code EC_INVALID, m)
      else
        match m !! key with
        | Some _ => (Code EC_SUCCESS, delete key m)
        | None => (Code (-1), m)
        end
  | OpClear => (Code EC_SUCCESS, m)
  end.

(** The operation itself. A value comes back with its length, or with zero when the
    cache has it. *)
Definition perform (o : op) : M (Z * option string) :=
  match o with
  | OpGet key len => UtilsGetValue key len
  | OpSet key value => c ← UtilsSetValue key value; mret (c, None)
  | OpDelete key => c ← UtilsDeleteValue key; mret (c, None)
  | OpClear => c ← ClearKVCache; mret (c, None)
  end.

Definition agrees (r : Z * option string) (a : reply) : Prop :=
  match a with
  | Code c => r = (c, None)
  | Value v => r = (EC_SUCCESS, Some v) \/ r = (Z.of_nat (String.length v), Some v)
  end.

(** A whole program of operations. *)
Fixpoint performs (os : list op) : M (list (Z * option string)) :=
  match os with
  | [] => mret []
  | o :: os => r ← perform o; rs ← performs os; mret (r :: rs)
  end.
Fixpoint specs (os : list op) (m : directory) : list reply * directory :=
  match os with
  | [] => ([], m)
  | o :: os => let '(r, m) := spec o m in let '(rs, m) := specs os m in (r :: rs, m)
  end.
End Abstract.

(** ** The invariant *)
(** What the cache may hold when the files are [m]. *)
Definition cache_ok (c : Cache) (m : directory) : Prop :=
  exists es, cache_is c es /\ NoDup es.*1 /\
    forall k v, (k, v) ∈ es -> m !! k = Some v /\ (String.length v < MAX_VALUE_LEN)%nat.

Record kv_inv (path : string) (s : KvState) (m : directory) : Prop := {
  ki_at : g_dataPath s = path;
  ki_quiet : answers s = [];
  ki_path : (String.length (g_dataPath s) <= 216)%nat;
  ki_parent : is_Some (disks s !! g_dataPath s);
  ki_files : default ∅ (directory_of (g_dataPath s) s) = m;
  ki_keys : forall k, is_Some (m !! k) -> storable k = true;
  ki_sum : g_getKvSum s = true -> g_kvSum s = Z.of_nat (size m);
  ki_cache : cache_ok (cache s) m;
}.

(** ** The calls on a working disk *)
Lemma works_ok s : answers s = [] -> works s = Some (true, s).
Proof. destruct s. simpl. by intros ->. Qed.
Lemma next_answer_ok s : answers s = [] -> next_answer s = Some (Works, s).
Proof. destruct s. simpl. by intros ->. Qed.

Ltac run_simpl :=
  unfold mbind, M_bind, mret, M_ret, get, set_kvSum, set_getKvSum; cbn beta iota;
  cbn [mbind option_bind negb].
Ltac run := run_simpl; repeat (first [rewrite works_ok by done | rewrite next_answer_ok by done]; run_simpl).

Lemma append_length s t : String.length (s +:+ t) = (String.length s + String.length t)%nat.
Proof. induction s as [|c s IH]; [done|]. simpl. by rewrite IH. Qed.

Lemma key_path_ok dataPath key :
  (String.length dataPath <= 216)%nat -> (String.length key < MAX_KEY_LEN)%nat ->
  sprintf_ok (key_path dataPath key) = true.
Proof.
  intros Hp Hk. apply Nat.leb_le. unfold key_path, kv_path. rewrite !append_length. simpl.
  unfold MAX_KEY_LEN, MAX_KEY_PATH in *. lia.
Qed.
Lemma kv_path_ok dataPath : (String.length dataPath <= 216)%nat -> sprintf_ok (kv_path dataPath) = true.
Proof.
  intros Hp. apply Nat.leb_le. unfold kv_path. rewrite !append_length. simpl. unfold MAX_KEY_PATH. lia.
Qed.

Lemma valid_length value len : IsValidValue value len = true -> (String.length value < len)%nat.
Proof.
  unfold IsValidValue, strnlen. intros (Hn & Hl)%negb_true_iff%orb_false_elim.
  apply orb_false_elim in Hn as [_ Hn]. apply Nat.leb_gt in Hl, Hn. lia.
Qed.
Lemma valid_key_length key : IsValidKey key = true -> (String.length key < MAX_KEY_LEN)%nat.
Proof. unfold IsValidKey. intros [? _]%andb_prop. by apply valid_length. Qed.

(** A path that fits its buffer fits [PATH_MAX] as well. *)
Lemma path_fits path : sprintf_ok path = true -> (String.length path <? PATH_MAX + 1)%nat = true.
Proof.
  unfold sprintf_ok. intros Hp%Nat.leb_le. apply Nat.ltb_lt.
  assert (MAX_KEY_PATH <= PATH_MAX)%nat by (apply Nat.leb_le; vm_compute; done). lia.
Qed.

Section Quiet.
Context `{KvConfig}.
Implicit Types (s : KvState) (m : directory) (dataPath key value : string).

Lemma GetResolvedPath_ok dataPath key s :
  answers s = [] -> sprintf_ok (key_path dataPath key) = true ->
  GetResolvedPath dataPath key (PATH_MAX + 1) s = Some (EC_SUCCESS, s).
Proof.
  intros Hq Hp. unfold GetResolvedPath. run. rewrite Hp. run.
  rewrite (path_fits _ Hp). by destruct (lookup_node dataPath key s).
Qed.

Lemma success_refl : (EC_SUCCESS =? EC_SUCCESS) = true.
Proof. apply Z.eqb_refl. Qed.
Lemma failure_not_success : (EC_FAILURE =? EC_SUCCESS) = false.
Proof. pose proof success_zero. pose proof failure_negative. apply Z.eqb_neq. lia. Qed.
Lemma failure_neg : (EC_FAILURE <? 0) = true.
Proof. apply Z.ltb_lt, failure_negative. Qed.

Lemma GetValueByFile_ok dataPath key len s :
  answers s = [] -> sprintf_ok (key_path dataPath key) = true ->
  GetValueByFile dataPath key len s =
    Some (match lookup_node dataPath key s with
          | File c =>
              if len <=? Z.of_nat (String.length c) then (EC_FAILURE, None)
              else (Z.of_nat (String.length c), Some c)
          | _ => (EC_FAILURE, None)
          end, s).
Proof.
  intros Hq Hp. unfold GetValueByFile. run. rewrite GetResolvedPath_ok by done.
  run. rewrite success_refl. run.
  destruct (lookup_node dataPath key s) as [| |c]; [done|done|].
  destruct (len <=? _); run; done.
Qed.

Lemma SetValueToFile_ok dataPath key value s d :
  answers s = [] -> sprintf_ok (key_path dataPath key) = true -> directory_of dataPath s = Some d ->
  SetValueToFile dataPath key value s =
    Some (if is_dot key then (EC_FAILURE, s)
          else (EC_SUCCESS, with_disks s (<[dataPath := Some (<[key := value]> d)]> (disks s)))).
Proof.
  intros Hq Hp Hd. unfold SetValueToFile. run. rewrite GetResolvedPath_ok by done.
  run. rewrite success_refl. run. unfold lookup_node. rewrite Hd.
  destruct (is_dot key); [done|]. assert (Hs : answers (with_disks s
    (<[dataPath := Some (<[key := ""]> d)]> (disks s))) = []) by done.
  destruct (d !! key); unfold change; rewrite Hd; run; unfold directory_of, with_disks;
    cbn [disks cache g_kvSum g_getKvSum g_dataPath answers]; rewrite lookup_insert_eq; cbn [mjoin option_join];
    by rewrite ?insert_insert_eq.
Qed.

Lemma DeleteValueFromFile_ok dataPath key s :
  answers s = [] -> sprintf_ok (key_path dataPath key) = true ->
  DeleteValueFromFile dataPath key s =
    Some (match directory_of dataPath s with
          | Some d =>
              if negb (is_dot key) && bool_decide (is_Some (d !! key)) then
                (EC_SUCCESS, with_disks s (<[dataPath := Some (delete key d)]> (disks s)))
              else (-1, s)
          | None => (-1, s)
          end).
Proof.
  intros Hq Hp. unfold DeleteValueFromFile. run. rewrite Hp. run. unfold lookup_node.
  destruct (directory_of dataPath s) as [d|] eqn:Ed; [|done]. destruct (is_dot key); [done|].
  destruct (d !! key) as [c|] eqn:Ec; [|done]. unfold change. run. rewrite Ed, success_zero. done.
Qed.

Lemma with_disks_id s dataPath d :
  disks s !! dataPath = Some d -> with_disks s (<[dataPath := d]> (disks s)) = s.
Proof. intros Hd. rewrite insert_id by done. by destruct s. Qed.

Lemma InitKv_ok dataPath s :
  answers s = [] -> sprintf_ok (kv_path dataPath) = true -> is_Some (disks s !! dataPath) ->
  InitKv dataPath s =
    Some (EC_SUCCESS, with_disks s (<[dataPath := Some (default ∅ (directory_of dataPath s))]> (disks s))).
Proof.
  intros Hq Hp [o Ho]. unfold InitKv. run. rewrite Hp. run. unfold directory_of. rewrite Ho. cbn [mjoin option_join].
  destruct o as [d|]; cbn [id default]; [by rewrite with_disks_id|]. run. by rewrite Ho.
Qed.

Lemma count_items_ok kvPath names : forall sum s,
  answers s = [] -> Forall (fun name => sprintf_ok (kvPath +:+ "/" +:+ name) = true) names ->
  count_items kvPath names sum s =
    Some (sum + Z.of_nat (length (filter (fun name => is_dot name = false) names)), s).
Proof.
  induction names as [|name names IH]; intros sum s Hq Hf; cbn [count_items].
  - run. do 2 f_equal. simpl. lia.
  - apply Forall_cons in Hf as [Hn Hf]. rewrite Hn. run. rewrite IH by done. rewrite filter_cons.
    destruct (is_dot name); [by rewrite decide_False|]. rewrite decide_True by done. simpl.
    do 2 f_equal. lia.
Qed.

Lemma filter_everything {A} (P : A -> Prop) `{forall x, Decision (P x)} (l : list A) : Forall P l -> filter P l = l.
Proof.
  induction 1 as [|x l Hx Hl IH]; [done|]. rewrite filter_cons_True by done. by rewrite IH.
Qed.

Lemma GetCurrentItem_ok dataPath s d :
  answers s = [] -> (String.length dataPath <= 216)%nat -> directory_of dataPath s = Some d ->
  (forall k, is_Some (d !! k) -> storable k = true) ->
  GetCurrentItem dataPath s = Some (Z.of_nat (size d), s).
Proof.
  intros Hq Hp Hd Hk. unfold GetCurrentItem. rewrite kv_path_ok by done. run. rewrite Hd.
  assert (Hkeys : Forall (fun k => storable k = true) (map_to_list d).*1).
  { apply Forall_forall. intros k Hin. apply list_elem_of_fmap in Hin as ([k' v] & -> & Hin).
    apply elem_of_map_to_list in Hin. apply Hk. by eexists. }
  rewrite count_items_ok; [|done|].
  - rewrite !filter_cons. rewrite !decide_False by done. do 2 f_equal.
    rewrite filter_everything.
    + rewrite length_fmap, length_map_to_list. lia.
    + eapply Forall_impl; [exact Hkeys|]. simpl. intros k [_ Hin]%andb_prop. by apply negb_true_iff in Hin.
  - assert (Hdot : forall k, (String.length k < MAX_KEY_LEN)%nat ->
      sprintf_ok (kv_path dataPath +:+ "/" +:+ k) = true) by (intros k Hl; by apply key_path_ok).
    repeat (apply Forall_cons; split; [apply Hdot; vm_compute; lia|]).
    eapply Forall_impl; [exact Hkeys|]. simpl. intros k [Hv _]%andb_prop. apply Hdot. by apply valid_key_length.
Qed.

Lemma NewItem_ok dataPath key s :
  answers s = [] -> sprintf_ok (key_path dataPath key) = true ->
  NewItem dataPath key s =
    Some (match directory_of dataPath s with
          | Some d => negb (is_dot key) && bool_decide (d !! key = None)
          | None => true
          end, s).
Proof.
  intros Hq Hp. unfold NewItem. run. rewrite Hp. run. unfold lookup_node.
  destruct (directory_of dataPath s) as [d|]; [|done]. destruct (is_dot key); [done|].
  by destruct (d !! key).
Qed.

(** ** The operations preserve the invariant *)
Context (path : string).

Lemma forget_elem key es e : e ∈ forget key es -> e ∈ es.
Proof.
  induction es as [|[k v] es IH]; [done|]. cbn [forget]. destruct (decide (key = k)); [by right|].
  intros [->|He]%elem_of_cons; [by left|]. right. by apply IH.
Qed.
Lemma forget_keys key es k : k ∈ (forget key es).*1 -> k ∈ es.*1.
Proof.
  intros Hk. apply list_elem_of_fmap in Hk as (e & -> & He). apply list_elem_of_fmap.
  exists e. split; [done|]. by eapply forget_elem.
Qed.
Lemma forget_nodup key es : NoDup es.*1 -> NoDup (forget key es).*1 /\ key ∉ (forget key es).*1.
Proof.
  induction es as [|[k v] es IH]; [intros _; split; [apply NoDup_nil_2|by intros ?%not_elem_of_nil]|].
  rewrite fmap_cons. intros [Hk Hnd]%NoDup_cons. cbn [forget]. destruct (decide (key = k)) as [->|Hne]; [done|].
  destruct (IH Hnd) as [Hnd' Hkey]. rewrite fmap_cons. split.
  - apply NoDup_cons. split; [|done]. intros Hin. by apply forget_keys in Hin.
  - by intros [?|?]%elem_of_cons.
Qed.
Lemma recall_elem key es v : recall key es = Some v -> (key, v) ∈ es.
Proof.
  induction es as [|[k w] es IH]; [done|]. cbn [recall]. destruct (decide (key = k)) as [->|Hne].
  - intros [= ->]. by left.
  - intros Hr. right. by apply IH.
Qed.
Lemma recall_none key es : recall key es = None -> key ∉ es.*1.
Proof.
  induction es as [|[k w] es IH]; [by intros _ ?%not_elem_of_nil|]. cbn [recall]. rewrite fmap_cons.
  destruct (decide (key = k)) as [->|Hne]; [done|]. intros Hr [?|?]%elem_of_cons; [done|]. by apply IH.
Qed.

Lemma take_keys n (es : list entry) : NoDup es.*1 -> NoDup (take n es).*1.
Proof. rewrite fmap_take. intros Hnd. eapply sublist_NoDup; [exact Hnd|]. apply sublist_take. Qed.

(** The entries of [remember]: the new one, or old ones. *)
Lemma remember_ok key value isNew got es m :
  NoDup es.*1 -> (isNew = false -> key ∉ es.*1) ->
  (forall k v, (k, v) ∈ es -> isNew = false \/ k <> key ->
     m !! k = Some v /\ (String.length v < MAX_VALUE_LEN)%nat) ->
  (isNew = true -> (String.length key < MAX_KEY_LEN)%nat /\ (String.length value < MAX_VALUE_LEN)%nat) ->
  m !! key = Some value ->
  NoDup (remember key value isNew got es).*1 /\
  forall k v, (k, v) ∈ remember key value isNew got es ->
    m !! k = Some v /\ (String.length v < MAX_VALUE_LEN)%nat.
Proof.
  intros Hnd Hnew Hm Hlen Hkey. unfold remember. destruct (_ || _) eqn:El.
  { destruct isNew.
    - destruct Hlen as [Hk Hv]; [done|]. exfalso.
      apply orb_prop in El as [El|El]; apply Nat.leb_le in El; lia.
    - split; [done|]. intros k v He. apply Hm; [done|by left]. }
  apply orb_false_elim in El as [_ Hv%Nat.leb_gt].
  set (es0 := if isNew then forget key es else es).
  assert (Hes : NoDup es0.*1 /\ key ∉ es0.*1).
  { unfold es0. destruct isNew; [by apply forget_nodup|]. split; [done|by apply Hnew]. }
  destruct Hes as [Hnd0 Hk0].
  assert (Hm0 : forall k v, (k, v) ∈ es0 -> m !! k = Some v /\ (String.length v < MAX_VALUE_LEN)%nat).
  { intros k v He. apply Hm.
    - unfold es0 in He. destruct isNew; [by eapply forget_elem|done].
    - right. intros ->. apply Hk0. apply list_elem_of_fmap. by exists (key, v). }
  destruct got; [|done]. split.
  - apply take_keys. rewrite fmap_cons. by apply NoDup_cons.
  - intros k v He. apply elem_of_take in He as (i & He & _). apply list_elem_of_lookup_2 in He.
    apply elem_of_cons in He as [[= -> ->]|He]; [done|by apply Hm0].
Qed.

Lemma AddKVCache_new c m key value :
  cache_ok c m -> (String.length key < MAX_KEY_LEN)%nat -> (String.length value < MAX_VALUE_LEN)%nat ->
  exists c', AddKVCache key value true c = Some c' /\ cache_ok c' (<[key := value]> m).
Proof.
  intros (es & Hc & Hnd & Hm) Hk Hv. destruct (AddKVCache_spec c es key value true Hc) as (c' & E & Hc').
  exists c'. split; [done|]. eexists. split; [exact Hc'|]. apply remember_ok; try done.
  - intros k v He [?|Hne]; [done|]. rewrite lookup_insert_ne by done. by apply Hm.
  - by rewrite lookup_insert_eq.
Qed.

Lemma AddKVCache_read c m es key value :
  cache_is c es -> NoDup es.*1 -> recall key es = None ->
  (forall k v, (k, v) ∈ es -> m !! k = Some v /\ (String.length v < MAX_VALUE_LEN)%nat) ->
  m !! key = Some value ->
  exists c', AddKVCache key value false c = Some c' /\ cache_ok c' m.
Proof.
  intros Hc Hnd Hr Hm Hk. destruct (AddKVCache_spec c es key value false Hc) as (c' & E & Hc').
  exists c'. split; [done|]. eexists. split; [exact Hc'|]. apply remember_ok; try done.
  - intros _. by apply recall_none.
  - intros k v He _. by apply Hm.
Qed.

Lemma DeleteKVCache_ok c m key :
  cache_ok c m -> exists c', DeleteKVCache key c = Some c' /\ cache_ok c' (delete key m).
Proof.
  intros (es & Hc & Hnd & Hm). destruct (DeleteKVCache_spec c es key Hc) as (c' & E & Hc' & _).
  exists c'. split; [done|]. destruct (forget_nodup key es Hnd) as [Hnd' Hk]. exists (forget key es).
  split_and!; [done|done|]. intros k v He. rewrite lookup_delete_ne.
  - apply Hm. by eapply forget_elem.
  - intros <-. apply Hk. apply list_elem_of_fmap. by exists (key, v).
Qed.

Lemma ClearKVCacheInner_ok c m :
  cache_ok c m -> exists c', ClearKVCacheInner c = Some (EC_SUCCESS, c') /\ cache_ok c' m.
Proof.
  intros (es & Hc & _ & _). destruct (ClearKVCacheInner_spec c es Hc) as (c' & E & Hc' & _).
  exists c'. split; [done|]. exists []. split_and!; [done|apply NoDup_nil_2|].
  by intros k v ?%not_elem_of_nil.
Qed.

(** *** Reading *)
Lemma valid_path s m key :
  kv_inv path s m -> IsValidKey key = true -> sprintf_ok (key_path (g_dataPath s) key) = true.
Proof. intros Hi Hv. apply key_path_ok; [apply Hi|by apply valid_key_length]. Qed.

Lemma lookup_node_inv s m key :
  kv_inv path s m ->
  match lookup_node (g_dataPath s) key s with File c => Some c | _ => None end = m !! key.
Proof.
  intros Hi. pose proof (ki_files _ _ _ Hi) as Hm. unfold lookup_node.
  destruct (directory_of (g_dataPath s) s) as [d|]; simpl in Hm; subst m; [|done].
  destruct (is_dot key) eqn:Ed; [|by destruct (d !! key)].
  destruct (d !! key) as [c|] eqn:Ec; [|done]. exfalso.
  assert (Hs : storable key = true) by (apply (ki_keys _ _ _ Hi); by eexists).
  unfold storable in Hs. rewrite Ed in Hs. by rewrite andb_false_r in Hs.
Qed.

Lemma kv_inv_cache s m c : kv_inv path s m -> cache_ok c m -> kv_inv path (with_cache s c) m.
Proof. by intros [? ? ? ? ? ? ? ?] Hc. Qed.

Lemma kv_get_refines s m key len :
  kv_inv path s m ->
  exists r s', UtilsGetValue key len s = Some (r, s') /\ kv_inv path s' m /\ agrees r (fst (spec (OpGet key len) m)).
Proof.
  intros Hi. unfold UtilsGetValue, spec. destruct (_ || _) eqn:Ev; [by do 2 eexists|].
  apply orb_false_elim in Ev as [Hv%negb_false_iff _].
  destruct (ki_cache _ _ _ Hi) as (es & Hc & Hnd & Hm). unfold cached. run.
  rewrite (GetValueByCache_spec _ _ _ _ Hc). run.
  assert (Hw : with_cache s (cache s) = s) by (by destruct s). rewrite !Hw.
  pose proof (lookup_node_inv s m key Hi) as Hl. pose proof success_zero as H0.
  pose proof (GetValueByFile_ok (g_dataPath s) key len s (ki_quiet _ _ _ Hi) (valid_path s m key Hi Hv)) as Hget.
  destruct (recall key es) as [v|] eqn:Er.
  - destruct (Hm key v) as [Hkv Hlen]; [by apply recall_elem|].
    rewrite (proj2 (Nat.leb_gt _ _)) by done. cbn [orb]. rewrite Hkv in *.
    destruct (lookup_node (g_dataPath s) key s) as [| |c]; [done|done|]. injection Hl as ->.
    destruct (len <=? Z.of_nat (String.length v)) eqn:El.
    + rewrite failure_not_success. run. rewrite Hget. run. rewrite failure_neg. by do 2 eexists.
    + rewrite success_refl. do 2 eexists. split_and!; [done|done|]. by left.
  - rewrite failure_not_success. run. rewrite Hget, <- Hl. run.
    destruct (lookup_node (g_dataPath s) key s) as [| |c];
      [rewrite failure_neg; by do 2 eexists|rewrite failure_neg; by do 2 eexists|].
    destruct (len <=? Z.of_nat (String.length c)); [rewrite failure_neg; by do 2 eexists|].
    rewrite (proj2 (Z.ltb_ge _ _)) by lia.
    destruct (AddKVCache_read (cache s) m es key c) as (c' & -> & Hc'); try done.
    run. do 2 eexists. split_and!; [done|by apply kv_inv_cache|]. by right.
Qed.

(** *** Deleting *)
Lemma directory_write s m d :
  kv_inv path s m -> (forall k, is_Some (d !! k) -> storable k = true) ->
  forall c n b, cache_ok c d -> (b = true -> n = Z.of_nat (size d)) ->
  kv_inv path (mkState c n b (g_dataPath s) (<[g_dataPath s := Some d]> (disks s)) (answers s)) d.
Proof.
  intros [Hat Hq Hp Hpar Hf Hk Hsum Hc] Hd c n b Hc' Hn. split; try done; cbn [g_dataPath disks directory_of].
  - rewrite lookup_insert_eq. by eexists.
  - unfold directory_of. cbn [disks g_dataPath]. by rewrite lookup_insert_eq.
Qed.

Lemma kv_delete_refines s m key :
  kv_inv path s m ->
  exists r s', UtilsDeleteValue key s = Some (r, s') /\
    let '(a, m') := spec (OpDelete key) m in kv_inv path s' m' /\ agrees (r, None) a.
Proof.
  intros Hi. unfold UtilsDeleteValue, spec. destruct (IsValidKey key) eqn:Hv; [|by do 2 eexists].
  unfold cached. run. destruct (DeleteKVCache_ok (cache s) m key (ki_cache _ _ _ Hi)) as (c' & -> & Hc'). run.
  set (s1 := with_cache s c'). rewrite (DeleteValueFromFile_ok (g_dataPath s) key s1);
    [|apply Hi|by apply (valid_path s m)]. run.
  pose proof (ki_files _ _ _ Hi) as Hf. change (directory_of (g_dataPath s) s1) with (directory_of (g_dataPath s) s).
  assert (Hminus : (-1 =? EC_SUCCESS) = false) by (rewrite success_zero; done).
  destruct (directory_of (g_dataPath s) s) as [d|] eqn:Ed; simpl in Hf; subst m.
  - destruct (d !! key) as [v|] eqn:Ek.
    + assert (Hs : storable key = true) by (apply (ki_keys _ _ _ Hi); by eexists).
      unfold storable in Hs. apply andb_prop in Hs as [_ Hs]. rewrite Hs, bool_decide_true by (by eexists).
      cbn [andb]. rewrite success_refl. run. do 2 eexists. split; [done|]. split; [|done].
      apply (directory_write s d); try done.
      * intros k Hk. apply (ki_keys _ _ _ Hi). destruct (decide (key = k)) as [->|Hne].
        -- rewrite lookup_delete_eq in Hk. by destruct Hk.
        -- by rewrite lookup_delete_ne in Hk.
      * intros Hb. simpl. rewrite (ki_sum _ _ _ Hi Hb). rewrite map_size_delete_Some by (by eexists).
        assert (size d <> 0)%nat; [|lia]. intros E0. apply map_size_empty_inv in E0. by subst.
    + rewrite bool_decide_false by (by intros []). rewrite andb_false_r, Hminus. do 2 eexists. split; [done|].
      split; [|done]. apply kv_inv_cache; [done|]. by rewrite delete_id in Hc'.
  - rewrite Hminus. do 2 eexists. split; [done|]. rewrite lookup_empty. split; [|done].
    apply kv_inv_cache; [done|]. by rewrite delete_empty in Hc'.
Qed.

(** *** Writing *)
(** After the directory is made and its files are counted. *)
Lemma counting_ok s m :
  kv_inv path s m -> disks s !! g_dataPath s = Some (Some m) ->
  count_once (g_dataPath s) s =
  Some (true, mkState (cache s) (Z.of_nat (size m)) true (g_dataPath s) (disks s) (answers s)).
Proof.
  intros Hi Hd. unfold count_once. run. destruct (g_getKvSum s) eqn:Eg.
  - run. rewrite <- (ki_sum _ _ _ Hi Eg), <- Eg. by destruct s.
  - run. rewrite (GetCurrentItem_ok _ _ m); [|apply Hi|apply Hi|by unfold directory_of; rewrite Hd|apply Hi].
    run. by rewrite (proj2 (Z.ltb_ge _ _)) by lia.
Qed.

Lemma kv_inv_counted s m d n :
  kv_inv path s m -> default ∅ (mjoin (d !! g_dataPath s)) = m -> is_Some (d !! g_dataPath s) ->
  n = Z.of_nat (size m) -> kv_inv path (mkState (cache s) n true (g_dataPath s) d (answers s)) m.
Proof. intros [? ? ? ? ? ? ? ?] Hd Hs ->. by split. Qed.

Lemma kv_set_refines s m key value :
  kv_inv path s m ->
  exists r s', UtilsSetValue key value s = Some (r, s') /\
    let '(a, m') := spec (OpSet key value) m in kv_inv path s' m' /\ agrees (r, None) a.
Proof.
  intros Hi. unfold UtilsSetValue, spec. destruct (_ || _) eqn:Ev; [by do 2 eexists|].
  apply orb_false_elim in Ev as [Hv%negb_false_iff Hval%negb_false_iff].
  run. rewrite InitKv_ok by (apply Hi || apply kv_path_ok, Hi). rewrite (ki_files _ _ _ Hi). run.
  rewrite success_refl. run. set (d := <[g_dataPath s := Some m]> (disks s)).
  assert (Hd : d !! g_dataPath s = Some (Some m)) by apply lookup_insert_eq.
  set (s2 := mkState (cache s) (Z.of_nat (size m)) true (g_dataPath s) d (answers s)).
  assert (Hi2 : kv_inv path s2 m) by (apply kv_inv_counted; [done|by rewrite Hd|by rewrite Hd|done]).
  assert (Hi1 : kv_inv path (with_disks s d) m).
  { destruct Hi as [? ? ? ? ? ? ? ?]. split; try done; unfold directory_of; cbn [disks g_dataPath with_disks];
      by rewrite Hd. }
  pose proof (counting_ok _ m Hi1 Hd) as Hcount. cbn [g_dataPath with_disks] in Hcount. rewrite Hcount. run.
  change (mkState (cache (with_disks s d)) _ _ _ _ _) with s2.
  assert (Hpath : sprintf_ok (key_path (g_dataPath s) key) = true) by (by apply (valid_path s m)).
  assert (Hdir : directory_of (g_dataPath s) s2 = Some m) by (unfold directory_of; cbn [disks s2]; by rewrite Hd).
  rewrite NewItem_ok by (apply Hi || done). rewrite Hdir. run. cbn [g_kvSum s2].
  unfold storable. rewrite Hv. cbn [andb]. rewrite negb_involutive.
  destruct (is_dot key) eqn:Edot; cbn [negb andb].
  { rewrite andb_false_r. run. rewrite (SetValueToFile_ok _ _ _ _ m) by (apply Hi || done). rewrite Edot. run.
    rewrite failure_not_success. by do 2 eexists. }
  destruct ((MAX_KV_SUM <=? Z.of_nat (size m)) && bool_decide (m !! key = None)) eqn:Efull; [by do 2 eexists|].
  run. rewrite (SetValueToFile_ok _ _ _ _ m) by (apply Hi || done). rewrite Edot. run. rewrite success_refl.
  unfold cached. run. cbn [cache with_disks s2].
  destruct (AddKVCache_new (cache s) m key value (ki_cache _ _ _ Hi)) as (c' & -> & Hc');
    [by apply valid_key_length|by apply valid_length|]. run.
  assert (Hk : forall k, is_Some (<[key := value]> m !! k) -> storable k = true).
  { intros k Hk. destruct (decide (key = k)) as [<-|Hne]; [unfold storable; by rewrite Hv, Edot|].
    rewrite lookup_insert_ne in Hk by done. by apply (ki_keys _ _ _ Hi). }
  destruct (m !! key) as [v|] eqn:Em; [rewrite bool_decide_false by done|rewrite bool_decide_true by done];
    run; do 2 eexists; (split; [done|]); (split; [|done]); apply (directory_write s2 m); try done; intros _; simpl;
    [rewrite map_size_insert_Some by (by eexists)|rewrite map_size_insert_None by done]; lia.
Qed.

Lemma kv_clear_refines s m :
  kv_inv path s m -> exists s', ClearKVCache s = Some (EC_SUCCESS, s') /\ kv_inv path s' m.
Proof.
  intros Hi. unfold ClearKVCache, cached.
  destruct (ClearKVCacheInner_ok (cache s) m (ki_cache _ _ _ Hi)) as (c' & -> & Hc'). run.
  eexists. split; [done|]. by apply kv_inv_cache.
Qed.

Lemma kv_perform_refines o s m :
  kv_inv path s m ->
  exists r s', perform o s = Some (r, s') /\ kv_inv path s' (snd (spec o m)) /\ agrees r (fst (spec o m)).
Proof.
  intros Hi. destruct o as [key len|key value|key|]; cbn [perform].
  - destruct (kv_get_refines s m key len Hi) as (r & s' & E & Hi' & Ha). exists r, s'. split_and!; [done| |done].
    cbn [spec]. destruct (_ || _); [done|]. destruct (m !! key); [|done]. by destruct (len <=? _).
  - destruct (kv_set_refines s m key value Hi) as (r & s' & E & Ha). exists (r, None), s'. run. rewrite E.
    destruct (spec _ m). by destruct Ha.
  - destruct (kv_delete_refines s m key Hi) as (r & s' & E & Ha). exists (r, None), s'. run. rewrite E.
    destruct (spec _ m). by destruct Ha.
  - destruct (kv_clear_refines s m Hi) as (s' & E & Ha). exists (EC_SUCCESS, None), s'. run. by rewrite E.
Qed.

Lemma kv_performs_refines os : forall s m,
  kv_inv path s m ->
  exists rs s', performs os s = Some (rs, s') /\ kv_inv path s' (snd (specs os m)) /\
    Forall2 agrees rs (fst (specs os m)).
Proof.
  induction os as [|o os IH]; intros s m Hi; cbn [performs specs]; [by exists [], s|].
  destruct (kv_perform_refines o s m Hi) as (r & s1 & E1 & Hi1 & Ha). destruct (spec o m) as [a m1].
  destruct (IH s1 m1 Hi1) as (rs & s2 & E2 & Hi2 & Has). destruct (specs os m1) as [l m2].
  exists (r :: rs), s2. run. rewrite E1. run. rewrite E2. split_and!; [done|done|]. by apply Forall2_cons.
Qed.
End Quiet.

(** ** The process from its start *)
Definition booted (d : gmap string (option directory)) (ms : list bool) : KvState :=
  mkState (mkCache ∅ None None 0 0 ms) 0 false "" d [].

Lemma booted_cache ms m : cache_ok (mkCache ∅ None None 0 0 ms) m.
Proof.
  exists []. split_and!; [|apply NoDup_nil_2|by intros k v ?%not_elem_of_nil]. exists []. split; [|done].
  split; try done; [apply NoDup_nil_2|by intros p []|by intros p ?%not_elem_of_nil].
Qed.

Section Session.
Context `{KvConfig}.

(** C19: a process that sets its data path and then runs any sequence of get, set, delete
    and clear is never undefined and answers every operation as the map of the files
    does: a set puts the value there unless the map is full and the key new, a delete
    takes it out, a get gives the last value set, or fails when the buffer is too small;
    whichever allocations of the cache fail. At the end the files are that map. *)
Theorem kv_store_refines_map (path : string) (d : gmap string (option directory)) (o : option directory)
    (ms : list bool) (os : list op)
    (Hpath : (String.length path <= 216)%nat) (Hdir : d !! path = Some o)
    (Hkeys : map_Forall (fun k _ => storable k = true) (default ∅ o)) :
  exists rs s', (_ ← UtilsSetEnv path; performs os) (booted d ms) = Some (rs, s') /\
    Forall2 agrees rs (fst (specs os (default ∅ o))) /\
    default ∅ (directory_of path s') = snd (specs os (default ∅ o)).
Proof.
  set (s0 := mkState (mkCache ∅ None None 0 0 ms) 0 false path d []).
  assert (Hi : kv_inv path s0 (default ∅ o)).
  { split; try done.
    - unfold directory_of, s0. cbn [disks g_dataPath]. by rewrite Hdir.
    - intros k [v Hv]. exact (Hkeys k v Hv).
    - apply booted_cache. }
  destruct (kv_performs_refines path os s0 _ Hi) as (rs & s' & E & Hi' & Ha). exists rs, s'.
  assert (Hg : UtilsSetEnv path (booted d ms) = Some (EC_SUCCESS, s0)).
  { unfold UtilsSetEnv. rewrite (proj2 (Nat.ltb_lt _ _)); [done|]. unfold MAX_KEY_PATH. lia. }
  run. rewrite Hg. run. split_and!; [done|done|]. rewrite <- (ki_files _ _ _ Hi'). by rewrite (ki_at _ _ _ Hi').
Qed.
End Session.

(** ** A store with room for two values and a cache for one *)
Definition demo_config : KvConfig.
Proof. refine (Build_KvConfig 0 (-1) (-9) 1 2 _ _ _); lia. Defined.

Definition demo_disk : gmap string (option directory) := {["/data" := None]}.

(** The third key does not fit, the first is read from its file again. *)
Lemma kv_store_refines_map_witness :
  exists rs s', (_ ← UtilsSetEnv (H := demo_config) "/data";
      performs (H := demo_config)
        [OpSet "a" "1"; OpSet "b" "2"; OpSet "c" "3"; OpGet "a" 9; OpDelete "a"; OpGet "a" 9; OpGet "b" 1])
      (booted demo_disk [true; true; true; false]) = Some (rs, s') /\
    Forall2 (agrees (H := demo_config)) rs
      [Code 0; Code 0; Code (-1); Value "1"; Code 0; Code (-1); Code (-1)] /\
    default ∅ (directory_of "/data" s') = {["b" := "2"]}.
Proof.
  destruct (kv_store_refines_map (H := demo_config) "/data" demo_disk None [true; true; true; false]
    [OpSet "a" "1"; OpSet "b" "2"; OpSet "c" "3"; OpGet "a" 9; OpDelete "a"; OpGet "a" 9; OpGet "b" 1])
    as (rs & s' & E & Ha & Hd).
  - simpl. lia.
  - done.
  - apply map_Forall_empty.
  - exists rs, s'. split_and!; [exact E| |]; [rewrite Forall2_lookup in Ha |- *; exact Ha|exact Hd].
Defined.

(** ** Where the store departs from the map *)
(** Changing the data path keeps the cache and the count of the old one: a key is
    still read, and deleted, from the place before. *)
Theorem set_env_keeps_cache :
  exists s, (_ ← UtilsSetEnv (H := demo_config) "/data"; _ ← UtilsSetValue (H := demo_config) "a" "1";
    _ ← UtilsSetEnv (H := demo_config) "/other"; UtilsGetValue (H := demo_config) "a" 9)
    (booted {["/data" := None; "/other" := Some ∅]} []) = Some ((0, Some "1"), s) /\
    directory_of "/other" s = Some ∅ /\ g_kvSum s = 1.
Proof. eexists. split; [vm_compute; reflexivity|]. split; reflexivity. Qed.

(** A write that fails has emptied the file already; the cache still has the old value. *)
Theorem failed_write_splits :
  let s0 := mkState empty_cache 0 false "/data" {["/data" := None]}
    (repeat Works 21 ++ [Fails]) in
  exists s, (_ ← UtilsSetValue (H := demo_config) "a" "1"; c ← UtilsSetValue (H := demo_config) "a" "2";
    r ← UtilsGetValue (H := demo_config) "a" 9; mret (c, r)) s0 = Some ((-1, (0, Some "1")), s) /\
    directory_of "/data" s = Some {["a" := ""]}.
Proof. eexists. split; [vm_compute; reflexivity|]. vm_compute. reflexivity. Qed.
