(* ===== verification/Memory.v ===== *)
(** * Byte memory

    The mapped region of an Ashmem object, as the C++ code sees it through
    [static_cast]: bytes addressed by their offset from the start of the mapping
    ([mData]). Fields of structs are read and written little-endian, at the
    offsets the compiler gives them. A fresh mapping is all zeros, so an address
    that was never written reads as zero. *)
From S2P Require Import Prelude.
From Stdlib Require Import Ascii.

#[local] Open Scope list_scope.

(** A byte is an [ascii], so the contents of a [std::string] is a list of bytes. *)
Abbreviation byte := ascii.

Definition byte_of_Z (z : Z) : byte := ascii_of_N (Z.to_N (u8 z)).
Definition Z_of_byte (b : byte) : Z := Z.of_N (N_of_ascii b).

Lemma Z_of_byte_of_Z z : Z_of_byte (byte_of_Z z) = z mod 256.
Proof.
  unfold Z_of_byte, byte_of_Z, u8, wrap. change (2 ^ 8) with 256.
  pose proof (Z.mod_pos_bound z 256).
  rewrite N_ascii_embedding by lia. lia.
Qed.

Lemma byte_of_Z_of_byte b : byte_of_Z (Z_of_byte b) = b.
Proof.
  unfold Z_of_byte, byte_of_Z, u8, wrap. change (2 ^ 8) with 256.
  pose proof (N_ascii_bounded b).
  rewrite Z.mod_small by lia. rewrite N2Z.id. apply ascii_N_embedding.
Qed.

Lemma Z_of_byte_range b : 0 <= Z_of_byte b < 256.
Proof. unfold Z_of_byte. pose proof (N_ascii_bounded b). lia. Qed.

Definition rd8 (m : gmap Z byte) (a : Z) : byte := default zero (m !! a).

(** Reading and writing an [n]-byte little-endian field. *)
Fixpoint rd (n : nat) (m : gmap Z byte) (a : Z) : Z :=
  match n with
  | O => 0
  | S n => Z_of_byte (rd8 m a) + 256 * rd n m (a + 1)
  end.

Fixpoint wr (n : nat) (m : gmap Z byte) (a v : Z) : gmap Z byte :=
  match n with
  | O => m
  | S n => <[a := byte_of_Z v]> (wr n m (a + 1) (v / 256))
  end.

(** Runs of bytes: [memcpy] into the block and the bytes behind a pointer. *)
Fixpoint wr_bytes (m : gmap Z byte) (a : Z) (bs : list byte) : gmap Z byte :=
  match bs with
  | [] => m
  | b :: bs => <[a := b]> (wr_bytes m (a + 1) bs)
  end.

Fixpoint rd_bytes (n : nat) (m : gmap Z byte) (a : Z) : list byte :=
  match n with
  | O => []
  | S n => rd8 m a :: rd_bytes n m (a + 1)
  end.

Lemma wr_out n m a v x :
  x < a \/ a + Z.of_nat n <= x -> wr n m a v !! x = m !! x.
Proof.
  revert a v. induction n as [|n IH]; intros a v Hx; simpl; [done|].
  rewrite lookup_insert_ne by lia. apply IH. lia.
Qed.

Lemma wr_bytes_out m a bs x :
  x < a \/ a + Z.of_nat (length bs) <= x -> wr_bytes m a bs !! x = m !! x.
Proof.
  revert a. induction bs as [|b bs IH]; intros a Hx; simpl in *; [done|].
  rewrite lookup_insert_ne by lia. apply IH. lia.
Qed.

(** Two memories that agree on a range read the same there. *)
Lemma rd_ext n m m' a :
  (forall x, a <= x < a + Z.of_nat n -> m' !! x = m !! x) ->
  rd n m' a = rd n m a.
Proof.
  revert a. induction n as [|n IH]; intros a Hx; simpl; [done|].
  unfold rd8. rewrite Hx by lia. f_equal. f_equal. apply IH.
  intros x Hr. apply Hx. lia.
Qed.

Lemma rd_bytes_ext n m m' a :
  (forall x, a <= x < a + Z.of_nat n -> m' !! x = m !! x) ->
  rd_bytes n m' a = rd_bytes n m a.
Proof.
  revert a. induction n as [|n IH]; intros a Hx; simpl; [done|].
  unfold rd8. rewrite Hx by lia. f_equal. apply IH.
  intros x Hr. apply Hx. lia.
Qed.

Lemma rd_range n m a : 0 <= rd n m a < 2 ^ (8 * Z.of_nat n).
Proof.
  revert a. induction n as [|n IH]; intros a; [simpl; lia|].
  replace (8 * Z.of_nat (S n)) with (8 + 8 * Z.of_nat n) by lia.
  rewrite Z.pow_add_r by lia. simpl rd.
  pose proof (IH (a + 1)). pose proof (Z_of_byte_range (rd8 m a)).
  change (2 ^ 8) with 256. lia.
Qed.

Lemma rd_wr_same n m a v : rd n (wr n m a v) a = wrap (8 * Z.of_nat n) v.
Proof.
  revert a v. induction n as [|n IH]; intros a v.
  { simpl. unfold wrap. by rewrite Z.mod_1_r. }
  simpl rd. simpl wr. unfold rd8. rewrite lookup_insert_eq. simpl default.
  rewrite Z_of_byte_of_Z.
  rewrite (rd_ext n (wr n m (a + 1) (v / 256)))
    by (intros x Hx; rewrite lookup_insert_ne by lia; done).
  rewrite IH. unfold wrap.
  replace (8 * Z.of_nat (S n)) with (8 + 8 * Z.of_nat n) by lia.
  rewrite Z.pow_add_r by lia. change (2 ^ 8) with 256.
  rewrite Z.rem_mul_r by lia. lia.
Qed.

Lemma rd_wr_other n k m a b v :
  a + Z.of_nat n <= b \/ b + Z.of_nat k <= a ->
  rd n (wr k m b v) a = rd n m a.
Proof. intros H. apply rd_ext. intros x Hx. apply wr_out. lia. Qed.

Lemma rd_bytes_wr_same m a bs : rd_bytes (length bs) (wr_bytes m a bs) a = bs.
Proof.
  revert a. induction bs as [|b bs IH]; intros a; simpl; [done|].
  unfold rd8. rewrite lookup_insert_eq. simpl. f_equal.
  rewrite (rd_bytes_ext (length bs) (wr_bytes m (a + 1) bs))
    by (intros x Hx; rewrite lookup_insert_ne by lia; done).
  apply IH.
Qed.

Lemma length_rd_bytes n m a : length (rd_bytes n m a) = n.
Proof. revert a. induction n as [|n IH]; intros a; simpl; [done|]. by rewrite IH. Qed.

(** A field inside a zeroed run reads as zero. *)
Lemma rd_zeros n k m a b :
  b <= a -> a + Z.of_nat n <= b + Z.of_nat k ->
  rd n (wr_bytes m b (replicate k zero)) a = 0.
Proof.
  assert (Hz : forall x, b <= x < b + Z.of_nat k ->
                rd8 (wr_bytes m b (replicate k zero)) x = zero).
  { revert b. induction k as [|k IH]; intros b x Hx; [lia|]. unfold rd8. simpl.
    destruct (decide (b = x)) as [->|Hne].
    - by rewrite lookup_insert_eq.
    - rewrite lookup_insert_ne by done. apply (IH (b + 1)). lia. }
  intros H1 H2. revert a H1 H2.
  induction n as [|n IH]; intros a H1 H2; [done|]. simpl rd.
  rewrite Hz, IH by lia. done.
Qed.

#[global] Arguments rd : simpl never.
#[global] Arguments wr : simpl never.

(** * Buffers, strings and numbers of C

    What the C code of the stores on small devices uses of the standard library: zeroed
    buffers, strings up to a NUL, and numbers read and printed in decimal. *)

Definition bytes_of (s : string) : list byte := String.list_ascii_of_string s.
Definition zeros (n : nat) : list byte := replicate n zero.

(** A zeroed buffer of [n] bytes after [b] was stored at its start. *)
Definition buffer (n : nat) (b : list byte) : list byte := take n (b ++ zeros n).

(** The string in a buffer, up to the NUL. *)
Fixpoint c_string (b : list byte) : string :=
  match b with
  | [] => EmptyString
  | c :: b => if decide (c = zero) then EmptyString else String c (c_string b)
  end.

(** [atoi] on a buffer; it reads past the end when no other character stops it. *)
Definition digit (c : byte) : option Z :=
  let n := Z_of_byte c in if (48 <=? n) && (n <=? 57) then Some (n - 48) else None.
Fixpoint atoi_digits (acc : Z) (b : list byte) : option Z :=
  match b with
  | [] => None
  | c :: b => match digit c with Some d => atoi_digits (10 * acc + d) b | None => Some acc end
  end.
Definition is_space (c : byte) : bool :=
  let n := Z_of_byte c in (n =? 32) || ((9 <=? n) && (n <=? 13)).
Fixpoint atoi (b : list byte) : option Z :=
  match b with
  | [] => None
  | c :: b' =>
      if is_space c then atoi b'
      else if Z_of_byte c =? 45 then Z.opp <$> atoi_digits 0 b'
      else if Z_of_byte c =? 43 then atoi_digits 0 b'
      else atoi_digits 0 b
  end.

(** [sprintf_s] of a number into a buffer of [n] bytes. *)
Definition sprintf_d (n : nat) (z : Z) : option (list byte) :=
  let text := bytes_of (pretty z) in
  if (length text <? n)%nat then Some (buffer n text) else None.
(** [sprintf_s] of a text: empty when it does not fit. *)
Definition sprintf_s (n : nat) (text : string) : option string :=
  if (String.length text <? n)%nat then Some text else None.

(** ** Laws *)
Definition no_nul (s : string) : Prop := zero ∉ bytes_of s.

Lemma length_bytes_of s : length (bytes_of s) = String.length s.
Proof. induction s as [|c s IH]; [done|]. unfold bytes_of in *. simpl. by rewrite IH. Qed.

Lemma buffer_spec n b : (length b <= n)%nat -> buffer n b = b ++ zeros (n - length b).
Proof.
  intros Hl. unfold buffer, zeros. rewrite take_app, (take_ge b) by lia. f_equal. rewrite take_replicate. f_equal. lia.
Qed.
Lemma buffer_length n b : length (buffer n b) = n.
Proof. unfold buffer. rewrite length_take, length_app. unfold zeros. rewrite length_replicate. lia. Qed.

Lemma c_string_bytes s rest : no_nul s -> c_string (bytes_of s ++ zero :: rest) = s.
Proof.
  unfold no_nul, bytes_of. induction s as [|c s IH]; intros Hs; [done|]. simpl in *.
  apply not_elem_of_cons in Hs as [Hc Hs]. rewrite decide_False by done. by rewrite IH.
Qed.

Lemma c_string_inv l : zero ∈ l -> exists rest, l = bytes_of (c_string l) ++ zero :: rest.
Proof.
  induction l as [|c l IH]; [by intros ?%not_elem_of_nil|]. simpl. destruct (decide (c = zero)) as [->|Hc].
  - intros _. by exists l.
  - intros [?|Hl]%elem_of_cons; [done|]. destruct (IH Hl) as [rest E]. exists rest. unfold bytes_of in *. simpl. by rewrite <- E.
Qed.

Lemma c_string_no_nul l : no_nul (c_string l).
Proof.
  unfold no_nul, bytes_of. induction l as [|c l IH]; [by intros ?%not_elem_of_nil|]. simpl.
  destruct (decide (c = zero)) as [Hc|Hc]; [by intros ?%not_elem_of_nil|]. simpl. by apply not_elem_of_cons.
Qed.
