(* ===== verification/Parcel.v ===== *)
(** * Parcels

    [OHOS::Parcel] is not part of the repository. The code marshals objects with
    its typed writes and reads them back with the matching reads; what it relies
    on is that a parcel is a queue: a read that matches the oldest unread write
    returns the value written, and nothing is read past the end. [holds p l] says that [l] are the unread items of
    [p], oldest first. [WriteParcelable] writes a marker and then calls the
    object's [Marshalling], whose exceptions ([None]) it lets through;
    [ReadParcelable] calls [Unmarshalling] after the marker. A boolean travels as a 32-bit integer. A message parcel also carries the
    token of an interface, remote objects, open files and shared memory, each
    identified by a handle. *)
From S2P Require Import Prelude StdMap Memory.

Inductive item :=
| IInt16 (z : Z)
| IInt32 (z : Z)
| IInt64 (z : Z)
| IDouble (bits : Z)
| IString (s : string)
| IUInt8Vector (l : list byte)
| IInt64Vector (l : list Z)
| IDoubleVector (l : list Z)
| IStringVector (l : list string)
| IBool (b : bool)
| IToken (s : string)
| IRemote (handle : Z)
| IFile (handle : Z)
| IAshmem (handle : Z).

Class Parcel := {
  parcel : Type;
  new_parcel : parcel;
  WriteInt16 : Z -> parcel -> parcel;
  WriteInt32 : Z -> parcel -> parcel;
  WriteInt64 : Z -> parcel -> parcel;
  WriteDouble : Z -> parcel -> parcel;
  WriteString : string -> parcel -> parcel;
  WriteUInt8Vector : list byte -> parcel -> parcel;
  WriteInt64Vector : list Z -> parcel -> parcel;
  WriteDoubleVector : list Z -> parcel -> parcel;
  WriteStringVector : list string -> parcel -> parcel;
  WriteBool : bool -> parcel -> parcel;
  WriteInterfaceToken : string -> parcel -> parcel;
  WriteRemoteObject : Z -> parcel -> parcel;
  WriteFileDescriptor : Z -> parcel -> parcel;
  WriteAshmem : Z -> parcel -> parcel;
  WriteParcelable : (parcel -> option parcel) -> parcel -> option parcel;
  ReadInt16 : parcel -> Z * parcel;
  ReadInt32 : parcel -> Z * parcel;
  ReadInt64 : parcel -> Z * parcel;
  ReadDouble : parcel -> Z * parcel;
  ReadString : parcel -> string * parcel;
  ReadUInt8Vector : parcel -> list byte * parcel;
  ReadInt64Vector : parcel -> list Z * parcel;
  ReadDoubleVector : parcel -> list Z * parcel;
  ReadStringVector : parcel -> list string * parcel;
  ReadBool : parcel -> bool * parcel;
  ReadInterfaceToken : parcel -> string * parcel;
  ReadRemoteObject : parcel -> option Z * parcel;
  ReadFileDescriptor : parcel -> Z * parcel;
  ReadAshmem : parcel -> option Z * parcel;
  TryReadInt32 : parcel -> option Z * parcel;
  TryReadStringVector : parcel -> option (list string) * parcel;
  ReadParcelable : forall {A}, (parcel -> A * parcel) -> parcel -> option A * parcel;
}.

(** The queue behaviour of a parcel with room for what is written. *)
Class ParcelLaws `(Parcel) := {
  holds : parcel -> list item -> Prop;
  mark : list item;
  new_holds : holds new_parcel [];
  WriteInt16_holds p l z : holds p l -> holds (WriteInt16 z p) (l ++ [IInt16 z]);
  WriteInt32_holds p l z : holds p l -> holds (WriteInt32 z p) (l ++ [IInt32 z]);
  WriteInt64_holds p l z : holds p l -> holds (WriteInt64 z p) (l ++ [IInt64 z]);
  WriteDouble_holds p l z : holds p l -> holds (WriteDouble z p) (l ++ [IDouble z]);
  WriteString_holds p l s : holds p l -> holds (WriteString s p) (l ++ [IString s]);
  WriteUInt8Vector_holds p l v :
    holds p l -> holds (WriteUInt8Vector v p) (l ++ [IUInt8Vector v]);
  WriteInt64Vector_holds p l v :
    holds p l -> holds (WriteInt64Vector v p) (l ++ [IInt64Vector v]);
  WriteDoubleVector_holds p l v :
    holds p l -> holds (WriteDoubleVector v p) (l ++ [IDoubleVector v]);
  WriteStringVector_holds p l v :
    holds p l -> holds (WriteStringVector v p) (l ++ [IStringVector v]);
  WriteBool_holds p l b : holds p l -> holds (WriteBool b p) (l ++ [IBool b]);
  WriteInterfaceToken_holds p l s : holds p l -> holds (WriteInterfaceToken s p) (l ++ [IToken s]);
  WriteRemoteObject_holds p l h : holds p l -> holds (WriteRemoteObject h p) (l ++ [IRemote h]);
  WriteFileDescriptor_holds p l h : holds p l -> holds (WriteFileDescriptor h p) (l ++ [IFile h]);
  WriteAshmem_holds p l h : holds p l -> holds (WriteAshmem h p) (l ++ [IAshmem h]);
  WriteParcelable_holds m enc p l :
    (forall p l, holds p l -> exists p', m p = Some p' /\ holds p' (l ++ enc)) ->
    holds p l -> exists p', WriteParcelable m p = Some p' /\ holds p' (l ++ mark ++ enc);
  ReadInt16_holds p l z :
    holds p (IInt16 z :: l) -> exists p', ReadInt16 p = (z, p') /\ holds p' l;
  ReadInt32_holds p l z :
    holds p (IInt32 z :: l) -> exists p', ReadInt32 p = (z, p') /\ holds p' l;
  ReadInt64_holds p l z :
    holds p (IInt64 z :: l) -> exists p', ReadInt64 p = (z, p') /\ holds p' l;
  ReadDouble_holds p l z :
    holds p (IDouble z :: l) -> exists p', ReadDouble p = (z, p') /\ holds p' l;
  ReadString_holds p l s :
    holds p (IString s :: l) -> exists p', ReadString p = (s, p') /\ holds p' l;
  ReadUInt8Vector_holds p l v :
    holds p (IUInt8Vector v :: l) -> exists p', ReadUInt8Vector p = (v, p') /\ holds p' l;
  ReadInt64Vector_holds p l v :
    holds p (IInt64Vector v :: l) -> exists p', ReadInt64Vector p = (v, p') /\ holds p' l;
  ReadDoubleVector_holds p l v :
    holds p (IDoubleVector v :: l) -> exists p', ReadDoubleVector p = (v, p') /\ holds p' l;
  ReadStringVector_holds p l v :
    holds p (IStringVector v :: l) -> exists p', ReadStringVector p = (v, p') /\ holds p' l;
  ReadBool_holds p l b :
    holds p (IBool b :: l) -> exists p', ReadBool p = (b, p') /\ holds p' l;
  ReadBool_int p l z :
    holds p (IInt32 z :: l) -> exists p', ReadBool p = (negb (z =? 0), p') /\ holds p' l;
  ReadInterfaceToken_holds p l s :
    holds p (IToken s :: l) -> exists p', ReadInterfaceToken p = (s, p') /\ holds p' l;
  ReadRemoteObject_holds p l h :
    holds p (IRemote h :: l) -> exists p', ReadRemoteObject p = (Some h, p') /\ holds p' l;
  ReadFileDescriptor_holds p l h :
    holds p (IFile h :: l) -> exists p', ReadFileDescriptor p = (h, p') /\ holds p' l;
  ReadAshmem_holds p l h :
    holds p (IAshmem h :: l) -> exists p', ReadAshmem p = (Some h, p') /\ holds p' l;
  TryReadInt32_holds p l z :
    holds p (IInt32 z :: l) -> exists p', TryReadInt32 p = (Some z, p') /\ holds p' l;
  TryReadStringVector_holds p l v :
    holds p (IStringVector v :: l) -> exists p', TryReadStringVector p = (Some v, p') /\ holds p' l;
  ReadString_end p : holds p [] -> exists p', ReadString p = ("", p') /\ holds p' [];
  ReadAshmem_end p : holds p [] -> exists p', ReadAshmem p = (None, p') /\ holds p' [];
  TryReadStringVector_end p :
    holds p [] -> exists p', TryReadStringVector p = (None, p') /\ holds p' [];
  ReadParcelable_holds A (u : parcel -> A * parcel) p l a l' :
    (forall p, holds p l -> exists p', u p = (a, p') /\ holds p' l') ->
    holds p (mark ++ l) -> exists p', ReadParcelable u p = (Some a, p') /\ holds p' l';
}.

(** ** A concrete parcel: the list of its unread items *)
Definition pop (p : list item) : list item := match p with [] => [] | _ :: p => p end.

#[global] Instance parcel_list : Parcel := {|
  parcel := list item;
  new_parcel := [];
  WriteInt16 z p := p ++ [IInt16 z];
  WriteInt32 z p := p ++ [IInt32 z];
  WriteInt64 z p := p ++ [IInt64 z];
  WriteDouble z p := p ++ [IDouble z];
  WriteString s p := p ++ [IString s];
  WriteUInt8Vector v p := p ++ [IUInt8Vector v];
  WriteInt64Vector v p := p ++ [IInt64Vector v];
  WriteDoubleVector v p := p ++ [IDoubleVector v];
  WriteStringVector v p := p ++ [IStringVector v];
  WriteBool b p := p ++ [IBool b];
  WriteInterfaceToken s p := p ++ [IToken s];
  WriteRemoteObject h p := p ++ [IRemote h];
  WriteFileDescriptor h p := p ++ [IFile h];
  WriteAshmem h p := p ++ [IAshmem h];
  WriteParcelable m p := m (p ++ [IInt32 1]);
  ReadInt16 p := (match p with IInt16 z :: _ => z | _ => 0 end, pop p);
  ReadInt32 p := (match p with IInt32 z :: _ => z | _ => 0 end, pop p);
  ReadInt64 p := (match p with IInt64 z :: _ => z | _ => 0 end, pop p);
  ReadDouble p := (match p with IDouble z :: _ => z | _ => 0 end, pop p);
  ReadString p := (match p with IString s :: _ => s | _ => "" end, pop p);
  ReadUInt8Vector p := (match p with IUInt8Vector v :: _ => v | _ => [] end, pop p);
  ReadInt64Vector p := (match p with IInt64Vector v :: _ => v | _ => [] end, pop p);
  ReadDoubleVector p := (match p with IDoubleVector v :: _ => v | _ => [] end, pop p);
  ReadStringVector p := (match p with IStringVector v :: _ => v | _ => [] end, pop p);
  ReadBool p :=
    (match p with IBool b :: _ => b | IInt32 z :: _ => negb (z =? 0) | _ => false end, pop p);
  ReadInterfaceToken p := (match p with IToken s :: _ => s | _ => "" end, pop p);
  ReadRemoteObject p := (match p with IRemote h :: _ => Some h | _ => None end, pop p);
  ReadFileDescriptor p := (match p with IFile h :: _ => h | _ => -1 end, pop p);
  ReadAshmem p := (match p with IAshmem h :: _ => Some h | _ => None end, pop p);
  TryReadInt32 p := (match p with IInt32 z :: _ => Some z | _ => None end, pop p);
  TryReadStringVector p := (match p with IStringVector v :: _ => Some v | _ => None end, pop p);
  ReadParcelable _ u p :=
    match p with
    | IInt32 1 :: p => let '(a, p) := u p in (Some a, p)
    | _ => (None, pop p)
    end;
|}.

#[global] Instance parcel_list_laws : ParcelLaws parcel_list.
Proof.
  apply (@Build_ParcelLaws parcel_list (fun p l => p = l) [IInt32 1] eq_refl);
    try (intros p l x Hp; simpl in *; by subst);
    try (intros p l x Hp; simpl in *; subst; by eexists);
    try (intros p Hp; simpl in *; subst; by eexists).
  - intros m enc p l Hm ->. destruct (Hm (l ++ [IInt32 1]) _ eq_refl) as (p' & E & Hp').
    exists p'. split; [done|]. by rewrite Hp', <- app_assoc.
  - intros A u p l a l' Hu ->. destruct (Hu l eq_refl) as (p' & E & ->).
    exists l'. simpl. by rewrite E.
Defined.

(** ** Automation: the laws of the writes as hints, the reads by a tactic *)
Create HintDb parcel.
#[export] Hint Resolve WriteInt16_holds WriteInt32_holds WriteInt64_holds WriteDouble_holds
  WriteString_holds WriteUInt8Vector_holds WriteInt64Vector_holds WriteDoubleVector_holds
  WriteStringVector_holds WriteBool_holds WriteInterfaceToken_holds WriteRemoteObject_holds
  WriteFileDescriptor_holds WriteAshmem_holds : parcel.

Ltac read_parcel :=
  repeat
    (let p := fresh "p" in let E := fresh "E" in let Hp := fresh "Hp" in
     match goal with
     | H : holds _ (IInt16 _ :: _) |- _ => apply ReadInt16_holds in H as (p & E & Hp)
     | H : holds _ (IInt32 _ :: _) |- _ => apply ReadInt32_holds in H as (p & E & Hp)
     | H : holds _ (IInt64 _ :: _) |- _ => apply ReadInt64_holds in H as (p & E & Hp)
     | H : holds _ (IDouble _ :: _) |- _ => apply ReadDouble_holds in H as (p & E & Hp)
     | H : holds _ (IString _ :: _) |- _ => apply ReadString_holds in H as (p & E & Hp)
     | H : holds _ (IUInt8Vector _ :: _) |- _ => apply ReadUInt8Vector_holds in H as (p & E & Hp)
     | H : holds _ (IInt64Vector _ :: _) |- _ => apply ReadInt64Vector_holds in H as (p & E & Hp)
     | H : holds _ (IDoubleVector _ :: _) |- _ =>
         apply ReadDoubleVector_holds in H as (p & E & Hp)
     | H : holds _ (IStringVector _ :: _) |- _ =>
         apply ReadStringVector_holds in H as (p & E & Hp)
     | H : holds _ (IBool _ :: _) |- _ => apply ReadBool_holds in H as (p & E & Hp)
     end;
     rewrite E; simpl in * ).

(** ** Objects in parcels

    [marshals m enc]: the marshalling [m] appends the items [enc]; [unmarshals u enc a]: the
    unmarshalling [u] takes [enc] off the front and returns [a]. [None] is an
    exception or the use of a null pointer on the way. *)
Section Objects.
Context `{ParcelLaws}.

Definition marshals (m : parcel -> option parcel) (enc : list item) : Prop :=
  forall p l, holds p l -> exists p', m p = Some p' /\ holds p' (l ++ enc).

Definition unmarshals {A} (u : parcel -> option (A * parcel)) (enc : list item) (a : A) : Prop :=
  forall p l, holds p (enc ++ l) -> exists p', u p = Some (a, p') /\ holds p' l.

(** What one side writes, the other side reads. *)
Lemma transfer {A} m (u : parcel -> option (A * parcel)) enc a p :
  marshals m enc -> unmarshals u enc a -> holds p [] ->
  exists p1 p2, m p = Some p1 /\ u p1 = Some (a, p2) /\ holds p2 [].
Proof.
  intros Hm Hu Hp. destruct (Hm p [] Hp) as (p1 & E1 & Hp1).
  destruct (Hu p1 []) as (p2 & E2 & Hp2); [by rewrite app_nil_r|]. by exists p1, p2.
Qed.

Lemma writes_parcelable m enc : marshals m enc -> marshals (WriteParcelable m) (mark ++ enc).
Proof. intros Hm p l Hp. by apply WriteParcelable_holds. Qed.

Lemma writes_bind m1 m2 enc1 enc2 :
  marshals m1 enc1 -> marshals m2 enc2 -> marshals (fun p => p ← m1 p; m2 p) (enc1 ++ enc2).
Proof.
  intros H1 H2 p l Hp. destruct (H1 p l Hp) as (p1 & E1 & Hp1). destruct (H2 p1 _ Hp1) as (p2 & E2 & Hp2).
  exists p2. rewrite E1. simpl. by rewrite app_assoc.
Qed.

Lemma writes_one (w : parcel -> parcel) i :
  (forall p l, holds p l -> holds (w p) (l ++ [i])) -> marshals (fun p => Some (w p)) [i].
Proof. intros Hw p l Hp. eauto. Qed.
End Objects.

(** [in.ReadParcelable<T>()], where [Unmarshalling] may crash ([None]) or give a null
    pointer ([Some None]). *)
Definition ReadObject `{Parcel} {A} (u : parcel -> option (option A * parcel)) (p : parcel)
    : option (option A * parcel) :=
  let '(r, p) := ReadParcelable
    (fun p => match u p with Some (a, p') => (Some a, p') | None => (None, p) end) p in
  match r with
  | None => Some (None, p)
  | Some None => None
  | Some (Some a) => Some (a, p)
  end.

(** A plain [Unmarshalling] never gives a null pointer. *)
Definition never_null `{Parcel} {A} (u : parcel -> option (A * parcel)) (p : parcel)
    : option (option A * parcel) :=
  '(a, p) ← u p; Some (Some a, p).

Lemma reads_object `{ParcelLaws} {A} (u : parcel -> option (option A * parcel)) enc a :
  unmarshals u enc a -> unmarshals (ReadObject u) (mark ++ enc) a.
Proof.
  intros Hu p l Hp. rewrite <- app_assoc in Hp. unfold ReadObject.
  edestruct (ReadParcelable_holds (option (option A))
    (fun p => match u p with Some (a, p') => (Some a, p') | None => (None, p) end) p (enc ++ l) (Some a) l)
    as (p' & E & Hp'); [|exact Hp|].
  - intros q Hq. destruct (Hu q l Hq) as (q' & E & Hq'). exists q'. by rewrite E.
  - exists p'. by rewrite E.
Qed.

Lemma reads_never_null `{ParcelLaws} {A} (u : parcel -> option (A * parcel)) enc a :
  unmarshals u enc a -> unmarshals (never_null u) enc (Some a).
Proof.
  intros Hu p l Hp. destruct (Hu p l Hp) as (p' & E & Hp'). exists p'. unfold never_null. by rewrite E.
Qed.

(** * Maps in parcels

    The buckets of the two frameworks go through a parcel alike: a string and a
    parcelable per entry, in the order of the map, inserted one by one on the way
    back. The loops and their round trip, for any parcelable value. *)

Section Loops.
Context `{Parcel} {V : Type}.
Context (marshal : V -> parcel -> option parcel) (unmarshal : parcel -> V * parcel).

(** [None] when an entry's marshalling throws. *)
Fixpoint write_entries (m : list (string * V)) (p : parcel) : option parcel :=
  match m with
  | [] => Some p
  | (key, v) :: m => p ← WriteParcelable (marshal v) (WriteString key p); write_entries m p
  end.

(** [None] when a null pointer from [ReadParcelable] is dereferenced. *)
Fixpoint read_entries (n : nat) (m : list (string * V)) (p : parcel)
    : option (list (string * V) * parcel) :=
  match n with
  | O => Some (m, p)
  | S n =>
      let '(key, p) := ReadString p in
      let '(value, p) := ReadParcelable unmarshal p in
      v ← value; read_entries n (sm_insert key v m) p
  end.
End Loops.

(** The value comes back as [canon v] when [v] satisfies [ok]. *)
Section RoundTrip.
Context `{ParcelLaws} {V : Type}.
Context (marshal : V -> parcel -> option parcel) (unmarshal : parcel -> V * parcel).
Context (ok : V -> Prop) (encoding : V -> list item) (canon : V -> V).
Hypothesis marshal_holds : forall v p l,
  ok v -> holds p l -> exists p', marshal v p = Some p' /\ holds p' (l ++ encoding v).
Hypothesis unmarshal_holds : forall v p l,
  ok v -> holds p (encoding v ++ l) -> exists p', unmarshal p = (canon v, p') /\ holds p' l.

Definition encoding_entry (e : string * V) : list item := IString e.1 :: mark ++ encoding e.2.
Definition canon_entry (e : string * V) : string * V := (e.1, canon e.2).

Lemma write_entries_holds m p l :
  Forall (fun e => ok e.2) m -> holds p l ->
  exists p', write_entries marshal m p = Some p' /\ holds p' (l ++ (m ≫= encoding_entry)).
Proof.
  intros Hm. revert p l. induction Hm as [|[k v] m Hv _ IH]; intros p l Hp.
  { exists p. by rewrite app_nil_r. }
  apply (WriteString_holds _ _ k) in Hp.
  apply (WriteParcelable_holds (marshal v) (encoding v)) in Hp
    as (p1 & E & Hp); [|intros; by apply marshal_holds].
  destruct (IH _ _ Hp) as (p2 & E2 & Hp2). exists p2. simpl. rewrite E. simpl.
  split; [done|]. rewrite <- !app_assoc in *. exact Hp2.
Qed.

Lemma canon_sorted m : sm_sorted m -> sm_sorted (canon_entry <$> m).
Proof.
  unfold sm_sorted. induction 1 as [|e m Hs IH Hlt]; [constructor|].
  rewrite fmap_cons. constructor; [done|]. by apply Forall_fmap.
Qed.

Lemma read_entries_holds m acc p l :
  Forall (fun e => ok e.2) m -> sm_sorted m ->
  Forall (fun e => Forall (fun e' => key_lt e.1 e'.1) m) acc ->
  holds p ((m ≫= encoding_entry) ++ l) ->
  exists p', read_entries unmarshal (length m) acc p = Some (acc ++ (canon_entry <$> m), p') /\
    holds p' l.
Proof.
  intros Hm Hs. revert acc p. induction Hs as [|[k v] m Hs IH Hf]; intros acc p Hlt Hp.
  { exists p. by rewrite app_nil_r. }
  inversion_clear Hm as [|? ? Hv Hm']. simpl in *.
  rewrite <- !app_assoc in Hp. apply ReadString_holds in Hp as (p1 & -> & Hp).
  apply (ReadParcelable_holds _ unmarshal _ _ (canon v) ((m ≫= encoding_entry) ++ l)) in Hp
    as (p2 & -> & Hp).
  2: { intros p'. by apply unmarshal_holds. }
  simpl. rewrite sm_insert_snoc.
  2: { eapply Forall_impl; [exact Hlt|]. simpl. intros e He. by inversion He. }
  destruct (IH Hm' (acc ++ [(k, canon v)]) p2) as (p3 & E & Hp3); [|done|].
  { apply Forall_app. split; [|by repeat constructor].
    eapply Forall_impl; [exact Hlt|]. simpl. intros e He. by inversion He. }
  exists p3. rewrite E. by rewrite <- app_assoc.
Qed.

(** A count, the entries, and back. *)
Definition encoding_map (m : list (string * V)) : list item :=
  IInt32 (Z.of_nat (length m)) :: (m ≫= encoding_entry).

Lemma writes_map m :
  Forall (fun e => ok e.2) m -> Z.of_nat (length m) < 2147483648 ->
  marshals (fun p => write_entries marshal m (WriteInt32 (s32 (Z.of_nat (length m))) p))
    (encoding_map m).
Proof.
  intros Hf Hlen p l Hp. rewrite s32_small by lia.
  apply (WriteInt32_holds _ _ (Z.of_nat (length m))) in Hp.
  apply (write_entries_holds m) in Hp as (p1 & E1 & Hp); [|done]. exists p1.
  split; [done|]. by rewrite <- app_assoc in Hp.
Qed.

Lemma reads_map m :
  Forall (fun e => ok e.2) m -> sm_sorted m ->
  unmarshals (fun p => let '(n, p) := ReadInt32 p in read_entries unmarshal (Z.to_nat n) [] p)
    (encoding_map m) (canon_entry <$> m).
Proof.
  intros Hf Hs p l Hp. simpl in Hp. apply ReadInt32_holds in Hp as (p2 & E2 & Hp).
  apply (read_entries_holds _ []) in Hp as (p3 & E3 & Hp); [|done|done|by constructor].
  exists p3. by rewrite E2, Nat2Z.id.
Qed.

Lemma entries_roundtrip m p :
  Forall (fun e => ok e.2) m -> sm_sorted m -> Z.of_nat (length m) < 2147483648 ->
  holds p [] ->
  exists p1, write_entries marshal m (WriteInt32 (s32 (Z.of_nat (length m))) p) = Some p1 /\
  exists p2 p3, ReadInt32 p1 = (Z.of_nat (length m), p2) /\
    read_entries unmarshal (length m) [] p2 = Some (canon_entry <$> m, p3) /\ holds p3 [].
Proof.
  intros Hf Hs Hlen Hp. destruct (writes_map m Hf Hlen p [] Hp) as (p1 & E1 & Hp1).
  exists p1. split; [done|]. simpl in Hp1. apply ReadInt32_holds in Hp1 as (p2 & E2 & Hp1).
  rewrite <- (app_nil_r (_ ≫= _)) in Hp1.
  apply (read_entries_holds _ []) in Hp1 as (p3 & E3 & Hp3); [|done|done|by constructor].
  by exists p2, p3.
Qed.
End RoundTrip.

(** ** Uris

    [OHOS::Uri] is not part of the repository. The code makes one from a text, reads
    its text, and sends it as a parcelable object, which is all it relies on. *)
Class UriOps `{Parcel} := {
  Uri : Type;
  Uri_of : string -> Uri;
  Uri_ToString : Uri -> string;
  Uri_Marshalling : Uri -> parcel -> option parcel;
  Uri_Unmarshalling : parcel -> option (option Uri * parcel);
}.

Class UriLaws `{ParcelLaws} (U : UriOps) := {
  encoding_uri : Uri -> list item;
  uri_writes u : marshals (Uri_Marshalling u) (encoding_uri u);
  uri_reads u : unmarshals Uri_Unmarshalling (encoding_uri u) (Some u);
  uri_text u : Uri_of (Uri_ToString u) = u;
}.

(** Uris as their texts. *)
#[global] Instance uri_string : UriOps (H := parcel_list) := {|
  Uri := string;
  Uri_of s := s;
  Uri_ToString s := s;
  Uri_Marshalling u p := Some (WriteString u p);
  Uri_Unmarshalling p := let '(s, p) := ReadString p in Some (Some s, p);
|}.

#[global] Instance uri_string_laws : UriLaws (H0 := parcel_list_laws) uri_string.
Proof.
  apply (@Build_UriLaws parcel_list parcel_list_laws uri_string (fun u => [IString u])); [..|done].
  - intros u p l Hp. eexists. split; [done|]. simpl. by rewrite Hp.
  - intros u p l ->. by eexists.
Defined.
