(* ===== verification/SharedBlock.v ===== *)
(** * SharedBlock: the row store in shared memory

    Model of [SharedBlock] (frameworks/native/appdatafwk/src/shared_block.cpp and
    its header). A block is a fixed-size mapping that holds a header, a linked
    list of row groups of [ROW_OFFSETS_NUM] row offsets, one field directory of
    [CellUnit]s per row and the bytes of the strings and blobs, all bump-allocated
    by [Alloc].

    Pointers into the block are offsets from [mData]; a null pointer is [None].
    Each method is a function of the block that returns its result and the
    updated block. [memset_s] and [memcpy_s] come from the securec library and
    are the operations of the class [SecureC]. *)
From S2P Require Import Prelude Memory.
From Stdlib Require Import Ascii.

(** The two securec calls the block makes: the error code as a function of
    [destMax] and [count]. Documented behaviour: the call succeeds and writes
    [count] bytes when [0 < destMax <= SECUREC_MEM_MAX_LEN] and
    [count <= destMax]; a zero [destMax] is an error and nothing is written. *)
Definition SECUREC_MEM_MAX_LEN : Z := 2147483647.

Class SecureC := {
  memset_s : Z -> Z -> Z;
  memcpy_s : Z -> Z -> Z;
  memset_s_ok : forall d c,
    0 < d <= SECUREC_MEM_MAX_LEN -> 0 <= c <= d -> memset_s d c = 0;
  memset_s_zero : forall c, memset_s 0 c <> 0;
  memcpy_s_ok : forall d c,
    0 < d <= SECUREC_MEM_MAX_LEN -> 0 <= c <= d -> memcpy_s d c = 0;
}.

(** Result codes of the block and types of its cells. *)
Definition SHARED_BLOCK_OK : Z := 0.
Definition SHARED_BLOCK_BAD_VALUE : Z := 1.
Definition SHARED_BLOCK_NO_MEMORY : Z := 2.
Definition SHARED_BLOCK_INVALID_OPERATION : Z := 3.
Definition SHARED_BLOCK_ASHMEM_ERROR : Z := 4.
Definition SHARED_BLOCK_SET_PORT_ERROR : Z := 5.

Definition CELL_UNIT_TYPE_NULL : Z := 0.
Definition CELL_UNIT_TYPE_INTEGER : Z := 1.
Definition CELL_UNIT_TYPE_FLOAT : Z := 2.
Definition CELL_UNIT_TYPE_STRING : Z := 3.
Definition CELL_UNIT_TYPE_BLOB : Z := 4.

Definition ROW_OFFSETS_NUM : Z := 100.
Definition COL_MAX_NUM : Z := 32767.

(** Sizes of the structs laid over the block. [CellUnit] is packed. *)
Definition sizeof_SharedBlockHeader : Z := 16.
Definition sizeof_RowGroupHeader : Z := 404.
Definition sizeof_CellUnit : Z := 12.

Record SharedBlock := mkSharedBlock {
  mName : string;
  mSize : Z;
  mReadOnly : bool;
  mData : gmap Z byte;
}.

Definition with_mData (b : SharedBlock) (m : gmap Z byte) : SharedBlock :=
  {| mName := mName b; mSize := mSize b; mReadOnly := mReadOnly b; mData := m |}.

Definition get32 (b : SharedBlock) (a : Z) : Z := rd 4 (mData b) a.
Definition set32 (b : SharedBlock) (a v : Z) : SharedBlock :=
  with_mData b (wr 4 (mData b) a v).

(** Fields of [SharedBlockHeader], at the start of the block. *)
Definition unusedOffset (b : SharedBlock) : Z := get32 b 0.
Definition firstRowGroupOffset (b : SharedBlock) : Z := get32 b 4.
Definition rowNums (b : SharedBlock) : Z := get32 b 8.
Definition columnNums (b : SharedBlock) : Z := get32 b 12.
Definition set_unusedOffset b v := set32 b 0 v.
Definition set_firstRowGroupOffset b v := set32 b 4 v.
Definition set_rowNums b v := set32 b 8 v.
Definition set_columnNums b v := set32 b 12 v.

(** Fields of the [RowGroupHeader] at [g]. *)
Definition rowOffsets_addr (g i : Z) : Z := g + 4 * i.
Definition nextGroup_addr (g : Z) : Z := g + 4 * ROW_OFFSETS_NUM.
Definition nextGroupOffset (b : SharedBlock) (g : Z) : Z :=
  get32 b (nextGroup_addr g).

(** Fields of the [CellUnit] at [p]; the union holds the 64-bit pattern of a
    [double], an [int64_t] or the offset and size of a string or blob. *)
Definition cell_type (b : SharedBlock) (p : Z) : Z := s32 (get32 b p).
Definition cell_long (b : SharedBlock) (p : Z) : Z := s64 (rd 8 (mData b) (p + 4)).
Definition cell_double (b : SharedBlock) (p : Z) : Z := rd 8 (mData b) (p + 4).
Definition cell_offset (b : SharedBlock) (p : Z) : Z := get32 b (p + 4).
Definition cell_size (b : SharedBlock) (p : Z) : Z := get32 b (p + 8).
Definition set_cell_type b p v := set32 b p v.
Definition set_cell_long b p v := with_mData b (wr 8 (mData b) (p + 4) v).
Definition set_cell_offset b p v := set32 b (p + 4) v.
Definition set_cell_size b p v := set32 b (p + 8) v.

Definition OffsetToPtr (b : SharedBlock) (offset bufferSize : Z) : option Z :=
  if offset >=? mSize b then None
  else if u32 (offset + bufferSize) >? mSize b then None
  else Some offset.

Definition OffsetFromPtr (ptr : Z) : Z := u32 ptr.

Definition Alloc (b : SharedBlock) (size : Z) (aligned : bool) : Z * SharedBlock :=
  let unused := unusedOffset b in
  let padding := if aligned then Z.land (u32 (u32 (Z.lnot unused) + 1)) 3 else 0 in
  let offset := u32 (unused + padding) in
  if u64 (offset + size) >? mSize b then (0, b)
  else (offset, set_unusedOffset b (u32 (offset + size))).

Definition Clear (b : SharedBlock) : Z * SharedBlock :=
  if mReadOnly b then (SHARED_BLOCK_INVALID_OPERATION, b)
  else
    let b := set_unusedOffset b (sizeof_SharedBlockHeader + sizeof_RowGroupHeader) in
    let b := set_firstRowGroupOffset b sizeof_SharedBlockHeader in
    let b := set_rowNums b 0 in
    let b := set_columnNums b 0 in
    match OffsetToPtr b (firstRowGroupOffset b) 0 with
    | None => (SHARED_BLOCK_BAD_VALUE, b)
    | Some g => (SHARED_BLOCK_OK, set32 b (nextGroup_addr g) 0)
    end.

Definition SetColumnNum (b : SharedBlock) (numColumns : Z) : Z * SharedBlock :=
  if mReadOnly b then (SHARED_BLOCK_INVALID_OPERATION, b)
  else
    let cur := columnNums b in
    if ((cur >? 0) || (rowNums b >? 0)) && negb (cur =? numColumns) then
      (SHARED_BLOCK_INVALID_OPERATION, b)
    else if numColumns >? COL_MAX_NUM then (SHARED_BLOCK_INVALID_OPERATION, b)
    else (SHARED_BLOCK_OK, set_columnNums b numColumns).

(** The loop of [GetRowOffset]: [while (rowPos >= ROW_OFFSETS_NUM)] follow
    [nextGroupOffset]. Every turn takes 100 off [rowPos], which bounds the turns. *)
Fixpoint GetRowOffset_loop (fuel : nat) (b : SharedBlock) (group rowPos : Z) : option Z :=
  if rowPos >=? ROW_OFFSETS_NUM then
    match fuel with
    | O => None
    | S fuel =>
        match OffsetToPtr b (nextGroupOffset b group) 0 with
        | None => None
        | Some group => GetRowOffset_loop fuel b group (rowPos - ROW_OFFSETS_NUM)
        end
    end
  else Some (rowOffsets_addr group rowPos).

Definition GetRowOffset (b : SharedBlock) (row : Z) : option Z :=
  match OffsetToPtr b (firstRowGroupOffset b) 0 with
  | None => None
  | Some group => GetRowOffset_loop (Z.to_nat (row / ROW_OFFSETS_NUM)) b group row
  end.

(** The loop of [AllocRowOffset]: [while (rowPos > ROW_OFFSETS_NUM)]. *)
Fixpoint AllocRowOffset_loop (fuel : nat) (b : SharedBlock) (group rowPos : Z)
    : option (Z * Z) :=
  if rowPos >? ROW_OFFSETS_NUM then
    match fuel with
    | O => None
    | S fuel =>
        match OffsetToPtr b (nextGroupOffset b group) 0 with
        | None => None
        | Some group => AllocRowOffset_loop fuel b group (rowPos - ROW_OFFSETS_NUM)
        end
    end
  else Some (group, rowPos).

(** The part of [AllocRowOffset] after the loop that steps into the next group
    when the current one is full, allocating it on demand. *)
Definition AllocRowOffset_nextGroup (b : SharedBlock) (group : Z)
    : option Z * SharedBlock :=
  let '(next, b) :=
    if nextGroupOffset b group =? 0 then
      let '(off, b) := Alloc b sizeof_RowGroupHeader true in
      (off, set32 b (nextGroup_addr group) off)
    else (nextGroupOffset b group, b) in
  if next =? 0 then (None, b)
  else
    match OffsetToPtr b (nextGroupOffset b group) 0 with
    | None => (None, b)
    | Some group => (Some group, set32 b (nextGroup_addr group) 0)
    end.

Definition AllocRowOffset (b : SharedBlock) : option Z * SharedBlock :=
  let rowPos := rowNums b in
  match OffsetToPtr b (firstRowGroupOffset b) 0 with
  | None => (None, b)
  | Some group =>
      match AllocRowOffset_loop (Z.to_nat (rowPos / ROW_OFFSETS_NUM)) b group rowPos with
      | None => (None, b)
      | Some (group, rowPos) =>
          if rowPos =? ROW_OFFSETS_NUM then
            match AllocRowOffset_nextGroup b group with
            | (None, b) => (None, b)
            | (Some group, b) =>
                (Some (rowOffsets_addr group 0), set_rowNums b (rowNums b + 1))
            end
          else (Some (rowOffsets_addr group rowPos), set_rowNums b (rowNums b + 1))
      end
  end.

Definition FreeLastRow (b : SharedBlock) : Z * SharedBlock :=
  if mReadOnly b then (SHARED_BLOCK_INVALID_OPERATION, b)
  else if rowNums b >? 0 then (SHARED_BLOCK_OK, set_rowNums b (rowNums b - 1))
  else (SHARED_BLOCK_OK, b).

Definition GetCellUnit (b : SharedBlock) (row column : Z) : option Z :=
  if (row >=? rowNums b) || (column >=? columnNums b) then None
  else
    match GetRowOffset b row with
    | None => None
    | Some rowOffset =>
        match OffsetToPtr b (get32 b rowOffset) 0 with
        | None => None
        | Some cellUnit => Some (cellUnit + sizeof_CellUnit * column)
        end
    end.

(** [GetCellUnitValueString] and [GetCellUnitValueBlob]: the size, and the bytes
    behind the pointer when it is not null. *)
Definition GetCellUnitValue (b : SharedBlock) (p : Z) : Z * option (list byte) :=
  let size := cell_size b p in
  match OffsetToPtr b (cell_offset b p) size with
  | None => (size, None)
  | Some a => (size, Some (rd_bytes (Z.to_nat size) (mData b) a))
  end.

Section Securec.
Context `{SecureC}.

Definition AllocRow (b : SharedBlock) : Z * SharedBlock :=
  if mReadOnly b then (SHARED_BLOCK_INVALID_OPERATION, b)
  else
    match AllocRowOffset b with
    | (None, b) => (SHARED_BLOCK_NO_MEMORY, b)
    | (Some rowOffset, b) =>
        let fieldDirSize := u64 (columnNums b * sizeof_CellUnit) in
        let '(fieldDirOffset, b) := Alloc b fieldDirSize true in
        if fieldDirOffset =? 0 then
          (SHARED_BLOCK_NO_MEMORY, set_rowNums b (rowNums b - 1))
        else
          match OffsetToPtr b fieldDirOffset 0 with
          | None => (SHARED_BLOCK_BAD_VALUE, b)
          | Some fieldDir =>
              if negb (memset_s fieldDirSize fieldDirSize =? 0) then
                (SHARED_BLOCK_NO_MEMORY, b)
              else
                let b := with_mData b
                  (wr_bytes (mData b) fieldDir (replicate (Z.to_nat fieldDirSize) zero)) in
                (SHARED_BLOCK_OK, set32 b rowOffset fieldDirOffset)
          end
    end.

Definition PutBlobOrString (b : SharedBlock) (row column : Z) (value : list byte)
    (size type : Z) : Z * SharedBlock :=
  if mReadOnly b then (SHARED_BLOCK_INVALID_OPERATION, b)
  else
    match GetCellUnit b row column with
    | None => (SHARED_BLOCK_BAD_VALUE, b)
    | Some cellUnit =>
        let '(offset, b) := Alloc b size false in
        if offset =? 0 then (SHARED_BLOCK_NO_MEMORY, b)
        else
          match OffsetToPtr b offset 0 with
          | None => (SHARED_BLOCK_NO_MEMORY, b)
          | Some ptr =>
              if negb (size =? 0) && negb (memcpy_s size size =? 0) then
                (SHARED_BLOCK_NO_MEMORY, b)
              else
                let b := if size =? 0 then b
                  else with_mData b
                    (wr_bytes (mData b) ptr (firstn (Z.to_nat size) value)) in
                let b := set_cell_type b cellUnit type in
                let b := set_cell_offset b cellUnit offset in
                (SHARED_BLOCK_OK, set_cell_size b cellUnit (u32 size))
          end
    end.

Definition PutBlob b row column value size :=
  PutBlobOrString b row column value size CELL_UNIT_TYPE_BLOB.
Definition PutString b row column value sizeIncludingNull :=
  PutBlobOrString b row column value sizeIncludingNull CELL_UNIT_TYPE_STRING.

Definition SetRawData (b : SharedBlock) (rawData : list byte) (size : Z)
    : Z * SharedBlock :=
  if size <=? 0 then (SHARED_BLOCK_INVALID_OPERATION, b)
  else if size >? mSize b then (SHARED_BLOCK_NO_MEMORY, b)
  else if negb (memcpy_s (mSize b) size =? 0) then (SHARED_BLOCK_NO_MEMORY, b)
  else (SHARED_BLOCK_OK,
        with_mData b (wr_bytes (mData b) 0 (firstn (Z.to_nat size) rawData))).

End Securec.

Definition PutLong (b : SharedBlock) (row column value : Z) : Z * SharedBlock :=
  if mReadOnly b then (SHARED_BLOCK_INVALID_OPERATION, b)
  else
    match GetCellUnit b row column with
    | None => (SHARED_BLOCK_BAD_VALUE, b)
    | Some cellUnit =>
        let b := set_cell_type b cellUnit CELL_UNIT_TYPE_INTEGER in
        (SHARED_BLOCK_OK, set_cell_long b cellUnit value)
    end.

(** A [double] is its 64-bit pattern. *)
Definition PutDouble (b : SharedBlock) (row column value : Z) : Z * SharedBlock :=
  if mReadOnly b then (SHARED_BLOCK_INVALID_OPERATION, b)
  else
    match GetCellUnit b row column with
    | None => (SHARED_BLOCK_BAD_VALUE, b)
    | Some cellUnit =>
        let b := set_cell_type b cellUnit CELL_UNIT_TYPE_FLOAT in
        (SHARED_BLOCK_OK, set_cell_long b cellUnit value)
    end.

Definition PutNull (b : SharedBlock) (row column : Z) : Z * SharedBlock :=
  if mReadOnly b then (SHARED_BLOCK_INVALID_OPERATION, b)
  else
    match GetCellUnit b row column with
    | None => (SHARED_BLOCK_BAD_VALUE, b)
    | Some cellUnit =>
        let b := set_cell_type b cellUnit CELL_UNIT_TYPE_NULL in
        let b := set_cell_offset b cellUnit 0 in
        (SHARED_BLOCK_OK, set_cell_size b cellUnit 0)
    end.

Definition GetUsedBytes (b : SharedBlock) : Z := unusedOffset b.
Definition GetRowNum (b : SharedBlock) : Z := rowNums b.
Definition GetColumnNum (b : SharedBlock) : Z := columnNums b.

(** ** Creation

    The Ashmem service: what [CreateAshmem], [MapReadAndWriteAshmem] and
    [ReadFromAshmem] answer for a name and a size. *)
Record Ashmem := {
  CreateAshmem : string -> Z -> bool;
  MapReadAndWriteAshmem : bool;
  ReadFromAshmem : Z -> Z -> bool;
}.

Definition Init (ash : Ashmem) : bool :=
  ReadFromAshmem ash sizeof_SharedBlockHeader 0.

Definition CreateSharedBlock (ash : Ashmem) (name : string) (size : Z)
    : Z * option SharedBlock :=
  let b := mkSharedBlock name size false ∅ in
  if negb (Init ash) then (SHARED_BLOCK_ASHMEM_ERROR, None)
  else (SHARED_BLOCK_OK, Some b).

Definition Create (ash : Ashmem) (name : string) (size : Z)
    : Z * option SharedBlock :=
  if negb (CreateAshmem ash ("SharedBlock:" +:+ name) size) then
    (SHARED_BLOCK_ASHMEM_ERROR, None)
  else if negb (MapReadAndWriteAshmem ash) then (SHARED_BLOCK_SET_PORT_ERROR, None)
  else
    let '(result, block) := CreateSharedBlock ash name size in
    if result =? SHARED_BLOCK_OK then (SHARED_BLOCK_OK, block)
    else (result, None).
