(* ===== verification/SharedBlockRepr.v ===== *)
(** * SharedBlock: abstract table and representation relation

    [table] is what the block promises to its clients: a number of columns and a
    list of rows of cells. [repr b t] says that the bytes of the block [b]
    represent the table [t]. The relation is stated with a ghost map [own] that
    gives every byte of the block one owner (header, slot of a row group, link of
    a row group, cell, variable-size data): two regions with different
    owners cannot overlap, so a write to one of them leaves the other alone. *)
From S2P Require Import Prelude Memory SharedBlock.
From Stdlib Require Import Ascii.

Inductive cell :=
| CNull
| CLong (v : Z)
| CDouble (bits : Z)
| CString (bytes : list byte)
| CBlob (bytes : list byte).

Record table := mkTable {
  cols : nat;
  rows : list (list cell);
}.

(** ** The abstract operations *)
Definition tbl_empty (n : nat) : table := mkTable n [].
Definition tbl_add_row (t : table) : table :=
  mkTable (cols t) (rows t ++ [replicate (cols t) CNull]).
Definition tbl_free_last (t : table) : table :=
  mkTable (cols t) (take (length (rows t) - 1) (rows t)).
Definition tbl_set (t : table) (r c : nat) (x : cell) : table :=
  mkTable (cols t) (alter (fun row => <[c := x]> row) r (rows t)).
Definition tbl_get (t : table) (r c : nat) : option cell :=
  row ← rows t !! r; row !! c.
Definition in_range (t : table) (r c : nat) : Prop :=
  (r < length (rows t))%nat /\ (c < cols t)%nat.

(** ** Ownership of bytes *)
Inductive owner :=
| OHdr
| OSlot (r : nat)
| ONext (i : nat)
| OCell (r c : nat)
| OData (r c : nat)
| OOther.

Definition owns (own : Z -> owner) (lo n : Z) (o : owner) : Prop :=
  forall a, lo <= a < lo + n -> own a = o.

(** The owners after the region [[off, off + size)] has been handed out. *)
Definition own_upd (own : Z -> owner) (off size : Z) (f : Z -> owner) : Z -> owner :=
  fun a => if (off <=? a) && (a <? off + size) then f a else own a.

Lemma own_upd_in own off size f a :
  off <= a < off + size -> own_upd own off size f a = f a.
Proof.
  intros H. unfold own_upd.
  rewrite (proj2 (Z.leb_le _ _)), (proj2 (Z.ltb_lt _ _)) by lia. done.
Qed.

Lemma own_upd_out own off size f a :
  a < off \/ off + size <= a -> own_upd own off size f a = own a.
Proof.
  intros H. unfold own_upd.
  destruct (off <=? a) eqn:E1, (a <? off + size) eqn:E2; simpl; try done. zlia.
Qed.

(** ** The representation relation *)
Definition data_repr (own : Z -> owner) (b : SharedBlock) (p : Z) (r c : nat)
    (bs : list byte) : Prop :=
  let off := cell_offset b p in
  let len := Z.of_nat (length bs) in
  cell_size b p = len /\ 16 <= off < mSize b /\ off + len <= unusedOffset b /\
  owns own off len (OData r c) /\
  rd_bytes (length bs) (mData b) off = bs.

Definition cell_repr (own : Z -> owner) (b : SharedBlock) (p : Z) (r c : nat)
    (x : cell) : Prop :=
  match x with
  | CNull => cell_type b p = CELL_UNIT_TYPE_NULL
  | CLong v => cell_type b p = CELL_UNIT_TYPE_INTEGER /\ cell_long b p = v
  | CDouble v => cell_type b p = CELL_UNIT_TYPE_FLOAT /\ cell_double b p = v
  | CString bs => cell_type b p = CELL_UNIT_TYPE_STRING /\ data_repr own b p r c bs
  | CBlob bs => cell_type b p = CELL_UNIT_TYPE_BLOB /\ data_repr own b p r c bs
  end.

Definition group_ok (own : Z -> owner) (b : SharedBlock) (i : nat) (g : Z) : Prop :=
  16 <= g /\ g + 404 <= unusedOffset b /\
  (forall j, 0 <= j < 100 -> owns own (g + 4 * j) 4 (OSlot (100 * i + Z.to_nat j))) /\
  owns own (g + 400) 4 (ONext i).

(** The field directory of row [r] starts at [d]. *)
Definition dir_ok (own : Z -> owner) (b : SharedBlock) (n : nat) (r : nat) (d : Z)
    : Prop :=
  16 <= d < mSize b /\ d + 12 * Z.of_nat n <= unusedOffset b /\
  (forall c, (c < n)%nat -> owns own (d + 12 * Z.of_nat c) 12 (OCell r c)).

Definition slot_addr (g : Z) (r : nat) : Z := g + 4 * Z.of_nat (r mod 100).

Definition row_ok (own : Z -> owner) (gs : list Z) (b : SharedBlock) (n r : nat)
    (row : list cell) : Prop :=
  exists g d,
    gs !! (r / 100)%nat = Some g /\ get32 b (slot_addr g r) = d /\
    length row = n /\ dir_ok own b n r d /\
    forall c x, row !! c = Some x -> cell_repr own b (d + 12 * Z.of_nat c) r c x.

(** Everything but the row count of the header, which [AllocRow] updates first. *)
Record core (own : Z -> owner) (gs : list Z) (b : SharedBlock) (t : table) : Prop := {
  c_size : 420 <= mSize b <= SECUREC_MEM_MAX_LEN;
  c_first : firstRowGroupOffset b = 16;
  c_unused : 420 <= unusedOffset b <= mSize b;
  c_cols : columnNums b = Z.of_nat (cols t);
  c_colmax : Z.of_nat (cols t) <= COL_MAX_NUM;
  c_hdr : owns own 0 16 OHdr;
  c_head : gs !! 0%nat = Some 16;
  c_used : 16 + 404 * Z.of_nat (length gs) <= unusedOffset b;
  c_group : forall i g, gs !! i = Some g -> group_ok own b i g;
  c_chain : forall i g, gs !! i = Some g -> nextGroupOffset b g = default 0 (gs !! S i);
  c_row : forall r row, rows t !! r = Some row -> row_ok own gs b (cols t) r row;
  c_mem : forall a, a < 0 \/ mSize b <= a -> mData b !! a = None;
}.

(** A writable block that holds the table [t]. *)
Definition repr (b : SharedBlock) (t : table) : Prop :=
  mReadOnly b = false /\ rowNums b = Z.of_nat (length (rows t)) /\
  exists own gs, core own gs b t.

Lemma slot_owns own b r g :
  group_ok own b (r / 100) g -> owns own (slot_addr g r) 4 (OSlot r).
Proof.
  intros (_ & _ & Ho & _). unfold slot_addr.
  pose proof (Nat.div_mod_eq r 100). pose proof (Nat.mod_upper_bound r 100).
  replace (OSlot r) with (OSlot (100 * (r / 100) + Z.to_nat (Z.of_nat (r mod 100))))
    by (f_equal; lia).
  apply Ho. lia.
Qed.

(** ** Reading through a frame *)

(** [b'] differs from [b] only in bytes whose owner is in [P]. *)
Definition frame (own : Z -> owner) (P : owner -> Prop) (b b' : SharedBlock) : Prop :=
  mSize b' = mSize b /\
  (forall a, a < 0 \/ mSize b <= a -> mData b' !! a = None) /\
  forall a, ~ P (own a) -> mData b' !! a = mData b !! a.

Lemma frame_get32 own P b b' a o :
  frame own P b b' -> owns own a 4 o -> ~ P o -> get32 b' a = get32 b a.
Proof.
  intros (_ & _ & Hf) Ho HP. apply rd_ext. intros x Hx. apply Hf.
  by rewrite Ho by lia.
Qed.

Lemma frame_rd8 own P b b' a o :
  frame own P b b' -> owns own a 8 o -> ~ P o -> rd 8 (mData b') a = rd 8 (mData b) a.
Proof.
  intros (_ & _ & Hf) Ho HP. apply rd_ext. intros x Hx. apply Hf.
  by rewrite Ho by lia.
Qed.

Lemma owns_sub own lo n o lo' n' :
  owns own lo n o -> lo <= lo' -> lo' + n' <= lo + n -> owns own lo' n' o.
Proof. intros H H1 H2 a Ha. apply H. lia. Qed.

Lemma frame_hdr own P b b' :
  frame own P b b' -> owns own 0 16 OHdr -> ~ P OHdr ->
  forall a, 0 <= a <= 12 -> get32 b' a = get32 b a.
Proof.
  intros Hf Ho HP a Ha. apply (frame_get32 own P b b' a OHdr Hf); [|done].
  eapply owns_sub; [exact Ho|lia|lia].
Qed.

Lemma frame_data own P b b' p r c bs :
  frame own P b b' -> unusedOffset b <= unusedOffset b' ->
  owns own p 12 (OCell r c) -> ~ P (OCell r c) -> ~ P (OData r c) ->
  data_repr own b p r c bs -> data_repr own b' p r c bs.
Proof.
  intros Hf Hu Ho HP1 HP2 (Hs & Hoff & Hend & Hown & Hrd).
  assert (Hg : forall k, 0 <= k <= 8 -> get32 b' (p + k) = get32 b (p + k)).
  { intros k Hk. apply (frame_get32 own P b b' _ (OCell r c) Hf); [|done].
    eapply owns_sub; [exact Ho|lia|lia]. }
  unfold data_repr, cell_offset, cell_size in *. rewrite !Hg by lia.
  destruct Hf as (Hsz & _ & Hf2). rewrite Hsz. split_and!; try done; try lia.
  rewrite <- Hrd at 2. apply rd_bytes_ext. intros x Hx. apply Hf2.
  by rewrite Hown by lia.
Qed.

Lemma frame_cell own P b b' p r c x :
  frame own P b b' -> unusedOffset b <= unusedOffset b' ->
  owns own p 12 (OCell r c) -> ~ P (OCell r c) -> ~ P (OData r c) ->
  cell_repr own b p r c x -> cell_repr own b' p r c x.
Proof.
  intros Hf Hu Ho HP1 HP2.
  assert (get32 b' p = get32 b p) as Ht.
  { apply (frame_get32 own P b b' _ (OCell r c) Hf); [|done].
    eapply owns_sub; [exact Ho|lia|lia]. }
  assert (rd 8 (mData b') (p + 4) = rd 8 (mData b) (p + 4)) as Hv.
  { apply (frame_rd8 own P b b' _ (OCell r c) Hf); [|done].
    eapply owns_sub; [exact Ho|lia|lia]. }
  destruct x; simpl; unfold cell_type, cell_long, cell_double; rewrite ?Ht, ?Hv;
    try done; intros [? ?]; split; eauto using frame_data.
Qed.

(** ** Writes as frames *)
Lemma get32_set32_same b a v : get32 (set32 b a v) a = u32 v.
Proof. unfold get32, set32. simpl mData. apply (rd_wr_same 4). Qed.

Lemma get32_set32_other b a a' v :
  a + 4 <= a' \/ a' + 4 <= a -> get32 (set32 b a' v) a = get32 b a.
Proof. intros H. unfold get32, set32. simpl mData. apply rd_wr_other. lia. Qed.

Lemma get32_range b a : 0 <= get32 b a < 4294967296.
Proof. apply (rd_range 4). Qed.

(** A write inside a region with owner [o], within the block, is a frame. *)
Lemma frame_wr own (P : owner -> Prop) b n p v o :
  owns own p (Z.of_nat n) o -> P o -> 0 <= p -> p + Z.of_nat n <= mSize b ->
  (forall a, a < 0 \/ mSize b <= a -> mData b !! a = None) ->
  frame own P b (with_mData b (wr n (mData b) p v)).
Proof.
  intros Ho HP H0 H1 Hm. split_and!; simpl; [done| |].
  - intros a Ha. rewrite wr_out by lia. by apply Hm.
  - intros a Ha. apply wr_out.
    destruct (decide (p <= a < p + Z.of_nat n)) as [Hin|Hout]; [|lia].
    by rewrite Ho in Ha by done.
Qed.

Lemma frame_wr_bytes own (P : owner -> Prop) b p bs :
  (forall a, p <= a < p + Z.of_nat (length bs) -> P (own a)) ->
  0 <= p -> p + Z.of_nat (length bs) <= mSize b ->
  (forall a, a < 0 \/ mSize b <= a -> mData b !! a = None) ->
  frame own P b (with_mData b (wr_bytes (mData b) p bs)).
Proof.
  intros Ho H0 H1 Hm. split_and!; simpl; [done| |].
  - intros a Ha. rewrite wr_bytes_out by lia. by apply Hm.
  - intros a Ha. apply wr_bytes_out.
    destruct (decide (p <= a < p + Z.of_nat (length bs))) as [Hin|Hout]; [|lia].
    destruct Ha. by apply Ho.
Qed.

Lemma frame_trans own P b1 b2 b3 :
  frame own P b1 b2 -> frame own P b2 b3 -> frame own P b1 b3.
Proof.
  intros (H1 & H2 & H3) (H4 & H5 & H6). split_and!.
  - congruence.
  - intros a Ha. apply H5. by rewrite H1.
  - intros a Ha. rewrite H6, H3; done.
Qed.

(** ** The core is preserved by writes it does not depend on *)

(** The fields of the header the core reads, after an allocation or a write of the
    row count. *)
Definition hdr_step (b b' : SharedBlock) : Prop :=
  firstRowGroupOffset b' = firstRowGroupOffset b /\ columnNums b' = columnNums b /\
  unusedOffset b <= unusedOffset b' <= mSize b.

(** A step that may also relink the row groups, as long as the groups of the rows
    stay where they are. *)
Lemma core_rechain own gs gs' b t P b' :
  core own gs b t -> frame own P b b' -> hdr_step b b' ->
  (forall r, (r < length (rows t))%nat ->
     gs' !! (r / 100)%nat = gs !! (r / 100)%nat /\
     ~ P (OSlot r) /\ forall c, ~ P (OCell r c) /\ ~ P (OData r c)) ->
  gs' !! 0%nat = Some 16 ->
  16 + 404 * Z.of_nat (length gs') <= unusedOffset b' ->
  (forall i g, gs' !! i = Some g -> group_ok own b' i g) ->
  (forall i g, gs' !! i = Some g -> nextGroupOffset b' g = default 0 (gs' !! S i)) ->
  core own gs' b' t.
Proof.
  intros C F (Hf & Hcn & Hu) Hr H0 Hused Hgrp Hch. destruct C.
  assert (Hm : mSize b' = mSize b) by (by destruct F).
  constructor; rewrite ?Hm, ?Hf, ?Hcn; try done; try lia.
  - intros r row Hrow. pose proof (lookup_lt_Some _ _ _ Hrow) as Hlt.
    destruct (c_row0 r row Hrow) as (g & d & Hg & Hd & Hlen & Hdir & Hc).
    destruct (Hr r Hlt) as (Hgs & HP1 & HP2), Hdir as (Hd1 & Hd2 & Hown).
    exists g, d. rewrite Hgs. split_and!; try done.
    + rewrite <- Hd. eapply frame_get32; [done| |exact HP1].
      eapply slot_owns. by apply c_group0.
    + split_and!; [lia|lia|lia|done].
    + intros c x Hx. destruct (HP2 c) as [HPc HPd].
      eapply frame_cell; [done|lia| |done|done|by apply Hc].
      apply Hown. rewrite <- Hlen. by eapply lookup_lt_Some.
  - by destruct F as (_ & F & _).
Qed.

Lemma group_ok_mono own b b' i g :
  group_ok own b i g -> unusedOffset b <= unusedOffset b' -> group_ok own b' i g.
Proof. intros (? & ? & ? & ?) Hu. split_and!; try done; lia. Qed.

Lemma core_frame own gs b t P b' :
  core own gs b t -> frame own P b b' -> hdr_step b b' ->
  (forall r, (r < length (rows t))%nat ->
     ~ P (OSlot r) /\ forall c, ~ P (OCell r c) /\ ~ P (OData r c)) ->
  (forall i, (i < length gs)%nat -> ~ P (ONext i)) ->
  core own gs b' t.
Proof.
  intros C F Hh Hr Hn. pose proof Hh as (_ & _ & Hu).
  eapply core_rechain; try done; destruct C; try done.
  - intros r Hlt. split; [done|]. by apply Hr.
  - lia.
  - intros i g Hg. eapply group_ok_mono; [by apply c_group0|lia].
  - intros i g Hg. rewrite <- (c_chain0 i g Hg).
    destruct (c_group0 i g Hg) as (_ & _ & _ & Ho).
    eapply frame_get32; [done|exact Ho|].
    apply Hn. by eapply lookup_lt_Some.
Qed.

(** Owners above the high-water mark are immaterial. *)
Lemma core_own_upd own gs b t off size f :
  core own gs b t -> unusedOffset b <= off -> core (own_upd own off size f) gs b t.
Proof.
  intros C Hoff. destruct C.
  assert (Ho : forall lo n o, lo + n <= unusedOffset b -> owns own lo n o ->
                owns (own_upd own off size f) lo n o).
  { intros lo n o Hlo H a Ha. rewrite own_upd_out by lia. by apply H. }
  constructor; try done.
  - apply Ho; [lia|done].
  - intros i g Hg. destruct (c_group0 i g Hg) as (? & ? & Hs & Hn).
    split_and!; try done.
    + intros j Hj. apply Ho; [lia|by apply Hs].
    + apply Ho; [lia|done].
  - intros r row Hrow.
    destruct (c_row0 r row Hrow) as (g & d & Hg & Hd & Hlen & Hdir & Hc).
    destruct Hdir as (Hd1 & Hd2 & Hown).
    exists g, d. split_and!; try done.
    + split_and!; [lia|lia|lia|]. intros c Hcc. apply Ho; [lia|by apply Hown].
    + intros c x Hx. specialize (Hc c x Hx).
      assert (Hdata : forall p bs, data_repr own b p r c bs ->
                data_repr (own_upd own off size f) b p r c bs).
      { intros p bs (? & ? & ? & ? & ?). split_and!; try done; try lia.
        apply Ho; [lia|done]. }
      destruct x; simpl in *; try done; destruct Hc; auto.
Qed.

Lemma core_set_rowNums own gs b t v :
  core own gs b t -> core own gs (set_rowNums b v) t.
Proof.
  intros C. eapply (core_frame own gs b t (fun o => o = OHdr)); try done.
  - apply (frame_wr own _ b 4 8 v OHdr); try done; destruct C; try lia; try done.
    eapply owns_sub; [exact c_hdr0|lia|lia].
  - destruct C. unfold hdr_step, firstRowGroupOffset, columnNums, unusedOffset, set_rowNums.
    rewrite !get32_set32_other by lia. split_and!; try done; try lia. apply c_unused0.
Qed.

(** ** Changing the table *)

Lemma core_add_row own gs b t g d :
  core own gs b t ->
  gs !! (length (rows t) / 100)%nat = Some g ->
  get32 b (slot_addr g (length (rows t))) = d ->
  dir_ok own b (cols t) (length (rows t)) d ->
  (forall c, (c < cols t)%nat -> cell_type b (d + 12 * Z.of_nat c) = CELL_UNIT_TYPE_NULL) ->
  core own gs b (tbl_add_row t).
Proof.
  intros C Hg Hd Hdir Hnull. destruct C. constructor; try done.
  intros r row Hrow. simpl in Hrow.
  apply lookup_snoc_Some in Hrow as [[_ Hrow]|[-> <-]].
  - by apply c_row0.
  - exists g, d. split_and!; try done.
    + apply length_replicate.
    + intros c x Hx. apply lookup_replicate in Hx as [-> Hc]. by apply Hnull.
Qed.

Lemma core_free_last own gs b t :
  core own gs b t -> core own gs b (tbl_free_last t).
Proof.
  intros C. destruct C. constructor; try done.
  intros r row Hrow. simpl in Hrow. apply lookup_take_Some in Hrow as [Hrow _].
  by apply c_row0.
Qed.

Lemma rows_tbl_set t r c x :
  length (rows (tbl_set t r c x)) = length (rows t).
Proof. apply length_alter. Qed.

Lemma core_set_cell own gs b t r c x row g d b' :
  core own gs b t ->
  rows t !! r = Some row -> (c < cols t)%nat ->
  gs !! (r / 100)%nat = Some g -> get32 b (slot_addr g r) = d ->
  frame own (fun o => o = OCell r c \/ o = OData r c) b b' -> hdr_step b b' ->
  cell_repr own b' (d + 12 * Z.of_nat c) r c x ->
  core own gs b' (tbl_set t r c x).
Proof.
  intros C Hrow Hc Hg Hd F Hh Hx.
  set (P := fun o => o = OCell r c \/ o = OData r c) in F.
  assert (HP : forall r' c', (r', c') <> (r, c) -> ~ P (OCell r' c') /\ ~ P (OData r' c')).
  { intros r' c' Hne. split; intros [|]; congruence. }
  assert (HS : forall r', ~ P (OSlot r')) by (intros r' [|]; congruence).
  (* the table without row [r] is untouched *)
  pose proof Hh as (Hf & Hcn & Hu). destruct C.
  assert (Hm : mSize b' = mSize b) by (by destruct F).
  constructor; simpl cols; rewrite ?Hm, ?Hf, ?Hcn; try done; try lia.
  - intros i g' Hi. eapply group_ok_mono; [by apply c_group0|lia].
  - intros i g' Hi. rewrite <- (c_chain0 i g' Hi).
    destruct (c_group0 i g' Hi) as (_ & _ & _ & Ho).
    eapply frame_get32; [done|exact Ho|]. intros [|]; congruence.
  - intros r' row' Hrow'. simpl in Hrow'.
    assert (exists row0, rows t !! r' = Some row0 /\ length row' = length row0 /\
      forall c' x', row' !! c' = Some x' ->
        (r', c') = (r, c) /\ x' = x \/ (r', c') <> (r, c) /\ row0 !! c' = Some x')
      as (row0 & Hrow0 & Hlen0 & Hcases).
    { destruct (decide (r' = r)) as [->|Hne].
      - rewrite list_lookup_alter_eq, Hrow in Hrow'. simplify_eq/=. exists row.
        split_and!; [done|by rewrite length_insert|]. intros c' x' Hx'.
        apply list_lookup_insert_Some in Hx' as [(<- & <- & _)|[Hne Hx']];
          [by left|right; split; congruence].
      - rewrite list_lookup_alter_ne in Hrow' by done. exists row'.
        split_and!; try done. intros c' x' Hx'. right. split; congruence. }
    destruct (c_row0 r' row0 Hrow0) as (g' & d' & Hg' & Hd' & Hlen & Hdir & Hcells).
    pose proof Hdir as (Hd1 & Hd2 & Hown).
    exists g', d'. split_and!; try done; try lia.
    + rewrite <- Hd'. eapply frame_get32; [done| |exact (HS r')].
      eapply slot_owns. by apply c_group0.
    + split_and!; [lia|lia|lia|done].
    + intros c' x' Hx'. destruct (Hcases c' x' Hx') as [[[= -> ->] ->]|[Hne Hx0]].
      * by simplify_eq.
      * destruct (HP r' c' Hne) as [HP1 HP2].
        eapply frame_cell; [done|lia| |done|done|by apply Hcells].
        apply Hown. rewrite <- Hlen. by eapply lookup_lt_Some.
  - by destruct F as (_ & F & _).
Qed.
