(* ===== verification/SharedBlockProps.v ===== *)
(** * SharedBlock: the promises to its clients

    The block as an abstract machine: [spec_op] lists the outcomes a table may
    have for each call, and every sequence of calls on a block is a run of that
    machine whose table is what the readers of the block see. *)
From S2P Require Import Prelude Memory SharedBlock SharedBlockRepr.
From Stdlib Require Import Ascii.

(** * SharedBlock: the operations refine the abstract table

    Functional specification of every operation of the block against [repr]:
    navigation to a cell, allocation, and the row and cell operations on every
    branch. The theorems listed in the manifest are at the end of the file. *)

(** ** Navigation *)
Lemma OffsetToPtr_in b off :
  0 <= off < mSize b -> mSize b <= SECUREC_MEM_MAX_LEN ->
  OffsetToPtr b off 0 = Some off.
Proof.
  unfold SECUREC_MEM_MAX_LEN. intros H Hs. unfold OffsetToPtr.
  rewrite Z.add_0_r, u32_small by lia.
  rewrite Z.geb_leb, (proj2 (Z.leb_gt _ _)) by lia.
  rewrite Z.gtb_ltb, (proj2 (Z.ltb_ge _ _)) by lia. done.
Qed.

Section Navigation.
Context {own : Z -> owner} {gs : list Z} {b : SharedBlock} {t : table}.
Hypothesis C : core own gs b t.

Lemma group_ptr i g : gs !! i = Some g -> OffsetToPtr b g 0 = Some g.
Proof.
  intros Hg. destruct C. destruct (c_group i g Hg) as (? & ? & _).
  apply OffsetToPtr_in; lia.
Qed.

Lemma first_ptr : OffsetToPtr b (firstRowGroupOffset b) 0 = Some 16.
Proof. rewrite (c_first _ _ _ _ C). by apply (group_ptr 0), (c_head _ _ _ _ C). Qed.

Lemma next_ptr i g g1 :
  gs !! i = Some g -> gs !! S i = Some g1 ->
  OffsetToPtr b (nextGroupOffset b g) 0 = Some g1.
Proof.
  intros Hg Hg1. rewrite (c_chain _ _ _ _ C i g Hg), Hg1. by apply (group_ptr (S i)).
Qed.

Lemma GetRowOffset_loop_ok k i g g' j :
  gs !! i = Some g -> gs !! (i + k)%nat = Some g' -> 0 <= j < 100 ->
  GetRowOffset_loop k b g (100 * Z.of_nat k + j) = Some (g' + 4 * j).
Proof.
  revert i g. induction k as [|k IH]; intros i g Hg Hg' Hj;
    cbn [GetRowOffset_loop]; unfold ROW_OFFSETS_NUM.
  - rewrite Nat.add_0_r in Hg'. simplify_eq. rewrite Z.geb_leb.
    rewrite (proj2 (Z.leb_gt _ _)) by lia. done.
  - rewrite Z.geb_leb, (proj2 (Z.leb_le _ _)) by lia.
    destruct (lookup_lt_is_Some_2 gs (S i)) as [g1 Hg1].
    { apply lookup_lt_Some in Hg'. lia. }
    rewrite (next_ptr i g g1 Hg Hg1).
    replace (100 * Z.of_nat (S k) + j - 100) with (100 * Z.of_nat k + j) by lia.
    apply (IH (S i)); [done| |done]. by rewrite <- Hg', Nat.add_succ_r.
Qed.

Lemma GetRowOffset_ok r g :
  gs !! (r / 100)%nat = Some g -> GetRowOffset b (Z.of_nat r) = Some (slot_addr g r).
Proof.
  intros Hg. unfold GetRowOffset. rewrite first_ptr.
  pose proof (Nat.div_mod_eq r 100). pose proof (Nat.mod_upper_bound r 100).
  unfold ROW_OFFSETS_NUM at 1.
  replace (Z.of_nat r / 100) with (Z.of_nat (r / 100)) by apply (Nat2Z.inj_div r 100).
  rewrite Nat2Z.id.
  replace (Z.of_nat r) with (100 * Z.of_nat (r / 100) + Z.of_nat (r mod 100)) by lia.
  apply (GetRowOffset_loop_ok _ 0); [apply C|done|lia].
Qed.

Lemma AllocRowOffset_loop_ok k i g g' j fuel :
  gs !! i = Some g -> gs !! (i + k)%nat = Some g' -> 0 <= j <= 100 ->
  (k <> 0%nat -> 0 < j) -> (k <= fuel)%nat ->
  AllocRowOffset_loop fuel b g (100 * Z.of_nat k + j) = Some (g', j).
Proof.
  revert i g fuel. induction k as [|k IH]; intros i g fuel Hg Hg' Hj Hj0 Hf.
  - rewrite Nat.add_0_r in Hg'. simplify_eq.
    destruct fuel; cbn [AllocRowOffset_loop]; unfold ROW_OFFSETS_NUM;
      rewrite Z.gtb_ltb, (proj2 (Z.ltb_ge _ _)) by lia; repeat f_equal; lia.
  - destruct fuel as [|fuel]; [lia|]. cbn [AllocRowOffset_loop]; unfold ROW_OFFSETS_NUM.
    rewrite Z.gtb_ltb, (proj2 (Z.ltb_lt _ _)) by lia.
    destruct (lookup_lt_is_Some_2 gs (S i)) as [g1 Hg1].
    { apply lookup_lt_Some in Hg'. lia. }
    rewrite (next_ptr i g g1 Hg Hg1).
    replace (100 * Z.of_nat (S k) + j - 100) with (100 * Z.of_nat k + j) by lia.
    apply (IH (S i)); [done| |done|lia|lia]. by rewrite <- Hg', Nat.add_succ_r.
Qed.

(** The address of a cell in range, and the null pointer out of range. *)
Lemma GetCellUnit_ok r c :
  rowNums b = Z.of_nat (length (rows t)) -> in_range t r c ->
  exists g d row, rows t !! r = Some row /\ gs !! (r / 100)%nat = Some g /\
    get32 b (slot_addr g r) = d /\ dir_ok own b (cols t) r d /\
    GetCellUnit b (Z.of_nat r) (Z.of_nat c) = Some (d + 12 * Z.of_nat c).
Proof.
  intros Hn [Hr Hc].
  destruct (lookup_lt_is_Some_2 (rows t) r Hr) as [row Hrow].
  destruct (c_row _ _ _ _ C r row Hrow) as (g & d & Hg & Hd & _ & Hdir & _).
  exists g, d, row. split_and!; try done.
  unfold GetCellUnit. rewrite Hn, (c_cols _ _ _ _ C).
  rewrite !Z.geb_leb, !(proj2 (Z.leb_gt _ _)) by lia. simpl.
  rewrite (GetRowOffset_ok r g Hg), Hd. destruct Hdir as (? & _).
  rewrite OffsetToPtr_in; [done|lia|apply C].
Qed.

Lemma GetCellUnit_out r c :
  rowNums b = Z.of_nat (length (rows t)) -> ~ in_range t r c ->
  GetCellUnit b (Z.of_nat r) (Z.of_nat c) = None.
Proof.
  intros Hn Hnot. unfold GetCellUnit. rewrite Hn, (c_cols _ _ _ _ C).
  destruct (_ || _)%bool eqn:E; [done|]. destruct Hnot. unfold in_range.
  rewrite !Z.geb_leb in E. zlia.
Qed.
End Navigation.

(** ** Allocation *)
Lemma padding_eq u :
  0 <= u < 4294967296 -> Z.land (u32 (u32 (Z.lnot u) + 1)) 3 = (- u) mod 4.
Proof.
  intros Hu. change 3 with (Z.ones 2). rewrite Z.land_ones by lia.
  unfold u32, wrap. change (2 ^ 32) with (4 * 1073741824). change (2 ^ 2) with 4.
  rewrite Z.add_mod_idemp_l by lia. unfold Z.lnot.
  replace (Z.pred (- u) + 1) with (- u) by lia.
  rewrite Z.rem_mul_r by lia.
  rewrite Z.add_mod, (Z.mul_comm 4), Z_mod_mult, Z.add_0_r by lia.
  by rewrite !Z.mod_mod by lia.
Qed.

(** The padding [Alloc] inserts before an aligned region. *)
Definition alloc_pad (b : SharedBlock) (al : bool) : Z :=
  if al then (- unusedOffset b) mod 4 else 0.

Lemma Alloc_spec own gs b t size al off b' :
  core own gs b t -> 0 <= size <= 4294967296 -> Alloc b size al = (off, b') ->
  (off = 0 /\ b' = b /\ mSize b < unusedOffset b + alloc_pad b al + size) \/
  (unusedOffset b <= off <= unusedOffset b + 3 /\ off + size <= mSize b /\
   unusedOffset b' = off + size /\ b' = set_unusedOffset b (off + size) /\
   core own gs b' t /\ rowNums b' = rowNums b /\ (al = true -> off mod 4 = 0) /\
   off = unusedOffset b + alloc_pad b al).
Proof.
  intros C Hsz. unfold Alloc.
  pose proof (c_unused _ _ _ _ C) as Hu. pose proof (c_size _ _ _ _ C) as Hm.
  unfold SECUREC_MEM_MAX_LEN in Hm.
  rewrite padding_eq by lia.
  fold (alloc_pad b al). set (pad := alloc_pad b al).
  assert (Hpad : 0 <= pad <= 3).
  { unfold pad, alloc_pad. destruct al; [|lia]. pose proof (Z.mod_pos_bound (- unusedOffset b) 4). lia. }
  rewrite (u32_small (unusedOffset b + pad)) by lia.
  rewrite u64_small by lia.
  destruct (_ >? _) eqn:E; intros [= <- <-]; to_prop; [left; split_and!; done|right].
  rewrite u32_small by lia.
  assert (Hnew : unusedOffset (set_unusedOffset b (unusedOffset b + pad + size))
                 = unusedOffset b + pad + size).
  { unfold unusedOffset at 1, set_unusedOffset. rewrite get32_set32_same.
    apply u32_small. lia. }
  split_and!; try done; try lia.
  - eapply (core_frame own gs b t (fun o => o = OHdr)); try done.
    + destruct C. apply (frame_wr own _ b 4 0 _ OHdr); try done; try lia.
      eapply owns_sub; [exact c_hdr|lia|lia].
    + unfold hdr_step. rewrite Hnew.
      unfold firstRowGroupOffset, columnNums, set_unusedOffset.
      rewrite !get32_set32_other by lia. split_and!; try done; lia.
  - unfold rowNums, set_unusedOffset. by rewrite get32_set32_other by lia.
  - intros ->. unfold pad, alloc_pad. rewrite Z.add_mod_idemp_r by lia.
    by rewrite Z.add_opp_diag_r.
Qed.

(** ** Row groups *)

Lemma set32_frame own gs b t (P : owner -> Prop) a v o :
  core own gs b t -> owns own a 4 o -> P o -> 16 <= a -> a + 4 <= unusedOffset b ->
  frame own P b (set32 b a v) /\ hdr_step b (set32 b a v) /\
  rowNums (set32 b a v) = rowNums b.
Proof.
  intros C Ho HP H0 H1. split_and!.
  - destruct C. apply (frame_wr own P b 4 a v o); try done; lia.
  - unfold hdr_step, firstRowGroupOffset, columnNums, unusedOffset.
    rewrite !get32_set32_other by lia. split_and!; try done. apply (c_unused _ _ _ _ C).
  - unfold rowNums. by rewrite get32_set32_other by lia.
Qed.

Lemma group_links_apart own b i j g g' :
  group_ok own b i g -> group_ok own b j g' -> i <> j ->
  nextGroup_addr g + 4 <= nextGroup_addr g' \/ nextGroup_addr g' + 4 <= nextGroup_addr g.
Proof.
  intros (_ & _ & _ & Hg) (_ & _ & _ & Hg') Hne. unfold nextGroup_addr, ROW_OFFSETS_NUM.
  destruct (decide (g + 404 <= g' + 400 \/ g' + 404 <= g + 400)) as [|Hov]; [lia|].
  assert (ONext i = ONext j) as [= ->]; [|done].
  rewrite <- (Hg (Z.max (g + 400) (g' + 400))) by lia.
  apply Hg'. lia.
Qed.

(** Cutting the list of groups after group [k]. *)
Lemma core_truncate own gs b t k g :
  core own gs b t -> gs !! k = Some g -> (length (rows t) <= 100 * S k)%nat ->
  core own (take (S k) gs) (set32 b (nextGroup_addr g) 0) t /\
  rowNums (set32 b (nextGroup_addr g) 0) = rowNums b.
Proof.
  intros C Hg Hrows. pose proof (c_group _ _ _ _ C k g Hg) as (Hg1 & Hg2 & Hg3 & Hg4).
  destruct (set32_frame own gs b t (fun o => o = ONext k) (nextGroup_addr g) 0 (ONext k))
    as (F & Hh & Hn); try done; unfold nextGroup_addr, ROW_OFFSETS_NUM in *; try lia.
  split; [|done].
  pose proof (lookup_lt_Some _ _ _ Hg) as Hlt. pose proof Hh as (_ & _ & Hu).
  eapply core_rechain; try done.
  - intros r Hr. split_and!; try done.
    apply lookup_take_lt. apply Nat.Div0.div_lt_upper_bound. lia.
  - rewrite lookup_take_lt by lia. apply C.
  - rewrite length_take. pose proof (c_used _ _ _ _ C). lia.
  - intros i g' Hi. apply lookup_take_Some in Hi as [Hi _].
    eapply group_ok_mono; [by apply (c_group _ _ _ _ C)|lia].
  - intros i g' Hi. apply lookup_take_Some in Hi as [Hi Hik].
    unfold nextGroupOffset. destruct (decide (i = k)) as [->|Hne].
    + simplify_eq. rewrite lookup_take_ge by lia. by rewrite get32_set32_same.
    + rewrite lookup_take_lt by lia. rewrite <- (c_chain _ _ _ _ C i g' Hi).
      apply get32_set32_other.
      apply (group_links_apart own b i k); try done; by apply (c_group _ _ _ _ C).
Qed.

(** The owners of the bytes of a fresh row group. *)
Definition own_group (own : Z -> owner) (k : nat) (off : Z) : Z -> owner :=
  own_upd own off 404 (fun a =>
    if a <? off + 400 then OSlot (100 * k + Z.to_nat ((a - off) / 4)) else ONext k).

Lemma own_group_ok own b k off :
  16 <= off -> off + 404 <= unusedOffset b -> group_ok (own_group own k off) b k off.
Proof.
  intros H1 H2. split_and!; [done|done| |].
  - intros j Hj a Ha. unfold own_group. rewrite own_upd_in by lia.
    rewrite (proj2 (Z.ltb_lt _ _)) by lia. f_equal. f_equal.
    f_equal. symmetry. apply (Z.div_unique _ _ _ (a - off - 4 * j)); lia.
  - intros a Ha. unfold own_group. rewrite own_upd_in by lia.
    rewrite (proj2 (Z.ltb_ge _ _)) by lia. done.
Qed.

(** The links of the list of groups extended by one. *)
Lemma append_chain own gs b t k g off :
  core own gs b t -> gs !! k = Some g -> length gs = S k -> group_ok own b (S k) off ->
  let b' := set32 (set32 b (nextGroup_addr g) off) (nextGroup_addr off) 0 in
  forall i g', (gs ++ [off]) !! i = Some g' ->
    nextGroupOffset b' g' = default 0 ((gs ++ [off]) !! S i).
Proof.
  intros C Hg Hlen Hok b' i g' Hi. unfold nextGroupOffset, b'.
  pose proof Hok as (Ho1 & Ho2 & _).
  apply lookup_snoc_Some in Hi as [[Hi1 Hi2]|[Hi1 <-]].
  - pose proof (c_group _ _ _ _ C i g' Hi2) as Hgi.
    rewrite get32_set32_other by (apply (group_links_apart own b i (S k)); [done|done|lia]).
    destruct (decide (i = k)) as [->|Hne].
    + simplify_eq. rewrite get32_set32_same, lookup_snoc_len by done.
      cbn. apply u32_small. pose proof (c_size _ _ _ _ C).
      unfold SECUREC_MEM_MAX_LEN in *. pose proof (c_unused _ _ _ _ C). lia.
    + rewrite lookup_app_l by lia. rewrite <- (c_chain _ _ _ _ C i g' Hi2).
      apply get32_set32_other, (group_links_apart own b i k); [done| |done].
      by apply (c_group _ _ _ _ C).
  - rewrite get32_set32_same, lookup_ge_None_2; [done|]. rewrite length_app. cbn. lia.
Qed.

(** Linking a freshly allocated group behind the last one. *)
Lemma core_append own gs b t k g off :
  core own gs b t -> gs !! k = Some g -> length gs = S k ->
  group_ok own b (S k) off -> 16 + 404 * Z.of_nat (S (length gs)) <= unusedOffset b ->
  let b' := set32 (set32 b (nextGroup_addr g) off) (nextGroup_addr off) 0 in
  core own (gs ++ [off]) b' t /\ rowNums b' = rowNums b.
Proof.
  intros C Hg Hlen Hok Hused b'.
  pose proof (c_group _ _ _ _ C k g Hg) as (Hg1 & Hg2 & Hg3 & Hg4).
  pose proof Hok as (Ho1 & Ho2 & Ho3 & Ho4).
  set (P := fun o => o = ONext k \/ o = ONext (S k)).
  assert (Happ : forall i g', (gs ++ [off]) !! i = Some g' -> group_ok own b i g').
  { intros i g' Hi. apply lookup_snoc_Some in Hi as [[Hi Hi']|[Hi <-]].
    - by apply (c_group _ _ _ _ C).
    - by rewrite Hi, Hlen. }
  unfold nextGroup_addr, ROW_OFFSETS_NUM in *.
  destruct (set32_frame own gs b t P (g + 4 * 100) off (ONext k)) as (F1 & Hh1 & Hn1);
    unfold P; auto; try lia.
  set (b1 := set32 b (g + 4 * 100) off) in *.
  assert (Hm1 : mSize b1 = mSize b) by done.
  assert (F2 : frame own P b1 b').
  { apply (frame_wr own P b1 4 _ 0 (ONext (S k))); unfold P; auto; try lia.
    - pose proof (c_unused _ _ _ _ C). lia.
    - by destruct F1 as (_ & F1 & _). }
  assert (Hh : forall a, 0 <= a <= 12 -> get32 b' a = get32 b a).
  { intros a Ha. unfold b', b1. rewrite !get32_set32_other by lia. done. }
  assert (Hu : unusedOffset b' = unusedOffset b) by (apply Hh; lia).
  split; [|by apply Hh].
  eapply (core_rechain own gs _ b t P); try done.
  - by eapply frame_trans.
  - unfold hdr_step. rewrite Hu. unfold firstRowGroupOffset, columnNums. rewrite !Hh by lia.
    pose proof (c_unused _ _ _ _ C). split_and!; try done; lia.
  - intros r Hr. unfold P. split_and!; try (intros [|]; congruence).
    + apply lookup_app_l.
      destruct (lookup_lt_is_Some_2 (rows t) r Hr) as [row Hrow].
      destruct (c_row _ _ _ _ C r row Hrow) as (g' & d & Hg' & _).
      by eapply lookup_lt_Some.
    + intros c. split; intros [|]; congruence.
  - rewrite lookup_app_l by lia. apply C.
  - rewrite length_app. simpl. lia.
  - intros i g' Hi. eapply group_ok_mono; [by apply Happ|lia].
  - intros i g' Hi. by apply (append_chain own gs b t k g off C).
Qed.

Lemma nextGroup_spec own gs b t k g res b' :
  core own gs b t -> gs !! k = Some g -> (length (rows t) <= 100 * S k)%nat ->
  AllocRowOffset_nextGroup b g = (res, b') ->
  exists own' gs', core own' gs' b' t /\ rowNums b' = rowNums b /\
    match res with None => True | Some g' => gs' !! S k = Some g' end.
Proof.
  intros C Hg Hrows. unfold AllocRowOffset_nextGroup.
  rewrite (c_chain _ _ _ _ C k g Hg).
  destruct (gs !! S k) as [g1|] eqn:Hg1; simpl default.
  - pose proof (c_group _ _ _ _ C _ _ Hg1) as (? & _).
    rewrite (proj2 (Z.eqb_neq g1 0)) by lia. cbn -[OffsetToPtr].
    rewrite (proj2 (Z.eqb_neq g1 0)) by lia.
    rewrite (next_ptr C k g g1 Hg Hg1). intros [= <- <-].
    destruct (core_truncate own gs b t (S k) g1) as [C' Hn]; try done; [lia|].
    exists own, (take (S (S k)) gs). split_and!; try done.
    by rewrite lookup_take_lt by lia.
  - rewrite Z.eqb_refl. destruct (Alloc b sizeof_RowGroupHeader true) as [off b1] eqn:Ha.
    pose proof (lookup_lt_Some _ _ _ Hg). apply lookup_ge_None in Hg1.
    assert (Hsz : 0 <= sizeof_RowGroupHeader <= 4294967296) by done.
    destruct (Alloc_spec _ _ _ _ _ _ _ _ C Hsz Ha)
      as [(-> & -> & _)|(Ho1 & Ho2 & Ho3 & Ho4 & _)].
    + rewrite Z.eqb_refl. intros [= <- <-].
      destruct (core_truncate own gs b t k g) as [C' Hn]; try done.
      rewrite take_ge in C' by lia. eauto.
    + pose proof (c_unused _ _ _ _ C) as Hu.
      rewrite (proj2 (Z.eqb_neq off 0)) by lia.
      pose proof (core_own_upd own gs b t off 404 _ C ltac:(lia) :
        core (own_group own (S k) off) gs b t) as Cg.
      destruct (Alloc_spec _ _ _ _ _ _ _ _ Cg Hsz Ha)
        as [(? & _)|(_ & _ & _ & _ & C1 & Hn1 & _)]; [lia|].
      unfold sizeof_RowGroupHeader in *.
      assert (Hok : group_ok (own_group own (S k) off) b1 (S k) off)
        by (apply own_group_ok; lia).
      pose proof (c_used _ _ _ _ C).
      destruct (core_append _ gs b1 t k g off C1 Hg ltac:(lia) Hok ltac:(lia)) as [C2 Hn2].
      unfold nextGroupOffset. rewrite get32_set32_same, u32_small.
      2: { pose proof (c_size _ _ _ _ C). unfold SECUREC_MEM_MAX_LEN in *. lia. }
      rewrite OffsetToPtr_in.
      2: { rewrite Ho4. simpl. lia. }
      2: { rewrite Ho4. simpl. apply C. }
      intros [= <- <-]. exists (own_group own (S k) off), (gs ++ [off]).
      split_and!; [done|congruence|]. apply lookup_snoc_len. lia.
Qed.

(** The group of the last row, and the position behind it. *)
Lemma last_group {own gs b t} :
  core own gs b t -> exists k j g,
  Z.of_nat (length (rows t)) = 100 * Z.of_nat k + j /\ 0 <= j <= 100 /\
  (k <> 0%nat -> 0 < j) /\ gs !! k = Some g.
Proof.
  intros C. set (n := length (rows t)).
  destruct (decide (n = 0%nat)) as [->|Hne].
  - exists 0%nat, 0, 16. split_and!; try done. apply C.
  - destruct (lookup_lt_is_Some_2 (rows t) (n - 1)) as [row Hrow]; [lia|].
    destruct (c_row _ _ _ _ C _ _ Hrow) as (g & d & Hg & _).
    exists ((n - 1) / 100)%nat, (Z.of_nat n - 100 * Z.of_nat ((n - 1) / 100)), g.
    pose proof (Nat.div_mod_eq (n - 1) 100). pose proof (Nat.mod_upper_bound (n - 1) 100).
    split_and!; try done; lia.
Qed.

(** [AllocRowOffset]: on success the slot of the new row and the row count
    incremented; on failure the table is untouched. *)
Lemma AllocRowOffset_spec own gs b t res b' :
  core own gs b t -> rowNums b = Z.of_nat (length (rows t)) ->
  AllocRowOffset b = (res, b') ->
  exists own' gs', core own' gs' b' t /\
    match res with
    | None => rowNums b' = rowNums b
    | Some a => rowNums b' = rowNums b + 1 /\
        exists g, gs' !! (length (rows t) / 100)%nat = Some g /\
                  a = slot_addr g (length (rows t))
    end.
Proof.
  intros C Hn. unfold AllocRowOffset. rewrite (first_ptr C).
  set (n := length (rows t)) in *.
  destruct (last_group C) as (k & j & g & Hnj & Hj & Hj0 & Hg). fold n in Hnj.
  pose proof (c_used _ _ _ _ C). pose proof (c_unused _ _ _ _ C).
  pose proof (c_size _ _ _ _ C). pose proof (lookup_lt_Some _ _ _ Hg).
  unfold SECUREC_MEM_MAX_LEN in *.
  assert (Hinc : forall b1, rowNums b1 = rowNums b ->
    rowNums (set_rowNums b1 (rowNums b1 + 1)) = rowNums b + 1).
  { intros b1 Hb1. unfold rowNums at 1, set_rowNums. rewrite get32_set32_same, Hb1.
    apply u32_small. lia. }
  assert (Hloop : AllocRowOffset_loop (Z.to_nat (rowNums b / ROW_OFFSETS_NUM)) b 16
                    (rowNums b) = Some (g, j)).
  { rewrite Hn, Hnj. apply (AllocRowOffset_loop_ok C k 0); try done; [apply C|].
    unfold ROW_OFFSETS_NUM. rewrite <- (Nat2Z.id k) at 1. apply Z2Nat.inj_le; try lia.
    - apply Z.div_pos; lia.
    - apply Z.div_le_lower_bound; lia. }
  rewrite Hloop.
  unfold ROW_OFFSETS_NUM. destruct (j =? 100) eqn:Ej; to_prop.
  - destruct (AllocRowOffset_nextGroup b g) as [[g1|] b1] eqn:Eg;
      destruct (nextGroup_spec own gs b t k g _ _ C Hg ltac:(lia) Eg)
        as (own' & gs' & C' & Hn' & Hg1);
      intros [= <- <-]; exists own', gs'.
    + split; [by apply core_set_rowNums|]. split; [by apply Hinc|].
      exists g1. replace (n / 100)%nat with (S k)
        by (replace n with (S k * 100)%nat by lia; by rewrite Nat.div_mul by lia).
      split; [done|]. unfold slot_addr, rowOffsets_addr.
      replace n with (S k * 100)%nat by lia. by rewrite Nat.Div0.mod_mul.
    + done.
  - intros [= <- <-]. exists own, gs. split; [by apply core_set_rowNums|].
    split; [by apply Hinc|]. exists g.
    replace (n / 100)%nat with k by (apply (Nat.div_unique n 100 k (Z.to_nat j)); lia).
    split; [done|]. unfold slot_addr, rowOffsets_addr.
    replace (n mod 100)%nat with (Z.to_nat j)
      by (apply (Nat.mod_unique n 100 k (Z.to_nat j)); lia). lia.
Qed.

(** ** No operation changes the size or the mode of the block *)
Definition same_shape (b b' : SharedBlock) : Prop :=
  mSize b' = mSize b /\ mReadOnly b' = mReadOnly b /\ mName b' = mName b.

Lemma same_shape_trans b1 b2 b3 :
  same_shape b1 b2 -> same_shape b2 b3 -> same_shape b1 b3.
Proof. intros (?&?&?) (?&?&?). split_and!; congruence. Qed.

Lemma Alloc_shape b size al : same_shape b (snd (Alloc b size al)).
Proof. unfold Alloc. by case_if. Qed.

Lemma nextGroup_shape b g : same_shape b (snd (AllocRowOffset_nextGroup b g)).
Proof.
  unfold AllocRowOffset_nextGroup. case_if.
  - pose proof (Alloc_shape b sizeof_RowGroupHeader true) as Ha.
    destruct (Alloc _ _ _) as [off b1]. case_if; [done|].
    by destruct (OffsetToPtr _ _ _).
  - case_if; [done|]. by destruct (OffsetToPtr _ _ _).
Qed.

Lemma AllocRowOffset_shape b : same_shape b (snd (AllocRowOffset b)).
Proof.
  unfold AllocRowOffset. destruct (OffsetToPtr _ _ _); [|done].
  destruct (AllocRowOffset_loop _ _ _ _) as [[g j]|]; [|done]. case_if; [|done].
  pose proof (nextGroup_shape b g) as Hs.
  by destruct (AllocRowOffset_nextGroup b g) as [[g'|] b'].
Qed.

(** ** Row operations *)

(** The owners of the bytes of the field directory of row [r]. *)
Definition own_dir (own : Z -> owner) (n r : nat) (off : Z) : Z -> owner :=
  own_upd own off (12 * Z.of_nat n) (fun a => OCell r (Z.to_nat ((a - off) / 12))).

Lemma own_dir_ok own b n r off :
  16 <= off < mSize b -> off + 12 * Z.of_nat n <= unusedOffset b ->
  dir_ok (own_dir own n r off) b n r off.
Proof.
  intros H1 H2. split_and!; try lia. intros c Hc a Ha.
  unfold own_dir. rewrite own_upd_in by lia. f_equal.
  rewrite <- (Nat2Z.id c). f_equal. symmetry.
  apply (Z.div_unique _ _ _ (a - off - 12 * Z.of_nat c)); lia.
Qed.

Lemma own_dir_cells own n r off a :
  off <= a < off + 12 * Z.of_nat n -> exists c, own_dir own n r off a = OCell r c.
Proof. intros H. eexists. unfold own_dir. by rewrite own_upd_in by lia. Qed.

(** The new row of zeroed cells, entered in its slot. *)
Lemma core_new_row own gs b t g off :
  let n := length (rows t) in
  let m := wr_bytes (mData b) off (replicate (Z.to_nat (12 * Z.of_nat (cols t))) zero) in
  let b' := set32 (with_mData b m) (slot_addr g n) off in
  core own gs b t -> gs !! (n / 100)%nat = Some g ->
  dir_ok own b (cols t) n off ->
  (forall a, off <= a < off + 12 * Z.of_nat (cols t) -> exists c, own a = OCell n c) ->
  core own gs b' (tbl_add_row t) /\ rowNums b' = rowNums b.
Proof.
  intros n m b' C Hg Hdir Hcells. pose proof Hdir as (Hd1 & Hd2 & Hd3).
  pose proof (c_group _ _ _ _ C _ _ Hg) as Hgok. pose proof Hgok as (Hg1 & Hg2 & _).
  pose proof (slot_owns own b n g Hgok) as Hslot.
  pose proof (c_unused _ _ _ _ C) as Hu. pose proof (c_size _ _ _ _ C) as Hs.
  pose proof (Nat.mod_upper_bound n 100). unfold SECUREC_MEM_MAX_LEN in *.
  set (P := fun o => o = OSlot n \/ exists c, o = OCell n c).
  assert (Hlen : Z.of_nat (length (replicate (Z.to_nat (12 * Z.of_nat (cols t))) zero))
                 = 12 * Z.of_nat (cols t)) by (rewrite length_replicate; lia).
  assert (F1 : frame own P b (with_mData b m)).
  { apply frame_wr_bytes; rewrite ?Hlen; try lia; [|apply C].
    intros a Ha. right. by apply Hcells. }
  assert (F2 : frame own P (with_mData b m) b').
  { apply (frame_wr own P _ 4 _ off (OSlot n)); try done; unfold slot_addr in *;
      simpl; try lia; [by left|]. by destruct F1 as (_ & F1 & _). }
  assert (Hh : forall a, 0 <= a <= 12 -> get32 b' a = get32 b a).
  { intros a Ha. unfold b'. rewrite get32_set32_other by (unfold slot_addr; lia).
    apply rd_ext. intros x Hx. apply wr_bytes_out. lia. }
  assert (Hun : unusedOffset b' = unusedOffset b) by (apply Hh; lia).
  split; [|by apply Hh].
  assert (C' : core own gs b' t).
  { eapply (core_frame own gs b t P); try done.
    - by eapply frame_trans.
    - unfold hdr_step. rewrite Hun. unfold firstRowGroupOffset, columnNums.
      rewrite !Hh by lia. split_and!; try done; lia.
    - intros r Hr. unfold P. split_and!.
      + intros [[= ->]|[c [=]]]. lia.
      + intros c. split; intros [|[c' [= -> ->]]]; [done|lia|done].
    - intros i _ [|[c [=]]]. done. }
  apply (core_add_row own gs b' t g off C' Hg).
  - unfold b'. fold n. rewrite get32_set32_same. apply u32_small. lia.
  - split_and!; simpl; try lia; try done.
  - intros c Hc. unfold cell_type, b'.
    rewrite get32_set32_other.
    + unfold get32. simpl mData. unfold m. rewrite rd_zeros by lia. done.
    + specialize (Hd3 c Hc). unfold slot_addr in *.
      destruct (decide (off + 12 * Z.of_nat c + 4 <= g + 4 * Z.of_nat (n mod 100) \/
                        g + 4 * Z.of_nat (n mod 100) + 4 <= off + 12 * Z.of_nat c))
        as [|Hov]; [lia|].
      assert (OCell n c = OSlot n) as [=].
      set (a := Z.max (off + 12 * Z.of_nat c) (g + 4 * Z.of_nat (n mod 100))).
      rewrite <- (Hd3 a) by lia. apply Hslot. lia.
Qed.

Section RowOps.
Context `{SecureC}.

Lemma AllocRow_spec b t ret b' :
  repr b t -> (0 < cols t)%nat -> AllocRow b = (ret, b') ->
  (ret = SHARED_BLOCK_OK /\ repr b' (tbl_add_row t)) \/
  (ret = SHARED_BLOCK_NO_MEMORY /\ repr b' t).
Proof.
  intros (Hro & Hn & own & gs & C) Hcols. unfold AllocRow. rewrite Hro.
  pose proof (AllocRowOffset_shape b) as Hshape.
  destruct (AllocRowOffset b) as [[a|] b1] eqn:Ea;
    destruct (AllocRowOffset_spec own gs b t _ _ C Hn Ea) as (own1 & gs1 & C1 & Hres).
  2: { intros [= <- <-]. right. split; [done|]. destruct Hshape as (_ & Hs & _).
       split; [by rewrite <- Hro|]. rewrite Hres. eauto. }
  destruct Hres as (Hn1 & g & Hg & Ha), Hshape as (Hm1 & Hro1 & _). simpl in Hm1, Hro1.
  rewrite (c_cols _ _ _ _ C1).
  pose proof (c_colmax _ _ _ _ C1) as Hmax. unfold COL_MAX_NUM in Hmax.
  replace (u64 (Z.of_nat (cols t) * sizeof_CellUnit)) with (12 * Z.of_nat (cols t))
    by (unfold sizeof_CellUnit; rewrite u64_small; lia).
  assert (Hsz : 0 <= 12 * Z.of_nat (cols t) <= 4294967296) by lia.
  pose proof (Alloc_shape b1 (12 * Z.of_nat (cols t)) true) as (Hm2 & Hro2 & _).
  destruct (Alloc b1 _ true) as [off b2] eqn:Eal. simpl in Hm2, Hro2.
  destruct (Alloc_spec _ _ _ _ _ _ _ _ C1 Hsz Eal)
    as [(-> & -> & _)|(Ho1 & Ho2 & Ho3 & _ & C2 & Hn2 & _)].
  - rewrite Z.eqb_refl. intros [= <- <-]. right. split; [done|].
    split; [by simpl; rewrite Hro1|]. split; [|by eauto using core_set_rowNums].
    unfold rowNums at 1, set_rowNums. rewrite get32_set32_same, Hn1, Hn.
    rewrite u32_small; [lia|]. pose proof (get32_range b 8). unfold rowNums in Hn. lia.
  - pose proof (c_unused _ _ _ _ C1) as Hu1. pose proof (c_size _ _ _ _ C1) as Hs1.
    rewrite (proj2 (Z.eqb_neq off 0)) by lia.
    rewrite OffsetToPtr_in by lia.
    rewrite memset_s_ok by lia. simpl negb. cbv iota. intros [= <- <-]. left.
    split; [done|]. split; [simpl; congruence|].
    pose proof (core_own_upd own1 gs1 b1 t off (12 * Z.of_nat (cols t)) _ C1 ltac:(lia) :
      core (own_dir own1 (cols t) (length (rows t)) off) gs1 b1 t) as Cd.
    destruct (Alloc_spec _ _ _ _ _ _ _ _ Cd Hsz Eal)
      as [(? & _)|(_ & _ & _ & _ & Cd2 & _)]; [lia|].
    destruct (core_new_row _ gs1 b2 t g off Cd2 Hg) as [C3 Hn3].
    { apply own_dir_ok; lia. }
    { intros x Hx. by apply own_dir_cells. }
    rewrite Ha. split; [|eauto].
    rewrite Hn3, Hn2, Hn1, Hn. simpl. rewrite length_app. simpl. lia.
Qed.
End RowOps.

Lemma FreeLastRow_spec b t :
  repr b t ->
  exists b', FreeLastRow b = (SHARED_BLOCK_OK, b') /\ repr b' (tbl_free_last t).
Proof.
  intros (Hro & Hn & own & gs & C). unfold FreeLastRow. rewrite Hro, Hn.
  pose proof (core_free_last own gs b t C) as C'.
  case_if; to_prop; eexists; (split; [done|]); (split; [done|]).
  - split; [|by eauto using core_set_rowNums].
    unfold rowNums, set_rowNums. rewrite get32_set32_same.
    pose proof (get32_range b 8). unfold rowNums in Hn.
    rewrite u32_small by lia. simpl. rewrite length_take. lia.
  - split; [|by eauto]. simpl. rewrite length_take. lia.
Qed.

Lemma core_set_cols own gs b t n :
  core own gs b t -> n = cols t \/ rows t = [] -> Z.of_nat n <= COL_MAX_NUM ->
  core own gs (set_columnNums b (Z.of_nat n)) (mkTable n (rows t)).
Proof.
  intros C Hn Hmax. unfold COL_MAX_NUM in *.
  assert (Hnew : columnNums (set_columnNums b (Z.of_nat n)) = Z.of_nat n).
  { unfold columnNums, set_columnNums. rewrite get32_set32_same. apply u32_small. lia. }
  assert (F : frame own (fun o => o = OHdr) b (set_columnNums b (Z.of_nat n))).
  { destruct C. apply (frame_wr own _ b 4 12 _ OHdr); try done; try lia.
    eapply owns_sub; [exact c_hdr|lia|lia]. }
  assert (Hh : forall a, 0 <= a <= 8 \/ 16 <= a ->
    get32 (set_columnNums b (Z.of_nat n)) a = get32 b a).
  { intros a Ha. apply get32_set32_other. lia. }
  destruct Hn as [->|Hrows].
  - assert (C' : core own gs (set_columnNums b (Z.of_nat (cols t))) t).
    { eapply core_frame; try done. unfold hdr_step.
      rewrite Hnew, (c_cols _ _ _ _ C).
      unfold unusedOffset, firstRowGroupOffset. rewrite !Hh by lia.
      split_and!; try done. apply (c_unused _ _ _ _ C). }
    by destruct t.
  - destruct C. rewrite Hrows.
    assert (Hu : unusedOffset (set_columnNums b (Z.of_nat n)) = unusedOffset b)
      by (apply Hh; lia).
    constructor; rewrite ?Hu; simpl cols; try done.
    + rewrite <- c_first. apply Hh. lia.
    + intros i g Hg. eapply group_ok_mono; [by apply c_group|lia].
    + intros i g Hg. rewrite <- (c_chain i g Hg). apply Hh.
      destruct (c_group i g Hg) as (? & _). unfold nextGroup_addr, ROW_OFFSETS_NUM. lia.
    + by destruct F as (_ & F & _).
Qed.

Lemma SetColumnNum_spec b t n ret b' :
  repr b t -> SetColumnNum b (Z.of_nat n) = (ret, b') ->
  (ret = SHARED_BLOCK_OK /\ repr b' (mkTable n (rows t)) /\
   (n = cols t \/ cols t = 0%nat /\ rows t = []) /\ Z.of_nat n <= COL_MAX_NUM) \/
  (ret = SHARED_BLOCK_INVALID_OPERATION /\ b' = b /\
   (n <> cols t \/ COL_MAX_NUM < Z.of_nat n)).
Proof.
  intros (Hro & Hn & own & gs & C). unfold SetColumnNum. rewrite Hro.
  rewrite (c_cols _ _ _ _ C), Hn.
  destruct (_ && _)%bool eqn:E1.
  { intros [= <- <-]. right. split_and!; try done. left. zlia. }
  case_if; to_prop; intros [= <- <-]; [right; split_and!; auto|left].
  assert (Hcase : n = cols t \/ cols t = 0%nat /\ rows t = []).
  { apply andb_false_iff in E1 as [E1|E1]; to_prop; [right|left; lia].
    split; [lia|]. apply length_zero_iff_nil. lia. }
  split_and!; try done. split; [done|]. split.
  - transitivity (rowNums b); [|done]. apply get32_set32_other. lia.
  - exists own, gs. apply core_set_cols; [done| |done]. destruct Hcase as [->|[_ ->]]; auto.
Qed.

(** A block fresh from [Create], or left in any state by earlier use. *)
Definition block_ok (b : SharedBlock) : Prop :=
  mReadOnly b = false /\ 420 <= mSize b <= SECUREC_MEM_MAX_LEN /\
  forall a, a < 0 \/ mSize b <= a -> mData b !! a = None.

Lemma repr_block_ok b t : repr b t -> block_ok b.
Proof. intros (? & _ & own & gs & []). done. Qed.

Lemma Clear_spec b :
  block_ok b -> exists b', Clear b = (SHARED_BLOCK_OK, b') /\ repr b' (tbl_empty 0) /\
    unusedOffset b' = 420.
Proof.
  intros (Hro & Hs & Hm). unfold Clear. rewrite Hro. cbv zeta.
  set (b4 := set_columnNums _ 0).
  assert (H0 : forall b a v, get32 (set32 b a v) a = u32 v) by (intros; apply get32_set32_same).
  assert (Hfirst : firstRowGroupOffset b4 = 16).
  { unfold firstRowGroupOffset, b4, set_columnNums, set_rowNums.
    rewrite !get32_set32_other by lia. apply H0. }
  rewrite Hfirst, OffsetToPtr_in by (simpl; lia). eexists. split; [done|].
  set (b5 := set32 b4 (nextGroup_addr 16) 0).
  assert (Hh : forall a, 0 <= a <= 12 -> get32 b5 a = get32 b4 a).
  { intros a Ha. apply get32_set32_other. unfold nextGroup_addr, ROW_OFFSETS_NUM. lia. }
  assert (Hu : unusedOffset b5 = 420).
  { unfold unusedOffset. rewrite Hh by lia.
    unfold b4, set_columnNums, set_rowNums, set_firstRowGroupOffset.
    rewrite !get32_set32_other by lia. apply H0. }
  split; [|done].
  split; [done|]. split.
  { unfold rowNums. rewrite Hh by lia. unfold b4, set_columnNums.
    rewrite get32_set32_other by lia. apply H0. }
  exists (own_group (fun a => if a <? 16 then OHdr else OOther) 0 16), [16].
  constructor; rewrite ?Hu; try done.
  - by unfold firstRowGroupOffset; rewrite Hh by lia.
  - simpl mSize. lia.
  - unfold columnNums. rewrite Hh by lia. apply H0.
  - intros a Ha. unfold own_group. rewrite own_upd_out by lia.
    by rewrite (proj2 (Z.ltb_lt _ _)) by lia.
  - intros [|i] g Hg; simplify_eq/=. apply own_group_ok; [done|by rewrite Hu].
  - intros [|i] g Hg; simplify_eq/=. apply H0.
  - intros a Ha. simpl in Ha. unfold b5, b4. simpl mData.
    unfold nextGroup_addr, ROW_OFFSETS_NUM. rewrite !(wr_out 4) by lia. by apply Hm.
Qed.

(** ** Cell operations *)

(** What a client reads: the cell unit, decoded by its type tag with
    [GetCellUnitValueString] and [GetCellUnitValueBlob] for variable-size data. *)
Definition read_cell (b : SharedBlock) (row column : Z) : option cell :=
  match GetCellUnit b row column with
  | None => None
  | Some p =>
      let type := cell_type b p in
      if type =? CELL_UNIT_TYPE_NULL then Some CNull
      else if type =? CELL_UNIT_TYPE_INTEGER then Some (CLong (cell_long b p))
      else if type =? CELL_UNIT_TYPE_FLOAT then Some (CDouble (cell_double b p))
      else if type =? CELL_UNIT_TYPE_STRING then
        CString <$> snd (GetCellUnitValue b p)
      else if type =? CELL_UNIT_TYPE_BLOB then CBlob <$> snd (GetCellUnitValue b p)
      else None
  end.

Lemma data_repr_value own b p r c bs :
  mSize b <= SECUREC_MEM_MAX_LEN -> unusedOffset b <= mSize b ->
  data_repr own b p r c bs ->
  GetCellUnitValue b p = (Z.of_nat (length bs), Some bs).
Proof.
  unfold SECUREC_MEM_MAX_LEN. intros Hm Hu (Hs & Ho & He & _ & Hrd).
  unfold GetCellUnitValue. rewrite Hs. unfold OffsetToPtr.
  rewrite Z.geb_leb, (proj2 (Z.leb_gt _ _)) by lia.
  rewrite u32_small by lia. rewrite Z.gtb_ltb, (proj2 (Z.ltb_ge _ _)) by lia.
  by rewrite Nat2Z.id, Hrd.
Qed.

Lemma read_cell_spec b t r c :
  repr b t -> read_cell b (Z.of_nat r) (Z.of_nat c) = tbl_get t r c.
Proof.
  intros (Hro & Hn & own & gs & C). unfold read_cell, tbl_get.
  destruct (decide (r < length (rows t) /\ c < cols t)%nat) as [Hin|Hout].
  - destruct (GetCellUnit_ok C r c Hn Hin) as (g & d & row & Hrow & Hg & Hd & Hdir & ->).
    destruct (c_row _ _ _ _ C r row Hrow) as (g' & d' & Hg' & Hd' & Hlen & _ & Hc).
    assert (d' = d) as -> by congruence. rewrite Hrow. simpl.
    destruct (lookup_lt_is_Some_2 row c) as [x Hx]; [lia|]. rewrite Hx.
    specialize (Hc c x Hx). pose proof (c_size _ _ _ _ C). pose proof (c_unused _ _ _ _ C).
    destruct x; simpl in Hc.
    + by rewrite Hc.
    + destruct Hc as [-> ->]. done.
    + destruct Hc as [-> ->]. done.
    + destruct Hc as [-> Hdr]. by erewrite (data_repr_value own) by (done || lia).
    + destruct Hc as [-> Hdr]. by erewrite (data_repr_value own) by (done || lia).
  - rewrite (GetCellUnit_out C r c Hn Hout). symmetry.
    destruct (rows t !! r) as [row|] eqn:Hrow; simpl; [|done].
    destruct (c_row _ _ _ _ C r row Hrow) as (_ & _ & _ & _ & Hlen & _).
    apply lookup_lt_Some in Hrow. apply lookup_ge_None. lia.
Qed.

(** [b'] differs from [b] only in the cell [(r, c)] and its data. *)
Definition cell_write (own : Z -> owner) (r c : nat) (b b' : SharedBlock) : Prop :=
  frame own (fun o => o = OCell r c \/ o = OData r c) b b' /\
  same_shape b b' /\ forall a, 0 <= a <= 12 -> get32 b' a = get32 b a.

Lemma cell_write_refl own gs b t r c : core own gs b t -> cell_write own r c b b.
Proof. intros C. split_and!; try done. split_and!; try done. apply C. Qed.

Lemma cell_write_wr own r c b b1 n p k v :
  cell_write own r c b b1 -> owns own p 12 (OCell r c) ->
  16 <= p -> p + 12 <= mSize b -> 0 <= k -> k + Z.of_nat n <= 12 ->
  cell_write own r c b (with_mData b1 (wr n (mData b1) (p + k) v)).
Proof.
  intros (F & Hs & Hh) Ho Hp Hp2 Hk Hkn. pose proof F as (Hm & Hmem & _). split_and!.
  - eapply frame_trans; [exact F|].
    apply (frame_wr own _ b1 n _ v (OCell r c)); try lia; [|by left|by rewrite Hm].
    eapply owns_sub; [exact Ho|lia|lia].
  - done.
  - intros a Ha. rewrite <- Hh by done. apply rd_wr_other. lia.
Qed.

(** A write confined to a cell that leaves the bytes of [x] in it sets the cell. *)
Lemma repr_cell_write own gs b t r c x row g d b' :
  mReadOnly b = false -> rowNums b = Z.of_nat (length (rows t)) -> core own gs b t ->
  rows t !! r = Some row -> (c < cols t)%nat ->
  gs !! (r / 100)%nat = Some g -> get32 b (slot_addr g r) = d ->
  cell_write own r c b b' -> cell_repr own b' (d + 12 * Z.of_nat c) r c x ->
  repr b' (tbl_set t r c x).
Proof.
  intros Hro Hn C Hrow Hc Hg Hd (F & (_ & Hs & _) & Hh) Hx.
  split; [congruence|]. split.
  - rewrite rows_tbl_set, <- Hn. apply Hh. lia.
  - exists own, gs. eapply core_set_cell; try done.
    unfold hdr_step, firstRowGroupOffset, columnNums, unusedOffset. rewrite !Hh by lia.
    pose proof (c_unused _ _ _ _ C) as Hu. unfold unusedOffset in Hu. split_and!; try done; lia.
Qed.

Lemma put_out b t r c :
  repr b t -> ~ in_range t r c -> GetCellUnit b (Z.of_nat r) (Z.of_nat c) = None.
Proof. intros (_ & Hn & own & gs & C) Hout. by eapply GetCellUnit_out. Qed.

(** The scalar puts: the tag and eight bytes of the union. *)
Lemma put_scalar_spec b t r c ty v x :
  repr b t -> in_range t r c -> 0 <= ty <= 4 ->
  (forall own b' p, cell_type b' p = ty -> rd 8 (mData b') (p + 4) = u64 v ->
     cell_repr own b' p r c x) ->
  exists p, GetCellUnit b (Z.of_nat r) (Z.of_nat c) = Some p /\
    repr (set_cell_long (set_cell_type b p ty) p v) (tbl_set t r c x).
Proof.
  intros (Hro & Hn & own & gs & C) Hin Hty Hx.
  destruct (GetCellUnit_ok C r c Hn Hin) as (g & d & row & Hrow & Hg & Hd & Hdir & ->).
  eexists. split; [done|]. destruct Hin as [_ Hc], Hdir as (Hd1 & Hd2 & Hd3).
  specialize (Hd3 c Hc). pose proof (c_unused _ _ _ _ C).
  eapply (repr_cell_write own gs b); try done.
  - apply cell_write_wr; try done; try lia.
    rewrite <- (Z.add_0_r (d + 12 * Z.of_nat c)) at 1.
    apply (cell_write_wr own r c b b 4); try done; try lia. by eapply cell_write_refl.
  - apply Hx.
    + unfold cell_type, get32, set_cell_long. simpl mData. rewrite rd_wr_other by lia.
      rewrite (rd_wr_same 4). rewrite wrap_small by lia. apply s32_small. lia.
    + unfold set_cell_long. simpl mData. apply (rd_wr_same 8).
Qed.

Lemma PutLong_spec b t r c v :
  repr b t -> in_range t r c ->
  -9223372036854775808 <= v < 9223372036854775808 ->
  exists b', PutLong b (Z.of_nat r) (Z.of_nat c) v = (SHARED_BLOCK_OK, b') /\
    repr b' (tbl_set t r c (CLong v)).
Proof.
  intros HR Hin Hv. unfold PutLong. rewrite (proj1 HR).
  destruct (put_scalar_spec b t r c CELL_UNIT_TYPE_INTEGER v (CLong v) HR Hin)
    as (p & -> & HR'); [done| |eauto].
  intros own b' p Ht Hr. simpl. unfold cell_long. rewrite Hr. split; [done|].
  by apply s64_u64.
Qed.

Lemma PutDouble_spec b t r c v :
  repr b t -> in_range t r c -> 0 <= v < 18446744073709551616 ->
  exists b', PutDouble b (Z.of_nat r) (Z.of_nat c) v = (SHARED_BLOCK_OK, b') /\
    repr b' (tbl_set t r c (CDouble v)).
Proof.
  intros HR Hin Hv. unfold PutDouble. rewrite (proj1 HR).
  destruct (put_scalar_spec b t r c CELL_UNIT_TYPE_FLOAT v (CDouble v) HR Hin)
    as (p & -> & HR'); [done| |eauto].
  intros own b' p Ht Hr. simpl. unfold cell_double. rewrite Hr. split; [done|].
  by apply u64_small.
Qed.

Lemma PutNull_spec b t r c :
  repr b t -> in_range t r c ->
  exists b', PutNull b (Z.of_nat r) (Z.of_nat c) = (SHARED_BLOCK_OK, b') /\
    repr b' (tbl_set t r c CNull).
Proof.
  intros (Hro & Hn & own & gs & C) Hin. unfold PutNull. rewrite Hro.
  destruct (GetCellUnit_ok C r c Hn Hin) as (g & d & row & Hrow & Hg & Hd & Hdir & ->).
  eexists. split; [done|]. destruct Hin as [_ Hc], Hdir as (Hd1 & Hd2 & Hd3).
  specialize (Hd3 c Hc). pose proof (c_unused _ _ _ _ C).
  eapply (repr_cell_write own gs b); try done.
  - apply (cell_write_wr own r c b _ 4); try done; try lia.
    apply (cell_write_wr own r c b _ 4); try done; try lia.
    rewrite <- (Z.add_0_r (d + 12 * Z.of_nat c)) at 1.
    apply (cell_write_wr own r c b b 4); try done; try lia. by eapply cell_write_refl.
  - simpl. unfold cell_type, set_cell_size, set_cell_offset.
    by rewrite !get32_set32_other, get32_set32_same by lia.
Qed.

Lemma cell_write_bytes own r c b b1 off bs :
  cell_write own r c b b1 -> owns own off (Z.of_nat (length bs)) (OData r c) ->
  16 <= off -> off + Z.of_nat (length bs) <= mSize b ->
  cell_write own r c b (with_mData b1 (wr_bytes (mData b1) off bs)).
Proof.
  intros (F & Hs & Hh) Ho Hp Hp2. pose proof F as (Hm & Hmem & _). split_and!.
  - eapply frame_trans; [exact F|].
    apply frame_wr_bytes; try lia; [|by rewrite Hm]. intros a Ha. right. by apply Ho.
  - done.
  - intros a Ha. rewrite <- Hh by done. apply rd_ext. intros x Hx. apply wr_bytes_out. lia.
Qed.

(** The five writes of [PutBlobOrString] after a successful allocation. *)
Definition put_data (b : SharedBlock) (p ty off : Z) (bs : list byte) : SharedBlock :=
  let b := with_mData b (wr_bytes (mData b) off bs) in
  let b := set_cell_type b p ty in
  let b := set_cell_offset b p off in
  set_cell_size b p (Z.of_nat (length bs)).

Lemma put_data_repr own gs b t r c row g d ty off bs x :
  mReadOnly b = false -> rowNums b = Z.of_nat (length (rows t)) -> core own gs b t ->
  rows t !! r = Some row -> (c < cols t)%nat ->
  gs !! (r / 100)%nat = Some g -> get32 b (slot_addr g r) = d ->
  dir_ok own b (cols t) r d -> 0 <= ty <= 4 ->
  16 <= off < mSize b -> off + Z.of_nat (length bs) <= unusedOffset b ->
  d + 12 * Z.of_nat (cols t) <= off ->
  owns own off (Z.of_nat (length bs)) (OData r c) ->
  (forall b' p, cell_type b' p = ty -> data_repr own b' p r c bs -> cell_repr own b' p r c x) ->
  repr (put_data b (d + 12 * Z.of_nat c) ty off bs) (tbl_set t r c x).
Proof.
  intros Hro Hn C Hrow Hc Hg Hd (Hd1 & Hd2 & Hd3) Hty Hoff Hend Hsep Hown Hx.
  specialize (Hd3 c Hc). pose proof (c_unused _ _ _ _ C) as Hu.
  pose proof (c_size _ _ _ _ C) as Hsz. unfold SECUREC_MEM_MAX_LEN in *.
  set (p := d + 12 * Z.of_nat c) in *.
  eapply (repr_cell_write own gs b); try done.
  - do 2 (apply (cell_write_wr own r c b _ 4); try done; try lia).
    rewrite <- (Z.add_0_r p) at 1. apply (cell_write_wr own r c b _ 4); try done; try lia.
    apply cell_write_bytes; try done; try lia. by eapply cell_write_refl.
  - apply Hx; unfold put_data, data_repr, cell_type, cell_offset, cell_size, unusedOffset.
    + unfold set_cell_size, set_cell_offset, set_cell_type.
      rewrite !get32_set32_other, get32_set32_same by lia.
      rewrite u32_small by lia. apply s32_small. lia.
    + unfold set_cell_size, set_cell_offset, set_cell_type.
      rewrite (get32_set32_other _ (p + 4) (p + 8)) by lia.
      rewrite !get32_set32_same. rewrite !u32_small by lia.
      split_and!; try done; try lia; [simpl mSize; lia| |].
      * rewrite !get32_set32_other by lia. unfold get32. simpl mData.
        erewrite (rd_ext 4 (mData b)); [exact Hend|].
        intros y Hy. apply wr_bytes_out. lia.
      * simpl mData. rewrite (rd_bytes_ext _ (wr_bytes (mData b) off bs)).
        -- apply rd_bytes_wr_same.
        -- intros y Hy. rewrite !(wr_out 4) by lia. done.
Qed.

Section DataOps.
Context `{SecureC}.

Lemma PutBlobOrString_spec b t r c bs ty x ret b' :
  repr b t -> in_range t r c -> Z.of_nat (length bs) <= 4294967296 -> 0 <= ty <= 4 ->
  (forall own b' p, cell_type b' p = ty -> data_repr own b' p r c bs ->
     cell_repr own b' p r c x) ->
  PutBlobOrString b (Z.of_nat r) (Z.of_nat c) bs (Z.of_nat (length bs)) ty = (ret, b') ->
  (ret = SHARED_BLOCK_OK /\ repr b' (tbl_set t r c x)) \/
  (ret = SHARED_BLOCK_NO_MEMORY /\ repr b' t).
Proof.
  intros (Hro & Hn & own & gs & C) Hin Hlen Hty Hx. unfold PutBlobOrString. rewrite Hro.
  destruct (GetCellUnit_ok C r c Hn Hin) as (g & d & row & Hrow & Hg & Hd & Hdir & ->).
  pose proof (Alloc_shape b (Z.of_nat (length bs)) false) as (Hm1 & Hro1 & _).
  destruct (Alloc b _ false) as [off b1] eqn:Ea. simpl in Hm1, Hro1.
  assert (Hsz : 0 <= Z.of_nat (length bs) <= 4294967296) by lia.
  destruct (Alloc_spec _ _ _ _ _ _ _ _ C Hsz Ea)
    as [(-> & -> & _)|(Ho1 & Ho2 & Ho3 & Hb1 & C1 & Hn1 & _)].
  { rewrite Z.eqb_refl. intros [= <- <-]. right. split; [done|].
    split; [done|]. split; [done|]. eauto. }
  pose proof (c_unused _ _ _ _ C) as Hu. pose proof (c_size _ _ _ _ C) as Hs.
  rewrite (proj2 (Z.eqb_neq off 0)) by lia.
  destruct (decide (off < mSize b)) as [Hlt|Hge].
  2: { assert (OffsetToPtr b1 off 0 = None) as ->.
       { unfold OffsetToPtr. rewrite Z.geb_leb, (proj2 (Z.leb_le _ _)) by lia. done. }
       intros [= <- <-]. right. split; [done|]. split; [congruence|].
       split; [congruence|]. eauto. }
  rewrite OffsetToPtr_in by lia.
  destruct (negb _ && _)%bool eqn:Ememcpy.
  { apply andb_prop in Ememcpy as [En Em].
    rewrite memcpy_s_ok in Em by (to_prop; lia). done. }
  intros [= <- <-]. left. split; [done|].
  set (own1 := own_upd own off (Z.of_nat (length bs)) (fun _ => OData r c)).
  pose proof (core_own_upd own gs b t off (Z.of_nat (length bs)) (fun _ => OData r c)
    C ltac:(lia) : core own1 gs b t) as Cd.
  destruct (Alloc_spec _ _ _ _ _ _ _ _ Cd Hsz Ea)
    as [(? & _)|(_ & _ & _ & _ & Cd1 & _)]; [lia|].
  assert (Hd1 : get32 b1 (slot_addr g r) = d).
  { rewrite Hb1, <- Hd. apply get32_set32_other.
    destruct (c_group _ _ _ _ C _ _ Hg) as (? & _). unfold slot_addr. lia. }
  destruct (c_row _ _ _ _ Cd1 r row Hrow) as (g' & d' & Hg' & Hd' & _ & Hdir1 & _).
  assert (d' = d) as -> by congruence. destruct Hin as [_ Hc], Hdir as (_ & Hd2 & _).
  rewrite u32_small by (unfold SECUREC_MEM_MAX_LEN in *; lia).
  assert (Hcopy : (if Z.of_nat (length bs) =? 0 then b1
    else with_mData b1 (wr_bytes (mData b1) off (take (Z.to_nat (Z.of_nat (length bs))) bs)))
    = with_mData b1 (wr_bytes (mData b1) off bs)).
  { rewrite Nat2Z.id, firstn_all. case_if; to_prop; [|done].
    destruct bs; [by destruct b1|done]. }
  rewrite Hcopy.
  eapply (put_data_repr own1 gs b1 t r c row g d ty off bs x);
    try done; try congruence; try lia; eauto.
  intros a Ha. unfold own1. by rewrite own_upd_in by lia.
Qed.

Lemma PutString_spec b t r c bs ret b' :
  repr b t -> in_range t r c -> Z.of_nat (length bs) <= 4294967296 ->
  PutString b (Z.of_nat r) (Z.of_nat c) bs (Z.of_nat (length bs)) = (ret, b') ->
  (ret = SHARED_BLOCK_OK /\ repr b' (tbl_set t r c (CString bs))) \/
  (ret = SHARED_BLOCK_NO_MEMORY /\ repr b' t).
Proof.
  intros HR Hin Hl Hput. unfold PutString in Hput.
  refine (PutBlobOrString_spec _ _ _ _ _ _ _ _ _ HR Hin Hl _ _ Hput); [done|].
  intros own b1 p Ht Hd. by split.
Qed.

Lemma PutBlob_spec b t r c bs ret b' :
  repr b t -> in_range t r c -> Z.of_nat (length bs) <= 4294967296 ->
  PutBlob b (Z.of_nat r) (Z.of_nat c) bs (Z.of_nat (length bs)) = (ret, b') ->
  (ret = SHARED_BLOCK_OK /\ repr b' (tbl_set t r c (CBlob bs))) \/
  (ret = SHARED_BLOCK_NO_MEMORY /\ repr b' t).
Proof.
  intros HR Hin Hl Hput. unfold PutBlob in Hput.
  refine (PutBlobOrString_spec _ _ _ _ _ _ _ _ _ HR Hin Hl _ _ Hput); [done|].
  intros own b1 p Ht Hd. by split.
Qed.
End DataOps.

(** ** Every operation keeps the shape of the block *)
Section Shapes.
Context `{SecureC}.

Lemma AllocRow_shape b : same_shape b (snd (AllocRow b)).
Proof.
  unfold AllocRow. case_if; [done|].
  pose proof (AllocRowOffset_shape b) as Hs. destruct (AllocRowOffset b) as [[a|] b1]; [|done].
  pose proof (Alloc_shape b1 (u64 (columnNums b1 * sizeof_CellUnit)) true) as Ha.
  destruct (Alloc _ _ _) as [off b2]. eapply same_shape_trans; [exact Hs|].
  case_if; [done|]. destruct (OffsetToPtr _ _ _); [|done]. by case_if.
Qed.

Lemma PutBlobOrString_shape b r c bs n ty :
  same_shape b (snd (PutBlobOrString b r c bs n ty)).
Proof.
  unfold PutBlobOrString. case_if; [done|]. destruct (GetCellUnit _ _ _); [|done].
  pose proof (Alloc_shape b n false) as Ha. destruct (Alloc _ _ _) as [off b2].
  case_if; [done|]. destruct (OffsetToPtr _ _ _); [|done]. case_if; [done|]. by case_if.
Qed.
End Shapes.

Lemma Clear_shape b : same_shape b (snd (Clear b)).
Proof. unfold Clear. case_if; [done|]. by destruct (OffsetToPtr _ _ _). Qed.

Lemma SetColumnNum_shape b n : same_shape b (snd (SetColumnNum b n)).
Proof. unfold SetColumnNum. by repeat case_if. Qed.

Lemma FreeLastRow_shape b : same_shape b (snd (FreeLastRow b)).
Proof. unfold FreeLastRow. by repeat case_if. Qed.

Lemma put_scalar_shape b r c v :
  same_shape b (snd (PutNull b r c)) /\ same_shape b (snd (PutLong b r c v)) /\
  same_shape b (snd (PutDouble b r c v)).
Proof.
  unfold PutNull, PutLong, PutDouble.
  split_and!; (case_if; [done|]); by destruct (GetCellUnit _ _ _).
Qed.

Inductive block_op :=
| OpAllocRow
| OpFreeLastRow
| OpSetColumnNum (n : nat)
| OpPutNull (r c : nat)
| OpPutLong (r c : nat) (v : Z)
| OpPutDouble (r c : nat) (v : Z)
| OpPutString (r c : nat) (bs : list byte)
| OpPutBlob (r c : nat) (bs : list byte).

(** Arguments the C++ types admit. *)
Definition op_ok (o : block_op) : bool :=
  match o with
  | OpPutLong _ _ v => (-9223372036854775808 <=? v) && (v <? 9223372036854775808)
  | OpPutDouble _ _ v => (0 <=? v) && (v <? 18446744073709551616)
  | OpPutString _ _ bs | OpPutBlob _ _ bs => Z.of_nat (length bs) <=? 4294967296
  | _ => true
  end.

#[global] Instance in_range_dec t r c : Decision (in_range t r c).
Proof. unfold in_range. apply _. Defined.

(** The outcomes of a call that sets a cell; only variable-size data can fail. *)
Definition spec_put (t : table) (r c : nat) (x : cell) (may_fail : bool)
    : list (Z * table) :=
  if decide (in_range t r c) then
    (SHARED_BLOCK_OK, tbl_set t r c x)
      :: (if may_fail then [(SHARED_BLOCK_NO_MEMORY, t)] else [])
  else [(SHARED_BLOCK_BAD_VALUE, t)].

Definition spec_op (o : block_op) (t : table) : list (Z * table) :=
  match o with
  | OpAllocRow => [(SHARED_BLOCK_OK, tbl_add_row t); (SHARED_BLOCK_NO_MEMORY, t)]
  | OpFreeLastRow => [(SHARED_BLOCK_OK, tbl_free_last t)]
  | OpSetColumnNum n =>
      if decide (n = cols t) then [(SHARED_BLOCK_OK, t)]
      else [(SHARED_BLOCK_INVALID_OPERATION, t)]
  | OpPutNull r c => spec_put t r c CNull false
  | OpPutLong r c v => spec_put t r c (CLong v) false
  | OpPutDouble r c v => spec_put t r c (CDouble v) false
  | OpPutString r c bs => spec_put t r c (CString bs) true
  | OpPutBlob r c bs => spec_put t r c (CBlob bs) true
  end.

Inductive spec_run : list block_op -> list Z -> table -> table -> Prop :=
| spec_nil t : spec_run [] [] t t
| spec_cons o ops ret rets t t1 t2 :
    (ret, t1) ∈ spec_op o t -> spec_run ops rets t1 t2 ->
    spec_run (o :: ops) (ret :: rets) t t2.

Section Props.
Context `{SecureC}.

Definition run_op (o : block_op) (b : SharedBlock) : Z * SharedBlock :=
  match o with
  | OpAllocRow => AllocRow b
  | OpFreeLastRow => FreeLastRow b
  | OpSetColumnNum n => SetColumnNum b (Z.of_nat n)
  | OpPutNull r c => PutNull b (Z.of_nat r) (Z.of_nat c)
  | OpPutLong r c v => PutLong b (Z.of_nat r) (Z.of_nat c) v
  | OpPutDouble r c v => PutDouble b (Z.of_nat r) (Z.of_nat c) v
  | OpPutString r c bs =>
      PutString b (Z.of_nat r) (Z.of_nat c) bs (Z.of_nat (length bs))
  | OpPutBlob r c bs => PutBlob b (Z.of_nat r) (Z.of_nat c) bs (Z.of_nat (length bs))
  end.

Fixpoint run_ops (ops : list block_op) (b : SharedBlock) : list Z * SharedBlock :=
  match ops with
  | [] => ([], b)
  | o :: ops =>
      let '(ret, b) := run_op o b in
      let '(rets, b) := run_ops ops b in
      (ret :: rets, b)
  end.

(** The calls that begin every fill of a block. *)
Definition start_block (b : SharedBlock) (n : nat) : SharedBlock :=
  snd (SetColumnNum (snd (Clear b)) (Z.of_nat n)).

Lemma spec_put_in t r c x mf :
  in_range t r c -> (SHARED_BLOCK_OK, tbl_set t r c x) ∈ spec_put t r c x mf.
Proof. intros Hin. unfold spec_put. rewrite decide_True by done. left. Qed.

Lemma spec_put_fail t r c x :
  in_range t r c -> (SHARED_BLOCK_NO_MEMORY, t) ∈ spec_put t r c x true.
Proof. intros Hin. unfold spec_put. rewrite decide_True by done. right. left. Qed.

Lemma spec_put_out t r c x mf :
  ~ in_range t r c -> (SHARED_BLOCK_BAD_VALUE, t) ∈ spec_put t r c x mf.
Proof. intros Hin. unfold spec_put. rewrite decide_False by done. left. Qed.

Lemma run_op_spec o b t ret b' :
  repr b t -> (0 < cols t)%nat -> op_ok o = true -> run_op o b = (ret, b') ->
  exists t', (ret, t') ∈ spec_op o t /\ repr b' t' /\ cols t' = cols t.
Proof.
  intros HR Hc Hok Hrun. pose proof (proj1 HR) as Hro.
  assert (Hput : forall r c, ~ in_range t r c ->
    GetCellUnit b (Z.of_nat r) (Z.of_nat c) = None) by (intros; by eapply put_out).
  destruct o as [| |n|r c|r c v|r c v|r c bs|r c bs]; simpl in *; to_prop;
    try (destruct (decide (in_range t r c)) as [Hin|Hout];
      [|unfold PutNull, PutLong, PutDouble, PutString, PutBlob, PutBlobOrString in Hrun;
        rewrite Hro, Hput in Hrun by done; simplify_eq; eauto using spec_put_out]).
  - destruct (AllocRow_spec b t ret b' HR Hc Hrun) as [[-> ?]|[-> ?]];
      eexists; (split; [|done]); [left|right; left].
  - destruct (FreeLastRow_spec b t HR) as (b1 & Hf & ?). rewrite Hf in Hrun. simplify_eq.
    eexists. split; [left|done].
  - destruct (SetColumnNum_spec b t n ret b' HR Hrun)
      as [(-> & HR' & [->|[? _]] & _)|(-> & -> & Hne)]; [|lia|].
    + exists t. rewrite decide_True by done. split; [left|]. by destruct t.
    + exists t. destruct (decide (n = cols t)) as [->|]; [|split; [left|done]].
      destruct HR as (_ & _ & own & gs & C). pose proof (c_colmax _ _ _ _ C). lia.
  - destruct (PutNull_spec b t r c HR Hin) as (b1 & Hp & ?). rewrite Hp in Hrun. simplify_eq.
    eauto using spec_put_in.
  - destruct (PutLong_spec b t r c v HR Hin) as (b1 & Hp & ?); [lia|].
    rewrite Hp in Hrun. simplify_eq.
    eauto using spec_put_in.
  - destruct (PutDouble_spec b t r c v HR Hin) as (b1 & Hp & ?); [lia|].
    rewrite Hp in Hrun. simplify_eq.
    eauto using spec_put_in.
  - destruct (PutString_spec b t r c bs ret b' HR Hin ltac:(lia) Hrun) as [[-> ?]|[-> ?]];
      eauto using spec_put_in, spec_put_fail.
  - destruct (PutBlob_spec b t r c bs ret b' HR Hin ltac:(lia) Hrun) as [[-> ?]|[-> ?]];
      eauto using spec_put_in, spec_put_fail.
Qed.

Lemma run_ops_spec ops b t rets b' :
  repr b t -> (0 < cols t)%nat -> forallb op_ok ops = true -> run_ops ops b = (rets, b') ->
  exists t', spec_run ops rets t t' /\ repr b' t' /\ cols t' = cols t.
Proof.
  revert b t rets. induction ops as [|o ops IH]; intros b t rets HR Hc Hok Hrun; simpl in *.
  { simplify_eq. exists t. split_and!; try done. constructor. }
  apply andb_prop in Hok as [Hok1 Hok2].
  destruct (run_op o b) as [ret b1] eqn:E1. destruct (run_ops ops b1) as [rets1 b2] eqn:E2.
  simplify_eq.
  destruct (run_op_spec o b t ret b1 HR Hc Hok1 E1) as (t1 & Hin1 & HR1 & Hc1).
  destruct (IH b1 t1 rets1 HR1 ltac:(lia) Hok2 E2) as (t2 & Hrun2 & HR2 & Hc2).
  exists t2. split_and!; [by econstructor|done|lia].
Qed.

Lemma SetColumnNum_fresh b n :
  repr b (tbl_empty 0) -> Z.of_nat n <= COL_MAX_NUM ->
  exists b', SetColumnNum b (Z.of_nat n) = (SHARED_BLOCK_OK, b') /\ repr b' (tbl_empty n).
Proof.
  intros HR Hn. pose proof HR as (Hro & Hr & own & gs & C). unfold SetColumnNum.
  rewrite Hro, Hr, (c_cols _ _ _ _ C). simpl.
  rewrite (Z.gtb_ltb (Z.of_nat n)), (proj2 (Z.ltb_ge _ _)) by done.
  eexists. split; [done|]. split; [done|]. split.
  - transitivity (rowNums b); [|done]. apply get32_set32_other. lia.
  - exists own, gs. by apply (core_set_cols own gs b (tbl_empty 0)); [|right|].
Qed.

Lemma start_block_spec b n :
  block_ok b -> Z.of_nat n <= COL_MAX_NUM -> repr (start_block b n) (tbl_empty n).
Proof.
  intros Hok Hn. unfold start_block. destruct (Clear_spec b Hok) as (b1 & -> & HR & _). simpl.
  by destruct (SetColumnNum_fresh b1 n HR Hn) as (b2 & -> & HR2).
Qed.

Lemma run_op_shape o b : same_shape b (snd (run_op o b)).
Proof.
  destruct o as [| |n|r c|r c v|r c v|r c bs|r c bs]; simpl;
    [apply AllocRow_shape|apply FreeLastRow_shape|apply SetColumnNum_shape
    |apply (put_scalar_shape b _ _ 0)|apply (put_scalar_shape b _ _ v)
    |apply (put_scalar_shape b _ _ v)|apply PutBlobOrString_shape|apply PutBlobOrString_shape].
Qed.

Lemma run_ops_shape ops b : same_shape b (snd (run_ops ops b)).
Proof.
  revert b. induction ops as [|o ops IH]; intros b; simpl; [done|].
  pose proof (run_op_shape o b) as Hs. destruct (run_op o b) as [ret b1].
  specialize (IH b1). destruct (run_ops ops b1). eapply same_shape_trans; eauto.
Qed.

Lemma start_block_shape b n : same_shape b (start_block b n).
Proof.
  unfold start_block. eapply same_shape_trans; [apply Clear_shape|apply SetColumnNum_shape].
Qed.

(** C1: Refinement of the shared block: after [Clear] and [SetColumnNum(n)] with
    [0 < n <= COL_MAX_NUM], any sequence of row and cell operations returns codes
    that the abstract table allows, and the table those codes lead to is exactly
    what the readers of the block see: its row and column counts and, at every
    row and column, the cell that was last put there (nothing outside the range). *)
Theorem block_refines_table b n ops rets b' :
  block_ok b -> (0 < n)%nat -> Z.of_nat n <= COL_MAX_NUM -> forallb op_ok ops = true ->
  run_ops ops (start_block b n) = (rets, b') ->
  exists t, spec_run ops rets (tbl_empty n) t /\
    GetRowNum b' = Z.of_nat (length (rows t)) /\ GetColumnNum b' = Z.of_nat n /\
    forall r c, read_cell b' (Z.of_nat r) (Z.of_nat c) = tbl_get t r c.
Proof.
  intros Hb H0 Hn Hok Hrun. pose proof (start_block_spec b n Hb Hn) as HR.
  destruct (run_ops_spec ops _ _ rets b' HR H0 Hok Hrun) as (t & Hs & HR' & Hc).
  exists t. split; [done|]. pose proof HR' as (_ & Hr & own & gs & C).
  split_and!; [done| |intros; by apply read_cell_spec].
  unfold GetColumnNum. by rewrite (c_cols _ _ _ _ C), Hc.
Qed.

Lemma start_block_used b n : block_ok b -> unusedOffset (start_block b n) = 420.
Proof.
  intros Hb. unfold start_block. destruct (Clear_spec b Hb) as (b1 & -> & _ & Hu). simpl.
  unfold SetColumnNum. repeat (case_if; [done|]). simpl. rewrite <- Hu.
  apply get32_set32_other. lia.
Qed.

(** C2: Memory safety of the row and cell operations. On a well-formed block, after
    [Clear] and [SetColumnNum] with at least one column, no sequence of [AllocRow],
    [FreeLastRow] and the [Put] operations writes a byte outside the mapping, and the
    high-water mark of the allocator stays inside it. [SetRawData], which takes the
    header of the block from its caller, is not one of these operations. *)
Theorem block_memory_safe b n ops rets b' :
  block_ok b -> (0 < n)%nat -> Z.of_nat n <= COL_MAX_NUM -> forallb op_ok ops = true ->
  run_ops ops (start_block b n) = (rets, b') ->
  mSize b' = mSize b /\ GetUsedBytes b' <= mSize b /\
  forall a, a < 0 \/ mSize b <= a -> mData b' !! a = None.
Proof.
  intros Hb H0 Hn Hok Hrun. pose proof (start_block_spec b n Hb Hn) as HR.
  destruct (run_ops_spec ops _ _ rets b' HR H0 Hok Hrun) as (t & _ & HR' & _).
  assert (Hsz : mSize b' = mSize b).
  { pose proof (run_ops_shape ops (start_block b n)) as Hs. rewrite Hrun in Hs.
    apply (same_shape_trans _ _ _ (start_block_shape b n) Hs). }
  destruct HR' as (_ & _ & own & gs & C). rewrite <- Hsz.
  split_and!; [done|apply (c_unused _ _ _ _ C)|apply C].
Qed.

(** A row without columns is counted although its allocation fails: on a block
    of at least 424 bytes with no columns set, [AllocRow] reports
    [SHARED_BLOCK_NO_MEMORY] because [memset_s] refuses a zero-length directory, but
    the row count it had incremented is not taken back. *)
Theorem AllocRow_no_columns_counts_row b :
  block_ok b -> 424 <= mSize b ->
  fst (AllocRow (start_block b 0)) = SHARED_BLOCK_NO_MEMORY /\
  GetRowNum (start_block b 0) = 0 /\
  GetRowNum (snd (AllocRow (start_block b 0))) = 1.
Proof.
  intros Hb Hm. pose proof (start_block_spec b 0 Hb ltac:(done)) as (Hro & Hn & own & gs & C).
  simpl in Hn. unfold AllocRow. rewrite Hro.
  pose proof (AllocRowOffset_shape (start_block b 0)) as Hshape.
  assert (Hoff : exists b1, AllocRowOffset (start_block b 0)
            = (Some (rowOffsets_addr 16 0), b1) /\ b1 = set_rowNums (start_block b 0) 1).
  { unfold AllocRowOffset. rewrite (first_ptr C), Hn. simpl. eauto. }
  destruct Hoff as (b1 & E & ->). rewrite E.
  pose proof (core_set_rowNums own gs _ _ 1 C) as C1.
  rewrite (c_cols _ _ _ _ C1). simpl cols. change (u64 (Z.of_nat 0 * sizeof_CellUnit)) with 0.
  destruct (Alloc _ 0 true) as [off b2] eqn:Ea.
  assert (Hu : unusedOffset (set_rowNums (start_block b 0) 1) = 420).
  { rewrite <- (start_block_used b 0 Hb). apply get32_set32_other. lia. }
  assert (Hpad : alloc_pad (set_rowNums (start_block b 0) 1) true = 0)
    by (unfold alloc_pad; by rewrite Hu).
  pose proof (start_block_shape b 0) as (Hs & _).
  destruct (Alloc_spec _ _ _ _ _ _ _ _ C1 ltac:(done) Ea)
    as [(-> & -> & Hfull)|(Ho1 & Ho2 & _ & _ & _ & Hn2 & _ & Ho)].
  { rewrite Hpad, Hu in Hfull. simpl in Hfull. lia. }
  rewrite Hpad, Hu in Ho.
  rewrite (proj2 (Z.eqb_neq off 0)) by lia.
  pose proof (Alloc_shape (set_rowNums (start_block b 0) 1) 0 true) as (Hs2 & _).
  rewrite Ea in Hs2. simpl in Hs2. destruct Hb as (_ & Hmax & _).
  rewrite OffsetToPtr_in by lia.
  rewrite (proj2 (Z.eqb_neq _ 0)) by apply memset_s_zero. simpl.
  split_and!; [done|done|]. unfold GetRowNum. rewrite Hn2. apply get32_set32_same.
Qed.
End Props.

(** C29: The allocator: on a block that represents a table, [Alloc] fails (returns 0
    and leaves the block as it is) exactly when the padded request does not fit in
    what is left; otherwise the region it returns starts at or above the old
    high-water mark, ends inside the block at the new mark, is 4-aligned when
    asked, and the table is untouched. *)
Theorem Alloc_bounds b t size al off b' :
  repr b t -> 0 <= size <= 4294967296 -> Alloc b size al = (off, b') ->
  (off = 0 <-> mSize b < GetUsedBytes b + alloc_pad b al + size) /\
  (off = 0 -> b' = b) /\
  (off <> 0 -> GetUsedBytes b <= off /\ off + size = GetUsedBytes b' /\ off + size <= mSize b /\
     (al = true -> off mod 4 = 0) /\ repr b' t).
Proof.
  intros (Hro & Hn & own & gs & C) Hsz Ha. unfold GetUsedBytes.
  pose proof (Alloc_shape b size al) as (Hm & Hro' & _). rewrite Ha in Hm, Hro'. simpl in *.
  pose proof (c_unused _ _ _ _ C).
  destruct (Alloc_spec _ _ _ _ _ _ _ _ C Hsz Ha)
    as [(-> & -> & Hfull)|(Ho1 & Ho2 & Ho3 & _ & C' & Hn' & Hal & Ho)].
  - done.
  - split_and!; [lia|lia|]. intros _. split_and!; try lia; [done|].
    split; [congruence|]. split; [congruence|]. eauto.
Qed.

(** The range check of [OffsetToPtr] is done in 32-bit arithmetic: for every
    block smaller than 4 GiB and every non-zero offset inside it there is a buffer
    size that runs past the end of the block and is accepted, because the sum
    wraps around. *)
Theorem OffsetToPtr_wraps b off :
  0 < off < mSize b -> mSize b < 4294967296 ->
  exists bufferSize, 0 <= bufferSize < 4294967296 /\ mSize b < off + bufferSize /\
    OffsetToPtr b off bufferSize = Some off.
Proof.
  intros Ho Hm. exists (4294967296 - off). split_and!; try lia.
  unfold OffsetToPtr. rewrite Z.geb_leb, (proj2 (Z.leb_gt _ _)) by lia.
  replace (off + (4294967296 - off)) with 4294967296 by lia.
  change (u32 4294967296) with 0. by rewrite Z.gtb_ltb, (proj2 (Z.ltb_ge _ _)) by lia.
Qed.

(** ** Witnesses *)

(** securec as its documentation describes it. *)
Definition ERANGE : Z := 34.
Definition securec_code (d c : Z) : Z :=
  if (0 <? d) && (d <=? SECUREC_MEM_MAX_LEN) && (0 <=? c) && (c <=? d) then 0 else ERANGE.

#[export, refine] Instance securec_ref : SecureC :=
  {| memset_s := securec_code; memcpy_s := securec_code |}.
Proof.
  all: unfold securec_code; intros; case_if; try done.
  all: rewrite !(proj2 (Z.leb_le _ _)), (proj2 (Z.ltb_lt _ _)) in E by lia; done.
Defined.

Definition block4k : SharedBlock := mkSharedBlock "db" 4096 false ∅.

Lemma block4k_ok : block_ok block4k.
Proof. split_and!; try done. Defined.

Definition bytes (s : string) : list byte := String.list_ascii_of_string s.

Definition demo_ops : list block_op :=
  [OpAllocRow; OpPutLong 0 0 (-7); OpPutString 0 1 (bytes "abc"); OpAllocRow;
   OpPutDouble 1 0 4607182418800017408; OpPutBlob 1 1 (bytes "xy"); OpAllocRow;
   OpPutLong 3 0 1; OpFreeLastRow; OpPutNull 0 0; OpPutString 0 1 (bytes "longer")].

Lemma block_refines_table_witness :
  exists t, spec_run demo_ops [0;0;0;0;0;0;0;1;0;0;0] (tbl_empty 2) t /\
    GetRowNum (snd (run_ops demo_ops (start_block block4k 2))) = Z.of_nat (length (rows t)) /\
    GetColumnNum (snd (run_ops demo_ops (start_block block4k 2))) = Z.of_nat 2 /\
    forall r c, read_cell (snd (run_ops demo_ops (start_block block4k 2)))
                  (Z.of_nat r) (Z.of_nat c) = tbl_get t r c.
Proof.
  apply (block_refines_table block4k 2 demo_ops [0;0;0;0;0;0;0;1;0;0;0]);
    [exact block4k_ok|lia|done|reflexivity|].
  rewrite (surjective_pairing (run_ops demo_ops (start_block block4k 2))).
  f_equal.
Defined.

Lemma block_memory_safe_witness :
  mSize (snd (run_ops demo_ops (start_block block4k 2))) = 4096 /\
  GetUsedBytes (snd (run_ops demo_ops (start_block block4k 2))) <= 4096 /\
  forall a, a < 0 \/ 4096 <= a ->
    mData (snd (run_ops demo_ops (start_block block4k 2))) !! a = None.
Proof.
  apply (block_memory_safe block4k 2 demo_ops (fst (run_ops demo_ops (start_block block4k 2))));
    [exact block4k_ok|lia|done|reflexivity|apply surjective_pairing].
Defined.

Lemma Alloc_bounds_witness :
  GetUsedBytes (start_block block4k 2) <= 420 /\
  420 + 5 = GetUsedBytes (snd (Alloc (start_block block4k 2) 5 true)).
Proof.
  destruct (Alloc_bounds (start_block block4k 2) (tbl_empty 2) 5 true 420
    (snd (Alloc (start_block block4k 2) 5 true))
    (start_block_spec block4k 2 block4k_ok ltac:(done)) ltac:(done) ltac:(vm_compute; reflexivity))
    as (_ & _ & H3).
  destruct (H3 ltac:(discriminate)) as (Hlo & Hend & _). split; [exact Hlo|exact Hend].
Defined.

Lemma OffsetToPtr_wraps_witness :
  exists bufferSize, 0 <= bufferSize < 4294967296 /\ 4096 < 420 + bufferSize /\
    OffsetToPtr block4k 420 bufferSize = Some 420.
Proof. apply (OffsetToPtr_wraps block4k 420); simpl; lia. Defined.

Lemma AllocRow_no_columns_counts_row_witness :
  fst (AllocRow (start_block block4k 0)) = SHARED_BLOCK_NO_MEMORY /\
  GetRowNum (start_block block4k 0) = 0 /\
  GetRowNum (snd (AllocRow (start_block block4k 0))) = 1.
Proof. apply (AllocRow_no_columns_counts_row block4k block4k_ok). simpl. lia. Defined.

(** * When a shared block has room

    The operations that take memory succeed when enough of it is left, and take no
    more than they need: the counterpart of the refinement theorem, which allows
    them to report that the block is full. For blocks of fewer than a hundred rows,
    the capacity of the first row group. *)

Lemma set32_unused b a v : 4 <= a -> unusedOffset (set32 b a v) = unusedOffset b.
Proof. intros Ha. apply get32_set32_other. lia. Qed.

Lemma wr_bytes_unused b a bs :
  4 <= a -> unusedOffset (with_mData b (wr_bytes (mData b) a bs)) = unusedOffset b.
Proof. intros Ha. apply rd_ext. intros x Hx. apply wr_bytes_out. lia. Qed.

Lemma wr8_unused b a v :
  4 <= a -> unusedOffset (with_mData b (wr 8 (mData b) a v)) = unusedOffset b.
Proof. intros Ha. apply rd_ext. intros x Hx. apply wr_out. lia. Qed.

(** Cells lie behind the header. *)
Lemma GetCellUnit_addr b t r c p :
  repr b t -> in_range t r c -> GetCellUnit b (Z.of_nat r) (Z.of_nat c) = Some p -> 16 <= p.
Proof.
  intros (_ & Hn & own & gs & C) Hin E.
  destruct (GetCellUnit_ok C r c Hn Hin) as (g & d & row & _ & _ & _ & Hdir & E').
  rewrite E in E'. injection E' as ->. destruct Hdir as (Hd & _). lia.
Qed.

Lemma put_scalar_unused b p ty v :
  16 <= p -> unusedOffset (set_cell_long (set_cell_type b p ty) p v) = unusedOffset b.
Proof.
  intros Hp. unfold set_cell_long, set_cell_type. rewrite wr8_unused by lia. apply set32_unused. lia.
Qed.

(** ** The scalar puts take nothing *)
Lemma PutLong_unused b t r c v :
  repr b t -> in_range t r c ->
  unusedOffset (snd (PutLong b (Z.of_nat r) (Z.of_nat c) v)) = unusedOffset b.
Proof.
  intros HR Hin. unfold PutLong. rewrite (proj1 HR).
  destruct (GetCellUnit b _ _) as [p|] eqn:E; [|done].
  by apply put_scalar_unused, (GetCellUnit_addr b t r c).
Qed.

Lemma PutDouble_unused b t r c v :
  repr b t -> in_range t r c ->
  unusedOffset (snd (PutDouble b (Z.of_nat r) (Z.of_nat c) v)) = unusedOffset b.
Proof.
  intros HR Hin. unfold PutDouble. rewrite (proj1 HR).
  destruct (GetCellUnit b _ _) as [p|] eqn:E; [|done].
  by apply put_scalar_unused, (GetCellUnit_addr b t r c).
Qed.

Lemma PutNull_unused b t r c :
  repr b t -> in_range t r c ->
  unusedOffset (snd (PutNull b (Z.of_nat r) (Z.of_nat c))) = unusedOffset b.
Proof.
  intros HR Hin. unfold PutNull. rewrite (proj1 HR).
  destruct (GetCellUnit b _ _) as [p|] eqn:E; [|done].
  pose proof (GetCellUnit_addr b t r c p HR Hin E). simpl. unfold set_cell_type, set_cell_offset, set_cell_size.
  by rewrite !set32_unused by lia.
Qed.

(** ** The others take what they need *)
Section Room.
Context `{SecureC}.

Lemma AllocRow_room b t :
  repr b t -> (0 < cols t)%nat -> (length (rows t) < 100)%nat ->
  unusedOffset b + 3 + 12 * Z.of_nat (cols t) <= mSize b ->
  exists b', AllocRow b = (SHARED_BLOCK_OK, b') /\ repr b' (tbl_add_row t) /\
    unusedOffset b' <= unusedOffset b + 3 + 12 * Z.of_nat (cols t) /\ mSize b' = mSize b.
Proof.
  intros HR Hcols Hrows Hroom. destruct (AllocRow b) as [ret b'] eqn:E.
  pose proof (AllocRow_spec b t ret b' HR Hcols E) as Hspec.
  pose proof (AllocRow_shape b) as (Hm & _). rewrite E in Hm. simpl in Hm.
  destruct HR as (Hro & Hn & own & gs & C). pose proof (c_unused _ _ _ _ C) as Hu.
  assert (Hoff : AllocRowOffset b = (Some (rowOffsets_addr 16 (rowNums b)), set_rowNums b (rowNums b + 1))).
  { unfold AllocRowOffset. rewrite (first_ptr C).
    assert (Hl : AllocRowOffset_loop (Z.to_nat (rowNums b / ROW_OFFSETS_NUM)) b 16 (rowNums b)
                 = Some (16, rowNums b)).
    { unfold ROW_OFFSETS_NUM. rewrite Z.div_small by lia. change (Z.to_nat 0) with 0%nat.
      cbn [AllocRowOffset_loop]. unfold ROW_OFFSETS_NUM.
      by rewrite Z.gtb_ltb, (proj2 (Z.ltb_ge 100 _)) by lia. }
    rewrite Hl, (proj2 (Z.eqb_neq _ _)) by (unfold ROW_OFFSETS_NUM; lia). done. }
  unfold AllocRow in E. rewrite Hro, Hoff in E. set (b1 := set_rowNums b (rowNums b + 1)) in *.
  assert (C1 : core own gs b1 t) by (by apply core_set_rowNums).
  assert (Hmb : mSize b1 = mSize b) by done.
  assert (Hu1 : unusedOffset b1 = unusedOffset b) by (apply set32_unused; lia).
  rewrite (c_cols _ _ _ _ C1) in E. pose proof (c_colmax _ _ _ _ C1) as Hmax.
  unfold COL_MAX_NUM in Hmax.
  replace (u64 (Z.of_nat (cols t) * sizeof_CellUnit)) with (12 * Z.of_nat (cols t)) in E
    by (unfold sizeof_CellUnit; rewrite u64_small; lia).
  destruct (Alloc b1 (12 * Z.of_nat (cols t)) true) as [off b2] eqn:Ea.
  pose proof (Alloc_shape b1 (12 * Z.of_nat (cols t)) true) as (Hm2 & _). rewrite Ea in Hm2.
  simpl in Hm2.
  assert (Hsz : 0 <= 12 * Z.of_nat (cols t) <= 4294967296) by lia.
  destruct (Alloc_spec _ _ _ _ _ _ _ _ C1 Hsz Ea)
    as [(_ & _ & Hfull)|(Ho1 & Ho2 & Ho3 & _ & C2 & _)].
  { exfalso. unfold alloc_pad in Hfull. pose proof (Z.mod_pos_bound (- unusedOffset b1) 4).
    lia. }
  rewrite (proj2 (Z.eqb_neq off 0)) in E by lia. pose proof (c_size _ _ _ _ C1) as Hs1.
  rewrite OffsetToPtr_in in E by lia. rewrite memset_s_ok in E by lia.
  simpl negb in E. cbv iota in E. injection E as <- <-. eexists. split; [done|].
  destruct Hspec as [[_ HR']|[? _]]; [|done]. split_and!; [done| |done].
  rewrite set32_unused by (unfold rowOffsets_addr; lia). rewrite wr_bytes_unused; lia.
Qed.

Lemma PutString_room b t r c bs :
  repr b t -> in_range t r c -> bs <> [] -> unusedOffset b + Z.of_nat (length bs) <= mSize b ->
  forall value size, firstn (Z.to_nat size) value = bs -> size = Z.of_nat (length bs) ->
  exists b', PutString b (Z.of_nat r) (Z.of_nat c) value size = (SHARED_BLOCK_OK, b') /\
    repr b' (tbl_set t r c (CString bs)) /\
    unusedOffset b' = unusedOffset b + Z.of_nat (length bs) /\ mSize b' = mSize b.
Proof.
  intros HR Hin Hne Hroom value size Hv ->.
  assert (Eput : PutString b (Z.of_nat r) (Z.of_nat c) value (Z.of_nat (length bs)) =
                 PutString b (Z.of_nat r) (Z.of_nat c) bs (Z.of_nat (length bs))).
  { unfold PutString, PutBlobOrString. rewrite Hv, Nat2Z.id, firstn_all. done. }
  rewrite Eput. destruct (PutString b _ _ bs _) as [ret b'] eqn:E.
  pose proof (proj2 HR) as (Hn & own & gs & C). pose proof (c_unused _ _ _ _ C) as Hu.
  pose proof (c_size _ _ _ _ C) as Hs. unfold SECUREC_MEM_MAX_LEN in Hs.
  pose proof (PutString_spec b t r c bs ret b' HR Hin ltac:(lia) E) as Hspec.
  pose proof (PutBlobOrString_shape b (Z.of_nat r) (Z.of_nat c) bs (Z.of_nat (length bs))
                CELL_UNIT_TYPE_STRING) as (Hm & _).
  unfold PutString in E. rewrite E in Hm. simpl in Hm.
  assert (0 < Z.of_nat (length bs)) by (destruct bs; [done|simpl; lia]).
  destruct (GetCellUnit b (Z.of_nat r) (Z.of_nat c)) as [p|] eqn:Ep.
  2: { destruct (GetCellUnit_ok C r c Hn Hin) as (g & d & row & _ & _ & _ & _ & E'). congruence. }
  pose proof (GetCellUnit_addr b t r c p HR Hin Ep) as Hp.
  unfold PutBlobOrString in E. rewrite (proj1 HR), Ep in E.
  destruct (Alloc b (Z.of_nat (length bs)) false) as [off b1] eqn:Ea.
  pose proof (Alloc_shape b (Z.of_nat (length bs)) false) as (Hm1 & _). rewrite Ea in Hm1. simpl in Hm1.
  assert (Hsz : 0 <= Z.of_nat (length bs) <= 4294967296) by lia.
  destruct (Alloc_spec _ _ _ _ _ _ _ _ C Hsz Ea)
    as [(_ & _ & Hfull)|(Ho1 & Ho2 & Ho3 & _ & C2 & _ & _ & Ho4)]; [simpl in Hfull; lia|].
  unfold alloc_pad in Ho4.
  rewrite (proj2 (Z.eqb_neq off 0)) in E by lia. unfold SECUREC_MEM_MAX_LEN in *.
  rewrite OffsetToPtr_in in E by (unfold SECUREC_MEM_MAX_LEN; lia).
  rewrite memcpy_s_ok, (proj2 (Z.eqb_neq _ 0)) in E by (unfold SECUREC_MEM_MAX_LEN; lia).
  simpl in E. injection E as <- <-. eexists. split; [done|].
  destruct Hspec as [[_ HR']|[? _]]; [|done]. split_and!; [done| |done].
  unfold set_cell_size, set_cell_offset, set_cell_type. rewrite !set32_unused by lia.
  rewrite wr_bytes_unused by lia. lia.
Qed.
End Room.
