(* ===== verification/SharedBlockFill.v ===== *)
(** * Filling a shared block from a statement

    Model of frameworks/native/rdb/src/share_block.cpp (with share_block.h): the
    loop that steps a SQLite statement and copies the rows of its result into a
    [SharedBlock], and the helpers that position and report the window of rows.

    SQLite is not part of the repository. What [sqlite3_step] answers is the list
    of [step] outcomes given to the loop, and the current row is a record of the
    answers of the [sqlite3_column_*] functions. *)
From S2P Require Import Prelude Memory RdbErrno SharedBlock.
From Stdlib Require Import Ascii.

Definition SQLITE_OK : Z := 0.
Definition SQLITE_ERROR : Z := 1.
Definition SQLITE_FULL : Z := 13.

(** Fundamental datatypes of SQLite. *)
Definition SQLITE_INTEGER : Z := 1.
Definition SQLITE_FLOAT : Z := 2.
Definition SQLITE_TEXT : Z := 3.
Definition SQLITE_BLOB : Z := 4.
Definition SQLITE_NULL : Z := 5.

(** The answers of the column functions for the current row; the text is the
    buffer [sqlite3_column_text] returns, terminator included. *)
Record sqlite3_row := {
  sqlite3_column_type : Z -> Z;
  sqlite3_column_text : Z -> option (list byte);
  sqlite3_column_bytes : Z -> Z;
  sqlite3_column_int64 : Z -> Z;
  sqlite3_column_double : Z -> Z;
  sqlite3_column_blob : Z -> list byte;
}.

Inductive FillOneRowResult :=
| FILL_ONE_ROW_SUCESS
| SHARED_BLOCK_IS_FULL
| FILL_ONE_ROW_FAIL.

#[global] Instance FillOneRowResult_eq_dec : EqDecision FillOneRowResult.
Proof. solve_decision. Defined.

Definition ERROR_STATUS : Z := -1.
Definition RETRY_TIME : Z := 50.
Definition OFFSET : Z := 32.

Definition ClearSharedBlock (b : SharedBlock) : Z * SharedBlock :=
  let '(status, b) := Clear b in
  if negb (status =? SHARED_BLOCK_OK) then (ERROR_STATUS, b) else (status, b).

Definition SharedBlockSetColumnNum (b : SharedBlock) (columnNum : Z) : Z * SharedBlock :=
  let '(status, b) := SetColumnNum b (u32 columnNum) in
  if negb (status =? SHARED_BLOCK_OK) then (ERROR_STATUS, b) else (status, b).

Section Fill.
Context `{SecureC}.

Definition fill_result (status : Z) (b : SharedBlock) : FillOneRowResult * SharedBlock :=
  if negb (status =? SHARED_BLOCK_OK) then (SHARED_BLOCK_IS_FULL, b)
  else (FILL_ONE_ROW_SUCESS, b).

Definition FillOneRowOfString (b : SharedBlock) (statement : sqlite3_row)
    (addedRows pos : Z) : FillOneRowResult * SharedBlock :=
  match sqlite3_column_text statement pos with
  | None => (SHARED_BLOCK_IS_FULL, b)
  | Some text =>
      let sizeIncludingNull := sqlite3_column_bytes statement pos + 1 in
      let '(status, b) :=
        PutString b (u32 addedRows) (u32 pos) text (u64 sizeIncludingNull) in
      fill_result status b
  end.

Definition FillOneRowOfLong (b : SharedBlock) (statement : sqlite3_row)
    (addedRows pos : Z) : FillOneRowResult * SharedBlock :=
  let value := sqlite3_column_int64 statement pos in
  let '(status, b) := PutLong b (u32 addedRows) (u32 pos) value in
  fill_result status b.

Definition FillOneRowOfFloat (b : SharedBlock) (statement : sqlite3_row)
    (addedRows pos : Z) : FillOneRowResult * SharedBlock :=
  let value := sqlite3_column_double statement pos in
  let '(status, b) := PutDouble b (u32 addedRows) (u32 pos) value in
  fill_result status b.

Definition FillOneRowOfBlob (b : SharedBlock) (statement : sqlite3_row)
    (addedRows pos : Z) : FillOneRowResult * SharedBlock :=
  let blob := sqlite3_column_blob statement pos in
  let size := sqlite3_column_bytes statement pos in
  let '(status, b) := PutBlob b (u32 addedRows) (u32 pos) blob (u64 size) in
  fill_result status b.

Definition FillOneRowOfNull (b : SharedBlock) (addedRows pos : Z)
    : FillOneRowResult * SharedBlock :=
  let '(status, b) := PutNull b (u32 addedRows) (u32 pos) in
  fill_result status b.

(** The loop over the columns: [n] columns are left, the next one is [i], and
    [result] is the outcome of the previous one. *)
Fixpoint FillOneRow_loop (n : nat) (b : SharedBlock) (statement : sqlite3_row)
    (addedRows i : Z) (result : FillOneRowResult) : FillOneRowResult * SharedBlock :=
  match n with
  | O => (result, b)
  | S n =>
      let type := sqlite3_column_type statement i in
      let continue '(result, b) :=
        if decide (result = SHARED_BLOCK_IS_FULL) then (result, b)
        else FillOneRow_loop n b statement addedRows (i + 1) result in
      if type =? SQLITE_TEXT then continue (FillOneRowOfString b statement addedRows i)
      else if type =? SQLITE_INTEGER then continue (FillOneRowOfLong b statement addedRows i)
      else if type =? SQLITE_FLOAT then continue (FillOneRowOfFloat b statement addedRows i)
      else if type =? SQLITE_BLOB then continue (FillOneRowOfBlob b statement addedRows i)
      else if type =? SQLITE_NULL then continue (FillOneRowOfNull b addedRows i)
      else (FILL_ONE_ROW_FAIL, b)
  end.

Definition FillOneRow (b : SharedBlock) (statement : sqlite3_row)
    (numColumns addedRows : Z) : FillOneRowResult * SharedBlock :=
  let '(status, b) := AllocRow b in
  if negb (status =? SHARED_BLOCK_OK) then (SHARED_BLOCK_IS_FULL, b)
  else
    let '(result, b) :=
      FillOneRow_loop (Z.to_nat numColumns) b statement addedRows 0 FILL_ONE_ROW_SUCESS in
    if decide (result = FILL_ONE_ROW_SUCESS) then (result, b)
    else (result, snd (FreeLastRow b)).

(** The fields of [SharedBlockInfo] the fill uses; the statement is passed apart. *)
Record SharedBlockInfo := mkInfo {
  sharedBlock : SharedBlock;
  startPos : Z;
  addedRows : Z;
  requiredPos : Z;
  totalRows : Z;
  isCountAllRows : bool;
  columnNum : Z;
  isFull : bool;
  hasException : bool;
}.

Definition set_block (info : SharedBlockInfo) (b : SharedBlock) (start added : Z)
    : SharedBlockInfo :=
  mkInfo b start added (requiredPos info) (totalRows info) (isCountAllRows info)
    (columnNum info) (isFull info) (hasException info).
Definition set_totalRows (info : SharedBlockInfo) (n : Z) : SharedBlockInfo :=
  mkInfo (sharedBlock info) (startPos info) (addedRows info) (requiredPos info) n
    (isCountAllRows info) (columnNum info) (isFull info) (hasException info).
Definition set_isFull (info : SharedBlockInfo) : SharedBlockInfo :=
  mkInfo (sharedBlock info) (startPos info) (addedRows info) (requiredPos info)
    (totalRows info) (isCountAllRows info) (columnNum info) true (hasException info).
Definition set_hasException (info : SharedBlockInfo) : SharedBlockInfo :=
  mkInfo (sharedBlock info) (startPos info) (addedRows info) (requiredPos info)
    (totalRows info) (isCountAllRows info) (columnNum info) (isFull info) true.

Definition FillRow (info : SharedBlockInfo) (statement : sqlite3_row) : SharedBlockInfo :=
  let '(res, b) := FillOneRow (sharedBlock info) statement (columnNum info) (addedRows info) in
  let '(res, info) :=
    if decide (res = SHARED_BLOCK_IS_FULL) then
      if negb (addedRows info =? 0) && (startPos info + addedRows info <=? requiredPos info)
      then
        let b := snd (Clear b) in
        let b := snd (SetColumnNum b (u32 (columnNum info))) in
        let info := set_block info b (startPos info + addedRows info) 0 in
        let '(res, b) :=
          FillOneRow (sharedBlock info) statement (columnNum info) (addedRows info) in
        (res, set_block info b (startPos info) (addedRows info))
      else (res, set_block info b (startPos info) (addedRows info))
    else (res, set_block info b (startPos info) (addedRows info)) in
  match res with
  | FILL_ONE_ROW_SUCESS =>
      set_block info (sharedBlock info) (startPos info) (addedRows info + 1)
  | SHARED_BLOCK_IS_FULL => set_isFull info
  | FILL_ONE_ROW_FAIL => set_hasException info
  end.

(** What one call of [sqlite3_step] answers. *)
Inductive step :=
| StepRow (row : sqlite3_row)
| StepDone
| StepLockedOrBusy
| StepError.

(** The loop of [FillSharedBlock]; [None] when the given answers end before the
    loop does. *)
Fixpoint FillSharedBlock_loop (steps : list step) (info : SharedBlockInfo)
    (retryCount : Z) (full exception : bool) : option SharedBlockInfo :=
  if negb exception && (negb full || isCountAllRows info) then
    match steps with
    | [] => None
    | StepRow row :: steps =>
        let info := set_totalRows info (totalRows info + 1) in
        if (startPos info >=? totalRows info) || full then
          FillSharedBlock_loop steps info 0 full exception
        else
          let info := FillRow info row in
          FillSharedBlock_loop steps info 0 (isFull info) (hasException info)
    | StepDone :: _ => Some info
    | StepLockedOrBusy :: steps =>
        if retryCount >? RETRY_TIME then
          FillSharedBlock_loop steps info retryCount full true
        else FillSharedBlock_loop steps info (retryCount + 1) full exception
    | StepError :: steps => FillSharedBlock_loop steps info retryCount full true
    end
  else Some info.

Definition FillSharedBlock (steps : list step) (info : SharedBlockInfo)
    : option SharedBlockInfo :=
  let info := set_totalRows (set_block info (sharedBlock info) (startPos info) 0) 0 in
  FillSharedBlock_loop steps info 0 false false.

(** [sqlite3_reset] has no effect on the block; the result says whether rows were
    found but none could be copied. *)
Definition ResetStatement (info : SharedBlockInfo) : bool :=
  if (totalRows info >? 0) && (addedRows info =? 0) then false else true.

Definition GetCombinedData (startPos totalRows : Z) : Z :=
  let high := u64 (u32 startPos) in
  let low := u64 (u32 totalRows) in
  s64 (Z.lor (u64 (Z.shiftl high OFFSET)) low).

(** The part of [SqliteConnection::ExecuteForSharedBlock] after the statement has
    been prepared and bound, on a build of SQLite without the shared-block
    extension. The row count is what the caller gets in [rowNum]. *)
Definition ExecuteForSharedBlock (b : SharedBlock) (columns : Z) (steps : list step)
    (start required : Z) (countAll : bool) : option (sum Z Z * SharedBlock) :=
  let '(status, b) := ClearSharedBlock b in
  if status =? ERROR_STATUS then Some (inl E_ERROR, b)
  else
    let '(status, b) := SharedBlockSetColumnNum b columns in
    if status =? ERROR_STATUS then Some (inl E_ERROR, b)
    else
      let info := mkInfo b start 0 required 0 countAll columns false false in
      match FillSharedBlock steps info with
      | None => None
      | Some info =>
          if negb (ResetStatement info) then Some (inl E_ERROR, sharedBlock info)
          else Some (inr (s32 (GetCombinedData (startPos info) (totalRows info))),
                     sharedBlock info)
      end.
End Fill.

#[global] Arguments FillRow : simpl never.

(** * The serializer given to SQLite's shared-block extension

    Model of shared_block_serializer_info.cpp and of the [Seri*] callbacks of
    share_block.cpp, which only forward to it. *)
Module Serializer.
Section Serializer.
Context `{SecureC}.

Record SharedBlockSerializerInfo := mkSerializer {
  sharedBlock_ : SharedBlock;
  anumColumns : Z;
  atotalRows : Z;
  astartPos : Z;
  raddedRows : Z;
  risFull : bool;
}.

Definition new_serializer (b : SharedBlock) (numColumns startPos : Z)
    : SharedBlockSerializerInfo := mkSerializer b numColumns 0 startPos 0 false.

Definition with_block (s : SharedBlockSerializerInfo) (b : SharedBlock) (full : bool)
    : SharedBlockSerializerInfo :=
  mkSerializer b (anumColumns s) (atotalRows s) (astartPos s) (raddedRows s) full.

Definition AddRow (s : SharedBlockSerializerInfo) (addedRows : Z)
    : Z * SharedBlockSerializerInfo :=
  let '(status, b) := AllocRow (sharedBlock_ s) in
  if negb (status =? SHARED_BLOCK_OK) then (SQLITE_FULL, with_block s b true)
  else (SQLITE_OK,
        mkSerializer b (anumColumns s) (atotalRows s) (astartPos s) (addedRows + 1) (risFull s)).

Definition Reset (s : SharedBlockSerializerInfo) (startPos : Z)
    : Z * SharedBlockSerializerInfo :=
  let '(status, b) := Clear (sharedBlock_ s) in
  if negb (status =? SHARED_BLOCK_OK) then (SQLITE_ERROR, with_block s b (risFull s))
  else
    let '(status, b) := SetColumnNum b (u32 (anumColumns s)) in
    if negb (status =? SHARED_BLOCK_OK) then (SQLITE_ERROR, with_block s b (risFull s))
    else (SQLITE_OK, mkSerializer b (anumColumns s) (atotalRows s) startPos 0 false).

Definition Finish (s : SharedBlockSerializerInfo) (addedRows totalRows : Z)
    : Z * SharedBlockSerializerInfo :=
  (SQLITE_OK,
   mkSerializer (sharedBlock_ s) (anumColumns s) totalRows (astartPos s) addedRows (risFull s)).

(** The common end of the put callbacks: a failed put gives the row back. *)
Definition put_result (s : SharedBlockSerializerInfo) (res : Z * SharedBlock)
    : Z * SharedBlockSerializerInfo :=
  let '(status, b) := res in
  if negb (status =? SHARED_BLOCK_OK) then
    (SQLITE_FULL, with_block s (snd (FreeLastRow b)) true)
  else (SQLITE_OK, with_block s b (risFull s)).

Definition SeriPutString (s : SharedBlockSerializerInfo) (row column : Z)
    (text : list byte) (sizeIncludingNull : Z) : Z * SharedBlockSerializerInfo :=
  put_result s
    (PutString (sharedBlock_ s) (u32 row) (u32 column) text (u64 sizeIncludingNull)).

Definition SeriPutLong (s : SharedBlockSerializerInfo) (row column value : Z)
    : Z * SharedBlockSerializerInfo :=
  put_result s (PutLong (sharedBlock_ s) (u32 row) (u32 column) value).

Definition SeriPutDouble (s : SharedBlockSerializerInfo) (row column value : Z)
    : Z * SharedBlockSerializerInfo :=
  put_result s (PutDouble (sharedBlock_ s) (u32 row) (u32 column) value).

Definition SeriPutBlob (s : SharedBlockSerializerInfo) (row column : Z)
    (blob : list byte) (len : Z) : Z * SharedBlockSerializerInfo :=
  put_result s (PutBlob (sharedBlock_ s) (u32 row) (u32 column) blob (u64 len)).

Definition SeriPutNull (s : SharedBlockSerializerInfo) (row column : Z)
    : Z * SharedBlockSerializerInfo :=
  put_result s (PutNull (sharedBlock_ s) (u32 row) (u32 column)).

Definition PutOther (s : SharedBlockSerializerInfo) : Z * SharedBlockSerializerInfo :=
  (SQLITE_ERROR, with_block s (snd (FreeLastRow (sharedBlock_ s))) (risFull s)).

Definition GetTotalRows (s : SharedBlockSerializerInfo) : Z := atotalRows s.
Definition GetAddedRows (s : SharedBlockSerializerInfo) : Z := raddedRows s.
Definition GetStartPos (s : SharedBlockSerializerInfo) : Z := astartPos s.

(** The callbacks of one [sqlite3_step], in the order the extension makes them. *)
Inductive seri_call :=
| CallAddRow (addedRows : Z)
| CallReset (startPos : Z)
| CallFinish (addedRows totalRows : Z)
| CallPutString (row column : Z) (text : list byte) (size : Z)
| CallPutLong (row column value : Z)
| CallPutDouble (row column value : Z)
| CallPutBlob (row column : Z) (blob : list byte) (len : Z)
| CallPutNull (row column : Z)
| CallPutOther.

Definition run_call (c : seri_call) (s : SharedBlockSerializerInfo)
    : Z * SharedBlockSerializerInfo :=
  match c with
  | CallAddRow n => AddRow s n
  | CallReset p => Reset s p
  | CallFinish a t => Finish s a t
  | CallPutString r c text n => SeriPutString s r c text n
  | CallPutLong r c v => SeriPutLong s r c v
  | CallPutDouble r c v => SeriPutDouble s r c v
  | CallPutBlob r c blob n => SeriPutBlob s r c blob n
  | CallPutNull r c => SeriPutNull s r c
  | CallPutOther => PutOther s
  end.

Definition run_calls (cs : list seri_call) (s : SharedBlockSerializerInfo)
    : SharedBlockSerializerInfo := fold_left (fun s c => snd (run_call c s)) cs s.

Inductive opt_step := OptDone | OptLockedOrBusy | OptOther.

(** The loop of [FillSharedBlockOpt]: every step comes with the callbacks SQLite
    made during it. *)
Fixpoint FillSharedBlockOpt_loop (steps : list (list seri_call * opt_step))
    (s : SharedBlockSerializerInfo) (retryCount : Z) : option SharedBlockSerializerInfo :=
  match steps with
  | [] => None
  | (calls, err) :: steps =>
      let s := run_calls calls s in
      match err with
      | OptDone => Some s
      | OptLockedOrBusy =>
          if retryCount >? RETRY_TIME then Some s
          else FillSharedBlockOpt_loop steps s (retryCount + 1)
      | OptOther => Some s
      end
  end.

(** [numColumns] is the field of [SharedBlockInfo] of that name; [ok] tells whether
    [sqlite3_db_config] accepted the methods. *)
Definition FillSharedBlockOpt (ok : bool) (steps : list (list seri_call * opt_step))
    (info : SharedBlockInfo) (numColumns : Z) : option SharedBlockInfo :=
  if negb ok then Some info
  else
    match FillSharedBlockOpt_loop steps
            (new_serializer (sharedBlock info) numColumns (startPos info)) 0 with
    | None => None
    | Some s =>
        Some (mkInfo (sharedBlock_ s) (GetStartPos s) (GetAddedRows s) (requiredPos info)
                (GetTotalRows s) (isCountAllRows info) (columnNum info) (isFull info)
                (hasException info))
    end.
End Serializer.
End Serializer.
