(* ===== verification/SharedBlockFillSpec.v ===== *)
(** * Correctness of the block fill

    The window property of [FillSharedBlock]: whatever the order of the answers of
    SQLite, the block holds exactly the rows
    [startPos, ..., startPos + addedRows - 1] of the result, in order. *)
From S2P Require Import Prelude Memory SharedBlock SharedBlockRepr SharedBlockProps RdbErrno SharedBlockFill.
From Stdlib Require Import Ascii.

(** A value of a result row, and the cell that holds it (text keeps its
    terminator in the block). *)
Inductive value :=
| VNull
| VLong (v : Z)
| VDouble (bits : Z)
| VText (bs : list byte)
| VBlob (bs : list byte).

Definition cell_of (v : value) : cell :=
  match v with
  | VNull => CNull
  | VLong z => CLong z
  | VDouble z => CDouble z
  | VText bs => CString (bs ++ [zero])
  | VBlob bs => CBlob bs
  end.

(** Documented behaviour of the column functions on a column that holds [v]. *)
Definition column_shows (row : sqlite3_row) (i : Z) (v : value) : Prop :=
  match v with
  | VNull => sqlite3_column_type row i = SQLITE_NULL
  | VLong z => sqlite3_column_type row i = SQLITE_INTEGER /\
      sqlite3_column_int64 row i = z /\ -9223372036854775808 <= z < 9223372036854775808
  | VDouble z => sqlite3_column_type row i = SQLITE_FLOAT /\
      sqlite3_column_double row i = z /\ 0 <= z < 18446744073709551616
  | VText bs => sqlite3_column_type row i = SQLITE_TEXT /\
      sqlite3_column_text row i = Some (bs ++ [zero]) /\
      sqlite3_column_bytes row i = Z.of_nat (length bs) /\
      Z.of_nat (length bs) < 2147483647
  | VBlob bs => sqlite3_column_type row i = SQLITE_BLOB /\
      sqlite3_column_blob row i = bs /\
      sqlite3_column_bytes row i = Z.of_nat (length bs) /\
      Z.of_nat (length bs) < 2147483647
  end.

Definition sqlite_type_of (v : value) : Z :=
  match v with
  | VNull => SQLITE_NULL
  | VLong _ => SQLITE_INTEGER
  | VDouble _ => SQLITE_FLOAT
  | VText _ => SQLITE_TEXT
  | VBlob _ => SQLITE_BLOB
  end.

Definition row_shows (n : nat) (row : sqlite3_row) (vals : list value) : Prop :=
  length vals = n /\ forall i v, vals !! i = Some v -> column_shows row (Z.of_nat i) v.

Definition tbl_snoc (t : table) (row : list cell) : table :=
  mkTable (cols t) (rows t ++ [row]).

Lemma tbl_set_snoc t row c x :
  tbl_set (tbl_snoc t row) (length (rows t)) c x = tbl_snoc t (<[c := x]> row).
Proof.
  unfold tbl_set, tbl_snoc. simpl. f_equal.
  rewrite <- (Nat.add_0_r (length (rows t))). by rewrite alter_app_r.
Qed.

Lemma tbl_free_snoc t row : tbl_free_last (tbl_snoc t row) = t.
Proof.
  unfold tbl_free_last, tbl_snoc. simpl. rewrite length_app. simpl.
  rewrite Nat.add_sub, take_app_length. by destruct t.
Qed.

Lemma repr_cols_max b t : repr b t -> Z.of_nat (cols t) <= 32767.
Proof. intros (_ & _ & own & gs & C). apply (c_colmax _ _ _ _ C). Qed.

Section FillSpec.
Context `{SecureC}.

(** Outcome of a fill step on the new last row: written, or full and untouched. *)
Definition fill_ok (t : table) (row0 row1 : list cell)
    (res : FillOneRowResult * SharedBlock) : Prop :=
  (fst res = FILL_ONE_ROW_SUCESS /\ repr (snd res) (tbl_snoc t row1)) \/
  (fst res = SHARED_BLOCK_IS_FULL /\ repr (snd res) (tbl_snoc t row0)).

(** The helper [FillOneRow] calls for a column that holds [v]. *)
Definition fill_column (b : SharedBlock) (row : sqlite3_row) (r c : Z) (v : value)
    : FillOneRowResult * SharedBlock :=
  match v with
  | VNull => FillOneRowOfNull b r c
  | VLong _ => FillOneRowOfLong b row r c
  | VDouble _ => FillOneRowOfFloat b row r c
  | VText _ => FillOneRowOfString b row r c
  | VBlob _ => FillOneRowOfBlob b row r c
  end.

Lemma fill_column_spec b t row0 row i v :
  repr b (tbl_snoc t row0) -> (i < cols t)%nat -> column_shows row (Z.of_nat i) v ->
  fill_ok t row0 (<[i := cell_of v]> row0)
    (fill_column b row (Z.of_nat (length (rows t))) (Z.of_nat i) v).
Proof.
  intros HR Hi Hv.
  
  pose proof (repr_cols_max _ _ HR) as Hcm. simpl in Hcm.
  assert (Hr : u32 (Z.of_nat (length (rows t))) = Z.of_nat (length (rows t))).
  { apply u32_small. destruct HR as (_ & Hn & _). simpl in Hn. rewrite length_app in Hn.
    pose proof (get32_range b 8). unfold rowNums in Hn. simpl in Hn. lia. }
  assert (Hc : u32 (Z.of_nat i) = Z.of_nat i) by (apply u32_small; lia).
  assert (Hin : in_range (tbl_snoc t row0) (length (rows t)) i).
  { split; simpl; rewrite ?length_app; simpl; lia. }
  unfold fill_ok. rewrite <- tbl_set_snoc.
  destruct v; simpl in Hv; simpl fill_column.
  - unfold FillOneRowOfNull. rewrite Hr, Hc.
    destruct (PutNull_spec _ _ _ _ HR Hin) as (b' & -> & HR'). by left.
  - destruct Hv as (_ & Hval & Hrange). unfold FillOneRowOfLong. rewrite Hr, Hc, Hval.
    destruct (PutLong_spec _ _ _ _ v HR Hin Hrange) as (b' & -> & HR'). by left.
  - destruct Hv as (_ & Hval & Hrange). unfold FillOneRowOfFloat. rewrite Hr, Hc, Hval.
    destruct (PutDouble_spec _ _ _ _ bits HR Hin Hrange) as (b' & -> & HR'). by left.
  - destruct Hv as (_ & Htext & Hlen & Hmax). unfold FillOneRowOfString.
    rewrite Htext, Hr, Hc, Hlen, u64_small by lia.
    replace (Z.of_nat (length bs) + 1) with (Z.of_nat (length (bs ++ [zero])))
      by (rewrite length_app; simpl; lia).
    destruct (PutString b _ _ _ _) as [ret b'] eqn:E.
    apply (PutString_spec _ _ _ _ _ _ _ HR Hin) in E; [|rewrite length_app; simpl; lia].
    destruct E as [[-> HR']|[-> HR']]; [by left|by right].
  - destruct Hv as (_ & Hblob & Hlen & Hmax). unfold FillOneRowOfBlob.
    rewrite Hblob, Hr, Hc, Hlen, u64_small by lia.
    destruct (PutBlob b _ _ _ _) as [ret b'] eqn:E.
    apply (PutBlob_spec _ _ _ _ _ _ _ HR Hin) in E; [|lia].
    destruct E as [[-> HR']|[-> HR']]; [by left|by right].
Qed.

(** The column loop completes the row, or stops full with a partial row. *)
Lemma FillOneRow_loop_spec k b t row0 row vals i :
  repr b (tbl_snoc t row0) -> row_shows (cols t) row vals ->
  (i + k = cols t)%nat -> length row0 = cols t ->
  (forall j, (j < i)%nat -> row0 !! j = (cell_of <$> vals) !! j) ->
  exists row1, fill_ok t row1 (cell_of <$> vals)
    (FillOneRow_loop k b row (Z.of_nat (length (rows t))) (Z.of_nat i) FILL_ONE_ROW_SUCESS).
Proof.
  intros HR [Hlen Hshow]. revert b row0 i HR.
  induction k as [|k IH]; intros b row0 i HR Hk Hl0 Hpre; simpl.
  { exists row0. left. split; [done|].
    assert (row0 = cell_of <$> vals) as <-; [|done].
    apply list_eq_same_length with (cols t); [by rewrite length_fmap|done|].
    intros j x y Hj Hx Hy. rewrite Hpre in Hx by lia. congruence. }
  destruct (lookup_lt_is_Some_2 vals i) as [v Hv]; [lia|].
  specialize (Hshow i v Hv). pose proof (fill_column_spec b t row0 row i v HR ltac:(lia) Hshow) as Hcol.
  assert (Hnext : forall res, fill_ok t row0 (<[i := cell_of v]> row0) res ->
    exists row1, fill_ok t row1 (cell_of <$> vals)
      (let '(result, b) := res in
       if decide (result = SHARED_BLOCK_IS_FULL) then (result, b)
       else FillOneRow_loop k b row (Z.of_nat (length (rows t))) (Z.of_nat i + 1) result)).
  { intros [res b'] [[Hres HR']|[Hres HR']]; simpl in Hres, HR'; subst res.
    - rewrite decide_False by done. replace (Z.of_nat i + 1) with (Z.of_nat (S i)) by lia.
      apply (IH b' _ (S i) HR'); [lia|by rewrite length_insert|].
      intros j Hj. rewrite list_lookup_fmap. destruct (decide (j = i)) as [->|Hne].
      + rewrite list_lookup_insert_eq by lia. by rewrite Hv.
      + rewrite list_lookup_insert_ne by done. rewrite Hpre by lia. apply list_lookup_fmap.
    - rewrite decide_True by done. exists row0. by right. }
  assert (Hty : sqlite3_column_type row (Z.of_nat i) = sqlite_type_of v)
    by (destruct v; simpl in Hshow; [done|by destruct Hshow..]).
  rewrite Hty. destruct v; simpl in *; by apply Hnext.
Qed.

(** [FillOneRow] appends the row, or reports a full block and leaves the table. *)
Lemma FillOneRow_spec b t row vals res b' :
  repr b t -> (0 < cols t)%nat -> row_shows (cols t) row vals ->
  FillOneRow b row (Z.of_nat (cols t)) (Z.of_nat (length (rows t))) = (res, b') ->
  (res = FILL_ONE_ROW_SUCESS /\ repr b' (tbl_snoc t (cell_of <$> vals))) \/
  (res = SHARED_BLOCK_IS_FULL /\ repr b' t).
Proof.
  intros HR Hc Hrow. unfold FillOneRow. destruct (AllocRow b) as [status b1] eqn:Ea.
  destruct (AllocRow_spec b t status b1 HR Hc Ea) as [[-> HR1]|[-> HR1]]; simpl.
  2: { intros [= <- <-]. by right. }
  destruct (FillOneRow_loop_spec (cols t) b1 t (replicate (cols t) CNull) row vals 0)
    as [row1 Hloop]; try done; [apply length_replicate|lia|].
  rewrite Nat2Z.id. simpl Z.of_nat in Hloop.
  destruct (FillOneRow_loop _ _ _ _ _ _) as [res1 b2].
  destruct Hloop as [[Hres HR2]|[Hres HR2]]; simpl in Hres, HR2; subst res1.
  - rewrite decide_True by done. intros [= <- <-]. by left.
  - rewrite decide_False by done. intros [= <- <-]. right. split; [done|].
    destruct (FreeLastRow_spec b2 _ HR2) as (b3 & -> & HR3). simpl.
    by rewrite tbl_free_snoc in HR3.
Qed.

(** ** The window of rows *)

Definition rows_of (rs : list (list value)) : list (list cell) :=
  (fun vals : list value => cell_of <$> vals) <$> rs.

(** The block holds the rows [startPos, startPos + addedRows) of the result [rs]. *)
Definition window (n : nat) (rs : list (list value)) (info : SharedBlockInfo) : Prop :=
  0 <= startPos info /\ columnNum info = Z.of_nat n /\ (0 < n)%nat /\
  exists k, addedRows info = Z.of_nat k /\
    (k = 0 \/ Z.to_nat (startPos info) + k <= length rs)%nat /\
    repr (sharedBlock info)
      (mkTable n (rows_of (take k (drop (Z.to_nat (startPos info)) rs)))).

Lemma mk_window n rs info k :
  0 <= startPos info -> columnNum info = Z.of_nat n -> (0 < n)%nat ->
  addedRows info = Z.of_nat k ->
  (k = 0 \/ Z.to_nat (startPos info) + k <= length rs)%nat ->
  repr (sharedBlock info)
    (mkTable n (rows_of (take k (drop (Z.to_nat (startPos info)) rs)))) ->
  window n rs info.
Proof. intros. split_and!; eauto. Qed.

Lemma window_rows_length rs start k :
  (k = 0 \/ start + k <= length rs)%nat ->
  length (rows_of (take k (drop start rs))) = k.
Proof.
  intros Hk. unfold rows_of. rewrite length_fmap, length_take, length_drop. lia.
Qed.

(** The row behind the window extends it. *)
Lemma window_snoc n rs start k vals :
  (k = 0 \/ start + k <= length rs)%nat -> rs !! (start + k)%nat = Some vals ->
  tbl_snoc (mkTable n (rows_of (take k (drop start rs)))) (cell_of <$> vals)
  = mkTable n (rows_of (take (S k) (drop start rs))).
Proof.
  intros Hk Hv. unfold tbl_snoc, rows_of. simpl. f_equal.
  rewrite (take_S_r _ k vals) by (by rewrite lookup_drop). by rewrite fmap_app.
Qed.

(** Refilling an emptied block from the current row on. *)
Lemma refill_repr b t n :
  repr b t -> (0 < n)%nat -> Z.of_nat n <= 32767 ->
  repr (snd (SetColumnNum (snd (Clear b)) (u32 (Z.of_nat n)))) (mkTable n []).
Proof.
  intros HR H0 Hn. rewrite u32_small by lia.
  apply (start_block_spec b n); [by eapply repr_block_ok|done].
Qed.

(** What [FillRow] does to the window when the current row is the one behind it. *)
Lemma FillRow_spec n rs info row vals :
  window n rs info -> isFull info = false -> hasException info = false ->
  row_shows n row vals ->
  rs !! Z.to_nat (startPos info + addedRows info) = Some vals ->
  let info' := FillRow info row in
  window n rs info' /\ hasException info' = false /\
  totalRows info' = totalRows info /\ requiredPos info' = requiredPos info /\
  isCountAllRows info' = isCountAllRows info /\
  startPos info <= startPos info' /\
  startPos info' + addedRows info'
    = startPos info + addedRows info + (if isFull info' then 0 else 1) /\
  (isFull info' = true ->
     addedRows info' = 0 \/ requiredPos info < startPos info' + addedRows info').
Proof.
  intros (Hs & Hcn & Hn & k & Hk & Hkr & HR) Hf He Hrow Hv. unfold FillRow.
  rewrite Hcn, Hk in *. replace (Z.to_nat (startPos info + Z.of_nat k))
    with (Z.to_nat (startPos info) + k)%nat in Hv by lia.
  set (t := mkTable n _) in HR.
  assert (Hkt : length (rows t) = k) by (by apply window_rows_length).
  destruct (FillOneRow (sharedBlock info) row (Z.of_nat n) (Z.of_nat k)) as [res b1] eqn:E1.
  rewrite <- Hkt in E1. change n with (cols t) in E1 at 1.
  pose proof (repr_cols_max _ _ HR) as Hmax. simpl in Hmax.
  apply (FillOneRow_spec _ t _ vals) in E1 as [[-> HR1]|[-> HR1]]; try done.
  { rewrite decide_False by done. simpl. rewrite Hf. split_and!; try done; try lia.
    unfold t in HR1. rewrite window_snoc in HR1 by done. apply lookup_lt_Some in Hv.
    apply (mk_window n rs _ (S k)); simpl; try done; lia. }
  rewrite decide_True by done.
  destruct (negb (Z.of_nat k =? 0) && _)%bool eqn:Ec; simpl; rewrite ?Hcn.
  - to_prop. destruct (FillOneRow _ row (Z.of_nat n) 0) as [res b2] eqn:E2.
    pose proof (refill_repr b1 t n HR1 Hn Hmax) as HR2.
    change n with (cols (mkTable n [])) in E2 at 2.
    change 0 with (Z.of_nat (length (rows (mkTable n [])))) in E2.
    apply (FillOneRow_spec _ _ _ vals) in E2 as [[-> HR3]|[-> HR3]]; try done; simpl;
      rewrite ?Hf; split_and!; try done; try lia.
    + apply lookup_lt_Some in Hv as Hlt.
      apply (mk_window n rs _ 1); simpl; try done; try lia.
      replace (Z.to_nat (startPos info + Z.of_nat k))
        with (Z.to_nat (startPos info) + k)%nat by lia.
      rewrite <- (window_snoc n rs (Z.to_nat (startPos info) + k) 0 vals);
        [done|by left|by rewrite Nat.add_0_r].
    + apply (mk_window n rs _ 0); simpl; try done; lia.
  - rewrite ?Hf. apply andb_false_iff in Ec.
    split_and!; try done; [by apply (mk_window n rs _ k)|lia|].
    intros _. destruct Ec; to_prop; lia.
Qed.

(** The answers of [sqlite3_step] deliver the rows [rs]: rows in order, locked or
    busy answers no more than the loop retries, then [SQLITE_DONE]. *)
Inductive delivers (n : nat) : Z -> list step -> list (list value) -> Prop :=
| deliver_done retry steps : delivers n retry (StepDone :: steps) []
| deliver_row retry row vals steps rs :
    row_shows n row vals -> delivers n 0 steps rs ->
    delivers n retry (StepRow row :: steps) (vals :: rs)
| deliver_busy retry steps rs :
    retry <= RETRY_TIME -> delivers n (retry + 1) steps rs ->
    delivers n retry (StepLockedOrBusy :: steps) rs.

(** State of the loop after [done] rows: before the window, at its end, or full. *)
Definition loop_inv (n : nat) (rs : list (list value)) (done : nat)
    (info : SharedBlockInfo) : Prop :=
  window n rs info /\ hasException info = false /\ totalRows info = Z.of_nat done /\
  (done <= length rs)%nat /\
  (if isFull info
   then startPos info + addedRows info <= Z.of_nat done /\
        (addedRows info = 0 \/ requiredPos info < startPos info + addedRows info)
   else addedRows info = 0 /\ Z.of_nat done <= startPos info \/
        startPos info + addedRows info = Z.of_nat done).

Lemma loop_row n rs info row vals done :
  loop_inv n rs done info -> isFull info = false -> rs !! done = Some vals ->
  row_shows n row vals -> (startPos info >=? Z.of_nat done + 1) = false ->
  let info' := FillRow (set_totalRows info (totalRows info + 1)) row in
  loop_inv n rs (S done) info' /\ requiredPos info' = requiredPos info /\
  isCountAllRows info' = isCountAllRows info /\ startPos info <= startPos info'.
Proof.
  intros (Hw & He & Ht & Hlen & Hpos) Hf Hv Hrow Hge. rewrite Hf in Hpos.
  rewrite Z.geb_leb in Hge. apply Z.leb_gt in Hge.
  assert (Hend : startPos info + addedRows info = Z.of_nat done) by lia.
  destruct (FillRow_spec n rs (set_totalRows info (totalRows info + 1)) row vals)
    as (Hw' & He' & Ht' & Hr' & Hc' & Hs' & Hend' & Hfull); try done.
  { by simpl; rewrite Hend, Nat2Z.id. }
  simpl in *. split_and!; try done. unfold loop_inv. split_and!; try done.
  - rewrite Ht'. lia.
  - by apply lookup_lt_Some in Hv.
  - rewrite Hr'. destruct (isFull (FillRow _ row)); [split; [lia|]; by apply Hfull|lia].
Qed.

Lemma FillSharedBlock_loop_spec n rs steps rest done info retry :
  delivers n retry steps rest -> rs = take done rs ++ rest -> loop_inv n rs done info ->
  exists info', FillSharedBlock_loop steps info retry (isFull info) false = Some info' /\
    (exists done', loop_inv n rs done' info' /\
       (isFull info' = false \/ isCountAllRows info = true -> done' = length rs)) /\
    requiredPos info' = requiredPos info /\ startPos info <= startPos info'.
Proof.
  intros Hd. revert done info. induction Hd as [retry steps|retry row vals steps rest Hrow _ IH
    |retry steps rest Hretry _ IH]; intros done info Hrs Hinv.
  all: pose proof Hinv as (Hw & He & Ht & Hlen & Hpos).
  all: destruct (isFull info && negb (isCountAllRows info))%bool eqn:Estop;
    [apply andb_prop in Estop as [Ef Ec]; rewrite negb_true_iff in Ec;
     cbn [FillSharedBlock_loop]; rewrite Ef, Ec; simpl;
     exists info; split; [done|]; split; [|done]; exists done; split; [done|];
     rewrite ?Ef, ?Ec; by intros [|] |].
  all: assert (Hgo : (negb false && (negb (isFull info) || isCountAllRows info))%bool = true)
    by (by destruct (isFull info), (isCountAllRows info)).
  all: cbn [FillSharedBlock_loop]; rewrite Hgo.
  - exists info. split; [done|]. split; [|done]. exists done. split; [done|]. intros _.
    rewrite Hrs, app_nil_r, length_take. lia.
  - assert (Hv : rs !! done = Some vals).
    { rewrite Hrs, lookup_app_r, length_take by (rewrite length_take; lia).
      by replace (done - min done (length rs))%nat with 0%nat by lia. }
    assert (Hrs' : rs = take (S done) rs ++ rest).
    { rewrite (take_S_r _ _ _ Hv), <- app_assoc. done. }
    cbv zeta. simpl startPos. simpl totalRows. rewrite Ht.
    destruct ((startPos info >=? Z.of_nat done + 1) || isFull info)%bool eqn:Eskip.
    + destruct (IH (S done) (set_totalRows info (totalRows info + 1)) Hrs') as
        (info' & Hl & Hd' & Hr' & Hs').
      { pose proof (lookup_lt_Some _ _ _ Hv). split_and!; simpl; try done; try lia.
        destruct (isFull info); [lia|].
        apply orb_true_iff in Eskip as [Eskip|]; [|done]. rewrite Z.geb_leb in Eskip.
        destruct Hw as (_ & _ & _ & k & Hk & _). zlia. }
      rewrite Ht in Hl. simpl in Hl. eauto.
    + apply orb_false_elim in Eskip as [Eskip Ef].
      destruct (loop_row n rs info row vals done) as (Hinv' & Hr' & Hc' & Hs'); try done.
      rewrite Ht in Hinv', Hr', Hc', Hs'.
      set (info1 := FillRow (set_totalRows info (Z.of_nat done + 1)) row) in *.
      destruct (IH (S done) info1 Hrs' Hinv') as (info' & Hl & Hd' & Hr'' & Hs'').
      pose proof Hinv' as (_ & He' & _). rewrite He'.
      exists info'. split_and!; [done| |congruence|lia]. by rewrite <- Hc'.
  - rewrite Z.gtb_ltb, (proj2 (Z.ltb_ge _ _)) by done. by apply (IH done).
Qed.

(** The state a fill leaves: a window of the result, how it ended and the count. *)
Definition filled (n : nat) (rs : list (list value)) (start required : Z) (countAll : bool)
    (info : SharedBlockInfo) : Prop :=
  window n rs info /\ hasException info = false /\ start <= startPos info /\
  (isFull info = false ->
     startPos info + addedRows info = Z.max (startPos info) (Z.of_nat (length rs))) /\
  (isFull info = true -> addedRows info = 0 \/ required < startPos info + addedRows info) /\
  (isFull info = false \/ countAll = true -> totalRows info = Z.of_nat (length rs)).

Lemma fill_window n rs steps b start required countAll :
  repr b (tbl_empty n) -> (0 < n)%nat -> 0 <= start -> delivers n 0 steps rs ->
  exists info,
    FillSharedBlock steps (mkInfo b start 0 required 0 countAll (Z.of_nat n) false false)
      = Some info /\ filled n rs start required countAll info.
Proof.
  intros HR Hn Hs Hd. unfold FillSharedBlock. cbv zeta. set (info0 := set_totalRows _ 0).
  destruct (FillSharedBlock_loop_spec n rs steps rs 0 info0 0 Hd)
    as (info & Hl & (count & (Hw & He & Ht & Hlen & Hpos) & Hall) & Hr & Hst).
  { by rewrite take_0. }
  { unfold loop_inv. split_and!; simpl; try done; [|lia|by left].
    apply (mk_window n rs _ 0); simpl; try done. by left. }
  exists info. simpl in Hl, Hr, Hst, Hall. pose proof Hw as (Hs' & _ & _ & k & Hk & Hkr & HR').
  split; [done|]. unfold filled. split_and!; try done.
  - intros Hf. rewrite Hf in Hpos. rewrite (Hall (or_introl Hf)) in Hpos. lia.
  - intros Hf. rewrite Hf in Hpos. simpl in Hr. rewrite Hr in Hpos. by destruct Hpos.
  - intros Hc. by rewrite Ht, (Hall Hc).
Qed.

Lemma window_row_num n rs info : window n rs info -> GetRowNum (sharedBlock info) = addedRows info.
Proof.
  intros (_ & _ & _ & k & Hk & Hkr & HR). rewrite Hk. destruct HR as (_ & Hrn & _).
  simpl in Hrn. by rewrite window_rows_length in Hrn.
Qed.

Lemma window_cell n rs info r c :
  window n rs info -> Z.of_nat r < addedRows info ->
  read_cell (sharedBlock info) (Z.of_nat r) (Z.of_nat c) =
    vals ← rs !! (Z.to_nat (startPos info) + r)%nat; cell_of <$> vals !! c.
Proof.
  intros (_ & _ & _ & k & Hk & Hkr & HR) Hlt. rewrite (read_cell_spec _ _ r c HR).
  unfold tbl_get, rows_of. simpl. rewrite list_lookup_fmap, lookup_take_lt, lookup_drop by lia.
  destruct (rs !! _) as [vals|]; simpl; [|done]. apply list_lookup_fmap.
Qed.

(** C3: Window correctness of [FillSharedBlock]: started on a block of [n] columns with
    [startPos >= 0], and for every sequence of answers of SQLite that delivers the
    rows [rs] (with locked or busy answers within the retry bound), the fill
    terminates without exception; the block then holds exactly the rows
    [startPos' .. startPos' + addedRows - 1] of [rs], cell by cell; unless the
    block is full every row from [startPos'] on is in it, and when it is full it
    reaches the required position or a single row does not fit; the total row count
    is exact when the block is not full or all rows are counted. *)
Theorem FillSharedBlock_window n rs steps b start required countAll :
  block_ok b -> (0 < n)%nat -> Z.of_nat n <= COL_MAX_NUM -> 0 <= start ->
  delivers n 0 steps rs ->
  exists info,
    FillSharedBlock steps
      (mkInfo (start_block b n) start 0 required 0 countAll (Z.of_nat n) false false)
      = Some info /\
    hasException info = false /\ start <= startPos info /\
    GetRowNum (sharedBlock info) = addedRows info /\
    (forall r c, Z.of_nat r < addedRows info ->
       read_cell (sharedBlock info) (Z.of_nat r) (Z.of_nat c) =
         vals ← rs !! (Z.to_nat (startPos info) + r)%nat; cell_of <$> vals !! c) /\
    (isFull info = false ->
       startPos info + addedRows info = Z.max (startPos info) (Z.of_nat (length rs))) /\
    (isFull info = true ->
       addedRows info = 0 \/ required < startPos info + addedRows info) /\
    (isFull info = false \/ countAll = true -> totalRows info = Z.of_nat (length rs)).
Proof.
  intros Hb Hn Hmax Hs Hd.
  destruct (fill_window n rs steps (start_block b n) start required countAll)
    as (info & E & Hw & He & Hst & Hf1 & Hf2 & Ht); try done; [by apply start_block_spec|].
  exists info. split_and!; try done; [by eapply window_row_num|].
  intros r c. by apply (window_cell n).
Qed.

(** The connection's fill of a block: the row count it reports and the window it
    leaves, or an error when there are rows of which none fits. *)
Lemma ExecuteForSharedBlock_spec n rs steps b start required countAll :
  block_ok b -> (0 < n)%nat -> Z.of_nat n <= COL_MAX_NUM -> 0 <= start ->
  Z.of_nat (length rs) < 2147483648 -> delivers n 0 steps rs ->
  exists info,
    filled n rs start required countAll info /\
    ExecuteForSharedBlock b (Z.of_nat n) steps start required countAll =
      Some (if (totalRows info >? 0) && (addedRows info =? 0) then inl E_ERROR
            else inr (s32 (GetCombinedData (startPos info) (totalRows info))),
            sharedBlock info).
Proof.
  intros Hb Hn Hmax Hs Hlen Hd.
  destruct (fill_window n rs steps (start_block b n) start required countAll)
    as (info & E & Hf); try done; [by apply start_block_spec|].
  exists info. split; [done|]. unfold ExecuteForSharedBlock, ClearSharedBlock.
  destruct (Clear_spec b Hb) as (b1 & Eb & HR1 & _). rewrite Eb. simpl.
  unfold SharedBlockSetColumnNum, COL_MAX_NUM in *. rewrite u32_small by lia.
  unfold start_block in E. rewrite Eb in E. simpl in E.
  destruct (SetColumnNum_fresh b1 n HR1 Hmax) as (b2 & Es & _). rewrite Es in *. simpl in *.
  rewrite E. unfold ResetStatement. by destruct ((totalRows info >? 0) && (addedRows info =? 0)).
Qed.
End FillSpec.

(** The rows of a SQLite result as the column functions show them. *)
Definition show_row (vals : list value) : sqlite3_row := {|
  sqlite3_column_type i := sqlite_type_of (default VNull (vals !! Z.to_nat i));
  sqlite3_column_text i :=
    match vals !! Z.to_nat i with Some (VText bs) => Some (bs ++ [zero]) | _ => None end;
  sqlite3_column_bytes i :=
    match vals !! Z.to_nat i with
    | Some (VText bs) | Some (VBlob bs) => Z.of_nat (length bs)
    | _ => 0
    end;
  sqlite3_column_int64 i :=
    match vals !! Z.to_nat i with Some (VLong v) => v | _ => 0 end;
  sqlite3_column_double i :=
    match vals !! Z.to_nat i with Some (VDouble v) => v | _ => 0 end;
  sqlite3_column_blob i :=
    match vals !! Z.to_nat i with Some (VBlob bs) => bs | _ => [] end;
|}.

Definition demo_row (k : Z) : list value := [VLong k; VText (bytes "row")].
Definition demo_steps : list step :=
  [StepRow (show_row (demo_row 1)); StepLockedOrBusy; StepRow (show_row (demo_row 2));
   StepRow (show_row (demo_row 3)); StepDone].

Lemma demo_row_shows k : -100 <= k <= 100 -> row_shows 2 (show_row (demo_row k)) (demo_row k).
Proof.
  intros Hk. split; [done|]. intros [|[|i]] v Hv; simplify_eq/=; split_and!; try done; lia.
Defined.

Lemma FillSharedBlock_window_witness :
  exists info,
    FillSharedBlock demo_steps
      (mkInfo (start_block block4k 2) 1 0 1 0 true (Z.of_nat 2) false false) = Some info /\
    hasException info = false /\ 1 <= startPos info /\
    GetRowNum (sharedBlock info) = addedRows info /\
    (forall r c, Z.of_nat r < addedRows info ->
       read_cell (sharedBlock info) (Z.of_nat r) (Z.of_nat c) =
         vals ← [demo_row 1; demo_row 2; demo_row 3] !! (Z.to_nat (startPos info) + r)%nat;
         cell_of <$> vals !! c) /\
    (isFull info = false -> startPos info + addedRows info = Z.max (startPos info) 3) /\
    (isFull info = true -> addedRows info = 0 \/ 1 < startPos info + addedRows info) /\
    (isFull info = false \/ true = true -> totalRows info = 3).
Proof.
  apply (FillSharedBlock_window 2 [demo_row 1; demo_row 2; demo_row 3] demo_steps block4k
           1 1 true block4k_ok); [lia|done|lia|].
  apply deliver_row; [apply demo_row_shows; lia|].
  apply deliver_busy; [done|]. apply deliver_row; [apply demo_row_shows; lia|].
  apply deliver_row; [apply demo_row_shows; lia|]. apply deliver_done.
Defined.

(** A block of 500 bytes: the fill keeps the window at the required position. *)
Example fill_slides :
  let b := mkSharedBlock "db" 500 false ∅ in
  match FillSharedBlock demo_steps
    (mkInfo (start_block b 2) 0 0 2 0 true 2 false false) with
  | Some info => (startPos info, addedRows info, totalRows info, isFull info)
  | None => (0, 0, 0, true)
  end = (2, 1, 3, false).
Proof. vm_compute. reflexivity. Qed.

(** ** The serializer *)
Section SerializerSpec.
Context `{SecureC}.
Import Serializer.

(** A rejected put gives the row back, so the serializer never leaves a
    half-written row counted. *)
Lemma put_result_spec s t res :
  (fst res = SHARED_BLOCK_OK \/ fst res <> SHARED_BLOCK_OK /\ repr (snd res) t) ->
  fst (put_result s res) = SQLITE_OK \/
  (fst (put_result s res) = SQLITE_FULL /\ risFull (snd (put_result s res)) = true /\
   repr (sharedBlock_ (snd (put_result s res))) (tbl_free_last t)).
Proof.
  destruct res as [status b]. simpl. intros [->|[Hne HR]]; [by left|right].
  rewrite (proj2 (Z.eqb_neq status SHARED_BLOCK_OK)) by done. simpl.
  destruct (FreeLastRow_spec b t HR) as (b' & -> & HR'). done.
Qed.

(** The fill through SQLite's shared-block extension loses the columns:
    [FillSharedBlockOpt] builds the serializer with [SharedBlockInfo::numColumns],
    which [ExecuteForSharedBlock] leaves at 0 (it sets [columnNum]); after the
    first [Reset] callback the block has no columns and every put of a later row is
    rejected with [SQLITE_FULL]. *)
Theorem seri_reset_loses_columns s pos row column v :
  block_ok (sharedBlock_ s) -> anumColumns s = 0 ->
  let s' := snd (Reset s pos) in
  fst (Reset s pos) = SQLITE_OK /\ GetColumnNum (sharedBlock_ s') = 0 /\
  fst (SeriPutLong s' row column v) = SQLITE_FULL /\
  fst (SeriPutNull s' row column) = SQLITE_FULL.
Proof.
  intros Hb Hn. cbv zeta. unfold Reset. rewrite Hn.
  destruct (Clear_spec (sharedBlock_ s) Hb) as (b1 & -> & HR & _). simpl.
  change (u32 0) with (Z.of_nat 0).
  destruct (SetColumnNum b1 (Z.of_nat 0)) as [ret b2] eqn:E.
  apply (SetColumnNum_spec b1 _ 0 ret b2 HR) in E
    as [(-> & HR2 & _)|(_ & _ & [Hbad|Hbad])]; [|done|done]. simpl in HR2. simpl.
  destruct HR2 as (Hro & Hr & own & gs & C).
  assert (Hcell : forall r c, GetCellUnit b2 (u32 r) (u32 c) = None).
  { intros r c. unfold GetCellUnit. rewrite Hr. simpl. rewrite Z.geb_leb.
    rewrite (proj2 (Z.leb_le (Z.of_nat 0) (u32 r))); [done|]. pose proof (u32_range r). lia. }
  split; [done|]. split; [apply (c_cols _ _ _ _ C)|].
  unfold SeriPutLong, SeriPutNull, PutLong, PutNull. simpl. by rewrite Hro, Hcell.
Qed.
End SerializerSpec.

Lemma seri_reset_loses_columns_witness :
  let s := Serializer.new_serializer (start_block block4k 2) 0 0 in
  let s' := snd (Serializer.Reset s 5) in
  fst (Serializer.Reset s 5) = SQLITE_OK /\ GetColumnNum (Serializer.sharedBlock_ s') = 0 /\
  fst (Serializer.SeriPutLong s' 0 0 42) = SQLITE_FULL /\
  fst (Serializer.SeriPutNull s' 0 0) = SQLITE_FULL.
Proof.
  apply (seri_reset_loses_columns
           (Serializer.new_serializer (start_block block4k 2) 0 0) 5 0 0 42); [|done].
  eapply repr_block_ok. by apply (start_block_spec block4k 2 block4k_ok).
Defined.
