(* ===== verification/ValueObject.v ===== *)
(** * Values

    Model of frameworks/native/rdb/src/value_object.cpp. A [ValueObject] is a type
    tag next to a [std::variant]; the tag selects the alternative the getters
    read. A [double] is its 64-bit pattern. *)
From S2P Require Import Prelude Memory RdbErrno Parcel.

Inductive ValueObjectType :=
| TYPE_NULL | TYPE_INT | TYPE_DOUBLE | TYPE_STRING | TYPE_BLOB | TYPE_BOOL.

#[global] Instance ValueObjectType_eq_dec : EqDecision ValueObjectType.
Proof. solve_decision. Defined.

Definition type_code (t : ValueObjectType) : Z :=
  match t with
  | TYPE_NULL => 0 | TYPE_INT => 1 | TYPE_DOUBLE => 2
  | TYPE_STRING => 3 | TYPE_BLOB => 4 | TYPE_BOOL => 5
  end.

Inductive variant :=
| VInt64 (z : Z)
| VDouble (bits : Z)
| VString (s : string)
| VBool (b : bool)
| VBlob (l : list byte).

#[global] Instance variant_eq_dec : EqDecision variant.
Proof. solve_decision. Defined.

Record ValueObject := mkValueObject { type : ValueObjectType; value : variant }.

#[global] Instance ValueObject_eq_dec : EqDecision ValueObject.
Proof. solve_decision. Defined.

(** ** Constructors; the default one leaves the variant at its first alternative. *)
Definition ValueObject_null : ValueObject := mkValueObject TYPE_NULL (VInt64 0).
Definition ValueObject_int (val : Z) : ValueObject := mkValueObject TYPE_INT (VInt64 val).
Definition ValueObject_long (val : Z) : ValueObject := mkValueObject TYPE_INT (VInt64 val).
Definition ValueObject_double (val : Z) : ValueObject := mkValueObject TYPE_DOUBLE (VDouble val).
Definition ValueObject_bool (val : bool) : ValueObject := mkValueObject TYPE_BOOL (VBool val).
Definition ValueObject_string (val : string) : ValueObject :=
  mkValueObject TYPE_STRING (VString val).
Definition ValueObject_blob (val : list byte) : ValueObject :=
  mkValueObject TYPE_BLOB (VBlob val).

(** Moving from an object: the new object and what is left of the old one, whose
    tag becomes null and whose variant holds some [residue]. *)
Definition ValueObject_move (o : ValueObject) (residue : variant)
    : ValueObject * ValueObject :=
  (mkValueObject (type o) (value o), mkValueObject TYPE_NULL residue).

(** ** Getters; [std::get] throws when the variant holds another alternative. *)
Definition GetType (o : ValueObject) : ValueObjectType := type o.

Definition GetLong (o : ValueObject) : outcome Z :=
  if decide (type o <> TYPE_INT) then Err E_INVALID_OBJECT_TYPE
  else match value o with VInt64 v => Ok v | _ => Throws end.

Definition GetInt (o : ValueObject) : outcome Z :=
  if decide (type o <> TYPE_INT) then Err E_INVALID_OBJECT_TYPE
  else match value o with VInt64 v => Ok (s32 v) | _ => Throws end.

Definition GetDouble (o : ValueObject) : outcome Z :=
  if decide (type o <> TYPE_DOUBLE) then Err E_INVALID_OBJECT_TYPE
  else match value o with VDouble v => Ok v | _ => Throws end.

Definition GetBool (o : ValueObject) : outcome bool :=
  if decide (type o <> TYPE_BOOL) then Err E_INVALID_OBJECT_TYPE
  else match value o with VBool v => Ok v | _ => Throws end.

Definition GetString (o : ValueObject) : outcome string :=
  if decide (type o <> TYPE_STRING) then Err E_INVALID_OBJECT_TYPE
  else match value o with VString v => Ok v | _ => Throws end.

Definition GetBlob (o : ValueObject) : outcome (list byte) :=
  if decide (type o <> TYPE_BLOB) then Err E_INVALID_OBJECT_TYPE
  else match value o with VBlob v => Ok v | _ => Throws end.

(** ** Marshalling

    [None] when [std::get] throws on the way. *)
Section Marshalling.
Context `{Parcel}.

Definition Marshalling (o : ValueObject) (p : parcel) : option parcel :=
  let p16 := WriteInt16 (type_code (type o)) p in
  match type o with
  | TYPE_NULL => Some p16
  | TYPE_INT => match value o with VInt64 v => Some (WriteInt64 v p16) | _ => None end
  | TYPE_DOUBLE => match value o with VDouble v => Some (WriteDouble v p16) | _ => None end
  | TYPE_STRING => match value o with VString v => Some (WriteString v p16) | _ => None end
  | TYPE_BLOB => match value o with VBlob v => Some (WriteUInt8Vector v p16) | _ => None end
  | TYPE_BOOL => match value o with VBool v => Some (WriteBool v p16) | _ => None end
  end.

Definition Unmarshalling (p : parcel) : ValueObject * parcel :=
  let '(t, p) := ReadInt16 p in
  if t =? type_code TYPE_NULL then (ValueObject_null, p)
  else if t =? type_code TYPE_INT then
    let '(v, p) := ReadInt64 p in (mkValueObject TYPE_INT (VInt64 v), p)
  else if t =? type_code TYPE_DOUBLE then
    let '(v, p) := ReadDouble p in (mkValueObject TYPE_DOUBLE (VDouble v), p)
  else if t =? type_code TYPE_STRING then
    let '(v, p) := ReadString p in (mkValueObject TYPE_STRING (VString v), p)
  else if t =? type_code TYPE_BLOB then
    let '(v, p) := ReadUInt8Vector p in (mkValueObject TYPE_BLOB (VBlob v), p)
  else if t =? type_code TYPE_BOOL then
    let '(v, p) := ReadBool p in (mkValueObject TYPE_BOOL (VBool v), p)
  else (ValueObject_null, p).
End Marshalling.

(** ** The type invariant: the tag selects the alternative that is there *)
Definition vo_ok (o : ValueObject) : Prop :=
  match type o, value o with
  | TYPE_NULL, _ | TYPE_INT, VInt64 _ | TYPE_DOUBLE, VDouble _ | TYPE_STRING, VString _
  | TYPE_BLOB, VBlob _ | TYPE_BOOL, VBool _ => True
  | _, _ => False
  end.

(** Two objects no getter tells apart: the variant of a null is not read. *)
Definition vo_equiv (o1 o2 : ValueObject) : Prop :=
  type o1 = type o2 /\ (type o1 = TYPE_NULL \/ value o1 = value o2).

#[global] Instance vo_equiv_equivalence : Equivalence vo_equiv.
Proof.
  split; unfold vo_equiv.
  - intros o. tauto.
  - intros o1 o2 [E1 [E2|E2]]; rewrite <- E1; auto.
  - intros o1 o2 o3 [E1 [E2|E2]] [E3 [E4|E4]]; split; try congruence; auto.
    left. congruence.
    right. congruence.
Qed.

Ltac solve_getter_proper :=
  intros [t1 v1] [t2 v2] [E1 E2]; simpl in *; subst t2;
  destruct E2 as [E2|E2]; simpl in *; subst; try done; repeat case_decide; done.

#[global] Instance GetLong_proper : Proper (vo_equiv ==> eq) GetLong.
Proof. unfold GetLong. solve_getter_proper. Qed.
#[global] Instance GetInt_proper : Proper (vo_equiv ==> eq) GetInt.
Proof. unfold GetInt. solve_getter_proper. Qed.
#[global] Instance GetDouble_proper : Proper (vo_equiv ==> eq) GetDouble.
Proof. unfold GetDouble. solve_getter_proper. Qed.
#[global] Instance GetBool_proper : Proper (vo_equiv ==> eq) GetBool.
Proof. unfold GetBool. solve_getter_proper. Qed.
#[global] Instance GetString_proper : Proper (vo_equiv ==> eq) GetString.
Proof. unfold GetString. solve_getter_proper. Qed.
#[global] Instance GetBlob_proper : Proper (vo_equiv ==> eq) GetBlob.
Proof. unfold GetBlob. solve_getter_proper. Qed.

Lemma vo_ok_move o residue :
  vo_ok o ->
  vo_ok (ValueObject_move o residue).1 /\ vo_ok (ValueObject_move o residue).2 /\
  vo_equiv (ValueObject_move o residue).1 o /\
  vo_equiv (ValueObject_move o residue).2 ValueObject_null.
Proof. destruct o. intros Hok. unfold vo_equiv. split_and!; simpl; auto; done. Qed.

(** ** Round trip *)
Section RoundTrip.
Context `{ParcelLaws}.

(** The items an object is marshalled to. *)
Definition encoding (o : ValueObject) : list item :=
  IInt16 (type_code (type o)) ::
  match type o, value o with
  | TYPE_INT, VInt64 v => [IInt64 v]
  | TYPE_DOUBLE, VDouble v => [IDouble v]
  | TYPE_STRING, VString v => [IString v]
  | TYPE_BLOB, VBlob v => [IUInt8Vector v]
  | TYPE_BOOL, VBool v => [IBool v]
  | _, _ => []
  end.

Lemma Marshalling_holds o p l :
  vo_ok o -> holds p l ->
  exists p', Marshalling o p = Some p' /\ holds p' (l ++ encoding o).
Proof.
  intros Hok Hp. unfold Marshalling, encoding. destruct o as [t v]. simpl in *.
  assert (H16 : holds (WriteInt16 (type_code t) p) (l ++ [IInt16 (type_code t)]))
    by (by apply WriteInt16_holds).
  destruct t, v; simpl in *; try done; eexists; (split; [done|]); try exact H16;
    rewrite (cons_middle (IInt16 _)), app_assoc; eauto with parcel.
Qed.

(** What comes back: a null loses the unread variant behind it. *)
Definition canon (o : ValueObject) : ValueObject :=
  if decide (type o = TYPE_NULL) then ValueObject_null else o.

Lemma canon_equiv o : vo_equiv (canon o) o.
Proof. unfold canon. case_decide as E; [|done]. split; [by rewrite E|by left]. Qed.

Lemma canon_ok o : vo_ok o -> vo_ok (canon o).
Proof. unfold canon. by case_decide. Qed.

Lemma Unmarshalling_holds o p l :
  vo_ok o -> holds p (encoding o ++ l) ->
  exists p', Unmarshalling p = (canon o, p') /\ holds p' l.
Proof.
  intros Hok Hp. unfold Unmarshalling. read_parcel.
  destruct o as [t v]; destruct t, v; simpl in *; try done; read_parcel; eexists; by split.
Qed.
End RoundTrip.
