(* ===== verification/ValuesBucket.v ===== *)
(** * Buckets of column values

    Model of frameworks/native/rdb/src/values_bucket.cpp: a map from column names
    to values, the argument of inserts and updates. *)
From S2P Require Import Prelude Memory RdbErrno StdMap Parcel ValueObject.

Record ValuesBucket := mkValuesBucket { valuesMap : list (string * ValueObject) }.

Definition ValuesBucket_empty : ValuesBucket := mkValuesBucket [].

Definition insert_value (b : ValuesBucket) (columnName : string) (v : ValueObject)
    : ValuesBucket := mkValuesBucket (sm_insert columnName v (valuesMap b)).

Definition PutString (b : ValuesBucket) (columnName value : string) : ValuesBucket :=
  insert_value b columnName (ValueObject_string value).
Definition PutInt (b : ValuesBucket) (columnName : string) (value : Z) : ValuesBucket :=
  insert_value b columnName (ValueObject_int value).
Definition PutLong (b : ValuesBucket) (columnName : string) (value : Z) : ValuesBucket :=
  insert_value b columnName (ValueObject_long value).
Definition PutDouble (b : ValuesBucket) (columnName : string) (value : Z) : ValuesBucket :=
  insert_value b columnName (ValueObject_double value).
Definition PutBool (b : ValuesBucket) (columnName : string) (value : bool) : ValuesBucket :=
  insert_value b columnName (ValueObject_bool value).
Definition PutBlob (b : ValuesBucket) (columnName : string) (value : list byte) : ValuesBucket :=
  insert_value b columnName (ValueObject_blob value).
Definition PutNull (b : ValuesBucket) (columnName : string) : ValuesBucket :=
  insert_value b columnName ValueObject_null.

Definition Delete (b : ValuesBucket) (columnName : string) : ValuesBucket :=
  mkValuesBucket (sm_erase columnName (valuesMap b)).
Definition Clear (b : ValuesBucket) : ValuesBucket := mkValuesBucket [].
Definition Size (b : ValuesBucket) : Z := s32 (Z.of_nat (length (valuesMap b))).
Definition IsEmpty (b : ValuesBucket) : bool :=
  match valuesMap b with [] => true | _ => false end.
Definition HasColumn (b : ValuesBucket) (columnName : string) : bool :=
  match sm_find columnName (valuesMap b) with None => false | Some _ => true end.
Definition GetObject (b : ValuesBucket) (columnName : string) : option ValueObject :=
  sm_find columnName (valuesMap b).
Definition GetAll (b : ValuesBucket) : list (string * ValueObject) := valuesMap b.

Section Marshalling.
Context `{Parcel}.

Definition Marshalling_loop : list (string * ValueObject) -> parcel -> option parcel :=
  write_entries ValueObject.Marshalling.

Definition Marshalling (b : ValuesBucket) (p : parcel) : option parcel :=
  let p := WriteInt32 (s32 (Z.of_nat (length (valuesMap b)))) p in
  Marshalling_loop (valuesMap b) p.

(** [None] when a null pointer from [ReadParcelable] is dereferenced. *)
Definition Unmarshalling_loop
    : nat -> list (string * ValueObject) -> parcel -> option (list (string * ValueObject) * parcel) :=
  read_entries ValueObject.Unmarshalling.

Definition Unmarshalling (p : parcel) : option (ValuesBucket * parcel) :=
  let '(mapSize, p) := ReadInt32 p in
  '(m, p) ← Unmarshalling_loop (Z.to_nat mapSize) [] p;
  Some (mkValuesBucket m, p).
End Marshalling.

(** ** Invariant *)
Definition bucket_ok (b : ValuesBucket) : Prop :=
  sm_sorted (valuesMap b) /\ Forall (fun e => vo_ok e.2) (valuesMap b).

Lemma sm_insert_Forall_snd (P : ValueObject -> Prop) k v m :
  P v -> Forall (fun e : string * ValueObject => P e.2) m ->
  Forall (fun e => P e.2) (sm_insert k v m).
Proof.
  intros Hv. induction 1 as [|[k' v'] m Hk' Hm IH]; simpl; [by constructor|].
  destruct (String.compare k k'); repeat (constructor; try done).
Qed.

Lemma insert_value_ok b c v : bucket_ok b -> vo_ok v -> bucket_ok (insert_value b c v).
Proof.
  intros [Hs Hf] Hv. split; simpl; [by apply sm_insert_sorted|].
  by apply (sm_insert_Forall_snd vo_ok).
Qed.

Lemma Delete_ok b c : bucket_ok b -> bucket_ok (Delete b c).
Proof.
  intros [Hs Hf]. split; simpl; [by apply sm_erase_sorted|].
  rewrite Forall_forall in *. intros e [_ He]%list_elem_of_filter. by apply Hf.
Qed.

(** ** The bucket as a finite map *)
Inductive bucket_op :=
| OpPutString (c : string) (v : string)
| OpPutInt (c : string) (v : Z)
| OpPutLong (c : string) (v : Z)
| OpPutDouble (c : string) (v : Z)
| OpPutBool (c : string) (v : bool)
| OpPutBlob (c : string) (v : list byte)
| OpPutNull (c : string)
| OpDelete (c : string)
| OpClear.

Definition run_op (o : bucket_op) (b : ValuesBucket) : ValuesBucket :=
  match o with
  | OpPutString c v => PutString b c v
  | OpPutInt c v => PutInt b c v
  | OpPutLong c v => PutLong b c v
  | OpPutDouble c v => PutDouble b c v
  | OpPutBool c v => PutBool b c v
  | OpPutBlob c v => PutBlob b c v
  | OpPutNull c => PutNull b c
  | OpDelete c => Delete b c
  | OpClear => Clear b
  end.

(** A put is taken only when the column has no value yet. *)
Definition put_new (c : string) (v : ValueObject) (m : gmap string ValueObject)
    : gmap string ValueObject :=
  match m !! c with Some _ => m | None => <[c := v]> m end.

Definition spec_op (o : bucket_op) (m : gmap string ValueObject) : gmap string ValueObject :=
  match o with
  | OpPutString c v => put_new c (ValueObject_string v) m
  | OpPutInt c v => put_new c (ValueObject_int v) m
  | OpPutLong c v => put_new c (ValueObject_long v) m
  | OpPutDouble c v => put_new c (ValueObject_double v) m
  | OpPutBool c v => put_new c (ValueObject_bool v) m
  | OpPutBlob c v => put_new c (ValueObject_blob v) m
  | OpPutNull c => put_new c ValueObject_null m
  | OpDelete c => delete c m
  | OpClear => ∅
  end.

Definition bucket_repr (b : ValuesBucket) (m : gmap string ValueObject) : Prop :=
  bucket_ok b /\ forall c, GetObject b c = m !! c.

Lemma insert_value_repr b m c v :
  vo_ok v -> bucket_repr b m -> bucket_repr (insert_value b c v) (put_new c v m).
Proof.
  intros Hv [Hok Hm]. split; [by apply insert_value_ok|]. intros c'.
  unfold GetObject, insert_value, put_new in *. simpl.
  rewrite sm_find_insert by apply Hok. rewrite (Hm c).
  destruct (m !! c) eqn:E; case_decide; subst; simpl; rewrite ?Hm; try done.
  - by rewrite lookup_insert_eq.
  - by rewrite lookup_insert_ne.
Qed.

Lemma run_op_repr o b m : bucket_repr b m -> bucket_repr (run_op o b) (spec_op o m).
Proof.
  intros HR. destruct o; simpl; try (by apply insert_value_repr).
  - destruct HR as [Hok Hm]. split; [by apply Delete_ok|]. intros c'.
    unfold GetObject, Delete. simpl. rewrite sm_find_erase. case_decide; subst.
    + by rewrite lookup_delete_eq.
    + rewrite lookup_delete_ne by done. apply Hm.
  - split; [by split; [apply sm_sorted_nil|constructor]|done].
Qed.

(** A bucket behaves as a finite map in which a put on a column that already
    has a value is ignored: after any sequence of puts, deletes and clears the
    reads return what that map holds, and the entries are sorted by column and
    well typed. *)
Theorem bucket_refines_map ops :
  let b := foldl (fun b o => run_op o b) ValuesBucket_empty ops in
  let m := foldl (fun m o => spec_op o m) ∅ ops in
  bucket_ok b /\
  (forall c, GetObject b c = m !! c) /\
  (forall c, HasColumn b c = bool_decide (is_Some (m !! c))).
Proof.
  cbv zeta.
  assert (forall b m, bucket_repr b m ->
    bucket_repr (foldl (fun b o => run_op o b) b ops) (foldl (fun m o => spec_op o m) m ops))
    as Hrun.
  { induction ops as [|o ops IH]; intros b m HR; [done|]. by apply IH, run_op_repr. }
  destruct (Hrun ValuesBucket_empty ∅) as [Hok Hm].
  { split; [by split; [apply sm_sorted_nil|constructor]|done]. }
  split_and!; [done|done|]. intros c. unfold HasColumn. specialize (Hm c).
  unfold GetObject in Hm. rewrite Hm. by destruct (_ !! c).
Qed.

(** ** Round trip *)
Section RoundTrip.
Context `{ParcelLaws}.

Definition entry_equiv (e1 e2 : string * ValueObject) : Prop :=
  e1.1 = e2.1 /\ vo_equiv e1.2 e2.2.

(** Marshalling a bucket and unmarshalling it gives back the same columns with
    the same values, as far as any getter tells, and consumes exactly what was
    written. *)
Theorem bucket_roundtrip b p :
  bucket_ok b -> Z.of_nat (length (valuesMap b)) < 2147483648 -> holds p [] ->
  exists p1 b' p2,
    Marshalling b p = Some p1 /\ Unmarshalling p1 = Some (b', p2) /\ holds p2 [] /\
    bucket_ok b' /\ Forall2 entry_equiv (valuesMap b') (valuesMap b).
Proof.
  intros [Hs Hf] Hlen Hp. unfold Marshalling, Unmarshalling.
  destruct (entries_roundtrip ValueObject.Marshalling ValueObject.Unmarshalling vo_ok encoding canon
              ValueObject.Marshalling_holds ValueObject.Unmarshalling_holds (valuesMap b) p)
    as (p1 & E1 & p2 & p3 & E2 & E3 & Hp3); [done..|].
  exists p1, (mkValuesBucket (canon_entry canon <$> valuesMap b)), p3.
  unfold Unmarshalling_loop. rewrite E2, Nat2Z.id, E3. split_and!; try done; simpl.
  - split; [by apply canon_sorted|]. simpl. apply Forall_fmap.
    eapply Forall_impl; [exact Hf|]. intros e. by apply canon_ok.
  - apply Forall2_fmap_l, Forall_Forall2_diag, Forall_true. intros e.
    split; [done|apply canon_equiv].
Qed.
End RoundTrip.

Definition demo_bucket : ValuesBucket :=
  PutNull (PutInt (PutString (PutInt ValuesBucket_empty "name" 1) "name" "ignored") "age" 7) "x".

Example demo_bucket_entries :
  valuesMap demo_bucket =
    [("age", ValueObject_int 7); ("name", ValueObject_int 1); ("x", ValueObject_null)].
Proof. vm_compute. reflexivity. Qed.

Lemma bucket_roundtrip_witness :
  exists p1 b' p2,
    Marshalling demo_bucket ([] : list item) = Some p1 /\
    Unmarshalling p1 = Some (b', p2) /\ holds p2 [] /\
    bucket_ok b' /\ Forall2 entry_equiv (valuesMap b') (valuesMap demo_bucket).
Proof.
  apply (@bucket_roundtrip parcel_list parcel_list_laws demo_bucket []); [|vm_compute; reflexivity|done].
  repeat (apply insert_value_ok; [|done]). split; [apply sm_sorted_nil|constructor].
Defined.
