(* ===== verification/SqlBuilder.v ===== *)
(** * SQL text

    Model of frameworks/native/rdb/src/sqlite_sql_builder.cpp: the statements the
    store sends to SQLite. Functions with an out parameter return it next to their
    result; the error code of the column normalisation is threaded through. *)
From S2P Require Import Prelude RdbErrno Strings ValueObject ValuesBucket AbsPredicates AbsPredicatesSpec RdbPredicates.
From Stdlib Require Import Ascii.
From Stdlib Require Import Ascii DecimalString.

#[local] Open Scope list_scope.

Inductive ConflictResolution :=
| ON_CONFLICT_NONE | ON_CONFLICT_ROLLBACK | ON_CONFLICT_ABORT | ON_CONFLICT_FAIL
| ON_CONFLICT_IGNORE | ON_CONFLICT_REPLACE.

(** [g_onConflictClause] at the enumerator's value. *)
Definition g_onConflictClause (c : ConflictResolution) : string :=
  match c with
  | ON_CONFLICT_NONE => "" | ON_CONFLICT_ROLLBACK => " OR ROLLBACK"
  | ON_CONFLICT_ABORT => " OR ABORT" | ON_CONFLICT_FAIL => " OR FAIL"
  | ON_CONFLICT_IGNORE => " OR IGNORE" | ON_CONFLICT_REPLACE => " OR REPLACE"
  end.

Definition AppendClause (builder name clause : string) : string :=
  if empty clause then builder else builder +:+ name +:+ clause.

Definition BuildSqlStringFromPredicates (index whereClause group order : string)
    (limit offset : Z) : string :=
  let limitStr := if limit =? -1 then "" else to_string limit in
  let offsetStr := if offset =? -1 then "" else to_string offset in
  let sqlString := AppendClause "" " INDEXED BY " index in
  let sqlString := AppendClause sqlString " WHERE " whereClause in
  let sqlString := AppendClause sqlString " GROUP BY " group in
  let sqlString := AppendClause sqlString " ORDER BY " order in
  let sqlString := AppendClause sqlString " LIMIT " limitStr in
  AppendClause sqlString " OFFSET " offsetStr.

Definition BuildSqlStringFromPredicatesNoWhere (index whereClause group order : string)
    (limit offset : Z) : string :=
  let limitStr := if limit =? -1 then "" else to_string limit in
  let offsetStr := if offset =? -1 then "" else to_string offset in
  let sqlString := AppendClause "" " INDEXED BY " index in
  let sqlString := AppendClause sqlString " " whereClause in
  let sqlString := AppendClause sqlString " GROUP BY " group in
  let sqlString := AppendClause sqlString " ORDER BY " order in
  let sqlString := AppendClause sqlString " LIMIT " limitStr in
  AppendClause sqlString " OFFSET " offsetStr.

(** ** Statements *)
Definition BuildDeleteString (tableName index whereClause group order : string)
    (limit offset : Z) : string :=
  "Delete " +:+ "FROM " +:+ tableName +:+
  BuildSqlStringFromPredicates index whereClause group order limit offset.

Fixpoint BuildUpdateString_loop (valuesMap : list (string * ValueObject)) (first : bool)
    (sql : string) (bindArgs : list ValueObject) : string * list ValueObject :=
  match valuesMap with
  | [] => (sql, bindArgs)
  | (column, v) :: valuesMap =>
      BuildUpdateString_loop valuesMap false
        (sql +:+ (if first then "" else ",") +:+ column +:+ "=?") (bindArgs ++ [v])
  end.

Definition BuildUpdateString (values : ValuesBucket) (tableName : string)
    (whereArgs : list string) (index whereClause group order : string) (limit offset : Z)
    (bindArgs : list ValueObject) (conflictResolution : ConflictResolution)
    : string * list ValueObject :=
  let sql := "UPDATE" +:+ g_onConflictClause conflictResolution +:+ " " +:+ tableName +:+ " SET " in
  let '(sql, bindArgs) := BuildUpdateString_loop (GetAll values) true sql bindArgs in
  let bindArgs := bindArgs ++ (ValueObject_string <$> whereArgs) in
  (sql +:+ BuildSqlStringFromPredicates index whereClause group order limit offset, bindArgs).

Definition BuildUpdateStringOnlyWhere (values : ValuesBucket) (tableName : string)
    (whereArgs : list string) (index whereClause group order : string) (limit offset : Z)
    (bindArgs : list ValueObject) (conflictResolution : ConflictResolution)
    : string * list ValueObject :=
  let sql := "UPDATE" +:+ g_onConflictClause conflictResolution +:+ " " +:+ tableName +:+ " SET " in
  let bindArgs := bindArgs ++ (ValueObject_string <$> whereArgs) in
  (sql +:+ BuildSqlStringFromPredicates index whereClause group order limit offset, bindArgs).

(** ** Column names *)

(** One word: group 1 is a run of word characters. *)
Definition word_pattern : re := RGroup 1 (RPlus is_word).

(** An optional quote (group 1), a run of characters that are no quotes (group 2)
    and the same quote again. *)
Definition quoted_pattern : re :=
  RCat (ROpt (RGroup 1 (RChar is_quote)))
    (RCat (RGroup 2 (RPlus (fun c => negb (is_quote c)))) (RBack 1)).

(** A word or a star. *)
Definition name_re : re := RAlt (RPlus is_word) (RLit "*").

(** A name (group 1), optionally a dot (group 2) and a second name (group 3), an
    optional AS (group 4) and an optional alias (group 5), with white space between
    them. *)
Definition column_pattern : re :=
  RCat (RGroup 1 name_re)
  (RCat (RStar is_space)
  (RCat (ROpt (RGroup 2 (RCat (RLit ".") (RCat (RStar is_space) (RGroup 3 name_re)))))
  (RCat (RStar is_space)
  (RCat (ROpt (RGroup 4 (RAlt (RCat (RLit "A") (RLit "S")) (RCat (RLit "a") (RLit "s")))))
  (RCat (RStar is_space)
        (ROpt (RGroup 5 (RPlus is_word)))))))).

(** [regex_replace] of every quote by nothing. *)
Fixpoint remove_quotes (s : string) : string :=
  match s with
  | EmptyString => EmptyString
  | String c s => if is_quote c then remove_quotes s else String c (remove_quotes s)
  end.

Fixpoint trim_left (s : string) : string :=
  match s with
  | String c s' => if Ascii.eqb c " " then trim_left s' else s
  | EmptyString => EmptyString
  end.

Fixpoint trim_right (s : string) : string :=
  match s with
  | EmptyString => EmptyString
  | String c s' =>
      let t := trim_right s' in
      if empty t && Ascii.eqb c " " then EmptyString else String c t
  end.

Definition NormalizeComplexPattern (source : string) (errorCode : Z) : string * Z :=
  let replaceResult := trim_right (trim_left (remove_quotes source)) in
  match regex_match column_pattern replaceResult with
  | None => (SurroundWithQuote replaceResult "`", errorCode)
  | Some result =>
      let firstName := group_text 1 result in
      let lastName := group_text 3 result in
      let alias := group_text 5 result in
      if Strings.IsEmpty firstName then (SurroundWithQuote replaceResult "`", errorCode)
      else
        let aresult := SurroundWithQuote firstName "`" in
        let aresult :=
          if negb (Strings.IsEmpty lastName) then
            if decide ("*" = lastName) then aresult +:+ "." +:+ lastName
            else aresult +:+ "." +:+ SurroundWithQuote lastName "`"
          else aresult in
        if negb (Strings.IsEmpty alias) then
          if decide ("*" <> lastName) then
            (aresult +:+ " as " +:+ SurroundWithQuote alias "`", errorCode)
          else (aresult, E_SQLITE_SQL_BUILDER_NORMALIZE_FAIL)
        else (aresult, errorCode)
  end.

Definition Normalize (source : string) (errorCode : Z) : string * Z :=
  if Strings.IsEmpty source then ("", errorCode)
  else
    match regex_match word_pattern source with
    | Some _ => (SurroundWithQuote source "`", errorCode)
    | None =>
        if decide ("*" = source) then ("*", errorCode)
        else
          match regex_match quoted_pattern source with
          | Some _ => (source, errorCode)
          | None => NormalizeComplexPattern source errorCode
          end
    end.

(** The loop over the columns; [first] is [i == 0]. *)
Fixpoint AppendColumns_loop (columns : list string) (first : bool) (builder : string)
    (errorCode : Z) : string * Z :=
  match columns with
  | [] => (builder, errorCode)
  | column :: columns =>
      if negb (empty column) then
        let builder := if negb first then builder +:+ ", " else builder in
        let '(text, errorCode) := Normalize column errorCode in
        AppendColumns_loop columns false (builder +:+ text) errorCode
      else AppendColumns_loop columns false builder errorCode
  end.

Definition AppendColumns (builder : string) (columns : list string) (errorCode : Z)
    : string * Z :=
  let '(builder, errorCode) := AppendColumns_loop columns true builder errorCode in
  (builder +:+ " ", errorCode).

Fixpoint AppendExpr_loop (exprs : list string) (first : bool) (builder : string) : string :=
  match exprs with
  | [] => builder
  | expr :: exprs =>
      if negb (empty expr) then
        AppendExpr_loop exprs false ((if negb first then builder +:+ ", " else builder) +:+ expr)
      else AppendExpr_loop exprs false builder
  end.

Definition AppendExpr (builder : string) (exprs : list string) : string :=
  AppendExpr_loop exprs true builder +:+ " ".

(** ** Queries *)

(** The error code and the SQL text. *)
Definition BuildQueryString (distinct : bool) (table : string) (columns : list string)
    (whereClause groupBy having orderBy limit offset : string) : outcome (Z * string) :=
  if empty table then Err E_EMPTY_TABLE_NAME
  else
    let sql := "SELECT " +:+ (if distinct then "DISTINCT " else "") in
    let '(sql, errorCode) :=
      match columns with
      | [] => (sql +:+ "* ", 0)
      | _ => AppendColumns sql columns 0
      end in
    climit <-- stoi limit;
    coffset <-- stoi offset;
    Ok (errorCode,
        sql +:+ "FROM " +:+ table +:+
        BuildSqlStringFromPredicates having whereClause groupBy orderBy climit coffset).

Definition BuildQueryStringWithExpr (tableName : string) (distinct : bool)
    (index whereClause group order : string) (limit offset : Z) (expr : list string) : string :=
  let sql := "SELECT " +:+ (if distinct then "DISTINCT " else "") in
  let sql := match expr with [] => sql +:+ "* " | _ => AppendExpr sql expr end in
  sql +:+ "FROM " +:+ tableName +:+
  BuildSqlStringFromPredicates index whereClause group order limit offset.

Definition BuildCountString (tableName index whereClause group order : string)
    (limit offset : Z) : string :=
  "SELECT COUNT(*) FROM " +:+ tableName +:+
  BuildSqlStringFromPredicates index whereClause group order limit offset.

Definition IsNotEmptyString (s : string) : bool := negb (empty s).

Section OnPredicates.
Context `{DistributedPredicates}.

Definition BuildSqlStringFromPredicatesOf (predicates : AbsRdbPredicates) : string :=
  let p := base predicates in
  let limitStr := if GetLimit p =? -1 then "" else to_string (GetLimit p) in
  let offsetStr := if GetOffset p =? -1 then "" else to_string (GetOffset p) in
  let sqlString := AppendClause "" " INDEXED BY " (GetIndex p) in
  let sqlString := AppendClause sqlString " WHERE " (GetWhereClause p) in
  let sqlString := AppendClause sqlString " GROUP BY " (GetGroup p) in
  let sqlString := AppendClause sqlString " ORDER BY " (GetOrder p) in
  let sqlString := AppendClause sqlString " LIMIT " limitStr in
  AppendClause sqlString " OFFSET " offsetStr.

(** [getJoinClause] is the virtual method of the predicates. The result code of the
    inner function is ignored: without a table name the text stays empty. *)
Definition BuildQueryStringOf (getJoinClause : AbsRdbPredicates -> outcome string)
    (predicates : AbsRdbPredicates) (columns : list string) : outcome string :=
  let p := base predicates in
  tableNameStr <-- getJoinClause predicates;
  match BuildQueryString (IsDistinct p) tableNameStr columns (GetWhereClause p) (GetGroup p)
          (GetIndex p) (GetOrder p) (to_string (GetLimit p)) (to_string (GetOffset p)) with
  | Ok (_, sqlStr) => Ok sqlStr
  | Err _ => Ok ""
  | Throws => Throws
  | Undefined => Undefined
  end.

Definition BuildCountStringOf (predicates : AbsRdbPredicates) : string :=
  "SELECT COUNT(*) FROM " +:+ GetTableName predicates +:+
  BuildSqlStringFromPredicatesOf predicates.
End OnPredicates.

Example normalize_samples :
  (fun s => Normalize s 0) <$>
    ["name"; "*"; "'first name'"; "t . name  AS n"; "t.*"; "t.* as x"; "count(a)"; "  a b "] =
  [("`name`", 0); ("*", 0); ("'first name'", 0); ("`t`.`name` as `n`", 0); ("`t`.*", 0);
   ("`t`.*", 1038); ("`count(a)`", 0); ("`a` as `b`", 0)].
Proof. vm_compute. reflexivity. Qed.

(** * Correctness of the SQL text *)

(** ** Placeholders of an update *)
Lemma count_string_of_uint d : count_char "?" (NilEmpty.string_of_uint d) = 0%nat.
Proof. induction d; simpl; done. Qed.

Lemma to_string_plain z : plain (to_string z).
Proof.
  unfold plain, to_string. destruct (Z.to_int z); simpl; apply count_string_of_uint.
Qed.

Lemma count_AppendClause c b name clause :
  count_char c name = 0%nat ->
  count_char c (AppendClause b name clause) = (count_char c b + count_char c clause)%nat.
Proof.
  intros Hn. unfold AppendClause. destruct clause as [|a clause]; [simpl; lia|].
  cbn [empty]. rewrite !count_char_app. lia.
Qed.

Lemma count_tail index clause group order lim off :
  plain index -> plain group -> plain order ->
  count_char "?" (BuildSqlStringFromPredicates index clause group order lim off) =
    count_char "?" clause.
Proof.
  unfold plain. intros Hi Hg Ho. unfold BuildSqlStringFromPredicates.
  rewrite !count_AppendClause by done.
  assert (forall z, count_char "?" (if z =? -1 then "" else to_string z) = 0%nat) as Hz.
  { intros z. case_if; [done|apply to_string_plain]. }
  rewrite !Hz, Hi, Hg, Ho. simpl. lia.
Qed.

Lemma BuildUpdateString_loop_spec m : forall first sql args,
  Forall (fun e => plain e.1) m ->
  let res := BuildUpdateString_loop m first sql args in
  res.2 = args ++ (snd <$> m) /\
  count_char "?" res.1 = (count_char "?" sql + length m)%nat.
Proof.
  induction m as [|[c v] m IH]; intros first sql args Hm; simpl.
  - rewrite app_nil_r. split; [done|lia].
  - inversion_clear Hm as [|? ? Hc Hm']. unfold plain in Hc. simpl in Hc.
    destruct (IH false (sql +:+ (if first then "" else ",") +:+ c +:+ "=?") (args ++ [v]) Hm')
      as [E1 E2]. split; [by rewrite E1, <- app_assoc|].
    rewrite E2, !count_char_app, Hc. destruct first; simpl; lia.
Qed.

(** An UPDATE binds every placeholder: the bind arguments are the values of the
    bucket in the order of its columns, which is the order of the SET list, then the
    WHERE arguments; and the text has exactly as many question marks. *)
Theorem update_bindings values table whereArgs index clause group order lim off conflict :
  plain table -> plain index -> plain group -> plain order ->
  Forall (fun e => plain e.1) (GetAll values) ->
  count_char "?" clause = length whereArgs ->
  let '(sql, args) :=
    BuildUpdateString values table whereArgs index clause group order lim off [] conflict in
  args = (snd <$> GetAll values) ++ (ValueObject_string <$> whereArgs) /\
  count_char "?" sql = length args.
Proof.
  intros Ht Hi Hg Ho Hv Hc. unfold BuildUpdateString.
  set (sql0 := "UPDATE" +:+ _).
  assert (Hs : count_char "?" sql0 = 0%nat).
  { unfold sql0. rewrite !count_char_app, Ht. by destruct conflict. }
  clearbody sql0.
  destruct (BuildUpdateString_loop_spec (GetAll values) true sql0 [] Hv) as [E1 E2].
  destruct (BuildUpdateString_loop (GetAll values) true sql0 []) as [sql args].
  simpl in E1, E2. subst args. split; [done|].
  rewrite count_char_app, count_tail, E2, Hs, Hc by done.
  by rewrite length_app, !length_fmap.
Qed.

Lemma update_bindings_witness :
  let '(sql, args) :=
    BuildUpdateString demo_bucket "person" ["5"] "" "`id` = ? " "" "" (-1) (-1) []
      ON_CONFLICT_REPLACE in
  args = (snd <$> GetAll demo_bucket) ++ (ValueObject_string <$> ["5"]) /\
  count_char "?" sql = length args.
Proof.
  apply (update_bindings demo_bucket "person" ["5"] "" "`id` = ? " "" "" (-1) (-1)
           ON_CONFLICT_REPLACE); try (vm_compute; reflexivity).
  repeat constructor; vm_compute; reflexivity.
Defined.

Example demo_update :
  BuildUpdateString demo_bucket "person" ["5"] "" "`id` = ? " "" "" (-1) (-1) []
    ON_CONFLICT_REPLACE =
  ("UPDATE OR REPLACE person SET age=?,name=?,x=? WHERE `id` = ? ",
   [ValueObject_int 7; ValueObject_int 1; ValueObject_null; ValueObject_string "5"]).
Proof. vm_compute. reflexivity. Qed.

(** ** Queries *)
Lemma stoi_cases s : (exists z, stoi s = Ok z) \/ stoi s = Throws.
Proof.
  unfold stoi, parse_int. destruct (match skip_spaces s with "" => _ | _ => _ end) as [sign r].
  case_if; [by right|]. destruct (NilEmpty.uint_of_string _); [|by right].
  case_if; [by right|by left; eexists].
Qed.

Section OnPredicates.
Context `{DistributedPredicates}.

Lemma tail_of_predicates p :
  BuildSqlStringFromPredicatesOf p =
    BuildSqlStringFromPredicates (GetIndex (base p)) (GetWhereClause (base p))
      (GetGroup (base p)) (GetOrder (base p)) (GetLimit (base p)) (GetOffset (base p)).
Proof. done. Qed.

(** The column list of a query and the error code of its normalisation. *)
Definition query_head (distinct : bool) (columns : list string) : string * Z :=
  let sql := "SELECT " +:+ (if distinct then "DISTINCT " else "") in
  match columns with [] => (sql +:+ "* ", 0) | _ => AppendColumns sql columns 0 end.

(** A query on predicates never throws: limit and offset survive the trip
    through [std::to_string] and [std::stoi], and the text is the column list, the
    join clause and the same tail a count on these predicates uses. Without a table
    the text is empty. *)
Theorem query_of_predicates getJoinClause p columns :
  -2147483648 <= GetLimit (base p) <= 2147483647 ->
  -2147483648 <= GetOffset (base p) <= 2147483647 ->
  BuildQueryStringOf getJoinClause p columns =
    outcome_bind (getJoinClause p) (fun table =>
      if empty table then Ok ""
      else Ok ((query_head (IsDistinct (base p)) columns).1 +:+ "FROM " +:+ table +:+
               BuildSqlStringFromPredicatesOf p)).
Proof.
  intros Hl Ho. unfold BuildQueryStringOf, BuildQueryString. rewrite !stoi_to_string by done.
  destruct (getJoinClause p) as [table| | |]; simpl; try done.
  destruct (empty table); [done|]. unfold query_head.
  destruct columns as [|c columns]; [done|].
  by destruct (AppendColumns _ (c :: columns) 0) as [sql e].
Qed.
End OnPredicates.

Lemma query_of_predicates_witness :
  BuildQueryStringOf GetJoinClause
    (with_base (new_RdbPredicates "person") (run_ops demo_calls) dpred_empty) ["id"; "t.name as n"] =
  Ok ((query_head false ["id"; "t.name as n"]).1 +:+ "FROM " +:+ "person" +:+
      BuildSqlStringFromPredicatesOf
        (with_base (new_RdbPredicates "person") (run_ops demo_calls) dpred_empty)).
Proof.
  etransitivity;
    [apply (query_of_predicates GetJoinClause
              (with_base (new_RdbPredicates "person") (run_ops demo_calls) dpred_empty)
              ["id"; "t.name as n"]); vm_compute; split; discriminate|reflexivity].
Defined.

(** A query with an empty limit or offset string leaves the function with an
    exception: [std::stoi] throws [std::invalid_argument]. [RdbStoreImpl::Query]
    passes an empty offset. *)
Theorem query_without_offset_throws distinct table columns clause groupBy having orderBy limit :
  empty table = false ->
  BuildQueryString distinct table columns clause groupBy having orderBy limit "" = Throws /\
  BuildQueryString distinct table columns clause groupBy having orderBy "" limit = Throws.
Proof.
  intros Ht. unfold BuildQueryString. rewrite Ht. change (stoi "") with (@Throws Z).
  set (x := match columns with [] => _ | _ => _ end). destruct x as [sql e].
  split; [|done]. destruct (stoi_cases limit) as [[z ->]| ->]; done.
Qed.

Lemma query_without_offset_throws_witness :
  BuildQueryString false "person" [] "" "" "" "" "10" "" = Throws /\
  BuildQueryString false "person" [] "" "" "" "" "" "10" = Throws.
Proof. apply (query_without_offset_throws false "person" [] "" "" "" "" "10" eq_refl). Defined.

(** ** Column names *)
Definition word (s : string) : Prop := empty s = false /\ string_forall is_word s = true.

(** Facts about single characters, by enumeration of the 256 of them. *)
Definition all_chars (Q : ascii -> bool) : bool :=
  forallb (fun n => Q (ascii_of_nat n)) (seq 0 256).

Lemma all_chars_spec Q : all_chars Q = true -> forall c, Q c = true.
Proof.
  unfold all_chars. rewrite forallb_forall. intros HQ c.
  rewrite <- (ascii_nat_embedding c). apply HQ, in_seq.
  pose proof (nat_ascii_bounded c). lia.
Qed.

Definition word_excludes (c : ascii) : bool :=
  implb (is_word c)
    (negb (is_space c) && negb (is_quote c) && negb (Ascii.eqb c " ") && negb (Ascii.eqb c "*")).

Lemma all_word_excludes : all_chars word_excludes = true.
Proof. vm_compute. reflexivity. Qed.

Lemma word_char_facts c :
  is_word c = true ->
  is_space c = false /\ is_quote c = false /\ Ascii.eqb c " " = false /\ Ascii.eqb c "*" = false.
Proof.
  intros Hc. pose proof (all_chars_spec _ all_word_excludes c) as HQ.
  unfold word_excludes in HQ. rewrite Hc in HQ. simpl implb in HQ. to_prop. done.
Qed.

(** Text without quotes. *)
Definition no_quotes (s : string) : bool := string_forall (fun c => negb (is_quote c)) s.

Lemma word_no_quotes s : string_forall is_word s = true -> no_quotes s = true.
Proof.
  unfold no_quotes. induction s as [|c s IH]; simpl; [done|]. intros [Hc Hs]%andb_prop.
  destruct (word_char_facts c Hc) as (_ & -> & _). by apply IH.
Qed.

Lemma remove_quotes_id s : no_quotes s = true -> remove_quotes s = s.
Proof.
  unfold no_quotes. induction s as [|c s IH]; simpl; [done|]. intros [Hc Hs]%andb_prop.
  apply negb_true_iff in Hc as ->. by rewrite IH.
Qed.

Lemma trim_left_word w s : word w -> trim_left (w +:+ s) = w +:+ s.
Proof.
  intros [He Hw]. destruct w as [|c w]; [done|]. rewrite append_cons. simpl in *.
  apply andb_prop in Hw as [Hc _]. by destruct (word_char_facts c Hc) as (_ & _ & -> & _).
Qed.

Lemma trim_right_last s c : Ascii.eqb c " " = false -> trim_right (s +:+ String c "") = s +:+ String c "".
Proof.
  intros Hc. induction s as [|c' s IH].
  - change (trim_right (String c "") = String c ""). simpl. by rewrite Hc.
  - rewrite append_cons. simpl. rewrite IH. by destruct s.
Qed.

Lemma word_snoc w : word w -> exists s c, w = s +:+ String c "" /\ is_word c = true.
Proof.
  intros [He Hw]. induction w as [|c w IH]; [done|]. simpl in Hw.
  apply andb_prop in Hw as [Hc Hw]. destruct w as [|c' w].
  - by exists "", c.
  - destruct IH as (s & c0 & E & H0); [done|done|]. exists (String c s), c0.
    split; [|done]. rewrite append_cons. by rewrite E.
Qed.

Lemma trim_right_word s w : word w -> trim_right (s +:+ w) = s +:+ w.
Proof.
  intros Hw. destruct (word_snoc w Hw) as (s' & c & -> & Hc). rewrite <- append_assoc.
  apply trim_right_last. by destruct (word_char_facts c Hc) as (_ & _ & -> & _).
Qed.

Lemma exec_star_none {A} P s : exec_star P s (fun _ => None : option A) = None.
Proof. induction s as [|c s IH]; simpl; [done|]. rewrite IH. by destruct (P c). Qed.

(** Text that does not start with a quote is no quoted name. *)
Lemma quoted_pattern_none s : stops is_quote s -> regex_match quoted_pattern s = None.
Proof.
  intros Hs. unfold regex_match, quoted_pattern. destruct s as [|c s]; [done|]. simpl in *.
  rewrite Hs. simpl. apply exec_star_none.
Qed.

Lemma exec_group_plus P n w rest m k r :
  empty w = false -> string_forall P w = true -> stops P rest ->
  k rest ((n, w) :: m) = Some r ->
  exec (RGroup n (RPlus P)) (w +:+ rest) m k = Some r.
Proof.
  intros He Hw Hs Hk. cbn [exec].
  apply (exec_plus_run P w rest m (fun s' m' => k s' ((n, consumed (w +:+ rest) s') :: m')));
    try done. by rewrite consumed_app.
Qed.

Lemma word_pattern_word s : word s -> regex_match word_pattern s = Some [(1%nat, s)].
Proof.
  intros [He Hw]. unfold regex_match, word_pattern. rewrite <- (append_nil_r s) at 1.
  by apply exec_group_plus.
Qed.

Lemma word_pattern_other s :
  string_forall is_word s = false -> regex_match word_pattern s = None.
Proof.
  intros Hw. unfold regex_match, word_pattern. destruct s as [|c s]; [done|]. simpl in *.
  destruct (is_word c); [|done]. simpl in Hw.
  destruct (exec_star is_word s _) as [r|] eqn:E; [|done].
  apply exec_star_all in E as (w & rest & -> & Hw' & Hk).
  destruct rest; [|done]. rewrite append_nil_r in Hw. congruence.
Qed.

(** A name in a group: a word, or the star. *)
Lemma exec_group_name n w rest m k r :
  word w -> stops is_word rest -> k rest ((n, w) :: m) = Some r ->
  exec (RGroup n name_re) (w +:+ rest) m k = Some r.
Proof.
  intros [He Hw] Hs Hk. pose proof (exec_group_plus is_word n w rest m k r He Hw Hs Hk) as E.
  cbn [exec] in E. unfold name_re. cbn [exec]. by rewrite E.
Qed.

Lemma exec_group_star n rest m k :
  exec (RGroup n name_re) ("*" +:+ rest) m k = k rest ((n, "*") :: m).
Proof. exact (f_equal (fun t => k rest ((n, t) :: m)) (consumed_app "*" rest)). Qed.

Lemma stops_word P w rest :
  word w -> (forall c, is_word c = true -> P c = false) -> stops P (w +:+ rest).
Proof.
  intros [He Hw] HP. destruct w as [|c w]; [done|]. rewrite append_cons. simpl in *.
  apply andb_prop in Hw as [Hc _]. by apply HP.
Qed.

Lemma word_not_space c : is_word c = true -> is_space c = false.
Proof. intros Hc. by apply word_char_facts. Qed.

Lemma word_not_quote c : is_word c = true -> is_quote c = false.
Proof. intros Hc. by apply word_char_facts. Qed.

(** What follows the names: nothing, or an alias. *)
Definition alias_text (alias : option string) : string :=
  match alias with None => "" | Some a => " as " +:+ a end.
Definition alias_caps (alias : option string) : captures :=
  match alias with None => [] | Some a => [(5, a); (4, "as")]%nat end.

Definition tail_pattern : re :=
  RCat (RStar is_space)
  (RCat (ROpt (RGroup 4 (RAlt (RCat (RLit "A") (RLit "S")) (RCat (RLit "a") (RLit "s")))))
  (RCat (RStar is_space) (ROpt (RGroup 5 (RPlus is_word))))).

Lemma exec_cat r1 r2 s m k :
  exec (RCat r1 r2) s m k = exec r1 s m (fun s' m' => exec r2 s' m' k).
Proof. reflexivity. Qed.

Lemma exec_spaces w rest m k r :
  string_forall is_space w = true -> stops is_space rest -> k rest m = Some r ->
  exec (RStar is_space) (w +:+ rest) m k = Some r.
Proof. intros Hw Hs Hk. by apply exec_star_run. Qed.

Lemma exec_opt r s m k res : exec r s m k = Some res -> exec (ROpt r) s m k = Some res.
Proof. intros E. cbn [exec]. by rewrite E. Qed.

Lemma exec_as rest m k r :
  k rest ((4%nat, "as") :: m) = Some r ->
  exec (RGroup 4 (RAlt (RCat (RLit "A") (RLit "S")) (RCat (RLit "a") (RLit "s"))))
    ("as" +:+ rest) m k = Some r.
Proof. intros E. rewrite <- (consumed_app "as" rest) in E. exact E. Qed.

Lemma exec_tail alias m :
  (forall a, alias = Some a -> word a) ->
  exec tail_pattern (alias_text alias) m (fun s' m => if empty s' then Some m else None) =
    Some (alias_caps alias ++ m).
Proof.
  intros Ha. destruct alias as [a|]; [|done]. specialize (Ha a eq_refl).
  unfold tail_pattern, alias_text. rewrite exec_cat.
  change (" as " +:+ a) with (" " +:+ ("as" +:+ (" " +:+ a))).
  apply exec_spaces; [done|done|]. rewrite exec_cat. apply exec_opt, exec_as. rewrite exec_cat.
  assert (Hsp : stops is_space a).
  { rewrite <- (append_nil_r a). by apply stops_word, word_not_space. }
  apply exec_spaces; [done|done|]. apply exec_opt.
  rewrite <- (append_nil_r a) at 1. destruct Ha as [He Hw]. by apply exec_group_plus.
Qed.
(** [table.column] or [table.*], with an optional alias. *)
Definition dotted (table name : string) (alias : option string) : string :=
  table +:+ "." +:+ name +:+ alias_text alias.

Lemma alias_stops alias P : P " "%char = false -> stops P (alias_text alias).
Proof. by destruct alias. Qed.

Lemma exec_dot_group name rest m k r :
  word name \/ name = "*" -> stops is_word rest ->
  k rest ((2%nat, "." +:+ name) :: (3%nat, name) :: m) = Some r ->
  exec (RGroup 2 (RCat (RLit ".") (RCat (RStar is_space) (RGroup 3 name_re))))
    ("." +:+ name +:+ rest) m k = Some r.
Proof.
  intros Hn Hs Hk.
  enough (exec (RCat (RStar is_space) (RGroup 3 name_re)) (name +:+ rest) m
            (fun s' m' => k s' ((2%nat, consumed ("." +:+ name +:+ rest) s') :: m')) = Some r)
    as E by exact E.
  rewrite exec_cat. rewrite <- (append_assoc "." name).
  apply (exec_spaces "" (name +:+ rest)); [done| |].
  - destruct Hn as [Hn| ->]; [|done]. by apply stops_word, word_not_space.
  - destruct Hn as [Hn| ->].
    + apply exec_group_name; [done|done|]. by rewrite consumed_app.
    + rewrite exec_group_star. by rewrite consumed_app.
Qed.

Lemma column_pattern_dotted table name alias :
  word table -> word name \/ name = "*" -> (forall a, alias = Some a -> word a) ->
  regex_match column_pattern (dotted table name alias) =
    Some (alias_caps alias ++ [(2, "." +:+ name); (3, name); (1, table)]%nat).
Proof.
  intros Ht Hn Ha. unfold regex_match, dotted.
  change column_pattern with
    (RCat (RGroup 1 name_re) (RCat (RStar is_space)
      (RCat (ROpt (RGroup 2 (RCat (RLit ".") (RCat (RStar is_space) (RGroup 3 name_re)))))
        tail_pattern))).
  rewrite exec_cat. apply exec_group_name; [done|done|]. rewrite exec_cat.
  apply (exec_spaces "" ("." +:+ name +:+ alias_text alias)); [done|done|]. rewrite exec_cat.
  apply exec_opt, exec_dot_group; [done|by apply alias_stops|]. by apply exec_tail.
Qed.

(** A dotted name has no quotes, and its ends are no blanks. *)
Lemma no_quotes_app s1 s2 : no_quotes (s1 +:+ s2) = no_quotes s1 && no_quotes s2.
Proof. apply string_forall_app. Qed.

Lemma dotted_trim table name alias :
  word table -> word name \/ name = "*" -> (forall a, alias = Some a -> word a) ->
  trim_right (trim_left (remove_quotes (dotted table name alias))) = dotted table name alias.
Proof.
  intros Ht Hn Ha. assert (no_quotes (dotted table name alias) = true) as Hq.
  { unfold dotted. rewrite !no_quotes_app, (word_no_quotes table) by apply Ht.
    assert (no_quotes name = true) as ->.
    { destruct Hn as [[_ Hn]| ->]; [by apply word_no_quotes|done]. }
    destruct alias as [a|]; [|done]. simpl. rewrite no_quotes_app, (word_no_quotes a); [done|].
    by apply (Ha a eq_refl). }
  rewrite remove_quotes_id by done. unfold dotted. rewrite trim_left_word by done.
  destruct alias as [a|]; simpl alias_text.
  - rewrite <- !append_assoc. apply trim_right_word. by apply Ha.
  - rewrite append_nil_r. destruct Hn as [Hn| ->].
    + rewrite <- append_assoc. by apply trim_right_word.
    + change ("." +:+ "*") with ("." +:+ String "*" ""). rewrite <- append_assoc.
      by apply trim_right_last.
Qed.

Lemma dotted_not_word table name alias : string_forall is_word (dotted table name alias) = false.
Proof. unfold dotted. rewrite !string_forall_app. simpl. apply andb_false_r. Qed.

Lemma quote_word w : word w -> SurroundWithQuote w "`" = "`" +:+ w +:+ "`".
Proof. intros [He _]. unfold SurroundWithQuote. by rewrite He. Qed.

Lemma Normalize_dotted_complex table n al e :
  word table -> Normalize (dotted table n al) e = NormalizeComplexPattern (dotted table n al) e.
Proof.
  intros Ht. unfold Normalize, Strings.IsEmpty.
  assert (empty (dotted table n al) = false) as ->
    by (unfold dotted; destruct Ht; by destruct table).
  rewrite word_pattern_other by apply dotted_not_word. rewrite decide_False.
  - rewrite quoted_pattern_none; [done|]. by apply stops_word, word_not_quote.
  - unfold dotted. destruct Ht as [? Hw]. destruct table as [|c table]; [done|].
    rewrite append_cons. intros [=E _]. simpl in Hw. by rewrite <- E in Hw.
Qed.

Lemma Normalize_dotted table n al e :
  word table -> word n \/ n = "*" -> (forall a, al = Some a -> word a) ->
  Normalize (dotted table n al) e =
    let text := "`" +:+ table +:+ "`." +:+
                (if decide ("*" = n) then n else "`" +:+ n +:+ "`") in
    match al with
    | None => (text, e)
    | Some a =>
        if decide ("*" = n) then (text, E_SQLITE_SQL_BUILDER_NORMALIZE_FAIL)
        else (text +:+ " as `" +:+ a +:+ "`", e)
    end.
Proof.
  intros Ht Hn Ha. rewrite Normalize_dotted_complex by done. unfold NormalizeComplexPattern.
  rewrite dotted_trim, column_pattern_dotted by done.
  assert (group_text 1 (alias_caps al ++ [(2, "." +:+ n); (3, n); (1, table)]%nat) = table) as ->
    by (by destruct al).
  assert (group_text 3 (alias_caps al ++ [(2, "." +:+ n); (3, n); (1, table)]%nat) = n) as ->
    by (by destruct al).
  assert (group_text 5 (alias_caps al ++ [(2, "." +:+ n); (3, n); (1, table)]%nat) =
    default "" al) as -> by (by destruct al).
  unfold Strings.IsEmpty. rewrite (proj1 Ht), quote_word by done.
  assert (empty n = false) as -> by (destruct Hn as [[? _]| ->]; done). simpl negb. cbv iota zeta.
  destruct (decide ("*" = n)) as [<-|Hne]; destruct al as [a|]; simpl default; cbv iota.
  - specialize (Ha a eq_refl). rewrite (proj1 Ha). simpl.
    by rewrite !append_assoc.
  - simpl. by rewrite !append_assoc.
  - specialize (Ha a eq_refl). rewrite (proj1 Ha). simpl negb. cbv iota.
    rewrite decide_True by done. destruct Hn as [Hn|]; [|congruence].
    rewrite !quote_word by done. by rewrite !append_assoc.
  - destruct Hn as [Hn|]; [|congruence]. simpl. rewrite quote_word by done. by rewrite !append_assoc.
Qed.

(** The column list of a query quotes names as documented: a word is put between
    back quotes; of [table.column] both parts are, [table.*] keeps its star, an
    alias is quoted after [as]; and [table.* as alias] is reported as an error. *)
Theorem Normalize_columns table name alias e :
  word table -> word name -> word alias ->
  Normalize table e = ("`" +:+ table +:+ "`", e) /\
  Normalize (dotted table name None) e = ("`" +:+ table +:+ "`." +:+ "`" +:+ name +:+ "`", e) /\
  Normalize (dotted table name (Some alias)) e =
    (("`" +:+ table +:+ "`." +:+ "`" +:+ name +:+ "`") +:+ " as `" +:+ alias +:+ "`", e) /\
  Normalize (dotted table "*" None) e = ("`" +:+ table +:+ "`." +:+ "*", e) /\
  Normalize (dotted table "*" (Some alias)) e =
    ("`" +:+ table +:+ "`." +:+ "*", E_SQLITE_SQL_BUILDER_NORMALIZE_FAIL).
Proof.
  intros Ht Hn Ha.
  assert (Hsome : forall a, Some alias = Some a -> word a) by (intros a [=<-]; done).
  assert (Hne : "*" <> name) by (intros <-; by destruct Hn).
  split_and!.
  - unfold Normalize, Strings.IsEmpty. rewrite (proj1 Ht), word_pattern_word by done.
    by rewrite quote_word.
  - rewrite Normalize_dotted by (auto; done). by rewrite decide_False.
  - rewrite Normalize_dotted by (auto; done). cbv zeta. by rewrite !decide_False.
  - by rewrite Normalize_dotted by (auto; done).
  - by rewrite Normalize_dotted by (auto; done).
Qed.

Lemma Normalize_columns_witness :
  Normalize "t1" 0 = ("`t1`", 0) /\
  Normalize (dotted "t1" "name" None) 0 = ("`t1`.`name`", 0) /\
  Normalize (dotted "t1" "name" (Some "n")) 0 = ("`t1`.`name` as `n`", 0) /\
  Normalize (dotted "t1" "*" None) 0 = ("`t1`.*", 0) /\
  Normalize (dotted "t1" "*" (Some "n")) 0 = ("`t1`.*", 1038).
Proof.
  apply (Normalize_columns "t1" "name" "n" 0); split; vm_compute; reflexivity.
Defined.

(** [AppendColumns] writes a separator before every column but the one at index
    0: when the first column is empty and skipped, the list starts with a comma. *)
Theorem AppendColumns_leading_comma builder column e :
  empty column = false ->
  AppendColumns builder ["" ; column] e =
    (builder +:+ ", " +:+ (Normalize column e).1 +:+ " ", (Normalize column e).2).
Proof.
  intros Hc. unfold AppendColumns. cbn [AppendColumns_loop empty negb]. rewrite Hc.
  cbn [negb]. destruct (Normalize column e) as [text e']. by rewrite !append_assoc.
Qed.

Lemma AppendColumns_leading_comma_witness :
  AppendColumns "SELECT " ["" ; "id"] 0 = ("SELECT , `id` ", 0).
Proof. apply (AppendColumns_leading_comma "SELECT " "id" 0 eq_refl). Defined.
