(* ===== verification/SharedResultSet.v ===== *)
(** * Result sets backed by a shared block

    Model of frameworks/native/rdb/src/abs_shared_result_set.cpp and
    sqlite_shared_result_set.cpp. The store is an argument: what it answers when it
    is asked to fill the block, and the statement it gives for the column names. *)
From S2P Require Import Prelude Memory Strings RdbErrno SharedBlock ResultSet.
From Stdlib Require Import Ascii DecimalString.

#[local] Open Scope list_scope.

Inductive ColumnType :=
| TYPE_NULL | TYPE_INTEGER | TYPE_FLOAT | TYPE_STRING | TYPE_BLOB | TYPE_OTHER (code : Z).

Definition ColumnType_of (t : Z) : ColumnType :=
  if t =? 0 then TYPE_NULL else if t =? 1 then TYPE_INTEGER else if t =? 2 then TYPE_FLOAT
  else if t =? 3 then TYPE_STRING else if t =? 4 then TYPE_BLOB else TYPE_OTHER t.

(** The conversions of the C library between [double]s (64-bit patterns), integers
    and text. *)
Class CLib := {
  print_double : Z -> list byte;
  strtod : list byte -> Z;
  double_to_int64 : Z -> Z;
  int64_to_double : Z -> Z;
}.

(** [strtoll] with base 0: white space, a sign, a prefix that selects base 16 or 8,
    and the longest run of digits; saturating. *)
Definition digit_value (c : ascii) : Z :=
  let n := Z.of_N (N_of_ascii c) in
  if (48 <=? n) && (n <=? 57) then n - 48
  else if (65 <=? n) && (n <=? 90) then n - 55
  else if (97 <=? n) && (n <=? 122) then n - 87
  else 36.

Fixpoint digits_value (base : Z) (s : string) (acc : Z) : Z :=
  match s with
  | EmptyString => acc
  | String c s =>
      if digit_value c <? base then digits_value base s (acc * base + digit_value c) else acc
  end.

Definition unsigned_value (s : string) : Z :=
  match s with
  | String "0" (String x (String c s')) =>
      if (Ascii.eqb x "x" || Ascii.eqb x "X") && (digit_value c <? 16)
      then digits_value 16 (String c s') 0 else digits_value 8 s 0
  | String "0" _ => digits_value 8 s 0
  | _ => digits_value 10 s 0
  end.

Definition strtoll (l : list byte) : Z :=
  let s := skip_spaces (String.string_of_list_ascii l) in
  let v :=
    match s with
    | String "-" s => - unsigned_value s
    | String "+" s => unsigned_value s
    | _ => unsigned_value s
    end in
  Z.max (- 9223372036854775808) (Z.min v 9223372036854775807).

(** The characters of a C string: those before the first NUL. *)
Fixpoint c_str (l : list byte) : list byte :=
  match l with
  | [] => []
  | c :: l => if Ascii.eqb c "000" then [] else c :: c_str l
  end.

Definition to_bytes (s : string) : list byte := String.list_ascii_of_string s.

(** ** The statement and the store

    The statement answers with an error code ([inl]) or a value. *)
Record Statement := {
  stmt_GetColumnCount : Z + Z;
  stmt_GetColumnName : Z -> Z + string;
}.

(** [ExecuteForSharedBlock] given the block, the start and the required position
    and the count flag: the row count it hands back, or the error that leaves the
    count alone, and the block. [BeginStepQuery]: the statement or the error. *)
Record Store := {
  ExecuteForSharedBlock : SharedBlock -> Z -> Z -> bool -> (Z + Z) * SharedBlock;
  BeginStepQuery : Z * option Statement;
  thread : Z;
}.

Definition NO_COUNT : Z := -1.
Definition PICK_POS : Z := 3.

Record SqliteSharedResultSet := mkSet {
  rs_rowPos : Z;
  isClosed : bool;
  sharedBlock_ : option SharedBlock;
  resultSetBlockCapacity : Z;
  isOnlyFillResultSetBlock : bool;
  rowNum : Z;
  sqliteStatement : option Statement;
  tid : Z;
}.

Definition with_pos (s : SqliteSharedResultSet) (p : Z) : SqliteSharedResultSet :=
  mkSet p (isClosed s) (sharedBlock_ s) (resultSetBlockCapacity s)
    (isOnlyFillResultSetBlock s) (rowNum s) (sqliteStatement s) (tid s).
Definition with_sharedBlock (s : SqliteSharedResultSet) (b : option SharedBlock)
    : SqliteSharedResultSet :=
  mkSet (rs_rowPos s) (isClosed s) b (resultSetBlockCapacity s)
    (isOnlyFillResultSetBlock s) (rowNum s) (sqliteStatement s) (tid s).
Definition with_count (s : SqliteSharedResultSet) (capacity n : Z) : SqliteSharedResultSet :=
  mkSet (rs_rowPos s) (isClosed s) (sharedBlock_ s) capacity
    (isOnlyFillResultSetBlock s) n (sqliteStatement s) (tid s).
Definition with_statement (s : SqliteSharedResultSet) (st : option Statement) (t : Z)
    : SqliteSharedResultSet :=
  mkSet (rs_rowPos s) (isClosed s) (sharedBlock_ s) (resultSetBlockCapacity s)
    (isOnlyFillResultSetBlock s) (rowNum s) st t.

(** The constructor: [created] is the block of [SharedBlock::Create], if it made one. *)
Definition new_SqliteSharedResultSet (created : option SharedBlock) : SqliteSharedResultSet :=
  mkSet INIT_POS false created 0 false NO_COUNT None 0.

Section Set_.
Context (store : Store).

(** ** Blocks *)
Definition GetBlock (s : SqliteSharedResultSet) : option SharedBlock := sharedBlock_ s.
Definition HasBlock (s : SqliteSharedResultSet) : bool :=
  match sharedBlock_ s with Some _ => true | None => false end.
Definition ClosedBlock (s : SqliteSharedResultSet) : SqliteSharedResultSet :=
  with_sharedBlock s None.
Definition ClearBlock (s : SqliteSharedResultSet) : SqliteSharedResultSet :=
  match sharedBlock_ s with
  | Some b => with_sharedBlock s (Some (snd (SharedBlock.Clear b)))
  | None => s
  end.

Definition Close (s : SqliteSharedResultSet) : Z * SqliteSharedResultSet :=
  let s := mkSet (rs_rowPos s) true (sharedBlock_ s) (resultSetBlockCapacity s)
             (isOnlyFillResultSetBlock s) (rowNum s) (sqliteStatement s) (tid s) in
  (E_OK, ClosedBlock s).

(** [same] tells whether the given block is the one already there. *)
Definition SetBlock (s : SqliteSharedResultSet) (block : option SharedBlock) (same : bool)
    : SqliteSharedResultSet :=
  let s := if negb same then with_sharedBlock (ClosedBlock s) block else s in
  with_count s (resultSetBlockCapacity s) NO_COUNT.

Definition SetFillBlockForwardOnly (s : SqliteSharedResultSet) (b : bool)
    : SqliteSharedResultSet :=
  mkSet (rs_rowPos s) (isClosed s) (sharedBlock_ s) (resultSetBlockCapacity s) b
    (rowNum s) (sqliteStatement s) (tid s).

Definition Finalize (s : SqliteSharedResultSet) : SqliteSharedResultSet :=
  if negb (isClosed s) then snd (Close s) else s.

(** ** Filling *)
Definition PickFillBlockStartPosition (resultSetPosition blockCapacity : Z) : Z :=
  Z.max (resultSetPosition - Z.quot blockCapacity PICK_POS) 0.

Definition FillSharedBlock (s : SqliteSharedResultSet) (requiredPos : Z)
    : SqliteSharedResultSet :=
  let s := ClearBlock s in
  match sharedBlock_ s with
  | None => s
  | Some b =>
      if rowNum s =? NO_COUNT then
        let '(res, b) := ExecuteForSharedBlock store b requiredPos requiredPos true in
        let n := match res with inr n => n | inl _ => rowNum s end in
        with_count (with_sharedBlock s (Some b)) (s32 (GetRowNum b)) n
      else
        let startPos :=
          if isOnlyFillResultSetBlock s then requiredPos
          else PickFillBlockStartPosition requiredPos (resultSetBlockCapacity s) in
        let '(res, b) := ExecuteForSharedBlock store b startPos requiredPos false in
        let n := match res with inr n => n | inl _ => rowNum s end in
        with_count (with_sharedBlock s (Some b)) (resultSetBlockCapacity s) n
  end.

Definition GetRowCount (s : SqliteSharedResultSet) : Z * Z * SqliteSharedResultSet :=
  let s := if rowNum s =? NO_COUNT then FillSharedBlock s 0 else s in
  (E_OK, rowNum s, s).

Definition OnGo (s : SqliteSharedResultSet) (newPosition : Z) : bool * SqliteSharedResultSet :=
  match GetBlock s with
  | None => (true, FillSharedBlock s newPosition)
  | Some b =>
      if newPosition >=? s32 (GetRowNum b) then (true, FillSharedBlock s newPosition)
      else (true, s)
  end.

(** ** Column names *)
Definition CheckSession (s : SqliteSharedResultSet) : Z :=
  if negb (thread store =? tid s) then E_STEP_RESULT_SET_CROSS_THREADS else E_OK.

Definition PrepareStep (s : SqliteSharedResultSet) : Z * SqliteSharedResultSet :=
  if isClosed s then (E_STEP_RESULT_CLOSED, s)
  else
    match sqliteStatement s with
    | Some _ => (CheckSession s, s)
    | None =>
        let '(errCode, st) := BeginStepQuery store in
        match st with
        | None => (errCode, s)
        | Some st => (E_OK, with_statement s (Some st) (thread store))
        end
    end.

Fixpoint column_names (st : Statement) (n : nat) (i : Z) (columnNames : list string)
    : Z * list string :=
  match n with
  | O => (E_OK, columnNames)
  | S n =>
      match stmt_GetColumnName st i with
      | inr columnName => column_names st n (i + 1) (columnNames ++ [columnName])
      | inl e => (e, [])
      end
  end.

Definition GetAllColumnNames (s : SqliteSharedResultSet)
    : Z * list string * SqliteSharedResultSet :=
  let '(errCode, s) := PrepareStep s in
  if negb (errCode =? 0) then (errCode, [], s)
  else
    match sqliteStatement s with
    | None => (errCode, [], s)
    | Some st =>
        match stmt_GetColumnCount st with
        | inr columnCount =>
            let '(errCode, columnNames) := column_names st (Z.to_nat columnCount) 0 [] in
            if negb (errCode =? 0) then (errCode, columnNames, s)
            else (E_OK, columnNames, with_statement s None (tid s))
        | inl e => (e, [], s)
        end
    end.

(** ** Moving *)
Definition GoToRow (s : SqliteSharedResultSet) (position : Z) : Z * SqliteSharedResultSet :=
  let '(_, rowCnt, s) := GetRowCount s in
  if position >=? rowCnt then (E_ERROR, with_pos s rowCnt)
  else if position <? 0 then (E_ERROR, with_pos s INIT_POS)
  else if position =? rs_rowPos s then (E_OK, s)
  else
    let '(result, s) :=
      match sharedBlock_ s with
      | None => OnGo s position
      | Some b => if u32 position >=? GetRowNum b then OnGo s position else (true, s)
      end in
    if negb result then (E_ERROR, with_pos s INIT_POS) else (E_OK, with_pos s position).

#[global] Instance shared_ops : ResultSetOps SqliteSharedResultSet := {|
  ResultSet.rowPos := rs_rowPos;
  ResultSet.GetRowCount := GetRowCount;
  ResultSet.GetAllColumnNames := GetAllColumnNames;
  ResultSet.GoToRow := GoToRow;
|}.

(** ** Reading *)
Definition CheckState (s : SqliteSharedResultSet) (columnIndex : Z)
    : Z * SqliteSharedResultSet :=
  match sharedBlock_ s with
  | None => (E_ERROR, s)
  | Some _ =>
      let '(count, s) := GetColumnCount s in
      let cnt := match count with Ok n => n | _ => 0 end in
      if (columnIndex >=? cnt) || (columnIndex <? 0) then (E_INVALID_COLUMN_INDEX, s)
      else
        let '(_, rowCnt, s) := GetRowCount s in
        if (rs_rowPos s <? 0) || (rs_rowPos s >=? rowCnt) then (E_INVALID_STATEMENT, s)
        else (E_OK, s)
  end.

(** The block and the cell at the cursor, for the getters. *)
Definition with_cell {A} (s : SqliteSharedResultSet) (columnIndex : Z)
    (f : SharedBlock -> Z -> outcome A) : outcome A * SqliteSharedResultSet :=
  let '(errorCode, s) := CheckState s columnIndex in
  if negb (errorCode =? E_OK) then (Err errorCode, s)
  else
    match sharedBlock_ s with
    | None => (Undefined, s)
    | Some b =>
        match GetCellUnit b (u32 (rs_rowPos s)) (u32 columnIndex) with
        | None => (Err E_ERROR, s)
        | Some cellUnit => (f b cellUnit, s)
        end
    end.

Definition GetColumnType (s : SqliteSharedResultSet) (columnIndex : Z) : outcome ColumnType :=
  match sharedBlock_ s with
  | None => Undefined
  | Some b =>
      match GetCellUnit b (u32 (rs_rowPos s)) (u32 columnIndex) with
      | None => Err E_ERROR
      | Some cellUnit => Ok (ColumnType_of (cell_type b cellUnit))
      end
  end.

Definition GetBlob (s : SqliteSharedResultSet) (columnIndex : Z)
    : outcome (list byte) * SqliteSharedResultSet :=
  with_cell s columnIndex (fun b cellUnit =>
    let type := cell_type b cellUnit in
    if (type =? CELL_UNIT_TYPE_BLOB) || (type =? CELL_UNIT_TYPE_STRING) then
      let '(size, blob) := GetCellUnitValue b cellUnit in
      match blob with
      | Some blob => if size =? 0 then Ok [] else Ok blob
      | None => Ok []
      end
    else if (type =? CELL_UNIT_TYPE_INTEGER) || (type =? CELL_UNIT_TYPE_NULL)
            || (type =? CELL_UNIT_TYPE_FLOAT) then Ok []
    else Err E_INVALID_OBJECT_TYPE).

Section Conversions.
Context `{CLib}.

Definition GetString (s : SqliteSharedResultSet) (columnIndex : Z)
    : outcome (list byte) * SqliteSharedResultSet :=
  with_cell s columnIndex (fun b cellUnit =>
    let type := cell_type b cellUnit in
    if type =? CELL_UNIT_TYPE_STRING then
      let '(sizeIncludingNull, tempValue) := GetCellUnitValue b cellUnit in
      match tempValue with
      | Some v => if sizeIncludingNull <=? 1 then Err E_ERROR else Ok (c_str v)
      | None => Err E_ERROR
      end
    else if type =? CELL_UNIT_TYPE_INTEGER then Ok (to_bytes (to_string (cell_long b cellUnit)))
    else if type =? CELL_UNIT_TYPE_FLOAT then Ok (print_double (cell_double b cellUnit))
    else Err E_ERROR).

Definition GetInt (s : SqliteSharedResultSet) (columnIndex : Z)
    : outcome Z * SqliteSharedResultSet :=
  with_cell s columnIndex (fun b cellUnit => Ok (s32 (cell_long b cellUnit))).

Definition GetLong (s : SqliteSharedResultSet) (columnIndex : Z)
    : outcome Z * SqliteSharedResultSet :=
  with_cell s columnIndex (fun b cellUnit =>
    let type := cell_type b cellUnit in
    if type =? CELL_UNIT_TYPE_INTEGER then Ok (cell_long b cellUnit)
    else if type =? CELL_UNIT_TYPE_STRING then
      let '(sizeIncludingNull, tempValue) := GetCellUnitValue b cellUnit in
      match tempValue with
      | Some v => Ok (if sizeIncludingNull >? 1 then strtoll (c_str v) else 0)
      | None => Ok 0
      end
    else if type =? CELL_UNIT_TYPE_FLOAT then Ok (double_to_int64 (cell_double b cellUnit))
    else if (type =? CELL_UNIT_TYPE_NULL) || (type =? CELL_UNIT_TYPE_BLOB) then Ok 0
    else Err E_INVALID_OBJECT_TYPE).

Definition GetDouble (s : SqliteSharedResultSet) (columnIndex : Z)
    : outcome Z * SqliteSharedResultSet :=
  with_cell s columnIndex (fun b cellUnit =>
    let type := cell_type b cellUnit in
    if type =? CELL_UNIT_TYPE_FLOAT then Ok (cell_double b cellUnit)
    else if type =? CELL_UNIT_TYPE_STRING then
      let '(sizeIncludingNull, tempValue) := GetCellUnitValue b cellUnit in
      match tempValue with
      | Some v => Ok (if sizeIncludingNull >? 1 then strtod (c_str v) else 0)
      | None => Ok 0
      end
    else if type =? CELL_UNIT_TYPE_INTEGER then Ok (int64_to_double (cell_long b cellUnit))
    else if (type =? CELL_UNIT_TYPE_NULL) || (type =? CELL_UNIT_TYPE_BLOB) then Ok 0
    else Err E_INVALID_OBJECT_TYPE).

Definition IsColumnNull (s : SqliteSharedResultSet) (columnIndex : Z)
    : outcome bool * SqliteSharedResultSet :=
  with_cell s columnIndex (fun b cellUnit =>
    Ok (cell_type b cellUnit =? CELL_UNIT_TYPE_NULL)).
End Conversions.
End Set_.

#[global] Arguments GetRowCount : simpl never.
#[global] Arguments GetAllColumnNames : simpl never.
#[global] Arguments FillSharedBlock : simpl never.
