(* ===== verification/SharedResultSetSpec.v ===== *)
(** * Correctness of the shared result set

    Proved against what the store promises: that a fill leaves a window of the
    query's rows in the block. The connection's [ExecuteForSharedBlock] discharges
    that promise. *)
From S2P Require Import Prelude Memory Strings RdbErrno SharedBlock SharedBlockRepr SharedBlockProps SharedBlockFill SharedBlockFillSpec ResultSet SharedResultSet.
From Stdlib Require Import Ascii.

#[local] Open Scope list_scope.

(** ** What the store promises *)
Class StoreShows `{SecureC} (store : Store) (names : list string) (rs : list (list value)) := {
  shows_cols : (0 < length names)%nat /\ Z.of_nat (length names) <= COL_MAX_NUM;
  shows_len : Z.of_nat (length rs) < 2147483647;
  shows_fill b start required countAll :
    block_ok b -> 0 <= start ->
    exists info, filled (length names) rs start required countAll info /\
      ExecuteForSharedBlock store b start required countAll =
        (if (totalRows info >? 0) && (addedRows info =? 0) then inl E_ERROR
         else inr (s32 (GetCombinedData (startPos info) (totalRows info))),
         SharedBlockFill.sharedBlock info);
  shows_names :
    exists st, BeginStepQuery store = (E_OK, Some st) /\
      stmt_GetColumnCount st = inr (Z.of_nat (length names)) /\
      forall i name, names !! i = Some name -> stmt_GetColumnName st (Z.of_nat i) = inr name;
}.

(** The connection as a store: every execution sees the answers [steps] of SQLite. *)
Definition statement_of (names : list string) : Statement := {|
  stmt_GetColumnCount := inr (Z.of_nat (length names));
  stmt_GetColumnName i :=
    match names !! Z.to_nat i with Some name => inr name | None => inl E_INVALID_COLUMN_INDEX end;
|}.

Definition connection_store `{SecureC} (names : list string) (steps : list step) : Store := {|
  ExecuteForSharedBlock b start required countAll :=
    match SharedBlockFill.ExecuteForSharedBlock b (Z.of_nat (length names)) steps
            start required countAll with
    | Some res => res
    | None => (inl E_ERROR, b)
    end;
  BeginStepQuery := (E_OK, Some (statement_of names));
  thread := 0;
|}.

Lemma connection_store_shows `{SecureC} names steps rs :
  (0 < length names)%nat -> Z.of_nat (length names) <= COL_MAX_NUM ->
  Z.of_nat (length rs) < 2147483647 -> delivers (length names) 0 steps rs ->
  StoreShows (connection_store names steps) names rs.
Proof.
  intros Hn Hmax Hlen Hd. split; [done|done| |].
  - intros b start required countAll Hb Hs.
    destruct (ExecuteForSharedBlock_spec (length names) rs steps b start required countAll)
      as (info & Hf & E); try done; [lia|]. exists info. split; [done|]. simpl. by rewrite E.
  - exists (statement_of names). split_and!; [done|done|].
    intros i name Hi. simpl. by rewrite Nat2Z.id, Hi.
Qed.

(** The combined word keeps the row count in its low half. *)
Lemma lor_low h total :
  h mod 4294967296 = 0 -> 0 <= total < 4294967296 -> Z.lor h total = h + total.
Proof.
  intros Hh Ht. symmetry. apply Z.add_nocarry_lor. apply Z.bits_inj'. intros i Hi.
  rewrite Z.land_spec, Z.bits_0. destruct (Z.lt_ge_cases i 32).
  - replace h with (Z.shiftl (h / 4294967296) 32).
    + by rewrite Z.shiftl_spec_low.
    + rewrite Z.shiftl_mul_pow2 by lia. pose proof (Z.div_mod h 4294967296). lia.
  - rewrite <- (Z.mod_small total (2 ^ 32)) by lia.
    rewrite Z.mod_pow2_bits_high by lia. apply andb_false_r.
Qed.

Lemma s32_s64_low h total :
  h mod 4294967296 = 0 -> 0 <= total < 2147483648 -> s32 (s64 (h + total)) = total.
Proof.
  intros Hh Ht. unfold s32, s64, swrap. change (2 ^ (64 - 1)) with 9223372036854775808.
  change (2 ^ (32 - 1)) with 2147483648. change (2 ^ 64) with 18446744073709551616.
  change (2 ^ 32) with 4294967296. rewrite (Z.mod_eq _ 18446744073709551616) by lia.
  set (q := (h + total + 9223372036854775808) / 18446744073709551616).
  pose proof (Z.div_mod h 4294967296 ltac:(lia)) as Hd. rewrite Hh in Hd.
  replace (h + total + 9223372036854775808 - 18446744073709551616 * q - 9223372036854775808
           + 2147483648)
    with (total + 2147483648 + (h / 4294967296 - 4294967296 * q) * 4294967296) by lia.
  rewrite Z.mod_add, Z.mod_small by lia. lia.
Qed.

Lemma combined_total st total :
  0 <= total < 2147483648 -> s32 (GetCombinedData st total) = total.
Proof.
  intros Ht. unfold GetCombinedData, OFFSET. rewrite (u32_small total), (u64_small total) by lia.
  set (h := u64 (Z.shiftl _ 32)).
  assert (Hh : h mod 4294967296 = 0).
  { unfold h. unfold u64 at 1, wrap. rewrite Z.shiftl_mul_pow2 by lia.
    rewrite Z.mod_mod_divide by (by exists 4294967296).
    apply Z.mod_mul. lia. }
  rewrite lor_low by (done || lia). by apply s32_s64_low.
Qed.

(** ** Reading through the block *)
Lemma GetCellUnitValue_length b p size bs :
  GetCellUnitValue b p = (size, Some bs) -> length bs = Z.to_nat size.
Proof.
  unfold GetCellUnitValue. destruct (OffsetToPtr b _ _); intros E; simplify_eq.
  apply length_rd_bytes.
Qed.

Lemma GetCellUnitValue_size b p size bs : GetCellUnitValue b p = (size, Some bs) -> 0 <= size.
Proof.
  unfold GetCellUnitValue. destruct (OffsetToPtr b _ _); intros E; simplify_eq.
  unfold cell_size, get32. apply rd_range.
Qed.

(** The cell unit behind a cell a client reads. *)
Lemma read_cell_unit b r c x :
  read_cell b r c = Some x ->
  exists p, GetCellUnit b r c = Some p /\
    match x with
    | CNull => cell_type b p = CELL_UNIT_TYPE_NULL
    | CLong z => cell_type b p = CELL_UNIT_TYPE_INTEGER /\ cell_long b p = z
    | CDouble z => cell_type b p = CELL_UNIT_TYPE_FLOAT /\ cell_double b p = z
    | CString bs => cell_type b p = CELL_UNIT_TYPE_STRING /\
        exists size, GetCellUnitValue b p = (size, Some bs) /\ length bs = Z.to_nat size
    | CBlob bs => cell_type b p = CELL_UNIT_TYPE_BLOB /\
        exists size, GetCellUnitValue b p = (size, Some bs) /\ length bs = Z.to_nat size
    end.
Proof.
  unfold read_cell. destruct (GetCellUnit b r c) as [p|]; [|done]. intros E. exists p.
  split; [done|].
  destruct (cell_type b p =? CELL_UNIT_TYPE_NULL) eqn:E0; [to_prop; by simplify_eq|].
  destruct (cell_type b p =? CELL_UNIT_TYPE_INTEGER) eqn:E1; [to_prop; by simplify_eq|].
  destruct (cell_type b p =? CELL_UNIT_TYPE_FLOAT) eqn:E2; [to_prop; by simplify_eq|].
  destruct (GetCellUnitValue b p) as [size [bs|]] eqn:Ev; simpl in E;
    [|repeat case_if_in E; done].
  pose proof (GetCellUnitValue_length b p size bs Ev).
  destruct (cell_type b p =? CELL_UNIT_TYPE_STRING) eqn:E3; [to_prop; simplify_eq; eauto|].
  destruct (cell_type b p =? CELL_UNIT_TYPE_BLOB) eqn:E4; [to_prop; simplify_eq; eauto|done].
Qed.

(** ** A result that fits in the block *)
Section Fits.
Context `{SecureC} (store : Store) (names : list string) (rs : list (list value)).
Context `{Hshows : !StoreShows store names rs}.

Abbreviation len := (Z.of_nat (length rs)).

(** The first fill of the block takes every row. *)
Definition fits (b : SharedBlock) : Prop :=
  block_ok b /\
  GetRowNum (snd (ExecuteForSharedBlock store (snd (SharedBlock.Clear b)) 0 0 true)) = len.

(** The block holds the whole result. *)
Definition loaded (b : SharedBlock) : Prop :=
  block_ok b /\ GetRowNum b = len /\
  forall r c, (r < length rs)%nat ->
    read_cell b (Z.of_nat r) (Z.of_nat c) = vals ← rs !! r; cell_of <$> vals !! c.

Definition set_inv (s : SqliteSharedResultSet) : Prop :=
  isClosed s = false /\ sqliteStatement s = None /\ -1 <= rs_rowPos s <= len /\
  exists b, sharedBlock_ s = Some b /\
    (rowNum s = NO_COUNT /\ fits b \/ rowNum s = len /\ loaded b).

Lemma mk_set_inv s b :
  isClosed s = false -> sqliteStatement s = None -> -1 <= rs_rowPos s <= len ->
  sharedBlock_ s = Some b -> rowNum s = len -> loaded b -> set_inv s.
Proof. intros. split_and!; try done; try lia. exists b. auto. Qed.

Lemma Clear_block_ok b : block_ok b -> block_ok (snd (SharedBlock.Clear b)).
Proof.
  intros Hb. destruct (Clear_spec b Hb) as (b' & -> & HR & _). by eapply repr_block_ok.
Qed.

Lemma first_fill b :
  fits b ->
  exists b', ExecuteForSharedBlock store (snd (SharedBlock.Clear b)) 0 0 true = (inr len, b') /\
    loaded b'.
Proof.
  intros [Hb Hk]. destruct (shows_fill (snd (SharedBlock.Clear b)) 0 0 true) as (info & Hf & E);
    [by apply Clear_block_ok|lia|]. rewrite E in *. simpl in Hk.
  destruct Hf as (Hw & _ & _ & _ & _ & Ht). specialize (Ht (or_intror eq_refl)).
  rewrite (window_row_num _ _ _ Hw) in Hk. rewrite Ht, Hk.
  pose proof shows_len as Hlen.
  exists (SharedBlockFill.sharedBlock info). split.
  - rewrite combined_total by lia. destruct (len >? 0) eqn:E1, (len =? 0) eqn:E2; to_prop; try done.
    lia.
  - split_and!.
    + destruct Hw as (_ & _ & _ & k & _ & _ & HR). by eapply repr_block_ok.
    + by rewrite (window_row_num _ _ _ Hw).
    + intros r c Hr. rewrite (window_cell _ _ _ r c Hw) by lia.
      destruct Hw as (Hs & _ & _ & k & Hk' & Hkr & _).
      replace (Z.to_nat (startPos info) + r)%nat with r by lia. done.
Qed.

(** After [GetRowCount] the count is known and the block is loaded. *)
Lemma GetRowCount_spec s :
  set_inv s ->
  exists s' b, GetRowCount store s = (E_OK, len, s') /\
    set_inv s' /\ rs_rowPos s' = rs_rowPos s /\ sharedBlock_ s' = Some b /\
    rowNum s' = len /\ loaded b.
Proof.
  intros (Hc & Hst & Hp & b & Hb & Hr). unfold GetRowCount.
  destruct Hr as [[Hr Hok]|[Hr Hl]]; rewrite Hr.
  - rewrite Z.eqb_refl. unfold FillSharedBlock, ClearBlock. rewrite Hb. simpl. rewrite Hr, Z.eqb_refl.
    destruct (first_fill b Hok) as (b' & -> & Hl).
    eexists _, b'. split; [done|]. split_and!; try done. by apply (mk_set_inv _ b').
  - rewrite (proj2 (Z.eqb_neq _ _)) by (unfold NO_COUNT; lia).
    exists s, b. rewrite Hr. split_and!; try done. by apply (mk_set_inv _ b).
Qed.

(** A move inside the result finds the block loaded and does not touch it. *)
Lemma GoToRow_inside s r :
  set_inv s -> (r < length rs)%nat ->
  exists s' b, GoToRow store s (Z.of_nat r) = (E_OK, s') /\ set_inv s' /\
    rs_rowPos s' = Z.of_nat r /\ sharedBlock_ s' = Some b /\ rowNum s' = len /\ loaded b.
Proof.
  intros Hi Hr. destruct (GetRowCount_spec s Hi) as (s1 & b & E & Hi1 & Hp1 & Hb & Hn & Hl).
  pose proof shows_len. unfold GoToRow. rewrite E.
  rewrite Z.geb_leb, (proj2 (Z.leb_gt len (Z.of_nat r))), (proj2 (Z.ltb_ge _ 0)) by lia.
  destruct (Z.of_nat r =? rs_rowPos s1) eqn:E3; to_prop; [by exists s1, b|].
  pose proof Hl as (_ & Hk & _). rewrite Hb, Hk, u32_small by lia.
  rewrite Z.geb_leb, (proj2 (Z.leb_gt len (Z.of_nat r))) by lia.
  exists (with_pos s1 (Z.of_nat r)), b. split; [done|]. split_and!; try done.
  destruct Hi1 as (H1 & H2 & _). apply (mk_set_inv _ b); try done. simpl. lia.
Qed.

#[global] Instance set_cursor : @Cursor SqliteSharedResultSet (shared_ops store) set_inv len.
Proof.
  split.
  - pose proof shows_len. lia.
  - intros s (_ & _ & Hp & _). exact Hp.
  - intros s Hi. destruct (GetRowCount_spec s Hi) as (s' & b & E & Hi' & Hp & _). by exists s'.
  - intros s p Hi Hp. destruct (Z.lt_ge_cases p 0) as [Hneg|Hpos];
      [|destruct (Z.lt_ge_cases p len) as [Hlt|Hge]].
    + destruct (GetRowCount_spec s Hi) as (s1 & b & E & Hi1 & Hp1 & Hb & Hr & Hl).
      exists (with_pos s1 INIT_POS). simpl. unfold GoToRow. rewrite E.
      rewrite Z.geb_leb, (proj2 (Z.leb_gt len p)), (proj2 (Z.ltb_lt p 0)),
        (proj2 (Z.leb_gt 0 p)) by lia.
      split; [|done]. destruct Hi1 as (H1 & H2 & _).
      apply (mk_set_inv _ b); try done. simpl. unfold INIT_POS. lia.
    + destruct (GoToRow_inside s (Z.to_nat p) Hi) as (s' & b & E & Hi' & Hp' & _); [lia|].
      rewrite Z2Nat.id in E, Hp' by lia. exists s'. split; [done|]. simpl. rewrite E, Hp'.
      by rewrite (proj2 (Z.leb_le 0 p)), (proj2 (Z.ltb_lt p len)), (proj2 (Z.ltb_ge p 0)) by lia.
    + destruct (GetRowCount_spec s Hi) as (s1 & b & E & Hi1 & Hp1 & Hb & Hr & Hl).
      exists (with_pos s1 len). simpl. unfold GoToRow. rewrite E.
      rewrite Z.geb_leb, (proj2 (Z.leb_le len p)), (proj2 (Z.ltb_ge p len)),
        (proj2 (Z.ltb_ge p 0)), andb_false_r by lia.
      split; [|done]. destruct Hi1 as (H1 & H2 & _). apply (mk_set_inv _ b); try done. simpl. lia.
Qed.

Lemma column_names_spec st :
  (forall i name, names !! i = Some name -> stmt_GetColumnName st (Z.of_nat i) = inr name) ->
  forall n acc, (length acc + n = length names)%nat -> acc = take (length acc) names ->
  column_names st n (Z.of_nat (length acc)) acc = (E_OK, names).
Proof.
  intros Hst. induction n as [|n IH]; intros acc Hl Ha; simpl.
  - f_equal. rewrite Ha, take_ge; [done|lia].
  - destruct (lookup_lt_is_Some_2 names (length acc)) as [name Hn]; [lia|].
    rewrite (Hst _ _ Hn). specialize (IH (acc ++ [name])). rewrite length_app in IH. simpl in IH.
    replace (Z.of_nat (length acc + 1)) with (Z.of_nat (length acc) + 1) in IH by lia.
    apply IH; [lia|]. rewrite Nat.add_1_r, (take_S_r _ _ name Hn). by rewrite <- Ha.
Qed.

Lemma GetAllColumnNames_spec s b :
  set_inv s -> sharedBlock_ s = Some b -> rowNum s = len -> loaded b ->
  exists s', GetAllColumnNames store s = (E_OK, names, s') /\
    set_inv s' /\ rs_rowPos s' = rs_rowPos s /\ sharedBlock_ s' = Some b /\ rowNum s' = len.
Proof.
  intros (Hc & Hst & Hp & _) Hb Hr Hl. unfold GetAllColumnNames, PrepareStep. rewrite Hc, Hst.
  destruct shows_names as (st & -> & Hcount & Hname). simpl. rewrite Hcount, Nat2Z.id.
  pose proof (column_names_spec st Hname (length names) [] eq_refl eq_refl) as E.
  change (column_names st (length names) 0 [] = (E_OK, names)) in E. rewrite E. simpl. eexists. split; [done|]. split_and!; try done.
  by apply (mk_set_inv _ b).
Qed.

Lemma set_s32_cols : s32 (Z.of_nat (length names)) = Z.of_nat (length names).
Proof. destruct shows_cols. unfold COL_MAX_NUM in *. apply s32_small. lia. Qed.

(** A getter on a row inside the result looks at the cell of that row. *)
Lemma with_cell_spec {A} s b r c v (f : SharedBlock -> Z -> outcome A) :
  set_inv s -> sharedBlock_ s = Some b -> rowNum s = len -> loaded b ->
  rs_rowPos s = Z.of_nat r -> (c < length names)%nat ->
  (vals ← rs !! r; vals !! c) = Some v ->
  exists p, read_cell b (Z.of_nat r) (Z.of_nat c) = Some (cell_of v) /\
    GetCellUnit b (Z.of_nat r) (Z.of_nat c) = Some p /\
    fst (with_cell store s (Z.of_nat c) f) = f b p.
Proof.
  intros Hi Hb Hr Hl Hpos Hc Hv. apply bind_Some in Hv as (vals & Hvals & Hv).
  pose proof (lookup_lt_Some _ _ _ Hvals) as Hrl. pose proof shows_len.
  assert (Hcell : read_cell b (Z.of_nat r) (Z.of_nat c) = Some (cell_of v)).
  { destruct Hl as (_ & _ & Hl). rewrite Hl by done. rewrite Hvals. simpl. by rewrite Hv. }
  destruct (read_cell_unit _ _ _ _ Hcell) as (p & Hp & _). exists p. split_and!; [done|done|].
  unfold with_cell, CheckState. rewrite Hb.
  destruct (GetAllColumnNames_spec s b Hi Hb Hr Hl) as (s1 & E1 & Hi1 & Hp1 & Hb1 & Hr1).
  unfold GetColumnCount. simpl ResultSet.GetAllColumnNames. rewrite E1.
  cbn -[GetRowCount FillSharedBlock Z.geb Z.ltb]. rewrite set_s32_cols.
  destruct (GetRowCount_spec s1 Hi1) as (s2 & b2 & E2 & _ & Hp2 & Hb2 & _).
  rewrite Z.geb_leb, (proj2 (Z.leb_gt _ _)), (proj2 (Z.ltb_ge _ _)) by lia. cbn [orb].
  rewrite E2, Hp2, Hp1, Hpos.
  rewrite (proj2 (Z.ltb_ge _ _)), Z.geb_leb, (proj2 (Z.leb_gt _ _)) by lia. simpl.
  assert (b2 = b) as ->.
  { unfold GetRowCount in E2. rewrite Hr1, (proj2 (Z.eqb_neq _ _)) in E2 by (unfold NO_COUNT; lia).
    congruence. }
  destruct shows_cols. unfold COL_MAX_NUM in *.
  rewrite Hb2, Hp2, Hp1, Hpos, !u32_small, Hp by lia. done.
Qed.

(** The same with what [read_cell] says about the cell unit. *)
Lemma with_cell_unit {A} s b r c v (f : SharedBlock -> Z -> outcome A) :
  set_inv s -> sharedBlock_ s = Some b -> rowNum s = len -> loaded b ->
  rs_rowPos s = Z.of_nat r -> (c < length names)%nat ->
  (vals ← rs !! r; vals !! c) = Some v ->
  exists p, fst (with_cell store s (Z.of_nat c) f) = f b p /\
    match v with
    | VNull => cell_type b p = CELL_UNIT_TYPE_NULL
    | VLong z => cell_type b p = CELL_UNIT_TYPE_INTEGER /\ cell_long b p = z
    | VDouble z => cell_type b p = CELL_UNIT_TYPE_FLOAT /\ cell_double b p = z
    | VText bs => cell_type b p = CELL_UNIT_TYPE_STRING /\
        GetCellUnitValue b p = (Z.of_nat (length bs) + 1, Some (bs ++ [zero]))
    | VBlob bs => cell_type b p = CELL_UNIT_TYPE_BLOB /\
        GetCellUnitValue b p = (Z.of_nat (length bs), Some bs)
    end.
Proof.
  intros Hi Hb Hr Hl Hpos Hc Hv.
  destruct (with_cell_spec s b r c v f Hi Hb Hr Hl Hpos Hc Hv) as (p & Hcell & Hu & E).
  destruct (read_cell_unit _ _ _ _ Hcell) as (p' & Hu' & Hx).
  assert (p' = p) as -> by congruence. exists p. split; [done|].
  destruct v; simpl in Hx; try done; destruct Hx as (Ht & size & Ev & Hlen);
    (split; [done|]); rewrite Ev; f_equal; pose proof (GetCellUnitValue_size _ _ _ _ Ev).
  - rewrite length_app in Hlen. simpl in Hlen. lia.
  - lia.
Qed.

(** Reading a result that fits in the block: after [GoToRow] to any row of it,
    each getter returns the value the query has there. Of a text [GetString] returns
    the characters before the first NUL, except that the empty text is reported as
    an error. *)
Theorem shared_set_reads `{CLib} s r c v :
  set_inv s -> (c < length names)%nat -> (vals ← rs !! r; vals !! c) = Some v ->
  exists s', GoToRow store s (Z.of_nat r) = (E_OK, s') /\ rs_rowPos s' = Z.of_nat r /\
    fst (IsColumnNull store s' (Z.of_nat c)) = Ok (match v with VNull => true | _ => false end) /\
    match v with
    | VNull => True
    | VLong z => fst (GetLong store s' (Z.of_nat c)) = Ok z /\
                 fst (GetInt store s' (Z.of_nat c)) = Ok (s32 z)
    | VDouble z => fst (GetDouble store s' (Z.of_nat c)) = Ok z
    | VText bs =>
        fst (GetString store s' (Z.of_nat c)) =
          (if decide (bs = []) then Err E_ERROR else Ok (c_str (bs ++ [zero])))
    | VBlob bs => fst (GetBlob store s' (Z.of_nat c)) = Ok bs
    end.
Proof.
  intros Hi Hc Hv. pose proof Hv as (vals & Hvals & _)%bind_Some.
  destruct (GoToRow_inside s r Hi (lookup_lt_Some _ _ _ Hvals))
    as (s' & b & E & Hi' & Hp & Hb & Hn & Hl).
  assert (Hcell := fun A f => @with_cell_unit A s' b r c v f Hi' Hb Hn Hl Hp Hc Hv).
  exists s'. split_and!; [done|done| |].
  - unfold IsColumnNull. edestruct Hcell as (p & -> & Hx).
    destruct v; simpl in Hx; [|destruct Hx as [Hx _] ..]; by rewrite Hx.
  - unfold GetLong, GetInt, GetDouble, GetString, GetBlob. destruct v as [|z|z|bs|bs]; [done| | | |].
    + split; edestruct Hcell as (p & -> & Ht & Ev); [by rewrite Ht, Ev|by rewrite Ev].
    + edestruct Hcell as (p & -> & Ht & Ev). by rewrite Ht, Ev.
    + edestruct Hcell as (p & -> & Ht & Ev). rewrite Ht, Ev. simpl.
      destruct bs as [|x bs]; [done|]. rewrite decide_False by done. simpl length.
      by rewrite (proj2 (Z.leb_gt _ _)) by lia.
    + edestruct Hcell as (p & -> & Ht & Ev). rewrite Ht, Ev. simpl.
      by destruct bs.
Qed.
End Fits.

(** ** A result that does not fit in the block *)
Section Refill.
Context `{SecureC} (store : Store) (names : list string) (rs : list (list value)).
Context `{Hshows : !StoreShows store names rs}.

Abbreviation len := (Z.of_nat (length rs)).

(** The block holds [k] rows of the result, from row [first] on. *)
Definition window_at (b : SharedBlock) (first k : nat) : Prop :=
  block_ok b /\ GetRowNum b = Z.of_nat k /\
  forall r c, read_cell b (Z.of_nat r) (Z.of_nat c) =
    vals ← take k (drop first rs) !! r; cell_of <$> vals !! c.

Lemma execute_window b start required countAll :
  block_ok b -> 0 <= start ->
  exists res b' first k,
    ExecuteForSharedBlock store b start required countAll = (res, b') /\
    window_at b' first k /\ start <= Z.of_nat first /\
    (countAll = true -> (0 < k)%nat -> res = inr len).
Proof.
  intros Hb Hs. destruct (shows_fill b start required countAll Hb Hs) as (info & Hf & E).
  destruct Hf as (Hw & _ & Hst & _ & _ & Ht). pose proof (window_row_num _ _ _ Hw) as Hk.
  destruct Hw as (Hs0 & _ & _ & k & Ek & Hkr & HR). rewrite Ek in *.
  eexists _, (SharedBlockFill.sharedBlock info), (Z.to_nat (startPos info)), k.
  split; [exact E|]. split_and!; [|lia|].
  - split_and!; [by eapply repr_block_ok|done|]. intros r c.
    rewrite (read_cell_spec _ _ r c HR). unfold tbl_get, rows_of. simpl.
    rewrite list_lookup_fmap. destruct (take k _ !! r); simpl; [|done]. apply list_lookup_fmap.
  - intros -> Hk0. rewrite (Ht (or_intror eq_refl)), (proj2 (Z.eqb_neq (Z.of_nat k) 0)),
      andb_false_r by lia. pose proof shows_len. by rewrite combined_total by lia.
Qed.

(** A later fill moves the window. *)
Lemma FillSharedBlock_again s b p :
  sharedBlock_ s = Some b -> block_ok b -> rowNum s <> NO_COUNT ->
  isOnlyFillResultSetBlock s = false ->
  exists b' first k, sharedBlock_ (FillSharedBlock store s p) = Some b' /\
    rs_rowPos (FillSharedBlock store s p) = rs_rowPos s /\ window_at b' first k /\
    PickFillBlockStartPosition p (resultSetBlockCapacity s) <= Z.of_nat first.
Proof.
  intros Hb Hok Hn Ho. unfold FillSharedBlock, ClearBlock. rewrite Hb. simpl.
  rewrite (proj2 (Z.eqb_neq _ _)), Ho by done.
  destruct (execute_window (snd (SharedBlock.Clear b))
    (PickFillBlockStartPosition p (resultSetBlockCapacity s)) p false)
    as (res & b' & f & k & E & Hw & Hf & _);
    [by apply Clear_block_ok|unfold PickFillBlockStartPosition; lia|].
  rewrite E. by exists b', f, k.
Qed.

Lemma GoToRow_refill s b p :
  sharedBlock_ s = Some b -> block_ok b -> isOnlyFillResultSetBlock s = false ->
  rs_rowPos s <> p -> 0 <= GetRowNum b <= p -> p < rowNum s < 2147483648 ->
  exists s' b' first k, GoToRow store s p = (E_OK, s') /\ rs_rowPos s' = p /\
    sharedBlock_ s' = Some b' /\ window_at b' first k /\
    PickFillBlockStartPosition p (resultSetBlockCapacity s) <= Z.of_nat first.
Proof.
  intros Hb Hok Ho Hne Hk Hp. unfold GoToRow, GetRowCount.
  rewrite (proj2 (Z.eqb_neq (rowNum s) NO_COUNT)) by (unfold NO_COUNT; lia).
  rewrite Z.geb_leb, (proj2 (Z.leb_gt (rowNum s) p)), (proj2 (Z.ltb_ge p 0)),
    (proj2 (Z.eqb_neq p (rs_rowPos s))) by (lia || auto).
  rewrite Hb, u32_small, Z.geb_leb, (proj2 (Z.leb_le (GetRowNum b) p)) by lia.
  unfold OnGo, GetBlock. rewrite Hb, s32_small, Z.geb_leb, (proj2 (Z.leb_le (GetRowNum b) p)) by lia.
  destruct (FillSharedBlock_again s b p Hb Hok) as (b' & f & k & Hb' & _ & Hw & Hf);
    [unfold NO_COUNT; lia|done|].
  eexists _, b', f, k. split; [done|]. by split_and!.
Qed.

Lemma first_count b :
  block_ok b ->
  exists s b1, GetRowCount store (new_SqliteSharedResultSet (Some b)) = (E_OK, rowNum s, s) /\
    sharedBlock_ s = Some b1 /\ block_ok b1 /\ 0 <= GetRowNum b1 /\
    resultSetBlockCapacity s = s32 (GetRowNum b1) /\
    isOnlyFillResultSetBlock s = false /\ rs_rowPos s = INIT_POS /\
    (0 < GetRowNum b1 -> rowNum s = len).
Proof.
  intros Hb. unfold GetRowCount, FillSharedBlock, ClearBlock. simpl.
  destruct (execute_window (snd (SharedBlock.Clear b)) 0 0 true)
    as (res & b1 & f & k & E & (Hok & Hn & _) & _ & Hres); [by apply Clear_block_ok|lia|].
  rewrite E. eexists _, b1. split; [done|]. simpl. split_and!; try done; [lia|].
  intros Hk. by rewrite Hres by (done || lia).
Qed.

(** Moving past the rows of the block: [GoToRow] to a row the first fill did not
    take refills the block from a later row [first] on and reports success, but the
    getters still look for row [p] of the block. They read row [first + p] of the
    result, or nothing, instead of row [p]. *)
Theorem refill_shifts_rows b b1 p :
  block_ok b ->
  sharedBlock_ (snd (GetRowCount store (new_SqliteSharedResultSet (Some b)))) = Some b1 ->
  0 < GetRowNum b1 <= Z.of_nat p -> Z.of_nat p < len ->
  exists s b2 first k,
    GoToRow store (snd (GetRowCount store (new_SqliteSharedResultSet (Some b)))) (Z.of_nat p)
      = (E_OK, s) /\
    rs_rowPos s = Z.of_nat p /\ sharedBlock_ s = Some b2 /\
    Z.of_nat p - GetRowNum b1 / 3 <= Z.of_nat first /\
    forall c, read_cell b2 (Z.of_nat p) (Z.of_nat c) =
      vals ← take k (drop first rs) !! p; cell_of <$> vals !! c.
Proof.
  intros Hb Hb1 Hk Hp. pose proof shows_len as Hlen.
  destruct (first_count b Hb) as (s1 & b1' & E & Hs & Hok & _ & Hcap & Ho & Hpos & Hn).
  rewrite E in *. simpl in *. rewrite Hs in Hb1. simplify_eq.
  destruct (GoToRow_refill s1 b1 (Z.of_nat p) Hs Hok Ho) as (s2 & b2 & f & k & E2 & Hp2 & Hb2 & Hw & Hf);
    [rewrite Hpos; unfold INIT_POS; lia|lia|rewrite Hn; lia|].
  exists s2, b2, f, k. split_and!; try done.
  - revert Hf. unfold PickFillBlockStartPosition, PICK_POS.
    rewrite Hcap, s32_small, Z.quot_div_nonneg by lia. lia.
  - intros c. by destruct Hw as (_ & _ & ->).
Qed.
End Refill.

(** The conversions, where a witness needs some. *)
#[global] Instance clib_zero : CLib := {|
  print_double _ := []; strtod _ := 0; double_to_int64 z := z; int64_to_double z := z;
|}.

Definition demo_names : list string := ["id"; "name"].
Definition demo_store : Store := connection_store demo_names demo_steps.
Definition demo_result : list (list value) := [demo_row 1; demo_row 2; demo_row 3].

#[global] Instance demo_shows : StoreShows demo_store demo_names demo_result.
Proof.
  apply connection_store_shows; [simpl; lia|done|done|].
  apply deliver_row; [apply demo_row_shows; lia|].
  apply deliver_busy; [done|]. apply deliver_row; [apply demo_row_shows; lia|].
  apply deliver_row; [apply demo_row_shows; lia|]. apply deliver_done.
Qed.

Lemma demo_set_inv : set_inv demo_store demo_result (new_SqliteSharedResultSet (Some block4k)).
Proof.
  split_and!; [done|done|done|done|]. exists block4k. split; [done|]. left. split; [done|].
  split; [apply block4k_ok|]. vm_compute. reflexivity.
Qed.

Lemma shared_set_reads_witness :
  exists s', GoToRow demo_store (new_SqliteSharedResultSet (Some block4k)) 1 = (E_OK, s') /\
    rs_rowPos s' = 1 /\ fst (IsColumnNull demo_store s' 0) = Ok false /\
    fst (GetLong demo_store s' 0) = Ok 2 /\ fst (GetInt demo_store s' 0) = Ok 2.
Proof.
  apply (shared_set_reads demo_store demo_names demo_result
           (new_SqliteSharedResultSet (Some block4k)) 1 0 (VLong 2));
    [apply demo_set_inv|simpl; lia|reflexivity].
Defined.

Lemma traversal_complete_witness :
  exists s1 s2 s3,
    GoToFirstRow (H := shared_ops demo_store) (new_SqliteSharedResultSet (Some block4k))
      = (E_OK, s1) /\ rowPos (ResultSetOps := shared_ops demo_store) s1 = 0 /\
    next_rows (H := shared_ops demo_store) 3 s1 = ([1; 2], s2) /\
    rowPos (ResultSetOps := shared_ops demo_store) s2 = 3 /\
    IsEnded (H := shared_ops demo_store) s2 = (Ok true, s3).
Proof.
  apply (@traversal_complete SqliteSharedResultSet (shared_ops demo_store)
           (set_inv demo_store demo_result) 3
           (set_cursor demo_store demo_names demo_result)
           (new_SqliteSharedResultSet (Some block4k)));
    [apply demo_set_inv|done].
Defined.

(** ** A block of 500 bytes, which takes two of the three rows *)
Definition block500 : SharedBlock := mkSharedBlock "db" 500 false ∅.
Definition demo_set : SqliteSharedResultSet := new_SqliteSharedResultSet (Some block500).
Definition demo_counted : SqliteSharedResultSet := snd (GetRowCount demo_store demo_set).
Definition demo_filled : SharedBlock := default block500 (sharedBlock_ demo_counted).

Lemma refill_shifts_rows_witness :
  exists s b2 first k,
    GoToRow demo_store demo_counted 2 = (E_OK, s) /\
    rs_rowPos s = 2 /\ sharedBlock_ s = Some b2 /\
    2 - GetRowNum demo_filled / 3 <= Z.of_nat first /\
    forall c, read_cell b2 2 (Z.of_nat c) =
      vals ← take k (drop first demo_result) !! 2%nat; cell_of <$> vals !! c.
Proof.
  apply (refill_shifts_rows demo_store demo_names demo_result block500 demo_filled 2).
  - split_and!; [done|done|done|]. intros a _. apply lookup_empty.
  - vm_compute. reflexivity.
  - vm_compute. split; [reflexivity|discriminate].
  - reflexivity.
Defined.

(** The cursor at row 2 finds no cell there, and back at row 0 it reads the id of
    row 2. *)
Example refill_reads_wrong_row :
  let s2 := snd (GoToRow demo_store demo_counted 2) in
  let s0 := snd (GoToRow demo_store s2 0) in
  (rs_rowPos s2, fst (GetLong demo_store s2 0), rs_rowPos s0, fst (GetLong demo_store s0 0)) =
  (2, Err E_ERROR, 0, Ok 3).
Proof. vm_compute. reflexivity. Qed.
