(* ===== verification/SqliteStatement.v ===== *)
(** * Prepared statements

    Model of frameworks/native/rdb/src/sqlite_statement.cpp. SQLite itself is not
    part of the repository: what its functions answer are arguments. *)
From S2P Require Import Prelude Memory Strings RdbErrno ValueObject SharedBlockFill SharedResultSet.
From Stdlib Require Import Ascii.

#[local] Open Scope list_scope.

(** [SQLiteError::ErrNo]. *)
Definition ErrNo (sqliteErr : Z) : Z := - sqliteErr.

(** A compiled statement of SQLite: what it says about itself, and the answers of
    the column functions for its current row. *)
Record sqlite3_stmt := mkStmt {
  sqlite3_stmt_readonly : bool;
  sqlite3_column_count : Z;
  sqlite3_bind_parameter_count : Z;
  sqlite3_column_name : Z -> option string;
  stmt_row : sqlite3_row;
}.

Record SqliteStatement := mkStatement {
  sql : string;
  stmtHandle : option sqlite3_stmt;
  readOnly : bool;
  columnCount : Z;
  numParameters : Z;
}.

Definition new_SqliteStatement : SqliteStatement := mkStatement "" None false 0 0.

(** [finalized] is the result of [sqlite3_finalize]. *)
Definition Finalize (s : SqliteStatement) (finalized : Z) : Z * SqliteStatement :=
  match stmtHandle s with
  | None => (E_OK, s)
  | Some _ =>
      (if negb (finalized =? SQLITE_OK) then ErrNo finalized else E_OK,
       mkStatement "" None false 0 0)
  end.

(** [prepared] is the result of [sqlite3_prepare_v2] on the new text. *)
Definition Prepare (s : SqliteStatement) (newSql : string) (prepared : Z * option sqlite3_stmt)
    (finalized : Z) : Z * SqliteStatement :=
  if decide (sql s = newSql) then (E_OK, s)
  else
    let '(errCode, stmt) := prepared in
    if negb (errCode =? SQLITE_OK) then (ErrNo errCode, s)
    else
      let s := snd (Finalize s finalized) in
      match stmt with
      | Some h =>
          (E_OK, mkStatement newSql (Some h) (sqlite3_stmt_readonly h) (sqlite3_column_count h)
                   (sqlite3_bind_parameter_count h))
      | None =>
          (* an empty text: a null handle is read-only, without columns and parameters *)
          (E_OK, mkStatement newSql None true 0 0)
      end.

(** ** Binding *)
Inductive bind_call :=
| BindNull (index : Z)
| BindInt64 (index value : Z)
| BindDouble (index value : Z)
| BindBlob (index : Z) (value : list byte)
| BindText (index : Z) (value : string).

Definition bind_of (index : Z) (arg : ValueObject) : bind_call :=
  match GetType arg with
  | ValueObject.TYPE_NULL => BindNull index
  | ValueObject.TYPE_INT =>
      BindInt64 index (match ValueObject.GetLong arg with Ok v => v | _ => 0 end)
  | ValueObject.TYPE_DOUBLE =>
      BindDouble index (match ValueObject.GetDouble arg with Ok v => v | _ => 0 end)
  | ValueObject.TYPE_BLOB =>
      BindBlob index (match ValueObject.GetBlob arg with Ok v => v | _ => [] end)
  | ValueObject.TYPE_BOOL =>
      BindInt64 index (match ValueObject.GetBool arg with Ok true => 1 | _ => 0 end)
  | ValueObject.TYPE_STRING =>
      BindText index (match ValueObject.GetString arg with Ok v => v | _ => "" end)
  end.

(** The calls made, and the result; [answer] is what SQLite says to a call. *)
Fixpoint InnerBindArguments_loop (answer : bind_call -> Z) (bindArgs : list ValueObject)
    (index : Z) (calls : list bind_call) : Z * list bind_call :=
  match bindArgs with
  | [] => (E_OK, calls)
  | arg :: bindArgs =>
      let call := bind_of index arg in
      let errCode := answer call in
      if negb (errCode =? SQLITE_OK) then (ErrNo errCode, calls ++ [call])
      else InnerBindArguments_loop answer bindArgs (index + 1) (calls ++ [call])
  end.

Definition InnerBindArguments (answer : bind_call -> Z) (bindArgs : list ValueObject)
    : Z * list bind_call := InnerBindArguments_loop answer bindArgs 1 [].

Definition BindArguments (s : SqliteStatement) (answer : bind_call -> Z)
    (bindArgs : list ValueObject) : Z * list bind_call :=
  let count := s32 (Z.of_nat (length bindArgs)) in
  if count =? 0 then (E_OK, [])
  else
    let abindArgs :=
      if negb (numParameters s =? 0) && (count <=? numParameters s) then
        bindArgs ++ replicate (Z.to_nat (numParameters s - count)) ValueObject_null
      else [] in
    if count >? numParameters s then (E_INVALID_BIND_ARGS_COUNT, [])
    else InnerBindArguments answer abindArgs.

(** [reset] and [cleared] are the results of the SQLite functions. *)
Definition ResetStatementAndClearBindings (s : SqliteStatement) (reset cleared : Z) : Z :=
  match stmtHandle s with
  | None => E_OK
  | Some _ =>
      if negb (reset =? SQLITE_OK) then ErrNo reset
      else if negb (cleared =? SQLITE_OK) then ErrNo cleared
      else E_OK
  end.

(** ** Columns *)
Definition GetColumnCount (s : SqliteStatement) : outcome Z :=
  match stmtHandle s with None => Err E_INVALID_STATEMENT | Some _ => Ok (columnCount s) end.

Definition GetNumParameters (s : SqliteStatement) : outcome Z :=
  match stmtHandle s with None => Err E_INVALID_STATEMENT | Some _ => Ok (numParameters s) end.

(** The two guards of the column functions. *)
Definition on_column {A} (s : SqliteStatement) (index : Z) (f : sqlite3_stmt -> outcome A)
    : outcome A :=
  match stmtHandle s with
  | None => Err E_INVALID_STATEMENT
  | Some h => if index >=? columnCount s then Err E_INVALID_COLUMN_INDEX else f h
  end.

Definition GetColumnName (s : SqliteStatement) (index : Z) : outcome string :=
  on_column s index (fun h =>
    match sqlite3_column_name h index with None => Err E_ERROR | Some name => Ok name end).

Definition GetColumnType (s : SqliteStatement) (index : Z) : outcome Z :=
  on_column s index (fun h =>
    let type := sqlite3_column_type (stmt_row h) index in
    if (type =? SQLITE_INTEGER) || (type =? SQLITE_FLOAT) || (type =? SQLITE_BLOB)
       || (type =? SQLITE_NULL) || (type =? SQLITE_TEXT) then Ok type
    else Err E_ERROR).

Definition GetColumnBlob (s : SqliteStatement) (index : Z) : outcome (list byte) :=
  on_column s index (fun h =>
    let row := stmt_row h in
    let type := sqlite3_column_type row index in
    if negb (type =? SQLITE_BLOB) && negb (type =? SQLITE_TEXT) && negb (type =? SQLITE_NULL)
    then Err E_INVALID_COLUMN_TYPE
    else
      let size := sqlite3_column_bytes row index in
      if size =? 0 then Ok [] else Ok (take (Z.to_nat size) (sqlite3_column_blob row index))).

Section Conversions.
Context `{CLib}.
(** [std::ostringstream] with 15 significant digits. *)
Context (print_double_15 : Z -> list byte).

Definition GetColumnString (s : SqliteStatement) (index : Z) : outcome (list byte) :=
  on_column s index (fun h =>
    let row := stmt_row h in
    let type := sqlite3_column_type row index in
    if type =? SQLITE_TEXT then
      Ok (match sqlite3_column_text row index with None => [] | Some v => c_str v end)
    else if type =? SQLITE_INTEGER then Ok (to_bytes (to_string (sqlite3_column_int64 row index)))
    else if type =? SQLITE_FLOAT then Ok (print_double_15 (sqlite3_column_double row index))
    else if type =? SQLITE_NULL then Ok []
    else if type =? SQLITE_BLOB then Err E_INVALID_COLUMN_TYPE
    else Err E_ERROR).

Definition GetColumnLong (s : SqliteStatement) (index : Z) : outcome Z :=
  on_column s index (fun h =>
    let row := stmt_row h in
    let type := sqlite3_column_type row index in
    if type =? SQLITE_INTEGER then Ok (sqlite3_column_int64 row index)
    else if type =? SQLITE_TEXT then
      Ok (match sqlite3_column_text row index with None => 0 | Some v => strtoll (c_str v) end)
    else if type =? SQLITE_FLOAT then Ok (double_to_int64 (sqlite3_column_double row index))
    else if type =? SQLITE_NULL then Ok 0
    else if type =? SQLITE_BLOB then Err E_INVALID_COLUMN_TYPE
    else Err E_ERROR).

Definition GetColumnDouble (s : SqliteStatement) (index : Z) : outcome Z :=
  on_column s index (fun h =>
    let row := stmt_row h in
    let type := sqlite3_column_type row index in
    if type =? SQLITE_FLOAT then Ok (sqlite3_column_double row index)
    else if type =? SQLITE_INTEGER then Ok (int64_to_double (sqlite3_column_int64 row index))
    else if type =? SQLITE_TEXT then
      Ok (match sqlite3_column_text row index with None => 0 | Some v => strtod (c_str v) end)
    else if type =? SQLITE_NULL then Ok 0
    else if type =? SQLITE_BLOB then Err E_INVALID_COLUMN_TYPE
    else Err E_ERROR).
End Conversions.

Definition IsReadOnly (s : SqliteStatement) : bool := readOnly s.

(** ** Invariant: the cached facts are those of the handle *)
Definition statement_ok (s : SqliteStatement) : Prop :=
  match stmtHandle s with
  | None => columnCount s = 0 /\ numParameters s = 0
  | Some h =>
      readOnly s = sqlite3_stmt_readonly h /\ columnCount s = sqlite3_column_count h /\
      numParameters s = sqlite3_bind_parameter_count h
  end.

Lemma new_statement_ok : statement_ok new_SqliteStatement.
Proof. done. Qed.

Lemma Finalize_ok s f : statement_ok s -> statement_ok (snd (Finalize s f)).
Proof. unfold Finalize. by destruct (stmtHandle s) eqn:E. Qed.

(** A failed preparation keeps the old statement. *)
Lemma Prepare_ok s newSql prepared f :
  statement_ok s ->
  statement_ok (snd (Prepare s newSql prepared f)) /\
  (fst (Prepare s newSql prepared f) <> E_OK -> snd (Prepare s newSql prepared f) = s) /\
  (fst (Prepare s newSql prepared f) = E_OK -> sql (snd (Prepare s newSql prepared f)) = newSql).
Proof.
  intros Hs. unfold Prepare. destruct (decide (sql s = newSql)) as [E|E]; [done|].
  destruct prepared as [err [h|]]; destruct (err =? SQLITE_OK) eqn:Ee; to_prop; simpl.
  - done.
  - split_and!; try done. unfold ErrNo, E_OK. unfold SQLITE_OK in Ee. lia.
  - done.
  - split_and!; try done. unfold ErrNo, E_OK. unfold SQLITE_OK in Ee. lia.
Qed.

(** ** Binding *)
Fixpoint bind_calls (args : list ValueObject) (index : Z) : list bind_call :=
  match args with
  | [] => []
  | arg :: args => bind_of index arg :: bind_calls args (index + 1)
  end.

Lemma InnerBindArguments_loop_ok answer args index calls :
  Forall (fun call => answer call = SQLITE_OK) (bind_calls args index) ->
  InnerBindArguments_loop answer args index calls = (E_OK, calls ++ bind_calls args index).
Proof.
  revert index calls. induction args as [|arg args IH]; intros index calls Ha; simpl in *.
  - by rewrite app_nil_r.
  - inversion_clear Ha as [|? ? H1 H2]. rewrite H1. simpl. rewrite IH by done.
    by rewrite <- app_assoc.
Qed.

Lemma bind_calls_lookup args : forall index i,
  bind_calls args index !! i = (fun arg => bind_of (index + Z.of_nat i) arg) <$> args !! i.
Proof.
  induction args as [|arg args IH]; intros index [|i]; simpl; try done.
  - by rewrite Z.add_0_r.
  - rewrite IH. destruct (args !! i); [|done]. cbn. do 2 f_equal. lia.
Qed.

(** Binding is positional and complete: too many arguments are refused before any
    is bound; otherwise, when SQLite accepts the values, parameter [i + 1] is bound
    to argument [i], the parameters left over are bound to null, and no parameter
    keeps an earlier value. *)
Theorem BindArguments_positional s answer args :
  0 < Z.of_nat (length args) < 2147483648 -> (forall call, answer call = SQLITE_OK) ->
  if Z.of_nat (length args) >? numParameters s then
    BindArguments s answer args = (E_INVALID_BIND_ARGS_COUNT, [])
  else
    exists calls, BindArguments s answer args = (E_OK, calls) /\
      Z.of_nat (length calls) = numParameters s /\
      forall i, Z.of_nat i < numParameters s ->
        calls !! i = Some (match args !! i with
                           | Some arg => bind_of (Z.of_nat i + 1) arg
                           | None => BindNull (Z.of_nat i + 1)
                           end).
Proof.
  intros Hlen Hans. unfold BindArguments. rewrite s32_small by lia.
  rewrite (proj2 (Z.eqb_neq (Z.of_nat (length args)) 0)) by lia.
  destruct (Z.of_nat (length args) >? numParameters s) eqn:E; [done|]. to_prop.
  rewrite (proj2 (Z.eqb_neq (numParameters s) 0)), (proj2 (Z.leb_le _ _)) by lia. simpl.
  set (all := args ++ _). unfold InnerBindArguments.
  rewrite InnerBindArguments_loop_ok by (apply Forall_true; auto). simpl.
  assert (Hall : Z.of_nat (length all) = numParameters s).
  { unfold all. rewrite length_app, length_replicate. lia. }
  assert (Hcalls : forall a i, length (bind_calls a i) = length a).
  { induction a as [|x a IH]; intros i; simpl; [done|]. by rewrite IH. }
  exists (bind_calls all 1). split_and!; [done|by rewrite Hcalls|].
  intros i Hi. rewrite bind_calls_lookup, (Z.add_comm 1). unfold all.
  destruct (args !! i) as [arg|] eqn:Ea.
  - by rewrite (lookup_app_l_Some _ _ _ _ Ea).
  - apply lookup_ge_None in Ea. rewrite lookup_app_r, lookup_replicate_2 by lia. done.
Qed.

Lemma BindArguments_positional_witness :
  exists calls,
    BindArguments (mkStatement "q" None false 0 3) (fun _ => SQLITE_OK)
      [ValueObject_int 7; ValueObject_string "x"] = (E_OK, calls) /\
    Z.of_nat (length calls) = 3 /\
    forall i, Z.of_nat i < 3 ->
      calls !! i = Some (match [ValueObject_int 7; ValueObject_string "x"] !! i with
                         | Some arg => bind_of (Z.of_nat i + 1) arg
                         | None => BindNull (Z.of_nat i + 1)
                         end).
Proof.
  apply (BindArguments_positional (mkStatement "q" None false 0 3) (fun _ => SQLITE_OK)
           [ValueObject_int 7; ValueObject_string "x"]); [simpl; lia|reflexivity].
Defined.
