(* ===== verification/StepResultSet.v ===== *)
(** * Result sets stepped row by row

    Model of frameworks/native/rdb/src/step_result_set.cpp. The set drives a
    prepared statement; what [sqlite3_step] answers during one execution of the
    query is a list given by the environment, and [sqlite3_reset] starts the
    execution again. *)
From S2P Require Import Prelude RdbErrno Strings ResultSet Memory SharedBlockFill SharedBlockFillSpec SharedResultSet SqliteStatement.

#[local] Open Scope list_scope.

Definition SQLITE_BUSY : Z := 5.
Definition SQLITE_LOCKED : Z := 6.
Definition SQLITE_ROW : Z := 100.
Definition SQLITE_DONE : Z := 101.
Definition STEP_QUERY_RETRY_MAX_TIMES : Z := 50.

(** One answer of [sqlite3_step]. *)
Inductive answer :=
| ARow (row : sqlite3_row)
| ADone
| ABusy
| ALocked
| AError (code : Z).

(** A statement under execution: the answers still to come. *)
Record cursor := mkCursor { c_stmt : SqliteStatement; c_rest : list answer }.

(** What the store and SQLite answer to this result set. *)
Record Query := {
  q_begin : Z * option SqliteStatement;
  q_answers : list answer;
  q_end : Z;
  q_thread : Z;
}.

Record StepResultSet := mkStep {
  ss_rowPos : Z;
  ss_isClosed : bool;
  rdb : bool;
  isAfterLast : bool;
  rowCount : Z;
  ss_tid : option Z;
  ss_statement : option cursor;
}.

Definition new_StepResultSet : StepResultSet :=
  mkStep INIT_POS false true false INIT_POS None None.

(** A computation that may dereference a null pointer, or that was given too small
    a bound on the number of loop iterations. *)
Inductive exec (A : Type) := Done (a : A) | NullDeref | NoFuel.
#[global] Arguments Done {A} a.
#[global] Arguments NullDeref {A}.
#[global] Arguments NoFuel {A}.

Section Step.
Context (q : Query).

Definition with_rowPos (s : StepResultSet) (p : Z) (c : option cursor) : StepResultSet :=
  mkStep p (ss_isClosed s) (rdb s) (isAfterLast s) (rowCount s) (ss_tid s) c.

(** ** Sessions *)
Definition CheckSession (s : StepResultSet) : Z :=
  if decide (Some (q_thread q) <> ss_tid s) then E_STEP_RESULT_SET_CROSS_THREADS else E_OK.

Definition PrepareStep (s : StepResultSet) : Z * StepResultSet :=
  if ss_isClosed s then (E_STEP_RESULT_CLOSED, s)
  else
    match ss_statement s with
    | Some _ => (CheckSession s, s)
    | None =>
        match q_begin q with
        | (errCode, None) => (errCode, s)
        | (_, Some st) =>
            (E_OK, mkStep (ss_rowPos s) (ss_isClosed s) (rdb s) (isAfterLast s) (rowCount s)
                     (Some (q_thread q)) (Some (mkCursor st (q_answers q))))
        end
    end.

Definition FinishStep (s : StepResultSet) : Z * StepResultSet :=
  let errCode := CheckSession s in
  if negb (errCode =? E_OK) then (errCode, s)
  else
    match ss_statement s with
    | None => (E_OK, s)
    | Some _ =>
        let s' := with_rowPos s INIT_POS None in
        (if rdb s then q_end q else errCode, s')
    end.

Definition Reset (s : StepResultSet) : StepResultSet :=
  let c := match ss_statement s with
           | Some c => Some (mkCursor (c_stmt c) (q_answers q))
           | None => None
           end in
  mkStep INIT_POS (ss_isClosed s) (rdb s) false (rowCount s) (ss_tid s) c.

Definition Close (s : StepResultSet) : Z * StepResultSet :=
  if ss_isClosed s then (E_OK, s)
  else
    let s := mkStep (ss_rowPos s) true (rdb s) (isAfterLast s) (rowCount s) (ss_tid s)
               (ss_statement s) in
    let '(errCode, s) := FinishStep s in
    (errCode, mkStep (ss_rowPos s) (ss_isClosed s) false (isAfterLast s) (rowCount s) (ss_tid s)
                (ss_statement s)).

(** ** Stepping *)

(** The statement at a new current row. *)
Definition at_row (st : SqliteStatement) (row : sqlite3_row) : SqliteStatement :=
  mkStatement (sql st)
    ((fun h => mkStmt (sqlite3_stmt_readonly h) (sqlite3_column_count h)
                 (sqlite3_bind_parameter_count h) (sqlite3_column_name h) row) <$> stmtHandle st)
    (readOnly st) (columnCount st) (numParameters st).

(** [Step] with the retries on a locked table: the code that ended the loop, or
    [None] when the retries are used up, and the statement. An execution that is
    over answers [SQLITE_DONE]. *)
Fixpoint step_retry (st : SqliteStatement) (rest : list answer) (retryCount : Z)
    : option Z * cursor :=
  match rest with
  | [] => (Some SQLITE_DONE, mkCursor st [])
  | ARow row :: rest => (Some SQLITE_ROW, mkCursor (at_row st row) rest)
  | ADone :: rest => (Some SQLITE_DONE, mkCursor st rest)
  | AError code :: rest => (Some code, mkCursor st rest)
  | ABusy :: rest | ALocked :: rest =>
      if retryCount >? STEP_QUERY_RETRY_MAX_TIMES then (None, mkCursor st rest)
      else step_retry st rest (retryCount + 1)
  end.

Definition GoToNextRow (s : StepResultSet) : exec (Z * StepResultSet) :=
  let '(errCode, s) := PrepareStep s in
  if negb (errCode =? E_OK) then Done (errCode, s)
  else
    match ss_statement s with
    | None => NullDeref
    | Some c =>
        let '(errCode, c) := step_retry (c_stmt c) (c_rest c) 0 in
        let s := with_rowPos s (ss_rowPos s) (Some c) in
        match errCode with
        | None => Done (E_STEP_RESULT_QUERY_EXCEEDED, s)
        | Some errCode =>
            if errCode =? SQLITE_ROW then Done (E_OK, with_rowPos s (ss_rowPos s + 1) (Some c))
            else if errCode =? SQLITE_DONE then
              let s := mkStep (ss_rowPos s) (ss_isClosed s) (rdb s) true (ss_rowPos s + 1)
                         (ss_tid s) (ss_statement s) in
              Done (E_STEP_RESULT_IS_AFTER_LAST, snd (FinishStep s))
            else Done (ErrNo errCode, snd (FinishStep s))
        end
    end.

(** The loop [while (position != rowPos)]; every round moves one row on, so
    [position - rowPos + 1] rounds are enough. *)
Fixpoint GoToRow_loop (fuel : nat) (s : StepResultSet) (position : Z)
    : exec (Z * StepResultSet) :=
  match fuel with
  | O => NoFuel
  | S fuel =>
      if position =? ss_rowPos s then Done (E_OK, s)
      else
        match GoToNextRow s with
        | Done (errCode, s) =>
            if negb (errCode =? E_OK) then Done (errCode, s) else GoToRow_loop fuel s position
        | NullDeref => NullDeref
        | NoFuel => NoFuel
        end
  end.

Definition row_fuel (position : Z) : nat := Z.to_nat (position + 2).

Definition GoToRow (s : StepResultSet) (position : Z) : exec (Z * StepResultSet) :=
  if negb (rdb s) then Done (E_ERROR, s)
  else if position <? 0 then Done (E_ERROR, Reset s)
  else if position =? ss_rowPos s then Done (E_OK, s)
  else
    let s := if position <? ss_rowPos s then Reset s else s in
    GoToRow_loop (row_fuel position) s position.

(** The loop [while (GoToNextRow() == E_OK)]; every round takes an answer. *)
Fixpoint count_loop (fuel : nat) (s : StepResultSet) : exec StepResultSet :=
  match fuel with
  | O => NoFuel
  | S fuel =>
      match GoToNextRow s with
      | Done (errCode, s) => if errCode =? E_OK then count_loop fuel s else Done s
      | NullDeref => NullDeref
      | NoFuel => NoFuel
      end
  end.

Definition answers_left (s : StepResultSet) : nat :=
  match ss_statement s with Some c => length (c_rest c) | None => length (q_answers q) end.

Definition GetRowCount (s : StepResultSet) : exec (Z * StepResultSet) :=
  if negb (rowCount s =? INIT_POS) then Done (rowCount s, s)
  else
    let oldPosition := ss_rowPos s in
    match count_loop (S (answers_left s)) s with
    | Done s =>
        let count := rowCount s in
        match GoToRow s oldPosition with
        | Done (_, s) => Done (count, s)
        | NullDeref => NullDeref
        | NoFuel => NoFuel
        end
    | NullDeref => NullDeref
    | NoFuel => NoFuel
    end.

Definition IsEnded (s : StepResultSet) : bool := isAfterLast s.
Definition IsStarted (s : StepResultSet) : bool := negb (ss_rowPos s =? INIT_POS).
Definition IsAtFirstRow (s : StepResultSet) : bool := ss_rowPos s =? 0.
Definition IsClosed (s : StepResultSet) : bool := ss_isClosed s.

(** ** Column names *)
Fixpoint names_loop (st : SqliteStatement) (n : nat) (i : Z) (columnNames : list string)
    : outcome (list string) :=
  match n with
  | O => Ok columnNames
  | S n => columnName <-- GetColumnName st i; names_loop st n (i + 1) (columnNames ++ [columnName])
  end.

Definition GetAllColumnNames (s : StepResultSet) : outcome (list string) * StepResultSet :=
  let '(errCode, s) := PrepareStep s in
  if negb (errCode =? 0) then (Err errCode, s)
  else
    match ss_statement s with
    | None => (Undefined, s)
    | Some c =>
        (columnCount <-- GetColumnCount (c_stmt c);
         names_loop (c_stmt c) (Z.to_nat columnCount) 0 [], s)
    end.

(** ** Getters: a null statement is dereferenced with undefined behaviour *)
Definition on_row {A} (s : StepResultSet) (f : SqliteStatement -> outcome A) : outcome A :=
  if ss_rowPos s =? INIT_POS then Err E_STEP_RESULT_QUERY_NOT_EXECUTED
  else match ss_statement s with None => Undefined | Some c => f (c_stmt c) end.

Definition GetColumnType (s : StepResultSet) (columnIndex : Z) : outcome ColumnType :=
  on_row s (fun st =>
    sqliteType <-- SqliteStatement.GetColumnType st columnIndex;
    Ok (if sqliteType =? SQLITE_INTEGER then TYPE_INTEGER
        else if sqliteType =? SQLITE_FLOAT then TYPE_FLOAT
        else if sqliteType =? SQLITE_BLOB then TYPE_BLOB
        else if sqliteType =? SQLITE_NULL then TYPE_NULL
        else TYPE_STRING)).

Definition GetBlob (s : StepResultSet) (columnIndex : Z) : outcome (list byte) :=
  on_row s (fun st => GetColumnBlob st columnIndex).

Definition IsColumnNull (s : StepResultSet) (columnIndex : Z) : outcome bool :=
  columnType <-- GetColumnType s columnIndex;
  Ok (match columnType with TYPE_NULL => true | _ => false end).

Section Conversions.
Context `{CLib} (print_double_15 : Z -> list byte).

Definition GetString (s : StepResultSet) (columnIndex : Z) : outcome (list byte) :=
  on_row s (fun st => GetColumnString print_double_15 st columnIndex).
Definition GetLong (s : StepResultSet) (columnIndex : Z) : outcome Z :=
  on_row s (fun st => GetColumnLong st columnIndex).
Definition GetInt (s : StepResultSet) (columnIndex : Z) : outcome Z :=
  on_row s (fun st => columnValue <-- GetColumnLong st columnIndex; Ok (s32 columnValue)).
Definition GetDouble (s : StepResultSet) (columnIndex : Z) : outcome Z :=
  on_row s (fun st => GetColumnDouble st columnIndex).
End Conversions.
End Step.

(** * Correctness of the stepped result set *)

(** ** Safety *)

(** Documented behaviour: [sqlite3_step] never answers [SQLITE_OK], and the store
    that gives no statement reports an error. *)
Definition answer_ok (a : answer) : Prop := match a with AError code => code <> 0 | _ => True end.
Definition query_ok (q : Query) : Prop :=
  (forall e, q_begin q = (e, None) -> e <> E_OK) /\ Forall answer_ok (q_answers q).

Section Safety.
Context (q : Query) (Hq : query_ok q).

(** On a row there is a statement. *)
Definition safe (s : StepResultSet) : Prop :=
  -1 <= ss_rowPos s /\ (ss_rowPos s <> INIT_POS -> ss_statement s <> None) /\
  (forall c, ss_statement s = Some c -> Forall answer_ok (c_rest c)).

Lemma step_retry_spec st rest n :
  Forall answer_ok rest ->
  let '(code, c) := step_retry st rest n in
  Forall answer_ok (c_rest c) /\ (length (c_rest c) <= length rest)%nat /\
  (code = Some SQLITE_ROW \/ code = Some SQLITE_DONE \/ code = None \/
   exists e, code = Some e /\ e <> 0) /\
  (rest <> [] -> (length (c_rest c) < length rest)%nat) /\ (rest = [] -> code = Some SQLITE_DONE).
Proof.
  intros Hr. revert n. induction Hr as [|a rest Ha Hr IH]; intros n; simpl.
  { split_and!; auto; done. }
  destruct a; simpl; try (split_and!; auto; try lia; done).
  - case_if; simpl; [split_and!; auto; try lia; done|]. specialize (IH (n + 1)).
    destruct (step_retry st rest (n + 1)) as [code c]. destruct IH as (H1 & H2 & H3 & _).
    split_and!; auto; try lia; done.
  - case_if; simpl; [split_and!; auto; try lia; done|]. specialize (IH (n + 1)).
    destruct (step_retry st rest (n + 1)) as [code c]. destruct IH as (H1 & H2 & H3 & _).
    split_and!; auto; try lia; done.
  - split_and!; auto; try lia; try done. right. right. right. eauto.
Qed.

Lemma PrepareStep_safe s :
  safe s ->
  let '(err, s') := PrepareStep q s in
  safe s' /\ ss_rowPos s' = ss_rowPos s /\ answers_left q s' = answers_left q s /\
  (err = E_OK -> ss_statement s' <> None).
Proof.
  intros Hs. unfold PrepareStep. destruct (ss_isClosed s); [done|].
  destruct (ss_statement s) as [c|] eqn:Es; [by split_and!; rewrite ?Es|].
  destruct (q_begin q) as [e [st|]] eqn:Eb; simpl.
  - split_and!; try done; [|by unfold answers_left; rewrite Es]. destruct Hs as (H1 & H2 & H3).
    split_and!; simpl; try done. intros c [= <-]. apply Hq.
  - split_and!; try done. intros ->. by apply Hq in Eb.
Qed.

Lemma FinishStep_safe s : safe s -> safe (snd (FinishStep q s)).
Proof.
  intros (H1 & H2 & H3). unfold FinishStep. case_if; [done|].
  destruct (ss_statement s) as [c|] eqn:Es; simpl; split_and!; simpl; rewrite ?Es; try done; lia.
Qed.

Lemma Reset_safe s : safe s -> safe (Reset q s).
Proof.
  intros (H1 & H2 & H3). unfold Reset. destruct (ss_statement s); split_and!; simpl; try done; try lia.
  intros c' [= <-]. apply Hq.
Qed.

Lemma GoToNextRow_safe s :
  safe s ->
  exists err s', GoToNextRow q s = Done (err, s') /\ safe s' /\
    (err = E_OK -> ss_rowPos s' = ss_rowPos s + 1 /\ (answers_left q s' < answers_left q s)%nat).
Proof.
  intros Hs. unfold GoToNextRow. pose proof (PrepareStep_safe s Hs) as Hp.
  destruct (PrepareStep q s) as [err s1]. destruct Hp as (Hs1 & Hp1 & Ha1 & Hst).
  destruct (err =? E_OK) eqn:E; to_prop; simpl; [|by exists err, s1].
  specialize (Hst E). destruct (ss_statement s1) as [c|] eqn:Es; [|done].
  pose proof Hs1 as (Hr1 & _ & Hc1). pose proof (step_retry_spec (c_stmt c) (c_rest c) 0 (Hc1 c Es)) as Hstep.
  destruct (step_retry (c_stmt c) (c_rest c) 0) as [code c'].
  destruct Hstep as (Hok & Hle & Hcode & Hlt & Hnil).
  assert (Hs2 : safe (with_rowPos s1 (ss_rowPos s1) (Some c'))).
  { split_and!; simpl; try done. by intros ? [= <-]. }
  unfold answers_left in Ha1 at 1. rewrite Es in Ha1.
  destruct Hcode as [->|[->|[->|(e & -> & He)]]]; simpl.
  - eexists _, _. split; [done|]. split.
    + split_and!; simpl; [lia|done|by intros ? [= <-]].
    + intros _. split; [simpl; lia|]. rewrite <- Ha1. unfold answers_left. simpl. apply Hlt.
      intros Hn. by specialize (Hnil Hn).
  - eexists _, _. split; [done|]. split; [|done]. apply FinishStep_safe.
    split_and!; simpl; try done. by intros ? [= <-].
  - eexists _, _. by split.
  - case_if; to_prop; [|case_if; to_prop].
    + eexists _, _. split; [done|]. split.
      * split_and!; simpl; [lia|done|by intros ? [= <-]].
      * intros _. split; [simpl; lia|]. rewrite <- Ha1. unfold answers_left. simpl. apply Hlt.
        intros Hn. specialize (Hnil Hn). by rewrite E0 in Hnil.
    + eexists _, _. split; [done|]. split; [|done]. apply FinishStep_safe.
      split_and!; simpl; try done. by intros ? [= <-].
    + eexists _, _. split; [done|]. split; [by apply FinishStep_safe|].
      unfold ErrNo, E_OK. lia.
Qed.

Lemma GoToRow_loop_safe fuel s p :
  safe s -> ss_rowPos s <= p -> p - ss_rowPos s < Z.of_nat fuel ->
  exists err s', GoToRow_loop q fuel s p = Done (err, s') /\ safe s'.
Proof.
  revert s. induction fuel as [|fuel IH]; intros s Hs Hp Hf; [lia|]. simpl.
  destruct (p =? ss_rowPos s) eqn:E; to_prop; [by eexists _, _|].
  destruct (GoToNextRow_safe s Hs) as (err & s1 & -> & Hs1 & Hn).
  destruct (err =? E_OK) eqn:Ee; to_prop; simpl; [|by eexists _, _].
  destruct (Hn Ee) as [Hp1 _]. apply IH; [done|lia|lia].
Qed.

Lemma GoToRow_safe s p :
  safe s -> exists err s', GoToRow q s p = Done (err, s') /\ safe s'.
Proof.
  intros Hs. unfold GoToRow. case_if; [by eexists _, _|]. case_if; to_prop.
  { eexists _, _. split; [done|by apply Reset_safe]. }
  case_if; to_prop; [by eexists _, _|]. pose proof Hs as (Hr & _).
  case_if; to_prop; (apply GoToRow_loop_safe; [try apply Reset_safe; done| |unfold row_fuel]).
  - simpl. unfold INIT_POS. lia.
  - simpl. unfold INIT_POS. lia.
  - lia.
  - lia.
Qed.

Lemma count_loop_safe fuel s :
  safe s -> (answers_left q s < fuel)%nat -> exists s', count_loop q fuel s = Done s' /\ safe s'.
Proof.
  revert s. induction fuel as [|fuel IH]; intros s Hs Hf; [lia|]. simpl.
  destruct (GoToNextRow_safe s Hs) as (err & s1 & -> & Hs1 & Hn).
  destruct (err =? E_OK) eqn:Ee; to_prop; [|by eexists]. destruct (Hn Ee). apply IH; [done|lia].
Qed.

Lemma GetRowCount_safe s :
  safe s -> exists n s', GetRowCount q s = Done (n, s') /\ safe s'.
Proof.
  intros Hs. unfold GetRowCount. case_if; [by eexists _, _|].
  destruct (count_loop_safe (S (answers_left q s)) s Hs) as (s1 & -> & Hs1); [lia|].
  destruct (GoToRow_safe s1 (ss_rowPos s) Hs1) as (err & s2 & -> & Hs2). by eexists _, _.
Qed.

Lemma Close_safe s : safe s -> safe (snd (Close q s)).
Proof.
  intros Hs. unfold Close. destruct (ss_isClosed s); [done|].
  set (s1 := mkStep _ true _ _ _ _ _). assert (Hs1 : safe s1) by exact Hs.
  pose proof (FinishStep_safe s1 Hs1) as H2. by destruct (FinishStep q s1).
Qed.

(** The states a client can reach. *)
Inductive reachable : StepResultSet -> Prop :=
| reach_new : reachable new_StepResultSet
| reach_next s err s' : reachable s -> GoToNextRow q s = Done (err, s') -> reachable s'
| reach_goto s p err s' : reachable s -> GoToRow q s p = Done (err, s') -> reachable s'
| reach_count s n s' : reachable s -> GetRowCount q s = Done (n, s') -> reachable s'
| reach_names s names s' : reachable s -> GetAllColumnNames q s = (names, s') -> reachable s'
| reach_finish s err s' : reachable s -> FinishStep q s = (err, s') -> reachable s'
| reach_close s err s' : reachable s -> Close q s = (err, s') -> reachable s'.

Lemma reachable_safe s : reachable s -> safe s.
Proof.
  induction 1 as [|s err s' _ IH E|s p err s' _ IH E|s n s' _ IH E|s names s' _ IH E
                 |s err s' _ IH E|s err s' _ IH E].
  - by split_and!.
  - destruct (GoToNextRow_safe s IH) as (e & s1 & E1 & H1 & _). rewrite E1 in E. by simplify_eq.
  - destruct (GoToRow_safe s p IH) as (e & s1 & E1 & H1). rewrite E1 in E. by simplify_eq.
  - destruct (GetRowCount_safe s IH) as (e & s1 & E1 & H1). rewrite E1 in E. by simplify_eq.
  - unfold GetAllColumnNames in E. pose proof (PrepareStep_safe s IH) as Hp.
    destruct (PrepareStep q s) as [e s1]. destruct Hp as (Hs1 & _).
    case_if_in E; [by simplify_eq|]. destruct (ss_statement s1); by simplify_eq.
  - pose proof (FinishStep_safe s IH) as H1. by rewrite E in H1.
  - pose proof (Close_safe s IH) as H1. by rewrite E in H1.
Qed.

(** C13: A stepped result set never dereferences a null statement and its loops
    terminate: in every state a client can reach, the moves and the row count
    return, and a getter that asks the statement has one. *)
Theorem step_set_safe s p :
  reachable s ->
  (exists err s', GoToNextRow q s = Done (err, s')) /\
  (exists err s', GoToRow q s p = Done (err, s')) /\
  (exists n s', GetRowCount q s = Done (n, s')) /\
  (forall A (f : SqliteStatement -> outcome A),
     (forall st, f st <> Undefined) -> on_row s f <> Undefined).
Proof.
  intros Hs%reachable_safe. split_and!.
  - destruct (GoToNextRow_safe s Hs) as (e & s1 & E & _). by eexists _, _.
  - destruct (GoToRow_safe s p Hs) as (e & s1 & E & _). by eexists _, _.
  - destruct (GetRowCount_safe s Hs) as (e & s1 & E & _). by eexists _, _.
  - intros A f Hf. unfold on_row. destruct (ss_rowPos s =? INIT_POS) eqn:E; [done|]. to_prop.
    destruct Hs as (_ & Hst & _). specialize (Hst E). by destruct (ss_statement s).
Qed.
End Safety.

(** ** The rows of the query *)
Inductive scripted : Z -> list answer -> list sqlite3_row -> Prop :=
| scripted_done retry rest : scripted retry (ADone :: rest) []
| scripted_row retry row rest rows :
    scripted 0 rest rows -> scripted retry (ARow row :: rest) (row :: rows)
| scripted_busy retry a rest rows :
    a = ABusy \/ a = ALocked -> retry <= STEP_QUERY_RETRY_MAX_TIMES ->
    scripted (retry + 1) rest rows -> scripted retry (a :: rest) rows.

Lemma step_retry_scripted st retry rest rows :
  scripted retry rest rows ->
  exists rest', match rows with
    | [] => step_retry st rest retry = (Some SQLITE_DONE, mkCursor st rest')
    | row :: rows' => step_retry st rest retry = (Some SQLITE_ROW, mkCursor (at_row st row) rest') /\
                      scripted 0 rest' rows'
    end.
Proof.
  induction 1 as [retry rest|retry row rest rows Hs IH|retry a rest rows Ha Hr Hs [rest' IH]].
  - by exists rest.
  - by exists rest.
  - exists rest'. unfold STEP_QUERY_RETRY_MAX_TIMES in *.
    destruct Ha as [-> | ->]; simpl; by rewrite Z.gtb_ltb, (proj2 (Z.ltb_ge _ _)) by done.
Qed.

Lemma at_row_twice st r1 r2 : at_row (at_row st r1) r2 = at_row st r2.
Proof. unfold at_row. simpl. by destruct (stmtHandle st). Qed.

Section Functional.
Context (q : Query) (st0 : SqliteStatement) (rows : list sqlite3_row).
Context (Hbegin : exists e, q_begin q = (e, Some st0)).
Context (Hscript : scripted 0 (q_answers q) rows).

Abbreviation len := (Z.of_nat (length rows)).

(** The statement is [st0], at some row. *)
Definition of_st0 (st : SqliteStatement) : Prop := st = st0 \/ exists r, st = at_row st0 r.

(** An open set whose statement has the rows after the cursor still to deliver. *)
Definition tracked (s : StepResultSet) : Prop :=
  ss_isClosed s = false /\ rdb s = true /\ (rowCount s = INIT_POS \/ rowCount s = len) /\
  match ss_statement s with
  | None => ss_rowPos s = INIT_POS
  | Some c =>
      ss_tid s = Some (q_thread q) /\ INIT_POS <= ss_rowPos s /\ of_st0 (c_stmt c) /\
      scripted 0 (c_rest c) (drop (Z.to_nat (ss_rowPos s + 1)) rows) /\
      (ss_rowPos s = INIT_POS \/
       exists row, rows !! Z.to_nat (ss_rowPos s) = Some row /\ c_stmt c = at_row st0 row)
  end.

Lemma tracked_range s : tracked s -> -1 <= ss_rowPos s < len.
Proof.
  intros (_ & _ & _ & Hs). unfold INIT_POS in *. destruct (ss_statement s) as [c|]; [|lia].
  destruct Hs as (_ & Hp & _ & _ & [->|(row & Hrow & _)]); [lia|].
  apply lookup_lt_Some in Hrow. lia.
Qed.

Lemma new_tracked : tracked new_StepResultSet.
Proof. unfold tracked. simpl. auto. Qed.

Lemma Reset_tracked s : tracked s -> tracked (Reset q s).
Proof.
  intros (H1 & H2 & H3 & Hs). unfold Reset. destruct (ss_statement s) as [c|].
  - destruct Hs as (Ht & _ & Hst & _). unfold tracked. simpl. unfold INIT_POS. split_and!; auto. lia.
  - unfold tracked. simpl. auto.
Qed.

(** Preparing an open set gives a statement and keeps the position. *)
Lemma PrepareStep_tracked s :
  tracked s ->
  exists s' c, PrepareStep q s = (E_OK, s') /\ tracked s' /\ ss_statement s' = Some c /\
    ss_rowPos s' = ss_rowPos s /\ rowCount s' = rowCount s /\ isAfterLast s' = isAfterLast s.
Proof.
  intros Hs. pose proof Hs as (H1 & H2 & H3 & Hst). unfold PrepareStep. rewrite H1.
  destruct (ss_statement s) as [c|] eqn:Es.
  - exists s, c. split_and!; try done. unfold CheckSession. destruct Hst as (-> & _).
    by rewrite decide_False by (intros H; by apply H).
  - destruct Hbegin as [e ->]. eexists _, _. split; [done|]. split_and!; try done.
    unfold tracked. simpl. rewrite Hst. unfold INIT_POS. split_and!; auto; [lia|by left].
Qed.

Lemma GoToNextRow_tracked s :
  tracked s ->
  exists s', tracked s' /\
    if ss_rowPos s + 1 <? len then
      GoToNextRow q s = Done (E_OK, s') /\ ss_rowPos s' = ss_rowPos s + 1 /\
      rowCount s' = rowCount s /\ isAfterLast s' = isAfterLast s
    else
      GoToNextRow q s = Done (E_STEP_RESULT_IS_AFTER_LAST, s') /\ ss_rowPos s' = INIT_POS /\
      rowCount s' = len /\ isAfterLast s' = true.
Proof.
  intros Hs. pose proof (tracked_range s Hs) as Hr. unfold GoToNextRow.
  destruct (PrepareStep_tracked s Hs) as (s1 & c & -> & Hs1 & Es & Hp & Hc & Ha). simpl. rewrite Es.
  destruct Hs1 as (H1 & H2 & H3 & Hst). rewrite Es in Hst.
  destruct Hst as (Ht & Hge & Hof & Hscr & _). rewrite Hp in *. unfold INIT_POS in Hge.
  destruct (step_retry_scripted (c_stmt c) _ _ _ Hscr) as [rest' Hstep].
  destruct (drop (Z.to_nat (ss_rowPos s + 1)) rows) as [|row rows'] eqn:Ed.
  - rewrite Hstep. simpl. unfold FinishStep, CheckSession. simpl. rewrite Ht.
    rewrite decide_False by (intros H; by apply H). simpl.
    apply (f_equal length) in Ed. rewrite length_drop in Ed. simpl in Ed.
    rewrite (proj2 (Z.ltb_ge _ _)) by lia. eexists. split; [|split; [done|]].
    + unfold tracked. simpl. split_and!; auto. right. lia.
    + simpl. split_and!; [done|lia|done].
  - destruct Hstep as [Hstep Hscr']. rewrite Hstep. simpl.
    assert (Hrow : rows !! Z.to_nat (ss_rowPos s + 1) = Some row).
    { rewrite <- (Nat.add_0_r (Z.to_nat _)), <- lookup_drop, Ed. done. }
    pose proof (lookup_lt_Some _ _ _ Hrow). rewrite (proj2 (Z.ltb_lt _ _)) by lia.
    eexists. split; [|split; [done|by split_and!]].
    assert (Hat : at_row (c_stmt c) row = at_row st0 row).
    { destruct Hof as [->|[r ->]]; [done|apply at_row_twice]. }
    unfold tracked. simpl. unfold INIT_POS. split_and!; auto; [lia|right; eauto| |right; eauto].
    replace (Z.to_nat (ss_rowPos s + 1 + 1)) with (S (Z.to_nat (ss_rowPos s + 1))) by lia.
    rewrite (drop_S _ _ _ Hrow) in Ed. by injection Ed as ->.
Qed.

(** The current row of the statement a getter asks. *)
Definition reads_row (s : StepResultSet) (row : sqlite3_row) : Prop :=
  forall A (f : SqliteStatement -> outcome A), on_row s f = f (at_row st0 row).

Lemma tracked_reads s row :
  tracked s -> 0 <= ss_rowPos s -> rows !! Z.to_nat (ss_rowPos s) = Some row -> reads_row s row.
Proof.
  intros (_ & _ & _ & Hs) Hp Hrow A f. unfold on_row, INIT_POS in *.
  rewrite (proj2 (Z.eqb_neq _ _)) by lia. destruct (ss_statement s) as [c|]; [|lia].
  destruct Hs as (_ & _ & _ & _ & [?|(row' & Hrow' & ->)]); [lia|]. congruence.
Qed.

Lemma GoToRow_loop_tracked fuel s p :
  tracked s -> ss_rowPos s <= p -> p - ss_rowPos s < Z.of_nat fuel -> 0 <= p ->
  exists s', tracked s' /\
    if p <? len then
      GoToRow_loop q fuel s p = Done (E_OK, s') /\ ss_rowPos s' = p /\ rowCount s' = rowCount s
    else
      GoToRow_loop q fuel s p = Done (E_STEP_RESULT_IS_AFTER_LAST, s') /\
      ss_rowPos s' = INIT_POS /\ rowCount s' = len.
Proof.
  revert s. induction fuel as [|fuel IH]; intros s Hs Hle Hf Hp; [lia|]. simpl.
  pose proof (tracked_range s Hs) as Hr.
  destruct (p =? ss_rowPos s) eqn:E; to_prop.
  { exists s. split; [done|]. by rewrite (proj2 (Z.ltb_lt p len)) by lia. }
  destruct (GoToNextRow_tracked s Hs) as (s1 & Hs1 & Hn).
  destruct (ss_rowPos s + 1 <? len) eqn:E1; to_prop.
  - destruct Hn as (-> & Hp1 & Hc & _). simpl.
    destruct (IH s1 Hs1) as (s2 & Hs2 & H2); [lia|lia|lia|]. exists s2. split; [done|].
    by rewrite <- Hc.
  - destruct Hn as (-> & Hp1 & Hc & _). simpl. exists s1. split; [done|].
    by rewrite (proj2 (Z.ltb_ge p len)) by lia.
Qed.

Lemma GoToRow_tracked s p :
  tracked s -> 0 <= p ->
  exists s', tracked s' /\
    if p <? len then
      GoToRow q s p = Done (E_OK, s') /\ ss_rowPos s' = p /\ rowCount s' = rowCount s
    else
      GoToRow q s p = Done (E_STEP_RESULT_IS_AFTER_LAST, s') /\
      ss_rowPos s' = INIT_POS /\ rowCount s' = len.
Proof.
  intros Hs Hp. pose proof (tracked_range s Hs) as Hr. unfold GoToRow.
  destruct Hs as (H1 & H2 & H3) eqn:Hs'. rewrite H2. simpl.
  rewrite (proj2 (Z.ltb_ge p 0)) by lia. destruct (p =? ss_rowPos s) eqn:E; to_prop.
  { exists s. split; [done|]. by rewrite (proj2 (Z.ltb_lt p len)) by lia. }
  destruct (p <? ss_rowPos s) eqn:E1; to_prop.
  - destruct (GoToRow_loop_tracked (row_fuel p) (Reset q s) p) as (s' & Ht & Hx);
      try (simpl; unfold INIT_POS, row_fuel; lia); [by apply Reset_tracked|]. by exists s'.
  - apply GoToRow_loop_tracked; try done; try lia. unfold row_fuel. lia.
Qed.

Lemma count_loop_tracked fuel s :
  tracked s -> len - ss_rowPos s <= Z.of_nat fuel -> (0 < fuel)%nat ->
  exists s', count_loop q fuel s = Done s' /\ tracked s' /\ ss_rowPos s' = INIT_POS /\
    rowCount s' = len.
Proof.
  revert s. induction fuel as [|fuel IH]; intros s Hs Hf Hpos; [lia|]. simpl.
  pose proof (tracked_range s Hs). destruct (GoToNextRow_tracked s Hs) as (s1 & Hs1 & Hn).
  destruct (ss_rowPos s + 1 <? len) eqn:E1; to_prop.
  - destruct Hn as (-> & Hp1 & _). simpl. apply IH; [done|lia|lia].
  - destruct Hn as (-> & Hp1 & Hc & _). simpl. by exists s1.
Qed.

Lemma scripted_length retry rest rs : scripted retry rest rs -> (length rs < length rest)%nat.
Proof. induction 1; simpl; lia. Qed.

Lemma answers_left_enough s : tracked s -> len - ss_rowPos s <= Z.of_nat (S (answers_left q s)).
Proof.
  intros Hs. pose proof (tracked_range s Hs). destruct Hs as (_ & _ & _ & Hs).
  unfold answers_left. unfold INIT_POS in Hs. destruct (ss_statement s) as [c|].
  - destruct Hs as (_ & _ & _ & Hscr & _). apply scripted_length in Hscr.
    rewrite length_drop in Hscr. lia.
  - pose proof (scripted_length _ _ _ Hscript). lia.
Qed.

(** A stepped result set over a query with rows [rows] is a cursor on these rows:
    [GoToRow] to a row inside succeeds and the getters then read that row; past the
    end it reports it and the set starts over; [GetRowCount] is the number of rows
    and leaves the cursor where it was. *)
Theorem step_set_cursor s p :
  tracked s -> 0 <= p ->
  (exists s', tracked s' /\
     match rows !! Z.to_nat p with
     | Some row => GoToRow q s p = Done (E_OK, s') /\ ss_rowPos s' = p /\ reads_row s' row
     | None => GoToRow q s p = Done (E_STEP_RESULT_IS_AFTER_LAST, s') /\ ss_rowPos s' = INIT_POS
     end) /\
  (exists s', GetRowCount q s = Done (len, s') /\ tracked s' /\ ss_rowPos s' = ss_rowPos s).
Proof.
  intros Hs Hp. pose proof (tracked_range s Hs) as Hr. split.
  - destruct (GoToRow_tracked s p Hs Hp) as (s' & Hs' & Hx). exists s'. split; [done|].
    destruct (rows !! Z.to_nat p) as [row|] eqn:Erow.
    + pose proof (lookup_lt_Some _ _ _ Erow). rewrite (proj2 (Z.ltb_lt p len)) in Hx by lia.
      destruct Hx as (-> & Hp' & _). split_and!; [done|done|].
      apply tracked_reads; [done|lia|by rewrite Hp'].
    + apply lookup_ge_None in Erow. rewrite (proj2 (Z.ltb_ge p len)) in Hx by lia.
      by destruct Hx as (-> & Hp' & _).
  - unfold GetRowCount. pose proof Hs as (_ & H2 & [Hc|Hc] & _); rewrite Hc.
    2: { exists s. rewrite (proj2 (Z.eqb_neq len INIT_POS)) by (unfold INIT_POS; lia). done. }
    rewrite Z.eqb_refl. simpl negb. cbv iota.
    destruct (count_loop_tracked (S (answers_left q s)) s Hs) as (s1 & -> & Hs1 & Hp1 & Hc1);
      [by apply answers_left_enough|lia|].
    rewrite Hc1. destruct (Z.lt_ge_cases (ss_rowPos s) 0) as [Hneg|Hpos].
    + unfold GoToRow. destruct Hs1 as (G1 & G2 & G3) eqn:Hs1'. rewrite G2. simpl.
      rewrite (proj2 (Z.ltb_lt _ _)) by lia. eexists. split; [done|].
      split; [by apply Reset_tracked|]. simpl. unfold INIT_POS. lia.
    + destruct (GoToRow_tracked s1 (ss_rowPos s) Hs1 Hpos) as (s2 & Hs2 & Hx).
      rewrite (proj2 (Z.ltb_lt _ len)) in Hx by lia. destruct Hx as (-> & Hp2 & _). by exists s2.
Qed.

(** A step past the end starts the query over while the set still claims to have
    ended: the next [GoToNextRow] succeeds on row 0, but [IsEnded] stays true. *)
Theorem step_set_restarts s :
  tracked s -> ss_rowPos s + 1 = len -> 0 < len ->
  exists s1 s2,
    GoToNextRow q s = Done (E_STEP_RESULT_IS_AFTER_LAST, s1) /\ IsEnded s1 = true /\
    GoToNextRow q s1 = Done (E_OK, s2) /\ ss_rowPos s2 = 0 /\ IsEnded s2 = true.
Proof.
  intros Hs Hp Hl. destruct (GoToNextRow_tracked s Hs) as (s1 & Hs1 & H1).
  rewrite (proj2 (Z.ltb_ge _ _)) in H1 by lia. destruct H1 as (E1 & Hp1 & _ & Ha1).
  destruct (GoToNextRow_tracked s1 Hs1) as (s2 & Hs2 & H2). rewrite Hp1 in H2. unfold INIT_POS in H2.
  rewrite (proj2 (Z.ltb_lt _ _)) in H2 by lia. destruct H2 as (E2 & Hp2 & _ & Ha2).
  exists s1, s2. unfold IsEnded. split_and!; try done; congruence.
Qed.
End Functional.

(** Closing a stepped result set that was never used reports a cross-thread
    error: [FinishStep] compares the thread with the one of a query that was never
    begun before it looks whether there is a statement. *)
Theorem close_unused_set q :
  fst (Close q new_StepResultSet) = E_STEP_RESULT_SET_CROSS_THREADS /\
  ss_isClosed (snd (Close q new_StepResultSet)) = true.
Proof. done. Qed.

(** ** Witnesses *)
Definition demo_stmt : SqliteStatement :=
  mkStatement "q" (Some (mkStmt true 2 0 (fun _ => Some "c") (show_row []))) true 2 0.
Definition demo_query : Query := {|
  q_begin := (E_OK, Some demo_stmt);
  q_answers := [ARow (show_row (demo_row 1)); ABusy; ARow (show_row (demo_row 2)); ADone];
  q_end := E_OK;
  q_thread := 7;
|}.
Definition demo_rows : list sqlite3_row := [show_row (demo_row 1); show_row (demo_row 2)].

Lemma demo_scripted : scripted 0 (q_answers demo_query) demo_rows.
Proof.
  apply scripted_row. apply scripted_busy; [by left|done|]. apply scripted_row, scripted_done.
Qed.

Lemma step_set_safe_witness :
  (exists err s', GoToNextRow demo_query new_StepResultSet = Done (err, s')) /\
  (exists err s', GoToRow demo_query new_StepResultSet 1 = Done (err, s')) /\
  (exists n s', GetRowCount demo_query new_StepResultSet = Done (n, s')) /\
  (forall A (f : SqliteStatement -> outcome A),
     (forall st, f st <> Undefined) -> on_row new_StepResultSet f <> Undefined).
Proof.
  apply (step_set_safe demo_query); [|apply reach_new].
  split; [done|]. by repeat constructor.
Defined.

Lemma step_set_cursor_witness :
  (exists s', tracked demo_query demo_stmt demo_rows s' /\
     GoToRow demo_query new_StepResultSet 1 = Done (E_OK, s') /\ ss_rowPos s' = 1 /\
     reads_row demo_stmt s' (show_row (demo_row 2))) /\
  (exists s', GetRowCount demo_query new_StepResultSet = Done (2, s') /\
     tracked demo_query demo_stmt demo_rows s' /\ ss_rowPos s' = INIT_POS).
Proof.
  apply (step_set_cursor demo_query demo_stmt demo_rows (ex_intro _ E_OK eq_refl)
           demo_scripted new_StepResultSet 1 (new_tracked _ _ _)); lia.
Defined.

Lemma step_set_restarts_witness :
  exists s1 s2,
    let s := mkStep 1 false true false INIT_POS (Some 7)
               (Some (mkCursor (at_row demo_stmt (show_row (demo_row 2))) [ADone])) in
    GoToNextRow demo_query s = Done (E_STEP_RESULT_IS_AFTER_LAST, s1) /\ IsEnded s1 = true /\
    GoToNextRow demo_query s1 = Done (E_OK, s2) /\ ss_rowPos s2 = 0 /\ IsEnded s2 = true.
Proof.
  apply (step_set_restarts demo_query demo_stmt demo_rows (ex_intro _ E_OK eq_refl)
           demo_scripted
           (mkStep 1 false true false INIT_POS (Some 7)
              (Some (mkCursor (at_row demo_stmt (show_row (demo_row 2))) [ADone]))));
    [|done|done].
  unfold tracked. simpl. unfold INIT_POS. split_and!; auto.
  - lia.
  - right. by eexists.
  - apply scripted_done.
  - right. by eexists.
Defined.
