(* ===== verification/SqliteConnection.v ===== *)
(** * SQLite connections

    Model of frameworks/native/rdb/src/sqlite_connection.cpp (opening, configuration
    and execution) on the prepared statements of SqliteStatement. SQLite is the class
    [Sqlite]: each function answers as it likes given the calls made so far, which
    the model records. *)
From S2P Require Import Prelude RdbErrno Strings SqliteUtils Memory SharedBlockFill ValueObject SharedResultSet SqliteStatement StepResultSet.
From Stdlib Require Import Ascii.

#[local] Open Scope list_scope.

Definition SQLITE_MISUSE : Z := 21.

(** ** SQLite

    A step is recorded with the text of the statement and what SQLite says about it
    changing the database. *)
Inductive sq_call :=
| QOpen (path : string) (readOnly : bool)
| QPersistWal
| QBusyTimeout
| QKey (key : list Z)
| QRekey (key : list Z)
| QPrepare (sql : string)
| QFinalize
| QBind (call : bind_call)
| QStep (sql : string) (readonly : bool)
| QReset
| QClear.

Class Sqlite := {
  (** The result code of a call. *)
  q_code : list sq_call -> sq_call -> Z;
  (** The statement [sqlite3_prepare_v2] compiles. *)
  q_stmt : list sq_call -> string -> option sqlite3_stmt;
  (** The row a step that answered [SQLITE_ROW] made current. *)
  q_row : list sq_call -> sqlite3_row;
  sqlite3_changes : list sq_call -> Z;
  sqlite3_last_insert_rowid : list sq_call -> Z;
}.

(** ** Configuration *)
Record SqliteConfig := mkConfig {
  cfg_path : string;
  cfg_isMemory : bool;
  cfg_journalMode : string;
  cfg_syncMode : string;
  cfg_isReadOnly : bool;
  cfg_encryptKey : list Z;
}.

(** The constants of sqlite_global_config.cpp. *)
Definition GetPageSize : Z := 4096.
Definition GetJournalFileSize : Z := 524288.
Definition GetWalAutoCheckpoint : Z := 100.
Definition GetWalSyncMode : string := "FULL".
Definition GetMemoryDbPath : string := ":memory:".
Definition GetReadConnectionCount : Z := 4 - 1.

(** ** State

    The step statement, a null pointer until [InnerOpen] creates it, is used only
    on connections that [Open] returned. *)
Record SqliteConnection := mkConnection {
  dbHandle : bool;
  isWriteConnection : bool;
  isReadOnly : bool;
  statement : SqliteStatement;
  stepStatement : SqliteStatement;
  filePath : string;
}.

Definition new_SqliteConnection (write : bool) : SqliteConnection :=
  mkConnection false write false new_SqliteStatement new_SqliteStatement "".

(** A connection and the calls made on SQLite, oldest first. *)
Record World := mkWorld { conn : SqliteConnection; trace : list sq_call }.

Definition W (A : Type) : Type := World -> A * World.
#[global] Instance W_ret : MRet W := fun A a w => (a, w).
#[global] Instance W_bind : MBind W := fun A B f m w => let '(a, w) := m w in f a w.

Definition with_conn (f : SqliteConnection -> SqliteConnection) : W unit := fun w =>
  (tt, mkWorld (f (conn w)) (trace w)).
Definition get_conn : W SqliteConnection := fun w => (conn w, w).

Section Connection.
Context `{Sqlite} `{CLib} (print_double_15 : Z -> list byte).

Definition sq (c : sq_call) : W Z := fun w =>
  (q_code (trace w) c, mkWorld (conn w) (trace w ++ [c])).

(** ** Statements on the trace *)

(** [SqliteStatement::Prepare] with the calls it makes. *)
Definition prepare (s : SqliteStatement) (newSql : string) : W (Z * SqliteStatement) := fun w =>
  if decide (sql s = newSql) then ((E_OK, s), w)
  else
    let code := q_code (trace w) (QPrepare newSql) in
    let compiled := q_stmt (trace w) newSql in
    let t := trace w ++ [QPrepare newSql] in
    let r := SqliteStatement.Prepare s newSql (code, compiled) (q_code t QFinalize) in
    let t := match stmtHandle s with
             | Some _ => if code =? SQLITE_OK then t ++ [QFinalize] else t
             | None => t
             end in
    (r, mkWorld (conn w) t).

(** [SqliteStatement::Finalize] with the call it makes. *)
Definition finalize (s : SqliteStatement) : W (Z * SqliteStatement) := fun w =>
  match stmtHandle s with
  | None => ((E_OK, s), w)
  | Some _ => (Finalize s (q_code (trace w) QFinalize), mkWorld (conn w) (trace w ++ [QFinalize]))
  end.

(** [SqliteStatement::Step]; a null statement is a misuse. *)
Definition step (s : SqliteStatement) : W Z := fun w =>
  match stmtHandle s with
  | None => (SQLITE_MISUSE, w)
  | Some h => sq (QStep (sql s) (sqlite3_stmt_readonly h)) w
  end.

(** The statement with the row SQLite made current. *)
Definition current (s : SqliteStatement) : W SqliteStatement := fun w =>
  (at_row s (q_row (trace w)), w).

Definition reset (s : SqliteStatement) : W Z := fun w =>
  match stmtHandle s with
  | None => (E_OK, w)
  | Some _ =>
      let r := q_code (trace w) QReset in
      let t := trace w ++ [QReset] in
      let c := q_code t QClear in
      (ResetStatementAndClearBindings s r c,
       mkWorld (conn w) (if r =? SQLITE_OK then t ++ [QClear] else t))
  end.

Definition bind (s : SqliteStatement) (bindArgs : list ValueObject) : W Z := fun w =>
  let '(code, calls) := BindArguments s (fun call => q_code (trace w) (QBind call)) bindArgs in
  (code, mkWorld (conn w) (trace w ++ (QBind <$> calls))).

Definition set_statement (s : SqliteStatement) : W unit :=
  with_conn (fun c => mkConnection (dbHandle c) (isWriteConnection c) (isReadOnly c) s
                        (stepStatement c) (filePath c)).
Definition set_stepStatement (s : SqliteStatement) : W unit :=
  with_conn (fun c => mkConnection (dbHandle c) (isWriteConnection c) (isReadOnly c) (statement c)
                        s (filePath c)).

(** ** Executing *)
Definition Prepare (newSql : string) : W (Z * bool) :=
  c ← get_conn;
  r ← prepare (statement c) newSql;
  set_statement (snd r) ;;
  if negb (fst r =? E_OK) then mret (fst r, false)
  else mret (E_OK, IsReadOnly (snd r)).

(** The names of the columns from [i] on; a name that cannot be had is empty. *)
Fixpoint info_names (s : SqliteStatement) (n : nat) (i : Z) : list string :=
  match n with
  | O => []
  | S n => match GetColumnName s i with Ok name => name | _ => "" end :: info_names s n (i + 1)
  end.

(** The error code, whether the statement is read-only, the parameters and the names. *)
Definition PrepareAndGetInfo (newSql : string) : W (Z * bool * Z * list string) :=
  c ← get_conn;
  r ← prepare (statement c) newSql;
  set_statement (snd r) ;;
  if negb (fst r =? E_OK) then mret (fst r, false, 0, [])
  else
    let s := snd r in
    match GetColumnCount s with
    | Ok columnCount =>
        let names := info_names s (Z.to_nat columnCount) 0 in
        match GetNumParameters s with
        | Ok numParameters => mret (E_OK, IsReadOnly s, numParameters, names)
        | Err errCode => mret (errCode, IsReadOnly s, columnCount, names)
        | _ => mret (E_ERROR, IsReadOnly s, columnCount, names)
        end
    | Err errCode => mret (errCode, false, 0, [])
    | _ => mret (E_ERROR, false, 0, [])
    end.

Definition PrepareAndBind (newSql : string) (bindArgs : list ValueObject) : W Z :=
  c ← get_conn;
  if negb (dbHandle c) then mret E_INVALID_STATEMENT
  else
    r ← prepare (statement c) newSql;
    set_statement (snd r) ;;
    if negb (fst r =? E_OK) then mret (fst r)
    else if negb (isWriteConnection c) && negb (IsReadOnly (snd r)) then
      mret E_EXECUTE_WRITE_IN_READ_CONNECTION
    else bind (snd r) bindArgs.

(** What the executions without rows have in common: [k] is what is read from the
    connection after a statement that is done. *)
Definition execute_done {A} (newSql : string) (bindArgs : list ValueObject) (none : A)
    (k : list sq_call -> A) : W (Z * A) :=
  errCode ← PrepareAndBind newSql bindArgs;
  if negb (errCode =? E_OK) then mret (errCode, none)
  else
    c ← get_conn;
    let s := statement c in
    errCode ← step s;
    if errCode =? SQLITE_ROW then reset s ;; mret (E_QUERY_IN_EXECUTE, none)
    else if negb (errCode =? SQLITE_DONE) then reset s ;; mret (ErrNo errCode, none)
    else
      a ← (fun w => (k (trace w), w));
      errCode ← reset s;
      mret (errCode, a).

Definition ExecuteSql (newSql : string) (bindArgs : list ValueObject) : W Z :=
  r ← execute_done newSql bindArgs tt (fun _ => tt); mret (fst r).
Definition ExecuteForChangedRowCount (newSql : string) (bindArgs : list ValueObject) : W (Z * Z) :=
  execute_done newSql bindArgs 0 sqlite3_changes.
Definition ExecuteForLastInsertedRowId (newSql : string) (bindArgs : list ValueObject)
    : W (Z * Z) :=
  execute_done newSql bindArgs 0
    (fun t => if sqlite3_changes t >? 0 then sqlite3_last_insert_rowid t else -1).

(** What the executions that read one value have in common. *)
Definition execute_get {A} (newSql : string) (bindArgs : list ValueObject) (none : A)
    (get : SqliteStatement -> outcome A) : W (Z * A) :=
  errCode ← PrepareAndBind newSql bindArgs;
  if negb (errCode =? E_OK) then mret (errCode, none)
  else
    c ← get_conn;
    let s := statement c in
    errCode ← step s;
    if negb (errCode =? SQLITE_ROW) then reset s ;; mret (E_NO_ROW_IN_QUERY, none)
    else
      s ← current s;
      match get s with
      | Ok v => errCode ← reset s; mret (errCode, v)
      | Err errCode => reset s ;; mret (errCode, none)
      | _ => reset s ;; mret (E_ERROR, none)
      end.

Definition ExecuteGetLong (newSql : string) (bindArgs : list ValueObject) : W (Z * Z) :=
  execute_get newSql bindArgs 0 (fun s => GetColumnLong s 0).
Definition ExecuteGetString (newSql : string) (bindArgs : list ValueObject) : W (Z * list byte) :=
  execute_get newSql bindArgs [] (fun s => GetColumnString print_double_15 s 0).

(** ** Filling a shared block

    The calls [SqliteConnection::ExecuteForSharedBlock] makes on SQLite. What the block
    does decides how they go on: whether it could be cleared and given its columns
    ([ready]), how many times the filling stepped the statement, and whether a row was
    added when there are any ([filled]). *)
Fixpoint step_times (s : SqliteStatement) (n : nat) : W unit :=
  match n with O => mret tt | S n => step s ;; step_times s n end.
Definition ResetStatement (s : SqliteStatement) : W unit := fun w =>
  match stmtHandle s with
  | None => (tt, w)
  | Some _ => (tt, mkWorld (conn w) (trace w ++ [QReset]))
  end.
Definition ExecuteForSharedBlock_calls (newSql : string) (bindArgs : list ValueObject)
    (ready : bool) (steps : nat) (filled : bool) : W Z :=
  errCode ← PrepareAndBind newSql bindArgs;
  if negb (errCode =? E_OK) then mret errCode
  else
    c ← get_conn;
    if negb ready then mret E_ERROR
    else
      step_times (statement c) steps ;;
      ResetStatement (statement c) ;;
      if negb filled then mret E_ERROR else reset (statement c).

(** ** Step queries

    The statement is handed out; whoever has it steps it. *)
Definition BeginStepQuery (newSql : string) (selectionArgs : list string)
    : W (Z * option SqliteStatement) :=
  c ← get_conn;
  r ← prepare (stepStatement c) newSql;
  set_stepStatement (snd r) ;;
  if negb (fst r =? E_OK) then mret (fst r, None)
  else
    errCode ← bind (snd r) (ValueObject_string <$> selectionArgs);
    if negb (errCode =? E_OK) then mret (errCode, None) else mret (errCode, Some (snd r)).

Definition EndStepQuery : W Z :=
  c ← get_conn; reset (stepStatement c).

(** ** Opening *)
Definition SetPageSize : W Z :=
  c ← get_conn;
  if isReadOnly c then mret E_OK
  else
    r ← ExecuteGetLong "PRAGMA page_size" [];
    if negb (fst r =? E_OK) then mret (fst r)
    else if snd r =? GetPageSize then mret E_OK
    else ExecuteSql ("PRAGMA page_size=" +:+ to_string GetPageSize) [].

Definition SetEncryptKey (encryptKey : list Z) : W Z :=
  match encryptKey with
  | [] => mret E_OK
  | _ =>
      errCode ← sq (QKey encryptKey);
      if negb (errCode =? SQLITE_OK) then mret (ErrNo errCode) else mret E_OK
  end.

Definition upper (l : list byte) : string := StrToUpper (String.string_of_list_ascii l).

Definition SetWalSyncMode (syncMode : string) : W Z :=
  let targetValue := if negb (empty syncMode) then syncMode else GetWalSyncMode in
  r ← ExecuteGetString "PRAGMA synchronous" [];
  if negb (fst r =? E_OK) then mret (fst r)
  else if decide (upper (snd r) = targetValue) then mret E_OK
  else ExecuteSql ("PRAGMA synchronous=" +:+ targetValue) [].

Definition SetJournalMode (journalMode syncMode : string) : W Z :=
  c ← get_conn;
  if isReadOnly c then mret E_OK
  else
    r ← ExecuteGetString "PRAGMA journal_mode" [];
    if negb (fst r =? E_OK) then mret (fst r)
    else
      let finish (errCode : Z) : W Z :=
        if decide (journalMode = "WAL") then SetWalSyncMode syncMode else mret errCode in
      if decide (upper (snd r) <> journalMode) then
        r2 ← ExecuteGetString ("PRAGMA journal_mode=" +:+ journalMode) [];
        if negb (fst r2 =? E_OK) then mret (fst r2)
        else if decide (upper (snd r2) <> journalMode) then mret E_EXECUTE_RESULT_INCORRECT
        else finish (fst r)
      else finish (fst r).

(** The two settings that are read, compared and set with a pragma. *)
Definition set_pragma (name : string) (targetValue : Z) : W Z :=
  c ← get_conn;
  if isReadOnly c then mret E_OK
  else
    r ← ExecuteGetLong ("PRAGMA " +:+ name) [];
    if negb (fst r =? E_OK) then mret (fst r)
    else if snd r =? targetValue then mret E_OK
    else
      r ← ExecuteGetLong ("PRAGMA " +:+ name +:+ "=" +:+ to_string targetValue) [];
      mret (fst r).

Definition SetJournalSizeLimit : W Z := set_pragma "journal_size_limit" GetJournalFileSize.
Definition SetAutoCheckpoint : W Z := set_pragma "wal_autocheckpoint" GetWalAutoCheckpoint.

Definition Config (config : SqliteConfig) : W Z :=
  if cfg_isMemory config then mret E_OK
  else
    errCode ← SetPageSize;
    if negb (errCode =? E_OK) then mret errCode
    else
      errCode ← SetEncryptKey (cfg_encryptKey config);
      if negb (errCode =? E_OK) then mret errCode
      else
        errCode ← SetJournalMode (cfg_journalMode config) (cfg_syncMode config);
        if negb (errCode =? E_OK) then mret errCode
        else
          errCode ← SetJournalSizeLimit;
          if negb (errCode =? E_OK) then mret errCode
          else
            errCode ← SetAutoCheckpoint;
            if negb (errCode =? E_OK) then mret errCode else mret E_OK.

Definition db_path (config : SqliteConfig) : Z + string :=
  if cfg_isMemory config then inr GetMemoryDbPath
  else
    match cfg_path config with
    | EmptyString => inl E_EMPTY_FILE_NAME
    | String c _ => if negb (Ascii.eqb c "/"%char) then inl E_RELATIVE_PATH else inr (cfg_path config)
    end.

(** The permission bits of the file are left out. *)
Definition InnerOpen (config : SqliteConfig) : W Z :=
  match db_path config with
  | inl errCode => mret errCode
  | inr dbPath =>
      with_conn (fun c => mkConnection (dbHandle c) (isWriteConnection c)
                            (negb (isWriteConnection c) || cfg_isReadOnly config)
                            (statement c) new_SqliteStatement (filePath c)) ;;
      errCode ← sq (QOpen dbPath (cfg_isReadOnly config));
      if negb (errCode =? SQLITE_OK) then mret (ErrNo errCode)
      else
        with_conn (fun c => mkConnection true (isWriteConnection c) (isReadOnly c) (statement c)
                              (stepStatement c) (filePath c)) ;;
        sq QPersistWal ;;
        sq QBusyTimeout ;;
        errCode ← Config config;
        if negb (errCode =? E_OK) then mret errCode
        else
          with_conn (fun c => mkConnection (dbHandle c) (isWriteConnection c) (isReadOnly c)
                                (statement c) (stepStatement c) dbPath) ;;
          mret E_OK
  end.

Definition Open (config : SqliteConfig) (write : bool) (t : list sq_call)
    : Z * option SqliteConnection * list sq_call :=
  let '(errCode, w) := InnerOpen config (mkWorld (new_SqliteConnection write) t) in
  (errCode, if negb (errCode =? E_OK) then None else Some (conn w), trace w).

(** [sqlite3_rekey] and finalizing both statements. *)
Definition ChangeEncryptKey (newKey : list Z) : W Z :=
  errCode ← sq (QRekey newKey);
  if negb (errCode =? SQLITE_OK) then mret (ErrNo errCode)
  else
    c ← get_conn;
    r ← finalize (statement c);
    set_statement (snd r) ;;
    if negb (fst r =? SQLITE_OK) then mret (fst r)
    else
      r ← finalize (stepStatement c);
      set_stepStatement (snd r) ;;
      if negb (fst r =? SQLITE_OK) then mret (fst r) else mret E_OK.
End Connection.

(** * SQLite connections: what reaches SQLite

    A program logic for connections, and the invariant that a connection opened for
    reading never runs a statement that changes the database. *)

(** ** The logic *)
Definition wspec {A} (P : World -> Prop) (m : W A) (Q : A -> World -> Prop) : Prop :=
  forall w, P w -> Q (m w).1 (m w).2.

Lemma wspec_ret {A} (P : World -> Prop) (a : A) (Q : A -> World -> Prop) :
  (forall w, P w -> Q a w) -> wspec P (mret a) Q.
Proof. intros HPQ w Hw. by apply HPQ. Qed.

Lemma wspec_bind {A C} P (m : W A) (f : A -> W C) T Q :
  wspec P m T -> (forall a, wspec (T a) (f a) Q) -> wspec P (m ≫= f) Q.
Proof.
  intros Hm Hf w Hw. unfold mbind, W_bind. specialize (Hm w Hw).
  destruct (m w) as [a w']. by apply Hf.
Qed.

Lemma wspec_if {A} P (b : bool) (m m' : W A) Q :
  (b = true -> wspec P m Q) -> (b = false -> wspec P m' Q) -> wspec P (if b then m else m') Q.
Proof. destruct b; auto. Qed.

Lemma wspec_weaken {A} P P' (m : W A) (Q Q' : A -> World -> Prop) :
  wspec P m Q -> (forall w, P' w -> P w) -> (forall a w, Q a w -> Q' a w) -> wspec P' m Q'.
Proof. intros Hm HP HQ w Hw. apply HQ, Hm, HP, Hw. Qed.

Lemma wspec_pure {A} (phi : Prop) P (m : W A) Q :
  (forall w, P w -> phi) -> (phi -> wspec P m Q) -> wspec P m Q.
Proof. intros Hphi Hm w Hw. by apply Hm; [eapply Hphi|]. Qed.

Create HintDb conn.

Ltac conn_step :=
  lazymatch goal with
  | |- wspec _ (_ ≫= _) _ => eapply wspec_bind; [|intros ?; cbn beta]
  | |- wspec _ (if ?b then _ else _) _ =>
      lazymatch type of b with bool => apply wspec_if; intros ? | _ => destruct b end
  | |- wspec _ (mret _) _ => apply wspec_ret; solve [auto | intuition auto]
  | |- wspec _ (let _ := _ in _) _ => cbv zeta
  | |- wspec _ (match ?x with _ => _ end) _ => destruct x
  | |- _ => solve [eauto with conn]
  end.
Ltac conn_auto := repeat conn_step.

(** ** The invariant *)

(** The calls a connection may make: one opened for reading steps only statements that
    SQLite says do not change the database. *)
Definition allowed (write : bool) (c : sq_call) : Prop :=
  match c with QStep _ readonly => write = false -> readonly = true | _ => True end.

(** A statement has been stepped and not reset or finalized since. *)
Definition running (t : list sq_call) : bool :=
  foldl (fun r c => match c with
                    | QStep _ _ => true
                    | QReset | QFinalize => false
                    | _ => r
                    end) false t.

Record conn_ok (write : bool) (w : World) : Prop := {
  ok_write : isWriteConnection (conn w) = write;
  ok_statement : statement_ok (statement (conn w));
  ok_step : statement_ok (stepStatement (conn w));
  ok_trace : Forall (allowed write) (trace w);
}.

Definition settled (write : bool) (w : World) : Prop := conn_ok write w /\ running (trace w) = false.

Lemma running_snoc t c :
  running (t ++ [c]) =
    match c with QStep _ _ => true | QReset | QFinalize => false | _ => running t end.
Proof. unfold running. by rewrite foldl_snoc. Qed.

Lemma running_binds t cs : running (t ++ (QBind <$> cs)) = running t.
Proof.
  revert t. induction cs as [|c cs IH]; intros t; cbn; [by rewrite app_nil_r|].
  change (QBind c :: _) with ([QBind c] ++ (QBind <$> cs)).
  by rewrite (assoc_L (++)), IH, running_snoc.
Qed.

Lemma settled_snoc b w c :
  settled b w -> allowed b c ->
  match c with QStep _ _ => False | _ => True end ->
  settled b (mkWorld (conn w) (trace w ++ [c])).
Proof.
  intros [[O1 O2 O3 O4] Hr] Hc Hs. split; [split; cbn; try done|].
  - apply Forall_app; split; [done|by constructor].
  - cbn. rewrite running_snoc. by destruct c.
Qed.

Lemma allowed_binds b cs : Forall (allowed b) (QBind <$> cs).
Proof. apply Forall_fmap, Forall_true. done. Qed.

Section Steps.
Context `{Sqlite} `{CLib} (print_double_15 : Z -> list byte) (b : bool).

Lemma get_conn_spec (P : World -> Prop) :
  wspec P get_conn (fun c w => P w /\ conn w = c).
Proof. by intros w Hw. Qed.

Lemma sq_spec c :
  match c with QStep _ _ => False | _ => True end ->
  wspec (settled b) (sq c) (fun _ => settled b).
Proof. intros Hc w Hw. apply (settled_snoc b w c); [done|by destruct c|done]. Qed.

(** Preparing keeps the connection and the facts cached with a statement. *)
Lemma prepare_spec s q c :
  statement_ok s ->
  wspec (fun w => settled b w /\ conn w = c) (prepare s q)
    (fun r w => settled b w /\ conn w = c /\ statement_ok r.2).
Proof.
  intros Hs w [Hw Hc]. unfold prepare. case_decide as Hd; [done|]. cbn -[SqliteStatement.Prepare].
  pose proof (settled_snoc b w (QPrepare q) Hw I I) as H1.
  split_and!; [|done|by apply Prepare_ok].
  destruct (stmtHandle s); [|done]. case_match; [|done].
  apply (settled_snoc b _ QFinalize H1 I I).
Qed.

Lemma set_statement_spec s c :
  statement_ok s ->
  wspec (fun w => settled b w /\ conn w = c) (set_statement s)
    (fun _ w => settled b w /\ statement (conn w) = s /\ isWriteConnection c = b).
Proof. intros Hs w [[[O1 O2 O3 O4] Hr] <-]. by repeat split. Qed.

Lemma set_stepStatement_spec s :
  statement_ok s -> wspec (settled b) (set_stepStatement s) (fun _ => settled b).
Proof. intros Hs w [[O1 O2 O3 O4] Hr]. by repeat split. Qed.

(** A statement that may be stepped. *)
Definition bound (w : World) : Prop :=
  settled b w /\ (b = false -> readOnly (statement (conn w)) = true).

Lemma bind_trace s args P :
  (forall w t, P w -> Forall (allowed b) t -> running (trace w ++ t) = running (trace w) ->
     P (mkWorld (conn w) (trace w ++ t))) ->
  wspec P (bind s args) (fun _ => P).
Proof.
  intros HP w Hw. unfold bind. destruct (BindArguments _ _ _) as [code calls]. cbn.
  apply HP; [done|apply allowed_binds|apply running_binds].
Qed.

Lemma settled_app w t :
  settled b w -> Forall (allowed b) t -> running (trace w ++ t) = running (trace w) ->
  settled b (mkWorld (conn w) (trace w ++ t)).
Proof.
  intros [[O1 O2 O3 O4] Hr] Ht Hrun. split; [split; cbn; try done|by rewrite <- Hr, <- Hrun].
  by apply Forall_app.
Qed.

Lemma bind_spec s args : wspec (settled b) (bind s args) (fun _ => settled b).
Proof. apply bind_trace. apply settled_app. Qed.

Lemma bind_bound s args : wspec bound (bind s args) (fun _ => bound).
Proof. apply bind_trace. intros w t [Hw Hro] Ht Hr. split; [by apply settled_app|done]. Qed.

(** A statement that reaches its execution may be executed here. *)
Lemma PrepareAndBind_spec q args :
  wspec (settled b) (PrepareAndBind q args)
    (fun code w => if code =? E_OK then bound w else settled b w).
Proof.
  unfold PrepareAndBind. eapply wspec_bind; [apply get_conn_spec|]. intros c. cbn beta.
  apply (wspec_pure (statement_ok (statement c) /\ isWriteConnection c = b)).
  { by intros w [[[? ? ? ?] _] <-]. }
  intros [Hst Hb]. apply wspec_if; intros _; [by apply wspec_ret; intros w [Hw _]|].
  eapply wspec_bind; [by apply prepare_spec|]. intros [code s]. cbn beta iota.
  apply (wspec_pure (statement_ok s)); [by intros w (_ & _ & ?)|]. intros Hs. cbn [fst snd].
  apply wspec_bind with (T := fun _ w => settled b w /\ statement (conn w) = s).
  { intros w (Hw & Hc & _). by destruct (set_statement_spec s c Hs w (conj Hw Hc)) as (? & ? & _). }
  intros []. apply wspec_if; intros Hcode; to_prop.
  { apply wspec_ret. intros w [Hw _]. by rewrite (proj2 (Z.eqb_neq _ _)). }
  apply wspec_if; intros Hro; [by apply wspec_ret; intros w [Hw _]|].
  apply wspec_weaken with (P := bound) (Q := fun _ => bound); [apply bind_bound| |].
  - intros w [Hw <-]. split; [done|]. intros Hb'. rewrite Hb, Hb' in Hro. cbn in Hro. by to_prop.
  - intros code' w Hw. case_match; [done|]. by destruct Hw.
Qed.

(** Between a step and the reset that follows it. *)
Definition stepped (s : SqliteStatement) (w : World) : Prop :=
  conn_ok b w /\ (stmtHandle s = None -> running (trace w) = false).

Lemma step_spec s :
  wspec (fun w => bound w /\ statement (conn w) = s) (step s) (fun _ => stepped s).
Proof.
  intros w [[[[O1 O2 O3 O4] Hr] Hro] <-]. unfold step, stepped.
  destruct (stmtHandle (statement (conn w))) as [h|] eqn:Eh; [|by repeat split].
  split; [split; cbn; try done|done]. apply Forall_app; split; [done|].
  constructor; [|done]. intros Hb. specialize (Hro Hb). unfold statement_ok in O2.
  rewrite Eh in O2. destruct O2 as [<- _]. done.
Qed.

Lemma reset_spec s : wspec (stepped s) (reset s) (fun _ => settled b).
Proof.
  intros w [Ho Hr]. unfold reset. destruct (stmtHandle s); [|by split; auto]. cbn.
  assert (settled b (mkWorld (conn w) (trace w ++ [QReset]))) as H1.
  { destruct Ho as [O1 O2 O3 O4]. split; [split; cbn; try done|cbn; by rewrite running_snoc].
    apply Forall_app; split; [done|by constructor]. }
  case_match; [|done]. apply (settled_snoc b _ QClear H1 I I).
Qed.

Lemma current_spec s :
  wspec (stepped s) (current s) (fun s' => stepped s').
Proof.
  intros w [Ho Hr]. split; [done|]. cbn. by destruct (stmtHandle s); [done|auto].
Qed.

Lemma read_spec {A} s (k : list sq_call -> A) :
  wspec (stepped s) (fun w => (k (trace w), w)) (fun _ => stepped s).
Proof. by intros w Hw. Qed.

#[local] Hint Resolve reset_spec current_spec read_spec : conn.

(** What follows a successful preparation steps the connection's statement. *)
Lemma execute_settled {A} q args (r : Z -> A) (m : SqliteConnection -> W A) :
  (forall c, wspec (fun w => bound w /\ statement (conn w) = statement c) (m c)
               (fun _ => settled b)) ->
  wspec (settled b)
    (errCode ← PrepareAndBind q args;
     if negb (errCode =? E_OK) then mret (r errCode) else c ← get_conn; m c)
    (fun _ => settled b).
Proof.
  intros Hm. eapply wspec_bind; [apply PrepareAndBind_spec|]. intros code. cbn beta.
  apply wspec_if; intros Hc; to_prop.
  - apply wspec_ret. intros w Hw. by rewrite (proj2 (Z.eqb_neq _ _)) in Hw.
  - rewrite (proj2 (Z.eqb_eq _ _) Hc). eapply wspec_bind; [apply get_conn_spec|].
    intros c. eapply wspec_weaken; [apply (Hm c)| |done]. by intros w [Hw <-].
Qed.

Lemma execute_done_spec {A} q args (none : A) k :
  wspec (settled b) (execute_done q args none k) (fun _ => settled b).
Proof.
  refine (execute_settled q args (fun c => (c, none)) _ _). intros c. cbv zeta.
  eapply wspec_bind; [apply step_spec|]. intros code. cbn beta. conn_auto.
Qed.

Lemma execute_get_spec {A} q args (none : A) get :
  wspec (settled b) (execute_get q args none get) (fun _ => settled b).
Proof.
  refine (execute_settled q args (fun c => (c, none)) _ _). intros c. cbv zeta.
  eapply wspec_bind; [apply step_spec|]. intros code. cbn beta. conn_auto.
Qed.
#[local] Hint Resolve execute_done_spec execute_get_spec bind_spec set_stepStatement_spec : conn.

(** ** Every operation *)
Lemma ExecuteSql_settled q args : wspec (settled b) (ExecuteSql q args) (fun _ => settled b).
Proof. unfold ExecuteSql. conn_auto. Qed.
Lemma ExecuteGetLong_settled q args : wspec (settled b) (ExecuteGetLong q args) (fun _ => settled b).
Proof. apply execute_get_spec. Qed.
Lemma ExecuteGetString_settled q args :
  wspec (settled b) (ExecuteGetString print_double_15 q args) (fun _ => settled b).
Proof. apply execute_get_spec. Qed.
#[local] Hint Resolve ExecuteSql_settled ExecuteGetLong_settled ExecuteGetString_settled : conn.

(** The statement of the connection, any number of times. *)
Definition stepping (s : SqliteStatement) (w : World) : Prop :=
  stepped s w /\ statement (conn w) = s /\ (b = false -> readOnly s = true).

Lemma step_times_spec s n : wspec (stepping s) (step_times s n) (fun _ => stepping s).
Proof.
  induction n as [|n IH]; cbn; [by apply wspec_ret|]. eapply wspec_bind; [|intros ?; exact IH].
  intros w (([O1 O2 O3 O4] & Hr) & <- & Hro). unfold step, stepping, stepped.
  destruct (stmtHandle (statement (conn w))) as [h|] eqn:Eh; [|by repeat split; auto].
  split; [|done]. split; [split; cbn; try done|done]. apply Forall_app; split; [done|].
  constructor; [|done]. intros Hb. specialize (Hro Hb). unfold statement_ok in O2.
  rewrite Eh in O2. destruct O2 as [<- _]. done.
Qed.
Lemma ResetStatement_spec s : wspec (stepping s) (ResetStatement s) (fun _ => settled b).
Proof.
  intros w ((Ho & Hr) & _). unfold ResetStatement. destruct (stmtHandle s); [|by split; auto]. cbn.
  destruct Ho as [O1 O2 O3 O4]. split; [split; cbn; try done|cbn; by rewrite running_snoc].
  apply Forall_app; split; [done|by constructor].
Qed.
Lemma reset_settled s : wspec (settled b) (reset s) (fun _ => settled b).
Proof. intros w [Hw Hr]. apply reset_spec. by split. Qed.
#[local] Hint Resolve reset_settled : conn.

Lemma ExecuteForSharedBlock_settled q args ready n filled :
  wspec (settled b) (ExecuteForSharedBlock_calls q args ready n filled) (fun _ => settled b).
Proof.
  refine (execute_settled q args (fun c => c) _ _). intros c.
  apply wspec_if; intros _; [by apply wspec_ret; intros w [[Hw _] _]|].
  apply wspec_bind with (T := fun _ => stepping (statement c)).
  { eapply wspec_weaken; [apply step_times_spec| |done]. intros w [[[Hw Hr] Hro] <-]. unfold stepping, stepped. auto. }
  intros ?. eapply wspec_bind; [apply ResetStatement_spec|]. intros ?. conn_auto.
Qed.
#[local] Hint Resolve ExecuteForSharedBlock_settled : conn.

(** Preparing one of the connection's statements, with what is done next. *)
Lemma preparing_spec {A} q (f : SqliteConnection -> SqliteStatement)
    (m : SqliteConnection -> Z * SqliteStatement -> W A) :
  (forall w, settled b w -> statement_ok (f (conn w))) ->
  (forall c r, statement_ok r.2 ->
     wspec (fun w => settled b w /\ conn w = c) (m c r) (fun _ => settled b)) ->
  wspec (settled b) (c ← get_conn; r ← prepare (f c) q; m c r) (fun _ => settled b).
Proof.
  intros Hf Hm. eapply wspec_bind; [apply get_conn_spec|]. intros c. cbn beta.
  apply (wspec_pure (statement_ok (f c))); [by intros w [Hw <-]; apply Hf|]. intros Hs.
  eapply wspec_bind; [by apply prepare_spec|]. intros r. cbn beta.
  apply (wspec_pure (statement_ok r.2)); [by intros w (_ & _ & ?)|]. intros Hr.
  eapply wspec_weaken; [by apply Hm| |done]. by intros w (Hw & Hc & _).
Qed.

Lemma set_statement_settled s c :
  statement_ok s ->
  wspec (fun w => settled b w /\ conn w = c) (set_statement s) (fun _ => settled b).
Proof. intros Hs w Hw. by apply (set_statement_spec s c Hs w). Qed.

Lemma set_stepStatement_settled s c :
  statement_ok s ->
  wspec (fun w => settled b w /\ conn w = c) (set_stepStatement s) (fun _ => settled b).
Proof. intros Hs w [Hw _]. by apply set_stepStatement_spec. Qed.
#[local] Hint Resolve set_statement_settled set_stepStatement_settled : conn.

Lemma settled_statement w : settled b w -> statement_ok (statement (conn w)).
Proof. by intros [[] _]. Qed.
Lemma settled_stepStatement w : settled b w -> statement_ok (stepStatement (conn w)).
Proof. by intros [[] _]. Qed.

Lemma Prepare_spec q : wspec (settled b) (Prepare q) (fun _ => settled b).
Proof.
  refine (preparing_spec q statement _ settled_statement _). intros c r Hr. conn_auto.
Qed.
Lemma PrepareAndGetInfo_settled q : wspec (settled b) (PrepareAndGetInfo q) (fun _ => settled b).
Proof.
  refine (preparing_spec q statement _ settled_statement _). intros c r Hr. conn_auto.
Qed.
Lemma BeginStepQuery_settled q args : wspec (settled b) (BeginStepQuery q args) (fun _ => settled b).
Proof.
  refine (preparing_spec q stepStatement _ settled_stepStatement _). intros c r Hr. conn_auto.
Qed.

Lemma EndStepQuery_settled : wspec (settled b) EndStepQuery (fun _ => settled b).
Proof.
  eapply wspec_bind; [apply get_conn_spec|]. intros c.
  eapply wspec_weaken; [apply reset_settled| |done]. by intros w [Hw _].
Qed.

(** ** Opening *)

(** A change of the connection's other fields. *)
Lemma with_conn_spec f :
  (forall c, isWriteConnection (f c) = isWriteConnection c) ->
  (forall c, statement (f c) = statement c) ->
  (forall c, statement_ok (stepStatement c) -> statement_ok (stepStatement (f c))) ->
  wspec (settled b) (with_conn f) (fun _ => settled b).
Proof.
  intros F1 F2 F3 w [[O1 O2 O3 O4] Hr]. split; [split; cbn; try done|done].
  - by rewrite F1.
  - by rewrite F2.
  - by apply F3.
Qed.

Lemma settled_conn (P : World -> Prop) : wspec P get_conn (fun _ => P).
Proof. by intros w Hw. Qed.
#[local] Hint Resolve settled_conn : conn.
#[local] Hint Extern 1 (wspec _ (sq _) _) => by apply sq_spec : conn.

Lemma SetPageSize_spec : wspec (settled b) SetPageSize (fun _ => settled b).
Proof. unfold SetPageSize. conn_auto. Qed.
Lemma SetEncryptKey_spec key : wspec (settled b) (SetEncryptKey key) (fun _ => settled b).
Proof. unfold SetEncryptKey. conn_auto. Qed.
Lemma SetWalSyncMode_spec mode :
  wspec (settled b) (SetWalSyncMode print_double_15 mode) (fun _ => settled b).
Proof. unfold SetWalSyncMode. conn_auto. Qed.
#[local] Hint Resolve SetPageSize_spec SetEncryptKey_spec SetWalSyncMode_spec : conn.
Lemma SetJournalMode_spec mode sync :
  wspec (settled b) (SetJournalMode print_double_15 mode sync) (fun _ => settled b).
Proof. unfold SetJournalMode. conn_auto. Qed.
Lemma set_pragma_spec name v : wspec (settled b) (set_pragma name v) (fun _ => settled b).
Proof. unfold set_pragma. conn_auto. Qed.
#[local] Hint Resolve SetJournalMode_spec set_pragma_spec : conn.
Lemma Config_spec config :
  wspec (settled b) (Config print_double_15 config) (fun _ => settled b).
Proof. unfold Config, SetJournalSizeLimit, SetAutoCheckpoint. conn_auto. Qed.
#[local] Hint Resolve Config_spec : conn.

Lemma InnerOpen_spec config :
  wspec (settled b) (InnerOpen print_double_15 config) (fun _ => settled b).
Proof.
  unfold InnerOpen. destruct (db_path config) as [e|p]; [by apply wspec_ret|].
  eapply wspec_bind; [apply with_conn_spec; try done; intros; apply new_statement_ok|intros ?].
  conn_step; [by conn_auto|]. conn_step; [by conn_auto|].
  eapply wspec_bind; [by apply with_conn_spec|intros ?].
  conn_step; [by conn_auto|]. conn_step; [by conn_auto|]. conn_step; [by conn_auto|].
  conn_step; [by conn_auto|].
  eapply wspec_bind; [by apply with_conn_spec|intros ?]. conn_auto.
Qed.

Lemma finalize_spec s c :
  statement_ok s ->
  wspec (fun w => settled b w /\ conn w = c) (finalize s)
    (fun r w => (settled b w /\ conn w = c) /\ statement_ok r.2).
Proof.
  intros Hs w [Hw Hc]. unfold finalize. destruct (stmtHandle s) eqn:Es; [|done].
  split; [split; [|done]|by apply Finalize_ok]. apply (settled_snoc b w QFinalize Hw I I).
Qed.

Lemma ChangeEncryptKey_spec key :
  wspec (settled b) (ChangeEncryptKey key) (fun _ => settled b).
Proof.
  unfold ChangeEncryptKey. conn_step; [by conn_auto|]. conn_step; [by conn_auto|].
  eapply wspec_bind; [apply get_conn_spec|]. intros c. cbn beta.
  apply (wspec_pure (statement_ok (statement c) /\ statement_ok (stepStatement c))).
  { by intros w [[[] _] <-]. }
  intros [Hs1 Hs2]. eapply wspec_bind; [by apply finalize_spec|]. intros r. cbn beta.
  apply (wspec_pure (statement_ok r.2)); [by intros w [_ ?]|]. intros Hr.
  apply wspec_bind with (T := fun _ => settled b).
  { intros w [[Hw Hc] _]. by apply (set_statement_spec r.2 c Hr w). }
  intros []. conn_step; [by conn_auto|].
  apply wspec_bind with (T := fun r w => settled b w /\ statement_ok r.2).
  { intros w Hw. by destruct (finalize_spec (stepStatement c) (conn w) Hs2 w (conj Hw eq_refl)) as [[? _] ?]. }
  intros r2. apply (wspec_pure (statement_ok r2.2)); [by intros w [_ ?]|]. intros Hr2.
  apply wspec_bind with (T := fun _ => settled b).
  { intros w [Hw _]. by apply set_stepStatement_spec. }
  intros []. conn_auto.
Qed.

(** ** Programs *)
Inductive conn_op :=
| KPrepare (q : string)
| KPrepareAndGetInfo (q : string)
| KExecuteSql (q : string) (args : list ValueObject)
| KChangedRowCount (q : string) (args : list ValueObject)
| KLastInsertedRowId (q : string) (args : list ValueObject)
| KGetLong (q : string) (args : list ValueObject)
| KGetString (q : string) (args : list ValueObject)
| KSharedBlock (q : string) (args : list ValueObject) (ready : bool) (steps : nat) (filled : bool)
| KBeginStepQuery (q : string) (args : list string)
| KEndStepQuery
| KChangeEncryptKey (key : list Z).

Definition run_conn_op (o : conn_op) : W unit :=
  match o with
  | KPrepare q => Prepare q ;; mret tt
  | KPrepareAndGetInfo q => PrepareAndGetInfo q ;; mret tt
  | KExecuteSql q args => ExecuteSql q args ;; mret tt
  | KChangedRowCount q args => ExecuteForChangedRowCount q args ;; mret tt
  | KLastInsertedRowId q args => ExecuteForLastInsertedRowId q args ;; mret tt
  | KGetLong q args => ExecuteGetLong q args ;; mret tt
  | KGetString q args => ExecuteGetString print_double_15 q args ;; mret tt
  | KSharedBlock q args ready n filled => ExecuteForSharedBlock_calls q args ready n filled ;; mret tt
  | KBeginStepQuery q args => BeginStepQuery q args ;; mret tt
  | KEndStepQuery => EndStepQuery ;; mret tt
  | KChangeEncryptKey key => ChangeEncryptKey key ;; mret tt
  end.

Fixpoint run_conn_ops (os : list conn_op) : W unit :=
  match os with
  | [] => mret tt
  | o :: os => run_conn_op o ;; run_conn_ops os
  end.

#[local] Hint Resolve Prepare_spec PrepareAndGetInfo_settled BeginStepQuery_settled EndStepQuery_settled
  ChangeEncryptKey_spec : conn.

Lemma run_conn_op_spec o : wspec (settled b) (run_conn_op o) (fun _ => settled b).
Proof.
  destruct o; cbn; unfold ExecuteForChangedRowCount, ExecuteForLastInsertedRowId; conn_auto.
Qed.
#[local] Hint Resolve run_conn_op_spec : conn.

Lemma run_conn_ops_spec os : wspec (settled b) (run_conn_ops os) (fun _ => settled b).
Proof. induction os; cbn; conn_auto. Qed.
End Steps.

(** C7: what a connection opened for reading executes does not change the database: from
    opening it on, whatever operations of it are run, filling shared blocks included, and
    whatever SQLite answers, every statement it steps is one that SQLite itself reports
    as read-only; and no operation, on either kind of connection, leaves its statement in
    the middle of an execution. The statement that [BeginStepQuery] hands out is stepped
    by the result set that gets it, not by the connection, which does not check it:
    [step_query_unchecked]. *)
Theorem connection_respects_mode `{Sqlite} `{CLib} print_double_15 config write os :
  let '(_, w0) := InnerOpen print_double_15 config (mkWorld (new_SqliteConnection write) []) in
  let '(_, w) := run_conn_ops print_double_15 os w0 in
  (forall q readonly, QStep q readonly ∈ trace w -> write = false -> readonly = true) /\
  running (trace w) = false.
Proof.
  destruct (InnerOpen _ _ _) as [code w0] eqn:Eo. destruct (run_conn_ops _ _ _) as [u w] eqn:Er.
  assert (settled write w0) as Hw0.
  { pose proof (InnerOpen_spec print_double_15 write config (mkWorld (new_SqliteConnection write) [])) as Hs.
    rewrite Eo in Hs. apply Hs. by repeat split. }
  pose proof (run_conn_ops_spec print_double_15 write os w0 Hw0) as Hs. rewrite Er in Hs.
  destruct Hs as [[_ _ _ Ht] Hr]. split; [|done]. intros q ro Hin.
  exact (proj1 (Forall_forall _ _) Ht _ Hin).
Qed.

(** ** Step queries are not checked *)

(** A database whose calls succeed, with statements that change it. *)
Definition no_row : sqlite3_row := {|
  sqlite3_column_type _ := 5; sqlite3_column_text _ := None; sqlite3_column_bytes _ := 0;
  sqlite3_column_int64 _ := 0; sqlite3_column_double _ := 0; sqlite3_column_blob _ := [];
|}.
Definition changing : Sqlite := {|
  q_code _ c := match c with QStep _ _ => SQLITE_DONE | _ => SQLITE_OK end;
  q_stmt _ _ := Some (mkStmt false 0 0 (fun _ => None) no_row);
  q_row _ := no_row;
  sqlite3_changes _ := 1;
  sqlite3_last_insert_rowid _ := 1;
|}.
(** On a connection for reading a statement that changes the database is refused by
    [ExecuteSql], and handed out by [BeginStepQuery]. *)
Example step_query_unchecked :
  let w := mkWorld (new_SqliteConnection false) [] in
  (@ExecuteSql changing "DELETE FROM t" [] w).1 <> E_OK /\
  match (@BeginStepQuery changing "DELETE FROM t" [] w).1 with
  | (e, Some s) => e = E_OK /\ readOnly s = false
  | _ => False
  end.
Proof. vm_compute. split; [discriminate|auto]. Qed.

(** ** Opening a connection for reading *)

(** opening a connection for reading runs no statement: the calls are the
    opening itself, the two settings of the handle and the key if there is one;
    the paths that are empty or relative are refused before SQLite is called. *)
Theorem open_for_reading `{Sqlite} `{CLib} print_double_15 config t :
  match db_path config with
  | inl code => Open print_double_15 config false t = (code, None, t)
  | inr p =>
      let opening := QOpen p (cfg_isReadOnly config) in
      let t1 := t ++ [opening; QPersistWal; QBusyTimeout] in
      let key := QKey (cfg_encryptKey config) in
      let keyed := negb (cfg_isMemory config) && bool_decide (cfg_encryptKey config <> []) in
      if negb (q_code t opening =? SQLITE_OK) then
        Open print_double_15 config false t = (ErrNo (q_code t opening), None, t ++ [opening])
      else if keyed && negb (q_code t1 key =? SQLITE_OK) then
        Open print_double_15 config false t = (ErrNo (q_code t1 key), None, t1 ++ [key])
      else
        exists c, Open print_double_15 config false t =
          (E_OK, Some c, if keyed then t1 ++ [key] else t1) /\
          isWriteConnection c = false /\ isReadOnly c = true /\ filePath c = p
  end.
Proof.
  assert (Herr : forall x, (x =? SQLITE_OK) = false -> (ErrNo x =? E_OK) = false).
  { intros x Hx. to_prop. apply Z.eqb_neq. unfold ErrNo, SQLITE_OK, E_OK in *. lia. }
  unfold Open, InnerOpen, Config, SetPageSize, SetEncryptKey, SetJournalMode, SetJournalSizeLimit,
    SetAutoCheckpoint, set_pragma, mbind, W_bind, mret, W_ret.
  destruct (db_path config) as [code|p] eqn:Ep.
  - assert (code <> E_OK) as Hc.
    { unfold db_path in Ep. repeat case_match; by simplify_eq. }
    cbn -[Z.eqb]. by rewrite (proj2 (Z.eqb_neq _ _) Hc).
  - cbn -[app Z.eqb ErrNo E_OK SQLITE_OK].
    destruct (q_code t (QOpen p (cfg_isReadOnly config)) =? SQLITE_OK) eqn:Eo;
      cbn -[app Z.eqb ErrNo E_OK SQLITE_OK]; [|by rewrite Herr].
    assert (Hs : forall a, ((t ++ [a]) ++ [QPersistWal]) ++ [QBusyTimeout] =
                           t ++ [a; QPersistWal; QBusyTimeout]) by (intros; by rewrite <- !app_assoc).
    destruct (cfg_isMemory config); cbn -[app ErrNo SQLITE_OK]; [rewrite Hs; by eexists|].
    destruct (cfg_encryptKey config) as [|k key]; cbn -[app ErrNo SQLITE_OK Z.eqb E_OK];
      [rewrite Hs; by eexists|].
    rewrite Hs. destruct (q_code _ (QKey (k :: key)) =? SQLITE_OK) eqn:Ek;
      cbn -[app ErrNo SQLITE_OK Z.eqb E_OK];
      [by eexists|repeat (rewrite Herr by done; cbn -[app ErrNo SQLITE_OK Z.eqb E_OK]); done].
Qed.
