(* ===== verification/StoreSession.v ===== *)
(** * Store sessions

    Model of frameworks/native/rdb/src/store_session.cpp: a thread's session borrows
    connections of the shared pool, runs statements on them and keeps the stack of
    transactions. What a connection answers to a call is the interface
    [Connections]: any function of the calls made so far. *)
From S2P Require Import Prelude Strings RdbErrno ValueObject SqliteUtils ConnectionPool.

#[local] Open Scope list_scope.

(** ** Connections, as the session uses them *)

(** The methods of [SqliteConnection] the session calls. *)
Inductive conn_call :=
| CPrepare (sql : string)
| CPrepareAndGetInfo (sql : string)
| CExecuteSql (sql : string) (bindArgs : list ValueObject)
| CExecuteForChangedRowCount (sql : string) (bindArgs : list ValueObject)
| CExecuteForLastInsertedRowId (sql : string) (bindArgs : list ValueObject)
| CExecuteGetLong (sql : string) (bindArgs : list ValueObject)
| CExecuteGetString (sql : string) (bindArgs : list ValueObject)
| CBeginStepQuery (sql : string) (selectionArgs : list string)
| CEndStepQuery
| CExecuteForSharedBlock (sql : string) (bindArgs : list ValueObject)
    (startPos requiredPos : Z) (isCountAllRows : bool).

(** The error code and the out parameters. *)
Record reply := mkReply {
  r_code : Z;
  r_readOnly : bool;
  r_number : Z;
  r_text : string;
  r_columns : list string;
  r_statement : bool;
}.

Class Connections := answers : list (Z * conn_call) -> Z -> conn_call -> reply.

(** ** State *)
Record Session := mkSession {
  connection : option Z;
  connectionUseCount : Z;
  isInStepQuery : bool;
}.

Definition new_Session : Session := mkSession None 0 false.

Inductive observer_event := OnBegin | OnCommit | OnRollback.

(** What a session's operation works on: the shared pool, the session, the calls
    made on connections and the notifications sent to observers, oldest first. *)
Record Env := mkEnv {
  pool : Pool;
  session : Session;
  calls : list (Z * conn_call);
  events : list observer_event;
}.

Definition with_pool (e : Env) (p : Pool) : Env := mkEnv p (session e) (calls e) (events e).
Definition with_session (e : Env) (s : Session) : Env := mkEnv (pool e) s (calls e) (events e).

(** A run of an operation returns, waits for a connection of the pool, or
    dereferences a null connection. *)
Inductive run (A : Type) := Ret (a : A) | Blocked | NullConnection.
#[global] Arguments Ret {A} a.
#[global] Arguments Blocked {A}.
#[global] Arguments NullConnection {A}.

Definition M (A : Type) : Type := Env -> run (A * Env).
#[global] Instance M_ret : MRet M := fun A a e => Ret (a, e).
#[global] Instance M_bind : MBind M := fun A B f m e =>
  match m e with
  | Ret (a, e) => f a e
  | Blocked => Blocked
  | NullConnection => NullConnection
  end.

Section Session.
Context `{Connections}.

(** A method call on the session's connection. *)
Definition call (f : conn_call) : M reply := fun e =>
  match connection (session e) with
  | None => NullConnection
  | Some c => Ret (answers (calls e) c f,
                   mkEnv (pool e) (session e) (calls e ++ [(c, f)]) (events e))
  end.

(** The pool opens exactly its write connection for writing. *)
Definition IsWriteConnection : M bool := fun e =>
  match connection (session e) with
  | None => NullConnection
  | Some c => Ret (bool_decide (Some c = writeConnection (pool e)), e)
  end.

Definition stack : M (list BaseTransaction) := fun e => Ret (transactionStack (pool e), e).
Definition set_stack (st : list BaseTransaction) : M unit := fun e =>
  Ret (tt, with_pool e (with_stack (pool e) st)).
Definition notify (observer : bool) (ev : observer_event) : M unit := fun e =>
  Ret (tt, if observer then mkEnv (pool e) (session e) (calls e) (events e ++ [ev]) else e).

(** ** Borrowing a connection *)
Definition AcquireConnection (isReadOnly : bool) : M unit := fun e =>
  let s := session e in
  match connection s with
  | Some c =>
      Ret (tt, with_session e (mkSession (Some c) (connectionUseCount s + 1) (isInStepQuery s)))
  | None =>
      match ConnectionPool.AcquireConnection (pool e) isReadOnly with
      | None => Blocked
      | Some (c, p) =>
          Ret (tt, with_session (with_pool e p)
                     (mkSession c (connectionUseCount s + 1) (isInStepQuery s)))
      end
  end.

Definition ReleaseConnection : M unit := fun e =>
  let s := session e in
  match connection s with
  | None => Ret (tt, e)
  | Some c =>
      if connectionUseCount s <=? 0 then Ret (tt, e)
      else
        let n := connectionUseCount s - 1 in
        if n =? 0 then
          Ret (tt, with_session (with_pool e (ConnectionPool.ReleaseConnection (pool e) c))
                     (mkSession None n (isInStepQuery s)))
        else Ret (tt, with_session e (mkSession (Some c) n (isInStepQuery s)))
  end.

(** ** Executing statements *)
Definition PrepareAndGetInfo (sql : string) : M (Z * reply) :=
  let type := GetSqlStatementType sql in
  let none := mkReply E_OK false 0 "" [] false in
  if IsSpecial type then mret (E_TRANSACTION_IN_EXECUTE, none)
  else
    AcquireConnection (IsSqlReadOnly type) ;;
    r ← call (CPrepareAndGetInfo sql);
    ReleaseConnection ;;
    mret (if negb (r_code r =? 0) then r_code r else E_OK, r).

Definition BeginExecuteSql (sql : string) : M Z :=
  let type := GetSqlStatementType sql in
  if IsSpecial type then mret E_TRANSACTION_IN_EXECUTE
  else
    AcquireConnection (IsSqlReadOnly type) ;;
    r ← call (CPrepare sql);
    if negb (r_code r =? 0) then ReleaseConnection ;; mret (r_code r)
    else
      let isReadOnly := r_readOnly r in
      w ← IsWriteConnection;
      if Bool.eqb isReadOnly w then
        ReleaseConnection ;;
        AcquireConnection isReadOnly ;;
        w ← IsWriteConnection;
        if negb isReadOnly && negb w then
          ReleaseConnection ;; mret E_EXECUTE_WRITE_IN_READ_CONNECTION
        else mret E_OK
      else mret E_OK.

(** What the executing operations have in common. *)
Definition execute (sql : string) (f : conn_call) : M (Z * reply) :=
  let none := mkReply E_OK false 0 "" [] false in
  errCode ← BeginExecuteSql sql;
  if negb (errCode =? 0) then mret (errCode, none)
  else
    r ← call f;
    ReleaseConnection ;;
    mret (r_code r, r).

Definition ExecuteSql (sql : string) (bindArgs : list ValueObject) : M Z :=
  r ← execute sql (CExecuteSql sql bindArgs); mret (fst r).
Definition ExecuteForChangedRowCount (sql : string) (bindArgs : list ValueObject) : M (Z * reply) :=
  execute sql (CExecuteForChangedRowCount sql bindArgs).
Definition ExecuteForLastInsertedRowId (sql : string) (bindArgs : list ValueObject)
    : M (Z * reply) := execute sql (CExecuteForLastInsertedRowId sql bindArgs).
Definition ExecuteGetLong (sql : string) (bindArgs : list ValueObject) : M (Z * reply) :=
  execute sql (CExecuteGetLong sql bindArgs).
Definition ExecuteForSharedBlock (sql : string) (bindArgs : list ValueObject)
    (startPos requiredPos : Z) (isCountAllRows : bool) : M (Z * reply) :=
  execute sql (CExecuteForSharedBlock sql bindArgs startPos requiredPos isCountAllRows).

(** [databaseType] stands for [SqliteDatabaseUtils::GetSqlStatementType], which writes
    through the iterator of an empty string: its result is not defined. *)
Context (databaseType : string -> Z).

Definition ExecuteGetString (sql : string) (bindArgs : list ValueObject) : M (Z * reply) :=
  let none := mkReply E_OK false 0 "" [] false in
  errCode ← BeginExecuteSql sql;
  if negb (errCode =? 0) then mret (errCode, none)
  else
    (if databaseType sql =? STATEMENT_PRAGMA then
       ReleaseConnection ;; AcquireConnection false
     else mret tt) ;;
    r ← call (CExecuteGetString sql bindArgs);
    ReleaseConnection ;;
    mret (r_code r, r).

Definition ATTACH_BACKUP_SQL : string := "ATTACH ? AS backup KEY ?".
Definition ATTACH_SQL : string := "ATTACH ? AS ? KEY ?".
Definition EXPORT_SQL : string := "SELECT export_database('backup')".
Definition DETACH_BACKUP_SQL : string := "detach backup".

Definition key_argument (destEncryptKey : list Memory.byte) : ValueObject :=
  match destEncryptKey with [] => ValueObject_string "" | key => ValueObject_blob key end.

Definition Backup (databasePath : string) (destEncryptKey : list Memory.byte) : M Z :=
  let bindArgs := [ValueObject_string databasePath; key_argument destEncryptKey] in
  errCode ← ExecuteSql ATTACH_BACKUP_SQL bindArgs;
  if negb (errCode =? E_OK) then mret errCode
  else
    r ← ExecuteGetLong EXPORT_SQL [];
    if negb (fst r =? E_OK) then mret (fst r)
    else
      errCode ← ExecuteSql DETACH_BACKUP_SQL [];
      if negb (errCode =? E_OK) then mret errCode else mret E_OK.

Definition Attach (alias pathName : string) (destEncryptKey : list Memory.byte) : M Z :=
  r ← ExecuteGetString "PRAGMA journal_mode" [];
  if negb (fst r =? E_OK) then mret (fst r)
  else if decide (StrToUpper (r_text (snd r)) = "WAL") then
    mret E_NOT_SUPPORTED_ATTACH_IN_WAL_MODE
  else
    let bindArgs :=
      [ValueObject_string pathName; ValueObject_string alias; key_argument destEncryptKey] in
    errCode ← ExecuteSql ATTACH_SQL bindArgs;
    if negb (errCode =? E_OK) then mret errCode else mret E_OK.

(** ** Step queries *)
Definition IsHoldingConnection : M bool := fun e =>
  Ret (match connection (session e) with None => false | Some _ => true end, e).
Definition GetConnectionUseCount : M Z := fun e => Ret (connectionUseCount (session e), e).

Definition set_stepping (b : bool) : M unit := fun e =>
  Ret (tt, with_session e (mkSession (connection (session e)) (connectionUseCount (session e)) b)).

(** The error code left for the caller and whether a statement is returned. *)
Definition BeginStepQuery (sql : string) (selectionArgs : list string) : M (Z * bool) := fun e =>
  if isInStepQuery (session e) then Ret ((E_MORE_STEP_QUERY_IN_ONE_SESSION, false), e)
  else if negb (GetSqlStatementType sql =? STATEMENT_SELECT) then
    Ret ((E_EXECUTE_IN_STEP_QUERY, false), e)
  else
    (AcquireConnection true ;;
     r ← call (CBeginStepQuery sql selectionArgs);
     if negb (r_statement r) then ReleaseConnection ;; mret (r_code r, false)
     else set_stepping true ;; mret (r_code r, true)) e.

Definition EndStepQuery : M Z := fun e =>
  if negb (isInStepQuery (session e)) then Ret (E_OK, e)
  else
    (r ← call CEndStepQuery;
     set_stepping false ;;
     ReleaseConnection ;;
     mret (r_code r)) e.

(** ** Transactions marked for commit *)
Definition CheckNoTransaction : M Z :=
  st ← stack;
  mret (match st with [] => E_STORE_SESSION_NO_CURRENT_TRANSACTION | _ => E_OK end).

Definition IsInTransaction : M bool :=
  st ← stack; mret (match st with [] => false | _ => true end).

(** [std::stack::size] as the [int] of the constructor. *)
Definition push_new : M unit :=
  st ← stack; set_stack (new_BaseTransaction (s32 (Z.of_nat (length st))) :: st).

Definition BeginTransactionWithObserver (observer : bool) : M Z :=
  st ← stack;
  errCode ←
    match st with
    | [] =>
        AcquireConnection false ;;
        w ← IsWriteConnection;
        if negb w then ReleaseConnection ;; mret E_BEGIN_TRANSACTION_IN_READ_CONNECTION
        else
          r ← call (CExecuteSql "BEGIN EXCLUSIVE;" []);
          if negb (r_code r =? E_OK) then ReleaseConnection ;; mret (r_code r) else mret E_OK
    | _ => mret E_OK
    end;
  if negb (errCode =? E_OK) then mret errCode
  else notify observer OnBegin ;; push_new ;; mret E_OK.

Definition MarkAsCommit : M Z :=
  st ← stack;
  match st with
  | [] => mret E_NO_TRANSACTION_IN_SESSION
  | t :: st => set_stack (SetMarkedSuccessful t true :: st) ;; mret E_OK
  end.

(** The observer is not used. *)
Definition MarkAsCommitWithObserver (observer : bool) : M Z := MarkAsCommit.

Definition EndTransactionWithObserver (observer : bool) : M Z :=
  st ← stack;
  match st with
  | [] => mret E_NO_TRANSACTION_IN_SESSION
  | t :: st =>
      let isSucceed := IsAllBeforeSuccessful t && IsMarkedSuccessful t in
      set_stack st ;;
      notify observer (if isSucceed then OnCommit else OnRollback) ;;
      match st with
      | parent :: st =>
          notify observer OnRollback ;;
          (if negb isSucceed then set_stack (SetAllBeforeSuccessful parent false :: st)
           else mret tt) ;;
          mret E_OK
      | [] =>
          r ← call (CExecuteSql (if isSucceed then "COMMIT;" else "ROLLBACK;") []);
          ReleaseConnection ;;
          mret (r_code r)
      end
  end.

Definition EndTransaction : M Z :=
  st ← stack;
  match st with
  | [] => mret E_NO_TRANSACTION_IN_SESSION
  | t :: st =>
      let isSucceed := IsAllBeforeSuccessful t && IsMarkedSuccessful t in
      set_stack st ;;
      match st with
      | parent :: st =>
          (if negb isSucceed then set_stack (SetAllBeforeSuccessful parent false :: st)
           else mret tt) ;;
          mret E_OK
      | [] =>
          r ← call (CExecuteSql (if isSucceed then "COMMIT;" else "ROLLBACK;") []);
          ReleaseConnection ;;
          mret (r_code r)
      end
  end.

(** ** Transactions committed and rolled back explicitly *)
Definition BeginTransaction : M Z :=
  AcquireConnection false ;;
  st ← stack;
  let transaction := new_BaseTransaction (s32 (Z.of_nat (length st))) in
  r ← call (CExecuteSql (getTransactionStr transaction) []);
  if negb (r_code r =? E_OK) then ReleaseConnection ;; mret (r_code r)
  else set_stack (transaction :: st) ;; ReleaseConnection ;; mret E_OK.

Definition Commit : M Z :=
  st ← stack;
  match st with
  | [] => mret E_OK
  | transaction :: st =>
      let sqlStr := getCommitStr transaction in
      if (String.length sqlStr <=? 1)%nat then set_stack st ;; mret E_OK
      else
        AcquireConnection false ;;
        r ← call (CExecuteSql sqlStr []);
        ReleaseConnection ;;
        if negb (r_code r =? E_OK) then mret (r_code r)
        else set_stack st ;; mret E_OK
  end.

(** The stack the code pops and marks is a copy of the pool's. *)
Definition RollBack : M Z :=
  st ← stack;
  match st with
  | [] => mret E_NO_TRANSACTION_IN_SESSION
  | transaction :: _ =>
      AcquireConnection false ;;
      r ← call (CExecuteSql (getRollbackStr transaction) []);
      ReleaseConnection ;;
      mret (r_code r)
  end.

(** The sleep has no effect on the state. *)
Definition GiveConnectionTemporarily (milliseconds : Z) : M Z :=
  errorCode ← CheckNoTransaction;
  if negb (errorCode =? E_OK) then mret errorCode
  else
    st ← stack;
    match st with
    | [] => mret errorCode
    | transaction :: rest =>
        if IsMarkedSuccessful transaction || (1 <? length st)%nat then
          mret E_STORE_SESSION_NOT_GIVE_CONNECTION_TEMPORARILY
        else MarkAsCommit ;; EndTransaction ;; BeginTransaction ;; mret E_OK
    end.
End Session.
