(* ===== verification/StoreSessionSpec.v ===== *)
(** * Store sessions: no connection leaks, transactions nest

    A small program logic for the session monad: [spec B P m Q] says that [m], started in
    a state with [P], never dereferences a null connection, waits only if [B], and
    ends with [Q]. The operations are verified against two states of a session, at
    rest and with one more use of a connection than at rest. *)
From S2P Require Import Prelude RdbErrno Strings SqliteUtils ConnectionPool ValueObject StoreSession.

#[local] Open Scope list_scope.

(** ** The logic *)
Definition spec {A} (B : Prop) (P : Env -> Prop) (m : M A) (Q : A -> Env -> Prop) : Prop :=
  forall e, P e ->
    match m e with
    | Ret (a, e') => Q a e'
    | Blocked => B
    | NullConnection => False
    end.

Lemma spec_ret {A} B (P : Env -> Prop) (a : A) (Q : A -> Env -> Prop) :
  (forall e, P e -> Q a e) -> spec B P (mret a) Q.
Proof. intros HPQ e He. by apply HPQ. Qed.

Lemma spec_bind {A C} B P (m : M A) (f : A -> M C) R Q :
  spec B P m R -> (forall a, spec B (R a) (f a) Q) -> spec B P (m ≫= f) Q.
Proof.
  intros Hm Hf e He. unfold mbind, M_bind. specialize (Hm e He).
  destruct (m e) as [[a e']| |]; [|done|done]. by apply Hf.
Qed.

Lemma spec_weaken {A} B P P' (m : M A) (Q Q' : A -> Env -> Prop) :
  spec B P m Q -> (forall e, P' e -> P e) -> (forall a e, Q a e -> Q' a e) -> spec B P' m Q'.
Proof.
  intros Hm HP HQ e He. specialize (Hm e (HP e He)).
  destruct (m e) as [[a e']| |]; [by apply HQ|done..].
Qed.

Lemma spec_if {A} B P (b : bool) (m m' : M A) Q :
  (b = true -> spec B P m Q) -> (b = false -> spec B P m' Q) ->
  spec B P (if b then m else m') Q.
Proof. destruct b; auto. Qed.

Create HintDb session.
#[export] Hint Resolve spec_ret : session.

(** Walks through an operation with the rules of the [session] database. *)
Ltac session_step :=
  lazymatch goal with
  | |- spec _ _ (_ ≫= _) _ => eapply spec_bind; [|intros ?; cbn beta]
  | |- spec _ _ (if ?b then _ else _) _ =>
      lazymatch type of b with bool => apply spec_if; intros ? | _ => destruct b end
  | |- spec _ _ (mret _) _ => apply spec_ret; by auto
  | |- spec _ _ (let _ := _ in _) _ => cbv zeta
  | |- _ => solve [eauto with session]
  end.
Ltac session_auto := repeat session_step.

(** ** Connections come back to the pool as they were *)
Lemma open_write_not_read p held w : pool_open p held w -> w ∉ readConnections p.
Proof.
  intros [_ H2 _ H4 _] Hin. unfold idle_connections in H2.
  destruct (writeConnectionUsed p).
  - apply NoDup_app in H2 as (_ & Hd & _). by eapply Hd, H4.
  - apply NoDup_cons in H2. set_solver.
Qed.

Lemma acquire_release p held w ro c p' :
  pool_open p held w -> ConnectionPool.AcquireConnection p ro = Some (Some c, p') ->
  ConnectionPool.ReleaseConnection p' c = p.
Proof.
  intros Ho Ha. pose proof (open_write_not_read _ _ _ Ho) as Hw. destruct Ho as [H1 _ _ _ _].
  unfold ConnectionPool.AcquireConnection, AcquireReadConnection, AcquireWriteConnection in Ha.
  unfold ConnectionPool.ReleaseConnection, ReleaseWriteConnection, ReleaseReadConnection.
  destruct p as [cf wr u reads cnt idle st]; cbn in *. subst wr.
  case_match; case_match; simplify_eq; cbn.
  - assert (reads = removelast reads ++ [c]) as Hr by (by apply last_removelast).
    rewrite decide_False by (intros [= ->]; apply Hw; rewrite Hr; set_solver).
    unfold with_reads; cbn. rewrite <- Hr. f_equal. lia.
  - by rewrite decide_True.
Qed.

(** With every connection idle no request waits. *)
Lemma acquire_idle p w ro :
  pool_open p [] w -> ConnectionPool.AcquireConnection p ro <> None.
Proof.
  intros [H1 H2 H3 H4 H5]. unfold idle_connections in *.
  destruct (writeConnectionUsed p) eqn:Hu; [specialize (H4 eq_refl); set_solver|].
  unfold ConnectionPool.AcquireConnection, AcquireReadConnection, AcquireWriteConnection.
  rewrite Hu. case_match; [|done]. to_prop. rewrite (proj2 (Z.gtb_lt _ _)); [done|len_lia].
Qed.

(** ** Programs of executions *)
Inductive execution :=
| XPrepareAndGetInfo (sql : string)
| XExecuteSql (sql : string) (args : list ValueObject)
| XExecuteForChangedRowCount (sql : string) (args : list ValueObject)
| XExecuteForLastInsertedRowId (sql : string) (args : list ValueObject)
| XExecuteGetLong (sql : string) (args : list ValueObject)
| XExecuteGetString (sql : string) (args : list ValueObject)
| XExecuteForSharedBlock (sql : string) (args : list ValueObject) (start required : Z) (all : bool)
| XBackup (path : string) (key : list Memory.byte)
| XAttach (alias path : string) (key : list Memory.byte).

Definition perform `{Connections} (databaseType : string -> Z) (x : execution) : M Z :=
  match x with
  | XPrepareAndGetInfo sql => r ← PrepareAndGetInfo sql; mret (fst r)
  | XExecuteSql sql args => ExecuteSql sql args
  | XExecuteForChangedRowCount sql args => r ← ExecuteForChangedRowCount sql args; mret (fst r)
  | XExecuteForLastInsertedRowId sql args =>
      r ← ExecuteForLastInsertedRowId sql args; mret (fst r)
  | XExecuteGetLong sql args => r ← ExecuteGetLong sql args; mret (fst r)
  | XExecuteGetString sql args => r ← ExecuteGetString databaseType sql args; mret (fst r)
  | XExecuteForSharedBlock sql args start required all =>
      r ← ExecuteForSharedBlock sql args start required all; mret (fst r)
  | XBackup path key => Backup path key
  | XAttach alias path key => Attach databaseType alias path key
  end.

(** The operations one after the other, with their error codes. *)
Fixpoint perform_all `{Connections} (databaseType : string -> Z) (xs : list execution)
    : M (list Z) :=
  match xs with
  | [] => mret []
  | x :: xs => r ← perform databaseType x; rs ← perform_all databaseType xs; mret (r :: rs)
  end.

(** ** The two states of a session *)
Record session_ok (e : Env) (held : list Z) (w : Z) : Prop := {
  ok_pool : pool_open (pool e) held w;
  ok_count : match connection (session e) with
             | Some c => 0 < connectionUseCount (session e)
             | None => connectionUseCount (session e) = 0
             end;
}.

Section Balanced.
Context `{Connections} (databaseType : string -> Z).
Context (e0 : Env) (held : list Z) (w : Z) (Hok : session_ok e0 held w).

(** A request waits only when the session has no connection and others hold some. *)
Definition waits : Prop := connection (session e0) = None /\ held <> [].

Definition at_rest (e : Env) : Prop := session e = session e0 /\ pool e = pool e0.

Definition borrowed (e : Env) : Prop :=
  let s0 := session e0 in
  exists c, session e = mkSession (Some c) (connectionUseCount s0 + 1) (isInStepQuery s0) /\
    match connection s0 with
    | Some c0 => c = c0 /\ pool e = pool e0
    | None => exists ro, ConnectionPool.AcquireConnection (pool e0) ro = Some (Some c, pool e)
    end.

Lemma AcquireConnection_spec ro :
  spec waits at_rest (AcquireConnection ro) (fun _ => borrowed).
Proof using Hok.
  intros e [Hs Hp]. unfold AcquireConnection. rewrite Hs, Hp. destruct Hok as [Ho Hc].
  destruct (connection (session e0)) as [c|] eqn:Ec.
  - exists c. cbn. by rewrite Ec.
  - pose proof (AcquireConnection_open _ _ _ ro Ho) as Ha.
    destruct (ConnectionPool.AcquireConnection (pool e0) ro) as [[[c|] p]|] eqn:Eacq; [|done|].
    + exists c. cbn. rewrite Ec. eauto.
    + split; [done|]. intros ->. by eapply acquire_idle.
Qed.

Lemma ReleaseConnection_spec :
  spec waits borrowed ReleaseConnection (fun _ => at_rest).
Proof using Hok.
  intros e (c & Hs & Hb). unfold ReleaseConnection. rewrite Hs. cbn.
  destruct Hok as [Ho Hc].
  destruct (connection (session e0)) as [c0|] eqn:Ec.
  - destruct Hb as [-> Hp].
    rewrite (proj2 (Z.leb_gt _ _)), (proj2 (Z.eqb_neq _ _)) by lia.
    split; cbn; [|done]. rewrite Z.add_simpl_r, <- Ec. by destruct (session e0).
  - destruct Hb as [ro Ha]. rewrite Hc. cbn.
    split; cbn; [|by eapply acquire_release].
    destruct (session e0); cbn in *. by subst.
Qed.

Lemma call_spec f : spec waits borrowed (call f) (fun _ => borrowed).
Proof. intros e (c & Hs & Hb). unfold call. rewrite Hs. by exists c. Qed.

Lemma IsWriteConnection_spec : spec waits borrowed IsWriteConnection (fun _ => borrowed).
Proof. intros e (c & Hs & Hb). unfold IsWriteConnection. rewrite Hs. cbn. by exists c. Qed.

#[local] Hint Resolve AcquireConnection_spec ReleaseConnection_spec call_spec
  IsWriteConnection_spec : session.

(** A statement may be begun: the connection is borrowed exactly on success. *)
Definition begun (errCode : Z) (e : Env) : Prop :=
  if errCode =? 0 then borrowed e else at_rest e.

Lemma BeginExecuteSql_spec sql : spec waits at_rest (BeginExecuteSql sql) begun.
Proof using Hok.
  unfold BeginExecuteSql. session_auto.
  apply spec_ret. intros e He. unfold begun. to_prop. by rewrite (proj2 (Z.eqb_neq _ _)).
Qed.

(** Running [k] on the connection of a begun statement. *)
Lemma spec_begun {A} sql (r : Z -> A) (k : M A) :
  spec waits borrowed k (fun _ => at_rest) ->
  spec waits at_rest
    (errCode ← BeginExecuteSql sql; if negb (errCode =? 0) then mret (r errCode) else k)
    (fun _ => at_rest).
Proof using Hok.
  intros Hk. eapply spec_bind; [apply BeginExecuteSql_spec|]. intros code.
  apply spec_if; intros Hc; to_prop.
  - apply spec_ret. intros e He. unfold begun in He. by rewrite (proj2 (Z.eqb_neq _ _)) in He.
  - eapply spec_weaken; [exact Hk| |done]. intros e He. by rewrite Hc in He.
Qed.

Lemma execute_spec sql f : spec waits at_rest (execute sql f) (fun _ => at_rest).
Proof using Hok. apply (spec_begun sql (fun c => (c, _))). session_auto. Qed.
#[local] Hint Resolve execute_spec : session.

Lemma ExecuteSql_spec sql args : spec waits at_rest (ExecuteSql sql args) (fun _ => at_rest).
Proof using Hok. unfold ExecuteSql. session_auto. Qed.
Lemma ExecuteGetLong_spec sql args :
  spec waits at_rest (ExecuteGetLong sql args) (fun _ => at_rest).
Proof using Hok. unfold ExecuteGetLong. session_auto. Qed.
Lemma PrepareAndGetInfo_spec sql :
  spec waits at_rest (PrepareAndGetInfo sql) (fun _ => at_rest).
Proof using Hok. unfold PrepareAndGetInfo. session_auto. Qed.
Lemma ExecuteGetString_spec sql args :
  spec waits at_rest (ExecuteGetString databaseType sql args) (fun _ => at_rest).
Proof using Hok. apply (spec_begun sql (fun c => (c, _))). session_auto. Qed.
#[local] Hint Resolve ExecuteSql_spec ExecuteGetLong_spec ExecuteGetString_spec
  PrepareAndGetInfo_spec : session.

Lemma Backup_spec path key : spec waits at_rest (Backup path key) (fun _ => at_rest).
Proof using Hok. unfold Backup. session_auto. Qed.
Lemma Attach_spec alias path key :
  spec waits at_rest (Attach databaseType alias path key) (fun _ => at_rest).
Proof using Hok. unfold Attach. session_auto. Qed.
#[local] Hint Resolve Backup_spec Attach_spec : session.

Lemma perform_spec x : spec waits at_rest (perform databaseType x) (fun _ => at_rest).
Proof using Hok.
  destruct x; cbn; unfold ExecuteForChangedRowCount, ExecuteForLastInsertedRowId,
    ExecuteForSharedBlock; session_auto.
Qed.
#[local] Hint Resolve perform_spec : session.

Lemma perform_all_spec xs : spec waits at_rest (perform_all databaseType xs) (fun _ => at_rest).
Proof using Hok. induction xs; cbn; session_auto. Qed.

(** ** Step queries *)

(** A session in a step query: a connection is borrowed and the flag is set. *)
Definition stepping (e : Env) : Prop := exists e1,
  borrowed e1 /\ pool e = pool e1 /\
  session e = mkSession (connection (session e1)) (connectionUseCount (session e1)) true.

Lemma set_stepping_spec : spec waits borrowed (set_stepping true) (fun _ => stepping).
Proof. intros e He. by exists e. Qed.
#[local] Hint Resolve set_stepping_spec : session.

Lemma BeginStepQuery_spec sql args :
  spec waits at_rest (BeginStepQuery sql args)
    (fun r e => if snd r then stepping e else at_rest e).
Proof using Hok.
  intros e He. unfold BeginStepQuery. do 2 (case_if; [done|]).
  apply (spec_bind waits at_rest (AcquireConnection true) (fun _ => _) (fun _ => borrowed));
    [|intros _|done]; session_auto.
Qed.

Lemma call_stepping f : spec waits stepping (call f) (fun _ => stepping).
Proof.
  intros e (e1 & (c & Hs1 & Hb) & Hp & Hs). unfold call. rewrite Hs, Hs1. cbn.
  exists e1. split; [by exists c|]. cbn. by rewrite ?Hs, ?Hs1.
Qed.

Lemma unset_stepping_spec :
  isInStepQuery (session e0) = false ->
  spec waits stepping (set_stepping false) (fun _ => borrowed).
Proof.
  intros Hst e (e1 & (c & Hs1 & Hb) & Hp & Hs). exists c. cbn. rewrite Hs, Hs1, Hst, Hp. done.
Qed.

Lemma EndStepQuery_spec :
  isInStepQuery (session e0) = false ->
  spec waits stepping EndStepQuery (fun _ => at_rest).
Proof using Hok.
  intros Hst e He. unfold EndStepQuery.
  assert (isInStepQuery (session e) = true) as ->.
  { destruct He as (e1 & _ & _ & ->). done. }
  cbn [negb].
  apply (spec_bind waits stepping (call CEndStepQuery) (fun _ => _) (fun _ => stepping));
    [apply call_stepping|intros r|done].
  eapply spec_bind; [by apply unset_stepping_spec|intros ?]. session_auto.
Qed.

(** While a step query runs the session keeps its connection, so nothing waits. *)
Lemma stepping_ok e :
  stepping e -> connection (session e) <> None /\ exists held', session_ok e held' w.
Proof using Hok.
  intros (e1 & (c & Hs1 & Hb) & Hp & Hs). rewrite Hs, Hs1. cbn. split; [done|].
  destruct Hok as [Ho Hc]. destruct (connection (session e0)) as [c0|].
  - exists held. destruct Hb as [-> Hp1]. split; [by rewrite Hp, Hp1|]. rewrite Hs, Hs1. cbn. lia.
  - destruct Hb as [ro Ha]. exists (c :: held). split.
    + rewrite Hp. by eapply AcquireConnection_inv.
    + rewrite Hs, Hs1. cbn. lia.
Qed.
End Balanced.

(** no statement leaks a connection: whatever statements a session runs, with
    whatever answers of the database and whether they succeed or fail, the session
    and the pool end as they were; no null connection is used; and the only
    reason to wait is that the session holds no connection while others do. *)
Theorem session_balanced `{Connections} databaseType e0 held w xs :
  session_ok e0 held w ->
  match perform_all databaseType xs e0 with
  | Ret (_, e) => session e = session e0 /\ pool e = pool e0
  | Blocked => connection (session e0) = None /\ held <> []
  | NullConnection => False
  end.
Proof. intros Hok. by apply (perform_all_spec databaseType e0 held w Hok). Qed.

(** a step query keeps exactly one connection for its duration: after beginning
    it, running any statements in between and ending it, the session and the
    pool are as before; when it cannot begin nothing is kept. *)
Theorem step_query_balanced `{Connections} databaseType e0 held w sql args xs :
  session_ok e0 held w -> isInStepQuery (session e0) = false ->
  match (r ← BeginStepQuery sql args;
         if snd r : bool then perform_all databaseType xs ;; EndStepQuery else mret (fst r)) e0 with
  | Ret (_, e) => session e = session e0 /\ pool e = pool e0
  | Blocked => connection (session e0) = None /\ held <> []
  | NullConnection => False
  end.
Proof.
  intros Hok Hst.
  apply (spec_bind (waits e0 held) (at_rest e0) _ _
           (fun r e => if snd r : bool then stepping e0 e else at_rest e0 e) (fun _ => at_rest e0));
    [by eapply BeginStepQuery_spec| |done].
  intros [code [|]]; cbn [snd]; [|by apply spec_ret].
  eapply spec_bind with (R := fun _ => stepping e0); [|intros _; by eapply EndStepQuery_spec].
  intros e He. destruct (stepping_ok e0 held w Hok e He) as [Hc [held' Hok']].
  pose proof (perform_all_spec databaseType e held' w Hok' xs e (conj eq_refl eq_refl)) as Hx.
  destruct (perform_all databaseType xs e) as [[rs e']| |]; [|by destruct Hx|done].
  destruct Hx as [Hs Hp], He as (e1 & Hb & Hp1 & Hs1). exists e1. by rewrite Hs, Hp.
Qed.

(** ** Concrete sessions *)

(** A database that accepts everything; selects are read-only. *)
Definition ok_connections : Connections := fun _ _ f =>
  mkReply E_OK (match f with CPrepare sql => IsSqlReadOnly (GetSqlStatementType sql) | _ => false end)
    1 "delete" [] true.

Definition idle_env : Env := mkEnv two_readers new_Session [] [].

Lemma two_readers_open : pool_open two_readers [] 10.
Proof.
  split; try done. apply (bool_decide_unpack _). vm_compute. exact I.
Qed.

Lemma idle_env_ok : session_ok idle_env [] 10.
Proof. split; [apply two_readers_open|done]. Qed.

Definition demo_program : list execution :=
  [XExecuteSql "INSERT INTO t VALUES(1)" []; XExecuteGetLong "SELECT count(1) FROM t" [];
   XExecuteSql "COMMIT" []; XAttach "a" "/p" []].

(** With nothing held elsewhere the program returns. *)
Lemma session_balanced_witness :
  match @perform_all ok_connections GetSqlStatementType demo_program idle_env with
  | Ret (_, e) => session e = new_Session /\ pool e = two_readers
  | _ => False
  end.
Proof.
  pose proof (@session_balanced ok_connections GetSqlStatementType idle_env [] 10 demo_program
    idle_env_ok) as Hb.
  destruct (perform_all _ _ _) as [[codes e]| |]; [exact Hb|by destruct Hb|exact Hb].
Defined.

Lemma step_query_balanced_witness :
  match (r ← @BeginStepQuery ok_connections "SELECT * FROM t" [];
         if snd r : bool
         then @perform_all ok_connections GetSqlStatementType demo_program ;;
              @EndStepQuery ok_connections
         else mret (fst r)) idle_env with
  | Ret (_, e) => session e = new_Session /\ pool e = two_readers
  | _ => False
  end.
Proof.
  pose proof (@step_query_balanced ok_connections GetSqlStatementType idle_env [] 10
    "SELECT * FROM t" [] demo_program idle_env_ok eq_refl) as Hb.
  revert Hb. generalize ((r ← @BeginStepQuery ok_connections "SELECT * FROM t" [];
         if snd r : bool
         then @perform_all ok_connections GetSqlStatementType demo_program ;;
              @EndStepQuery ok_connections
         else mret (fst r)) idle_env).
  intros [[codes e]| |] Hb; [exact Hb|by destruct Hb|exact Hb].
Defined.

(** ** Statements that write go to the write connection *)
Section Routing.
Context `{Connections} (e0 : Env).

(** What acquiring and releasing leave alone: the calls, and which connection is for
    writing. *)
Definition routing_kept (e : Env) (t : list (Z * conn_call)) : Prop :=
  calls e = t /\ writeConnection (pool e) = writeConnection (pool e0).

Lemma acquire_writeConnection p ro c p' :
  ConnectionPool.AcquireConnection p ro = Some (c, p') -> writeConnection p' = writeConnection p.
Proof.
  unfold ConnectionPool.AcquireConnection, AcquireReadConnection, AcquireWriteConnection.
  intros Ha. repeat case_match; by simplify_eq.
Qed.

Lemma release_writeConnection p c :
  writeConnection (ConnectionPool.ReleaseConnection p c) = writeConnection p.
Proof. unfold ConnectionPool.ReleaseConnection. by case_match. Qed.

Lemma AcquireConnection_kept ro e t e' :
  routing_kept e t -> AcquireConnection ro e = Ret (tt, e') -> routing_kept e' t.
Proof.
  intros [Hc Hw] Ha. unfold AcquireConnection in Ha. repeat case_match; simplify_eq; [by split|].
  split; [done|]. cbn. by erewrite acquire_writeConnection.
Qed.

Lemma ReleaseConnection_kept e t e' :
  routing_kept e t -> ReleaseConnection e = Ret (tt, e') -> routing_kept e' t.
Proof.
  intros [Hc Hw] Ha. unfold ReleaseConnection in Ha. repeat case_match; simplify_eq; split; try done.
  cbn. by rewrite release_writeConnection.
Qed.

(** Beginning a statement only prepares it. *)
Lemma BeginExecuteSql_prepares sql code e' :
  BeginExecuteSql sql e0 = Ret (code, e') -> exists t,
  routing_kept e' (calls e0 ++ t) /\ Forall (fun x => x.2 = CPrepare sql) t /\
  (code = E_OK -> connection (session e') <> writeConnection (pool e0) ->
   exists c0, (c0, CPrepare sql) ∈ t /\
     r_readOnly (answers (calls e0) c0 (CPrepare sql)) = true).
Proof.
  unfold BeginExecuteSql. destruct (IsSpecial _).
  { intros [= <- <-]. exists []. rewrite app_nil_r. by repeat split. }
  unfold mbind, M_bind.
  destruct (AcquireConnection _ e0) as [[[] e1]| |] eqn:E1; [|done|done].
  apply (AcquireConnection_kept _ _ (calls e0)) in E1; [|done].
  unfold call. destruct (connection (session e1)) as [c0|] eqn:Ec; [|done].
  destruct E1 as [Hc1 Hw1]. rewrite Hc1.
  set (r := answers (calls e0) c0 (CPrepare sql)). set (e2 := mkEnv _ _ _ _).
  assert (routing_kept e2 (calls e0 ++ [(c0, CPrepare sql)])) as K2 by done.
  intros He. exists [(c0, CPrepare sql)]. revert He.
  assert (Hall : Forall (fun x : Z * conn_call => x.2 = CPrepare sql) [(c0, CPrepare sql)])
    by by repeat constructor.
  destruct (negb (r_code r =? 0)) eqn:Er.
  { destruct (ReleaseConnection e2) as [[[] e3]| |] eqn:E3; [|done|done]. intros [= <- <-].
    split_and!; [by eapply ReleaseConnection_kept|done|]. intros Hcode. to_prop.
    by rewrite Hcode in Er. }
  unfold IsWriteConnection. cbn [session e2]. rewrite Ec. cbn [pool e2]. case_if.
  - destruct (ReleaseConnection e2) as [[[] e3]| |] eqn:E3; [|done|done].
    apply (ReleaseConnection_kept _ _ _ K2) in E3.
    destruct (AcquireConnection _ e3) as [[[] e4]| |] eqn:E4; [|done|done].
    apply (AcquireConnection_kept _ _ _ _ E3) in E4.
    destruct (connection (session e4)) as [c|] eqn:Ec4; [|done].
    destruct (negb (r_readOnly r) && _) eqn:Eb.
    { destruct (ReleaseConnection e4) as [[[] e5]| |] eqn:E5; [|done|done]. intros [= <- <-].
      split_and!; [by eapply ReleaseConnection_kept|done|done]. }
    intros [= <- <-]. split_and!; [done|done|]. intros _. rewrite Ec4. destruct E4 as [_ Hw4].
    rewrite <- Hw4. intros Hne. exists c0. split; [set_solver|].
    rewrite bool_decide_false in Eb by done. fold r. by destruct (r_readOnly r).
  - intros [= <- <-]. split_and!; [done|done|]. intros _. cbn. rewrite Ec, <- Hw1. intros Hne.
    exists c0. split; [set_solver|]. rewrite bool_decide_false in E by done.
    fold r. by destruct (r_readOnly r).
Qed.
End Routing.

(** C8: a statement is executed on a read connection only if SQLite, when it was
    prepared just before, reported that it does not change the database; every
    other statement is executed on the write connection, or refused. *)
Theorem session_routes_writes `{Connections} e0 sql f r e :
  execute sql f e0 = Ret (r, e) -> f <> CPrepare sql ->
  exists t, calls e = calls e0 ++ t /\
    forall c, (c, f) ∈ t -> Some c <> writeConnection (pool e0) ->
      exists c0, (c0, CPrepare sql) ∈ t /\
        r_readOnly (answers (calls e0) c0 (CPrepare sql)) = true.
Proof.
  intros He Hf. unfold execute, mbind, M_bind, mret, M_ret in He.
  destruct (BeginExecuteSql sql e0) as [[code e1]| |] eqn:Eb; [|done|done].
  destruct (BeginExecuteSql_prepares _ _ _ _ Eb) as (t & K & Hall & Hro).
  assert (Hnot : forall c, (c, f) ∈ t -> False).
  { intros c Hin. by apply (proj1 (Forall_forall _ _) Hall) in Hin. }
  destruct (negb (code =? 0)) eqn:Ec; to_prop.
  { simplify_eq. exists t. split; [apply K|]. intros c Hin. by apply Hnot in Hin. }
  unfold call in He. destruct (connection (session e1)) as [c1|] eqn:Ec1; [|done].
  destruct (ReleaseConnection _) as [[[] e2]| |] eqn:Er in He; [|done|done]. simplify_eq.
  eapply (ReleaseConnection_kept e0 _ ((calls e0 ++ t) ++ [(c1, f)])) in Er.
  2: { destruct K as [Kc Kw]. split; cbn; [by rewrite Kc|done]. }
  exists (t ++ [(c1, f)]). destruct Er as [-> _]. split; [by rewrite (assoc_L (++))|].
  intros c [Hin|Hin]%elem_of_app Hne; [by apply Hnot in Hin|].
  apply list_elem_of_singleton in Hin as [= ->].
  destruct (Hro eq_refl Hne) as (c0 & Hin0 & Hr). exists c0. split; [set_solver|done].
Qed.

Lemma session_routes_writes_witness :
  exists t, calls (mkEnv two_readers new_Session
      [(12, CPrepare "SELECT 1"); (12, CExecuteGetLong "SELECT 1" [])] []) = [] ++ t /\
    forall c, (c, CExecuteGetLong "SELECT 1" []) ∈ t -> Some c <> Some 10 ->
      exists c0, (c0, CPrepare "SELECT 1") ∈ t /\
        r_readOnly (@answers ok_connections [] c0 (CPrepare "SELECT 1")) = true.
Proof.
  refine (@session_routes_writes ok_connections idle_env "SELECT 1" (CExecuteGetLong "SELECT 1" [])
    (E_OK, mkReply E_OK false 1 "delete" [] true)
    (mkEnv two_readers new_Session [(12, CPrepare "SELECT 1"); (12, CExecuteGetLong "SELECT 1" [])] [])
    _ _).
  - vm_compute. reflexivity.
  - discriminate.
Defined.

(** * Store sessions: transactions

    What the two transaction interfaces of a session do to the database: nested
    transactions marked for commit, and the begin/commit/rollback interface. *)

(** ** Nested transactions *)

(** A transaction with the transactions nested in it, and whether it is marked for
    commit before it ends. *)
Inductive tx := Tx (body : list tx) (marked : bool).

Fixpoint tx_rect_nested (P : tx -> Prop)
    (HP : forall body marked, Forall P body -> P (Tx body marked)) (t : tx) : P t :=
  match t with
  | Tx body marked =>
      HP body marked
        ((fix go (l : list tx) : Forall P l :=
            match l with
            | [] => Forall_nil_2 P
            | t :: l => Forall_cons_2 P t l (tx_rect_nested P HP t) (go l)
            end) body)
  end.

(** It succeeds when it is marked and everything nested in it succeeds. *)
Fixpoint tx_succeeds (t : tx) : bool :=
  match t with Tx body marked => marked && forallb tx_succeeds body end.

Ltac open_env e :=
  destruct e as [[cf wr u reads cnt idle stk] [conn uses stp] cs0 evs0]; cbn in *; subst.

Section Transactions.
Context `{Connections} (observer : bool).

(** The calls an application makes. *)
Fixpoint run_tx (t : tx) : M Z :=
  match t with
  | Tx body marked =>
      errCode ← BeginTransactionWithObserver observer;
      if negb (errCode =? E_OK) then mret errCode
      else
        (fix run_body (l : list tx) : M unit :=
           match l with
           | [] => mret tt
           | t :: l => run_tx t ;; run_body l
           end) body ;;
        (if marked then MarkAsCommit else mret E_OK) ;;
        EndTransactionWithObserver observer
  end.

Fixpoint run_body (l : list tx) : M unit :=
  match l with
  | [] => mret tt
  | t :: l => run_tx t ;; run_body l
  end.

Lemma run_tx_eq body marked :
  run_tx (Tx body marked) =
    (errCode ← BeginTransactionWithObserver observer;
     if negb (errCode =? E_OK) then mret errCode
     else
       run_body body ;;
       (if marked then MarkAsCommit else mret E_OK) ;;
       EndTransactionWithObserver observer).
Proof. done. Qed.

(** A state that differs in the stack and the notifications. *)
Definition restack (e : Env) (st : list BaseTransaction) (evs : list observer_event) : Env :=
  mkEnv (with_stack (pool e) st) (session e) (calls e) evs.

(** The transaction above after a nested one ended. *)
Definition note (t : BaseTransaction) (success : bool) : BaseTransaction :=
  if success then t else SetAllBeforeSuccessful t false.

Lemma note_andb t a b : note (note t a) b = note t (a && b).
Proof. by destruct t, a, b. Qed.

Definition stack_is (e : Env) (st : list BaseTransaction) : Prop := transactionStack (pool e) = st.

(** Beginning and ending inside another transaction only move the stack. *)
Lemma Begin_nested e parent st :
  stack_is e (parent :: st) -> exists evs,
  BeginTransactionWithObserver observer e =
    Ret (E_OK, restack e (new_BaseTransaction (s32 (Z.of_nat (S (length st)))) :: parent :: st) evs).
Proof.
  destruct e as [[cf wr u reads cnt idle stk] ses cs evs]. unfold stack_is. cbn. intros ->.
  destruct observer; eexists; reflexivity.
Qed.

Lemma Mark_top e t st :
  stack_is e (t :: st) ->
  MarkAsCommit e = Ret (E_OK, restack e (SetMarkedSuccessful t true :: st) (events e)).
Proof.
  destruct e as [[cf wr u reads cnt idle stk] ses cs evs]. unfold stack_is. by cbn; intros ->.
Qed.

Lemma End_nested e t parent st :
  stack_is e (t :: parent :: st) -> exists evs,
  EndTransactionWithObserver observer e =
    Ret (E_OK, restack e (note parent (allBeforeSuccessful t && markedSuccessful t) :: st) evs).
Proof.
  destruct e as [[cf wr u reads cnt idle stk] ses cs evs]. unfold stack_is. cbn. intros ->.
  unfold EndTransactionWithObserver, mbind, M_bind.
  destruct t as [[] [] ? ? ?], observer; cbn; eexists; reflexivity.
Qed.

Lemma bind_Ret {A B} (m : M A) (f : A -> M B) e a e' :
  m e = Ret (a, e') -> (m ≫= f) e = f a e'.
Proof. intros Hm. unfold mbind, M_bind. by rewrite Hm. Qed.

(** What a body and its mark do to the transaction on top. *)
Definition finished (t : BaseTransaction) (success marked : bool) : BaseTransaction :=
  if marked then SetMarkedSuccessful (note t success) true else note t success.

Definition tx_nested (t : tx) : Prop := forall e parent st,
  stack_is e (parent :: st) -> exists evs,
  run_tx t e = Ret (E_OK, restack e (note parent (tx_succeeds t) :: st) evs).

Lemma body_nested body : Forall tx_nested body -> forall e parent st,
  stack_is e (parent :: st) -> exists evs,
  run_body body e =
    Ret (tt, restack e (note parent (forallb tx_succeeds body) :: st) evs).
Proof.
  induction 1 as [|t body Ht _ IH]; intros e parent st Hst; cbn [run_body forallb].
  - exists (events e). unfold mret, M_ret. do 2 f_equal.
    destruct e as [[] ? ? ?]. unfold stack_is in Hst. cbn in *. by subst.
  - destruct (Ht e parent st Hst) as [evs He]. rewrite (bind_Ret _ _ _ _ _ He).
    destruct (IH (restack e (note parent (tx_succeeds t) :: st) evs) _ _ eq_refl) as [evs' He'].
    exists evs'. rewrite He', note_andb. done.
Qed.

(** The body of a transaction followed by the mark. *)
Lemma body_and_mark {A} body (marked : bool) (k : M A) e t st :
  Forall tx_nested body -> stack_is e (t :: st) -> exists evs,
  (run_body body ;; (if marked then MarkAsCommit else mret E_OK) ;; k) e =
    k (restack e (finished t (forallb tx_succeeds body) marked :: st) evs).
Proof.
  intros Hb Hst. destruct (body_nested body Hb e t st Hst) as [evs He].
  exists evs. rewrite (bind_Ret _ _ _ _ _ He). destruct marked; [|done].
  erewrite bind_Ret by (by eapply Mark_top). done.
Qed.

Lemma finished_result n success marked :
  let t := finished (new_BaseTransaction n) success marked in
  allBeforeSuccessful t && markedSuccessful t = marked && success.
Proof. by destruct success, marked. Qed.

Lemma run_tx_nested t : tx_nested t.
Proof.
  induction t as [body marked Hb] using tx_rect_nested. intros e parent st Hst.
  rewrite run_tx_eq. destruct (Begin_nested e parent st Hst) as [evs He].
  rewrite (bind_Ret _ _ _ _ _ He). cbn [negb Z.eqb E_OK].
  match goal with |- context [restack e (?t :: _) evs] =>
    destruct (body_and_mark body marked (EndTransactionWithObserver observer) _ t (parent :: st) Hb
                (eq_refl : stack_is (restack e (t :: parent :: st) evs) _)) as [evs1 ->] end.
  destruct (End_nested (restack (restack e (new_BaseTransaction (s32 (Z.of_nat (S (length st)))) :: parent :: st) evs)
    (finished (new_BaseTransaction (s32 (Z.of_nat (S (length st))))) (forallb tx_succeeds body) marked
     :: parent :: st) evs1) _ _ _ eq_refl) as [evs2 ->].
  exists evs2. rewrite finished_result. done.
Qed.

(** ** The outermost transaction *)

(** A session without a connection, and a pool whose write connection [w] is idle. *)
Record ready (e : Env) (w : Z) : Prop := {
  ready_connection : connection (session e) = None;
  ready_count : connectionUseCount (session e) = 0;
  ready_write : writeConnection (pool e) = Some w;
  ready_free : writeConnectionUsed (pool e) = false;
}.

(** The session while it holds the write connection. *)
Definition taken (e : Env) (w : Z) (st : list BaseTransaction) (cs : list (Z * conn_call))
    (evs : list observer_event) : Env :=
  mkEnv (with_stack (with_write (pool e) (Some w) true) st)
    (mkSession (Some w) 1 (isInStepQuery (session e))) cs evs.

Lemma Begin_outermost e w :
  ready e w -> stack_is e [] ->
  let cs := calls e ++ [(w, CExecuteSql "BEGIN EXCLUSIVE;" [])] in
  let code := r_code (answers (calls e) w (CExecuteSql "BEGIN EXCLUSIVE;" [])) in
  if code =? E_OK then
    exists evs, BeginTransactionWithObserver observer e =
      Ret (E_OK, taken e w [new_BaseTransaction 0] cs evs)
  else BeginTransactionWithObserver observer e =
    Ret (code, mkEnv (pool e) (session e) cs (events e)).
Proof.
  intros [H1 H2 H3 H4] Hst. unfold stack_is in Hst. open_env e.
  unfold BeginTransactionWithObserver, mbind, M_bind, mret, M_ret. cbn. rewrite bool_decide_true by done. cbn.
  destruct (r_code _ =? E_OK) eqn:Ec; cbn.
  - destruct observer; eexists; reflexivity.
  - unfold ConnectionPool.ReleaseConnection. cbn. rewrite decide_True by done.
    change (0 + 1 <=? 0) with false. change (0 + 1 - 1 =? 0) with true. cbn. by rewrite Ec.
Qed.

Lemma End_outermost e w t cs evs :
  ready e w -> stack_is e [] ->
  let isSucceed := allBeforeSuccessful t && markedSuccessful t in
  let f := CExecuteSql (if isSucceed then "COMMIT;" else "ROLLBACK;") [] in
  exists evs', EndTransactionWithObserver observer (taken e w [t] cs evs) =
    Ret (r_code (answers cs w f), mkEnv (pool e) (session e) (cs ++ [(w, f)]) evs').
Proof.
  intros [H1 H2 H3 H4] Hst. unfold stack_is in Hst. open_env e.
  unfold EndTransactionWithObserver, mbind, M_bind. cbn.
  destruct observer; cbn; unfold ConnectionPool.ReleaseConnection; cbn;
    rewrite decide_True by done; eexists; reflexivity.
Qed.
End Transactions.

(** C4: nested transactions marked for commit behave as one transaction on the
    database: an application that runs a transaction, with any nesting inside,
    sends exactly one [BEGIN EXCLUSIVE] and at the end one [COMMIT] if the
    transaction and everything nested in it were marked, one [ROLLBACK] otherwise;
    both go to the write connection, which is back in the pool afterwards. When
    the transaction cannot begin, the error is returned and nothing is kept. *)
Theorem nested_transactions `{Connections} observer e w t :
  ready e w -> stack_is e [] ->
  let start := CExecuteSql "BEGIN EXCLUSIVE;" [] in
  let code := r_code (answers (calls e) w start) in
  let cs := calls e ++ [(w, start)] in
  let stop := CExecuteSql (if tx_succeeds t then "COMMIT;" else "ROLLBACK;") [] in
  exists evs,
  run_tx observer t e =
    if code =? E_OK
    then Ret (r_code (answers cs w stop), mkEnv (pool e) (session e) (cs ++ [(w, stop)]) evs)
    else Ret (code, mkEnv (pool e) (session e) cs evs).
Proof.
  intros Hr Hst. pose proof (Begin_outermost observer e w Hr Hst) as Hb. cbv zeta in *.
  destruct t as [body marked]. rewrite run_tx_eq.
  destruct (_ =? E_OK) eqn:Ec.
  - destruct Hb as [evs Hb]. rewrite (bind_Ret _ _ _ _ _ Hb). cbn [negb Z.eqb E_OK].
    destruct (body_and_mark observer body marked (EndTransactionWithObserver observer)
      (taken e w [new_BaseTransaction 0] (calls e ++ [(w, CExecuteSql "BEGIN EXCLUSIVE;" [])]) evs)
      (new_BaseTransaction 0) []
      (Forall_true _ body (run_tx_nested observer)) eq_refl) as [evs1 ->].
    destruct (End_outermost observer e w
      (finished (new_BaseTransaction 0) (forallb tx_succeeds body) marked)
      (calls e ++ [(w, CExecuteSql "BEGIN EXCLUSIVE;" [])]) evs1 Hr Hst) as [evs2 He].
    exists evs2. rewrite finished_result in He. exact He.
  - exists (events e). rewrite (bind_Ret _ _ _ _ _ Hb), Ec. done.
Qed.

Lemma idle_ready : ready idle_env 10.
Proof. done. Qed.

Lemma nested_transactions_witness :
  exists evs, @run_tx ok_connections true (Tx [Tx [] true; Tx [Tx [] false] true] true) idle_env =
    Ret (E_OK, mkEnv two_readers new_Session
                 [(10, CExecuteSql "BEGIN EXCLUSIVE;" []); (10, CExecuteSql "ROLLBACK;" [])] evs).
Proof.
  exact (@nested_transactions ok_connections true idle_env 10
    (Tx [Tx [] true; Tx [Tx [] false] true] true) idle_ready eq_refl).
Defined.

(** ** Begin, commit and roll back *)
Section Explicit.
Context `{Connections}.

(** The state after a statement sent on the write connection. *)
Definition sent (e : Env) (w : Z) (sql : string) (st : list BaseTransaction) : Env :=
  mkEnv (with_stack (pool e) st) (session e) (calls e ++ [(w, CExecuteSql sql [])]) (events e).

Definition accepts (e : Env) (w : Z) (sql : string) : Prop :=
  r_code (answers (calls e) w (CExecuteSql sql [])) = E_OK.

Lemma sent_ready e w w' sql st : ready e w -> ready (sent e w' sql st) w.
Proof. intros []. by split. Qed.

Lemma restack_ready e w st evs : ready e w -> ready (restack e st evs) w.
Proof. intros []. by split. Qed.

Ltac run_session Ha :=
  unfold mbind, M_bind, mret, M_ret; cbn; rewrite Ha; cbn;
  unfold ConnectionPool.ReleaseConnection; cbn; rewrite ?decide_True by done;
  change (0 + 1 <=? 0) with false; change (0 + 1 - 1 =? 0) with true; cbn.

Lemma Begin_ok e w st :
  ready e w -> stack_is e st ->
  let t := new_BaseTransaction (s32 (Z.of_nat (length st))) in
  accepts e w (getTransactionStr t) ->
  BeginTransaction e = Ret (E_OK, sent e w (getTransactionStr t) (t :: st)).
Proof.
  intros [H1 H2 H3 H4] Hst t Ha. unfold stack_is, accepts, t in *. open_env e.
  unfold BeginTransaction. by run_session Ha.
Qed.

Lemma Commit_outermost e w t :
  ready e w -> stack_is e [t] -> id t = 0 -> accepts e w "COMMIT;" ->
  Commit e = Ret (E_OK, sent e w "COMMIT;" []).
Proof.
  intros [H1 H2 H3 H4] Hst Ht Ha. unfold stack_is, accepts in *. destruct t; cbn in *. open_env e.
  unfold Commit, getCommitStr, mbind, M_bind. cbn. change ("COMMIT" +:+ ";") with "COMMIT;". cbn.
  by run_session Ha.
Qed.

Lemma Commit_inner e t st :
  stack_is e (t :: st) -> id t <> 0 -> Commit e = Ret (E_OK, restack e st (events e)).
Proof.
  intros Hst Ht. unfold stack_is in *. destruct t as [? ? ? ? i]; cbn in *. open_env e.
  unfold Commit, mbind, M_bind, getCommitStr. cbn.
  by rewrite (proj2 (Z.eqb_neq _ _) Ht).
Qed.

Lemma RollBack_ok e w t st :
  ready e w -> stack_is e (t :: st) -> accepts e w (getRollbackStr t) ->
  RollBack e = Ret (E_OK, sent e w (getRollbackStr t) (t :: st)).
Proof.
  intros [H1 H2 H3 H4] Hst Ha. unfold stack_is, accepts in *. open_env e.
  unfold RollBack. by run_session Ha.
Qed.

(** [n] times the same operation. *)
Fixpoint times (n : nat) (m : M Z) : M Z :=
  match n with O => mret E_OK | S n => m ;; times n m end.

Definition level (i : nat) : BaseTransaction := new_BaseTransaction (s32 (Z.of_nat i)).
Definition begin_call (w : Z) (i : nat) : Z * conn_call :=
  (w, CExecuteSql (getTransactionStr (level i)) []).

(** The stack with [n] open transactions. *)
Fixpoint levels (n : nat) : list BaseTransaction :=
  match n with O => [] | S n => level n :: levels n end.

Lemma levels_length n : length (levels n) = n.
Proof. induction n; cbn; congruence. Qed.

Definition at_level (e : Env) (n : nat) (cs : list (Z * conn_call)) : Env :=
  mkEnv (with_stack (pool e) (levels n)) (session e) cs (events e).

Lemma Begin_level e w n cs :
  ready e w -> (forall cs c f, r_code (answers cs c f) = E_OK) ->
  BeginTransaction (at_level e n cs) = Ret (E_OK, at_level e (S n) (cs ++ [begin_call w n])).
Proof.
  intros Hr Ha. assert (ready (at_level e n cs) w) as Hr' by (destruct Hr; by split).
  rewrite (Begin_ok _ w (levels n) Hr' eq_refl (Ha _ _ _)), levels_length. done.
Qed.

Lemma Begin_times e w n i cs :
  ready e w -> (forall cs c f, r_code (answers cs c f) = E_OK) ->
  times n BeginTransaction (at_level e i cs) =
    Ret (E_OK, at_level e (i + n) (cs ++ (begin_call w <$> seq i n))).
Proof.
  intros Hr Ha. revert i cs. induction n as [|n IH]; intros i cs; cbn [times seq fmap list_fmap].
  - by rewrite app_nil_r, Nat.add_0_r.
  - rewrite (bind_Ret _ _ _ _ _ (Begin_level e w i cs Hr Ha)), IH.
    by rewrite <- (assoc_L (++)), Nat.add_succ_r.
Qed.

Lemma Commit_level e w n cs :
  ready e w -> (forall cs c f, r_code (answers cs c f) = E_OK) -> Z.of_nat n < 2 ^ 31 ->
  Commit (at_level e (S n) cs) =
    Ret (E_OK, at_level e n (if n is O then cs ++ [(w, CExecuteSql "COMMIT;" [])] else cs)).
Proof.
  intros Hr Ha Hn. destruct n as [|n].
  - assert (ready (at_level e 1 cs) w) as Hr' by (destruct Hr; by split).
    rewrite (Commit_outermost _ w (level 0) Hr' eq_refl eq_refl (Ha _ _ _)). done.
  - erewrite (Commit_inner _ (level (S n)) (levels (S n))); [done|done|].
    cbn -[s32]. rewrite s32_small; lia.
Qed.

Lemma Commit_times e w n cs :
  ready e w -> (forall cs c f, r_code (answers cs c f) = E_OK) -> Z.of_nat n < 2 ^ 31 ->
  times n Commit (at_level e n cs) =
    Ret (E_OK, at_level e 0 (if n is O then cs else cs ++ [(w, CExecuteSql "COMMIT;" [])])).
Proof.
  intros Hr Ha. revert cs. induction n as [|n IH]; intros cs Hn; cbn [times]; [done|].
  rewrite (bind_Ret _ _ _ _ _ (Commit_level e w n cs Hr Ha ltac:(lia))).
  rewrite IH by lia. by destruct n.
Qed.
End Explicit.

(** nested explicit transactions: beginning [n] of them opens a transaction
    and [n - 1] savepoints on the write connection, and committing the [n] sends a
    single [COMMIT], for the outermost; afterwards no transaction is open and the
    session and the pool are as before. *)
Theorem explicit_transactions `{Connections} e w n :
  ready e w -> stack_is e [] -> (0 < n)%nat -> Z.of_nat n < 2 ^ 31 ->
  (forall cs c f, r_code (answers cs c f) = E_OK) ->
  (times n BeginTransaction ;; times n Commit) e =
    Ret (E_OK, mkEnv (pool e) (session e)
      (calls e ++ (begin_call w <$> seq 0 n) ++ [(w, CExecuteSql "COMMIT;" [])]) (events e)).
Proof.
  intros Hr Hst Hn Hb Ha.
  assert (e = at_level e 0 (calls e)) as He.
  { destruct e as [[] ? ? ?]. unfold stack_is in Hst. cbn in *. by subst. }
  rewrite He at 1. rewrite (bind_Ret _ _ _ _ _ (Begin_times e w n 0 _ Hr Ha)).
  rewrite (Commit_times e w n) by done. destruct n; [lia|].
  unfold at_level. cbn [levels]. rewrite <- (assoc_L (++)).
  destruct e as [[] ? ? ?]. unfold stack_is in Hst. cbn in *. by subst.
Qed.

Lemma ok_accepts cs c f : r_code (@answers ok_connections cs c f) = E_OK.
Proof. done. Qed.

Lemma explicit_transactions_witness :
  (times 2 (@BeginTransaction ok_connections) ;; times 2 (@Commit ok_connections)) idle_env =
    Ret (E_OK, mkEnv two_readers new_Session
      [(10, CExecuteSql "BEGIN EXCLUSIVE;" []); (10, CExecuteSql "SAVEPOINT TRANS_STR1;" []);
       (10, CExecuteSql "COMMIT;" [])] []).
Proof.
  refine (@explicit_transactions ok_connections idle_env 10 2 idle_ready eq_refl _ _ ok_accepts).
  - lia.
  - vm_compute. reflexivity.
Defined.

(** rolling back does not end the transaction: the code pops a copy of the
    stack. After a transaction is rolled back, the next one is taken for a nested
    one: it opens a savepoint instead of a transaction, its commit sends
    nothing to the database, and the session still says it is in a transaction. *)
Theorem rollback_keeps_transaction `{Connections} e w :
  ready e w -> stack_is e [] -> (forall cs c f, r_code (answers cs c f) = E_OK) ->
  (BeginTransaction ;; RollBack ;; BeginTransaction ;; Commit ;; IsInTransaction) e =
    Ret (true, mkEnv (with_stack (pool e) [new_BaseTransaction 0]) (session e)
      (calls e ++ [(w, CExecuteSql "BEGIN EXCLUSIVE;" []); (w, CExecuteSql "ROLLBACK;" []);
                   (w, CExecuteSql "SAVEPOINT TRANS_STR1;" [])]) (events e)).
Proof.
  intros Hr Hst Ha.
  rewrite (bind_Ret _ _ _ _ _ (Begin_ok e w [] Hr Hst (Ha _ _ _))).
  erewrite bind_Ret; [|apply (RollBack_ok _ w (new_BaseTransaction 0) []); [by apply sent_ready|done|apply Ha]].
  erewrite bind_Ret; [|apply (Begin_ok _ w [new_BaseTransaction 0]); [by do 2 apply sent_ready|done|apply Ha]].
  erewrite bind_Ret; [|by eapply (Commit_inner _ (level 1) [new_BaseTransaction 0])].
  unfold IsInTransaction, mbind, M_bind, mret, M_ret, restack, sent. cbn -[app]. by rewrite <- !app_assoc.
Qed.

Lemma rollback_keeps_transaction_witness :
  (@BeginTransaction ok_connections ;; @RollBack ok_connections ;;
   @BeginTransaction ok_connections ;; @Commit ok_connections ;; IsInTransaction) idle_env =
    Ret (true, mkEnv (with_stack two_readers [new_BaseTransaction 0]) new_Session
      [(10, CExecuteSql "BEGIN EXCLUSIVE;" []); (10, CExecuteSql "ROLLBACK;" []);
       (10, CExecuteSql "SAVEPOINT TRANS_STR1;" [])] []).
Proof. exact (@rollback_keeps_transaction ok_connections idle_env 10 idle_ready eq_refl ok_accepts). Defined.

(** the two interfaces do not mix: [BeginTransaction] gives its connection back, so
    ending that transaction with [EndTransaction], marked or not, dereferences the null
    connection of the session. *)
Theorem end_after_begin_null `{Connections} e w marked observer :
  ready e w -> stack_is e [] -> (forall cs c f, r_code (answers cs c f) = E_OK) ->
  (BeginTransaction ;; (if marked : bool then MarkAsCommit else mret E_OK) ;;
   EndTransactionWithObserver observer) e = NullConnection.
Proof.
  intros Hr Hst Ha.
  rewrite (bind_Ret _ _ _ _ _ (Begin_ok e w [] Hr Hst (Ha _ _ _))).
  destruct Hr as [H1 _ _ _]. destruct e as [[] [] ? ?]. cbn in H1. subst.
  destruct marked, observer; reflexivity.
Qed.

Lemma end_after_begin_null_witness :
  (@BeginTransaction ok_connections ;; MarkAsCommit ;;
   @EndTransactionWithObserver ok_connections false) idle_env = NullConnection.
Proof.
  exact (@end_after_begin_null ok_connections idle_env 10 true false idle_ready eq_refl ok_accepts).
Defined.

(** ending a nested transaction always tells its observer that it was rolled
    back, even when it succeeded: the observer is told of the commit and then of
    a rollback. *)
Theorem nested_end_notifies_rollback `{Connections} e t parent st :
  stack_is e (t :: parent :: st) ->
  exists e', EndTransactionWithObserver true e = Ret (E_OK, e') /\
    calls e' = calls e /\
    events e' = events e ++
      [if allBeforeSuccessful t && markedSuccessful t then OnCommit else OnRollback; OnRollback].
Proof.
  intros Hst. unfold stack_is in Hst. destruct e as [[] ? ? evs]. cbn in *. subst.
  unfold EndTransactionWithObserver, mbind, M_bind, mret, M_ret.
  destruct t as [[] [] ? ? ?]; cbn -[app]; eexists; (split; [reflexivity|]); cbn -[app];
    by rewrite <- app_assoc.
Qed.

Lemma nested_end_notifies_rollback_witness :
  exists e', @EndTransactionWithObserver ok_connections true
      (restack idle_env [SetMarkedSuccessful (level 1) true; level 0] []) = Ret (E_OK, e') /\
    calls e' = [] /\ events e' = [OnCommit; OnRollback].
Proof.
  exact (@nested_end_notifies_rollback ok_connections
    (restack idle_env [SetMarkedSuccessful (level 1) true; level 0] []) _ _ [] eq_refl).
Defined.
