(* ===== verification/RdbStoreImpl.v ===== *)
(** * The relational store

    Model of frameworks/native/rdb/src/rdb_store_impl.cpp: the store keeps a session per
    thread, builds the statements of its clients and runs them in the session of the
    calling thread. A session belongs to the entry of its thread or to the list of
    idle sessions; the operations run one after the other. *)
From S2P Require Import Prelude Strings RdbErrno ValueObject ValuesBucket AbsPredicates RdbPredicates SqlBuilder SqliteUtils ConnectionPool StoreSession.
From Stdlib Require Import Ascii.

#[local] Open Scope list_scope.

(** File-system functions of the platform. *)
Class Files := {
  ExtractFilePath : string -> string;
  PathToRealPath : string -> bool;
  access : string -> bool;
}.

Record RdbStoreImpl := mkStore {
  connectionPool : Pool;
  isOpen : bool;
  path : string;
  threadMap : gmap Z (Session * Z);
  idleSessions : list Session;
  transactionObserverStack : list bool;
  sent_calls : list (Z * conn_call);
  sent_events : list observer_event;
}.

Definition MAX_IDLE_SESSION_SIZE : nat := 5.

Definition with_sessions (s : RdbStoreImpl) (m : gmap Z (Session * Z)) (l : list Session)
    : RdbStoreImpl :=
  mkStore (connectionPool s) (isOpen s) (path s) m l (transactionObserverStack s)
    (sent_calls s) (sent_events s).
Definition with_observers (s : RdbStoreImpl) (l : list bool) : RdbStoreImpl :=
  mkStore (connectionPool s) (isOpen s) (path s) (threadMap s) (idleSessions s) l
    (sent_calls s) (sent_events s).
Definition with_connectionPool (s : RdbStoreImpl) (p : Pool) : RdbStoreImpl :=
  mkStore p (isOpen s) (path s) (threadMap s) (idleSessions s) (transactionObserverStack s)
    (sent_calls s) (sent_events s).

(** Operations of the store; the runs are those of the sessions. *)
Definition R (A : Type) : Type := RdbStoreImpl -> run (A * RdbStoreImpl).
#[global] Instance R_ret : MRet R := fun A a s => Ret (a, s).
#[global] Instance R_bind : MBind R := fun A B f m s =>
  match m s with
  | Ret (a, s) => f a s
  | Blocked => Blocked
  | NullConnection => NullConnection
  end.

(** [SqliteConnectionPool::Create] and the fields of the store; [pathOf] is the
    configured path. *)
Definition Open (c : PoolConfig) (pathOf : string) (opens : list (Z + Z))
    : Z * option RdbStoreImpl :=
  match ConnectionPool.Create c opens with
  | (errCode, None) => (errCode, None)
  | (_, Some p) => (E_OK, Some (mkStore p true pathOf ∅ [] [] [] []))
  end.

Section Store.
Context `{Connections} `{Files} (databaseType : string -> Z).
(** The calling thread. *)
Context (tid : Z).

(** ** Sessions of threads *)
Definition GetThreadSession : R unit := fun s =>
  match threadMap s !! tid with
  | Some (session, useCount) =>
      Ret (tt, with_sessions s (<[tid := (session, useCount + 1)]> (threadMap s)) (idleSessions s))
  | None =>
      match last (idleSessions s) with
      | None =>
          Ret (tt, with_sessions s (<[tid := (new_Session, 1)]> (threadMap s)) (idleSessions s))
      | Some session =>
          Ret (tt, with_sessions s (<[tid := (session, 1)]> (threadMap s))
                     (removelast (idleSessions s)))
      end
  end.

Definition ReleaseThreadSession : R unit := fun s =>
  match threadMap s !! tid with
  | None => Ret (tt, s)
  | Some (session, useCount) =>
      let useCount := useCount - 1 in
      if useCount >? 0 then
        Ret (tt, with_sessions s (<[tid := (session, useCount)]> (threadMap s)) (idleSessions s))
      else
        let idle := if (length (idleSessions s) <? MAX_IDLE_SESSION_SIZE)%nat
                    then idleSessions s ++ [session] else idleSessions s in
        Ret (tt, with_sessions s (delete tid (threadMap s)) idle)
  end.

(** A method of the thread's session, between [GetThreadSession] and
    [ReleaseThreadSession]. *)
Definition on_session {A} (m : M A) : R A := fun s =>
  match threadMap s !! tid with
  | None => NullConnection
  | Some (session, useCount) =>
      match m (mkEnv (connectionPool s) session (sent_calls s) (sent_events s)) with
      | Ret (a, e) =>
          Ret (a, mkStore (pool e) (isOpen s) (path s)
                    (<[tid := (StoreSession.session e, useCount)]> (threadMap s))
                    (idleSessions s) (transactionObserverStack s) (calls e) (events e))
      | Blocked => Blocked
      | NullConnection => NullConnection
      end
  end.

Definition in_session {A} (m : M A) : R A :=
  GetThreadSession ;; r ← on_session m; ReleaseThreadSession ;; mret r.

(** ** Statements *)
Fixpoint insert_columns (valuesMap : list (string * ValueObject)) (first : bool) (sql : string)
    (bindArgs : list ValueObject) : string * list ValueObject :=
  match valuesMap with
  | [] => (sql, bindArgs)
  | (column, v) :: valuesMap =>
      insert_columns valuesMap false (sql +:+ (if first then "" else ",") +:+ column)
        (bindArgs ++ [v])
  end.

(** The loop over [i] below the number of columns. *)
Fixpoint insert_marks (n : nat) (first : bool) (sql : string) : string :=
  match n with
  | O => sql
  | S n => insert_marks n false (sql +:+ (if first then "?" else ",?"))
  end.

Definition insert_statement (conflictClause table : string) (values : ValuesBucket)
    : string * list ValueObject :=
  let sql := "INSERT" +:+ conflictClause +:+ " INTO " +:+ table +:+ "(" in
  let '(sql, bindArgs) := insert_columns (GetAll values) true sql [] in
  let sql := sql +:+ ") VALUES (" in
  (insert_marks (length (GetAll values)) true sql +:+ ")", bindArgs).

(** [conflictResolution] is the integer of the enumerator. *)
Definition InsertWithConflictResolution (table : string) (initialValues : ValuesBucket)
    (conflictResolution : Z) : R (Z * Z) :=
  if empty table then mret (E_EMPTY_TABLE_NAME, 0)
  else if ValuesBucket.IsEmpty initialValues then mret (E_EMPTY_VALUES_BUCKET, 0)
  else
    match GetConflictClause conflictResolution with
    | Ok conflictClause =>
        let '(sql, bindArgs) := insert_statement conflictClause table initialValues in
        r ← in_session (StoreSession.ExecuteForLastInsertedRowId sql bindArgs);
        mret (fst r, r_number (snd r))
    | Err errCode => mret (errCode, 0)
    | _ => mret (E_ERROR, 0)
    end.

Definition Insert (table : string) (initialValues : ValuesBucket) : R (Z * Z) :=
  InsertWithConflictResolution table initialValues 0.
Definition Replace (table : string) (initialValues : ValuesBucket) : R (Z * Z) :=
  InsertWithConflictResolution table initialValues 5.

Definition update_statement (conflictClause table : string) (values : ValuesBucket)
    (whereClause : string) (whereArgs : list string) : string * list ValueObject :=
  let sql := "UPDATE" +:+ conflictClause +:+ " " +:+ table +:+ " SET " in
  let '(sql, bindArgs) := BuildUpdateString_loop (GetAll values) true sql [] in
  let sql := if negb (empty whereClause) then sql +:+ " WHERE " +:+ whereClause else sql in
  (sql, bindArgs ++ (ValueObject_string <$> whereArgs)).

Definition UpdateWithConflictResolution (table : string) (values : ValuesBucket)
    (whereClause : string) (whereArgs : list string) (conflictResolution : Z) : R (Z * Z) :=
  if empty table then mret (E_EMPTY_TABLE_NAME, 0)
  else if ValuesBucket.IsEmpty values then mret (E_EMPTY_VALUES_BUCKET, 0)
  else
    match GetConflictClause conflictResolution with
    | Ok conflictClause =>
        let '(sql, bindArgs) := update_statement conflictClause table values whereClause whereArgs in
        r ← in_session (StoreSession.ExecuteForChangedRowCount sql bindArgs);
        mret (fst r, r_number (snd r))
    | Err errCode => mret (errCode, 0)
    | _ => mret (E_ERROR, 0)
    end.

Definition Update (table : string) (values : ValuesBucket) (whereClause : string)
    (whereArgs : list string) : R (Z * Z) :=
  UpdateWithConflictResolution table values whereClause whereArgs 0.

Definition delete_statement (table whereClause : string) (whereArgs : list string)
    : string * list ValueObject :=
  let sql := "DELETE FROM " +:+ table in
  (if negb (empty whereClause) then sql +:+ " WHERE " +:+ whereClause else sql,
   ValueObject_string <$> whereArgs).

Definition Delete (table whereClause : string) (whereArgs : list string) : R (Z * Z) :=
  if empty table then mret (E_EMPTY_TABLE_NAME, 0)
  else
    let '(sql, bindArgs) := delete_statement table whereClause whereArgs in
    r ← in_session (StoreSession.ExecuteForChangedRowCount sql bindArgs);
    mret (fst r, r_number (snd r)).

Definition UpdateOf `{DistributedPredicates} (values : ValuesBucket) (p : AbsRdbPredicates)
    : R (Z * Z) :=
  Update (GetTableName p) values (GetWhereClause (base p)) (GetWhereArgs (base p)).
Definition DeleteOf `{DistributedPredicates} (p : AbsRdbPredicates) : R (Z * Z) :=
  Delete (GetTableName p) (GetWhereClause (base p)) (GetWhereArgs (base p)).

(** ** Running SQL text *)
Definition ExecuteAndGetLong (sql : string) (bindArgs : list ValueObject) : R (Z * Z) :=
  r ← in_session (StoreSession.ExecuteGetLong sql bindArgs); mret (fst r, r_number (snd r)).
Definition ExecuteAndGetString (sql : string) (bindArgs : list ValueObject) : R (Z * string) :=
  r ← in_session (StoreSession.ExecuteGetString databaseType sql bindArgs);
  mret (fst r, r_text (snd r)).
Definition ExecuteForLastInsertedRowId (sql : string) (bindArgs : list ValueObject) : R (Z * Z) :=
  r ← in_session (StoreSession.ExecuteForLastInsertedRowId sql bindArgs);
  mret (fst r, r_number (snd r)).
Definition ExecuteForChangedRowCount (sql : string) (bindArgs : list ValueObject) : R (Z * Z) :=
  r ← in_session (StoreSession.ExecuteForChangedRowCount sql bindArgs);
  mret (fst r, r_number (snd r)).
Definition ExecuteForSharedBlock (startPos requiredPos : Z) (isCountAllRows : bool) (sql : string)
    (bindArgs : list ValueObject) : R (Z * Z) :=
  r ← in_session
        (StoreSession.ExecuteForSharedBlock sql bindArgs startPos requiredPos isCountAllRows);
  mret (fst r, r_number (snd r)).
Definition PrepareAndGetInfo (sql : string) : R (Z * reply) :=
  in_session (StoreSession.PrepareAndGetInfo sql).

Definition Count `{DistributedPredicates} (p : AbsRdbPredicates) : R (Z * Z) :=
  ExecuteAndGetLong (BuildCountStringOf p) (ValueObject_string <$> GetWhereArgs (base p)).

(** From the first character that is not a blank. *)
Fixpoint skip_blanks (s : string) : string :=
  match s with
  | String c s' => if Ascii.eqb c " " then skip_blanks s' else s
  | EmptyString => s
  end.

Definition CheckAttach (sql : string) : R Z :=
  let rest := skip_blanks sql in
  if empty rest then mret E_OK
  else if decide (StrToUpper (String.substring 0 3 rest) <> "ATT") then mret E_OK
  else
    r ← ExecuteAndGetString "PRAGMA journal_mode" [];
    if negb (fst r =? E_OK) then mret (fst r)
    else if decide (StrToUpper (snd r) = "WAL") then mret E_NOT_SUPPORTED_ATTACH_IN_WAL_MODE
    else mret E_OK.

(** [opens] are the answers of [SqliteConnection::Open] to reopened read connections. *)
Definition ReOpen (opens : list (Z + Z)) : R Z := fun s =>
  let '(errCode, p) := ReOpenAvailableReadConnections (connectionPool s) opens in
  Ret (errCode, with_connectionPool s p).

Definition ExecuteSql (sql : string) (bindArgs : list ValueObject) (opens : list (Z + Z)) : R Z :=
  errCode ← CheckAttach sql;
  if negb (errCode =? E_OK) then mret errCode
  else
    GetThreadSession ;;
    errCode ← on_session (StoreSession.ExecuteSql sql bindArgs);
    if negb (errCode =? E_OK) then ReleaseThreadSession ;; mret errCode
    else
      errCode ← (if GetSqlStatementType sql =? STATEMENT_DDL then ReOpen opens else mret errCode);
      ReleaseThreadSession ;;
      mret errCode.

Definition GetVersion : R (Z * Z) :=
  r ← ExecuteAndGetLong "PRAGMA user_version;" []; mret (fst r, s32 (snd r)).
Definition SetVersion (version : Z) : R Z :=
  ExecuteSql ("PRAGMA user_version = " +:+ to_string version) [] [].

Definition Backup (databasePath : string) (destEncryptKey : list Memory.byte) : R Z := fun s =>
  if empty databasePath then Ret (E_INVALID_FILE_PATH, s)
  else if (count_char "/" databasePath =? 0)%nat then
    in_session (StoreSession.Backup (ExtractFilePath (path s) +:+ databasePath) destEncryptKey) s
  else if negb (PathToRealPath (ExtractFilePath databasePath)) then Ret (E_INVALID_FILE_PATH, s)
  else in_session (StoreSession.Backup databasePath destEncryptKey) s.

Definition Attach (alias pathName : string) (destEncryptKey : list Memory.byte) : R Z :=
  in_session (StoreSession.Attach databaseType alias pathName destEncryptKey).

(** These two keep the use of the session they took. *)
Definition IsHoldingConnection : R bool :=
  GetThreadSession ;; on_session StoreSession.IsHoldingConnection.
Definition GiveConnectionTemporarily (milliseconds : Z) : R Z :=
  GetThreadSession ;; on_session (StoreSession.GiveConnectionTemporarily milliseconds).

(** ** Transactions *)

(** The use of the session is given back only on an error. *)
Definition keep_session (m : M Z) : R Z :=
  GetThreadSession ;;
  errCode ← on_session m;
  if negb (errCode =? E_OK) then ReleaseThreadSession ;; mret errCode else mret errCode.

Definition BeginTransaction : R Z := keep_session StoreSession.BeginTransaction.
Definition RollBack : R Z := keep_session StoreSession.RollBack.
Definition Commit : R Z := keep_session StoreSession.Commit.

Definition BeginTransactionWithObserver (observer : bool) : R Z := fun s =>
  keep_session (StoreSession.BeginTransactionWithObserver observer)
    (with_observers s (observer :: transactionObserverStack s)).

Definition MarkAsCommit : R Z := in_session StoreSession.MarkAsCommit.

Definition EndTransaction : R Z := fun s =>
  let '(observer, rest) :=
    match transactionObserverStack s with
    | [] => (false, [])
    | observer :: rest => (observer, rest)
    end in
  (GetThreadSession ;;
   errCode ← on_session (StoreSession.EndTransactionWithObserver observer);
   ReleaseThreadSession ;;
   ReleaseThreadSession ;;
   mret errCode) (with_observers s rest).

Definition IsInTransaction : R bool := in_session StoreSession.IsInTransaction.

(** ** Step queries *)
Definition BeginStepQuery (sql : string) (bindArgs : list string) : R (Z * bool) :=
  GetThreadSession ;; on_session (StoreSession.BeginStepQuery sql bindArgs).

Definition EndStepQuery : R Z :=
  GetThreadSession ;;
  err ← on_session StoreSession.EndStepQuery;
  ReleaseThreadSession ;;
  ReleaseThreadSession ;;
  mret err.

(** ** Maintenance *)
Definition ChangeEncryptKey (newKey : list Z) (changed : Z) (opens : list (Z + Z)) : R Z := fun s =>
  let '(errCode, p) := ConnectionPool.ChangeEncryptKey (connectionPool s) newKey changed opens in
  Ret (errCode, with_connectionPool s p).

Definition restore_path (storePath p : string) : string :=
  if (count_char "/" p =? 0)%nat then ExtractFilePath storePath +:+ p else p.

Definition ChangeDbFileForRestore (newPath backupPath : string) (opens : list (Z + Z)) : R Z := fun s =>
  if negb (isOpen s) then Ret (E_ERROR, s)
  else if empty newPath || empty backupPath then Ret (E_INVALID_FILE_PATH, s)
  else
    let backupFilePath := restore_path (path s) backupPath in
    if negb (access backupFilePath) then Ret (E_INVALID_FILE_PATH, s)
    else if negb (count_char "/" newPath =? 0)%nat && negb (PathToRealPath (ExtractFilePath newPath))
    then Ret (E_INVALID_FILE_PATH, s)
    else
      let restoreFilePath := restore_path (path s) newPath in
      if decide (backupFilePath = restoreFilePath) then Ret (E_INVALID_FILE_PATH, s)
      else
        let '(ret, p) := ConnectionPool.ChangeDbFileForRestore (connectionPool s) opens in
        let s := with_connectionPool s p in
        Ret (ret, if ret =? E_OK then
                    mkStore (connectionPool s) (isOpen s) restoreFilePath (threadMap s)
                      (idleSessions s) (transactionObserverStack s) (sent_calls s) (sent_events s)
                  else s).
End Store.

(** ** Queries

    A query makes a result set, which keeps the store, its path and the statement and
    runs it when it is moved. *)
Record QuerySet := mkQuerySet { qs_path : string; qs_sql : string; qs_args : list string }.

Section Queries.
Context `{DistributedPredicates}.
Implicit Types (s : RdbStoreImpl).

Definition QuerySql (sql : string) (selectionArgs : list string) s : QuerySet := mkQuerySet (path s) sql selectionArgs.

Definition QueryByStep (sql : string) (selectionArgs : list string) : string * list string := (sql, selectionArgs).

(** [getJoinClause] is the virtual method of the predicates. *)
Definition Query (getJoinClause : AbsRdbPredicates -> outcome string) (predicates : AbsRdbPredicates)
    (columns : list string) s : outcome QuerySet :=
  sql <-- BuildQueryStringOf getJoinClause predicates columns;
  Ok (QuerySql sql (GetWhereArgs (base predicates)) s).

Definition QueryWith (distinct : bool) (table : string) (columns : list string) (selection : string)
    (selectionArgs : list string) (groupBy having orderBy limit : string) s : outcome QuerySet :=
  r <-- BuildQueryString distinct table columns selection groupBy having orderBy limit "";
  let '(errCode, sql) := r in
  if negb (errCode =? E_OK) then Err errCode else Ok (QuerySql sql selectionArgs s).
End Queries.
