(* ===== verification/RdbStoreImplSpec.v ===== *)
(** * The relational store: statements and thread sessions

    The text and arguments of the statements the store builds, and what its operations do to
    the sessions of the threads. *)
From Stdlib Require Import Ascii.
From S2P Require Import Prelude Strings RdbErrno ValueObject ValuesBucket AbsPredicates AbsPredicatesSpec RdbPredicates SqlBuilder SqliteUtils ConnectionPool StoreSession StoreSessionSpec RdbStoreImpl.

#[local] Open Scope list_scope.

(** ** Statements *)

(** A list written element by element, with a separator before all but the first. *)
Definition separated (first : bool) (l : list string) : string :=
  match l with
  | [] => ""
  | _ => (if first then "" else ",") +:+ String.concat "," l
  end.

Lemma separated_cons first x l :
  separated first (x :: l) = (if first then "" else ",") +:+ x +:+ separated false l.
Proof.
  destruct l as [|y l]; cbn [separated String.concat]; [by rewrite append_nil_r|].
  by rewrite ?append_assoc.
Qed.

Lemma separated_true l : separated true l = String.concat "," l.
Proof. by destruct l. Qed.

Lemma insert_columns_spec entries : forall first sql args,
  insert_columns entries first sql args =
    (sql +:+ separated first (fst <$> entries), args ++ (snd <$> entries)).
Proof.
  induction entries as [|[c v] entries IH]; intros first sql args; cbn [insert_columns fmap list_fmap fst snd].
  - by rewrite append_nil_r, app_nil_r.
  - rewrite IH, separated_cons, !append_assoc, <- app_assoc. by destruct first.
Qed.

Lemma insert_marks_spec n : forall first sql,
  insert_marks n first sql = sql +:+ separated first (replicate n "?").
Proof.
  induction n as [|n IH]; intros first sql; cbn [insert_marks replicate].
  - by rewrite append_nil_r.
  - rewrite IH, separated_cons, append_assoc. by destruct first.
Qed.

(** an INSERT names the columns of the bucket in order, has one placeholder per
    column, and binds the value of each column at the position of its name. *)
Theorem insert_text conflictClause table values :
  insert_statement conflictClause table values =
    ("INSERT" +:+ conflictClause +:+ " INTO " +:+ table +:+
     "(" +:+ String.concat "," (fst <$> GetAll values) +:+ ") VALUES (" +:+
     String.concat "," (replicate (length (GetAll values)) "?") +:+ ")",
     snd <$> GetAll values).
Proof.
  unfold insert_statement. rewrite insert_columns_spec, insert_marks_spec, !separated_true.
  by rewrite !append_assoc.
Qed.

(** ** The logic of the store's operations *)
Definition rspec {A} (B : Prop) (P : RdbStoreImpl -> Prop) (m : R A)
    (Q : A -> RdbStoreImpl -> Prop) : Prop :=
  forall s, P s ->
    match m s with
    | Ret (a, s') => Q a s'
    | Blocked => B
    | NullConnection => False
    end.

Lemma rspec_ret {A} B (P : RdbStoreImpl -> Prop) (a : A) (Q : A -> RdbStoreImpl -> Prop) :
  (forall s, P s -> Q a s) -> rspec B P (mret a) Q.
Proof. intros HPQ s Hs. by apply HPQ. Qed.

Lemma rspec_bind {A C} B P (m : R A) (f : A -> R C) T Q :
  rspec B P m T -> (forall a, rspec B (T a) (f a) Q) -> rspec B P (m ≫= f) Q.
Proof.
  intros Hm Hf s Hs. unfold mbind, R_bind. specialize (Hm s Hs).
  destruct (m s) as [[a s']| |]; [|done|done]. by apply Hf.
Qed.

Lemma rspec_if {A} B P (b : bool) (m m' : R A) Q :
  (b = true -> rspec B P m Q) -> (b = false -> rspec B P m' Q) ->
  rspec B P (if b then m else m') Q.
Proof. destruct b; auto. Qed.

Create HintDb store.

Ltac store_step :=
  lazymatch goal with
  | |- rspec _ _ (_ ≫= _) _ => eapply rspec_bind; [|intros ?; cbn beta]
  | |- rspec _ _ (if ?b then _ else _) _ =>
      lazymatch type of b with bool => apply rspec_if; intros ? | _ => destruct b end
  | |- rspec _ _ (mret _) _ => apply rspec_ret; by auto
  | |- _ => solve [eauto with store]
  end.
Ltac store_auto := repeat store_step.

(** ** Sessions come back *)

(** A session that is not in the middle of an operation. *)
Definition session_fine (ses : Session) : Prop :=
  match connection ses with
  | Some _ => 0 < connectionUseCount ses
  | None => connectionUseCount ses = 0
  end.

Record store_ok (s : RdbStoreImpl) (held : list Z) (w : Z) : Prop := {
  st_pool : pool_open (connectionPool s) held w;
  st_threads : forall t ses n, threadMap s !! t = Some (ses, n) -> session_fine ses /\ 0 < n;
  st_idle : Forall session_fine (idleSessions s);
  st_max : (length (idleSessions s) <= MAX_IDLE_SESSION_SIZE)%nat;
}.

(** Nothing has changed, except that the first session may have been created. *)
Definition store_rest (s0 s : RdbStoreImpl) : Prop :=
  connectionPool s = connectionPool s0 /\ threadMap s = threadMap s0 /\
  (idleSessions s = idleSessions s0 \/ (idleSessions s0 = [] /\ idleSessions s = [new_Session])) /\
  isOpen s = isOpen s0 /\ path s = path s0 /\
  transactionObserverStack s = transactionObserverStack s0.

Lemma store_rest_refl s : store_rest s s.
Proof. unfold store_rest. auto 10. Qed.

Lemma store_rest_trans s0 s1 s2 : store_rest s0 s1 -> store_rest s1 s2 -> store_rest s0 s2.
Proof.
  intros (H1 & H2 & H3 & H4 & H5 & H6) (G1 & G2 & G3 & G4 & G5 & G6).
  unfold store_rest. split_and!; try congruence.
  destruct H3 as [H3|[H3 H3']], G3 as [G3|[G3 G3']]; rewrite ?H3, ?H3' in *; auto.
Qed.

Lemma store_rest_ok s0 s held w : store_rest s0 s -> store_ok s0 held w -> store_ok s held w.
Proof.
  intros (H1 & H2 & H3 & _) [O1 O2 O3 O4]. split; rewrite ?H1, ?H2; auto.
  - destruct H3 as [->|[_ ->]]; [done|]. by repeat constructor.
  - destruct H3 as [->|[_ ->]]; [done|]. unfold MAX_IDLE_SESSION_SIZE. cbn. lia.
Qed.

Section Sessions.
Context `{Connections} (tid : Z) (held : list Z) (w : Z).

(** A session operation that gives back what it takes. *)
Definition balanced {A} (m : M A) : Prop := forall e0 held w,
  session_ok e0 held w -> spec (waits e0 held) (at_rest e0) m (fun _ => at_rest e0).

(** The session the thread gets. *)
Definition session_for (s : RdbStoreImpl) : Session :=
  match threadMap s !! tid with
  | Some (ses, _) => ses
  | None => default new_Session (last (idleSessions s))
  end.

Lemma session_for_fine s : store_ok s held w -> session_fine (session_for s).
Proof.
  intros [_ O2 O3 _]. unfold session_for. destruct (threadMap s !! tid) as [[ses n]|] eqn:Et.
  - by eapply O2.
  - destruct (last (idleSessions s)) as [ses|] eqn:El; [|done].
    apply last_Some_elem_of in El. by eapply Forall_forall in O3.
Qed.

Definition uses (s : RdbStoreImpl) : Z :=
  match threadMap s !! tid with Some (_, n) => n | None => 0 end.

(** The store while the thread uses a session [ses] once more than in [s]. *)
Definition in_use (s : RdbStoreImpl) (ses : Session) : RdbStoreImpl :=
  with_sessions s (<[tid := (ses, uses s + 1)]> (threadMap s))
    (match threadMap s !! tid with
     | Some _ => idleSessions s
     | None => removelast (idleSessions s)
     end).

Lemma GetThreadSession_eq s : GetThreadSession tid s = Ret (tt, in_use s (session_for s)).
Proof.
  unfold GetThreadSession, in_use, session_for, uses.
  destruct (threadMap s !! tid) as [[ses n]|]; [done|].
  destruct (last (idleSessions s)) as [ses|] eqn:El; [done|].
  apply last_None in El. by rewrite El.
Qed.

(** Giving the session back in a store that otherwise rests. *)
Lemma ReleaseThreadSession_rest s cs evs :
  store_ok s held w ->
  let used := in_use s (session_for s) in
  let s1 := mkStore (connectionPool s) (isOpen s) (path s) (threadMap used) (idleSessions used)
              (transactionObserverStack s) cs evs in
  exists s2, ReleaseThreadSession tid s1 = Ret (tt, s2) /\ store_rest s s2.
Proof.
  intros [_ O2 _ O4] used s1. unfold ReleaseThreadSession, s1, used, in_use, session_for, uses.
  cbn -[MAX_IDLE_SESSION_SIZE Nat.ltb]. rewrite lookup_insert_eq.
  destruct (threadMap s !! tid) as [[ses n]|] eqn:Et.
  - destruct (O2 _ _ _ Et) as [_ Hn]. rewrite Z.add_simpl_r, (proj2 (Z.gtb_lt _ _)) by lia.
    eexists. split; [done|]. unfold store_rest; cbn. rewrite insert_insert_eq, insert_id by done.
    auto 10.
  - change (0 + 1 - 1 >? 0) with false. cbv iota.
    eexists. split; [done|]. unfold store_rest; cbn -[MAX_IDLE_SESSION_SIZE Nat.ltb].
    rewrite delete_insert_id by done. split_and!; try done.
    destruct (last (idleSessions s)) as [ses|] eqn:El; cbn -[MAX_IDLE_SESSION_SIZE Nat.ltb].
    + apply last_removelast in El. rewrite El in O4. rewrite length_app in O4. cbn in O4.
      rewrite (proj2 (Nat.ltb_lt _ _)) by (unfold MAX_IDLE_SESSION_SIZE in *; lia).
      left. by rewrite <- El.
    + apply last_None in El. rewrite El. by right.
Qed.

(** Running a balanced operation in the thread's session changes nothing. *)
Lemma in_session_rest {A} (m : M A) s :
  balanced m -> store_ok s held w ->
  match in_session tid m s with
  | Ret (_, s') => store_rest s s'
  | Blocked => held <> []
  | NullConnection => False
  end.
Proof.
  intros Hm Hok. unfold in_session, mbind, R_bind. rewrite GetThreadSession_eq.
  unfold on_session. cbn -[GetThreadSession]. rewrite lookup_insert_eq. cbn.
  set (e0 := mkEnv _ _ _ _).
  assert (session_ok e0 held w) as He0.
  { split; [apply Hok|]. by apply session_for_fine. }
  pose proof (Hm e0 held w He0 e0 (conj eq_refl eq_refl)) as Hr.
  destruct (m e0) as [[a e]| |]; [|by destruct Hr|done].
  destruct Hr as [Hs Hp]. rewrite Hs, Hp. cbn.
  destruct (ReleaseThreadSession_rest s (calls e) (events e) Hok) as (s2 & Hrel & Hrest).
  unfold in_use in Hrel. cbn in Hrel. rewrite insert_insert_eq, Hrel. done.
Qed.
End Sessions.

(** ** Programs of statements *)
Inductive store_op :=
| OInsert (table : string) (values : ValuesBucket) (conflict : Z)
| OUpdate (table : string) (values : ValuesBucket) (clause : string) (args : list string)
    (conflict : Z)
| ODelete (table clause : string) (args : list string)
| OExecuteSql (sql : string) (args : list ValueObject) (opens : list (Z + Z))
| OGetLong (sql : string) (args : list ValueObject)
| OGetString (sql : string) (args : list ValueObject)
| OLastInsertedRowId (sql : string) (args : list ValueObject)
| OChangedRowCount (sql : string) (args : list ValueObject)
| OSharedBlock (start required : Z) (all : bool) (sql : string) (args : list ValueObject)
| OPrepareAndGetInfo (sql : string)
| OBackup (file : string) (key : list Memory.byte)
| OAttach (alias file : string) (key : list Memory.byte)
| OGetVersion
| OSetVersion (version : Z)
| OIsInTransaction.

(** The read connections that are opened again after the definition of a table: new
    ones, in the number of the pool. *)
Definition reopens (held : list Z) (w n : Z) (opens : list (Z + Z)) : Prop :=
  NoDup (opened opens) /\ (w ∉ opened opens) /\ (forall c, c ∈ opened opens -> c ∉ held) /\
  exists reads, open_reads (Z.to_nat n) opens [] = inr reads.
(** Statements may define tables as long as the connections can be opened again. *)
Definition op_reopens (held : list Z) (w n : Z) (o : store_op) : Prop :=
  match o with
  | OExecuteSql sql _ opens => GetSqlStatementType sql = STATEMENT_DDL -> reopens held w n opens
  | _ => True
  end.

(** The store is as before: the sessions of all threads with their uses, the pool up to
    the read connections that were opened again, and everything else; a first idle
    session may have been created. *)
Definition store_kept (held : list Z) (w : Z) (s0 s : RdbStoreImpl) : Prop :=
  store_ok s held w /\
  connectionPool s = with_reads (connectionPool s0) (readConnections (connectionPool s)) (idleReadConnectionCount (connectionPool s0)) /\
  threadMap s = threadMap s0 /\
  (idleSessions s = idleSessions s0 \/ (idleSessions s0 = [] /\ idleSessions s = [new_Session])) /\
  isOpen s = isOpen s0 /\ path s = path s0 /\
  transactionObserverStack s = transactionObserverStack s0.

Lemma with_reads_same p : with_reads p (readConnections p) (idleReadConnectionCount p) = p.
Proof. by destruct p. Qed.
Lemma store_kept_refl held w s : store_ok s held w -> store_kept held w s s.
Proof. intros Hok. unfold store_kept. rewrite with_reads_same. auto 10. Qed.

(** What a use of a session and a change of the read connections keep. *)
Lemma store_kept_rest held w s0 s s' : store_kept held w s0 s -> store_rest s s' -> store_kept held w s0 s'.
Proof.
  intros (Hok & H1 & H2 & H3 & H4 & H5 & H6) Hr. pose proof (store_rest_ok _ _ _ _ Hr Hok) as Hok'.
  destruct Hr as (G1 & G2 & G3 & G4 & G5 & G6). unfold store_kept. split_and!; try congruence.
  destruct H3 as [H3|[H3 H3']], G3 as [G3|[G3 G3']]; rewrite ?H3, ?H3' in *; auto.
Qed.
Lemma store_kept_reopened held w s0 s reads :
  store_kept held w s0 s ->
  let p := with_reads (connectionPool s) reads (idleReadConnectionCount (connectionPool s)) in
  pool_open p held w -> store_kept held w s0 (with_connectionPool s p).
Proof.
  intros ([O1 O2 O3 O4] & H1 & H2 & H3 & H4 & H5 & H6) p Hp. split; [by split|]. split_and!; try done.
  unfold p. cbn. rewrite H1. done.
Qed.

Section Programs.
Context `{Connections} `{Files} (databaseType : string -> Z) (tid : Z).

Definition run_store_op (o : store_op) : R unit :=
  match o with
  | OInsert t v c => InsertWithConflictResolution tid t v c ;; mret tt
  | OUpdate t v cl a c => UpdateWithConflictResolution tid t v cl a c ;; mret tt
  | ODelete t cl a => Delete tid t cl a ;; mret tt
  | OExecuteSql q a opens => ExecuteSql databaseType tid q a opens ;; mret tt
  | OGetLong q a => ExecuteAndGetLong tid q a ;; mret tt
  | OGetString q a => ExecuteAndGetString databaseType tid q a ;; mret tt
  | OLastInsertedRowId q a => ExecuteForLastInsertedRowId tid q a ;; mret tt
  | OChangedRowCount q a => ExecuteForChangedRowCount tid q a ;; mret tt
  | OSharedBlock st rq al q a => ExecuteForSharedBlock tid st rq al q a ;; mret tt
  | OPrepareAndGetInfo q => PrepareAndGetInfo tid q ;; mret tt
  | OBackup f k => Backup tid f k ;; mret tt
  | OAttach al f k => Attach databaseType tid al f k ;; mret tt
  | OGetVersion => GetVersion tid ;; mret tt
  | OSetVersion v => SetVersion databaseType tid v ;; mret tt
  | OIsInTransaction => IsInTransaction tid ;; mret tt
  end.

Fixpoint run_store_ops (os : list store_op) : R unit :=
  match os with
  | [] => mret tt
  | o :: os => run_store_op o ;; run_store_ops os
  end.

Context (s0 : RdbStoreImpl) (held : list Z) (w : Z).
Abbreviation kept := (store_kept held w s0).

Lemma in_session_spec {A} (m : M A) :
  balanced m -> rspec (held <> []) kept (in_session tid m) (fun _ => kept).
Proof.
  intros Hm s Hs. pose proof (in_session_rest tid held w m s Hm (proj1 Hs)) as Hr.
  destruct (in_session tid m s) as [[a s']| |]; [|done|done]. by eapply store_kept_rest.
Qed.

Lemma balanced_execute sql f : balanced (StoreSession.execute sql f).
Proof. intros ????. by eapply execute_spec. Qed.
Lemma balanced_LastInserted sql args : balanced (StoreSession.ExecuteForLastInsertedRowId sql args).
Proof. apply balanced_execute. Qed.
Lemma balanced_ChangedRows sql args : balanced (StoreSession.ExecuteForChangedRowCount sql args).
Proof. apply balanced_execute. Qed.
Lemma balanced_GetLong sql args : balanced (StoreSession.ExecuteGetLong sql args).
Proof. apply balanced_execute. Qed.
Lemma balanced_SharedBlock sql args st rq al :
  balanced (StoreSession.ExecuteForSharedBlock sql args st rq al).
Proof. apply balanced_execute. Qed.
Lemma balanced_ExecuteSql sql args : balanced (StoreSession.ExecuteSql sql args).
Proof. intros ????. by eapply ExecuteSql_spec. Qed.
Lemma balanced_ExecuteGetString sql args :
  balanced (StoreSession.ExecuteGetString databaseType sql args).
Proof. intros ????. by eapply ExecuteGetString_spec. Qed.
Lemma balanced_PrepareAndGetInfo sql : balanced (StoreSession.PrepareAndGetInfo sql).
Proof. intros ????. by eapply PrepareAndGetInfo_spec. Qed.
Lemma balanced_Backup file key : balanced (StoreSession.Backup file key).
Proof. intros ????. by eapply Backup_spec. Qed.
Lemma balanced_Attach alias file key : balanced (StoreSession.Attach databaseType alias file key).
Proof. intros ????. by eapply Attach_spec. Qed.
Lemma balanced_IsInTransaction : balanced StoreSession.IsInTransaction.
Proof. intros ???? e He. exact He. Qed.

#[local] Hint Resolve in_session_spec balanced_LastInserted balanced_ChangedRows balanced_GetLong
  balanced_SharedBlock balanced_ExecuteSql
  balanced_ExecuteGetString balanced_PrepareAndGetInfo balanced_Backup balanced_Attach
  balanced_IsInTransaction : store.

(** Opening the read connections of an open pool again. *)
Lemma ReOpen_ok s opens :
  store_ok s held w -> reopens held w (readConnectionCount (connectionPool s)) opens ->
  exists reads,
    let p := with_reads (connectionPool s) reads (idleReadConnectionCount (connectionPool s)) in
    ReOpenAvailableReadConnections (connectionPool s) opens = (E_OK, p) /\ pool_open p held w.
Proof.
  intros [Hp _ _ _] (Hn & Hw & Hh & reads & Hr). exists reads.
  assert (E : ReOpenAvailableReadConnections (connectionPool s) opens =
    (E_OK, with_reads (connectionPool s) reads (idleReadConnectionCount (connectionPool s)))).
  { unfold ReOpenAvailableReadConnections, InnerReOpenReadConnections. by rewrite Hr. }
  split; [done|]. apply (InnerReOpen_open _ _ _ _ _ Hn Hw Hh Hp E). cbn. by rewrite (open_write _ _ _ Hp).
Qed.

(** A statement in the session, after which the read connections are opened again. *)
Lemma session_then_reopen (m : M Z) (ddl : bool) opens :
  balanced m -> (ddl = true -> reopens held w (readConnectionCount (connectionPool s0)) opens) ->
  rspec (held <> []) kept
    (GetThreadSession tid ;;
     errCode ← on_session tid m;
     if negb (errCode =? E_OK) then ReleaseThreadSession tid ;; mret errCode
     else errCode ← (if ddl then ReOpen opens else mret errCode); ReleaseThreadSession tid ;; mret errCode)
    (fun _ => kept).
Proof.
  intros Hm Hre s Hs. pose proof (proj1 Hs) as Hok. unfold mbind, R_bind. rewrite GetThreadSession_eq.
  unfold on_session. cbn -[GetThreadSession ReleaseThreadSession ReOpen]. rewrite lookup_insert_eq. cbn -[ReleaseThreadSession ReOpen].
  set (e0 := mkEnv _ _ _ _).
  assert (session_ok e0 held w) as He0 by (split; [apply Hok|by eapply session_for_fine]).
  pose proof (Hm e0 held w He0 e0 (conj eq_refl eq_refl)) as Hr.
  destruct (m e0) as [[a e]| |]; [|by destruct Hr|done]. destruct Hr as [He Hp]. rewrite He, Hp. cbn -[ReleaseThreadSession ReOpen].
  rewrite insert_insert_eq. destruct (negb (a =? E_OK)) eqn:Ea, ddl.
  1-2, 4: destruct (ReleaseThreadSession_rest tid held w s (calls e) (events e) Hok) as (s2 & Hrel & Hrest);
    unfold in_use in Hrel; cbn in Hrel; cbn; rewrite Hrel; by eapply store_kept_rest.
  destruct (ReOpen_ok s opens) as (reads & Er & Hopen); [done| |].
  { destruct Hs as (_ & -> & _). by apply Hre. }
  unfold ReOpen. cbn -[ReleaseThreadSession]. rewrite Er. cbn -[ReleaseThreadSession].
  pose proof (store_kept_reopened held w s0 s reads Hs Hopen) as Hs'.
  destruct (ReleaseThreadSession_rest tid held w _ (calls e) (events e) (proj1 Hs')) as (s2 & Hrel & Hrest).
  match type of Hrel with ReleaseThreadSession _ ?x = _ => match goal with |- context [ReleaseThreadSession tid ?y] => change y with x end end.
  rewrite Hrel. by eapply store_kept_rest.
Qed.

Lemma ExecuteAndGetString_spec sql args :
  rspec (held <> []) kept (ExecuteAndGetString databaseType tid sql args)
    (fun _ => kept).
Proof. unfold ExecuteAndGetString. store_auto. Qed.
Lemma ExecuteAndGetLong_spec sql args :
  rspec (held <> []) kept (ExecuteAndGetLong tid sql args) (fun _ => kept).
Proof. unfold ExecuteAndGetLong. store_auto. Qed.
#[local] Hint Resolve ExecuteAndGetString_spec ExecuteAndGetLong_spec : store.

Lemma CheckAttach_spec sql :
  rspec (held <> []) kept (CheckAttach databaseType tid sql) (fun _ => kept).
Proof. unfold CheckAttach. cbv zeta. store_auto. Qed.
#[local] Hint Resolve CheckAttach_spec : store.

Lemma store_ExecuteSql_spec sql args opens :
  op_reopens held w (readConnectionCount (connectionPool s0)) (OExecuteSql sql args opens) ->
  rspec (held <> []) kept (ExecuteSql databaseType tid sql args opens) (fun _ => kept).
Proof.
  intros Ho. unfold ExecuteSql. eapply rspec_bind; [apply CheckAttach_spec|]. intros errCode.
  apply rspec_if; intros _; [store_auto|]. apply session_then_reopen; [apply balanced_ExecuteSql|].
  intros Hd%Z.eqb_eq. by apply Ho.
Qed.

Lemma run_store_op_spec o :
  op_reopens held w (readConnectionCount (connectionPool s0)) o ->
  rspec (held <> []) kept (run_store_op o) (fun _ => kept).
Proof.
  intros Ho. destruct o; cbn [run_store_op]; (apply rspec_bind with (T := fun _ => kept); [|intros; by apply rspec_ret]).
  - unfold InsertWithConflictResolution. store_auto.
    destruct (GetConflictClause conflict); [destruct (insert_statement _ _ _)|..]; store_auto.
  - unfold UpdateWithConflictResolution. store_auto.
    destruct (GetConflictClause conflict); [destruct (update_statement _ _ _ _ _)|..]; store_auto.
  - unfold Delete. store_auto. destruct (delete_statement _ _ _). store_auto.
  - by apply store_ExecuteSql_spec.
  - store_auto.
  - store_auto.
  - unfold ExecuteForLastInsertedRowId. store_auto.
  - unfold ExecuteForChangedRowCount. store_auto.
  - unfold ExecuteForSharedBlock. store_auto.
  - unfold PrepareAndGetInfo. store_auto.
  - intros s Hs. unfold Backup. repeat case_if; try exact Hs;
      (apply (in_session_spec (StoreSession.Backup _ key)); [apply balanced_Backup|exact Hs]).
  - unfold Attach. store_auto.
  - unfold GetVersion. store_auto.
  - unfold SetVersion. apply store_ExecuteSql_spec. cbn.
    assert (GetSqlStatementType ("PRAGMA user_version = " +:+ to_string version) = STATEMENT_PRAGMA)
      as -> by reflexivity. done.
  - unfold IsInTransaction. store_auto.
Qed.
#[local] Hint Resolve run_store_op_spec : store.

Lemma run_store_ops_spec os :
  Forall (op_reopens held w (readConnectionCount (connectionPool s0))) os ->
  rspec (held <> []) kept (run_store_ops os) (fun _ => kept).
Proof. induction 1; cbn; store_auto. Qed.
End Programs.

(** C6: the statements of a store leave no trace in it: whatever a thread inserts,
    updates, deletes, executes, counts, backs up or attaches, and whatever the
    database answers, the sessions of all threads and their use counts are afterwards as
    before (a first idle session may have been created), and so is the pool, up to the
    read connections that the definition of a table opened again; no null
    connection is used, and the thread waits only while connections are held. The read
    connections can be opened again when a statement defines a table. *)
Theorem store_balanced `{Connections} `{Files} databaseType tid s held w os :
  store_ok s held w -> Forall (op_reopens held w (readConnectionCount (connectionPool s))) os ->
  match run_store_ops databaseType tid os s with
  | Ret (_, s') => store_kept held w s s'
  | Blocked => held <> []
  | NullConnection => False
  end.
Proof.
  intros Hok Ho. apply (run_store_ops_spec databaseType tid s held w os Ho). by apply store_kept_refl.
Qed.

Definition demo_files : Files :=
  {| ExtractFilePath := fun _ => "/data/"; PathToRealPath := fun _ => true; access := fun _ => true |}.
Definition demo_store : RdbStoreImpl := mkStore two_readers true "/data/a.db" ∅ [] [] [] [].

Lemma demo_store_ok : store_ok demo_store [] 10.
Proof.
  split; [apply two_readers_open| |by constructor|by apply Nat.leb_le].
  intros t ses n Ht. cbn in Ht. by rewrite lookup_empty in Ht.
Qed.

Definition demo_ops : list store_op :=
  [OInsert "t" (mkValuesBucket [("a", ValueObject_int 1)]) 5; ODelete "t" "a = ?" ["2"];
   OExecuteSql "ATTACH x" [] []; OExecuteSql "CREATE TABLE u (b)" [] [inr 21; inr 22]; OBackup "copy.db" []; OSetVersion 3].

Lemma demo_reopens : reopens [] 10 2 [inr 21; inr 22].
Proof.
  split; [apply (bool_decide_unpack _); vm_compute; exact I|]. split; [apply (bool_decide_unpack _); vm_compute; exact I|].
  split; [intros c _; apply not_elem_of_nil|by eexists].
Qed.
Lemma demo_ops_reopen : Forall (op_reopens [] 10 2) demo_ops.
Proof.
  repeat (apply Forall_cons; split; [exact I || (intros Hd; vm_compute in Hd; discriminate) || exact (fun _ => demo_reopens)|]).
  apply Forall_nil_2.
Qed.

Lemma store_balanced_witness :
  match @run_store_ops ok_connections demo_files GetSqlStatementType 1 demo_ops demo_store with
  | Ret (_, s') => store_kept [] 10 demo_store s'
  | _ => False
  end.
Proof.
  pose proof (@store_balanced ok_connections demo_files GetSqlStatementType 1 demo_store [] 10
    demo_ops demo_store_ok demo_ops_reopen) as Hb.
  destruct (run_store_ops _ _ _ _) as [[u s']| |]; [exact Hb|by apply Hb|exact Hb].
Defined.

(** ** Transactions keep the session *)
Section Kept.
Context `{Connections} (tid : Z).

(** The store between transactions of a thread that has used its session [n] times. *)
Definition kept (s : RdbStoreImpl) (n : Z) (cs : list (Z * conn_call)) : RdbStoreImpl :=
  mkStore (connectionPool s) (isOpen s) (path s) (<[tid := (new_Session, n)]> (threadMap s))
    (idleSessions s) (transactionObserverStack s) cs (sent_events s).

Definition kept_env (s : RdbStoreImpl) (cs : list (Z * conn_call)) : Env :=
  mkEnv (connectionPool s) new_Session cs (sent_events s).

(** A transaction that begins and commits. *)
Definition begin_commit : R Z := BeginTransaction tid ;; Commit tid.

(** An operation of the session that succeeds, in a store whose thread has a session. *)
Lemma keep_session_ok (m : M Z) s n cs p cs' :
  m (kept_env s cs) = Ret (E_OK, mkEnv p new_Session cs' (sent_events s)) ->
  keep_session tid m (kept s n cs) =
    Ret (E_OK, kept (with_connectionPool s p) (n + 1) cs').
Proof.
  intros Hm. unfold keep_session, mbind, R_bind, GetThreadSession, kept. cbn.
  rewrite lookup_insert_eq. unfold on_session. cbn. rewrite lookup_insert_eq.
  unfold kept_env in Hm. rewrite Hm. cbn. by rewrite !insert_insert_eq.
Qed.

(** The first use of a session by the thread. *)
Lemma keep_session_first (m : M Z) s :
  threadMap s !! tid = None -> idleSessions s = [] ->
  keep_session tid m s = keep_session tid m (kept s 0 (sent_calls s)).
Proof.
  intros Ht Hi. unfold keep_session, mbind, R_bind, GetThreadSession, kept. cbn.
  rewrite Ht, Hi, lookup_insert_eq. cbn. unfold with_sessions. cbn. by rewrite insert_insert_eq.
Qed.

Definition tx_calls (w : Z) : list (Z * conn_call) :=
  [(w, CExecuteSql "BEGIN EXCLUSIVE;" []); (w, CExecuteSql "COMMIT;" [])].

Context (w : Z) (Haccept : forall cs c f, r_code (answers cs c f) = E_OK).

Lemma begin_commit_kept s n cs :
  ready (kept_env s cs) w -> transactionStack (connectionPool s) = [] ->
  begin_commit (kept s n cs) = Ret (E_OK, kept s (n + 2) (cs ++ tx_calls w)).
Proof using Haccept.
  intros Hr Hst. unfold begin_commit.
  pose proof (Begin_ok (kept_env s cs) w [] Hr Hst (Haccept _ _ _)) as Hb.
  unfold mbind at 1, R_bind at 1, BeginTransaction.
  rewrite (keep_session_ok _ s n cs _ _ Hb). cbn -[kept].
  assert (Hc : StoreSession.Commit
    (kept_env (with_connectionPool s (with_stack (connectionPool s) [new_BaseTransaction 0]))
       (cs ++ [(w, CExecuteSql "BEGIN EXCLUSIVE;" [])])) =
    Ret (E_OK, mkEnv (connectionPool s) new_Session (cs ++ tx_calls w) (sent_events s))).
  { rewrite (Commit_outermost _ w (new_BaseTransaction 0)); [| |done|done|apply Haccept].
    - unfold sent, kept_env. cbn -[app]. rewrite <- app_assoc. unfold with_stack. cbn.
      destruct (connectionPool s). cbn in Hst. by subst.
    - destruct Hr. by split. }
  unfold Commit. rewrite (keep_session_ok _ _ _ _ _ _ Hc).
  unfold kept, with_connectionPool. cbn. do 5 f_equal. lia.
Qed.
End Kept.

Fixpoint rtimes (n : nat) (m : R Z) : R Z :=
  match n with O => mret E_OK | S n => m ;; rtimes n m end.

(** a thread's session is never given back after a transaction: beginning
    and committing each keep one use of the session, so after [k] transactions
    that all succeed the thread still holds [2 k] uses of it. *)
Theorem transactions_keep_session `{Connections} tid s w k :
  writeConnection (connectionPool s) = Some w -> writeConnectionUsed (connectionPool s) = false ->
  transactionStack (connectionPool s) = [] ->
  threadMap s !! tid = None -> idleSessions s = [] ->
  (forall cs c f, r_code (answers cs c f) = E_OK) ->
  exists s', rtimes (S k) (begin_commit tid) s = Ret (E_OK, s') /\
    threadMap s' !! tid = Some (new_Session, 2 * Z.of_nat (S k)) /\
    connectionPool s' = connectionPool s.
Proof.
  intros Hw Hu Hst Ht Hi Ha.
  assert (Hr : forall cs, ready (kept_env s cs) w) by (intros; by split).
  assert (Hstep : forall k n cs, exists cs',
    rtimes k (begin_commit tid) (kept tid s n cs) = Ret (E_OK, kept tid s (n + 2 * Z.of_nat k) cs')).
  { clear k. induction k as [|k IH]; intros n cs; cbn [rtimes].
    - exists cs. by rewrite Z.add_0_r.
    - destruct (IH (n + 2) (cs ++ tx_calls w)) as [cs' He]. exists cs'.
      unfold mbind, R_bind. rewrite (begin_commit_kept tid w Ha s n cs (Hr cs) Hst), He.
      do 3 f_equal. lia. }
  destruct (Hstep (S k) 0 (sent_calls s)) as [cs' He].
  exists (kept tid s (2 * Z.of_nat (S k)) cs'). split; [|split; [apply lookup_insert_eq|done]].
  rewrite <- (Z.add_0_l (2 * _)), <- He. cbn [rtimes].
  unfold begin_commit, mbind, R_bind, BeginTransaction. by rewrite keep_session_first.
Qed.

Lemma transactions_keep_session_witness :
  exists s', rtimes 3 (@begin_commit ok_connections 1) demo_store = Ret (E_OK, s') /\
    threadMap s' !! 1 = Some (new_Session, 6) /\ connectionPool s' = two_readers.
Proof.
  exact (@transactions_keep_session ok_connections 1 demo_store 10 2 eq_refl eq_refl eq_refl eq_refl
    eq_refl ok_accepts).
Defined.

(** ** Queries on predicates *)

Lemma names_op_plain o : names_plain o -> op_plain o.
Proof. by destruct o. Qed.

(** C28: A query on predicates binds every placeholder. The predicates are made by any
    calls but [SetWhereClause] and [SetWhereArgs]; their join clause is defined and not
    empty, that is, every join has its condition; no name in the calls, in the columns or
    in the join clause has a question mark; limit and offset are 32-bit integers. Then the
    query does not throw, its statement is the column list, the join clause
    and the tail of the predicates, it has exactly as many placeholders as the result
    set has arguments, and the arguments are those of the calls in order. *)
Theorem store_query_binds `{DistributedPredicates} getJoinClause p table columns ops s :
  base p = run_ops ops -> Forall names_plain ops ->
  getJoinClause p = Ok table -> empty table = false -> plain table ->
  plain (query_head (IsDistinct (base p)) columns).1 ->
  -2147483648 <= GetLimit (base p) <= 2147483647 -> -2147483648 <= GetOffset (base p) <= 2147483647 ->
  exists q, Query getJoinClause p columns s = Ok q /\
    qs_path q = path s /\ qs_args q = clause_args ops /\
    qs_sql q = (query_head (IsDistinct (base p)) columns).1 +:+ "FROM " +:+ table +:+ BuildSqlStringFromPredicatesOf p /\
    count_char "?" (qs_sql q) = length (qs_args q).
Proof.
  intros Hb Hn Hj He Ht Hh Hl Ho. unfold Query. rewrite query_of_predicates, Hj by done. simpl. rewrite He. simpl.
  eexists. split; [done|]. simpl. destruct (run_ops_clause ops) as (Ec & Ea & _). rewrite <- Hb in Ec, Ea.
  split_and!; [done|done|done|]. rewrite !count_char_app, Hh, Ht. simpl.
  destruct (run_ops_plain ops Hn) as (H1 & H2 & H3). rewrite <- Hb in H1, H2, H3.
  rewrite tail_of_predicates, count_tail by done. rewrite Ec, Ea. apply clause_placeholders.
  eapply Forall_impl; [exact Hn|]. apply names_op_plain.
Qed.

Lemma store_query_binds_witness :
  exists q, Query GetJoinClause (with_base (new_RdbPredicates "person") (run_ops demo_calls) dpred_empty) ["id"] demo_store = Ok q /\
    qs_path q = path demo_store /\ qs_args q = clause_args demo_calls /\
    qs_sql q = (query_head false ["id"]).1 +:+ "FROM " +:+ "person" +:+
      BuildSqlStringFromPredicatesOf (with_base (new_RdbPredicates "person") (run_ops demo_calls) dpred_empty) /\
    count_char "?" (qs_sql q) = length (qs_args q).
Proof.
  apply (store_query_binds GetJoinClause (with_base (new_RdbPredicates "person") (run_ops demo_calls) dpred_empty)
    "person" ["id"] demo_calls demo_store);
    try (vm_compute; reflexivity); try (vm_compute; split; discriminate).
  by repeat constructor.
Defined.

(** A query by its parts never succeeds: the offset it passes on is empty, and reading
    it throws. *)
Theorem query_by_parts_throws distinct table columns selection args groupBy having orderBy limit s :
  empty table = false ->
  QueryWith distinct table columns selection args groupBy having orderBy limit s = Throws.
Proof. intros Ht. unfold QueryWith. by rewrite (proj1 (query_without_offset_throws _ _ _ _ _ _ _ _ Ht)). Qed.

Lemma query_by_parts_throws_witness : QueryWith false "person" [] "" [] "" "" "" "10" demo_store = Throws.
Proof. by apply query_by_parts_throws. Defined.
