(* ===== verification/DataShareValueObject.v ===== *)
(** * Values shared between applications

    Model of frameworks/native/data_share/common/src/datashare_value_object.cpp:
    the value type of the data share framework, a tag next to a variant, and its
    marshalling. A [double] is its 64-bit pattern. *)
From S2P Require Import Prelude Memory DataShareErrno Parcel.

Inductive DataShareValueObjectType :=
| TYPE_NULL | TYPE_INT | TYPE_DOUBLE | TYPE_STRING | TYPE_BLOB | TYPE_BOOL.

#[global] Instance DataShareValueObjectType_eq_dec : EqDecision DataShareValueObjectType.
Proof. solve_decision. Defined.

Definition type_code (t : DataShareValueObjectType) : Z :=
  match t with
  | TYPE_NULL => 0 | TYPE_INT => 1 | TYPE_DOUBLE => 2
  | TYPE_STRING => 3 | TYPE_BLOB => 4 | TYPE_BOOL => 5
  end.

Inductive variant :=
| VInt64 (z : Z)
| VDouble (bits : Z)
| VString (s : string)
| VBool (b : bool)
| VBlob (l : list byte).

Record DataShareValueObject := mkDataShareValueObject {
  type : DataShareValueObjectType;
  value : variant;
}.

(** ** Constructors; the default one leaves the variant at its first alternative. *)
Definition new_null : DataShareValueObject := mkDataShareValueObject TYPE_NULL (VInt64 0).
Definition new_int (val : Z) : DataShareValueObject :=
  mkDataShareValueObject TYPE_INT (VInt64 val).
Definition new_long (val : Z) : DataShareValueObject :=
  mkDataShareValueObject TYPE_INT (VInt64 val).
Definition new_double (val : Z) : DataShareValueObject :=
  mkDataShareValueObject TYPE_DOUBLE (VDouble val).
Definition new_bool (val : bool) : DataShareValueObject :=
  mkDataShareValueObject TYPE_BOOL (VBool val).
Definition new_string (val : string) : DataShareValueObject :=
  mkDataShareValueObject TYPE_STRING (VString val).
Definition new_blob (val : list byte) : DataShareValueObject :=
  mkDataShareValueObject TYPE_BLOB (VBlob val).

(** ** Getters; [std::get] throws when the variant holds another alternative. *)
Definition GetType (o : DataShareValueObject) : DataShareValueObjectType := type o.

Definition GetInt (o : DataShareValueObject) : outcome Z :=
  if decide (type o <> TYPE_INT) then Err E_INVALID_OBJECT_TYPE
  else match value o with VInt64 v => Ok (s32 v) | _ => Throws end.

Definition GetLong (o : DataShareValueObject) : outcome Z :=
  if decide (type o <> TYPE_INT) then Err E_INVALID_OBJECT_TYPE
  else match value o with VInt64 v => Ok v | _ => Throws end.

Definition GetDouble (o : DataShareValueObject) : outcome Z :=
  if decide (type o <> TYPE_DOUBLE) then Err E_INVALID_OBJECT_TYPE
  else match value o with VDouble v => Ok v | _ => Throws end.

Definition GetBool (o : DataShareValueObject) : outcome bool :=
  if decide (type o <> TYPE_BOOL) then Err E_INVALID_OBJECT_TYPE
  else match value o with VBool v => Ok v | _ => Throws end.

Definition GetString (o : DataShareValueObject) : outcome string :=
  if decide (type o <> TYPE_STRING) then Err E_INVALID_OBJECT_TYPE
  else match value o with VString v => Ok v | _ => Throws end.

Definition GetBlob (o : DataShareValueObject) : outcome (list byte) :=
  if decide (type o <> TYPE_BLOB) then Err E_INVALID_OBJECT_TYPE
  else match value o with VBlob v => Ok v | _ => Throws end.

(** ** Marshalling; [None] when [std::get] throws on the way. *)
Section Marshalling.
Context `{Parcel}.

Definition Marshalling (o : DataShareValueObject) (p : parcel) : option parcel :=
  match type o with
  | TYPE_NULL => Some (WriteInt16 (type_code TYPE_NULL) p)
  | TYPE_INT =>
      let p := WriteInt16 (type_code TYPE_INT) p in
      match value o with VInt64 v => Some (WriteInt64 v p) | _ => None end
  | TYPE_DOUBLE =>
      let p := WriteInt16 (type_code TYPE_DOUBLE) p in
      match value o with VDouble v => Some (WriteDouble v p) | _ => None end
  | TYPE_STRING =>
      let p := WriteInt16 (type_code TYPE_STRING) p in
      match value o with VString v => Some (WriteString v p) | _ => None end
  | TYPE_BLOB =>
      let p := WriteInt16 (type_code TYPE_BLOB) p in
      match value o with VBlob v => Some (WriteUInt8Vector v p) | _ => None end
  | TYPE_BOOL =>
      let p := WriteInt16 (type_code TYPE_BOOL) p in
      match value o with VBool v => Some (WriteBool v p) | _ => None end
  end.

Definition Unmarshalling (p : parcel) : DataShareValueObject * parcel :=
  let '(t, p) := ReadInt16 p in
  if t =? type_code TYPE_NULL then (new_null, p)
  else if t =? type_code TYPE_INT then
    let '(v, p) := ReadInt64 p in (mkDataShareValueObject TYPE_INT (VInt64 v), p)
  else if t =? type_code TYPE_DOUBLE then
    let '(v, p) := ReadDouble p in (mkDataShareValueObject TYPE_DOUBLE (VDouble v), p)
  else if t =? type_code TYPE_STRING then
    let '(v, p) := ReadString p in (mkDataShareValueObject TYPE_STRING (VString v), p)
  else if t =? type_code TYPE_BLOB then
    let '(v, p) := ReadUInt8Vector p in (mkDataShareValueObject TYPE_BLOB (VBlob v), p)
  else if t =? type_code TYPE_BOOL then
    let '(v, p) := ReadBool p in (mkDataShareValueObject TYPE_BOOL (VBool v), p)
  else (new_null, p).
End Marshalling.

(** ** The type invariant: the tag selects the alternative that is there *)
Definition ok (o : DataShareValueObject) : Prop :=
  match type o, value o with
  | TYPE_NULL, _ | TYPE_INT, VInt64 _ | TYPE_DOUBLE, VDouble _ | TYPE_STRING, VString _
  | TYPE_BLOB, VBlob _ | TYPE_BOOL, VBool _ => True
  | _, _ => False
  end.

(** ** Round trip *)
Section RoundTrip.
Context `{ParcelLaws}.

Definition encoding (o : DataShareValueObject) : list item :=
  IInt16 (type_code (type o)) ::
  match type o, value o with
  | TYPE_INT, VInt64 v => [IInt64 v]
  | TYPE_DOUBLE, VDouble v => [IDouble v]
  | TYPE_STRING, VString v => [IString v]
  | TYPE_BLOB, VBlob v => [IUInt8Vector v]
  | TYPE_BOOL, VBool v => [IBool v]
  | _, _ => []
  end.

(** What comes back: a null loses the unread variant behind it. *)
Definition canon (o : DataShareValueObject) : DataShareValueObject :=
  if decide (type o = TYPE_NULL) then new_null else o.

Lemma share_marshals o p l :
  ok o -> holds p l -> exists p', Marshalling o p = Some p' /\ holds p' (l ++ encoding o).
Proof.
  intros Hok Hp. unfold Marshalling, encoding. destruct o as [t v]. simpl in *.
  pose proof (WriteInt16_holds _ _ (type_code t) Hp) as H16.
  destruct t, v; simpl in *; try done; eexists; (split; [done|]); try exact H16;
    rewrite (cons_middle (IInt16 _)), app_assoc; eauto with parcel.
Qed.

Lemma share_unmarshals o p l :
  ok o -> holds p (encoding o ++ l) ->
  exists p', Unmarshalling p = (canon o, p') /\ holds p' l.
Proof.
  intros Hok Hp. unfold Unmarshalling. read_parcel.
  destruct o as [t v]; destruct t, v; simpl in *; try done; read_parcel; eexists; by split.
Qed.
End RoundTrip.
