(* ===== verification/DataShareValuesBucket.v ===== *)
(** * Buckets of shared values

    Model of frameworks/native/data_share/common/src/datashare_values_bucket.cpp:
    a map from column or key names to values. *)
From S2P Require Import Prelude Memory StdMap Parcel DataShareValueObject.

Record DataShareValuesBucket := mkDataShareValuesBucket {
  valuesMap : list (string * DataShareValueObject);
}.

Definition new_bucket : DataShareValuesBucket := mkDataShareValuesBucket [].
Definition bucket_of (valuesMap : list (string * DataShareValueObject)) : DataShareValuesBucket :=
  mkDataShareValuesBucket valuesMap.

(** [valuesMap.insert(std::make_pair(columnOrKeyName, value))]. *)
Definition insert_value (b : DataShareValuesBucket) (columnOrKeyName : string)
    (value : DataShareValueObject) : DataShareValuesBucket :=
  mkDataShareValuesBucket (sm_insert columnOrKeyName value (valuesMap b)).

Definition PutString (b : DataShareValuesBucket) (columnOrKeyName value : string) :=
  insert_value b columnOrKeyName (new_string value).
Definition PutInt (b : DataShareValuesBucket) (columnOrKeyName : string) (value : Z) :=
  insert_value b columnOrKeyName (new_int value).
Definition PutLong (b : DataShareValuesBucket) (columnOrKeyName : string) (value : Z) :=
  insert_value b columnOrKeyName (new_long value).
Definition PutDouble (b : DataShareValuesBucket) (columnOrKeyName : string) (value : Z) :=
  insert_value b columnOrKeyName (new_double value).
Definition PutBool (b : DataShareValuesBucket) (columnOrKeyName : string) (value : bool) :=
  insert_value b columnOrKeyName (new_bool value).
Definition PutBlob (b : DataShareValuesBucket) (columnOrKeyName : string) (value : list byte) :=
  insert_value b columnOrKeyName (new_blob value).
Definition PutNull (b : DataShareValuesBucket) (columnOrKeyName : string) :=
  insert_value b columnOrKeyName new_null.

Definition Delete (b : DataShareValuesBucket) (columnOrKeyName : string) : DataShareValuesBucket :=
  mkDataShareValuesBucket (sm_erase columnOrKeyName (valuesMap b)).
Definition Clear (b : DataShareValuesBucket) : DataShareValuesBucket := mkDataShareValuesBucket [].
Definition Size (b : DataShareValuesBucket) : Z := s32 (Z.of_nat (length (valuesMap b))).
Definition IsEmpty (b : DataShareValuesBucket) : bool :=
  match valuesMap b with [] => true | _ => false end.
Definition HasColumnOrKey (b : DataShareValuesBucket) (columnOrKeyName : string) : bool :=
  match sm_find columnOrKeyName (valuesMap b) with None => false | Some _ => true end.
Definition GetObject (b : DataShareValuesBucket) (columnOrKeyName : string)
    : option DataShareValueObject := sm_find columnOrKeyName (valuesMap b).
Definition GetAll (b : DataShareValuesBucket) : list (string * DataShareValueObject) :=
  valuesMap b.

Section Marshalling.
Context `{Parcel}.

Definition Marshalling (b : DataShareValuesBucket) (p : parcel) : option parcel :=
  let p := WriteInt32 (s32 (Z.of_nat (length (valuesMap b)))) p in
  write_entries DataShareValueObject.Marshalling (valuesMap b) p.

Definition Unmarshalling (p : parcel) : option (DataShareValuesBucket * parcel) :=
  let '(mapSize, p) := ReadInt32 p in
  '(m, p) ← read_entries DataShareValueObject.Unmarshalling (Z.to_nat mapSize) [] p;
  Some (bucket_of m, p).
End Marshalling.

(** ** Invariant *)
Definition bucket_ok (b : DataShareValuesBucket) : Prop :=
  sm_sorted (valuesMap b) /\ Forall (fun e => ok e.2) (valuesMap b).

(** ** Round trip *)
Section RoundTrip.
Context `{ParcelLaws}.

Definition sent (b : DataShareValuesBucket) : DataShareValuesBucket :=
  mkDataShareValuesBucket (canon_entry canon <$> valuesMap b).

Definition encoding_bucket (b : DataShareValuesBucket) : list item :=
  encoding_map encoding (valuesMap b).

Lemma bucket_writes b :
  bucket_ok b -> Z.of_nat (length (valuesMap b)) < 2147483648 ->
  marshals (Marshalling b) (encoding_bucket b).
Proof.
  intros [_ Hf] Hlen. apply (writes_map DataShareValueObject.Marshalling ok); try done.
  apply DataShareValueObject.share_marshals.
Qed.

Lemma bucket_reads b : bucket_ok b -> unmarshals Unmarshalling (encoding_bucket b) (sent b).
Proof.
  intros [Hs Hf] p l Hp.
  destruct (reads_map DataShareValueObject.Unmarshalling ok encoding canon
    DataShareValueObject.share_unmarshals (valuesMap b) Hf Hs p l Hp) as (p' & E & Hp').
  exists p'. unfold Unmarshalling. destruct (ReadInt32 p). by rewrite E.
Qed.

Lemma shared_bucket_roundtrip b p :
  bucket_ok b -> Z.of_nat (length (valuesMap b)) < 2147483648 -> holds p [] ->
  exists p1 p2,
    Marshalling b p = Some p1 /\ Unmarshalling p1 = Some (sent b, p2) /\ holds p2 [].
Proof. intros Hb Hlen. apply (transfer _ _ (encoding_bucket b)); [by apply bucket_writes|by apply bucket_reads]. Qed.
End RoundTrip.
