(* ===== verification/DataSharePredicatesObject.v ===== *)
(** * Parameters of shared predicates

    Model of frameworks/native/data_share/common/src/datashare_predicates_object.cpp:
    the values a predicate carries, a tag next to a variant. Unlike a
    [DataShareValueObject], the alternative behind a tag depends on how the object
    was made: the constructors widen an [int] and a vector of [int] to 64 bits,
    [Unmarshalling] narrows them again. *)
From S2P Require Import Prelude DataShareErrno Parcel.

Inductive DataSharePredicatesObjectType :=
| TYPE_NULL | TYPE_INT | TYPE_DOUBLE | TYPE_STRING | TYPE_BOOL | TYPE_LONG
| TYPE_INT_VECTOR | TYPE_LONG_VECTOR | TYPE_DOUBLE_VECTOR | TYPE_STRING_VECTOR
| TYPE_OTHER (code : Z).

#[global] Instance DataSharePredicatesObjectType_eq_dec : EqDecision DataSharePredicatesObjectType.
Proof. solve_decision. Defined.

Definition type_code (t : DataSharePredicatesObjectType) : Z :=
  match t with
  | TYPE_NULL => 0 | TYPE_INT => 1 | TYPE_DOUBLE => 2 | TYPE_STRING => 3 | TYPE_BOOL => 4
  | TYPE_LONG => 5 | TYPE_INT_VECTOR => 6 | TYPE_LONG_VECTOR => 7 | TYPE_DOUBLE_VECTOR => 8
  | TYPE_STRING_VECTOR => 9 | TYPE_OTHER code => code
  end.

(** The cast from a number, which need not be the code of an enumerator. *)
Definition type_of_code (z : Z) : DataSharePredicatesObjectType :=
  match z with
  | 0 => TYPE_NULL | 1 => TYPE_INT | 2 => TYPE_DOUBLE | 3 => TYPE_STRING | 4 => TYPE_BOOL
  | 5 => TYPE_LONG | 6 => TYPE_INT_VECTOR | 7 => TYPE_LONG_VECTOR | 8 => TYPE_DOUBLE_VECTOR
  | 9 => TYPE_STRING_VECTOR | _ => TYPE_OTHER z
  end.

(** The alternatives of the variant, in its order. *)
Inductive variant :=
| VInt (z : Z)
| VInt64 (z : Z)
| VDouble (bits : Z)
| VString (s : string)
| VBool (b : bool)
| VIntVector (l : list Z)
| VInt64Vector (l : list Z)
| VStringVector (l : list string)
| VDoubleVector (l : list Z).

Record DataSharePredicatesObject := mkObject {
  type : DataSharePredicatesObjectType;
  value : variant;
}.

(** ** Constructors *)
Definition new_null : DataSharePredicatesObject := mkObject TYPE_NULL (VInt 0).
Definition new_int (val : Z) : DataSharePredicatesObject := mkObject TYPE_INT (VInt64 val).
Definition new_long (val : Z) : DataSharePredicatesObject := mkObject TYPE_LONG (VInt64 val).
Definition new_double (val : Z) : DataSharePredicatesObject := mkObject TYPE_DOUBLE (VDouble val).
Definition new_bool (val : bool) : DataSharePredicatesObject := mkObject TYPE_BOOL (VBool val).
Definition new_string (val : string) : DataSharePredicatesObject :=
  mkObject TYPE_STRING (VString val).
(** The value is assigned only when the vector is not empty. *)
Definition new_int_vector (val : list Z) : DataSharePredicatesObject :=
  mkObject TYPE_INT_VECTOR (match val with [] => VInt 0 | _ => VInt64Vector val end).
Definition new_long_vector (val : list Z) : DataSharePredicatesObject :=
  mkObject TYPE_LONG_VECTOR (VInt64Vector val).
Definition new_string_vector (val : list string) : DataSharePredicatesObject :=
  mkObject TYPE_STRING_VECTOR (VStringVector val).
Definition new_double_vector (val : list Z) : DataSharePredicatesObject :=
  mkObject TYPE_DOUBLE_VECTOR (VDoubleVector val).

(** ** Getters; [std::get] throws when the variant holds another alternative. *)
Definition GetType (o : DataSharePredicatesObject) : DataSharePredicatesObjectType := type o.

Definition GetInt (o : DataSharePredicatesObject) : outcome Z :=
  if decide (type o <> TYPE_INT) then Err E_INVALID_OBJECT_TYPE
  else match value o with VInt64 v => Ok (s32 v) | _ => Throws end.

Definition GetLong (o : DataSharePredicatesObject) : outcome Z :=
  if decide (type o <> TYPE_INT) then Err E_INVALID_OBJECT_TYPE
  else match value o with VInt64 v => Ok v | _ => Throws end.

Definition GetDouble (o : DataSharePredicatesObject) : outcome Z :=
  if decide (type o <> TYPE_DOUBLE) then Err E_INVALID_OBJECT_TYPE
  else match value o with VDouble v => Ok v | _ => Throws end.

Definition GetBool (o : DataSharePredicatesObject) : outcome bool :=
  if decide (type o <> TYPE_BOOL) then Err E_INVALID_OBJECT_TYPE
  else match value o with VBool v => Ok v | _ => Throws end.

Definition GetString (o : DataSharePredicatesObject) : outcome string :=
  if decide (type o <> TYPE_STRING) then Err E_INVALID_OBJECT_TYPE
  else match value o with VString v => Ok v | _ => Throws end.

Definition GetIntVector (o : DataSharePredicatesObject) : outcome (list Z) :=
  if decide (type o <> TYPE_INT_VECTOR) then Err E_INVALID_OBJECT_TYPE
  else match value o with VIntVector v => Ok v | _ => Throws end.

Definition GetLongVector (o : DataSharePredicatesObject) : outcome (list Z) :=
  if decide (type o <> TYPE_LONG_VECTOR) then Err E_INVALID_OBJECT_TYPE
  else match value o with VInt64Vector v => Ok v | _ => Throws end.

Definition GetDoubleVector (o : DataSharePredicatesObject) : outcome (list Z) :=
  if decide (type o <> TYPE_DOUBLE_VECTOR) then Err E_INVALID_OBJECT_TYPE
  else match value o with VDoubleVector v => Ok v | _ => Throws end.

Definition GetStringVector (o : DataSharePredicatesObject) : outcome (list string) :=
  if decide (type o <> TYPE_STRING_VECTOR) then Err E_INVALID_OBJECT_TYPE
  else match value o with VStringVector v => Ok v | _ => Throws end.

(** ** Marshalling; [None] when [std::get] throws on the way. *)
Section Marshalling.
Context `{Parcel}.

Definition MarshallingVector (o : DataSharePredicatesObject) (p : parcel) : option parcel :=
  match type o with
  | TYPE_INT_VECTOR | TYPE_LONG_VECTOR =>
      match value o with VInt64Vector v => Some (WriteInt64Vector v p) | _ => None end
  | TYPE_DOUBLE_VECTOR =>
      match value o with VDoubleVector v => Some (WriteDoubleVector v p) | _ => None end
  | TYPE_STRING_VECTOR =>
      match value o with VStringVector v => Some (WriteStringVector v p) | _ => None end
  | _ => Some p
  end.

Definition Marshalling (o : DataSharePredicatesObject) (p : parcel) : option parcel :=
  let p := WriteInt16 (type_code (type o)) p in
  p ← match type o with
      | TYPE_INT | TYPE_LONG =>
          match value o with VInt64 v => Some (WriteInt64 v p) | _ => None end
      | TYPE_DOUBLE => match value o with VDouble v => Some (WriteDouble v p) | _ => None end
      | TYPE_STRING => match value o with VString v => Some (WriteString v p) | _ => None end
      | TYPE_BOOL => match value o with VBool v => Some (WriteBool v p) | _ => None end
      | _ => Some p
      end;
  MarshallingVector o p.

Definition UnmarshallingVector (t : DataSharePredicatesObjectType) (o : DataSharePredicatesObject)
    (p : parcel) : DataSharePredicatesObject * parcel :=
  match t with
  | TYPE_INT_VECTOR =>
      let '(int64val, p) := ReadInt64Vector p in
      (mkObject (type o) (VIntVector (s32 <$> int64val)), p)
  | TYPE_LONG_VECTOR =>
      let '(int64val, p) := ReadInt64Vector p in (mkObject (type o) (VInt64Vector int64val), p)
  | TYPE_DOUBLE_VECTOR =>
      let '(doubleval, p) := ReadDoubleVector p in
      (mkObject (type o) (VDoubleVector doubleval), p)
  | TYPE_STRING_VECTOR =>
      let '(stringval, p) := ReadStringVector p in
      (mkObject (type o) (VStringVector stringval), p)
  | _ => (o, p)
  end.

Definition Unmarshalling (p : parcel) : DataSharePredicatesObject * parcel :=
  let '(code, p) := ReadInt16 p in
  let t := type_of_code code in
  let '(v, p) :=
    match t with
    | TYPE_INT => let '(z, p) := ReadInt64 p in (VInt (s32 z), p)
    | TYPE_LONG => let '(z, p) := ReadInt64 p in (VInt64 z, p)
    | TYPE_DOUBLE => let '(d, p) := ReadDouble p in (VDouble d, p)
    | TYPE_STRING => let '(s, p) := ReadString p in (VString s, p)
    | TYPE_BOOL => let '(b, p) := ReadBool p in (VBool b, p)
    | _ => (VInt 0, p)
    end in
  UnmarshallingVector t (mkObject t v) p.
End Marshalling.

(** ** The two layouts

    [local]: what the constructors make, and what [Marshalling] reads. *)
Definition local (o : DataSharePredicatesObject) : Prop :=
  match type o, value o with
  | TYPE_NULL, VInt 0
  | (TYPE_INT | TYPE_LONG), VInt64 _ | TYPE_DOUBLE, VDouble _ | TYPE_STRING, VString _
  | TYPE_BOOL, VBool _ | (TYPE_INT_VECTOR | TYPE_LONG_VECTOR), VInt64Vector _
  | TYPE_DOUBLE_VECTOR, VDoubleVector _ | TYPE_STRING_VECTOR, VStringVector _ => True
  | _, _ => False
  end.

(** [received]: what [Unmarshalling] makes of a local object. *)
Definition received (o : DataSharePredicatesObject) : DataSharePredicatesObject :=
  match type o, value o with
  | TYPE_INT, VInt64 z => mkObject TYPE_INT (VInt (s32 z))
  | TYPE_INT_VECTOR, VInt64Vector l => mkObject TYPE_INT_VECTOR (VIntVector (s32 <$> l))
  | _, _ => o
  end.

Section RoundTrip.
Context `{ParcelLaws}.

Definition encoding (o : DataSharePredicatesObject) : list item :=
  IInt16 (type_code (type o)) ::
  match type o, value o with
  | (TYPE_INT | TYPE_LONG), VInt64 v => [IInt64 v]
  | TYPE_DOUBLE, VDouble v => [IDouble v]
  | TYPE_STRING, VString v => [IString v]
  | TYPE_BOOL, VBool v => [IBool v]
  | (TYPE_INT_VECTOR | TYPE_LONG_VECTOR), VInt64Vector v => [IInt64Vector v]
  | TYPE_DOUBLE_VECTOR, VDoubleVector v => [IDoubleVector v]
  | TYPE_STRING_VECTOR, VStringVector v => [IStringVector v]
  | _, _ => []
  end.

Lemma object_marshals o p l :
  local o -> holds p l -> exists p', Marshalling o p = Some p' /\ holds p' (l ++ encoding o).
Proof.
  intros Hok Hp. unfold Marshalling, encoding. destruct o as [t v]. simpl in *.
  pose proof (WriteInt16_holds _ _ (type_code t) Hp) as H16.
  destruct t, v; simpl in *; try done; eexists; (split; [done|]); try exact H16;
    rewrite (cons_middle (IInt16 _)), app_assoc; eauto with parcel.
Qed.

Lemma object_unmarshals o p l :
  local o -> holds p (encoding o ++ l) ->
  exists p', Unmarshalling p = (received o, p') /\ holds p' l.
Proof.
  intros Hok Hp. unfold Unmarshalling. destruct o as [t v]; destruct t, v; simpl in *; try done;
    read_parcel; try (destruct z; [|done..]); eexists; by split.
Qed.
End RoundTrip.

(** The values the constructors are given. *)
Inductive argument :=
| ANull | AInt (z : Z) | ALong (z : Z) | ADouble (bits : Z) | ABool (b : bool)
| AString (s : string) | AInts (l : list Z) | ALongs (l : list Z) | AStrings (l : list string)
| ADoubles (l : list Z).

Definition object_of (a : argument) : DataSharePredicatesObject :=
  match a with
  | ANull => new_null | AInt z => new_int z | ALong z => new_long z | ADouble d => new_double d
  | ABool b => new_bool b | AString s => new_string s | AInts l => new_int_vector l
  | ALongs l => new_long_vector l | AStrings l => new_string_vector l
  | ADoubles l => new_double_vector l
  end.

Lemma object_of_local a : a <> AInts [] -> local (object_of a).
Proof. destruct a as [| | | | | |[|]| | |]; done. Qed.

(** ** What the getters find *)

(** The getter of a tag, its result as an argument again. *)
Definition reads (o : DataSharePredicatesObject) : outcome argument :=
  match GetType o with
  | TYPE_NULL | TYPE_OTHER _ => Ok ANull
  | TYPE_INT => v <-- GetInt o; Ok (AInt v)
  | TYPE_LONG => v <-- GetLong o; Ok (ALong v)
  | TYPE_DOUBLE => v <-- GetDouble o; Ok (ADouble v)
  | TYPE_BOOL => v <-- GetBool o; Ok (ABool v)
  | TYPE_STRING => v <-- GetString o; Ok (AString v)
  | TYPE_INT_VECTOR => v <-- GetIntVector o; Ok (AInts v)
  | TYPE_LONG_VECTOR => v <-- GetLongVector o; Ok (ALongs v)
  | TYPE_DOUBLE_VECTOR => v <-- GetDoubleVector o; Ok (ADoubles v)
  | TYPE_STRING_VECTOR => v <-- GetStringVector o; Ok (AStrings v)
  end.

(** The value an argument is read as where it was made, and where it was received. *)
Definition read_local (a : argument) : outcome argument :=
  match a with
  | AInt z => Ok (AInt (s32 z))
  | ALong _ => Err E_INVALID_OBJECT_TYPE
  | AInts _ => Throws
  | a => Ok a
  end.
Definition read_received (a : argument) : outcome argument :=
  match a with
  | AInt _ => Throws
  | ALong _ => Err E_INVALID_OBJECT_TYPE
  | AInts l => Ok (AInts (s32 <$> l))
  | a => Ok a
  end.

Section Layouts.
Context `{ParcelLaws}.

(** C17: The type discipline of a predicate's parameter. The tag always tells what the
    constructor was given, before and after sending. The getter that belongs to
    the tag finds its value but for three tags: a vector of [int] cannot be read
    where it was made, an [int] cannot be read where it was received, a 64-bit
    integer nowhere. A received object can be sent on unless it holds an [int] or
    a vector of [int]: then the marshalling throws. *)
Theorem object_types a p :
  a <> AInts [] -> holds p [] ->
  exists p1 o' p2, Marshalling (object_of a) p = Some p1 /\ Unmarshalling p1 = (o', p2) /\
    holds p2 [] /\ GetType o' = GetType (object_of a) /\
    reads (object_of a) = read_local a /\ reads o' = read_received a /\
    (forall q, Marshalling o' q = None <->
               GetType o' = TYPE_INT \/ GetType o' = TYPE_INT_VECTOR).
Proof.
  intros Ha Hp. pose proof (object_of_local a Ha) as Hl.
  destruct (object_marshals _ _ _ Hl Hp) as (p1 & E1 & Hp1).
  simpl ([] ++ _) in Hp1. rewrite <- (app_nil_r (encoding _)) in Hp1.
  destruct (object_unmarshals _ _ _ Hl Hp1) as (p2 & E2 & Hp2).
  exists p1, (received (object_of a)), p2.
  destruct a as [|z|z|d|b|s|[|z l]|l|l|l]; try done; split_and!; try done;
    intros q; (split; [intros Hq; try done; cbn; auto|intros [Hq|Hq]; done]).
Qed.
End Layouts.

Lemma object_types_witness :
  exists p1 o' p2, Marshalling (object_of (AInt 7)) ([] : list item) = Some p1 /\
    Unmarshalling p1 = (o', p2) /\ holds p2 [] /\ GetType o' = GetType (object_of (AInt 7)) /\
    reads (object_of (AInt 7)) = read_local (AInt 7) /\ reads o' = read_received (AInt 7) /\
    (forall q : list item, Marshalling o' q = None <->
                           GetType o' = TYPE_INT \/ GetType o' = TYPE_INT_VECTOR).
Proof. apply (@object_types parcel_list parcel_list_laws (AInt 7) []); done. Defined.
