(* ===== verification/DataSharePredicates.v ===== *)
(** * Predicates shared between applications

    Models of datashare_predicates_def.h and
    frameworks/native/data_share/common/src/datashare_predicates.cpp: the calls a
    consumer makes are recorded as a list of operations, or the text of a query is
    set, and the object travels to the provider. The methods return [this]; here
    they return the new state. *)
From S2P Require Import Prelude Strings DataShareErrno Parcel DataSharePredicatesObject.

#[local] Open Scope list_scope.

(** ** datashare_predicates_def.h; a number cast to an enumeration need not be the
    code of an enumerator. *)
Inductive ParameterCount :=
| ZERO_COUNT | ONE_COUNT | TWO_COUNT | THREE_COUNT | INVALID_COUNT | OTHER_COUNT (code : Z).

Inductive OperationType :=
| INVALID_OPERATION | EQUAL_TO | NOT_EQUAL_TO | GREATER_THAN | LESS_THAN
| GREATER_THAN_OR_EQUAL_TO | LESS_THAN_OR_EQUAL_TO | AND | OR | IS_NULL | IS_NOT_NULL | IN
| NOT_IN | LIKE | UNLIKE | ORDER_BY_ASC | ORDER_BY_DESC | LIMIT | OFFSET | BEGIN_WARP | END_WARP
| BEGIN_WITH | END_WITH | IN_KEY | DISTINCT | GROUP_BY | INDEXED_BY | CONTAINS | GLOB | BETWEEN
| NOTBETWEEN | KEY_PREFIX | LAST_TYPE | OTHER_OPERATION (code : Z).

Inductive SettingMode := INVALID_MODE | QUERY_LANGUAGE | PREDICATES_METHOD | OTHER_MODE (code : Z).

#[global] Instance SettingMode_eq_dec : EqDecision SettingMode.
Proof. solve_decision. Defined.
#[global] Instance OperationType_eq_dec : EqDecision OperationType.
Proof. solve_decision. Defined.

Definition count_code (c : ParameterCount) : Z :=
  match c with
  | ZERO_COUNT => 0 | ONE_COUNT => 1 | TWO_COUNT => 2 | THREE_COUNT => 3 | INVALID_COUNT => 4
  | OTHER_COUNT code => code
  end.
Definition count_of_code (z : Z) : ParameterCount :=
  match z with
  | 0 => ZERO_COUNT | 1 => ONE_COUNT | 2 => TWO_COUNT | 3 => THREE_COUNT | 4 => INVALID_COUNT
  | _ => OTHER_COUNT z
  end.

Definition operations : list OperationType :=
  [INVALID_OPERATION; EQUAL_TO; NOT_EQUAL_TO; GREATER_THAN; LESS_THAN; GREATER_THAN_OR_EQUAL_TO;
   LESS_THAN_OR_EQUAL_TO; AND; OR; IS_NULL; IS_NOT_NULL; IN; NOT_IN; LIKE; UNLIKE; ORDER_BY_ASC;
   ORDER_BY_DESC; LIMIT; OFFSET; BEGIN_WARP; END_WARP; BEGIN_WITH; END_WITH; IN_KEY; DISTINCT;
   GROUP_BY; INDEXED_BY; CONTAINS; GLOB; BETWEEN; NOTBETWEEN; KEY_PREFIX; LAST_TYPE].

(** The enumerators are numbered from 0 in their order. *)
Definition operation_code (o : OperationType) : Z :=
  match o with
  | OTHER_OPERATION code => code
  | _ => match list_find (fun x => x = o) operations with Some (n, _) => Z.of_nat n | None => 0 end
  end.
Definition operation_of_code (z : Z) : OperationType :=
  if z <? 0 then OTHER_OPERATION z else default (OTHER_OPERATION z) (operations !! Z.to_nat z).

Definition mode_code (m : SettingMode) : Z :=
  match m with
  | INVALID_MODE => 0 | QUERY_LANGUAGE => 1 | PREDICATES_METHOD => 2 | OTHER_MODE code => code
  end.
Definition mode_of_code (z : Z) : SettingMode :=
  match z with 0 => INVALID_MODE | 1 => QUERY_LANGUAGE | 2 => PREDICATES_METHOD | _ => OTHER_MODE z end.

Record OperationItem := mkOperation {
  operation : OperationType;
  para1 : DataSharePredicatesObject;
  para2 : DataSharePredicatesObject;
  para3 : DataSharePredicatesObject;
  parameterCount : ParameterCount;
}.

Record Predicates := mkPredicates { tableName : string; operationList : list OperationItem }.

Record DataSharePredicates := mkDataSharePredicates {
  predicates_ : Predicates;
  whereClause_ : string;
  whereArgs_ : list string;
  order_ : string;
  settingMode_ : SettingMode;
}.

(** ** Constructors

    Neither initialises [settingMode_]: [mode] is what the memory holds. *)
Definition new_DataSharePredicates (mode : SettingMode) : DataSharePredicates :=
  mkDataSharePredicates (mkPredicates "" []) "" [] "" mode.
Definition DataSharePredicates_of (predicates : Predicates) (mode : SettingMode)
    : DataSharePredicates := mkDataSharePredicates predicates "" [] "" mode.

(** ** The list of operations *)
Definition ClearQueryLanguage (d : DataSharePredicates) : DataSharePredicates :=
  mkDataSharePredicates (predicates_ d) "" [] "" (settingMode_ d).
Definition SetSettingMode (d : DataSharePredicates) (mode : SettingMode) : DataSharePredicates :=
  mkDataSharePredicates (predicates_ d) (whereClause_ d) (whereArgs_ d) (order_ d) mode.
Definition GetSettingMode (d : DataSharePredicates) : SettingMode := settingMode_ d.

Definition SetOperationList (d : DataSharePredicates) (operationType : OperationType)
    (para1 para2 para3 : DataSharePredicatesObject) (parameterCount : ParameterCount)
    : DataSharePredicates :=
  let item := mkOperation operationType para1 para2 para3 parameterCount in
  let d :=
    mkDataSharePredicates
      (mkPredicates (tableName (predicates_ d)) (operationList (predicates_ d) ++ [item]))
      (whereClause_ d) (whereArgs_ d) (order_ d) (settingMode_ d) in
  if decide (settingMode_ d <> PREDICATES_METHOD) then
    SetSettingMode (ClearQueryLanguage d) PREDICATES_METHOD
  else d.

(** ** Comparisons; the value is an [int], an [int64_t], a [double], a string or, for
    the first two, a [bool]. *)
Definition EqualTo_int (d : DataSharePredicates) (field : string) (value : Z) :=
  SetOperationList d EQUAL_TO (new_string field) (new_int value) new_null TWO_COUNT.
Definition EqualTo_long (d : DataSharePredicates) (field : string) (value : Z) :=
  SetOperationList d EQUAL_TO (new_string field) (new_long value) new_null TWO_COUNT.
Definition EqualTo_double (d : DataSharePredicates) (field : string) (value : Z) :=
  SetOperationList d EQUAL_TO (new_string field) (new_double value) new_null TWO_COUNT.
Definition EqualTo_string (d : DataSharePredicates) (field value : string) :=
  SetOperationList d EQUAL_TO (new_string field) (new_string value) new_null TWO_COUNT.
Definition EqualTo_bool (d : DataSharePredicates) (field : string) (value : bool) :=
  SetOperationList d EQUAL_TO (new_string field) (new_bool value) new_null TWO_COUNT.

Definition NotEqualTo_int (d : DataSharePredicates) (field : string) (value : Z) :=
  SetOperationList d NOT_EQUAL_TO (new_string field) (new_int value) new_null TWO_COUNT.
Definition NotEqualTo_long (d : DataSharePredicates) (field : string) (value : Z) :=
  SetOperationList d NOT_EQUAL_TO (new_string field) (new_long value) new_null TWO_COUNT.
Definition NotEqualTo_double (d : DataSharePredicates) (field : string) (value : Z) :=
  SetOperationList d NOT_EQUAL_TO (new_string field) (new_double value) new_null TWO_COUNT.
Definition NotEqualTo_string (d : DataSharePredicates) (field value : string) :=
  SetOperationList d NOT_EQUAL_TO (new_string field) (new_string value) new_null TWO_COUNT.
Definition NotEqualTo_bool (d : DataSharePredicates) (field : string) (value : bool) :=
  SetOperationList d NOT_EQUAL_TO (new_string field) (new_bool value) new_null TWO_COUNT.

Definition GreaterThan_int (d : DataSharePredicates) (field : string) (value : Z) :=
  SetOperationList d GREATER_THAN (new_string field) (new_int value) new_null TWO_COUNT.
Definition GreaterThan_long (d : DataSharePredicates) (field : string) (value : Z) :=
  SetOperationList d GREATER_THAN (new_string field) (new_long value) new_null TWO_COUNT.
Definition GreaterThan_double (d : DataSharePredicates) (field : string) (value : Z) :=
  SetOperationList d GREATER_THAN (new_string field) (new_double value) new_null TWO_COUNT.
Definition GreaterThan_string (d : DataSharePredicates) (field value : string) :=
  SetOperationList d GREATER_THAN (new_string field) (new_string value) new_null TWO_COUNT.

Definition LessThan_int (d : DataSharePredicates) (field : string) (value : Z) :=
  SetOperationList d LESS_THAN (new_string field) (new_int value) new_null TWO_COUNT.
Definition LessThan_long (d : DataSharePredicates) (field : string) (value : Z) :=
  SetOperationList d LESS_THAN (new_string field) (new_long value) new_null TWO_COUNT.
Definition LessThan_double (d : DataSharePredicates) (field : string) (value : Z) :=
  SetOperationList d LESS_THAN (new_string field) (new_double value) new_null TWO_COUNT.
Definition LessThan_string (d : DataSharePredicates) (field value : string) :=
  SetOperationList d LESS_THAN (new_string field) (new_string value) new_null TWO_COUNT.

Definition GreaterThanOrEqualTo_int (d : DataSharePredicates) (field : string) (value : Z) :=
  SetOperationList d GREATER_THAN_OR_EQUAL_TO (new_string field) (new_int value) new_null TWO_COUNT.
Definition GreaterThanOrEqualTo_long (d : DataSharePredicates) (field : string) (value : Z) :=
  SetOperationList d GREATER_THAN_OR_EQUAL_TO (new_string field) (new_long value) new_null TWO_COUNT.
Definition GreaterThanOrEqualTo_double (d : DataSharePredicates) (field : string) (value : Z) :=
  SetOperationList d GREATER_THAN_OR_EQUAL_TO (new_string field) (new_double value) new_null
    TWO_COUNT.
Definition GreaterThanOrEqualTo_string (d : DataSharePredicates) (field value : string) :=
  SetOperationList d GREATER_THAN_OR_EQUAL_TO (new_string field) (new_string value) new_null
    TWO_COUNT.

(** The overload for [int] records the opposite comparison. *)
Definition LessThanOrEqualTo_int (d : DataSharePredicates) (field : string) (value : Z) :=
  SetOperationList d GREATER_THAN_OR_EQUAL_TO (new_string field) (new_int value) new_null TWO_COUNT.
Definition LessThanOrEqualTo_long (d : DataSharePredicates) (field : string) (value : Z) :=
  SetOperationList d LESS_THAN_OR_EQUAL_TO (new_string field) (new_long value) new_null TWO_COUNT.
Definition LessThanOrEqualTo_double (d : DataSharePredicates) (field : string) (value : Z) :=
  SetOperationList d LESS_THAN_OR_EQUAL_TO (new_string field) (new_double value) new_null TWO_COUNT.
Definition LessThanOrEqualTo_string (d : DataSharePredicates) (field value : string) :=
  SetOperationList d LESS_THAN_OR_EQUAL_TO (new_string field) (new_string value) new_null TWO_COUNT.

(** ** Membership; the log line of the overload for [int] reads the first element
    with [at], which throws when there is none. *)
Definition In_int (d : DataSharePredicates) (field : string) (value : list Z)
    : outcome DataSharePredicates :=
  match value with
  | [] => Throws
  | _ => Ok (SetOperationList d IN (new_string field) (new_int_vector value) new_null TWO_COUNT)
  end.
Definition In_long (d : DataSharePredicates) (field : string) (value : list Z) :=
  SetOperationList d IN (new_string field) (new_long_vector value) new_null TWO_COUNT.
Definition In_double (d : DataSharePredicates) (field : string) (value : list Z) :=
  SetOperationList d IN (new_string field) (new_double_vector value) new_null TWO_COUNT.
Definition In_string (d : DataSharePredicates) (field : string) (value : list string) :=
  SetOperationList d IN (new_string field) (new_string_vector value) new_null TWO_COUNT.

Definition NotIn_int (d : DataSharePredicates) (field : string) (value : list Z)
    : outcome DataSharePredicates :=
  match value with
  | [] => Throws
  | _ => Ok (SetOperationList d NOT_IN (new_string field) (new_int_vector value) new_null TWO_COUNT)
  end.
Definition NotIn_long (d : DataSharePredicates) (field : string) (value : list Z) :=
  SetOperationList d NOT_IN (new_string field) (new_long_vector value) new_null TWO_COUNT.
Definition NotIn_double (d : DataSharePredicates) (field : string) (value : list Z) :=
  SetOperationList d NOT_IN (new_string field) (new_double_vector value) new_null TWO_COUNT.
Definition NotIn_string (d : DataSharePredicates) (field : string) (value : list string) :=
  SetOperationList d NOT_IN (new_string field) (new_string_vector value) new_null TWO_COUNT.

(** ** Structure and texts *)
Definition BeginWrap (d : DataSharePredicates) :=
  SetOperationList d BEGIN_WARP new_null new_null new_null ZERO_COUNT.
Definition EndWrap (d : DataSharePredicates) :=
  SetOperationList d END_WARP new_null new_null new_null ZERO_COUNT.
Definition Or (d : DataSharePredicates) :=
  SetOperationList d OR new_null new_null new_null ZERO_COUNT.
Definition And (d : DataSharePredicates) :=
  SetOperationList d AND new_null new_null new_null ZERO_COUNT.

Definition Contains (d : DataSharePredicates) (field value : string) :=
  SetOperationList d CONTAINS (new_string field) (new_string value) new_null TWO_COUNT.
Definition BeginsWith (d : DataSharePredicates) (field value : string) :=
  SetOperationList d BEGIN_WITH (new_string field) (new_string value) new_null TWO_COUNT.
Definition EndsWith (d : DataSharePredicates) (field value : string) :=
  SetOperationList d END_WITH (new_string field) (new_string value) new_null TWO_COUNT.
Definition IsNull (d : DataSharePredicates) (field : string) :=
  SetOperationList d IS_NULL (new_string field) new_null new_null ONE_COUNT.
Definition IsNotNull (d : DataSharePredicates) (field : string) :=
  SetOperationList d IS_NOT_NULL (new_string field) new_null new_null ONE_COUNT.
Definition Like (d : DataSharePredicates) (field value : string) :=
  SetOperationList d LIKE (new_string field) (new_string value) new_null TWO_COUNT.
Definition Unlike (d : DataSharePredicates) (field value : string) :=
  SetOperationList d UNLIKE (new_string field) (new_string value) new_null TWO_COUNT.
Definition Glob (d : DataSharePredicates) (field value : string) :=
  SetOperationList d GLOB (new_string field) (new_string value) new_null TWO_COUNT.
Definition Between (d : DataSharePredicates) (field low high : string) :=
  SetOperationList d BETWEEN (new_string field) (new_string low) (new_string high) THREE_COUNT.
Definition NotBetween (d : DataSharePredicates) (field low high : string) :=
  SetOperationList d NOTBETWEEN (new_string field) (new_string low) (new_string high) THREE_COUNT.
Definition OrderByAsc (d : DataSharePredicates) (field : string) :=
  SetOperationList d ORDER_BY_ASC (new_string field) new_null new_null ONE_COUNT.
Definition OrderByDesc (d : DataSharePredicates) (field : string) :=
  SetOperationList d ORDER_BY_DESC (new_string field) new_null new_null ONE_COUNT.
Definition Distinct (d : DataSharePredicates) :=
  SetOperationList d DISTINCT new_null new_null new_null ZERO_COUNT.
Definition Limit (d : DataSharePredicates) (number offset : Z) :=
  SetOperationList d LIMIT (new_int number) (new_int offset) new_null TWO_COUNT.
Definition IndexedBy (d : DataSharePredicates) (indexName : string) :=
  SetOperationList d INDEXED_BY (new_string indexName) new_null new_null ONE_COUNT.
Definition KeyPrefix (d : DataSharePredicates) (prefix : string) :=
  SetOperationList d KEY_PREFIX (new_string prefix) new_null new_null ONE_COUNT.

(** The log lines of these two read the first element, too. *)
Definition GroupBy (d : DataSharePredicates) (fields : list string) : outcome DataSharePredicates :=
  match fields with
  | [] => Throws
  | _ => Ok (SetOperationList d GROUP_BY (new_string_vector fields) new_null new_null ONE_COUNT)
  end.
Definition InKeys (d : DataSharePredicates) (keys : list string) : outcome DataSharePredicates :=
  match keys with
  | [] => Throws
  | _ => Ok (SetOperationList d IN_KEY (new_string_vector keys) new_null new_null ONE_COUNT)
  end.

(** ** Accessors *)
Definition GetTableName (d : DataSharePredicates) : string := tableName (predicates_ d).
Definition GetOperationList (d : DataSharePredicates) : list OperationItem :=
  operationList (predicates_ d).
Definition GetWhereClause (d : DataSharePredicates) : string := whereClause_ d.
Definition GetWhereArgs (d : DataSharePredicates) : list string := whereArgs_ d.
Definition GetOrder (d : DataSharePredicates) : string := order_ d.

(** The setters: the new state and the code returned. *)
Definition SetWhereClause (d : DataSharePredicates) (whereClause : string)
    : Z * DataSharePredicates :=
  if bool_decide (settingMode_ d <> PREDICATES_METHOD) && negb (empty whereClause) then
    (E_OK, mkDataSharePredicates (predicates_ d) whereClause (whereArgs_ d) (order_ d)
             QUERY_LANGUAGE)
  else (E_ERROR, d).

Definition SetWhereArgs (d : DataSharePredicates) (whereArgs : list string)
    : Z * DataSharePredicates :=
  if bool_decide (settingMode_ d <> PREDICATES_METHOD) && bool_decide (whereArgs <> []) then
    (E_OK, mkDataSharePredicates (predicates_ d) (whereClause_ d) whereArgs (order_ d)
             QUERY_LANGUAGE)
  else (E_ERROR, d).

Definition SetOrder (d : DataSharePredicates) (order : string) : Z * DataSharePredicates :=
  if bool_decide (settingMode_ d <> PREDICATES_METHOD) && negb (empty order) then
    (E_OK, mkDataSharePredicates (predicates_ d) (whereClause_ d) (whereArgs_ d) order
             QUERY_LANGUAGE)
  else (E_ERROR, d).

(** ** Marshalling *)
Section Marshalling.
Context `{Parcel}.

Fixpoint Marshalling_loop (items : list OperationItem) (p : parcel) : option parcel :=
  match items with
  | [] => Some p
  | it :: items =>
      let p := WriteInt64 (operation_code (operation it)) p in
      p ← WriteParcelable (DataSharePredicatesObject.Marshalling (para1 it)) p;
      p ← WriteParcelable (DataSharePredicatesObject.Marshalling (para2 it)) p;
      p ← WriteParcelable (DataSharePredicatesObject.Marshalling (para3 it)) p;
      Marshalling_loop items (WriteInt64 (count_code (parameterCount it)) p)
  end.

Definition Marshalling (d : DataSharePredicates) (p : parcel) : option parcel :=
  let items := operationList (predicates_ d) in
  p ← Marshalling_loop items (WriteInt32 (s32 (Z.of_nat (length items))) p);
  let p := WriteString (whereClause_ d) p in
  let p := WriteStringVector (whereArgs_ d) p in
  let p := WriteString (order_ d) p in
  Some (WriteInt64 (mode_code (settingMode_ d)) p).

(** [None] when a null pointer from [ReadParcelable] is dereferenced. *)
Fixpoint Unmarshalling_loop (n : nat) (items : list OperationItem) (p : parcel)
    : option (list OperationItem * parcel) :=
  match n with
  | O => Some (items, p)
  | S n =>
      let '(code, p) := ReadInt64 p in
      let '(parameter1, p) := ReadParcelable DataSharePredicatesObject.Unmarshalling p in
      para1 ← parameter1;
      let '(parameter2, p) := ReadParcelable DataSharePredicatesObject.Unmarshalling p in
      para2 ← parameter2;
      let '(parameter3, p) := ReadParcelable DataSharePredicatesObject.Unmarshalling p in
      para3 ← parameter3;
      let '(count, p) := ReadInt64 p in
      let item :=
        mkOperation (operation_of_code code) para1 para2 para3 (count_of_code count) in
      Unmarshalling_loop n (items ++ [item]) p
  end.

(** [mode] is what the memory of the new object holds. *)
Definition Unmarshalling (mode : SettingMode) (p : parcel)
    : option (DataSharePredicates * parcel) :=
  let '(listSize, p) := ReadInt32 p in
  '(items, p) ← Unmarshalling_loop (Z.to_nat listSize) [] p;
  let '(whereClause, p) := ReadString p in
  let '(whereArgs, p) := ReadStringVector p in
  let '(order, p) := ReadString p in
  let '(settingMode, p) := ReadInt64 p in
  let d := DataSharePredicates_of (mkPredicates "" items) mode in
  let '(_, d) := SetWhereClause d whereClause in
  let '(_, d) := SetWhereArgs d whereArgs in
  let '(_, d) := SetOrder d order in
  Some (SetSettingMode d (mode_of_code settingMode), p).
End Marshalling.

(** * Correctness of the shared predicates

    The calls of a consumer as data, the invariant that keeps the two ways of
    describing a query apart, and what the provider receives. *)

(** ** Calls *)
Inductive scalar := SInt (z : Z) | SLong (z : Z) | SDouble (bits : Z) | SString (s : string).
Inductive vec := VInts (l : list Z) | VLongs (l : list Z) | VDoubles (l : list Z)
  | VStrings (l : list string).
Inductive comparison_op := CEq | CNe | CGt | CLt | CGe | CLe.
Inductive text_op := TContains | TBeginsWith | TEndsWith | TLike | TUnlike | TGlob.

Inductive share_call :=
| CallCompare (c : comparison_op) (field : string) (v : scalar)
| CallBool (positive : bool) (field : string) (b : bool)
| CallIn (positive : bool) (field : string) (v : vec)
| CallText (t : text_op) (field value : string)
| CallNull (positive : bool) (field : string)
| CallBetween (positive : bool) (field low high : string)
| CallBeginWrap | CallEndWrap | CallOr | CallAnd | CallDistinct
| CallOrderBy (asc : bool) (field : string)
| CallLimit (number offset : Z)
| CallGroupBy (fields : list string)
| CallIndexedBy (name : string)
| CallKeyPrefix (prefix : string)
| CallInKeys (keys : list string)
| CallSetWhereClause (text : string)
| CallSetWhereArgs (args : list string)
| CallSetOrder (text : string).

Definition run_compare (c : comparison_op) (v : scalar) (field : string) (d : DataSharePredicates)
    : DataSharePredicates :=
  match c, v with
  | CEq, SInt z => EqualTo_int d field z
  | CEq, SLong z => EqualTo_long d field z
  | CEq, SDouble x => EqualTo_double d field x
  | CEq, SString s => EqualTo_string d field s
  | CNe, SInt z => NotEqualTo_int d field z
  | CNe, SLong z => NotEqualTo_long d field z
  | CNe, SDouble x => NotEqualTo_double d field x
  | CNe, SString s => NotEqualTo_string d field s
  | CGt, SInt z => GreaterThan_int d field z
  | CGt, SLong z => GreaterThan_long d field z
  | CGt, SDouble x => GreaterThan_double d field x
  | CGt, SString s => GreaterThan_string d field s
  | CLt, SInt z => LessThan_int d field z
  | CLt, SLong z => LessThan_long d field z
  | CLt, SDouble x => LessThan_double d field x
  | CLt, SString s => LessThan_string d field s
  | CGe, SInt z => GreaterThanOrEqualTo_int d field z
  | CGe, SLong z => GreaterThanOrEqualTo_long d field z
  | CGe, SDouble x => GreaterThanOrEqualTo_double d field x
  | CGe, SString s => GreaterThanOrEqualTo_string d field s
  | CLe, SInt z => LessThanOrEqualTo_int d field z
  | CLe, SLong z => LessThanOrEqualTo_long d field z
  | CLe, SDouble x => LessThanOrEqualTo_double d field x
  | CLe, SString s => LessThanOrEqualTo_string d field s
  end.

Definition run_text (t : text_op) : DataSharePredicates -> string -> string -> DataSharePredicates :=
  match t with
  | TContains => Contains | TBeginsWith => BeginsWith | TEndsWith => EndsWith | TLike => Like
  | TUnlike => Unlike | TGlob => Glob
  end.

Definition run_call (c : share_call) (d : DataSharePredicates) : outcome DataSharePredicates :=
  match c with
  | CallCompare c field v => Ok (run_compare c v field d)
  | CallBool true field b => Ok (EqualTo_bool d field b)
  | CallBool false field b => Ok (NotEqualTo_bool d field b)
  | CallIn true field (VInts l) => In_int d field l
  | CallIn true field (VLongs l) => Ok (In_long d field l)
  | CallIn true field (VDoubles l) => Ok (In_double d field l)
  | CallIn true field (VStrings l) => Ok (In_string d field l)
  | CallIn false field (VInts l) => NotIn_int d field l
  | CallIn false field (VLongs l) => Ok (NotIn_long d field l)
  | CallIn false field (VDoubles l) => Ok (NotIn_double d field l)
  | CallIn false field (VStrings l) => Ok (NotIn_string d field l)
  | CallText t field value => Ok (run_text t d field value)
  | CallNull true field => Ok (IsNull d field)
  | CallNull false field => Ok (IsNotNull d field)
  | CallBetween true field low high => Ok (Between d field low high)
  | CallBetween false field low high => Ok (NotBetween d field low high)
  | CallBeginWrap => Ok (BeginWrap d)
  | CallEndWrap => Ok (EndWrap d)
  | CallOr => Ok (Or d)
  | CallAnd => Ok (And d)
  | CallDistinct => Ok (Distinct d)
  | CallOrderBy true field => Ok (OrderByAsc d field)
  | CallOrderBy false field => Ok (OrderByDesc d field)
  | CallLimit number offset => Ok (Limit d number offset)
  | CallGroupBy fields => GroupBy d fields
  | CallIndexedBy name => Ok (IndexedBy d name)
  | CallKeyPrefix prefix => Ok (KeyPrefix d prefix)
  | CallInKeys keys => InKeys d keys
  | CallSetWhereClause text => Ok (SetWhereClause d text).2
  | CallSetWhereArgs args => Ok (SetWhereArgs d args).2
  | CallSetOrder text => Ok (SetOrder d text).2
  end.

Fixpoint run_calls (cs : list share_call) (d : DataSharePredicates) : outcome DataSharePredicates :=
  match cs with [] => Ok d | c :: cs => d <-- run_call c d; run_calls cs d end.

(** ** What a call records *)
Definition scalar_object (v : scalar) : DataSharePredicatesObject :=
  match v with
  | SInt z => new_int z | SLong z => new_long z | SDouble x => new_double x
  | SString s => new_string s
  end.
Definition vec_object (v : vec) : DataSharePredicatesObject :=
  match v with
  | VInts l => new_int_vector l | VLongs l => new_long_vector l
  | VDoubles l => new_double_vector l | VStrings l => new_string_vector l
  end.

Definition compare_operation (c : comparison_op) (v : scalar) : OperationType :=
  match c, v with
  | CEq, _ => EQUAL_TO | CNe, _ => NOT_EQUAL_TO | CGt, _ => GREATER_THAN | CLt, _ => LESS_THAN
  | CGe, _ | CLe, SInt _ => GREATER_THAN_OR_EQUAL_TO | CLe, _ => LESS_THAN_OR_EQUAL_TO
  end.
Definition text_operation (t : text_op) : OperationType :=
  match t with
  | TContains => CONTAINS | TBeginsWith => BEGIN_WITH | TEndsWith => END_WITH | TLike => LIKE
  | TUnlike => UNLIKE | TGlob => GLOB
  end.

(** [None] for the calls that set a text. *)
Definition item_of (c : share_call) : option OperationItem :=
  match c with
  | CallCompare c field v =>
      Some (mkOperation (compare_operation c v) (new_string field) (scalar_object v) new_null
              TWO_COUNT)
  | CallBool pos field b =>
      Some (mkOperation (if pos then EQUAL_TO else NOT_EQUAL_TO) (new_string field) (new_bool b)
              new_null TWO_COUNT)
  | CallIn pos field v =>
      Some (mkOperation (if pos then IN else NOT_IN) (new_string field) (vec_object v) new_null
              TWO_COUNT)
  | CallText t field value =>
      Some (mkOperation (text_operation t) (new_string field) (new_string value) new_null TWO_COUNT)
  | CallNull pos field =>
      Some (mkOperation (if pos then IS_NULL else IS_NOT_NULL) (new_string field) new_null new_null
              ONE_COUNT)
  | CallBetween pos field low high =>
      Some (mkOperation (if pos then BETWEEN else NOTBETWEEN) (new_string field) (new_string low)
              (new_string high) THREE_COUNT)
  | CallBeginWrap => Some (mkOperation BEGIN_WARP new_null new_null new_null ZERO_COUNT)
  | CallEndWrap => Some (mkOperation END_WARP new_null new_null new_null ZERO_COUNT)
  | CallOr => Some (mkOperation OR new_null new_null new_null ZERO_COUNT)
  | CallAnd => Some (mkOperation AND new_null new_null new_null ZERO_COUNT)
  | CallDistinct => Some (mkOperation DISTINCT new_null new_null new_null ZERO_COUNT)
  | CallOrderBy asc field =>
      Some (mkOperation (if asc then ORDER_BY_ASC else ORDER_BY_DESC) (new_string field) new_null
              new_null ONE_COUNT)
  | CallLimit number offset =>
      Some (mkOperation LIMIT (new_int number) (new_int offset) new_null TWO_COUNT)
  | CallGroupBy fields =>
      Some (mkOperation GROUP_BY (new_string_vector fields) new_null new_null ONE_COUNT)
  | CallIndexedBy name => Some (mkOperation INDEXED_BY (new_string name) new_null new_null ONE_COUNT)
  | CallKeyPrefix prefix =>
      Some (mkOperation KEY_PREFIX (new_string prefix) new_null new_null ONE_COUNT)
  | CallInKeys keys => Some (mkOperation IN_KEY (new_string_vector keys) new_null new_null ONE_COUNT)
  | CallSetWhereClause _ | CallSetWhereArgs _ | CallSetOrder _ => None
  end.

(** The calls whose log line reads the first element of an empty vector. *)
Definition logs_nothing (c : share_call) : bool :=
  match c with
  | CallIn _ _ (VInts []) | CallGroupBy [] | CallInKeys [] => true
  | _ => false
  end.

Definition record (i : OperationItem) (d : DataSharePredicates) : DataSharePredicates :=
  SetOperationList d (operation i) (para1 i) (para2 i) (para3 i) (parameterCount i).

Lemma run_call_item c d i :
  item_of c = Some i -> run_call c d = if logs_nothing c then Throws else Ok (record i d).
Proof.
  destruct c as [c field v|b field v|b field v|t field value|b field|b field low high| | | | |
                |b field|number offset|fields|name|prefix|keys|text|args|text];
    intros E; simplify_eq/=; try done.
  - by destruct c, v.
  - by destruct b.
  - destruct b, v as [[|]|l|l|l]; done.
  - by destruct t.
  - by destruct b.
  - by destruct b.
  - by destruct b.
  - by destruct fields.
  - by destruct keys.
Qed.

(** ** Invariant: a query is described by operations or by text, never by both *)
Definition no_text (d : DataSharePredicates) : Prop :=
  whereClause_ d = "" /\ whereArgs_ d = [] /\ order_ d = "".
Definition item_local (i : OperationItem) : Prop :=
  local (para1 i) /\ local (para2 i) /\ local (para3 i) /\
  operation_of_code (operation_code (operation i)) = operation i /\
  count_of_code (count_code (parameterCount i)) = parameterCount i.

Record predicates_inv (d : DataSharePredicates) : Prop := {
  inv_method : settingMode_ d = PREDICATES_METHOD -> no_text d;
  inv_operations : operationList (predicates_ d) <> [] -> settingMode_ d = PREDICATES_METHOD;
  inv_local : Forall item_local (operationList (predicates_ d));
  inv_mode : mode_of_code (mode_code (settingMode_ d)) = settingMode_ d;
}.

Lemma mode_code_of_code z : mode_of_code (mode_code (mode_of_code z)) = mode_of_code z.
Proof. destruct z as [|[[]|[]|]|]; done. Qed.

Lemma new_inv z : predicates_inv (new_DataSharePredicates (mode_of_code z)).
Proof. split; try done. apply mode_code_of_code. Qed.

Lemma item_of_local c i : item_of c = Some i -> logs_nothing c = false -> item_local i.
Proof.
  destruct c as [c field v|b field v|b field v|t field value|b field|b field low high| | | | |
                |b field|number offset|fields|name|prefix|keys|text|args|text];
    intros E Hl; simplify_eq/=; try (by destruct b); try done.
  - by destruct c, v.
  - by destruct b, v as [[|]| | |].
  - by destruct t.
Qed.

(** What recording an operation leaves. *)
Lemma record_state i d :
  predicates_inv d ->
  record i d =
    mkDataSharePredicates
      (mkPredicates (tableName (predicates_ d)) (operationList (predicates_ d) ++ [i])) "" [] ""
      PREDICATES_METHOD.
Proof.
  intros [Hm _ _ _]. destruct d as [[t l] w a o m], i. unfold record, SetOperationList. simpl in *.
  case_decide; [done|]. destruct m; try done. by destruct Hm as (?&?&?); simplify_eq/=.
Qed.

Lemma record_inv i d : predicates_inv d -> item_local i -> predicates_inv (record i d).
Proof.
  intros Hd Hi. rewrite record_state by done. split; simpl; try done.
  apply Forall_app. split; [apply Hd|by constructor].
Qed.

Lemma set_text_inv d c :
  item_of c = None -> predicates_inv d ->
  exists d', run_call c d = Ok d' /\ predicates_inv d' /\ predicates_ d' = predicates_ d.
Proof.
  intros Hc Hd.
  assert (Hset : forall b w a o,
    let d' := mkDataSharePredicates (predicates_ d) w a o QUERY_LANGUAGE in
    let r := if bool_decide (settingMode_ d <> PREDICATES_METHOD) && b then (E_OK, d')
             else (E_ERROR, d) in
    predicates_inv r.2 /\ predicates_ r.2 = predicates_ d).
  { intros b w a o. destruct Hd as [Hm Ho Hl Hz].
    destruct (bool_decide_reflect (settingMode_ d <> PREDICATES_METHOD)) as [Hn|Hn], b; simpl;
      (split; [|done]); split; simpl; try done. intros Hne. by specialize (Ho Hne). }
  destruct c; try done; simpl; eexists; (split; [done|]); apply Hset.
Qed.

Lemma run_call_inv c d d' : predicates_inv d -> run_call c d = Ok d' -> predicates_inv d'.
Proof.
  intros Hd E. destruct (item_of c) as [i|] eqn:Ei.
  - rewrite (run_call_item _ _ _ Ei) in E. destruct (logs_nothing c) eqn:El; [done|].
    injection E as <-. apply record_inv; [done|]. by eapply item_of_local.
  - destruct (set_text_inv d c Ei Hd) as (d1 & E1 & H1 & _). rewrite E in E1. by injection E1 as <-.
Qed.

Lemma run_calls_inv cs : forall d d', predicates_inv d -> run_calls cs d = Ok d' -> predicates_inv d'.
Proof.
  induction cs as [|c cs IH]; intros d d' Hd E; simplify_eq/=; [done|].
  destruct (run_call c d) as [d1| | |] eqn:E1; simplify_eq/=. eapply IH; [|done].
  by eapply run_call_inv.
Qed.

(** ** The journey to the provider *)
Definition received_item (i : OperationItem) : OperationItem :=
  mkOperation (operation i) (received (para1 i)) (received (para2 i)) (received (para3 i))
    (parameterCount i).

(** What the provider has after [Unmarshalling] into memory that holds [mode]: the
    texts are lost when the memory happens to say that operations are in use. *)
Definition received_predicates (mode : SettingMode) (d : DataSharePredicates)
    : DataSharePredicates :=
  let lost := bool_decide (mode = PREDICATES_METHOD) in
  mkDataSharePredicates (mkPredicates "" (received_item <$> operationList (predicates_ d)))
    (if lost then "" else whereClause_ d) (if lost then [] else whereArgs_ d)
    (if lost then "" else order_ d) (settingMode_ d).

Section RoundTrip.
Context `{ParcelLaws}.

Definition encoding_item (i : OperationItem) : list item :=
  [IInt64 (operation_code (operation i))] ++ mark ++ encoding (para1 i) ++ mark ++
    encoding (para2 i) ++ mark ++ encoding (para3 i) ++ [IInt64 (count_code (parameterCount i))].

Lemma write_object o p l :
  local o -> holds p l ->
  exists p', WriteParcelable (DataSharePredicatesObject.Marshalling o) p = Some p' /\
    holds p' (l ++ mark ++ encoding o).
Proof.
  intros Ho. apply WriteParcelable_holds. intros. by apply DataSharePredicatesObject.object_marshals.
Qed.

Lemma read_object o p l :
  local o -> holds p (mark ++ encoding o ++ l) ->
  exists p', ReadParcelable DataSharePredicatesObject.Unmarshalling p = (Some (received o), p') /\
    holds p' l.
Proof.
  intros Ho. apply ReadParcelable_holds. intros. by apply DataSharePredicatesObject.object_unmarshals.
Qed.

Lemma Marshalling_loop_holds items p l :
  Forall item_local items -> holds p l ->
  exists p', Marshalling_loop items p = Some p' /\ holds p' (l ++ (items ≫= encoding_item)).
Proof.
  intros Hi. revert p l. induction Hi as [|i items (H1 & H2 & H3 & _) _ IH]; intros p l Hp.
  { exists p. by rewrite app_nil_r. }
  apply (WriteInt64_holds _ _ (operation_code (operation i))) in Hp.
  apply (write_object _ _ _ H1) in Hp as (p1 & E1 & Hp).
  apply (write_object _ _ _ H2) in Hp as (p2 & E2 & Hp).
  apply (write_object _ _ _ H3) in Hp as (p3 & E3 & Hp).
  apply (WriteInt64_holds _ _ (count_code (parameterCount i))) in Hp.
  destruct (IH _ _ Hp) as (p4 & E & Hp4). exists p4.
  split; [simpl; by rewrite E1; simpl; rewrite E2; simpl; rewrite E3|].
  rewrite bind_cons. unfold encoding_item at 1. rewrite <- !app_assoc in *. exact Hp4.
Qed.

Lemma Unmarshalling_loop_holds items acc p l :
  Forall item_local items -> holds p ((items ≫= encoding_item) ++ l) ->
  exists p', Unmarshalling_loop (length items) acc p = Some (acc ++ (received_item <$> items), p') /\
    holds p' l.
Proof.
  intros Hi. revert acc p.
  induction Hi as [|i items (H1 & H2 & H3 & Ho & Hc) _ IH]; intros acc p Hp.
  { exists p. by rewrite app_nil_r. }
  rewrite bind_cons in Hp. unfold encoding_item in Hp at 1. rewrite <- !app_assoc in Hp.
  apply ReadInt64_holds in Hp as (p0 & E0 & Hp). simpl. rewrite E0.
  apply (read_object _ _ _ H1) in Hp as (p1 & -> & Hp). simpl.
  apply (read_object _ _ _ H2) in Hp as (p2 & -> & Hp). simpl.
  apply (read_object _ _ _ H3) in Hp as (p3 & -> & Hp). simpl.
  apply ReadInt64_holds in Hp as (p4 & E4 & Hp). rewrite E4.
  rewrite Ho, Hc. destruct (IH (acc ++ [received_item i]) _ Hp) as (p5 & E5 & Hp5).
  exists p5. unfold received_item in E5 at 1. rewrite E5. by rewrite <- app_assoc.
Qed.

Lemma set_texts_fresh items mode w a o m :
  (let d := DataSharePredicates_of (mkPredicates "" items) mode in
   let '(_, d) := SetWhereClause d w in
   let '(_, d) := SetWhereArgs d a in
   let '(_, d) := SetOrder d o in
   SetSettingMode d m) =
  let lost := bool_decide (mode = PREDICATES_METHOD) in
  mkDataSharePredicates (mkPredicates "" items) (if lost then "" else w) (if lost then [] else a)
    (if lost then "" else o) m.
Proof.
  unfold SetWhereClause, SetWhereArgs, SetOrder, DataSharePredicates_of. simpl.
  destruct mode, w, a, o; done.
Qed.

Definition encoding_predicates (d : DataSharePredicates) : list item :=
  [IInt32 (Z.of_nat (length (operationList (predicates_ d))))] ++
  (operationList (predicates_ d) ≫= encoding_item) ++
  [IString (whereClause_ d); IStringVector (whereArgs_ d); IString (order_ d);
   IInt64 (mode_code (settingMode_ d))].

Lemma predicates_write d :
  predicates_inv d -> Z.of_nat (length (operationList (predicates_ d))) < 2147483648 ->
  marshals (Marshalling d) (encoding_predicates d).
Proof.
  intros [_ _ Hl Hz] Hlen p l Hp. unfold Marshalling. rewrite s32_small by lia.
  apply (WriteInt32_holds _ _ (Z.of_nat (length (operationList (predicates_ d))))) in Hp.
  apply (Marshalling_loop_holds _ _ _ Hl) in Hp as (p1 & -> & Hp). simpl.
  apply (WriteString_holds _ _ (whereClause_ d)), (WriteStringVector_holds _ _ (whereArgs_ d)),
    (WriteString_holds _ _ (order_ d)), (WriteInt64_holds _ _ (mode_code (settingMode_ d))) in Hp.
  eexists. split; [done|]. by rewrite <- !app_assoc in Hp.
Qed.

Lemma predicates_read d mode :
  predicates_inv d -> unmarshals (Unmarshalling mode) (encoding_predicates d) (received_predicates mode d).
Proof.
  intros [_ _ Hl Hz] p l Hp. unfold Unmarshalling, encoding_predicates in *.
  rewrite <- !app_assoc in Hp. simpl in Hp. apply ReadInt32_holds in Hp as (q1 & E1 & Hp).
  apply (Unmarshalling_loop_holds _ [] _ _ Hl) in Hp as (q2 & E2 & Hp).
  apply ReadString_holds in Hp as (q3 & E3 & Hp). apply ReadStringVector_holds in Hp as (q4 & E4 & Hp).
  apply ReadString_holds in Hp as (q5 & E5 & Hp). apply ReadInt64_holds in Hp as (q6 & E6 & Hp).
  exists q6. split; [|done]. rewrite E1, Nat2Z.id, E2. simpl.
  rewrite E3, E4, E5, E6, Hz. unfold received_predicates. rewrite <- set_texts_fresh.
  cbv zeta. destruct (SetWhereClause _ _) as [c1 d1]. destruct (SetWhereArgs d1 _) as [c2 d2].
  by destruct (SetOrder d2 _).
Qed.

Lemma share_transfer d mode p :
  predicates_inv d -> Z.of_nat (length (operationList (predicates_ d))) < 2147483648 ->
  holds p [] ->
  exists p1 p2, Marshalling d p = Some p1 /\
    Unmarshalling mode p1 = Some (received_predicates mode d, p2) /\ holds p2 [].
Proof.
  intros Hd Hlen. apply (transfer _ _ (encoding_predicates d)); [by apply predicates_write|by apply predicates_read].
Qed.

(** C16: Whatever calls a consumer makes on new predicates, the object can be sent,
    the provider's [Unmarshalling] consumes exactly what was written, and it has
    the consumer's operations in their order with their parameters as received,
    the consumer's mode, and its query texts, unless the memory of the provider's
    new object held the code of the operations mode: then the texts are lost.
    Operations and texts never come together. *)
Theorem shared_predicates_roundtrip z0 z1 cs d p :
  run_calls cs (new_DataSharePredicates (mode_of_code z0)) = Ok d ->
  Z.of_nat (length (GetOperationList d)) < 2147483648 -> holds p [] ->
  exists p1 p2 d', Marshalling d p = Some p1 /\
    Unmarshalling (mode_of_code z1) p1 = Some (d', p2) /\ holds p2 [] /\
    GetOperationList d' = received_item <$> GetOperationList d /\
    GetSettingMode d' = GetSettingMode d /\
    (if decide (z1 = mode_code PREDICATES_METHOD) then no_text d'
     else (GetWhereClause d', GetWhereArgs d', GetOrder d') =
            (GetWhereClause d, GetWhereArgs d, GetOrder d)) /\
    (GetOperationList d' <> [] -> no_text d').
Proof.
  intros Hrun Hlen Hp. pose proof (run_calls_inv _ _ _ (new_inv z0) Hrun) as Hd.
  destruct (share_transfer d (mode_of_code z1) p Hd Hlen Hp) as (p1 & p2 & E1 & E2 & Hp2).
  exists p1, p2, (received_predicates (mode_of_code z1) d). split_and!; try done.
  - unfold received_predicates. case_decide; subst; [by split_and!|].
    rewrite bool_decide_eq_false_2; [done|]. by destruct z1 as [|[[]|[]|]|].
  - intros Hne. destruct (inv_method _ Hd) as (E3 & E4 & E5).
    { apply (inv_operations _ Hd). intros E. apply Hne. unfold GetOperationList. simpl. by rewrite E. }
    unfold no_text, received_predicates. simpl. rewrite E3, E4, E5. by destruct (bool_decide _).
Qed.
End RoundTrip.

Definition demo_calls : list share_call :=
  [CallSetWhereClause "ignored"; CallCompare CEq "name" (SString "ann"); CallOr;
   CallIn true "age" (VInts [7; 8]); CallLimit 10 5].

Definition demo_shared : DataSharePredicates :=
  Eval vm_compute in
    match run_calls demo_calls (new_DataSharePredicates INVALID_MODE) with
    | Ok d => d | _ => new_DataSharePredicates INVALID_MODE
    end.

Lemma shared_predicates_roundtrip_witness :
  exists p1 p2 d', Marshalling demo_shared ([] : list item) = Some p1 /\
    Unmarshalling (mode_of_code 77) p1 = Some (d', p2) /\ holds p2 [] /\
    GetOperationList d' = received_item <$> GetOperationList demo_shared /\
    GetSettingMode d' = GetSettingMode demo_shared /\
    (if decide (77 = mode_code PREDICATES_METHOD) then no_text d'
     else (GetWhereClause d', GetWhereArgs d', GetOrder d') =
            (GetWhereClause demo_shared, GetWhereArgs demo_shared, GetOrder demo_shared)) /\
    (GetOperationList d' <> [] -> no_text d').
Proof.
  apply (@shared_predicates_roundtrip parcel_list parcel_list_laws 0 77 demo_calls demo_shared []);
    [vm_compute; reflexivity|vm_compute; reflexivity|done].
Defined.
