(* ===== verification/DataShareOperation.v ===== *)
(** * Batched operations

    Model of frameworks/native/data_share/common/src/datashare_operation.cpp and
    datashare_operation_builder.cpp. A nullable pointer is an [option]. [mode] is what
    the memory of a new predicates object holds. *)
From S2P Require Import Prelude Memory Parcel DataShareValuesBucket DataSharePredicates.

Definition TYPE_INSERT : Z := 1.
Definition TYPE_UPDATE : Z := 2.
Definition TYPE_DELETE : Z := 3.
Definition TYPE_ASSERT : Z := 4.
Definition VALUE_NULL : Z := 0.
Definition VALUE_OBJECT : Z := 1.
Definition REFERENCE_THRESHOLD : Z := 3 * 1024 * 1024.

(** [std::map<int, int>::insert]: an entry that is there stays. *)
Fixpoint insert_reference (k v : Z) (m : list (Z * Z)) : list (Z * Z) :=
  match m with
  | [] => [(k, v)]
  | (k', v') :: m' =>
      if k <? k' then (k, v) :: m else if k =? k' then m else (k', v') :: insert_reference k v m'
  end.

Section Operations.
Context `{UriOps}.

Record DataShareOperation := mkOperation {
  type_ : Z;
  expectedCount_ : Z;
  interrupted_ : bool;
  uri_ : option Uri;
  valuesBucket_ : option DataShareValuesBucket;
  dataAbilityPredicates_ : option DataSharePredicates;
  valuesBucketReferences_ : option DataShareValuesBucket;
  dataAbilityPredicatesBackReferences_ : list (Z * Z);
}.

(** The builder has the same fields. *)
Record DataShareOperationBuilder := mkBuilder { built : DataShareOperation }.

Definition new_DataShareOperation (mode : SettingMode) : DataShareOperation :=
  mkOperation 0 0 false None (Some new_bucket) (Some (new_DataSharePredicates mode)) (Some new_bucket) [].

Definition operation_with_uri (mode : SettingMode) (op : option DataShareOperation)
    (withUri : option Uri) : DataShareOperation :=
  match op with
  | Some op =>
      mkOperation (type_ op) (expectedCount_ op) (interrupted_ op) withUri (valuesBucket_ op)
        (dataAbilityPredicates_ op) (valuesBucketReferences_ op)
        (dataAbilityPredicatesBackReferences_ op)
  | None =>
      mkOperation 0 0 false withUri (Some new_bucket) (Some (new_DataSharePredicates mode))
        (Some new_bucket) []
  end.

(** The fields' initialisers, when there is no builder. *)
Definition bare_operation : DataShareOperation := mkOperation (-1) 0 false None None None None [].
Definition operation_of_builder (builder : option DataShareOperationBuilder) : DataShareOperation :=
  match builder with Some b => built b | None => bare_operation end.

Definition new_builder (type : Z) (uri : Uri) : DataShareOperationBuilder :=
  mkBuilder (mkOperation type 0 false (Some uri) None None None []).

Definition builder_for (type : Z) (uri : option Uri) : option DataShareOperationBuilder :=
  new_builder type <$> uri.
Definition NewInsertBuilder (uri : option Uri) := builder_for TYPE_INSERT uri.
Definition NewUpdateBuilder (uri : option Uri) := builder_for TYPE_UPDATE uri.
Definition NewDeleteBuilder (uri : option Uri) := builder_for TYPE_DELETE uri.
Definition NewAssertBuilder (uri : option Uri) := builder_for TYPE_ASSERT uri.

(** ** The builder: [None] is the null pointer a refused call returns *)
Definition Build (b : DataShareOperationBuilder) : option DataShareOperation :=
  if negb (type_ (built b) =? TYPE_UPDATE)
     || match valuesBucket_ (built b) with Some v => negb (IsEmpty v) | None => false end
  then Some (operation_of_builder (Some b))
  else None.

Definition WithValuesBucket (values : DataShareValuesBucket) (b : DataShareOperationBuilder)
    : option DataShareOperationBuilder :=
  let '(mkBuilder (mkOperation t n i u v p r m)) := b in
  if negb (t =? TYPE_INSERT) && negb (t =? TYPE_UPDATE) && negb (t =? TYPE_ASSERT) then None
  else Some (mkBuilder (mkOperation t n i u (Some (bucket_of (GetAll values))) p r m)).

Definition WithPredicates (predicates : option DataSharePredicates) (b : DataShareOperationBuilder)
    : option DataShareOperationBuilder :=
  let '(mkBuilder (mkOperation t n i u v p r m)) := b in
  if negb (t =? TYPE_DELETE) && negb (t =? TYPE_UPDATE) && negb (t =? TYPE_ASSERT) then None
  else Some (mkBuilder (mkOperation t n i u v predicates r m)).

Definition WithExpectedCount (count : Z) (b : DataShareOperationBuilder)
    : option DataShareOperationBuilder :=
  let '(mkBuilder (mkOperation t n i u v p r m)) := b in
  if negb (t =? TYPE_UPDATE) && negb (t =? TYPE_DELETE) && negb (t =? TYPE_ASSERT) then None
  else Some (mkBuilder (mkOperation t count i u v p r m)).

Definition WithPredicatesBackReference (requestArgIndex previousResult : Z)
    (b : DataShareOperationBuilder) : option DataShareOperationBuilder :=
  let '(mkBuilder (mkOperation t n i u v p r m)) := b in
  if negb (t =? TYPE_UPDATE) && negb (t =? TYPE_DELETE) && negb (t =? TYPE_ASSERT) then None
  else Some (mkBuilder (mkOperation t n i u v p r (insert_reference requestArgIndex previousResult m))).

Definition WithValueBackReferences (backReferences : option DataShareValuesBucket)
    (b : DataShareOperationBuilder) : option DataShareOperationBuilder :=
  let '(mkBuilder (mkOperation t n i u v p r m)) := b in
  if negb (t =? TYPE_INSERT) && negb (t =? TYPE_UPDATE) && negb (t =? TYPE_ASSERT) then None
  else Some (mkBuilder (mkOperation t n i u v p backReferences m)).

Definition WithInterruptionAllowed (interrupted : bool) (b : DataShareOperationBuilder)
    : option DataShareOperationBuilder :=
  let '(mkBuilder (mkOperation t n i u v p r m)) := b in
  if negb (t =? TYPE_INSERT) && negb (t =? TYPE_UPDATE) && negb (t =? TYPE_ASSERT)
     && negb (t =? TYPE_DELETE) then None
  else Some (mkBuilder (mkOperation t n interrupted u v p r m)).

(** ** Queries *)
Definition GetType (op : DataShareOperation) : Z := type_ op.
Definition GetUri (op : DataShareOperation) : option Uri := uri_ op.
Definition GetValuesBucket (op : DataShareOperation) := valuesBucket_ op.
Definition GetExpectedCount (op : DataShareOperation) : Z := expectedCount_ op.
Definition GetDataAbilityPredicates (op : DataShareOperation) := dataAbilityPredicates_ op.
Definition GetValuesBucketReferences (op : DataShareOperation) := valuesBucketReferences_ op.
Definition GetDataAbilityPredicatesBackReferences (op : DataShareOperation) :=
  dataAbilityPredicatesBackReferences_ op.
Definition IsInsertOperation (op : DataShareOperation) : bool := type_ op =? TYPE_INSERT.
Definition IsUpdateOperation (op : DataShareOperation) : bool := type_ op =? TYPE_UPDATE.
Definition IsDeleteOperation (op : DataShareOperation) : bool := type_ op =? TYPE_DELETE.
Definition IsAssertOperation (op : DataShareOperation) : bool := type_ op =? TYPE_ASSERT.
Definition IsInterruptionAllowed (op : DataShareOperation) : bool := interrupted_ op.

(** ** Marshalling *)
Definition write_field {A} (m : A -> parcel -> option parcel) (x : option A) (out : parcel)
    : option parcel :=
  match x with
  | Some a => WriteParcelable (m a) (WriteInt32 VALUE_OBJECT out)
  | None => Some (WriteInt32 VALUE_NULL out)
  end.

Fixpoint write_references (m : list (Z * Z)) (out : parcel) : parcel :=
  match m with
  | [] => out
  | (first, second) :: m => write_references m (WriteInt32 second (WriteInt32 first out))
  end.

Definition Marshalling (op : DataShareOperation) (out : parcel) : option parcel :=
  let out := WriteInt32 (type_ op) out in
  let out := WriteInt32 (expectedCount_ op) out in
  let out := WriteBool (interrupted_ op) out in
  out ← write_field Uri_Marshalling (uri_ op) out;
  out ← write_field DataShareValuesBucket.Marshalling (valuesBucket_ op) out;
  out ← write_field DataSharePredicates.Marshalling (dataAbilityPredicates_ op) out;
  out ← write_field DataShareValuesBucket.Marshalling (valuesBucketReferences_ op) out;
  match dataAbilityPredicatesBackReferences_ op with
  | [] => Some (WriteInt32 0 out)
  | m =>
      let referenceSize := s32 (Z.of_nat (length m)) in
      let out := WriteInt32 referenceSize out in
      if referenceSize >=? REFERENCE_THRESHOLD then Some out else Some (write_references m out)
  end.

(** A pointer field: [Some None] when the flag cannot be read, then the object or the
    null pointer. The outer [None] is a crash in the object's [Unmarshalling]. *)
Definition read_field {A} (u : parcel -> option (option A * parcel)) (p : parcel)
    : option (option (option A) * parcel) :=
  let '(empty, p) := TryReadInt32 p in
  match empty with
  | None => Some (None, p)
  | Some empty =>
      if empty =? VALUE_OBJECT then '(a, p) ← ReadObject u p; Some (Some a, p)
      else Some (Some None, p)
  end.

Fixpoint read_references (n : nat) (m : list (Z * Z)) (p : parcel) : bool * list (Z * Z) * parcel :=
  match n with
  | O => (true, m, p)
  | S n =>
      let '(first, p) := TryReadInt32 p in
      match first with
      | None => (false, m, p)
      | Some first =>
          let '(second, p) := TryReadInt32 p in
          match second with
          | None => (false, m, p)
          | Some second => read_references n (insert_reference first second m) p
          end
      end
  end.

(** Whether everything could be read, and the object as far as it was. *)
Definition ReadFromParcel (mode : SettingMode) (op : DataShareOperation) (p : parcel)
    : option (bool * DataShareOperation * parcel) :=
  let '(mkOperation t0 n0 i0 u0 v0 q0 r0 m0) := op in
  let '(t, p) := TryReadInt32 p in
  match t with None => Some (false, op, p) | Some t =>
  let '(n, p) := TryReadInt32 p in
  match n with None => Some (false, mkOperation t n0 i0 u0 v0 q0 r0 m0, p) | Some n =>
  let '(i, p) := ReadBool p in
  '(u, p) ← read_field Uri_Unmarshalling p;
  match u with None => Some (false, mkOperation t n i u0 v0 q0 r0 m0, p) | Some u =>
  '(v, p) ← read_field (never_null DataShareValuesBucket.Unmarshalling) p;
  match v with None => Some (false, mkOperation t n i u v0 q0 r0 m0, p) | Some v =>
  '(q, p) ← read_field (never_null (DataSharePredicates.Unmarshalling mode)) p;
  match q with None => Some (false, mkOperation t n i u v q0 r0 m0, p) | Some q =>
  '(r, p) ← read_field (never_null DataShareValuesBucket.Unmarshalling) p;
  match r with None => Some (false, mkOperation t n i u v q r0 m0, p) | Some r =>
  let '(referenceSize, p) := TryReadInt32 p in
  match referenceSize with
  | None => Some (false, mkOperation t n i u v q r m0, p)
  | Some referenceSize =>
      if referenceSize >=? REFERENCE_THRESHOLD then Some (true, mkOperation t n i u v q r m0, p)
      else
        let '(ok, m, p) := read_references (Z.to_nat referenceSize) m0 p in
        Some (ok, mkOperation t n i u v q r m, p)
  end end end end end end end.

Definition Unmarshalling (mode : SettingMode) (p : parcel)
    : option (option DataShareOperation * parcel) :=
  '(ok, op, p) ← ReadFromParcel mode (new_DataShareOperation mode) p;
  Some (if (ok : bool) then Some op else None, p).

Definition CreateFromParcel (mode : SettingMode) (p : parcel)
    : option (DataShareOperation * parcel) :=
  '(_, op, p) ← ReadFromParcel mode bare_operation p; Some (op, p).
End Operations.
