(* ===== verification/DataShareResult.v ===== *)
(** * Results of batched operations

    Model of frameworks/native/data_share/common/src/datashare_result.cpp, and what a
    consumer reads of a result a provider sends. *)
From S2P Require Import Prelude Memory Strings Parcel DataShareOperation.

#[local] Open Scope list_scope.

(** The class has a null marker of its own. *)
Definition VALUE_NULL : Z := -1.
Definition VALUE_OBJECT : Z := 1.

Section Results.
Context `{UriOps}.

Record DataShareResult := mkResult { uri_ : Uri; count_ : Z }.

Definition result_of_count (count : Z) : DataShareResult := mkResult (Uri_of "") count.
Definition result_of_uri (uri : Uri) : DataShareResult := mkResult (Uri_of (Uri_ToString uri)) 0.
Definition result_of_both (uri : Uri) (count : Z) : DataShareResult :=
  mkResult (Uri_of (Uri_ToString uri)) count.

Definition GetUri (r : DataShareResult) : Uri := uri_ r.
Definition GetCount (r : DataShareResult) : Z := count_ r.
Definition ToString (r : DataShareResult) : string :=
  "DataShareResult(" +:+ "uri=" +:+ Uri_ToString (uri_ r) +:+ " " +:+
  "count=" +:+ to_string (count_ r) +:+ ")".

Definition Marshalling (r : DataShareResult) (p : parcel) : option parcel :=
  p ← (if decide (Uri_ToString (uri_ r) = "") then Some (WriteInt32 VALUE_NULL p)
       else WriteParcelable (Uri_Marshalling (uri_ r)) (WriteInt32 VALUE_OBJECT p));
  Some (WriteInt32 (count_ r) p).

(** Whether everything could be read, and the object as far as it was; an empty uri
    leaves the one that is there. *)
Definition ReadFromParcel (r : DataShareResult) (p : parcel) : option (bool * DataShareResult * parcel) :=
  let '(empty, p) := TryReadInt32 p in
  match empty with
  | None => Some (false, r, p)
  | Some empty =>
      '(u, p) ← (if empty =? VALUE_OBJECT then ReadObject Uri_Unmarshalling p
                 else Some (Some (uri_ r), p));
      match u with
      | None => Some (false, r, p)
      | Some u =>
          let '(count, p) := TryReadInt32 p in
          match count with
          | None => Some (false, mkResult u (count_ r), p)
          | Some count => Some (true, mkResult u count, p)
          end
      end
  end.

Definition Unmarshalling (p : parcel) : option (option DataShareResult * parcel) :=
  '(ok, r, p) ← ReadFromParcel (result_of_count 0) p; Some (if (ok : bool) then Some r else None, p).

Definition CreateFromParcel (p : parcel) : option (DataShareResult * parcel) :=
  '(_, r, p) ← ReadFromParcel (mkResult (Uri_of "") 0) p; Some (r, p).
End Results.

Section Journey.
Context `{UriLaws}.

Definition encoding_result (r : DataShareResult) : list item :=
  (if decide (Uri_ToString (uri_ r) = "") then [IInt32 VALUE_NULL]
   else IInt32 VALUE_OBJECT :: mark ++ encoding_uri (uri_ r)) ++ [IInt32 (count_ r)].

Lemma result_writes r : marshals (Marshalling r) (encoding_result r).
Proof.
  intros p l Hp. unfold Marshalling, encoding_result. case_decide.
  - apply (WriteInt32_holds _ _ VALUE_NULL), (WriteInt32_holds _ _ (count_ r)) in Hp.
    eexists. split; [done|]. by rewrite <- app_assoc in Hp.
  - apply (WriteInt32_holds _ _ VALUE_OBJECT) in Hp.
    destruct (writes_parcelable _ _ (uri_writes (uri_ r)) _ _ Hp) as (p1 & -> & Hp1).
    apply (WriteInt32_holds _ _ (count_ r)) in Hp1. eexists. split; [done|].
    rewrite <- !app_assoc in Hp1. simpl in *. by rewrite <- !app_assoc in *.
Qed.

Lemma result_reads r : unmarshals Unmarshalling (encoding_result r) (Some r).
Proof.
  intros p l Hp. unfold Unmarshalling, ReadFromParcel, encoding_result in *.
  case_decide as Hu; simpl in Hp; rewrite <- ?app_assoc in Hp;
    apply TryReadInt32_holds in Hp as (p1 & -> & Hp); simpl.
  - apply TryReadInt32_holds in Hp as (p2 & -> & Hp). exists p2. split; [|done]. simpl.
    destruct r as [u c]. simpl in *. by rewrite <- Hu, uri_text.
  - destruct (reads_object _ _ _ (uri_reads (uri_ r)) p1 ([IInt32 (count_ r)] ++ l)) as (p2 & -> & Hp2);
      [by rewrite <- ?app_assoc|]. simpl.
    apply TryReadInt32_holds in Hp2 as (p3 & -> & Hp3). exists p3. by destruct r.
Qed.
End Journey.
