(* ===== verification/DataShareIpc.v ===== *)
(** * The data share service and its proxy

    Model of frameworks/native/data_share/consumer/src/datashare_proxy.cpp and
    provider/src/datashare_stub.cpp: the proxy puts a call into a parcel and sends it,
    the stub takes it out, calls the provider and answers; and of
    provider/src/datashare_stub_impl.cpp, the provider that forwards to the
    extension. The IPC framework is outside the repository: [SendRequest] runs the
    stub's [OnRemoteRequest] or reports an error of the transport, and an object in
    another process is known by its handle. The outer [None] is a crash: an exception
    or the use of a null pointer in the marshalling of an object. *)
From S2P Require Import Prelude Memory Parcel DataShareValuesBucket DataSharePredicates DataShareOperation DataShareResult.

#[local] Open Scope list_scope.

(** Commands of [IDataShare] *)
Definition DESCRIPTOR : string := "OHOS.DataShare.IDataShare".
Definition CMD_GET_FILE_TYPES : Z := 1.
Definition CMD_OPEN_FILE : Z := 2.
Definition CMD_OPEN_RAW_FILE : Z := 3.
Definition CMD_INSERT : Z := 4.
Definition CMD_UPDATE : Z := 5.
Definition CMD_DELETE : Z := 6.
Definition CMD_QUERY : Z := 7.
Definition CMD_GET_TYPE : Z := 8.
Definition CMD_BATCH_INSERT : Z := 9.
Definition CMD_REGISTER_OBSERVER : Z := 10.
Definition CMD_UNREGISTER_OBSERVER : Z := 11.
Definition CMD_NOTIFY_CHANGE : Z := 12.
Definition CMD_NORMALIZE_URI : Z := 13.
Definition CMD_DENORMALIZE_URI : Z := 14.
Definition CMD_EXECUTE_BATCH : Z := 15.

Definition NO_ERROR : Z := 0.

(** The error codes of the framework, and its answer to a command it does not know. *)
Class IpcCodes := {
  ERR_INVALID_VALUE : Z;
  ERR_INVALID_STATE : Z;
  base_OnRemoteRequest : Z -> Z;
  invalid_value_error : ERR_INVALID_VALUE <> NO_ERROR;
  invalid_state_error : ERR_INVALID_STATE <> NO_ERROR;
}.

(** A result set in another process: the handle of its stub, and the name and the
    memory of its block. *)
Record SetHandle := mkSetHandle { set_object : Z; set_block : option (string * Z) }.

(** The service, over the state [P] of the provider. An operation of a batch may have
    no result. *)
Class IDataShare `{UriOps} (P : Type) := {
  GetFileTypes : Uri -> string -> P -> list string * P;
  OpenFile : Uri -> string -> P -> Z * P;
  OpenRawFile : Uri -> string -> P -> Z * P;
  Insert : Uri -> DataShareValuesBucket -> P -> Z * P;
  Update : Uri -> DataSharePredicates -> DataShareValuesBucket -> P -> Z * P;
  Delete : Uri -> DataSharePredicates -> P -> Z * P;
  Query : Uri -> DataSharePredicates -> list string -> P -> option SetHandle * P;
  GetType : Uri -> P -> string * P;
  BatchInsert : Uri -> list DataShareValuesBucket -> P -> Z * P;
  RegisterObserver : Uri -> Z -> P -> bool * P;
  UnregisterObserver : Uri -> Z -> P -> bool * P;
  NotifyChange : Uri -> P -> bool * P;
  NormalizeUri : Uri -> P -> Uri * P;
  DenormalizeUri : Uri -> P -> Uri * P;
  ExecuteBatch : list DataShareOperation -> P -> list (option DataShareResult) * P;
}.

Section Stub.
Context `{IpcCodes} `{IDataShare P} (mode : SettingMode).
Implicit Types (data reply : parcel) (s : P).

(** The handlers: the code, the reply and the provider's state. *)
Definition answer_type : Type := option (Z * parcel * P).
Definition refuse (err : Z) reply s : answer_type := Some (err, reply, s).

(** [data.ReadParcelable<T>()] that must not give a null pointer. *)
Definition read_or_refuse {A} (u : parcel -> option (option A * parcel)) data reply s
    (k : A -> parcel -> answer_type) : answer_type :=
  '(a, data) ← ReadObject u data;
  match a with
  | None => refuse ERR_INVALID_VALUE reply s
  | Some a => k a data
  end.

Definition read_bucket := never_null DataShareValuesBucket.Unmarshalling.
Definition read_predicates := never_null (DataSharePredicates.Unmarshalling mode).

Definition CmdGetFileTypes data reply s : answer_type :=
  read_or_refuse Uri_Unmarshalling data reply s (fun uri data =>
    let '(mimeTypeFilter, data) := ReadString data in
    if decide (mimeTypeFilter = "") then refuse ERR_INVALID_VALUE reply s
    else
      let '(types, s) := GetFileTypes uri mimeTypeFilter s in
      Some (NO_ERROR, WriteStringVector types reply, s)).

Definition CmdOpenFile data reply s : answer_type :=
  read_or_refuse Uri_Unmarshalling data reply s (fun uri data =>
    let '(fmode, data) := ReadString data in
    if decide (fmode = "") then refuse ERR_INVALID_VALUE reply s
    else
      let '(fd, s) := OpenFile uri fmode s in
      if fd <? 0 then refuse ERR_INVALID_VALUE reply s
      else Some (NO_ERROR, WriteFileDescriptor fd reply, s)).

Definition CmdOpenRawFile data reply s : answer_type :=
  read_or_refuse Uri_Unmarshalling data reply s (fun uri data =>
    let '(fmode, data) := ReadString data in
    if decide (fmode = "") then refuse ERR_INVALID_VALUE reply s
    else
      let '(fd, s) := OpenRawFile uri fmode s in
      Some (NO_ERROR, WriteInt32 fd reply, s)).

Definition CmdInsert data reply s : answer_type :=
  read_or_refuse Uri_Unmarshalling data reply s (fun uri data =>
  read_or_refuse read_bucket data reply s (fun value data =>
    let '(index, s) := Insert uri value s in
    Some (NO_ERROR, WriteInt32 index reply, s))).

Definition CmdUpdate data reply s : answer_type :=
  read_or_refuse Uri_Unmarshalling data reply s (fun uri data =>
  read_or_refuse read_predicates data reply s (fun predicates data =>
  read_or_refuse read_bucket data reply s (fun value data =>
    let '(index, s) := Update uri predicates value s in
    Some (NO_ERROR, WriteInt32 index reply, s)))).

Definition CmdDelete data reply s : answer_type :=
  read_or_refuse Uri_Unmarshalling data reply s (fun uri data =>
  read_or_refuse read_predicates data reply s (fun predicates data =>
    let '(index, s) := Delete uri predicates s in
    Some (NO_ERROR, WriteInt32 index reply, s))).

(** [ISharedResultSet::WriteToParcel]: the stub of the set, and its block if it has one. *)
Definition WriteToParcel (resultSet : SetHandle) (p : parcel) : parcel :=
  let p := WriteRemoteObject (set_object resultSet) p in
  match set_block resultSet with
  | Some (name, ashmem) => WriteAshmem ashmem (WriteString name p)
  | None => p
  end.

Definition CmdQuery data reply s : answer_type :=
  read_or_refuse Uri_Unmarshalling data reply s (fun uri data =>
  read_or_refuse read_predicates data reply s (fun predicates data =>
    let '(columns, data) := TryReadStringVector data in
    match columns with
    | None => refuse ERR_INVALID_VALUE reply s
    | Some columns =>
        let '(resultSet, s) := Query uri predicates columns s in
        match resultSet with
        | None => refuse ERR_INVALID_VALUE reply s
        | Some resultSet => Some (NO_ERROR, WriteToParcel resultSet reply, s)
        end
    end)).

Definition CmdGetType data reply s : answer_type :=
  read_or_refuse Uri_Unmarshalling data reply s (fun uri data =>
    let '(type, s) := GetType uri s in
    Some (NO_ERROR, WriteString type reply, s)).

(** A loop of [ReadParcelable]: [None] for a null pointer on the way. *)
Fixpoint read_objects {A} (u : parcel -> option (option A * parcel)) (n : nat) (l : list A) (p : parcel)
    : option (option (list A) * parcel) :=
  match n with
  | O => Some (Some l, p)
  | Datatypes.S n =>
      '(a, p) ← ReadObject u p;
      match a with
      | None => Some (None, p)
      | Some a => read_objects u n (l ++ [a]) p
      end
  end.

Definition CmdBatchInsert data reply s : answer_type :=
  read_or_refuse Uri_Unmarshalling data reply s (fun uri data =>
    let '(count, data) := TryReadInt32 data in
    match count with
    | None => refuse ERR_INVALID_VALUE reply s
    | Some count =>
        '(values, data) ← read_objects read_bucket (Z.to_nat count) [] data;
        match values with
        | None => refuse ERR_INVALID_VALUE reply s
        | Some values =>
            let '(ret, s) := BatchInsert uri values s in
            Some (NO_ERROR, WriteInt32 ret reply, s)
        end
    end).

(** The two observer commands. *)
Definition with_observer (f : Uri -> Z -> P -> bool * P) data reply s : answer_type :=
  read_or_refuse Uri_Unmarshalling data reply s (fun uri data =>
    let '(obServer, data) := ReadRemoteObject data in
    match obServer with
    | None => refuse ERR_INVALID_VALUE reply s
    | Some obServer =>
        let '(ret, s) := f uri obServer s in
        Some (NO_ERROR, WriteInt32 (Z.b2z ret) reply, s)
    end).
Definition CmdRegisterObserver data reply s : answer_type := with_observer RegisterObserver data reply s.
Definition CmdUnregisterObserver data reply s : answer_type := with_observer UnregisterObserver data reply s.

Definition CmdNotifyChange data reply s : answer_type :=
  read_or_refuse Uri_Unmarshalling data reply s (fun uri data =>
    let '(ret, s) := NotifyChange uri s in
    Some (NO_ERROR, WriteInt32 (Z.b2z ret) reply, s)).

Definition CmdNormalizeUri data reply s : answer_type :=
  read_or_refuse Uri_Unmarshalling data reply s (fun uri data =>
    let '(ret, s) := NormalizeUri uri s in
    reply ← WriteParcelable (Uri_Marshalling ret) reply; Some (NO_ERROR, reply, s)).

Definition CmdDenormalizeUri data reply s : answer_type :=
  read_or_refuse Uri_Unmarshalling data reply s (fun uri data =>
    let '(ret, s) := DenormalizeUri uri s in
    reply ← WriteParcelable (Uri_Marshalling ret) reply; Some (NO_ERROR, reply, s)).

(** The results up to the first that is missing; whether all are there. *)
Fixpoint write_results (results : list (option DataShareResult)) reply : option (bool * parcel) :=
  match results with
  | [] => Some (true, reply)
  | None :: _ => Some (false, reply)
  | Some r :: results =>
      reply ← WriteParcelable (DataShareResult.Marshalling r) reply; write_results results reply
  end.

Definition CmdExecuteBatch data reply s : answer_type :=
  let '(count, data) := TryReadInt32 data in
  match count with
  | None => refuse ERR_INVALID_VALUE reply s
  | Some count =>
      '(operations, data) ← read_objects (DataShareOperation.Unmarshalling mode) (Z.to_nat count) [] data;
      match operations with
      | None => refuse ERR_INVALID_VALUE reply s
      | Some operations =>
          let '(results, s) := ExecuteBatch operations s in
          let reply := WriteInt32 (s32 (Z.of_nat (length results))) reply in
          '(all, reply) ← write_results results reply;
          Some (if (all : bool) then NO_ERROR else ERR_INVALID_VALUE, reply, s)
      end
  end.

Definition stubFuncMap_ (code : Z) : option (parcel -> parcel -> P -> answer_type) :=
  if code =? CMD_GET_FILE_TYPES then Some CmdGetFileTypes
  else if code =? CMD_OPEN_FILE then Some CmdOpenFile
  else if code =? CMD_OPEN_RAW_FILE then Some CmdOpenRawFile
  else if code =? CMD_INSERT then Some CmdInsert
  else if code =? CMD_UPDATE then Some CmdUpdate
  else if code =? CMD_DELETE then Some CmdDelete
  else if code =? CMD_QUERY then Some CmdQuery
  else if code =? CMD_GET_TYPE then Some CmdGetType
  else if code =? CMD_BATCH_INSERT then Some CmdBatchInsert
  else if code =? CMD_REGISTER_OBSERVER then Some CmdRegisterObserver
  else if code =? CMD_UNREGISTER_OBSERVER then Some CmdUnregisterObserver
  else if code =? CMD_NOTIFY_CHANGE then Some CmdNotifyChange
  else if code =? CMD_NORMALIZE_URI then Some CmdNormalizeUri
  else if code =? CMD_DENORMALIZE_URI then Some CmdDenormalizeUri
  else if code =? CMD_EXECUTE_BATCH then Some CmdExecuteBatch
  else None.

Definition OnRemoteRequest (code : Z) data reply s : answer_type :=
  let '(remoteDescriptor, data) := ReadInterfaceToken data in
  if negb (bool_decide (DESCRIPTOR = remoteDescriptor)) then refuse ERR_INVALID_STATE reply s
  else
    match stubFuncMap_ code with
    | Some func => func data reply s
    | None => Some (base_OnRemoteRequest code, reply, s)
    end.
End Stub.

(** ** The proxy *)

(** The provider behind the transport, and the errors of the requests to come: a
    request is delivered when its entry is 0 or the list is used up. *)
Record Channel (P : Type) := mkChannel { faults : list Z; provider : P }.
#[global] Arguments mkChannel {P}.
#[global] Arguments faults {P}.
#[global] Arguments provider {P}.

Section Proxy.
Context `{IpcCodes} `{IDataShare P} (mode : SettingMode).
Implicit Types (data reply : parcel) (ch : Channel P).

(** [Remote()->SendRequest(code, data, reply, option)], with a new reply. *)
Definition SendRequest (code : Z) data ch : option (Z * parcel * Channel P) :=
  let deliver fs :=
    '(err, reply, s) ← OnRemoteRequest mode code data new_parcel (provider ch);
    Some (err, reply, mkChannel fs s) in
  match faults ch with
  | e :: fs => if e =? 0 then deliver fs else Some (e, new_parcel, mkChannel fs (provider ch))
  | [] => deliver []
  end.

(** The token and the uri every call but the batch begins with. *)
Definition begin_request (uri : Uri) : option parcel :=
  WriteParcelable (Uri_Marshalling uri) (WriteInterfaceToken DESCRIPTOR new_parcel).

Definition proxy_GetFileTypes (uri : Uri) (mimeTypeFilter : string) ch
    : option (list string * Channel P) :=
  data ← begin_request uri;
  let data := WriteString mimeTypeFilter data in
  '(_, reply, ch) ← SendRequest CMD_GET_FILE_TYPES data ch;
  let '(types, _) := TryReadStringVector reply in
  Some (default [] types, ch).

Definition proxy_OpenFile (uri : Uri) (fmode : string) ch : option (Z * Channel P) :=
  data ← begin_request uri;
  let data := WriteString fmode data in
  '(err, reply, ch) ← SendRequest CMD_OPEN_FILE data ch;
  if negb (err =? NO_ERROR) then Some (-1, ch)
  else let '(fd, _) := ReadFileDescriptor reply in Some (fd, ch).

(** The end of the calls that return a number; [-1] when there is none. *)
Definition read_number (sent : option (Z * parcel * Channel P)) : option (Z * Channel P) :=
  '(err, reply, ch) ← sent;
  if negb (err =? NO_ERROR) then Some (-1, ch)
  else let '(n, _) := TryReadInt32 reply in Some (default (-1) n, ch).

Definition proxy_OpenRawFile (uri : Uri) (fmode : string) ch : option (Z * Channel P) :=
  data ← begin_request uri;
  read_number (SendRequest CMD_OPEN_RAW_FILE (WriteString fmode data) ch).

Definition proxy_Insert (uri : Uri) (value : DataShareValuesBucket) ch : option (Z * Channel P) :=
  data ← begin_request uri;
  data ← WriteParcelable (DataShareValuesBucket.Marshalling value) data;
  read_number (SendRequest CMD_INSERT data ch).

Definition proxy_Update (uri : Uri) (predicates : DataSharePredicates) (value : DataShareValuesBucket) ch
    : option (Z * Channel P) :=
  data ← begin_request uri;
  data ← WriteParcelable (DataSharePredicates.Marshalling predicates) data;
  data ← WriteParcelable (DataShareValuesBucket.Marshalling value) data;
  read_number (SendRequest CMD_UPDATE data ch).

Definition proxy_Delete (uri : Uri) (predicates : DataSharePredicates) ch : option (Z * Channel P) :=
  data ← begin_request uri;
  data ← WriteParcelable (DataSharePredicates.Marshalling predicates) data;
  read_number (SendRequest CMD_DELETE data ch).

(** [ISharedResultSet::ReadFromParcel]: a proxy for the set's stub, and its block if
    there is memory for it in the parcel. *)
Definition ReadFromParcel (p : parcel) : option SetHandle * parcel :=
  let '(remoter, p) := ReadRemoteObject p in
  match remoter with
  | None => (None, p)
  | Some remoter =>
      let '(name, p) := ReadString p in
      let '(ashmem, p) := ReadAshmem p in
      (Some (mkSetHandle remoter (pair name <$> ashmem)), p)
  end.

Definition proxy_Query (uri : Uri) (predicates : DataSharePredicates) (columns : list string) ch
    : option (option SetHandle * Channel P) :=
  data ← begin_request uri;
  data ← WriteParcelable (DataSharePredicates.Marshalling predicates) data;
  let data := WriteStringVector columns data in
  '(err, reply, ch) ← SendRequest CMD_QUERY data ch;
  if negb (err =? NO_ERROR) then Some (None, ch) else Some (fst (ReadFromParcel reply), ch).

Definition proxy_GetType (uri : Uri) ch : option (string * Channel P) :=
  data ← begin_request uri;
  '(err, reply, ch) ← SendRequest CMD_GET_TYPE data ch;
  if negb (err =? NO_ERROR) then Some ("", ch) else Some (fst (ReadString reply), ch).

Fixpoint write_objects {A} (m : A -> parcel -> option parcel) (l : list A) (p : parcel) : option parcel :=
  match l with
  | [] => Some p
  | a :: l => p ← WriteParcelable (m a) p; write_objects m l p
  end.

Definition proxy_BatchInsert (uri : Uri) (values : list DataShareValuesBucket) ch
    : option (Z * Channel P) :=
  data ← begin_request uri;
  let data := WriteInt32 (s32 (Z.of_nat (length values))) data in
  data ← write_objects DataShareValuesBucket.Marshalling values data;
  read_number (SendRequest CMD_BATCH_INSERT data ch).

(** The end of the calls that return a bool: what the provider answered is only logged. *)
Definition read_success (sent : option (Z * parcel * Channel P)) : option (bool * Channel P) :=
  '(result, _, ch) ← sent; Some (result =? NO_ERROR, ch).

Definition proxy_RegisterObserver (uri : Uri) (dataObserver : Z) ch : option (bool * Channel P) :=
  data ← begin_request uri;
  read_success (SendRequest CMD_REGISTER_OBSERVER (WriteRemoteObject dataObserver data) ch).
Definition proxy_UnregisterObserver (uri : Uri) (dataObserver : Z) ch : option (bool * Channel P) :=
  data ← begin_request uri;
  read_success (SendRequest CMD_UNREGISTER_OBSERVER (WriteRemoteObject dataObserver data) ch).
Definition proxy_NotifyChange (uri : Uri) ch : option (bool * Channel P) :=
  data ← begin_request uri; read_success (SendRequest CMD_NOTIFY_CHANGE data ch).

(** The end of the calls that return a uri, the empty one when there is none. *)
Definition read_uri (sent : option (Z * parcel * Channel P)) : option (Uri * Channel P) :=
  '(err, reply, ch) ← sent;
  if negb (err =? NO_ERROR) then Some (Uri_of "", ch)
  else '(info, _) ← ReadObject Uri_Unmarshalling reply; Some (default (Uri_of "") info, ch).

Definition proxy_NormalizeUri (uri : Uri) ch : option (Uri * Channel P) :=
  data ← begin_request uri; read_uri (SendRequest CMD_NORMALIZE_URI data ch).
Definition proxy_DenormalizeUri (uri : Uri) ch : option (Uri * Channel P) :=
  data ← begin_request uri; read_uri (SendRequest CMD_DENORMALIZE_URI data ch).

(** The results as far as they can be read. *)
Fixpoint read_results (n : nat) (results : list DataShareResult) reply : option (list DataShareResult) :=
  match n with
  | O => Some results
  | Datatypes.S n =>
      '(result, reply) ← ReadObject DataShareResult.Unmarshalling reply;
      match result with
      | None => Some results
      | Some result => read_results n (results ++ [result]) reply
      end
  end.

Definition proxy_ExecuteBatch (operations : list DataShareOperation) ch
    : option (list DataShareResult * Channel P) :=
  let data := WriteInterfaceToken DESCRIPTOR new_parcel in
  let data := WriteInt32 (s32 (Z.of_nat (length operations))) data in
  data ← write_objects DataShareOperation.Marshalling operations data;
  '(err, reply, ch) ← SendRequest CMD_EXECUTE_BATCH data ch;
  if negb (err =? NO_ERROR) then Some ([], ch)
  else
    let '(total, reply) := TryReadInt32 reply in
    match total with
    | None => Some ([], ch)
    | Some total => results ← read_results (Z.to_nat total) [] reply; Some (results, ch)
    end.
End Proxy.

(** ** The provider that forwards to the extension

    Each call runs on the extension's thread and its caller waits for it; without an
    extension it returns a fixed value. The empty set of a query without extension
    has no bridge; [empty_set] is its handle. *)
Section StubImpl.
Context `{IDataShare E} (empty_set : SetHandle).

Definition forward {A} (f : E -> A * E) (ret : A) (extension_ : option E) : A * option E :=
  match extension_ with
  | None => (ret, None)
  | Some e => let '(a, e) := f e in (a, Some e)
  end.

Definition impl_GetFileTypes (uri : Uri) (mimeTypeFilter : string) :=
  forward (GetFileTypes uri mimeTypeFilter) [].
Definition impl_OpenFile (uri : Uri) (fmode : string) :=
  forward (OpenFile uri fmode) (-1).
Definition impl_OpenRawFile (uri : Uri) (fmode : string) :=
  forward (OpenRawFile uri fmode) (-1).
Definition impl_Insert (uri : Uri) (value : DataShareValuesBucket) :=
  forward (Insert uri value) 0.
Definition impl_Update (uri : Uri) (predicates : DataSharePredicates) (value : DataShareValuesBucket) :=
  forward (Update uri predicates value) 0.
Definition impl_Delete (uri : Uri) (predicates : DataSharePredicates) :=
  forward (Delete uri predicates) 0.
(** A set is made also when there is no bridge for it. *)
Definition impl_Query (uri : Uri) (predicates : DataSharePredicates) (columns : list string)
    (extension_ : option E) : option SetHandle * option E :=
  let '(ret, extension_) := forward (Query uri predicates columns) None extension_ in
  (Some (default empty_set ret), extension_).
Definition impl_GetType (uri : Uri) :=
  forward (GetType uri) "".
Definition impl_BatchInsert (uri : Uri) (values : list DataShareValuesBucket) :=
  forward (BatchInsert uri values) 0.
Definition impl_RegisterObserver (uri : Uri) (dataObserver : Z) :=
  forward (RegisterObserver uri dataObserver) false.
Definition impl_UnregisterObserver (uri : Uri) (dataObserver : Z) :=
  forward (UnregisterObserver uri dataObserver) false.
Definition impl_NotifyChange (uri : Uri) :=
  forward (NotifyChange uri) false.
Definition impl_NormalizeUri (uri : Uri) :=
  forward (NormalizeUri uri) (Uri_of "").
Definition impl_DenormalizeUri (uri : Uri) :=
  forward (DenormalizeUri uri) (Uri_of "").
Definition impl_ExecuteBatch (operations : list DataShareOperation) :=
  forward (ExecuteBatch operations) [].

Definition DataShareStubImpl : IDataShare (option E) := {|
  GetFileTypes := impl_GetFileTypes;
  OpenFile := impl_OpenFile;
  OpenRawFile := impl_OpenRawFile;
  Insert := impl_Insert;
  Update := impl_Update;
  Delete := impl_Delete;
  Query := impl_Query;
  GetType := impl_GetType;
  BatchInsert := impl_BatchInsert;
  RegisterObserver := impl_RegisterObserver;
  UnregisterObserver := impl_UnregisterObserver;
  NotifyChange := impl_NotifyChange;
  NormalizeUri := impl_NormalizeUri;
  DenormalizeUri := impl_DenormalizeUri;
  ExecuteBatch := impl_ExecuteBatch;
|}.
End StubImpl.
