(* ===== verification/DataShareOperationSpec.v ===== *)
(** * The journey of a batched operation

    What the provider's [Unmarshalling] makes of an operation a consumer sends. *)
From S2P Require Import Prelude Memory Parcel DataShareValuesBucket DataSharePredicates DataShareOperation.

From Stdlib Require Import Sorted.

#[local] Open Scope list_scope.

Section Journey.
Context `{UriLaws}.

(** ** Pointer fields *)
Definition encoding_field {A} (enc : A -> list item) (x : option A) : list item :=
  match x with Some a => IInt32 VALUE_OBJECT :: mark ++ enc a | None => [IInt32 VALUE_NULL] end.

Lemma field_writes {A} (m : A -> parcel -> option parcel) enc (x : option A) :
  (forall a, x = Some a -> marshals (m a) (enc a)) -> marshals (write_field m x) (encoding_field enc x).
Proof.
  intros Hm p l Hp. destruct x as [a|]; simpl; [|eauto with parcel].
  apply (WriteInt32_holds _ _ VALUE_OBJECT) in Hp.
  destruct (writes_parcelable _ _ (Hm a eq_refl) _ _ Hp) as (p' & E & Hp'). exists p'.
  by rewrite <- app_assoc in Hp'.
Qed.

Lemma field_reads {A} (u : parcel -> option (option A * parcel)) enc (rcv : A -> A) (x : option A) :
  (forall a, x = Some a -> unmarshals u (enc a) (Some (rcv a))) ->
  unmarshals (read_field u) (encoding_field enc x) (Some (rcv <$> x)).
Proof.
  intros Hu p l Hp. unfold read_field. destruct x as [a|]; simpl in Hp;
    apply TryReadInt32_holds in Hp as (p1 & -> & Hp); simpl; [|by exists p1].
  destruct (reads_object _ _ _ (Hu a eq_refl) p1 l Hp) as (p2 & E & Hp2). exists p2. by rewrite E.
Qed.

(** ** Back references *)
Definition encoding_reference (e : Z * Z) : list item := [IInt32 e.1; IInt32 e.2].
Definition references_sorted (m : list (Z * Z)) : Prop := StronglySorted (fun e e' => e.1 < e'.1) m.

Lemma references_write m : forall p l, holds p l ->
  holds (write_references m p) (l ++ (m ≫= encoding_reference)).
Proof.
  induction m as [|[k v] m IH]; intros p l Hp; simpl; [by rewrite app_nil_r|].
  apply (WriteInt32_holds _ _ k), (WriteInt32_holds _ _ v), IH in Hp. by rewrite <- !app_assoc in Hp.
Qed.

Lemma insert_reference_last m k v :
  Forall (fun e => e.1 < k) m -> insert_reference k v m = m ++ [(k, v)].
Proof.
  induction 1 as [|[k' v'] m Hk _ IH]; [done|]. simpl in *.
  by rewrite (proj2 (Z.ltb_ge _ _)), (proj2 (Z.eqb_neq _ _)), IH by lia.
Qed.

Lemma references_read m : forall acc p l,
  references_sorted m -> Forall (fun e => Forall (fun e' => e.1 < e'.1) m) acc ->
  holds p ((m ≫= encoding_reference) ++ l) ->
  exists p', read_references (length m) acc p = (true, acc ++ m, p') /\ holds p' l.
Proof.
  induction m as [|[k v] m IH]; intros acc p l Hs Hacc Hp; simpl in *.
  { exists p. by rewrite app_nil_r. }
  apply TryReadInt32_holds in Hp as (p1 & -> & Hp). apply TryReadInt32_holds in Hp as (p2 & -> & Hp).
  inversion_clear Hs as [|? ? Hs' Hf]. rewrite insert_reference_last.
  2: { eapply Forall_impl; [exact Hacc|]. intros e He. by inversion He. }
  destruct (IH (acc ++ [(k, v)]) p2 l Hs') as (p3 & E & Hp3); [|done|].
  { apply Forall_app. split; [|by repeat constructor].
    eapply Forall_impl; [exact Hacc|]. intros e He. by inversion He. }
  exists p3. by rewrite E, <- app_assoc.
Qed.

(** ** The operation *)
Definition bucket_sendable (b : DataShareValuesBucket) : Prop :=
  bucket_ok b /\ Z.of_nat (length (valuesMap b)) < 2147483648.
Definition predicates_sendable (d : DataSharePredicates) : Prop :=
  predicates_inv d /\ Z.of_nat (length (operationList (predicates_ d))) < 2147483648.

Definition operation_sendable (op : DataShareOperation) : Prop :=
  (forall b, valuesBucket_ op = Some b -> bucket_sendable b) /\
  (forall d, dataAbilityPredicates_ op = Some d -> predicates_sendable d) /\
  (forall b, valuesBucketReferences_ op = Some b -> bucket_sendable b) /\
  references_sorted (dataAbilityPredicatesBackReferences_ op) /\
  Z.of_nat (length (dataAbilityPredicatesBackReferences_ op)) < 2147483648.

(** Three million back references or more are not sent. *)
Definition sent_references (m : list (Z * Z)) : list (Z * Z) :=
  if Z.of_nat (length m) <? REFERENCE_THRESHOLD then m else [].

Definition received_operation (mode : SettingMode) (op : DataShareOperation) : DataShareOperation :=
  mkOperation (type_ op) (expectedCount_ op) (interrupted_ op) (uri_ op)
    (sent <$> valuesBucket_ op) (received_predicates mode <$> dataAbilityPredicates_ op)
    (sent <$> valuesBucketReferences_ op) (sent_references (dataAbilityPredicatesBackReferences_ op)).

Definition encoding_operation (op : DataShareOperation) : list item :=
  [IInt32 (type_ op); IInt32 (expectedCount_ op); IBool (interrupted_ op)] ++
  encoding_field encoding_uri (uri_ op) ++ encoding_field encoding_bucket (valuesBucket_ op) ++
  encoding_field encoding_predicates (dataAbilityPredicates_ op) ++
  encoding_field encoding_bucket (valuesBucketReferences_ op) ++
  [IInt32 (Z.of_nat (length (dataAbilityPredicatesBackReferences_ op)))] ++
  (sent_references (dataAbilityPredicatesBackReferences_ op) ≫= encoding_reference).

Lemma operation_writes op : operation_sendable op -> marshals (Marshalling op) (encoding_operation op).
Proof.
  intros (Hv & Hq & Hr & _ & Hlen) p l Hp. unfold Marshalling, encoding_operation.
  apply (WriteInt32_holds _ _ (type_ op)), (WriteInt32_holds _ _ (expectedCount_ op)),
    (WriteBool_holds _ _ (interrupted_ op)) in Hp.
  destruct (field_writes Uri_Marshalling encoding_uri (uri_ op) (fun a _ => uri_writes a) _ _ Hp)
    as (p1 & -> & Hp1). simpl.
  destruct (field_writes DataShareValuesBucket.Marshalling encoding_bucket (valuesBucket_ op)
    (fun a E => bucket_writes a (proj1 (Hv a E)) (proj2 (Hv a E))) _ _ Hp1) as (p2 & -> & Hp2). simpl.
  destruct (field_writes DataSharePredicates.Marshalling encoding_predicates (dataAbilityPredicates_ op)
    (fun a E => predicates_write a (proj1 (Hq a E)) (proj2 (Hq a E))) _ _ Hp2) as (p3 & -> & Hp3). simpl.
  destruct (field_writes DataShareValuesBucket.Marshalling encoding_bucket (valuesBucketReferences_ op)
    (fun a E => bucket_writes a (proj1 (Hr a E)) (proj2 (Hr a E))) _ _ Hp3) as (p4 & -> & Hp4). simpl.
  set (m := dataAbilityPredicatesBackReferences_ op) in *.
  apply (WriteInt32_holds _ _ (Z.of_nat (length m))) in Hp4. rewrite <- !app_assoc in Hp4. simpl in Hp4.
  unfold sent_references. destruct m as [|e m']; [eexists; split; [done|exact Hp4]|].
  change (length (e :: m')) with (S (length m')) in *. rewrite s32_small, Z.geb_leb, Z.leb_antisym by lia.
  destruct (Z.ltb_spec (Z.of_nat (S (length m'))) REFERENCE_THRESHOLD) as [_|Hge].
  - apply (references_write (e :: m')) in Hp4. eexists. split; [done|].
    rewrite <- !app_assoc in Hp4. simpl in Hp4. rewrite <- !app_assoc in Hp4. exact Hp4.
  - eexists. split; [done|exact Hp4].
Qed.

Lemma operation_reads op mode :
  operation_sendable op ->
  unmarshals (Unmarshalling mode) (encoding_operation op) (Some (received_operation mode op)).
Proof.
  intros (Hv & Hq & Hr & Hm & Hlen) p l Hp. unfold Unmarshalling, ReadFromParcel, encoding_operation in *.
  simpl in Hp. rewrite <- !app_assoc in Hp. unfold new_DataShareOperation.
  apply TryReadInt32_holds in Hp as (q1 & -> & Hp). apply TryReadInt32_holds in Hp as (q2 & -> & Hp).
  apply ReadBool_holds in Hp as (q3 & -> & Hp).
  destruct (field_reads Uri_Unmarshalling encoding_uri id (uri_ op) (fun a _ => uri_reads a) _ _ Hp)
    as (p1 & -> & Hp1). simpl.
  destruct (field_reads (never_null DataShareValuesBucket.Unmarshalling) encoding_bucket sent (valuesBucket_ op)
    (fun a E => reads_never_null _ _ _ (bucket_reads a (proj1 (Hv a E)))) _ _ Hp1) as (p2 & -> & Hp2). simpl.
  destruct (field_reads (never_null (DataSharePredicates.Unmarshalling mode)) encoding_predicates
    (received_predicates mode) (dataAbilityPredicates_ op)
    (fun a E => reads_never_null _ _ _ (predicates_read a mode (proj1 (Hq a E)))) _ _ Hp2) as (p3 & -> & Hp3). simpl.
  destruct (field_reads (never_null DataShareValuesBucket.Unmarshalling) encoding_bucket sent
    (valuesBucketReferences_ op)
    (fun a E => reads_never_null _ _ _ (bucket_reads a (proj1 (Hr a E)))) _ _ Hp3) as (p4 & -> & Hp4). simpl.
  simpl in Hp4. apply TryReadInt32_holds in Hp4 as (p5 & -> & Hp5).
  unfold received_operation, sent_references in *. rewrite option_fmap_id, Z.geb_leb, Z.leb_antisym.
  destruct (Z.ltb_spec (Z.of_nat (length (dataAbilityPredicatesBackReferences_ op))) REFERENCE_THRESHOLD);
    simpl negb; cbv iota; [|by exists p5].
  rewrite Nat2Z.id.
  destruct (references_read _ [] p5 l Hm (List.Forall_nil _) Hp5) as (p6 & -> & Hp6). by exists p6.
Qed.
End Journey.
