(* ===== verification/DataShareIpcSpec.v ===== *)
(** * A call through the proxy is a call of the provider

    The composition of proxy, parcels and stub, command by command. *)
From S2P Require Import Prelude Memory Parcel DataShareValuesBucket DataSharePredicates DataShareOperation DataShareOperationSpec DataShareResult DataShareIpc.

#[local] Open Scope list_scope.

Section Calls.
Context `{UriOps}.

(** A call of the service and an answer, as values. *)
Inductive call :=
| CGetFileTypes (uri : Uri) (mimeTypeFilter : string)
| COpenFile (uri : Uri) (fmode : string)
| COpenRawFile (uri : Uri) (fmode : string)
| CInsert (uri : Uri) (value : DataShareValuesBucket)
| CUpdate (uri : Uri) (predicates : DataSharePredicates) (value : DataShareValuesBucket)
| CDelete (uri : Uri) (predicates : DataSharePredicates)
| CQuery (uri : Uri) (predicates : DataSharePredicates) (columns : list string)
| CGetType (uri : Uri)
| CBatchInsert (uri : Uri) (values : list DataShareValuesBucket)
| CRegisterObserver (uri : Uri) (dataObserver : Z)
| CUnregisterObserver (uri : Uri) (dataObserver : Z)
| CNotifyChange (uri : Uri)
| CNormalizeUri (uri : Uri)
| CDenormalizeUri (uri : Uri)
| CExecuteBatch (operations : list DataShareOperation).

Inductive answer :=
| ANumber (n : Z)
| ABool (b : bool)
| AText (t : string)
| ATexts (l : list string)
| AUri (u : Uri)
| ASet (set : option SetHandle)
| AResults (results : list (option DataShareResult)).

(** The provider called directly. *)
Definition local_call `{!IDataShare P} (c : call) (s : P) : answer * P :=
  match c with
  | CGetFileTypes uri f => prod_map ATexts id (GetFileTypes uri f s)
  | COpenFile uri m => prod_map ANumber id (OpenFile uri m s)
  | COpenRawFile uri m => prod_map ANumber id (OpenRawFile uri m s)
  | CInsert uri v => prod_map ANumber id (Insert uri v s)
  | CUpdate uri d v => prod_map ANumber id (Update uri d v s)
  | CDelete uri d => prod_map ANumber id (Delete uri d s)
  | CQuery uri d l => prod_map ASet id (Query uri d l s)
  | CGetType uri => prod_map AText id (GetType uri s)
  | CBatchInsert uri l => prod_map ANumber id (BatchInsert uri l s)
  | CRegisterObserver uri o => prod_map ABool id (RegisterObserver uri o s)
  | CUnregisterObserver uri o => prod_map ABool id (UnregisterObserver uri o s)
  | CNotifyChange uri => prod_map ABool id (NotifyChange uri s)
  | CNormalizeUri uri => prod_map AUri id (NormalizeUri uri s)
  | CDenormalizeUri uri => prod_map AUri id (DenormalizeUri uri s)
  | CExecuteBatch l => prod_map AResults id (ExecuteBatch l s)
  end.

(** The same call through the proxy. *)
Definition remote_call `{!IpcCodes} `{!IDataShare P} (mode : SettingMode) (c : call) (ch : Channel P)
    : option (answer * Channel P) :=
  match c with
  | CGetFileTypes uri f => prod_map ATexts id <$> proxy_GetFileTypes mode uri f ch
  | COpenFile uri m => prod_map ANumber id <$> proxy_OpenFile mode uri m ch
  | COpenRawFile uri m => prod_map ANumber id <$> proxy_OpenRawFile mode uri m ch
  | CInsert uri v => prod_map ANumber id <$> proxy_Insert mode uri v ch
  | CUpdate uri d v => prod_map ANumber id <$> proxy_Update mode uri d v ch
  | CDelete uri d => prod_map ANumber id <$> proxy_Delete mode uri d ch
  | CQuery uri d l => prod_map ASet id <$> proxy_Query mode uri d l ch
  | CGetType uri => prod_map AText id <$> proxy_GetType mode uri ch
  | CBatchInsert uri l => prod_map ANumber id <$> proxy_BatchInsert mode uri l ch
  | CRegisterObserver uri o => prod_map ABool id <$> proxy_RegisterObserver mode uri o ch
  | CUnregisterObserver uri o => prod_map ABool id <$> proxy_UnregisterObserver mode uri o ch
  | CNotifyChange uri => prod_map ABool id <$> proxy_NotifyChange mode uri ch
  | CNormalizeUri uri => prod_map AUri id <$> proxy_NormalizeUri mode uri ch
  | CDenormalizeUri uri => prod_map AUri id <$> proxy_DenormalizeUri mode uri ch
  | CExecuteBatch l => prod_map (AResults ∘ fmap Some) id <$> proxy_ExecuteBatch mode l ch
  end.

(** What the journey changes in a call. *)
Definition received_call (mode : SettingMode) (c : call) : call :=
  match c with
  | CInsert uri v => CInsert uri (sent v)
  | CUpdate uri d v => CUpdate uri (received_predicates mode d) (sent v)
  | CDelete uri d => CDelete uri (received_predicates mode d)
  | CQuery uri d l => CQuery uri (received_predicates mode d) l
  | CBatchInsert uri l => CBatchInsert uri (sent <$> l)
  | CExecuteBatch l => CExecuteBatch (received_operation mode <$> l)
  | c => c
  end.

Definition all_there {A} (l : list (option A)) : bool :=
  forallb (fun x => match x with Some _ => true | None => false end) l.

(** What it changes in the answer: a failed [OpenFile] is -1; whether an observer was
    registered or notified is lost; a batch with a missing result has none. *)
Definition received_answer (c : call) (a : answer) : answer :=
  match c, a with
  | COpenFile _ _, ANumber fd => ANumber (if fd <? 0 then -1 else fd)
  | CRegisterObserver _ _, ABool _ | CUnregisterObserver _ _, ABool _ | CNotifyChange _, ABool _ =>
      ABool true
  | CExecuteBatch _, AResults l => AResults (if all_there l then l else [])
  | _, a => a
  end.

(** The stub refuses an empty filter or mode without calling the provider. *)
Definition refused (c : call) : bool :=
  match c with
  | CGetFileTypes _ t | COpenFile _ t | COpenRawFile _ t => bool_decide (t = "")
  | _ => false
  end.
Definition failure (c : call) : answer :=
  match c with
  | CGetFileTypes _ _ => ATexts []
  | CQuery _ _ _ => ASet None
  | CGetType _ => AText ""
  | CRegisterObserver _ _ | CUnregisterObserver _ _ | CNotifyChange _ => ABool false
  | CNormalizeUri _ | CDenormalizeUri _ => AUri (Uri_of "")
  | CExecuteBatch _ => AResults []
  | _ => ANumber (-1)
  end.

Definition call_sendable (c : call) : Prop :=
  match c with
  | CInsert _ v => bucket_sendable v
  | CUpdate _ d v => predicates_sendable d /\ bucket_sendable v
  | CDelete _ d => predicates_sendable d
  | CQuery _ d _ => predicates_sendable d
  | CBatchInsert _ l => Forall bucket_sendable l /\ Z.of_nat (length l) < 2147483648
  | CExecuteBatch l => Forall operation_sendable l /\ Z.of_nat (length l) < 2147483648
  | _ => True
  end.
End Calls.

Section Delivery.
Context `{IpcCodes} `{UriLaws} `{!IDataShare P} (mode : SettingMode).
Implicit Types (s : P).

(** ** Sequences of objects *)
Definition encoding_objects {A} (enc : A -> list item) (l : list A) : list item :=
  l ≫= fun a => mark ++ enc a.

Lemma write_objects_marshals {A} (m : A -> parcel -> option parcel) enc l :
  Forall (fun a => marshals (m a) (enc a)) l -> marshals (write_objects m l) (encoding_objects enc l).
Proof.
  induction 1 as [|a l Ha _ IH]; intros p l0 Hp; simpl; [exists p; by rewrite app_nil_r|].
  destruct (writes_parcelable _ _ Ha p l0 Hp) as (p1 & -> & Hp1). simpl.
  destruct (IH _ _ Hp1) as (p2 & E & Hp2). exists p2. split; [done|].
  unfold encoding_objects in *. simpl. by rewrite <- !app_assoc in *.
Qed.

Lemma read_objects_unmarshals {A} (u : parcel -> option (option A * parcel)) enc (rcv : A -> A) l :
  Forall (fun a => unmarshals u (enc a) (Some (rcv a))) l -> forall acc p l0,
  holds p (encoding_objects enc l ++ l0) ->
  exists p', read_objects u (length l) acc p = Some (Some (acc ++ (rcv <$> l)), p') /\ holds p' l0.
Proof.
  induction 1 as [|a l Ha _ IH]; intros acc p l0 Hp; simpl.
  { exists p. by rewrite app_nil_r. }
  unfold encoding_objects in Hp. simpl in Hp. rewrite <- !app_assoc in Hp.
  destruct (reads_object _ _ _ Ha p (encoding_objects enc l ++ l0)) as (p1 & -> & Hp1);
    [by rewrite <- app_assoc|]. simpl.
  destruct (IH (acc ++ [rcv a]) p1 l0 Hp1) as (p2 & E & Hp2). exists p2.
  by rewrite E, <- app_assoc.
Qed.

(** ** Requests *)
Lemma begin_request_holds uri :
  exists p, begin_request uri = Some p /\ holds p (IToken DESCRIPTOR :: mark ++ encoding_uri uri).
Proof.
  destruct (writes_parcelable _ _ (uri_writes uri) (WriteInterfaceToken DESCRIPTOR new_parcel)
    ([] ++ [IToken DESCRIPTOR])) as (p & E & Hp); [apply WriteInterfaceToken_holds, new_holds|].
  by exists p.
Qed.

Lemma send_delivers code func data l s :
  stubFuncMap_ mode code = Some func -> holds data (IToken DESCRIPTOR :: l) ->
  exists data', holds data' l /\
    SendRequest mode code data (mkChannel [] s) =
      ('(err, reply, s) ← func data' new_parcel s; Some (err, reply, mkChannel [] s)).
Proof.
  intros Hf Hd. apply ReadInterfaceToken_holds in Hd as (data' & E & Hd'). exists data'.
  split; [done|]. unfold SendRequest, OnRemoteRequest. simpl. by rewrite E, bool_decide_eq_true_2, Hf.
Qed.

Lemma read_or_refuse_reads {A} (u : parcel -> option (option A * parcel)) enc a data l reply s k :
  unmarshals u enc (Some a) -> holds data (mark ++ enc ++ l) ->
  exists data', read_or_refuse u data reply s k = k a data' /\ holds data' l.
Proof.
  intros Hu Hd. unfold read_or_refuse.
  destruct (reads_object _ _ _ Hu data l) as (data' & E & Hd'); [by rewrite <- app_assoc|].
  exists data'. by rewrite E.
Qed.

Lemma read_bucket_reads b : bucket_ok b -> unmarshals read_bucket (encoding_bucket b) (Some (sent b)).
Proof. intros Hb. by apply reads_never_null, bucket_reads. Qed.
Lemma read_predicates_reads d :
  predicates_inv d ->
  unmarshals (read_predicates mode) (encoding_predicates d) (Some (received_predicates mode d)).
Proof. intros Hd. by apply reads_never_null, predicates_read. Qed.

Lemma number_back n s :
  read_number (Some (NO_ERROR, WriteInt32 n new_parcel, mkChannel [] s)) = Some (n, mkChannel [] s).
Proof.
  unfold read_number. simpl. pose proof (WriteInt32_holds _ _ n new_holds) as Hp.
  simpl in Hp. by apply TryReadInt32_holds in Hp as (p & -> & _).
Qed.
End Delivery.

(** The steps the commands share: starting the request, delivering it, taking an
    object out of it. *)
Ltac open_request uri :=
  let data := fresh "data" in let Hd := fresh "Hd" in
  destruct (begin_request_holds uri) as (data & -> & Hd); simpl.
Ltac put_object Hm :=
  let data := fresh "data" in let Hn := fresh "Hn" in
  match goal with
  | H : holds _ _ |- _ =>
      destruct (writes_parcelable _ _ Hm _ _ H) as (data & -> & Hn); clear H; rename Hn into H;
      simpl in H; simpl
  end.
Ltac deliver mode s :=
  match goal with
  | H : holds ?d (IToken _ :: ?l) |- context [SendRequest mode ?code _ _] =>
      let data := fresh "data" in let Hn := fresh "Hn" in let E := fresh "E" in
      destruct (send_delivers mode code _ d l s eq_refl H) as (data & Hn & E); clear H;
      rename Hn into H; rewrite E; clear E; simpl
  end.
Ltac take_object Hu :=
  let data := fresh "data" in let Hn := fresh "Hn" in let E := fresh "E" in
  match goal with
  | H : holds ?d _ |- context [read_or_refuse ?u ?d ?reply ?s ?k] =>
      rewrite <- ?app_assoc in H;
      edestruct (read_or_refuse_reads u _ _ d _ reply s k Hu H) as (data & E & Hn); clear H;
      rename Hn into H; rewrite E; clear E; simpl
  end.

Section Commands.
Context `{IpcCodes} `{UriLaws} `{!IDataShare P} (mode : SettingMode).
Implicit Types (s : P).

Lemma open_request_end uri : mark ++ encoding_uri uri = mark ++ encoding_uri uri ++ [].
Proof. by rewrite app_nil_r. Qed.

Lemma remote_GetFileTypes uri f s :
  f <> "" ->
  proxy_GetFileTypes mode uri f (mkChannel [] s) =
    let '(l, s) := GetFileTypes uri f s in Some (l, mkChannel [] s).
Proof.
  intros Hf. unfold proxy_GetFileTypes. open_request uri. apply (WriteString_holds _ _ f) in Hd.
  simpl in Hd. deliver mode s. unfold CmdGetFileTypes. take_object (uri_reads uri).
  apply ReadString_holds in Hd as (d & -> & _). rewrite decide_False by done.
  destruct (GetFileTypes uri f s) as [l s']. simpl.
  pose proof (WriteStringVector_holds _ _ l new_holds) as Hr.
  by apply TryReadStringVector_holds in Hr as (r & -> & _).
Qed.

Lemma refused_GetFileTypes uri s :
  proxy_GetFileTypes mode uri "" (mkChannel [] s) = Some ([], mkChannel [] s).
Proof.
  unfold proxy_GetFileTypes. open_request uri. apply (WriteString_holds _ _ "") in Hd.
  simpl in Hd. deliver mode s. unfold CmdGetFileTypes. take_object (uri_reads uri).
  apply ReadString_holds in Hd as (d & -> & _). simpl.
  by destruct (TryReadStringVector_end _ new_holds) as (r & -> & _).
Qed.

(** The two commands that open a file. *)
Lemma remote_OpenFile uri m s :
  m <> "" ->
  proxy_OpenFile mode uri m (mkChannel [] s) =
    let '(fd, s) := OpenFile uri m s in Some (if fd <? 0 then -1 else fd, mkChannel [] s).
Proof.
  intros Hf. unfold proxy_OpenFile. open_request uri. apply (WriteString_holds _ _ m) in Hd.
  simpl in Hd. deliver mode s. unfold CmdOpenFile. take_object (uri_reads uri).
  apply ReadString_holds in Hd as (d & -> & _). rewrite decide_False by done.
  destruct (OpenFile uri m s) as [fd s']. destruct (fd <? 0); simpl.
  - by rewrite (proj2 (Z.eqb_neq _ _) invalid_value_error).
  - pose proof (WriteFileDescriptor_holds _ _ fd new_holds) as Hr.
    by apply ReadFileDescriptor_holds in Hr as (r & -> & _).
Qed.

Lemma remote_OpenRawFile uri m s :
  m <> "" ->
  proxy_OpenRawFile mode uri m (mkChannel [] s) =
    let '(fd, s) := OpenRawFile uri m s in Some (fd, mkChannel [] s).
Proof.
  intros Hf. unfold proxy_OpenRawFile. open_request uri. apply (WriteString_holds _ _ m) in Hd.
  simpl in Hd. deliver mode s. unfold CmdOpenRawFile. take_object (uri_reads uri).
  apply ReadString_holds in Hd as (d & -> & _). rewrite decide_False by done.
  destruct (OpenRawFile uri m s) as [fd s']. apply number_back.
Qed.

Lemma refused_open uri s :
  proxy_OpenFile mode uri "" (mkChannel [] s) = Some (-1, mkChannel [] s) /\
  proxy_OpenRawFile mode uri "" (mkChannel [] s) = Some (-1, mkChannel [] s).
Proof.
  split; unfold proxy_OpenFile, proxy_OpenRawFile; open_request uri;
    apply (WriteString_holds _ _ "") in Hd; simpl in Hd; deliver mode s;
    unfold CmdOpenFile, CmdOpenRawFile; take_object (uri_reads uri);
    apply ReadString_holds in Hd as (d & -> & _); simpl;
    by rewrite (proj2 (Z.eqb_neq _ _) invalid_value_error).
Qed.

(** Insertion, update and deletion. *)
Lemma remote_Insert uri v s :
  bucket_sendable v ->
  proxy_Insert mode uri v (mkChannel [] s) =
    let '(n, s) := Insert uri (sent v) s in Some (n, mkChannel [] s).
Proof.
  intros [Hok Hlen]. unfold proxy_Insert. open_request uri. put_object (bucket_writes v Hok Hlen).
  deliver mode s. unfold CmdInsert. take_object (uri_reads uri).
  rewrite <- (app_nil_r (encoding_bucket v)) in Hd. take_object (read_bucket_reads v Hok).
  destruct (Insert uri (sent v) s) as [n s']. apply number_back.
Qed.

Lemma remote_Update uri q v s :
  predicates_sendable q -> bucket_sendable v ->
  proxy_Update mode uri q v (mkChannel [] s) =
    let '(n, s) := Update uri (received_predicates mode q) (sent v) s in Some (n, mkChannel [] s).
Proof.
  intros [Hq Hql] [Hok Hlen]. unfold proxy_Update. open_request uri.
  put_object (predicates_write q Hq Hql). put_object (bucket_writes v Hok Hlen).
  deliver mode s. unfold CmdUpdate. take_object (uri_reads uri).
  take_object (read_predicates_reads mode q Hq).
  rewrite <- (app_nil_r (encoding_bucket v)) in Hd. take_object (read_bucket_reads v Hok).
  destruct (Update _ _ _ s) as [n s']. apply number_back.
Qed.

Lemma remote_Delete uri q s :
  predicates_sendable q ->
  proxy_Delete mode uri q (mkChannel [] s) =
    let '(n, s) := Delete uri (received_predicates mode q) s in Some (n, mkChannel [] s).
Proof.
  intros [Hq Hql]. unfold proxy_Delete. open_request uri. put_object (predicates_write q Hq Hql).
  deliver mode s. unfold CmdDelete. take_object (uri_reads uri).
  rewrite <- (app_nil_r (encoding_predicates q)) in Hd. take_object (read_predicates_reads mode q Hq).
  destruct (Delete _ _ s) as [n s']. apply number_back.
Qed.

Lemma remote_Query uri q l s :
  predicates_sendable q ->
  proxy_Query mode uri q l (mkChannel [] s) =
    let '(set, s) := Query uri (received_predicates mode q) l s in Some (set, mkChannel [] s).
Proof.
  intros [Hq Hql]. unfold proxy_Query. open_request uri. put_object (predicates_write q Hq Hql).
  apply (WriteStringVector_holds _ _ l) in Hd. simpl in Hd.
  deliver mode s. unfold CmdQuery. take_object (uri_reads uri).
  take_object (read_predicates_reads mode q Hq).
  apply TryReadStringVector_holds in Hd as (d & -> & _).
  destruct (Query _ _ _ s) as [[[o b]|] s']; simpl;
    [|by rewrite (proj2 (Z.eqb_neq _ _) invalid_value_error)].
  unfold WriteToParcel, ReadFromParcel. simpl. pose proof (WriteRemoteObject_holds _ _ o new_holds) as Hr.
  destruct b as [[name mem]|]; simpl.
  - apply (WriteString_holds _ _ name), (WriteAshmem_holds _ _ mem) in Hr. simpl in Hr.
    apply ReadRemoteObject_holds in Hr as (r1 & -> & Hr). apply ReadString_holds in Hr as (r2 & -> & Hr).
    by apply ReadAshmem_holds in Hr as (r3 & -> & _).
  - apply ReadRemoteObject_holds in Hr as (r1 & -> & Hr). apply ReadString_end in Hr as (r2 & -> & Hr).
    by apply ReadAshmem_end in Hr as (r3 & -> & _).
Qed.

Lemma remote_GetType uri s :
  proxy_GetType mode uri (mkChannel [] s) =
    let '(t, s) := GetType uri s in Some (t, mkChannel [] s).
Proof.
  unfold proxy_GetType. open_request uri. deliver mode s. unfold CmdGetType.
  rewrite open_request_end in Hd. take_object (uri_reads uri).
  destruct (GetType uri s) as [t s']. simpl. pose proof (WriteString_holds _ _ t new_holds) as Hr.
  by apply ReadString_holds in Hr as (r & -> & _).
Qed.

Lemma remote_BatchInsert uri l s :
  Forall bucket_sendable l -> Z.of_nat (length l) < 2147483648 ->
  proxy_BatchInsert mode uri l (mkChannel [] s) =
    let '(n, s) := BatchInsert uri (sent <$> l) s in Some (n, mkChannel [] s).
Proof.
  intros Hl Hlen. unfold proxy_BatchInsert. open_request uri. rewrite s32_small by lia.
  apply (WriteInt32_holds _ _ (Z.of_nat (length l))) in Hd. simpl in Hd.
  destruct (write_objects_marshals DataShareValuesBucket.Marshalling encoding_bucket l) with (2 := Hd)
    as (d1 & -> & Hd1); [|clear Hd; rename Hd1 into Hd].
  { eapply Forall_impl; [exact Hl|]. intros b []. by apply bucket_writes. }
  simpl in *. deliver mode s. unfold CmdBatchInsert. take_object (uri_reads uri).
  apply TryReadInt32_holds in Hd as (d2 & -> & Hd). rewrite Nat2Z.id.
  rewrite <- (app_nil_r (encoding_objects _ l)) in Hd.
  destruct (read_objects_unmarshals read_bucket encoding_bucket sent l) with (2 := Hd) (acc := @nil DataShareValuesBucket)
    as (d3 & -> & _).
  { eapply Forall_impl; [exact Hl|]. intros b [Hb _]. by apply read_bucket_reads. }
  simpl. destruct (BatchInsert _ _ s) as [n s']. apply number_back.
Qed.

(** Observers and uris. *)
Lemma remote_observer cmd f uri o s :
  stubFuncMap_ mode cmd = Some (with_observer f) ->
  (data ← begin_request uri;
   read_success (SendRequest mode cmd (WriteRemoteObject o data) (mkChannel [] s))) =
  let '(_, s) := f uri o s in Some (true, mkChannel [] s).
Proof.
  intros Hf. open_request uri. apply (WriteRemoteObject_holds _ _ o) in Hd. simpl in Hd.
  destruct (send_delivers mode cmd _ _ _ s Hf Hd) as (d & Hd1 & ->). unfold with_observer. clear Hd.
  take_object (uri_reads uri). apply ReadRemoteObject_holds in Hd1 as (d1 & -> & _).
  by destruct (f uri o s).
Qed.

Lemma remote_NotifyChange uri s :
  proxy_NotifyChange mode uri (mkChannel [] s) =
    let '(_, s) := NotifyChange uri s in Some (true, mkChannel [] s).
Proof.
  unfold proxy_NotifyChange. open_request uri. deliver mode s. unfold CmdNotifyChange.
  rewrite open_request_end in Hd. take_object (uri_reads uri). by destruct (NotifyChange uri s).
Qed.

Lemma remote_uri cmd (f : Uri -> P -> Uri * P) uri s :
  stubFuncMap_ mode cmd = Some (fun data reply s =>
    read_or_refuse Uri_Unmarshalling data reply s (fun uri data =>
      let '(ret, s) := f uri s in
      reply ← WriteParcelable (Uri_Marshalling ret) reply; Some (NO_ERROR, reply, s))) ->
  (data ← begin_request uri; read_uri (SendRequest mode cmd data (mkChannel [] s))) =
  let '(u, s) := f uri s in Some (u, mkChannel [] s).
Proof.
  intros Hf. open_request uri. destruct (send_delivers mode cmd _ _ _ s Hf Hd) as (d & Hd1 & ->). clear Hd.
  rewrite open_request_end in Hd1. take_object (uri_reads uri). destruct (f uri s) as [u s'].
  destruct (writes_parcelable _ _ (uri_writes u) _ _ new_holds) as (r & -> & Hr). simpl.
  rewrite <- (app_nil_r (_ ++ _)) in Hr.
  by destruct (reads_object _ _ _ (uri_reads u) _ _ Hr) as (r1 & -> & _).
Qed.
End Commands.

Section Batch.
Context `{IpcCodes} `{UriLaws} `{!IDataShare P} (mode : SettingMode).
Implicit Types (s : P).

Lemma write_results_all rs : forall p l, holds p l ->
  exists p', write_results (Some <$> rs) p = Some (true, p') /\
    holds p' (l ++ encoding_objects encoding_result rs).
Proof.
  induction rs as [|r rs IH]; intros p l Hp; simpl; [exists p; by rewrite app_nil_r|].
  destruct (writes_parcelable _ _ (result_writes r) p l Hp) as (p1 & -> & Hp1). simpl.
  destruct (IH _ _ Hp1) as (p2 & E & Hp2). exists p2. split; [done|].
  unfold encoding_objects in *. simpl. by rewrite <- !app_assoc in *.
Qed.

Lemma write_results_missing l : all_there l = false -> forall p,
  (exists l, holds p l) -> exists p', write_results l p = Some (false, p').
Proof.
  induction l as [|[r|] l IH]; intros Hl p (l0 & Hp); [done|simpl|by exists p].
  destruct (writes_parcelable _ _ (result_writes r) p l0 Hp) as (p1 & -> & Hp1). simpl.
  apply IH; [done|eauto].
Qed.

Lemma read_results_all rs : forall acc p l, holds p (encoding_objects encoding_result rs ++ l) ->
  read_results (length rs) acc p = Some (acc ++ rs).
Proof.
  induction rs as [|r rs IH]; intros acc p l Hp; simpl; [by rewrite app_nil_r|].
  unfold encoding_objects in Hp. simpl in Hp. rewrite <- !app_assoc in Hp.
  destruct (reads_object _ _ _ (result_reads r) p (encoding_objects encoding_result rs ++ l)) as (p1 & -> & Hp1);
    [by rewrite <- app_assoc|]. simpl. by rewrite (IH _ _ _ Hp1), <- app_assoc.
Qed.

Lemma all_some {A} (l : list (option A)) : all_there l = true -> exists rs, l = Some <$> rs.
Proof.
  induction l as [|[r|] l IH]; intros Hl; [by exists []| |done].
  destruct (IH Hl) as [rs ->]. by exists (r :: rs).
Qed.

Lemma write_operations l : forall p l0,
  Forall operation_sendable l -> holds p l0 ->
  exists p', write_objects DataShareOperation.Marshalling l p = Some p' /\
    holds p' (l0 ++ encoding_objects encoding_operation l).
Proof.
  intros p l0 Hl. apply write_objects_marshals. eapply Forall_impl; [exact Hl|]. apply operation_writes.
Qed.

Lemma remote_ExecuteBatch l s :
  Forall operation_sendable l -> Z.of_nat (length l) < 2147483648 ->
  Z.of_nat (length (ExecuteBatch (received_operation mode <$> l) s).1) < 2147483648 ->
  exists rs,
    proxy_ExecuteBatch mode l (mkChannel [] s) =
      Some (rs, mkChannel [] (ExecuteBatch (received_operation mode <$> l) s).2) /\
    (let results := (ExecuteBatch (received_operation mode <$> l) s).1 in
     Some <$> rs = if all_there results then results else []).
Proof.
  intros Hl Hlen Hres. unfold proxy_ExecuteBatch. rewrite s32_small by lia.
  pose proof (WriteInterfaceToken_holds _ _ DESCRIPTOR new_holds) as Hd.
  apply (WriteInt32_holds _ _ (Z.of_nat (length l))), (write_operations l _ _ Hl) in Hd as (d1 & -> & Hd).
  simpl in *. deliver mode s. unfold CmdExecuteBatch.
  apply TryReadInt32_holds in Hd as (d2 & -> & Hd). rewrite Nat2Z.id.
  rewrite <- (app_nil_r (encoding_objects _ l)) in Hd.
  destruct (read_objects_unmarshals (DataShareOperation.Unmarshalling mode) encoding_operation
    (received_operation mode) l) with (2 := Hd) (acc := @nil DataShareOperation) as (d3 & -> & _).
  { eapply Forall_impl; [exact Hl|]. intros op Hop. by apply operation_reads. }
  simpl. destruct (ExecuteBatch _ s) as [results s']. simpl in *. rewrite s32_small by lia.
  pose proof (WriteInt32_holds _ _ (Z.of_nat (length results)) new_holds) as Hr.
  destruct (all_there results) eqn:Hall.
  - destruct (all_some _ Hall) as [rs ->]. rewrite length_fmap in *.
    apply (write_results_all rs) in Hr as (r1 & -> & Hr). simpl in *.
    apply TryReadInt32_holds in Hr as (r2 & -> & Hr). rewrite Nat2Z.id.
    rewrite <- (app_nil_r (encoding_objects _ rs)) in Hr. rewrite (read_results_all rs [] _ _ Hr).
    by exists rs.
  - destruct (write_results_missing _ Hall _ (ex_intro _ _ Hr)) as (r1 & ->). simpl.
    rewrite (proj2 (Z.eqb_neq _ _) invalid_value_error). by exists [].
Qed.

(** ** A transport that fails *)
Lemma send_fails code data e fs s :
  e <> 0 -> SendRequest mode code data (mkChannel (e :: fs) s) = Some (e, new_parcel, mkChannel fs s).
Proof. intros He. unfold SendRequest. simpl. by rewrite (proj2 (Z.eqb_neq e 0)). Qed.

Lemma transport_failure c e fs s :
  call_sendable c -> e <> 0 ->
  remote_call mode c (mkChannel (e :: fs) s) = Some (failure c, mkChannel fs s).
Proof.
  intros Hc He.
  assert (Hne : (e =? NO_ERROR) = false) by (by apply Z.eqb_neq).
  destruct c; simpl in Hc |- *;
    unfold proxy_GetFileTypes, proxy_OpenFile, proxy_OpenRawFile, proxy_Insert, proxy_Update, proxy_Delete,
      proxy_Query, proxy_GetType, proxy_BatchInsert, proxy_RegisterObserver, proxy_UnregisterObserver,
      proxy_NotifyChange, proxy_NormalizeUri, proxy_DenormalizeUri, proxy_ExecuteBatch;
    try open_request uri.
  - rewrite send_fails by done. simpl. by destruct (TryReadStringVector_end _ new_holds) as (r & -> & _).
  - rewrite send_fails by done. simpl. by rewrite Hne.
  - rewrite send_fails by done. simpl. by rewrite Hne.
  - destruct Hc as [Hb Hl]. put_object (bucket_writes value Hb Hl). rewrite send_fails by done. simpl. by rewrite Hne.
  - destruct Hc as [[Hq Hql] [Hb Hl]]. put_object (predicates_write predicates Hq Hql).
    put_object (bucket_writes value Hb Hl). rewrite send_fails by done. simpl. by rewrite Hne.
  - destruct Hc as [Hq Hql]. put_object (predicates_write predicates Hq Hql).
    rewrite send_fails by done. simpl. by rewrite Hne.
  - destruct Hc as [Hq Hql]. put_object (predicates_write predicates Hq Hql).
    rewrite send_fails by done. simpl. by rewrite Hne.
  - rewrite send_fails by done. simpl. by rewrite Hne.
  - destruct Hc as [Hf _]. apply (WriteInt32_holds _ _ (s32 (Z.of_nat (length values)))) in Hd.
    destruct (write_objects_marshals DataShareValuesBucket.Marshalling encoding_bucket values) with (2 := Hd)
      as (d1 & -> & _); [eapply Forall_impl; [exact Hf|]; intros b []; by apply bucket_writes|].
    simpl. rewrite send_fails by done. simpl. by rewrite Hne.
  - rewrite send_fails by done. simpl. by rewrite Hne.
  - rewrite send_fails by done. simpl. by rewrite Hne.
  - rewrite send_fails by done. simpl. by rewrite Hne.
  - rewrite send_fails by done. simpl. by rewrite Hne.
  - rewrite send_fails by done. simpl. by rewrite Hne.
  - destruct Hc as [Hf _]. pose proof (WriteInterfaceToken_holds _ _ DESCRIPTOR new_holds) as Hd.
    apply (WriteInt32_holds _ _ (s32 (Z.of_nat (length operations)))),
      (write_operations operations _ _ Hf) in Hd as (d1 & -> & _).
    simpl. rewrite send_fails by done. simpl. by rewrite Hne.
Qed.

Lemma delivered_call c s :
  call_sendable c ->
  (forall l, (local_call (received_call mode c) s).1 = AResults l -> Z.of_nat (length l) < 2147483648) ->
  remote_call mode c (mkChannel [] s) =
    (if refused c then Some (failure c, mkChannel [] s)
     else let '(a, s) := local_call (received_call mode c) s in Some (received_answer c a, mkChannel [] s)).
Proof.
  intros Hc Hr.
  destruct c as [uri t|uri t|uri t|uri v|uri q v|uri q|uri q l|uri|uri l|uri o|uri o|uri|uri|uri|l];
    simpl in Hc |- *.
  - case_bool_decide; subst; [by rewrite refused_GetFileTypes|].
    rewrite remote_GetFileTypes by done. by destruct (GetFileTypes uri t s).
  - case_bool_decide; subst; [by rewrite (proj1 (refused_open mode uri s))|].
    rewrite remote_OpenFile by done. by destruct (OpenFile uri t s).
  - case_bool_decide; subst; [by rewrite (proj2 (refused_open mode uri s))|].
    rewrite remote_OpenRawFile by done. by destruct (OpenRawFile uri t s).
  - rewrite remote_Insert by done. by destruct (Insert _ _ s).
  - destruct Hc. rewrite remote_Update by done. by destruct (Update _ _ _ s).
  - rewrite remote_Delete by done. by destruct (Delete _ _ s).
  - rewrite remote_Query by done. by destruct (Query _ _ _ s).
  - rewrite remote_GetType. by destruct (GetType _ s).
  - destruct Hc. rewrite remote_BatchInsert by done. by destruct (BatchInsert _ _ s).
  - unfold proxy_RegisterObserver. rewrite (remote_observer mode _ RegisterObserver) by done.
    by destruct (RegisterObserver _ _ s).
  - unfold proxy_UnregisterObserver. rewrite (remote_observer mode _ UnregisterObserver) by done.
    by destruct (UnregisterObserver _ _ s).
  - rewrite remote_NotifyChange. by destruct (NotifyChange _ s).
  - unfold proxy_NormalizeUri. rewrite (remote_uri mode _ NormalizeUri) by done. by destruct (NormalizeUri _ s).
  - unfold proxy_DenormalizeUri. rewrite (remote_uri mode _ DenormalizeUri) by done. by destruct (DenormalizeUri _ s).
  - destruct Hc as [Hf Hlen]. simpl in Hr.
    destruct (remote_ExecuteBatch l s Hf Hlen) as (rs & -> & Hrs).
    { destruct (ExecuteBatch _ s) as [res s']. by apply Hr. }
    destruct (ExecuteBatch _ s) as [res s']. simpl in *. unfold compose. by rewrite Hrs.
Qed.

(** C15: A call through the proxy is the call of the provider. For each of the fifteen
    commands, when the transport delivers the request, proxy, parcels and stub return
    what the provider returns for the call as received, and leave the provider in the
    state that call leaves; the stub refuses an empty filter or file mode without
    calling the provider. When the transport reports an error the proxy returns its
    failure value and the provider is not touched. On the way back a failed
    [OpenFile] becomes -1, a batch with a missing result has none, and whether an
    observer was registered, unregistered or notified is lost: the proxy says yes. *)
Theorem remote_equals_local c s :
  call_sendable c ->
  (forall l, (local_call (received_call mode c) s).1 = AResults l -> Z.of_nat (length l) < 2147483648) ->
  remote_call mode c (mkChannel [] s) =
    (if refused c then Some (failure c, mkChannel [] s)
     else let '(a, s) := local_call (received_call mode c) s in Some (received_answer c a, mkChannel [] s)) /\
  forall e fs, e <> 0 ->
    remote_call mode c (mkChannel (e :: fs) s) = Some (failure c, mkChannel fs s).
Proof. intros Hc Hr. split; [by apply delivered_call|intros; by apply transport_failure]. Qed.
End Batch.

(** ** A concrete service: a table that counts its rows *)
#[local] Instance demo_codes : IpcCodes.
Proof. by refine {| ERR_INVALID_VALUE := 22; ERR_INVALID_STATE := 5; base_OnRemoteRequest _ := 305 |}. Defined.

Definition demo_result_of (n : Z) (op : DataShareOperation) : option DataShareResult :=
  if IsInsertOperation op then Some (result_of_count (n + 1)) else None.

#[local] Instance demo_service : IDataShare Z := {|
  GetFileTypes _ _ n := ([], n); OpenFile _ _ n := (-5, n); OpenRawFile _ _ n := (7, n);
  Insert _ v n := (n + 1, n + 1); Update _ _ _ n := (n, n); Delete _ _ n := (n, 0);
  Query _ _ _ n := (Some (mkSetHandle 3 (Some ("block", 9))), n);
  GetType _ n := ("text", n); BatchInsert _ l n := (n, n + Z.of_nat (length l));
  RegisterObserver _ _ n := (false, n); UnregisterObserver _ _ n := (false, n); NotifyChange _ n := (false, n);
  NormalizeUri u n := (u, n); DenormalizeUri u n := (u, n);
  ExecuteBatch l n := (demo_result_of n <$> l, n + Z.of_nat (length l));
|}.

Definition demo_operation : DataShareOperation :=
  match (b ← NewInsertBuilder (Some "data:///t"); b ← WithValuesBucket (PutInt new_bucket "age" 7) b; Build b) with
  | Some op => op
  | None => bare_operation
  end.

Lemma demo_operation_sendable : operation_sendable demo_operation.
Proof.
  split; [|split; [|split; [|split]]]; [|by intros d Hd|by intros b Hb|constructor|done].
  intros b Hb. vm_compute in Hb. simplify_eq. split; [|done]. split; by repeat constructor.
Qed.

Lemma remote_equals_local_witness :
  remote_call INVALID_MODE (CExecuteBatch [demo_operation]) (mkChannel [] 4) =
    Some (AResults [Some (result_of_count 5)], mkChannel [] 5) /\
  forall e fs, e <> 0 ->
    remote_call INVALID_MODE (CExecuteBatch [demo_operation]) (mkChannel (e :: fs) 4) =
      Some (AResults [], mkChannel fs 4).
Proof.
  destruct (remote_equals_local INVALID_MODE (CExecuteBatch [demo_operation]) 4) as [E1 E2].
  - split; [|done]. constructor; [apply demo_operation_sendable|constructor].
  - intros l Hl. vm_compute in Hl. simplify_eq. reflexivity.
  - split; [exact E1|exact E2].
Defined.

(** The provider's refusal of an observer does not reach the consumer. *)
Example observer_answer_lost :
  (RegisterObserver (P := Z) "data:///t" 1 4).1 = false /\
  remote_call INVALID_MODE (CRegisterObserver "data:///t" 1) (mkChannel [] 4) =
    Some (ABool true, mkChannel [] 4).
Proof. vm_compute. done. Qed.
