(* ===== verification/RdbUtils.v ===== *)
(** * From shared data to the database

    Model of frameworks/native/rdb_data_share_adapter/src/rdb_utils.cpp: a provider
    turns the values and predicates it receives into those of its database. The
    result is [Throws] when [std::get] meets another alternative, [Undefined] when
    a variable is read that a failing getter has left uninitialised. *)
From S2P Require Import Prelude Memory Strings StdMap DataShareValueObject DataShareValuesBucket DataSharePredicatesObject ValueObject ValuesBucket AbsPredicates RdbPredicates DataSharePredicates.

Module SV := DataShareValueObject.
Module SB := DataShareValuesBucket.
Module SO := DataSharePredicatesObject.
Module SP := DataSharePredicates.
Module AP := AbsPredicates.
Module RP := RdbPredicates.

(** ** Values *)
Definition ToValueObject (value : SV.DataShareValueObject) : outcome (option ValueObject) :=
  match SV.GetType value with
  | SV.TYPE_BOOL => tmpVal <-- out_parameter (SV.GetBool value); Ok (Some (ValueObject_bool tmpVal))
  | SV.TYPE_INT => tmpVal <-- out_parameter (SV.GetInt value); Ok (Some (ValueObject_int tmpVal))
  | SV.TYPE_DOUBLE =>
      tmpVal <-- out_parameter (SV.GetDouble value); Ok (Some (ValueObject_double tmpVal))
  | SV.TYPE_STRING =>
      tmpVal <-- out_parameter (SV.GetString value); Ok (Some (ValueObject_string tmpVal))
  | SV.TYPE_BLOB => tmpVal <-- out_parameter (SV.GetBlob value); Ok (Some (ValueObject_blob tmpVal))
  | SV.TYPE_NULL => Ok None
  end.

Fixpoint ToValuesBucket_loop (shared : list (string * SV.DataShareValueObject))
    (valuesMap : list (string * ValueObject)) : outcome (list (string * ValueObject)) :=
  match shared with
  | [] => Ok valuesMap
  | (key, value) :: shared =>
      v <-- ToValueObject value;
      ToValuesBucket_loop shared
        (match v with Some v => sm_insert key v valuesMap | None => valuesMap end)
  end.

Definition ToValuesBucket (dataShareValuesBucket : SB.DataShareValuesBucket)
    : outcome ValuesBucket :=
  m <-- ToValuesBucket_loop (SB.GetAll dataShareValuesBucket) []; Ok (mkValuesBucket m).

(** ** Predicates *)
Definition ToString (o : SO.DataSharePredicatesObject) : outcome string :=
  match SO.GetType o with
  | SO.TYPE_INT => v <-- out_parameter (SO.GetInt o); Ok (to_string v)
  | SO.TYPE_DOUBLE => v <-- out_parameter (SO.GetDouble o); Ok (to_string_fp (decode_double v))
  | SO.TYPE_STRING =>
      match SO.GetString o with Ok v => Ok v | Err _ => Ok " " | Throws => Throws | Undefined => Undefined end
  | SO.TYPE_BOOL => v <-- out_parameter (SO.GetBool o); Ok (bool_to_string v)
  | SO.TYPE_LONG => v <-- out_parameter (SO.GetLong o); Ok (to_string v)
  | _ => Ok " "
  end.

(** [std::get<std::vector<std::string>>]. *)
Definition get_strings (o : SO.DataSharePredicatesObject) : outcome (list string) :=
  match SO.value o with SO.VStringVector l => Ok l | _ => Throws end.

Section Adapter.
Context `{DistributedPredicates}.
Implicit Types (op : OperationItem) (p : AbsRdbPredicates).

(** The methods [RdbPredicates] inherits unchanged. *)
Definition inherited (f : AbsPredicates -> AbsPredicates) p : AbsRdbPredicates :=
  with_base p (f (base p)) (RP.predicates_ p).

(** The method [f] with the texts of the first two parameters. *)
Definition with_two op (f : string -> string -> AbsRdbPredicates) : outcome AbsRdbPredicates :=
  s1 <-- ToString (para1 op); s2 <-- ToString (para2 op); Ok (f s1 s2).
Definition with_three op (f : string -> string -> string -> AbsRdbPredicates)
    : outcome AbsRdbPredicates :=
  s1 <-- ToString (para1 op); s2 <-- ToString (para2 op); s3 <-- ToString (para3 op);
  Ok (f s1 s2 s3).
Definition with_one op (f : string -> AbsRdbPredicates) : outcome AbsRdbPredicates :=
  s1 <-- ToString (para1 op); Ok (f s1).

Definition ToOperateFirst op p : outcome AbsRdbPredicates :=
  match operation op with
  | SP.EQUAL_TO => with_two op (RP.EqualTo p)
  | SP.NOT_EQUAL_TO => with_two op (RP.NotEqualTo p)
  | SP.GREATER_THAN => with_two op (fun f v => inherited (fun b => AP.GreaterThan b f v) p)
  | SP.LESS_THAN => with_two op (fun f v => inherited (fun b => AP.LessThan b f v) p)
  | SP.GREATER_THAN_OR_EQUAL_TO =>
      with_two op (fun f v => inherited (fun b => AP.GreaterThanOrEqualTo b f v) p)
  | SP.AND => Ok (RP.And p)
  | SP.OR => Ok (RP.Or p)
  | SP.BEGIN_WARP => Ok (inherited AP.BeginWrap p)
  | SP.BETWEEN => with_three op (fun f l h => inherited (fun b => AP.Between b f l h) p)
  | _ => Ok p
  end.

Definition ToOperateSecond op p : outcome AbsRdbPredicates :=
  match operation op with
  | SP.BEGIN_WITH => with_two op (fun f v => inherited (fun b => AP.BeginsWith b f v) p)
  | SP.CONTAINS => with_two op (fun f v => inherited (fun b => AP.Contains b f v) p)
  | SP.DISTINCT => Ok (inherited AP.Distinct p)
  | SP.IN =>
      f <-- ToString (para1 op); l <-- get_strings (para2 op);
      Ok (inherited (fun b => AP.In b f l) p)
  | SP.GLOB => with_two op (fun f v => inherited (fun b => AP.Glob b f v) p)
  | SP.END_WARP => Ok (inherited AP.EndWrap p)
  | SP.INDEXED_BY => with_one op (fun n => inherited (fun b => AP.IndexedBy b n) p)
  | SP.NOTBETWEEN => with_three op (fun f l h => inherited (fun b => AP.NotBetween b f l h) p)
  | SP.ORDER_BY_ASC => with_one op (RP.OrderByAsc p)
  | _ => Ok p
  end.

Definition ToOperateThird op p : outcome AbsRdbPredicates :=
  match operation op with
  | SP.ORDER_BY_DESC => with_one op (RP.OrderByDesc p)
  | SP.END_WITH => with_two op (fun f v => inherited (fun b => AP.EndsWith b f v) p)
  | SP.IS_NULL => with_one op (fun f => inherited (fun b => AP.IsNull b f) p)
  | SP.IS_NOT_NULL => with_one op (fun f => inherited (fun b => AP.IsNotNull b f) p)
  | SP.OFFSET =>
      offsetVal <-- out_parameter (SO.GetInt (para1 op));
      Ok (inherited (fun b => AP.Offset b offsetVal) p)
  | SP.LESS_THAN_OR_EQUAL_TO =>
      with_two op (fun f v => inherited (fun b => AP.LessThanOrEqualTo b f v) p)
  | SP.NOT_IN =>
      f <-- ToString (para1 op); l <-- get_strings (para2 op);
      Ok (inherited (fun b => AP.NotIn b f l) p)
  | SP.LIKE => with_two op (fun f v => inherited (fun b => AP.Like b f v) p)
  | SP.LIMIT =>
      val <-- out_parameter (SO.GetInt (para1 op));
      Ok (inherited (fun b => AP.Limit b val) p)
  | SP.GROUP_BY =>
      l <-- get_strings (para1 op); Ok (inherited (fun b => AP.GroupBy b l) p)
  | _ => Ok p
  end.

Definition ToOperate op p : outcome AbsRdbPredicates :=
  p <-- ToOperateFirst op p; p <-- ToOperateSecond op p; ToOperateThird op p.

Fixpoint ToPredicates_loop (ops : list OperationItem) p : outcome AbsRdbPredicates :=
  match ops with [] => Ok p | op :: ops => p <-- ToOperate op p; ToPredicates_loop ops p end.

Definition ToPredicates (d : DataSharePredicates) (table : string) : outcome AbsRdbPredicates :=
  p <-- ToPredicates_loop (SP.GetOperationList d) (new_RdbPredicates table);
  if decide (SP.GetSettingMode d = QUERY_LANGUAGE) then
    let p := inherited (fun b => AP.SetWhereClause b (SP.GetWhereClause d)) p in
    let p := inherited (fun b => AP.SetWhereArgs b (SP.GetWhereArgs d)) p in
    Ok (inherited (fun b => AP.SetOrder b (SP.GetOrder d)) p)
  else Ok p.
End Adapter.
