(* ===== verification/RdbUtilsSpec.v ===== *)
(** * Correctness of the data share adapter

    What a consumer writes into shared values and predicates, sends, and the
    provider adapts, compared with the same calls made on the database's own
    values and predicates. *)
From S2P Require Import Prelude Memory Strings StdMap Parcel DataShareValueObject DataShareValuesBucket DataSharePredicatesObject ValueObject ValuesBucket AbsPredicates RdbPredicates DataSharePredicates RdbUtils.
From Stdlib Require Import Ascii.

#[local] Open Scope list_scope.

(** ** Values: the same calls on both kinds of bucket *)
Definition run_shared (o : bucket_op) (b : SB.DataShareValuesBucket) : SB.DataShareValuesBucket :=
  match o with
  | OpPutString c v => SB.PutString b c v
  | OpPutInt c v => SB.PutInt b c v
  | OpPutLong c v => SB.PutLong b c v
  | OpPutDouble c v => SB.PutDouble b c v
  | OpPutBool c v => SB.PutBool b c v
  | OpPutBlob c v => SB.PutBlob b c v
  | OpPutNull c => SB.PutNull b c
  | OpDelete c => SB.Delete b c
  | OpClear => SB.Clear b
  end.

Definition shared_bucket (ops : list bucket_op) : SB.DataShareValuesBucket :=
  foldl (fun b o => run_shared o b) SB.new_bucket ops.
Definition direct_bucket (ops : list bucket_op) : ValuesBucket :=
  foldl (fun b o => ValuesBucket.run_op o b) ValuesBucket_empty ops.

(** The shared counterpart of a value of the database. *)
Definition share_variant (v : ValueObject.variant) : SV.variant :=
  match v with
  | ValueObject.VInt64 z => SV.VInt64 z
  | ValueObject.VDouble d => SV.VDouble d
  | ValueObject.VString s => SV.VString s
  | ValueObject.VBool b => SV.VBool b
  | ValueObject.VBlob l => SV.VBlob l
  end.
Definition share_type (t : ValueObjectType) : SV.DataShareValueObjectType :=
  match t with
  | ValueObject.TYPE_NULL => SV.TYPE_NULL | ValueObject.TYPE_INT => SV.TYPE_INT
  | ValueObject.TYPE_DOUBLE => SV.TYPE_DOUBLE | ValueObject.TYPE_STRING => SV.TYPE_STRING
  | ValueObject.TYPE_BLOB => SV.TYPE_BLOB | ValueObject.TYPE_BOOL => SV.TYPE_BOOL
  end.
Definition share_value (o : ValueObject) : SV.DataShareValueObject :=
  SV.mkDataShareValueObject (share_type (ValueObject.type o)) (share_variant (ValueObject.value o)).
Definition share_entry (e : string * ValueObject) : string * SV.DataShareValueObject :=
  (e.1, share_value e.2).

Lemma share_insert k v m :
  sm_insert k (share_value v) (share_entry <$> m) = share_entry <$> sm_insert k v m.
Proof.
  induction m as [|[k' v'] m IH]; [done|]. cbn. destruct (String.compare k k'); [done..|].
  cbn. by rewrite IH.
Qed.

Lemma share_erase k m : sm_erase k (share_entry <$> m) = share_entry <$> sm_erase k m.
Proof.
  unfold sm_erase. induction m as [|[k' v'] m IH]; [done|]. rewrite fmap_cons, !filter_cons. simpl.
  case_decide; [|done]. rewrite fmap_cons. by f_equal.
Qed.

Lemma run_shared_map o b b' :
  SB.valuesMap b' = share_entry <$> valuesMap b ->
  SB.valuesMap (run_shared o b') = share_entry <$> valuesMap (ValuesBucket.run_op o b).
Proof.
  intros E. destruct o; simpl; rewrite ?E; try apply share_erase; try done;
    by rewrite <- share_insert.
Qed.

Lemma shared_bucket_map ops :
  SB.valuesMap (shared_bucket ops) = share_entry <$> valuesMap (direct_bucket ops).
Proof.
  assert (forall b' b, SB.valuesMap b' = share_entry <$> valuesMap b ->
    SB.valuesMap (foldl (fun b o => run_shared o b) b' ops) =
      share_entry <$> valuesMap (foldl (fun b o => ValuesBucket.run_op o b) b ops)) as Hrun.
  { induction ops as [|o ops IH]; intros b' b E; [done|]. by apply IH, run_shared_map. }
  by apply Hrun.
Qed.

Lemma direct_bucket_ok ops : ValuesBucket.bucket_ok (direct_bucket ops).
Proof.
  assert (forall b m, bucket_repr b m ->
    exists m', bucket_repr (foldl (fun b o => ValuesBucket.run_op o b) b ops) m') as Hrun.
  { induction ops as [|o ops IH]; intros b m HR; [eauto|]. by eapply IH, run_op_repr. }
  destruct (Hrun ValuesBucket_empty ∅) as [m [Hok _]]; [|done].
  split; [by split; [apply sm_sorted_nil|constructor]|done].
Qed.

(** What reaches the database: nulls are dropped, integers cut to 32 bits. *)
Definition adapt_entry (e : string * ValueObject) : option (string * ValueObject) :=
  match ValueObject.type e.2, ValueObject.value e.2 with
  | ValueObject.TYPE_NULL, _ => None
  | ValueObject.TYPE_INT, ValueObject.VInt64 z => Some (e.1, ValueObject_int (s32 z))
  | _, _ => Some e
  end.

Lemma ToValueObject_shared k v :
  vo_ok v ->
  ToValueObject (SV.canon (share_value v)) = Ok (snd <$> adapt_entry (k, v)).
Proof. destruct v as [t w]. by destruct t, w. Qed.

Lemma adapt_entry_key e e' : adapt_entry e = Some e' -> e'.1 = e.1.
Proof. destruct e as [k [t w]]. destruct t, w; unfold adapt_entry; simpl; naive_solver. Qed.

Lemma ToValuesBucket_loop_shared m : forall acc,
  Forall (fun e => vo_ok e.2) m -> sm_sorted m ->
  Forall (fun e => Forall (fun e' => key_lt e.1 e'.1) m) acc ->
  ToValuesBucket_loop (canon_entry SV.canon <$> (share_entry <$> m)) acc = Ok (acc ++ omap adapt_entry m).
Proof.
  induction m as [|[k v] m IH]; intros acc Hm Hs Hlt; [by rewrite app_nil_r|].
  inversion_clear Hm as [|? ? Hv Hm']. inversion_clear Hs as [|? ? Hs' Hk].
  rewrite !fmap_cons. cbn [ToValuesBucket_loop canon_entry share_entry fst snd].
  rewrite (ToValueObject_shared k v Hv). cbn [outcome_bind].
  assert (Hlt' : Forall (fun e => Forall (fun e' => key_lt e.1 e'.1) m) acc).
  { eapply Forall_impl; [exact Hlt|]. intros e He. by inversion He. }
  cbn [omap list_omap]. destruct (adapt_entry (k, v)) as [[k' w]|] eqn:E; cbn [fmap option_fmap option_map snd].
  - apply adapt_entry_key in E as E'. simpl in E'. subst k'. rewrite sm_insert_snoc.
    2: { eapply Forall_impl; [exact Hlt|]. intros e He. by inversion He. }
    rewrite IH; [|done..|]. { by rewrite <- app_assoc. }
    apply Forall_app. split; [done|]. by repeat constructor.
  - by rewrite IH.
Qed.

(** The calls whose values survive unchanged. *)
Definition keeps (o : bucket_op) : Prop :=
  match o with
  | OpPutNull _ => False
  | OpPutInt _ z | OpPutLong _ z => -2147483648 <= z < 2147483648
  | _ => True
  end.

Definition kept (e : string * ValueObject) : Prop := adapt_entry e = Some e.

Lemma sm_insert_Forall_kept k v m : kept (k, v) -> Forall kept m -> Forall kept (sm_insert k v m).
Proof.
  intros Hv. induction 1 as [|[k' v'] m Hk' Hm IH]; simpl; [by constructor|].
  destruct (String.compare k k'); repeat (constructor; try done).
Qed.

Lemma direct_bucket_kept ops : Forall keeps ops -> Forall kept (valuesMap (direct_bucket ops)).
Proof.
  assert (forall b, Forall keeps ops -> Forall kept (valuesMap b) ->
    Forall kept (valuesMap (foldl (fun b o => ValuesBucket.run_op o b) b ops))) as Hrun.
  { induction ops as [|o ops IH]; intros b Hk Hb; [done|].
    inversion_clear Hk as [|? ? Ho Hk']. apply IH; [done|].
    destruct o; simpl in *; try done; try (by apply sm_insert_Forall_kept);
      try (apply sm_insert_Forall_kept; [|done]; unfold kept, adapt_entry; simpl; by rewrite s32_small).
    unfold sm_erase. apply Forall_forall. intros e [_ He]%list_elem_of_filter.
    by eapply Forall_forall in Hb. }
  intros Hk. by apply Hrun.
Qed.

Lemma omap_kept m : Forall kept m -> omap adapt_entry m = m.
Proof. induction 1 as [|e m He _ IH]; [done|]. cbn. rewrite He. f_equal. exact IH. Qed.

Section Values.
Context `{ParcelLaws}.

(** A bucket a consumer fills by any sequence of puts, deletes and clears, sends
    to the provider and which the provider adapts to its database is the bucket
    the same calls fill directly, with the nulls dropped and the integers cut to
    32 bits; when no null is put and the integers fit an [int], it is exactly that
    bucket. *)
Theorem shared_values_equiv ops p :
  Z.of_nat (length (valuesMap (direct_bucket ops))) < 2147483648 -> holds p [] ->
  exists p1 p2 b', SB.Marshalling (shared_bucket ops) p = Some p1 /\
    SB.Unmarshalling p1 = Some (b', p2) /\ holds p2 [] /\
    ToValuesBucket b' =
      Ok (mkValuesBucket (omap adapt_entry (valuesMap (direct_bucket ops)))) /\
    (Forall keeps ops -> ToValuesBucket b' = Ok (direct_bucket ops)).
Proof.
  intros Hlen Hp. destruct (direct_bucket_ok ops) as [Hs Hf].
  destruct (SB.shared_bucket_roundtrip (shared_bucket ops) p) as (p1 & p2 & E1 & E2 & Hp2).
  { split; rewrite shared_bucket_map.
    - unfold sm_sorted in *. induction Hs as [|e m Hs IH Hlt]; [constructor|].
      rewrite fmap_cons. inversion_clear Hf. constructor; [apply IH; [simpl in *; lia|done]|].
      by apply Forall_fmap.
    - apply Forall_fmap. eapply Forall_impl; [exact Hf|]. intros [k [t w]]. by destruct t, w. }
  { by rewrite shared_bucket_map, length_fmap. } { done. }
  exists p1, p2, (SB.sent (shared_bucket ops)).
  assert (E : ToValuesBucket (SB.sent (shared_bucket ops)) =
    Ok (mkValuesBucket (omap adapt_entry (valuesMap (direct_bucket ops))))).
  { unfold ToValuesBucket, SB.GetAll, SB.sent. simpl. rewrite shared_bucket_map.
    by rewrite (ToValuesBucket_loop_shared _ []) by (done || by constructor). }
  split_and!; try done. intros Hk. rewrite E, omap_kept by (by apply direct_bucket_kept).
  by destruct (direct_bucket ops).
Qed.
End Values.

Definition demo_puts : list bucket_op :=
  [OpPutString "name" "ann"; OpPutInt "age" 7; OpPutBool "ok" true; OpPutString "name" "bob";
   OpPutDouble "size" 4607182418800017408; OpPutBlob "photo" ["a"%char]; OpDelete "ok"].

Lemma shared_values_equiv_witness :
  exists p1 p2 b', SB.Marshalling (shared_bucket demo_puts) ([] : list item) = Some p1 /\
    SB.Unmarshalling p1 = Some (b', p2) /\ holds p2 [] /\
    ToValuesBucket b' =
      Ok (mkValuesBucket (omap adapt_entry (valuesMap (direct_bucket demo_puts)))) /\
    (Forall keeps demo_puts -> ToValuesBucket b' = Ok (direct_bucket demo_puts)).
Proof.
  apply (@shared_values_equiv parcel_list parcel_list_laws demo_puts []);
    [vm_compute; reflexivity|done].
Defined.

(** ** Predicates: the same calls on shared predicates and on the database's own *)
Section Predicates.
Context `{DistributedPredicates}.

Definition scalar_text (v : scalar) : string :=
  match v with
  | SInt z | SLong z => to_string z
  | SDouble x => to_string_fp (decode_double x)
  | SString s => s
  end.

Definition direct_compare (c : comparison_op) (field value : string) (p : AbsRdbPredicates)
    : AbsRdbPredicates :=
  match c with
  | CEq => RP.EqualTo p field value
  | CNe => RP.NotEqualTo p field value
  | CGt => inherited (fun b => AP.GreaterThan b field value) p
  | CLt => inherited (fun b => AP.LessThan b field value) p
  | CGe => inherited (fun b => AP.GreaterThanOrEqualTo b field value) p
  | CLe => inherited (fun b => AP.LessThanOrEqualTo b field value) p
  end.

(** The call on the database's predicates; those it does not have do nothing, and
    a limit comes without its offset. *)
Definition direct (c : share_call) (p : AbsRdbPredicates) : AbsRdbPredicates :=
  match c with
  | CallCompare c field v => direct_compare c field (scalar_text v) p
  | CallBool true field b => RP.EqualTo p field (bool_to_string b)
  | CallBool false field b => RP.NotEqualTo p field (bool_to_string b)
  | CallIn true field (VStrings l) => inherited (fun b => AP.In b field l) p
  | CallIn false field (VStrings l) => inherited (fun b => AP.NotIn b field l) p
  | CallIn _ _ _ => p
  | CallText TContains field v => inherited (fun b => AP.Contains b field v) p
  | CallText TBeginsWith field v => inherited (fun b => AP.BeginsWith b field v) p
  | CallText TEndsWith field v => inherited (fun b => AP.EndsWith b field v) p
  | CallText TLike field v => inherited (fun b => AP.Like b field v) p
  | CallText TGlob field v => inherited (fun b => AP.Glob b field v) p
  | CallText TUnlike _ _ => p
  | CallNull true field => inherited (fun b => AP.IsNull b field) p
  | CallNull false field => inherited (fun b => AP.IsNotNull b field) p
  | CallBetween true field low high => inherited (fun b => AP.Between b field low high) p
  | CallBetween false field low high => inherited (fun b => AP.NotBetween b field low high) p
  | CallBeginWrap => inherited AP.BeginWrap p
  | CallEndWrap => inherited AP.EndWrap p
  | CallOr => RP.Or p
  | CallAnd => RP.And p
  | CallDistinct => inherited AP.Distinct p
  | CallOrderBy true field => RP.OrderByAsc p field
  | CallOrderBy false field => RP.OrderByDesc p field
  | CallLimit number _ => inherited (fun b => AP.Limit b number) p
  | CallGroupBy fields => inherited (fun b => AP.GroupBy b fields) p
  | CallIndexedBy name => inherited (fun b => AP.IndexedBy b name) p
  | _ => p
  end.

Definition in_int (z : Z) : bool := (-2147483648 <=? z) && (z <? 2147483648).

(** The calls the adapter understands within the consumer's process: operations
    without 64-bit integers or vectors of numbers, and not the comparison that is
    recorded the wrong way round. *)
Definition supported (c : share_call) : bool :=
  match c with
  | CallCompare CLe _ (SInt _) | CallCompare _ _ (SLong _) => false
  | CallCompare _ _ (SInt z) => in_int z
  | CallLimit number _ => in_int number
  | CallIn _ _ (VStrings _) => true
  | CallIn _ _ _ | CallGroupBy [] | CallInKeys []
  | CallSetWhereClause _ | CallSetWhereArgs _ | CallSetOrder _ => false
  | _ => true
  end.

(** The calls it still understands after they have been sent: those without [int]. *)
Definition portable (c : share_call) : bool :=
  match c with
  | CallCompare _ _ (SInt _) | CallLimit _ _ => false
  | _ => supported c
  end.

Lemma in_int_s32 z : in_int z = true -> s32 z = z.
Proof. unfold in_int. intros E. apply s32_small. zlia. Qed.

Lemma ToOperate_supported c p :
  supported c = true ->
  exists i, item_of c = Some i /\ logs_nothing c = false /\ ToOperate i p = Ok (direct c p).
Proof.
  destruct c as [c field v|b field v|b field v|t field value|b field|b field low high| | | | |
                |b field|number offset|fields|name|prefix|keys|text|args|text];
    intros Hs; simpl in Hs; try done; eexists; (split; [done|]); try done.
  - destruct c, v; try done; (split; [done|]); unfold ToOperate, ToOperateFirst, ToOperateSecond,
      ToOperateThird, with_two, ToString, SO.GetInt; simpl; by rewrite ?in_int_s32.
  - by destruct b.
  - by destruct b, v.
  - by destruct t.
  - by destruct b.
  - by destruct b.
  - by destruct b.
  - split; [done|]. unfold ToOperate. simpl. unfold ToOperateThird, SO.GetInt. simpl.
    by rewrite in_int_s32.
  - by destruct fields.
  - by destruct keys.
Qed.

Lemma portable_supported c : portable c = true -> supported c = true.
Proof. by destruct c as [c field []| | | | | | | | | | | | | | | | | | |]. Qed.

Lemma portable_received c i : portable c = true -> item_of c = Some i -> received_item i = i.
Proof.
  destruct c as [c field v|b field v|b field v|t field value|b field|b field low high| | | | |
                |b field|number offset|fields|name|prefix|keys|text|args|text];
    intros Hp E; simplify_eq/=; try done.
  - by destruct v.
  - by destruct v.
Qed.
(** ** What a sequence of operations records *)
Lemma run_calls_items cs : forall d,
  predicates_inv d -> Forall (fun c => is_Some (item_of c) /\ logs_nothing c = false) cs ->
  exists d', run_calls cs d = Ok d' /\ predicates_inv d' /\
    SP.GetOperationList d' = SP.GetOperationList d ++ omap item_of cs /\
    (no_text d -> no_text d').
Proof.
  induction cs as [|c cs IH]; intros d Hd Hf.
  { exists d. by rewrite app_nil_r. }
  inversion_clear Hf as [|? ? [[i Ei] El] Hf']. cbn [run_calls omap list_omap].
  rewrite (run_call_item c d i Ei), El. cbn [outcome_bind].
  destruct (IH (record i d)) as (d' & E & Hd' & El' & Ht'); [|done|].
  { apply record_inv; [done|]. by eapply item_of_local. }
  exists d'. split_and!; try done.
  - rewrite El'. rewrite record_state by done. unfold SP.GetOperationList. simpl.
    rewrite Ei. by rewrite <- app_assoc.
  - intros _. apply Ht'. by rewrite record_state.
Qed.

Lemma supported_items cs :
  Forall (fun c => supported c = true) cs ->
  Forall (fun c => is_Some (item_of c) /\ logs_nothing c = false) cs.
Proof.
  intros Hf. eapply Forall_impl; [exact Hf|]. intros c Hc.
  destruct (ToOperate_supported c (new_RdbPredicates "") Hc) as (i & Ei & El & _). eauto.
Qed.

Lemma ToPredicates_loop_supported cs : forall p,
  Forall (fun c => supported c = true) cs ->
  ToPredicates_loop (omap item_of cs) p = Ok (foldl (fun p c => direct c p) p cs).
Proof.
  induction cs as [|c cs IH]; intros p Hf; [done|]. inversion_clear Hf as [|? ? Hc Hf'].
  destruct (ToOperate_supported c p Hc) as (i & Ei & _ & E). cbn. rewrite Ei. cbn. rewrite E. cbn.
  by apply IH.
Qed.

Lemma query_language_no_operations d :
  predicates_inv d -> SP.GetSettingMode d = QUERY_LANGUAGE -> SP.GetOperationList d = [].
Proof.
  intros [_ Ho _ _] Em. unfold SP.GetOperationList, SP.GetSettingMode in *.
  destruct (operationList _); [done|]. by rewrite Ho in Em.
Qed.

(** The texts of an object without operations are empty, so they change nothing. *)
Lemma ToPredicates_no_text d table p :
  predicates_inv d -> no_text d ->
  ToPredicates_loop (SP.GetOperationList d) (new_RdbPredicates table) = Ok p ->
  ToPredicates d table = Ok p.
Proof.
  intros Hd (E1 & E2 & E3) E. unfold ToPredicates. rewrite E. cbn [outcome_bind].
  case_decide as Em; [|done].
  rewrite (query_language_no_operations d Hd Em) in E. injection E as <-.
  unfold SP.GetWhereClause, SP.GetWhereArgs, SP.GetOrder.
  rewrite E1, E2, E3. unfold new_RdbPredicates, new_AbsRdbPredicates. by destruct (empty table).
Qed.

Lemma received_inv_texts mode d table p :
  predicates_inv d -> no_text d ->
  ToPredicates_loop (received_item <$> SP.GetOperationList d) (new_RdbPredicates table) = Ok p ->
  ToPredicates (received_predicates mode d) table = Ok p.
Proof.
  intros Hd (E1 & E2 & E3) E. unfold ToPredicates.
  change (SP.GetOperationList (received_predicates mode d))
    with (received_item <$> SP.GetOperationList d). rewrite E. cbn [outcome_bind].
  case_decide as Em; [|done]. change (SP.GetSettingMode d = QUERY_LANGUAGE) in Em.
  rewrite (query_language_no_operations d Hd Em) in E. injection E as <-.
  unfold received_predicates, SP.GetWhereClause, SP.GetWhereArgs, SP.GetOrder.
  simpl. rewrite E1, E2, E3. unfold new_RdbPredicates, new_AbsRdbPredicates.
  by destruct (empty table), (bool_decide _).
Qed.

Lemma portable_items cs :
  Forall (fun c => portable c = true) cs -> received_item <$> omap item_of cs = omap item_of cs.
Proof.
  induction 1 as [|c cs Hc _ IH]; [done|]. cbn. destruct (item_of c) as [i|] eqn:E; [|done].
  cbn. rewrite (portable_received c i Hc E). f_equal. exact IH.
Qed.
End Predicates.

Lemma length_omap {A B} (f : A -> option B) l : (length (omap f l) <= length l)%nat.
Proof. induction l as [|x l IH]; [done|]. cbn. destruct (f x); cbn; lia. Qed.

Section Transfer.
Context `{DistributedPredicates} `{ParcelLaws}.

(** Operations recorded on shared predicates mean, once adapted, what the same
    calls mean on the database's own predicates: within one process for every
    operation the adapter supports, and for a provider that has received them for
    those of them that carry no [int]. Numbers and truth values arrive as their
    text, [Unlike], [KeyPrefix] and [InKeys] are ignored, and a limit loses its
    offset. *)
Theorem shared_predicates_equiv z0 z1 cs table p :
  Forall (fun c => supported c = true) cs -> Z.of_nat (length cs) < 2147483648 -> holds p [] ->
  let expected := foldl (fun p c => direct c p) (new_RdbPredicates table) cs in
  exists d, run_calls cs (new_DataSharePredicates (mode_of_code z0)) = Ok d /\
    ToPredicates d table = Ok expected /\
    exists p1 p2 d', SP.Marshalling d p = Some p1 /\
      SP.Unmarshalling (mode_of_code z1) p1 = Some (d', p2) /\ holds p2 [] /\
      (Forall (fun c => portable c = true) cs -> ToPredicates d' table = Ok expected).
Proof.
  intros Hs Hlen Hp. cbv zeta.
  destruct (run_calls_items cs (new_DataSharePredicates (mode_of_code z0)) (new_inv z0)
              (supported_items cs Hs)) as (d & Erun & Hd & El & Ht).
  change (SP.GetOperationList d = omap item_of cs) in El.
  assert (Htext : no_text d) by (by apply Ht).
  pose proof (ToPredicates_loop_supported cs (new_RdbPredicates table) Hs) as Eloop.
  exists d. split; [done|]. split.
  { apply ToPredicates_no_text; [done..|]. by rewrite El. }
  destruct (share_transfer d (mode_of_code z1) p Hd) as (p1 & p2 & E1 & E2 & Hp2); [|done|].
  { change (operationList (predicates_ d)) with (SP.GetOperationList d). rewrite El.
    pose proof (length_omap item_of cs). lia. }
  exists p1, p2, (received_predicates (mode_of_code z1) d). split_and!; try done.
  intros Hport. apply received_inv_texts; [done..|]. by rewrite El, portable_items.
Qed.
(** What adapting a received call comes to, when it does not succeed. *)
Definition throws (c : share_call) : bool :=
  match c with
  | CallCompare _ _ (SInt _) | CallLimit _ _ => true
  | CallIn _ _ (VInts (_ :: _) | VLongs _ | VDoubles _) => true
  | _ => false
  end.
Definition undefined (c : share_call) : bool :=
  match c with CallCompare _ _ (SLong _) => true | _ => false end.

Lemma ToOperate_throws c i p :
  throws c = true -> item_of c = Some i -> ToOperate (received_item i) p = Throws.
Proof.
  destruct c as [c field v|b field v|b field v| | | | | | | | | |number offset| | | | | | |];
    intros Ht E; simplify_eq/=; try done.
  - by destruct v, c.
  - by destruct b, v as [[|]| | |].
Qed.

Lemma ToOperate_undefined c i p :
  undefined c = true -> item_of c = Some i -> ToOperate (received_item i) p = Undefined.
Proof.
  destruct c as [c field v|b field v|b field v| | | | | | | | | |number offset| | | | | | |];
    intros Ht E; simplify_eq/=; try done. by destruct v, c.
Qed.

Lemma ToPredicates_loop_app l1 l2 p :
  ToPredicates_loop (l1 ++ l2) p = (p' <-- ToPredicates_loop l1 p; ToPredicates_loop l2 p').
Proof.
  revert p. induction l1 as [|i l1 IH]; intros p; [done|]. cbn.
  destruct (ToOperate i p); [apply IH|done..].
Qed.

(** C18: A provider that has received predicates with an [int] in a comparison or a
    limit, or with a membership test on numbers, fails on them with an exception:
    the integer is in the variant's 32-bit alternative and is looked for in the
    64-bit one, and the numbers are looked for as strings. On a 64-bit integer it
    reads an uninitialised variable. The calls before it do not matter. *)
Theorem shared_numbers_break z0 z1 cs c rest table p :
  Forall (fun c => portable c = true) cs ->
  throws c || undefined c = true ->
  Forall (fun c => is_Some (item_of c) /\ logs_nothing c = false) rest ->
  Z.of_nat (length (cs ++ c :: rest)) < 2147483648 -> holds p [] ->
  exists d p1 p2 d',
    run_calls (cs ++ c :: rest) (new_DataSharePredicates (mode_of_code z0)) = Ok d /\
    SP.Marshalling d p = Some p1 /\ SP.Unmarshalling (mode_of_code z1) p1 = Some (d', p2) /\
    ToPredicates d' table = if throws c then Throws else Undefined.
Proof.
  intros Hport Hc Hrest Hlen Hp.
  assert (exists i, item_of c = Some i /\ logs_nothing c = false) as (i & Ei & Elog).
  { destruct c as [c field v|b field v|b field [[|]| | |]| | | | | | | | | | | | | | | | |];
      simpl in Hc; try done; by eexists. }
  assert (Hsup : Forall (fun c => supported c = true) cs).
  { eapply Forall_impl; [exact Hport|]. intros ?. apply portable_supported. }
  destruct (run_calls_items (cs ++ c :: rest) (new_DataSharePredicates (mode_of_code z0))
              (new_inv z0)) as (d & Erun & Hd & El & _).
  { apply Forall_app. split; [by apply supported_items|]. constructor; [eauto|done]. }
  change (SP.GetOperationList d = omap item_of (cs ++ c :: rest)) in El.
  destruct (share_transfer d (mode_of_code z1) p Hd) as (p1 & p2 & E1 & E2 & Hp2); [|done|].
  { change (operationList (predicates_ d)) with (SP.GetOperationList d). rewrite El.
    pose proof (length_omap item_of (cs ++ c :: rest)). lia. }
  exists d, p1, p2, (received_predicates (mode_of_code z1) d). split_and!; try done.
  unfold ToPredicates.
  change (SP.GetOperationList (received_predicates (mode_of_code z1) d))
    with (received_item <$> SP.GetOperationList d).
  rewrite El. rewrite omap_app, fmap_app, ToPredicates_loop_app, portable_items by done.
  rewrite ToPredicates_loop_supported by done. cbn. rewrite Ei. cbn.
  destruct (throws c) eqn:Et; [by rewrite (ToOperate_throws c)|by rewrite (ToOperate_undefined c)].
Qed.
End Transfer.

Definition local_calls : list share_call :=
  [CallCompare CGt "age" (SInt 6); CallOr; CallCompare CEq "name" (SString "ann");
   CallIn true "city" (VStrings ["a"; "b"]); CallBool true "ok" true; CallLimit 10 5].

Lemma shared_predicates_equiv_witness :
  let expected := foldl (fun p c => direct c p) (new_RdbPredicates "people") local_calls in
  exists d, run_calls local_calls (new_DataSharePredicates (mode_of_code 0)) = Ok d /\
    ToPredicates d "people" = Ok expected /\
    exists p1 p2 d', SP.Marshalling d ([] : list item) = Some p1 /\
      SP.Unmarshalling (mode_of_code 5) p1 = Some (d', p2) /\ holds p2 [] /\
      (Forall (fun c => portable c = true) local_calls -> ToPredicates d' "people" = Ok expected).
Proof.
  apply (@shared_predicates_equiv recorded parcel_list parcel_list_laws 0 5 local_calls "people" []);
    [repeat constructor|vm_compute; reflexivity|done].
Defined.

Lemma shared_numbers_break_witness :
  exists d p1 p2 d',
    run_calls ([CallCompare CEq "name" (SString "ann")] ++ CallCompare CEq "age" (SInt 7) :: [])
      (new_DataSharePredicates (mode_of_code 0)) = Ok d /\
    SP.Marshalling d ([] : list item) = Some p1 /\
    SP.Unmarshalling (mode_of_code 5) p1 = Some (d', p2) /\
    ToPredicates d' "people" =
      if throws (CallCompare CEq "age" (SInt 7)) then Throws else Undefined.
Proof.
  apply (@shared_numbers_break recorded parcel_list parcel_list_laws 0 5
           [CallCompare CEq "name" (SString "ann")] (CallCompare CEq "age" (SInt 7)) [] "people" []);
    [repeat constructor|reflexivity|constructor|vm_compute; reflexivity|done].
Defined.

(** The values that do not survive, on a concrete bucket: a null and a 64-bit integer. *)
Example shared_values_lossy :
  ToValuesBucket (shared_bucket [OpPutNull "a"; OpPutLong "b" 4294967301]) =
    Ok (PutInt ValuesBucket_empty "b" 5).
Proof. vm_compute. reflexivity. Qed.

(** The overload of "less than or equal" for [int] arrives as "greater than or equal". *)
Example less_or_equal_int :
  (d <-- run_calls [CallCompare CLe "age" (SInt 7)] (new_DataSharePredicates INVALID_MODE);
   p <-- ToPredicates d "people"; Ok (AP.whereClause (base p))) = Ok "`age` >= ? ".
Proof. vm_compute. reflexivity. Qed.
