(* ===== verification/DataShareBlockWriter.v ===== *)
(** * The writer of shared blocks

    Model of frameworks/native/data_share/common/src/datashare_block_writer_impl.cpp:
    the operations a bridge uses to put rows into the block of a data share result
    set. The writer holds a pointer to the block, null when it could not be made;
    here the state is the block behind the pointer. *)
From S2P Require Import Prelude Memory DataShareErrno SharedBlock.

Record DataShareBlockWriterImpl := mkWriter { shareBlock_ : option SharedBlock }.

(** [created]: what [SharedBlock::Create] made. *)
Definition new_Writer (created : option SharedBlock) : DataShareBlockWriterImpl := mkWriter created.

Definition ConvertErrorCode (shareBlockErr : Z) : Z :=
  if shareBlockErr =? SHARED_BLOCK_OK then E_OK else E_ERROR.

(** An operation on the block behind the pointer. *)
Definition on_block (w : DataShareBlockWriterImpl) (f : SharedBlock -> Z * SharedBlock)
    : Z * DataShareBlockWriterImpl :=
  match shareBlock_ w with
  | None => (E_ERROR, w)
  | Some b => let '(ret, b) := f b in (ConvertErrorCode ret, mkWriter (Some b))
  end.

Definition Clear (w : DataShareBlockWriterImpl) := on_block w SharedBlock.Clear.
Definition SetColumnNum (w : DataShareBlockWriterImpl) (numColumns : Z) :=
  on_block w (fun b => SharedBlock.SetColumnNum b numColumns).
Definition FreeLastRow (w : DataShareBlockWriterImpl) := on_block w SharedBlock.FreeLastRow.

(** The row that was allocated last. *)
Definition GetCurrentRowIndex (w : DataShareBlockWriterImpl) : option Z :=
  match shareBlock_ w with
  | None => None
  | Some b => let rowNum := SharedBlock.GetRowNum b in if rowNum >? 0 then Some (rowNum - 1) else None
  end.

Definition on_row (w : DataShareBlockWriterImpl) (f : SharedBlock -> Z -> Z * SharedBlock)
    : Z * DataShareBlockWriterImpl :=
  match GetCurrentRowIndex w with
  | None => (E_ERROR, w)
  | Some currentRowIndex => on_block w (fun b => f b currentRowIndex)
  end.

Definition Write_null (w : DataShareBlockWriterImpl) (column : Z) :=
  on_row w (fun b row => SharedBlock.PutNull b row column).
Definition Write_long (w : DataShareBlockWriterImpl) (column value : Z) :=
  on_row w (fun b row => SharedBlock.PutLong b row column value).
Definition Write_double (w : DataShareBlockWriterImpl) (column value : Z) :=
  on_row w (fun b row => SharedBlock.PutDouble b row column value).

Section Securec.
Context `{SecureC}.

Definition AllocRow (w : DataShareBlockWriterImpl) := on_block w SharedBlock.AllocRow.

Definition Write_blob (w : DataShareBlockWriterImpl) (column : Z) (value : list byte) (size : Z) :=
  on_row w (fun b row => SharedBlock.PutBlob b row column value size).
Definition Write_string (w : DataShareBlockWriterImpl) (column : Z) (value : list byte)
    (sizeIncludingNull : Z) :=
  on_row w (fun b row => SharedBlock.PutString b row column value sizeIncludingNull).

Definition SetRawData (w : DataShareBlockWriterImpl) (rawData : list byte) (size : Z)
    : Z * DataShareBlockWriterImpl :=
  match shareBlock_ w with
  | None => (E_ERROR, w)
  | Some b => let '(ret, b) := SharedBlock.SetRawData b rawData size in (ret, mkWriter (Some b))
  end.
End Securec.

(** ** Properties of the block; the name of a missing block is not defined *)
Definition GetUsedBytes (w : DataShareBlockWriterImpl) : Z :=
  match shareBlock_ w with None => E_ERROR | Some b => SharedBlock.GetUsedBytes b end.
Definition Name (w : DataShareBlockWriterImpl) : outcome string :=
  match shareBlock_ w with None => Undefined | Some b => Ok (mName b) end.
Definition Size (w : DataShareBlockWriterImpl) : Z :=
  match shareBlock_ w with None => E_ERROR | Some b => mSize b end.
Definition GetRowNum (w : DataShareBlockWriterImpl) : Z :=
  match shareBlock_ w with None => E_ERROR | Some b => SharedBlock.GetRowNum b end.
Definition GetColumnNum (w : DataShareBlockWriterImpl) : Z :=
  match shareBlock_ w with None => E_ERROR | Some b => SharedBlock.GetColumnNum b end.
Definition GetBlock (w : DataShareBlockWriterImpl) : option SharedBlock := shareBlock_ w.
