(* ===== verification/RdbResultSetBridge.v ===== *)
(** * From a database's result set to a shared block

    Model of frameworks/native/rdb_data_share_adapter/src/rdb_result_set_bridge.cpp.
    The database's result set is an interface, [ResultSetOps] with the getters the
    bridge calls; the writer is the block writer. *)
From S2P Require Import Prelude Memory SharedBlock RdbErrno ResultSet SharedResultSet DataShareBlockWriter.
From Stdlib Require Import Ascii.

#[local] Open Scope list_scope.

(** The getters of a result set: the value or the error code, and the new state. *)
Class RdbGetters (S : Type) := {
  rdb_GetColumnType : S -> Z -> outcome ColumnType * S;
  rdb_GetLong : S -> Z -> outcome Z * S;
  rdb_GetDouble : S -> Z -> outcome Z * S;
  rdb_GetString : S -> Z -> outcome (list byte) * S;
  rdb_GetBlob : S -> Z -> outcome (list byte) * S;
}.

Section Bridge.
Context `{SecureC} {S : Type} `{ResultSetOps S} `{RdbGetters S}.
Implicit Types (s : S) (w : DataShareBlockWriterImpl).

Definition GetRowCount s : Z * Z * S := ResultSet.GetRowCount s.
Definition GetAllColumnNames s : Z * list string * S := ResultSet.GetAllColumnNames s.

(** The types of the columns in the row the cursor is on. *)
Fixpoint GetColumnTypes (n : nat) (i : Z) (columnTypes : list ColumnType) s
    : outcome (list ColumnType * S) :=
  match n with
  | O => Ok (columnTypes, s)
  | Datatypes.S n =>
      let '(res, s) := rdb_GetColumnType s i in
      type <-- out_parameter res;
      GetColumnTypes n (i + 1) (columnTypes ++ [type]) s
  end.

(** A string or a vector that the failing getter leaves empty. *)
Definition or_empty (x : outcome (list byte)) : outcome (list byte) :=
  match x with Err _ => Ok [] | x => x end.

(** The bytes go to the overload for strings, with the length up to the first zero. *)
Definition WriteBlobData (column : Z) w s : outcome (DataShareBlockWriterImpl * S) :=
  let '(res, s) := rdb_GetBlob s column in
  blobValue <-- or_empty res;
  match blobValue with
  | [] => Ok (w, s)
  | _ =>
      let value := c_str blobValue in
      Ok (snd (Write_string w column (blobValue ++ [zero]) (Z.of_nat (length value))), s)
  end.

(** One column; a failing write is only logged. *)
Definition write_one (type : ColumnType) (i : Z) w s : outcome (DataShareBlockWriterImpl * S) :=
  match type with
  | TYPE_INTEGER =>
      let '(res, s) := rdb_GetLong s i in
      value <-- out_parameter res; Ok (snd (Write_long w i value), s)
  | TYPE_FLOAT =>
      let '(res, s) := rdb_GetDouble s i in
      dValue <-- out_parameter res; Ok (snd (Write_double w i dValue), s)
  | TYPE_NULL => Ok (snd (Write_null w i), s)
  | TYPE_BLOB => WriteBlobData i w s
  | _ =>
      let '(res, s) := rdb_GetString s i in
      stringValue <-- or_empty res;
      let value := c_str stringValue in
      Ok (snd (Write_string w i (value ++ [zero]) (Z.of_nat (length value) + 1)), s)
  end.

Fixpoint WriteColumn (columnTypes : list ColumnType) (i : Z) w s
    : outcome (DataShareBlockWriterImpl * S) :=
  match columnTypes with
  | [] => Ok (w, s)
  | type :: columnTypes =>
      ws <-- write_one type i w s; WriteColumn columnTypes (i + 1) ws.1 ws.2
  end.

(** [n] rows are left up to the target. *)
Fixpoint WriteBlock (n : nat) (columnTypes : list ColumnType) w s
    : outcome (DataShareBlockWriterImpl * S) :=
  match n with
  | O => Ok (w, s)
  | Datatypes.S n =>
      let '(status, w) := DataShareBlockWriter.AllocRow w in
      if negb (status =? 0) then Ok (w, s)
      else
        ws <-- WriteColumn columnTypes 0 w s;
        let '(errCode, s) := GoToNextRow ws.2 in
        if negb (errCode =? 0) then Ok (ws.1, s) else WriteBlock n columnTypes ws.1 s
  end.

Definition OnGo (start target : Z) w s : outcome (bool * DataShareBlockWriterImpl * S) :=
  let '(_, rowCount, s) := ResultSet.GetRowCount s in
  if (start <? 0) || (target <? 0) || (target >=? rowCount) then Ok (false, w, s)
  else
    let '(count, s) := GetColumnCount s in
    columnCount <-- out_parameter count;
    if columnCount <=? 0 then Ok (false, w, s)
    else
      let s := if negb (IsStarted s) then snd (GoToFirstRow s) else s in
      let '(errCode, s) := ResultSet.GoToRow s start in
      if negb (errCode =? 0) then Ok (false, w, s)
      else
        ts <-- GetColumnTypes (Z.to_nat columnCount) 0 [] s;
        ws <-- WriteBlock (Z.to_nat (target - start + 1)) ts.1 w ts.2;
        Ok (true, ws.1, ws.2).
End Bridge.
