(* ===== verification/DataShareResultSet.v ===== *)
(** * Data share result sets

    Model of frameworks/native/data_share/common/src/datashare_result_set.cpp. A set
    keeps a window of at most three rows of the result in its block and asks a
    bridge for the next ones when the cursor leaves it. The methods a proxy
    overrides are the class [SetMethods]; [DataShareResultSet] is the set itself,
    over a bridge. *)
From S2P Require Import Prelude Memory Strings DataShareErrno SharedBlock ResultSet SharedResultSet DataShareAbsResultSet DataShareBlockWriter.
From Stdlib Require Import Ascii.

#[local] Open Scope list_scope.

Definition STEP_LENGTH : Z := 2.
Definition DEFAULT_BLOCK_SIZE : Z := 2 * 1024 * 1024.

Record positions := mkPositions {
  pos_row : Z;      (* rowPos_ *)
  pos_start : Z;    (* startRowPos_ *)
  pos_end : Z;      (* endRowPos_ *)
}.

(** The fields of the class, and its methods that a subclass overrides. *)
Class SetMethods (S : Type) := {
  positions_of : S -> positions;
  with_positions : S -> positions -> S;
  block_of : S -> option SharedBlock;
  with_block : S -> option SharedBlock -> S;
  set_GetRowCount : S -> outcome Z * S;
  set_GetAllColumnNames : S -> outcome (list string) * S;
  set_OnGo : S -> Z -> Z -> outcome (bool * S);
}.

Section Set_.
Context {S : Type} `{SetMethods S}.
Implicit Types s : S.

Definition move_to s (row start end_ : Z) : S := with_positions s (mkPositions row start end_).

(** ** Moving *)
Definition GoToRow s (position : Z) : outcome (Z * S) :=
  match block_of s with
  | None => Ok (E_ERROR, s)
  | Some _ =>
      let '(count, s) := set_GetRowCount s in
      let rowCnt := match count with Ok n => n | _ => 0 end in
      let '(mkPositions row start end_) := positions_of s in
      if position >=? rowCnt then Ok (E_ERROR, move_to s rowCnt start end_)
      else if position <? 0 then Ok (E_ERROR, move_to s INIT_POS start end_)
      else if position =? row then Ok (E_OK, s)
      else if (position >? end_) || (position <? start) then
        let '(names, s) := set_GetAllColumnNames s in
        let columnNames := match names with Ok l => l | _ => [] end in
        match block_of s with
        | None => Undefined
        | Some b =>
            let b := snd (SharedBlock.Clear b) in
            let b := snd (SharedBlock.SetColumnNum b (u32 (Z.of_nat (length columnNames)))) in
            let s := with_block s (Some b) in
            rs <-- set_OnGo s position (Z.min (s32 (position + STEP_LENGTH)) (s32 (rowCnt - 1)));
            let '(result, s) := rs in
            if result then
              match block_of s with
              | None => Undefined
              | Some b => Ok (E_OK, move_to s position position (s32 (position + SharedBlock.GetRowNum b - 1)))
              end
            else Ok (E_ERROR, move_to s INIT_POS INIT_POS INIT_POS)
        end
      else Ok (E_OK, move_to s position start end_)
  end.

#[export] Instance share_set_ops : ShareSetOps S := {|
  DataShareAbsResultSet.rowPos_ s := pos_row (positions_of s);
  DataShareAbsResultSet.GetRowCount := set_GetRowCount;
  DataShareAbsResultSet.GetAllColumnNames := set_GetAllColumnNames;
  DataShareAbsResultSet.GoToRow := GoToRow;
|}.

(** ** Reading *)
Definition CheckState s (columnIndex : Z) : Z * S :=
  match block_of s with
  | None => (E_ERROR, s)
  | Some _ =>
      let '(count, s) := DataShareAbsResultSet.GetColumnCount s in
      let cnt := match count with Ok n => n | _ => 0 end in
      if (columnIndex >=? cnt) || (columnIndex <? 0) then (E_INVALID_COLUMN_INDEX, s)
      else
        let '(count, s) := set_GetRowCount s in
        let rowCnt := match count with Ok n => n | _ => 0 end in
        let row := pos_row (positions_of s) in
        if (row <? 0) || (row >=? rowCnt) then (E_INVALID_STATEMENT, s) else (E_OK, s)
  end.

(** The cell under the cursor: the window starts at [startRowPos_]. *)
Definition cell_at s (columnIndex : Z) : outcome (SharedBlock * Z) :=
  match block_of s with
  | None => Undefined
  | Some b =>
      let '(mkPositions row start _) := positions_of s in
      match GetCellUnit b (u32 (row - start)) (u32 columnIndex) with
      | None => Err E_ERROR
      | Some cellUnit => Ok (b, cellUnit)
      end
  end.

Definition with_cell {A} s (columnIndex : Z) (f : SharedBlock -> Z -> outcome A) : outcome A * S :=
  let '(errorCode, s) := CheckState s columnIndex in
  if negb (errorCode =? E_OK) then (Err errorCode, s)
  else (bc <-- cell_at s columnIndex; f bc.1 bc.2, s).

Definition GetDataType s (columnIndex : Z) : outcome ColumnType :=
  bc <-- cell_at s columnIndex; Ok (ColumnType_of (cell_type bc.1 bc.2)).

Definition GetBlob s (columnIndex : Z) : outcome (list byte) * S :=
  with_cell s columnIndex (fun b cellUnit =>
    let type := cell_type b cellUnit in
    if (type =? CELL_UNIT_TYPE_BLOB) || (type =? CELL_UNIT_TYPE_STRING) then
      let '(size, blob) := GetCellUnitValue b cellUnit in
      match blob with
      | Some blob => if size =? 0 then Ok [] else Ok blob
      | None => Ok []
      end
    else if (type =? CELL_UNIT_TYPE_INTEGER) || (type =? CELL_UNIT_TYPE_NULL)
            || (type =? CELL_UNIT_TYPE_FLOAT) then Ok []
    else Err E_INVALID_OBJECT_TYPE).

(** The only getter that does not check the state. *)
Definition GetInt s (columnIndex : Z) : outcome Z :=
  bc <-- cell_at s columnIndex; Ok (s32 (cell_long bc.1 bc.2)).

Definition IsColumnNull s (columnIndex : Z) : outcome bool * S :=
  with_cell s columnIndex (fun b cellUnit => Ok (cell_type b cellUnit =? CELL_UNIT_TYPE_NULL)).

Section Conversions.
Context `{CLib}.

(** A cell of type string read as a C string: up to the first zero byte, which need
    not be in the cell; what lies behind the cell is not modelled. *)
Definition c_string (v : list byte) : outcome (list byte) :=
  if decide (zero ∈ v) then Ok (c_str v) else Undefined.

Definition GetString s (columnIndex : Z) : outcome (list byte) * S :=
  with_cell s columnIndex (fun b cellUnit =>
    let type := cell_type b cellUnit in
    if type =? CELL_UNIT_TYPE_STRING then
      let '(sizeIncludingNull, tempValue) := GetCellUnitValue b cellUnit in
      match tempValue with
      | Some v =>
          if sizeIncludingNull <=? 1 then Err E_ERROR else c_string v
      | None => Err E_ERROR
      end
    else if type =? CELL_UNIT_TYPE_INTEGER then Ok (to_bytes (to_string (cell_long b cellUnit)))
    else if type =? CELL_UNIT_TYPE_FLOAT then Ok (print_double (cell_double b cellUnit))
    else Err E_ERROR).

Definition GetLong s (columnIndex : Z) : outcome Z * S :=
  with_cell s columnIndex (fun b cellUnit =>
    let type := cell_type b cellUnit in
    if type =? CELL_UNIT_TYPE_INTEGER then Ok (cell_long b cellUnit)
    else if type =? CELL_UNIT_TYPE_STRING then
      let '(sizeIncludingNull, tempValue) := GetCellUnitValue b cellUnit in
      match tempValue with
      | Some v => if sizeIncludingNull >? 1 then t <-- c_string v; Ok (strtoll t) else Ok 0
      | None => Ok 0
      end
    else if type =? CELL_UNIT_TYPE_FLOAT then Ok (double_to_int64 (cell_double b cellUnit))
    else if (type =? CELL_UNIT_TYPE_NULL) || (type =? CELL_UNIT_TYPE_BLOB) then Ok 0
    else Err E_INVALID_OBJECT_TYPE).

Definition GetDouble s (columnIndex : Z) : outcome Z * S :=
  with_cell s columnIndex (fun b cellUnit =>
    let type := cell_type b cellUnit in
    if type =? CELL_UNIT_TYPE_FLOAT then Ok (cell_double b cellUnit)
    else if type =? CELL_UNIT_TYPE_STRING then
      let '(sizeIncludingNull, tempValue) := GetCellUnitValue b cellUnit in
      match tempValue with
      | Some v => if sizeIncludingNull >? 1 then t <-- c_string v; Ok (strtod t) else Ok 0
      | None => Ok 0
      end
    else if type =? CELL_UNIT_TYPE_INTEGER then Ok (int64_to_double (cell_long b cellUnit))
    else if (type =? CELL_UNIT_TYPE_NULL) || (type =? CELL_UNIT_TYPE_BLOB) then Ok 0
    else Err E_INVALID_OBJECT_TYPE).
End Conversions.
End Set_.

(** ** The set over a bridge *)
Class ResultSetBridge (B : Type) := {
  bridge_GetRowCount : B -> outcome Z * B;
  bridge_GetAllColumnNames : B -> outcome (list string) * B;
  bridge_OnGo : B -> Z -> Z -> DataShareBlockWriterImpl -> outcome (bool * DataShareBlockWriterImpl * B);
}.

(** The writer's pointer: the block of the set, null, or a block that was freed. *)
Inductive writer := NoWriter | WritesBlock | WritesNothing | WritesFreed.

Record DataShareResultSet (B : Type) := mkShareSet {
  positions_ : positions;
  isClosed_ : bool;
  sharedBlock_ : option SharedBlock;
  blockWriter_ : writer;
  bridge_ : option B;
}.
#[global] Arguments mkShareSet {B}.
#[global] Arguments positions_ {B}.
#[global] Arguments isClosed_ {B}.
#[global] Arguments sharedBlock_ {B}.
#[global] Arguments blockWriter_ {B}.
#[global] Arguments bridge_ {B}.

Section Bridged.
Context {B : Type} `{ResultSetBridge B}.
Implicit Types s : DataShareResultSet B.

Definition new_DataShareResultSet : DataShareResultSet B :=
  mkShareSet (mkPositions INIT_POS (-1) (-1)) false None NoWriter None.

(** [created]: the block of [SharedBlock::Create], if it made one. *)
Definition DataShareResultSet_of (bridge : B) (created : option SharedBlock)
    : DataShareResultSet B :=
  let w := new_Writer created in
  mkShareSet (mkPositions INIT_POS (-1) (-1)) false (GetBlock w)
    (match GetBlock w with Some _ => WritesBlock | None => WritesNothing end) (Some bridge).

Definition with_bridge s (b : B) : DataShareResultSet B :=
  mkShareSet (positions_ s) (isClosed_ s) (sharedBlock_ s) (blockWriter_ s) (Some b).
Definition with_shared s (b : option SharedBlock) (w : writer) : DataShareResultSet B :=
  mkShareSet (positions_ s) (isClosed_ s) b w (bridge_ s).

Definition GetAllColumnNames s : outcome (list string) * DataShareResultSet B :=
  match bridge_ s with
  | None => (Err E_ERROR, s)
  | Some b => let '(names, b) := bridge_GetAllColumnNames b in (names, with_bridge s b)
  end.

Definition GetRowCount s : outcome Z * DataShareResultSet B :=
  match bridge_ s with
  | None => (Err E_ERROR, s)
  | Some b => let '(count, b) := bridge_GetRowCount b in (count, with_bridge s b)
  end.

(** The error code of a missing bridge is converted to [true]. *)
Definition OnGo s (startRowIndex targetRowIndex : Z) : outcome (bool * DataShareResultSet B) :=
  match bridge_ s, blockWriter_ s with
  | None, _ | _, NoWriter => Ok (true, s)
  | Some _, WritesFreed => Undefined
  | Some b, WritesNothing =>
      r <-- bridge_OnGo b startRowIndex targetRowIndex (mkWriter None);
      let '(res, _, b) := r in Ok (res, with_bridge s b)
  | Some b, WritesBlock =>
      r <-- bridge_OnGo b startRowIndex targetRowIndex (mkWriter (sharedBlock_ s));
      let '(res, w, b) := r in Ok (res, with_bridge (with_shared s (shareBlock_ w) WritesBlock) b)
  end.

#[export] Instance share_set_methods : SetMethods (DataShareResultSet B) := {|
  positions_of := positions_;
  with_positions s p :=
    mkShareSet p (isClosed_ s) (sharedBlock_ s) (blockWriter_ s) (bridge_ s);
  block_of := sharedBlock_;
  with_block s b := with_shared s b (blockWriter_ s);
  set_GetRowCount := GetRowCount;
  set_GetAllColumnNames := GetAllColumnNames;
  set_OnGo := OnGo;
|}.

(** ** The block of the set *)
Definition share_HasBlock s : bool := match sharedBlock_ s with Some _ => true | None => false end.
Definition share_GetBlock s : option SharedBlock := sharedBlock_ s.

(** [delete] leaves the writer with a dangling pointer. *)
Definition ClosedBlock s : DataShareResultSet B :=
  with_shared s None
    (match sharedBlock_ s, blockWriter_ s with Some _, WritesBlock => WritesFreed | _, w => w end).

Definition share_Close s : Z * DataShareResultSet B :=
  let s := mkShareSet (positions_ s) true (sharedBlock_ s) (blockWriter_ s) (bridge_ s) in
  (E_OK, ClosedBlock s).

(** [same] tells whether the given block is the one already there. *)
Definition share_SetBlock s (block : option SharedBlock) (same : bool) : DataShareResultSet B :=
  if negb same then let s := ClosedBlock s in with_shared s block (blockWriter_ s) else s.

Definition share_ClearBlock s : DataShareResultSet B :=
  match sharedBlock_ s with
  | Some b => with_shared s (Some (snd (SharedBlock.Clear b))) (blockWriter_ s)
  | None => s
  end.

Definition share_Finalize s : DataShareResultSet B := snd (share_Close s).
End Bridged.
