(* ===== verification/RdbResultSetBridgeSpec.v ===== *)
(** * Correctness of the result-set bridge

    Proved against what a result set of the database promises, [RowSource]: a
    cursor on the rows of a query whose getters return the values. The bridge
    copies the rows it is asked for into the block, when the columns keep their
    types from row to row, no blob has a zero byte and the rows fit. *)
From S2P Require Import Prelude Memory RdbErrno SharedBlock SharedBlockRepr SharedBlockProps SharedBlockFill SharedBlockFillSpec ResultSet SharedResultSet DataShareBlockWriter RdbResultSetBridge.
From Stdlib Require Import Ascii.

#[local] Open Scope list_scope.

Definition kind (v : value) : ColumnType :=
  match v with
  | VNull => TYPE_NULL | VLong _ => TYPE_INTEGER | VDouble _ => TYPE_FLOAT
  | VText _ => TYPE_STRING | VBlob _ => TYPE_BLOB
  end.

Definition value_ok (v : value) : Prop :=
  match v with
  | VLong z => -9223372036854775808 <= z < 9223372036854775808
  | VDouble z => 0 <= z < 18446744073709551616
  | _ => True
  end.

(** What the bridge puts into a cell; a blob goes as a string without terminator. *)
Definition shared_cell (v : value) : cell :=
  match v with
  | VNull => CNull
  | VLong z => CLong z
  | VDouble z => CDouble z
  | VText bs => CString (c_str bs ++ [zero])
  | VBlob [] => CNull
  | VBlob bs => CString (c_str bs)
  end.

(** The bytes a value and a row take. *)
Definition need (v : value) : Z :=
  match v with
  | VText bs => Z.of_nat (length (c_str bs)) + 1
  | VBlob bs => Z.of_nat (length bs)
  | _ => 0
  end.
Definition values_need (vals : list value) : Z := foldr (fun v n => need v + n) 0 vals.
Definition row_need (vals : list value) : Z := 3 + 12 * Z.of_nat (length vals) + values_need vals.
Definition rows_need (rs : list (list value)) : Z := foldr (fun vals n => row_need vals + n) 0 rs.

Lemma need_nonneg v : 0 <= need v.
Proof. destruct v; simpl; lia. Qed.
Lemma values_need_nonneg vals : 0 <= values_need vals.
Proof. induction vals as [|v vals IH]; simpl; [done|]. pose proof (need_nonneg v). lia. Qed.
Lemma rows_need_nonneg rs : 0 <= rows_need rs.
Proof.
  induction rs as [|vals rs IH]; simpl; [done|]. unfold row_need.
  pose proof (values_need_nonneg vals). lia.
Qed.

Lemma room_here u vals rs' size : u + (row_need vals + rows_need rs') <= size -> u + row_need vals <= size.
Proof. pose proof (rows_need_nonneg rs'). lia. Qed.

Lemma c_str_no_zero bs : zero ∉ bs -> c_str bs = bs.
Proof.
  induction bs as [|x bs IH]; [done|]. rewrite not_elem_of_cons. intros [Hx Hb]. simpl.
  destruct (Ascii.eqb_spec x "000"); [by subst|]. by rewrite IH.
Qed.

Lemma zero_not_in_c_str bs : zero ∉ c_str bs.
Proof.
  induction bs as [|x bs IH]; simpl; [by apply not_elem_of_nil|].
  destruct (Ascii.eqb_spec x "000") as [|Hx]; [by apply not_elem_of_nil|].
  apply not_elem_of_cons. split; [by apply not_eq_sym|done].
Qed.

Lemma length_c_str bs : (length (c_str bs) <= length bs)%nat.
Proof. induction bs as [|x bs IH]; simpl; [done|]. case_match; simpl; lia. Qed.

(** ** What the database's result set promises *)
Class RowSource (R : Type) `{ResultSetOps R} `{RdbGetters R} (inv : R -> Prop)
    (names : list string) (rs : list (list value)) := {
  source_cursor : Cursor R inv (Z.of_nat (length rs));
  source_cols : (0 < length names)%nat /\ Z.of_nat (length names) <= COL_MAX_NUM;
  source_rows : Forall (fun vals => length vals = length names /\ Forall value_ok vals) rs;
  source_names s : inv s ->
    exists s', ResultSet.GetAllColumnNames s = (E_OK, names, s') /\ inv s' /\ rowPos s' = rowPos s;
  source_type s r c v : inv s -> rowPos s = Z.of_nat r -> rs !! r ≫= (.!! c) = Some v ->
    exists s', rdb_GetColumnType s (Z.of_nat c) = (Ok (kind v), s') /\
      inv s' /\ rowPos s' = rowPos s;
  source_long s r c z : inv s -> rowPos s = Z.of_nat r -> rs !! r ≫= (.!! c) = Some (VLong z) ->
    exists s', rdb_GetLong s (Z.of_nat c) = (Ok z, s') /\ inv s' /\ rowPos s' = rowPos s;
  source_double s r c z : inv s -> rowPos s = Z.of_nat r -> rs !! r ≫= (.!! c) = Some (VDouble z) ->
    exists s', rdb_GetDouble s (Z.of_nat c) = (Ok z, s') /\ inv s' /\ rowPos s' = rowPos s;
  source_text s r c bs : inv s -> rowPos s = Z.of_nat r -> rs !! r ≫= (.!! c) = Some (VText bs) ->
    exists res bs' s', rdb_GetString s (Z.of_nat c) = (res, s') /\ or_empty res = Ok bs' /\
      c_str bs' = c_str bs /\ inv s' /\ rowPos s' = rowPos s;
  source_blob s r c bs : inv s -> rowPos s = Z.of_nat r -> rs !! r ≫= (.!! c) = Some (VBlob bs) ->
    exists s', rdb_GetBlob s (Z.of_nat c) = (Ok bs, s') /\ inv s' /\ rowPos s' = rowPos s;
}.

(** Every column has one type, and blobs have no zero byte. *)
Definition uniform (rs : list (list value)) : Prop :=
  forall r1 r2 vals1 vals2, rs !! r1 = Some vals1 -> rs !! r2 = Some vals2 ->
    kind <$> vals1 = kind <$> vals2.
Definition no_zero_blob (v : value) : Prop := match v with VBlob bs => zero ∉ bs | _ => True end.

Section Copy.
Context `{SecureC} {R : Type} `{Hsrc : RowSource R inv names rs}.
Hypothesis Hblobs : Forall (Forall no_zero_blob) rs.

Abbreviation n := (length names).

(** A row whose first [i] columns are written. *)
Definition part (i : nat) (vals : list value) : list cell :=
  (shared_cell <$> take i vals) ++ replicate (length vals - i) CNull.

Lemma part_insert i vals v :
  vals !! i = Some v -> <[i := shared_cell v]> (part i vals) = part (1 + i) vals.
Proof.
  intros Hv. pose proof (lookup_lt_Some _ _ _ Hv). unfold part.
  assert (Hl : length (shared_cell <$> take i vals) = i)
    by (rewrite length_fmap, length_take; lia).
  rewrite insert_app_r_alt, Hl, Nat.sub_diag by lia. replace (length vals - i)%nat with (1 + (length vals - (1 + i)))%nat by lia. simpl.
  rewrite (take_S_r _ i v Hv), fmap_app. by rewrite <- app_assoc.
Qed.

Lemma part_null i vals v :
  vals !! i = Some v -> shared_cell v = CNull -> part i vals = part (1 + i) vals.
Proof.
  intros Hv Hn. rewrite <- (part_insert i vals v Hv), Hn. symmetry. apply list_insert_id.
  pose proof (lookup_lt_Some _ _ _ Hv). unfold part.
  rewrite lookup_app_r by (rewrite length_fmap, length_take; lia).
  apply lookup_replicate. rewrite length_fmap, length_take. split; [done|lia].
Qed.

(** ** One column *)
Lemma current_row b t row : repr b (tbl_snoc t row) ->
  GetCurrentRowIndex (mkWriter (Some b)) = Some (Z.of_nat (length (rows t))).
Proof.
  intros (_ & Hn & _). simpl in Hn. rewrite length_app in Hn. simpl in Hn.
  unfold GetCurrentRowIndex, SharedBlock.GetRowNum. simpl. rewrite Hn, Z.gtb_ltb.
  rewrite (proj2 (Z.ltb_lt 0 _)) by lia. f_equal. lia.
Qed.

Lemma snoc_range t row c : (c < cols t)%nat -> in_range (tbl_snoc t row) (length (rows t)) c.
Proof. intros Hc. split; [|done]. simpl. rewrite length_app. simpl. lia. Qed.

(** The state after writing a value into column [i] of the last row. *)
Definition wrote (t : table) (vals : list value) (i : nat) (v : value) (b : SharedBlock) (s : R)
    (res : outcome (DataShareBlockWriterImpl * R)) : Prop :=
  exists b' s', res = Ok (mkWriter (Some b'), s') /\ inv s' /\ rowPos s' = rowPos s /\
    repr b' (tbl_snoc t (part (1 + i) vals)) /\
    unusedOffset b' <= unusedOffset b + need v /\ mSize b' = mSize b.

Lemma wrote_from t vals i v b s s' res :
  rowPos s' = rowPos s -> wrote t vals i v b s' res -> wrote t vals i v b s res.
Proof. unfold wrote. by intros ->. Qed.

(** A scalar put. *)
Lemma wrote_scalar t vals i v b s f :
  repr b (tbl_snoc t (part i vals)) -> vals !! i = Some v -> inv s -> need v = 0 ->
  (exists b', f b (Z.of_nat (length (rows t))) = (SHARED_BLOCK_OK, b') /\
     repr b' (tbl_set (tbl_snoc t (part i vals)) (length (rows t)) i (shared_cell v))) ->
  unusedOffset (snd (f b (Z.of_nat (length (rows t))))) = unusedOffset b ->
  same_shape b (snd (f b (Z.of_nat (length (rows t))))) ->
  wrote t vals i v b s (Ok (snd (on_row (mkWriter (Some b)) f), s)).
Proof.
  intros HR Hv Hs Hneed (b' & E & HR') Hu (Hm & _). unfold on_row.
  rewrite (current_row b t _ HR). unfold on_block. simpl. rewrite E in *. simpl in *.
  exists b', s. split_and!; try done; [|lia]. by rewrite tbl_set_snoc, part_insert in HR'.
Qed.

(** A string put of the bytes of the cell. *)
Lemma wrote_string t vals i v b s bs value size :
  repr b (tbl_snoc t (part i vals)) -> (i < cols t)%nat -> vals !! i = Some v -> inv s ->
  shared_cell v = CString bs -> bs <> [] -> Z.of_nat (length bs) <= need v ->
  unusedOffset b + need v <= mSize b ->
  firstn (Z.to_nat size) value = bs -> size = Z.of_nat (length bs) ->
  wrote t vals i v b s (Ok (snd (Write_string (mkWriter (Some b)) (Z.of_nat i) value size), s)).
Proof.
  intros HR Hi Hv Hs Hc Hne Hneed Hroom Hf Hsize. unfold Write_string, on_row.
  rewrite (current_row b t _ HR).
  destruct (PutString_room b _ (length (rows t)) i bs HR (snoc_range _ _ _ Hi) Hne ltac:(lia)
              value size Hf Hsize) as (b' & E & HR' & Hu & Hm).
  unfold on_block. simpl. rewrite E. simpl. exists b', s. split_and!; try done; [|lia].
  rewrite tbl_set_snoc, <- Hc, part_insert in HR' by done. done.
Qed.

Lemma write_one_spec t vals r i v b s :
  repr b (tbl_snoc t (part i vals)) -> cols t = n -> rs !! r = Some vals ->
  vals !! i = Some v -> inv s -> rowPos s = Z.of_nat r -> unusedOffset b + need v <= mSize b ->
  wrote t vals i v b s (write_one (kind v) (Z.of_nat i) (mkWriter (Some b)) s).
Proof.
  intros HR Ht Hvals Hv Hs Hr Hroom.
  assert (Hrv : rs !! r ≫= (.!! i) = Some v) by (by rewrite Hvals).
  pose proof source_rows as Hrows. eapply Forall_lookup_1 in Hrows as [Hlen Hok]; [|done].
  eapply Forall_lookup_1 in Hok as Hvok; [|done].
  assert (Hi : (i < cols t)%nat) by (apply lookup_lt_Some in Hv; lia).
  pose proof (snoc_range t (part i vals) i Hi) as Hin.
  destruct v as [|z|z|bs|bs]; simpl write_one; simpl in Hvok.
  - apply wrote_scalar; try done; [by apply PutNull_spec|by eapply PutNull_unused|].
    apply (put_scalar_shape b _ _ 0).
  - destruct (source_long s r i z Hs Hr Hrv) as (s' & E & Hs' & Hp). rewrite E. simpl.
    apply (wrote_from _ _ _ _ _ _ s' _ Hp), wrote_scalar; try done;
      [by apply PutLong_spec|by eapply PutLong_unused|apply (put_scalar_shape b _ _ z)].
  - destruct (source_double s r i z Hs Hr Hrv) as (s' & E & Hs' & Hp). rewrite E. simpl.
    apply (wrote_from _ _ _ _ _ _ s' _ Hp), wrote_scalar; try done;
      [by apply PutDouble_spec|by eapply PutDouble_unused|apply (put_scalar_shape b _ _ z)].
  - destruct (source_text s r i bs Hs Hr Hrv) as (res & bs' & s' & E & Eo & Ec & Hs' & Hp).
    rewrite E, Eo. simpl. rewrite Ec. simpl in Hroom.
    apply (wrote_from _ _ _ _ _ _ s' _ Hp), (wrote_string _ _ _ _ _ _ (c_str bs ++ [zero]));
      try done; simpl; rewrite ?length_app; simpl; try lia.
    + by destruct (c_str bs).
    + rewrite firstn_all2; [done|]. rewrite length_app. simpl. lia.
  - destruct (source_blob s r i bs Hs Hr Hrv) as (s' & E & Hs' & Hp).
    unfold WriteBlobData. rewrite E. simpl.
    pose proof Hblobs as Hz. eapply Forall_lookup_1 in Hz; [|done].
    eapply Forall_lookup_1 in Hz; [|done]. simpl in Hz, Hroom.
    destruct bs as [|x bs].
    { exists b, s'. rewrite <- (part_null i vals (VBlob [])) by done. by split_and!; try done; simpl; lia. }
    rewrite c_str_no_zero by done.
    apply (wrote_from _ _ _ _ _ _ s' _ Hp), (wrote_string _ _ _ _ _ _ (x :: bs)); try done.
    + unfold shared_cell. by rewrite c_str_no_zero.
    + rewrite Nat2Z.id. by rewrite take_app_length.
Qed.

(** ** A row *)
Lemma WriteColumn_spec t vals r : forall i b s,
  repr b (tbl_snoc t (part i vals)) -> cols t = n -> rs !! r = Some vals ->
  (i <= length vals)%nat -> inv s -> rowPos s = Z.of_nat r ->
  unusedOffset b + values_need (drop i vals) <= mSize b ->
  exists b' s', WriteColumn (kind <$> drop i vals) (Z.of_nat i) (mkWriter (Some b)) s =
      Ok (mkWriter (Some b'), s') /\ inv s' /\ rowPos s' = rowPos s /\
    repr b' (tbl_snoc t (shared_cell <$> vals)) /\
    unusedOffset b' <= unusedOffset b + values_need (drop i vals) /\ mSize b' = mSize b.
Proof.
  intros i b s HR Ht Hvals Hi. remember (length vals - i)%nat as k eqn:Hk.
  revert i b s HR Hi Hk. induction k as [|k IH]; intros i b s HR Hi Hk Hs Hr Hroom.
  { rewrite (drop_ge vals i) in * by lia. exists b, s. split_and!; try done; [|simpl; lia].
    unfold part in HR. rewrite take_ge in HR by lia.
    by replace (length vals - i)%nat with 0%nat in HR by lia; rewrite app_nil_r in HR. }
  destruct (lookup_lt_is_Some_2 vals i) as [v Hv]; [lia|].
  rewrite (drop_S vals v i Hv) in *. rewrite fmap_cons. simpl in Hroom. cbn [WriteColumn].
  pose proof (values_need_nonneg (drop (S i) vals)).
  destruct (write_one_spec t vals r i v b s HR Ht Hvals Hv Hs Hr ltac:(lia))
    as (b1 & s1 & E & Hs1 & Hp1 & HR1 & Hu1 & Hm1).
  rewrite E. cbn [outcome_bind fst snd]. replace (Z.of_nat i + 1) with (Z.of_nat (S i)) by lia.
  destruct (IH (S i) b1 s1 HR1 ltac:(lia) ltac:(lia) Hs1 ltac:(lia) ltac:(lia))
    as (b2 & s2 & E2 & Hs2 & Hp2 & HR2 & Hu2 & Hm2).
  exists b2, s2. split; [done|]. split_and!; try done; [congruence|simpl; lia|lia].
Qed.

Lemma GetColumnTypes_spec vals r k : forall i acc s,
  rs !! r = Some vals -> (i + k = length vals)%nat -> acc = kind <$> take i vals ->
  inv s -> rowPos s = Z.of_nat r ->
  exists s', GetColumnTypes k (Z.of_nat i) acc s = Ok (kind <$> vals, s') /\
    inv s' /\ rowPos s' = rowPos s.
Proof.
  induction k as [|k IH]; intros i acc s Hvals Hk Hacc Hs Hr.
  { exists s. simpl. rewrite Hacc, take_ge by lia. done. }
  destruct (lookup_lt_is_Some_2 vals i) as [v Hv]; [lia|]. cbn [GetColumnTypes].
  destruct (source_type s r i v Hs Hr) as (s1 & E & Hs1 & Hp1); [by rewrite Hvals|].
  rewrite E. cbn [out_parameter outcome_bind]. replace (Z.of_nat i + 1) with (Z.of_nat (S i)) by lia.
  destruct (IH (S i) (acc ++ [kind v]) s1 Hvals ltac:(lia)) as (s2 & E2 & Hs2 & Hp2);
    [by rewrite Hacc, (take_S_r _ i v Hv), fmap_app|done|congruence|].
  exists s2. split_and!; [done|done|congruence].
Qed.

(** ** A window of rows *)
Definition cells_of (l : list (list value)) : list (list cell) :=
  (fun vals : list value => shared_cell <$> vals) <$> l.

Lemma write_row rows0 r vals b s :
  repr b (mkTable n rows0) -> (length rows0 < 100)%nat -> rs !! r = Some vals ->
  inv s -> rowPos s = Z.of_nat r -> unusedOffset b + row_need vals <= mSize b ->
  exists b' s', inv s' /\ repr b' (mkTable n (rows0 ++ [shared_cell <$> vals])) /\
    unusedOffset b' <= unusedOffset b + row_need vals /\ mSize b' = mSize b /\
    ((1 + r < length rs)%nat -> rowPos s' = Z.of_nat (1 + r)) /\
    forall k, WriteBlock (1 + k) (kind <$> vals) (mkWriter (Some b)) s =
      if decide (1 + r < length rs)%nat then WriteBlock k (kind <$> vals) (mkWriter (Some b')) s'
      else Ok (mkWriter (Some b'), s').
Proof.
  intros HR Hl Hvals Hs Hr Hroom. pose proof source_cols as [Hn _]. unfold row_need in *.
  pose proof source_rows as Hrows. eapply Forall_lookup_1 in Hrows as [Hlen _]; [|exact Hvals].
  rewrite Hlen in *. pose proof (values_need_nonneg vals).
  destruct (AllocRow_room b (mkTable n rows0) HR Hn Hl) as (b1 & E1 & HR1 & Hu1 & Hm1); [simpl; lia|].
  simpl in Hu1.
  assert (HR1' : repr b1 (tbl_snoc (mkTable n rows0) (part 0 vals)))
    by (unfold part; rewrite Nat.sub_0_r, Hlen; exact HR1).
  destruct (WriteColumn_spec (mkTable n rows0) vals r 0 b1 s HR1' eq_refl Hvals ltac:(lia) Hs Hr)
    as (b2 & s2 & E2 & Hs2 & Hp2 & HR2 & Hu2 & Hm2); [rewrite drop_0; lia|].
  rewrite drop_0 in *. change (Z.of_nat 0) with 0 in E2.
  destruct (@GoToNextRow_spec R _ inv (Z.of_nat (length rs)) source_cursor s2 Hs2)
    as (s3 & Hs3 & E3 & Hp3). rewrite Hp2, Hr in *.
  exists b2, s3. split_and!; try done; [lia|lia| |].
  { intros Hlt. rewrite Hp3, (proj2 (Z.ltb_lt _ _)) by lia. lia. }
  intros k. cbn [WriteBlock Nat.add]. unfold DataShareBlockWriter.AllocRow, on_block. simpl shareBlock_.
  cbv iota. rewrite E1. cbn [ConvertErrorCode]. simpl negb. cbv iota. rewrite E2.
  cbn [outcome_bind fst snd]. rewrite E3.
  case_decide; [rewrite (proj2 (Z.ltb_lt _ _)) by lia|rewrite (proj2 (Z.ltb_ge _ _)) by lia]; done.
Qed.

Lemma WriteBlock_spec types : forall k rows0 r b s,
  repr b (mkTable n rows0) -> (length rows0 + k < 100)%nat -> (r + k < length rs)%nat ->
  (forall i vals, rs !! i = Some vals -> kind <$> vals = types) ->
  inv s -> rowPos s = Z.of_nat r ->
  unusedOffset b + rows_need (take (1 + k) (drop r rs)) <= mSize b ->
  exists b' s', WriteBlock (1 + k) types (mkWriter (Some b)) s = Ok (mkWriter (Some b'), s') /\
    inv s' /\ repr b' (mkTable n (rows0 ++ cells_of (take (1 + k) (drop r rs)))) /\
    mSize b' = mSize b.
Proof.
  induction k as [|k IH]; intros rows0 r b s HR Hl Hk Htypes Hs Hr Hroom;
    (destruct (lookup_lt_is_Some_2 rs r) as [vals Hvals]; [lia|]);
    rewrite (drop_S rs vals r Hvals) in *; simpl rows_need in Hroom;
    (destruct (write_row rows0 r vals b s HR) as (b1 & s1 & Hs1 & HR1 & Hu1 & Hm1 & Hp1 & E1);
      [lia|done|done|done|first [lia|by eapply room_here]|]).
  - rewrite <- (Htypes r vals Hvals), E1. exists b1, s1. by case_decide.
  - rewrite <- (Htypes r vals Hvals), E1, decide_True by lia.
    destruct (IH (rows0 ++ [shared_cell <$> vals]) (1 + r)%nat b1 s1) as (b2 & s2 & E2 & Hs2 & HR2 & Hm2);
      try done; [rewrite length_app; simpl; lia|lia|apply Hp1; lia|simpl; lia|].
    exists b2, s2. rewrite (Htypes r vals Hvals). split; [done|]. split_and!; [done| |congruence].
    by rewrite <- app_assoc in HR2.
Qed.

(** ** A request for rows *)
Lemma OnGo_spec start target b s :
  uniform rs -> inv s -> repr b (tbl_empty n) -> 0 <= start <= target ->
  target < Z.of_nat (length rs) -> target - start < 99 ->
  unusedOffset b + rows_need (take (Z.to_nat (target - start + 1)) (drop (Z.to_nat start) rs)) <= mSize b ->
  exists b' s', OnGo start target (mkWriter (Some b)) s = Ok (true, mkWriter (Some b'), s') /\ inv s' /\
    repr b' (mkTable n (cells_of (take (Z.to_nat (target - start + 1)) (drop (Z.to_nat start) rs)))) /\
    mSize b' = mSize b.
Proof.
  intros Hu Hs HR Hst Ht Hspan Hroom. unfold OnGo.
  pose proof (@cursor_count_range R _ inv _ source_cursor) as Hcount.
  destruct (@cursor_GetRowCount R _ inv _ source_cursor s Hs) as (s1 & E1 & Hs1 & _). rewrite E1.
  rewrite (proj2 (Z.ltb_ge start 0)), (proj2 (Z.ltb_ge target 0)), Z.geb_leb,
    (proj2 (Z.leb_gt _ target)) by lia. simpl orb. cbv iota.
  destruct (source_names s1 Hs1) as (s2 & E2 & Hs2 & _). unfold GetColumnCount. rewrite E2. simpl negb.
  pose proof source_cols as [Hn Hmax]. unfold COL_MAX_NUM in Hmax.
  cbn [out_parameter outcome_bind negb]. rewrite s32_small by lia.
  rewrite (proj2 (Z.leb_gt _ 0)) by lia.
  assert (Hgo : forall s r, inv s -> (r < length rs)%nat ->
    exists s', ResultSet.GoToRow s (Z.of_nat r) = (E_OK, s') /\ inv s' /\ rowPos s' = Z.of_nat r).
  { intros s' r Hi Hlt.
    destruct (@cursor_GoToRow R _ inv _ source_cursor s' (Z.of_nat r) Hi ltac:(lia))
      as (s3 & Hs3 & E & Hp). rewrite E.
    rewrite (proj2 (Z.leb_le 0 _)), (proj2 (Z.ltb_lt _ _)) by lia. exists s3. split_and!; try done.
    rewrite Hp, (proj2 (Z.ltb_ge _ 0)), (proj2 (Z.ltb_lt _ _)) by lia. done. }
  assert (Hs3 : inv (if negb (IsStarted s2) then (GoToFirstRow s2).2 else s2)).
  { destruct (IsStarted s2); [done|]. simpl. unfold GoToFirstRow.
    destruct (Hgo s2 0%nat Hs2 ltac:(lia)) as (s3 & E & Hs3 & _).
    change (Z.of_nat 0) with 0 in E. by rewrite E. }
  destruct (Hgo _ (Z.to_nat start) Hs3 ltac:(lia)) as (s4 & E4 & Hs4 & Hp4).
  rewrite Z2Nat.id in E4 by lia. rewrite E4. simpl negb. cbv iota.
  destruct (lookup_lt_is_Some_2 rs (Z.to_nat start)) as [vals Hvals]; [lia|].
  pose proof source_rows as Hrows. eapply Forall_lookup_1 in Hrows as [Hlen _]; [|exact Hvals].
  rewrite Nat2Z.id.
  destruct (GetColumnTypes_spec vals (Z.to_nat start) n 0 [] s4 Hvals ltac:(lia) eq_refl Hs4 Hp4)
    as (s5 & E5 & Hs5 & Hp5). change (Z.of_nat 0) with 0 in E5. rewrite E5. cbn [outcome_bind fst snd].
  replace (Z.to_nat (target - start + 1)) with (1 + Z.to_nat (target - start))%nat in * by lia.
  destruct (WriteBlock_spec (kind <$> vals) (Z.to_nat (target - start)) [] (Z.to_nat start) b s5)
    as (b6 & s6 & E6 & Hs6 & HR6 & Hm6); try done; [simpl; lia|lia| |congruence|].
  { intros i vals' Hi. by apply (Hu i (Z.to_nat start)). }
  rewrite E6. cbn [outcome_bind fst snd]. by exists b6, s6.
Qed.
End Copy.

(** ** A result set backed by a shared block is a source of rows

    [SqliteSharedResultSet] over a store discharges [RowSource], what the bridge
    expects of a database's result set, when the first fill of its block takes every
    row. *)
From S2P Require Import SharedResultSet SharedResultSetSpec.

Section Source.
Context `{SecureC, CLib} (store : Store) (names : list string) (rs : list (list value)).
Context `{Hshows : !StoreShows store names rs}.

#[export] Instance shared_getters : RdbGetters SqliteSharedResultSet := {|
  rdb_GetColumnType s i := (GetColumnType s i, s);
  rdb_GetLong := SharedResultSet.GetLong store;
  rdb_GetDouble := SharedResultSet.GetDouble store;
  rdb_GetString := SharedResultSet.GetString store;
  rdb_GetBlob := SharedResultSet.GetBlob store;
|}.

Abbreviation len := (Z.of_nat (length rs)).

(** A cursor on a row implies that the block was loaded. *)
Definition source_inv (s : SqliteSharedResultSet) : Prop :=
  set_inv store rs s /\ (rowNum s = NO_COUNT -> rs_rowPos s < 0).

Lemma source_inv_counted s : set_inv store rs s -> rowNum s = len -> source_inv s.
Proof. intros Hs Hn. split; [done|]. rewrite Hn. unfold NO_COUNT. lia. Qed.

Lemma source_loaded s r : source_inv s -> rs_rowPos s = Z.of_nat r ->
  exists b, sharedBlock_ s = Some b /\ rowNum s = len /\ loaded rs b.
Proof.
  intros [(_ & _ & _ & b & Hb & Hr) Hn] Hp. exists b.
  destruct Hr as [[Hr _]|[Hr Hl]]; [|done]. specialize (Hn Hr). lia.
Qed.

Lemma GoToRow_counted s p : set_inv store rs s -> rowNum (snd (SharedResultSet.GoToRow store s p)) = len.
Proof.
  intros Hs. destruct (Z.lt_ge_cases p 0), (Z.lt_ge_cases p len); try lia.
  2: { destruct (GoToRow_inside store names rs s (Z.to_nat p) Hs) as (s' & b & E & _ & _ & _ & Hn & _); [lia|].
       rewrite Z2Nat.id in E by lia. by rewrite E. }
  all: destruct (GetRowCount_spec store names rs s Hs) as (s1 & b & E & _ & _ & _ & Hn & _);
    unfold SharedResultSet.GoToRow; rewrite E, Z.geb_leb.
  - by rewrite (proj2 (Z.leb_gt len p)), (proj2 (Z.ltb_lt p 0)) by lia.
  - by rewrite (proj2 (Z.leb_le len p)) by lia.
Qed.

Lemma source_is_cursor : @Cursor SqliteSharedResultSet (shared_ops store) source_inv len.
Proof.
  pose proof (set_cursor store names rs) as HC. split.
  - apply (@cursor_count_range _ _ _ _ HC).
  - intros s [Hs _]. by apply (@cursor_pos_range _ _ _ _ HC).
  - intros s [Hs _]. destruct (GetRowCount_spec store names rs s Hs) as (s' & b & E & Hs' & Hp & _ & Hn & _).
    exists s'. split_and!; [done| |done]. by apply source_inv_counted.
  - intros s p [Hs _] Hp. destruct (@cursor_GoToRow _ _ _ _ HC s p Hs Hp) as (s' & Hs' & E & Hp').
    exists s'. split_and!; [|done|done]. apply source_inv_counted; [done|].
    pose proof (GoToRow_counted s p Hs) as Hn. simpl ResultSet.GoToRow in E. by rewrite E in Hn.
Qed.

Lemma source_names_spec s : source_inv s ->
  exists s', SharedResultSet.GetAllColumnNames store s = (E_OK, names, s') /\
    source_inv s' /\ rs_rowPos s' = rs_rowPos s /\ rowNum s' = rowNum s /\
    sharedBlock_ s' = sharedBlock_ s.
Proof.
  intros [(Hc & Hst & Hp & Hb) Hn]. unfold SharedResultSet.GetAllColumnNames, PrepareStep.
  rewrite Hc, Hst. destruct shows_names as (st & -> & Hcount & Hname). simpl. rewrite Hcount, Nat2Z.id.
  pose proof (column_names_spec names st Hname (length names) [] eq_refl eq_refl) as E.
  change (column_names st (length names) 0 [] = (E_OK, names)) in E. rewrite E. simpl.
  eexists. split; [done|]. simpl. split; [|done]. by split.
Qed.

(** A getter leaves a state in which the cursor still is on its row. *)
Lemma with_cell_state {A} s r c (f : SharedBlock -> Z -> outcome A) :
  source_inv s -> rs_rowPos s = Z.of_nat r -> (r < length rs)%nat -> (c < length names)%nat ->
  source_inv (snd (SharedResultSet.with_cell store s (Z.of_nat c) f)) /\
  rs_rowPos (snd (SharedResultSet.with_cell store s (Z.of_nat c) f)) = rs_rowPos s.
Proof.
  intros Hs Hp Hr Hc. destruct (source_loaded s r Hs Hp) as (b & Hb & Hn & Hl).
  destruct (source_names_spec s Hs) as (s1 & E1 & [Hs1 _] & Hp1 & Hn1 & Hb1).
  destruct (GetRowCount_spec store names rs s1 Hs1) as (s2 & b2 & E2 & Hs2 & Hp2 & Hb2 & Hn2 & _).
  assert (Hs2' : source_inv s2) by by apply source_inv_counted.
  unfold SharedResultSet.with_cell, SharedResultSet.CheckState. rewrite Hb.
  unfold ResultSet.GetColumnCount. simpl ResultSet.GetAllColumnNames. rewrite E1.
  cbn -[SharedResultSet.GetRowCount FillSharedBlock Z.geb Z.ltb].
  rewrite (set_s32_cols store names rs), Z.geb_leb, (proj2 (Z.leb_gt _ _)), (proj2 (Z.ltb_ge _ _)) by lia.
  cbn [orb]. rewrite E2, Hp2, Hp1, Hp, (proj2 (Z.ltb_ge _ _)), Z.geb_leb, (proj2 (Z.leb_gt _ _)) by lia.
  simpl. rewrite Hb2. destruct (GetCellUnit _ _ _); simpl; split; try done; congruence.
Qed.

(** A getter on a row: what it looks at, and the state it leaves. *)
Lemma source_cell {A} s r c v (f : SharedBlock -> Z -> outcome A) :
  Forall (fun vals => length vals = length names) rs ->
  source_inv s -> rs_rowPos s = Z.of_nat r -> rs !! r ≫= (.!! c) = Some v ->
  exists b p s', SharedResultSet.with_cell store s (Z.of_nat c) f = (f b p, s') /\
    source_inv s' /\ rs_rowPos s' = rs_rowPos s /\
    match v with
    | VNull => cell_type b p = CELL_UNIT_TYPE_NULL
    | VLong z => cell_type b p = CELL_UNIT_TYPE_INTEGER /\ cell_long b p = z
    | VDouble z => cell_type b p = CELL_UNIT_TYPE_FLOAT /\ cell_double b p = z
    | VText bs => cell_type b p = CELL_UNIT_TYPE_STRING /\
        GetCellUnitValue b p = (Z.of_nat (length bs) + 1, Some (bs ++ [zero]))
    | VBlob bs => cell_type b p = CELL_UNIT_TYPE_BLOB /\
        GetCellUnitValue b p = (Z.of_nat (length bs), Some bs)
    end.
Proof.
  intros Hrect Hs Hp Hv. pose proof Hv as (vals & Hvals & Hcell)%bind_Some.
  pose proof (lookup_lt_Some _ _ _ Hvals) as Hr. pose proof (lookup_lt_Some _ _ _ Hcell) as Hc.
  eapply Forall_lookup_1 in Hrect; [|exact Hvals].
  destruct (source_loaded s r Hs Hp) as (b & Hb & Hn & Hl).
  destruct (with_cell_unit store names rs s b r c v f (proj1 Hs) Hb Hn Hl Hp ltac:(lia) Hv) as (p & E & Hx).
  destruct (with_cell_state s r c f Hs Hp Hr ltac:(lia)) as [Hs' Hp'].
  destruct (SharedResultSet.with_cell store s (Z.of_nat c) f) as [res s'].
  exists b, p, s'. simpl in *. by rewrite E.
Qed.

Ltac look_at_cell Hrect Hs Hp Hv b p s' E Hs' Hp' Ht Ex :=
  match goal with
  | |- context [SharedResultSet.with_cell _ ?s (Z.of_nat ?c) ?f] =>
      destruct (source_cell s _ c _ f Hrect Hs Hp Hv) as (b & p & s' & E & Hs' & Hp' & Ht & Ex)
  end.

Lemma source_column_type s r c v :
  Forall (fun vals => length vals = length names) rs ->
  source_inv s -> rs_rowPos s = Z.of_nat r -> rs !! r ≫= (.!! c) = Some v ->
  GetColumnType s (Z.of_nat c) = Ok (kind v).
Proof.
  intros Hrect Hs Hp Hv. pose proof Hv as (vals & Hvals & Hcell)%bind_Some.
  pose proof (lookup_lt_Some _ _ _ Hvals) as Hr. pose proof (lookup_lt_Some _ _ _ Hcell) as Hc.
  eapply Forall_lookup_1 in Hrect; [|exact Hvals]. pose proof shows_len. destruct shows_cols.
  unfold COL_MAX_NUM in *. destruct (source_loaded s r Hs Hp) as (b & Hb & Hn & _ & _ & Hl).
  unfold GetColumnType. rewrite Hb, Hp, !u32_small by lia.
  specialize (Hl r c Hr). rewrite Hvals in Hl. simpl in Hl. rewrite Hcell in Hl.
  destruct (read_cell_unit _ _ _ _ Hl) as (p & -> & Hx).
  destruct v; simpl in Hx; first [by rewrite Hx|destruct Hx as [Hx _]; by rewrite Hx].
Qed.

Lemma c_str_app_zero bs : c_str (bs ++ [zero]) = c_str bs.
Proof. induction bs as [|x bs IH]; [done|]. simpl. by rewrite IH. Qed.
Lemma c_str_idem bs : c_str (c_str bs) = c_str bs.
Proof.
  induction bs as [|x bs IH]; [done|]. simpl. destruct (Ascii.eqb x "000") eqn:E; [done|].
  simpl. by rewrite E, IH.
Qed.

(** The promise to the bridge. *)
Lemma shared_row_source :
  Forall (fun vals => length vals = length names /\ Forall value_ok vals) rs ->
  @RowSource SqliteSharedResultSet (shared_ops store) shared_getters source_inv names rs.
Proof.
  intros Hrows. assert (Hrect : Forall (fun vals => length vals = length names) rs)
    by (eapply Forall_impl; [exact Hrows|by intros ? []]).
  split; simpl; [apply source_is_cursor|apply shows_cols|done| | | | | |].
  - intros s Hs. destruct (source_names_spec s Hs) as (s' & E & Hs' & Hp & _). by exists s'.
  - intros s r c v Hs Hp Hv. exists s. by rewrite (source_column_type s r c v).
  - intros s r c z Hs Hp Hv. unfold SharedResultSet.GetLong.
    look_at_cell Hrect Hs Hp Hv b p s' E Hs' Hp' Ht Ex.
    exists s'. by rewrite E, Ht, Ex.
  - intros s r c z Hs Hp Hv. unfold SharedResultSet.GetDouble.
    look_at_cell Hrect Hs Hp Hv b p s' E Hs' Hp' Ht Ex.
    exists s'. by rewrite E, Ht, Ex.
  - intros s r c bs Hs Hp Hv. unfold SharedResultSet.GetString.
    look_at_cell Hrect Hs Hp Hv b p s' E Hs' Hp' Ht Ex.
    rewrite E, Ht, Ex. simpl. destruct bs as [|x bs].
    + by exists (Err E_ERROR), [], s'.
    + rewrite (proj2 (Z.leb_gt _ 1)) by (simpl; lia).
      eexists _, _, s'. split; [done|]. split; [done|]. by rewrite c_str_idem, c_str_app_zero.
  - intros s r c bs Hs Hp Hv. unfold SharedResultSet.GetBlob.
    look_at_cell Hrect Hs Hp Hv b p s' E Hs' Hp' Ht Ex.
    rewrite E, Ht, Ex. simpl. exists s'. by destruct bs.
Qed.
End Source.
