(* ===== verification/DataShareResultSetSpec.v ===== *)
(** * Correctness of the data share result set

    Proved against what the set's own methods promise, [WindowSet]: the count, the
    names, and that a request for rows leaves exactly those rows in the block. The
    set over the database's bridge discharges that promise. *)
From S2P Require Import Prelude Memory Strings DataShareErrno SharedBlock SharedBlockRepr SharedBlockProps SharedBlockFillSpec ResultSet SharedResultSet SharedResultSetSpec RdbResultSetBridge RdbResultSetBridgeSpec DataShareBlockWriter DataShareAbsResultSet DataShareResultSet.
From Stdlib Require Import Ascii.

#[local] Open Scope list_scope.

(** The rows a window holds that starts at [start]. *)
Definition window_rows (rs : list (list value)) (start : Z) : list (list value) :=
  take 3 (drop (Z.to_nat start) rs).

(** Any three rows fit in a block of [size] bytes. *)
Definition windows_fit (rs : list (list value)) (size : Z) : Prop :=
  forall start, 420 + rows_need (window_rows rs start) <= size.

Class WindowSet (R : Type) `{SetMethods R} (inv : R -> Prop) (names : list string)
    (rs : list (list value)) (size : Z) := {
  ws_cols : (0 < length names)%nat /\ Z.of_nat (length names) <= COL_MAX_NUM;
  ws_len : Z.of_nat (length rs) < 2147483640;
  ws_rows : Forall (fun vals => length vals = length names) rs;
  ws_move s p : inv s ->
    inv (with_positions s p) /\ positions_of (with_positions s p) = p /\
    block_of (with_positions s p) = block_of s;
  ws_block s b : inv s ->
    inv (with_block s (Some b)) /\ positions_of (with_block s (Some b)) = positions_of s /\
    block_of (with_block s (Some b)) = Some b;
  ws_count s : inv s ->
    exists s', set_GetRowCount s = (Ok (Z.of_nat (length rs)), s') /\ inv s' /\
      positions_of s' = positions_of s /\ block_of s' = block_of s;
  ws_names s : inv s ->
    exists s', set_GetAllColumnNames s = (Ok names, s') /\ inv s' /\
      positions_of s' = positions_of s /\ block_of s' = block_of s;
  ws_OnGo s b start : inv s -> block_of s = Some b -> repr b (tbl_empty (length names)) ->
    unusedOffset b = 420 -> mSize b = size -> 0 <= start < Z.of_nat (length rs) ->
    exists s' b',
      set_OnGo s start (Z.min (start + 2) (Z.of_nat (length rs) - 1)) = Ok (true, s') /\ inv s' /\
      positions_of s' = positions_of s /\ block_of s' = Some b' /\ mSize b' = size /\
      repr b' (mkTable (length names) (cells_of (window_rows rs start)));
}.

(** Moves one after the other, whatever their codes. *)
Fixpoint moves {R} `{SetMethods R} (ps : list Z) (s : R) : outcome R :=
  match ps with
  | [] => Ok s
  | p :: ps => r <-- GoToRow s p; moves ps r.2
  end.

Section Window.
Context {R : Type} `{Hset : WindowSet R inv names rs bsize}.

Abbreviation len := (Z.of_nat (length rs)).
Abbreviation n := (length names).

(** The cursor is inside the window or outside the result; the block holds the window. *)
Definition window_ok (b : SharedBlock) (p : positions) : Prop :=
  let '(mkPositions row start end_) := p in
  -1 <= row <= len /\
  ((start = -1 /\ end_ = -1 /\ (row < 0 \/ row = len)) \/
   (0 <= start < len /\ end_ = Z.min (start + 2) (len - 1) /\
    (row < 0 \/ row = len \/ start <= row <= end_) /\
    repr b (mkTable n (cells_of (window_rows rs start))))).

Definition share_inv (s : R) : Prop :=
  inv s /\ exists b, block_of s = Some b /\ block_ok b /\ mSize b = bsize /\
    window_ok b (positions_of s).

Lemma window_length start :
  0 <= start < len -> Z.of_nat (length (window_rows rs start)) = Z.min (start + 2) (len - 1) - start + 1.
Proof. intros Hs. unfold window_rows. rewrite length_take, length_drop. lia. Qed.

(** Emptying the block and setting the columns again. *)
Lemma refill_block b :
  block_ok b ->
  let b' := snd (SharedBlock.SetColumnNum (snd (SharedBlock.Clear b)) (u32 (Z.of_nat n))) in
  repr b' (tbl_empty n) /\ unusedOffset b' = 420 /\ mSize b' = mSize b.
Proof.
  intros Hb. destruct ws_cols as [_ Hmax]. unfold COL_MAX_NUM in Hmax. rewrite u32_small by lia.
  split_and!; [by apply (start_block_spec b n)|by apply (start_block_used b n)|].
  apply (start_block_shape b n).
Qed.

(** ** Moves *)
Lemma move_spec s b row start end_ :
  inv s -> block_of s = Some b -> block_ok b -> mSize b = bsize ->
  window_ok b (mkPositions row start end_) -> share_inv (move_to s row start end_).
Proof.
  intros Hs Hb Hok Hsz Hw. destruct (ws_move s (mkPositions row start end_) Hs) as (Hi & Hp & Hbl).
  split; [done|]. exists b. unfold move_to. by rewrite Hbl, Hp.
Qed.

Lemma share_GoToRow_inside s r :
  share_inv s -> (r < length rs)%nat ->
  exists s', GoToRow s (Z.of_nat r) = Ok (E_OK, s') /\ share_inv s' /\
    pos_row (positions_of s') = Z.of_nat r.
Proof.
  intros (Hi & b & Hb & Hok & Hsz & Hw) Hr. unfold GoToRow. rewrite Hb. pose proof ws_len as Hlen.
  destruct (ws_count s Hi) as (s1 & E1 & Hi1 & Hp1 & Hb1). rewrite E1.
  destruct (positions_of s1) as [row start end_] eqn:Ep. rewrite <- Hp1 in Hw.
  rewrite Z.geb_leb, (proj2 (Z.leb_gt len _)), (proj2 (Z.ltb_ge _ 0)) by lia.
  rewrite Hb in Hb1. destruct (Z.of_nat r =? row) eqn:Er; to_prop.
  { exists s1. split; [done|]. split; [|by rewrite Ep].
    split; [done|]. exists b. by rewrite Ep. }
  destruct ((Z.of_nat r >? end_) || (Z.of_nat r <? start)) eqn:Eout.
  2: { exists (move_to s1 (Z.of_nat r) start end_). split; [done|].
       destruct (ws_move s1 (mkPositions (Z.of_nat r) start end_) Hi1) as (_ & Hp & _).
       split; [|unfold move_to; by rewrite Hp]. apply (move_spec s1 b); try done.
       destruct Hw as (Hw1 & Hw2). split; [lia|].
       apply orb_false_elim in Eout as [Eo1 Eo2]. rewrite Z.gtb_ltb in Eo1. to_prop.
       destruct Hw2 as [(? & ? & _)|(? & ? & _ & ?)]; [lia|]. right. split_and!; try done; lia. }
  destruct (ws_names s1 Hi1) as (s2 & E2 & Hi2 & Hp2 & Hb2). rewrite E2, Hb2, Hb1.
  destruct (refill_block b Hok) as (HR & Hu & Hm).
  set (b' := snd (SharedBlock.SetColumnNum _ _)) in *.
  destruct (ws_block s2 b' Hi2) as (Hi3 & Hp3 & Hb3).
  unfold STEP_LENGTH. rewrite !s32_small by lia.
  destruct (ws_OnGo (with_block s2 (Some b')) b' (Z.of_nat r) Hi3 Hb3 HR Hu)
    as (s4 & b4 & E4 & Hi4 & Hp4 & Hb4 & Hm4 & HR4); [congruence|lia|].
  rewrite E4. cbn [outcome_bind]. rewrite Hb4. pose proof (window_length (Z.of_nat r) ltac:(lia)) as Hwl.
  assert (Hnum : SharedBlock.GetRowNum b4 = Z.min (Z.of_nat r + 2) (len - 1) - Z.of_nat r + 1).
  { destruct HR4 as (_ & Hn & _). unfold SharedBlock.GetRowNum. rewrite Hn. simpl. unfold cells_of.
    rewrite length_fmap. exact Hwl. }
  rewrite Hnum, s32_small by lia. eexists. split; [done|].
  destruct (ws_move s4 (mkPositions (Z.of_nat r) (Z.of_nat r)
    (Z.of_nat r + (Z.min (Z.of_nat r + 2) (len - 1) - Z.of_nat r + 1) - 1)) Hi4) as (_ & Hp & _).
  split; [|unfold move_to; by rewrite Hp]. apply (move_spec s4 b4); try done.
  - by eapply repr_block_ok.
  - split; [lia|]. right. split_and!; [lia|lia|lia|lia|done].
Qed.

Lemma share_GoToRow_outside s p :
  share_inv s -> p < 0 \/ len <= p ->
  exists s', GoToRow s p = Ok (E_ERROR, s') /\ share_inv s' /\
    pos_row (positions_of s') = if p <? 0 then INIT_POS else len.
Proof.
  intros (Hi & b & Hb & Hok & Hsz & Hw) Hp. unfold GoToRow. rewrite Hb.
  destruct (ws_count s Hi) as (s1 & E1 & Hi1 & Hp1 & Hb1). rewrite E1.
  destruct (positions_of s1) as [row start end_] eqn:Ep. rewrite <- Hp1 in Hw. rewrite Hb in Hb1.
  rewrite Z.geb_leb.
  destruct (Z.leb_spec len p); [|rewrite (proj2 (Z.ltb_lt p 0)) by lia];
    [rewrite (proj2 (Z.ltb_ge p 0)) by lia|]; eexists; (split; [done|]);
    (split; [apply (move_spec s1 b); try done|
             unfold move_to; by rewrite (proj1 (proj2 (ws_move s1 _ Hi1)))]);
    destruct Hw as (Hw1 & Hw2); unfold INIT_POS; (split; [lia|]);
    (destruct Hw2 as [(? & ? & _)|(? & ? & _ & ?)]; [left|right]; split_and!; try done; lia).
Qed.

(** ** Reading *)

(** What a cell unit says about the cell in it. *)
Definition unit_shows (b : SharedBlock) (p : Z) (x : cell) : Prop :=
  match x with
  | CNull => cell_type b p = CELL_UNIT_TYPE_NULL
  | CLong z => cell_type b p = CELL_UNIT_TYPE_INTEGER /\ cell_long b p = z
  | CDouble z => cell_type b p = CELL_UNIT_TYPE_FLOAT /\ cell_double b p = z
  | CString bs => cell_type b p = CELL_UNIT_TYPE_STRING /\
      exists size, GetCellUnitValue b p = (size, Some bs) /\ length bs = Z.to_nat size
  | CBlob bs => cell_type b p = CELL_UNIT_TYPE_BLOB /\
      exists size, GetCellUnitValue b p = (size, Some bs) /\ length bs = Z.to_nat size
  end.

Lemma cell_at_spec s r c v :
  share_inv s -> pos_row (positions_of s) = Z.of_nat r -> rs !! r ≫= (.!! c) = Some v ->
  exists b p, cell_at s (Z.of_nat c) = Ok (b, p) /\ unit_shows b p (shared_cell v).
Proof.
  intros (Hi & b & Hb & Hok & Hsz & Hw) Hpos Hv. apply bind_Some in Hv as (vals & Hvals & Hv).
  pose proof (lookup_lt_Some _ _ _ Hvals) as Hr. pose proof (lookup_lt_Some _ _ _ Hv) as Hc.
  pose proof ws_len as Hlen. pose proof ws_rows as Hrows.
  eapply Forall_lookup_1 in Hrows; [|exact Hvals]. destruct ws_cols as [_ Hmax].
  unfold COL_MAX_NUM in Hmax. unfold cell_at. rewrite Hb.
  destruct (positions_of s) as [row start end_]. simpl in Hpos. subst row.
  destruct Hw as (_ & [(_ & _ & ?)|(Hst & Hend & Hin & HR)]); [lia|].
  assert (Hcell : read_cell b (Z.of_nat (r - Z.to_nat start)) (Z.of_nat c) = Some (shared_cell v)).
  { rewrite (read_cell_spec _ _ _ _ HR). unfold tbl_get, cells_of, window_rows. simpl.
    rewrite list_lookup_fmap, lookup_take_lt, lookup_drop by lia.
    replace (Z.to_nat start + (r - Z.to_nat start))%nat with r by lia. rewrite Hvals. simpl.
    by rewrite list_lookup_fmap, Hv. }
  destruct (read_cell_unit _ _ _ _ Hcell) as (p & Hp & Hx). exists b, p. split; [|exact Hx].
  rewrite !u32_small by lia. replace (Z.of_nat r - start) with (Z.of_nat (r - Z.to_nat start)) by lia.
  by rewrite Hp.
Qed.

Lemma CheckState_spec s r c :
  share_inv s -> pos_row (positions_of s) = Z.of_nat r -> (r < length rs)%nat -> (c < n)%nat ->
  exists s', CheckState s (Z.of_nat c) = (E_OK, s') /\ share_inv s' /\
    positions_of s' = positions_of s.
Proof.
  intros (Hi & b & Hb & Hok & Hsz & Hw) Hpos Hr Hc. unfold CheckState. rewrite Hb.
  destruct (ws_names s Hi) as (s1 & E1 & Hi1 & Hp1 & Hb1). unfold DataShareAbsResultSet.GetColumnCount.
  simpl DataShareAbsResultSet.GetAllColumnNames. rewrite E1. cbn [outcome_bind].
  destruct ws_cols as [_ Hmax]. unfold COL_MAX_NUM in Hmax. rewrite s32_small by lia.
  rewrite Z.geb_leb, (proj2 (Z.leb_gt _ _)), (proj2 (Z.ltb_ge _ _)) by lia. simpl orb. cbv iota.
  destruct (ws_count s1 Hi1) as (s2 & E2 & Hi2 & Hp2 & Hb2). rewrite E2, Hp2, Hp1, Hpos.
  rewrite (proj2 (Z.ltb_ge _ _)), Z.geb_leb, (proj2 (Z.leb_gt _ _)) by lia. simpl orb. cbv iota.
  exists s2. split_and!; [done| |congruence]. split; [done|]. exists b.
  rewrite Hb2, Hb1, Hp2, Hp1. done.
Qed.

Lemma share_with_cell {A} s r c v (f : SharedBlock -> Z -> outcome A) :
  share_inv s -> pos_row (positions_of s) = Z.of_nat r -> (c < n)%nat ->
  rs !! r ≫= (.!! c) = Some v ->
  exists b p, fst (with_cell s (Z.of_nat c) f) = f b p /\ unit_shows b p (shared_cell v).
Proof.
  intros Hs Hpos Hc Hv. pose proof Hv as (vals & Hvals & _)%bind_Some.
  destruct (CheckState_spec s r c Hs Hpos (lookup_lt_Some _ _ _ Hvals) Hc) as (s1 & E1 & Hs1 & Hp1).
  destruct (cell_at_spec s1 r c v Hs1 ltac:(congruence) Hv) as (b & p & E2 & Hx).
  exists b, p. split; [|done]. unfold with_cell. rewrite E1. simpl. by rewrite E2.
Qed.

Lemma c_str_terminated bs : c_str (c_str bs ++ [zero]) = c_str bs.
Proof.
  induction bs as [|x bs IH]; [done|]. simpl. destruct (Ascii.eqb_spec x "000"); [done|]. simpl.
  by rewrite (proj2 (Ascii.eqb_neq x "000")), IH.
Qed.

Lemma shared_blob x bs : zero ∉ x :: bs -> shared_cell (VBlob (x :: bs)) = CString (x :: bs).
Proof. intros Hz. unfold shared_cell. by rewrite c_str_no_zero. Qed.

Lemma text_size bs size :
  length (c_str bs ++ [zero]) = Z.to_nat size ->
  (size <=? 1) = bool_decide (c_str bs = []) /\ c_string (c_str bs ++ [zero]) = Ok (c_str bs).
Proof.
  rewrite length_app. simpl. intros Hl. split.
  - destruct (c_str bs) as [|x l]; simpl in *.
    + apply Z.leb_le. lia.
    + apply Z.leb_gt. lia.
  - unfold c_string. rewrite decide_True by set_solver. by rewrite c_str_terminated.
Qed.

(** The getters return the values of a row: of a text the characters before the first
    NUL, the empty text reported as an error; a blob byte for byte, although its cell
    has the type of a string. *)
Definition row_reads `{CLib} (s : R) (vals : list value) : Prop :=
  forall c v, vals !! c = Some v ->
    fst (IsColumnNull s (Z.of_nat c)) =
      Ok (match v with VNull | VBlob [] => true | _ => false end) /\
    match v with
    | VNull => True
    | VLong z => fst (GetLong s (Z.of_nat c)) = Ok z /\ GetInt s (Z.of_nat c) = Ok (s32 z)
    | VDouble z => fst (GetDouble s (Z.of_nat c)) = Ok z
    | VText bs => fst (GetString s (Z.of_nat c)) =
        if decide (c_str bs = []) then Err E_ERROR else Ok (c_str bs)
    | VBlob bs => fst (GetBlob s (Z.of_nat c)) = Ok bs /\
        (bs <> [] -> GetDataType s (Z.of_nat c) = Ok TYPE_STRING)
    end.

Lemma row_reads_spec `{CLib} s r vals :
  share_inv s -> pos_row (positions_of s) = Z.of_nat r -> rs !! r = Some vals ->
  Forall no_zero_blob vals -> row_reads s vals.
Proof.
  intros Hs Hpos Hvals Hz c v Hv. eapply Forall_lookup_1 in Hz; [|exact Hv].
  assert (Hrv : rs !! r ≫= (.!! c) = Some v) by (by rewrite Hvals).
  pose proof (lookup_lt_Some _ _ _ Hv) as Hc. pose proof ws_rows as Hrows.
  eapply Forall_lookup_1 in Hrows; [|exact Hvals]. rewrite Hrows in Hc.
  assert (Hcell := fun A f => @share_with_cell A s r c v f Hs Hpos Hc Hrv).
  destruct (cell_at_spec s r c v Hs Hpos Hrv) as (b0 & p0 & E0 & Hx0).
  split.
  - unfold IsColumnNull. edestruct Hcell as (b & q & -> & Hx).
    destruct v as [|z|z|bs|[|x bs]]; simpl in Hx;
      first [by rewrite Hx|destruct Hx as [Hx _]; by rewrite Hx].
  - unfold GetLong, GetInt, GetDouble, GetString, GetBlob, GetDataType.
    destruct v as [|z|z|bs|bs]; [done|simpl in *..|].
    + rewrite E0. destruct Hx0 as [_ Ev0]. split; [|by simpl; rewrite Ev0].
      edestruct Hcell as (b & q & -> & Ht & Ev). by rewrite Ht, Ev.
    + edestruct Hcell as (b & q & -> & Ht & Ev). by rewrite Ht, Ev.
    + edestruct Hcell as (b & q & -> & Ht & size & Ev & Hl). rewrite Ht, Ev. simpl.
      destruct (text_size bs size Hl) as [-> ->].
      destruct (decide (c_str bs = []));
        [rewrite bool_decide_eq_true_2 by done|rewrite bool_decide_eq_false_2 by done]; done.
    + destruct bs as [|x bs]; [|rewrite shared_blob in * by done]; simpl in *.
      * split; [|done]. edestruct Hcell as (b & q & -> & Ht). by rewrite Ht.
      * split.
        -- edestruct Hcell as (b & q & -> & Ht & size & Ev & Hl). rewrite Ht, Ev. simpl.
           destruct (Z.eqb_spec size 0); [subst; done|done].
        -- intros _. rewrite E0. simpl. destruct Hx0 as [Ht _]. by rewrite Ht.
Qed.


(** A move succeeds on a row of the result, whatever moves came before, and outside it
    parks the cursor before the first or after the last row. *)
Lemma share_set_reads `{CLib} s p :
  share_inv s -> Forall (Forall no_zero_blob) rs ->
  exists code s', GoToRow s p = Ok (code, s') /\ share_inv s' /\
    match (if 0 <=? p then rs !! Z.to_nat p else None) with
    | Some vals => code = E_OK /\ pos_row (positions_of s') = p /\ row_reads s' vals
    | None => code = E_ERROR /\ pos_row (positions_of s') = if p <? 0 then INIT_POS else len
    end.
Proof.
  intros Hs Hz. destruct (Z.leb_spec 0 p); [|rewrite (proj2 (Z.ltb_lt p 0)) by lia].
  2: { destruct (share_GoToRow_outside s p Hs ltac:(lia)) as (s' & E & Hs' & Hp). exists E_ERROR, s'.
       by rewrite (proj2 (Z.ltb_lt p 0)) in Hp by lia. }
  destruct (rs !! Z.to_nat p) as [vals|] eqn:Hvals.
  - pose proof (lookup_lt_Some _ _ _ Hvals).
    destruct (share_GoToRow_inside s (Z.to_nat p) Hs ltac:(lia)) as (s' & E & Hs' & Hpos).
    exists E_OK, s'. pose proof Hpos as Hpos'. rewrite Z2Nat.id in E, Hpos' by lia. split_and!; try done.
    eapply row_reads_spec; try done. by eapply Forall_lookup_1.
  - apply lookup_ge_None_1 in Hvals.
    destruct (share_GoToRow_outside s p Hs ltac:(lia)) as (s' & E & Hs' & Hp). by exists E_ERROR, s'.
Qed.

Lemma share_inv_new s b :
  inv s -> block_of s = Some b -> block_ok b -> mSize b = bsize ->
  positions_of s = mkPositions INIT_POS (-1) (-1) -> share_inv s.
Proof.
  intros Hi Hb Hok Hm Hp. split; [done|]. exists b. split_and!; try done. rewrite Hp. simpl.
  unfold INIT_POS. split; [lia|]. left. split_and!; try done. lia.
Qed.

(** Any sequence of moves. *)
Lemma moves_spec ps : forall s, share_inv s -> exists s', moves ps s = Ok s' /\ share_inv s'.
Proof.
  induction ps as [|p ps IH]; intros s Hs; [by exists s|]. simpl.
  assert (exists code s1, GoToRow s p = Ok (code, s1) /\ share_inv s1) as (code & s1 & -> & Hs1).
  { destruct (decide (0 <= p < len)).
    - destruct (share_GoToRow_inside s (Z.to_nat p) Hs ltac:(lia)) as (s1 & E & Hs1 & _).
      rewrite Z2Nat.id in E by lia. by exists E_OK, s1.
    - destruct (share_GoToRow_outside s p Hs ltac:(lia)) as (s1 & E & Hs1 & _). by exists E_ERROR, s1. }
  by apply IH.
Qed.
End Window.
