(* ===== verification/DataShareChainSpec.v ===== *)
(** * The chain from a query to a data share result set

    The bridge over a source of rows discharges [WindowSet] for the data share set,
    so that what is proved about that set holds of the rows of the query. *)
From S2P Require Import Prelude Memory Strings DataShareErrno SharedBlock SharedBlockRepr SharedBlockProps SharedBlockFill SharedBlockFillSpec SharedResultSet SharedResultSetSpec ResultSet RdbResultSetBridge RdbResultSetBridgeSpec DataShareBlockWriter DataShareAbsResultSet DataShareResultSet DataShareResultSetSpec.
From Stdlib Require Import Ascii.

#[local] Open Scope list_scope.

(** The bridge as the data share set sees it: an error code or the out parameter. *)
Definition by_code {A S} (r : Z * A * S) : outcome A * S :=
  let '(code, x, s) := r in (if code =? E_OK then Ok x else Err code, s).

#[export] Instance rdb_bridge `{SecureC} {S} `{ResultSetOps S} `{RdbGetters S} : ResultSetBridge S := {|
  bridge_GetRowCount s := by_code (RdbResultSetBridge.GetRowCount s);
  bridge_GetAllColumnNames s := by_code (RdbResultSetBridge.GetAllColumnNames s);
  bridge_OnGo s start target w := RdbResultSetBridge.OnGo start target w s;
|}.

Section Chain.
Context `{SecureC} {R : Type} `{Hsrc : RowSource R inv names rs}.
Context (bsize : Z).
Hypotheses (Hlen : Z.of_nat (length rs) < 2147483640) (Huniform : uniform rs).
Hypotheses (Hblobs : Forall (Forall no_zero_blob) rs) (Hfit : windows_fit rs bsize).

(** The set has its bridge and a writer on its block. *)
Definition chain_inv (s : DataShareResultSet R) : Prop :=
  blockWriter_ s = WritesBlock /\ exists src, bridge_ s = Some src /\ inv src.

Lemma window_target start :
  0 <= start < Z.of_nat (length rs) ->
  take (Z.to_nat (Z.min (start + 2) (Z.of_nat (length rs) - 1) - start + 1)) (drop (Z.to_nat start) rs)
  = window_rows rs start.
Proof.
  intros Hs. unfold window_rows. destruct (Z.le_gt_cases (start + 2) (Z.of_nat (length rs) - 1)).
  - rewrite Z.min_l by lia. by replace (Z.to_nat (start + 2 - start + 1)) with 3%nat by lia.
  - rewrite !take_ge; [done|rewrite length_drop; lia..].
Qed.

Lemma chain_window : WindowSet (DataShareResultSet R) chain_inv names rs bsize.
Proof.
  pose proof (@cursor_count_range _ _ _ _ source_cursor) as Hcount.
  split; simpl.
  - apply source_cols.
  - done.
  - eapply Forall_impl; [apply source_rows|]. by intros ? [].
  - done.
  - done.
  - intros s (Hw & src & Hb & Hi). unfold GetRowCount. rewrite Hb. simpl. unfold RdbResultSetBridge.GetRowCount.
    destruct (@cursor_GetRowCount _ _ _ _ source_cursor src Hi) as (src' & -> & Hi' & _).
    eexists. split; [done|]. split; [|done]. split; [done|by exists src'].
  - intros s (Hw & src & Hb & Hi). unfold GetAllColumnNames. rewrite Hb. simpl.
    unfold RdbResultSetBridge.GetAllColumnNames.
    destruct (source_names src Hi) as (src' & -> & Hi' & _).
    eexists. split; [done|]. split; [|done]. split; [done|by exists src'].
  - intros s b start (Hw & src & Hb & Hi) Hbl HR Hu Hm Hst. unfold OnGo. rewrite Hb, Hw, Hbl. simpl.
    destruct (OnGo_spec Hblobs start (Z.min (start + 2) (Z.of_nat (length rs) - 1)) b src Huniform Hi HR)
      as (b' & src' & E & Hi' & HR' & Hm'); [lia..| |].
    { rewrite window_target by done. rewrite Hu, Hm. apply Hfit. }
    rewrite E. rewrite window_target in HR' by done. eexists _, b'. split; [done|].
    split_and!; try done; [split; [done|by exists src']|congruence].
Qed.
End Chain.

(** ** From the query to the getters *)

(** The set a provider hands out for a query: over the database's result set with the
    block [rb], and with its own block [b]. *)
Definition share_set_of (rb b : SharedBlock) : DataShareResultSet SqliteSharedResultSet :=
  DataShareResultSet_of (new_SqliteSharedResultSet (Some rb)) (Some b).

(** The methods of that set, for a store. *)
Definition query_methods `{SecureC, CLib} (store : Store)
    : SetMethods (DataShareResultSet SqliteSharedResultSet) :=
  @share_set_methods _ (@rdb_bridge _ _ (shared_ops store) (shared_getters store)).

Section Query.
Context `{SecureC, CLib} (store : Store) (names : list string) (rs : list (list value)).
Context `{!StoreShows store names rs}.
#[local] Instance methods_here : SetMethods (DataShareResultSet SqliteSharedResultSet) :=
  query_methods store.

(** What is assumed of the query and of the two blocks. *)
Definition query_fits (rb b : SharedBlock) : Prop :=
  fits store rs rb /\ block_ok b /\ windows_fit rs (mSize b) /\ uniform rs /\
  Forall (fun vals => length vals = length names /\ Forall value_ok vals) rs /\
  Forall (Forall no_zero_blob) rs /\ Z.of_nat (length rs) < 2147483640.

Lemma query_window rb b : query_fits rb b ->
  WindowSet (DataShareResultSet SqliteSharedResultSet) (chain_inv (inv := source_inv store rs))
    names rs (mSize b).
Proof.
  intros (Hrb & Hb & Hfit & Hu & Hrows & Hz & Hlen).
  pose proof (shared_row_source store names rs Hrows) as Hsrc. exact (chain_window (Hsrc := Hsrc) (mSize b) Hlen Hu Hz Hfit).
Qed.

Lemma query_starts rb b : query_fits rb b -> chain_inv (inv := source_inv store rs) (share_set_of rb b).
Proof.
  intros (Hrb & _). split; [done|]. eexists. split; [done|].
  split; [|done]. split_and!; try done; [simpl; unfold INIT_POS; lia|]. exists rb. by eauto.
Qed.

(** From a query to the data share getters. The rows of the query are copied into
    the block of the database's result set, and from there by the bridge, a window of
    three at a time, into the block of the data share set. After any sequence of
    moves, inside or outside the result, a move to row [p] succeeds exactly when the
    result has that row, and the getters then return the values the query gave; a
    failing move parks the cursor before the first or after the last row. Assumed:
    the first fill takes the whole result, three rows fit the second block, each
    column has one type, and no blob has a zero byte. *)
Theorem query_to_share_set rb b (ps : list Z) (p : Z) :
  query_fits rb b ->
  exists s code s', moves ps (share_set_of rb b) = Ok s /\ GoToRow s p = Ok (code, s') /\
    match (if 0 <=? p then rs !! Z.to_nat p else None) with
    | Some vals => code = E_OK /\ pos_row (positions_of s') = p /\ row_reads s' vals
    | None => code = E_ERROR /\
        pos_row (positions_of s') = if p <? 0 then INIT_POS else Z.of_nat (length rs)
    end.
Proof.
  intros Hq. pose proof (query_window rb b Hq) as Hset. pose proof Hq as (_ & Hb & _ & _ & _ & Hz & _).
  destruct (moves_spec (rs := rs) ps (share_set_of rb b)) as (s & Es & Hs).
  { apply (share_inv_new (rs := rs) _ b); try done. by apply query_starts. }
  destruct (share_set_reads (rs := rs) s p Hs Hz) as (code & s' & E & _ & Hx). by exists s, code, s'.
Qed.
End Query.

(** ** A concrete query *)
Lemma demo_windows_fit : windows_fit demo_result 4096.
Proof.
  intros start. unfold window_rows. destruct (Z.to_nat start) as [|[|[|k]]]; [vm_compute; discriminate..|].
  rewrite (drop_ge demo_result) by (simpl; lia). vm_compute. discriminate.
Qed.

Lemma demo_uniform : uniform demo_result.
Proof.
  assert (Hk : forall r vals, demo_result !! r = Some vals -> kind <$> vals = [TYPE_INTEGER; TYPE_STRING]).
  { intros [|[|[|[|r]]]] vals Hr; simpl in Hr; by simplify_eq. }
  intros r1 r2 vals1 vals2 H1 H2. by rewrite (Hk _ _ H1), (Hk _ _ H2).
Qed.

Lemma demo_query_fits : query_fits demo_store demo_names demo_result block4k block4k.
Proof.
  split_and!.
  - split; [apply block4k_ok|]. vm_compute. reflexivity.
  - apply block4k_ok.
  - apply demo_windows_fit.
  - apply demo_uniform.
  - repeat constructor; simpl; lia.
  - repeat constructor.
  - reflexivity.
Qed.

Lemma query_to_share_set_witness :
  exists s code s', moves (H := query_methods demo_store) [2; 7] (share_set_of block4k block4k) = Ok s /\
    GoToRow (H := query_methods demo_store) s 1 = Ok (code, s') /\
    code = E_OK /\ pos_row (positions_ s') = 1 /\
    row_reads (H := query_methods demo_store) s' (demo_row 2).
Proof.
  apply (query_to_share_set demo_store demo_names demo_result block4k block4k [2; 7] 1), demo_query_fits.
Defined.

(** The same by evaluation: the id of the row after moves back and forth. *)
Example query_to_share_set_runs :
  (s <-- moves (H := query_methods demo_store) [2; 0; 7; 1] (share_set_of block4k block4k);
   Ok (pos_row (positions_ s), fst (GetLong (H := query_methods demo_store) s 0),
       fst (GetString (H := query_methods demo_store) s 1))) = Ok (1, Ok 2, Ok (bytes "row")).
Proof. vm_compute. reflexivity. Qed.

(** ** What the assumptions leave out *)
Definition store_rows (names : list string) (rs : list (list value)) : Store :=
  connection_store names (((fun vals => StepRow (show_row vals)) <$> rs) ++ [StepDone]).

Definition read_at {A} (st : Store) (p : Z)
    (f : DataShareResultSet SqliteSharedResultSet -> A) : outcome A :=
  s <-- moves (H := query_methods st) [p] (share_set_of block4k block4k); Ok (f s).

(** The types are those of the first row of a window: a value under a NULL of that row
    is not copied. Read from row 1 on, the same value is there. *)
Definition nullable_store : Store := store_rows ["name"] [[VNull]; [VText (bytes "x")]].

Example nullable_column_lost :
  (s <-- moves (H := query_methods nullable_store) [0; 1] (share_set_of block4k block4k);
   Ok (pos_row (positions_ s), fst (IsColumnNull (H := query_methods nullable_store) s 0))) = Ok (1, Ok true) /\
  read_at nullable_store 1 (fun s => fst (GetString (H := query_methods nullable_store) s 0)) = Ok (Ok (bytes "x")).
Proof. vm_compute. done. Qed.

(** A blob is cut at its first zero byte, and its cell has no terminator, so that
    reading it as a string runs past the cell. *)
Definition x01 : byte := ascii_of_nat 1.
Definition blob_store : Store := store_rows ["data"] [[VBlob [x01; zero; x01]]].

Example blob_cut :
  read_at blob_store 0 (fun s => fst (GetBlob (H := query_methods blob_store) s 0)) = Ok (Ok [x01]) /\
  read_at blob_store 0 (fun s => GetDataType (H := query_methods blob_store) s 0) = Ok (Ok TYPE_STRING).
Proof. vm_compute. done. Qed.
