(* ===== verification/DataShareSetIpc.v ===== *)
(** * Data share result sets in another process

    Model of frameworks/native/data_share/common/src/ishared_result_set_proxy.cpp and
    ishared_result_set_stub.cpp. The consumer's set is a proxy: it keeps the cursor,
    the window and copies of the count and the names, and asks the provider's set for
    the rest. Both map the same shared memory, so the block the consumer clears and
    reads is the one the provider fills: here it is kept in the provider's set. The
    stub runs the requests one by one on a thread of its own while their callers wait;
    a request is a step here. *)
From S2P Require Import Prelude Strings Parcel SharedBlock SharedBlockRepr SharedBlockProps SharedBlockFill SharedBlockFillSpec ResultSet SharedResultSet SharedResultSetSpec DataShareErrno DataShareBlockWriter RdbResultSetBridge DataShareAbsResultSet DataShareResultSet RdbResultSetBridgeSpec DataShareResultSetSpec DataShareChainSpec Memory.
From Stdlib Require Import Ascii.

#[local] Open Scope list_scope.

Definition SET_DESCRIPTOR : string := "OHOS.DataShare.ISharedResultSet".
Definition FUNC_GET_ROW_COUNT : Z := 0.
Definition FUNC_GET_ALL_COLUMN_NAMES : Z := 1.
Definition FUNC_ON_GO : Z := 2.
Definition FUNC_CLOSE : Z := 3.
Definition FUNC_BUTT : Z := 26.
Definition NO_ERROR : Z := 0.

(** Codes of the IPC framework: a foreign descriptor, a command the base class gets. *)
Class SetIpcCodes := {
  INVALID_FD : Z;
  set_base_OnRemoteRequest : Z -> Z;
}.

(** The code of an outcome of a virtual method; [Undefined] and exceptions end the
    provider. *)
Definition code_of {A} (x : outcome A) : outcome (Z * option A) :=
  match x with
  | Ok a => Ok (E_OK, Some a)
  | Err e => Ok (e, None)
  | Throws => Throws
  | Undefined => Undefined
  end.

Section Stub.
Context `{SetIpcCodes} `{Parcel} {R : Type} `{SetMethods R} (set_Close : R -> Z * R).
Implicit Types (data reply : parcel).

Definition HandleGetRowCountRequest data reply (resultSet_ : R) : outcome (Z * parcel * R) :=
  let '(count, resultSet_) := set_GetRowCount resultSet_ in
  ec <-- code_of count;
  let reply := WriteInt32 ec.1 reply in
  let reply := match ec.2 with Some count => WriteInt32 count reply | None => reply end in
  Ok (NO_ERROR, reply, resultSet_).

Definition HandleGetAllColumnNamesRequest data reply (resultSet_ : R) : outcome (Z * parcel * R) :=
  let '(names, resultSet_) := set_GetAllColumnNames resultSet_ in
  ec <-- code_of names;
  let reply := WriteInt32 ec.1 reply in
  let reply := match ec.2 with Some names => WriteStringVector names reply | None => reply end in
  Ok (NO_ERROR, reply, resultSet_).

Definition HandleOnGoRequest data reply (resultSet_ : R) : outcome (Z * parcel * R) :=
  let '(oldRow, data) := ReadInt32 data in
  let '(newRow, data) := ReadInt32 data in
  rs <-- set_OnGo resultSet_ oldRow newRow;
  let '(errCode, resultSet_) := rs in
  Ok (NO_ERROR, WriteInt32 (Z.b2z errCode) reply, resultSet_).

Definition HandleCloseRequest data reply (resultSet_ : R) : outcome (Z * parcel * R) :=
  let '(errCode, resultSet_) := set_Close resultSet_ in
  Ok (NO_ERROR, WriteInt32 errCode reply, resultSet_).

(** The table has room for 26 commands and entries for four. *)
Definition handlers (code : Z) : option (parcel -> parcel -> R -> outcome (Z * parcel * R)) :=
  if code =? FUNC_GET_ROW_COUNT then Some HandleGetRowCountRequest
  else if code =? FUNC_GET_ALL_COLUMN_NAMES then Some HandleGetAllColumnNamesRequest
  else if code =? FUNC_ON_GO then Some HandleOnGoRequest
  else if code =? FUNC_CLOSE then Some HandleCloseRequest
  else None.

Definition OnRemoteRequest (code : Z) data reply (resultSet_ : R) : outcome (Z * parcel * R) :=
  let '(token, data) := ReadInterfaceToken data in
  if negb (bool_decide (SET_DESCRIPTOR = token)) then Ok (INVALID_FD, reply, resultSet_)
  else if code >=? FUNC_BUTT then Ok (set_base_OnRemoteRequest code, reply, resultSet_)
  else
    match handlers code with
    | None => Ok (set_base_OnRemoteRequest code, reply, resultSet_)
    | Some handler => handler data reply resultSet_
    end.
End Stub.

(** ** The proxy: [mapped] tells whether it has a block, [faults] are the errors of the
    requests to come, as in the service's channel. *)
Record ISharedResultSetProxy (R : Type) := mkSetProxy {
  proxy_positions : positions;
  proxy_isClosed : bool;
  mapped : bool;
  columnNames_ : list string;
  rowCount_ : Z;
  set_faults : list Z;
  remote_set : R;
}.
#[global] Arguments mkSetProxy {R}.
#[global] Arguments proxy_positions {R}.
#[global] Arguments proxy_isClosed {R}.
#[global] Arguments mapped {R}.
#[global] Arguments columnNames_ {R}.
#[global] Arguments rowCount_ {R}.
#[global] Arguments set_faults {R}.
#[global] Arguments remote_set {R}.

Section Proxy.
Context `{SetIpcCodes} `{Parcel} {R : Type} `{SetMethods R} (set_Close : R -> Z * R).
Implicit Types (s : ISharedResultSetProxy R).

(** [CreateProxy]: [has_memory] when the parcel had the memory and it could be mapped. *)
Definition CreateProxy (remote : R) (has_memory : bool) (fs : list Z) : ISharedResultSetProxy R :=
  mkSetProxy (mkPositions INIT_POS (-1) (-1)) false has_memory [] (-1) fs remote.

Definition with_remote s (fs : list Z) (r : R) : ISharedResultSetProxy R :=
  mkSetProxy (proxy_positions s) (proxy_isClosed s) (mapped s) (columnNames_ s) (rowCount_ s) fs r.
Definition with_names s (names : list string) : ISharedResultSetProxy R :=
  mkSetProxy (proxy_positions s) (proxy_isClosed s) (mapped s) names (rowCount_ s) (set_faults s) (remote_set s).
Definition with_rows s (count : Z) : ISharedResultSetProxy R :=
  mkSetProxy (proxy_positions s) (proxy_isClosed s) (mapped s) (columnNames_ s) count (set_faults s) (remote_set s).

Definition SendRequest (code : Z) (data : parcel) s : outcome (Z * parcel * ISharedResultSetProxy R) :=
  let deliver fs :=
    r <-- OnRemoteRequest set_Close code data new_parcel (remote_set s);
    let '(err, reply, r) := r in Ok (err, reply, with_remote s fs r) in
  match set_faults s with
  | e :: fs => if e =? 0 then deliver fs else Ok (e, new_parcel, with_remote s fs (remote_set s))
  | [] => deliver []
  end.

Definition request : parcel := WriteInterfaceToken SET_DESCRIPTOR new_parcel.

(** The out parameter or the error code, and the state; a provider that ends takes its
    result with it. *)
Definition proxied {A} s (r : outcome (outcome A * ISharedResultSetProxy R))
    : outcome A * ISharedResultSetProxy R :=
  match r with
  | Ok r => r
  | Err e => (Err e, s)
  | Throws => (Throws, s)
  | Undefined => (Undefined, s)
  end.

Definition proxy_GetAllColumnNames s : outcome (list string) * ISharedResultSetProxy R :=
  match columnNames_ s with
  | _ :: _ => (Ok (columnNames_ s), s)
  | [] =>
      proxied s
        (r <-- SendRequest FUNC_GET_ALL_COLUMN_NAMES request s;
         let '(errCode, reply, s) := r in
         if negb (errCode =? 0) then Ok (Err (s32 (- errCode)), s)
         else
           let '(errCode, reply) := ReadInt32 reply in
           if negb (errCode =? E_OK) then Ok (Err errCode, s)
           else
             let '(columnNames, reply) := TryReadStringVector reply in
             match columnNames with
             | None => Ok (Err E_INVALID_PARCEL, s)
             | Some columnNames => Ok (Ok columnNames, with_names s columnNames)
             end)
  end.

Definition proxy_GetRowCount s : outcome Z * ISharedResultSetProxy R :=
  if rowCount_ s >=? 0 then (Ok (rowCount_ s), s)
  else
    proxied s
      (r <-- SendRequest FUNC_GET_ROW_COUNT request s;
       let '(errCode, reply, s) := r in
       if negb (errCode =? 0) then Ok (Err (s32 (- errCode)), s)
       else
         let '(errCode, reply) := ReadInt32 reply in
         if negb (errCode =? E_OK) then Ok (Err errCode, s)
         else let '(count, reply) := ReadInt32 reply in Ok (Ok count, with_rows s count)).

(** An error of the transport is converted to [true]. *)
Definition proxy_OnGo s (oldRowIndex newRowIndex : Z) : outcome (bool * ISharedResultSetProxy R) :=
  let data := WriteInt32 newRowIndex (WriteInt32 oldRowIndex request) in
  r <-- SendRequest FUNC_ON_GO data s;
  let '(errCode, reply, s) := r in
  if negb (errCode =? 0) then Ok (negb (s32 (- errCode) =? 0), s)
  else Ok (fst (ReadBool reply), s).

(** The block goes, then the provider closes its set. *)
Definition proxy_Close s : outcome (Z * ISharedResultSetProxy R) :=
  let s := mkSetProxy (proxy_positions s) true false (columnNames_ s) (rowCount_ s) (set_faults s) (remote_set s) in
  r <-- SendRequest FUNC_CLOSE request s;
  let '(errCode, reply, s) := r in
  if negb (errCode =? 0) then Ok (s32 (- errCode), s) else Ok (fst (ReadInt32 reply), s).

(** The consumer's set: [GoToRow] and the getters are those of every data share set. *)
#[export] Instance proxy_methods : SetMethods (ISharedResultSetProxy R) := {|
  positions_of := proxy_positions;
  with_positions s p :=
    mkSetProxy p (proxy_isClosed s) (mapped s) (columnNames_ s) (rowCount_ s) (set_faults s) (remote_set s);
  block_of s := if mapped s then block_of (remote_set s) else None;
  with_block s b := with_remote s (set_faults s) (with_block (remote_set s) b);
  set_GetRowCount := proxy_GetRowCount;
  set_GetAllColumnNames := proxy_GetAllColumnNames;
  set_OnGo := proxy_OnGo;
|}.
End Proxy.

(** * The proxy of a data share result set keeps the contract of the set

    Whatever set the provider has behind the stub, if it keeps [WindowSet] then so does
    the consumer's proxy, and what is proved about data share sets holds for it. *)

Section Proxied.
Context `{SetIpcCodes} `{ParcelLaws} {R : Type} `{Hset : WindowSet R inv names rs bsize}.
Context (set_Close : R -> Z * R).

Abbreviation len := (Z.of_nat (length rs)).
#[local] Instance proxy_methods_here : SetMethods (ISharedResultSetProxy R) := proxy_methods set_Close.

(** The proxy has its block and a working transport; its copies are right. *)
Definition proxy_inv (s : ISharedResultSetProxy R) : Prop :=
  inv (remote_set s) /\ set_faults s = [] /\ mapped s = true /\
  (columnNames_ s = [] \/ columnNames_ s = names) /\ (rowCount_ s = -1 \/ rowCount_ s = len).

Lemma set_send_delivers code handler data l s :
  set_faults s = [] -> (code >=? FUNC_BUTT) = false -> handlers set_Close code = Some handler ->
  holds data (IToken SET_DESCRIPTOR :: l) ->
  exists data', holds data' l /\
    SendRequest set_Close code data s =
      (r <-- handler data' new_parcel (remote_set s);
       let '(err, reply, r) := r in Ok (err, reply, with_remote s [] r)).
Proof.
  intros Hf Hc Hh Hd. apply ReadInterfaceToken_holds in Hd as (data' & E & Hd'). exists data'.
  split; [done|]. unfold SendRequest, OnRemoteRequest. by rewrite Hf, E, bool_decide_eq_true_2, Hc, Hh.
Qed.

Lemma request_holds : holds request [IToken SET_DESCRIPTOR].
Proof. apply (WriteInterfaceToken_holds new_parcel []), new_holds. Qed.

Lemma proxy_count s : proxy_inv s ->
  exists s', proxy_GetRowCount set_Close s = (Ok len, s') /\ proxy_inv s' /\
    proxy_positions s' = proxy_positions s /\ block_of s' = block_of s.
Proof.
  intros (Hi & Hf & Hm & Hn & Hc). unfold proxy_GetRowCount. destruct Hc as [Hc|Hc]; rewrite Hc.
  2: { rewrite Z.geb_leb, (proj2 (Z.leb_le 0 len)) by lia. exists s. split_and!; try done. by repeat split; auto. }
  simpl. destruct (set_send_delivers FUNC_GET_ROW_COUNT _ _ _ s Hf eq_refl eq_refl request_holds) as (d & _ & ->).
  unfold HandleGetRowCountRequest. destruct (ws_count (remote_set s) Hi) as (r & -> & Hr & Hpr & Hbr). simpl.
  pose proof (WriteInt32_holds _ _ E_OK new_holds) as Hp. apply (WriteInt32_holds _ _ len) in Hp. simpl in Hp.
  apply ReadInt32_holds in Hp as (p1 & -> & Hp). simpl. apply ReadInt32_holds in Hp as (p2 & -> & _). simpl.
  eexists. split; [done|]. simpl. rewrite Hm, Hbr. split_and!; try done. by repeat split; auto.
Qed.

Lemma proxy_names s : proxy_inv s ->
  exists s', proxy_GetAllColumnNames set_Close s = (Ok names, s') /\ proxy_inv s' /\
    proxy_positions s' = proxy_positions s /\ block_of s' = block_of s.
Proof.
  intros (Hi & Hf & Hm & Hn & Hc). unfold proxy_GetAllColumnNames. pose proof ws_cols as [Hpos _].
  destruct Hn as [Hn|Hn]; [rewrite Hn|].
  2: { destruct (columnNames_ s) as [|x l] eqn:El; [rewrite <- Hn in Hpos; simpl in Hpos; lia|].
       exists s. rewrite Hn. split_and!; try done. by repeat split; auto; right; congruence. }
  destruct (set_send_delivers FUNC_GET_ALL_COLUMN_NAMES _ _ _ s Hf eq_refl eq_refl request_holds) as (d & _ & ->).
  unfold HandleGetAllColumnNamesRequest.
  destruct (ws_names (remote_set s) Hi) as (r & -> & Hr & Hpr & Hbr). simpl.
  pose proof (WriteInt32_holds _ _ E_OK new_holds) as Hp. apply (WriteStringVector_holds _ _ names) in Hp.
  simpl in Hp. apply ReadInt32_holds in Hp as (p1 & -> & Hp). simpl.
  apply TryReadStringVector_holds in Hp as (p2 & -> & _). simpl.
  eexists. split; [done|]. simpl. rewrite Hm, Hbr. split_and!; try done. by repeat split; auto.
Qed.

Lemma proxy_go s b start : proxy_inv s -> block_of s = Some b -> repr b (tbl_empty (length names)) ->
  unusedOffset b = 420 -> mSize b = bsize -> 0 <= start < len ->
  exists s' b',
    proxy_OnGo set_Close s start (Z.min (start + 2) (len - 1)) = Ok (true, s') /\ proxy_inv s' /\
    proxy_positions s' = proxy_positions s /\ block_of s' = Some b' /\ mSize b' = bsize /\
    repr b' (mkTable (length names) (cells_of (window_rows rs start))).
Proof.
  intros (Hi & Hf & Hm & Hn & Hc) Hb HR Hu Hsz Hst. simpl in Hb. rewrite Hm in Hb. unfold proxy_OnGo.
  pose proof request_holds as Hd. set (target := Z.min (start + 2) (len - 1)).
  apply (WriteInt32_holds _ _ start), (WriteInt32_holds _ _ target) in Hd. simpl in Hd.
  destruct (set_send_delivers FUNC_ON_GO _ _ _ s Hf eq_refl eq_refl Hd) as (d & Hd1 & ->).
  unfold HandleOnGoRequest. apply ReadInt32_holds in Hd1 as (d1 & -> & Hd1).
  apply ReadInt32_holds in Hd1 as (d2 & -> & _).
  destruct (ws_OnGo (remote_set s) b start Hi Hb HR Hu Hsz Hst) as (r & b' & E & Hr & Hpr & Hbr & Hmr & HRr).
  fold target in E. rewrite E. simpl. pose proof (WriteInt32_holds _ _ 1 new_holds) as Hp.
  apply ReadBool_int in Hp as (p1 & -> & _). simpl. eexists _, b'. split; [done|]. simpl. rewrite Hm.
  by split_and!.
Qed.

Lemma proxy_window : WindowSet (ISharedResultSetProxy R) proxy_inv names rs bsize.
Proof.
  split; simpl.
  - apply ws_cols.
  - apply ws_len.
  - apply ws_rows.
  - intros s p Hx. by split.
  - intros s b (Hi & Hf & Hm & Hx). destruct (ws_block (remote_set s) b Hi) as (Hi' & _ & Hb').
    split; [exact (conj Hi' (conj Hf (conj Hm Hx)))|]. by rewrite Hm.
  - apply proxy_count.
  - apply proxy_names.
  - intros s b start. apply proxy_go.
Qed.
End Proxied.

(** ** From the query to a consumer in another process *)
Section RemoteQuery.
Context `{SetIpcCodes} `{ParcelLaws} `{SecureC, CLib} (store : Store) (names : list string).
Context (rs : list (list value)) `{!StoreShows store names rs}.

(** The consumer's set, over the provider's. *)
#[local] Instance provider_methods : SetMethods (DataShareResultSet SqliteSharedResultSet) :=
  query_methods store.
#[local] Instance consumer_methods :
    SetMethods (ISharedResultSetProxy (DataShareResultSet SqliteSharedResultSet)) :=
  proxy_methods share_Close.

(** C14: From a query to a consumer in another process. The consumer has a proxy of the
    provider's data share set; the two share the memory of the block, the moves and the
    getters run in the consumer, and the provider fills the window on request. The result
    of the query fits in the first block of the provider, and any three of its rows in the
    shared one; every column has one type in all rows, without a null among other values;
    no blob has a zero byte; and the transport delivers every message. Then after
    any moves a move to row [p] succeeds exactly when the result has that row, and the
    getters return the values of the query, as they do in the provider's process. *)
Theorem query_to_remote_set rb b (ps : list Z) (p : Z) :
  query_fits store names rs rb b ->
  exists s code s', moves ps (CreateProxy (share_set_of rb b) true []) = Ok s /\
    GoToRow s p = Ok (code, s') /\
    match (if 0 <=? p then rs !! Z.to_nat p else None) with
    | Some vals => code = E_OK /\ pos_row (positions_of s') = p /\ row_reads s' vals
    | None => code = E_ERROR /\
        pos_row (positions_of s') = if p <? 0 then INIT_POS else Z.of_nat (length rs)
    end.
Proof.
  intros Hq. pose proof (query_window store names rs rb b Hq) as Hlocal.
  pose proof (proxy_window (Hset := Hlocal) share_Close) as Hset.
  pose proof Hq as (_ & Hb & _ & _ & _ & Hz & _).
  destruct (moves_spec (rs := rs) ps (CreateProxy (share_set_of rb b) true [])) as (s & Es & Hs).
  { apply (share_inv_new (rs := rs) _ b); try done.
    split; [by apply (query_starts store names)|]. by repeat split; left. }
  destruct (share_set_reads (rs := rs) s p Hs Hz) as (code & s' & E & _ & Hx). by exists s, code, s'.
Qed.
End RemoteQuery.

(** ** The demo query from another process *)
#[global] Instance demo_set_codes : SetIpcCodes := {| INVALID_FD := -1; set_base_OnRemoteRequest _ := 305 |}.

Abbreviation demo_consumer := (consumer_methods (H := demo_set_codes) (H0 := parcel_list) demo_store).

Lemma query_to_remote_set_witness :
  exists s code s',
    moves (H := demo_consumer) [2; 7] (CreateProxy (share_set_of block4k block4k) true []) = Ok s /\
    GoToRow (H := demo_consumer) s 1 = Ok (code, s') /\
    code = E_OK /\ pos_row (proxy_positions s') = 1 /\ row_reads (H := demo_consumer) s' (demo_row 2).
Proof.
  destruct (query_to_remote_set (H := demo_set_codes) (H1 := parcel_list_laws)
    demo_store demo_names demo_result block4k block4k [2; 7] 1 demo_query_fits)
    as (s & code & s' & E1 & E2 & E3).
  exists s, code, s'. split; [exact E1|]. split; [exact E2|exact E3].
Defined.

(** An error of the transport in [OnGo] (the third request) goes unnoticed: the move
    reports success, and the getter finds no row in the emptied block. *)
Example transport_error_hidden :
  (r <-- GoToRow (H := demo_consumer) (CreateProxy (share_set_of block4k block4k) true [0; 0; 29189]) 1;
   let '(code, s) := r in
   Ok (code, pos_row (proxy_positions s), fst (GetLong (H := demo_consumer) s 0))) =
  Ok (E_OK, 1, Err E_ERROR).
Proof. vm_compute. reflexivity. Qed.
