(* ===== verification/UtilsFile.v ===== *)
(** * The file interface of small devices

    The functions of utils_file.h, which the key-value stores for devices without a
    POSIX file system use and which are not part of the repository: their types, what
    is relied on, and a file system in memory that satisfies it.

    A file system is seen as its files, the open descriptors with their positions, and
    its condition: one that always works, one whose next call may be the last before
    a loss of power, and one after that, on which every call fails without effect. The
    states a loss of power leaves behind are thus the files after it. A call that
    is interrupted has no effect, except that a copy may be incomplete. *)
From S2P Require Import Prelude Memory.
From Stdlib Require Import Ascii.

#[local] Open Scope list_scope.

Record oflag := mkFlags { o_creat : bool; o_trunc : bool }.
Definition O_RDONLY_FS : oflag := mkFlags false false.
Definition O_RDWR_FS : oflag := mkFlags false false.
Definition O_RDWR_CREAT_FS : oflag := mkFlags true false.
Definition O_RDWR_CREAT_TRUNC_FS : oflag := mkFlags true true.

Inductive whence := SEEK_SET_FS | SEEK_CUR_FS | SEEK_END_FS.

(** [malloc] is here for what it shares with the calls: it may fail. *)
Class UtilsFile := {
  world : Type;
  malloc : world -> bool * world;
  UtilsFileOpen : string -> oflag -> world -> Z * world;
  UtilsFileClose : Z -> world -> Z * world;
  UtilsFileRead : Z -> nat -> world -> Z * list byte * world;
  UtilsFileWrite : Z -> list byte -> world -> Z * world;
  UtilsFileSeek : Z -> Z -> whence -> world -> Z * world;
  UtilsFileDelete : string -> world -> Z * world;
  UtilsFileStat : string -> world -> Z * Z * world;
  UtilsFileCopy : string -> string -> world -> Z * world;
}.

Inductive condition := Reliable | Alive | Dead.

Record view := mkView {
  files : gmap string (list byte);
  fds : gmap Z (string * nat);
  health : condition;
}.

(** Bytes put over a file from a position inside it on, and bytes read from one. *)
Definition overwrite (l : list byte) (pos : nat) (b : list byte) : list byte :=
  take pos l ++ b ++ drop (pos + length b) l.
Definition segment (l : list byte) (pos n : nat) : list byte := take n (drop pos l).

(** The failure of a call that could have worked: the power is lost. *)
Definition power_lost (v v' : view) : Prop :=
  health v <> Reliable /\ files v' = files v /\ fds v' = fds v /\ health v' = Dead.

(** A descriptor without a file. *)
Definition no_file (v : view) (fd : Z) : Prop :=
  match fds v !! fd with Some (path, _) => files v !! path = None | None => True end.

Definition on_power (v : view) (P : Prop) : Prop := health v <> Dead /\ P.

Definition open_law (path : string) (fl : oflag) (v : view) (fd : Z) (v' : view) : Prop :=
  (fd < 0 /\ (power_lost v v' \/ (files v !! path = None /\ o_creat fl = false /\ v' = v))) \/
  (0 <= fd /\ on_power v (fds v !! fd = None /\ (is_Some (files v !! path) \/ o_creat fl = true) /\
    v' = mkView
      (if o_trunc fl || bool_decide (files v !! path = None) then <[path := []]> (files v) else files v)
      (<[fd := (path, O)]> (fds v)) (health v))).

Definition close_law (fd : Z) (v : view) (r : Z) (v' : view) : Prop :=
  (r < 0 /\ (power_lost v v' \/ (fds v !! fd = None /\ v' = v))) \/
  (0 <= r /\ on_power v (is_Some (fds v !! fd) /\ v' = mkView (files v) (delete fd (fds v)) (health v))).

Definition read_law (fd : Z) (n : nat) (v : view) (r : Z) (bytes : list byte) (v' : view) : Prop :=
  (r < 0 /\ bytes = [] /\ (power_lost v v' \/ (no_file v fd /\ v' = v))) \/
  (exists path pos content, on_power v (fds v !! fd = Some (path, pos) /\ files v !! path = Some content /\
    bytes = segment content pos n /\ r = Z.of_nat (length bytes) /\
    v' = mkView (files v) (<[fd := (path, (pos + length bytes)%nat)]> (fds v)) (health v))).

(** A write during which the power goes has no effect: that a part of the bytes may be
    written is not considered. Nothing is said of what writing at a position past the end
    does to the files. *)
Definition write_law (fd : Z) (b : list byte) (v : view) (r : Z) (v' : view) : Prop :=
  (r < 0 /\ (power_lost v v' \/ (no_file v fd /\ v' = v))) \/
  (exists path pos content, on_power v (fds v !! fd = Some (path, pos) /\ files v !! path = Some content /\
    (pos <= length content)%nat /\ r = Z.of_nat (length b) /\
    v' = mkView (<[path := overwrite content pos b]> (files v))
           (<[fd := (path, (pos + length b)%nat)]> (fds v)) (health v))) \/
  (exists path pos content, on_power v (fds v !! fd = Some (path, pos) /\ files v !! path = Some content /\
    (length content < pos)%nat /\ health v' = health v)).

Definition target (w : whence) (pos len : nat) (offset : Z) : Z :=
  match w with
  | SEEK_SET_FS => offset
  | SEEK_CUR_FS => Z.of_nat pos + offset
  | SEEK_END_FS => Z.of_nat len + offset
  end.

(** Whether a position past the end is possible is left open. *)
Definition seek_law (fd offset : Z) (w : whence) (v : view) (r : Z) (v' : view) : Prop :=
  (r < 0 /\ (power_lost v v' \/ (no_file v fd /\ v' = v))) \/
  (exists path pos content, on_power v (fds v !! fd = Some (path, pos) /\ files v !! path = Some content /\
    let t := target w pos (length content) offset in
    (0 <= t /\ r = t /\ v' = mkView (files v) (<[fd := (path, Z.to_nat t)]> (fds v)) (health v)) \/
    (r < 0 /\ (t < 0 \/ Z.of_nat (length content) < t) /\ v' = v))).

Definition delete_law (path : string) (v : view) (r : Z) (v' : view) : Prop :=
  (r < 0 /\ (power_lost v v' \/ (files v !! path = None /\ v' = v))) \/
  (r = 0 /\ on_power v (is_Some (files v !! path) /\ v' = mkView (delete path (files v)) (fds v) (health v))).

Definition stat_law (path : string) (v : view) (r size : Z) (v' : view) : Prop :=
  (r < 0 /\ (power_lost v v' \/ (files v !! path = None /\ v' = v))) \/
  (r = 0 /\ exists content, on_power v (files v !! path = Some content /\
    size = Z.of_nat (length content) /\ v' = v)).

Definition copy_law (src dest : string) (v : view) (r : Z) (v' : view) : Prop :=
  (r < 0 /\ (power_lost v v' \/ (files v !! src = None /\ v' = v) \/
     (exists content n, health v = Alive /\ files v !! src = Some content /\
        v' = mkView (<[dest := take n content]> (files v)) (fds v) Dead))) \/
  (0 <= r /\ exists content, on_power v (files v !! src = Some content /\
     v' = mkView (<[dest := content]> (files v)) (fds v) (health v))).

Definition malloc_law (v : view) (ok : bool) (v' : view) : Prop :=
  (ok = false /\ power_lost v v') \/ (ok = true /\ v' = v).

Class UtilsFileLaws `{UtilsFile} := {
  look : world -> view;
  malloc_ok w : let '(ok, w') := malloc w in malloc_law (look w) ok (look w');
  open_ok path fl w : let '(fd, w') := UtilsFileOpen path fl w in open_law path fl (look w) fd (look w');
  close_ok fd w : let '(r, w') := UtilsFileClose fd w in close_law fd (look w) r (look w');
  read_ok fd n w : let '(r, b, w') := UtilsFileRead fd n w in read_law fd n (look w) r b (look w');
  write_ok fd b w : let '(r, w') := UtilsFileWrite fd b w in write_law fd b (look w) r (look w');
  seek_ok fd off wh w :
    let '(r, w') := UtilsFileSeek fd off wh w in seek_law fd off wh (look w) r (look w');
  delete_ok path w : let '(r, w') := UtilsFileDelete path w in delete_law path (look w) r (look w');
  stat_ok path w : let '(r, n, w') := UtilsFileStat path w in stat_law path (look w) r n (look w');
  copy_ok src dest w : let '(r, w') := UtilsFileCopy src dest w in copy_law src dest (look w) r (look w');
}.

(** ** A file system in memory

    [Calls n] is power for [n] more calls; [torn] is how far the copy gets that it is
    lost in. *)
Inductive power := Forever | Calls (n : nat) | Off.

Record memory := mkMemory {
  m_files : gmap string (list byte);
  m_fds : gmap Z (string * nat);
  m_power : power;
  m_torn : nat;
}.

Definition condition_of (p : power) : condition :=
  match p with Forever => Reliable | Calls _ => Alive | Off => Dead end.
Definition view_of (m : memory) : view := mkView (m_files m) (m_fds m) (condition_of (m_power m)).

Definition set_power (m : memory) (p : power) : memory := mkMemory (m_files m) (m_fds m) p (m_torn m).
Definition set_files (m : memory) (f : gmap string (list byte)) : memory :=
  mkMemory f (m_fds m) (m_power m) (m_torn m).
Definition set_fds (m : memory) (f : gmap Z (string * nat)) : memory :=
  mkMemory (m_files m) f (m_power m) (m_torn m).

(** A call: without power it gives [failed], otherwise it uses up one of the calls. *)
Definition powered {A} (failed : A) (f : memory -> A * memory) (m : memory) : A * memory :=
  match m_power m with
  | Off => (failed, m)
  | Calls O => (failed, set_power m Off)
  | Calls (S n) => f (set_power m (Calls n))
  | Forever => f m
  end.

(** A position with its file. *)
Definition opened (m : memory) (fd : Z) : option (string * nat * list byte) :=
  '(path, pos) ← m_fds m !! fd; content ← m_files m !! path; Some (path, pos, content).

Definition next_fd (f : gmap Z (string * nat)) : Z := map_fold (fun fd _ n => Z.max (fd + 1) n) 0 f.

Definition mem_open (path : string) (fl : oflag) (m : memory) : Z * memory :=
  let fd := next_fd (m_fds m) in
  match m_files m !! path with
  | Some _ =>
      (fd, set_fds (if o_trunc fl then set_files m (<[path := []]> (m_files m)) else m)
             (<[fd := (path, O)]> (m_fds m)))
  | None =>
      if o_creat fl then (fd, set_fds (set_files m (<[path := []]> (m_files m))) (<[fd := (path, O)]> (m_fds m)))
      else (-1, m)
  end.

Definition mem_close (fd : Z) (m : memory) : Z * memory :=
  match m_fds m !! fd with Some _ => (0, set_fds m (delete fd (m_fds m))) | None => (-1, m) end.

Definition mem_read (fd : Z) (n : nat) (m : memory) : Z * list byte * memory :=
  match opened m fd with
  | Some (path, pos, content) =>
      let b := segment content pos n in
      (Z.of_nat (length b), b, set_fds m (<[fd := (path, (pos + length b)%nat)]> (m_fds m)))
  | None => (-1, [], m)
  end.

Definition mem_write (fd : Z) (b : list byte) (m : memory) : Z * memory :=
  match opened m fd with
  | Some (path, pos, content) =>
      (Z.of_nat (length b),
       set_fds (set_files m (<[path := overwrite content pos b]> (m_files m)))
         (<[fd := (path, (pos + length b)%nat)]> (m_fds m)))
  | None => (-1, m)
  end.

Definition mem_seek (fd off : Z) (w : whence) (m : memory) : Z * memory :=
  match opened m fd with
  | Some (path, pos, content) =>
      let t := target w pos (length content) off in
      if (0 <=? t) && (t <=? Z.of_nat (length content)) then
        (t, set_fds m (<[fd := (path, Z.to_nat t)]> (m_fds m)))
      else (-1, m)
  | None => (-1, m)
  end.

Definition mem_delete (path : string) (m : memory) : Z * memory :=
  match m_files m !! path with
  | Some _ => (0, set_files m (delete path (m_files m)))
  | None => (-1, m)
  end.

Definition mem_stat (path : string) (m : memory) : Z * Z * memory :=
  match m_files m !! path with
  | Some content => (0, Z.of_nat (length content), m)
  | None => (-1, 0, m)
  end.

Definition mem_copy (src dest : string) (m : memory) : Z * memory :=
  match m_files m !! src, m_power m with
  | None, _ => (-1, m)
  | _, Off => (-1, m)
  | Some content, Calls O =>
      (-1, set_power (set_files m (<[dest := take (m_torn m) content]> (m_files m))) Off)
  | Some content, Calls (S n) => (0, set_power (set_files m (<[dest := content]> (m_files m))) (Calls n))
  | Some content, Forever => (0, set_files m (<[dest := content]> (m_files m)))
  end.

#[global] Instance memory_files : UtilsFile := {
  world := memory;
  malloc := powered false (fun m => (true, m));
  UtilsFileOpen path fl := powered (-1) (mem_open path fl);
  UtilsFileClose fd := powered (-1) (mem_close fd);
  UtilsFileRead fd n := powered (-1, []) (mem_read fd n);
  UtilsFileWrite fd b := powered (-1) (mem_write fd b);
  UtilsFileSeek fd off w := powered (-1) (mem_seek fd off w);
  UtilsFileDelete path := powered (-1) (mem_delete path);
  UtilsFileStat path := powered (-1, 0) (mem_stat path);
  UtilsFileCopy := mem_copy;
}.

Lemma next_fd_spec f : 0 <= next_fd f /\ f !! next_fd f = None.
Proof.
  assert (Hm : 0 <= next_fd f /\ forall fd, is_Some (f !! fd) -> fd < next_fd f).
  { unfold next_fd. apply (map_fold_weak_ind (fun n f => 0 <= n /\ forall fd, is_Some (f !! fd) -> fd < n)).
    - split; [lia|]. by intros fd [].
    - intros i x m n _ [Hn Hm]. split; [lia|]. intros fd [y Hy]. apply lookup_insert_Some in Hy as [[<- _]|[_ Hy]].
      + lia.
      + assert (fd < n) by (apply Hm; by eexists). lia. }
  destruct Hm as [H0 Hm]. split; [done|]. destruct (f !! next_fd f) eqn:E; [|done].
  assert (next_fd f < next_fd f) by (apply Hm; by eexists). lia.
Qed.

(** A powered call keeps a law that the call itself keeps. *)
Lemma powered_ok {A} (failed : A) f (law : view -> A -> view -> Prop) m :
  (forall v v', power_lost v v' -> law v failed v') ->
  (forall m, m_power m <> Off -> let '(a, m') := f m in law (view_of m) a (view_of m')) ->
  let '(a, m') := powered failed f m in law (view_of m) a (view_of m').
Proof.
  intros Hl Hf. unfold powered. destruct (m_power m) as [|[|n]|] eqn:E.
  - apply Hf. by rewrite E.
  - apply Hl. unfold power_lost, view_of. simpl. by rewrite E.
  - assert (Hv : view_of (set_power m (Calls n)) = view_of m) by (unfold view_of; simpl; by rewrite E).
    rewrite <- Hv. by apply Hf.
  - apply Hl. unfold power_lost, view_of. simpl. by rewrite E.
Qed.

Lemma opened_Some m fd path pos content :
  opened m fd = Some (path, pos, content) <->
  m_fds m !! fd = Some (path, pos) /\ m_files m !! path = Some content.
Proof.
  unfold opened. destruct (m_fds m !! fd) as [[p q]|]; simpl; [|by split; [|intros []]].
  destruct (m_files m !! p) as [c|] eqn:E; simpl; split.
  - by intros [= -> -> ->].
  - intros [[= -> ->] Hc]. congruence.
  - done.
  - intros [[= -> ->] Hc]. congruence.
Qed.
Lemma opened_None m fd : opened m fd = None -> no_file (view_of m) fd.
Proof.
  unfold opened, no_file. simpl. destruct (m_fds m !! fd) as [[p q]|]; [|done]. simpl.
  by destruct (m_files m !! p).
Qed.

Lemma powered_on m : m_power m <> Off -> health (view_of m) <> Dead.
Proof. simpl. by destruct (m_power m). Qed.

Lemma mem_open_ok path fl m :
  m_power m <> Off ->
  let '(fd, m') := mem_open path fl m in open_law path fl (view_of m) fd (view_of m').
Proof.
  intros Hp%powered_on. unfold mem_open, open_law. destruct (next_fd_spec (m_fds m)) as [H0 Hf].
  cbn [files fds view_of] in *. destruct (m_files m !! path) as [c|] eqn:E.
  - right. split; [done|]. split; [done|]. split_and!; [done|by left|].
    rewrite bool_decide_false, orb_false_r by done. by destruct (o_trunc fl).
  - destruct (o_creat fl).
    + right. split; [done|]. split; [done|]. split_and!; [done|by right|].
      by rewrite bool_decide_true, orb_true_r by done.
    + left. split; [lia|]. by right.
Qed.

Lemma mem_close_ok fd m :
  m_power m <> Off -> let '(r, m') := mem_close fd m in close_law fd (view_of m) r (view_of m').
Proof.
  intros Hp%powered_on. unfold mem_close, close_law. cbn [fds view_of]. destruct (m_fds m !! fd) eqn:E.
  - right. split; [lia|]. split; [done|]. by split.
  - left. split; [lia|]. by right.
Qed.

Lemma mem_read_ok fd n m :
  m_power m <> Off -> let '(r, b, m') := mem_read fd n m in read_law fd n (view_of m) r b (view_of m').
Proof.
  intros Hp%powered_on. unfold mem_read, read_law. destruct (opened m fd) as [[[path pos] content]|] eqn:E.
  - right. apply opened_Some in E as [Ef Ec]. by exists path, pos, content.
  - left. split_and!; [lia|done|]. right. split; [by apply opened_None|done].
Qed.

Lemma mem_write_ok fd b m :
  m_power m <> Off -> let '(r, m') := mem_write fd b m in write_law fd b (view_of m) r (view_of m').
Proof.
  intros Hp%powered_on. unfold mem_write, write_law. destruct (opened m fd) as [[[path pos] content]|] eqn:E.
  - right. apply opened_Some in E as [Ef Ec]. destruct (decide (pos <= length content)%nat) as [Hl|Hl].
    + left. by exists path, pos, content.
    + right. exists path, pos, content. split; [done|]. split_and!; [done|done|lia|done].
  - left. split_and!; [lia|]. right. split; [by apply opened_None|done].
Qed.

Lemma mem_seek_ok fd off w m :
  m_power m <> Off -> let '(r, m') := mem_seek fd off w m in seek_law fd off w (view_of m) r (view_of m').
Proof.
  intros Hp%powered_on. unfold mem_seek, seek_law. destruct (opened m fd) as [[[path pos] content]|] eqn:E.
  - pose proof E as [Ef Ec]%opened_Some. destruct (_ && _) eqn:Et; right; exists path, pos, content;
      (split; [done|]); (split; [done|]); (split; [done|]); [left|right].
    + apply andb_prop in Et as [Et _]. apply Z.leb_le in Et. done.
    + split_and!; [lia| |done]. apply andb_false_iff in Et as [Et|Et]; apply Z.leb_gt in Et; lia.
  - left. split_and!; [lia|]. right. split; [by apply opened_None|done].
Qed.

Lemma mem_delete_ok path m :
  m_power m <> Off -> let '(r, m') := mem_delete path m in delete_law path (view_of m) r (view_of m').
Proof.
  intros Hp%powered_on. unfold mem_delete, delete_law. cbn [files view_of]. destruct (m_files m !! path) eqn:E.
  - right. split; [done|]. split; [done|]. by split.
  - left. split; [lia|]. by right.
Qed.

Lemma mem_stat_ok path m :
  m_power m <> Off -> let '(r, n, m') := mem_stat path m in stat_law path (view_of m) r n (view_of m').
Proof.
  intros Hp%powered_on. unfold mem_stat, stat_law. cbn [files view_of]. destruct (m_files m !! path) eqn:E.
  - right. split; [done|]. eexists. split; [done|]. by split_and!.
  - left. split; [lia|]. by right.
Qed.

Lemma mem_copy_ok src dest m :
  let '(r, m') := mem_copy src dest m in copy_law src dest (view_of m) r (view_of m').
Proof.
  unfold mem_copy, copy_law, on_power, power_lost. cbn [files view_of health].
  destruct (m_files m !! src) as [c|] eqn:E.
  - destruct (m_power m) as [|[|n]|] eqn:Ep; cbn [condition_of].
    + right. split; [lia|]. exists c. split_and!; try done. unfold view_of. simpl. by rewrite Ep.
    + left. split; [lia|]. right. right. exists c, (m_torn m). done.
    + right. split; [lia|]. exists c. split_and!; done.
    + left. split; [lia|]. left. by rewrite Ep.
  - left. split; [lia|]. right. left. done.
Qed.

#[global] Instance memory_laws : UtilsFileLaws.
Proof.
  refine (Build_UtilsFileLaws _ view_of _ _ _ _ _ _ _ _ _).
  - intros w. apply (powered_ok false _ malloc_law); [by left|]. intros m _. by right.
  - intros path fl w. apply (powered_ok (-1) _ (open_law path fl)); [|apply mem_open_ok].
    intros v v' Hl. left. split; [lia|by left].
  - intros fd w. apply (powered_ok (-1) _ (close_law fd)); [|apply mem_close_ok].
    intros v v' Hl. left. split; [lia|by left].
  - intros fd n w. cbn. pose proof (powered_ok (-1, []) (mem_read fd n)
      (fun v a v' => read_law fd n v (fst a) (snd a) v') w) as Hp.
    destruct (powered (-1, []) (mem_read fd n) w) as [[r b] w']. apply Hp.
    + intros v v' Hl. left. split_and!; [simpl; lia|done|by left].
    + intros m Hm. pose proof (mem_read_ok fd n m Hm). by destruct (mem_read fd n m) as [[r' b'] m'].
  - intros fd b w. apply (powered_ok (-1) _ (write_law fd b)); [|apply mem_write_ok].
    intros v v' Hl. left. split; [lia|by left].
  - intros fd off wh w. apply (powered_ok (-1) _ (seek_law fd off wh)); [|apply mem_seek_ok].
    intros v v' Hl. left. split; [lia|by left].
  - intros path w. apply (powered_ok (-1) _ (delete_law path)); [|apply mem_delete_ok].
    intros v v' Hl. left. split; [lia|by left].
  - intros path w. cbn. pose proof (powered_ok (-1, 0) (mem_stat path)
      (fun v a v' => stat_law path v (fst a) (snd a) v') w) as Hp.
    destruct (powered (-1, 0) (mem_stat path) w) as [[r b] w']. apply Hp.
    + intros v v' Hl. left. split; [simpl; lia|by left].
    + intros m Hm. pose proof (mem_stat_ok path m Hm). by destruct (mem_stat path m) as [[r' b'] m'].
  - intros src dest w. apply mem_copy_ok.
Defined.
