(* ===== verification/DbmStore.v ===== *)
(** * The DBM key-value store

    Model of frameworks/native/dbm_kv_store/src/kv_store_impl_hal/dbm_kv_store.c. Every
    value is a file, named after its key and beginning with the index of the key's item
    in the sum file; the sum file has a header and an item of 44 bytes per key, with
    a flag that the key is valid and one that a backup of its value is. A value is
    changed under the protection of the backup, and opening a store repairs
    what an interruption left.

    A function takes the database handle and the file system to its result and the new
    ones, and notes if it read past the end of a buffer, after which nothing is claimed.
    [IsValidKey] is the function of the other store, which is linked in. Logging is left
    out. *)
From S2P Require Import Prelude Memory KvCache UtilsFile.
From Stdlib Require Import Ascii.

#[local] Open Scope list_scope.

(** ** Constants *)
Definition DBM_ERROR : Z := -1.
Definition DBM_OK : Z := 0.
Definition DBM_NOT_FOUND : Z := 2.
Definition DBM_INVALID_ARGS : Z := 3.
Definition DBM_OVER_MAX_LIMITS : Z := 7.

Definition MAX_KEY_LEN : nat := 32.
Definition MAX_VALUE_LEN : nat := 512.
Definition DBM_MAX_KV_SUM : Z := 45.
Definition DBM_SW_VERSION : string := "1.0".
Definition DBM_SW_VERSION_NUM : Z := 0x10.
Definition DBM_CTRL_SET_LOCK : Z := 0.
Definition DBM_CTRL_SET_UNLOCK : Z := 1.

Definition MAX_GET_VALUE_LEN : Z := 0x7FFFFFFF.
Definition KV_SUM_FILE : string := "KV_FILE_SUM".
Definition KV_MAGIC : string := "KVDB".
Definition KV_MAGIC_SIZE : nat := 4.
Definition KV_SUM_INDEX : nat := 4.
Definition KV_SUM_BLOCK_SIZE : nat := 4.
Definition KV_SUM_DATA_ITEM_SIZE : nat := 44.
Definition MAX_KEY_PATH : nat := 256.
Definition MAX_FILE_PATH : nat := 256.
Definition SUM_FILE_HEADER_SIZE : nat := 20.

Definition SUM_FILE_DEFAULT_HEADER : list byte :=
  bytes_of "000" ++ zeros 1 ++ bytes_of KV_MAGIC ++ zeros 4 ++ bytes_of DBM_SW_VERSION ++ zeros 1 ++
  bytes_of KV_MAGIC.

Definition IsStrSame (value : list byte) (len : nat) (str : string) : bool :=
  (len =? String.length str + 1)%nat && bool_decide (take len value = bytes_of str ++ [zero]).

(** ** State *)
Inductive DBType := DBM_DB_TYPE_KV | DBM_DB_TYPE_KV_NO_DIR.

Record KVDBStatus := mkStatus { isNeedRecovery : bool; isInvalid : bool; kvSumIndexValid : bool }.

Record DBM := mkDBM {
  magic : list byte;
  dirPath : string;
  type : DBType;
  kvItemSum : Z;
  initOK : bool;
  sumFlag : KVDBStatus;
  sumFileFd : Z;
  lock : option Z;
  unlock : option Z;
  version : Z;
}.

Record ItemStatus := mkItemStatus { isValid : bool; isBakValid : bool; valueType : Z }.
(** [key] is an array of [MAX_KEY_LEN + 1] bytes. *)
Record KeyItem := mkKeyItem { key : list byte; flag : ItemStatus; len : Z; index : Z }.
Definition zeroItem : KeyItem :=
  mkKeyItem (zeros (MAX_KEY_LEN + 1)) (mkItemStatus false false 0) 0 0.
Definition keyName (item : KeyItem) : string := c_string (key item).
Definition with_index (item : KeyItem) (i : Z) : KeyItem := mkKeyItem (key item) (flag item) (len item) i.

Definition ItemPathFormat (db : DBM) (name : string) : string :=
  match type db with
  | DBM_DB_TYPE_KV_NO_DIR => dirPath db +:+ name
  | DBM_DB_TYPE_KV => dirPath db +:+ "/" +:+ name
  end.
Definition bak_name (name : string) : string := name +:+ "_dbm_kv".
Definition IsValidPath (path : string) : bool := negb (MAX_FILE_PATH <=? String.length path)%nat.

Section Store.
Context `{UtilsFile}.

(** The handle, the file system, and whether a buffer was overrun. *)
Record state := mkState { db_of : DBM; world_of : world; overrun : bool }.
Definition M (A : Type) : Type := state -> A * state.
#[global] Instance M_ret : MRet M := fun A a s => (a, s).
#[global] Instance M_bind : MBind M := fun A B f m s => let '(a, s) := m s in f a s.

Definition call {A} (f : world -> A * world) : M A := fun s =>
  let '(a, w) := f (world_of s) in (a, mkState (db_of s) w (overrun s)).
Definition handle : M DBM := fun s => (db_of s, s).
Definition set_handle (f : DBM -> DBM) : M unit := fun s => ((), mkState (f (db_of s)) (world_of s) (overrun s)).
Definition parsed (x : option Z) : M Z := fun s =>
  match x with Some n => (n, s) | None => (0, mkState (db_of s) (world_of s) true) end.

(** A call from outside. *)
Definition run {A} (m : M A) (db : DBM) (w : world) : option (A * DBM * world) :=
  let '(a, s) := m (mkState db w false) in
  if overrun s then None else Some (a, db_of s, world_of s).

Definition set_kvItemSum (n : Z) (db : DBM) : DBM :=
  mkDBM (magic db) (dirPath db) (type db) n (initOK db) (sumFlag db) (sumFileFd db) (lock db) (unlock db) (version db).
Definition set_sumFlag (f : KVDBStatus) (db : DBM) : DBM :=
  mkDBM (magic db) (dirPath db) (type db) (kvItemSum db) (initOK db) f (sumFileFd db) (lock db) (unlock db) (version db).
Definition set_sumFileFd (fd : Z) (db : DBM) : DBM :=
  mkDBM (magic db) (dirPath db) (type db) (kvItemSum db) (initOK db) (sumFlag db) fd (lock db) (unlock db) (version db).
Definition set_sumIndexValid (b : bool) (db : DBM) : DBM :=
  set_sumFlag (mkStatus (isNeedRecovery (sumFlag db)) (isInvalid (sumFlag db)) b) db.

(** ** Files and items *)
Definition FileReadCursor (fd offset : Z) (w : whence) (cursorSize : nat) : M (Z * list byte) :=
  pos ← call (UtilsFileSeek fd offset w);
  if pos <? 0 then
    pos ← call (UtilsFileSeek fd 0 SEEK_END_FS);
    mret (pos, [])
  else
    '(pos, b) ← call (fun w => let '(r, b, w) := UtilsFileRead fd cursorSize w in (r, b, w));
    if pos <? 0 then mret (-1, []) else mret (pos, b).

Definition FileWriteCursor (fd offset : Z) (w : whence) (buf : list byte) : M Z :=
  pos ← call (UtilsFileSeek fd offset w);
  if pos <? 0 then mret (-1)
  else
    ret ← call (UtilsFileWrite fd buf);
    if ret <? 0 then mret (-1) else mret ret.

(** Both comparisons are behind a failure of [memcpy_s], which does not happen here. *)
Definition IsHeaderValid (header : list byte) : bool :=
  let memcpy_failed := false in
  let first := buffer (KV_MAGIC_SIZE + 1) (segment header KV_SUM_INDEX KV_MAGIC_SIZE) in
  let second := buffer (KV_MAGIC_SIZE + 1) (segment header (4 * KV_SUM_BLOCK_SIZE) KV_MAGIC_SIZE) in
  if memcpy_failed && negb (IsStrSame first (KV_MAGIC_SIZE + 1) KV_MAGIC) then false
  else if memcpy_failed && negb (IsStrSame second (KV_MAGIC_SIZE + 1) KV_MAGIC) then false
  else true.

(** The code, and the path; the buffer stays empty when the path does not fit. *)
Definition GetSumFilePath (db : DBM) (len : nat) : Z * string :=
  match sprintf_s len (ItemPathFormat db KV_SUM_FILE) with
  | Some path => (DBM_OK, path)
  | None => (DBM_INVALID_ARGS, "")
  end.

Definition OpenSumFile (mode : oflag) : M Z :=
  got ← call malloc;
  if negb got then mret (-1)
  else
    db ← handle;
    let '(ret, path) := GetSumFilePath db (MAX_KEY_PATH + 1) in
    if ret <? 0 then mret (-1) else call (UtilsFileOpen path mode).

Definition GetKeyItemOffset (index : Z) : Z :=
  Z.of_nat SUM_FILE_HEADER_SIZE + index * Z.of_nat KV_SUM_DATA_ITEM_SIZE.

(** The code and the item, as it is then. *)
Definition LoadDataItem (i : Z) (item : KeyItem) : M (Z * KeyItem) :=
  db ← handle;
  '(ret, b) ← FileReadCursor (sumFileFd db) (GetKeyItemOffset i) SEEK_SET_FS KV_SUM_DATA_ITEM_SIZE;
  let itemContent := buffer (KV_SUM_DATA_ITEM_SIZE + 1) b in
  if ret <? 0 then mret (DBM_ERROR, item)
  else if negb (IsStrSame (drop (KV_SUM_DATA_ITEM_SIZE - KV_MAGIC_SIZE) itemContent) (KV_MAGIC_SIZE + 1) KV_MAGIC)
  then mret (DBM_OK, item)
  else
    let at_ j := default zero (itemContent !! j) in
    let f := mkItemStatus (bool_decide (at_ 1%nat <> zero)) (bool_decide (at_ 2%nat <> zero)) (Z_of_byte (at_ 3%nat)) in
    let keyLen := segment itemContent KV_SUM_BLOCK_SIZE KV_SUM_BLOCK_SIZE in
    n ← parsed (atoi keyLen);
    if n <? 0 then mret (DBM_ERROR, mkKeyItem (key item) f (len item) (index item))
    else
      let k := segment itemContent (2 * KV_SUM_BLOCK_SIZE) MAX_KEY_LEN ++ zeros 1 in
      mret (DBM_OK, mkKeyItem k f n i).

Definition DeleteValueFromFile (name : string) : M Z :=
  db ← handle;
  match sprintf_s (MAX_KEY_PATH + 1) (ItemPathFormat db name) with
  | None => mret DBM_ERROR
  | Some keyPath =>
      ret ← call (UtilsFileDelete keyPath);
      if ret <? 0 then mret DBM_ERROR else mret DBM_OK
  end.

Definition IsNewItem (name : string) : M bool :=
  db ← handle;
  match sprintf_s (MAX_KEY_PATH + 1) (ItemPathFormat db name) with
  | None => mret false
  | Some keyPath =>
      fd ← call (UtilsFileOpen keyPath O_RDONLY_FS);
      if fd <? 0 then mret true else _ ← call (UtilsFileClose fd); mret false
  end.

(** A file that is there is deleted; false when that fails. *)
Definition delete_existing (name : string) : M bool :=
  absent ← IsNewItem name;
  if absent : bool then mret true
  else
    ret ← DeleteValueFromFile name;
    mret (ret =? DBM_OK).

Definition DelItem (item : KeyItem) : M Z :=
  gone ← delete_existing (keyName item);
  if negb gone then mret DBM_ERROR
  else
    match sprintf_s (MAX_KEY_LEN + 8) (bak_name (keyName item)) with
    | None => mret DBM_INVALID_ARGS
    | Some bakKey =>
        gone ← delete_existing bakKey;
        if negb gone then mret DBM_ERROR
        else
          db ← handle;
          ret ← FileWriteCursor (sumFileFd db) (GetKeyItemOffset (index item)) SEEK_SET_FS
                  (zeros (KV_SUM_DATA_ITEM_SIZE - KV_MAGIC_SIZE));
          if ret <? 0 then mret DBM_ERROR else mret DBM_OK
    end.

Definition CopyValueToFile (src dest : string) : M Z :=
  db ← handle;
  match sprintf_s (MAX_KEY_PATH + 1) (ItemPathFormat db src) with
  | None => mret DBM_ERROR
  | Some srcPath =>
      match sprintf_s (MAX_KEY_PATH + 1) (ItemPathFormat db dest) with
      | None => mret DBM_ERROR
      | Some destPath =>
          ret ← call (UtilsFileCopy srcPath destPath);
          if ret <? 0 then mret DBM_ERROR else mret DBM_OK
      end
  end.

Definition RecoverItem (item : KeyItem) : M Z :=
  gone ← delete_existing (keyName item);
  if negb gone then mret DBM_ERROR
  else
    match sprintf_s (MAX_KEY_PATH + 1) (bak_name (keyName item)) with
    | None => mret DBM_INVALID_ARGS
    | Some bakFile =>
        ret ← CopyValueToFile bakFile (keyName item);
        if negb (ret =? DBM_OK) then mret DBM_ERROR
        else
          db ← handle;
          ret ← FileWriteCursor (sumFileFd db) (GetKeyItemOffset (index item) + 1) SEEK_SET_FS (zeros 1);
          if ret <? 0 then mret DBM_ERROR else mret DBM_OK
    end.

Definition CheckPointItem (item : KeyItem) : M Z :=
  if (String.length (keyName item) =? 0)%nat then mret DBM_OK
  else
    db ← handle;
    if isInvalid (sumFlag db) || negb (isValid (flag item)) then DelItem item
    else
      match sprintf_s (MAX_KEY_PATH + 1) (bak_name (keyName item)) with
      | None => mret DBM_ERROR
      | Some bakFile =>
          lost ← (if isBakValid (flag item) then IsNewItem bakFile else mret false);
          if lost : bool then DelItem item
          else if isBakValid (flag item) then RecoverItem item
          else
            gone ← delete_existing bakFile;
            mret (if gone : bool then DBM_OK else DBM_ERROR)
      end.

(** ** Opening *)
(** The loop over the items; the last code is the result. *)
Fixpoint vacuum_loop (n : nat) (i : Z) (item : KeyItem) (ret : Z) : M Z :=
  match n with
  | O => mret ret
  | S n =>
      '(ret, item) ← LoadDataItem i item;
      if negb (ret =? DBM_OK) then vacuum_loop n (i + 1) item ret
      else
        ret ← CheckPointItem item;
        if negb (ret =? DBM_OK) then mret ret
        else
          db ← handle;
          _ ← (if negb (kvSumIndexValid (sumFlag db)) && isValid (flag item) && negb (isInvalid (sumFlag db))
               then set_handle (set_kvItemSum (kvItemSum db + 1)) else mret ());
          vacuum_loop n (i + 1) zeroItem ret
  end.

Definition VacuumStore : M Z :=
  db ← handle;
  sumFileLen ← call (UtilsFileSeek (sumFileFd db) 0 SEEK_END_FS);
  if (sumFileLen <? Z.of_nat SUM_FILE_HEADER_SIZE) && negb (sumFileLen =? 0) then mret DBM_ERROR
  else
    ret ← call (UtilsFileSeek (sumFileFd db) 0 SEEK_SET_FS);
    if ret <? 0 then mret DBM_ERROR
    else
      let sumIndex := (sumFileLen - Z.of_nat SUM_FILE_HEADER_SIZE) ÷ Z.of_nat KV_SUM_DATA_ITEM_SIZE in
      if sumIndex >? DBM_MAX_KV_SUM then mret DBM_ERROR
      else
        _ ← (if kvSumIndexValid (sumFlag db) then mret () else set_handle (set_kvItemSum 0));
        got ← call malloc;
        if negb got then mret DBM_ERROR else vacuum_loop (Z.to_nat sumIndex) 0 zeroItem ret.

Definition SetSumIndexToFile (sumIndex : Z) : M Z :=
  _ ← set_handle (set_sumIndexValid false);
  db ← handle;
  pos ← FileWriteCursor (sumFileFd db) (Z.of_nat (KV_SUM_INDEX + KV_MAGIC_SIZE)) SEEK_SET_FS (zeros 1);
  if pos <? 0 then mret DBM_ERROR
  else
    match sprintf_d KV_SUM_INDEX sumIndex with
    | None => mret DBM_ERROR
    | Some value =>
        _ ← set_handle (set_kvItemSum sumIndex);
        pos ← FileWriteCursor (sumFileFd db) 0 SEEK_SET_FS value;
        if pos <? 0 then mret DBM_ERROR
        else
          _ ← set_handle (set_sumIndexValid true);
          pos ← FileWriteCursor (sumFileFd db) (Z.of_nat (KV_SUM_INDEX + KV_MAGIC_SIZE)) SEEK_SET_FS [one];
          if pos <? 0 then mret DBM_ERROR else mret DBM_OK
    end.

Definition SetSumIndex : M Z :=
  db ← handle;
  if kvSumIndexValid (sumFlag db) then mret DBM_OK else SetSumIndexToFile (kvItemSum db).

Definition CheckPoint : M Z :=
  db ← handle;
  if negb (isNeedRecovery (sumFlag db)) then mret DBM_OK
  else
    ret ← VacuumStore;
    if negb (ret =? DBM_OK) then mret DBM_ERROR
    else
      ret ← SetSumIndex;
      if negb (ret =? DBM_OK) then mret DBM_ERROR
      else
        ret ← FileWriteCursor (sumFileFd db) (Z.of_nat (KV_SUM_INDEX + KV_SUM_BLOCK_SIZE)) SEEK_SET_FS
                (zeros KV_SUM_BLOCK_SIZE);
        if ret <? 0 then mret DBM_ERROR
        else _ ← set_handle (set_sumFlag (mkStatus false false false)); mret DBM_OK.

Definition SetSumFlag (headerFlag : list byte) : M unit :=
  let at_ j := default zero (headerFlag !! j) in
  set_handle (set_sumFlag (mkStatus true (bool_decide (at_ 1%nat <> zero)) (bool_decide (at_ 0%nat <> zero)))).

Definition LoadSumFileHeader : M Z :=
  db ← handle;
  '(ret, b) ← FileReadCursor (sumFileFd db) 0 SEEK_SET_FS SUM_FILE_HEADER_SIZE;
  if ret <? 0 then mret DBM_ERROR
  else
    let header := buffer (SUM_FILE_HEADER_SIZE + 1) b in
    let sumIndex := buffer (KV_SUM_INDEX + 1) (segment header 0 KV_SUM_INDEX) in
    let headerFlag := buffer (KV_SUM_BLOCK_SIZE + 1) (segment header (KV_MAGIC_SIZE + KV_SUM_INDEX) KV_SUM_INDEX) in
    if negb (IsHeaderValid header) then mret DBM_ERROR
    else
      _ ← SetSumFlag headerFlag;
      db ← handle;
      if kvSumIndexValid (sumFlag db) then
        n ← parsed (atoi sumIndex);
        _ ← set_handle (set_kvItemSum n); mret DBM_OK
      else mret DBM_OK.

(** A length the code takes for that of a damaged file. *)
Definition bad_length (sumFileLen : Z) : bool :=
  (sumFileLen <? Z.of_nat SUM_FILE_HEADER_SIZE) && negb (sumFileLen =? 0) &&
  negb (sumFileLen =? Z.of_nat KV_SUM_INDEX).

Definition InitKVStore : M Z :=
  fd ← OpenSumFile O_RDWR_CREAT_FS;
  _ ← set_handle (set_sumFileFd fd);
  if fd <? 0 then mret DBM_ERROR
  else
    sumFileLen ← call (UtilsFileSeek fd 0 SEEK_END_FS);
    if sumFileLen <? 0 then mret DBM_ERROR
    else
      let sumFileLen := if bad_length sumFileLen then 0 else sumFileLen in
      ret ← call (UtilsFileSeek fd 0 SEEK_SET_FS);
      if ret <? 0 then mret DBM_ERROR
      else
        ret ← (if sumFileLen =? 0 then call (UtilsFileWrite fd SUM_FILE_DEFAULT_HEADER) else mret 0);
        if ret <? 0 then mret DBM_ERROR
        else if sumFileLen >? 0 then
          ret ← LoadSumFileHeader;
          if negb (ret =? DBM_OK) then mret DBM_ERROR
          else
            ret ← CheckPoint;
            if negb (ret =? DBM_OK) then mret DBM_ERROR else mret DBM_OK
        else mret DBM_OK.

(** The last thing that happens to a handle. *)
Definition ReleaseKVDBHandle : M unit :=
  db ← handle;
  if 0 <=? sumFileFd db then
    _ ← call (UtilsFileClose (sumFileFd db)); set_handle (set_sumFileFd (-1))
  else mret ().

Definition DBM_UserInit : Z := 0.

Definition DBMInitFinish (db : DBM) (ret : Z) : DBM :=
  if ret =? DBM_OK then
    mkDBM (magic db) (dirPath db) (type db) (kvItemSum db) true (sumFlag db) (sumFileFd db) (lock db) (unlock db)
      (version db)
  else db.

Definition GetKVDBHandle (path : string) (w : world) : option DBM * world :=
  let '(got, w) := malloc w in
  if negb got then (None, w)
  else
    let db := mkDBM (bytes_of KV_MAGIC ++ zeros 1) path
      (if (String.length path =? 0)%nat then DBM_DB_TYPE_KV_NO_DIR else DBM_DB_TYPE_KV)
      0 false (mkStatus false false false) (-1) None None DBM_SW_VERSION_NUM in
    let ret := DBM_UserInit in
    let db := DBMInitFinish db ret in
    if ret =? 0 then (Some db, w) else (None, w).

Definition DBM_GetKVStore (storeFullPath : string) (w : world) : option (Z * option DBM * world) :=
  if negb (IsValidPath storeFullPath) then Some (DBM_INVALID_ARGS, None, w)
  else
    match GetKVDBHandle storeFullPath w with
    | (None, w) => Some (DBM_ERROR, None, w)
    | (Some db, w) =>
        '(ret, db, w) ← run InitKVStore db w;
        if negb (ret =? DBM_OK) then
          '(_, _, w) ← run ReleaseKVDBHandle db w;
          Some (DBM_ERROR, None, w)
        else Some (DBM_OK, Some db, w)
    end.

(** ** Reading *)
Definition IsDataItemMatched (name : string) (i : Z) : M bool :=
  if i <? 0 then mret false
  else
    db ← handle;
    '(ret, b) ← FileReadCursor (sumFileFd db) (GetKeyItemOffset i) SEEK_SET_FS KV_SUM_DATA_ITEM_SIZE;
    if ret <? 0 then mret false
    else
      let itemContent := buffer (KV_SUM_DATA_ITEM_SIZE + 1) b in
      mret (IsStrSame (drop (KV_MAGIC_SIZE + KV_SUM_BLOCK_SIZE) itemContent) (String.length name + 1) name).

Definition IsNeedTransferValue (name : string) (fileRead : list byte) : M bool :=
  if (length fileRead <=? KV_SUM_BLOCK_SIZE)%nat then mret false
  else
    i ← parsed (atoi (buffer KV_SUM_BLOCK_SIZE (take (KV_SUM_BLOCK_SIZE - 1) fileRead)));
    IsDataItemMatched name i.

(** The length or -1, and what is in the buffer of [len] bytes; [memcpy_s] refuses a
    buffer of none. *)
Definition FormatValueByFile (isNeedTrans : bool) (len : Z) (fileRead : list byte) : Z * list byte :=
  let content := drop (if isNeedTrans then KV_SUM_BLOCK_SIZE else 0%nat) fileRead in
  if (Z.of_nat (length content) >? len) || (len =? 0) then (-1, [])
  else (Z.of_nat (length content), content).

Definition GetValueByFile (name keyGet : string) (len : Z) : M (Z * list byte) :=
  db ← handle;
  match sprintf_s (MAX_KEY_PATH + 1) (ItemPathFormat db keyGet) with
  | None => mret (-1, [])
  | Some keyPath =>
      '(ret, valueLen) ← call (fun w => let '(r, n, w) := UtilsFileStat keyPath w in ((r, n), w));
      if ret <? 0 then mret (-1, [])
      else if valueLen >? Z.of_nat (MAX_VALUE_LEN + KV_SUM_BLOCK_SIZE) then mret (-1, [])
      else
        got ← call malloc;
        if negb got then mret (-1, [])
        else
          fd ← call (UtilsFileOpen keyPath O_RDONLY_FS);
          if fd <? 0 then mret (-1, [])
          else
            '(n, fileRead) ← call (fun w => let '(r, b, w) := UtilsFileRead fd (Z.to_nat valueLen) w in ((r, b), w));
            _ ← call (UtilsFileClose fd);
            if n <? 0 then mret (-1, [])
            else
              isNeedTrans ← IsNeedTransferValue name fileRead;
              mret (FormatValueByFile isNeedTrans len fileRead)
  end.

(** The handle is one that was opened. *)
Definition handle_ok (db : DBM) : bool := initOK db && IsStrSame (magic db) (KV_MAGIC_SIZE + 1) KV_MAGIC.

Definition Get (name : string) (count : Z) : M (Z * list byte) :=
  if negb (IsValidKey name) || (count >? MAX_GET_VALUE_LEN) then mret (DBM_INVALID_ARGS, [])
  else
    db ← handle;
    if negb (handle_ok db) then mret (DBM_INVALID_ARGS, [])
    else
      match sprintf_s (MAX_KEY_PATH + 1) (bak_name name) with
      | None => mret (DBM_INVALID_ARGS, [])
      | Some bakFile =>
          bakAbsent ← IsNewItem bakFile;
          missing ← (if isInvalid (sumFlag db) then mret true
                     else absent ← IsNewItem name; mret (absent && bakAbsent));
          if missing : bool then mret (DBM_NOT_FOUND, [])
          else
            '(ret, value) ← GetValueByFile name (if bakAbsent : bool then name else bakFile) count;
            if ret <? 0 then mret (DBM_ERROR, []) else mret (DBM_OK, value)
      end.

(** The lock and the unlock function of the user run around it. *)
Definition DBM_Get (name : string) (count : Z) : M (Z * list byte) := Get name count.

(** ** Writing *)
Definition SetValueToFile (name : string) (buf : list byte) : M Z :=
  got ← call malloc;
  if negb got then mret DBM_ERROR
  else
    db ← handle;
    match sprintf_s (MAX_KEY_PATH + 1) (ItemPathFormat db name) with
    | None => mret DBM_ERROR
    | Some keyPath =>
        fd ← call (UtilsFileOpen keyPath O_RDWR_CREAT_TRUNC_FS);
        if fd <? 0 then mret DBM_ERROR
        else
          ret ← call (UtilsFileWrite fd buf);
          _ ← call (UtilsFileClose fd);
          if ret <? 0 then mret DBM_ERROR else mret DBM_OK
    end.

Definition BackupItem (item : KeyItem) : M Z :=
  if negb (isValid (flag item)) then mret DBM_OK
  else
    match sprintf_s (MAX_KEY_PATH + 1) (bak_name (keyName item)) with
    | None => mret DBM_ERROR
    | Some bakFile =>
        gone ← delete_existing bakFile;
        if negb gone then mret DBM_ERROR
        else
          ret ← CopyValueToFile (keyName item) bakFile;
          if negb (ret =? DBM_OK) then _ ← DeleteValueFromFile bakFile; mret DBM_ERROR
          else
            db ← handle;
            ret ← FileWriteCursor (sumFileFd db) (GetKeyItemOffset (index item) + 2) SEEK_SET_FS [one];
            if ret <? 0 then _ ← DeleteValueFromFile bakFile; mret DBM_ERROR else mret DBM_OK
    end.

Definition InitValue (i : Z) (value : list byte) : option (list byte) :=
  digits ← sprintf_d KV_SUM_INDEX i; Some (digits ++ value).

Definition InsertKV (item : KeyItem) (value : list byte) : M Z :=
  got ← call malloc;
  if negb got then mret DBM_ERROR
  else
    match InitValue (index item) value with
    | None => mret DBM_ERROR
    | Some valueContent =>
        ret ← SetValueToFile (keyName item) valueContent;
        _ ← (if ret =? DBM_OK then mret 0 else DelItem item);
        db ← handle;
        pos ← FileWriteCursor (sumFileFd db) (GetKeyItemOffset (index item) + 1) SEEK_SET_FS [one];
        if pos <? 0 then _ ← DelItem item; mret DBM_ERROR else mret ret
    end.

Definition UpdateKV (item : KeyItem) (value : list byte) : M Z :=
  ret ← BackupItem item;
  if negb (ret =? DBM_OK) then mret DBM_ERROR
  else
    got ← call malloc;
    if negb got then mret DBM_ERROR
    else
      match InitValue (index item) value with
      | None => mret DBM_ERROR
      | Some valueContent =>
          ret ← SetValueToFile (keyName item) valueContent;
          if negb (ret =? DBM_OK) then _ ← RecoverItem item; mret DBM_ERROR
          else
            db ← handle;
            pos ← FileWriteCursor (sumFileFd db) (GetKeyItemOffset (index item) + 2) SEEK_SET_FS (zeros 1);
            if pos <? 0 then mret DBM_ERROR
            else
              match sprintf_s (MAX_KEY_PATH + 1) (bak_name (keyName item)) with
              | None => mret DBM_ERROR
              | Some bakFile =>
                  gone ← delete_existing bakFile;
                  mret (if gone : bool then DBM_OK else DBM_ERROR)
              end
      end.

Definition WriteNewItemToSumFile (item : KeyItem) : M Z :=
  db ← handle;
  ret ← FileWriteCursor (sumFileFd db) (GetKeyItemOffset (index item)) SEEK_SET_FS (zeros (2 * KV_SUM_BLOCK_SIZE));
  if ret <? 0 then mret DBM_ERROR
  else
    ret ← FileWriteCursor (sumFileFd db) (GetKeyItemOffset (index item) + 2 * Z.of_nat KV_SUM_BLOCK_SIZE) SEEK_SET_FS
            (take MAX_KEY_LEN (key item));
    if ret <? 0 then mret DBM_ERROR
    else
      ret ← FileWriteCursor (sumFileFd db) 0 SEEK_CUR_FS (bytes_of KV_MAGIC);
      if ret <? 0 then mret DBM_ERROR else mret DBM_OK.

(** The search for an item with the key, or for the first empty one: the index, and
    whether none had the key. *)
Fixpoint search_item (n : nat) (i : Z) (name : string) (itemIndex : Z) : M (Z * bool) :=
  match n with
  | O => mret (itemIndex, true)
  | S n =>
      free ← (if itemIndex =? -1 then IsDataItemMatched "" i else mret false);
      let itemIndex := if free : bool then i else itemIndex in
      found ← IsDataItemMatched name i;
      if found : bool then mret (i, false) else search_item n (i + 1) name itemIndex
  end.

(** The code and the item with its index. *)
Definition AddNewDataItem (item : KeyItem) : M (Z * KeyItem) :=
  db ← handle;
  '(itemIndex, isNewItem) ← search_item (Z.to_nat (kvItemSum db + 1)) 0 (keyName item) (-1);
  _ ← (if isNewItem : bool then set_handle (set_kvItemSum (kvItemSum db + 1)) else mret ());
  db ← handle;
  let item := with_index item (if itemIndex =? -1 then kvItemSum db - 1 else itemIndex) in
  if index item <? 0 then mret (DBM_ERROR, item)
  else ret ← WriteNewItemToSumFile item; mret (ret, item).

Definition FindDataItem (item : KeyItem) (kvExisted : bool) : M (Z * KeyItem) :=
  let item := with_index item 0 in
  if negb kvExisted then AddNewDataItem item
  else
    got ← call malloc;
    if negb got then mret (DBM_ERROR, item)
    else
      db ← handle;
      match sprintf_s (MAX_KEY_PATH + 1) (ItemPathFormat db (keyName item)) with
      | None => mret (DBM_ERROR, item)
      | Some keyPath =>
          fd ← call (UtilsFileOpen keyPath O_RDONLY_FS);
          if fd <? 0 then mret (DBM_ERROR, item)
          else
            '(ret, b) ← call (fun w => let '(r, b, w) := UtilsFileRead fd KV_SUM_BLOCK_SIZE w in ((r, b), w));
            _ ← call (UtilsFileClose fd);
            i ← (if ret <? 0 then mret 0 else parsed (atoi (buffer KV_SUM_BLOCK_SIZE b)));
            let item := with_index item i in
            matched ← IsDataItemMatched (keyName item) i;
            if matched : bool then mret (DBM_OK, item) else AddNewDataItem item
      end.

(** The code, the item and whether it is new. *)
Definition PrePut (item : KeyItem) (newItem : bool) : M (Z * KeyItem * bool) :=
  '(ret, item) ← FindDataItem item (negb newItem);
  if negb (ret =? DBM_OK) then mret (DBM_ERROR, item, newItem)
  else
    '(ret, item) ← LoadDataItem (index item) item;
    if negb (ret =? DBM_OK) then mret (DBM_ERROR, item, newItem)
    else if newItem then mret (DBM_OK, item, newItem)
    else
      ret ← CheckPointItem item;
      if negb (ret =? DBM_OK) then mret (DBM_ERROR, item, newItem)
      else
        db ← handle;
        if isInvalid (sumFlag db) || negb (isValid (flag item)) then
          ret ← WriteNewItemToSumFile item;
          if negb (ret =? DBM_OK) then mret (ret, item, newItem) else mret (DBM_OK, item, true)
        else mret (DBM_OK, item, newItem).

(** The item of a key before it is looked for. *)
Definition item_of (name : string) : KeyItem :=
  mkKeyItem (buffer (MAX_KEY_LEN + 1) (bytes_of name)) (mkItemStatus false false 0)
    (Z.of_nat (String.length name)) 0.

Definition Put (name : string) (value : list byte) : M Z :=
  if negb (IsValidKey name) || (MAX_VALUE_LEN <? length value)%nat || (length value =? 0)%nat then
    mret DBM_INVALID_ARGS
  else
    db ← handle;
    if negb (handle_ok db) then mret DBM_INVALID_ARGS
    else
      newItem ← IsNewItem name;
      if (DBM_MAX_KV_SUM <=? kvItemSum db) && newItem then mret DBM_OVER_MAX_LIMITS
      else
        got ← call malloc;
        if negb got then mret DBM_ERROR
        else
          '(ret, item, newItem) ← PrePut (item_of name) newItem;
          if negb (ret =? DBM_OK) then mret DBM_ERROR
          else if newItem : bool then InsertKV item value
          else UpdateKV item value.

Definition DBM_Put (name : string) (value : list byte) : M Z := Put name value.

(** ** Deleting *)
Definition ExeDelete (item : KeyItem) (newItem : bool) : M Z :=
  db ← handle;
  ret ← FileWriteCursor (sumFileFd db) (GetKeyItemOffset (index item) + 1) SEEK_SET_FS (zeros 1);
  _ ← set_handle (set_kvItemSum (kvItemSum db - 1));
  if ret <? 0 then mret DBM_ERROR
  else
    ret ← (if newItem then mret DBM_OK else DeleteValueFromFile (keyName item));
    if negb (ret =? DBM_OK) then mret DBM_ERROR
    else
      match sprintf_s MAX_FILE_PATH (bak_name (keyName item)) with
      | None => mret DBM_ERROR
      | Some bakKey =>
          _ ← delete_existing bakKey;
          _ ← FileWriteCursor (sumFileFd db) (GetKeyItemOffset (index item)) SEEK_SET_FS
                (zeros (KV_SUM_DATA_ITEM_SIZE - KV_MAGIC_SIZE));
          mret DBM_OK
      end.

Definition Delete (name : string) : M Z :=
  if negb (IsValidKey name) then mret DBM_INVALID_ARGS
  else
    db ← handle;
    if negb (handle_ok db) then mret DBM_INVALID_ARGS
    else
      newItem ← IsNewItem name;
      if newItem : bool then mret DBM_OK
      else
        got ← call malloc;
        if negb got then mret DBM_ERROR
        else
          '(ret, item) ← FindDataItem (item_of name) (negb newItem);
          if negb (ret =? DBM_OK) then mret DBM_ERROR else ExeDelete item newItem.

Definition DBM_Delete (name : string) : M Z := Delete name.

(** ** Closing and removing a store *)
Definition CloseKVStore : M Z :=
  db ← handle;
  if negb (handle_ok db) then mret DBM_INVALID_ARGS
  else
    _ ← SetSumIndexToFile (kvItemSum db);
    ret ← call (UtilsFileClose (sumFileFd db));
    if ret <? 0 then mret DBM_ERROR
    else _ ← set_handle (set_sumFileFd (-1)); mret DBM_OK.

Definition DBM_CloseKVStore : M Z :=
  ret ← CloseKVStore;
  _ ← ReleaseKVDBHandle;
  mret ret.

Definition DelSumFile : M Z :=
  got ← call malloc;
  if negb got then mret DBM_ERROR
  else
    db ← handle;
    let '(ret, sumFilePath) := GetSumFilePath db (MAX_FILE_PATH + 1) in
    if negb (ret =? DBM_OK) then mret DBM_ERROR
    else
      ret ← call (UtilsFileClose (sumFileFd db));
      if ret <? 0 then mret DBM_ERROR
      else
        _ ← set_handle (set_sumFileFd (-1));
        ret ← call (UtilsFileDelete sumFilePath);
        if ret <? 0 then mret DBM_ERROR else mret DBM_OK.

Definition RemoveKVStoreFile (sumFileLen : Z) : M Z :=
  db ← handle;
  ret ← FileWriteCursor (sumFileFd db) (Z.of_nat (KV_SUM_INDEX + KV_SUM_BLOCK_SIZE)) SEEK_SET_FS
          (replicate KV_SUM_BLOCK_SIZE one);
  if ret <? 0 then mret DBM_ERROR
  else
    loaded ← (if sumFileLen >? 0 then
                ret ← LoadSumFileHeader;
                if negb (ret =? DBM_OK) then mret false
                else ret ← VacuumStore; mret (ret =? DBM_OK)
              else mret true);
    if negb loaded then mret DBM_ERROR else DelSumFile.

Definition delete_store : M Z :=
  fd ← OpenSumFile O_RDWR_FS;
  _ ← set_handle (set_sumFileFd fd);
  if fd <? 0 then _ ← ReleaseKVDBHandle; mret DBM_NOT_FOUND
  else
    sumFileLen ← call (UtilsFileSeek fd 0 SEEK_END_FS);
    if (sumFileLen <? 0) || bad_length sumFileLen then _ ← ReleaseKVDBHandle; mret DBM_ERROR
    else
      ret ← RemoveKVStoreFile sumFileLen;
      _ ← ReleaseKVDBHandle; mret ret.

Definition DBM_DeleteKVStore (storeFullPath : string) (w : world) : option (Z * world) :=
  if negb (IsValidPath storeFullPath) then Some (DBM_INVALID_ARGS, w)
  else
    match GetKVDBHandle storeFullPath w with
    | (None, w) => Some (DBM_ERROR, w)
    | (Some db, w) => '(ret, _, w) ← run delete_store db w; Some (ret, w)
    end.

Definition DBM_KVStoreControl (cmd : Z) (arg : Z) : M unit :=
  set_handle (fun db =>
    if cmd =? DBM_CTRL_SET_LOCK then
      mkDBM (magic db) (dirPath db) (type db) (kvItemSum db) (initOK db) (sumFlag db) (sumFileFd db) (Some arg)
        (unlock db) (version db)
    else if cmd =? DBM_CTRL_SET_UNLOCK then
      mkDBM (magic db) (dirPath db) (type db) (kvItemSum db) (initOK db) (sumFlag db) (sumFileFd db) (lock db)
        (Some arg) (version db)
    else db).
End Store.
