(* ===== verification/DbmLogic.v ===== *)
(** * Reasoning about interrupted executions

    A weakest precondition for the functions of the DBM store with two
    postconditions: one for a run the power lasts through, about the result and the
    state, and one for a run it does not, about the files that are left. Since nothing
    has an effect after the power is gone, the second only has to be shown at the
    calls that fail. *)
From S2P Require Import Prelude Memory UtilsFile DbmStore.
From Stdlib Require Import Ascii.

#[local] Open Scope list_scope.

#[global] Instance condition_eq : EqDecision condition.
Proof. solve_decision. Defined.

Section Logic.
Context `{UtilsFileLaws}.

Abbreviation disk := (gmap string (list byte)).
Definition sees (s : state) : view := look (world_of s).
Definition dead (s : state) : Prop := health (sees s) = Dead.

Definition wpc {A} (m : M A) (s : state) (Q : A -> state -> Prop) (C : disk -> Prop) : Prop :=
  let '(a, s') := m s in (dead s' -> C (files (sees s'))) /\ (~ dead s' -> Q a s').

(** ** Without power nothing happens, and a reliable system stays one *)
Definition steady (v v' : view) : Prop :=
  (health v = Dead -> health v' = Dead /\ files v' = files v) /\ (health v = Reliable -> health v' = Reliable).
Definition inert {A} (m : M A) : Prop := forall s, steady (sees s) (sees (snd (m s))).

Lemma steady_refl v : steady v v.
Proof. by split. Qed.
Lemma steady_trans v1 v2 v3 : steady v1 v2 -> steady v2 v3 -> steady v1 v3.
Proof.
  intros [H1 H2] [H3 H4]. split; [|auto]. intros Hd. destruct (H1 Hd) as [Hd' E]. destruct (H3 Hd') as [? E'].
  split; [done|congruence].
Qed.

Lemma inert_ret {A} (a : A) : inert (mret a).
Proof. intros s. apply steady_refl. Qed.
Lemma inert_bind {A B} (m : M A) (f : A -> M B) : inert m -> (forall a, inert (f a)) -> inert (m ≫= f).
Proof.
  intros Hm Hf s. unfold mbind, M_bind. pose proof (Hm s) as H1. destruct (m s) as [a s1]. simpl in *.
  eapply steady_trans; [exact H1|apply Hf].
Qed.
Lemma inert_handle : inert handle.
Proof. intros s. apply steady_refl. Qed.
Lemma inert_set_handle f : inert (set_handle f).
Proof. intros s. apply steady_refl. Qed.
Lemma inert_parsed x : inert (parsed x).
Proof. intros s. destruct x; apply steady_refl. Qed.

Lemma inert_call {A} (f : world -> A * world) :
  (forall w, let '(_, w') := f w in steady (look w) (look w')) -> inert (call f).
Proof. intros Hf s. unfold call, sees. specialize (Hf (world_of s)). by destruct (f (world_of s)) as [a w']. Qed.

(** Each law has this. *)
Ltac steady_law :=
  unfold power_lost, on_power, steady in *;
  repeat match goal with
  | Hx : _ /\ _ |- _ => destruct Hx
  | Hx : _ \/ _ |- _ => destruct Hx
  | Hx : exists _, _ |- _ => destruct Hx
  | Hx : _ = mkView _ _ _ |- _ => rewrite Hx in *; clear Hx
  | Hx : look _ = look _ |- _ => rewrite Hx in *; clear Hx
  end; simpl in *; split; intros; try congruence; split; congruence.

Lemma inert_malloc : inert (call malloc).
Proof.
  apply inert_call. intros w. pose proof (malloc_ok w) as Hl. destruct (malloc w) as [ok w'].
  unfold malloc_law in Hl. steady_law.
Qed.
Lemma inert_open path fl : inert (call (UtilsFileOpen path fl)).
Proof.
  apply inert_call. intros w. pose proof (open_ok path fl w) as Hl. destruct (UtilsFileOpen path fl w) as [ok w'].
  unfold open_law in Hl. steady_law.
Qed.
Lemma inert_close fd : inert (call (UtilsFileClose fd)).
Proof.
  apply inert_call. intros w. pose proof (close_ok fd w) as Hl. destruct (UtilsFileClose fd w) as [ok w'].
  unfold close_law in Hl. steady_law.
Qed.
Lemma inert_seek fd off wh : inert (call (UtilsFileSeek fd off wh)).
Proof.
  apply inert_call. intros w. pose proof (seek_ok fd off wh w) as Hl. destruct (UtilsFileSeek fd off wh w) as [ok w'].
  unfold seek_law in Hl. steady_law.
Qed.
Lemma inert_delete path : inert (call (UtilsFileDelete path)).
Proof.
  apply inert_call. intros w. pose proof (delete_ok path w) as Hl. destruct (UtilsFileDelete path w) as [ok w'].
  unfold delete_law in Hl. steady_law.
Qed.
Lemma inert_copy src dest : inert (call (UtilsFileCopy src dest)).
Proof.
  apply inert_call. intros w. pose proof (copy_ok src dest w) as Hl. destruct (UtilsFileCopy src dest w) as [ok w'].
  unfold copy_law in Hl. steady_law.
Qed.
Lemma inert_read fd n :
  inert (call (fun w => let '(r, b, w) := UtilsFileRead fd n w in (r, b, w))).
Proof.
  apply inert_call. intros w. pose proof (read_ok fd n w) as Hl. destruct (UtilsFileRead fd n w) as [[r b] w'].
  unfold read_law in Hl. steady_law.
Qed.
Lemma inert_stat path :
  inert (call (fun w => let '(r, n, w) := UtilsFileStat path w in (r, n, w))).
Proof.
  apply inert_call. intros w. pose proof (stat_ok path w) as Hl. destruct (UtilsFileStat path w) as [[r b] w'].
  unfold stat_law in Hl. steady_law.
Qed.
Lemma inert_write fd b : inert (call (UtilsFileWrite fd b)).
Proof.
  apply inert_call. intros w. pose proof (write_ok fd b w) as Hl. destruct (UtilsFileWrite fd b w) as [r w'].
  unfold write_law in Hl. steady_law.
Qed.

(** ** Rules *)
Lemma wpc_ret {A} (a : A) s Q C : ~ dead s -> Q a s -> wpc (mret a) s Q C.
Proof. intros Hs HQ. split; [done|]. by intros _. Qed.

Lemma wpc_bind {A B} (m : M A) (f : A -> M B) s Q C :
  (forall a, inert (f a)) -> wpc m s (fun a s' => wpc (f a) s' Q C) C -> wpc (m ≫= f) s Q C.
Proof.
  intros Hf. unfold wpc, mbind, M_bind. destruct (m s) as [a s1]. intros [Hd HQ].
  destruct (f a s1) as [b s2] eqn:E.
  assert (Hi : dead s1 -> dead s2 /\ files (sees s2) = files (sees s1)).
  { intros Hd1. pose proof (proj1 (Hf a s1) Hd1) as Hi. by rewrite E in Hi. }
  destruct (decide (health (sees s1) = Dead)) as [Hd1|Hd1].
  - destruct (Hi Hd1) as [Hd2 Hv]. split; [|done]. intros _. rewrite Hv. by apply Hd.
  - exact (HQ Hd1).
Qed.

Lemma wpc_mono {A} (m : M A) s (Q Q' : A -> state -> Prop) (C C' : disk -> Prop) :
  wpc m s Q C -> (forall a s', Q a s' -> Q' a s') -> (forall F, C F -> C' F) -> wpc m s Q' C'.
Proof. unfold wpc. destruct (m s) as [a s']. intros [Hd HQ] H1 H2. split; auto. Qed.

(** On a reliable system the run is not interrupted. *)
Lemma wpc_reliable {A} (m : M A) s Q C :
  inert m -> health (sees s) = Reliable -> wpc m s Q C -> Q (fst (m s)) (snd (m s)).
Proof.
  intros Hm Hr Hw. pose proof (proj2 (Hm s) Hr) as Hr'. unfold wpc in Hw. destruct (m s) as [a s']. simpl in *.
  apply (proj2 Hw). unfold dead. by rewrite Hr'.
Qed.

(** ** Calls on a running system

    [here db F D s]: the handle is [db], the files are [F], the open descriptors [D],
    and nothing has gone wrong. *)
Context (h0 : condition) (Hh0 : h0 <> Dead).

Record here (db : DBM) (F : disk) (D : gmap Z (string * nat)) (s : state) : Prop := {
  here_db : db_of s = db;
  here_sees : sees s = mkView F D h0;
  here_ok : overrun s = false;
}.

Lemma here_alive db F D s : here db F D s -> ~ dead s.
Proof. intros [_ Hv _]. unfold dead. by rewrite Hv. Qed.

Lemma wpc_here_ret {A} (a : A) db F D s Q C : here db F D s -> Q a s -> wpc (mret a) s Q C.
Proof. intros Hs HQ. apply wpc_ret; [by eapply here_alive|done]. Qed.

Lemma wpc_handle db F D s (Q : DBM -> state -> Prop) C : here db F D s -> Q db s -> wpc handle s Q C.
Proof.
  intros Hs HQ. unfold wpc, handle. rewrite (here_db _ _ _ _ Hs). split; [|done].
  intros Hd. by apply (here_alive _ _ _ _ Hs) in Hd.
Qed.

Lemma wpc_set_handle f db F D s (Q : () -> state -> Prop) C :
  here db F D s -> (forall s', here (f db) F D s' -> Q () s') -> wpc (set_handle f) s Q C.
Proof.
  intros Hs HQ. pose proof (here_alive _ _ _ _ Hs) as Ha. destruct Hs as [<- Hv Ho]. split; [done|].
  intros _. apply HQ. by split.
Qed.

Lemma wpc_parsed n db F D s (Q : Z -> state -> Prop) C : here db F D s -> Q n s -> wpc (parsed (Some n)) s Q C.
Proof. apply wpc_here_ret. Qed.

(** A call: what its law says, split into the loss of power and the rest. *)
Lemma wpc_call {A} (f : world -> A * world) db F D s Q C :
  here db F D s ->
  (forall a w', f (world_of s) = (a, w') ->
     (health (look w') = Dead -> C (files (look w'))) /\
     (health (look w') <> Dead -> look w' = mkView (files (look w')) (fds (look w')) h0 ->
        Q a (mkState db w' false)) /\ (health (look w') <> Dead -> health (look w') = h0)) ->
  wpc (call f) s Q C.
Proof.
  intros [Hdb Hv Ho] Hf. unfold wpc, call, dead, sees. destruct (f (world_of s)) as [a w'] eqn:E. simpl.
  destruct (Hf a w' eq_refl) as (H1 & H2 & H3). split; [done|]. intros Hd. rewrite Hdb, Ho. apply H2; [done|].
  rewrite <- (H3 Hd). by destruct (look w').
Qed.

Lemma here_intro db F D w' : look w' = mkView F D h0 -> here db F D (mkState db w' false).
Proof. by split. Qed.

Lemma wpc_malloc db F D s (Q : bool -> state -> Prop) (C : disk -> Prop) :
  here db F D s -> C F -> (forall s', here db F D s' -> Q true s') -> wpc (call malloc) s Q C.
Proof.
  intros Hs HC HQ. eapply wpc_call; [exact Hs|]. intros ok w' E.
  pose proof (malloc_ok (world_of s)) as Hl. rewrite E in Hl. fold (sees s) in Hl. rewrite (here_sees _ _ _ _ Hs) in Hl.
  destruct Hl as [[-> (_ & Hf & _ & Hh)]|[-> Hv]]; simpl in *.
  - split_and!; [by rewrite Hf|done|done].
  - rewrite Hv. split_and!; [done| |done]. intros _ _. apply HQ. by apply here_intro.
Qed.

Lemma wpc_open path fl db F D s (Q : Z -> state -> Prop) (C : disk -> Prop) :
  here db F D s -> C F -> (is_Some (F !! path) \/ o_creat fl = true) ->
  (forall s' fd, 0 <= fd -> D !! fd = None ->
     here db (if o_trunc fl || bool_decide (F !! path = None) then <[path := []]> F else F)
       (<[fd := (path, O)]> D) s' -> Q fd s') ->
  wpc (call (UtilsFileOpen path fl)) s Q C.
Proof.
  intros Hs HC Hp HQ. eapply wpc_call; [exact Hs|]. intros fd w' E.
  pose proof (open_ok path fl (world_of s)) as Hl. rewrite E in Hl. fold (sees s) in Hl. rewrite (here_sees _ _ _ _ Hs) in Hl.
  destruct Hl as [[Hneg [(_ & Hf & _ & Hh)|(Hn & Hc & _)]]|(Hge & _ & Hn & _ & Hv)]; simpl in *.
  - split_and!; [by rewrite Hf|done|done].
  - destruct Hp as [[c Hp]|Hp]; congruence.
  - rewrite Hv. split_and!; [done| |done]. intros _ _. apply (HQ _ fd); [done|done|]. by apply here_intro.
Qed.

Lemma wpc_open_absent path fl db F D s (Q : Z -> state -> Prop) (C : disk -> Prop) :
  here db F D s -> C F -> F !! path = None -> o_creat fl = false ->
  (forall s' r, r < 0 -> here db F D s' -> Q r s') -> wpc (call (UtilsFileOpen path fl)) s Q C.
Proof.
  intros Hs HC Hp Hcr HQ. eapply wpc_call; [exact Hs|]. intros fd w' E.
  pose proof (open_ok path fl (world_of s)) as Hl. rewrite E in Hl. fold (sees s) in Hl. rewrite (here_sees _ _ _ _ Hs) in Hl.
  destruct Hl as [[Hneg [(_ & Hf & _ & Hh)|(Hn & Hc & Hv)]]|(Hge & _ & Hn & [[c Hc]|Hc] & Hv)]; simpl in *;
    try congruence.
  - split_and!; [by rewrite Hf|done|done].
  - rewrite Hv. split_and!; [done| |done]. intros _ _. apply (HQ _ fd); [done|]. by apply here_intro.
Qed.

Lemma wpc_close fd db F D s (Q : Z -> state -> Prop) (C : disk -> Prop) :
  here db F D s -> C F -> is_Some (D !! fd) ->
  (forall s' r, 0 <= r -> here db F (delete fd D) s' -> Q r s') -> wpc (call (UtilsFileClose fd)) s Q C.
Proof.
  intros Hs HC Hp HQ. eapply wpc_call; [exact Hs|]. intros r w' E.
  pose proof (close_ok fd (world_of s)) as Hl. rewrite E in Hl. fold (sees s) in Hl. rewrite (here_sees _ _ _ _ Hs) in Hl.
  destruct Hl as [[Hneg [(_ & Hf & _ & Hh)|(Hn & Hv)]]|(Hge & _ & Hn & Hv)]; simpl in *.
  - split_and!; [by rewrite Hf|done|done].
  - rewrite Hn in Hp. by destruct Hp.
  - rewrite Hv. split_and!; [done| |done]. intros _ _. apply (HQ _ r); [done|]. by apply here_intro.
Qed.

Lemma wpc_read fd n path pos content db F D s (Q : Z * list byte -> state -> Prop) (C : disk -> Prop) :
  here db F D s -> C F -> D !! fd = Some (path, pos) -> F !! path = Some content ->
  (forall s' b, b = segment content pos n ->
     here db F (<[fd := (path, (pos + length b)%nat)]> D) s' -> Q (Z.of_nat (length b), b) s') ->
  wpc (call (fun w => let '(r, b, w) := UtilsFileRead fd n w in (r, b, w))) s Q C.
Proof.
  intros Hs HC Hd Hc HQ. eapply wpc_call; [exact Hs|]. intros [r b] w' E.
  pose proof (read_ok fd n (world_of s)) as Hl. destruct (UtilsFileRead fd n (world_of s)) as [[r' b'] w''].
  simplify_eq. fold (sees s) in Hl. rewrite (here_sees _ _ _ _ Hs) in Hl.
  destruct Hl as [(Hneg & _ & [(_ & Hf & _ & Hh)|(Hn & Hv)])|(p & q & c & _ & Hd' & Hc' & -> & -> & Hv)]; simpl in *.
  - split_and!; [by rewrite Hf|done|done].
  - unfold no_file in Hn. simpl in Hn. rewrite Hd in Hn. congruence.
  - simplify_eq. rewrite Hv. split_and!; [done| |done]. intros _ _. apply HQ; [done|]. by apply here_intro.
Qed.

Lemma wpc_write fd b path pos content db F D s (Q : Z -> state -> Prop) (C : disk -> Prop) :
  here db F D s -> C F -> D !! fd = Some (path, pos) -> F !! path = Some content -> (pos <= length content)%nat ->
  (forall s', here db (<[path := overwrite content pos b]> F) (<[fd := (path, (pos + length b)%nat)]> D) s' ->
     Q (Z.of_nat (length b)) s') ->
  wpc (call (UtilsFileWrite fd b)) s Q C.
Proof.
  intros Hs HC Hd Hc Hpos HQ. eapply wpc_call; [exact Hs|]. intros r w' E.
  pose proof (write_ok fd b (world_of s)) as Hl. rewrite E in Hl. fold (sees s) in Hl. rewrite (here_sees _ _ _ _ Hs) in Hl.
  destruct Hl as [(Hneg & [(_ & Hf & _ & Hh)|(Hn & Hv)])|[(p & q & c & _ & Hd' & Hc' & _ & -> & Hv)|(p & q & c & _ & Hd' & Hc' & Hlt & _)]];
    simpl in *.
  - split_and!; [by rewrite Hf|done|done].
  - unfold no_file in Hn. simpl in Hn. rewrite Hd in Hn. congruence.
  - simplify_eq. rewrite Hv. split_and!; [done| |done]. intros _ _. apply HQ. by apply here_intro.
  - simplify_eq. lia.
Qed.

(** Moving inside the file; past its end the call may refuse. *)
Lemma wpc_seek fd off wh path pos content db F D s (Q : Z -> state -> Prop) (C : disk -> Prop) :
  here db F D s -> C F -> D !! fd = Some (path, pos) -> F !! path = Some content ->
  0 <= target wh pos (length content) off ->
  (forall s' t, t = target wh pos (length content) off ->
     here db F (<[fd := (path, Z.to_nat t)]> D) s' -> Q t s') ->
  (forall s' r, r < 0 -> Z.of_nat (length content) < target wh pos (length content) off -> here db F D s' -> Q r s') ->
  wpc (call (UtilsFileSeek fd off wh)) s Q C.
Proof.
  intros Hs HC Hd Hc Ht HQ HQ'. eapply wpc_call; [exact Hs|]. intros r w' E.
  pose proof (seek_ok fd off wh (world_of s)) as Hl. rewrite E in Hl. fold (sees s) in Hl. rewrite (here_sees _ _ _ _ Hs) in Hl.
  destruct Hl as [(Hneg & [(_ & Hf & _ & Hh)|(Hn & Hv)])|(p & q & c & _ & Hd' & Hc' & [(_ & -> & Hv)|(Hr & Hpast & Hv)])];
    simpl in *.
  - split_and!; [by rewrite Hf|done|done].
  - unfold no_file in Hn. simpl in Hn. rewrite Hd in Hn. congruence.
  - simplify_eq. rewrite Hv. split_and!; [done| |done]. intros _ _. apply HQ; [done|]. by apply here_intro.
  - simplify_eq. rewrite Hv. split_and!; [done| |done]. intros _ _. apply HQ'; [done|lia|]. by apply here_intro.
Qed.

Lemma wpc_delete path db F D s (Q : Z -> state -> Prop) (C : disk -> Prop) :
  here db F D s -> C F -> is_Some (F !! path) ->
  (forall s', here db (delete path F) D s' -> Q 0 s') -> wpc (call (UtilsFileDelete path)) s Q C.
Proof.
  intros Hs HC Hp HQ. eapply wpc_call; [exact Hs|]. intros r w' E.
  pose proof (delete_ok path (world_of s)) as Hl. rewrite E in Hl. fold (sees s) in Hl. rewrite (here_sees _ _ _ _ Hs) in Hl.
  destruct Hl as [(Hneg & [(_ & Hf & _ & Hh)|(Hn & Hv)])|(-> & _ & _ & Hv)]; simpl in *.
  - split_and!; [by rewrite Hf|done|done].
  - rewrite Hn in Hp. by destruct Hp.
  - rewrite Hv. split_and!; [done| |done]. intros _ _. apply HQ. by apply here_intro.
Qed.

Lemma wpc_stat path content db F D s (Q : Z * Z -> state -> Prop) (C : disk -> Prop) :
  here db F D s -> C F -> F !! path = Some content ->
  (forall s', here db F D s' -> Q (0, Z.of_nat (length content)) s') ->
  wpc (call (fun w => let '(r, n, w) := UtilsFileStat path w in (r, n, w))) s Q C.
Proof.
  intros Hs HC Hp HQ. eapply wpc_call; [exact Hs|]. intros [r n] w' E.
  pose proof (stat_ok path (world_of s)) as Hl. destruct (UtilsFileStat path (world_of s)) as [[r' n'] w''].
  simplify_eq. fold (sees s) in Hl. rewrite (here_sees _ _ _ _ Hs) in Hl.
  destruct Hl as [(Hneg & [(_ & Hf & _ & Hh)|(Hn & Hv)])|(-> & c & _ & Hc & -> & Hv)]; simpl in *.
  - split_and!; [by rewrite Hf|done|done].
  - congruence.
  - simplify_eq. rewrite Hv. split_and!; [done| |done]. intros _ _. apply HQ. by apply here_intro.
Qed.

Lemma wpc_copy src dest content db F D s (Q : Z -> state -> Prop) (C : disk -> Prop) :
  here db F D s -> C F -> (forall n, C (<[dest := take n content]> F)) -> F !! src = Some content ->
  (forall s' r, 0 <= r -> here db (<[dest := content]> F) D s' -> Q r s') ->
  wpc (call (UtilsFileCopy src dest)) s Q C.
Proof.
  intros Hs HC HCn Hp HQ. eapply wpc_call; [exact Hs|]. intros r w' E.
  pose proof (copy_ok src dest (world_of s)) as Hl. rewrite E in Hl. fold (sees s) in Hl. rewrite (here_sees _ _ _ _ Hs) in Hl.
  destruct Hl as [(Hneg & [(_ & Hf & _ & Hh)|[(Hn & Hv)|(c & n & _ & Hc & Hv)]])|(Hr & c & _ & Hc & Hv)]; simpl in *.
  - split_and!; [by rewrite Hf|done|done].
  - congruence.
  - simplify_eq. rewrite Hv. split_and!; [intros _; apply HCn|done|done].
  - simplify_eq. rewrite Hv. split_and!; [done| |done]. intros _ _. apply (HQ _ r); [done|]. by apply here_intro.
Qed.
End Logic.

(** ** Every function is without effect once the power is gone *)
Create HintDb inert.
#[export] Hint Resolve inert_ret inert_handle inert_set_handle inert_parsed inert_malloc inert_open inert_close
  inert_seek inert_delete inert_copy inert_read inert_stat inert_write : inert.

Ltac inert_step :=
  lazymatch goal with
  | |- inert (mbind _ _) => apply inert_bind; [|intros ?]
  | |- inert (match ?x with _ => _ end) => destruct x
  | |- inert _ => solve [auto with inert]
  end.
Ltac solve_inert := intros; repeat inert_step.

Section Inert.
Context `{UtilsFileLaws}.

Lemma inert_FileReadCursor fd off wh n : inert (FileReadCursor fd off wh n).
Proof. unfold FileReadCursor. solve_inert. Qed.
Lemma inert_FileWriteCursor fd off wh b : inert (FileWriteCursor fd off wh b).
Proof. unfold FileWriteCursor. solve_inert. Qed.
#[local] Hint Resolve inert_FileReadCursor inert_FileWriteCursor : inert.

Lemma inert_OpenSumFile mode : inert (OpenSumFile mode).
Proof. unfold OpenSumFile. solve_inert. Qed.
Lemma inert_LoadDataItem i item : inert (LoadDataItem i item).
Proof. unfold LoadDataItem. solve_inert. Qed.
Lemma inert_DeleteValueFromFile name : inert (DeleteValueFromFile name).
Proof. unfold DeleteValueFromFile. solve_inert. Qed.
Lemma inert_IsNewItem name : inert (IsNewItem name).
Proof. unfold IsNewItem. solve_inert. Qed.
#[local] Hint Resolve inert_OpenSumFile inert_LoadDataItem inert_DeleteValueFromFile inert_IsNewItem : inert.

Lemma inert_delete_existing name : inert (delete_existing name).
Proof. unfold delete_existing. solve_inert. Qed.
Lemma inert_CopyValueToFile src dest : inert (CopyValueToFile src dest).
Proof. unfold CopyValueToFile. solve_inert. Qed.
#[local] Hint Resolve inert_delete_existing inert_CopyValueToFile : inert.

Lemma inert_DelItem item : inert (DelItem item).
Proof. unfold DelItem. solve_inert. Qed.
Lemma inert_RecoverItem item : inert (RecoverItem item).
Proof. unfold RecoverItem. solve_inert. Qed.
#[local] Hint Resolve inert_DelItem inert_RecoverItem : inert.

Lemma inert_CheckPointItem item : inert (CheckPointItem item).
Proof. unfold CheckPointItem. solve_inert. Qed.
#[local] Hint Resolve inert_CheckPointItem : inert.

Lemma inert_vacuum_loop n : forall i item ret, inert (vacuum_loop n i item ret).
Proof. induction n as [|n IH]; intros; cbn [vacuum_loop]; solve_inert. Qed.
#[local] Hint Resolve inert_vacuum_loop : inert.

Lemma inert_VacuumStore : inert VacuumStore.
Proof. unfold VacuumStore. solve_inert. Qed.
Lemma inert_SetSumIndexToFile n : inert (SetSumIndexToFile n).
Proof. unfold SetSumIndexToFile. solve_inert. Qed.
#[local] Hint Resolve inert_VacuumStore inert_SetSumIndexToFile : inert.

Lemma inert_SetSumIndex : inert SetSumIndex.
Proof. unfold SetSumIndex. solve_inert. Qed.
#[local] Hint Resolve inert_SetSumIndex : inert.
Lemma inert_CheckPoint : inert CheckPoint.
Proof. unfold CheckPoint. solve_inert. Qed.
Lemma inert_SetSumFlag b : inert (SetSumFlag b).
Proof. unfold SetSumFlag. solve_inert. Qed.
#[local] Hint Resolve inert_SetSumFlag : inert.
Lemma inert_LoadSumFileHeader : inert LoadSumFileHeader.
Proof. unfold LoadSumFileHeader. solve_inert. Qed.
#[local] Hint Resolve inert_CheckPoint inert_LoadSumFileHeader : inert.
Lemma inert_InitKVStore : inert InitKVStore.
Proof. unfold InitKVStore. solve_inert. Qed.
Lemma inert_ReleaseKVDBHandle : inert ReleaseKVDBHandle.
Proof. unfold ReleaseKVDBHandle. solve_inert. Qed.

Lemma inert_IsDataItemMatched name i : inert (IsDataItemMatched name i).
Proof. unfold IsDataItemMatched. solve_inert. Qed.
#[local] Hint Resolve inert_IsDataItemMatched inert_ReleaseKVDBHandle : inert.
Lemma inert_IsNeedTransferValue name b : inert (IsNeedTransferValue name b).
Proof. unfold IsNeedTransferValue. solve_inert. Qed.
#[local] Hint Resolve inert_IsNeedTransferValue : inert.
Lemma inert_GetValueByFile name keyGet len : inert (GetValueByFile name keyGet len).
Proof. unfold GetValueByFile. solve_inert. Qed.
Lemma inert_SetValueToFile name b : inert (SetValueToFile name b).
Proof. unfold SetValueToFile. solve_inert. Qed.
Lemma inert_WriteNewItemToSumFile item : inert (WriteNewItemToSumFile item).
Proof. unfold WriteNewItemToSumFile. solve_inert. Qed.
Lemma inert_BackupItem item : inert (BackupItem item).
Proof. unfold BackupItem. solve_inert. Qed.
#[local] Hint Resolve inert_GetValueByFile inert_SetValueToFile inert_WriteNewItemToSumFile inert_BackupItem : inert.
Lemma inert_InsertKV item value : inert (InsertKV item value).
Proof. unfold InsertKV. solve_inert. Qed.
Lemma inert_UpdateKV item value : inert (UpdateKV item value).
Proof. unfold UpdateKV. solve_inert. Qed.
Lemma inert_search_item n : forall i name itemIndex, inert (search_item n i name itemIndex).
Proof. induction n as [|n IH]; intros; cbn [search_item]; solve_inert. Qed.
#[local] Hint Resolve inert_InsertKV inert_UpdateKV inert_search_item : inert.
Lemma inert_AddNewDataItem item : inert (AddNewDataItem item).
Proof. unfold AddNewDataItem. solve_inert. Qed.
#[local] Hint Resolve inert_AddNewDataItem : inert.
Lemma inert_FindDataItem item b : inert (FindDataItem item b).
Proof. unfold FindDataItem. solve_inert. Qed.
#[local] Hint Resolve inert_FindDataItem : inert.
Lemma inert_PrePut item b : inert (PrePut item b).
Proof. unfold PrePut. solve_inert. Qed.
Lemma inert_ExeDelete item b : inert (ExeDelete item b).
Proof. unfold ExeDelete. solve_inert. Qed.
Lemma inert_CloseKVStore : inert CloseKVStore.
Proof. unfold CloseKVStore. solve_inert. Qed.
#[local] Hint Resolve inert_CloseKVStore : inert.
Lemma inert_DBM_CloseKVStore : inert DBM_CloseKVStore.
Proof. unfold DBM_CloseKVStore. solve_inert. Qed.
#[local] Hint Resolve inert_PrePut inert_ExeDelete : inert.
Lemma inert_DBM_Get name n : inert (DBM_Get name n).
Proof. unfold DBM_Get, Get. solve_inert. Qed.
Lemma inert_DBM_Put name b : inert (DBM_Put name b).
Proof. unfold DBM_Put, Put. solve_inert. Qed.
Lemma inert_DBM_Delete name : inert (DBM_Delete name).
Proof. unfold DBM_Delete, Delete. solve_inert. Qed.
End Inert.

#[export] Hint Resolve inert_FileReadCursor inert_FileWriteCursor inert_OpenSumFile inert_LoadDataItem
  inert_DeleteValueFromFile inert_IsNewItem inert_delete_existing inert_CopyValueToFile inert_DelItem
  inert_RecoverItem inert_CheckPointItem inert_vacuum_loop inert_VacuumStore inert_SetSumIndexToFile
  inert_SetSumIndex inert_CheckPoint inert_SetSumFlag inert_LoadSumFileHeader inert_InitKVStore
  inert_ReleaseKVDBHandle inert_IsDataItemMatched inert_IsNeedTransferValue inert_GetValueByFile
  inert_SetValueToFile inert_WriteNewItemToSumFile inert_BackupItem inert_InsertKV inert_UpdateKV
  inert_search_item inert_AddNewDataItem inert_FindDataItem inert_PrePut inert_ExeDelete inert_CloseKVStore inert_DBM_CloseKVStore
  inert_DBM_Get inert_DBM_Put inert_DBM_Delete : inert.

(** * What the helpers of the DBM store do to the files

    With the sum file open and nothing else: rules for reading and writing at a
    position of the sum file, and for the value files. *)

Definition sum_path (db : DBM) : string := ItemPathFormat db KV_SUM_FILE.

(** A name whose path fits the buffers. *)
Definition fits (db : DBM) (name : string) : Prop :=
  (String.length (ItemPathFormat db name) < MAX_KEY_PATH + 1)%nat.

Lemma sprintf_fits db name :
  fits db name -> sprintf_s (MAX_KEY_PATH + 1) (ItemPathFormat db name) = Some (ItemPathFormat db name).
Proof. intros Hf. unfold sprintf_s. by rewrite (proj2 (Nat.ltb_lt _ _) Hf). Qed.

Ltac wbind := apply wpc_bind; [solve_inert|].

Section Files.
Context `{UtilsFileLaws} (h0 : condition) (Hh0 : h0 <> Dead).

Abbreviation disk := (gmap string (list byte)).
Abbreviation pth db name := (ItemPathFormat db name).

Definition at_pos (db : DBM) (F : disk) (pos : nat) (s : state) : Prop :=
  here h0 db F {[sumFileFd db := (sum_path db, pos)]} s.
Definition at_ (db : DBM) (F : disk) (s : state) : Prop := exists pos, at_pos db F pos s.

Lemma wpc_at_ret {A} (a : A) db F s Q C : at_ db F s -> Q a s -> wpc (mret a) s Q C.
Proof. intros [pos Hs] HQ. eapply wpc_here_ret; done. Qed.
Lemma wpc_at_handle db F s (Q : DBM -> state -> Prop) C : at_ db F s -> Q db s -> wpc handle s Q C.
Proof. intros [pos Hs] HQ. eapply wpc_handle; done. Qed.
Lemma wpc_at_set_handle f db F s (Q : () -> state -> Prop) C :
  at_ db F s -> sumFileFd (f db) = sumFileFd db -> sum_path (f db) = sum_path db ->
  (forall s', at_ (f db) F s' -> Q () s') -> wpc (set_handle f) s Q C.
Proof.
  intros [pos Hs] Hf Hp HQ. eapply wpc_set_handle; [done|exact Hs|]. intros s' Hs'. apply HQ. exists pos.
  unfold at_pos. by rewrite Hf, Hp.
Qed.
Lemma wpc_at_malloc db F s (Q : bool -> state -> Prop) (C : disk -> Prop) :
  at_ db F s -> C F -> (forall s', at_ db F s' -> Q true s') -> wpc (call malloc) s Q C.
Proof.
  intros [pos Hs] HC HQ. eapply wpc_malloc; [exact Hs|done|]. intros s' Hs'. apply HQ. by exists pos.
Qed.

(** ** The sum file *)
Lemma FileReadCursor_ok off n c db F s Q (C : disk -> Prop) :
  at_ db F s -> C F -> F !! sum_path db = Some c ->
  (forall s' r, 0 <= r -> at_ db F s' -> Q (r, segment c off n) s') ->
  wpc (FileReadCursor (sumFileFd db) (Z.of_nat off) SEEK_SET_FS n) s Q C.
Proof.
  intros [pos Hs] HC Hc HQ. unfold FileReadCursor.
  wbind. eapply wpc_seek; [exact Hs|done|apply lookup_singleton_eq|exact Hc|simpl; lia| |].
  - simpl. intros s1 t -> Hs1. rewrite insert_singleton_eq, Nat2Z.id in Hs1.
    rewrite (proj2 (Z.ltb_ge _ _)) by lia.
    wbind. eapply wpc_read; [exact Hs1|done|apply lookup_singleton_eq|exact Hc|].
    intros s2 b -> Hs2. rewrite insert_singleton_eq in Hs2. cbn iota beta. rewrite (proj2 (Z.ltb_ge _ _)) by lia.
    eapply wpc_here_ret; [done|exact Hs2|]. apply HQ; [lia|]. by eexists.
  - simpl. intros s1 r Hr Hp Hs1. rewrite (proj2 (Z.ltb_lt _ _)) by lia.
    wbind. eapply wpc_seek; [exact Hs1|done|apply lookup_singleton_eq|exact Hc|simpl; lia| |].
    + simpl. intros s2 t -> Hs2. rewrite insert_singleton_eq in Hs2.
      assert (Hseg : segment c off n = []).
      { unfold segment. rewrite drop_ge by lia. by rewrite take_nil. }
      eapply wpc_here_ret; [done|exact Hs2|]. rewrite <- Hseg. apply HQ; [lia|]. by eexists.
    + simpl. intros s2 r' Hr' Hp'. lia.
Qed.

Lemma FileWriteCursor_pos off b c db F s Q (C : disk -> Prop) :
  at_ db F s -> C F -> F !! sum_path db = Some c -> (off <= length c)%nat ->
  (forall s', at_pos db (<[sum_path db := overwrite c off b]> F) (off + length b) s' -> Q (Z.of_nat (length b)) s') ->
  wpc (FileWriteCursor (sumFileFd db) (Z.of_nat off) SEEK_SET_FS b) s Q C.
Proof.
  intros [pos Hs] HC Hc Hoff HQ. unfold FileWriteCursor.
  wbind. eapply wpc_seek; [exact Hs|done|apply lookup_singleton_eq|exact Hc|simpl; lia| |].
  - simpl. intros s1 t -> Hs1. rewrite insert_singleton_eq, Nat2Z.id in Hs1.
    rewrite (proj2 (Z.ltb_ge _ _)) by lia.
    wbind. eapply wpc_write; [exact Hh0|exact Hs1|done|apply lookup_singleton_eq|exact Hc|done|].
    intros s2 Hs2. rewrite insert_singleton_eq in Hs2. rewrite (proj2 (Z.ltb_ge _ _)) by lia.
    eapply wpc_here_ret; [done|exact Hs2|]. by apply HQ.
  - simpl. intros s1 r Hr Hp. lia.
Qed.

Lemma FileWriteCursor_ok off b c db F s (Q : Z -> state -> Prop) (C : disk -> Prop) :
  at_ db F s -> C F -> F !! sum_path db = Some c -> (off <= length c)%nat ->
  (forall s' r, 0 <= r -> at_ db (<[sum_path db := overwrite c off b]> F) s' -> Q r s') ->
  wpc (FileWriteCursor (sumFileFd db) (Z.of_nat off) SEEK_SET_FS b) s Q C.
Proof.
  intros Hs HC Hc Hoff HQ. eapply FileWriteCursor_pos; try done. intros s' Hs'. apply HQ; [lia|]. by eexists.
Qed.

Lemma FileWriteCursor_cur pos b c db F s (Q : Z -> state -> Prop) (C : disk -> Prop) :
  at_pos db F pos s -> C F -> F !! sum_path db = Some c -> (pos <= length c)%nat ->
  (forall s' r, 0 <= r -> at_ db (<[sum_path db := overwrite c pos b]> F) s' -> Q r s') ->
  wpc (FileWriteCursor (sumFileFd db) 0 SEEK_CUR_FS b) s Q C.
Proof.
  intros Hs HC Hc Hoff HQ. unfold FileWriteCursor.
  wbind. eapply wpc_seek; [exact Hs|done|apply lookup_singleton_eq|exact Hc|simpl; lia| |].
  - cbn [target]. intros s1 t -> Hs1. rewrite insert_singleton_eq, Z.add_0_r, Nat2Z.id in Hs1.
    rewrite (proj2 (Z.ltb_ge _ _)) by lia.
    wbind. eapply wpc_write; [exact Hh0|exact Hs1|done|apply lookup_singleton_eq|exact Hc|done|].
    intros s2 Hs2. rewrite insert_singleton_eq in Hs2. rewrite (proj2 (Z.ltb_ge _ _)) by lia.
    eapply wpc_here_ret; [done|exact Hs2|]. apply HQ; [lia|]. by eexists.
  - cbn [target]. intros s1 r Hr Hp. lia.
Qed.

(** ** The value files *)
Lemma IsNewItem_ok name db F s (Q : bool -> state -> Prop) (C : disk -> Prop) :
  at_ db F s -> C F -> fits db name ->
  (forall s', at_ db F s' -> Q (bool_decide (F !! pth db name = None)) s') -> wpc (IsNewItem name) s Q C.
Proof.
  intros [pos Hs] HC Hf HQ. unfold IsNewItem. wbind. eapply wpc_handle; [done|exact Hs|].
  rewrite (sprintf_fits _ _ Hf). wbind. destruct (F !! pth db name) as [c|] eqn:E.
  - eapply wpc_open; [exact Hh0|exact Hs|done|left; by rewrite E|]. intros s1 fd Hfd Hn Hs1.
    rewrite (proj2 (Z.ltb_ge _ _)) by lia. rewrite E in Hs1. cbn in Hs1.
    wbind. eapply wpc_close; [exact Hs1|done|by rewrite lookup_insert_eq|].
    intros s2 r _ Hs2. rewrite delete_insert_id in Hs2 by done.
    eapply wpc_here_ret; [done|exact Hs2|]. rewrite bool_decide_false in HQ by done. apply HQ. by eexists.
  - eapply wpc_open_absent; [exact Hs|done|done|done|]. intros s1 r Hr Hs1.
    rewrite (proj2 (Z.ltb_lt _ _)) by lia. eapply wpc_here_ret; [done|exact Hs1|].
    rewrite bool_decide_true in HQ by done. apply HQ. by eexists.
Qed.

Lemma DbmDeleteValue_ok name db F s (Q : Z -> state -> Prop) (C : disk -> Prop) :
  at_ db F s -> C F -> fits db name -> is_Some (F !! pth db name) ->
  (forall s', at_ db (delete (pth db name) F) s' -> Q DBM_OK s') -> wpc (DeleteValueFromFile name) s Q C.
Proof.
  intros [pos Hs] HC Hf Hsome HQ. unfold DeleteValueFromFile. wbind. eapply wpc_handle; [done|exact Hs|].
  rewrite (sprintf_fits _ _ Hf). wbind. eapply wpc_delete; [exact Hh0|exact Hs|done|done|].
  intros s1 Hs1. eapply wpc_here_ret; [done|exact Hs1|]. apply HQ. by eexists.
Qed.

Lemma delete_existing_ok name db F s (Q : bool -> state -> Prop) (C : disk -> Prop) :
  at_ db F s -> C F -> fits db name ->
  (forall s', at_ db (delete (pth db name) F) s' -> Q true s') -> wpc (delete_existing name) s Q C.
Proof.
  intros Hs HC Hf HQ. unfold delete_existing. wbind. eapply IsNewItem_ok; [exact Hs|done|done|].
  intros s1 Hs1. case_bool_decide as E.
  - eapply wpc_at_ret; [exact Hs1|]. apply HQ. by rewrite delete_id.
  - wbind. eapply DbmDeleteValue_ok; [exact Hs1|done|done|by apply not_eq_None_Some|].
    intros s2 Hs2. eapply wpc_at_ret; [exact Hs2|]. by apply HQ.
Qed.

Lemma CopyValueToFile_ok src dest c db F s (Q : Z -> state -> Prop) (C : disk -> Prop) :
  at_ db F s -> C F -> (forall n, C (<[pth db dest := take n c]> F)) -> fits db src -> fits db dest ->
  F !! pth db src = Some c ->
  (forall s', at_ db (<[pth db dest := c]> F) s' -> Q DBM_OK s') -> wpc (CopyValueToFile src dest) s Q C.
Proof.
  intros [pos Hs] HC HCn Hf Hf' Hsrc HQ. unfold CopyValueToFile. wbind. eapply wpc_handle; [done|exact Hs|].
  rewrite (sprintf_fits _ _ Hf), (sprintf_fits _ _ Hf'). wbind.
  eapply wpc_copy; [exact Hh0|exact Hs|done|exact HCn|done|].
  intros s1 r Hr Hs1. rewrite (proj2 (Z.ltb_ge _ _)) by lia.
  eapply wpc_here_ret; [done|exact Hs1|]. apply HQ. by eexists.
Qed.

Lemma DbmSetValue_ok name buf db F s (Q : Z -> state -> Prop) (C : disk -> Prop) :
  at_ db F s -> C F -> C (<[pth db name := []]> F) -> C (<[pth db name := buf]> F) -> fits db name ->
  (forall s', at_ db (<[pth db name := buf]> F) s' -> Q DBM_OK s') -> wpc (SetValueToFile name buf) s Q C.
Proof.
  intros [pos Hs] HC HC0 HC1 Hf HQ. unfold SetValueToFile. wbind. eapply wpc_malloc; [exact Hs|done|].
  intros s1 Hs1. cbn [negb]. wbind. eapply wpc_handle; [done|exact Hs1|]. rewrite (sprintf_fits _ _ Hf).
  wbind. eapply wpc_open; [exact Hh0|exact Hs1|done|by right|]. intros s2 fd Hfd Hn Hs2. cbn [o_trunc O_RDWR_CREAT_TRUNC_FS orb] in Hs2.
  rewrite (proj2 (Z.ltb_ge _ _)) by lia.
  wbind. eapply wpc_write; [exact Hh0|exact Hs2|done|by rewrite lookup_insert_eq|by rewrite lookup_insert_eq|simpl; lia|].
  intros s3 Hs3. assert (Hov : overwrite [] 0 buf = buf).
  { unfold overwrite. simpl. by rewrite drop_nil, app_nil_r. }
  rewrite Hov, !insert_insert_eq in Hs3.
  wbind. eapply wpc_close; [exact Hs3|done|by rewrite lookup_insert_eq|]. intros s4 r _ Hs4.
  rewrite delete_insert_id in Hs4 by done. rewrite (proj2 (Z.ltb_ge _ _)) by lia.
  eapply wpc_here_ret; [done|exact Hs4|]. apply HQ. by eexists.
Qed.
End Files.
