(* ===== verification/DbmLayout.v ===== *)
(** * The files of a DBM store and the map they stand for

    Which files a store consists of, with the sum file as a list of slots: what holds
    between operations, what holds in the middle of one, and after the repair. *)
From S2P Require Import Prelude Memory KvCache UtilsFile DbmStore DbmLogic.
From Stdlib Require Import Ascii.

#[local] Open Scope list_scope.

(** * The layout of the sum file

    A header of 20 bytes, an item of 44 bytes for every slot, and what an interrupted
    extension left at the end. An empty slot is one with an empty key. *)

(** ** Reading and writing parts of a list *)
Lemma overwrite_app_r a b pos c :
  (length a <= pos)%nat -> overwrite (a ++ b) pos c = a ++ overwrite b (pos - length a) c.
Proof.
  intros Hl. unfold overwrite. rewrite take_app, drop_app.
  rewrite (take_ge a) by lia. rewrite (drop_ge a) by lia. rewrite <- app_assoc. simpl.
  do 4 f_equal. lia.
Qed.

Lemma overwrite_app_l a b pos c :
  (pos + length c <= length a)%nat -> overwrite (a ++ b) pos c = overwrite a pos c ++ b.
Proof.
  intros Hl. unfold overwrite. rewrite take_app_le by lia. rewrite drop_app_le by lia.
  by rewrite <- !app_assoc.
Qed.

Lemma overwrite_length l pos b : (pos + length b <= length l)%nat -> length (overwrite l pos b) = length l.
Proof. intros Hl. unfold overwrite. rewrite !length_app, length_take, length_drop. lia. Qed.

Lemma segment_app_r a b pos n :
  (length a <= pos)%nat -> segment (a ++ b) pos n = segment b (pos - length a) n.
Proof. intros Hl. unfold segment. rewrite drop_app, (drop_ge a) by lia. done. Qed.

Lemma segment_app_l a b pos n : (pos + n <= length a)%nat -> segment (a ++ b) pos n = segment a pos n.
Proof.
  intros Hl. unfold segment. rewrite drop_app_le by lia. rewrite take_app_le; [done|]. rewrite length_drop. lia.
Qed.

(** ** Strings in buffers *)
(** Comparing a name with the string in a buffer that has a NUL. *)
Lemma IsStrSame_spec l name :
  zero ∈ l -> no_nul name -> IsStrSame l (String.length name + 1) name = bool_decide (c_string l = name).
Proof.
  intros Hz Hn. unfold IsStrSame. rewrite Nat.eqb_refl. cbn [andb]. apply bool_decide_ext. split.
  - intros E. rewrite <- (take_drop (String.length name + 1) l), E, <- app_assoc. simpl. by apply c_string_bytes.
  - intros <-. destruct (c_string_inv l Hz) as [rest E]. rewrite E at 2. 
    replace (bytes_of (c_string l) ++ zero :: rest) with ((bytes_of (c_string l) ++ [zero]) ++ rest)
      by (by rewrite <- app_assoc).
    rewrite take_app_length'; [done|]. rewrite length_app, length_bytes_of. simpl. lia.
Qed.

(** ** Slots *)
Record slot := mkSlot { s_valid : bool; s_bak : bool; s_key : string }.
Definition free_slot : slot := mkSlot false false "".
#[global] Instance slot_eq : EqDecision slot.
Proof. solve_decision. Defined.

Definition bflag (b : bool) : byte := if b then one else zero.
Definition slot_bytes (s : slot) : list byte :=
  [zero; bflag (s_valid s); bflag (s_bak s); zero] ++ zeros 4 ++ buffer 32 (bytes_of (s_key s)) ++ bytes_of KV_MAGIC.

(** A key that fits its field. *)
Definition short (k : string) : Prop := (String.length k < 32)%nat /\ no_nul k.

Lemma slot_bytes_length s : length (slot_bytes s) = 44%nat.
Proof. unfold slot_bytes. rewrite !length_app, buffer_length. done. Qed.

Fixpoint slots_bytes (sl : list slot) : list byte :=
  match sl with [] => [] | s :: sl => slot_bytes s ++ slots_bytes sl end.
Definition sum_bytes (hdr : list byte) (sl : list slot) (junk : list byte) : list byte :=
  hdr ++ slots_bytes sl ++ junk.

Lemma slots_bytes_length sl : length (slots_bytes sl) = (44 * length sl)%nat.
Proof. induction sl as [|s sl IH]; [done|]. cbn [slots_bytes length]. rewrite length_app, slot_bytes_length. lia. Qed.
Lemma slots_bytes_app sl1 sl2 : slots_bytes (sl1 ++ sl2) = slots_bytes sl1 ++ slots_bytes sl2.
Proof. induction sl1 as [|s sl1 IH]; [done|]. simpl. by rewrite IH, app_assoc. Qed.

Lemma sum_bytes_split hdr sl junk i s :
  sl !! i = Some s ->
  sum_bytes hdr sl junk =
    (hdr ++ slots_bytes (take i sl)) ++ slot_bytes s ++ slots_bytes (drop (S i) sl) ++ junk.
Proof.
  intros Hi. unfold sum_bytes. rewrite <- (take_drop_middle sl i s Hi) at 1.
  rewrite slots_bytes_app. cbn [slots_bytes]. by rewrite <- !app_assoc.
Qed.

(** The place of an item. *)
Definition place (i : nat) : nat := 20 + 44 * i.
Lemma place_offset i : GetKeyItemOffset (Z.of_nat i) = Z.of_nat (place i).
Proof. unfold GetKeyItemOffset, place, SUM_FILE_HEADER_SIZE, KV_SUM_DATA_ITEM_SIZE. lia. Qed.

Section Layout.
Context (hdr : list byte) (Hhdr : length hdr = 20%nat).
Implicit Types (sl : list slot) (junk : list byte).

Lemma sum_length sl junk : length (sum_bytes hdr sl junk) = (place (length sl) + length junk)%nat.
Proof. unfold sum_bytes, place. rewrite !length_app, slots_bytes_length. lia. Qed.

Lemma prefix_length sl i : (i <= length sl)%nat -> length (hdr ++ slots_bytes (take i sl)) = place i.
Proof. intros Hi. rewrite length_app, slots_bytes_length, length_take. unfold place. lia. Qed.

Lemma segment_slot sl junk i s :
  sl !! i = Some s -> segment (sum_bytes hdr sl junk) (place i) 44 = slot_bytes s.
Proof.
  intros Hi. pose proof (lookup_lt_Some _ _ _ Hi) as Hl. rewrite (sum_bytes_split _ _ _ _ _ Hi).
  rewrite segment_app_r by (rewrite prefix_length; lia). rewrite prefix_length, Nat.sub_diag by lia.
  rewrite segment_app_l by (rewrite slot_bytes_length; lia). unfold segment. rewrite drop_0.
  apply take_ge. rewrite slot_bytes_length. lia.
Qed.

Lemma segment_end sl junk i :
  (length sl <= i)%nat -> segment (sum_bytes hdr sl junk) (place i) 44 = segment junk (44 * (i - length sl)) 44.
Proof.
  intros Hi. unfold sum_bytes. rewrite app_assoc. rewrite segment_app_r.
  - f_equal. rewrite length_app, slots_bytes_length. unfold place. lia.
  - rewrite length_app, slots_bytes_length. unfold place. lia.
Qed.

(** Writing into an item. *)
Lemma overwrite_slot sl junk i s s' j b :
  sl !! i = Some s -> (j + length b <= 44)%nat -> overwrite (slot_bytes s) j b = slot_bytes s' ->
  overwrite (sum_bytes hdr sl junk) (place i + j) b = sum_bytes hdr (<[i := s']> sl) junk.
Proof.
  intros Hi Hj Hb. pose proof (lookup_lt_Some _ _ _ Hi) as Hl. rewrite (sum_bytes_split _ _ _ _ _ Hi).
  assert (Hi' : <[i := s']> sl !! i = Some s') by (by apply list_lookup_insert_eq).
  rewrite (sum_bytes_split _ _ _ _ _ Hi'). rewrite take_insert_ge, drop_insert_lt by lia.
  rewrite overwrite_app_r by (rewrite prefix_length; lia). rewrite prefix_length by lia.
  replace (place i + j - place i)%nat with j by lia.
  rewrite overwrite_app_l by (rewrite slot_bytes_length; lia). by rewrite Hb.
Qed.

(** Writing after the last item. *)
Lemma overwrite_end sl junk j b :
  overwrite (sum_bytes hdr sl junk) (place (length sl) + j) b = sum_bytes hdr sl (overwrite junk j b).
Proof.
  unfold sum_bytes. rewrite app_assoc. rewrite overwrite_app_r.
  - rewrite <- app_assoc. do 2 f_equal. f_equal. rewrite length_app, slots_bytes_length. unfold place. lia.
  - rewrite length_app, slots_bytes_length. unfold place. lia.
Qed.

Lemma overwrite_header sl junk j b :
  (j + length b <= 20)%nat -> overwrite (sum_bytes hdr sl junk) j b = sum_bytes (overwrite hdr j b) sl junk.
Proof. intros Hj. unfold sum_bytes. apply overwrite_app_l. lia. Qed.

Lemma junk_slot sl s : sum_bytes hdr sl (slot_bytes s) = sum_bytes hdr (sl ++ [s]) [].
Proof. unfold sum_bytes. rewrite slots_bytes_app. cbn [slots_bytes]. by rewrite !app_nil_r. Qed.
End Layout.

(** ** Changes of one item *)
Lemma slot_set_valid s : overwrite (slot_bytes s) 1 [one] = slot_bytes (mkSlot true (s_bak s) (s_key s)).
Proof. done. Qed.
Lemma slot_clear_valid s : overwrite (slot_bytes s) 1 (zeros 1) = slot_bytes (mkSlot false (s_bak s) (s_key s)).
Proof. done. Qed.
Lemma slot_set_bak s : overwrite (slot_bytes s) 2 [one] = slot_bytes (mkSlot (s_valid s) true (s_key s)).
Proof. done. Qed.
Lemma slot_clear_bak s : overwrite (slot_bytes s) 2 (zeros 1) = slot_bytes (mkSlot (s_valid s) false (s_key s)).
Proof. done. Qed.

Lemma slot_parts s : slot_bytes s =
  ([zero; bflag (s_valid s); bflag (s_bak s); zero] ++ zeros 4) ++ buffer 32 (bytes_of (s_key s)) ++ bytes_of KV_MAGIC.
Proof. done. Qed.

Lemma free_slot_bytes : slot_bytes free_slot = zeros 40 ++ bytes_of KV_MAGIC.
Proof. done. Qed.

Lemma slot_erase s : overwrite (slot_bytes s) 0 (zeros 40) = slot_bytes free_slot.
Proof.
  rewrite free_slot_bytes, slot_parts. unfold overwrite. rewrite take_0, app_nil_l. f_equal.
  rewrite app_assoc. apply drop_app_length'. rewrite !length_app, buffer_length. done.
Qed.

Lemma slot_set_key s k :
  overwrite (slot_bytes s) 8 (buffer 32 (bytes_of k)) = slot_bytes (mkSlot (s_valid s) (s_bak s) k).
Proof.
  rewrite !slot_parts. rewrite overwrite_app_r by (simpl; lia).
  change (8 - length ([zero; bflag (s_valid s); bflag (s_bak s); zero] ++ zeros 4))%nat with 0%nat.
  rewrite overwrite_app_l by (rewrite !buffer_length; lia). unfold overwrite. rewrite take_0, app_nil_l, buffer_length.
  rewrite (drop_ge (buffer 32 (bytes_of (s_key s)))) by (rewrite buffer_length; lia). by rewrite app_nil_r.
Qed.

Lemma slot_set_magic s : overwrite (slot_bytes s) 40 (bytes_of KV_MAGIC) = slot_bytes s.
Proof.
  rewrite slot_parts, app_assoc. rewrite overwrite_app_r by (rewrite !length_app, buffer_length; simpl; lia).
  rewrite !length_app, buffer_length. done.
Qed.

(** ** Names *)
(** A valid key that is not the name of a backup. *)
Definition plain (k : string) : Prop := IsValidKey k = true /\ forall k', k <> bak_name k'.

Lemma all_chars_bytes f k c : all_chars f k = true -> c ∈ bytes_of k -> f c = true.
Proof.
  unfold bytes_of. induction k as [|x k IH]; [by intros _ ?%not_elem_of_nil|]. simpl.
  intros [Hx Hk]%andb_prop [->|Hc]%elem_of_cons; [done|by apply IH].
Qed.

Lemma valid_parts k : IsValidKey k = true -> k <> "" /\ short k.
Proof.
  unfold IsValidKey, IsValidValue, strnlen. intros [Hv Hc]%andb_prop. apply negb_true_iff in Hv.
  apply orb_false_elim in Hv as [Hv Hl]. apply orb_false_elim in Hv as [He _].
  apply Nat.eqb_neq in He. apply Nat.leb_gt in Hl. unfold KvCache.MAX_KEY_LEN, KvCache.MAX_VALUE_LEN, short in *. split_and!.
  - by intros ->.
  - lia.
  - intros Hz. by apply (all_chars_bytes _ _ _ Hc) in Hz.
Qed.
Lemma plain_parts k : plain k -> k <> "" /\ short k.
Proof. intros [Hv _]. by apply valid_parts. Qed.

Lemma string_app_inj_l p s t : p +:+ s = p +:+ t -> s = t.
Proof. induction p as [|c p IH]; [done|]. simpl. intros [= E]. by apply IH. Qed.
Lemma bytes_of_app s t : bytes_of (s +:+ t) = bytes_of s ++ bytes_of t.
Proof. unfold bytes_of. induction s as [|c s IH]; [done|]. simpl. by rewrite IH. Qed.
Lemma bytes_of_inj s t : bytes_of s = bytes_of t -> s = t.
Proof.
  intros E. rewrite <- (String.string_of_list_ascii_of_string s), <- (String.string_of_list_ascii_of_string t).
  unfold bytes_of in E. by rewrite E.
Qed.
Lemma bak_name_inj k k' : bak_name k = bak_name k' -> k = k'.
Proof.
  intros E. apply bytes_of_inj. apply (f_equal bytes_of) in E. unfold bak_name in E. rewrite !bytes_of_app in E.
  by apply app_inv_tail in E.
Qed.

Lemma pth_inj db k k' : ItemPathFormat db k = ItemPathFormat db k' -> k = k'.
Proof. unfold ItemPathFormat. destruct (type db); repeat (intros E%string_app_inj_l; revert E); done. Qed.

(** The three kinds of files do not get in each other's way. *)
Definition first_char (s : string) : option ascii := match s with EmptyString => None | String c _ => Some c end.
Lemma plain_first k : plain k -> first_char k <> Some "K"%char /\ first_char k <> None.
Proof.
  intros [Hv _]. unfold IsValidKey in Hv. apply andb_prop in Hv as [Hv Hc]. destruct k as [|c k]; [done|].
  simpl in Hc. apply andb_prop in Hc as [Hc _]. split; [|done]. simpl. intros [= ->]. done.
Qed.
Lemma plain_not_sum db k : plain k -> ItemPathFormat db k <> sum_path db.
Proof. intros Hk E. apply pth_inj in E as ->. by destruct (plain_first _ Hk). Qed.
Lemma bak_not_sum db k : plain k -> ItemPathFormat db (bak_name k) <> sum_path db.
Proof.
  intros Hk E. apply pth_inj in E. destruct (plain_first _ Hk) as [H1 H2]. destruct k as [|c k]; [done|].
  simpl in E. by injection E as -> _.
Qed.
Lemma plain_not_bak db k k' : plain k -> ItemPathFormat db k <> ItemPathFormat db (bak_name k').
Proof. intros [_ Hk] E. apply pth_inj in E. by apply Hk in E. Qed.
Lemma plain_ne db k k' : k <> k' -> ItemPathFormat db k <> ItemPathFormat db k'.
Proof. intros Hk E. by apply pth_inj in E. Qed.
Lemma bak_ne db k k' : k <> k' -> ItemPathFormat db (bak_name k) <> ItemPathFormat db (bak_name k').
Proof. intros Hk E. apply pth_inj in E. by apply bak_name_inj in E. Qed.

(** ** Value files *)
Definition digits (i : nat) : list byte := buffer 4 (bytes_of (pretty (Z.of_nat i))).
Definition value_file (i : nat) (v : list byte) : list byte := digits i ++ v.
Definition good (v : list byte) : Prop := (1 <= length v <= MAX_VALUE_LEN)%nat.

Definition index_facts (i : nat) : Prop :=
  sprintf_d 4 (Z.of_nat i) = Some (digits i) /\ length (digits i) = 4%nat /\
  atoi (digits i) = Some (Z.of_nat i) /\ atoi (buffer 4 (take 3 (digits i))) = Some (Z.of_nat i).
Lemma index_facts_ok i : (i <= 45)%nat -> index_facts i.
Proof.
  intros Hi. assert (Hall : Forall (fun i => index_facts i) (seq 0 46)).
  { unfold index_facts. apply (bool_decide_unpack _). vm_compute. done. }
  rewrite Forall_forall in Hall. apply Hall. apply elem_of_seq. lia.
Qed.

(** ** The layout *)
Section Layout.
Context (db : DBM).
Abbreviation disk := (gmap string (list byte)).
Abbreviation pth name := (ItemPathFormat db name).
Implicit Types (F : disk) (m : gmap string (list byte)) (sl : list slot).

(** A slot with a valid key has its value in its file, or in the backup while the flag
    for that is set; an invalid one has no value. With [done] the slot has been
    repaired: there is no backup, except that of a value restored from it, whose slot was
    made invalid. *)
Definition slot_ok (done : bool) F m (i : nat) (s : slot) : Prop :=
  s = free_slot \/
  (plain (s_key s) /\
   match s_valid s, s_bak s with
   | true, false =>
       exists v, m !! s_key s = Some v /\ good v /\ F !! pth (s_key s) = Some (value_file i v) /\
         (done = true -> F !! pth (bak_name (s_key s)) = None)
   | true, true =>
       done = false /\
       exists v, m !! s_key s = Some v /\ good v /\ F !! pth (bak_name (s_key s)) = Some (value_file i v)
   | false, b =>
       if done then
         b = true /\ exists v, m !! s_key s = Some v /\ good v /\
           F !! pth (s_key s) = Some (value_file i v) /\ F !! pth (bak_name (s_key s)) = Some (value_file i v)
       else m !! s_key s = None
   end).

Record layout (done : nat -> bool) F (hdr : list byte) sl (junk : list byte) m : Prop := {
  ly_sum : F !! sum_path db = Some (sum_bytes hdr sl junk);
  ly_header : length hdr = 20%nat;
  ly_junk : (length junk < 44)%nat;
  ly_room : (length sl <= 45)%nat;
  ly_slots : forall i s, sl !! i = Some s -> slot_ok (done i) F m i s;
  ly_distinct : forall i j s s', sl !! i = Some s -> sl !! j = Some s' -> s_key s = s_key s' -> s_key s <> "" -> i = j;
  ly_absent : forall k, plain k -> (forall i s, sl !! i = Some s -> s_key s <> k) ->
    F !! pth k = None /\ F !! pth (bak_name k) = None /\ m !! k = None;
  ly_plain : forall k, is_Some (m !! k) -> plain k;
}.

Lemma slot_ok_key done F m i s : slot_ok done F m i s -> s_key s = "" -> s = free_slot.
Proof. intros [->|[Hp _]] He; [done|]. rewrite He in Hp. by destruct (plain_parts _ Hp). Qed.
Lemma slot_ok_plain done F m i s : slot_ok done F m i s -> s_key s <> "" -> plain (s_key s).
Proof. by intros [->|[Hp _]] He. Qed.
Lemma slot_ok_short done F m i s : slot_ok done F m i s -> short (s_key s).
Proof.
  intros [->|[Hp _]]; [|by apply plain_parts]. split; [simpl; lia|]. by intros ?%not_elem_of_nil.
Qed.

(** A slot keeps its meaning when only files and values of another key change. *)
Lemma slot_ok_frame done F F' m m' i s k :
  plain k -> s_key s <> k ->
  (forall p, p <> pth k -> p <> pth (bak_name k) -> p <> sum_path db -> F' !! p = F !! p) ->
  (forall k', k' <> k -> m' !! k' = m !! k') ->
  slot_ok done F m i s -> slot_ok done F' m' i s.
Proof.
  intros Hk Hne HF Hm [->|[Hp Hs]]; [by left|right]. split; [done|].
  rewrite (Hm _ Hne). rewrite (HF (pth (s_key s))), (HF (pth (bak_name (s_key s)))); [done|..].
  - intros E. by apply (plain_not_bak db k (s_key s)).
  - by apply bak_ne.
  - by apply bak_not_sum.
  - by apply plain_ne.
  - by apply plain_not_bak.
  - by apply plain_not_sum.
Qed.

(** Changing one slot, and files and values of its key only. *)
Lemma layout_update (done done' : nat -> bool) F F' hdr sl junk m m' k i s s' :
  layout done F hdr sl junk m -> plain k -> sl !! i = Some s ->
  s_key s = k \/ (s_key s = "" /\ forall j t, sl !! j = Some t -> s_key t <> k) ->
  F' !! sum_path db = Some (sum_bytes hdr (<[i := s']> sl) junk) ->
  (forall p, p <> pth k -> p <> pth (bak_name k) -> p <> sum_path db -> F' !! p = F !! p) ->
  (forall k', k' <> k -> m' !! k' = m !! k') ->
  (forall j, j <> i -> done' j = done j) ->
  (s_key s' = k /\ slot_ok (done' i) F' m' i s') \/
  (s' = free_slot /\ F' !! pth k = None /\ F' !! pth (bak_name k) = None /\ m' !! k = None) ->
  layout done' F' hdr (<[i := s']> sl) junk m'.
Proof.
  intros [Hsum Hh Hj Hr Hsl Hd Ha Hpl] Hk Hi Hkey HF' HF Hm Hdone Hs'.
  pose proof (lookup_lt_Some _ _ _ Hi) as Hlt.
  assert (Hothers : forall j t, j <> i -> sl !! j = Some t -> s_key t <> k).
  { intros j t Hji Ht E. destruct Hkey as [Hkey|[_ Hno]]; [|by apply (Hno j t)].
    apply Hji. apply (Hd j i t s Ht Hi); [by rewrite E|]. rewrite E. by destruct (plain_parts _ Hk). }
  assert (Hin : forall j t, <[i := s']> sl !! j = Some t -> (j = i /\ t = s') \/ (j <> i /\ sl !! j = Some t)).
  { intros j t Ht. destruct (decide (j = i)) as [->|Hji].
    - rewrite list_lookup_insert_eq in Ht by done. left. by simplify_eq.
    - rewrite list_lookup_insert_ne in Ht by done. by right. }
  split; try done.
  - by rewrite length_insert.
  - intros j t Ht. destruct (Hin _ _ Ht) as [[-> ->]|[Hji Ht']].
    + destruct Hs' as [[_ Hs']|[-> _]]; [done|by left].
    + rewrite (Hdone j Hji). eapply slot_ok_frame; [exact Hk|by eapply Hothers|exact HF|exact Hm|by apply Hsl].
  - intros j j' t t' Ht Ht' E Hne.
    assert (Hsk : s_key s' = k \/ s_key s' = "") by (destruct Hs' as [[? _]|[-> _]]; [by left|by right]).
    destruct (Hin _ _ Ht) as [[-> ->]|[Hji Htj]], (Hin _ _ Ht') as [[-> ->]|[Hji' Htj']]; [done| | |by eapply Hd].
    + exfalso. apply (Hothers j' t' Hji' Htj'). destruct Hsk; congruence.
    + exfalso. apply (Hothers j t Hji Htj). destruct Hsk; congruence.
  - intros k' Hk' Hno. destruct (decide (k' = k)) as [->|Hne].
    + destruct Hs' as [[Hsk _]|[_ Hab]]; [|done]. exfalso.
      apply (Hno i s'); [by apply list_lookup_insert_eq|done].
    + rewrite (Hm _ Hne). rewrite (HF (pth k')), (HF (pth (bak_name k'))); [apply Ha; [done|]|..].
      * intros j t Ht E. destruct (decide (j = i)) as [->|Hji].
        -- simplify_eq. destruct Hkey as [Hkey|[Hkey _]]; [congruence|].
           rewrite Hkey in Hk'. by destruct (plain_parts _ Hk').
        -- apply (Hno j t); [by rewrite list_lookup_insert_ne|done].
      * intros E. by apply (plain_not_bak db k k').
      * by apply bak_ne.
      * by apply bak_not_sum.
      * by apply plain_ne.
      * by apply plain_not_bak.
      * by apply plain_not_sum.
  - intros k' Hk'. destruct (decide (k' = k)) as [->|Hne]; [done|]. apply Hpl. by rewrite <- Hm.
Qed.

(** ** Changes of the sum file alone *)
Lemma slot_ok_sum done F F' m i s :
  (forall p, p <> sum_path db -> F' !! p = F !! p) -> slot_ok done F m i s -> slot_ok done F' m i s.
Proof.
  intros HF [->|[Hp Hs]]; [by left|right]. split; [done|].
  rewrite (HF (pth (s_key s))), (HF (pth (bak_name (s_key s)))); [done|by apply bak_not_sum|by apply plain_not_sum].
Qed.

Lemma layout_sum done F hdr hdr' sl junk junk' m :
  layout done F hdr sl junk m -> length hdr' = 20%nat -> (length junk' < 44)%nat ->
  layout done (<[sum_path db := sum_bytes hdr' sl junk']> F) hdr' sl junk' m.
Proof.
  intros [Hsum Hh Hj Hr Hsl Hd Ha Hpl] Hh' Hj'. split; try done.
  - by rewrite lookup_insert_eq.
  - intros i s Hi. eapply slot_ok_sum; [|by apply Hsl]. intros p Hp. by rewrite lookup_insert_ne.
  - intros k Hk Hno. rewrite !lookup_insert_ne; [by apply Ha|..]; intros E; symmetry in E;
      [by apply bak_not_sum in E|by apply plain_not_sum in E].
Qed.

Lemma lookup_snoc_Some {A} (l : list A) x i y :
  (l ++ [x]) !! i = Some y <-> l !! i = Some y \/ (i = length l /\ x = y).
Proof.
  destruct (decide (i < length l)%nat) as [Hl|Hl].
  - rewrite lookup_app_l by done. split; [by left|]. intros [?|[-> _]]; [done|lia].
  - rewrite lookup_app_r by lia. rewrite (lookup_ge_None_2 l) by lia. split.
    + destruct (i - length l)%nat eqn:E; simpl; [|done]. intros [= <-]. right. split; [lia|done].
    + intros [?|[-> <-]]; [done|]. by rewrite Nat.sub_diag.
Qed.

(** An empty slot more. *)
Lemma layout_grow done F hdr sl junk m :
  layout done F hdr sl junk m -> (length sl < 45)%nat ->
  layout done (<[sum_path db := sum_bytes hdr (sl ++ [free_slot]) []]> F) hdr (sl ++ [free_slot]) [] m.
Proof.
  intros [Hsum Hh Hj Hr Hsl Hd Ha Hpl] Hroom. split; try done.
  - by rewrite lookup_insert_eq.
  - simpl. lia.
  - rewrite length_app. simpl. lia.
  - intros i s [Hi|[-> <-]]%lookup_snoc_Some; [|by left]. eapply slot_ok_sum; [|by apply Hsl].
    intros p Hp. by rewrite lookup_insert_ne.
  - intros i j s s' [Hi|[-> <-]]%lookup_snoc_Some [Hj'|[-> <-]]%lookup_snoc_Some E Hne; [by eapply Hd| | |done].
    + rewrite E in Hne. done.
    + done.
  - intros k Hk Hno. rewrite !lookup_insert_ne.
    + apply Ha; [done|]. intros i s Hi. apply (Hno i s). apply lookup_snoc_Some. by left.
    + intros E. symmetry in E. by apply bak_not_sum in E.
    + intros E. symmetry in E. by apply plain_not_sum in E.
Qed.

(** ** What an interruption leaves *)
Definition clean (s : slot) : Prop := s = free_slot \/ (s_valid s = true /\ s_bak s = false).
#[global] Instance clean_dec s : Decision (clean s).
Proof. unfold clean. apply _. Defined.
Definition used (sl : list slot) : nat := length (filter (fun s => s_key s <> "") sl).

(** The count in the header is right when its flag says so. *)
Definition header_ok (hdr : list byte) sl : Prop :=
  hdr !! 9%nat = Some zero /\
  (hdr !! 8%nat = Some zero \/
   (hdr !! 8%nat = Some one /\ take 4 hdr = digits (used sl) /\ Forall clean sl)).

Definition durable F m : Prop :=
  exists hdr sl junk, layout (fun _ => false) F hdr sl junk m /\ header_ok hdr sl.

Lemma slot_ok_weaken done F m i s : slot_ok done F m i s -> s_valid s = true \/ s = free_slot -> slot_ok false F m i s.
Proof.
  intros [->|[Hp Hs]] Hv; [by left|right]. split; [done|]. destruct Hv as [Hv| ->]; [|by destruct (plain_parts _ Hp)].
  rewrite Hv in *. destruct (s_bak s).
  - destruct Hs as [_ Hs]. done.
  - destruct Hs as (v & Hm & Hg & Hf & _). exists v. split_and!; done.
Qed.

Lemma layout_durable (done : nat -> bool) F hdr sl junk m :
  layout done F hdr sl junk m -> header_ok hdr sl ->
  (forall i s, sl !! i = Some s -> done i = true -> s_valid s = true \/ s = free_slot) ->
  durable F m.
Proof.
  intros [Hsum Hh Hj Hr Hsl Hd Ha Hpl] Hok Hv. exists hdr, sl, junk. split; [|done]. split; try done.
  intros i s Hi. destruct (done i) eqn:E; [|rewrite <- E; by apply Hsl].
  eapply slot_ok_weaken; [by apply Hsl|by eapply Hv].
Qed.

(** ** Between two operations *)
Record rest F m : Prop := {
  rs_parts : exists hdr sl, layout (fun _ => true) F hdr sl [] m /\ Forall clean sl /\
    hdr !! 8%nat = Some zero /\ hdr !! 9%nat = Some zero /\ kvItemSum db = Z.of_nat (used sl);
  rs_flags : sumFlag db = mkStatus false false false;
  rs_handle : handle_ok db = true;
  rs_dir : (String.length (dirPath db) <= 200)%nat;
}.

Lemma rest_durable F m : rest F m -> durable F m.
Proof.
  intros [(hdr & sl & Hl & Hc & H8 & H9 & _) _ _ _]. eapply layout_durable; [exact Hl|split; [done|by left]|].
  intros i s Hi _. rewrite Forall_forall in Hc. destruct (Hc s) as [->|[Hv _]]; [|by right|by left].
  by eapply list_elem_of_lookup_2.
Qed.

Lemma fits_short name : (String.length (dirPath db) <= 200)%nat -> (String.length name <= 40)%nat -> fits db name.
Proof.
  intros Hd Hn. unfold fits, ItemPathFormat, MAX_KEY_PATH.
  assert (Hl : forall a b, String.length (a +:+ b) = (String.length a + String.length b)%nat).
  { intros a b. rewrite <- !length_bytes_of, bytes_of_app. apply length_app. }
  destruct (type db); rewrite !Hl; simpl; lia.
Qed.
Lemma bak_name_length k : String.length (bak_name k) = (String.length k + 7)%nat.
Proof. rewrite <- !length_bytes_of. unfold bak_name. rewrite bytes_of_app, length_app. done. Qed.
End Layout.
