(* ===== verification/DbmSpec.v ===== *)
(** * Reading, writing and deleting refine a map, and survive the loss of power

    Each operation on an open store, between operations: what it answers and leaves
    when the power lasts, and that otherwise the files stand for the map before it or
    the map after it. *)
From S2P Require Import Prelude Memory KvCache UtilsFile DbmStore DbmLogic DbmLayout.
From Stdlib Require Import Ascii.

#[local] Open Scope list_scope.

(** * Items of the sum file: what the functions on them do *)

(** The item that is loaded from a slot. *)
Definition item_at (i : nat) (s : slot) : KeyItem :=
  mkKeyItem (buffer 32 (bytes_of (s_key s)) ++ zeros 1) (mkItemStatus (s_valid s) (s_bak s) 0) 0 (Z.of_nat i).

Lemma item_at_key i s : short (s_key s) -> keyName (item_at i s) = s_key s.
Proof.
  intros [Hl Hn]. unfold keyName, item_at. cbn [key]. rewrite buffer_spec by (rewrite length_bytes_of; lia).
  rewrite length_bytes_of, <- app_assoc. replace (32 - String.length (s_key s))%nat
    with (S (31 - String.length (s_key s))) by lia. by apply c_string_bytes.
Qed.

Lemma slot_content s : buffer 45 (slot_bytes s) = slot_bytes s ++ zeros 1.
Proof. rewrite buffer_spec by (rewrite slot_bytes_length; lia). by rewrite slot_bytes_length. Qed.

(** The key field of what was read for a slot. *)
Lemma slot_key_field s :
  short (s_key s) -> exists rest, drop 8 (buffer 45 (slot_bytes s)) = bytes_of (s_key s) ++ zero :: rest.
Proof.
  intros [Hl Hn]. rewrite slot_content. unfold slot_bytes.
  exists (zeros (31 - String.length (s_key s)) ++ bytes_of KV_MAGIC ++ zeros 1).
  rewrite <- !app_assoc. rewrite drop_app_ge by (simpl; lia). rewrite drop_app_ge by (simpl; lia).
  change (8 - length [zero; bflag (s_valid s); bflag (s_bak s); zero] - length (zeros 4))%nat with 0%nat.
  rewrite drop_0, buffer_spec by (rewrite length_bytes_of; lia). rewrite length_bytes_of, <- app_assoc.
  replace (32 - String.length (s_key s))%nat with (S (31 - String.length (s_key s))) by lia. done.
Qed.

Lemma slot_matched s name :
  short (s_key s) -> no_nul name ->
  IsStrSame (drop 8 (buffer 45 (slot_bytes s))) (String.length name + 1) name = bool_decide (s_key s = name).
Proof.
  intros Hs Hn. destruct (slot_key_field s Hs) as [rest E]. rewrite E. rewrite IsStrSame_spec; [|set_solver|done].
  rewrite c_string_bytes; [done|]. apply Hs.
Qed.

Lemma end_matched name :
  no_nul name -> IsStrSame (drop 8 (buffer 45 [])) (String.length name + 1) name = bool_decide ("" = name).
Proof. intros Hn. rewrite IsStrSame_spec; [done| |done]. change (zero ∈ zero :: zeros 36). by left. Qed.

Lemma sprintf_bak n k : (String.length k < 32)%nat -> (40 <= n)%nat -> sprintf_s n (bak_name k) = Some (bak_name k).
Proof.
  intros Hk Hn. unfold sprintf_s. rewrite (proj2 (Nat.ltb_lt _ _)); [done|]. rewrite bak_name_length. lia.
Qed.

Section Items.
Context `{UtilsFileLaws} (h0 : condition) (Hh0 : h0 <> Dead).
Context (db : DBM) (hdr : list byte) (Hhdr : length hdr = 20%nat).
Abbreviation disk := (gmap string (list byte)).
Abbreviation pth name := (ItemPathFormat db name).
Abbreviation at_ := (at_ h0 db).
Implicit Types (F : disk) (sl : list slot) (C : disk -> Prop).

Lemma LoadDataItem_ok i sl_i item sl junk F s Q C :
  at_ F s -> C F -> F !! sum_path db = Some (sum_bytes hdr sl junk) -> sl !! i = Some sl_i -> short (s_key sl_i) ->
  (forall s', at_ F s' -> Q (DBM_OK, item_at i sl_i) s') ->
  wpc (LoadDataItem (Z.of_nat i) item) s Q C.
Proof.
  intros Hs HC HF Hi Hsh HQ. unfold LoadDataItem. wbind. eapply wpc_at_handle; [done|exact Hs|].
  wbind. rewrite place_offset. eapply FileReadCursor_ok; [exact Hh0|exact Hs|done|exact HF|]. intros s1 r Hr Hs1.
  cbn iota beta. rewrite (proj2 (Z.ltb_ge _ _)) by lia. change KV_SUM_DATA_ITEM_SIZE with 44%nat.
  rewrite (segment_slot hdr Hhdr _ _ _ _ Hi). change (44 + 1)%nat with 45%nat. rewrite slot_content.
  replace (IsStrSame (drop (44 - KV_MAGIC_SIZE) (slot_bytes sl_i ++ zeros 1)) (KV_MAGIC_SIZE + 1) KV_MAGIC) with true.
  2: { symmetry. rewrite slot_parts. rewrite app_assoc, <- app_assoc. rewrite drop_app_ge.
       - rewrite !length_app, buffer_length. done.
       - rewrite !length_app, buffer_length. simpl. lia. }
  cbn [negb].
  assert (Hkl : segment (slot_bytes sl_i ++ zeros 1) KV_SUM_BLOCK_SIZE KV_SUM_BLOCK_SIZE = zeros 4) by done.
  rewrite Hkl. wbind. change (parsed (atoi (zeros 4))) with (parsed (Some 0)). destruct Hs1 as [pos Hs1].
  eapply wpc_parsed; [done|exact Hs1|]. cbn [Z.ltb Z.compare]. eapply wpc_here_ret; [done|exact Hs1|].
  assert (Hkey : segment (slot_bytes sl_i ++ zeros 1) (2 * KV_SUM_BLOCK_SIZE) MAX_KEY_LEN = buffer 32 (bytes_of (s_key sl_i))).
  { unfold segment, slot_bytes. rewrite <- !app_assoc. rewrite drop_app_ge by (simpl; lia).
    rewrite drop_app_ge by (simpl; lia). change (2 * KV_SUM_BLOCK_SIZE - length [zero; bflag (s_valid sl_i); bflag (s_bak sl_i); zero] - length (zeros 4))%nat with 0%nat.
    rewrite drop_0. apply take_app_length'. by rewrite buffer_length. }
  rewrite Hkey. assert (Hfl : forall b : bool, bool_decide (bflag b <> zero) = b) by (by intros []).
  replace (mkKeyItem _ _ _ _) with (item_at i sl_i); [apply HQ; by eexists|].
  unfold item_at. f_equal. change (default zero ((slot_bytes sl_i ++ zeros 1) !! 1%nat)) with (bflag (s_valid sl_i)).
  change (default zero ((slot_bytes sl_i ++ zeros 1) !! 2%nat)) with (bflag (s_bak sl_i)). by rewrite !Hfl.
Qed.

(** The key of a slot, or that of the end of the file. *)
Definition key_of sl (i : nat) : string := match sl !! i with Some s => s_key s | None => "" end.

Lemma IsDataItemMatched_ok i name sl junk F s (Q : bool -> state -> Prop) C :
  at_ F s -> C F -> F !! sum_path db = Some (sum_bytes hdr sl junk) ->
  (forall s, s ∈ sl -> short (s_key s)) -> (i < length sl)%nat \/ junk = [] -> no_nul name ->
  (forall s', at_ F s' -> Q (bool_decide (key_of sl i = name)) s') ->
  wpc (IsDataItemMatched name (Z.of_nat i)) s Q C.
Proof.
  intros Hs HC HF Hsh Hi Hn HQ. unfold IsDataItemMatched. rewrite (proj2 (Z.ltb_ge _ _)) by lia.
  wbind. eapply wpc_at_handle; [done|exact Hs|]. wbind. rewrite place_offset.
  eapply FileReadCursor_ok; [exact Hh0|exact Hs|done|exact HF|]. intros s1 r Hr Hs1. cbn iota beta.
  rewrite (proj2 (Z.ltb_ge _ _)) by lia. eapply wpc_at_ret; [done|exact Hs1|].
  change KV_SUM_DATA_ITEM_SIZE with 44%nat. change (44 + 1)%nat with 45%nat.
  change (KV_MAGIC_SIZE + KV_SUM_BLOCK_SIZE)%nat with 8%nat. unfold key_of in HQ.
  destruct (sl !! i) as [sl_i|] eqn:E.
  - rewrite (segment_slot hdr Hhdr _ _ _ _ E), slot_matched; [by apply HQ| |done].
    apply Hsh. by eapply list_elem_of_lookup_2.
  - apply lookup_ge_None_1 in E. destruct Hi as [Hi|Hj]; [lia|]. subst junk.
    rewrite (segment_end hdr Hhdr) by done. unfold segment at 1. rewrite drop_nil, take_nil, end_matched by done. by apply HQ.
Qed.

(** Writing a part of a slot. *)
Lemma write_slot_ok i j b sl_i sl_i' off sl junk F s (Q : Z -> state -> Prop) C :
  at_ F s -> C F -> F !! sum_path db = Some (sum_bytes hdr sl junk) -> sl !! i = Some sl_i ->
  (j + length b <= 44)%nat -> overwrite (slot_bytes sl_i) j b = slot_bytes sl_i' -> off = Z.of_nat (place i + j) ->
  (forall s' r, 0 <= r -> at_ (<[sum_path db := sum_bytes hdr (<[i := sl_i']> sl) junk]> F) s' -> Q r s') ->
  wpc (FileWriteCursor (sumFileFd db) off SEEK_SET_FS b) s Q C.
Proof.
  intros Hs HC HF Hi Hj Hb -> HQ. pose proof (lookup_lt_Some _ _ _ Hi) as Hlt.
  eapply FileWriteCursor_ok; [exact Hh0|exact Hs|done|exact HF| |].
  - rewrite (sum_length hdr Hhdr). unfold place. lia.
  - intros s1 r Hr Hs1. rewrite (overwrite_slot hdr Hhdr _ _ _ _ _ _ _ Hi Hj Hb) in Hs1. by eapply HQ.
Qed.

(** ** Reading a value *)
Definition format (len : Z) (v : list byte) : Z * list byte :=
  if (Z.of_nat (length v) >? len) || (len =? 0) then (-1, []) else (Z.of_nat (length v), v).

Lemma DbmGetValue_ok i name keyGet len v sl junk F s Q C :
  at_ F s -> C F -> F !! sum_path db = Some (sum_bytes hdr sl junk) -> (forall s, s ∈ sl -> short (s_key s)) ->
  (i <= 44)%nat -> (i < length sl)%nat -> key_of sl i = name -> no_nul name -> good v -> fits db keyGet ->
  F !! pth keyGet = Some (value_file i v) ->
  (forall s', at_ F s' -> Q (format len v) s') ->
  wpc (GetValueByFile name keyGet len) s Q C.
Proof.
  intros Hs HC HF Hsh Hi Hlt Hk Hn Hg Hfit Hv HQ. destruct (index_facts_ok i) as (_ & Hd4 & _ & Hat); [lia|].
  assert (Hlen : length (value_file i v) = (4 + length v)%nat) by (unfold value_file; rewrite length_app; lia).
  unfold GetValueByFile. wbind. eapply wpc_at_handle; [done|exact Hs|]. rewrite (sprintf_fits _ _ Hfit).
  destruct Hs as [pos Hs]. wbind. eapply wpc_stat; [exact Hs|done|exact Hv|]. intros s1 Hs1. cbn iota beta.
  rewrite (proj2 (Z.ltb_ge _ _)) by lia. destruct Hg as [Hg1 Hg2].
  replace (_ >? _) with false.
  2: { symmetry. rewrite Z.gtb_ltb. apply Z.ltb_ge. unfold KV_SUM_BLOCK_SIZE. lia. }
  wbind. eapply wpc_malloc; [exact Hs1|done|]. intros s2 Hs2. cbn [negb].
  wbind. eapply wpc_open; [exact Hh0|exact Hs2|done|left; by rewrite Hv|]. intros s3 fd Hfd Hnone Hs3.
  rewrite Hv in Hs3. cbn in Hs3. rewrite (proj2 (Z.ltb_ge _ _)) by lia.
  wbind. eapply wpc_read; [exact Hs3|done|by rewrite lookup_insert_eq|exact Hv|]. intros s4 b Hb Hs4.
  assert (Hb' : b = value_file i v).
  { rewrite Hb. unfold segment. rewrite drop_0, Nat2Z.id. by rewrite take_ge. }
  clear Hb. subst b. rewrite insert_insert_eq in Hs4. cbn iota beta.
  wbind. eapply wpc_close; [exact Hs4|done|by rewrite lookup_insert_eq|]. intros s5 r _ Hs5.
  rewrite delete_insert_id in Hs5 by done. rewrite (proj2 (Z.ltb_ge _ _)) by lia.
  assert (Hs5' : at_ F s5) by (by eexists). wbind. unfold IsNeedTransferValue.
  rewrite (proj2 (Nat.leb_gt _ _)) by (unfold KV_SUM_BLOCK_SIZE; lia).
  assert (Htake : take (KV_SUM_BLOCK_SIZE - 1) (value_file i v) = take 3 (digits i)).
  { unfold value_file. rewrite take_app_le; [done|]. rewrite Hd4. unfold KV_SUM_BLOCK_SIZE. lia. }
  rewrite Htake. change KV_SUM_BLOCK_SIZE with 4%nat. rewrite Hat.
  wbind. eapply wpc_parsed; [done|exact Hs5|].
  eapply IsDataItemMatched_ok; [exact Hs5'|done|exact HF|exact Hsh|by left|done|]. intros s6 Hs6.
  rewrite bool_decide_true by done. eapply wpc_at_ret; [done|exact Hs6|].
  unfold FormatValueByFile. unfold value_file. rewrite drop_app_length' by (by rewrite Hd4). by apply HQ.
Qed.
End Items.

(** ** What the operations answer *)
Definition get_reply (m : gmap string (list byte)) (name : string) (count : Z) : Z * list byte :=
  if count >? MAX_GET_VALUE_LEN then (DBM_INVALID_ARGS, [])
  else
    match m !! name with
    | Some v => if (Z.of_nat (length v) >? count) || (count =? 0) then (DBM_ERROR, []) else (DBM_OK, v)
    | None => (DBM_NOT_FOUND, [])
    end.

Section Spec.
Context `{UtilsFileLaws} (h0 : condition) (Hh0 : h0 <> Dead).
Abbreviation disk := (gmap string (list byte)).
Implicit Types (F : disk) (m : gmap string (list byte)) (sl : list slot) (C : disk -> Prop).

Lemma find_slot sl k :
  (exists i s, sl !! i = Some s /\ s_key s = k) \/ (forall i s, sl !! i = Some s -> s_key s <> k).
Proof.
  destruct (decide (Exists (fun s => s_key s = k) sl)) as [He|He].
  - left. apply Exists_exists in He as (s & Hs & E). apply list_elem_of_lookup in Hs as [i Hi]. by exists i, s.
  - right. intros i s Hi E. apply He. apply Exists_exists. exists s. split; [by eapply list_elem_of_lookup_2|done].
Qed.

Lemma layout_short db done F hdr sl junk m : layout db done F hdr sl junk m -> forall s, s ∈ sl -> short (s_key s).
Proof.
  intros Hl s Hs. apply list_elem_of_lookup in Hs as [i Hi]. eapply slot_ok_short. by apply (ly_slots _ _ _ _ _ _ _ Hl).
Qed.

Lemma plain_fits db k : (String.length (dirPath db) <= 200)%nat -> plain k -> fits db k /\ fits db (bak_name k).
Proof.
  intros Hd Hk. destruct (plain_parts _ Hk) as [_ [Hl _]].
  split; apply fits_short; try done; [lia|rewrite bak_name_length; lia].
Qed.

Lemma sprintf_bak_path k : plain k -> sprintf_s (MAX_KEY_PATH + 1) (bak_name k) = Some (bak_name k).
Proof. intros Hk. apply sprintf_bak; [by apply plain_parts|]. unfold MAX_KEY_PATH. lia. Qed.

Lemma Get_ok db F hdr sl junk m name count s (Q : Z * list byte -> state -> Prop) C :
  layout db (fun _ => true) F hdr sl junk m -> handle_ok db = true -> isInvalid (sumFlag db) = false ->
  (String.length (dirPath db) <= 200)%nat -> plain name -> at_ h0 db F s -> C F ->
  (forall s', at_ h0 db F s' -> Q (get_reply m name count) s') ->
  wpc (Get name count) s Q C.
Proof.
  intros Hl Hok Hinv Hdir Hp Hs HC HQ. destruct (plain_parts _ Hp) as [Hne [Hlen Hnn]].
  destruct (plain_fits db name Hdir Hp) as [Hf Hfb]. pose proof (layout_short _ _ _ _ _ _ _ Hl) as Hsh.
  unfold Get. rewrite (proj1 Hp). cbn [negb orb]. unfold get_reply in HQ.
  destruct (count >? MAX_GET_VALUE_LEN); [eapply wpc_at_ret; [done|exact Hs|by apply HQ]|].
  wbind. eapply wpc_at_handle; [done|exact Hs|]. rewrite Hok. cbn [negb]. rewrite (sprintf_bak_path _ Hp).
  wbind. eapply IsNewItem_ok; [done|exact Hs|done|done|]. intros s1 Hs1. rewrite Hinv.
  wbind. wbind. eapply IsNewItem_ok; [done|exact Hs1|done|done|]. intros s2 Hs2.
  eapply wpc_at_ret; [done|exact Hs2|].
  destruct (find_slot sl name) as [(i & si & Hi & Ek)|Hno].
  - pose proof (ly_slots _ _ _ _ _ _ _ Hl i si Hi) as Hslot.
    pose proof (lookup_lt_Some _ _ _ Hi) as Hlt. pose proof (ly_room _ _ _ _ _ _ _ Hl) as Hroom.
    assert (Hkey : key_of sl i = name) by (unfold key_of; by rewrite Hi).
    destruct Hslot as [->|[_ Hslot]]; [done|]. rewrite Ek in Hslot.
    assert (Hcases : exists v, m !! name = Some v /\ good v /\ F !! ItemPathFormat db name = Some (value_file i v) /\
      (F !! ItemPathFormat db (bak_name name) = None \/ F !! ItemPathFormat db (bak_name name) = Some (value_file i v))).
    { destruct (s_valid si), (s_bak si); [by destruct Hslot| | |].
      - destruct Hslot as (v & Hm & Hg & Hv & Hb). exists v. split_and!; try done. left. by apply Hb.
      - destruct Hslot as (_ & v & Hm & Hg & Hv & Hb). exists v. split_and!; try done. by right.
      - by destruct Hslot. }
    destruct Hcases as (v & Hm & Hg & Hv & Hb). rewrite Hm in HQ. rewrite (bool_decide_false (F !! ItemPathFormat db name = None)).
    2: { by rewrite Hv. }
    cbn [andb]. wbind. eapply (DbmGetValue_ok h0 Hh0 db hdr (ly_header _ _ _ _ _ _ _ Hl) i name _ count v);
      [exact Hs2|done|apply Hl|exact Hsh|lia|done|done|done|done| | |].
    + by destruct (bool_decide _).
    + destruct Hb as [Hb|Hb]; rewrite Hb; by (rewrite bool_decide_true by done) || by rewrite bool_decide_false.
    + intros s3 Hs3. unfold format. destruct (_ || _).
      * eapply wpc_at_ret; [done|exact Hs3|]. by apply HQ.
      * cbn iota beta. rewrite (proj2 (Z.ltb_ge _ _)) by lia. eapply wpc_at_ret; [done|exact Hs3|]. by apply HQ.
  - destruct (ly_absent _ _ _ _ _ _ _ Hl name Hp Hno) as (Hfa & Hba & Hma). rewrite Hfa, Hba, Hma in *.
    rewrite bool_decide_true by done. eapply wpc_at_ret; [done|exact Hs2|]. by apply HQ.
Qed.

(** ** Finding and adding items *)
Lemma item_of_key name : short name -> keyName (item_of name) = name.
Proof.
  intros [Hl Hn]. unfold keyName, item_of. cbn [key]. change (MAX_KEY_LEN + 1)%nat with 33%nat.
  rewrite buffer_spec by (rewrite length_bytes_of; lia). rewrite length_bytes_of.
  replace (33 - String.length name)%nat with (S (32 - String.length name)) by lia. by apply c_string_bytes.
Qed.
Lemma with_index_key item i : keyName (with_index item i) = keyName item.
Proof. done. Qed.

(** The first empty slot of [n] from [i] on. *)
Fixpoint first_free sl (i n : nat) : Z :=
  match n with
  | O => -1
  | S n => if decide (key_of sl i = "") then Z.of_nat i else first_free sl (S i) n
  end.

Lemma search_item_new db hdr (Hhdr : length hdr = 20%nat) sl F name n : forall i idx s Q C,
  at_ h0 db F s -> C F -> F !! sum_path db = Some (sum_bytes hdr sl []) -> (forall s, s ∈ sl -> short (s_key s)) ->
  name <> "" -> no_nul name -> (forall j, key_of sl j <> name) ->
  (forall s', at_ h0 db F s' -> Q (if idx =? -1 then first_free sl i n else idx, true) s') ->
  wpc (search_item n (Z.of_nat i) name idx) s Q C.
Proof.
  induction n as [|n IH]; intros i idx s Q C Hs HC HF Hsh Hne Hnn Hno HQ; cbn [search_item first_free] in *.
  { eapply wpc_at_ret; [done|exact Hs|]. destruct (Z.eqb_spec idx (-1)) as [->|]; by apply HQ. }
  wbind. assert (Hstep : forall s' idx', at_ h0 db F s' ->
    (if idx' =? -1 then first_free sl (S i) n else idx') =
    (if idx =? -1 then if decide (key_of sl i = "") then Z.of_nat i else first_free sl (S i) n else idx) ->
    wpc (found ← IsDataItemMatched name (Z.of_nat i);
         if found : bool then mret (Z.of_nat i, false) else search_item n (Z.of_nat i + 1) name idx') s' Q C).
  { intros s' idx' Hs' E. wbind. eapply IsDataItemMatched_ok; [exact Hh0|exact Hhdr|exact Hs'|done|exact HF|exact Hsh|by right|done|].
    intros s2 Hs2. rewrite bool_decide_false by apply Hno. replace (Z.of_nat i + 1) with (Z.of_nat (S i)) by lia.
    eapply IH; try done. intros s3 Hs3. rewrite E. by apply HQ. }
  destruct (Z.eqb_spec idx (-1)) as [->|Hidx].
  - eapply IsDataItemMatched_ok; [exact Hh0|exact Hhdr|exact Hs|done|exact HF|exact Hsh|by right|by intros ?%not_elem_of_nil|].
    intros s1 Hs1. destruct (decide (key_of sl i = "")) as [E|E].
    + rewrite bool_decide_true by done. apply Hstep; [done|]. by rewrite (proj2 (Z.eqb_neq _ _)) by lia.
    + rewrite bool_decide_false by done. by apply Hstep.
  - eapply wpc_at_ret; [done|exact Hs|]. apply Hstep; [done|]. by rewrite (proj2 (Z.eqb_neq _ _)) by lia.
Qed.

End Spec.

(** ** Counting slots *)
Implicit Types (sl : list slot).
Lemma used_drop sl i s : sl !! i = Some s -> s_key s <> "" -> used (drop i sl) = S (used (drop (S i) sl)).
Proof.
  intros Hi Hne. rewrite (drop_S _ _ _ Hi). unfold used. rewrite filter_cons_True by done. done.
Qed.

Lemma first_free_spec sl n : forall i,
  (i <= length sl)%nat -> (used (drop i sl) < n)%nat ->
  exists j, first_free sl i n = Z.of_nat j /\ key_of sl j = "" /\ (j <= length sl)%nat /\
    forall j', (i <= j' < j)%nat -> key_of sl j' <> "".
Proof.
  induction n as [|n IH]; intros i Hi Hu; [lia|]. cbn [first_free].
  destruct (decide (key_of sl i = "")) as [E|E].
  { exists i. split_and!; try done. intros j' Hj'. lia. }
  unfold key_of in E. destruct (sl !! i) as [s|] eqn:Es; [|done].
  pose proof (lookup_lt_Some _ _ _ Es). rewrite (used_drop _ _ _ Es E) in Hu.
  destruct (IH (S i)) as (j & Ej & Hkj & Hjl & Hbefore); [lia|lia|]. exists j. split_and!; try done.
  intros j' Hj'. destruct (decide (j' = i)) as [->|Hne]; [unfold key_of; by rewrite Es|]. apply Hbefore. lia.
Qed.

Lemma used_le sl : (used sl <= length sl)%nat.
Proof. unfold used. apply length_filter. Qed.
Lemma used_all sl : (forall j, (j < length sl)%nat -> key_of sl j <> "") -> used sl = length sl.
Proof.
  intros Hall. unfold used. assert (Hf : Forall (fun s => s_key s <> "") sl).
  { apply Forall_lookup. intros i s Hi. pose proof (lookup_lt_Some _ _ _ Hi) as Hlt. specialize (Hall i Hlt).
    unfold key_of in Hall. by rewrite Hi in Hall. }
  clear Hall. induction Hf as [|s sl Hs Hf IH]; [done|]. rewrite filter_cons_True by done. simpl. by rewrite IH.
Qed.
Lemma used_insert sl j s s' :
  sl !! j = Some s ->
  (used (<[j := s']> sl) + (if decide (s_key s = "") then 0 else 1) =
   used sl + (if decide (s_key s' = "") then 0 else 1))%nat.
Proof.
  revert j. induction sl as [|t sl IH]; intros [|j] Hj; simplify_eq/=.
  - unfold used. rewrite !filter_cons. repeat case_decide; simpl; try lia; by exfalso.
  - specialize (IH j Hj). unfold used in *. rewrite !filter_cons. destruct (decide (s_key t <> "")); simpl; lia.
Qed.
Lemma used_snoc sl s : s_key s <> "" -> used (sl ++ [s]) = S (used sl).
Proof. intros Hs. unfold used. rewrite filter_app, filter_cons_True by done. rewrite length_app. simpl. lia. Qed.

Lemma used_keys_nodup sl :
  (forall i j s s', sl !! i = Some s -> sl !! j = Some s' -> s_key s = s_key s' -> s_key s <> "" -> i = j) ->
  NoDup (s_key <$> filter (fun s => s_key s <> "") sl).
Proof.
  induction sl as [|s sl IH]; intros Hd; [apply NoDup_nil_2|].
  assert (IH' : NoDup (s_key <$> filter (fun s => s_key s <> "") sl)).
  { apply IH. intros i j t t' Hi Hj E Hne. assert (S i = S j) by (by eapply (Hd (S i) (S j) t t')). lia. }
  rewrite filter_cons. destruct (decide (s_key s <> "")) as [Hne|]; [|done]. rewrite fmap_cons. apply NoDup_cons.
  split; [|done]. intros Hin. apply list_elem_of_fmap in Hin as (t & E & Ht).
  apply list_elem_of_filter in Ht as [_ Ht]. apply list_elem_of_lookup in Ht as [j Hj].
  assert (0 = S j)%nat; [|lia]. by eapply (Hd 0%nat (S j) s t).
Qed.

(** Between operations there is a used slot for every key. *)
Lemma layout_size db F hdr sl (m : gmap string (list byte)) :
  layout db (fun _ => true) F hdr sl [] m -> Forall clean sl -> used sl = size m.
Proof.
  intros Hl Hc. rewrite Forall_forall in Hc. set (ks := s_key <$> filter (fun s => s_key s <> "") sl).
  assert (Hks : forall k, k ∈ ks <-> is_Some (m !! k)).
  { intros k. unfold ks. rewrite list_elem_of_fmap. split.
    - intros (s & -> & Hs). apply list_elem_of_filter in Hs as [Hne Hs]. pose proof (Hc s Hs) as [->|[Hv Hb]]; [done|].
      apply list_elem_of_lookup in Hs as [i Hi]. destruct (ly_slots _ _ _ _ _ _ _ Hl i s Hi) as [->|[_ Hs]]; [done|].
      rewrite Hv, Hb in Hs. destruct Hs as (v & Hm & _). by exists v.
    - intros [v Hv]. destruct (find_slot sl k) as [(i & s & Hi & E)|Hno].
      + exists s. split; [done|]. apply list_elem_of_filter. split; [|by eapply list_elem_of_lookup_2].
        rewrite E. apply plain_parts. apply (ly_plain _ _ _ _ _ _ _ Hl). by exists v.
      + destruct (ly_absent _ _ _ _ _ _ _ Hl k) as (_ & _ & Hm); [|done|congruence].
        apply (ly_plain _ _ _ _ _ _ _ Hl). by exists v. }
  rewrite <- (size_dom m). replace (dom m) with (list_to_set ks : gset string).
  - rewrite size_list_to_set by (apply used_keys_nodup, Hl). unfold ks. by rewrite length_fmap.
  - apply set_eq. intros k. by rewrite elem_of_list_to_set, Hks, elem_of_dom.
Qed.
