(* ===== verification/DbmPut.v ===== *)
(** * Putting and deleting, with the loss of power at any call *)
From S2P Require Import Prelude Memory KvCache UtilsFile DbmStore DbmLogic DbmLayout DbmSpec.
From Stdlib Require Import Ascii.

#[local] Open Scope list_scope.

(** ** A store with one slot in the middle of a change *)
Section Flying.
Context (db : DBM).
Abbreviation disk := (gmap string (list byte)).
Abbreviation pth name := (ItemPathFormat db name).
Implicit Types (F : disk) (m : gmap string (list byte)) (sl : list slot).

Definition other (j i : nat) : bool := negb (i =? j)%nat.

Record flying (j : nat) F (hdr : list byte) sl m : Prop := {
  fl_layout : layout db (other j) F hdr sl [] m;
  fl_clean : forall i s, sl !! i = Some s -> i <> j -> clean s;
  fl_flags : hdr !! 8%nat = Some zero /\ hdr !! 9%nat = Some zero;
}.

Lemma flying_durable j F hdr sl m : flying j F hdr sl m -> durable db F m.
Proof.
  intros [Hl Hc [H8 H9]]. eapply layout_durable; [exact Hl|by split; [|left]|].
  intros i s Hi Hd. destruct (Hc i s Hi) as [->|[Hv _]]; [|by right|by left].
  intros ->. unfold other in Hd. by rewrite Nat.eqb_refl in Hd.
Qed.

Lemma other_ne j i : i <> j -> other j i = true.
Proof. intros Hne. unfold other. by rewrite (proj2 (Nat.eqb_neq _ _)). Qed.
Lemma other_eq j : other j j = false.
Proof. unfold other. by rewrite Nat.eqb_refl. Qed.

(** The change takes a step on the slot. *)
Lemma flying_step j F F' hdr sl m m' k s s' :
  flying j F hdr sl m -> plain k -> sl !! j = Some s ->
  s_key s = k \/ (s_key s = "" /\ forall i t, sl !! i = Some t -> s_key t <> k) ->
  F' !! sum_path db = Some (sum_bytes hdr (<[j := s']> sl) []) ->
  (forall p, p <> pth k -> p <> pth (bak_name k) -> p <> sum_path db -> F' !! p = F !! p) ->
  (forall k', k' <> k -> m' !! k' = m !! k') ->
  s_key s' = k -> slot_ok db false F' m' j s' ->
  flying j F' hdr (<[j := s']> sl) m'.
Proof.
  intros [Hl Hc Hf] Hk Hj Hkey HF' HF Hm Hk' Hs'. split; [|intros i t Hi Hne|done].
  - eapply layout_update; try done. left. by rewrite other_eq.
  - rewrite list_lookup_insert_ne in Hi by done. by eapply Hc.
Qed.

(** The files of the key change, the slot does not. *)
Lemma flying_files j F F' hdr sl m k s :
  flying j F hdr sl m -> plain k -> sl !! j = Some s -> s_key s = k ->
  (forall p, p <> pth k -> p <> pth (bak_name k) -> F' !! p = F !! p) ->
  slot_ok db false F' m j s -> flying j F' hdr sl m.
Proof.
  intros Hfl Hk Hj Hkey HF Hs. rewrite <- (list_insert_id sl j s Hj).
  eapply (flying_step _ F); try done; [by left| |].
  - rewrite HF; [|intros E; symmetry in E; by apply plain_not_sum in E|intros E; symmetry in E; by apply bak_not_sum in E].
    rewrite list_insert_id by done. apply (fl_layout _ _ _ _ _ Hfl).
  - intros p H1 H2 _. by apply HF.
Qed.

(** From rest and back. *)
Lemma rest_flying F hdr sl m j :
  layout db (fun _ => true) F hdr sl [] m -> Forall clean sl -> hdr !! 8%nat = Some zero -> hdr !! 9%nat = Some zero ->
  flying j F hdr sl m.
Proof.
  intros [Hsum Hh Hj Hr Hsl Hd Ha Hpl] Hc H8 H9. rewrite Forall_forall in Hc. split; [|intros i s Hi _|done].
  - split; try done. intros i s Hi. unfold other. destruct (i =? j)%nat eqn:E; [|by apply Hsl].
    eapply slot_ok_weaken; [by apply Hsl|]. destruct (Hc s) as [->|[Hv _]]; [|by right|by left].
    by eapply list_elem_of_lookup_2.
  - apply Hc. by eapply list_elem_of_lookup_2.
Qed.

Lemma flying_lands j F hdr sl m s :
  flying j F hdr sl m -> sl !! j = Some s -> clean s -> slot_ok db true F m j s ->
  layout db (fun _ => true) F hdr sl [] m /\ Forall clean sl.
Proof.
  intros [[Hsum Hh Hj' Hr Hsl Hd Ha Hpl] Hc _] Hj Hcl Hs. split.
  - split; try done. intros i t Hi. destruct (decide (i = j)) as [->|Hne]; [by simplify_eq|].
    rewrite <- (other_ne j i Hne). by apply Hsl.
  - apply Forall_forall. intros t Ht. apply list_elem_of_lookup in Ht as [i Hi].
    destruct (decide (i = j)) as [->|Hne]; [by simplify_eq|]. by eapply Hc.
Qed.
End Flying.

Section Put.
Context `{UtilsFileLaws} (h0 : condition) (Hh0 : h0 <> Dead).
Context (db : DBM) (hdr : list byte) (Hhdr : length hdr = 20%nat).
Abbreviation disk := (gmap string (list byte)).
Abbreviation pth name := (ItemPathFormat db name).
Abbreviation at_ := (at_ h0 db).
Implicit Types (F : disk) (m : gmap string (list byte)) (sl : list slot) (C : disk -> Prop).

Definition new_slot (k : string) : slot := mkSlot false false k.

(** ** A new item in an empty slot *)
Lemma WriteNew_inside item j k F sl s (Q : Z -> state -> Prop) C :
  at_ F s -> F !! sum_path db = Some (sum_bytes hdr sl []) -> sl !! j = Some free_slot ->
  index item = Z.of_nat j -> take MAX_KEY_LEN (key item) = buffer 32 (bytes_of k) ->
  C F -> C (<[sum_path db := sum_bytes hdr (<[j := new_slot k]> sl) []]> F) ->
  (forall s', at_ (<[sum_path db := sum_bytes hdr (<[j := new_slot k]> sl) []]> F) s' -> Q DBM_OK s') ->
  wpc (WriteNewItemToSumFile item) s Q C.
Proof.
  intros Hs HF Hj Hidx Hkey HC HC' HQ. unfold WriteNewItemToSumFile. rewrite Hkey.
  pose proof (lookup_lt_Some _ _ _ Hj) as Hlt.
  wbind. eapply wpc_at_handle; [done|exact Hs|].
  wbind. eapply (write_slot_ok h0 Hh0 db hdr Hhdr j 0 _ free_slot free_slot); [exact Hs|done|exact HF|done|..];
    [vm_compute; lia|done|rewrite Hidx, place_offset; lia|].
  intros s1 r Hr Hs1. rewrite list_insert_id in Hs1 by done. rewrite insert_id in Hs1 by done.
  rewrite (proj2 (Z.ltb_ge _ _)) by lia. wbind.
  rewrite Hidx, place_offset. change (2 * Z.of_nat KV_SUM_BLOCK_SIZE) with (Z.of_nat 8). rewrite <- Nat2Z.inj_add.
  eapply FileWriteCursor_pos; [exact Hh0|exact Hs1|done|exact HF| |].
  { rewrite (sum_length hdr Hhdr). unfold place. lia. }
  rewrite buffer_length.
  rewrite (overwrite_slot hdr Hhdr sl [] j free_slot (new_slot k) 8 (buffer 32 (bytes_of k)));
    [|done|rewrite buffer_length; lia|apply (slot_set_key free_slot)].
  intros s2 Hs2. rewrite (proj2 (Z.ltb_ge _ _)) by lia. wbind.
  set (sl' := <[j := new_slot k]> sl) in *.
  assert (Hj' : sl' !! j = Some (new_slot k)) by (by apply list_lookup_insert_eq).
  eapply FileWriteCursor_cur; [exact Hh0|exact Hs2|done|by rewrite lookup_insert_eq| |].
  { rewrite (sum_length hdr Hhdr). unfold sl', place. rewrite length_insert. lia. }
  intros s3 r' Hr' Hs3. rewrite (proj2 (Z.ltb_ge _ _)) by lia. rewrite insert_insert_eq in Hs3.
  replace (place j + 8 + 32)%nat with (place j + 40)%nat in Hs3 by lia.
  rewrite (overwrite_slot hdr Hhdr sl' [] j (new_slot k) (new_slot k) 40 (bytes_of KV_MAGIC)) in Hs3;
    [|done|vm_compute; lia|apply slot_set_magic].
  rewrite list_insert_id in Hs3 by done. eapply wpc_at_ret; [done|exact Hs3|]. by apply HQ.
Qed.

(** After the last item the file grows in three steps. *)
Lemma WriteNew_append item k F sl s (Q : Z -> state -> Prop) C :
  at_ F s -> F !! sum_path db = Some (sum_bytes hdr sl []) ->
  index item = Z.of_nat (length sl) -> take MAX_KEY_LEN (key item) = buffer 32 (bytes_of k) ->
  C F -> (forall junk, (length junk < 44)%nat -> C (<[sum_path db := sum_bytes hdr sl junk]> F)) ->
  C (<[sum_path db := sum_bytes hdr (sl ++ [new_slot k]) []]> F) ->
  (forall s', at_ (<[sum_path db := sum_bytes hdr (sl ++ [new_slot k]) []]> F) s' -> Q DBM_OK s') ->
  wpc (WriteNewItemToSumFile item) s Q C.
Proof.
  intros Hs HF Hidx Hkey HC HCj HC' HQ. unfold WriteNewItemToSumFile. rewrite Hkey, Hidx, place_offset.
  wbind. eapply wpc_at_handle; [done|exact Hs|].
  wbind. eapply FileWriteCursor_ok; [exact Hh0|exact Hs|done|exact HF| |].
  { rewrite (sum_length hdr Hhdr). lia. }
  intros s1 r Hr Hs1. rewrite (proj2 (Z.ltb_ge _ _)) by lia.
  replace (place (length sl)) with (place (length sl) + 0)%nat in Hs1 at 1 by lia.
  rewrite (overwrite_end hdr Hhdr) in Hs1. change (overwrite [] 0 (zeros (2 * KV_SUM_BLOCK_SIZE))) with (zeros 8) in Hs1.
  wbind. change (2 * Z.of_nat KV_SUM_BLOCK_SIZE) with (Z.of_nat 8). rewrite <- Nat2Z.inj_add.
  eapply FileWriteCursor_pos; [exact Hh0|exact Hs1|apply HCj; vm_compute; lia|by rewrite lookup_insert_eq| |].
  { rewrite (sum_length hdr Hhdr). unfold zeros. rewrite length_replicate. lia. }
  rewrite buffer_length, (overwrite_end hdr Hhdr), insert_insert_eq.
  assert (Hov : overwrite (zeros 8) 8 (buffer 32 (bytes_of k)) = zeros 8 ++ buffer 32 (bytes_of k)).
  { unfold overwrite. rewrite take_ge by (unfold zeros; rewrite length_replicate; lia).
    rewrite drop_ge; [by rewrite app_nil_r|]. unfold zeros. rewrite length_replicate. lia. }
  rewrite Hov. intros s2 Hs2. rewrite (proj2 (Z.ltb_ge _ _)) by lia.
  assert (Hlen : length (zeros 8 ++ buffer 32 (bytes_of k)) = 40%nat) by (rewrite length_app, buffer_length; done).
  wbind. eapply FileWriteCursor_cur; [exact Hh0|exact Hs2|apply HCj; rewrite Hlen; lia|by rewrite lookup_insert_eq| |].
  { rewrite (sum_length hdr Hhdr), Hlen. lia. }
  intros s3 r' Hr' Hs3. rewrite (proj2 (Z.ltb_ge _ _)) by lia.
  replace (place (length sl) + 8 + 32)%nat with (place (length sl) + 40)%nat in Hs3 by lia.
  rewrite (overwrite_end hdr Hhdr), insert_insert_eq in Hs3.
  assert (Hov' : overwrite (zeros 8 ++ buffer 32 (bytes_of k)) 40 (bytes_of KV_MAGIC) = slot_bytes (new_slot k)).
  { unfold overwrite. rewrite take_ge by lia. rewrite drop_ge by (rewrite Hlen; lia).
    rewrite app_nil_r, <- app_assoc. done. }
  rewrite Hov', (junk_slot hdr) in Hs3. eapply wpc_at_ret; [done|exact Hs3|]. by apply HQ.
Qed.

(** ** Inserting: the item is there, invalid *)
Lemma flying_value F sl m j k content :
  flying db j F hdr sl m -> plain k -> sl !! j = Some (new_slot k) -> m !! k = None ->
  flying db j (<[pth k := content]> F) hdr sl m.
Proof.
  intros Hfl Hk Hj Hm. eapply flying_files; [exact Hfl|exact Hk|exact Hj|done| |].
  - intros p H1 _. by rewrite lookup_insert_ne.
  - right. by split.
Qed.

Lemma InsertKV_ok item j k value F sl m s (Q : Z -> state -> Prop) C :
  at_ F s -> flying db j F hdr sl m -> plain k -> sl !! j = Some (new_slot k) -> m !! k = None -> (j <= 44)%nat ->
  (String.length (dirPath db) <= 200)%nat -> F !! pth (bak_name k) = None -> good value ->
  index item = Z.of_nat j -> keyName item = k ->
  (forall F', durable db F' m -> C F') -> 
  (forall s' F', at_ F' s' -> flying db j F' hdr (<[j := mkSlot true false k]> sl) (<[k := value]> m) ->
     F' !! pth (bak_name k) = None -> Q DBM_OK s') ->
  wpc (InsertKV item value) s Q C.
Proof.
  intros Hs Hfl Hk Hj Hm Hj44 Hdir Hbak Hg Hidx Hkey HC HQ.
  assert (HCf : forall F', flying db j F' hdr sl m -> C F') by (intros F' HF'; apply HC; by eapply flying_durable).
  destruct (index_facts_ok j) as (Hsp & _); [lia|]. destruct (plain_fits db k Hdir Hk) as [Hfit _].
  unfold InsertKV. wbind. eapply wpc_at_malloc; [exact Hs|by apply HCf|]. intros s1 Hs1. cbn [negb].
  unfold InitValue. rewrite Hidx. change KV_SUM_INDEX with 4%nat. rewrite Hsp, Hkey. cbn [mbind option_bind].
  change (digits j ++ value) with (value_file j value).
  wbind. eapply DbmSetValue_ok; [exact Hh0|exact Hs1|by apply HCf|by apply HCf, flying_value|by apply HCf, flying_value|done|].
  intros s2 Hs2. change (DBM_OK =? DBM_OK) with true. cbn iota.
  wbind. eapply wpc_at_ret; [done|exact Hs2|]. wbind. eapply wpc_at_handle; [done|exact Hs2|].
  set (F2 := <[pth k := value_file j value]> F) in *.
  assert (Hfl2 : flying db j F2 hdr sl m) by (by apply flying_value).
  wbind. eapply (write_slot_ok h0 Hh0 db hdr Hhdr j 1 [one] (new_slot k) (mkSlot true false k));
    [exact Hs2|by apply HCf|apply (fl_layout _ _ _ _ _ _ Hfl2)|done|simpl; lia|apply slot_set_valid|
     rewrite place_offset; lia|].
  intros s3 r Hr Hs3. rewrite (proj2 (Z.ltb_ge _ _)) by lia. eapply wpc_at_ret; [done|exact Hs3|].
  assert (Hsum : forall p, p <> sum_path db -> F2 !! p =
    (<[sum_path db := sum_bytes hdr (<[j := mkSlot true false k]> sl) []]> F2) !! p)
    by (intros p Hp; by rewrite lookup_insert_ne).
  eapply HQ; [exact Hs3| |].
  - eapply (flying_step _ _ F2); [exact Hfl2|exact Hk|exact Hj|by left|by rewrite lookup_insert_eq| | |done|].
    + intros p _ _ Hp. by rewrite <- Hsum.
    + intros k' Hne. by rewrite lookup_insert_ne.
    + right. split; [done|]. cbn [s_valid s_bak s_key]. exists value. rewrite lookup_insert_eq.
      split_and!; [done|done| |done]. rewrite <- Hsum by (by apply plain_not_sum). unfold F2. by rewrite lookup_insert_eq.
  - rewrite <- Hsum by (by apply bak_not_sum). unfold F2. rewrite lookup_insert_ne; [done|].
    by apply plain_not_bak.
Qed.

(** ** Updating under the protection of the backup *)
Definition kept_slot (k : string) : slot := mkSlot true false k.
Definition backed_slot (k : string) : slot := mkSlot true true k.

(** The files while the slot is as before: the value is in its file. *)
Lemma flying_kept F F' sl m j k v :
  flying db j F hdr sl m -> plain k -> sl !! j = Some (kept_slot k) -> m !! k = Some v -> good v ->
  (forall p, p <> pth k -> p <> pth (bak_name k) -> F' !! p = F !! p) -> F' !! pth k = Some (value_file j v) ->
  flying db j F' hdr sl m.
Proof.
  intros Hfl Hk Hj Hm Hg HF Hv. eapply flying_files; [exact Hfl|exact Hk|exact Hj|done|done|].
  right. split; [done|]. exists v. by split_and!.
Qed.
(** The files while the backup counts. *)
Lemma flying_backed F F' sl m j k v :
  flying db j F hdr sl m -> plain k -> sl !! j = Some (backed_slot k) -> m !! k = Some v -> good v ->
  (forall p, p <> pth k -> p <> pth (bak_name k) -> F' !! p = F !! p) ->
  F' !! pth (bak_name k) = Some (value_file j v) ->
  flying db j F' hdr sl m.
Proof.
  intros Hfl Hk Hj Hm Hg HF Hv. eapply flying_files; [exact Hfl|exact Hk|exact Hj|done|done|].
  right. split; [done|]. split; [done|]. by exists v.
Qed.

Lemma BackupItem_ok item j k v F sl m s (Q : Z -> state -> Prop) C :
  at_ F s -> flying db j F hdr sl m -> plain k -> sl !! j = Some (kept_slot k) -> m !! k = Some v -> good v ->
  F !! pth k = Some (value_file j v) -> (String.length (dirPath db) <= 200)%nat ->
  index item = Z.of_nat j -> keyName item = k -> isValid (flag item) = true ->
  (forall F', durable db F' m -> C F') ->
  (forall s' F', at_ F' s' -> flying db j F' hdr (<[j := backed_slot k]> sl) m ->
     F' !! pth (bak_name k) = Some (value_file j v) -> Q DBM_OK s') ->
  wpc (BackupItem item) s Q C.
Proof.
  intros Hs Hfl Hk Hj Hm Hg Hv Hdir Hidx Hkey Hval HC HQ.
  assert (HCf : forall F', flying db j F' hdr sl m -> C F') by (intros F' HF'; apply HC; by eapply flying_durable).
  destruct (plain_fits db k Hdir Hk) as [Hfit Hfitb]. pose proof (plain_not_bak db k k Hk) as Hkb.
  unfold BackupItem. rewrite Hval, Hkey. cbn [negb]. rewrite (sprintf_bak_path _ Hk).
  wbind. eapply delete_existing_ok; [exact Hh0|exact Hs|by apply HCf|done|]. intros s1 Hs1. cbn [negb].
  set (F1 := delete (pth (bak_name k)) F) in *.
  assert (Hsame : forall F', (forall p, p <> pth (bak_name k) -> F' !! p = F !! p) -> flying db j F' hdr sl m).
  { intros F' HF'. eapply flying_kept; [exact Hfl|exact Hk|exact Hj|exact Hm|exact Hg|intros; by apply HF'|].
    by rewrite HF'. }
  assert (Hins : forall x, flying db j (<[pth (bak_name k) := x]> F1) hdr sl m).
  { intros x. apply Hsame. intros p Hp. rewrite lookup_insert_ne by done. unfold F1. by rewrite lookup_delete_ne. }
  wbind. eapply (CopyValueToFile_ok h0 Hh0 k (bak_name k) (value_file j v)); [exact Hs1| | |done|done| |].
  - apply HCf, Hsame. intros p Hp. unfold F1. by rewrite lookup_delete_ne.
  - intros n. apply HCf, Hins.
  - unfold F1. by rewrite lookup_delete_ne.
  - intros s2 Hs2. change (DBM_OK =? DBM_OK) with true. cbn [negb]. wbind.
    eapply wpc_at_handle; [done|exact Hs2|]. set (F2 := <[pth (bak_name k) := value_file j v]> F1) in *.
    wbind. eapply (write_slot_ok h0 Hh0 db hdr Hhdr j 2 [one] (kept_slot k) (backed_slot k));
      [exact Hs2|apply HCf, Hins|apply (fl_layout _ _ _ _ _ _ (Hins _))|done|simpl; lia|apply slot_set_bak|
       rewrite Hidx, place_offset; lia|].
    intros s3 r Hr Hs3. rewrite (proj2 (Z.ltb_ge _ _)) by lia. eapply wpc_at_ret; [done|exact Hs3|].
    assert (Hb : <[sum_path db := sum_bytes hdr (<[j := backed_slot k]> sl) []]> F2 !! pth (bak_name k) =
      Some (value_file j v)).
    { rewrite lookup_insert_ne by (intros E; symmetry in E; by apply bak_not_sum in E).
      unfold F2. by rewrite lookup_insert_eq. }
    eapply HQ; [exact Hs3| |exact Hb].
    eapply (flying_step _ _ F2); [exact (Hins _)|exact Hk|exact Hj|by left|by rewrite lookup_insert_eq| |done|done|].
    + intros p _ _ Hp. by rewrite lookup_insert_ne.
    + right. split; [done|]. split; [done|]. by exists v.
Qed.

Lemma UpdateKV_ok item j k v value F sl m s (Q : Z -> state -> Prop) C :
  at_ F s -> flying db j F hdr sl m -> plain k -> sl !! j = Some (kept_slot k) -> m !! k = Some v -> good v ->
  F !! pth k = Some (value_file j v) -> (j <= 44)%nat -> (String.length (dirPath db) <= 200)%nat -> good value ->
  index item = Z.of_nat j -> keyName item = k -> isValid (flag item) = true ->
  (forall F', durable db F' m -> C F') -> (forall F', durable db F' (<[k := value]> m) -> C F') ->
  (forall s' F', at_ F' s' -> flying db j F' hdr sl (<[k := value]> m) ->
     F' !! pth (bak_name k) = None -> F' !! pth k = Some (value_file j value) -> Q DBM_OK s') ->
  wpc (UpdateKV item value) s Q C.
Proof.
  intros Hs Hfl Hk Hj Hm Hg Hv Hj44 Hdir Hg' Hidx Hkey Hval HC HC' HQ.
  pose proof (lookup_lt_Some _ _ _ Hj) as Hlt.
  destruct (index_facts_ok j) as (Hsp & _); [lia|]. destruct (plain_fits db k Hdir Hk) as [Hfit Hfitb].
  pose proof (plain_not_bak db k k Hk) as Hkb. unfold UpdateKV.
  wbind. eapply BackupItem_ok; try done. intros s1 F1 Hs1 Hfl1 Hb1. change (DBM_OK =? DBM_OK) with true. cbn [negb].
  set (sl1 := <[j := backed_slot k]> sl) in *.
  assert (Hj1 : sl1 !! j = Some (backed_slot k)) by (by apply list_lookup_insert_eq).
  assert (HCf : forall F', flying db j F' hdr sl1 m -> C F') by (intros F' HF'; apply HC; by eapply flying_durable).
  wbind. eapply wpc_at_malloc; [exact Hs1|by apply HCf|]. intros s2 Hs2. cbn [negb].
  unfold InitValue. rewrite Hidx. change KV_SUM_INDEX with 4%nat. rewrite Hsp, Hkey. cbn [mbind option_bind].
  change (digits j ++ value) with (value_file j value).
  assert (Hins : forall x, flying db j (<[pth k := x]> F1) hdr sl1 m).
  { intros x. eapply flying_backed; [exact Hfl1|exact Hk|exact Hj1|exact Hm|exact Hg| |].
    - intros p Hp _. by rewrite lookup_insert_ne.
    - by rewrite lookup_insert_ne. }
  wbind. eapply DbmSetValue_ok; [exact Hh0|exact Hs2|by apply HCf|apply HCf, Hins|apply HCf, Hins|done|].
  intros s3 Hs3. change (DBM_OK =? DBM_OK) with true. cbn [negb]. wbind. eapply wpc_at_handle; [done|exact Hs3|].
  set (F3 := <[pth k := value_file j value]> F1) in *.
  wbind. eapply (write_slot_ok h0 Hh0 db hdr Hhdr j 2 (zeros 1) (backed_slot k) (kept_slot k));
    [exact Hs3|apply HCf, Hins|apply (fl_layout _ _ _ _ _ _ (Hins _))|done|simpl; lia|apply slot_clear_bak|
     rewrite place_offset; lia|].
  intros s4 r Hr Hs4. rewrite (proj2 (Z.ltb_ge _ _)) by lia. rewrite (sprintf_bak_path _ Hk).
  set (F4 := <[sum_path db := sum_bytes hdr (<[j := kept_slot k]> sl1) []]> F3) in *.
  assert (Hv4 : F4 !! pth k = Some (value_file j value)).
  { unfold F4. rewrite lookup_insert_ne by (intros E; symmetry in E; by apply plain_not_sum in E).
    unfold F3. by rewrite lookup_insert_eq. }
  assert (Hback : <[j := kept_slot k]> sl1 = sl) by (unfold sl1; rewrite list_insert_insert_eq; by apply list_insert_id).
  assert (Hfl4 : flying db j F4 hdr sl (<[k := value]> m)).
  { rewrite <- Hback. eapply (flying_step _ _ F3); [exact (Hins _)|exact Hk|exact Hj1|by left| | | |done|].
    - unfold F4. by rewrite lookup_insert_eq.
    - intros p _ _ Hp. unfold F4. by rewrite lookup_insert_ne.
    - intros k' Hne. by rewrite lookup_insert_ne.
    - right. split; [done|]. exists value. split_and!; [by rewrite lookup_insert_eq|done|exact Hv4|done]. }
  wbind. eapply delete_existing_ok; [exact Hh0|exact Hs4| |done|].
  { apply HC'. by eapply flying_durable. }
  intros s5 Hs5. eapply wpc_at_ret; [done|exact Hs5|]. eapply HQ; [exact Hs5| | |].
  - eapply flying_kept; [exact Hfl4|exact Hk|exact Hj|by rewrite lookup_insert_eq|exact Hg'| |].
    + intros p _ Hp. by rewrite lookup_delete_ne.
    + by rewrite lookup_delete_ne.
  - by rewrite lookup_delete_eq.
  - by rewrite lookup_delete_ne.
Qed.
End Put.

(** ** The count of the handle has nothing to do with the files *)
Section Count.
Context (db : DBM) (n : Z).
Abbreviation db' := (set_kvItemSum n db).

Lemma layout_count d F hdr sl junk m : layout db d F hdr sl junk m -> layout db' d F hdr sl junk m.
Proof. by intros [? ? ? ? ? ? ? ?]. Qed.
Lemma layout_uncount d F hdr sl junk m : layout db' d F hdr sl junk m -> layout db d F hdr sl junk m.
Proof. by intros [? ? ? ? ? ? ? ?]. Qed.
Lemma flying_count j F hdr sl m : flying db j F hdr sl m -> flying db' j F hdr sl m.
Proof. intros [? ? ?]. split; [by apply layout_count|done|done]. Qed.
Lemma durable_count F m : durable db' F m -> durable db F m.
Proof. intros (hdr & sl & junk & [? ? ? ? ? ? ? ?] & Hh). by exists hdr, sl, junk. Qed.
End Count.

Section Store.
Context `{UtilsFileLaws} (h0 : condition) (Hh0 : h0 <> Dead).
Abbreviation disk := (gmap string (list byte)).
Implicit Types (F : disk) (m : gmap string (list byte)) (sl : list slot) (C : disk -> Prop).

(** A slot for a key that has none: which one, and the store with the slot in flight. *)
Lemma fresh_slot db F hdr sl m k :
  layout db (fun _ => true) F hdr sl [] m -> Forall clean sl -> hdr !! 8%nat = Some zero -> hdr !! 9%nat = Some zero ->
  plain k -> (forall i s, sl !! i = Some s -> s_key s <> k) ->
  forall j, sl !! j = Some free_slot ->
  flying db j (<[sum_path db := sum_bytes hdr (<[j := new_slot k]> sl) []]> F) hdr (<[j := new_slot k]> sl) m.
Proof.
  intros Hl Hc H8 H9 Hk Hno j Hj. destruct (ly_absent _ _ _ _ _ _ _ Hl k Hk Hno) as (_ & _ & Hm).
  eapply (flying_step _ _ F); [by apply rest_flying|exact Hk|exact Hj|by right|by rewrite lookup_insert_eq| |done|done|].
  - intros p _ _ Hp. by rewrite lookup_insert_ne.
  - right. by split.
Qed.

Lemma AddNewDataItem_new db F hdr sl m k item s (Q : Z * KeyItem -> state -> Prop) C :
  at_ h0 db F s -> layout db (fun _ => true) F hdr sl [] m -> Forall clean sl ->
  hdr !! 8%nat = Some zero -> hdr !! 9%nat = Some zero -> kvItemSum db = Z.of_nat (used sl) -> (used sl < 45)%nat ->
  plain k -> (forall i s, sl !! i = Some s -> s_key s <> k) ->
  keyName item = k -> take MAX_KEY_LEN (key item) = buffer 32 (bytes_of k) ->
  (forall F', durable db F' m -> C F') ->
  (forall s' F' j sl', at_ h0 (set_kvItemSum (kvItemSum db + 1) db) F' s' -> flying db j F' hdr sl' m ->
     sl' !! j = Some (new_slot k) -> (j <= 44)%nat -> used sl' = S (used sl) ->
     F' !! ItemPathFormat db (bak_name k) = None -> m !! k = None -> Q (DBM_OK, with_index item (Z.of_nat j)) s') ->
  wpc (AddNewDataItem item) s Q C.
Proof.
  intros Hs Hl Hc H8 H9 Hsum Hfull Hk Hno Hname Hkey HC HQ. destruct (plain_parts _ Hk) as [Hne [_ Hnn]].
  pose proof (layout_short _ _ _ _ _ _ _ Hl) as Hsh. pose proof (ly_header _ _ _ _ _ _ _ Hl) as Hhdr.
  pose proof (ly_sum _ _ _ _ _ _ _ Hl) as HF. destruct (ly_absent _ _ _ _ _ _ _ Hl k Hk Hno) as (_ & Hbak & Hm).
  assert (HCl : C F) by (apply HC; eapply flying_durable; by apply (rest_flying db F hdr sl m 0)).
  unfold AddNewDataItem. wbind. eapply wpc_at_handle; [done|exact Hs|]. wbind. rewrite Hname.
  eapply (search_item_new h0 Hh0 db hdr Hhdr sl F k _ 0 (-1)); [exact Hs|done|exact HF|exact Hsh|done|done| |].
  { intros j. unfold key_of. destruct (sl !! j) as [t|] eqn:Et; [by eapply Hno|by intros <-]. }
  intros s1 Hs1. cbn iota beta. change (-1 =? -1) with true. cbn iota.
  destruct (first_free_spec sl (Z.to_nat (kvItemSum db + 1)) 0) as (j & Ej & Hkj & Hjl & Hbefore);
    [lia|rewrite drop_0; lia|]. rewrite Ej. set (db' := set_kvItemSum (kvItemSum db + 1) db) in *.
  wbind. eapply wpc_at_set_handle; [done|exact Hs1|done|done|]. intros s2 Hs2. fold db' in Hs2.
  wbind. eapply wpc_at_handle; [done|exact Hs2|]. rewrite (proj2 (Z.eqb_neq _ _)) by lia.
  cbn [index with_index]. rewrite (proj2 (Z.ltb_ge _ _)) by lia. wbind.
  assert (Hbak' : forall x, <[sum_path db := x]> F !! ItemPathFormat db (bak_name k) = None).
  { intros x. rewrite lookup_insert_ne; [done|]. intros E. symmetry in E. by apply bak_not_sum in E. }
  destruct (sl !! j) as [t|] eqn:Et.
  - assert (t = free_slot) as ->.
    { eapply slot_ok_key; [by apply (ly_slots _ _ _ _ _ _ _ Hl)|]. unfold key_of in Hkj. by rewrite Et in Hkj. }
    pose proof (lookup_lt_Some _ _ _ Et) as Hlt. pose proof (ly_room _ _ _ _ _ _ _ Hl) as Hroom.
    pose proof (fresh_slot _ _ _ _ _ _ Hl Hc H8 H9 Hk Hno j Et) as Hfl.
    eapply (WriteNew_inside h0 Hh0 db' hdr Hhdr _ j k); [exact Hs2|exact HF|exact Et|done|exact Hkey|done|..].
    + apply HC. by eapply flying_durable.
    + intros s3 Hs3. eapply wpc_at_ret; [done|exact Hs3|].
      eapply (HQ _ _ j); [exact Hs3|exact Hfl|by apply list_lookup_insert_eq|lia| |by apply Hbak'|done].
      pose proof (used_insert sl j free_slot (new_slot k) Et) as Hu. cbn [s_key free_slot new_slot] in Hu.
      rewrite decide_True in Hu by done. rewrite decide_False in Hu by done. lia.
  - apply lookup_ge_None_1 in Et. assert (j = length sl) as -> by lia.
    assert (Hall : used sl = length sl) by (apply used_all; intros i Hi; apply Hbefore; lia).
    pose proof (layout_grow _ _ _ _ _ _ _ Hl) as Hg. specialize (Hg ltac:(lia)).
    assert (Hc' : Forall clean (sl ++ [free_slot])) by (apply Forall_app; split; [done|]; apply Forall_singleton; by left).
    assert (Hno' : forall i t, (sl ++ [free_slot]) !! i = Some t -> s_key t <> k).
    { intros i t [Hi|[_ <-]]%lookup_snoc_Some; [by eapply Hno|by intros <-]. }
    assert (Hlast : (sl ++ [free_slot]) !! length sl = Some free_slot) by (by apply lookup_snoc_Some; right).
    pose proof (fresh_slot _ _ _ _ _ _ Hg Hc' H8 H9 Hk Hno' _ Hlast) as Hfl.
    rewrite insert_app_r_alt, Nat.sub_diag in Hfl by lia. cbn [insert list_insert] in Hfl. rewrite insert_insert_eq in Hfl.
    eapply (WriteNew_append h0 Hh0 db' hdr Hhdr _ k); [exact Hs2|exact HF|done|exact Hkey|done|..].
    + intros junk Hjunk. apply HC. change (sum_path db') with (sum_path db). eapply layout_durable; [by eapply layout_sum|split; [done|by left]|].
      intros i t Hi _. rewrite Forall_forall in Hc. destruct (Hc t) as [->|[Hv _]]; [|by right|by left].
      by eapply list_elem_of_lookup_2.
    + apply HC. by eapply flying_durable.
    + intros s3 Hs3. eapply wpc_at_ret; [done|exact Hs3|].
      eapply (HQ _ _ (length sl)); [exact Hs3|exact Hfl|by apply lookup_snoc_Some; right|lia| |by apply Hbak'|done].
      by apply used_snoc.
Qed.

(** A key that is there is found by the index in its file. *)
Lemma FindDataItem_existing db F hdr sl junk m k i v s (Q : Z * KeyItem -> state -> Prop) C :
  at_ h0 db F s -> layout db (fun _ => true) F hdr sl junk m -> (String.length (dirPath db) <= 200)%nat ->
  plain k -> key_of sl i = k -> (i < length sl)%nat -> F !! ItemPathFormat db k = Some (value_file i v) -> C F ->
  (forall s', at_ h0 db F s' -> Q (DBM_OK, with_index (item_of k) (Z.of_nat i)) s') ->
  wpc (FindDataItem (item_of k) true) s Q C.
Proof.
  intros Hs Hl Hdir Hk Hi Hlt Hv HC HQ. pose proof (ly_room _ _ _ _ _ _ _ Hl) as Hroom.
  destruct (plain_parts _ Hk) as [Hne Hsh]. destruct (index_facts_ok i) as (_ & Hd4 & Hat & _); [lia|].
  unfold FindDataItem. cbn [negb]. rewrite !with_index_key, (item_of_key _ Hsh).
  wbind. eapply wpc_at_malloc; [exact Hs|done|]. intros s1 Hs1. cbn [negb].
  wbind. eapply wpc_at_handle; [done|exact Hs1|]. rewrite sprintf_fits by (by apply plain_fits).
  destruct Hs1 as [pos Hs1]. wbind. eapply wpc_open; [exact Hh0|exact Hs1|done|left; by rewrite Hv|].
  intros s2 fd Hfd Hnone Hs2. rewrite Hv in Hs2. cbn in Hs2. rewrite (proj2 (Z.ltb_ge _ _)) by lia.
  wbind. eapply wpc_read; [exact Hs2|done|by rewrite lookup_insert_eq|exact Hv|]. intros s3 b Hb Hs3.
  assert (b = digits i) as ->.
  { rewrite Hb. unfold segment, value_file. rewrite drop_0. apply take_app_length'. by rewrite Hd4. }
  rewrite insert_insert_eq in Hs3. cbn iota beta.
  wbind. eapply wpc_close; [exact Hs3|done|by rewrite lookup_insert_eq|]. intros s4 r _ Hs4.
  rewrite delete_insert_id in Hs4 by done. rewrite (proj2 (Z.ltb_ge _ _)) by lia.
  assert (Hbuf : buffer KV_SUM_BLOCK_SIZE (digits i) = digits i).
  { rewrite buffer_spec by (rewrite Hd4; done). rewrite Hd4. by rewrite app_nil_r. }
  rewrite Hbuf, Hat. wbind. eapply wpc_parsed; [done|exact Hs4|]. wbind.
  rewrite !with_index_key, (item_of_key _ Hsh).
  eapply IsDataItemMatched_ok; [exact Hh0|apply (ly_header _ _ _ _ _ _ _ Hl)|by eexists|done|
    apply (ly_sum _ _ _ _ _ _ _ Hl)|by eapply layout_short|by left|apply Hsh|].
  intros s5 Hs5. rewrite bool_decide_true by done. eapply wpc_at_ret; [done|exact Hs5|]. by apply HQ.
Qed.

Lemma clean_slot db F hdr sl junk m k i s :
  layout db (fun _ => true) F hdr sl junk m -> Forall clean sl -> sl !! i = Some s -> s_key s = k -> k <> "" ->
  s = kept_slot k /\ exists v, m !! k = Some v /\ good v /\ F !! ItemPathFormat db k = Some (value_file i v) /\
    F !! ItemPathFormat db (bak_name k) = None.
Proof.
  intros Hl Hc Hi Hk Hne. rewrite Forall_forall in Hc.
  destruct (Hc s) as [->|[Hv Hb]]; [by eapply list_elem_of_lookup_2|by rewrite <- Hk in Hne|].
  destruct (ly_slots _ _ _ _ _ _ _ Hl i s Hi) as [->|[_ Hs]]; [by rewrite <- Hk in Hne|].
  rewrite Hv, Hb in Hs. destruct s as [sv sb sk]. cbn [s_key s_valid s_bak] in *. subst. split; [done|].
  destruct Hs as (v & H1 & H2 & H3 & H4). exists v. split_and!; try done. by apply H4.
Qed.

Lemma rest_of_flying db n F hdr sl m j s :
  flying db j F hdr sl m -> sl !! j = Some s -> clean s -> slot_ok db true F m j s ->
  sumFlag db = mkStatus false false false -> handle_ok db = true -> (String.length (dirPath db) <= 200)%nat ->
  n = Z.of_nat (used sl) -> rest (set_kvItemSum n db) F m.
Proof.
  intros Hfl Hj Hcl Hs Hf Hh Hd ->. destruct (flying_lands _ _ _ _ _ _ _ Hfl Hj Hcl Hs) as [Hl Hc].
  destruct (fl_flags _ _ _ _ _ _ Hfl) as [H8 H9].
  split; try done. exists hdr, sl. split_and!; try done. by apply layout_count.
Qed.

Lemma Put_new db F hdr sl m k value s (Q : Z -> state -> Prop) C :
  at_ h0 db F s -> layout db (fun _ => true) F hdr sl [] m -> Forall clean sl ->
  hdr !! 8%nat = Some zero -> hdr !! 9%nat = Some zero -> kvItemSum db = Z.of_nat (used sl) -> (used sl < 45)%nat ->
  sumFlag db = mkStatus false false false -> handle_ok db = true -> (String.length (dirPath db) <= 200)%nat ->
  plain k -> good value -> (forall i s, sl !! i = Some s -> s_key s <> k) ->
  (forall F', durable db F' m -> C F') ->
  (forall s' n F', at_ h0 (set_kvItemSum n db) F' s' -> rest (set_kvItemSum n db) F' (<[k := value]> m) ->
     Q DBM_OK s') ->
  wpc ('(ret, item, newItem) ← PrePut (item_of k) true;
       if negb (ret =? DBM_OK) then mret DBM_ERROR
       else if newItem : bool then InsertKV item value else UpdateKV item value) s Q C.
Proof.
  intros Hs Hl Hc H8 H9 Hsum Hfull Hflag Hh Hdir Hk Hg Hno HC HQ. destruct (plain_parts _ Hk) as [Hne Hsh].
  pose proof (ly_header _ _ _ _ _ _ _ Hl) as Hhdr.
  wbind. unfold PrePut. cbn [negb]. wbind. unfold FindDataItem. cbn [negb].
  eapply (AddNewDataItem_new db F hdr sl m k); try done; [by rewrite with_index_key, item_of_key| |].
  { unfold with_index, item_of. cbn [key]. change (MAX_KEY_LEN + 1)%nat with 33%nat. destruct Hsh as [Hlen _].
    change MAX_KEY_LEN with 32%nat. rewrite !buffer_spec by (rewrite length_bytes_of; lia).
    rewrite take_app, length_bytes_of. rewrite take_ge by (rewrite length_bytes_of; lia). f_equal.
    unfold zeros. rewrite take_replicate. f_equal. lia. }
  intros s1 F1 j sl1 Hs1 Hfl1 Hj1 Hj44 Hu1 Hb1 Hm. change (DBM_OK =? DBM_OK) with true. cbn [negb index with_index].
  set (db' := set_kvItemSum (kvItemSum db + 1) db) in *.
  pose proof (flying_count db (kvItemSum db + 1) _ _ _ _ _ Hfl1) as Hfl1'. fold db' in Hfl1'.
  wbind. eapply (LoadDataItem_ok h0 Hh0 db' hdr Hhdr j (new_slot k)); [exact Hs1| | |exact Hj1|done|].
  { apply HC. by eapply flying_durable. }
  { apply (ly_sum _ _ _ _ _ _ _ (fl_layout _ _ _ _ _ _ Hfl1')). }
  intros s2 Hs2. change (DBM_OK =? DBM_OK) with true. cbn [negb]. eapply wpc_at_ret; [done|exact Hs2|].
  change (DBM_OK =? DBM_OK) with true. cbn [negb].
  eapply (InsertKV_ok h0 Hh0 db' hdr Hhdr _ j k value F1 sl1 m); try done.
  - by apply item_at_key.
  - intros F' HF'. apply HC. by eapply durable_count.
  - intros s3 F3 Hs3 Hfl3 Hb3. pose proof (lookup_lt_Some _ _ _ Hj1) as Hlt.
    assert (Hj3 : <[j := kept_slot k]> sl1 !! j = Some (kept_slot k)) by (by apply list_lookup_insert_eq).
    eapply (HQ _ (kvItemSum db + 1) F3); [exact Hs3|].
    change (rest (set_kvItemSum (kvItemSum db + 1) db') F3 (<[k := value]> m)).
    eapply rest_of_flying; [exact Hfl3|exact Hj3|by right| |done|done|done|].
    + pose proof (ly_slots _ _ _ _ _ _ _ (fl_layout _ _ _ _ _ _ Hfl3) j _ Hj3) as Hslot.
      destruct Hslot as [Hx|[_ Hslot]]; [by injection Hx as Hx; destruct Hne|]. right. split; [done|].
      destruct Hslot as (v & H1 & H2 & H3 & _). exists v. by split_and!.
    + pose proof (used_insert sl1 j (new_slot k) (kept_slot k) Hj1) as Hu. cbn [s_key new_slot kept_slot] in Hu.
      rewrite !decide_False in Hu by done. rewrite Hsum. unfold kept_slot in *. lia.
Qed.

Lemma set_kvItemSum_id db : set_kvItemSum (kvItemSum db) db = db.
Proof. by destruct db. Qed.

(** Checking the item of a key that is as it should be deletes the backup, if any. *)
Lemma CheckPointItem_kept db F hdr sl m k i s (Q : Z -> state -> Prop) C :
  at_ h0 db F s -> sumFlag db = mkStatus false false false -> (String.length (dirPath db) <= 200)%nat -> plain k ->
  flying db i F hdr sl m -> F !! ItemPathFormat db (bak_name k) = None -> C F ->
  (forall s', at_ h0 db F s' -> Q DBM_OK s') ->
  wpc (CheckPointItem (item_at i (kept_slot k))) s Q C.
Proof.
  intros Hs Hflag Hdir Hk Hfl Hb HC HQ. destruct (plain_parts _ Hk) as [Hne Hsh]. unfold CheckPointItem.
  rewrite item_at_key by done. cbn [s_key kept_slot].
  rewrite (proj2 (Nat.eqb_neq _ _)) by (by destruct k). wbind. eapply wpc_at_handle; [done|exact Hs|].
  rewrite Hflag. cbn [isInvalid orb flag item_at isValid isBakValid s_valid s_bak kept_slot negb].
  rewrite (sprintf_bak_path _ Hk). wbind. eapply wpc_at_ret; [done|exact Hs|].
  wbind. eapply delete_existing_ok; [exact Hh0|exact Hs|done|by apply plain_fits|].
  rewrite delete_id by done. intros s1 Hs1. eapply wpc_at_ret; [done|exact Hs1|]. by apply HQ.
Qed.

Lemma Put_existing db F hdr sl m k i v value s (Q : Z -> state -> Prop) C :
  at_ h0 db F s -> layout db (fun _ => true) F hdr sl [] m -> Forall clean sl ->
  hdr !! 8%nat = Some zero -> hdr !! 9%nat = Some zero -> kvItemSum db = Z.of_nat (used sl) ->
  sumFlag db = mkStatus false false false -> handle_ok db = true -> (String.length (dirPath db) <= 200)%nat ->
  plain k -> good value -> sl !! i = Some (kept_slot k) -> m !! k = Some v -> good v ->
  F !! ItemPathFormat db k = Some (value_file i v) -> F !! ItemPathFormat db (bak_name k) = None ->
  (forall F', durable db F' m -> C F') -> (forall F', durable db F' (<[k := value]> m) -> C F') ->
  (forall s' n F', at_ h0 (set_kvItemSum n db) F' s' -> rest (set_kvItemSum n db) F' (<[k := value]> m) ->
     Q DBM_OK s') ->
  wpc ('(ret, item, newItem) ← PrePut (item_of k) false;
       if negb (ret =? DBM_OK) then mret DBM_ERROR
       else if newItem : bool then InsertKV item value else UpdateKV item value) s Q C.
Proof.
  intros Hs Hl Hc H8 H9 Hsum Hflag Hh Hdir Hk Hg Hi Hm Hgv Hv Hb HC HC' HQ. destruct (plain_parts _ Hk) as [Hne Hsh].
  pose proof (ly_header _ _ _ _ _ _ _ Hl) as Hhdr. pose proof (lookup_lt_Some _ _ _ Hi) as Hlt.
  pose proof (ly_room _ _ _ _ _ _ _ Hl) as Hroom.
  assert (Hfl : flying db i F hdr sl m) by (by apply rest_flying).
  assert (HCl : C F) by (apply HC; by eapply flying_durable).
  wbind. unfold PrePut. cbn [negb]. wbind.
  eapply (FindDataItem_existing db F hdr sl [] m k i v); try done; [unfold key_of; by rewrite Hi|].
  intros s1 Hs1. change (DBM_OK =? DBM_OK) with true. cbn [negb index with_index].
  wbind. eapply (LoadDataItem_ok h0 Hh0 db hdr Hhdr i (kept_slot k)); [exact Hs1|done|apply Hl|exact Hi|done|].
  intros s2 Hs2. change (DBM_OK =? DBM_OK) with true. cbn [negb].
  wbind. eapply CheckPointItem_kept; try done. intros s3 Hs3. change (DBM_OK =? DBM_OK) with true. cbn [negb].
  wbind. eapply wpc_at_handle; [done|exact Hs3|]. rewrite Hflag. cbn [isInvalid orb flag item_at isValid s_valid kept_slot negb].
  eapply wpc_at_ret; [done|exact Hs3|]. change (DBM_OK =? DBM_OK) with true. cbn [negb].
  eapply (UpdateKV_ok h0 Hh0 db hdr Hhdr _ i k v value F sl m); try done; [lia|by apply item_at_key|].
  intros s4 F4 Hs4 Hfl4 Hb4 Hv4. eapply (HQ _ (kvItemSum db) F4); [by rewrite set_kvItemSum_id|].
  eapply rest_of_flying; [exact Hfl4|exact Hi|by right| |done|done|done|done].
  right. split; [done|]. exists value. split_and!; [by rewrite lookup_insert_eq|done|done|done].
Qed.

Lemma file_there db F hdr sl junk m k :
  layout db (fun _ => true) F hdr sl junk m -> Forall clean sl -> plain k ->
  bool_decide (F !! ItemPathFormat db k = None) = bool_decide (m !! k = None).
Proof.
  intros Hl Hc Hk. destruct (find_slot sl k) as [(i & s & Hi & Ek)|Hno].
  - destruct (plain_parts _ Hk) as [Hne _].
    destruct (clean_slot _ _ _ _ _ _ _ _ _ Hl Hc Hi Ek Hne) as (_ & v & Hm & _ & Hv & _). by rewrite Hm, Hv.
  - destruct (ly_absent _ _ _ _ _ _ _ Hl k Hk Hno) as (Hf & _ & Hm). by rewrite Hf, Hm.
Qed.

Lemma Put_ok db F m k value s (Q : Z -> state -> Prop) C :
  at_ h0 db F s -> rest db F m -> plain k -> good value ->
  (forall F', durable db F' m -> C F') ->
  ((size m < 45)%nat \/ is_Some (m !! k) -> forall F', durable db F' (<[k := value]> m) -> C F') ->
  ((45 <= size m)%nat -> m !! k = None -> forall s', at_ h0 db F s' -> Q DBM_OVER_MAX_LIMITS s') ->
  ((size m < 45)%nat \/ is_Some (m !! k) -> forall s' n F', at_ h0 (set_kvItemSum n db) F' s' ->
     rest (set_kvItemSum n db) F' (<[k := value]> m) -> Q DBM_OK s') ->
  wpc (Put k value) s Q C.
Proof.
  intros Hs [(hdr & sl & Hl & Hc & H8 & H9 & Hsum) Hflag Hh Hdir] Hk Hg HC HC' HQo HQ.
  assert (HCl : C F).
  { apply HC. eapply flying_durable. by apply (rest_flying db F hdr sl m 0). }
  pose proof (layout_size _ _ _ _ _ Hl Hc) as Hsize. pose proof Hg as [Hg1 Hg2].
  unfold Put. rewrite (proj1 Hk). rewrite (proj2 (Nat.ltb_ge _ _)) by lia. rewrite (proj2 (Nat.eqb_neq _ _)) by lia.
  cbn [negb orb]. wbind. eapply wpc_at_handle; [done|exact Hs|]. rewrite Hh. cbn [negb].
  wbind. eapply IsNewItem_ok; [done|exact Hs|done|by apply plain_fits|]. intros s1 Hs1.
  rewrite (file_there _ _ _ _ _ _ _ Hl Hc Hk), Hsum. unfold DBM_MAX_KV_SUM.
  destruct (m !! k) as [v|] eqn:Em.
  - rewrite bool_decide_false by done. rewrite andb_false_r.
    wbind. eapply wpc_at_malloc; [exact Hs1|done|]. intros s2 Hs2. cbn [negb].
    destruct (find_slot sl k) as [(i & t & Hi & Ek)|Hno].
    + destruct (plain_parts _ Hk) as [Hne _].
      destruct (clean_slot _ _ _ _ _ _ _ _ _ Hl Hc Hi Ek Hne) as (-> & v' & Hm & Hgv & Hv & Hb).
      rewrite Em in Hm. injection Hm as <-.
      eapply (Put_existing db F hdr sl m k i v value); try done.
      * apply HC'. right. by exists v.
      * intros s3 n F3. apply HQ. right. by exists v.
    + destruct (ly_absent _ _ _ _ _ _ _ Hl k Hk Hno) as (_ & _ & Hm). congruence.
  - rewrite bool_decide_true by done. rewrite andb_true_r. destruct (45 <=? Z.of_nat (used sl)) eqn:Efull.
    + apply Z.leb_le in Efull. eapply wpc_at_ret; [done|exact Hs1|]. apply HQo; [lia|done|done].
    + apply Z.leb_gt in Efull. wbind. eapply wpc_at_malloc; [exact Hs1|done|]. intros s2 Hs2. cbn [negb].
      destruct (find_slot sl k) as [(i & t & Hi & Ek)|Hno].
      * destruct (plain_parts _ Hk) as [Hne _].
        destruct (clean_slot _ _ _ _ _ _ _ _ _ Hl Hc Hi Ek Hne) as (_ & v' & Hm & _). congruence.
      * eapply (Put_new db F hdr sl m k value); try done; [lia|].
        intros s3 n F3. apply HQ. left. lia.
Qed.

(** ** Deleting *)
(** The slot of a deleted key is emptied. *)
Lemma flying_emptied db F F' hdr sl m k i :
  flying db i F hdr sl m -> plain k -> sl !! i = Some (new_slot k) -> m !! k = None ->
  F' !! sum_path db = Some (sum_bytes hdr (<[i := free_slot]> sl) []) ->
  (forall p, p <> ItemPathFormat db k -> p <> ItemPathFormat db (bak_name k) -> p <> sum_path db -> F' !! p = F !! p) ->
  F' !! ItemPathFormat db k = None -> F' !! ItemPathFormat db (bak_name k) = None ->
  layout db (fun _ => true) F' hdr (<[i := free_slot]> sl) [] m /\ Forall clean (<[i := free_slot]> sl).
Proof.
  intros [Hl Hc _] Hk Hi Hm HF' HF H1 H2. pose proof (lookup_lt_Some _ _ _ Hi) as Hlt. split.
  - eapply (layout_update db (other i)); [exact Hl|exact Hk|exact Hi|by left|done|exact HF|done| |by right].
    intros j Hne. by rewrite other_ne.
  - apply Forall_forall. intros t Ht. apply list_elem_of_lookup in Ht as [j Hj].
    destruct (decide (j = i)) as [->|Hne].
    + rewrite list_lookup_insert_eq in Hj by done. injection Hj as <-. by left.
    + rewrite list_lookup_insert_ne in Hj by done. by eapply Hc.
Qed.

Lemma ExeDelete_ok db F hdr sl m k i v item s (Q : Z -> state -> Prop) C :
  at_ h0 db F s -> flying db i F hdr sl m -> kvItemSum db = Z.of_nat (used sl) ->
  sumFlag db = mkStatus false false false -> handle_ok db = true -> (String.length (dirPath db) <= 200)%nat ->
  plain k -> sl !! i = Some (kept_slot k) -> F !! ItemPathFormat db k = Some (value_file i v) ->
  F !! ItemPathFormat db (bak_name k) = None -> index item = Z.of_nat i -> keyName item = k -> C F ->
  (forall F', durable db F' (delete k m) -> C F') ->
  (forall s' n F', at_ h0 (set_kvItemSum n db) F' s' -> rest (set_kvItemSum n db) F' (delete k m) -> Q DBM_OK s') ->
  wpc (ExeDelete item false) s Q C.
Proof.
  intros Hs Hfl Hsum Hflag Hh Hdir Hk Hi Hv Hb Hidx Hkey HC HC' HQ. destruct (plain_parts _ Hk) as [Hne [Hlen _]].
  pose proof (ly_header _ _ _ _ _ _ _ (fl_layout _ _ _ _ _ _ Hfl)) as Hhdr.
  pose proof (lookup_lt_Some _ _ _ Hi) as Hlt. destruct (fl_flags _ _ _ _ _ _ Hfl) as [H8 H9].
  unfold ExeDelete. wbind. eapply wpc_at_handle; [done|exact Hs|].
  wbind. eapply (write_slot_ok h0 Hh0 db hdr Hhdr i 1 (zeros 1) (kept_slot k) (new_slot k));
    [exact Hs|done|apply (fl_layout _ _ _ _ _ _ Hfl)|done|simpl; lia|apply slot_clear_valid|rewrite Hidx, place_offset; lia|].
  intros s1 r Hr Hs1. set (sl1 := <[i := new_slot k]> sl) in *. set (F1 := <[sum_path db := sum_bytes hdr sl1 []]> F) in *.
  assert (Hi1 : sl1 !! i = Some (new_slot k)) by (by apply list_lookup_insert_eq).
  assert (Hoff : forall p, p <> sum_path db -> F1 !! p = F !! p) by (intros p Hp; unfold F1; by rewrite lookup_insert_ne).
  pose proof (plain_not_sum db k Hk) as Hks. pose proof (bak_not_sum db k Hk) as Hbs.
  assert (Hfl1 : flying db i F1 hdr sl1 (delete k m)).
  { eapply (flying_step _ _ F); [exact Hfl|exact Hk|exact Hi|by left| | | |done|].
    - unfold F1. by rewrite lookup_insert_eq.
    - intros p _ _ Hp. by apply Hoff.
    - intros k' Hne'. by rewrite lookup_delete_ne.
    - right. split; [done|]. apply lookup_delete_eq. }
  assert (HCf : forall F', flying db i F' hdr sl1 (delete k m) -> C F').
  { intros F' HF'. apply HC'. by eapply flying_durable. }
  wbind. eapply wpc_at_set_handle; [done|exact Hs1|done|done|].
  set (db' := set_kvItemSum (kvItemSum db - 1) db). intros s2 Hs2. rewrite (proj2 (Z.ltb_ge _ _)) by lia. rewrite Hkey.
  wbind. eapply (DbmDeleteValue_ok h0 Hh0 k db'); [exact Hs2|by apply HCf|by apply plain_fits| |].
  { change (is_Some (F1 !! ItemPathFormat db k)). rewrite Hoff, Hv by done. by eexists. }
  intros s3 Hs3. change (DBM_OK =? DBM_OK) with true. cbn [negb]. rewrite sprintf_bak by (done || (vm_compute; lia)).
  set (F2 := delete (ItemPathFormat db k) F1) in *.
  assert (Hdel : forall F', (forall p, p <> ItemPathFormat db k -> p <> ItemPathFormat db (bak_name k) -> F' !! p = F1 !! p) ->
    flying db i F' hdr sl1 (delete k m)).
  { intros F' HF'. eapply flying_files; [exact Hfl1|exact Hk|exact Hi1|done|exact HF'|].
    right. split; [done|]. apply lookup_delete_eq. }
  assert (Hb2 : F2 !! ItemPathFormat db (bak_name k) = None).
  { unfold F2. rewrite lookup_delete_ne by (by apply plain_not_bak). by rewrite Hoff. }
  assert (Hfl2 : flying db i F2 hdr sl1 (delete k m)).
  { apply Hdel. intros p Hp _. unfold F2. by rewrite lookup_delete_ne. }
  wbind. eapply (delete_existing_ok h0 Hh0 (bak_name k) db'); [exact Hs3|by apply HCf|by apply plain_fits|].
  change (ItemPathFormat db' (bak_name k)) with (ItemPathFormat db (bak_name k)). rewrite delete_id by done.
  intros s4 Hs4. wbind.
  eapply (write_slot_ok h0 Hh0 db' hdr Hhdr i 0 (zeros 40) (new_slot k) free_slot);
    [exact Hs4|by apply HCf|apply (fl_layout _ _ _ _ _ _ Hfl2)|done|vm_compute; lia|apply slot_erase|rewrite Hidx, place_offset; lia|].
  intros s5 r' Hr' Hs5. eapply wpc_at_ret; [done|exact Hs5|].
  change (sum_path db') with (sum_path db) in Hs5. set (F5 := <[sum_path db := sum_bytes hdr (<[i := free_slot]> sl1) []]> F2) in *.
  destruct (flying_emptied db F2 F5 hdr sl1 (delete k m) k i Hfl2 Hk Hi1) as [Hl5 Hc5].
  { apply lookup_delete_eq. }
  { unfold F5. by rewrite lookup_insert_eq. }
  { intros p _ _ Hp. unfold F5. by rewrite lookup_insert_ne. }
  { unfold F5. rewrite lookup_insert_ne by done. unfold F2. apply lookup_delete_eq. }
  { unfold F5. by rewrite lookup_insert_ne. }
  eapply (HQ _ (kvItemSum db - 1) F5); [exact Hs5|]. split; try done. exists hdr, (<[i := free_slot]> sl1).
  split_and!; try done; [by apply layout_count|]. cbn [kvItemSum set_kvItemSum].
  pose proof (used_insert sl i (kept_slot k) free_slot Hi) as Hu. unfold sl1. rewrite list_insert_insert_eq.
  cbn [s_key kept_slot free_slot] in Hu. rewrite decide_False in Hu by done. rewrite decide_True in Hu by done. lia.
Qed.

Lemma DbmDelete_ok db F m k s (Q : Z -> state -> Prop) C :
  at_ h0 db F s -> rest db F m -> plain k ->
  (forall F', durable db F' m -> C F') -> (forall F', durable db F' (delete k m) -> C F') ->
  (forall s' n F', at_ h0 (set_kvItemSum n db) F' s' -> rest (set_kvItemSum n db) F' (delete k m) -> Q DBM_OK s') ->
  wpc (Delete k) s Q C.
Proof.
  intros Hs Hrest Hk HC HC' HQ. pose proof Hrest as [(hdr & sl & Hl & Hc & H8 & H9 & Hsum) Hflag Hh Hdir].
  destruct (plain_parts _ Hk) as [Hne Hsh]. pose proof (ly_header _ _ _ _ _ _ _ Hl) as Hhdr.
  assert (HCl : C F) by (apply HC; by apply rest_durable).
  unfold Delete. rewrite (proj1 Hk). cbn [negb]. wbind. eapply wpc_at_handle; [done|exact Hs|]. rewrite Hh. cbn [negb].
  wbind. eapply IsNewItem_ok; [done|exact Hs|done|by apply plain_fits|]. intros s1 Hs1.
  rewrite (file_there _ _ _ _ _ _ _ Hl Hc Hk). destruct (m !! k) as [v|] eqn:Em.
  2: { rewrite bool_decide_true by done. eapply wpc_at_ret; [done|exact Hs1|].
       eapply (HQ _ (kvItemSum db) F); rewrite set_kvItemSum_id; [done|]. by rewrite delete_id. }
  rewrite bool_decide_false by done. wbind. eapply wpc_at_malloc; [exact Hs1|done|]. intros s2 Hs2. cbn [negb].
  destruct (find_slot sl k) as [(i & t & Hi & Ek)|Hno].
  2: { destruct (ly_absent _ _ _ _ _ _ _ Hl k Hk Hno) as (_ & _ & Hm). congruence. }
  destruct (clean_slot _ _ _ _ _ _ _ _ _ Hl Hc Hi Ek Hne) as (-> & v' & Hm & Hgv & Hv & Hb).
  pose proof (lookup_lt_Some _ _ _ Hi) as Hlt.
  wbind. eapply (FindDataItem_existing db F hdr sl [] m k i v'); try done; [unfold key_of; by rewrite Hi|].
  intros s3 Hs3. change (DBM_OK =? DBM_OK) with true. cbn [negb].
  eapply (ExeDelete_ok db F hdr sl m k i v'); try done; [by apply rest_flying|by apply item_of_key].
Qed.
End Store.
