(* ===== verification/DbmTrace.v ===== *)
(** * A DBM store over its life

    Opening, any operations and closing again, as often as one likes, behave as a map of at
    most 45 keys; and when the power goes in the middle of an operation, the next
    opening finds the map before it or the map after it. *)
From S2P Require Import Prelude KvCache Memory UtilsFile DbmStore DbmLogic DbmLayout DbmSpec DbmPut.
From Stdlib Require Import Ascii.

#[local] Open Scope list_scope.

(** * Opening a store: the repair *)

Definition backed (s : slot) : Prop := s_valid s = true /\ s_bak s = true.
#[global] Instance backed_dec s : Decision (backed s).
Proof. unfold backed. apply _. Defined.

(** The slots before [i] are repaired. *)
Definition before (i j : nat) : bool := (j <? i)%nat.

Section Repair.
Context `{UtilsFileLaws} (h0 : condition) (Hh0 : h0 <> Dead).
Context (db : DBM) (hdr : list byte) (Hhdr : length hdr = 20%nat).
Context (Hdir : (String.length (dirPath db) <= 200)%nat) (Hvalid : isInvalid (sumFlag db) = false).
Abbreviation disk := (gmap string (list byte)).
Abbreviation pth name := (ItemPathFormat db name).
Implicit Types (F : disk) (m : gmap string (list byte)) (sl : list slot) (C : disk -> Prop).

Definition repaired (s : slot) : slot :=
  if s_valid s then (if s_bak s then mkSlot false true (s_key s) else s) else free_slot.

Lemma before_S i j : j <> i -> before (S i) j = before i j.
Proof. intros Hne. unfold before. apply eq_true_iff_eq. rewrite !Nat.ltb_lt. lia. Qed.
Lemma before_same i : before (S i) i = true.
Proof. apply Nat.ltb_lt. lia. Qed.
Lemma before_not i : before i i = false.
Proof. apply Nat.ltb_ge. lia. Qed.

(** Changing the slot at hand, or only its files. *)
Lemma repair_step i F F' sl junk m k s s' :
  layout db (before i) F hdr sl junk m -> plain k -> sl !! i = Some s -> s_key s = k ->
  F' !! sum_path db = Some (sum_bytes hdr (<[i := s']> sl) junk) ->
  (forall p, p <> pth k -> p <> pth (bak_name k) -> p <> sum_path db -> F' !! p = F !! p) ->
  (s_key s' = k /\ slot_ok db true F' m i s') \/
  (s' = free_slot /\ F' !! pth k = None /\ F' !! pth (bak_name k) = None /\ m !! k = None) ->
  layout db (before (S i)) F' hdr (<[i := s']> sl) junk m.
Proof.
  intros Hl Hk Hi Hkey HF' HF Hs'. eapply (layout_update db (before i)); try done; [by left|apply before_S|].
  rewrite before_same. done.
Qed.

(** The files of the slot at hand change while it stays unrepaired. *)
Lemma repair_files i F F' sl junk m k s :
  layout db (before i) F hdr sl junk m -> plain k -> sl !! i = Some s -> s_key s = k ->
  (forall p, p <> pth k -> p <> pth (bak_name k) -> F' !! p = F !! p) -> slot_ok db false F' m i s ->
  layout db (before i) F' hdr sl junk m.
Proof.
  intros Hl Hk Hi Hkey HF Hs. rewrite <- (list_insert_id sl i s Hi).
  eapply (layout_update db (before i)); try done; [by left| | |].
  - rewrite HF; [|intros E; symmetry in E; by apply plain_not_sum in E|intros E; symmetry in E; by apply bak_not_sum in E].
    rewrite list_insert_id by done. apply Hl.
  - intros p H1 H2 _. by apply HF.
  - left. by rewrite before_not.
Qed.

(** ** The three kinds of items *)
Lemma DelItem_ok i k b F sl junk m s (Q : Z -> state -> Prop) C :
  at_ h0 db F s -> layout db (before i) F hdr sl junk m -> plain k -> sl !! i = Some (mkSlot false b k) ->
  (forall F', layout db (before i) F' hdr sl junk m -> C F') ->
  (forall s' F', at_ h0 db F' s' -> layout db (before (S i)) F' hdr (<[i := free_slot]> sl) junk m -> Q DBM_OK s') ->
  wpc (DelItem (item_at i (mkSlot false b k))) s Q C.
Proof.
  intros Hs Hl Hk Hi HC HQ. destruct (plain_parts _ Hk) as [Hne Hsh]. destruct (plain_fits db k Hdir Hk) as [Hf Hfb].
  assert (Hm : m !! k = None).
  { pose proof (ly_slots _ _ _ _ _ _ _ Hl i _ Hi) as [Hx|[_ Hx]]; [by injection Hx as _ Hx; subst|].
    rewrite before_not in Hx. done. }
  assert (Hany : forall F', (forall p, p <> pth k -> p <> pth (bak_name k) -> F' !! p = F !! p) ->
    layout db (before i) F' hdr sl junk m).
  { intros F' HF'. eapply repair_files; [exact Hl|exact Hk|exact Hi|done|exact HF'|]. right. by split. }
  unfold DelItem. rewrite item_at_key by done. cbn [s_key].
  wbind. eapply delete_existing_ok; [exact Hh0|exact Hs|by apply HC|done|]. intros s1 Hs1. cbn [negb].
  rewrite sprintf_bak by (apply Hsh || (vm_compute; lia)).
  wbind. eapply delete_existing_ok; [exact Hh0|exact Hs1| |done|].
  { apply HC, Hany. intros p Hp _. by rewrite lookup_delete_ne. }
  intros s2 Hs2. cbn [negb]. wbind. eapply wpc_at_handle; [done|exact Hs2|].
  set (F2 := delete (pth (bak_name k)) (delete (pth k) F)) in *.
  assert (Hl2 : layout db (before i) F2 hdr sl junk m).
  { apply Hany. intros p Hp Hp'. unfold F2. by rewrite !lookup_delete_ne. }
  wbind. eapply (write_slot_ok h0 Hh0 db hdr Hhdr i 0 (zeros 40) (mkSlot false b k) free_slot);
    [exact Hs2|by apply HC|apply Hl2|done|vm_compute; lia|apply slot_erase|cbn [index item_at]; rewrite place_offset; lia|].
  intros s3 r Hr Hs3. rewrite (proj2 (Z.ltb_ge _ _)) by lia. eapply wpc_at_ret; [done|exact Hs3|].
  eapply HQ; [exact Hs3|]. eapply (repair_step i F2); [exact Hl2|exact Hk|exact Hi|done|by rewrite lookup_insert_eq| |].
  - intros p _ _ Hp. by rewrite lookup_insert_ne.
  - right. split; [done|]. pose proof (plain_not_sum db k Hk). pose proof (bak_not_sum db k Hk).
    rewrite !lookup_insert_ne by done. unfold F2. rewrite lookup_delete_eq.
    rewrite lookup_delete_ne by (intros E; symmetry in E; by apply plain_not_bak in E). by rewrite lookup_delete_eq.
Qed.

(** The value comes back from the backup, but the slot is marked invalid. *)
Lemma RecoverItem_ok i k F sl junk m s (Q : Z -> state -> Prop) C :
  at_ h0 db F s -> layout db (before i) F hdr sl junk m -> plain k -> sl !! i = Some (backed_slot k) ->
  (forall F', C F') ->
  (forall s' F', at_ h0 db F' s' -> layout db (before (S i)) F' hdr (<[i := mkSlot false true k]> sl) junk m ->
     Q DBM_OK s') ->
  wpc (RecoverItem (item_at i (backed_slot k))) s Q C.
Proof.
  intros Hs Hl Hk Hi HC HQ. destruct (plain_parts _ Hk) as [Hne Hsh]. destruct (plain_fits db k Hdir Hk) as [Hf Hfb].
  pose proof (ly_slots _ _ _ _ _ _ _ Hl i _ Hi) as [Hx|[_ [_ (v & Hm & Hg & Hv)]]]; [done|].
  cbn [s_key backed_slot] in Hm, Hv. pose proof (plain_not_bak db k k Hk) as Hkb.
  unfold RecoverItem. rewrite item_at_key by done. cbn [s_key backed_slot].
  wbind. eapply delete_existing_ok; [exact Hh0|exact Hs|by apply HC|done|]. intros s1 Hs1. cbn [negb].
  rewrite (sprintf_bak_path _ Hk).
  wbind. eapply (CopyValueToFile_ok h0 Hh0 (bak_name k) k (value_file i v)); [exact Hs1|by apply HC|intros n; by apply HC|done|done| |].
  { by rewrite lookup_delete_ne. }
  intros s2 Hs2. change (DBM_OK =? DBM_OK) with true. cbn [negb]. rewrite insert_delete_eq in Hs2.
  wbind. eapply wpc_at_handle; [done|exact Hs2|].
  wbind. eapply (write_slot_ok h0 Hh0 db hdr Hhdr i 1 (zeros 1) (backed_slot k) (mkSlot false true k)); [exact Hs2|by apply HC| |done|simpl; lia|apply slot_clear_valid|cbn [index item_at]; rewrite place_offset; lia|].
  { rewrite lookup_insert_ne by (by apply plain_not_sum). apply Hl. }
  intros s3 r Hr Hs3. rewrite (proj2 (Z.ltb_ge _ _)) by lia. eapply wpc_at_ret; [done|exact Hs3|].
  eapply HQ; [exact Hs3|]. eapply (repair_step i F); [exact Hl|exact Hk|exact Hi|done|by rewrite lookup_insert_eq| |].
  - intros p H1 _ Hp. by rewrite !lookup_insert_ne.
  - left. split; [done|]. right. split; [done|]. split; [done|]. exists v. cbn [s_key].
    pose proof (plain_not_sum db k Hk). pose proof (bak_not_sum db k Hk).
    rewrite !(lookup_insert_ne _ (sum_path db)) by done. rewrite lookup_insert_eq, lookup_insert_ne by done. done.
Qed.

Lemma CheckPointItem_ok i s_i F sl junk m s (Q : Z -> state -> Prop) C :
  at_ h0 db F s -> layout db (before i) F hdr sl junk m -> sl !! i = Some s_i ->
  (forall F', layout db (before i) F' hdr sl junk m -> C F') -> (backed s_i -> forall F', C F') ->
  (forall s' F', at_ h0 db F' s' -> layout db (before (S i)) F' hdr (<[i := repaired s_i]> sl) junk m -> Q DBM_OK s') ->
  wpc (CheckPointItem (item_at i s_i)) s Q C.
Proof.
  intros Hs Hl Hi HC HCb HQ. pose proof (ly_slots _ _ _ _ _ _ _ Hl i _ Hi) as Hslot. rewrite before_not in Hslot.
  pose proof (slot_ok_short _ _ _ _ _ _ Hslot) as Hsh. unfold CheckPointItem. rewrite item_at_key by done.
  destruct (decide (s_key s_i = "")) as [Ek|Ek].
  { rewrite Ek. cbn [String.length Nat.eqb]. eapply wpc_at_ret; [done|exact Hs|].
    pose proof (slot_ok_key _ _ _ _ _ _ Hslot Ek) as ->. eapply HQ; [exact Hs|].
    rewrite list_insert_id by done. destruct Hl as [? ? ? ? Hsl ? ? ?]. split; try done.
    intros j t Hj. destruct (decide (j = i)) as [->|Hne]; [simplify_eq; by left|].
    rewrite before_S by done. by apply Hsl. }
  pose proof (slot_ok_plain _ _ _ _ _ _ Hslot Ek) as Hk.
  rewrite (proj2 (Nat.eqb_neq _ _)) by (by destruct (s_key s_i)).
  wbind. eapply wpc_at_handle; [done|exact Hs|]. rewrite Hvalid. cbn [orb flag item_at isValid isBakValid].
  destruct s_i as [[] [] k]; cbn [s_key s_valid s_bak negb] in *.
  - rewrite (sprintf_bak_path _ Hk). destruct Hslot as [Hx|[_ [_ (v & Hm & Hg & Hv)]]]; [done|]. cbn [s_key] in Hv.
    wbind. eapply IsNewItem_ok; [exact Hh0|exact Hs|by apply HCb|by apply plain_fits|]. intros s1 Hs1.
    rewrite bool_decide_false by (by rewrite Hv). eapply RecoverItem_ok; try done. by apply HCb.
  - rewrite (sprintf_bak_path _ Hk). wbind. eapply wpc_at_ret; [done|exact Hs|].
    wbind. eapply delete_existing_ok; [exact Hh0|exact Hs|by apply HC|by apply plain_fits|]. intros s1 Hs1.
    eapply wpc_at_ret; [done|exact Hs1|]. eapply HQ; [exact Hs1|].
    destruct Hslot as [Hx|[_ (v & Hm & Hg & Hv & _)]]; [done|]. cbn [s_key] in *.
    eapply (repair_step i F); [exact Hl|exact Hk|exact Hi|done| | |].
    + rewrite lookup_delete_ne by (by apply bak_not_sum). rewrite list_insert_id by done. apply Hl.
    + intros p _ Hp _. by rewrite lookup_delete_ne.
    + left. split; [done|]. right. split; [done|]. exists v. cbn [s_key].
      rewrite lookup_delete_eq, lookup_delete_ne; [done|]. intros E. symmetry in E. by apply plain_not_bak in E.
  - eapply DelItem_ok; done.
  - eapply DelItem_ok; done.
Qed.
End Repair.

(** ** All items *)
Definition valids (sl : list slot) : nat := length (filter (fun s => s_valid s = true) sl).

Lemma repaired_clean s : clean s -> repaired s = s.
Proof. unfold repaired. intros [->|[-> ->]]; done. Qed.
Lemma header_ok_repaired hdr sl i s :
  header_ok hdr sl -> sl !! i = Some s -> header_ok hdr (<[i := repaired s]> sl).
Proof.
  intros [H9 [H8|(H8 & Hn & Hc)]] Hi; split; try done; [by left|]. right. rewrite Forall_forall in Hc.
  rewrite repaired_clean by (apply Hc; by eapply list_elem_of_lookup_2). rewrite list_insert_id by done.
  split_and!; try done. by apply Forall_forall.
Qed.
Lemma valids_drop sl i s :
  sl !! i = Some s -> valids (drop i sl) = ((if s_valid s then 1 else 0) + valids (drop (S i) sl))%nat.
Proof.
  intros Hi. rewrite (drop_S _ _ _ Hi). unfold valids. rewrite filter_cons.
  destruct (s_valid s); [by rewrite decide_True|by rewrite decide_False].
Qed.

(** Either nothing is claimed after an interruption, or no item has its value in the
    backup only. *)
Definition calm (C : gmap string (list byte) -> Prop) (i : nat) (sl : list slot) : Prop :=
  (forall F', C F') \/
  (Forall (fun s => ~ backed s) sl /\
   forall j s, (j < i)%nat -> sl !! j = Some s -> s_valid s = true \/ s = free_slot).

Lemma calm_step (C : gmap string (list byte) -> Prop) i sl s :
  calm C i sl -> sl !! i = Some s -> calm C (S i) (<[i := repaired s]> sl).
Proof.
  intros [HC|[Hb Hd]] Hi; [by left|right]. rewrite Forall_forall in Hb.
  assert (Hs : ~ backed s) by (apply Hb; by eapply list_elem_of_lookup_2).
  assert (Hr : ~ backed (repaired s) /\ (s_valid (repaired s) = true \/ repaired s = free_slot)).
  { unfold repaired, backed in *. destruct s as [[] [] k]; simpl in *; (split; [by intros [? ?]|]); auto. }
  pose proof (lookup_lt_Some _ _ _ Hi) as Hlt. split.
  - apply Forall_forall. intros t Ht. apply list_elem_of_lookup in Ht as [j Hj]. destruct (decide (j = i)) as [->|Hne].
    + rewrite list_lookup_insert_eq in Hj by done. injection Hj as <-. apply Hr.
    + rewrite list_lookup_insert_ne in Hj by done. apply Hb. by eapply list_elem_of_lookup_2.
  - intros j t Hji Hj. destruct (decide (j = i)) as [->|Hne].
    + rewrite list_lookup_insert_eq in Hj by done. injection Hj as <-. apply Hr.
    + rewrite list_lookup_insert_ne in Hj by done. apply (Hd j); [lia|done].
Qed.

Section Open.
Context `{UtilsFileLaws} (h0 : condition) (Hh0 : h0 <> Dead).
Abbreviation disk := (gmap string (list byte)).
Implicit Types (F : disk) (m : gmap string (list byte)) (sl : list slot) (C : disk -> Prop).

Lemma calm_durable db i F hdr sl junk m C :
  calm C i sl -> (forall F', durable db F' m -> C F') -> header_ok hdr sl ->
  layout db (before i) F hdr sl junk m -> C F.
Proof.
  intros [Hr|[_ Hd]] HC Hh Hl; [apply Hr|]. apply HC. eapply layout_durable; [exact Hl|done|].
  intros j s Hj Hb. apply Nat.ltb_lt in Hb. by eapply Hd.
Qed.

Lemma vacuum_loop_ok hdr (Hhdr : length hdr = 20%nat) junk m n : forall i db F sl s item (Q : Z -> state -> Prop) C,
  (i + n = length sl)%nat -> at_ h0 db F s -> layout db (before i) F hdr sl junk m -> header_ok hdr sl ->
  (String.length (dirPath db) <= 200)%nat -> isInvalid (sumFlag db) = false ->
  calm C i sl -> (forall F', durable db F' m -> C F') ->
  (forall s' F' sl' n', at_ h0 (set_kvItemSum n' db) F' s' -> layout db (before (length sl)) F' hdr sl' junk m ->
     sl' = take i sl ++ (repaired <$> drop i sl) -> header_ok hdr sl' -> calm C (length sl) sl' ->
     n' = (if kvSumIndexValid (sumFlag db) then kvItemSum db else kvItemSum db + Z.of_nat (valids (drop i sl))) ->
     Q DBM_OK s') ->
  wpc (vacuum_loop n (Z.of_nat i) item DBM_OK) s Q C.
Proof.
  induction n as [|n IH]; intros i db F sl s item Q C Hlen Hs Hl Hh Hdir Hinv Hcalm HC HQ; cbn [vacuum_loop].
  { assert (i = length sl) as -> by lia. eapply wpc_at_ret; [done|exact Hs|].
    eapply (HQ _ F sl (kvItemSum db)); try done; [by rewrite set_kvItemSum_id| |].
    { rewrite take_ge, drop_ge by lia. by rewrite app_nil_r. }
    rewrite drop_ge by lia. cbn. rewrite Z.add_0_r. by destruct (kvSumIndexValid _). }
  destruct (lookup_lt_is_Some_2 sl i) as [si Hi]; [lia|].
  pose proof (ly_slots _ _ _ _ _ _ _ Hl i _ Hi) as Hslot.
  assert (HCl : forall F', layout db (before i) F' hdr sl junk m -> C F') by (intros F' HF'; by eapply calm_durable).
  wbind. eapply (LoadDataItem_ok h0 Hh0 db hdr Hhdr i si); [exact Hs|by apply HCl|apply Hl|exact Hi|by eapply slot_ok_short|].
  intros s1 Hs1. change (DBM_OK =? DBM_OK) with true. cbn [negb].
  wbind. eapply (CheckPointItem_ok h0 Hh0 db hdr Hhdr Hdir Hinv i si); [exact Hs1|exact Hl|exact Hi|exact HCl| |].
  { intros Hb. destruct Hcalm as [Hr|[Hnb _]]; [done|]. rewrite Forall_forall in Hnb. exfalso.
    apply (Hnb si); [by eapply list_elem_of_lookup_2|done]. }
  intros s2 F2 Hs2 Hl2. change (DBM_OK =? DBM_OK) with true. cbn [negb].
  pose proof (calm_step C i sl si Hcalm Hi) as Hcalm2. pose proof (header_ok_repaired _ _ _ _ Hh Hi) as Hh2.
  set (sl2 := <[i := repaired si]> sl) in *.
  assert (Hlen2 : length sl2 = length sl) by (unfold sl2; apply length_insert).
  assert (Hdrop : drop (S i) sl2 = drop (S i) sl) by (unfold sl2; apply drop_insert_lt; lia).
  assert (Htake : take (S i) sl2 ++ (repaired <$> drop (S i) sl) = take i sl ++ (repaired <$> drop i sl)).
  { unfold sl2. rewrite (take_S_r _ i (repaired si)) by (apply list_lookup_insert_eq; lia).
    rewrite take_insert_ge by lia. rewrite (drop_S _ _ _ Hi). by rewrite <- app_assoc. }
  wbind. eapply wpc_at_handle; [done|exact Hs2|]. rewrite Hinv. cbn [flag item_at isValid negb].
  replace (Z.of_nat i + 1) with (Z.of_nat (S i)) by lia.
  assert (Hgoal : forall s' k, at_ h0 (set_kvItemSum k db) F2 s' ->
    k = (if kvSumIndexValid (sumFlag db) then kvItemSum db else kvItemSum db + (if s_valid si then 1 else 0)) ->
    wpc (vacuum_loop n (Z.of_nat (S i)) zeroItem DBM_OK) s' Q C).
  { intros s' k Hs' Hkeq. eapply (IH (S i) (set_kvItemSum k db) F2 sl2); try done; [lia|by apply layout_count| |].
    - intros F' HF'. apply HC. by eapply durable_count.
    - intros s3 F3 sl3 n' Hs3 Hl3 Hsl3 Hh3 Hcalm3 Hn'. rewrite Hlen2 in *.
      eapply (HQ s3 F3 sl3 n'); [exact Hs3|by eapply layout_uncount| |done|done|].
      + by rewrite Hsl3, Hdrop.
      + rewrite Hn'. cbn [kvItemSum sumFlag set_kvItemSum]. rewrite Hdrop, (valids_drop _ _ _ Hi), Hkeq.
        destruct (kvSumIndexValid (sumFlag db)); [done|]. destruct (s_valid si); lia. }
  wbind. destruct (kvSumIndexValid (sumFlag db)) eqn:Ev; cbn [negb andb].
  - eapply wpc_at_ret; [done|exact Hs2|]. apply (Hgoal _ (kvItemSum db)); [by rewrite set_kvItemSum_id|done].
  - destruct (s_valid si); cbn [andb].
    + eapply wpc_at_set_handle; [done|exact Hs2|done|done|]. intros s3 Hs3. by apply (Hgoal _ (kvItemSum db + 1)).
    + eapply wpc_at_ret; [done|exact Hs2|]. apply (Hgoal _ (kvItemSum db)); [by rewrite set_kvItemSum_id|lia].
Qed.

Lemma seek_end_ok c db F s (Q : Z -> state -> Prop) C :
  at_ h0 db F s -> C F -> F !! sum_path db = Some c ->
  (forall s', at_ h0 db F s' -> Q (Z.of_nat (length c)) s') -> wpc (call (UtilsFileSeek (sumFileFd db) 0 SEEK_END_FS)) s Q C.
Proof.
  intros [pos Hs] HC Hc HQ. eapply wpc_seek; [exact Hs|done|apply lookup_singleton_eq|exact Hc|simpl; lia| |].
  - cbn [target]. intros s' t -> Hs'. rewrite insert_singleton_eq in Hs'. rewrite Z.add_0_r. apply HQ. by eexists.
  - cbn [target]. intros s' r Hr Hp. lia.
Qed.
Lemma seek_start_ok c db F s (Q : Z -> state -> Prop) C :
  at_ h0 db F s -> C F -> F !! sum_path db = Some c ->
  (forall s', at_pos h0 db F 0 s' -> Q 0 s') -> wpc (call (UtilsFileSeek (sumFileFd db) 0 SEEK_SET_FS)) s Q C.
Proof.
  intros [pos Hs] HC Hc HQ. eapply wpc_seek; [exact Hs|done|apply lookup_singleton_eq|exact Hc|simpl; lia| |].
  - cbn [target]. intros s' t -> Hs'. rewrite insert_singleton_eq in Hs'. by apply HQ.
  - cbn [target]. intros s' r Hr Hp. lia.
Qed.

Lemma VacuumStore_ok hdr junk m db F sl s (Q : Z -> state -> Prop) C :
  at_ h0 db F s -> layout db (before 0) F hdr sl junk m -> header_ok hdr sl ->
  (String.length (dirPath db) <= 200)%nat -> isInvalid (sumFlag db) = false ->
  calm C 0 sl -> (forall F', durable db F' m -> C F') ->
  (forall s' F' sl' n', at_ h0 (set_kvItemSum n' db) F' s' -> layout db (before (length sl)) F' hdr sl' junk m ->
     sl' = repaired <$> sl -> header_ok hdr sl' -> calm C (length sl) sl' ->
     n' = (if kvSumIndexValid (sumFlag db) then kvItemSum db else Z.of_nat (valids sl)) -> Q DBM_OK s') ->
  wpc VacuumStore s Q C.
Proof.
  intros Hs Hl Hh Hdir Hinv Hcalm HC HQ. pose proof (ly_header _ _ _ _ _ _ _ Hl) as Hhdr.
  pose proof (ly_sum _ _ _ _ _ _ _ Hl) as HF. pose proof (ly_junk _ _ _ _ _ _ _ Hl) as Hj.
  pose proof (ly_room _ _ _ _ _ _ _ Hl) as Hroom.
  assert (HCl : C F) by (by eapply calm_durable).
  pose proof (sum_length hdr Hhdr sl junk) as Hlen. unfold place in Hlen.
  unfold VacuumStore. wbind. eapply wpc_at_handle; [done|exact Hs|].
  wbind. eapply seek_end_ok; [exact Hs|done|exact HF|]. intros s1 Hs1. rewrite Hlen.
  rewrite (proj2 (Z.ltb_ge _ _)) by (unfold SUM_FILE_HEADER_SIZE; lia). cbn [andb].
  wbind. eapply seek_start_ok; [exact Hs1|done|exact HF|]. intros s2 Hs2. rewrite (proj2 (Z.ltb_ge _ _)) by lia.
  assert (Hquot : (Z.of_nat (20 + 44 * length sl + length junk) - Z.of_nat SUM_FILE_HEADER_SIZE) ÷
    Z.of_nat KV_SUM_DATA_ITEM_SIZE = Z.of_nat (length sl)).
  { unfold SUM_FILE_HEADER_SIZE, KV_SUM_DATA_ITEM_SIZE. rewrite Z.quot_div_nonneg by lia.
    symmetry. apply (Z.div_unique _ _ _ (Z.of_nat (length junk))); lia. }
  rewrite Hquot. replace (_ >? _) with false by (symmetry; rewrite Z.gtb_ltb; apply Z.ltb_ge; unfold DBM_MAX_KV_SUM; lia).
  rewrite Nat2Z.id. assert (Hs2' : at_ h0 db F s2) by (by eexists).
  assert (Hgoal : forall s' k, at_ h0 (set_kvItemSum k db) F s' ->
    k = (if kvSumIndexValid (sumFlag db) then kvItemSum db else 0) ->
    wpc (got ← call malloc; if negb got then mret DBM_ERROR else vacuum_loop (length sl) 0 zeroItem 0) s' Q C).
  { intros s' k Hs' Hk. wbind. eapply wpc_at_malloc; [exact Hs'|done|]. intros s3 Hs3. cbn [negb].
    eapply (vacuum_loop_ok hdr Hhdr junk m (length sl) 0 (set_kvItemSum k db) F sl); try done; [by apply layout_count| |].
    - intros F' HF'. apply HC. by eapply durable_count.
    - intros s4 F4 sl4 n' Hs4 Hl4 Hsl4 Hh4 Hcalm4 Hn'. rewrite drop_0 in Hsl4.
      eapply (HQ s4 F4 sl4 n'); [exact Hs4|by eapply layout_uncount|done|done|done|].
      rewrite Hn'. cbn [kvItemSum sumFlag set_kvItemSum]. rewrite drop_0, Hk. by destruct (kvSumIndexValid _). }
  wbind. destruct (kvSumIndexValid (sumFlag db)) eqn:Ev.
  - eapply wpc_at_ret; [done|exact Hs2'|]. apply (Hgoal _ (kvItemSum db)); [by rewrite set_kvItemSum_id|done].
  - eapply wpc_at_set_handle; [done|exact Hs2'|done|done|]. intros s3 Hs3. by apply (Hgoal _ 0).
Qed.

(** ** The header *)
Lemma header_write j b db F hdr sl junk off s (Q : Z -> state -> Prop) C :
  at_ h0 db F s -> C F -> length hdr = 20%nat -> F !! sum_path db = Some (sum_bytes hdr sl junk) ->
  (j + length b <= 20)%nat -> off = Z.of_nat j ->
  (forall s' r, 0 <= r -> at_ h0 db (<[sum_path db := sum_bytes (overwrite hdr j b) sl junk]> F) s' -> Q r s') ->
  wpc (FileWriteCursor (sumFileFd db) off SEEK_SET_FS b) s Q C.
Proof.
  intros Hs HC Hhdr HF Hj -> HQ. eapply FileWriteCursor_ok; [exact Hh0|exact Hs|done|exact HF| |].
  - rewrite (sum_length hdr Hhdr). unfold place. lia.
  - intros s1 r Hr Hs1. rewrite (overwrite_header hdr Hhdr) in Hs1 by done. by eapply HQ.
Qed.

Lemma overwrite_lookup l pos b j :
  (pos + length b <= length l)%nat ->
  overwrite l pos b !! j = if (pos <=? j)%nat && (j <? pos + length b)%nat then b !! (j - pos)%nat else l !! j.
Proof.
  intros Hl. unfold overwrite. destruct (Nat.leb_spec pos j) as [H1|H1]; cbn [andb].
  - rewrite lookup_app_r by (rewrite length_take; lia). rewrite length_take.
    replace (pos `min` length l)%nat with pos by lia. destruct (Nat.ltb_spec j (pos + length b)) as [H2|H2].
    + by rewrite lookup_app_l by lia.
    + rewrite lookup_app_r by lia. rewrite lookup_drop. f_equal. lia.
  - rewrite lookup_app_l by (rewrite length_take; lia). by rewrite lookup_take_lt by lia.
Qed.

(** Writing the count: its flag is off while the count changes. *)
Lemma SetSumIndexToFile_ok n db F hdr sl junk m (d : nat -> bool) s (Q : Z -> state -> Prop) C :
  at_ h0 db F s -> layout db d F hdr sl junk m -> hdr !! 9%nat = Some zero -> (n <= 45)%nat -> C F ->
  (forall F' hdr', layout db d F' hdr' sl junk m -> hdr' !! 8%nat = Some zero -> hdr' !! 9%nat = Some zero -> C F') ->
  (forall s' F' hdr' db', db' = set_kvItemSum (Z.of_nat n) (set_sumIndexValid true db) -> at_ h0 db' F' s' ->
     layout db d F' hdr' sl junk m -> hdr' !! 8%nat = Some one -> hdr' !! 9%nat = Some zero ->
     take 4 hdr' = digits n -> Q DBM_OK s') ->
  wpc (SetSumIndexToFile (Z.of_nat n)) s Q C.
Proof.
  intros Hs Hl H9 Hn HC HC' HQ. pose proof (ly_header _ _ _ _ _ _ _ Hl) as Hhdr.
  pose proof (ly_junk _ _ _ _ _ _ _ Hl) as Hjunk. destruct (index_facts_ok n Hn) as (Hsp & Hd4 & _).
  unfold SetSumIndexToFile. wbind. eapply wpc_at_set_handle; [done|exact Hs|done|done|]. intros s1 Hs1.
  wbind. eapply wpc_at_handle; [done|exact Hs1|]. set (db1 := set_sumIndexValid false db) in *.
  change (sumFileFd db1) with (sumFileFd db) in *.
  set (hdr1 := overwrite hdr 8 (zeros 1)). set (hdr2 := overwrite hdr1 0 (digits n)). set (hdr3 := overwrite hdr2 8 [one]).
  assert (Hl1 : length hdr1 = 20%nat) by (unfold hdr1; rewrite overwrite_length; simpl; lia).
  assert (Hl2 : length hdr2 = 20%nat) by (unfold hdr2; rewrite overwrite_length; lia).
  assert (Hl3 : length hdr3 = 20%nat) by (unfold hdr3; rewrite overwrite_length; simpl; lia).
  wbind. eapply (header_write 8 (zeros 1) db1 F hdr sl junk); [exact Hs1|done|done|apply Hl|simpl; lia|done|].
  intros s2 r Hr Hs2. rewrite (proj2 (Z.ltb_ge _ _)) by lia. change KV_SUM_INDEX with 4%nat. rewrite Hsp.
  fold hdr1 in Hs2. set (F1 := <[sum_path db := sum_bytes hdr1 sl junk]> F) in *.
  assert (HL1 : layout db d F1 hdr1 sl junk m) by (by eapply layout_sum).
  assert (H81 : hdr1 !! 8%nat = Some zero /\ hdr1 !! 9%nat = Some zero).
  { unfold hdr1. rewrite !overwrite_lookup by (rewrite Hhdr; cbn; lia). done. }
  assert (HC1 : C F1).
  { eapply (HC' F1 hdr1); [done|by apply H81..]. }
  wbind. eapply wpc_at_set_handle; [done|exact Hs2|done|done|]. intros s3 Hs3.
  set (db3 := set_kvItemSum (Z.of_nat n) db1) in *. change (sumFileFd db) with (sumFileFd db3).
  wbind. eapply (header_write 0 (digits n) db3 F1 hdr1 sl junk); [exact Hs3|done|done|apply HL1|lia|done|].
  intros s4 r' Hr' Hs4. rewrite (proj2 (Z.ltb_ge _ _)) by lia. fold hdr2 in Hs4.
  change (sum_path db3) with (sum_path db) in Hs4. set (F2 := <[sum_path db := sum_bytes hdr2 sl junk]> F1) in *.
  assert (HL2 : layout db d F2 hdr2 sl junk m) by (by eapply layout_sum).
  assert (H82 : hdr2 !! 8%nat = Some zero /\ hdr2 !! 9%nat = Some zero).
  { unfold hdr2. rewrite !overwrite_lookup by (rewrite Hl1; lia). by rewrite Hd4. }
  wbind. eapply wpc_at_set_handle; [done|exact Hs4|done|done|]. intros s5 Hs5.
  set (db5 := set_sumIndexValid true db3) in *. change (sumFileFd db3) with (sumFileFd db5).
  wbind. eapply (header_write 8 [one] db5 F2 hdr2 sl junk); [exact Hs5|by apply (HC' F2 hdr2); [|apply H82..]|done|apply HL2|simpl; lia|done|].
  intros s6 r'' Hr'' Hs6. rewrite (proj2 (Z.ltb_ge _ _)) by lia. fold hdr3 in Hs6.
  change (sum_path db5) with (sum_path db) in Hs6. eapply wpc_at_ret; [done|exact Hs6|].
  eapply (HQ _ _ hdr3 db5); [done|exact Hs6|by eapply layout_sum|..].
  - unfold hdr3. by rewrite overwrite_lookup by (rewrite Hl2; cbn; lia).
  - unfold hdr3. rewrite overwrite_lookup by (rewrite Hl2; cbn; lia). apply H82.
  - unfold hdr3, overwrite at 1. rewrite take_app_le by (rewrite length_take; lia).
    rewrite take_take. change (4 `min` 8)%nat with 4%nat. unfold hdr2, overwrite. rewrite take_0, app_nil_l.
    apply take_app_length'. by rewrite Hd4.
Qed.
End Open.

(** * Opening and closing a store

    The header of the sum file, the check of the items, and with them opening: after it the
    store answers every read from the map the files stood for. *)

(** ** The slots after the repair *)
Lemma repaired_clean_all sl : Forall (fun s => ~ backed s) sl -> Forall clean (repaired <$> sl).
Proof.
  intros Hb. apply Forall_fmap. eapply Forall_impl; [exact Hb|]. intros [[] [] k] Hs; unfold repaired, clean; simpl; auto.
  by destruct Hs.
Qed.
Lemma repaired_id sl : Forall clean sl -> repaired <$> sl = sl.
Proof.
  intros Hc. rewrite <- (list_fmap_id sl) at 2. apply list_fmap_ext. intros i s Hi. apply repaired_clean.
  rewrite Forall_forall in Hc. apply Hc. by eapply list_elem_of_lookup_2.
Qed.
Lemma clean_not_backed sl : Forall clean sl -> Forall (fun s => ~ backed s) sl.
Proof. intros Hc. eapply Forall_impl; [exact Hc|]. intros s [->|[? ?]] [? ?]; simpl in *; congruence. Qed.
Lemma repaired_calm C sl : Forall (fun s => ~ backed s) sl -> calm C 0 sl.
Proof. intros Hb. right. split; [done|]. intros j s Hj. lia. Qed.

Lemma valids_used db d F hdr sl junk m :
  layout db d F hdr sl junk m -> Forall (fun s => ~ backed s) sl -> valids sl = used (repaired <$> sl).
Proof.
  intros Hl. assert (Hk : Forall (fun s => s_valid s = true -> s_key s <> "") sl).
  { apply Forall_lookup. intros i s Hi Hv E. pose proof (ly_slots _ _ _ _ _ _ _ Hl i s Hi) as Hs.
    by rewrite (slot_ok_key _ _ _ _ _ _ Hs E) in Hv. }
  clear Hl. intros Hb. unfold valids, used. induction sl as [|s sl IH]; [done|].
  inversion_clear Hk as [|? ? Hk1 Hk2]. inversion_clear Hb as [|? ? Hb1 Hb2]. specialize (IH Hk2 Hb2).
  rewrite fmap_cons, !filter_cons. destruct s as [[] [] k]; unfold repaired, backed in *; simpl in *;
    repeat case_decide; simpl; try done; try tauto; by rewrite IH.
Qed.

Lemma layout_same db db' d F hdr sl junk m :
  type db' = type db -> dirPath db' = dirPath db -> layout db d F hdr sl junk m -> layout db' d F hdr sl junk m.
Proof.
  intros Ht Hd. assert (Hp : forall name, ItemPathFormat db' name = ItemPathFormat db name).
  { intros name. unfold ItemPathFormat. by rewrite Ht, Hd. }
  intros [Hsum Hh Hj Hr Hsl Hdi Ha Hpl]. split; try done.
  - unfold sum_path. by rewrite Hp.
  - intros i s Hi. destruct (Hsl i s Hi) as [->|[Hk Hs]]; [by left|right]. rewrite !Hp. by split.
  - intros k Hk Hno. rewrite !Hp. by apply Ha.
Qed.
Lemma sum_path_same db db' : type db' = type db -> dirPath db' = dirPath db -> sum_path db' = sum_path db.
Proof. intros Ht Hd. unfold sum_path, ItemPathFormat. by rewrite Ht, Hd. Qed.
Lemma layout_before db n F hdr sl junk m :
  layout db (before n) F hdr sl junk m -> (length sl <= n)%nat -> layout db (fun _ => true) F hdr sl junk m.
Proof.
  intros [Hsum Hh Hj Hr Hsl Hdi Ha Hpl] Hn. split; try done. intros i s Hi. pose proof (lookup_lt_Some _ _ _ Hi).
  replace true with (before n i); [by apply Hsl|]. apply Nat.ltb_lt. lia.
Qed.
Lemma layout_start db d F hdr sl junk m :
  (forall i, d i = false) -> layout db d F hdr sl junk m -> layout db (before 0) F hdr sl junk m.
Proof. intros Hd [? ? ? ? Hsl ? ? ?]. split; try done. intros i s Hi. change (before 0 i) with false. rewrite <- (Hd i). by apply Hsl. Qed.

(** The count as it is read back. *)
Lemma count_read n : (n <= 45)%nat -> atoi (buffer 5 (digits n)) = Some (Z.of_nat n).
Proof.
  intros Hn. assert (Hall : Forall (fun i => atoi (buffer 5 (digits i)) = Some (Z.of_nat i)) (seq 0 46)).
  { apply (bool_decide_unpack _). vm_compute. done. }
  rewrite Forall_forall in Hall. apply Hall. apply elem_of_seq. lia.
Qed.

Section Reopen.
Context `{UtilsFileLaws} (h0 : condition) (Hh0 : h0 <> Dead).
Abbreviation disk := (gmap string (list byte)).
Implicit Types (F : disk) (m : gmap string (list byte)) (sl : list slot) (C : disk -> Prop).

Lemma SetSumIndex_ok n db F hdr sl junk m (d : nat -> bool) s (Q : Z -> state -> Prop) C :
  at_ h0 db F s -> layout db d F hdr sl junk m -> hdr !! 9%nat = Some zero -> kvItemSum db = Z.of_nat n -> (n <= 45)%nat ->
  C F ->
  (forall F' hdr', layout db d F' hdr' sl junk m -> hdr' !! 8%nat = Some zero -> hdr' !! 9%nat = Some zero -> C F') ->
  (forall s' F' hdr', at_ h0 (set_sumIndexValid true db) F' s' -> layout db d F' hdr' sl junk m ->
     hdr' !! 9%nat = Some zero ->
     (F' = F /\ hdr' = hdr) \/ (hdr' !! 8%nat = Some one /\ take 4 hdr' = digits n) -> Q DBM_OK s') ->
  wpc SetSumIndex s Q C.
Proof.
  intros Hs Hl H9 Hsum Hn HC HC' HQ. unfold SetSumIndex. wbind. eapply wpc_at_handle; [done|exact Hs|].
  destruct (kvSumIndexValid (sumFlag db)) eqn:Ev.
  - eapply wpc_at_ret; [done|exact Hs|]. eapply (HQ _ F hdr); [|done|done|by left].
    replace (set_sumIndexValid true db) with db; [done|]. by destruct db as [? ? ? ? ? [? ? []] ? ? ? ?].
  - rewrite Hsum. eapply SetSumIndexToFile_ok; [done|exact Hs|exact Hl|done|done|done|done|].
    intros s' F' hdr' db' -> Hs' Hl' H8' H9' Ht'. eapply (HQ _ F' hdr'); [|done|done|by right].
    rewrite <- Hsum in Hs'. by destruct db.
Qed.

Definition settled (db : DBM) : DBM := set_sumFlag (mkStatus false false false) db.

Lemma CheckPoint_ok b db F hdr sl junk m s (Q : Z -> state -> Prop) C :
  at_ h0 db F s -> layout db (before 0) F hdr sl junk m -> header_ok hdr sl -> (String.length (dirPath db) <= 200)%nat ->
  sumFlag db = mkStatus true false b ->
  (b = true -> kvItemSum db = Z.of_nat (used sl) /\ Forall clean sl) ->
  calm C 0 sl -> (forall F', durable db F' m -> C F') ->
  (forall s' F' hdr' n, at_ h0 (set_kvItemSum n (settled db)) F' s' ->
     layout db (fun _ => true) F' hdr' (repaired <$> sl) junk m -> hdr' !! 8%nat = Some zero -> hdr' !! 9%nat = Some zero ->
     (Forall (fun s => ~ backed s) sl -> n = Z.of_nat (used (repaired <$> sl))) -> Q DBM_OK s') ->
  wpc CheckPoint s Q C.
Proof.
  intros Hs Hl Hh Hdir Hflag Hb Hcalm HC HQ. pose proof (ly_room _ _ _ _ _ _ _ Hl) as Hroom.
  unfold CheckPoint. wbind. eapply wpc_at_handle; [done|exact Hs|]. rewrite Hflag. cbn [isNeedRecovery negb].
  wbind. eapply VacuumStore_ok; [done|exact Hs|exact Hl|exact Hh|done|by rewrite Hflag|exact Hcalm|done|].
  intros s1 F1 sl1 n' Hs1 Hl1 -> Hh1 Hcalm1 Hn'. change (DBM_OK =? DBM_OK) with true. cbn [negb].
  set (sl1 := repaired <$> sl) in *. rewrite Hflag in Hn'. cbn [kvSumIndexValid] in Hn'.
  assert (Hcount : Forall (fun s => ~ backed s) sl -> n' = Z.of_nat (used sl1)).
  { intros Hnb. rewrite Hn'. destruct b.
    - destruct Hb as [-> Hc]; [done|]. unfold sl1. by rewrite repaired_id.
    - by rewrite (valids_used _ _ _ _ _ _ _ Hl Hnb). }
  assert (Hsmall : exists n, n' = Z.of_nat n /\ (n <= 45)%nat).
  { rewrite Hn'. destruct b.
    - destruct Hb as [-> _]; [done|]. eexists. split; [done|]. pose proof (used_le sl). lia.
    - eexists. split; [done|]. unfold valids. pose proof (length_filter (fun s => s_valid s = true) sl). lia. }
  destruct Hsmall as (n & -> & Hn). set (db1 := set_kvItemSum (Z.of_nat n) db) in *.
  assert (HC1 : forall F' hdr', layout db (before (length sl)) F' hdr' sl1 junk m -> header_ok hdr' sl1 -> C F').
  { intros F' hdr' Hl' Hh'. by eapply calm_durable. }
  wbind. eapply (SetSumIndex_ok n db1 F1 hdr sl1 junk m (before (length sl)));
    [exact Hs1|by apply layout_count|apply Hh1|done|done|by eapply HC1| |].
  { intros F' hdr' Hl' H8 H9. eapply HC1; [by eapply layout_uncount|]. split; [done|by left]. }
  intros s2 F2 hdr2 Hs2 Hl2 H9 Hcase. apply layout_uncount in Hl2. change (DBM_OK =? DBM_OK) with true. cbn [negb].
  assert (HC2 : C F2).
  { destruct Hcase as [[-> ->]|[H8 Ht]]; [by eapply HC1|]. destruct Hcalm as [Hall|[Hnb _]]; [apply Hall|].
    eapply HC1; [exact Hl2|]. split; [done|]. right. split; [done|]. rewrite Ht. split.
    - f_equal. specialize (Hcount Hnb). lia.
    - by apply repaired_clean_all. }
  pose proof (ly_header _ _ _ _ _ _ _ Hl2) as Hhdr. set (hdr3 := overwrite hdr2 8 (zeros 4)).
  wbind. change (sumFileFd db) with (sumFileFd (set_sumIndexValid true db1)).
  eapply (header_write h0 Hh0 8 (zeros 4) _ F2 hdr2 sl1 junk); [exact Hs2|done|done|apply Hl2|simpl; lia|done|].
  intros s3 r Hr Hs3. rewrite (proj2 (Z.ltb_ge _ _)) by lia. fold hdr3 in Hs3.
  change (sum_path (set_sumIndexValid true db1)) with (sum_path db) in Hs3.
  wbind. eapply wpc_at_set_handle; [done|exact Hs3|done|done|]. intros s4 Hs4. eapply wpc_at_ret; [done|exact Hs4|].
  assert (Hl3 : length hdr3 = 20%nat) by (unfold hdr3; rewrite overwrite_length; simpl; lia).
  eapply (HQ _ _ hdr3 (Z.of_nat n)); [exact Hs4| | | |exact Hcount].
  - eapply layout_before; [eapply layout_sum; [exact Hl2|done|apply Hl2]|]. unfold sl1. by rewrite length_fmap.
  - unfold hdr3. rewrite overwrite_lookup by (rewrite Hhdr; cbn; lia). done.
  - unfold hdr3. rewrite overwrite_lookup by (rewrite Hhdr; cbn; lia). done.
Qed.

(** Reading the header: the flags, and the count when it is flagged. *)
Lemma LoadSumFileHeader_ok db F hdr sl junk s (Q : Z -> state -> Prop) C :
  at_ h0 db F s -> C F -> F !! sum_path db = Some (sum_bytes hdr sl junk) -> length hdr = 20%nat ->
  header_ok hdr sl -> (length sl <= 45)%nat ->
  (forall s' b n, at_ h0 (set_kvItemSum n (set_sumFlag (mkStatus true false b) db)) F s' ->
     (b = true -> n = Z.of_nat (used sl) /\ Forall clean sl) -> Q DBM_OK s') ->
  wpc LoadSumFileHeader s Q C.
Proof.
  intros Hs HC HF Hhdr Hh Hroom HQ. unfold LoadSumFileHeader. wbind. eapply wpc_at_handle; [done|exact Hs|].
  wbind. eapply (FileReadCursor_ok h0 Hh0 0 20); [exact Hs|done|exact HF|]. intros s1 r Hr Hs1. cbn iota beta.
  rewrite (proj2 (Z.ltb_ge _ _)) by lia.
  assert (Hseg : segment (sum_bytes hdr sl junk) 0 20 = hdr).
  { unfold sum_bytes. rewrite segment_app_l by lia. unfold segment. rewrite drop_0. apply take_ge. lia. }
  rewrite Hseg. change (IsHeaderValid _) with true. cbn [negb].
  assert (Hbuf : buffer (SUM_FILE_HEADER_SIZE + 1) hdr = hdr ++ zeros 1).
  { rewrite buffer_spec by (rewrite Hhdr; cbn; lia). by rewrite Hhdr. }
  rewrite Hbuf. change (segment (hdr ++ zeros 1) 0 KV_SUM_INDEX) with (take 4 (hdr ++ zeros 1)).
  rewrite take_app_le by lia.
  set (fl := buffer _ (segment _ (KV_MAGIC_SIZE + KV_SUM_INDEX) KV_SUM_INDEX)).
  assert (Hfl : forall j, (j < 4)%nat -> fl !! j = hdr !! (8 + j)%nat).
  { intros j Hj. unfold fl, segment. change (KV_MAGIC_SIZE + KV_SUM_INDEX)%nat with 8%nat. change KV_SUM_INDEX with 4%nat.
    assert (Hlen : length (take 4 (drop 8 (hdr ++ zeros 1))) = 4%nat).
    { rewrite length_take, length_drop, length_app, Hhdr. done. }
    rewrite buffer_spec by (rewrite Hlen; cbn; lia). rewrite lookup_app_l by lia.
    rewrite lookup_take_lt by done. rewrite lookup_drop. rewrite lookup_app_l by lia. done. }
  destruct Hh as [H9 Hh].
  assert (H1 : fl !! 1%nat = Some zero) by (rewrite Hfl by lia; done).
  wbind. unfold SetSumFlag. rewrite H1. cbn [default].
  eapply wpc_at_set_handle; [done|exact Hs1|done|done|]. intros s2 Hs2. wbind. eapply wpc_at_handle; [done|exact Hs2|].
  rewrite (bool_decide_false (zero <> zero)) in * by (by intros []).
  destruct Hh as [H8|(H8 & Hn & Hc)].
  - assert (H0' : fl !! 0%nat = Some zero) by (rewrite Hfl by lia; done). rewrite H0' in *. cbn [default] in *.
    rewrite (bool_decide_false (zero <> zero)) in * by (by intros []). cbn [sumFlag set_sumFlag kvSumIndexValid].
    eapply wpc_at_ret; [done|exact Hs2|]. eapply (HQ _ false (kvItemSum db)); [|done].
    exact Hs2.
  - assert (H0' : fl !! 0%nat = Some one) by (rewrite Hfl by lia; done). rewrite H0' in *. cbn [default] in *.
    rewrite (bool_decide_true (one <> zero)) in * by done. cbn [sumFlag set_sumFlag kvSumIndexValid].
    rewrite Hn. change (KV_SUM_INDEX + 1)%nat with 5%nat. rewrite count_read by (pose proof (used_le sl); lia).
    wbind. destruct Hs2 as [pos Hs2]. eapply wpc_parsed; [done|exact Hs2|]. assert (Hs2' : at_ h0 _ F s2) by (by exists pos).
    wbind. eapply wpc_at_set_handle; [done|exact Hs2'|done|done|]. intros s3 Hs3.
    eapply wpc_at_ret; [done|exact Hs3|]. by eapply (HQ _ true).
Qed.

(** ** Opening *)
Lemma OpenSumFile_ok mode db F s (Q : Z -> state -> Prop) C :
  here h0 db F ∅ s -> C F -> fits db KV_SUM_FILE -> o_creat mode = true -> o_trunc mode = false ->
  (forall s' fd, 0 <= fd ->
     here h0 db (if bool_decide (F !! sum_path db = None) then <[sum_path db := []]> F else F)
       {[fd := (sum_path db, O)]} s' -> Q fd s') ->
  wpc (OpenSumFile mode) s Q C.
Proof.
  intros Hs HC Hfit Hcr Htr HQ. unfold OpenSumFile. wbind. eapply wpc_malloc; [exact Hs|done|]. intros s1 Hs1. cbn [negb].
  wbind. eapply wpc_handle; [done|exact Hs1|]. unfold GetSumFilePath. rewrite sprintf_fits by done.
  change (DBM_OK <? 0) with false. fold (sum_path db).
  eapply wpc_open; [exact Hh0|exact Hs1|done|by right|]. intros s2 fd Hfd _ Hs2. rewrite Htr in Hs2. by eapply HQ.
Qed.

(** A place without a store: at most an empty sum file. *)
Record vacant (db : DBM) F : Prop := {
  va_sum : F !! sum_path db = None \/ F !! sum_path db = Some [];
  va_keys : forall k, plain k -> F !! ItemPathFormat db k = None /\ F !! ItemPathFormat db (bak_name k) = None;
}.

(** The files of a store that is not open; a [quiet] one was closed, or lost its
    power with no item in the backup and none half appended. *)
Definition stored (quiet : bool) (db : DBM) F m : Prop :=
  (exists hdr sl junk, layout db (fun _ => false) F hdr sl junk m /\ header_ok hdr sl /\
     (quiet = true -> Forall (fun s => ~ backed s) sl /\ junk = [])) \/
  (m = ∅ /\ vacant db F).
Lemma durable_stored db F m : durable db F m -> stored false db F m.
Proof. intros (hdr & sl & junk & Hl & Hh). left. exists hdr, sl, junk. by split_and!. Qed.
Lemma stored_weaken q db F m : stored q db F m -> stored false db F m.
Proof. intros [(hdr & sl & junk & Hl & Hh & _)|Hv]; [left; exists hdr, sl, junk; by split_and!|by right]. Qed.

Lemma stored_same q db db' F m :
  type db' = type db -> dirPath db' = dirPath db -> stored q db F m -> stored q db' F m.
Proof.
  intros Ht Hd [(hdr & sl & junk & Hl & Hrest)|[-> [Hs Hk]]].
  - left. exists hdr, sl, junk. split; [by eapply layout_same|done].
  - right. split; [done|]. assert (Hp : forall name, ItemPathFormat db' name = ItemPathFormat db name).
    { intros name. unfold ItemPathFormat. by rewrite Ht, Hd. }
    split; [by rewrite (sum_path_same db) by done|]. intros k Hpl. rewrite !Hp. by apply Hk.
Qed.

(** A handle as it is before opening. *)
Record unopened (db : DBM) : Prop := {
  uo_count : kvItemSum db = 0;
  uo_flags : sumFlag db = mkStatus false false false;
  uo_handle : handle_ok db = true;
  uo_dir : (String.length (dirPath db) <= 200)%nat;
}.

Definition readable (db : DBM) F m : Prop :=
  exists hdr sl junk, layout db (fun _ => true) F hdr sl junk m.

Lemma vacant_layout db F :
  vacant db F -> layout db (fun _ => true) (<[sum_path db := SUM_FILE_DEFAULT_HEADER]> F) SUM_FILE_DEFAULT_HEADER [] [] ∅.
Proof.
  intros [_ Hk]. split; try done.
  - by rewrite lookup_insert_eq.
  - simpl. lia.
  - simpl. lia.
  - intros k Hp _. destruct (Hk k Hp) as [H1 H2]. rewrite !lookup_insert_ne; [done|..]; intros E; symmetry in E;
      [by apply bak_not_sum in E|by apply plain_not_sum in E].
  - intros k [v Hv]. done.
Qed.

Lemma InitKVStore_ok quiet db F m s (Q : Z -> state -> Prop) C :
  here h0 db F ∅ s -> unopened db -> stored quiet db F m ->
  (if quiet then forall F', stored false db F' m -> C F' else forall F', C F') ->
  (forall s' db' F', type db' = type db -> dirPath db' = dirPath db -> isInvalid (sumFlag db') = false ->
     handle_ok db' = true -> 0 <= sumFileFd db' -> at_ h0 db' F' s' -> readable db' F' m ->
     (quiet = true -> rest db' F' m) -> Q DBM_OK s') ->
  wpc InitKVStore s Q C.
Proof.
  intros Hs [Hcnt Hflag Hhan Hdir] Hst HC HQ.
  assert (HCs : forall F', stored false db F' m -> C F') by (destruct quiet; auto).
  assert (Hfit : fits db KV_SUM_FILE) by (apply fits_short; [done|vm_compute; lia]).
  unfold InitKVStore. wbind. eapply OpenSumFile_ok; [exact Hs|by eapply HCs, stored_weaken|done|done|done|].
  intros s1 fd Hfd Hs1. wbind. eapply wpc_set_handle; [done|exact Hs1|]. intros s2 Hs2.
  rewrite (proj2 (Z.ltb_ge _ _)) by lia. set (db1 := set_sumFileFd fd db) in *.
  assert (Hsame : forall d F' hdr sl junk, layout db d F' hdr sl junk m -> layout db1 d F' hdr sl junk m).
  { intros. by eapply (layout_same db). }
  destruct Hst as [(hdr & sl & junk & Hl & Hh & Hq)|[-> Hv]].
  - pose proof (ly_sum _ _ _ _ _ _ _ Hl) as HF. rewrite bool_decide_false in Hs2 by (by rewrite HF).
    assert (Hs2' : at_ h0 db1 F s2) by (by exists 0%nat).
    assert (HCF : C F) by (apply HCs; left; exists hdr, sl, junk; by split_and!).
    pose proof (ly_header _ _ _ _ _ _ _ Hl) as Hhdr. pose proof (ly_room _ _ _ _ _ _ _ Hl) as Hroom.
    wbind. eapply (seek_end_ok h0 (sum_bytes hdr sl junk) db1 F); [exact Hs2'|done|exact HF|]. intros s3 Hs3.
    pose proof (sum_length hdr Hhdr sl junk) as Hlen. unfold place in Hlen.
    rewrite (proj2 (Z.ltb_ge _ _)) by lia.
    assert (Hbad : bad_length (Z.of_nat (length (sum_bytes hdr sl junk))) = false).
    { unfold bad_length. rewrite (proj2 (Z.ltb_ge _ _)) by (unfold SUM_FILE_HEADER_SIZE; lia). done. }
    rewrite Hbad. wbind. eapply (seek_start_ok h0 (sum_bytes hdr sl junk) db1 F); [exact Hs3|done|exact HF|].
    intros s4 Hs4. assert (Hs4' : at_ h0 db1 F s4) by (by exists 0%nat). change (0 <? 0) with false.
    rewrite (proj2 (Z.eqb_neq _ _)) by lia. wbind. eapply wpc_at_ret; [done|exact Hs4'|]. change (0 <? 0) with false.
    replace (_ >? 0) with true by (symmetry; apply Z.gtb_lt; lia).
    wbind. eapply (LoadSumFileHeader_ok db1 F hdr sl junk); [exact Hs4'|done|exact HF|done|done|done|].
    intros s5 b n Hs5 Hb. change (DBM_OK =? DBM_OK) with true. cbn [negb].
    set (db2 := set_kvItemSum n (set_sumFlag (mkStatus true false b) db1)) in *.
    wbind. eapply (CheckPoint_ok b db2 F hdr sl junk m); [exact Hs5| |done|done|done|done| | |].
    + eapply (layout_same db); [done|done|]. by eapply layout_start.
    + destruct quiet; [|by left]. apply repaired_calm. by apply Hq.
    + intros F' (hdr' & sl' & junk' & Hl' & Hh'). apply HCs, durable_stored. exists hdr', sl', junk'.
      split; [by eapply (layout_same db2)|done].
    + intros s6 F6 hdr6 n6 Hs6 Hl6 H8 H9 Hn6. change (DBM_OK =? DBM_OK) with true. cbn [negb].
      eapply wpc_at_ret; [done|exact Hs6|]. eapply HQ; [| | | | |exact Hs6| |]; try done.
      * exists hdr6, (repaired <$> sl), junk. by eapply (layout_same db2).
      * intros ->. destruct Hq as [Hnb ->]; [done|]. split; try done. exists hdr6, (repaired <$> sl).
        split_and!; try done; [by eapply (layout_same db2)|by apply repaired_clean_all|]. cbn. by apply Hn6.
  - set (F1 := if bool_decide (F !! sum_path db = None) then <[sum_path db := []]> F else F) in *.
    assert (HF1 : F1 = <[sum_path db := []]> F).
    { unfold F1. case_bool_decide as E; [done|]. destruct (va_sum _ _ Hv) as [E'|E']; [done|]. by rewrite insert_id. }
    assert (Hv1 : vacant db F1).
    { rewrite HF1. split; [right; by rewrite lookup_insert_eq|]. intros k Hp. destruct (va_keys _ _ Hv k Hp) as [H1 H2].
      rewrite !lookup_insert_ne; [done|..]; intros E; symmetry in E; [by apply bak_not_sum in E|by apply plain_not_sum in E]. }
    assert (HCF : C F1) by (apply HCs; by right).
    assert (HFs : F1 !! sum_path db1 = Some []).
    { rewrite HF1. by rewrite lookup_insert_eq. }
    assert (Hs2' : at_ h0 db1 F1 s2) by (by exists 0%nat).
    wbind. eapply (seek_end_ok h0 [] db1 F1); [exact Hs2'|done|exact HFs|]. intros s3 Hs3.
    change (Z.of_nat (length (@nil byte)) <? 0) with false. cbn [bad_length].
    wbind. eapply (seek_start_ok h0 [] db1 F1); [exact Hs3|done|exact HFs|]. intros s4 Hs4. change (0 <? 0) with false.
    change (bad_length (Z.of_nat (length (@nil byte)))) with false. change (Z.of_nat (length (@nil byte))) with 0.
    change (0 =? 0) with true. change (0 >? 0) with false.
    wbind. eapply wpc_write; [exact Hh0|exact Hs4|done|apply lookup_singleton_eq|exact HFs|simpl; lia|]. intros s5 Hs5.
    rewrite (proj2 (Z.ltb_ge _ _)) by lia. rewrite insert_singleton_eq in Hs5.
    eapply wpc_here_ret; [done|exact Hs5|].
    assert (Hs5' : at_ h0 db1 (<[sum_path db := SUM_FILE_DEFAULT_HEADER]> F1) s5) by (by eexists).
    pose proof (vacant_layout db F1 Hv1) as Hl5. eapply HQ; [| | | | |exact Hs5'| |]; try done.
    + change (sumFlag db1) with (sumFlag db). by rewrite Hflag.
    + exists SUM_FILE_DEFAULT_HEADER, [], []. by apply Hsame.
    + intros _. split; try done. exists SUM_FILE_DEFAULT_HEADER, []. by split_and!; [apply Hsame|apply Forall_nil_2|..].
Qed.
End Reopen.

(** ** The specification *)
Inductive op := OpGet (k : string) (count : Z) | OpPut (k : string) (v : list byte) | OpDelete (k : string).
Abbreviation reply := (Z * list byte)%type.
Abbreviation kvmap := (gmap string (list byte)).

Definition op_key (o : op) : string := match o with OpGet k _ | OpPut k _ | OpDelete k => k end.
(** The key is not the name of the backup of another. [IsValidKey] accepts such a key; its
    value is then taken for a backup, and the store is no map of it. *)
Definition admissible (o : op) : Prop := forall k', op_key o <> bak_name k'.

Definition spec (o : op) (m : kvmap) : reply * kvmap :=
  if negb (IsValidKey (op_key o)) then ((DBM_INVALID_ARGS, []), m)
  else
    match o with
    | OpGet k count => (get_reply m k count, m)
    | OpPut k v =>
        if (length v =? 0)%nat || (MAX_VALUE_LEN <? length v)%nat then ((DBM_INVALID_ARGS, []), m)
        else if (DBM_MAX_KV_SUM <=? Z.of_nat (size m)) && bool_decide (m !! k = None) then ((DBM_OVER_MAX_LIMITS, []), m)
        else ((DBM_OK, []), <[k := v]> m)
    | OpDelete k => ((DBM_OK, []), delete k m)
    end.
Fixpoint spec_all (os : list op) (m : kvmap) : list reply * kvmap :=
  match os with
  | [] => ([], m)
  | o :: os => let '(r, m) := spec o m in let '(rs, m) := spec_all os m in (r :: rs, m)
  end.
Fixpoint spec_sessions (ss : list (list op)) (m : kvmap) : list reply * kvmap :=
  match ss with
  | [] => ([], m)
  | os :: ss =>
      let '(rs, m) := spec_all os m in let '(rs', m) := spec_sessions ss m in
      ((DBM_OK, []) :: rs ++ (DBM_OK, []) :: rs', m)
  end.

(** The handle of a store that is about to be opened. *)
Definition new_handle (path : string) : DBM :=
  mkDBM (bytes_of KV_MAGIC ++ zeros 1) path (if (String.length path =? 0)%nat then DBM_DB_TYPE_KV_NO_DIR else DBM_DB_TYPE_KV)
    0 true (mkStatus false false false) (-1) None None DBM_SW_VERSION_NUM.
Lemma new_handle_unopened path : (String.length path <= 200)%nat -> unopened (new_handle path).
Proof. intros Hl. by split. Qed.

(** ** The code *)
Section Trace.
Context `{UtilsFile}.

Definition exec (o : op) : M reply :=
  match o with
  | OpGet k count => DBM_Get k count
  | OpPut k v => r ← DBM_Put k v; mret (r, [])
  | OpDelete k => r ← DBM_Delete k; mret (r, [])
  end.
Fixpoint exec_all (os : list op) : M (list reply) :=
  match os with
  | [] => mret []
  | o :: os => r ← exec o; rs ← exec_all os; mret (r :: rs)
  end.
(** Opening, the operations, closing. *)
Definition session (path : string) (os : list op) (w : world) : option (list reply * world) :=
  '(ret, handle, w) ← DBM_GetKVStore path w;
  match handle with
  | None => Some ([(ret, [])], w)
  | Some db =>
      '(rs, db, w) ← run (exec_all os) db w;
      '(ret', _, w) ← run DBM_CloseKVStore db w;
      Some ((ret, []) :: rs ++ [(ret', [])], w)
  end.
Fixpoint sessions (path : string) (ss : list (list op)) (w : world) : option (list reply * world) :=
  match ss with
  | [] => Some ([], w)
  | os :: ss =>
      '(rs, w) ← session path os w;
      '(rs', w) ← sessions path ss w;
      Some (rs ++ rs', w)
  end.
End Trace.

Section Correct.
Context `{UtilsFileLaws} (h0 : condition) (Hh0 : h0 <> Dead).
Abbreviation disk := (gmap string (list byte)).
Implicit Types (F : disk) (m : kvmap) (sl : list slot) (C : disk -> Prop).

Lemma inert_exec o : inert (exec o).
Proof. unfold exec. solve_inert. Qed.
#[local] Hint Resolve inert_exec : inert.
Lemma inert_exec_all os : inert (exec_all os).
Proof. induction os as [|o os IH]; cbn [exec_all]; solve_inert. Qed.
#[local] Hint Resolve inert_exec_all : inert.

Lemma rest_size db F m : rest db F m -> kvItemSum db = Z.of_nat (size m).
Proof. intros [(hdr & sl & Hl & Hc & _ & _ & Hn) _ _ _]. by rewrite Hn, (layout_size _ _ _ _ _ Hl Hc). Qed.

Lemma exec_ok o db F m s (Q : reply -> state -> Prop) C :
  at_ h0 db F s -> rest db F m -> admissible o ->
  (forall F', durable db F' m \/ durable db F' (snd (spec o m)) -> C F') ->
  (forall s' n F', at_ h0 (set_kvItemSum n db) F' s' -> rest (set_kvItemSum n db) F' (snd (spec o m)) ->
     Q (fst (spec o m)) s') ->
  wpc (exec o) s Q C.
Proof.
  intros Hs Hr Hadm HC HQ. assert (HCF : C F) by (apply HC; left; by apply rest_durable).
  assert (Hstay : fst (spec o m) = (DBM_INVALID_ARGS, []) -> snd (spec o m) = m -> Q (DBM_INVALID_ARGS, []) s).
  { intros <- E. eapply (HQ s (kvItemSum db) F); rewrite set_kvItemSum_id; [done|]. by rewrite E. }
  unfold spec in *. destruct (IsValidKey (op_key o)) eqn:Hv; cbn [negb] in *.
  - assert (Hp : plain (op_key o)) by (by split). pose proof (rest_size _ _ _ Hr) as Hsize.
    pose proof Hr as [(hdr & sl & Hl & _) Hfl Hok Hdir].
    destruct o as [k count|k v|k]; cbn [op_key exec fst snd] in *.
    + eapply Get_ok; [done|exact Hl|done|by rewrite Hfl|done|done|exact Hs|done|]. intros s' Hs'.
      apply (HQ s' (kvItemSum db) F); by rewrite set_kvItemSum_id.
    + wbind. destruct ((length v =? 0)%nat || (MAX_VALUE_LEN <? length v)%nat) eqn:Eb.
      { unfold DBM_Put, Put. rewrite Hv. cbn [negb orb]. rewrite orb_comm, Eb.
        eapply wpc_at_ret; [done|exact Hs|]. eapply wpc_at_ret; [done|exact Hs|]. by apply Hstay. }
      apply orb_false_elim in Eb as [Eb1 Eb2]. apply Nat.eqb_neq in Eb1. apply Nat.ltb_ge in Eb2.
      assert (Hfull : (size m < 45)%nat \/ is_Some (m !! k) ->
        (DBM_MAX_KV_SUM <=? Z.of_nat (size m)) && bool_decide (m !! k = None) = false).
      { intros [Hc|[x Hx]].
        - rewrite (proj2 (Z.leb_gt _ _)) by (unfold DBM_MAX_KV_SUM; lia). done.
        - rewrite Hx. by rewrite andb_false_r. }
      eapply (Put_ok h0 Hh0 db F m k v); [exact Hs|exact Hr|done|split; [lia|done]|intros F' HF'; apply HC; by left| | |].
      * intros Hc F' HF'. apply HC. right. by rewrite (Hfull Hc).
      * intros Hs45 Hn s' Hs'. eapply wpc_at_ret; [done|exact Hs'|].
        rewrite (proj2 (Z.leb_le _ _)) in HQ by (unfold DBM_MAX_KV_SUM; lia). rewrite bool_decide_true in HQ by done.
        apply (HQ s' (kvItemSum db) F); by rewrite set_kvItemSum_id.
      * intros Hc s' n F' Hs' Hr'. eapply wpc_at_ret; [done|exact Hs'|].
        rewrite (Hfull Hc) in HQ. by eapply HQ.
    + wbind. eapply (DbmDelete_ok h0 Hh0 db F m k); [exact Hs|exact Hr|done|intros F' HF'; apply HC; by left|intros F' HF'; apply HC; by right|].
      intros s' n F' Hs' Hr'. eapply wpc_at_ret; [done|exact Hs'|]. by eapply HQ.
  - assert (Hdone : wpc (mret (DBM_INVALID_ARGS, []) : M reply) s Q C).
    { eapply wpc_at_ret; [done|exact Hs|by apply Hstay]. }
    destruct o as [k count|k v|k]; cbn [op_key exec] in *.
    + unfold DBM_Get, Get. by rewrite Hv.
    + wbind. unfold DBM_Put, Put. rewrite Hv. eapply wpc_at_ret; [done|exact Hs|done].
    + wbind. unfold DBM_Delete, Delete. rewrite Hv. eapply wpc_at_ret; [done|exact Hs|done].
Qed.

Lemma exec_all_ok os : forall db F m s,
  at_ h0 db F s -> rest db F m -> Forall admissible os ->
  wpc (exec_all os) s (fun rs s' => rs = fst (spec_all os m) /\
    exists n F', at_ h0 (set_kvItemSum n db) F' s' /\ rest (set_kvItemSum n db) F' (snd (spec_all os m))) (fun _ => True).
Proof.
  induction os as [|o os IH]; intros db F m s Hs Hr Hadm; cbn [exec_all spec_all].
  { eapply wpc_at_ret; [done|exact Hs|]. split; [done|]. exists (kvItemSum db), F. by rewrite set_kvItemSum_id. }
  inversion_clear Hadm as [|? ? Ha Has]. wbind. eapply (exec_ok o db F m); [exact Hs|exact Hr|done|done|].
  intros s1 n F1 Hs1 Hr1. destruct (spec o m) as [r m1]. cbn [fst snd] in *.
  wbind. eapply wpc_mono; [by eapply (IH _ F1 m1)|..|done]. intros rs s2 [-> (n' & F2 & Hs2 & Hr2)].
  destruct (spec_all os m1) as [rs m2]. cbn [fst snd] in *. eapply wpc_at_ret; [done|exact Hs2|]. split; [done|].
  exists n', F2. done.
Qed.

(** ** Closing *)
Lemma close_ok_ db F m s :
  at_ h0 db F s -> rest db F m ->
  wpc DBM_CloseKVStore s
    (fun r s' => r = DBM_OK /\ exists db' F', here h0 db' F' ∅ s' /\ stored true db F' m) (fun F' => stored false db F' m).
Proof.
  intros Hs Hr. assert (HCF : stored false db F m) by (by apply durable_stored, rest_durable).
  pose proof (rest_size _ _ _ Hr) as Hsize. pose proof Hr as [(hdr & sl & Hl & Hc & H8 & H9 & Hn) _ Hok _].
  pose proof (ly_room _ _ _ _ _ _ _ Hl) as Hroom. pose proof (used_le sl) as Hle.
  assert (Hst : forall F' hdr', layout db (fun _ => true) F' hdr' sl [] m -> header_ok hdr' sl -> durable db F' m /\ stored true db F' m).
  { intros F' hdr' Hl' Hh'. assert (Hw : layout db (fun _ => false) F' hdr' sl [] m).
    { destruct Hl' as [? ? ? ? Hsl ? ? ?]. split; try done. intros i t Hi. eapply slot_ok_weaken; [by apply Hsl|].
      rewrite Forall_forall in Hc. destruct (Hc t) as [->|[Hv _]]; [by eapply list_elem_of_lookup_2|by right|by left]. }
    split; [by exists hdr', sl, []|]. left. exists hdr', sl, []. split_and!; try done. intros _.
    split; [by apply clean_not_backed|done]. }
  unfold DBM_CloseKVStore, CloseKVStore. wbind. wbind. eapply wpc_at_handle; [done|exact Hs|]. rewrite Hok. cbn [negb].
  rewrite Hn. wbind. eapply SetSumIndexToFile_ok; [done|exact Hs|exact Hl|done|lia|done| |].
  { intros F' hdr' Hl' H8' H9'. apply durable_stored. eapply Hst; [exact Hl'|]. split; [done|by left]. }
  intros s1 F1 hdr1 db1 -> [pos Hs1] Hl1 H81 H91 Ht.
  assert (Hst1 : durable db F1 m /\ stored true db F1 m).
  { eapply Hst; [exact Hl1|]. split; [done|]. by right. }
  unfold at_pos in Hs1. cbn [sumFileFd set_kvItemSum set_sumIndexValid set_sumFlag] in Hs1.
  wbind. eapply wpc_close; [exact Hs1|by apply durable_stored, Hst1|by rewrite lookup_singleton_eq|].
  intros s2 r Hr2 Hs2. rewrite (proj2 (Z.ltb_ge _ _)) by lia. rewrite delete_singleton_eq in Hs2.
  wbind. eapply wpc_set_handle; [done|exact Hs2|]. intros s3 Hs3. eapply wpc_here_ret; [done|exact Hs3|].
  wbind. unfold ReleaseKVDBHandle. wbind. eapply wpc_handle; [done|exact Hs3|].
  cbn [sumFileFd set_sumFileFd]. change (0 <=? -1) with false. eapply wpc_here_ret; [done|exact Hs3|].
  eapply wpc_here_ret; [done|exact Hs3|]. split; [done|]. eexists _, F1. split; [exact Hs3|apply Hst1].
Qed.

(** ** Calls from outside *)
Lemma run_reliable {A} (m : M A) db w Q C :
  inert m -> health (look w) = Reliable -> wpc m (mkState db w false) Q C -> (forall a s', Q a s' -> overrun s' = false) ->
  exists a s', run m db w = Some (a, db_of s', world_of s') /\ Q a s'.
Proof.
  intros Hi Hr Hw Ho. pose proof (wpc_reliable m (mkState db w false) Q C Hi Hr Hw) as HQ. unfold run.
  destruct (m (mkState db w false)) as [a s']. simpl in HQ. exists a, s'. by rewrite (Ho _ _ HQ).
Qed.
Lemma at_start db F D w : look w = mkView F D h0 -> here h0 db F D (mkState db w false).
Proof. by split. Qed.

Lemma here_health db F D s : here h0 db F D s -> health (look (world_of s)) = h0.
Proof. intros Hs. pose proof (here_sees _ _ _ _ _ Hs) as Hv. unfold sees in Hv. by rewrite Hv. Qed.

(** What an opened store is like. *)
Record opened_store (quiet : bool) (path : string) (db : DBM) (w : world) m : Prop := {
  os_type : type db = type (new_handle path);
  os_dir : dirPath db = path;
  os_valid : isInvalid (sumFlag db) = false;
  os_handle : handle_ok db = true;
  os_fd : 0 <= sumFileFd db;
  os_files : exists F, at_ h0 db F (mkState db w false) /\ readable db F m /\ (quiet = true -> rest db F m);
}.

Lemma open_wpc quiet path w F m :
  look w = mkView F ∅ h0 -> (String.length path <= 200)%nat -> stored quiet (new_handle path) F m ->
  wpc InitKVStore (mkState (new_handle path) w false)
    (fun r s => r = DBM_OK /\ overrun s = false /\ opened_store quiet path (db_of s) (world_of s) m)
    (fun F' => quiet = true -> stored false (new_handle path) F' m).
Proof.
  intros Hw Hlen Hst. eapply (InitKVStore_ok h0 Hh0 quiet (new_handle path) F m); [by apply at_start|by apply new_handle_unopened|done| |].
  { destruct quiet; [by intros F' HF' _|by intros F' ?]. }
  intros s' db' F' Ht Hd Hi Hok Hfd Hat Hread Hrest. destruct Hat as [pos Hat]. pose proof Hat as [Hdb Hv Ho].
  split; [done|]. split; [done|]. rewrite Hdb. split; try done. exists F'. split; [|done]. exists pos.
  split; [done|exact Hv|done].
Qed.


End Correct.

Section Lives.
Context `{UtilsFileLaws}.
Abbreviation disk := (gmap string (list byte)).
Implicit Types (F : disk) (m : kvmap).
#[local] Hint Resolve inert_exec_all : inert.

(** On a reliable system opening succeeds. *)
Lemma open_reliable quiet path w F m :
  look w = mkView F ∅ Reliable -> (String.length path <= 200)%nat -> stored quiet (new_handle path) F m ->
  exists db w0, DBM_GetKVStore path w = Some (DBM_OK, Some db, w0) /\ opened_store Reliable quiet path db w0 m.
Proof.
  intros Hw Hlen Hst. unfold DBM_GetKVStore.
  assert (IsValidPath path = true) as -> by (unfold IsValidPath, MAX_FILE_PATH; rewrite (proj2 (Nat.leb_gt _ _)) by lia; done).
  cbn [negb]. unfold GetKVDBHandle. pose proof (malloc_ok w) as Hm. destruct (malloc w) as [got w1].
  destruct Hm as [[-> (Hr & _)]|[-> E]]; cbn [negb]; [by rewrite Hw in Hr|]. rewrite Hw in E.
  change (DBMInitFinish _ DBM_UserInit) with (new_handle path). change (DBM_UserInit =? 0) with true. cbn iota.
  destruct (run_reliable _ (new_handle path) w1 _ _ inert_InitKVStore ltac:(by rewrite E)
    (open_wpc Reliable ltac:(done) quiet path w1 F m E Hlen Hst)) as (a & s' & Hrun & -> & _ & Ho); [by intros a s' (_ & ? & _)|].
  rewrite Hrun. cbn. by exists (db_of s'), (world_of s').
Qed.

Lemma session_ok path os w F m :
  look w = mkView F ∅ Reliable -> (String.length path <= 200)%nat -> stored true (new_handle path) F m ->
  Forall admissible os ->
  exists w' F', session path os w = Some ((DBM_OK, []) :: fst (spec_all os m) ++ [(DBM_OK, [])], w') /\
    look w' = mkView F' ∅ Reliable /\ stored true (new_handle path) F' (snd (spec_all os m)).
Proof.
  intros Hw Hlen Hst Hadm. unfold session.
  destruct (open_reliable true path w F m Hw Hlen Hst) as (db & w0 & -> & [Ht Hd _ _ _ (F0 & Hat & _ & Hrest)]).
  specialize (Hrest eq_refl). cbn. destruct Hat as [pos Hat].
  destruct (run_reliable (exec_all os) db w0 _ _ (inert_exec_all os) (here_health _ _ _ _ _ Hat)
    (exec_all_ok Reliable ltac:(done) os db F0 m _ (ex_intro _ pos Hat) Hrest Hadm)) as (rs & s1 & -> & -> & n & F1 & Hat1 & Hrest1).
  { intros a s' (_ & n & F' & [q Hq] & _). apply Hq. }
  cbn. destruct Hat1 as [q Hat1]. pose proof Hat1 as [Hdb1 Hv1 Ho1].
  assert (Hs1 : mkState (db_of s1) (world_of s1) false = s1) by (destruct s1; simpl in *; congruence).
  destruct (run_reliable DBM_CloseKVStore (db_of s1) (world_of s1) (fun r s' => r = DBM_OK /\
      exists db' F', here Reliable db' F' ∅ s' /\ stored true (set_kvItemSum n db) F' (snd (spec_all os m)))
    (fun _ => True) inert_DBM_CloseKVStore) as (r & s2 & -> & -> & db2 & F2 & Hs2 & Hst2).
  - by eapply here_health.
  - rewrite Hs1. eapply wpc_mono; [eapply (close_ok_ Reliable); [done|by exists q|exact Hrest1]|done|done].
  - intros a s' (_ & db' & F' & Hx & _). apply Hx.
  - cbn. exists (world_of s2), F2. split; [done|]. split; [apply Hs2|].
    eapply stored_same; [| |exact Hst2]; done.
Qed.

(** C20: on a reliable system, opening a store that is new or was closed, with a path of at
    most 200 bytes, any operations and closing it, any number of times, answer as a map of at most 45 keys that is kept from one opening to the
    next, as long as no key is the name of the backup of another, that is, ends in
    [_dbm_kv]: a key that is not valid or a value of no or more than 512 bytes is refused, a
    new key is refused when 45 are there, a read gives the value last put and
    not since deleted if the caller's buffer is large enough. Nothing is read past
    the end of a buffer, and all files are closed at the end. *)
Theorem dbm_refines_map path ss w F m :
  look w = mkView F ∅ Reliable -> (String.length path <= 200)%nat -> stored true (new_handle path) F m ->
  Forall (Forall admissible) ss ->
  exists w' F', sessions path ss w = Some (fst (spec_sessions ss m), w') /\
    look w' = mkView F' ∅ Reliable /\ stored true (new_handle path) F' (snd (spec_sessions ss m)).
Proof.
  intros Hw Hlen Hst Hadm. revert w F m Hw Hst. induction Hadm as [|os ss Ha _ IH]; intros w F m Hw Hst.
  { by exists w, F. }
  cbn [sessions spec_sessions]. destruct (session_ok path os w F m Hw Hlen Hst Ha) as (w1 & F1 & -> & Hw1 & Hst1).
  destruct (spec_all os m) as [rs m1]. cbn [fst snd] in *. destruct (IH w1 F1 m1 Hw1 Hst1) as (w2 & F2 & E & Hw2 & Hst2).
  cbn. rewrite E. destruct (spec_sessions ss m1) as [rs' m2]. cbn [fst snd] in *. exists w2, F2. split; [|done].
  cbn. by rewrite <- app_assoc.
Qed.


End Lives.

(** ** In memory *)
Definition empty_memory (p : power) : memory := mkMemory ∅ ∅ p 0.
Definition power_back (w : memory) : memory := mkMemory (m_files w) ∅ Forever 0.

Lemma empty_stored path : stored true (new_handle path) ∅ ∅.
Proof. right. split; [done|]. split; [left; apply lookup_empty|]. intros k _. by rewrite !lookup_empty. Qed.
Ltac solve_admissible :=
  repeat first [apply Forall_nil_2 | apply Forall_cons_2];
  intros k' Hk'; apply (f_equal String.length) in Hk'; rewrite bak_name_length in Hk'; cbn in Hk'; lia.

Lemma dbm_refines_map_witness :
  let ss := [[OpPut "a" (bytes_of "one"); OpGet "a" 8]; [OpGet "a" 2; OpDelete "a"; OpGet "a" 8]] in
  exists w', sessions (H := memory_files) "db" ss (empty_memory Forever) =
    Some ([(DBM_OK, []); (DBM_OK, []); (DBM_OK, bytes_of "one"); (DBM_OK, []);
           (DBM_OK, []); (DBM_ERROR, []); (DBM_OK, []); (DBM_NOT_FOUND, []); (DBM_OK, [])], w').
Proof.
  destruct (dbm_refines_map (H := memory_files) "db" [[OpPut "a" (bytes_of "one"); OpGet "a" 8]; [OpGet "a" 2; OpDelete "a"; OpGet "a" 8]]
    (empty_memory Forever) ∅ ∅) as (w' & F' & Hs & _).
  - reflexivity.
  - cbn. lia.
  - apply empty_stored.
  - solve_admissible.
  - exists w'. exact Hs.
Defined.

(** The power goes while the value of a key is replaced. *)
Definition interrupted : option (DBM * memory * DBM * memory) :=
  match DBM_GetKVStore (H := memory_files) "" (empty_memory (Calls 45)) with
  | Some (_, Some db, w0) =>
      match run (H := memory_files) (exec_all [OpPut "a" (bytes_of "one")]) db w0 with
      | Some (_, db1, w1) => Some (db, w0, db1, w1)
      | None => None
      end
  | _ => None
  end.
Definition interrupted_handle1 : DBM := default (new_handle "") ((fun x => snd (fst x)) <$> interrupted).
Definition interrupted_world1 : memory := default (empty_memory Off) (snd <$> interrupted).
Definition update : op := OpPut "a" (bytes_of "two!").
Definition after_power : memory :=
  power_back (world_of (snd (exec (H := memory_files) update (mkState interrupted_handle1 interrupted_world1 false)))).


(** The value that was restored then is lost at the opening after that one. *)
Lemma recovered_then_lost :
  exists w1 w2,
    session (H := memory_files) "" [OpGet "a" 8] after_power = Some ([(DBM_OK, []); (DBM_OK, bytes_of "one"); (DBM_OK, [])], w1) /\
    session (H := memory_files) "" [OpGet "a" 8] w1 = Some ([(DBM_OK, []); (DBM_NOT_FOUND, []); (DBM_OK, [])], w2).
Proof.
  eexists (match session (H := memory_files) "" [OpGet "a" 8] after_power with Some (_, w) => w | None => empty_memory Off end), _.
  split; vm_compute; reflexivity.
Qed.
