(* ===== verification/KvStoreHal.v ===== *)
(** * The key-value store on the files of small devices

    Model of frameworks/native/kv_store/src/kvstore_impl_hal/kv_store.c: every value is a
    file named after its key, recent ones are in the cache too, and the number of files is
    kept in a file of its own. A computation is [None] where the execution is undefined: the
    cache would follow a bad pointer, or [atoi] would read past the end of its buffer. *)
From S2P Require Import Prelude KvCache KvStore Memory UtilsFile.
From Stdlib Require Import Ascii.

#[local] Open Scope list_scope.

Definition MAX_GET_VALUE_LEN : Z := 0x7FFFFFFF.
Definition KV_SUM_FILE : string := "KV_FILE_SUM".
Definition KV_SUM_INDEX : nat := 4.

Section Store.
Context `{KvConfig} `{UtilsFile}.

Record HalState := mkHal { hal_cache : Cache; hal_world : world }.
Definition M (A : Type) : Type := HalState -> option (A * HalState).
#[global] Instance hal_ret : MRet M := fun A a s => Some (a, s).
#[global] Instance hal_bind : MBind M := fun A B f m s => '(a, s) ← m s; f a s.

Definition call {A} (f : world -> A * world) : M A := fun s =>
  let '(a, w) := f (hal_world s) in Some (a, mkHal (hal_cache s) w).
Definition cached {A} (f : Cache -> option (A * Cache)) : M A := fun s =>
  '(a, c) ← f (hal_cache s); Some (a, mkHal c (hal_world s)).
Definition parsed (x : option Z) : M Z := fun s => n ← x; Some (n, s).

(** The length or the failure, and what is then in the caller's buffer, which held
    [value]. *)
Definition GetValueByFile (key : string) (value : list byte) (len : Z) : M (Z * list byte) :=
  '(ret, valueLen) ← call (fun w => let '(r, n, w) := UtilsFileStat key w in ((r, n), w));
  if negb (ret =? EC_SUCCESS) then mret (EC_FAILURE, value)
  else if len <=? valueLen then mret (EC_FAILURE, value)
  else
    fd ← call (UtilsFileOpen key O_RDONLY_FS);
    if fd <? 0 then mret (EC_FAILURE, value)
    else
      '(ret, b) ← call (fun w => let '(r, b, w) := UtilsFileRead fd (Z.to_nat valueLen) w in ((r, b), w));
      _ ← call (UtilsFileClose fd);
      let value := overwrite value 0 b in
      if ret <? 0 then mret (EC_FAILURE, value)
      else mret (valueLen, overwrite value (Z.to_nat valueLen) [zero]).

Definition SetValueToFile (key value : string) : M Z :=
  fd ← call (UtilsFileOpen key O_RDWR_CREAT_TRUNC_FS);
  if fd <? 0 then mret EC_FAILURE
  else
    ret ← call (UtilsFileWrite fd (bytes_of value));
    _ ← call (UtilsFileClose fd);
    mret (if ret <? 0 then EC_FAILURE else EC_SUCCESS).

Definition GetCurrentItem : M Z :=
  fd ← call (UtilsFileOpen KV_SUM_FILE O_RDWR_FS);
  if fd <? 0 then mret 0
  else
    '(ret, b) ← call (fun w => let '(r, b, w) := UtilsFileRead fd KV_SUM_INDEX w in ((r, b), w));
    _ ← call (UtilsFileClose fd);
    if ret <? 0 then mret 0 else parsed (atoi (buffer KV_SUM_INDEX b)).

Definition SetCurrentItem (num : Z) : M Z :=
  match sprintf_d KV_SUM_INDEX num with
  | None => mret EC_FAILURE
  | Some value =>
      fd ← call (UtilsFileOpen KV_SUM_FILE O_RDWR_CREAT_FS);
      if fd <? 0 then mret EC_FAILURE
      else
        ret ← call (UtilsFileWrite fd value);
        _ ← call (UtilsFileClose fd);
        mret (if ret <? 0 then EC_FAILURE else EC_SUCCESS)
  end.

Definition NewItem (key : string) : M bool :=
  fd ← call (UtilsFileOpen key O_RDONLY_FS);
  if fd <? 0 then mret true else _ ← call (UtilsFileClose fd); mret false.

(** The code and the string in the caller's buffer, if it was written. *)
Definition UtilsGetValue (key : string) (value : list byte) (len : Z) : M (Z * option string) :=
  if negb (IsValidKey key) || (len >? MAX_GET_VALUE_LEN) then mret (EC_INVALID, None)
  else
    '(hit, found) ← cached (fun c => r ← GetValueByCache key len c; Some (r, c));
    if hit =? EC_SUCCESS then mret (EC_SUCCESS, found)
    else
      '(ret, value) ← GetValueByFile key value len;
      if ret <? 0 then mret (EC_FAILURE, None)
      else
        _ ← cached (fun c => c ← AddKVCache key (c_string value) false c; Some ((), c));
        mret (ret, Some (c_string value)).

Definition UtilsSetValue (key value : string) : M Z :=
  if negb (IsValidKey key) || negb (IsValidValue value MAX_VALUE_LEN) then mret EC_INVALID
  else
    currentNum ← GetCurrentItem;
    newItem ← NewItem key;
    if (MAX_KV_SUM <=? currentNum) && newItem then mret EC_FAILURE
    else
      ret ← SetValueToFile key value;
      currentNum ←
        (if ret =? EC_SUCCESS then
           _ ← cached (fun c => c ← AddKVCache key value true c; Some ((), c));
           mret (if newItem : bool then currentNum + 1 else currentNum)
         else mret currentNum);
      SetCurrentItem currentNum.

Definition UtilsDeleteValue (key : string) : M Z :=
  if negb (IsValidKey key) then mret EC_INVALID
  else
    _ ← cached (fun c => c ← DeleteKVCache key c; Some ((), c));
    ret ← call (UtilsFileDelete key);
    if ret =? EC_SUCCESS then
      n ← GetCurrentItem;
      SetCurrentItem (n - 1)
    else mret ret.

Definition ClearKVCache : M Z := cached ClearKVCacheInner.

Definition UtilsSetEnv (path : string) : M Z := mret EC_SUCCESS.
End Store.

(** * The store on the files of small devices refines a bounded map

    On a device whose calls work, whatever the cache holds and whichever of its
    allocations fail; the number of keys is in its file again after every operation. *)

(** ** The abstract store *)
(** A read comes with the caller's buffer. *)
Inductive hal_op :=
| HalGet (key : string) (buf : list byte)
| HalSet (key value : string)
| HalDelete (key : string)
| HalClear.
Inductive hal_reply := HalCode (c : Z) | HalFailed | HalValue (v : string).

(** The strings of C have no NUL. *)
Definition c_op (o : hal_op) : Prop := match o with HalSet _ value => no_nul value | _ => True end.

Section Abstract.
Context `{KvConfig} `{UtilsFile}.

Definition hal_spec (o : hal_op) (m : gmap string string) : hal_reply * gmap string string :=
  match o with
  | HalGet key buf =>
      let len := Z.of_nat (length buf) in
      if negb (IsValidKey key) || (len >? MAX_GET_VALUE_LEN) then (HalCode EC_INVALID, m)
      else
        match m !! key with
        | Some v => if len <=? Z.of_nat (String.length v) then (HalCode EC_FAILURE, m) else (HalValue v, m)
        | None => (HalCode EC_FAILURE, m)
        end
  | HalSet key value =>
      if negb (IsValidKey key) || negb (IsValidValue value MAX_VALUE_LEN) then (HalCode EC_INVALID, m)
      else if (MAX_KV_SUM <=? Z.of_nat (size m)) && bool_decide (m !! key = None) then (HalCode EC_FAILURE, m)
      else (HalCode EC_SUCCESS, <[key := value]> m)
  | HalDelete key =>
      if negb (IsValidKey key) then (HalCode EC_INVALID, m)
      else if bool_decide (m !! key = None) then (HalFailed, m) else (HalCode EC_SUCCESS, delete key m)
  | HalClear => (HalCode EC_SUCCESS, m)
  end.
Fixpoint hal_specs (os : list hal_op) (m : gmap string string) : list hal_reply * gmap string string :=
  match os with
  | [] => ([], m)
  | o :: os => let '(r, m) := hal_spec o m in let '(rs, m) := hal_specs os m in (r :: rs, m)
  end.

Definition hal_perform (o : hal_op) : M (Z * option string) :=
  match o with
  | HalGet key buf => UtilsGetValue key buf (Z.of_nat (length buf))
  | HalSet key value => c ← UtilsSetValue key value; mret (c, None)
  | HalDelete key => c ← UtilsDeleteValue key; mret (c, None)
  | HalClear => c ← ClearKVCache; mret (c, None)
  end.
Fixpoint hal_performs (os : list hal_op) : M (list (Z * option string)) :=
  match os with
  | [] => mret []
  | o :: os => r ← hal_perform o; rs ← hal_performs os; mret (r :: rs)
  end.

Definition hal_agrees (r : Z * option string) (a : hal_reply) : Prop :=
  match a with
  | HalCode c => r = (c, None)
  | HalFailed => fst r < 0 /\ snd r = None
  | HalValue v => r = (EC_SUCCESS, Some v) \/ r = (Z.of_nat (String.length v), Some v)
  end.
End Abstract.

(** The count [n] as it is in its file. *)
Definition count_text (n : nat) : list byte := buffer 4 (bytes_of (pretty (Z.of_nat n))).
Lemma count_facts n :
  (n <= 999)%nat ->
  sprintf_d 4 (Z.of_nat n) = Some (count_text n) /\ length (count_text n) = 4%nat /\
  atoi (buffer 4 (count_text n)) = Some (Z.of_nat n).
Proof.
  intros Hn. assert (Hall : Forall (fun n => sprintf_d 4 (Z.of_nat n) = Some (count_text n) /\
    length (count_text n) = 4%nat /\ atoi (buffer 4 (count_text n)) = Some (Z.of_nat n)) (seq 0 1000)).
  { apply (bool_decide_unpack _). vm_compute. done. }
  rewrite Forall_forall in Hall. apply Hall. apply elem_of_seq. lia.
Qed.
Lemma overwrite_empty b : overwrite [] 0 b = b.
Proof. unfold overwrite. rewrite take_nil, drop_nil. by rewrite app_nil_r. Qed.

(** ** Calls that work *)
Section Runs.
Context `{KvConfig} `{UtilsFileLaws}.
Abbreviation disk := (gmap string (list byte)).
Implicit Types (F : disk) (D : gmap Z (string * nat)) (s : HalState).

(** The computation ends, and with what is stated. *)
Definition runs {A} (m : M A) s (Q : A -> HalState -> Prop) : Prop := exists a s', m s = Some (a, s') /\ Q a s'.
Record sits (c : Cache) F D s : Prop := {
  st_cache : hal_cache s = c;
  st_view : look (hal_world s) = mkView F D Reliable;
}.

Lemma runs_ret {A} (a : A) s Q : Q a s -> runs (mret a) s Q.
Proof. intros HQ. by exists a, s. Qed.
Lemma runs_bind {A B} (m : M A) (f : A -> M B) s Q :
  runs m s (fun a s' => runs (f a) s' Q) -> runs (m ≫= f) s Q.
Proof. intros (a & s1 & E & b & s2 & E2 & HQ). exists b, s2. unfold mbind, hal_bind. by rewrite E. Qed.
Lemma runs_mono {A} (m : M A) s (Q Q' : A -> HalState -> Prop) : runs m s Q -> (forall a s', Q a s' -> Q' a s') -> runs m s Q'.
Proof. intros (a & s1 & E & HQ) Hi. exists a, s1. auto. Qed.
Lemma runs_call {A} (f : world -> A * world) c F D s Q :
  sits c F D s -> (forall a w', f (hal_world s) = (a, w') -> Q a (mkHal c w')) -> runs (call f) s Q.
Proof.
  intros [Hc _] Hf. unfold runs, call. destruct (f (hal_world s)) as [a w'] eqn:E. exists a, (mkHal (hal_cache s) w').
  split; [done|]. rewrite Hc. by apply Hf.
Qed.
Lemma runs_cached {A} (f : Cache -> option (A * Cache)) c c' a F D s Q :
  sits c F D s -> f c = Some (a, c') -> (forall s', sits c' F D s' -> Q a s') -> runs (cached f) s Q.
Proof.
  intros [Hc Hv] Hf HQ. exists a, (mkHal c' (hal_world s)). unfold cached. rewrite Hc, Hf. split; [done|].
  apply HQ. by split.
Qed.

Lemma runs_open path fl c F D s (Q : Z -> HalState -> Prop) :
  sits c F D s -> is_Some (F !! path) \/ o_creat fl = true ->
  (forall fd s', 0 <= fd -> D !! fd = None ->
     sits c (if o_trunc fl || bool_decide (F !! path = None) then <[path := []]> F else F) (<[fd := (path, O)]> D) s' -> Q fd s') ->
  runs (call (UtilsFileOpen path fl)) s Q.
Proof.
  intros Hs Hp HQ. eapply runs_call; [exact Hs|]. intros fd w' E. pose proof (open_ok path fl (hal_world s)) as Hl.
  rewrite E, (st_view _ _ _ _ Hs) in Hl. destruct Hl as [[Hneg [(Hr & _)|(Hn & Hc & _)]]|(Hge & _ & Hn & _ & Hv)]; simpl in *.
  - done.
  - destruct Hp as [[x Hp]|Hp]; congruence.
  - by apply HQ.
Qed.
Lemma runs_open_absent path fl c F D s (Q : Z -> HalState -> Prop) :
  sits c F D s -> F !! path = None -> o_creat fl = false -> (forall fd s', fd < 0 -> sits c F D s' -> Q fd s') ->
  runs (call (UtilsFileOpen path fl)) s Q.
Proof.
  intros Hs Hp Hcr HQ. eapply runs_call; [exact Hs|]. intros fd w' E. pose proof (open_ok path fl (hal_world s)) as Hl.
  rewrite E, (st_view _ _ _ _ Hs) in Hl.
  destruct Hl as [[Hneg [(Hr & _)|(Hn & Hc & Hv)]]|(Hge & _ & Hn & [[x Hx]|Hc] & Hv)]; simpl in *; try congruence.
  by apply HQ.
Qed.
Lemma runs_close fd c F D s (Q : Z -> HalState -> Prop) :
  sits c F D s -> is_Some (D !! fd) -> (forall r s', sits c F (delete fd D) s' -> Q r s') ->
  runs (call (UtilsFileClose fd)) s Q.
Proof.
  intros Hs Hp HQ. eapply runs_call; [exact Hs|]. intros r w' E. pose proof (close_ok fd (hal_world s)) as Hl.
  rewrite E, (st_view _ _ _ _ Hs) in Hl. destruct Hl as [[Hneg [(Hr & _)|(Hn & Hv)]]|(Hge & _ & Hn & Hv)]; simpl in *.
  - done.
  - rewrite Hn in Hp. by destruct Hp.
  - by apply HQ.
Qed.
Lemma runs_read fd n path pos content c F D s (Q : Z * list byte -> HalState -> Prop) :
  sits c F D s -> D !! fd = Some (path, pos) -> F !! path = Some content ->
  (forall s' b, b = segment content pos n -> sits c F (<[fd := (path, (pos + length b)%nat)]> D) s' ->
     Q (Z.of_nat (length b), b) s') ->
  runs (call (fun w => let '(r, b, w) := UtilsFileRead fd n w in (r, b, w))) s Q.
Proof.
  intros Hs Hd Hc HQ. eapply runs_call; [exact Hs|]. intros [r b] w' E. pose proof (read_ok fd n (hal_world s)) as Hl.
  destruct (UtilsFileRead fd n (hal_world s)) as [[r' b'] w'']. simplify_eq. rewrite (st_view _ _ _ _ Hs) in Hl.
  destruct Hl as [(Hneg & _ & [(Hr & _)|(Hn & Hv)])|(p & q & x & _ & Hd' & Hc' & -> & -> & Hv)]; simpl in *.
  - done.
  - unfold no_file in Hn. simpl in Hn. rewrite Hd in Hn. congruence.
  - simplify_eq. by apply HQ.
Qed.
Lemma runs_write fd b path content c F D s (Q : Z -> HalState -> Prop) :
  sits c F D s -> D !! fd = Some (path, O) -> F !! path = Some content ->
  (forall s', sits c (<[path := overwrite content 0 b]> F) (<[fd := (path, length b)]> D) s' -> Q (Z.of_nat (length b)) s') ->
  runs (call (UtilsFileWrite fd b)) s Q.
Proof.
  intros Hs Hd Hc HQ. eapply runs_call; [exact Hs|]. intros r w' E. pose proof (write_ok fd b (hal_world s)) as Hl.
  rewrite E, (st_view _ _ _ _ Hs) in Hl.
  destruct Hl as [(Hneg & [(Hr & _)|(Hn & Hv)])|[(p & q & x & _ & Hd' & Hc' & _ & -> & Hv)|(p & q & x & _ & Hd' & Hc' & Hlt & _)]];
    simpl in *.
  - done.
  - unfold no_file in Hn. simpl in Hn. rewrite Hd in Hn. congruence.
  - simplify_eq. by apply HQ.
  - simplify_eq. lia.
Qed.
Lemma runs_stat path c F D s (Q : Z * Z -> HalState -> Prop) :
  sits c F D s ->
  (forall s' r n, match F !! path with Some x => r = 0 /\ n = Z.of_nat (length x) | None => r < 0 end -> sits c F D s' -> Q (r, n) s') ->
  runs (call (fun w => let '(r, n, w) := UtilsFileStat path w in (r, n, w))) s Q.
Proof.
  intros Hs HQ. eapply runs_call; [exact Hs|]. intros [r n] w' E. pose proof (stat_ok path (hal_world s)) as Hl.
  destruct (UtilsFileStat path (hal_world s)) as [[r' n'] w'']. simplify_eq. rewrite (st_view _ _ _ _ Hs) in Hl.
  destruct Hl as [(Hneg & [(Hr & _)|(Hn & Hv)])|(-> & x & _ & Hx & -> & Hv)]; simpl in *.
  - done.
  - apply HQ; [by rewrite Hn|by split].
  - apply HQ; [by rewrite Hx|by split].
Qed.
Lemma runs_delete path c F D s (Q : Z -> HalState -> Prop) :
  sits c F D s ->
  (forall s' r, match F !! path with Some _ => r = 0 | None => r < 0 end -> sits c (delete path F) D s' -> Q r s') ->
  runs (call (UtilsFileDelete path)) s Q.
Proof.
  intros Hs HQ. eapply runs_call; [exact Hs|]. intros r w' E. pose proof (delete_ok path (hal_world s)) as Hl.
  rewrite E, (st_view _ _ _ _ Hs) in Hl. destruct Hl as [(Hneg & [(Hr & _)|(Hn & Hv)])|(-> & _ & [x Hx] & Hv)]; simpl in *.
  - done.
  - apply HQ; [by rewrite Hn|]. split; [done|]. by rewrite delete_id.
  - apply HQ; [by rewrite Hx|by split].
Qed.

(** ** The functions *)
Ltac rbind := apply runs_bind.

(** The file with the count, which may be missing when that is zero. *)
Definition counted (n : nat) F : Prop :=
  F !! KV_SUM_FILE = Some (count_text n) \/ (F !! KV_SUM_FILE = None /\ n = O).

Lemma HalNewItem_ok key c F s (Q : bool -> HalState -> Prop) :
  sits c F ∅ s -> (forall s', sits c F ∅ s' -> Q (bool_decide (F !! key = None)) s') -> runs (NewItem key) s Q.
Proof.
  intros Hs HQ. unfold NewItem. rbind. destruct (F !! key) as [x|] eqn:E.
  - eapply runs_open; [exact Hs|left; by rewrite E|]. intros fd s1 Hfd _ Hs1. rewrite E in Hs1.
    rewrite (proj2 (Z.ltb_ge _ _)) by lia. rbind. eapply runs_close; [exact Hs1|by rewrite lookup_insert_eq|].
    intros r s2 Hs2. rewrite delete_insert_id in Hs2 by apply lookup_empty. apply runs_ret.
    change false with (bool_decide (Some x = None)). by apply HQ.
  - eapply runs_open_absent; [exact Hs|done|done|]. intros fd s1 Hfd Hs1. rewrite (proj2 (Z.ltb_lt _ _)) by lia.
    apply runs_ret. change true with (bool_decide (@None (list byte) = None)). by apply HQ.
Qed.

Lemma HalSetValueToFile_ok key value c F s (Q : Z -> HalState -> Prop) :
  sits c F ∅ s -> (forall s', sits c (<[key := bytes_of value]> F) ∅ s' -> Q EC_SUCCESS s') ->
  runs (SetValueToFile key value) s Q.
Proof.
  intros Hs HQ. unfold SetValueToFile. rbind. eapply runs_open; [exact Hs|by right|]. intros fd s1 Hfd _ Hs1.
  cbn [o_trunc O_RDWR_CREAT_TRUNC_FS orb] in Hs1. rewrite (proj2 (Z.ltb_ge _ _)) by lia.
  rbind. eapply runs_write; [exact Hs1|apply lookup_insert_eq|apply lookup_insert_eq|]. intros s2 Hs2.
  rewrite !insert_insert_eq in Hs2. rbind. eapply runs_close; [exact Hs2|by rewrite lookup_insert_eq|]. intros r s3 Hs3.
  rewrite delete_insert_id in Hs3 by apply lookup_empty. rewrite (proj2 (Z.ltb_ge _ _)) by lia. apply runs_ret. apply HQ.
  by rewrite overwrite_empty in Hs3.
Qed.

Lemma HalGetCurrentItem_ok n c F s (Q : Z -> HalState -> Prop) :
  sits c F ∅ s -> counted n F -> (n <= 999)%nat -> (forall s', sits c F ∅ s' -> Q (Z.of_nat n) s') -> runs GetCurrentItem s Q.
Proof.
  intros Hs Hc Hn HQ. unfold GetCurrentItem. rbind. destruct Hc as [E|[E ->]].
  - eapply runs_open; [exact Hs|left; by rewrite E|]. intros fd s1 Hfd _ Hs1. rewrite E in Hs1. cbn in Hs1.
    rewrite (proj2 (Z.ltb_ge _ _)) by lia. rbind.
    eapply runs_read; [exact Hs1|apply lookup_insert_eq|exact E|]. intros s2 b -> Hs2. rewrite insert_insert_eq in Hs2.
    rbind. eapply runs_close; [exact Hs2|by rewrite lookup_insert_eq|]. intros r s3 Hs3.
    rewrite delete_insert_id in Hs3 by apply lookup_empty. rewrite (proj2 (Z.ltb_ge _ _)) by lia.
    destruct (count_facts n Hn) as (_ & Hlen & Hat). unfold segment. rewrite drop_0, take_ge by (by rewrite Hlen).
    exists (Z.of_nat n), s3. unfold parsed. change KV_SUM_INDEX with 4%nat. rewrite Hat. split; [done|by apply HQ].
  - eapply runs_open_absent; [exact Hs|done|done|]. intros fd s1 Hfd Hs1. rewrite (proj2 (Z.ltb_lt _ _)) by lia.
    apply runs_ret. by apply HQ.
Qed.

Lemma HalSetCurrentItem_ok n k c F s (Q : Z -> HalState -> Prop) :
  sits c F ∅ s -> counted k F -> (k <= 999)%nat -> (n <= 999)%nat ->
  (forall s', sits c (<[KV_SUM_FILE := count_text n]> F) ∅ s' -> Q EC_SUCCESS s') -> runs (SetCurrentItem (Z.of_nat n)) s Q.
Proof.
  intros Hs Hc Hk Hn HQ. unfold SetCurrentItem. change KV_SUM_INDEX with 4%nat. destruct (count_facts n Hn) as (-> & Hlen & _).
  assert (Hover : forall content, F !! KV_SUM_FILE = Some content -> overwrite content 0 (count_text n) = count_text n).
  { intros content E. destruct Hc as [E'|[E' _]]; [|congruence]. rewrite E in E'. injection E' as ->.
    destruct (count_facts k Hk) as (_ & Hlk & _). unfold overwrite. rewrite take_0, drop_ge by lia. by rewrite app_nil_r. }
  rbind. eapply runs_open; [exact Hs|by right|]. intros fd s1 Hfd _ Hs1. rewrite (proj2 (Z.ltb_ge _ _)) by lia.
  cbn [o_trunc O_RDWR_CREAT_FS orb] in Hs1. rbind.
  assert (Hgoal : forall F' content, sits c F' (<[fd := (KV_SUM_FILE, O)]> ∅) s1 -> F' !! KV_SUM_FILE = Some content ->
    overwrite content 0 (count_text n) = count_text n -> <[KV_SUM_FILE := count_text n]> F' = <[KV_SUM_FILE := count_text n]> F ->
    runs (call (UtilsFileWrite fd (count_text n))) s1
      (fun r s' => runs (_ ← call (UtilsFileClose fd); mret (if r <? 0 then EC_FAILURE else EC_SUCCESS)) s' Q)).
  { intros F' content Hs' Hc' Ho HF'. eapply runs_write; [exact Hs'|apply lookup_insert_eq|exact Hc'|]. intros s2 Hs2.
    rewrite Ho, HF', insert_insert_eq in Hs2. rbind. eapply runs_close; [exact Hs2|by rewrite lookup_insert_eq|]. intros r s3 Hs3.
    rewrite delete_insert_id in Hs3 by apply lookup_empty. rewrite (proj2 (Z.ltb_ge _ _)) by lia. apply runs_ret. by apply HQ. }
  destruct (F !! KV_SUM_FILE) as [content|] eqn:E; cbn in Hs1.
  - eapply (Hgoal F content); [exact Hs1|done|by apply Hover|done].
  - eapply (Hgoal _ []); [exact Hs1|by rewrite lookup_insert_eq|by rewrite overwrite_empty|by rewrite insert_insert_eq].
Qed.

(** Reading a file into a buffer that is large enough for it and the NUL. *)
Lemma HalGetValueByFile_ok key buf v c F s (Q : Z * list byte -> HalState -> Prop) :
  sits c F ∅ s -> F !! key = bytes_of <$> v ->
  (forall s', sits c F ∅ s' ->
     match v with
     | Some v => if Z.of_nat (length buf) <=? Z.of_nat (String.length v) then Q (EC_FAILURE, buf) s'
                 else forall rest, Q (Z.of_nat (String.length v), bytes_of v ++ zero :: rest) s'
     | None => Q (EC_FAILURE, buf) s'
     end) -> runs (GetValueByFile key buf (Z.of_nat (length buf))) s Q.
Proof.
  intros Hs Hv HQ. unfold GetValueByFile. pose proof success_zero as Hz. rbind. eapply runs_stat; [exact Hs|]. intros s1 r n Hr Hs1.
  destruct v as [v|]; rewrite Hv in Hr; cbn [fmap option_fmap option_map] in *.
  - destruct Hr as [-> ->]. rewrite length_bytes_of, Hz. change (0 =? 0) with true. cbn [negb].
    destruct (Z.of_nat (length buf) <=? Z.of_nat (String.length v)) eqn:El; [apply runs_ret; by apply HQ|]. apply Z.leb_gt in El.
    rbind. eapply runs_open; [exact Hs1|left; by rewrite Hv|]. intros fd s2 Hfd _ Hs2. rewrite Hv in Hs2. cbn in Hs2.
    rewrite (proj2 (Z.ltb_ge _ _)) by lia. rbind.
    eapply runs_read; [exact Hs2|apply lookup_insert_eq|exact Hv|]. intros s3 b -> Hs3. rewrite insert_insert_eq in Hs3.
    rbind. eapply runs_close; [exact Hs3|by rewrite lookup_insert_eq|]. intros r s4 Hs4.
    rewrite delete_insert_id in Hs4 by apply lookup_empty. rewrite (proj2 (Z.ltb_ge _ _)) by lia. apply runs_ret.
    unfold segment. rewrite drop_0, Nat2Z.id, take_ge by (by rewrite length_bytes_of).
    unfold overwrite at 2. rewrite take_0, app_nil_l. unfold overwrite.
    rewrite take_app_length' by (by rewrite length_bytes_of). by apply HQ.
  - rewrite (proj2 (Z.eqb_neq _ _)) by (rewrite Hz; lia). apply runs_ret. by apply HQ.
Qed.

(** ** The operations *)
Context (Hmax : 0 <= MAX_KV_SUM <= 999).

Record hal_inv (m : gmap string string) s : Prop := {
  hi_files : exists F, sits (hal_cache s) F ∅ s /\ counted (size m) F /\
    forall k, IsValidKey k = true -> F !! k = bytes_of <$> m !! k;
  hi_cache : cache_ok (hal_cache s) m;
  hi_keys : forall k v, m !! k = Some v -> IsValidKey k = true /\ no_nul v;
  hi_room : Z.of_nat (size m) <= MAX_KV_SUM;
}.
Lemma hal_inv_intro c F m s :
  sits c F ∅ s -> counted (size m) F -> (forall k, IsValidKey k = true -> F !! k = bytes_of <$> m !! k) ->
  cache_ok c m -> (forall k v, m !! k = Some v -> IsValidKey k = true /\ no_nul v) -> Z.of_nat (size m) <= MAX_KV_SUM ->
  hal_inv m s.
Proof. intros Hs Hc Hf Hca Hk Hr. pose proof (st_cache _ _ _ _ Hs) as <-. split; [|done|done|done]. by exists F. Qed.
Lemma sum_not_key : IsValidKey KV_SUM_FILE = false.
Proof. reflexivity. Qed.
Lemma counted_new n F : counted n (<[KV_SUM_FILE := count_text n]> F).
Proof. left. apply lookup_insert_eq. Qed.
Lemma key_not_sum k : IsValidKey k = true -> k <> KV_SUM_FILE.
Proof. intros Hk ->. by rewrite sum_not_key in Hk. Qed.

(** Reading from the file when the cache has nothing that fits the buffer. *)
Lemma hal_get_file m s F es key buf :
  hal_inv m s -> sits (hal_cache s) F ∅ s -> (forall k, IsValidKey k = true -> F !! k = bytes_of <$> m !! k) ->
  counted (size m) F -> cache_is (hal_cache s) es -> NoDup es.*1 ->
  (forall k v, (k, v) ∈ es -> m !! k = Some v /\ (String.length v < MAX_VALUE_LEN)%nat) -> IsValidKey key = true ->
  (forall v, m !! key = Some v -> (String.length v < length buf)%nat -> recall key es = None) ->
  runs ('(ret, value) ← GetValueByFile key buf (Z.of_nat (length buf));
        if ret <? 0 then mret (EC_FAILURE, None)
        else _ ← cached (fun c => c ← AddKVCache key (c_string value) false c; Some ((), c)); mret (ret, Some (c_string value))) s
    (fun r s' => hal_inv m s' /\
       match m !! key with
       | Some v => if Z.of_nat (length buf) <=? Z.of_nat (String.length v) then r = (EC_FAILURE, None)
                   else r = (Z.of_nat (String.length v), Some v)
       | None => r = (EC_FAILURE, None)
       end).
Proof.
  intros Hi Hs Hf Hc Hes Hnd Hm Hv Hrec. pose proof Hi as [_ Hca Hk Hr]. pose proof failure_negative as Hneg. rbind.
  eapply (HalGetValueByFile_ok key buf (m !! key)); [exact Hs|by apply Hf|]. intros s1 Hs1.
  assert (Hi1 : hal_inv m s1) by (by eapply (hal_inv_intro (hal_cache s))).
  destruct (m !! key) as [v|] eqn:Ev.
  2: { rewrite (proj2 (Z.ltb_lt _ _)) by done. by apply runs_ret. }
  destruct (Z.of_nat (length buf) <=? Z.of_nat (String.length v)) eqn:El.
  { rewrite (proj2 (Z.ltb_lt _ _)) by done. by apply runs_ret. }
  intros rest. rewrite (proj2 (Z.ltb_ge _ _)) by lia. apply Z.leb_gt in El.
  rewrite c_string_bytes by (by eapply Hk). rbind.
  destruct (AddKVCache_read (hal_cache s) m es key v Hes Hnd) as (c' & Hadd & Hc'); [apply (Hrec v); [done|lia]|done|done|].
  eapply runs_cached; [exact Hs1|by rewrite Hadd|]. intros s2 Hs2. apply runs_ret. split; [|done].
  by eapply (hal_inv_intro c').
Qed.

Lemma hal_get m s key buf :
  hal_inv m s ->
  runs (hal_perform (HalGet key buf)) s (fun r s' => hal_inv m s' /\ hal_agrees r (fst (hal_spec (HalGet key buf) m))).
Proof.
  intros Hi. pose proof Hi as [(F & Hs & Hc & Hf) Hca Hk Hr]. cbn [hal_perform hal_spec]. unfold UtilsGetValue.
  destruct (negb (IsValidKey key) || _) eqn:Ev; [by apply runs_ret|]. apply orb_false_elim in Ev as [Hv%negb_false_iff _].
  pose proof Hca as (es & Hes & Hnd & Hes_m). rbind.
  eapply runs_cached; [exact Hs|by rewrite (GetValueByCache_spec _ _ _ _ Hes)|]. intros s1 Hs1.
  assert (Hi1 : hal_inv m s1) by (by eapply (hal_inv_intro (hal_cache s))).
  pose proof (st_cache _ _ _ _ Hs1) as Hc1. rewrite <- Hc1 in Hs1, Hes.
  assert (Hmiss : (forall v, m !! key = Some v -> (String.length v < length buf)%nat -> recall key es = None) ->
    runs ('(ret, value) ← GetValueByFile key buf (Z.of_nat (length buf));
        if ret <? 0 then mret (EC_FAILURE, None)
        else _ ← cached (fun c => c ← AddKVCache key (c_string value) false c; Some ((), c)); mret (ret, Some (c_string value)))
      s1 (fun r s' => hal_inv m s' /\ hal_agrees r (fst (match m !! key with
        | Some v => if Z.of_nat (length buf) <=? Z.of_nat (String.length v) then (HalCode EC_FAILURE, m) else (HalValue v, m)
        | None => (HalCode EC_FAILURE, m) end)))).
  { intros Hrec. eapply runs_mono; [by eapply (hal_get_file m s1 F es key buf)|]. intros r s2 [Hi2 Hr2]. split; [done|].
    destruct (m !! key) as [v|]; [|done]. destruct (_ <=? _); [done|by right]. }
  destruct (recall key es) as [v|] eqn:Erec.
  - destruct (Hes_m key v) as [Hmv Hlen]; [by apply recall_elem|]. rewrite (proj2 (Nat.leb_gt _ _)) by done. cbn [orb].
    destruct (Z.of_nat (length buf) <=? Z.of_nat (String.length v)) eqn:El.
    + rewrite failure_not_success. apply Hmiss. intros v' Hv'. rewrite Hmv in Hv'. injection Hv' as <-. apply Z.leb_le in El. lia.
    + rewrite success_refl. apply runs_ret. split; [done|]. rewrite Hmv, El. by left.
  - rewrite failure_not_success. by apply Hmiss.
Qed.

Lemma hal_set m s key value :
  hal_inv m s -> no_nul value ->
  runs (hal_perform (HalSet key value)) s
    (fun r s' => hal_inv (snd (hal_spec (HalSet key value) m)) s' /\ hal_agrees r (fst (hal_spec (HalSet key value) m))).
Proof.
  intros Hi Hnul. pose proof Hi as [(F & Hs & Hc & Hf) Hca Hk Hr]. cbn [hal_perform hal_spec]. rbind. unfold UtilsSetValue.
  destruct (negb (IsValidKey key) || _) eqn:Ev; [by do 2 apply runs_ret|].
  apply orb_false_elim in Ev as [Hv%negb_false_iff Hval%negb_false_iff]. pose proof (key_not_sum _ Hv) as Hne.
  rbind. eapply HalGetCurrentItem_ok; [exact Hs|exact Hc|lia|]. intros s1 Hs1.
  rbind. eapply HalNewItem_ok; [exact Hs1|]. intros s2 Hs2. rewrite (Hf key Hv).
  assert (Hnew : bool_decide (bytes_of <$> m !! key = None) = bool_decide (m !! key = None)) by (by destruct (m !! key)).
  rewrite Hnew. destruct ((MAX_KV_SUM <=? Z.of_nat (size m)) && bool_decide (m !! key = None)) eqn:Efull.
  { do 2 apply runs_ret. split; [by eapply (hal_inv_intro (hal_cache s))|done]. }
  rbind. eapply HalSetValueToFile_ok; [exact Hs2|]. intros s3 Hs3. rewrite success_refl. rbind. rbind.
  destruct (AddKVCache_new (hal_cache s) m key value Hca) as (c' & Hadd & Hc');
    [by apply valid_key_length|by apply valid_length|].
  eapply runs_cached; [exact Hs3|by rewrite Hadd|]. intros s4 Hs4. apply runs_ret.
  set (m' := <[key := value]> m) in *. cbn [fst snd].
  assert (Hsize : (if bool_decide (m !! key = None) then Z.of_nat (size m) + 1 else Z.of_nat (size m)) = Z.of_nat (size m')).
  { unfold m'. destruct (m !! key) eqn:Em.
    - rewrite bool_decide_false by done. by rewrite map_size_insert_Some by (by eexists).
    - rewrite bool_decide_true by done. rewrite map_size_insert_None by done. lia. }
  assert (Hroom : Z.of_nat (size m') <= MAX_KV_SUM).
  { rewrite <- Hsize. destruct (bool_decide (m !! key = None)); [|done]. rewrite andb_true_r in Efull. apply Z.leb_gt in Efull. lia. }
  rewrite Hsize. eapply (HalSetCurrentItem_ok (size m') (size m)); [exact Hs4| |lia|lia|].
  { destruct Hc as [E|[E ->]]; [left|right]; by rewrite lookup_insert_ne. }
  intros s5 Hs5. apply runs_ret. split; [|done]. eapply (hal_inv_intro c'); [exact Hs5|apply counted_new| |done| |done].
  - intros k Hk'. pose proof (key_not_sum _ Hk'). rewrite lookup_insert_ne by done. unfold m'.
    destruct (decide (k = key)) as [->|Hkk]; [by rewrite !lookup_insert_eq|]. rewrite !lookup_insert_ne by done. by apply Hf.
  - intros k v. unfold m'. destruct (decide (k = key)) as [->|Hkk].
    + rewrite lookup_insert_eq. by intros [= <-].
    + rewrite lookup_insert_ne by done. apply Hk.
Qed.

Lemma hal_delete m s key :
  hal_inv m s ->
  runs (hal_perform (HalDelete key)) s
    (fun r s' => hal_inv (snd (hal_spec (HalDelete key) m)) s' /\ hal_agrees r (fst (hal_spec (HalDelete key) m))).
Proof.
  intros Hi. pose proof Hi as [(F & Hs & Hc & Hf) Hca Hk Hr]. cbn [hal_perform hal_spec]. rbind. unfold UtilsDeleteValue.
  pose proof success_zero as Hz. destruct (IsValidKey key) eqn:Hv; cbn [negb]; [|by do 2 apply runs_ret].
  pose proof (key_not_sum _ Hv) as Hne. rbind. destruct (DeleteKVCache_ok (hal_cache s) m key Hca) as (c' & Hdel & Hc').
  eapply runs_cached; [exact Hs|by rewrite Hdel|]. intros s1 Hs1. rbind. eapply runs_delete; [exact Hs1|]. intros s2 r Hres Hs2.
  rewrite (Hf key Hv) in Hres. destruct (m !! key) as [v|] eqn:Em; cbn in Hres.
  - subst r. rewrite Hz. change (0 =? 0) with true. rewrite bool_decide_false by done. cbn [fst snd].
    assert (Hc2 : counted (size m) (delete key F)).
    { destruct Hc as [E|[E E']]; [left|right]; by rewrite lookup_delete_ne. }
    rbind. eapply HalGetCurrentItem_ok; [exact Hs2|exact Hc2|lia|]. intros s3 Hs3.
    assert (Hsize : (size m = S (size (delete key m)))%nat).
    { rewrite map_size_delete_Some by (by eexists). assert (size m <> 0)%nat; [|lia]. intros E. apply map_size_empty_inv in E. by subst. }
    replace (Z.of_nat (size m) - 1) with (Z.of_nat (size (delete key m))) by lia.
    eapply (HalSetCurrentItem_ok (size (delete key m)) (size m)); [exact Hs3|exact Hc2|lia|lia|].
    intros s4 Hs4. apply runs_ret. split; [|by rewrite Hz].
    eapply (hal_inv_intro c'); [exact Hs4|apply counted_new| |done| |lia].
    + intros k Hk'. pose proof (key_not_sum _ Hk'). rewrite lookup_insert_ne by done.
      destruct (decide (k = key)) as [->|Hkk]; [by rewrite !lookup_delete_eq|]. rewrite !lookup_delete_ne by done. by apply Hf.
    + intros k v' Hk'. apply lookup_delete_Some in Hk' as [_ Hk']. by eapply Hk.
  - rewrite (proj2 (Z.eqb_neq _ _)) by lia. rewrite bool_decide_true by done. cbn [fst snd]. do 2 apply runs_ret.
    split; [|by split]. rewrite delete_id in Hc' by done. rewrite delete_id in Hs2 by (rewrite (Hf key Hv); by rewrite Em).
    by eapply (hal_inv_intro c').
Qed.

Lemma hal_clear m s :
  hal_inv m s -> runs (hal_perform HalClear) s (fun r s' => hal_inv m s' /\ hal_agrees r (HalCode EC_SUCCESS)).
Proof.
  intros Hi. pose proof Hi as [(F & Hs & Hc & Hf) Hca Hk Hr]. cbn [hal_perform]. rbind. unfold ClearKVCache.
  destruct (ClearKVCacheInner_ok (hal_cache s) m Hca) as (c' & Hcl & Hc').
  eapply runs_cached; [exact Hs|exact Hcl|]. intros s1 Hs1. apply runs_ret. split; [|done]. by eapply (hal_inv_intro c').
Qed.

Lemma hal_step o m s :
  hal_inv m s -> c_op o ->
  runs (hal_perform o) s (fun r s' => hal_inv (snd (hal_spec o m)) s' /\ hal_agrees r (fst (hal_spec o m))).
Proof.
  intros Hi Ho. destruct o as [key buf|key value|key|].
  - eapply runs_mono; [by apply (hal_get m)|]. intros r s' [? ?]. split; [|done]. cbn [hal_spec].
    destruct (_ || _); [done|]. destruct (m !! key); [|done]. by destruct (_ <=? _).
  - by apply hal_set.
  - by apply hal_delete.
  - by apply hal_clear.
Qed.
End Runs.

(** C23: on a device whose calls work, any sequence of get, set, delete and clear of the cache
    is never undefined and answers as the map of the files does: a set puts the value
    unless 'MAX_KV_SUM' keys are there and this one is new, a delete takes it out, a
    get gives the last value set or fails when the buffer has no room for it and the
    NUL; whichever allocations of the cache fail. At the end the files are that map and
    the file of the count has its size. *)
Theorem hal_store_refines_map `{KvConfig} `{UtilsFileLaws} (os : list hal_op) (m : gmap string string) (s : HalState)
    (Hmax : 0 <= MAX_KV_SUM <= 999) (Hi : hal_inv m s) (Hos : Forall c_op os) :
  exists rs s', hal_performs os s = Some (rs, s') /\ Forall2 hal_agrees rs (fst (hal_specs os m)) /\
    hal_inv (snd (hal_specs os m)) s'.
Proof.
  revert m s Hi. induction Hos as [|o os Ho _ IH]; intros m s Hi; [by exists [], s|]. cbn [hal_performs hal_specs].
  destruct (hal_step Hmax o m s Hi Ho) as (r & s1 & E1 & Hi1 & Ha). destruct (hal_spec o m) as [a m1]. cbn [fst snd] in *.
  destruct (IH m1 s1 Hi1) as (rs & s2 & E2 & Has & Hi2). destruct (hal_specs os m1) as [l m2]. cbn [fst snd] in *.
  exists (r :: rs), s2. unfold mbind, hal_bind. rewrite E1. cbn. rewrite E2. split_and!; [done|by apply Forall2_cons|done].
Qed.

(** ** In memory *)
Definition hal_boot (ms : list bool) : HalState (H0 := memory_files) :=
  mkHal (H0 := memory_files) (mkCache ∅ None None 0 0 ms) (mkMemory ∅ ∅ Forever 0).

Lemma hal_boot_inv ms : hal_inv (H := demo_config) ∅ (hal_boot ms).
Proof.
  eapply (hal_inv_intro (H := demo_config) (mkCache ∅ None None 0 0 ms) ∅); [by split|by right| | | |done].
  - intros k _. by rewrite !lookup_empty.
  - apply booted_cache.
  - intros k v. by rewrite lookup_empty.
Qed.

Lemma hal_store_refines_map_witness :
  exists rs s', hal_performs (H := demo_config) (H0 := memory_files)
      [HalSet "a" "1"; HalSet "b" "2"; HalSet "c" "3"; HalGet "a" (zeros 9); HalDelete "a"; HalGet "a" (zeros 9);
       HalDelete "a"; HalGet "b" (zeros 1)] (hal_boot [true; true; true; false]) = Some (rs, s') /\
    Forall2 (hal_agrees (H := demo_config)) rs
      [HalCode 0; HalCode 0; HalCode (-1); HalValue "1"; HalCode 0; HalCode (-1); HalFailed; HalCode (-1)].
Proof.
  destruct (hal_store_refines_map (H := demo_config) (H0 := memory_files)
    [HalSet "a" "1"; HalSet "b" "2"; HalSet "c" "3"; HalGet "a" (zeros 9); HalDelete "a"; HalGet "a" (zeros 9);
     HalDelete "a"; HalGet "b" (zeros 1)] ∅ (hal_boot [true; true; true; false])) as (rs & s' & E & Ha & _).
  - cbn. lia.
  - apply hal_boot_inv.
  - assert (Hnul : forall s, existsb (fun c => bool_decide (c = zero)) (bytes_of s) = false -> no_nul s).
    { intros t Ht Hin. apply Is_true_false in Ht. apply Ht, existb_True, Exists_exists. exists zero. split; [done|].
      by apply bool_decide_pack. }
    repeat first [apply Forall_nil_2 | apply Forall_cons_2; [first [exact I | apply Hnul; reflexivity]|]].
  - exists rs, s'. split; [exact E|]. rewrite Forall2_lookup in Ha |- *. exact Ha.
Defined.
