(* ===== verification/RdbHelper.v ===== *)
(** * Configuring, opening and deleting stores

    Models of rdb_store_config.cpp, sqlite_config.cpp, rdb_helper.cpp and the path
    functions of sqlite_database_utils.cpp. The helper keeps one store per path, brings its
    database to the version that is asked for with the callbacks of the application, and
    deletes the files of a database. Also what rdb_store_impl.cpp keeps of the settings
    of an opened store and hands on to the service for distributed databases. *)
From S2P Require Import Prelude StdMap Strings AbsPredicates RdbPredicates RdbErrno Disk.
From Stdlib Require Import Ascii.

#[local] Open Scope list_scope.

(** ** Settings *)
(** The kinds of distribution, from a header outside the repository. *)
Class DistributedTypes := { RDB_DEVICE_COLLABORATION : Z; RDB_DISTRIBUTED_TYPE_MAX : Z }.

Inductive StorageMode := MODE_MEMORY | MODE_DISK.
Inductive JournalMode := JM_DELETE | JM_TRUNCATE | JM_PERSIST | JM_MEMORY | JM_WAL | JM_OFF.
Inductive SyncMode := SM_OFF | SM_NORMAL | SM_FULL | SM_EXTRA.
Inductive DatabaseFileType := FT_NORMAL | FT_BACKUP | FT_CORRUPT.
Inductive DatabaseFileSecurityLevel := S4 | S3 | S2 | S1 | S0 | NO_LEVEL.

Definition GetDefaultJournalMode : string := "WAL".

Module RdbStoreConfig.
Record RdbStoreConfig := mkConfig {
  name : string;
  path : string;
  storageMode : StorageMode;
  journalMode : string;
  syncMode : string;
  encryptKey : list Z;
  readOnly : bool;
  databaseFileType : string;
  databaseFileSecurityLevel : string;
  distributedType_ : Z;
  bundleName_ : string;
  moduleName_ : string;
  relativePath_ : string;
  encryptLevel_ : string;
}.

Definition GetJournalModeValue (m : JournalMode) : string :=
  match m with
  | JM_DELETE => "DELETE" | JM_TRUNCATE => "TRUNCATE" | JM_PERSIST => "PERSIST"
  | JM_MEMORY => "MEMORY" | JM_WAL => "WAL" | JM_OFF => "OFF"
  end.
Definition GetSyncModeValue (m : SyncMode) : string :=
  match m with
  | SM_OFF => "MODE_OFF" | SM_NORMAL => "MODE_NORMAL" | SM_FULL => "MODE_FULL" | SM_EXTRA => "MODE_EXTRA"
  end.
Definition GetDatabaseFileTypeValue (t : DatabaseFileType) : string :=
  match t with FT_NORMAL => "db" | FT_BACKUP => "backup" | FT_CORRUPT => "corrupt" end.
Definition GetDatabaseFileSecurityLevelValue (l : DatabaseFileSecurityLevel) : string :=
  match l with S4 => "S4" | S3 => "S3" | S2 => "S2" | S1 => "S1" | S0 => "S0" | NO_LEVEL => "NO_LEVEL" end.

Definition GetName (c : RdbStoreConfig) := name c.
Definition GetPath (c : RdbStoreConfig) := path c.
Definition GetStorageMode (c : RdbStoreConfig) := storageMode c.
Definition GetJournalMode (c : RdbStoreConfig) := journalMode c.
Definition GetSyncMode (c : RdbStoreConfig) := syncMode c.
Definition GetEncryptKey (c : RdbStoreConfig) := encryptKey c.
Definition IsReadOnly (c : RdbStoreConfig) := readOnly c.
Definition IsMemoryRdb (c : RdbStoreConfig) : bool :=
  match GetStorageMode c with MODE_MEMORY => true | MODE_DISK => false end.
Definition GetDatabaseFileType (c : RdbStoreConfig) := databaseFileType c.
Definition GetDatabaseFileSecurityLevel (c : RdbStoreConfig) := databaseFileSecurityLevel c.
Definition GetDistributedType (c : RdbStoreConfig) := distributedType_ c.
Definition GetBundleName (c : RdbStoreConfig) := bundleName_ c.
Definition GetAppModuleName (c : RdbStoreConfig) := moduleName_ c.
Definition GetRelativePath (c : RdbStoreConfig) := relativePath_ c.
Definition GetEncryptLevel (c : RdbStoreConfig) := encryptLevel_ c.

Section Types.
Context `{DistributedTypes}.

Definition new_config (name : string) (storageMode : StorageMode) (isReadOnly : bool) (encryptKey : list Z)
    (journalMode syncMode databaseFileType databaseFileSecurityLevel : string) : RdbStoreConfig :=
  mkConfig name name storageMode journalMode syncMode encryptKey isReadOnly databaseFileType databaseFileSecurityLevel
    RDB_DEVICE_COLLABORATION "" "" "" "".

(** The copy constructor; the members for distribution get their initial values. *)
Definition copy_config (c : RdbStoreConfig) : RdbStoreConfig :=
  mkConfig (GetName c) (GetPath c) (GetStorageMode c) (GetJournalMode c) (GetSyncMode c) (GetEncryptKey c) (IsReadOnly c)
    (GetDatabaseFileType c) (GetDatabaseFileSecurityLevel c) RDB_DEVICE_COLLABORATION "" "" "" "".

Definition SetDistributedType (type : Z) (c : RdbStoreConfig) : Z * RdbStoreConfig :=
  if (type <? RDB_DEVICE_COLLABORATION) || (RDB_DISTRIBUTED_TYPE_MAX <=? type) then (E_ERROR, c)
  else
    (E_OK, mkConfig (name c) (path c) (storageMode c) (journalMode c) (syncMode c) (encryptKey c) (readOnly c)
             (databaseFileType c) (databaseFileSecurityLevel c) type (bundleName_ c) (moduleName_ c) (relativePath_ c)
             (encryptLevel_ c)).
End Types.

Definition SetName (v : string) (c : RdbStoreConfig) : RdbStoreConfig :=
  mkConfig v (path c) (storageMode c) (journalMode c) (syncMode c) (encryptKey c) (readOnly c) (databaseFileType c)
    (databaseFileSecurityLevel c) (distributedType_ c) (bundleName_ c) (moduleName_ c) (relativePath_ c) (encryptLevel_ c).
Definition SetPath (v : string) (c : RdbStoreConfig) : RdbStoreConfig :=
  mkConfig (name c) v (storageMode c) (journalMode c) (syncMode c) (encryptKey c) (readOnly c) (databaseFileType c)
    (databaseFileSecurityLevel c) (distributedType_ c) (bundleName_ c) (moduleName_ c) (relativePath_ c) (encryptLevel_ c).
Definition SetStorageMode (v : StorageMode) (c : RdbStoreConfig) : RdbStoreConfig :=
  mkConfig (name c) (path c) v (journalMode c) (syncMode c) (encryptKey c) (readOnly c) (databaseFileType c)
    (databaseFileSecurityLevel c) (distributedType_ c) (bundleName_ c) (moduleName_ c) (relativePath_ c) (encryptLevel_ c).
Definition SetJournalMode (v : JournalMode) (c : RdbStoreConfig) : RdbStoreConfig :=
  mkConfig (name c) (path c) (storageMode c) (GetJournalModeValue v) (syncMode c) (encryptKey c) (readOnly c)
    (databaseFileType c) (databaseFileSecurityLevel c) (distributedType_ c) (bundleName_ c) (moduleName_ c)
    (relativePath_ c) (encryptLevel_ c).
Definition SetEncryptKey (v : list Z) (c : RdbStoreConfig) : RdbStoreConfig :=
  mkConfig (name c) (path c) (storageMode c) (journalMode c) (syncMode c) v (readOnly c) (databaseFileType c)
    (databaseFileSecurityLevel c) (distributedType_ c) (bundleName_ c) (moduleName_ c) (relativePath_ c) (encryptLevel_ c).
Definition ClearEncryptKey (c : RdbStoreConfig) : RdbStoreConfig := SetEncryptKey [] c.
Definition SetReadOnly (v : bool) (c : RdbStoreConfig) : RdbStoreConfig :=
  mkConfig (name c) (path c) (storageMode c) (journalMode c) (syncMode c) (encryptKey c) v (databaseFileType c)
    (databaseFileSecurityLevel c) (distributedType_ c) (bundleName_ c) (moduleName_ c) (relativePath_ c) (encryptLevel_ c).
Definition SetDatabaseFileType (v : DatabaseFileType) (c : RdbStoreConfig) : RdbStoreConfig :=
  mkConfig (name c) (path c) (storageMode c) (journalMode c) (syncMode c) (encryptKey c) (readOnly c)
    (GetDatabaseFileTypeValue v) (databaseFileSecurityLevel c) (distributedType_ c) (bundleName_ c) (moduleName_ c)
    (relativePath_ c) (encryptLevel_ c).
Definition SetBundleName (v : string) (c : RdbStoreConfig) : Z * RdbStoreConfig :=
  if empty v then (E_ERROR, c)
  else
    (E_OK, mkConfig (name c) (path c) (storageMode c) (journalMode c) (syncMode c) (encryptKey c) (readOnly c)
             (databaseFileType c) (databaseFileSecurityLevel c) (distributedType_ c) v (moduleName_ c) (relativePath_ c)
             (encryptLevel_ c)).
Definition SetServiceName (v : string) (c : RdbStoreConfig) : RdbStoreConfig := snd (SetBundleName v c).
Definition SetRelativePath (v : string) (c : RdbStoreConfig) : RdbStoreConfig :=
  mkConfig (name c) (path c) (storageMode c) (journalMode c) (syncMode c) (encryptKey c) (readOnly c) (databaseFileType c)
    (databaseFileSecurityLevel c) (distributedType_ c) (bundleName_ c) (moduleName_ c) v (encryptLevel_ c).
Definition SetAppModuleName (v : string) (c : RdbStoreConfig) : RdbStoreConfig :=
  mkConfig (name c) (path c) (storageMode c) (journalMode c) (syncMode c) (encryptKey c) (readOnly c) (databaseFileType c)
    (databaseFileSecurityLevel c) (distributedType_ c) (bundleName_ c) v (relativePath_ c) (encryptLevel_ c).
Definition SetEncryptLevel (v : string) (c : RdbStoreConfig) : RdbStoreConfig :=
  mkConfig (name c) (path c) (storageMode c) (journalMode c) (syncMode c) (encryptKey c) (readOnly c) (databaseFileType c)
    (databaseFileSecurityLevel c) (distributedType_ c) (bundleName_ c) (moduleName_ c) (relativePath_ c) v.
End RdbStoreConfig.
Import RdbStoreConfig (RdbStoreConfig).

Module SqliteConfig.
Record SqliteConfig := mkConfig {
  path : string;
  storageMode : StorageMode;
  journalMode : string;
  syncMode : string;
  readOnly : bool;
  encrypted : bool;
  initEncrypted : bool;
  databaseFileType : string;
  encryptKey : list Z;
}.
Definition is_empty (key : list Z) : bool := match key with [] => true | _ => false end.

Definition new_config (c : RdbStoreConfig) : SqliteConfig :=
  let encryptKey := RdbStoreConfig.GetEncryptKey c in
  let journalMode := RdbStoreConfig.GetJournalMode c in
  mkConfig (RdbStoreConfig.GetPath c) (RdbStoreConfig.GetStorageMode c)
    (if empty journalMode then GetDefaultJournalMode else journalMode) (RdbStoreConfig.GetSyncMode c)
    (RdbStoreConfig.IsReadOnly c) (negb (is_empty encryptKey)) (negb (is_empty encryptKey))
    (RdbStoreConfig.GetDatabaseFileType c) encryptKey.

Definition GetPath (c : SqliteConfig) := path c.
Definition SetPath (newPath : string) (c : SqliteConfig) : SqliteConfig :=
  mkConfig newPath (storageMode c) (journalMode c) (syncMode c) (readOnly c) (encrypted c) (initEncrypted c)
    (databaseFileType c) (encryptKey c).
Definition GetStorageMode (c : SqliteConfig) := storageMode c.
Definition GetJournalMode (c : SqliteConfig) := journalMode c.
Definition GetSyncMode (c : SqliteConfig) := syncMode c.
Definition IsReadOnly (c : SqliteConfig) := readOnly c.
Definition IsEncrypted (c : SqliteConfig) := encrypted c.
Definition IsInitEncrypted (c : SqliteConfig) := initEncrypted c.
Definition GetEncryptKey (c : SqliteConfig) := encryptKey c.
Definition GetDatabaseFileType (c : SqliteConfig) := databaseFileType c.
Definition UpdateEncryptKey (newKey : list Z) (c : SqliteConfig) : SqliteConfig :=
  mkConfig (path c) (storageMode c) (journalMode c) (syncMode c) (readOnly c) (negb (is_empty newKey)) (initEncrypted c)
    (databaseFileType c) newKey.
Definition ClearEncryptKey (c : SqliteConfig) : SqliteConfig :=
  mkConfig (path c) (storageMode c) (journalMode c) (syncMode c) (readOnly c) (encrypted c) (initEncrypted c)
    (databaseFileType c) [].
End SqliteConfig.

(** ** The helper *)
(** What the helper uses of stores and of the application's callbacks; a call that
    does not return, as one that waits for a connection for ever, is [None]. *)
Class RdbStores := {
  stores : Type;
  RdbStore : Type;
  RdbStore_eq : EqDecision RdbStore;
  Open : RdbStoreConfig -> stores -> option (Z * option RdbStore * stores);
  GetVersion : RdbStore -> stores -> option (Z * Z * stores);
  SetVersion : RdbStore -> Z -> stores -> option (Z * stores);
}.
#[global] Existing Instance RdbStore_eq.

Record RdbOpenCallback `{RdbStores} := mkCallback {
  OnCreate : RdbStore -> stores -> option (Z * stores);
  OnUpgrade : RdbStore -> Z -> Z -> stores -> option (Z * stores);
  OnDowngrade : RdbStore -> Z -> Z -> stores -> option (Z * stores);
  OnOpen : RdbStore -> stores -> option (Z * stores);
}.

Section Helper.
Context `{RdbStores}.

(** Bringing the database from the version it has to the one that is asked for. *)
Definition change_version (rdbStore : RdbStore) (config : RdbStoreConfig) (version : Z) (cb : RdbOpenCallback)
    (currentVersion : Z) (w : stores) : option (Z * stores) :=
  if version =? currentVersion then OnOpen cb rdbStore w
  else if RdbStoreConfig.IsReadOnly config then Some (E_CANNOT_UPDATE_READONLY, w)
  else
    '(errCode, w) ←
      (if currentVersion =? 0 then OnCreate cb rdbStore w
       else if version >? currentVersion then OnUpgrade cb rdbStore currentVersion version w
       else OnDowngrade cb rdbStore currentVersion version w);
    '(errCode, w) ← (if errCode =? E_OK then SetVersion rdbStore version w else Some (errCode, w));
    if negb (errCode =? E_OK) then Some (errCode, w) else OnOpen cb rdbStore w.

Definition ProcessOpenCallback (rdbStore : RdbStore) (config : RdbStoreConfig) (version : Z) (cb : RdbOpenCallback)
    (w : stores) : option (Z * stores) :=
  '(errCode, currentVersion, w) ← GetVersion rdbStore w;
  if negb (errCode =? E_OK) then Some (errCode, w) else change_version rdbStore config version cb currentVersion w.

Abbreviation cache := (list (string * RdbStore)).

(** The code, the store and the cache. *)
Definition GetRdbStore (config : RdbStoreConfig) (version : Z) (cb : RdbOpenCallback) (c : cache) (w : stores)
    : option (Z * option RdbStore * cache * stores) :=
  let path := RdbStoreConfig.GetPath config in
  '(errCode, found, c, w) ←
    match sm_find path c with
    | None =>
        '(errCode, opened, w) ← Open config w;
        Some (errCode, opened, match opened with Some s => sm_insert path s c | None => c end, w)
    | Some s => Some (E_OK, Some s, c, w)
    end;
  match found with
  | None => Some (errCode, None, c, w)
  | Some rdbStore =>
      '(errCode, w) ← ProcessOpenCallback rdbStore config version cb w;
      Some (errCode, if errCode =? E_OK then Some rdbStore else None, c, w)
  end.

Definition ClearCache : cache := [].

(** One of the files SQLite keeps beside a database; the code so far comes in. *)
Definition remove_beside (fileName : string) (errCode : Z) : F Z :=
  present ← opens fileName;
  if present : bool then
    failed ← remove fileName;
    mret (if failed : bool then E_REMOVE_FILE else errCode)
  else mret errCode.

Definition DeleteRdbStore (dbFileName : string) (c : cache) : F (Z * cache) :=
  if empty dbFileName then mret (E_EMPTY_FILE_NAME, c)
  else
    let c := match sm_find dbFileName c with Some _ => sm_erase dbFileName c | None => c end in
    present ← opens dbFileName;
    if negb present then mret (E_OK, c)
    else
      failed ← remove dbFileName;
      if failed : bool then mret (E_REMOVE_FILE, c)
      else
        errCode ← remove_beside (dbFileName +:+ "-shm") E_OK;
        errCode ← remove_beside (dbFileName +:+ "-wal") errCode;
        errCode ← remove_beside (dbFileName +:+ "-journal") errCode;
        mret (errCode, c).
End Helper.

(** ** Paths of databases *)
Section Paths.
(** What [mkdir] and [realpath] of the C library do. *)
Context (mkdir : string -> bool) (realpath : string -> option string).
Abbreviation dirs := (gset string).

(** A directory is made when it is not there; the error code of the caller. *)
Definition ensure_dir (path : string) (errorCode : Z) (d : dirs) : Z * dirs :=
  if bool_decide (path ∈ d) then (errorCode, d)
  else if mkdir path then (errorCode, {[path]} ∪ d) else (E_CREATE_FOLDER_FAIL, d).

Definition GetDatabaseDir (fileConfig : RdbStoreConfig) (securityLevel : string) : string :=
  let databaseTypeDir := RdbStoreConfig.GetDatabaseFileType fileConfig in
  let suffix := if SqliteConfig.is_empty (RdbStoreConfig.GetEncryptKey fileConfig) then "" else "_encrypt" in
  let prefix := if bool_decide (securityLevel = "S3") || bool_decide (securityLevel = "S4") then "sece_" else "" in
  prefix +:+ databaseTypeDir +:+ suffix.

Definition GetDatabasePathNoName (context : string) (fileConfig : RdbStoreConfig) (errorCode : Z) (d : dirs)
    : string * Z * dirs :=
  let securityLevel := RdbStoreConfig.GetDatabaseFileSecurityLevel fileConfig in
  let databasePath := context +:+ "/" +:+ GetDatabaseDir fileConfig securityLevel in
  let '(errorCode, d) := ensure_dir databasePath errorCode d in
  (databasePath, errorCode, d).

Definition GetDefaultDatabasePath (context name : string) (errorCode : Z) (d : dirs) : string * Z * dirs :=
  let '(errorCode, d) := ensure_dir context errorCode d in
  let databasePath := context +:+ "/db" in
  let '(errorCode, d) := ensure_dir databasePath errorCode d in
  match realpath databasePath with
  | None => ("", E_INVALID_FILE_PATH, d)
  | Some realFilePath => (realFilePath +:+ "/" +:+ name, errorCode, d)
  end.

(** Before and after the last slash; without one both are the whole path. *)
Definition around_slash (s : string) : string * string := default (s, s) (split_last s).

Definition GetCorruptPath (path : string) (errorCode : Z) (d : dirs) : string * Z * dirs :=
  let '(parentFile, name) := around_slash path in
  let '(databaseDir, databaseTypeDir) := around_slash parentFile in
  let isEncrypt :=
    match String.index 0 "_encrypt" databaseTypeDir with
    | Some pos => bool_decide (String.substring pos (String.length databaseTypeDir) databaseTypeDir = "_encrypt")
    | None => false
    end in
  let corruptPath := databaseDir +:+ "/" +:+ "corrupt" +:+ (if isEncrypt then "_encrypt" else "") in
  let '(errorCode, d) := ensure_dir corruptPath errorCode d in
  (corruptPath +:+ "/" +:+ name, errorCode, d).
End Paths.

(** Deleting and renaming a file. *)
Definition DeleteFile (fileName : string) : F unit :=
  present ← opens fileName;
  if negb present then mret tt else _ ← remove fileName; mret tt.
Definition RenameFile (oldFileName newFileName : string) : F bool :=
  present ← opens oldFileName;
  if negb present then mret false
  else
    failed ← rename oldFileName newFileName;
    mret (if failed : bool then true else false).

(** ** The settings of an opened store, and the distributed service *)

(** Belongs to another repository; in the order of its initialiser. *)
Record RdbSyncerParam := mkSyncerParam {
  syncer_bundle : string;
  syncer_module : string;
  syncer_store : string;
  syncer_level : string;
  syncer_password : string;
  syncer_type : Z;
}.

(** [std::string::rfind]. *)
Fixpoint rfind (pattern s : string) : option nat :=
  match s with
  | EmptyString => if empty pattern then Some 0%nat else None
  | String _ t =>
      match rfind pattern t with
      | Some pos => Some (S pos)
      | None => if String.prefix pattern s then Some 0%nat else None
      end
  end.

Definition RemoveSuffix (name : string) : string :=
  match rfind ".db" name with
  | None => name
  | Some pos => if (pos <? String.length name - 3)%nat then name else String.substring 0 pos name
  end.

Module StoreInfo.
Record StoreInfo := mkInfo {
  isOpen : bool;
  path : string;
  orgPath : string;
  isReadOnly : bool;
  isMemoryRdb : bool;
  name : string;
  fileSecurityLevel : string;
  fileType : string;
  syncerParam_ : RdbSyncerParam;
}.

Definition new_info : StoreInfo := mkInfo false "" "" false false "" "" "" (mkSyncerParam "" "" "" "" "" 0).

(** [pool] is what [SqliteConnectionPool::Create] returned: its error or success. *)
Definition InnerOpen (config : RdbStoreConfig) (pool : option Z) (s : StoreInfo) : Z * StoreInfo :=
  match pool with
  | Some errCode => (errCode, s)
  | None =>
      (E_OK,
       mkInfo true (RdbStoreConfig.GetPath config) (RdbStoreConfig.GetPath config) (RdbStoreConfig.IsReadOnly config)
         (RdbStoreConfig.IsMemoryRdb config) (RdbStoreConfig.GetName config)
         (RdbStoreConfig.GetDatabaseFileSecurityLevel config) (RdbStoreConfig.GetDatabaseFileType config)
         (mkSyncerParam (RdbStoreConfig.GetBundleName config)
            (RdbStoreConfig.GetAppModuleName config +:+ "/" +:+ RdbStoreConfig.GetRelativePath config)
            (RemoveSuffix (RdbStoreConfig.GetName config)) (RdbStoreConfig.GetEncryptLevel config) ""
            (RdbStoreConfig.GetDistributedType config)))
  end.

Definition IsOpen (s : StoreInfo) : bool := isOpen s.
Definition GetPath (s : StoreInfo) : string := path s.
Definition GetOrgPath (s : StoreInfo) : string := orgPath s.
Definition IsReadOnly (s : StoreInfo) : bool := isReadOnly s.
Definition IsMemoryRdb (s : StoreInfo) : bool := isMemoryRdb s.
Definition GetName (s : StoreInfo) : string := name s.
Definition GetFileType (s : StoreInfo) : string := fileType s.
Definition GetFileSecurityLevel (s : StoreInfo) : string := fileSecurityLevel s.
End StoreInfo.
Import StoreInfo (StoreInfo, syncerParam_).

(** [DistributedRdb::RdbManager] and its services, over their state [D]. *)
Class RdbServices `{DistributedPredicates} (D : Type) := {
  RdbService : Type;
  SyncOption : Type;
  SyncCallback : Type;
  SubscribeOption : Type;
  GetRdbService : RdbSyncerParam -> D -> option RdbService * D;
  service_SetDistributedTables : RdbService -> RdbSyncerParam -> list string -> D -> Z * D;
  service_ObtainDistributedTableName : RdbService -> string -> string -> D -> string * D;
  service_Sync : RdbService -> RdbSyncerParam -> SyncOption -> dpred -> SyncCallback -> D -> Z * D;
  service_Subscribe : RdbService -> RdbSyncerParam -> SubscribeOption -> Z -> D -> Z * D;
  service_UnSubscribe : RdbService -> RdbSyncerParam -> SubscribeOption -> Z -> D -> Z * D;
}.

Section Distributed.
Context `{RdbServices D}.
Implicit Types (s : StoreInfo) (w : D).

Definition SetDistributedTables (tables : list string) s w : bool * D :=
  let '(service, w) := GetRdbService (syncerParam_ s) w in
  match service with
  | None => (false, w)
  | Some service =>
      let '(ret, w) := service_SetDistributedTables service (syncerParam_ s) tables w in
      (if negb (ret =? 0) then false else true, w)
  end.

Definition ObtainDistributedTableName (device table : string) s w : string * D :=
  let '(service, w) := GetRdbService (syncerParam_ s) w in
  match service with
  | None => ("", w)
  | Some service => service_ObtainDistributedTableName service device table w
  end.

(** The predicates are changed by asking for their distributed form. *)
Definition Sync (option_ : SyncOption) (predicate : AbsRdbPredicates) (callback : SyncCallback) s w
    : bool * AbsRdbPredicates * D :=
  let '(service, w) := GetRdbService (syncerParam_ s) w in
  match service with
  | None => (false, predicate, w)
  | Some service =>
      let '(distributed, predicate) := GetDistributedPredicates predicate in
      let '(ret, w) := service_Sync service (syncerParam_ s) option_ distributed callback w in
      (if negb (ret =? 0) then false else true, predicate, w)
  end.

Definition Subscribe (option_ : SubscribeOption) (observer : Z) s w : bool * D :=
  let '(service, w) := GetRdbService (syncerParam_ s) w in
  match service with
  | None => (false, w)
  | Some service =>
      let '(ret, w) := service_Subscribe service (syncerParam_ s) option_ observer w in (ret =? 0, w)
  end.

Definition UnSubscribe (option_ : SubscribeOption) (observer : Z) s w : bool * D :=
  let '(service, w) := GetRdbService (syncerParam_ s) w in
  match service with
  | None => (false, w)
  | Some service =>
      let '(ret, w) := service_UnSubscribe service (syncerParam_ s) option_ observer w in (ret =? 0, w)
  end.

(** Not implemented: it says it is done. *)
Definition DropDeviceData (devices : list string) s w : bool * D := (true, w).
End Distributed.

(** * What the helper guarantees *)

(** ** Versions *)
(** What reading and writing the version of a database mean. A version is read where no
    transaction is open on the store ([settled]); [version_of] is the version in the
    database as the writer sees it. *)
Class VersionLaws `{RdbStores} := {
  version_of : RdbStore -> stores -> Z;
  settled : RdbStore -> stores -> Prop;
  opened_settled config w code s w' : Open config w = Some (code, Some s, w') -> settled s w';
  get_version_ok s w code v w' : GetVersion s w = Some (code, v, w') ->
    (code = E_OK -> settled s w -> v = version_of s w) /\ version_of s w' = version_of s w;
  set_version_ok s v w w' : -2147483648 <= v <= 2147483647 -> SetVersion s v w = Some (E_OK, w') -> version_of s w' = v;
}.

Section Versions.
Context `{VersionLaws}.
Implicit Types (c : list (string * RdbStore)) (w : stores) (cb : RdbOpenCallback).

(** Being told that the store is open does not change versions. *)
Definition calm_open cb : Prop :=
  forall s w code w', OnOpen cb s w = Some (code, w') -> version_of s w' = version_of s w.

Lemma change_version_ok s config v cb cur w w' :
  -2147483648 <= v <= 2147483647 -> calm_open cb -> cur = version_of s w ->
  change_version s config v cb cur w = Some (E_OK, w') -> version_of s w' = v.
Proof.
  intros Hint Hcb Hcur. unfold change_version. destruct (Z.eqb_spec v cur) as [->|Hne].
  { intros Ho. by rewrite (Hcb _ _ _ _ Ho). }
  destruct (RdbStoreConfig.IsReadOnly config); [done|]. intros Hb.
  apply bind_Some in Hb as ([code w1] & _ & Hb). apply bind_Some in Hb as ([code2 w2] & Hset & Hb).
  destruct (Z.eqb_spec code E_OK) as [->|Hc].
  - destruct (Z.eqb_spec code2 E_OK) as [->|]; cbn [negb] in Hb; [|congruence].
    rewrite (Hcb _ _ _ _ Hb). by eapply set_version_ok.
  - injection Hset as <- <-. rewrite (proj2 (Z.eqb_neq _ _) Hc) in Hb. cbn in Hb. congruence.
Qed.

Lemma GetRdbStore_cached config v cb c w s :
  sm_find (RdbStoreConfig.GetPath config) c = Some s ->
  GetRdbStore config v cb c w =
    '(errCode, w) ← ProcessOpenCallback s config v cb w; Some (errCode, if errCode =? E_OK then Some s else None, c, w).
Proof. intros Hf. unfold GetRdbStore. by rewrite Hf. Qed.

Lemma GetRdbStore_finds config v cb c w code s c' w' :
  sm_sorted c -> GetRdbStore config v cb c w = Some (code, Some s, c', w') ->
  (forall s0, sm_find (RdbStoreConfig.GetPath config) c = Some s0 -> settled s0 w) ->
  sm_sorted c' /\ sm_find (RdbStoreConfig.GetPath config) c' = Some s /\ code = E_OK /\
  exists w1, settled s w1 /\ ProcessOpenCallback s config v cb w1 = Some (E_OK, w').
Proof.
  intros Hsort. unfold GetRdbStore. intros Hb Hset. apply bind_Some in Hb as ([[[e found] c1] w1] & Hfind & Hb).
  assert (Hc1 : sm_sorted c1 /\ forall s0, found = Some s0 -> sm_find (RdbStoreConfig.GetPath config) c1 = Some s0 /\ settled s0 w1).
  { destruct (sm_find _ c) as [s0|] eqn:Ef.
    { simplify_eq. split; [done|]. intros s1 [= <-]. split; [done|by apply Hset]. }
    apply bind_Some in Hfind as ([[e' o] w0] & Ho & E). destruct o as [s0|]; simplify_eq; try done.
    split; [by apply sm_insert_sorted|]. intros s1 [= <-]. split; [|by eapply opened_settled].
    rewrite sm_find_insert by done. by rewrite decide_True, Ef. }
  destruct Hc1 as [Hs1 Hf1]. destruct found as [s0|]; [|done]. apply bind_Some in Hb as ([e' w2] & Hp & Hb).
  destruct (Z.eqb_spec e' E_OK) as [->|]; [|done]. simplify_eq.
  destruct (Hf1 _ eq_refl) as [? ?]. split_and!; [done|done|done|by exists w1].
Qed.

(** a store that [GetRdbStore] returns has the version that was asked for, whatever version the
    database had and whatever the application's callbacks for creating, upgrading and
    downgrading did; and opening it again with the same version returns that store after a
    call of [OnOpen] alone. No transaction is open on the store when it is opened, and
    [OnOpen] leaves the version. *)
Theorem open_brings_version config v cb c w code s c' w' :
  -2147483648 <= v <= 2147483647 -> calm_open cb -> sm_sorted c ->
  (forall s0, sm_find (RdbStoreConfig.GetPath config) c = Some s0 -> settled s0 w) ->
  GetRdbStore config v cb c w = Some (code, Some s, c', w') ->
  code = E_OK /\ version_of s w' = v /\
  forall cb2, settled s w' -> GetRdbStore config v cb2 c' w' =
    '(e, _, w1) ← GetVersion s w';
    if negb (e =? E_OK) then Some (e, None, c', w1)
    else '(e2, w2) ← OnOpen cb2 s w1; Some (e2, if e2 =? E_OK then Some s else None, c', w2).
Proof.
  intros Hint Hcb Hsort Hset Hget.
  destruct (GetRdbStore_finds _ _ _ _ _ _ _ _ _ Hsort Hget Hset) as (_ & Hfind & -> & w1 & Hw1 & Hp).
  assert (Hv : version_of s w' = v).
  { unfold ProcessOpenCallback in Hp. apply bind_Some in Hp as ([[e cur] w2] & Hg & Hp).
    destruct (get_version_ok _ _ _ _ _ Hg) as [Hcur Hkeep]. destruct (Z.eqb_spec e E_OK) as [->|]; cbn [negb] in Hp; [|congruence].
    eapply change_version_ok; [exact Hint|exact Hcb| |exact Hp]. rewrite Hcur, Hkeep by done. done. }
  split_and!; [done|done|]. intros cb2 Hw'. rewrite (GetRdbStore_cached _ _ _ _ _ _ Hfind). unfold ProcessOpenCallback.
  destruct (GetVersion s w') as [[[e cur] w2]|] eqn:Eg; [|done]. cbn. destruct (get_version_ok _ _ _ _ _ Eg) as [Hcur _].
  destruct (Z.eqb_spec e E_OK) as [->|Hne]; cbn.
  - rewrite (Hcur eq_refl Hw'), Hv. unfold change_version. rewrite Z.eqb_refl. done.
  - by rewrite (proj2 (Z.eqb_neq _ _) Hne).
Qed.
End Versions.

(** ** One store for a path *)
Section Sharing.
Context `{RdbStores}.
Implicit Types (c : list (string * RdbStore)) (w : stores).

(** Openings one after the other. *)
Fixpoint openings (l : list (RdbStoreConfig * Z * RdbOpenCallback)) c w
    : option (list (string * Z * option RdbStore) * list (string * RdbStore) * stores) :=
  match l with
  | [] => Some ([], c, w)
  | (config, v, cb) :: l =>
      '(code, s, c, w) ← GetRdbStore config v cb c w;
      '(rs, c, w) ← openings l c w;
      Some ((RdbStoreConfig.GetPath config, code, s) :: rs, c, w)
  end.

Lemma GetRdbStore_keeps config v cb c w code o c' w' :
  sm_sorted c -> GetRdbStore config v cb c w = Some (code, o, c', w') ->
  sm_sorted c' /\ (forall p s, sm_find p c = Some s -> sm_find p c' = Some s) /\
  forall s, o = Some s -> sm_find (RdbStoreConfig.GetPath config) c' = Some s.
Proof.
  intros Hsort. unfold GetRdbStore. intros Hb. apply bind_Some in Hb as ([[[e found] c1] w1] & Hfind & Hb).
  assert (Hc1 : sm_sorted c1 /\ (forall p s, sm_find p c = Some s -> sm_find p c1 = Some s) /\
    forall s0, found = Some s0 -> sm_find (RdbStoreConfig.GetPath config) c1 = Some s0).
  { destruct (sm_find _ c) as [s0|] eqn:Ef.
    { simplify_eq. split_and!; [done|done|]. by intros s1 [= <-]. }
    apply bind_Some in Hfind as ([[e' o'] w0] & _ & E). injection E as <- <- <- <-. destruct o' as [s0|]; [|done].
    split_and!; [by apply sm_insert_sorted| |].
    - intros p s Hp. rewrite sm_find_insert by done. rewrite decide_False; [done|]. intros ->. congruence.
    - intros s1 [= <-]. rewrite sm_find_insert by done. by rewrite decide_True, Ef. }
  destruct Hc1 as (Hs1 & Hk1 & Hf1). destruct found as [s0|]; [|by simplify_eq].
  apply bind_Some in Hb as ([e' w2] & Hp & Hb). injection Hb as <- <- <- <-. split_and!; [done|done|].
  destruct (e' =? E_OK); [|done]. intros s [= <-]. by apply Hf1.
Qed.

(** However often stores are opened, with whatever settings, versions and callbacks, all
    openings of one path that succeed return the same store. *)
Theorem one_store_per_path l c w rs c' w' :
  sm_sorted c -> openings l c w = Some (rs, c', w') ->
  forall p code1 code2 s1 s2, (p, code1, Some s1) ∈ rs -> (p, code2, Some s2) ∈ rs -> s1 = s2.
Proof.
  intros Hsort Hop p code1 code2 s1 s2 H1 H2.
  assert (Hall : forall l c w rs c' w', sm_sorted c -> openings l c w = Some (rs, c', w') ->
    (forall p s, sm_find p c = Some s -> sm_find p c' = Some s) /\
    forall p code s, (p, code, Some s) ∈ rs -> sm_find p c' = Some s).
  { clear. intros l. induction l as [|[[config v] cb] l IH]; intros c w rs c' w' Hsort Hop; cbn [openings] in Hop.
    { simplify_eq. split; [done|]. by intros p code s ?%not_elem_of_nil. }
    apply bind_Some in Hop as ([[[code o] c1] w1] & Hg & Hop). apply bind_Some in Hop as ([[rs1 c2] w2] & Hrest & E).
    injection E as <- <- <-. destruct (GetRdbStore_keeps _ _ _ _ _ _ _ _ _ Hsort Hg) as (Hs1 & Hk1 & Hf1).
    destruct (IH _ _ _ _ _ Hs1 Hrest) as [Hk2 Hf2]. split; [auto|].
    intros p code' s [E|Hin]%elem_of_cons; [|by eapply Hf2]. injection E as -> _ <-. by apply Hk2, Hf1. }
  destruct (Hall _ _ _ _ _ _ Hsort Hop) as [_ Hf]. specialize (Hf p). pose proof (Hf code1 s1 H1). pose proof (Hf code2 s2 H2).
  congruence.
Qed.

(** ** Deleting *)
Lemma remove_beside_ok fileName code (w w' : FS) code' :
  remove_beside fileName code w = (code', w') ->
  (code' = E_OK -> files w' = delete fileName (files w) /\ code = E_OK) /\
  (faults w = [] -> code' = code /\ faults w' = []) /\
  (forall p, p <> fileName -> files w' !! p = files w !! p).
Proof.
  unfold remove_beside, mbind, F_bind, opens. destruct (files w !! fileName) as [x|] eqn:Ex; cbn.
  - unfold remove. rewrite Ex. destruct (next_fault w) eqn:En; intros [= <- <-]; cbn.
    + split_and!; [done| |].
      * intros E. by rewrite E.
      * intros p Hp. by rewrite lookup_delete_ne.
    + split_and!; [done| |done]. intros E. unfold next_fault in En. by rewrite E in En.
  - intros [= <- <-]. split_and!; [|done|done]. intros ->. by rewrite delete_id.
Qed.

(** A deletion that reports success leaves neither the database nor any of the files SQLite
    keeps beside it, if the database was there, and no store of that path in the cache;
    it touches no other file; and it does succeed when the system calls do. *)
Theorem delete_removes_database db c (w w' : FS) code c' :
  db <> "" -> is_Some (files w !! db) -> DeleteRdbStore db c w = ((code, c'), w') ->
  sm_find db c' = None /\
  (forall p, p <> db -> p <> db +:+ "-shm" -> p <> db +:+ "-wal" -> p <> db +:+ "-journal" -> files w' !! p = files w !! p) /\
  (code = E_OK -> forall suffix, suffix ∈ [""; "-shm"; "-wal"; "-journal"] -> files w' !! (db +:+ suffix) = None) /\
  (faults w = [] -> code = E_OK).
Proof.
  intros Hne [x Hx]. unfold DeleteRdbStore. assert (empty db = false) as -> by (by destruct db).
  set (c1 := match sm_find db c with Some _ => sm_erase db c | None => c end).
  assert (Hc1 : sm_find db c1 = None).
  { unfold c1. destruct (sm_find db c) eqn:E; [|done]. rewrite sm_find_erase. by rewrite decide_True. }
  unfold mbind, F_bind, opens. rewrite Hx. cbn. unfold remove. rewrite Hx.
  destruct (next_fault w) eqn:En; cbn.
  2: { intros [= <- <- <-]. cbn. split_and!; [done|done|done|]. intros E. unfold next_fault in En. by rewrite E in En. }
  set (w1 := done_with w (delete db (files w)) []).
  destruct (remove_beside (db +:+ "-shm") E_OK w1) as [e2 w2] eqn:E2. apply remove_beside_ok in E2 as (Ha2 & Hb2 & Hc2).
  destruct (remove_beside (db +:+ "-wal") e2 w2) as [e3 w3] eqn:E3. apply remove_beside_ok in E3 as (Ha3 & Hb3 & Hc3).
  destruct (remove_beside (db +:+ "-journal") e3 w3) as [e4 w4] eqn:E4. apply remove_beside_ok in E4 as (Ha4 & Hb4 & Hc4).
  intros [= <- <- <-]. split_and!; [done| | |].
  - intros p H0 H1 H2 H3. rewrite Hc4, Hc3, Hc2 by done. cbn. by rewrite lookup_delete_ne.
  - intros He4. destruct (Ha4 He4) as [F4 He3]. destruct (Ha3 He3) as [F3 He2]. destruct (Ha2 He2) as [F2 _].
    intros suffix Hs. rewrite F4, F3, F2. cbn. repeat (apply elem_of_cons in Hs as [->|Hs]); [..|by apply not_elem_of_nil in Hs].
    + rewrite append_nil_r, !lookup_delete_None. auto.
    + rewrite !lookup_delete_None. auto.
    + rewrite !lookup_delete_None. auto.
    + rewrite !lookup_delete_None. auto.
  - intros Hw. assert (Hf1 : faults w1 = []) by (unfold w1; cbn; by rewrite Hw). destruct (Hb2 Hf1) as [-> Hf2].
    destruct (Hb3 Hf2) as [-> Hf3]. by destruct (Hb4 Hf3) as [-> _].
Qed.
End Sharing.

(** ** Paths *)
Definition no_slash (s : string) : Prop := string_forall (fun ch => negb (Ascii.eqb ch "/")) s = true.

Lemma split_last_none s : no_slash s -> split_last s = None.
Proof.
  unfold no_slash. induction s as [|ch s IH]; [done|]. simpl. intros [Hc Hs]%andb_prop. rewrite (IH Hs).
  by apply negb_true_iff in Hc as ->.
Qed.
Lemma split_last_slash a b : no_slash b -> split_last (a +:+ "/" +:+ b) = Some (a, b).
Proof.
  intros Hb. induction a as [|ch a IH].
  - change ("" +:+ "/" +:+ b) with (String "/" b). cbn [split_last]. by rewrite (split_last_none b Hb).
  - change (String ch a +:+ "/" +:+ b) with (String ch (a +:+ "/" +:+ b)). cbn [split_last]. by rewrite IH.
Qed.

(** The place for a corrupt database is beside the directory its settings give it, with the
    same name, in a directory for corrupt databases that are encrypted or not as this one;
    the directory is there unless making it failed. *)
Theorem corrupt_path_beside mkdir context config name err d :
  no_slash name -> RdbStoreConfig.GetDatabaseFileType config ∈ [""; "db"; "backup"; "corrupt"] ->
  let '(dir, err1, d1) := GetDatabasePathNoName mkdir context config err d in
  let '(p, err2, d2) := GetCorruptPath mkdir (dir +:+ "/" +:+ name) err1 d1 in
  let place := context +:+ "/corrupt" +:+
    (if SqliteConfig.is_empty (RdbStoreConfig.GetEncryptKey config) then "" else "_encrypt") in
  p = place +:+ "/" +:+ name /\ (err2 <> E_CREATE_FOLDER_FAIL -> place ∈ d2).
Proof.
  intros Hn Ht. unfold GetDatabasePathNoName. set (level := RdbStoreConfig.GetDatabaseFileSecurityLevel config).
  destruct (ensure_dir mkdir (context +:+ "/" +:+ GetDatabaseDir config level) err d) as [err1 d1].
  unfold GetCorruptPath, around_slash. rewrite split_last_slash by done. cbn [default from_option id].
  set (enc := if SqliteConfig.is_empty (RdbStoreConfig.GetEncryptKey config) then "" else "_encrypt").
  assert (Hdir : no_slash (GetDatabaseDir config level) /\
    (if match String.index 0 "_encrypt" (GetDatabaseDir config level) with
        | Some pos => bool_decide (String.substring pos (String.length (GetDatabaseDir config level))
                                     (GetDatabaseDir config level) = "_encrypt")
        | None => false end then "_encrypt" else "") = enc).
  { unfold GetDatabaseDir. fold enc. generalize (bool_decide (level = "S3") || bool_decide (level = "S4")). intros b.
    assert (He : enc = "" \/ enc = "_encrypt") by (unfold enc; destruct (SqliteConfig.is_empty _); auto).
    repeat (apply elem_of_cons in Ht as [Ht|Ht]; [rewrite Ht; by destruct b, He as [->| ->]|]). by apply not_elem_of_nil in Ht. }
  destruct Hdir as [Hs He]. rewrite split_last_slash by done. cbn [default from_option id]. rewrite He.
  change ("/" +:+ "corrupt" +:+ enc) with ("/corrupt" +:+ enc).
  unfold ensure_dir. case_bool_decide; [done|]. destruct (mkdir _); split; try done. intros _. set_solver.
Qed.

(** A rename reports success when it fails, and failure when it succeeds. *)
Theorem rename_reports_failure old new (w : FS) :
  is_Some (files w !! old) -> fst (RenameFile old new w) = fst (rename old new w).
Proof.
  intros [x Hx]. unfold RenameFile, mbind, F_bind, opens. rewrite Hx. cbn. by destruct (rename old new w) as [[] w'].
Qed.

(** Copying settings loses those for distribution. *)
Theorem copy_loses_distribution `{DistributedTypes} bundle c :
  bundle <> "" -> RdbStoreConfig.GetBundleName (RdbStoreConfig.copy_config (snd (RdbStoreConfig.SetBundleName bundle c))) = "" /\
  RdbStoreConfig.GetBundleName (snd (RdbStoreConfig.SetBundleName bundle c)) = bundle.
Proof. intros Hb. unfold RdbStoreConfig.SetBundleName. by destruct bundle. Qed.

(** ** The name a store is distributed under *)
Lemma prefix_rest p s : String.prefix p s = true -> exists b, s = p +:+ b.
Proof.
  revert s. induction p as [|c p IH]; intros s Hp; [by exists s|]. destruct s as [|a s]; [done|]. simpl in Hp.
  destruct (ascii_dec c a) as [->|]; [|done]. destruct (IH s Hp) as [b ->]. by exists b.
Qed.

Lemma prefix_app p b : String.prefix p (p +:+ b) = true.
Proof. induction p as [|c p IH]; [by destruct b|]. rewrite append_cons. simpl. by destruct (ascii_dec c c). Qed.

Lemma rfind_found p s pos : rfind p s = Some pos -> exists a b, s = a +:+ p +:+ b /\ String.length a = pos.
Proof.
  revert pos. induction s as [|c s IH]; intros pos; cbn [rfind].
  - destruct p; [|done]. intros [= <-]. by exists "", "".
  - destruct (rfind p s) as [q|].
    + intros [= <-]. destruct (IH q eq_refl) as (a & b & -> & <-). by exists (String c a), b.
    + destruct (String.prefix p (String c s)) eqn:E; [|done]. intros [= <-]. apply prefix_rest in E as [b ->]. by exists "", b.
Qed.

Lemma rfind_last p a b : exists pos, rfind p (a +:+ p +:+ b) = Some pos /\ (String.length a <= pos)%nat.
Proof.
  induction a as [|c a (pos & E & Hpos)].
  - change ("" +:+ p +:+ b) with (p +:+ b). pose proof (prefix_app p b) as Hp. destruct (p +:+ b) as [|c s] eqn:Es.
    + destruct p; [|done]. by exists 0%nat.
    + cbn [rfind]. rewrite Hp. destruct (rfind p s) as [q|]; eexists; (split; [done|]); simpl; lia.
  - rewrite append_cons. exists (S pos). cbn [rfind String.length]. rewrite E. split; [done|lia].
Qed.

Lemma substring_app a b : String.substring 0 (String.length a) (a +:+ b) = a.
Proof. induction a as [|c a IH]; [by destruct b|]. rewrite append_cons. simpl. by rewrite IH. Qed.

(** The distributed name of a store is its name without one final [.db]: names that
    differ otherwise stay different, and ones that differ in it become equal. *)
Theorem suffix_removed s :
  (forall a, s = a +:+ ".db" -> RemoveSuffix s = a) /\ (RemoveSuffix s <> s -> s = RemoveSuffix s +:+ ".db").
Proof.
  split.
  - intros a ->. unfold RemoveSuffix. destruct (rfind_last ".db" a "") as (pos & E & Hpos). rewrite append_nil_r in E.
    rewrite E. destruct (rfind_found _ _ _ E) as (x & y & Exy & <-).
    pose proof (f_equal String.length Exy) as Hl. rewrite !length_append in Hl. simpl in Hl.
    rewrite length_append. simpl String.length. rewrite (proj2 (Nat.ltb_ge _ _)) by lia.
    assert (Ex : String.length x = String.length a) by lia. rewrite Ex. apply substring_app.
  - unfold RemoveSuffix. destruct (rfind ".db" s) as [pos|] eqn:E; [|done].
    destruct (rfind_found _ _ _ E) as (x & y & -> & <-). rewrite !length_append, substring_app.
    destruct (_ <? _)%nat eqn:El; [done|]. apply Nat.ltb_ge in El. simpl in El. intros _.
    destruct y; [by rewrite append_nil_r|]. simpl in El. lia.
Qed.

(** ** Stores that keep their versions and what the callbacks were *)
Definition demo_stores : RdbStores := {|
  stores := gmap string Z * list string;
  RdbStore := string;
  RdbStore_eq := _;
  Open config w := Some (E_OK, Some (RdbStoreConfig.GetPath config), w);
  GetVersion s w := Some (E_OK, default 0 (fst w !! s), w);
  SetVersion s v w := Some (E_OK, (<[s := v]> (fst w), snd w));
|}.
Definition demo_laws : VersionLaws (H := demo_stores).
Proof.
  refine (Build_VersionLaws demo_stores (fun s w => default 0 (fst w !! s)) (fun _ _ => True) _ _ _).
  - done.
  - intros s w code v w' [= <- <- <-]. done.
  - intros s v w w' _ [= <-]. cbn. by rewrite lookup_insert_eq.
Defined.
Definition demo_log (t : string) (w : gmap string Z * list string) : option (Z * (gmap string Z * list string)) :=
  Some (E_OK, (fst w, snd w ++ [t])).
Definition demo_callback : RdbOpenCallback (H := demo_stores) :=
  mkCallback demo_stores (fun s => demo_log "create") (fun s _ _ => demo_log "upgrade") (fun s _ _ => demo_log "downgrade")
    (fun s => demo_log "open").
Definition demo_settings : RdbStoreConfig :=
  RdbStoreConfig.mkConfig "a.db" "/data/a.db" MODE_DISK "" "" [] false "db" "S1" 0 "" "" "" "".

Lemma open_brings_version_witness :
  GetRdbStore (H := demo_stores) demo_settings 3 demo_callback [] (∅, []) =
    Some (E_OK, Some "/data/a.db", [("/data/a.db", "/data/a.db")], ({["/data/a.db" := 3]}, ["create"; "open"])) /\
  version_of (VersionLaws := demo_laws) "/data/a.db" ({["/data/a.db" := 3]}, ["create"; "open"]) = 3.
Proof.
  split; [vm_compute; reflexivity|].
  apply (open_brings_version (H0 := demo_laws) demo_settings 3 demo_callback [] (∅, []) E_OK "/data/a.db"
    [("/data/a.db", "/data/a.db")]).
  - lia.
  - intros s w code w' [= <- <-]. done.
  - constructor.
  - done.
  - vm_compute. reflexivity.
Defined.

Lemma one_store_per_path_witness : "/data/a.db" = "/data/a.db".
Proof.
  apply (one_store_per_path (H := demo_stores)
    [(demo_settings, 1, demo_callback); (demo_settings, 2, demo_callback)] [] (∅, [])
    [("/data/a.db", E_OK, Some "/data/a.db"); ("/data/a.db", E_OK, Some "/data/a.db")] [("/data/a.db", "/data/a.db")]
    ({["/data/a.db" := 2]}, ["create"; "open"; "upgrade"; "open"]) ltac:(constructor) ltac:(vm_compute; reflexivity)
    "/data/a.db" E_OK E_OK "/data/a.db" "/data/a.db"); left.
Defined.

Lemma delete_removes_database_witness :
  let w := mkFS {["d" := "x"; "d-wal" := "y"; "e" := "z"]} [] [] in
  exists w', DeleteRdbStore (H := demo_stores) "d" [] w = ((E_OK, []), w') /\ files w' !! "d-wal" = None /\ files w' !! "e" = Some "z".
Proof.
  intros w. eexists. split; [vm_compute; reflexivity|].
  edestruct (delete_removes_database (H := demo_stores) "d" [] w) as (_ & Hkeep & Hgone & _);
    [done|by eexists|vm_compute; reflexivity|]. split.
  - apply (Hgone eq_refl "-wal"). by right; right; left.
  - rewrite (Hkeep "e") by done. reflexivity.
Defined.

Lemma corrupt_path_beside_witness :
  let c := RdbStoreConfig.SetEncryptKey [7] demo_settings in
  let '(dir, err1, d1) := GetDatabasePathNoName (fun _ => true) "/data" c 0 ∅ in
  fst (fst (GetCorruptPath (fun _ => true) (dir +:+ "/a.db") err1 d1)) = "/data/corrupt_encrypt/a.db".
Proof.
  pose proof (corrupt_path_beside (fun _ => true) "/data" (RdbStoreConfig.SetEncryptKey [7] demo_settings) "a.db" 0 ∅) as Ht.
  apply Ht.
  - reflexivity.
  - right. left.
Defined.

(** Two threads that open a new database at the same time both create it: the second reads the
    version before the first has written it. *)
Theorem create_runs_twice :
  exists w1 w2 c2 w3,
    GetVersion (RdbStores := demo_stores) "/data/a.db" (∅, []) = Some (E_OK, 0, w1) /\
    GetRdbStore (H := demo_stores) demo_settings 3 demo_callback [("/data/a.db", "/data/a.db")] w1 =
      Some (E_OK, Some "/data/a.db", c2, w2) /\
    change_version (H := demo_stores) "/data/a.db" demo_settings 3 demo_callback 0 w2 = Some (E_OK, w3) /\
    snd w3 = ["create"; "open"; "create"; "open"].
Proof. do 4 eexists. split_and!; vm_compute; reflexivity. Qed.
