(* ===== verification/DataShareHelper.v ===== *)
(** * The consumer's helper and its connection

    Model of frameworks/native/data_share/consumer/src/datashare_helper.cpp and
    datashare_connection.cpp, and of the extension's own answers in
    provider/src/datashare_ext_ability.cpp. All helpers of a process share one
    connection object. The ability manager is outside the repository: it is asked to
    connect and to disconnect, and it calls the connection back from a thread of its
    own. [agenda] says what those callbacks write to the connection before each
    access a helper makes to it, one write at a time. A helper is used by one thread.
    The operations are those of [IDataShare], called on the provider a proxy stands
    for. The parts of an [OHOS::Uri] come from outside. *)
From S2P Require Import Prelude Strings Memory Parcel DataShareValuesBucket DataSharePredicates DataShareOperation DataShareResult DataShareIpc.

#[local] Open Scope list_scope.

(** What the helper reads of a uri. *)
Class UriParts `{UriOps} := {
  Uri_GetScheme : Uri -> string;
  Uri_GetPath : Uri -> string;
  Uri_GetPathSegments : Uri -> list string;
}.

Class UriPartsLaws `{UriParts} := {
  empty_text : Uri_ToString (Uri_of "") = "";
  empty_has_no_scheme u : Uri_ToString u = "" -> Uri_GetScheme (Uri_of (Uri_ToString u)) = "";
}.

(** [iface_cast<DataShareProxy>] of a remote object. *)
Class InterfaceCast := iface_cast : Z -> option Z.

(** ** The connection *)
Module DataShareConnection.
Record DataShareConnection := mkConnection { isConnected_ : bool; dataShareProxy_ : option Z }.

Inductive write :=
| SetProxy (p : option Z)
| SetConnected (b : bool).

Definition new_connection : DataShareConnection := mkConnection false None.

Definition apply_write (c : DataShareConnection) (x : write) : DataShareConnection :=
  match x with
  | SetProxy p => mkConnection (isConnected_ c) p
  | SetConnected b => mkConnection b (dataShareProxy_ c)
  end.
Definition apply_writes : DataShareConnection -> list write -> DataShareConnection := foldl apply_write.

(** The callbacks, as what they write and in which order. *)
Definition OnAbilityConnectDone `{InterfaceCast} (remoteObject : option Z) : list write :=
  match remoteObject with
  | None => []
  | Some remote =>
      match iface_cast remote with
      | None => [SetProxy None]
      | Some p => [SetProxy (Some p); SetConnected true]
      end
  end.
Definition OnAbilityDisconnectDone : list write := [SetProxy None; SetConnected false].
End DataShareConnection.
Import DataShareConnection (DataShareConnection, write, mkConnection).

(** ** The process *)

(** What the ability manager is asked. *)
Inductive request `{UriOps} :=
| ConnectAbility (uri : Uri) (token : Z)
| DisconnectAbility.

(** The connection, what the callbacks are going to write, what was asked of the
    ability manager so far, and the providers behind the proxies. *)
Record World `{UriOps} (P : Type) := mkWorld {
  connection : DataShareConnection;
  agenda : list (list write);
  requests : list request;
  services : Z -> P;
}.
#[global] Arguments mkWorld {_ _ _}.
#[global] Arguments connection {_ _ _}.
#[global] Arguments agenda {_ _ _}.
#[global] Arguments requests {_ _ _}.
#[global] Arguments services {_ _ _}.

(** [watched] are the objects the helper's death recipient was added to. *)
Record Helper `{UriOps} := mkHelper {
  token_ : Z;
  uri_ : Uri;
  dataShareProxy_ : option Z;
  isSystemCaller_ : bool;
  callerDeathRecipient_ : bool;
  registerMap_ : gmap Z (option Z);
  uriMap_ : gmap Z string;
  watched : list Z;
}.
#[global] Arguments mkHelper {_ _}.

Section Connection.
Context `{UriOps} {P : Type}.
Implicit Types (w : World P).

(** The callbacks run up to the next access of the connection. *)
Definition sync w : World P :=
  mkWorld (DataShareConnection.apply_writes (connection w) (hd [] (agenda w))) (tl (agenda w)) (requests w) (services w).
Definition do_write (x : write) w : World P :=
  mkWorld (DataShareConnection.apply_write (connection w) x) (agenda w) (requests w) (services w).
Definition ask (r : request) w : World P :=
  mkWorld (connection w) (agenda w) (requests w ++ [r]) (services w).

Definition IsExtAbilityConnected w : bool * World P :=
  let w := sync w in (DataShareConnection.isConnected_ (connection w), w).
Definition GetDataShareProxy w : option Z * World P :=
  let w := sync w in (DataShareConnection.dataShareProxy_ (connection w), w).
Definition ConnectDataShareExtAbility (uri : Uri) (token : Z) w : World P :=
  ask (ConnectAbility uri token) w.
Definition DisconnectDataShareExtAbility w : World P :=
  let w := do_write (DataShareConnection.SetProxy None) (sync w) in
  let w := do_write (DataShareConnection.SetConnected false) (sync w) in
  ask DisconnectAbility w.

(** The two guarded forms in which the helper calls them. *)
Definition connect_unless_connected (uri : Uri) (token : Z) w : World P :=
  let '(connected, w) := IsExtAbilityConnected w in
  if connected then w else ConnectDataShareExtAbility uri token w.
Definition disconnect_if_connected w : World P :=
  let '(connected, w) := IsExtAbilityConnected w in
  if connected then DisconnectDataShareExtAbility w else w.

(** A call of the provider behind a proxy. *)
Definition invoke {A} (p : Z) (f : P -> A * P) w : A * World P :=
  let '(a, s) := f (services w p) in
  (a, mkWorld (connection w) (agenda w) (requests w) (fun q => if q =? p then s else services w q)).
End Connection.

(** ** The helper *)
Module DataShareHelper.
Definition SCHEME_DATASHARE : string := "datashare".
Definition INVALID_VALUE : Z := -1.

Section Helper.
Context `{UriParts} `{!IDataShare P}.
Implicit Types (h : Helper) (w : World P) (uri : Uri).

Definition set_proxy (p : option Z) h : Helper :=
  mkHelper (token_ h) (uri_ h) p (isSystemCaller_ h) (callerDeathRecipient_ h) (registerMap_ h) (uriMap_ h) (watched h).
Definition set_maps (r : gmap Z (option Z)) (m : gmap Z string) h : Helper :=
  mkHelper (token_ h) (uri_ h) (dataShareProxy_ h) (isSystemCaller_ h) (callerDeathRecipient_ h) r m (watched h).
Definition set_recipient (created : bool) (objects : list Z) h : Helper :=
  mkHelper (token_ h) (uri_ h) (dataShareProxy_ h) (isSystemCaller_ h) created (registerMap_ h) (uriMap_ h) objects.

Definition new_helper (token : Z) uri (proxy : option Z) : Helper :=
  mkHelper token uri proxy false false ∅ ∅ [].

Definition AddDataShareDeathRecipient (token : option Z) h : Helper :=
  let h :=
    match token with
    | Some t => if callerDeathRecipient_ h then set_recipient true (filter (.≠ t) (watched h)) h else h
    | None => h
    end in
  let h := if callerDeathRecipient_ h then h else set_recipient true (watched h) h in
  match token with
  | Some t => set_recipient true (t :: watched h) h
  | None => h
  end.

Definition OnSchedulerDied h : Helper := set_proxy None h.

(** The recipient runs its handler when it has one. *)
Definition OnRemoteDied (handler_ : option (Helper -> Helper)) h : Helper :=
  match handler_ with Some handler => handler h | None => h end.

(** *** Creating and releasing *)
Definition create (token : Z) (strUri : string) w : option Helper * World P :=
  let uri := Uri_of strUri in
  if negb (String.eqb (Uri_GetScheme uri) SCHEME_DATASHARE) then (None, w)
  else
    let w := connect_unless_connected uri token w in
    let '(proxy, w) := GetDataShareProxy w in
    (Some (new_helper token uri proxy), w).

(** From a context, which knows its token, of the ability or of the runtime. *)
Definition Creator_context (context : option Z) (strUri : string) w : option Helper * World P :=
  match context with
  | None => (None, w)
  | Some token => create token strUri w
  end.
Definition Creator_runtime (context : option Z) (strUri : string) w : option Helper * World P :=
  match context with
  | None => (None, w)
  | Some token => create token strUri w
  end.
Definition Creator_token (token : Z) (strUri : string) w : option Helper * World P :=
  create token strUri w.

Definition Release h w : bool * Helper * World P :=
  let w := disconnect_if_connected w in
  (true,
   mkHelper (token_ h) (Uri_of "") None (isSystemCaller_ h) (callerDeathRecipient_ h)
     (registerMap_ h) (uriMap_ h) (watched h),
   w).

(** *** Checks *)
Definition CheckOhosUri uri : bool :=
  let checkUri := Uri_of (Uri_ToString uri) in
  if negb (String.eqb (Uri_GetScheme checkUri) SCHEME_DATASHARE) then false
  else
    match Uri_GetPathSegments checkUri with
    | [] => false
    | _ => negb (String.eqb (Uri_GetPath checkUri) "")
    end.

Definition released h : bool := empty (Uri_ToString (uri_ h)).

Definition CheckUriParam uri h : bool :=
  let checkUri := Uri_of (Uri_ToString uri) in
  if negb (CheckOhosUri checkUri) then false
  else if released h then
    if negb (CheckOhosUri (uri_ h)) then false
    else bool_decide (head (Uri_GetPathSegments checkUri) = head (Uri_GetPathSegments (uri_ h)))
  else true.

(** *** Operations

    The operations below are one text in the source, but for the call, its failure
    value and its arguments. *)
Definition obtain_proxy uri h w : Helper * World P :=
  if released h then
    let w := connect_unless_connected uri (token_ h) w in
    let '(p, w) := GetDataShareProxy w in
    let h := set_proxy p h in
    match p with
    | Some object => if isSystemCaller_ h then (AddDataShareDeathRecipient (Some object) h, w) else (h, w)
    | None => (h, w)
    end
  else
    let '(p, w) := GetDataShareProxy w in
    (set_proxy p h, w).

Definition leave_proxy h w : Helper * World P :=
  if released h then (set_proxy None h, disconnect_if_connected w) else (h, w).

Definition operation {A} uri (failed : A) (f : P -> A * P) h w : A * Helper * World P :=
  if negb (CheckUriParam uri h) then (failed, h, w)
  else
    let '(h, w) := obtain_proxy uri h w in
    match dataShareProxy_ h with
    | None => (failed, h, w)
    | Some p =>
        let '(a, w) := invoke p f w in
        let '(h, w) := leave_proxy h w in
        (a, h, w)
    end.

Definition helper_GetFileTypes uri (mimeTypeFilter : string) := operation uri [] (GetFileTypes uri mimeTypeFilter).
Definition helper_OpenFile uri (mode : string) := operation uri INVALID_VALUE (OpenFile uri mode).
Definition helper_OpenRawFile uri (mode : string) := operation uri INVALID_VALUE (OpenRawFile uri mode).
Definition helper_Insert uri (value : DataShareValuesBucket) := operation uri INVALID_VALUE (Insert uri value).
Definition helper_Update uri (predicates : DataSharePredicates) (value : DataShareValuesBucket) :=
  operation uri INVALID_VALUE (Update uri predicates value).
Definition helper_Delete uri (predicates : DataSharePredicates) := operation uri INVALID_VALUE (Delete uri predicates).
Definition helper_Query uri (predicates : DataSharePredicates) (columns : list string) :=
  operation uri None (Query uri predicates columns).
Definition helper_GetType uri := operation uri "" (GetType uri).
Definition helper_BatchInsert uri (values : list DataShareValuesBucket) :=
  operation uri INVALID_VALUE (BatchInsert uri values).
Definition helper_NormalizeUri uri := operation uri (Uri_of "") (NormalizeUri uri).
Definition helper_DenormalizeUri uri := operation uri (Uri_of "") (DenormalizeUri uri).

(** *** Observers *)

(** The proxy for an observer, [None] when the observer serves another path already. *)
Definition observer_proxy uri (dataObserver : Z) h w : option (Helper * World P) :=
  if released h then
    match registerMap_ h !! dataObserver with
    | None =>
        let w := connect_unless_connected uri (token_ h) w in
        let '(p, w) := GetDataShareProxy w in
        let path := Uri_GetPath (Uri_of (Uri_ToString uri)) in
        let uris := match uriMap_ h !! dataObserver with Some _ => uriMap_ h | None => <[dataObserver := path]> (uriMap_ h) end in
        Some (set_proxy p (set_maps (<[dataObserver := p]> (registerMap_ h)) uris h), w)
    | Some p =>
        if bool_decide (uriMap_ h !! dataObserver = Some (Uri_GetPath (Uri_of (Uri_ToString uri))))
        then Some (set_proxy p h, w)
        else None
    end
  else
    let '(p, w) := GetDataShareProxy w in
    Some (set_proxy p h, w).

Definition forget_observer (dataObserver : Z) h : Helper :=
  set_maps (delete dataObserver (registerMap_ h)) (delete dataObserver (uriMap_ h)) h.

Definition helper_RegisterObserver uri (dataObserver : option Z) h w : Helper * World P :=
  if negb (CheckUriParam uri h) then (h, w)
  else
    match dataObserver with
    | None => (h, w)
    | Some o =>
        match observer_proxy uri o h w with
        | None => (h, w)
        | Some (h, w) =>
            match dataShareProxy_ h with
            | None => (forget_observer o h, w)
            | Some p => let '(_, w) := invoke p (RegisterObserver uri o) w in (h, w)
            end
        end
    end.

Definition registered_proxy uri (dataObserver : Z) h w : option (Helper * World P) :=
  if released h then
    match registerMap_ h !! dataObserver with
    | None => None
    | Some p =>
        if bool_decide (uriMap_ h !! dataObserver = Some (Uri_GetPath (Uri_of (Uri_ToString uri))))
        then Some (set_proxy p h, w)
        else None
    end
  else
    let '(p, w) := GetDataShareProxy w in
    Some (set_proxy p h, w).

Definition helper_UnregisterObserver uri (dataObserver : option Z) h w : Helper * World P :=
  if negb (CheckUriParam uri h) then (h, w)
  else
    match dataObserver with
    | None => (h, w)
    | Some o =>
        match registered_proxy uri o h w with
        | None => (h, w)
        | Some (h, w) =>
            match dataShareProxy_ h with
            | None => (h, w)
            | Some p =>
                let '(_, w) := invoke p (UnregisterObserver uri o) w in
                let '(h, w) := leave_proxy h w in
                (forget_observer o h, w)
            end
        end
    end.

Definition helper_NotifyChange uri h w : Helper * World P :=
  if negb (CheckUriParam uri h) then (h, w)
  else
    let w :=
      match dataShareProxy_ h with
      | None => connect_unless_connected uri (token_ h) w
      | Some _ => w
      end in
    let '(p, w) := GetDataShareProxy w in
    let h := set_proxy p h in
    match p with
    | None => (h, w)
    | Some p =>
        let '(_, w) := invoke p (NotifyChange uri) w in
        leave_proxy h w
    end.
End Helper.
End DataShareHelper.

(** ** The extension's own answers, which a provider overrides *)
Module DataShareExtAbility.
Section Extension.
Context `{UriOps}.
Implicit Types (uri : Uri) (s : unit).

Definition ext_GetFileTypes uri (mimeTypeFilter : string) s : list string * unit := ([], s).
Definition ext_OpenFile uri (mode : string) s : Z * unit := (0, s).
Definition ext_OpenRawFile uri (mode : string) s : Z * unit := (0, s).
Definition ext_Insert uri (value : DataShareValuesBucket) s : Z * unit := (0, s).
Definition ext_Update uri (predicates : DataSharePredicates) (value : DataShareValuesBucket) s : Z * unit := (0, s).
Definition ext_Delete uri (predicates : DataSharePredicates) s : Z * unit := (0, s).
Definition ext_Query uri (predicates : DataSharePredicates) (columns : list string) s : option SetHandle * unit := (None, s).
Definition ext_GetType uri s : string * unit := ("", s).
Definition ext_BatchInsert uri (values : list DataShareValuesBucket) s : Z * unit := (0, s).
Definition ext_RegisterObserver uri (dataObserver : Z) s : bool * unit := (true, s).
Definition ext_UnregisterObserver uri (dataObserver : Z) s : bool * unit := (true, s).
Definition ext_NotifyChange uri s : bool * unit := (true, s).
Definition ext_NormalizeUri uri s : Uri * unit := (Uri_of "", s).
Definition ext_DenormalizeUri uri s : Uri * unit := (Uri_of "", s).
Definition ext_ExecuteBatch (operations : list DataShareOperation) s : list (option DataShareResult) * unit := ([], s).
End Extension.

#[global] Instance extension `{UriOps} : IDataShare unit := {|
  GetFileTypes := ext_GetFileTypes; OpenFile := ext_OpenFile; OpenRawFile := ext_OpenRawFile;
  Insert := ext_Insert; Update := ext_Update; Delete := ext_Delete; Query := ext_Query;
  GetType := ext_GetType; BatchInsert := ext_BatchInsert; RegisterObserver := ext_RegisterObserver;
  UnregisterObserver := ext_UnregisterObserver; NotifyChange := ext_NotifyChange;
  NormalizeUri := ext_NormalizeUri; DenormalizeUri := ext_DenormalizeUri; ExecuteBatch := ext_ExecuteBatch;
|}.
End DataShareExtAbility.
