(* ===== verification/DataShareHelperSpec.v ===== *)
(** * What the consumer's helpers promise

    An operation of a live helper is the provider's operation, over the connection
    and the parcels, or its failure value; the helpers of a process share one
    connection, and over every run of the process a connection that says it is
    connected has a proxy, no operation but [NotifyChange] and [Release] turns to the
    ability manager, and a released helper refuses everything. *)
From Stdlib Require Import Ascii.
From S2P Require Import Prelude Strings Memory Parcel DataShareValuesBucket DataSharePredicates DataShareOperation DataShareResult DataShareIpc DataShareIpcSpec DataShareHelper.
Import DataShareHelper.

#[local] Open Scope list_scope.

(** ** Calls of a helper *)
Section Calls.
Context `{UriParts} `{!IDataShare P}.
Implicit Types (h : Helper) (w : World P) (uri : Uri).

(** The uri a call is about; a batch has none, and the helper does not offer it. *)
Definition target (c : call) : option Uri :=
  match c with
  | CGetFileTypes u _ | COpenFile u _ | COpenRawFile u _ | CInsert u _ | CUpdate u _ _ | CDelete u _
  | CQuery u _ _ | CGetType u | CBatchInsert u _ | CRegisterObserver u _ | CUnregisterObserver u _
  | CNotifyChange u | CNormalizeUri u | CDenormalizeUri u => Some u
  | CExecuteBatch _ => None
  end.

(** What the caller sees of an answer: the observer operations return nothing. *)
Definition visible (c : call) (a : answer) : option answer :=
  match c with
  | CRegisterObserver _ _ | CUnregisterObserver _ _ | CNotifyChange _ | CExecuteBatch _ => None
  | _ => Some a
  end.

Definition tagged {A} (k : A -> answer) (r : A * Helper * World P) : option answer * Helper * World P :=
  let '(a, h, w) := r in (Some (k a), h, w).
Definition silent (r : Helper * World P) : option answer * Helper * World P :=
  let '(h, w) := r in (None, h, w).

Definition helper_call (c : call) h w : option answer * Helper * World P :=
  match c with
  | CGetFileTypes u f => tagged ATexts (helper_GetFileTypes u f h w)
  | COpenFile u m => tagged ANumber (helper_OpenFile u m h w)
  | COpenRawFile u m => tagged ANumber (helper_OpenRawFile u m h w)
  | CInsert u v => tagged ANumber (helper_Insert u v h w)
  | CUpdate u d v => tagged ANumber (helper_Update u d v h w)
  | CDelete u d => tagged ANumber (helper_Delete u d h w)
  | CQuery u d l => tagged ASet (helper_Query u d l h w)
  | CGetType u => tagged AText (helper_GetType u h w)
  | CBatchInsert u l => tagged ANumber (helper_BatchInsert u l h w)
  | CRegisterObserver u o => silent (helper_RegisterObserver u (Some o) h w)
  | CUnregisterObserver u o => silent (helper_UnregisterObserver u (Some o) h w)
  | CNotifyChange u => silent (helper_NotifyChange u h w)
  | CNormalizeUri u => tagged AUri (helper_NormalizeUri u h w)
  | CDenormalizeUri u => tagged AUri (helper_DenormalizeUri u h w)
  | CExecuteBatch _ => (None, h, w)
  end.

Definition valid_uri uri : bool := CheckOhosUri (Uri_of (Uri_ToString uri)).

(** The helpers the code makes: no observer is recorded and no death recipient added. *)
Definition plain h : Prop := h = mkHelper (token_ h) (uri_ h) (dataShareProxy_ h) false false ∅ ∅ [].
Definition live h : Prop := plain h /\ released h = false.

(** Only [NotifyChange] connects, when the last proxy it saw was null. *)
Definition reconnect (c : call) h w : World P :=
  match c, dataShareProxy_ h with
  | CNotifyChange u, None => connect_unless_connected u (token_ h) w
  | _, _ => w
  end.

(** The provider's answer over the connection, as it is when the helper looks. *)
Definition over_connection {A} (failed : A) (f : P -> A * P) h w : A * Helper * World P :=
  let w := sync w in
  match DataShareConnection.dataShareProxy_ (connection w) with
  | None => (failed, set_proxy None h, w)
  | Some p => let '(a, w) := invoke p f w in (a, set_proxy (Some p) h, w)
  end.

Lemma plain_forget o h : plain h -> forget_observer o h = h.
Proof. intros ->. unfold forget_observer, set_maps. simpl. by rewrite !delete_empty. Qed.

Lemma plain_set_proxy p h : plain h -> plain (set_proxy p h).
Proof. by intros ->. Qed.
Hint Resolve plain_set_proxy : core.

Lemma live_check uri h : released h = false -> CheckUriParam uri h = valid_uri uri.
Proof. intros E. unfold CheckUriParam, valid_uri. rewrite E. by destruct (CheckOhosUri _). Qed.

Lemma live_operation {A} uri (failed : A) f h w :
  released h = false ->
  operation uri failed f h w =
    if valid_uri uri then over_connection failed f h w else (failed, h, w).
Proof.
  intros E. unfold operation, obtain_proxy, over_connection, GetDataShareProxy, leave_proxy.
  rewrite live_check, E by done. destruct (valid_uri uri); [|done]. simpl.
  destruct (DataShareConnection.dataShareProxy_ _) as [p|]; [|done].
  destruct (invoke _ _ _) as [a w1]. unfold released in *. simpl. by rewrite E.
Qed.

(** *** An operation of a live helper *)
Lemma live_call c uri h w :
  target c = Some uri -> live h ->
  helper_call c h w =
    if valid_uri uri then
      let '(a, h, w) := over_connection (failure c) (local_call c) h (reconnect c h w) in (visible c a, h, w)
    else (visible c (failure c), h, w).
Proof.
  intros Ht [Hp Hl].
  assert (Hr : forall p, released (set_proxy p h) = false) by done.
  destruct c; simplify_eq/=;
    try (unfold helper_GetFileTypes, helper_OpenFile, helper_OpenRawFile, helper_Insert, helper_Update,
           helper_Delete, helper_Query, helper_GetType, helper_BatchInsert, helper_NormalizeUri,
           helper_DenormalizeUri;
         rewrite live_operation by done; unfold over_connection, invoke; destruct (valid_uri _); [|done];
         destruct (DataShareConnection.dataShareProxy_ _); [|done]; simpl; by destruct (_ : _ * P)).
  - unfold helper_RegisterObserver, observer_proxy, GetDataShareProxy, over_connection, invoke.
    rewrite live_check, Hl by done. destruct (valid_uri _); [|done]. simpl.
    destruct (DataShareConnection.dataShareProxy_ _); simpl; [by destruct (RegisterObserver _ _ _)|].
    by rewrite plain_forget by auto.
  - unfold helper_UnregisterObserver, registered_proxy, GetDataShareProxy, over_connection, invoke, leave_proxy.
    rewrite live_check, Hl by done. destruct (valid_uri _); [|done]. simpl.
    destruct (DataShareConnection.dataShareProxy_ _); simpl; [|done].
    destruct (UnregisterObserver _ _ _). simpl. rewrite Hr. simpl. by rewrite plain_forget by auto.
  - unfold helper_NotifyChange, GetDataShareProxy, over_connection, invoke, leave_proxy.
    rewrite live_check by done. destruct (valid_uri _); [|done]. simpl.
    destruct (dataShareProxy_ h); simpl;
      destruct (DataShareConnection.dataShareProxy_ _); simpl; try done;
      destruct (NotifyChange _ _); simpl; by rewrite Hr.
Qed.
End Calls.
#[export] Hint Resolve plain_set_proxy : core.

(** ** Over the parcels *)
Section Remote.
Context `{IpcCodes} `{UriLaws} `{!UriParts} `{!IDataShare Q} (mode : SettingMode).
Implicit Types (h : Helper) (uri : Uri).

(** The proxy as the service it is to the helper; [None] once it has crashed. *)
Definition through {A} (failed : A) (f : Channel Q -> option (A * Channel Q)) (s : option (Channel Q))
    : A * option (Channel Q) :=
  match s ≫= f with
  | Some (a, ch) => (a, Some ch)
  | None => (failed, None)
  end.

Definition proxy_results (l : list DataShareOperation) (ch : Channel Q)
    : option (list (option DataShareResult) * Channel Q) :=
  match proxy_ExecuteBatch mode l ch with
  | Some (rs, ch) => Some (map Some rs, ch)
  | None => None
  end.

#[local] Instance proxy_service : IDataShare (option (Channel Q)) := {|
  GetFileTypes u f := through [] (proxy_GetFileTypes mode u f);
  OpenFile u m := through (-1) (proxy_OpenFile mode u m);
  OpenRawFile u m := through (-1) (proxy_OpenRawFile mode u m);
  Insert u v := through (-1) (proxy_Insert mode u v);
  Update u d v := through (-1) (proxy_Update mode u d v);
  Delete u d := through (-1) (proxy_Delete mode u d);
  Query u d l := through None (proxy_Query mode u d l);
  GetType u := through "" (proxy_GetType mode u);
  BatchInsert u l := through (-1) (proxy_BatchInsert mode u l);
  RegisterObserver u o := through false (proxy_RegisterObserver mode u o);
  UnregisterObserver u o := through false (proxy_UnregisterObserver mode u o);
  NotifyChange u := through false (proxy_NotifyChange mode u);
  NormalizeUri u := through (Uri_of "") (proxy_NormalizeUri mode u);
  DenormalizeUri u := through (Uri_of "") (proxy_DenormalizeUri mode u);
  ExecuteBatch l := through [] (proxy_results l);
|}.

Lemma proxy_call c s :
  local_call c s = through (failure c) (remote_call mode c) s.
Proof.
  destruct c; simpl; unfold through, proxy_results; destruct s as [ch|]; simpl; try done;
    match goal with |- context [?f <$> ?t] => by destruct t as [[]|] end.
Qed.

Lemma target_not_results c uri (s : Q) :
  target c = Some uri -> forall l, (local_call (received_call mode c) s).1 <> AResults l.
Proof. by destruct c; simpl; intros ? l; try destruct (_ : _ * Q). Qed.

(** The call as the provider gets it and the answer as it comes back, with the
    provider's new state. *)
Definition served (c : call) (s : Q) : answer * Q :=
  if refused c then (failure c, s)
  else let '(a, s) := local_call (received_call mode c) s in (received_answer c a, s).

(** C24: A consumer's operation is the provider's. For each of the helper's fourteen
    operations on a live helper, whatever the ability manager's callbacks wrote to the
    connection before the helper looks: with a valid uri and a proxy whose requests
    are delivered, the helper, the proxy, the parcels and the stub return what the
    provider's own operation returns for the call as received, change the state of
    that provider alone and make no request but, for [NotifyChange], a connection;
    when the transport fails or there is no proxy the caller gets the failure value
    and no provider is touched; with an invalid uri nothing at all happens. *)
Theorem consumer_reaches_provider c uri h (w : World (option (Channel Q))) :
  target c = Some uri -> live h -> call_sendable c ->
  let seen := sync (reconnect c h w) in
  (valid_uri uri = false -> helper_call c h w = (visible c (failure c), h, w)) /\
  (valid_uri uri = true ->
    match DataShareConnection.dataShareProxy_ (connection seen) with
    | None => helper_call c h w = (visible c (failure c), set_proxy None h, seen)
    | Some p =>
        (forall s, services seen p = Some (mkChannel [] s) ->
          helper_call c h w =
            (visible c (served c s).1, set_proxy (Some p) h,
             (invoke p (fun _ => (tt, Some (mkChannel [] (served c s).2))) seen).2)) /\
        (forall e fs s, e <> 0 -> services seen p = Some (mkChannel (e :: fs) s) ->
          helper_call c h w =
            (visible c (failure c), set_proxy (Some p) h,
             (invoke p (fun _ => (tt, Some (mkChannel fs s))) seen).2))
    end).
Proof.
  intros Ht Hl Hc seen. split; intros Hv; [by rewrite (live_call _ uri), Hv|].
  rewrite (live_call _ uri) by done. rewrite Hv. unfold over_connection. fold seen.
  destruct (DataShareConnection.dataShareProxy_ _) as [p|]; [|done]. unfold invoke. rewrite proxy_call.
  split.
  - intros s ->. unfold through. simpl.
    rewrite delivered_call; [|done|intros l Hr; by destruct (target_not_results c uri s Ht l)].
    unfold served. destruct (refused c); [done|]. by destruct (local_call _ s).
  - intros e fs s He ->. unfold through. simpl. by rewrite transport_failure.
Qed.
End Remote.

(** ** A process and its helpers *)
Section Process.
Context `{UriLaws} `{!UriParts} `{!UriPartsLaws} `{!InterfaceCast} `{!IDataShare P}.
Implicit Types (h : Helper) (w : World P) (uri : Uri).

(** A callback of the ability manager, and its writes. *)
Inductive callback :=
| Connected (remoteObject : option Z)
| Disconnected.
Definition writes_of (b : callback) : list DataShareConnection.write :=
  match b with
  | Connected remote => DataShareConnection.OnAbilityConnectDone remote
  | Disconnected => DataShareConnection.OnAbilityDisconnectDone
  end.

Record Process := mkProcess { helpers : list Helper; world : World P }.

Definition set_agenda (l : list (list DataShareConnection.write)) w : World P :=
  mkWorld (connection w) l (requests w) (services w).

(** What may happen: a helper is made, called or released, and the ability manager
    calls back; the writes of its callbacks, which take no lock, fall before any accesses
    to the connection, in the groups [allowed]. *)
Section Runs.
Context (allowed : list (list DataShareConnection.write) -> Prop).
Inductive happens : Process -> Process -> Prop :=
| happens_create token strUri made hs w w' :
    Creator_token token strUri w = (made, w') ->
    happens (mkProcess hs w) (mkProcess (hs ++ option_list made) w')
| happens_call i h c a h' hs w w' :
    hs !! i = Some h -> helper_call c h w = (a, h', w') ->
    happens (mkProcess hs w) (mkProcess (<[i := h']> hs) w')
| happens_release i h b h' hs w w' :
    hs !! i = Some h -> Release h w = (b, h', w') ->
    happens (mkProcess hs w) (mkProcess (<[i := h']> hs) w')
| happens_callbacks l hs w : allowed l -> happens (mkProcess hs w) (mkProcess hs (set_agenda l w)).

Definition start_process (f : Z -> P) : Process :=
  mkProcess [] (mkWorld DataShareConnection.new_connection [] [] f).
Definition reachable_process (p : Process) : Prop := exists f, rtc happens (start_process f) p.
End Runs.

(** Whole callbacks only, none interrupted between its writes. *)
Definition whole (l : list (list DataShareConnection.write)) : Prop := Forall (fun ws => exists bs, ws = bs ≫= writes_of) l.
Definition connected_has_proxy (c : DataShareConnection.DataShareConnection) : Prop :=
  DataShareConnection.isConnected_ c = true -> is_Some (DataShareConnection.dataShareProxy_ c).
Definition consistent w : Prop := connected_has_proxy (connection w) /\ whole (agenda w).

Section Whole.
Hypothesis cast_succeeds : forall r, is_Some (iface_cast r).

Lemma callback_keeps b c : connected_has_proxy c -> connected_has_proxy (DataShareConnection.apply_writes c (writes_of b)).
Proof.
  destruct b as [[r|]|]; simpl; try done. destruct (cast_succeeds r) as [p ->]. intros _ _. by exists p.
Qed.

Lemma callbacks_keep bs c :
  connected_has_proxy c -> connected_has_proxy (DataShareConnection.apply_writes c (bs ≫= writes_of)).
Proof.
  revert c. induction bs as [|b bs IH]; [done|]. intros c Hc. unfold DataShareConnection.apply_writes. simpl.
  rewrite foldl_app. by apply IH, callback_keeps.
Qed.

Lemma sync_keeps w : consistent w -> consistent (sync w).
Proof.
  intros [Hc Ha]. destruct w as [c [|ws l] rs f]; [by split|]. apply Forall_cons in Ha as [[bs ->] Ha].
  split; [|done]. by apply callbacks_keep.
Qed.

Lemma connect_keeps uri t w : consistent w -> consistent (connect_unless_connected uri t w).
Proof.
  intros Hw%sync_keeps. unfold connect_unless_connected, IsExtAbilityConnected.
  by destruct (DataShareConnection.isConnected_ _).
Qed.

Lemma disconnect_keeps w : consistent w -> consistent (disconnect_if_connected w).
Proof.
  intros Hw%sync_keeps. unfold disconnect_if_connected, IsExtAbilityConnected.
  destruct (DataShareConnection.isConnected_ _); [|done]. unfold DisconnectDataShareExtAbility.
  split; [done|]. apply sync_keeps in Hw as [_ Hw]. unfold whole in *. simpl in *.
  destruct (agenda w) as [|? [|? l]]; simpl in *; [done..|]. by apply Forall_tail in Hw.
Qed.

Lemma invoke_keeps {A} p (f : P -> A * P) w : consistent w -> consistent (invoke p f w).2.
Proof. unfold invoke. by destruct (f _). Qed.

End Whole.

(** *** Released helpers *)
Lemma empty_uri_invalid uri : Uri_ToString uri = "" -> CheckOhosUri uri = false.
Proof. intros E. unfold CheckOhosUri. by rewrite (empty_has_no_scheme uri E). Qed.

Lemma released_text h : released h = true -> Uri_ToString (uri_ h) = "".
Proof. unfold released. by destruct (Uri_ToString (uri_ h)). Qed.

Lemma released_refuses c h w : released h = true -> helper_call c h w = (visible c (failure c), h, w).
Proof.
  intros Hr. assert (Hc : forall uri, CheckUriParam uri h = false).
  { intros uri. unfold CheckUriParam. rewrite Hr, (empty_uri_invalid (uri_ h)) by (by apply released_text).
    by destruct (CheckOhosUri _). }
  destruct c; simpl; try done;
    unfold helper_GetFileTypes, helper_OpenFile, helper_OpenRawFile, helper_Insert, helper_Update,
      helper_Delete, helper_Query, helper_GetType, helper_BatchInsert, helper_NormalizeUri,
      helper_DenormalizeUri, helper_RegisterObserver, helper_UnregisterObserver, helper_NotifyChange, operation;
    by rewrite Hc.
Qed.

Lemma created_live token strUri h w w' : create token strUri w = (Some h, w') -> live h.
Proof.
  unfold create. destruct (String.eqb_spec (Uri_GetScheme (Uri_of strUri)) SCHEME_DATASHARE) as [E|]; [|done].
  simpl. intros [= <- _]. split; [done|]. unfold released. simpl.
  destruct (Uri_ToString (Uri_of strUri)) as [|a t] eqn:Et; [|done].
  pose proof (empty_has_no_scheme _ Et) as Hs. by rewrite uri_text, E in Hs.
Qed.

(** *** Every run *)
Definition notifies (c : call) : bool := match c with CNotifyChange _ => true | _ => false end.

Lemma over_connection_plain {A} (failed : A) f h w a h' w' :
  plain h -> over_connection failed f h w = (a, h', w') -> plain h' /\ requests w' = requests w.
Proof.
  intros Hp. unfold over_connection.
  destruct (DataShareConnection.dataShareProxy_ _) as [p|]; [|by intros [= _ <- <-]; auto].
  unfold invoke. destruct (f _) as [b s]. intros [= _ <- <-]. auto.
Qed.

Lemma reconnect_silent c h w : notifies c = false -> reconnect c h w = w.
Proof. by destruct c. Qed.

Lemma call_plain c h w a h' w' :
  plain h -> helper_call c h w = (a, h', w') ->
  plain h' /\ (notifies c = false -> requests w' = requests w).
Proof.
  intros Hp. destruct (released h) eqn:Hr; [rewrite released_refuses by done; by intros [= _ <- <-]|].
  destruct (target c) as [uri|] eqn:Ht; [|by destruct c; simplify_eq/=; intros [= _ <- <-]].
  rewrite (live_call c uri) by done. destruct (valid_uri uri); [|by intros [= _ <- <-]].
  destruct (over_connection _ _ _ _) as [[b h1] w1] eqn:E. intros [= _ <- <-].
  apply over_connection_plain in E as (Hp1 & Hq); [|done].
  split; [done|]. intros Hn. by rewrite Hq, reconnect_silent.
Qed.

Lemma happens_plain allowed p q : happens allowed p q -> Forall plain (helpers p) -> Forall plain (helpers q).
Proof.
  intros Hs Hh. destruct Hs as [t u made hs w w' E|i h c a h' hs w w' Hi E|i h b h' hs w w' Hi E|l hs w Hl];
    simpl in *; [| | |done].
  - apply Forall_app. split; [done|]. destruct made as [h|]; [|done]. constructor; [|done].
    by apply (created_live t u h w w' E).
  - pose proof (Forall_lookup_1 _ _ _ _ Hh Hi) as Hp. apply call_plain in E as (Hp' & _); [|done]. by apply Forall_insert.
  - pose proof (Forall_lookup_1 _ _ _ _ Hh Hi) as Hp. injection E as <- <- <-.
    apply Forall_insert; [done|]. rewrite Hp. done.
Qed.

Lemma reachable_plain allowed p : reachable_process allowed p -> Forall plain (helpers p).
Proof.
  intros [f Hr]. remember (start_process f) as p0 eqn:E. assert (Hp0 : Forall plain (helpers p0)) by (subst; constructor).
  clear E. induction Hr as [|? ? ? Hs _ IH]; [done|]. by apply IH, (happens_plain _ _ _ Hs).
Qed.

(** Runs with whole callbacks. *)
Section WholeRuns.
Hypothesis cast_succeeds : forall r, is_Some (iface_cast r).

Lemma call_keeps c h w a h' w' :
  plain h -> consistent w -> helper_call c h w = (a, h', w') -> consistent w'.
Proof.
  intros Hp Hw. destruct (released h) eqn:Hr; [rewrite released_refuses by done; by intros [= _ <- <-]|].
  destruct (target c) as [uri|] eqn:Ht; [|by destruct c; simplify_eq/=; intros [= _ <- <-]].
  rewrite (live_call c uri) by done. destruct (valid_uri uri); [|by intros [= _ <- <-]].
  assert (Hs : consistent (sync (reconnect c h w))).
  { apply sync_keeps; [done|]. unfold reconnect. destruct c, (dataShareProxy_ h); try done. by apply connect_keeps. }
  unfold over_connection. destruct (DataShareConnection.dataShareProxy_ _) as [q|]; [|by intros [= _ _ <-]].
  pose proof (invoke_keeps q (local_call c) _ Hs) as Hi. destruct (invoke _ _ _) as [b w1]. by intros [= _ _ <-].
Qed.

Lemma reachable_consistent allowed p :
  (forall l, allowed l -> whole l) -> reachable_process allowed p -> consistent (world p).
Proof.
  intros Ha [f Hr]. remember (start_process f) as p0 eqn:E.
  assert (Hp0 : consistent (world p0) /\ Forall plain (helpers p0)) by (subst; repeat (split || constructor); done).
  clear E. induction Hr as [|p0 p1 p2 Hs _ IH]; [by destruct Hp0|]. apply IH. destruct Hp0 as [Hw Hh].
  split; [|by apply (happens_plain _ _ _ Hs)].
  destruct Hs as [t u made hs w w' E|i h c a h' hs w w' Hi E|i h b h' hs w w' Hi E|l hs w Hl]; simpl in *.
  - unfold Creator_token, create in E. destruct (negb _); [by simplify_eq|]. injection E as _ <-.
    apply sync_keeps; [done|by apply connect_keeps].
  - pose proof (Forall_lookup_1 _ _ _ _ Hh Hi) as Hp. by apply call_keeps in E.
  - injection E as <- <- <-. by apply disconnect_keeps.
  - split; [apply Hw|by apply Ha].
Qed.
End WholeRuns.

(** C25: The helpers of a process and their connection, over every run: helpers are
    made, called and released in any order, and the writes of the ability manager's
    callbacks fall before any accesses to the connection, also between the two writes of
    one callback. No helper holds an observer or a death recipient; a released helper
    refuses every operation and touches nothing; no operation but [NotifyChange] asks
    the ability manager for anything; and an operation with a valid uri on a helper that
    is not released is the operation of the provider whose proxy the connection has when
    it looks, or fails without a trace when there is none. In the runs where no callback
    is interrupted between its writes and the cast of a remote object succeeds, a
    connection that says it is connected has a proxy; [torn_callback_sticks] shows
    another run. *)
Theorem process_consistent allowed p :
  reachable_process allowed p ->
  (forall i h c, helpers p !! i = Some h ->
    plain h /\
    (released h = true -> helper_call c h (world p) = (visible c (failure c), h, world p)) /\
    (notifies c = false ->
      requests (helper_call c h (world p)).2 = requests (world p) /\
      forall uri, released h = false -> target c = Some uri -> valid_uri uri = true ->
        helper_call c h (world p) =
          match DataShareConnection.dataShareProxy_ (connection (sync (world p))) with
          | Some q => let '(a, w) := invoke q (local_call c) (sync (world p)) in (visible c a, set_proxy (Some q) h, w)
          | None => (visible c (failure c), set_proxy None h, sync (world p))
          end)) /\
  ((forall l, allowed l -> whole l) -> (forall r, is_Some (iface_cast r)) ->
    connected_has_proxy (connection (world p)) /\ connected_has_proxy (connection (sync (world p)))).
Proof.
  intros Hreach. pose proof (reachable_plain _ _ Hreach) as Hh. split.
  - intros i h c Hi. pose proof (Forall_lookup_1 _ _ _ _ Hh Hi) as Hp. split; [done|]. split; [by apply released_refuses|].
    intros Hn. split.
    + destruct (helper_call c h (world p)) as [[a h'] w'] eqn:E. apply call_plain in E as (_ & Hq); [|done]. by apply Hq.
    + intros uri Hr Ht Hv. rewrite (live_call c uri), Hv, reconnect_silent by done. unfold over_connection.
      destruct (DataShareConnection.dataShareProxy_ _) as [q|]; [|done]. by destruct (invoke _ _ _).
  - intros Ha Hc. pose proof (reachable_consistent Hc _ _ Ha Hreach) as Hw.
    split; [apply Hw|]. by apply (sync_keeps Hc _ Hw).
Qed.
End Process.

(** ** A connection that is stuck

    A callback writes the proxy first and the flag second. When a helper disconnects
    in between, the flag is set on a connection without proxy: then nobody asks for a
    connection and every operation fails, until a release or the next callback. *)
Section Stuck.
Context `{UriParts} `{!IDataShare P}.
Implicit Types (h : Helper) (w : World P).

Definition stuck w : Prop :=
  agenda w = [] /\ connection w = DataShareConnection.mkConnection true None.

Lemma stuck_sync w : stuck w -> sync w = w.
Proof. intros [Ha Hc]. destruct w as [c a r f]. by simplify_eq/=. Qed.

Theorem stuck_connection w :
  stuck w ->
  (forall token strUri h w', create token strUri w = (Some h, w') -> w' = w /\ dataShareProxy_ h = None) /\
  forall c uri h, target c = Some uri -> live h ->
    (helper_call c h w).1.1 = visible c (failure c) /\ (helper_call c h w).2 = w.
Proof.
  intros Hs. pose proof (stuck_sync w Hs) as E.
  assert (Hn : forall u t, connect_unless_connected u t w = w).
  { intros u t. unfold connect_unless_connected, IsExtAbilityConnected. rewrite E. by destruct Hs as [_ ->]. }
  split.
  - intros token strUri h w'. unfold create, GetDataShareProxy. rewrite Hn, E. destruct (negb _); [done|].
    destruct Hs as [_ Hc]. intros [= <- <-]. simpl. by rewrite Hc.
  - intros c uri h Ht Hl. rewrite (live_call c uri) by done. destruct (valid_uri uri); [|done].
    assert (Er : reconnect c h w = w) by (unfold reconnect; destruct c, (dataShareProxy_ h); auto).
    rewrite Er. unfold over_connection. rewrite E. by destruct Hs as [_ ->].
Qed.
End Stuck.

(** ** A process with two providers *)
Fixpoint split_at (c : ascii) (s : string) : string * option string :=
  match s with
  | EmptyString => ("", None)
  | String a t =>
      if Ascii.eqb a c then ("", Some t) else let '(l, r) := split_at c t in (String a l, r)
  end.
Fixpoint split_all (c : ascii) (n : nat) (s : string) : list string :=
  match n, split_at c s with
  | S n, (l, Some r) => l :: split_all c n r
  | _, (l, _) => [l]
  end.
(** [scheme://authority/path] *)
Definition text_path (u : string) : string :=
  match split_all "/" 3 u with
  | [_; _; _; path] => String.append "/" path
  | _ => ""
  end.

#[local] Instance text_parts : UriParts (H0 := uri_string) := {|
  Uri_GetScheme u := match split_at ":" u with (s, Some _) => s | _ => "" end;
  Uri_GetPath := text_path;
  Uri_GetPathSegments u := filter (.≠ "") (split_all "/" (String.length u) (text_path u));
|}.

#[local] Instance text_parts_laws : UriPartsLaws (H1 := text_parts).
Proof. split; [done|]. by intros u ->. Defined.

#[local] Instance demo_cast : InterfaceCast := Some.
#[local] Instance codes : IpcCodes.
Proof. by refine {| ERR_INVALID_VALUE := 22; ERR_INVALID_STATE := 5; base_OnRemoteRequest _ := 305 |}. Defined.

(** A provider whose state is the number of its rows. *)
#[local] Instance rows : IDataShare Z := {|
  GetFileTypes _ _ n := ([], n); OpenFile _ _ n := (3, n); OpenRawFile _ _ n := (4, n);
  Insert _ v n := (n + 1, n + 1); Update _ _ _ n := (n, n); Delete _ _ n := (n, 0);
  Query _ _ _ n := (None, n); GetType _ n := ("rows", n); BatchInsert _ l n := (n, n + Z.of_nat (length l));
  RegisterObserver _ _ n := (true, n); UnregisterObserver _ _ n := (true, n); NotifyChange _ n := (true, n);
  NormalizeUri u n := (u, n); DenormalizeUri u n := (u, n); ExecuteBatch _ n := ([], n);
|}.

#[local] Instance rows_by_proxy : IDataShare (option (Channel Z)) := proxy_service INVALID_MODE.

Definition uri_a : string := "datashare:///provider.a/rows".
Definition uri_b : string := "datashare:///provider.b/rows".
Definition insert_at (u : string) : call (H0 := uri_string) := CInsert u (PutInt new_bucket "age" 7).

(** A world connected to proxy [p]; provider 1 has 10 rows and provider 2 has 20. *)
Definition at_proxy (p : option Z) (l : list (list DataShareConnection.write)) : World (H0 := uri_string) Z :=
  mkWorld (DataShareConnection.mkConnection (bool_decide (is_Some p)) p) l [] (fun q => q * 10).
Definition helper_of (u : string) (p : option Z) : Helper (H0 := uri_string) := new_helper 5 u p.

Lemma consumer_reaches_provider_witness :
  helper_call (insert_at uri_a) (helper_of uri_a None)
    (mkWorld (DataShareConnection.mkConnection false None) [DataShareConnection.OnAbilityConnectDone (Some 1)] []
       (fun q => Some (mkChannel [] (q * 10)))) =
    (Some (ANumber 11), helper_of uri_a (Some 1),
     (invoke 1 (fun _ => (tt, Some (mkChannel [] 11)))
        (mkWorld (DataShareConnection.mkConnection true (Some 1)) [] [] (fun q => Some (mkChannel [] (q * 10))))).2).
Proof.
  destruct (consumer_reaches_provider INVALID_MODE (insert_at uri_a) uri_a (helper_of uri_a None)
    (mkWorld (DataShareConnection.mkConnection false None) [DataShareConnection.OnAbilityConnectDone (Some 1)] []
       (fun q => Some (mkChannel [] (q * 10))))) as [_ Hv].
  - reflexivity.
  - by split.
  - split; [|done]. split; by repeat constructor.
  - destruct (Hv eq_refl) as [Hd _]. exact (Hd 10 eq_refl).
Defined.

(** One helper, made before the provider connects. *)
Definition demo_process : Process (U := uri_string) (P := Z) :=
  mkProcess [helper_of uri_a None]
    (mkWorld DataShareConnection.new_connection [DataShareConnection.OnAbilityConnectDone (Some 1)]
       [ConnectAbility uri_a 5] (fun q => q * 10)).

Lemma demo_whole : whole [DataShareConnection.OnAbilityConnectDone (Some 1)].
Proof. repeat constructor. by exists [Connected (Some 1)]. Qed.
Lemma demo_process_reachable : reachable_process whole demo_process.
Proof.
  exists (fun q => q * 10).
  pose (w := mkWorld DataShareConnection.new_connection [] [ConnectAbility uri_a 5] (fun q => q * 10)).
  apply (rtc_l _ _ (mkProcess [helper_of uri_a None] w)).
  - by apply (happens_create _ 5 uri_a (Some (helper_of uri_a None)) []).
  - apply rtc_once. exact (happens_callbacks _ [DataShareConnection.OnAbilityConnectDone (Some 1)] _ w demo_whole).
Qed.

Lemma process_consistent_witness :
  connected_has_proxy (connection (world demo_process)) /\
  helper_call (insert_at uri_a) (helper_of uri_a None) (world demo_process) =
    let '(a, w) := invoke 1 (local_call (insert_at uri_a)) (sync (world demo_process)) in
    (visible (insert_at uri_a) a, set_proxy (Some 1) (helper_of uri_a None), w).
Proof.
  destruct (process_consistent whole demo_process demo_process_reachable) as [H1 H2].
  split; [exact (proj1 (H2 (fun _ Hl => Hl) (fun r => ex_intro _ r eq_refl)))|].
  destruct (H1 0%nat (helper_of uri_a None) (insert_at uri_a) eq_refl) as (_ & _ & H3).
  destruct (H3 eq_refl) as [_ H4]. exact (H4 uri_a eq_refl eq_refl eq_refl).
Defined.

(** *** Findings *)

(** The helper is returned before the connection is there, and its first operations
    fail. *)
Example created_too_early :
  exists h w, create 5 uri_a (at_proxy None []) = (Some h, w) /\
    (helper_call (insert_at uri_a) h w).1.1 = Some (ANumber (-1)).
Proof. eexists _, _. split; [reflexivity|]. reflexivity. Qed.

(** A helper for another provider works on the provider connected first. *)
Example second_helper_wrong_provider :
  exists h w, create 5 uri_b (at_proxy (Some 1) []) = (Some h, w) /\ requests w = [] /\
    services (helper_call (insert_at uri_b) h w).2 1 = 11.
Proof. eexists _, _. split; [reflexivity|]. by vm_compute. Qed.

(** Releasing a helper disconnects the others, which stay without a connection. *)
Example release_disconnects_others :
  let w := (Release (helper_of uri_b (Some 1)) (at_proxy (Some 1) [])).2 in
  (helper_call (insert_at uri_a) (helper_of uri_a (Some 1)) w).1.1 = Some (ANumber (-1)) /\
  requests (helper_call (insert_at uri_a) (helper_of uri_a (Some 1)) w).2 = requests w.
Proof. by vm_compute. Qed.

(** After the provider died, the first notification finds no proxy and does not
    connect; the second one does. *)
Example second_notification_connects :
  let w := at_proxy (Some 1) [DataShareConnection.OnAbilityDisconnectDone] in
  let '(_, h1, w1) := helper_call (P := Z) (CNotifyChange uri_a) (helper_of uri_a (Some 1)) w in
  let '(_, _, w2) := helper_call (P := Z) (CNotifyChange uri_a) h1 w1 in
  requests w1 = [] /\ requests w2 = [ConnectAbility uri_a 5].
Proof. by vm_compute. Qed.

(** A release between the two writes of a callback leaves the connection stuck. *)
Example torn_callback_sticks :
  let torn := DataShareConnection.OnAbilityConnectDone (Some 2) in
  stuck (sync (Release (helper_of uri_a (Some 1)) (at_proxy (Some 1) [[]; take 1 torn; []; drop 1 torn])).2).
Proof. by vm_compute. Qed.
