(* ===== verification/DataAbility.v ===== *)
(** * Predicates of a data ability

    Model of frameworks/native/dataability/src/data_ability_predicates.cpp and
    predicates_utils.cpp: predicates that can be sent to another process. The receiver
    builds them anew from the texts: clause, arguments, order and limits are taken as
    they are, the columns of the group are parsed out of its text and added again. *)
From S2P Require Import Prelude Strings AbsPredicates AbsPredicatesSpec Memory Parcel.
From Stdlib Require Import Ascii.

#[local] Open Scope list_scope.

Module PredicatesUtils.
Definition SetWhereClauseAndArgs (p : AbsPredicates) (whereClause : string) (whereArgs : list string) : AbsPredicates :=
  SetWhereArgs (SetWhereClause p whereClause) whereArgs.

Definition group_columns (group : string) : list string := getlines "," (remove_char "`" group) "".

Definition SetAttributes (p : AbsPredicates) (isDistinct : bool) (index group order : string) (limit offset : Z)
    : AbsPredicates :=
  let p := if isDistinct then Distinct p else p in
  let p := if negb (empty index) then IndexedBy p index else p in
  let p := if negb (empty group) then GroupBy p (group_columns group) else p in
  let p := if negb (empty order) then SetOrder p order else p in
  let p := if negb (limit =? -1) then Limit p limit else p in
  if negb (offset =? -1) then Offset p offset else p.
End PredicatesUtils.

Module DataAbilityPredicates.
Definition g_invalidObjectFlag : Z := 0.
Definition g_validObjectFlag : Z := 1.

(** [judgeSource] is set by one constructor only; [None] is an indeterminate value. *)
Record DataAbilityPredicates := mkDap {
  base : AbsPredicates;
  isRawSelection : option bool;
  judgeSource : option bool;
}.

Definition new_predicates : DataAbilityPredicates := mkDap Initial (Some false) None.
Definition raw_predicates (rawSelection : string) : DataAbilityPredicates :=
  mkDap (SetWhereClause Initial rawSelection) (Some true) None.

Definition IsRawSelection (d : DataAbilityPredicates) : option bool := isRawSelection d.
Definition GetJudgeSource (d : DataAbilityPredicates) : option bool := judgeSource d.

Section Parcels.
Context `{Parcel}.

Definition MarshallingString (value : string) (p : parcel) : parcel :=
  if negb (empty value) then WriteString value (WriteInt32 g_validObjectFlag p)
  else WriteInt32 g_invalidObjectFlag p.

Definition MarshallingStringList (list : list string) (p : parcel) : parcel :=
  match list with
  | [] => WriteInt32 g_invalidObjectFlag p
  | _ => WriteStringVector list (WriteInt32 g_validObjectFlag p)
  end.

(** The two limits, written out in the source. *)
Definition marshal_number (n : Z) (p : parcel) : parcel :=
  if negb (n =? -1) then WriteInt32 n (WriteInt32 g_validObjectFlag p) else WriteInt32 g_invalidObjectFlag p.

(** Sending predicates whose flag was never set sends some value: [raw]. *)
Definition Marshalling (raw : bool) (d : DataAbilityPredicates) (p : parcel) : bool * parcel :=
  let b := base d in
  let p := WriteBool (default raw (isRawSelection d)) p in
  let p := MarshallingString (GetWhereClause b) p in
  let p := MarshallingStringList (GetWhereArgs b) p in
  let p := WriteBool (IsDistinct b) p in
  let p := MarshallingString (GetIndex b) p in
  let p := MarshallingString (GetGroup b) p in
  let p := MarshallingString (GetOrder b) p in
  let p := marshal_number (GetLimit b) p in
  (true, marshal_number (GetOffset b) p).

(** [(source->ReadInt32() != g_invalidObjectFlag) ? read : otherwise]. *)
Definition read_flagged {A} (read : parcel -> A * parcel) (otherwise : A) (p : parcel) : A * parcel :=
  let '(flag, p) := ReadInt32 p in
  if negb (flag =? g_invalidObjectFlag) then read p else (otherwise, p).

(** The constructor from a parcel, which may be missing. *)
Definition from_parcel (source : option parcel) : DataAbilityPredicates * option parcel :=
  match source with
  | None => (mkDap Initial None (Some false), None)
  | Some p =>
      let '(isRaw, p) := ReadBool p in
      let '(whereClause, p) := read_flagged ReadString "" p in
      let '(whereArgs, p) := read_flagged ReadStringVector [] p in
      let '(isDistinct, p) := ReadBool p in
      let '(index, p) := read_flagged ReadString "" p in
      let '(group, p) := read_flagged ReadString "" p in
      let '(order, p) := read_flagged ReadString "" p in
      let '(limit, p) := read_flagged ReadInt32 (-1) p in
      let '(offset, p) := read_flagged ReadInt32 (-1) p in
      let b := PredicatesUtils.SetWhereClauseAndArgs Initial whereClause whereArgs in
      let b := PredicatesUtils.SetAttributes b isDistinct index group order limit offset in
      (mkDap b (Some isRaw) None, Some p)
  end.

(** The new object, the flag [result] of the class and what is left of the parcel. *)
Definition Unmarshalling (p : parcel) : DataAbilityPredicates * bool * parcel :=
  let '(d, p') := from_parcel (Some p) in (d, true, default p p').
End Parcels.
End DataAbilityPredicates.
Import PredicatesUtils DataAbilityPredicates.

(** ** Columns of a group *)

(** A column, or a column of a table, without a comma. *)
Definition simple_column (f : string) : Prop :=
  let g := RemoveQuotes f in
  count_char "," g = 0%nat /\ empty f = false /\ empty g = false /\
  (count_char "." g = 0%nat \/
   exists t n, g = t +:+ "." +:+ n /\ count_char "." t = 0%nat /\ count_char "." n = 0%nat /\
     empty t = false /\ empty n = false).

Lemma RemoveQuotes_id g : quote_free g -> RemoveQuotes g = g.
Proof.
  intros (H1 & H2 & H3). unfold RemoveQuotes. destruct (empty g); [done|].
  rewrite (remove_char_id _ g H1), (remove_char_id _ g H2). by apply remove_char_id.
Qed.

Lemma RemoveQuotes_twice f : RemoveQuotes (RemoveQuotes f) = RemoveQuotes f.
Proof. apply RemoveQuotes_id, RemoveQuotes_quote_free. Qed.

Lemma strip_parts t n :
  quote_free (t +:+ "." +:+ n) -> remove_char "`" ("`" +:+ t +:+ "`.`" +:+ n +:+ "`") = t +:+ "." +:+ n.
Proof.
  intros (_ & _ & Hq). rewrite !count_char_app in Hq. simpl in Hq. rewrite !remove_char_app.
  rewrite !(remove_char_id "`" t), !(remove_char_id "`" n) by lia. simpl. by rewrite append_nil_r.
Qed.

Lemma strip_column f : simple_column f -> remove_char "`" (column f) = RemoveQuotes f.
Proof.
  intros (_ & _ & He & Hd). destruct (column_quoting f) as (Hq & H1 & H2 & _). destruct Hd as [Hd|(t & n & E & Ht & Hn & Et & En)].
  - rewrite H1; [|by intros E; rewrite E in He|done]. rewrite !remove_char_app, (remove_char_id "`" (RemoveQuotes f)) by apply Hq.
    simpl. by rewrite append_nil_r.
  - rewrite (H2 t n E Ht Hn Et En), E. apply strip_parts. by rewrite <- E.
Qed.

Lemma strip_group fields :
  Forall simple_column fields ->
  remove_char "`" (String.concat "," (column <$> fields)) = String.concat "," (RemoveQuotes <$> fields).
Proof.
  induction 1 as [|f fields Hf Hl IH]; [done|]. destruct fields as [|g fields]; [by apply strip_column|].
  change (remove_char "`" (column f +:+ "," +:+ String.concat "," (column <$> g :: fields)) =
    RemoveQuotes f +:+ "," +:+ String.concat "," (RemoveQuotes <$> g :: fields)).
  by rewrite !remove_char_app, strip_column, IH.
Qed.

Lemma group_columns_of fields :
  Forall simple_column fields -> group_columns (String.concat "," (column <$> fields)) = RemoveQuotes <$> fields.
Proof.
  intros Hf. unfold group_columns. rewrite strip_group by done. apply getlines_concat, Forall_fmap.
  eapply Forall_impl; [exact Hf|]. by intros f (? & _ & ? & _).
Qed.

Lemma column_unquoted f : column (RemoveQuotes f) = column f.
Proof. unfold column. by rewrite RemoveQuotes_twice. Qed.

(** The group arrives as it was. *)
Lemma GroupBy_again p fields :
  Forall simple_column fields -> group p = "" ->
  let text := String.concat "," (column <$> fields) in
  (if negb (empty text) then GroupBy p (group_columns text) else p) = with_group p text.
Proof.
  intros Hf Hg text. unfold text. destruct fields as [|f fields].
  { simpl. destruct p. by simplify_eq/=. }
  assert (Hne : empty (String.concat "," (column <$> f :: fields)) = false).
  { pose proof (strip_group _ Hf) as E. destruct (String.concat "," (column <$> _)) eqn:Ec; [|done].
    apply Forall_cons in Hf as [(_ & _ & He & _) _]. simpl in E. destruct fields; simpl in E; rewrite <- ?E in *; [done|].
    by destruct (RemoveQuotes f). }
  rewrite Hne, group_columns_of by done. simpl negb. cbv iota.
  assert (Hg' : Forall (fun f => empty f = false) (RemoveQuotes <$> f :: fields)).
  { apply Forall_fmap. eapply Forall_impl; [exact Hf|]. by intros ? (_ & _ & ? & _). }
  rewrite GroupBy_only_group. f_equal. etransitivity; [exact (GroupBy_appends p _ _ Hg')|].
  unfold GetGroup. rewrite Hg.
  change (String.concat "," (column <$> (RemoveQuotes <$> f :: fields)) = String.concat "," (column <$> f :: fields)).
  f_equal. rewrite <- list_fmap_compose. apply list_fmap_ext. intros ? x _. apply column_unquoted.
Qed.

(** ** Sending *)

(** What predicates made by calls satisfy: see [built_sendable]. *)
Definition sendable (p : AbsPredicates) : Prop :=
  RemoveQuotes (index p) = index p /\ (limit p = -1 \/ 1 <= limit p) /\ (offset p = -1 \/ 1 <= offset p) /\
  exists fields, Forall simple_column fields /\ group p = String.concat "," (column <$> fields).

(** The predicates as they arrive: whether a condition or an order has been given is
    forgotten. *)
Definition arrived (p : AbsPredicates) : AbsPredicates :=
  mkPredicates (whereClause p) (whereArgs p) (order p) (group p) (index p) (limit p) (offset p) (distinct p)
    false false.

Lemma attributes_arrive p :
  sendable p ->
  SetAttributes (SetWhereClauseAndArgs Initial (whereClause p) (whereArgs p)) (distinct p) (index p) (group p)
    (order p) (limit p) (offset p) = arrived p.
Proof.
  intros (Hi & Hl & Ho & fields & Hf & Hg). destruct p as [w a o g i l f d na so]. simpl in *. subst g.
  unfold SetAttributes, SetWhereClauseAndArgs, arrived.
  set (p0 := SetWhereArgs _ a).
  assert (E0 : p0 = mkPredicates w a "" "" "" (-1) (-1) false false false) by (by destruct w).
  rewrite E0. clear p0 E0.
  set (p1 := if d then _ else _).
  assert (E1 : p1 = mkPredicates w a "" "" "" (-1) (-1) d false false) by (by destruct d).
  rewrite E1. clear p1 E1.
  set (p2 := if negb (empty i) then _ else _).
  assert (E2 : p2 = mkPredicates w a "" "" i (-1) (-1) d false false).
  { unfold p2, IndexedBy, CheckParameter. destruct (empty i) eqn:Ei; simpl; [by destruct i|by rewrite Hi]. }
  rewrite E2. clear p2 E2. cbv zeta. rewrite GroupBy_again by done. unfold with_group. simpl.
  set (p3 := if negb (empty o) then _ else _).
  assert (E3 : p3 = mkPredicates w a o (String.concat "," (column <$> fields)) i (-1) (-1) d false false) by (by destruct o).
  rewrite E3. clear p3 E3. unfold Limit, Offset, with_limits. simpl.
  destruct Hl as [->|Hl], Ho as [->|Ho]; simpl; [done|..].
  - destruct (f =? -1) eqn:E; simpl; [by apply Z.eqb_eq in E as ->|]. by rewrite (proj2 (Z.ltb_ge f 1)).
  - destruct (l =? -1) eqn:E; simpl; [by apply Z.eqb_eq in E as ->|]. by rewrite (proj2 (Z.ltb_ge l 1)).
  - rewrite (proj2 (Z.eqb_neq l (-1))), (proj2 (Z.eqb_neq f (-1))) by lia. simpl.
    rewrite (proj2 (Z.ltb_ge l 1)), (proj2 (Z.ltb_ge f 1)) by lia. done.
Qed.

Section Sending.
Context `{ParcelLaws}.

Definition encoding_text (v : string) : list item :=
  if empty v then [IInt32 0] else [IInt32 1; IString v].
Definition encoding_texts (l : list string) : list item :=
  match l with [] => [IInt32 0] | _ => [IInt32 1; IStringVector l] end.
Definition encoding_number (n : Z) : list item :=
  if n =? -1 then [IInt32 0] else [IInt32 1; IInt32 n].

Lemma text_writes v p l : holds p l -> holds (MarshallingString v p) (l ++ encoding_text v).
Proof.
  intros Hp. unfold MarshallingString, encoding_text. destruct (empty v); simpl; [by apply WriteInt32_holds|].
  apply (WriteInt32_holds _ _ 1), (WriteString_holds _ _ v) in Hp. by rewrite <- app_assoc in Hp.
Qed.
Lemma texts_write v p l : holds p l -> holds (MarshallingStringList v p) (l ++ encoding_texts v).
Proof.
  intros Hp. unfold MarshallingStringList, encoding_texts. destruct v as [|x v]; [by apply WriteInt32_holds|].
  apply (WriteInt32_holds _ _ 1), (WriteStringVector_holds _ _ (x :: v)) in Hp. by rewrite <- app_assoc in Hp.
Qed.
Lemma number_writes n p l : holds p l -> holds (marshal_number n p) (l ++ encoding_number n).
Proof.
  intros Hp. unfold marshal_number, encoding_number. destruct (n =? -1); simpl; [by apply WriteInt32_holds|].
  apply (WriteInt32_holds _ _ 1), (WriteInt32_holds _ _ n) in Hp. by rewrite <- app_assoc in Hp.
Qed.

Lemma text_reads v p l : holds p (encoding_text v ++ l) ->
  exists p', read_flagged ReadString "" p = (v, p') /\ holds p' l.
Proof.
  unfold encoding_text, read_flagged. destruct (empty v) eqn:E; simpl; intros (q & -> & Hq)%ReadInt32_holds; simpl.
  - exists q. by destruct v.
  - by apply ReadString_holds.
Qed.
Lemma texts_read v p l : holds p (encoding_texts v ++ l) ->
  exists p', read_flagged ReadStringVector [] p = (v, p') /\ holds p' l.
Proof.
  unfold encoding_texts, read_flagged. destruct v as [|x v]; simpl; intros (q & -> & Hq)%ReadInt32_holds; simpl;
    [by exists q|by apply ReadStringVector_holds].
Qed.
Lemma number_reads n p l : holds p (encoding_number n ++ l) ->
  exists p', read_flagged ReadInt32 (-1) p = (n, p') /\ holds p' l.
Proof.
  unfold encoding_number, read_flagged. destruct (n =? -1) eqn:E; simpl; intros (q & -> & Hq)%ReadInt32_holds; simpl.
  - exists q. by apply Z.eqb_eq in E as ->.
  - by apply ReadInt32_holds.
Qed.

Definition encoding_predicates (raw : bool) (b : AbsPredicates) : list item :=
  [IBool raw] ++ encoding_text (whereClause b) ++ encoding_texts (whereArgs b) ++ [IBool (distinct b)] ++
  encoding_text (index b) ++ encoding_text (group b) ++ encoding_text (order b) ++
  encoding_number (limit b) ++ encoding_number (offset b).

Lemma Marshalling_writes raw d p l :
  holds p l ->
  exists p', Marshalling raw d p = (true, p') /\
    holds p' (l ++ encoding_predicates (default raw (isRawSelection d)) (base d)).
Proof.
  intros Hp. eexists. split; [reflexivity|]. unfold encoding_predicates. rewrite !app_assoc.
  apply number_writes, number_writes, text_writes, text_writes, text_writes, WriteBool_holds, texts_write,
    text_writes, WriteBool_holds, Hp.
Qed.

Lemma Unmarshalling_reads raw b p l :
  sendable b -> holds p (encoding_predicates raw b ++ l) ->
  exists p', Unmarshalling p = (mkDap (arrived b) (Some raw) None, true, p') /\ holds p' l.
Proof.
  intros Hs Hp. unfold encoding_predicates in Hp. rewrite <- !app_assoc in Hp. unfold Unmarshalling, from_parcel.
  apply ReadBool_holds in Hp as (p1 & -> & Hp). apply text_reads in Hp as (p2 & -> & Hp).
  apply texts_read in Hp as (p3 & -> & Hp). apply ReadBool_holds in Hp as (p4 & -> & Hp).
  apply text_reads in Hp as (p5 & -> & Hp). apply text_reads in Hp as (p6 & -> & Hp).
  apply text_reads in Hp as (p7 & -> & Hp). apply number_reads in Hp as (p8 & -> & Hp).
  apply number_reads in Hp as (p9 & -> & Hp). rewrite attributes_arrive by done. by exists p9.
Qed.
End Sending.

(** ** Predicates made by calls *)
Definition call_sendable (o : pred_op) : Prop :=
  match o with OpGroupBy fields => Forall simple_column fields | _ => True end.
Definition groups (ops : list pred_op) : nat :=
  sum_list_with (fun o => match o with OpGroupBy _ => 1%nat | _ => 0%nat end) ops.

Lemma set_once_sendable old new :
  (old = -1 \/ 1 <= old) -> (forall v, new = Some v -> 1 <= v) -> set_once old new = -1 \/ 1 <= set_once old new.
Proof.
  intros Ho Hn. unfold set_once. destruct (old =? -1); [|done]. destruct new as [v|]; [|done]. right. by apply Hn.
Qed.

Lemma run_op_sendable o p :
  call_sendable o -> sendable p -> (groups [o] = 0%nat \/ group p = "") -> sendable (run_op o p).
Proof.
  intros Ho (Hi & Hl & Hf & fields & Hs & Hg) Hn.
  pose proof (f_equal fst (run_op_index_group o p)) as Ei. pose proof (f_equal snd (run_op_index_group o p)) as Eg.
  simpl in Ei, Eg.
  pose proof (run_op_rest o p) as Er. unfold rest_part, rest_step in Er. injection Er as _ _ El Ef _.
  split; [|split; [|split]].
  - rewrite Ei. destruct o as [| | | | | | | | | | | | |name]; try done. simpl.
    destruct (empty name); [done|apply RemoveQuotes_twice].
  - rewrite El. apply set_once_sendable; [done|]. intros v Hv. destruct o; try done. simpl in Hv.
    destruct (value <? 1) eqn:E; [done|]. simplify_eq. zlia.
  - rewrite Ef. apply set_once_sendable; [done|]. intros v Hv. destruct o; try done. simpl in Hv.
    destruct (value <? 1) eqn:E; [done|]. simplify_eq. zlia.
  - destruct o as [| | | | | | | | | | | |columns|]; try (exists fields; by rewrite Eg). destruct columns as [|f columns].
    { exists fields. by rewrite Eg. }
    destruct Hn as [Hn|Hn]; [done|]. exists (f :: columns). split; [done|]. rewrite Eg.
    etransitivity; [apply (GroupBy_appends p)|].
    + eapply Forall_impl; [exact Ho|]. by intros ? (_ & ? & _).
    + unfold GetGroup. by rewrite Hn.
Qed.

Lemma built_sendable ops p :
  Forall call_sendable ops -> sendable p -> (groups ops = 0 \/ groups ops = 1 /\ group p = "")%nat ->
  sendable (foldl (fun p o => run_op o p) p ops).
Proof.
  intros Ho. revert p. induction Ho as [|o ops Hc _ IH]; intros p Hp Hn; [done|]. simpl.
  unfold groups in Hn. simpl in Hn. fold (groups ops) in Hn.
  assert (Hg : groups [o] = 0%nat -> group (run_op o p) = group p).
  { pose proof (f_equal snd (run_op_index_group o p)) as E. by destruct o. }
  apply IH.
  - apply run_op_sendable; [done..|]. destruct o; try (by left). right. lia || (destruct Hn as [|[_ ?]]; [lia|done]).
  - destruct o; simpl in *; try (by rewrite Hg); try exact Hn. left. destruct Hn as [|[]]; lia.
Qed.

(** Predicates of a data ability after calls. *)
Definition calls (d : DataAbilityPredicates) (ops : list pred_op) : DataAbilityPredicates :=
  mkDap (foldl (fun p o => run_op o p) (base d) ops) (isRawSelection d) (judgeSource d).

Section Roundtrip.
Context `{ParcelLaws}.

(** C27: Predicates of a data ability, plain or made from a raw selection, after any
    calls with at most one grouping by simple columns, are received as they were
    sent: clause and arguments, order, group, index, limits, distinctness and the raw
    flag. The receiver consumes exactly what was written. What is lost is that a
    condition or an order was already given. *)
Theorem data_ability_roundtrip (selection : option string) ops raw p l :
  let start := match selection with Some s => raw_predicates s | None => new_predicates end in
  let sent := calls start ops in
  Forall call_sendable ops -> (groups ops <= 1)%nat -> holds p l ->
  exists q enc, Marshalling raw sent p = (true, q) /\ holds q (l ++ enc) /\
    forall q' l', holds q' (enc ++ l') ->
      exists r, Unmarshalling q' = (mkDap (arrived (base sent)) (isRawSelection sent) None, true, r) /\ holds r l'.
Proof.
  intros start sent Ho Hn Hp. destruct (Marshalling_writes raw sent p l Hp) as (q & Eq & Hq).
  eexists q, _. split; [done|]. split; [exact Hq|]. intros q' l' Hq'.
  assert (Hs : sendable (base sent)).
  { apply built_sendable; [done| |].
    - unfold start. destruct selection as [[|a s]|]; (split; [done|]); (split; [by left|]); (split; [by left|]);
        by exists [].
    - destruct (groups ops) as [|[|n]]; [by left| |lia]. right. by destruct selection as [[|a s]|]. }
  destruct (Unmarshalling_reads _ _ _ _ Hs Hq') as (r & Er & Hr). exists r. split; [|done].
  rewrite Er. by destruct selection.
Qed.
End Roundtrip.

Definition demo_ops : list pred_op :=
  [OpCompare CEqualTo "name" "Li"; OpGroupBy ["'age'"; "t.dept"]; OpIndexedBy "by_age"; OpOrderBy true "age"; OpLimit 5].

Lemma data_ability_roundtrip_witness :
  exists q enc, Marshalling (H := parcel_list) true (calls new_predicates demo_ops) [] = (true, q) /\
    holds (ParcelLaws := parcel_list_laws) q ([] ++ enc) /\
    forall q' l', holds (ParcelLaws := parcel_list_laws) q' (enc ++ l') ->
      exists r, Unmarshalling (H := parcel_list) q' =
        (mkDap (mkPredicates "`name` = ? " ["Li"] "`age` ASC " "`age`,`t`.`dept`" "by_age" 5 (-1) false false false)
           (Some false) None, true, r) /\ holds (ParcelLaws := parcel_list_laws) r l'.
Proof.
  apply (data_ability_roundtrip (H0 := parcel_list_laws) None demo_ops true [] []); [|vm_compute; lia|done].
  constructor; [done|]. constructor; [|by repeat constructor].
  constructor; [|constructor; [|constructor]]; (split; [done|]); (split; [done|]); (split; [done|]).
  - by left.
  - right. by exists "t", "dept".
Defined.

(** A condition added to received predicates is not joined to the clause. *)
Example received_not_joined :
  exists q, Marshalling (H := parcel_list) true (calls new_predicates [OpCompare CEqualTo "name" "Li"]) [] = (true, q) /\
    let d := (Unmarshalling (H := parcel_list) q).1.1 in
    GetWhereClause (base (calls d [OpCompare CEqualTo "age" "7"])) = "`name` = ? `age` = ? ".
Proof. eexists. split; [reflexivity|]. by vm_compute. Qed.

(** Two groupings, and a column with a comma, do not arrive as they were. *)
Example groups_not_kept :
  let received ops :=
    GetGroup (base (Unmarshalling (H := parcel_list) (Marshalling (H := parcel_list) true (calls new_predicates ops) []).2).1.1) in
  GetGroup (run_ops [OpGroupBy ["a,b"]]) = "`a,b`" /\ received [OpGroupBy ["a,b"]] = "`a`,`b`" /\
  GetGroup (run_ops [OpGroupBy ["a"]; OpGroupBy ["b"]]) = "`a``b`" /\ received [OpGroupBy ["a"]; OpGroupBy ["b"]] = "`ab`".
Proof. by vm_compute. Qed.
