(* ===== verification/DataShareUvQueue.v ===== *)
(** * Running a function on the extension's thread

    Model of frameworks/native/data_share/provider/src/datashare_uv_queue.cpp: a call
    puts an entry with a function on the event loop of another thread and waits until
    it has run, for three seconds at most. The two threads share the entry and its
    mutex; a step is an action of one of them between taking and giving back the
    mutex. Freed memory that is used, a mutex locked by its own holder and a mutex
    unlocked after its entry was deleted (a use of freed memory as well, told apart
    because every purge ends with it) are recorded as hazards; the first two end the
    thread. *)
From S2P Require Import Prelude.

#[local] Open Scope list_scope.

Inductive thread := Caller | Loop.
#[global] Instance thread_eq : EqDecision thread.
Proof. solve_decision. Defined.

Inductive hazard :=
| UseAfterFree
| RelockByHolder
| UnlockDestroyed.

(** Where [SyncCall] is: before queueing; before the mutex, entering or woken up; before
    the mutex after the time is up; at the test of the wait; waiting; at the check
    after the wait; about to unlock, with [noNeedPurge]; about to purge; returned. *)
Inductive caller_at :=
| CStart
| CLock
| CLockLate
| CTest
| CWait
| CCheck
| CUnlock (noNeedPurge : bool)
| CPurge
| CReturned.

(** Where the callback on the loop is: not queued; queued; past its check of the work;
    with the mutex; after the function; about to unlock; returned; ended by a hazard. *)
Inductive loop_at :=
| LIdle
| LQueued
| LLock
| LRun
| LDone
| LUnlock
| LReturned
| LDead.

(** [alive] until the entry and the work are deleted; [runs] counts the calls of the
    function; [expired] once the caller went on without the function having run. *)
Record Call := mkCall {
  alive : bool;
  done : bool;
  purge : bool;
  mutex : option thread;
  caller : caller_at;
  loop : loop_at;
  runs : nat;
  expired : bool;
  hazards : list hazard;
}.

Definition new_call : Call := mkCall true false false None CStart LIdle 0 false [].

Definition at_caller (c : caller_at) (s : Call) : Call :=
  mkCall (alive s) (done s) (purge s) (mutex s) c (loop s) (runs s) (expired s) (hazards s).
Definition at_loop (l : loop_at) (s : Call) : Call :=
  mkCall (alive s) (done s) (purge s) (mutex s) (caller s) l (runs s) (expired s) (hazards s).
Definition with_mutex (m : option thread) (s : Call) : Call :=
  mkCall (alive s) (done s) (purge s) m (caller s) (loop s) (runs s) (expired s) (hazards s).
Definition note (h : hazard) (s : Call) : Call :=
  mkCall (alive s) (done s) (purge s) (mutex s) (caller s) (loop s) (runs s) (expired s) (h :: hazards s).

(** The mutex is locked, its entry and the work are deleted, and then it is unlocked.
    [me] may hold it already. *)
Definition Purge (me : thread) (s : Call) : option Call :=
  match mutex s with
  | None =>
      Some (note UnlockDestroyed
              (mkCall false (done s) (purge s) None (caller s) (loop s) (runs s) (expired s) (hazards s)))
  | Some t => if decide (t = me) then Some (note RelockByHolder s) else None
  end.

(** The actions of [SyncCall]. [queued] tells whether [uv_queue_work] took the work,
    [late] whether the time is up when the wait ends, and [cancelled] whether
    [uv_cancel] returned 0; it gets the address of a local variable for a request, so
    its answer is arbitrary. [None] when the action is not possible. *)
Definition caller_step (queued late cancelled : bool) (s : Call) : option Call :=
  match caller s with
  | CStart =>
      if queued then Some (at_caller CLock (at_loop LQueued s))
      else at_caller CReturned <$> Purge Caller s
  | CLock => match mutex s with None => Some (at_caller CTest (with_mutex (Some Caller) s)) | Some _ => None end
  | CLockLate => match mutex s with None => Some (at_caller CCheck (with_mutex (Some Caller) s)) | Some _ => None end
  | CTest => if done s then Some (at_caller CCheck s) else Some (at_caller CWait (with_mutex None s))
  | CWait => Some (at_caller (if late then CLockLate else CLock) s)
  | CCheck =>
      if done s then Some (at_caller (CUnlock false) s)
      else
        Some (mkCall (alive s) (done s) (purge s || cancelled) (mutex s) (CUnlock cancelled) (loop s) (runs s) true (hazards s))
  | CUnlock noNeedPurge => Some (at_caller (if noNeedPurge then CReturned else CPurge) (with_mutex None s))
  | CPurge => at_caller CReturned <$> Purge Caller s
  | CReturned => None
  end.

(** The actions of the callback. *)
Definition loop_step (s : Call) : option Call :=
  match loop s with
  | LIdle | LReturned | LDead => None
  | LQueued => Some (if alive s then at_loop LLock s else at_loop LDead (note UseAfterFree s))
  | LLock =>
      if alive s then match mutex s with None => Some (at_loop LRun (with_mutex (Some Loop) s)) | Some _ => None end
      else Some (at_loop LDead (note UseAfterFree s))
  | LRun =>
      Some (mkCall (alive s) true (purge s) (mutex s) (caller s) LDone (S (runs s)) (expired s) (hazards s))
  | LDone => if purge s then at_loop LDead <$> Purge Loop s else Some (at_loop LUnlock s)
  | LUnlock => Some (at_loop LReturned (with_mutex None s))
  end.

Inductive step : Call -> Call -> Prop :=
| step_caller queued late cancelled s s' : caller_step queued late cancelled s = Some s' -> step s s'
| step_loop s s' : loop_step s = Some s' -> step s s'.

Definition reachable_call (s : Call) : Prop := rtc step new_call s.

(** ** What holds in every state *)

(** The callback while the entry is there: the function has run exactly when it is
    past it, and it has the mutex from locking to unlocking. *)
Definition loop_live (s : Call) : Prop :=
  match loop s with
  | LQueued | LLock => done s = false /\ runs s = 0%nat /\ mutex s <> Some Loop
  | LRun => done s = false /\ runs s = 0%nat /\ mutex s = Some Loop
  | LDone | LUnlock => done s = true /\ runs s = 1%nat /\ mutex s = Some Loop
  | LReturned => done s = true /\ runs s = 1%nat /\ mutex s <> Some Loop
  | LIdle | LDead => False
  end.

(** The entry is there and nothing has gone wrong. *)
Definition sound (s : Call) : Prop := alive s = true /\ purge s = false /\ hazards s = [] /\ loop_live s.

(** After the return: the work was not queued; the caller has purged; or it has left
    that to the callback. *)
Definition returned (s : Call) : Prop :=
  (loop s = LIdle /\ runs s = 0%nat /\ expired s = false /\ hazards s = [UnlockDestroyed]) \/
  (purge s = false /\ alive s = false /\
     ((loop s = LReturned /\ runs s = 1%nat /\ hazards s = [UnlockDestroyed]) \/
      (expired s = true /\ (loop s = LQueued \/ loop s = LLock)) \/
      (expired s = true /\ loop s = LDead /\ UseAfterFree ∈ hazards s))) \/
  (purge s = true /\ alive s = true /\ expired s = true /\
     (((loop s = LQueued \/ loop s = LLock) /\ mutex s = None) \/
      ((loop s = LRun \/ loop s = LDone) /\ mutex s = Some Loop) \/
      (loop s = LDead /\ RelockByHolder ∈ hazards s))).

Definition inv (s : Call) : Prop :=
  match caller s with
  | CStart => s = new_call
  | CLock | CLockLate | CWait => sound s /\ expired s = false /\ mutex s <> Some Caller
  | CTest | CCheck => sound s /\ expired s = false /\ mutex s = Some Caller
  | CUnlock false => sound s /\ mutex s = Some Caller /\ (expired s = false -> loop s = LReturned)
  | CUnlock true =>
      alive s = true /\ purge s = true /\ expired s = true /\ mutex s = Some Caller /\
      (loop s = LQueued \/ loop s = LLock)
  | CPurge => sound s /\ mutex s <> Some Caller /\ (expired s = false -> loop s = LReturned)
  | CReturned => returned s
  end.

Lemma inv_caller q t c s s' : inv s -> caller_step q t c s = Some s' -> inv s'.
Proof.
  destruct s as [a d p m cl l r e h]. unfold inv, caller_step, Purge, sound, loop_live. simpl.
  destruct cl as [| | | | | |nn| |]; simpl.
  - intros [= -> -> -> -> -> -> -> ->]. destruct q; simpl; intros [= <-]; simpl; [done|]. by left.
  - intros ((-> & -> & -> & Hl) & -> & Hm). destruct m; [done|]. intros [= <-]. simpl.
    by destruct l; naive_solver.
  - intros ((-> & -> & -> & Hl) & -> & Hm). destruct m; [done|]. intros [= <-]. simpl.
    by destruct l; naive_solver.
  - intros ((-> & -> & -> & Hl) & -> & ->). destruct d; intros [= <-]; simpl; [done|].
    by destruct l; naive_solver.
  - intros H [= <-]. by destruct t.
  - intros ((-> & -> & -> & Hl) & -> & ->). destruct d; intros [= <-]; simpl.
    + split; [done|]. split; [done|]. intros _. by destruct l; naive_solver.
    + destruct c; simpl; [|done]. by destruct l; naive_solver.
  - destruct nn.
    + intros (-> & -> & -> & -> & Hl) [= <-]. simpl. right. right. simpl. naive_solver.
    + intros ((-> & -> & -> & Hl) & -> & He) [= <-]. simpl. by destruct l; naive_solver.
  - intros ((-> & -> & -> & Hl) & Hm & He). destruct m as [[]|]; [done|done|]. simpl. intros [= <-]. simpl.
    right. left. simpl. destruct e, l; naive_solver.
  - done.
Qed.

Lemma inv_loop s s' : inv s -> loop_step s = Some s' -> inv s'.
Proof.
  destruct s as [a d p m cl l r e h]. unfold inv, loop_step, Purge, sound, loop_live. simpl.
  destruct cl as [| | | | | |nn| |]; simpl.
  - by intros [= -> -> -> -> -> -> -> ->].
  - intros ((-> & -> & -> & Hl) & -> & Hm). by destruct l, m as [[]|]; intros; simplify_eq/=; naive_solver.
  - intros ((-> & -> & -> & Hl) & -> & Hm). by destruct l, m as [[]|]; intros; simplify_eq/=; naive_solver.
  - intros ((-> & -> & -> & Hl) & -> & ->). by destruct l; intros; simplify_eq/=; naive_solver.
  - intros ((-> & -> & -> & Hl) & -> & Hm). by destruct l, m as [[]|]; intros; simplify_eq/=; naive_solver.
  - intros ((-> & -> & -> & Hl) & -> & ->). by destruct l; intros; simplify_eq/=; naive_solver.
  - destruct nn.
    + intros (-> & -> & -> & -> & Hl). by destruct l; intros; simplify_eq/=; naive_solver.
    + intros ((-> & -> & -> & Hl) & -> & He). by destruct l; intros; simplify_eq/=; naive_solver.
  - intros ((-> & -> & -> & Hl) & Hm & He). by destruct l, m as [[]|]; intros; simplify_eq/=; naive_solver.
  - unfold returned. simpl.
    intros [(-> & _)|[(-> & -> & Hc)|(-> & -> & -> & Hc)]]; [done|..].
    + destruct l; intros Hs; simplify_eq/=; try (by naive_solver); right; left; simpl;
        (split; [done|]); (split; [done|]); right; naive_solver set_solver.
    + destruct l; intros Hs; destruct m as [[]|]; simplify_eq/=; try (by naive_solver); right; right; simpl;
        naive_solver set_solver.
Qed.

Lemma reachable_call_inv s : reachable_call s -> inv s.
Proof.
  unfold reachable_call. intros Hr. remember new_call as s0 eqn:E. assert (Hi : inv s0) by (subst; exact eq_refl). clear E.
  induction Hr as [|s1 s2 s3 [q t c ? ? E|? ? E] _ IH]; [done|..]; apply IH; clear IH.
  - by eapply inv_caller.
  - by eapply inv_loop.
Qed.

(** ** The promises of the queue *)

(** C26: A call that the loop serves in time: when the call returns, the function has run
    exactly once and the callback is over, or the work was not taken and the function has
    not run. Until then neither thread has used freed memory or locked a mutex it holds;
    the purge that ends the call deletes the entry and unlocks its mutex afterwards,
    which is the one use of freed memory there is. *)
Theorem served_call s :
  reachable_call s -> expired s = false ->
  hazards s = (match caller s with CReturned => [UnlockDestroyed] | _ => [] end) /\
  (caller s = CReturned ->
    (loop s = LReturned /\ runs s = 1%nat) \/ (loop s = LIdle /\ runs s = 0%nat)).
Proof.
  intros Hi%reachable_call_inv He. destruct s as [a d p m cl l r e h]. unfold inv, sound, returned in Hi. simpl in *. subst e.
  destruct cl as [| | | | | |[]| |]; simpl in Hi; [by injection Hi as -> -> -> -> -> -> ->|..];
    try (by destruct Hi as ((_ & _ & -> & _) & _)).
  - by destruct Hi as (_ & _ & ? & _).
  - destruct Hi as [(-> & -> & _ & ->)|[(_ & _ & [(-> & -> & ->)|[[]|[]]])|(_ & _ & ? & _)]]; try done; auto.
Qed.

(** A call that waited in vain. *)
Definition abandoned (s : Call) : Prop := caller s = CReturned /\ expired s = true /\ loop s <> LReturned.

Lemma abandoned_step s s' : inv s -> abandoned s -> step s s' -> abandoned s'.
Proof.
  intros Hi (Hc & He & Hl) Hs. destruct Hs as [q t c ? ? E|? ? E].
  - unfold caller_step in E. by rewrite Hc in E.
  - unfold inv in Hi. rewrite Hc in Hi. destruct s as [a d p m cl l r e h]. unfold returned in Hi. simpl in *. subst cl e.
    destruct Hi as [(_ & _ & ? & _)|[(-> & -> & Hx)|(-> & -> & _ & Hx)]]; [done|..];
      unfold loop_step, Purge in E; simpl in E; unfold abandoned;
      destruct l, m as [[]|]; simplify_eq/=; try done; naive_solver.
Qed.

(** What the callback does after the call was abandoned never ends well: it uses the
    entry and the work the caller has deleted, or, if [uv_cancel] said 0, it runs the
    function and locks the mutex it holds when it purges. *)
Theorem abandoned_call s s' :
  reachable_call s -> abandoned s -> rtc step s s' ->
  loop s' <> LReturned /\
  ((forall s'', ~ step s' s'') -> UseAfterFree ∈ hazards s' \/ RelockByHolder ∈ hazards s').
Proof.
  intros Hr Ha Hs. assert (Hi : inv s') by (apply reachable_call_inv; unfold reachable_call in *; by etransitivity).
  assert (Ha' : abandoned s').
  { apply reachable_call_inv in Hr. clear Hi. induction Hs as [|s1 s2 s3 Hx _ IH]; [done|]. apply IH; [|by eapply abandoned_step].
    destruct Hx as [q t c ? ? E|? ? E]; [by eapply inv_caller|by eapply inv_loop]. }
  destruct Ha' as (Hc & He & Hl). split; [done|]. intros Hend.
  unfold inv in Hi. rewrite Hc in Hi. destruct s' as [a d p m cl l r e h]. unfold returned in Hi. simpl in *. subst cl e.
  assert (Hno : loop_step (mkCall a d p m CReturned l r true h) = None).
  { destruct (loop_step _) eqn:E; [|done]. exfalso. by eapply Hend, step_loop. }
  unfold loop_step, Purge in Hno. simpl in Hno.
  destruct Hi as [(_ & _ & ? & _)|[(-> & -> & Hx)|(-> & -> & _ & Hx)]]; [done|..];
    destruct l, m as [[]|]; simplify_eq/=; naive_solver.
Qed.

(** *** Runs *)
Fixpoint run_call (l : list (thread * bool * bool * bool)) (s : Call) : option Call :=
  match l with
  | [] => Some s
  | (Caller, q, t, c) :: l => s ← caller_step q t c s; run_call l s
  | (Loop, _, _, _) :: l => s ← loop_step s; run_call l s
  end.

Lemma run_call_steps l s s' : run_call l s = Some s' -> rtc step s s'.
Proof.
  revert s. induction l as [|[[[[] q] t] c] l IH]; intros s; simpl; [by intros [= ->]|..].
  - destruct (caller_step q t c s) as [s1|] eqn:E; [|done]. intros Hs. eapply rtc_l; [by eapply step_caller|by apply IH].
  - destruct (loop_step s) as [s1|] eqn:E; [|done]. intros Hs. eapply rtc_l; [by eapply step_loop|by apply IH].
Qed.

Definition by_caller := (Caller, true, false, false).
Definition by_loop := (Loop, false, false, false).
Definition too_late := (Caller, true, true, false).

(** Served: the caller waits, the loop runs the function, the caller purges. *)
Definition served_run :=
  [by_caller; by_caller; by_caller; by_loop; by_loop; by_loop; by_loop; by_loop;
   by_caller; by_caller; by_caller; by_caller; by_caller; by_caller].
(** Abandoned: the time is up, the caller purges, the callback comes. *)
Definition late_run := [by_caller; by_caller; by_caller; too_late; by_caller; by_caller; by_caller; by_caller].

Definition served_end : Call := mkCall false true false None CReturned LReturned 1 false [UnlockDestroyed].
Definition late_end : Call := mkCall false false false None CReturned LQueued 0 true [UnlockDestroyed].
Definition late_callback : Call := mkCall false false false None CReturned LDead 0 true [UseAfterFree; UnlockDestroyed].

Lemma served_reachable : reachable_call served_end.
Proof. by apply (run_call_steps served_run). Qed.
Lemma late_reachable : reachable_call late_end.
Proof. by apply (run_call_steps late_run). Qed.

Lemma served_call_witness :
  hazards served_end = [UnlockDestroyed] /\
  ((loop served_end = LReturned /\ runs served_end = 1%nat) \/ (loop served_end = LIdle /\ runs served_end = 0%nat)).
Proof.
  destruct (served_call served_end served_reachable eq_refl) as (H1 & H2). split; [exact H1|exact (H2 eq_refl)].
Defined.

Lemma abandoned_call_witness :
  loop late_callback <> LReturned /\ (UseAfterFree ∈ hazards late_callback \/ RelockByHolder ∈ hazards late_callback).
Proof.
  destruct (abandoned_call late_end late_callback late_reachable) as [H1 H2].
  - by repeat split.
  - by apply rtc_once, step_loop.
  - split; [exact H1|]. apply H2. intros s'' Hs. by inversion Hs; subst.
Defined.
