(* ===== verification/RdbHelperSpec.v ===== *)
(** * Opening stores, on the stores themselves

    [RdbHelper] is proved against an interface for stores; here [RdbStoreImpl], with its
    sessions, pool and connections, is shown to keep that interface, given what SQLite
    documents of [PRAGMA user_version]. *)
From S2P Require Import Prelude StdMap Strings RdbErrno ValueObject SqliteUtils ConnectionPool StoreSession RdbStoreImpl RdbHelper.
From Stdlib Require Import DecimalString DecimalZ.

#[local] Open Scope list_scope.

(** ** The version of a database *)
Definition version_text (v : Z) : string := "PRAGMA user_version = " +:+ to_string v.

(** What SQLite documents: [user_version] is the version in the database after a history
    of calls, as the connection that writes sees it, and [in_transaction] tells whether a
    transaction is open then. Preparing a statement and reading the version change
    neither; a version that was set is there, until a call other than these two comes;
    outside of transactions every connection reads it. *)
Class UserVersion `{Connections} := {
  user_version : list (Z * conn_call) -> Z;
  in_transaction : list (Z * conn_call) -> bool;
  no_calls : in_transaction [] = false;
  prepare_keeps cs c sql : user_version (cs ++ [(c, CPrepare sql)]) = user_version cs /\
    in_transaction (cs ++ [(c, CPrepare sql)]) = in_transaction cs;
  read_keeps cs c : let f := CExecuteGetLong "PRAGMA user_version;" [] in user_version (cs ++ [(c, f)]) = user_version cs;
  read_tells cs c : let f := CExecuteGetLong "PRAGMA user_version;" [] in
    in_transaction cs = false -> r_code (answers cs c f) = E_OK -> s32 (r_number (answers cs c f)) = user_version cs;
  set_stays cs c v : let f := CExecuteSql (version_text v) [] in
    -2147483648 <= v <= 2147483647 -> r_code (answers cs c f) = E_OK -> user_version (cs ++ [(c, f)]) = v;
}.

Section Version.
Context `{UserVersion}.

Create HintDb quiet.

(** ** Operations of a session that leave the version alone *)
Definition quiet {A} (m : M A) : Prop :=
  forall e a e', m e = Ret (a, e') ->
    user_version (calls e') = user_version (calls e) /\ in_transaction (calls e') = in_transaction (calls e).

Lemma quiet_ret {A} (a : A) : quiet (mret a).
Proof. by intros e b e' [= <- <-]. Qed.
Lemma quiet_bind {A B} (m : M A) (f : A -> M B) : quiet m -> (forall a, quiet (f a)) -> quiet (m ≫= f).
Proof.
  intros Hm Hf e b e' Hb. unfold mbind, M_bind in Hb. destruct (m e) as [[a e1]| |] eqn:E; [|done|done].
  destruct (Hf a _ _ _ Hb) as [-> ->]. by eapply Hm.
Qed.
Lemma quiet_prepare sql : quiet (call (CPrepare sql)).
Proof. intros e a e'. unfold call. destruct (connection (session e)); [|done]. intros [= _ <-]. apply prepare_keeps. Qed.
Lemma quiet_acquire ro : quiet (StoreSession.AcquireConnection ro).
Proof.
  intros e a e'. unfold StoreSession.AcquireConnection. destruct (connection (session e)); [by intros [= _ <-]|].
  destruct (ConnectionPool.AcquireConnection _ _) as [[? ?]|]; [by intros [= _ <-]|done].
Qed.
Lemma quiet_release : quiet StoreSession.ReleaseConnection.
Proof.
  intros e a e'. unfold StoreSession.ReleaseConnection. destruct (connection (session e)); [|by intros [= _ <-]].
  by repeat case_match; intros [= _ <-].
Qed.
Lemma quiet_is_write : quiet IsWriteConnection.
Proof. intros e a e'. unfold IsWriteConnection. destruct (connection (session e)); [by intros [= _ <-]|done]. Qed.

#[local] Hint Resolve quiet_ret quiet_prepare quiet_acquire quiet_release quiet_is_write : quiet.

Lemma quiet_begin sql : quiet (BeginExecuteSql sql).
Proof.
  unfold BeginExecuteSql. repeat first
    [ apply quiet_bind; [|intros ?] | case_match | solve [auto with quiet] ].
Qed.

(** The call of an execution is made after quiet preparations, and only a release
    follows it. *)
Lemma execute_calls sql f e code r e' :
  execute sql f e = Ret ((code, r), e') ->
  user_version (calls e') = user_version (calls e) /\ code <> E_OK \/
  exists cs c, user_version cs = user_version (calls e) /\ in_transaction cs = in_transaction (calls e) /\
    code = r_code r /\ r = answers cs c f /\ user_version (calls e') = user_version (cs ++ [(c, f)]).
Proof.
  unfold execute, mbind at 1, M_bind at 1. destruct (BeginExecuteSql sql e) as [[err e1]| |] eqn:Eb; [|done|done].
  destruct (quiet_begin sql _ _ _ Eb) as [Hb Hb']. destruct (Z.eqb_spec err 0) as [->|Hne]; simpl.
  - unfold mbind at 1, M_bind at 1, call at 1. destruct (connection (session e1)) as [c|]; [|done].
    unfold mbind, M_bind. match goal with |- context [StoreSession.ReleaseConnection ?x] => set (e2 := x) end.
    destruct (StoreSession.ReleaseConnection e2) as [[[] e3]| |] eqn:Er; [|done|done]. intros [= <- <- <-].
    right. exists (calls e1), c. destruct (quiet_release _ _ _ Er) as [-> _]. by rewrite <- Hb, <- Hb'.
  - intros [= <- _ <-]. left. by rewrite Hb.
Qed.

(** ** The store *)
Context (databaseType : string -> Z) `{Files} (tid : Z).

Lemma in_session_calls {A} (m : M A) s a s' :
  in_session tid m s = Ret (a, s') ->
  exists e e', m e = Ret (a, e') /\ calls e = sent_calls s /\ sent_calls s' = calls e'.
Proof.
  unfold in_session, mbind, R_bind.
  assert (Hg : exists s1, GetThreadSession tid s = Ret (tt, s1) /\ sent_calls s1 = sent_calls s).
  { unfold GetThreadSession. repeat case_match; eexists; split; try done. }
  destruct Hg as (s1 & -> & Hs1). unfold on_session. destruct (threadMap s1 !! tid) as [[ses n]|]; [|done].
  match goal with |- context [m ?x] => set (e := x) end. destruct (m e) as [[b e']| |] eqn:Em; [|done|done].
  match goal with |- context [ReleaseThreadSession tid ?x] => set (s2 := x) end.
  assert (Hr : exists s3, ReleaseThreadSession tid s2 = Ret (tt, s3) /\ sent_calls s3 = sent_calls s2).
  { unfold ReleaseThreadSession. repeat case_match; eexists; split; try done. }
  destruct Hr as (s3 & -> & Hs3). intros [= <- <-]. exists e, e'. split; [done|]. split; [done|]. by rewrite Hs3.
Qed.

Lemma store_get_version s code v s' :
  RdbStoreImpl.GetVersion tid s = Ret ((code, v), s') ->
  user_version (sent_calls s') = user_version (sent_calls s) /\
  (code = E_OK -> in_transaction (sent_calls s) = false -> v = user_version (sent_calls s)).
Proof.
  unfold RdbStoreImpl.GetVersion, ExecuteAndGetLong, mbind, R_bind.
  destruct (in_session tid _ s) as [[[c r] s1]| |] eqn:E; [|done|done]. intros [= <- <- <-].
  destruct (in_session_calls _ _ _ _ E) as (e & e' & Em & He & Hs1). rewrite Hs1, <- He.
  destruct (execute_calls _ _ _ _ _ _ Em) as [[Hv Hc]|(cs & k & Hv & Ht & -> & -> & Hl)]; [done|].
  rewrite Hl, read_keeps. split; [done|]. intros Hok Hin. rewrite <- Hv. apply read_tells; [by rewrite Ht|done].
Qed.

Lemma check_attach_version v s : CheckAttach databaseType tid (version_text v) s = Ret (E_OK, s).
Proof. done. Qed.

Lemma store_set_version s v s' :
  -2147483648 <= v <= 2147483647 ->
  RdbStoreImpl.SetVersion databaseType tid v s = Ret (E_OK, s') -> user_version (sent_calls s') = v.
Proof.
  intros Hv. unfold RdbStoreImpl.SetVersion, RdbStoreImpl.ExecuteSql. fold (version_text v).
  unfold mbind at 1, R_bind at 1. rewrite check_attach_version. cbn [negb Z.eqb E_OK].
  assert (Hg : exists s1, GetThreadSession tid s = Ret (tt, s1) /\ sent_calls s1 = sent_calls s).
  { unfold GetThreadSession. repeat case_match; eexists; split; try done. }
  destruct Hg as (s1 & Eg & Hs1). unfold mbind at 1, R_bind at 1. rewrite Eg. unfold mbind at 1, R_bind at 1, on_session.
  destruct (threadMap s1 !! tid) as [[ses n]|]; [|done].
  match goal with |- context [StoreSession.ExecuteSql _ _ ?x] => set (e := x) end.
  destruct (StoreSession.ExecuteSql (version_text v) [] e) as [[err e']| |] eqn:Em; [|done|done].
  assert (Hset : err = E_OK -> user_version (calls e') = v).
  { unfold StoreSession.ExecuteSql, mbind, M_bind in Em. destruct (execute _ _ e) as [[[c r] e1]| |] eqn:Ex; [|done|done].
    injection Em as <- <-. destruct (execute_calls _ _ _ _ _ _ Ex) as [[_ Hc]|(cs & k & _ & _ & -> & -> & Hl)]; [done|].
    intros Hok. simpl in Hok. rewrite Hl. by apply set_stays. }
  destruct (Z.eqb_spec err E_OK) as [->|Hne]; cbn [negb].
  - specialize (Hset eq_refl).
    match goal with |- (_ ≫= _) ?x = _ -> _ => set (s2 := x) end. assert (H2 : sent_calls s2 = calls e') by done.
    clearbody s2. unfold mbind, R_bind, ReOpen, mret, R_ret.
    assert (Hr : forall q, sent_calls q = sent_calls s2 ->
      exists s3, ReleaseThreadSession tid q = Ret (tt, s3) /\ sent_calls s3 = sent_calls s2).
    { intros q Hq. unfold ReleaseThreadSession. repeat case_match; eexists; split; try done. }
    destruct (GetSqlStatementType (version_text v) =? STATEMENT_DDL).
    + destruct (ReOpenAvailableReadConnections _ _) as [x p].
      destruct (Hr (with_connectionPool s2 p) eq_refl) as (s3 & -> & H3). intros [= _ <-]. by rewrite H3, H2.
    + destruct (Hr s2 eq_refl) as (s3 & -> & H3). intros [= <-]. by rewrite H3, H2.
  - unfold mbind, R_bind, mret, R_ret. match goal with |- context [ReleaseThreadSession tid ?x] => destruct (ReleaseThreadSession tid x) as [[[] s3]| |] end;
      [|done|done]. intros [= -> _]. done.
Qed.
End Version.

(** ** The stores of a process

    Every opened store has a database of its own: [sqlite i] answers for store [i];
    [pool_config] and [opens] are what the pool needs of the settings and what opening
    its connections gives. *)
Section Stores.
Context (sqlite : nat -> Connections) (versions : forall i, @UserVersion (sqlite i)).
Context (databaseType : string -> Z) `{Files} (tid : Z).
Context (pool_config : RdbStoreConfig.RdbStoreConfig -> PoolConfig) (opens : nat -> list (Z + Z)).

Definition on_store {A} (i : nat) (m : R A) (w : list RdbStoreImpl) : option (A * list RdbStoreImpl) :=
  match w !! i with
  | None => None
  | Some s => match m s with Ret (a, s) => Some (a, <[i := s]> w) | _ => None end
  end.

Definition opened_stores : RdbStores := {|
  stores := list RdbStoreImpl;
  RdbStore := nat;
  RdbStore_eq := _;
  RdbHelper.Open config w :=
    match RdbStoreImpl.Open (pool_config config) (RdbStoreConfig.GetPath config) (opens (length w)) with
    | (errCode, None) => Some (errCode, None, w)
    | (_, Some s) => Some (E_OK, Some (length w), w ++ [s])
    end;
  RdbHelper.GetVersion i w :=
    match on_store i (@RdbStoreImpl.GetVersion (sqlite i) tid) w with
    | Some ((code, v), w) => Some (code, v, w)
    | None => None
    end;
  RdbHelper.SetVersion i v w := on_store i (@RdbStoreImpl.SetVersion (sqlite i) databaseType tid v) w;
|}.

Definition store_version (i : nat) (w : list RdbStoreImpl) : Z :=
  match w !! i with
  | Some s => @user_version _ (versions i) (sent_calls s)
  | None => 0
  end.
(** No transaction is open on the store. *)
Definition store_settled (i : nat) (w : list RdbStoreImpl) : Prop :=
  match w !! i with
  | Some s => @in_transaction _ (versions i) (sent_calls s) = false
  | None => True
  end.

Lemma store_version_insert i s w :
  (i < length w)%nat -> store_version i (<[i := s]> w) = @user_version _ (versions i) (sent_calls s).
Proof. intros Hi. unfold store_version. by rewrite list_lookup_insert_eq. Qed.

Lemma on_store_some {A} i (m : R A) w a w' :
  on_store i m w = Some (a, w') ->
  exists s s', w !! i = Some s /\ m s = Ret (a, s') /\ w' = <[i := s']> w /\ (i < length w)%nat.
Proof.
  unfold on_store. destruct (w !! i) as [s|] eqn:Ei; [|done]. destruct (m s) as [[b s']| |] eqn:E; [|done|done].
  intros [= <- <-]. exists s, s'. split_and!; try done. by eapply lookup_lt_Some.
Qed.

Lemma stores_get_version i (w : list RdbStoreImpl) code v w' :
  on_store i (@RdbStoreImpl.GetVersion (sqlite i) tid) w = Some ((code, v), w') ->
  (code = E_OK -> store_settled i w -> v = store_version i w) /\ store_version i w' = store_version i w.
Proof.
  intros (s & s' & Ei & E & -> & Hi)%on_store_some.
  destruct (@store_get_version _ (versions i) tid s code v s' E) as [Hk Hv].
  rewrite store_version_insert by done. unfold store_settled, store_version. by rewrite Ei.
Qed.

(** A store that was opened has not executed anything. *)
Lemma opened_fresh config (w : list RdbStoreImpl) code i w' :
  @RdbHelper.Open opened_stores config w = Some (code, Some i, w') -> store_settled i w'.
Proof.
  simpl. unfold RdbStoreImpl.Open. destruct (Create _ _) as [e [q|]]; intros [= <- <- <-].
  unfold store_settled. rewrite lookup_app_r, Nat.sub_diag by done. apply no_calls.
Qed.

(** The stores keep the interface of the helper. *)
Definition stores_keep_versions : @VersionLaws opened_stores.
Proof.
  refine (@Build_VersionLaws opened_stores store_version store_settled opened_fresh _ _).
  - intros i w code v w'. simpl. destruct (on_store i _ _) as [[[c u] w1]|] eqn:E; [|done]. intros [= <- <- <-].
    by apply (stores_get_version i w).
  - intros i v w w' Hv. simpl. intros (s & s' & Ei & E & -> & Hi)%on_store_some.
    rewrite store_version_insert by done. by eapply store_set_version.
Defined.

(** C22: A store opened through the helper has the version asked for, in the database. With
    the stores as they are, over their sessions, pool and connections, and SQLite keeping
    its user version as documented: when [GetRdbStore] returns a store, the calls made on
    its connections leave the version asked for, whatever the version was and whatever the
    callbacks for creating, upgrading and downgrading executed; and opening it again with
    that version calls [OnOpen] alone. No transaction is open on the store when it is
    opened, and [OnOpen] leaves the version as it is. *)
Theorem helper_brings_version config v (cb : @RdbOpenCallback opened_stores) c
    (w : list RdbStoreImpl) code i c' (w' : list RdbStoreImpl) :
  -2147483648 <= v <= 2147483647 ->
  (forall s u e u', OnOpen cb s u = Some (e, u') -> store_version s u' = store_version s u) ->
  sm_sorted c -> (forall s, sm_find (RdbStoreConfig.GetPath config) c = Some s -> store_settled s w) ->
  @GetRdbStore opened_stores config v cb c w = Some (code, Some i, c', w') ->
  code = E_OK /\ store_version i w' = v /\
  forall cb2 e u w1, store_settled i w' -> @GetVersion opened_stores i w' = Some (e, u, w1) ->
    @GetRdbStore opened_stores config v cb2 c' w' =
      if negb (e =? E_OK) then Some (e, None, c', w1)
      else '(e2, w2) ← OnOpen cb2 i w1; Some (e2, if e2 =? E_OK then Some i else None, c', w2).
Proof.
  intros Hv Hcb Hsort Hset Hget.
  destruct (@open_brings_version opened_stores stores_keep_versions config v cb c w code i c' w' Hv Hcb Hsort Hset Hget)
    as (H1 & H2 & H3).
  split; [exact H1|]. split; [exact H2|]. intros cb2 e u w1 Hs Hg. rewrite (H3 cb2 Hs), Hg. done.
Qed.
End Stores.

(** ** A concrete database *)

(** The version a call sets: a 32-bit number in SQLite. *)
Definition sets_version (f : conn_call) : option Z :=
  match f with
  | CExecuteSql sql [] =>
      match strip_prefix "PRAGMA user_version = " sql with
      | Some t => (fun n => s32 (Z.of_int n)) <$> NilEmpty.int_of_string t
      | None => None
      end
  | _ => None
  end.

Lemma strip_prefix_app p s : strip_prefix p (p +:+ s) = Some s.
Proof. induction p as [|c p IH]; [by destruct s|]. rewrite append_cons. simpl. by rewrite Ascii.eqb_refl. Qed.

Lemma sets_version_text v : -2147483648 <= v <= 2147483647 -> sets_version (CExecuteSql (version_text v) []) = Some v.
Proof.
  intros Hv. unfold sets_version, version_text. rewrite strip_prefix_app. unfold to_string.
  rewrite NilEmpty.isi by (by destruct v as [|p|p]; try done; apply DecimalPos.Unsigned.to_uint_nonnil).
  simpl. rewrite DecimalZ.of_to. f_equal. apply s32_small. lia.
Qed.

(** A database that accepts everything and commits each statement; its version, 0 at
    first, is the last one set. *)
Definition last_version (cs : list (Z * conn_call)) : Z :=
  foldl (fun v x => default v (sets_version x.2)) 0 cs.
Definition versioned_sqlite (_ : nat) : Connections := fun cs _ f =>
  mkReply E_OK (match f with CPrepare sql => IsSqlReadOnly (GetSqlStatementType sql) | _ => false end)
    (last_version cs) "" [] true.

Lemma last_version_fits cs : s32 (last_version cs) = last_version cs.
Proof.
  unfold last_version. induction cs as [|x cs IH] using rev_ind; [done|]. rewrite foldl_snoc.
  destruct (sets_version x.2) as [v|] eqn:E; [|done]. simpl.
  unfold sets_version in E. repeat case_match; try done.
  apply fmap_Some in E as (n & _ & ->). apply s32_small. pose proof (Z.mod_pos_bound (Z.of_int n + 2147483648) 4294967296 eq_refl).
  change (s32 (Z.of_int n)) with ((Z.of_int n + 2147483648) mod 4294967296 - 2147483648). lia.
Qed.

Definition versioned_laws (i : nat) : @UserVersion (versioned_sqlite i).
Proof.
  refine (@Build_UserVersion (versioned_sqlite i) last_version (fun _ => false) eq_refl _ _ _ _).
  - intros cs c sql. unfold last_version. by rewrite foldl_snoc.
  - intros cs c f. unfold last_version. by rewrite foldl_snoc.
  - intros cs c f _ _. apply last_version_fits.
  - intros cs c v f Hv _. unfold last_version. rewrite foldl_snoc. cbn [snd]. unfold f. by rewrite sets_version_text.
Defined.

Abbreviation witness_stores :=
  (opened_stores versioned_sqlite GetSqlStatementType 1 (fun _ => wal_config) (fun _ => [inr 10; inr 11; inr 12])).

(** Callbacks that execute nothing. *)
Definition silent_callback : @RdbOpenCallback witness_stores :=
  mkCallback witness_stores (fun _ w => Some (E_OK, w)) (fun _ _ _ w => Some (E_OK, w)) (fun _ _ _ w => Some (E_OK, w))
    (fun _ w => Some (E_OK, w)).

(** The stores after a first opening, at version 3. *)
Definition opened_at_3 : list RdbStoreImpl :=
  match @GetRdbStore witness_stores demo_settings 3 silent_callback [] [] with
  | Some (_, _, _, w) => w
  | None => []
  end.

(** Opening the same database at version 5 upgrades it. *)
Lemma helper_brings_version_witness :
  store_version versioned_sqlite versioned_laws 0 opened_at_3 = 3 /\
  exists w', @GetRdbStore witness_stores demo_settings 5 silent_callback [("/data/a.db", 0%nat)] opened_at_3 =
      Some (E_OK, Some 0%nat, [("/data/a.db", 0%nat)], w') /\
    store_version versioned_sqlite versioned_laws 0 w' = 5.
Proof.
  split; [vm_compute; reflexivity|].
  assert (E : exists w', @GetRdbStore witness_stores demo_settings 5 silent_callback [("/data/a.db", 0%nat)] opened_at_3 =
      Some (E_OK, Some 0%nat, [("/data/a.db", 0%nat)], w')) by (eexists; vm_compute; reflexivity).
  destruct E as [w' E]. exists w'. split; [exact E|].
  apply (helper_brings_version versioned_sqlite versioned_laws GetSqlStatementType 1 (fun _ => wal_config)
    (fun _ => [inr 10; inr 11; inr 12]) demo_settings 5 silent_callback [("/data/a.db", 0%nat)]
    opened_at_3 E_OK 0%nat [("/data/a.db", 0%nat)] w').
  - lia.
  - by intros s u e u' [= _ <-].
  - repeat constructor.
  - intros s _. unfold store_settled. by destruct (opened_at_3 !! s).
  - exact E.
Defined.
