(* ===== verification/Napi.v ===== *)
(** * JavaScript values and their conversions

    The bindings under frameworks/js/napi are called with JavaScript values and return
    such values. [js] is a value as a binding sees it during one call: primitive values,
    and objects by the properties it can read; functions and objects that hold a native
    object are known by their identity. The functions of Node-API belong to the runtime:
    they are the class [Napi], and what is documented of them is [NapiLaws]. A function
    that fails leaves its out parameters alone and gives [None] here.

    Modelled on top: frameworks/js/napi/common/src/js_utils.cpp,
    data_share/common/src/datashare_js_utils.cpp, rdb/src/napi_values_bucket.cpp and
    data_share/common/src/napi_datashare_values_bucket.cpp. *)
From S2P Require Import Prelude Strings StdMap Memory RdbErrno SharedBlock ValueObject ValuesBucket DataShareValueObject DataShareValuesBucket.
From Stdlib Require Import Ascii.

#[local] Open Scope list_scope.

Inductive napi_valuetype :=
| napi_undefined | napi_null | napi_boolean | napi_number | napi_string | napi_symbol
| napi_object | napi_function | napi_external | napi_bigint.

#[global] Instance napi_valuetype_eq_dec : EqDecision napi_valuetype.
Proof. solve_decision. Defined.

(** Only one kind of typed array is told from the others. *)
Inductive napi_typedarray_type := napi_uint8_array | napi_other_array.

#[global] Instance napi_typedarray_type_eq_dec : EqDecision napi_typedarray_type.
Proof. solve_decision. Defined.

(** Numbers are doubles, by their bits; strings by their UTF-8 text. *)
Inductive js :=
| JUndefined
| JNull
| JBoolean (b : bool)
| JNumber (d : Z)
| JString (s : string)
| JSymbol
| JBigint
| JExternal
| JFunction (f : Z)
| JArray (l : list js)
| JTypedArray (t : napi_typedarray_type) (data : list byte)
| JArrayBuffer (data : list byte)
| JObject (properties : list (string * js))
| JInstance (native : Z).

Definition type_of (v : js) : napi_valuetype :=
  match v with
  | JUndefined => napi_undefined
  | JNull => napi_null
  | JBoolean _ => napi_boolean
  | JNumber _ => napi_number
  | JString _ => napi_string
  | JSymbol => napi_symbol
  | JBigint => napi_bigint
  | JExternal => napi_external
  | JFunction _ => napi_function
  | JArray _ | JTypedArray _ _ | JArrayBuffer _ | JObject _ | JInstance _ => napi_object
  end.

(** [napi_set_element] and [napi_set_named_property] give the changed object. A value that
    is a null pointer is [None]; [string_length] is [napi_get_value_string_utf8] without a
    buffer. *)
Class Napi := {
  napi_typeof : js -> napi_valuetype;
  string_length : js -> option Z;
  napi_get_value_string_utf8 : js -> Z -> option (list byte);
  napi_get_value_double : js -> option Z;
  napi_get_value_bool : js -> option bool;
  napi_get_value_int32 : js -> option Z;
  napi_get_value_int64 : js -> option Z;
  napi_get_array_length : js -> option Z;
  napi_get_element : js -> Z -> option js;
  napi_is_typedarray : js -> option bool;
  napi_get_typedarray_info : js -> option (napi_typedarray_type * option (list byte));
  napi_get_property_names : js -> option js;
  napi_get_property : js -> js -> option js;
  napi_get_named_property : js -> string -> option js;
  napi_unwrap : js -> option Z;
  napi_create_string_utf8 : string -> option js;
  napi_create_int32 : Z -> option js;
  napi_create_int64 : Z -> option js;
  napi_create_double : Z -> option js;
  napi_get_boolean : bool -> option js;
  napi_create_array_with_length : Z -> option js;
  napi_set_element : js -> Z -> option js -> option js;
  napi_create_arraybuffer : Z -> option js;
  napi_create_typedarray : napi_typedarray_type -> Z -> js -> Z -> option js;
  napi_create_object : option js;
  napi_set_named_property : js -> string -> option js -> option js;
}.

(** What a runtime that has memory does. A string that does not fit into the buffer,
    less a byte for the NUL, is cut; integers below 2^53 are exact. *)
Class NapiLaws `{Napi} : Prop := {
  typeof_ok v : napi_typeof v = type_of v;
  string_length_ok s : string_length (JString s) = Some (Z.of_nat (String.length s));
  string_length_other v : type_of v <> napi_string -> string_length v = None;
  string_cut s n : 0 < n -> exists t, napi_get_value_string_utf8 (JString s) n = Some t /\
    t `prefix_of` bytes_of s /\ Z.of_nat (length t) < n;
  string_whole s n : Z.of_nat (String.length s) < n -> napi_get_value_string_utf8 (JString s) n = Some (bytes_of s);
  string_other v n : type_of v <> napi_string -> napi_get_value_string_utf8 v n = None;
  double_ok d : napi_get_value_double (JNumber d) = Some d;
  bool_ok b : napi_get_value_bool (JBoolean b) = Some b;
  array_length_ok l : Z.of_nat (length l) < 2 ^ 32 -> napi_get_array_length (JArray l) = Some (Z.of_nat (length l));
  array_length_other v : (forall l, v <> JArray l) -> napi_get_array_length v = None;
  element_ok l i v : l !! i = Some v -> napi_get_element (JArray l) (Z.of_nat i) = Some v;
  typedarray_ok t data : napi_is_typedarray (JTypedArray t data) = Some true;
  typedarray_other v : (forall t data, v <> JTypedArray t data) -> napi_is_typedarray v <> Some true;
  typedarray_info_ok t data : exists p, napi_get_typedarray_info (JTypedArray t data) = Some (t, p) /\
    (p = Some data \/ p = None /\ data = []);
  names_ok m : napi_get_property_names (JObject m) = Some (JArray ((fun p => JString p.1) <$> m));
  property_ok m k v : NoDup m.*1 -> (k, v) ∈ m -> napi_get_property (JObject m) (JString k) = Some v;
  unwrap_ok p : napi_unwrap (JInstance p) = Some p;
  unwrap_other v : (forall p, v <> JInstance p) -> napi_unwrap v = None;
  create_string_ok s : napi_create_string_utf8 s = Some (JString s);
  create_int32_ok n : -2147483648 <= n <= 2147483647 -> exists d, napi_create_int32 n = Some (JNumber d) /\
    napi_get_value_int32 (JNumber d) = Some n;
  create_int64_ok n : Z.abs n < 2 ^ 53 -> exists d, napi_create_int64 n = Some (JNumber d) /\
    napi_get_value_int64 (JNumber d) = Some n;
  create_double_ok d : napi_create_double d = Some (JNumber d);
  get_boolean_ok b : napi_get_boolean b = Some (JBoolean b);
  create_array_ok n : napi_create_array_with_length (Z.of_nat n) = Some (JArray (replicate n JUndefined));
  set_element_ok l i v : (i < length l)%nat -> napi_set_element (JArray l) (Z.of_nat i) (Some v) = Some (JArray (<[i := v]> l));
  create_arraybuffer_ok n : napi_create_arraybuffer (Z.of_nat n) = Some (JArrayBuffer (replicate n zero));
  create_typedarray_ok t data : napi_create_typedarray t (Z.of_nat (length data)) (JArrayBuffer data) 0 = Some (JTypedArray t data);
  create_object_ok : napi_create_object = Some (JObject []);
  set_property_ok m k v : k ∉ m.*1 -> napi_set_named_property (JObject m) k (Some v) = Some (JObject (m ++ [(k, v)]));
  set_property_null o k : napi_set_named_property o k None = None;
}.

(** ** Calls *)

(** What [napi_get_cb_info] tells of a call. The arguments that are asked for but were
    not given are undefined. *)
Record call := mkCall { this : js; argv : list js }.
Definition argc (c : call) : Z := Z.of_nat (length (argv c)).
Definition arg (c : call) (i : nat) : js := default JUndefined (argv c !! i).

(** A call returns a value, or a null pointer, which JavaScript sees as undefined; or it
    throws an error. *)
Inductive reply :=
| Replies (v : option js)
| Raises (message : string).

(** Methods on the wrapped objects, by their addresses; without a native object there is
    a null pointer that is dereferenced. *)
Section Methods.
Context `{Napi} {N : Type}.

Definition method : Type := gmap Z N -> outcome (reply * gmap Z N).

Definition NAPI_ASSERT (assertion : bool) (message : string) (k : method) : method := fun h =>
  if negb assertion then Ok (Raises message, h) else k h.

Definition native_object (thiz : js) (h : gmap Z N) : outcome (Z * N) :=
  match napi_unwrap thiz with
  | None => Undefined
  | Some p => match h !! p with Some n => Ok (p, n) | None => Undefined end
  end.

(** The native method changes the object; the call returns [thiz]. *)
Definition change_native (c : call) (f : N -> outcome N) : method := fun h =>
  pn <-- native_object (this c) h; n <-- f pn.2; Ok (Replies (Some (this c)), <[pn.1 := n]> h).
Definition read_native (c : call) (f : N -> option js) : method := fun h =>
  pn <-- native_object (this c) h; Ok (Replies (f pn.2), h).
Definition unchanged (c : call) : method := fun h => Ok (Replies (Some (this c)), h).

Definition wrapped (p : Z) (n : N) : method := fun h => Ok (Replies (Some (JInstance p)), <[p := n]> h).
Definition Destructor (p : Z) (h : gmap Z N) : gmap Z N := delete p h.

(** Calling a property of the class by its name. *)
Definition dispatch (table : list (string * (call -> method))) (name : string) (c : call) : method := fun h =>
  match sm_find name table with
  | Some f => f c h
  | None => Ok (Raises "is not callable", h)
  end.

(** A program: calls on one object, one after the other, that ends when one throws. *)
Fixpoint invoke_all (table : list (string * (call -> method))) (thiz : js) (program : list (string * list js)) : method := fun h =>
  match program with
  | [] => Ok (Replies (Some thiz), h)
  | (name, args) :: program =>
      match dispatch table name (mkCall thiz args) h with
      | Ok (Replies _, h) => invoke_all table thiz program h
      | other => other
      end
  end.
End Methods.
#[global] Arguments method : clear implicits.

(** ** js_ability.cpp

    What the ability runtime knows of an application: the context behind a JavaScript
    object, and the ability that runs, with its module. *)
Record AppContext := mkAppContext {
  app_databaseDir : string;
  app_preferencesDir : string;
  app_bundleName : string;
}.
Class AbilityRuntime := {
  IsStageContext : js -> option bool;
  GetStageModeContext : js -> option AppContext;
  GetCurrentAbility : option (option (AppContext * option string));
}.

Module JSAbility.
Record Context := mkAbilityContext {
  databaseDir_ : string;
  preferencesDir_ : string;
  bundleName_ : string;
  moduleName_ : string;
}.
Definition from_stage (c : AppContext) : Context :=
  mkAbilityContext (app_databaseDir c) (app_preferencesDir c) (app_bundleName c) "".
(** The module is that of the ability's information, when there is any. *)
Definition from_ability (c : AppContext) (moduleName : option string) : Context :=
  mkAbilityContext (app_databaseDir c) (app_preferencesDir c) (app_bundleName c) (default "" moduleName).
Definition GetDatabaseDir : Context -> string := databaseDir_.
Definition GetPreferencesDir : Context -> string := preferencesDir_.
Definition GetBundleName : Context -> string := bundleName_.
Definition GetModuleName : Context -> string := moduleName_.

Section Ability.
Context `{AbilityRuntime}.
Definition CheckContext (c : call) : bool := bool_decide (is_Some (IsStageContext (arg c 0))).
Definition GetContext (value : js) : option Context :=
  if default false (IsStageContext value) then from_stage <$> GetStageModeContext value
  else
    match GetCurrentAbility with
    | None => None
    | Some None => None
    | Some (Some (c, moduleName)) => Some (from_ability c moduleName)
    end.
End Ability.
End JSAbility.

(** ** js_utils.cpp *)
Module JSUtils.
Definition DEFAULT_BUF_SIZE : Z := 1024.
Definition BUF_CACHE_MARGIN : Z := 4.

(** The text in a buffer into which [t] was copied and terminated. *)
Definition buffer_text (t : list byte) : string := c_string (t ++ [zero]).

Section Utils.
Context `{Napi} `{SecureC}.

Definition Convert2String (jsStr : js) (useDefaultBufSize : bool) : string :=
  let str_buffer_size := default 0 (string_length jsStr) in
  let str_buffer_size :=
    if useDefaultBufSize && (str_buffer_size >? DEFAULT_BUF_SIZE) then DEFAULT_BUF_SIZE + BUF_CACHE_MARGIN
    else str_buffer_size + BUF_CACHE_MARGIN in
  buffer_text (default [] (napi_get_value_string_utf8 jsStr str_buffer_size)).

Definition Convert2U8Vector (input_array : js) : list byte :=
  if negb (default false (napi_is_typedarray input_array)) then []
  else
    match napi_get_typedarray_info input_array with
    | Some (napi_uint8_array, Some data) => data
    | _ => []
    end.

(** [std::to_string] of a [bool] takes it as an [int]. *)
Definition ConvertAny2String (jsValue : js) : string :=
  match napi_typeof jsValue with
  | napi_string => Convert2String jsValue true
  | napi_number => to_string_fp (decode_double (default 0 (napi_get_value_double jsValue)))
  | napi_boolean => if default false (napi_get_value_bool jsValue) then "1" else "0"
  | napi_null => "null"
  | napi_object => String.string_of_list_ascii (Convert2U8Vector jsValue)
  | _ => "invalid type"
  end.

(** The elements of an array; [napi_get_element] succeeds below the length. *)
Fixpoint elements (value : js) (i : Z) (n : nat) : list js :=
  match n with
  | O => []
  | S n => default JUndefined (napi_get_element value i) :: elements value (i + 1) n
  end.
Definition array_of (value : js) : list js :=
  elements value 0 (Z.to_nat (default 0 (napi_get_array_length value))).

Definition Convert2StrVector (value : js) : list string := ConvertAny2String <$> array_of value.

Definition Convert2JSValue_string (value : string) : option js := napi_create_string_utf8 value.

(** An element that was not created is not set. *)
Fixpoint set_elements (jsValue : js) (i : Z) (l : list (option js)) : js :=
  match l with
  | [] => jsValue
  | v :: l => set_elements (default jsValue (napi_set_element jsValue i v)) (i + 1) l
  end.
Definition Convert2JSValue_strings (value : list string) : option js :=
  jsValue ← napi_create_array_with_length (Z.of_nat (length value));
  Some (set_elements jsValue 0 (Convert2JSValue_string <$> value)).

(** The copy goes through the pointer to the bytes of the array buffer. *)
Definition fill (buffer : js) (result : Z) (value : list byte) : js :=
  match buffer with JArrayBuffer _ => if result =? 0 then JArrayBuffer value else buffer | _ => buffer end.
Definition Convert2JSValue_blob (value : list byte) : option js :=
  let size := Z.of_nat (length value) in
  buffer ← napi_create_arraybuffer size;
  let result := memcpy_s size size in
  if negb (result =? 0) && (size >? 0) then None
  else napi_create_typedarray napi_uint8_array size (fill buffer result value) 0.

Definition Convert2JSValue_int32 (value : Z) : option js := napi_create_int32 value.
Definition Convert2JSValue_int64 (value : Z) : option js := napi_create_int64 value.
Definition Convert2JSValue_double (value : Z) : option js := napi_create_double value.
Definition Convert2JSValue_bool (value : bool) : option js := napi_get_boolean value.

(** The result of a synchronisation: pairs of a device and a code. *)
Definition SYNC_RESULT_ELEMNT_NUM : Z := 2.
Definition sync_element (e : string * Z) : option js :=
  jsElement ← napi_create_array_with_length SYNC_RESULT_ELEMNT_NUM;
  Some (set_elements jsElement 0 [Convert2JSValue_string e.1; Convert2JSValue_int32 e.2]).
Fixpoint sync_elements (jsValue : js) (i : Z) (value : list (string * Z)) : option js :=
  match value with
  | [] => Some jsValue
  | e :: value =>
      jsElement ← sync_element e;
      sync_elements (default jsValue (napi_set_element jsValue i (Some jsElement))) (i + 1) value
  end.
Definition Convert2JSValue_sync (value : list (string * Z)) : option js :=
  jsValue ← napi_create_array_with_length (Z.of_nat (length value));
  sync_elements jsValue 0 value.
End Utils.
End JSUtils.

(** ** datashare_js_utils.cpp

    The functions that have the text of those above are the same functions. *)
Module DataShareJSUtils.
Definition DEFAULT_BUF_SIZE : Z := 1024.

Section Utils.
Context `{Napi} `{SecureC}.

(** The text is cut to the buffer. [NAPI_ASSERT_BASE] throws when [max] is zero. *)
Definition Convert2String (jsStr : js) (max : Z) : outcome string :=
  if negb (0 <? max) then Throws
  else Ok (JSUtils.buffer_text (default [] (napi_get_value_string_utf8 jsStr max))).

Definition short_text (jsStr : js) : string :=
  JSUtils.buffer_text (default [] (napi_get_value_string_utf8 jsStr DEFAULT_BUF_SIZE)).

Definition Convert2U8Vector : js -> list byte := JSUtils.Convert2U8Vector.

(** The vector has a byte more than what is copied into it. *)
Definition ConvertU8Vector (jsValue : js) (offset : Z) (buffer : list byte) : list byte :=
  if negb (default false (napi_is_typedarray jsValue)) then []
  else
    match napi_get_typedarray_info jsValue with
    | Some (napi_uint8_array, data) =>
        let total := Z.of_nat (length buffer) in
        let length_ := Z.min (Z.of_nat (length (default [] data))) (u64 (total - offset)) in
        if memcpy_s (u64 (1 + length_)) length_ =? 0
        then take (Z.to_nat length_) (drop (Z.to_nat offset) buffer) ++ [zero]
        else []
    | _ => []
    end.

Definition ConvertAny2String (jsValue : js) : string :=
  match napi_typeof jsValue with
  | napi_string => short_text jsValue
  | napi_number => to_string_fp (decode_double (default 0 (napi_get_value_double jsValue)))
  | napi_boolean => if default false (napi_get_value_bool jsValue) then "1" else "0"
  | napi_null => "null"
  | napi_object => String.string_of_list_ascii (Convert2U8Vector jsValue)
  | _ => "invalid type"
  end.

Definition Convert2StrVector (value : js) (strMax : Z) : outcome (list string) :=
  if negb (0 <? strMax) then Throws else Ok (ConvertAny2String <$> JSUtils.array_of value).

(** The whole text: the buffer has the length the runtime gives. *)
Definition UnwrapStringFromJS (param : js) (defaultValue : string) : string :=
  match string_length param with
  | None => defaultValue
  | Some size =>
      if size =? 0 then defaultValue
      else
        match napi_get_value_string_utf8 param (size + 1) with
        | Some t => JSUtils.buffer_text t
        | None => defaultValue
        end
  end.

Definition Convert2JSValue_string : string -> option js := JSUtils.Convert2JSValue_string.
Definition Convert2JSValue_strings : list string -> option js := JSUtils.Convert2JSValue_strings.
Definition Convert2JSValue_blob : list byte -> option js := JSUtils.Convert2JSValue_blob.
Definition Convert2JSValue_int32 : Z -> option js := JSUtils.Convert2JSValue_int32.
Definition Convert2JSValue_int64 : Z -> option js := JSUtils.Convert2JSValue_int64.
Definition Convert2JSValue_double : Z -> option js := JSUtils.Convert2JSValue_double.
Definition Convert2JSValue_bool : bool -> option js := JSUtils.Convert2JSValue_bool.
Definition Convert2JSValue_sync : list (string * Z) -> option js := JSUtils.Convert2JSValue_sync.
End Utils.
End DataShareJSUtils.

(** ** napi_values_bucket.cpp *)
Module NapiValuesBucket.
Section Bucket.
Context `{Napi} `{SecureC}.

(** The value of a column; a null one stays a null pointer. *)
Definition js_value (o : ValueObject) : outcome (option js) :=
  match ValueObject.GetType o with
  | ValueObject.TYPE_NULL => Ok None
  | ValueObject.TYPE_INT => v <-- ValueObject.GetLong o; Ok (JSUtils.Convert2JSValue_int64 v)
  | ValueObject.TYPE_DOUBLE => v <-- ValueObject.GetDouble o; Ok (JSUtils.Convert2JSValue_double v)
  | ValueObject.TYPE_BLOB => v <-- ValueObject.GetBlob o; Ok (JSUtils.Convert2JSValue_blob v)
  | ValueObject.TYPE_BOOL => v <-- ValueObject.GetBool o; Ok (JSUtils.Convert2JSValue_bool v)
  | ValueObject.TYPE_STRING => v <-- ValueObject.GetString o; Ok (JSUtils.Convert2JSValue_string v)
  end.

(** [NAPI_CALL] around setting a property returns a null pointer when it fails. *)
Fixpoint set_properties (ret : js) (valuesMap : list (string * ValueObject)) : outcome (option js) :=
  match valuesMap with
  | [] => Ok (Some ret)
  | (key, valueObject) :: valuesMap =>
      value <-- js_value valueObject;
      match napi_set_named_property ret key value with
      | Some ret => set_properties ret valuesMap
      | None => Ok None
      end
  end.
Definition NewInstance (b : ValuesBucket) : outcome (option js) :=
  match napi_create_object with
  | Some ret => set_properties ret (ValuesBucket.GetAll b)
  | None => Ok None
  end.

Definition put_js (b : ValuesBucket) (keyStr : string) (value : js) : ValuesBucket :=
  match napi_typeof value with
  | napi_string => ValuesBucket.PutString b keyStr (JSUtils.Convert2String value true)
  | napi_number => ValuesBucket.PutDouble b keyStr (default 0 (napi_get_value_double value))
  | napi_boolean => ValuesBucket.PutBool b keyStr (default false (napi_get_value_bool value))
  | napi_null => ValuesBucket.PutNull b keyStr
  | napi_object => ValuesBucket.PutBlob b keyStr (JSUtils.Convert2U8Vector value)
  | _ => b
  end.
(** The keys of an object; none when their array cannot be had. *)
Definition keys_of (arg : js) : list js :=
  match napi_get_property_names arg with Some keys => JSUtils.array_of keys | None => [] end.
Definition GetNativeObject (arg : js) : ValuesBucket :=
  foldl (fun b key =>
    put_js b (JSUtils.Convert2String key true) (default JUndefined (napi_get_property arg key)))
    ValuesBucket_empty (keys_of arg).
End Bucket.
End NapiValuesBucket.

(** ** napi_datashare_values_bucket.cpp *)
Module NapiDataShareValuesBucket.
Section Bucket.
Context `{Napi} `{SecureC}.

Definition js_value (o : DataShareValueObject) : outcome (option js) :=
  match DataShareValueObject.GetType o with
  | DataShareValueObject.TYPE_NULL => Ok None
  | DataShareValueObject.TYPE_INT => v <-- DataShareValueObject.GetLong o; Ok (DataShareJSUtils.Convert2JSValue_int64 v)
  | DataShareValueObject.TYPE_DOUBLE => v <-- DataShareValueObject.GetDouble o; Ok (DataShareJSUtils.Convert2JSValue_double v)
  | DataShareValueObject.TYPE_BLOB => v <-- DataShareValueObject.GetBlob o; Ok (DataShareJSUtils.Convert2JSValue_blob v)
  | DataShareValueObject.TYPE_BOOL => v <-- DataShareValueObject.GetBool o; Ok (DataShareJSUtils.Convert2JSValue_bool v)
  | DataShareValueObject.TYPE_STRING => v <-- DataShareValueObject.GetString o; Ok (DataShareJSUtils.Convert2JSValue_string v)
  end.

Fixpoint set_properties (ret : js) (valuesMap : list (string * DataShareValueObject)) : outcome (option js) :=
  match valuesMap with
  | [] => Ok (Some ret)
  | (key, valueObject) :: valuesMap =>
      value <-- js_value valueObject;
      match napi_set_named_property ret key value with
      | Some ret => set_properties ret valuesMap
      | None => Ok None
      end
  end.
Definition DataShareValueBucketNewInstance (b : DataShareValuesBucket) : outcome (option js) :=
  match napi_create_object with
  | Some ret => set_properties ret (DataShareValuesBucket.GetAll b)
  | None => Ok None
  end.

Definition SetValuesBucketObject (b : DataShareValuesBucket) (keyStr : string) (value : js) : DataShareValuesBucket :=
  match napi_typeof value with
  | napi_string => DataShareValuesBucket.PutString b keyStr (DataShareJSUtils.UnwrapStringFromJS value "")
  | napi_number => DataShareValuesBucket.PutDouble b keyStr (default 0 (napi_get_value_double value))
  | napi_boolean => DataShareValuesBucket.PutBool b keyStr (default false (napi_get_value_bool value))
  | napi_null => DataShareValuesBucket.PutNull b keyStr
  | napi_object => DataShareValuesBucket.PutBlob b keyStr (DataShareJSUtils.Convert2U8Vector value)
  | _ => b
  end.
Definition AnalysisValuesBucket (b : DataShareValuesBucket) (arg : js) : DataShareValuesBucket :=
  foldl (fun b key =>
    SetValuesBucketObject b (DataShareJSUtils.UnwrapStringFromJS key "") (default JUndefined (napi_get_property arg key)))
    b (NapiValuesBucket.keys_of arg).
Definition GetValueBucketObject (b : DataShareValuesBucket) (arg : js) : DataShareValuesBucket := AnalysisValuesBucket b arg.
End Bucket.
End NapiDataShareValuesBucket.

(** ** Facts about the conversions *)
Section Conversions.
Context `{NapiLaws} `{SecureC}.

Lemma buffer_text_whole s : no_nul s -> JSUtils.buffer_text (bytes_of s) = s.
Proof. apply (c_string_bytes s []). Qed.

(** What is read of any text: a prefix without NUL. *)
Lemma buffer_text_prefix t s : t `prefix_of` bytes_of s -> String.prefix (JSUtils.buffer_text t) s = true.
Proof.
  unfold JSUtils.buffer_text. revert s. induction t as [|c t IH]; intros s [k E]; [by destruct s|]. simpl.
  destruct (decide (c = zero)); [by destruct s|]. destruct s as [|c' s]; [done|]. unfold bytes_of in *. simpl in *.
  injection E as -> E. destruct (ascii_dec c c); [|done]. apply IH. by exists k.
Qed.

Lemma convert_string s useDefault :
  no_nul s -> Z.of_nat (String.length s) <= JSUtils.DEFAULT_BUF_SIZE -> JSUtils.Convert2String (JString s) useDefault = s.
Proof.
  intros Hn Hl. unfold JSUtils.Convert2String. rewrite string_length_ok. simpl.
  destruct (Z.gtb_spec (Z.of_nat (String.length s)) JSUtils.DEFAULT_BUF_SIZE); [lia|]. rewrite andb_false_r.
  rewrite string_whole by (unfold JSUtils.BUF_CACHE_MARGIN; lia). by apply buffer_text_whole.
Qed.

Lemma convert_string_long s : no_nul s -> JSUtils.Convert2String (JString s) false = s.
Proof.
  intros Hn. unfold JSUtils.Convert2String. rewrite string_length_ok. simpl.
  rewrite string_whole by (unfold JSUtils.BUF_CACHE_MARGIN; lia). by apply buffer_text_whole.
Qed.

Lemma convert_string_prefix s useDefault : String.prefix (JSUtils.Convert2String (JString s) useDefault) s = true.
Proof.
  unfold JSUtils.Convert2String. rewrite string_length_ok. simpl.
  match goal with |- context [napi_get_value_string_utf8 _ ?n] => destruct (string_cut s n) as (t & -> & Ht & _) end.
  { unfold JSUtils.DEFAULT_BUF_SIZE, JSUtils.BUF_CACHE_MARGIN. case_match; lia. }
  by apply buffer_text_prefix.
Qed.

Lemma convert_string_other v useDefault : type_of v <> napi_string -> JSUtils.Convert2String v useDefault = "".
Proof. intros Hv. unfold JSUtils.Convert2String. by rewrite string_length_other, string_other. Qed.

Lemma unwrap_string s d : no_nul s -> DataShareJSUtils.UnwrapStringFromJS (JString s) d = if empty s then d else s.
Proof.
  intros Hn. unfold DataShareJSUtils.UnwrapStringFromJS. rewrite string_length_ok.
  destruct s as [|c s]; [done|]. destruct (Z.eqb_spec (Z.of_nat (String.length (String c s))) 0) as [E|]; [simpl in E; lia|].
  rewrite string_whole by lia. by apply buffer_text_whole.
Qed.

Lemma convert_blob data : JSUtils.Convert2U8Vector (JTypedArray napi_uint8_array data) = data.
Proof.
  unfold JSUtils.Convert2U8Vector. rewrite typedarray_ok. simpl.
  by destruct (typedarray_info_ok napi_uint8_array data) as (p & -> & [->|[-> ->]]).
Qed.

Lemma create_blob data :
  Z.of_nat (length data) <= SECUREC_MEM_MAX_LEN ->
  JSUtils.Convert2JSValue_blob data = Some (JTypedArray napi_uint8_array data).
Proof.
  intros Hl. unfold JSUtils.Convert2JSValue_blob. rewrite create_arraybuffer_ok. cbn [mbind option_bind].
  destruct (decide (data = [])) as [->|Hd].
  - change (Z.of_nat (length (@nil byte))) with 0. unfold JSUtils.fill. simpl.
    rewrite andb_false_r. destruct (memcpy_s 0 0 =? 0); apply (create_typedarray_ok napi_uint8_array []).
  - assert (0 < Z.of_nat (length data)) by (destruct data; [done|simpl; lia]).
    rewrite memcpy_s_ok by lia. simpl. apply create_typedarray_ok.
Qed.

Lemma elements_ok l : forall pre, JSUtils.elements (JArray (pre ++ l)) (Z.of_nat (length pre)) (length l) = l.
Proof.
  induction l as [|v l IH]; intros pre; [done|]. simpl.
  rewrite (element_ok _ _ v) by (by rewrite lookup_app_r, Nat.sub_diag by lia). simpl. f_equal.
  rewrite (app_assoc pre [v] l : pre ++ v :: l = _). replace (Z.of_nat (length pre) + 1) with (Z.of_nat (length (pre ++ [v])))
    by (rewrite length_app; simpl; lia). apply IH.
Qed.

Lemma array_of_ok l : Z.of_nat (length l) < 2 ^ 32 -> JSUtils.array_of (JArray l) = l.
Proof. intros Hl. unfold JSUtils.array_of. rewrite array_length_ok by done. simpl. rewrite Nat2Z.id. apply (elements_ok l []). Qed.

Lemma array_of_other v : (forall l, v <> JArray l) -> JSUtils.array_of v = [].
Proof. intros Hv. unfold JSUtils.array_of. by rewrite array_length_other. Qed.

Lemma set_elements_ok l : forall pre, 
  JSUtils.set_elements (JArray (pre ++ replicate (length l) JUndefined)) (Z.of_nat (length pre)) (Some <$> l) = JArray (pre ++ l).
Proof.
  induction l as [|v l IH]; intros pre; [done|]. simpl. rewrite set_element_ok by (rewrite length_app; simpl; lia). simpl.
  rewrite insert_app_r_alt, Nat.sub_diag by lia. simpl.
  rewrite (app_assoc pre [v] l : pre ++ v :: l = _), <- IH. rewrite <- app_assoc. simpl. f_equal. rewrite length_app. simpl. lia.
Qed.

Lemma create_strings l : JSUtils.Convert2JSValue_strings l = Some (JArray (JString <$> l)).
Proof.
  unfold JSUtils.Convert2JSValue_strings. rewrite create_array_ok. cbn [mbind option_bind]. f_equal.
  pose proof (set_elements_ok (JString <$> l) []) as E. rewrite length_fmap in E. simpl in E. rewrite <- E. f_equal.
  rewrite <- list_fmap_compose. apply list_fmap_ext. intros i s _. apply create_string_ok.
Qed.
End Conversions.

(** ** Objects and buckets *)

(** The map a list of entries with different keys makes: the entries, in the order of
    the keys. *)
Lemma sm_insert_perm {V} k (v : V) m : k ∉ m.*1 -> sm_insert k v m ≡ₚ (k, v) :: m.
Proof.
  induction m as [|[k' v'] m IH]; [done|]. simpl. intros [Hne Hk]%not_elem_of_cons.
  destruct (String.compare k k') eqn:E; [|done|].
  - by apply String.compare_eq_iff in E.
  - rewrite IH by done. constructor.
Qed.

Lemma sm_insert_fmap {V W} (f : V -> W) k v m : sm_insert k (f v) (prod_map id f <$> m) = prod_map id f <$> sm_insert k v m.
Proof.
  induction m as [|[k' v'] m IH]; [done|]. cbn. destruct (String.compare k k'); [done|done|]. cbn. f_equal. apply IH.
Qed.

Lemma insert_all_perm {V} (m acc : list (string * V)) :
  NoDup (acc ++ m).*1 -> sm_sorted acc ->
  let m' := foldl (fun l p => sm_insert p.1 p.2 l) acc m in m' ≡ₚ acc ++ m /\ sm_sorted m'.
Proof.
  revert acc. induction m as [|[k v] m IH]; intros acc Hn Hs; simpl; [by rewrite app_nil_r|].
  assert (Hk : k ∉ acc.*1).
  { rewrite fmap_app in Hn. apply NoDup_app in Hn as (_ & Hd & _). intros Hin. apply (Hd k Hin). left. }
  assert (Hp : sm_insert k v acc ++ m ≡ₚ acc ++ (k, v) :: m) by (rewrite sm_insert_perm by done; simpl; by rewrite Permutation_middle).
  destruct (IH (sm_insert k v acc)) as [H1 H2]; [by rewrite Hp|by apply sm_insert_sorted|].
  split; [by etrans|exact H2].
Qed.

(** Values that both sides have, with texts up to [limit] bytes. *)
Inductive plain (limit : Z) : js -> Prop :=
| plain_string s : no_nul s -> Z.of_nat (String.length s) <= limit -> plain limit (JString s)
| plain_number d : plain limit (JNumber d)
| plain_boolean b : plain limit (JBoolean b)
| plain_bytes data : Z.of_nat (length data) <= SECUREC_MEM_MAX_LEN -> plain limit (JTypedArray napi_uint8_array data).

(** The objects a bucket is made from: columns with plain values. *)
Definition plain_object (limit : Z) (m : list (string * js)) : Prop :=
  NoDup m.*1 /\ Z.of_nat (length m) < 2 ^ 32 /\ Forall (fun p => plain limit (JString p.1) /\ plain limit p.2) m.
(** Some of them may be null. *)
Definition column_object (limit : Z) (m : list (string * js)) : Prop :=
  NoDup m.*1 /\ Z.of_nat (length m) < 2 ^ 32 /\ Forall (fun p => plain limit (JString p.1) /\ (plain limit p.2 \/ p.2 = JNull)) m.

Section Buckets.
Context `{NapiLaws} `{SecureC}.

Lemma keys_of_ok m : Z.of_nat (length m) < 2 ^ 32 -> NapiValuesBucket.keys_of (JObject m) = (fun p => JString p.1) <$> m.
Proof. intros Hl. unfold NapiValuesBucket.keys_of. rewrite names_ok. apply array_of_ok. by rewrite length_fmap. Qed.

Definition value_of (v : js) : ValueObject :=
  match v with
  | JString s => ValueObject_string s
  | JNumber d => ValueObject_double d
  | JBoolean b => ValueObject_bool b
  | JTypedArray _ data => ValueObject_blob data
  | _ => ValueObject_null
  end.

Lemma plain_columns limit m : plain_object limit m -> column_object limit m.
Proof. intros (Hn & Hl & Hf). split; [done|]. split; [done|]. eapply Forall_impl; [exact Hf|]. intros p [? ?]; auto. Qed.

Lemma put_plain b k v :
  plain JSUtils.DEFAULT_BUF_SIZE v \/ v = JNull -> NapiValuesBucket.put_js b k v = ValuesBucket.insert_value b k (value_of v).
Proof.
  intros Hv. unfold NapiValuesBucket.put_js. rewrite typeof_ok. destruct Hv as [Hv| ->]; [|done]. destruct Hv; simpl.
  - by rewrite convert_string.
  - by rewrite double_ok.
  - by rewrite bool_ok.
  - by rewrite convert_blob.
Qed.

Lemma value_js limit v : plain limit v -> NapiValuesBucket.js_value (value_of v) = Ok (Some v).
Proof.
  intros []; unfold NapiValuesBucket.js_value; simpl.
  - unfold JSUtils.Convert2JSValue_string. by rewrite create_string_ok.
  - unfold JSUtils.Convert2JSValue_double. by rewrite create_double_ok.
  - unfold JSUtils.Convert2JSValue_bool. by rewrite get_boolean_ok.
  - by rewrite create_blob.
Qed.

Lemma set_properties_ok limit m : forall acc,
  NoDup (acc ++ m).*1 -> Forall (fun p => plain limit p.2) m ->
  NapiValuesBucket.set_properties (JObject acc) (prod_map id value_of <$> m) = Ok (Some (JObject (acc ++ m))).
Proof.
  induction m as [|[k v] m IH]; intros acc Hn Hf; simpl; [by rewrite app_nil_r|]. apply Forall_cons in Hf as [Hv Hf].
  rewrite (value_js limit) by done. simpl.
  assert (Hk : k ∉ acc.*1).
  { rewrite fmap_app in Hn. apply NoDup_app in Hn as (_ & Hd & _). intros Hin. apply (Hd k Hin). left. }
  rewrite set_property_ok by done. rewrite (app_assoc acc [(k, v)] m : acc ++ (k, v) :: m = _). apply IH; [|done].
  by rewrite <- app_assoc.
Qed.

(** Putting the properties of an object one by one into a map, with their values
    turned by [f], puts them in order. *)
Lemma put_all {B V} (entries : B -> list (string * V)) (put : B -> string -> js -> B) (text : js -> string) (f : js -> V) m b0 :
  NoDup m.*1 -> Z.of_nat (length m) < 2 ^ 32 -> entries b0 = [] ->
  (forall b k v, (k, v) ∈ m -> text (JString k) = k /\ entries (put b k v) = sm_insert k (f v) (entries b)) ->
  exists m', m' ≡ₚ m /\ sm_sorted m' /\
    entries (foldl (fun b key => put b (text key) (default JUndefined (napi_get_property (JObject m) key)))
      b0 (NapiValuesBucket.keys_of (JObject m))) = prod_map id f <$> m'.
Proof.
  intros Hn Hl Hb0 Hput. rewrite keys_of_ok by done.
  destruct (insert_all_perm m [] Hn) as [Hp Hs]; [constructor|]. eexists. split; [exact Hp|]. split; [exact Hs|].
  assert (Hgen : forall l acc, (forall p, p ∈ l -> p ∈ m) -> forall b, entries b = prod_map id f <$> acc ->
    entries (foldl (fun b key => put b (text key) (default JUndefined (napi_get_property (JObject m) key)))
      b ((fun p => JString p.1) <$> l)) = prod_map id f <$> foldl (fun l p => sm_insert p.1 p.2 l) acc l).
  { induction l as [|[k v] l IH]; intros acc Hin b Hb; [done|]. simpl. apply IH; [intros p Hp'; apply Hin; by right|].
    assert (Hm : (k, v) ∈ m) by (apply Hin; left). destruct (Hput b k v Hm) as [Hk Hv].
    rewrite (property_ok m k v), Hk by done. simpl. rewrite Hv, Hb. apply sm_insert_fmap. }
  by apply (Hgen m [] (fun p Hp => Hp)).
Qed.

Lemma native_bucket m :
  column_object JSUtils.DEFAULT_BUF_SIZE m ->
  exists m', m' ≡ₚ m /\ sm_sorted m' /\
    ValuesBucket.valuesMap (NapiValuesBucket.GetNativeObject (JObject m)) = prod_map id value_of <$> m'.
Proof.
  intros (Hn & Hl & Hf). apply put_all; [done|done|done|]. intros b k v Hm. rewrite Forall_forall in Hf.
  destruct (Hf _ Hm) as [Hk Hv]. simpl in *. inversion Hk; subst. by rewrite convert_string, put_plain.
Qed.

(** A null value has no JavaScript value: the conversion of its bucket throws and gives
    nothing, whatever the other columns are. *)
Lemma set_properties_null m : forall o k,
  (k, ValueObject_null) ∈ m -> Forall (fun p => exists w, NapiValuesBucket.js_value p.2 = Ok w) m ->
  NapiValuesBucket.set_properties o m = Ok None.
Proof.
  induction m as [|[k' v'] m IH]; intros o k; [by intros ?%not_elem_of_nil|]. simpl.
  intros Hin [(w & Hw) Hf]%Forall_cons. simpl in Hw. rewrite Hw. simpl. apply elem_of_cons in Hin as [[= <- <-]|Hin].
  - injection Hw as <-. by rewrite set_property_null.
  - destruct (napi_set_named_property o k' w); [|done]. by eapply IH.
Qed.
Lemma column_js limit v : plain limit v \/ v = JNull -> exists w, NapiValuesBucket.js_value (value_of v) = Ok w.
Proof. intros [Hv| ->]; [|by eexists]. eexists. by apply (value_js limit). Qed.

(** C40: An object of column values goes into a bucket and back. Let the names and the
    texts have at most 1024 bytes and no zero character, and every value be a text, a
    number, a truth value, an array of bytes or null. When no value is null, the object
    made from the bucket has the same properties with the same values, in the order of
    the names. When one is, no object is made. *)
Theorem bucket_object_roundtrip m :
  column_object JSUtils.DEFAULT_BUF_SIZE m ->
  (JNull ∉ m.*2 -> exists m', m' ≡ₚ m /\ sm_sorted m' /\
    NapiValuesBucket.NewInstance (NapiValuesBucket.GetNativeObject (JObject m)) = Ok (Some (JObject m'))) /\
  (JNull ∈ m.*2 -> NapiValuesBucket.NewInstance (NapiValuesBucket.GetNativeObject (JObject m)) = Ok None).
Proof.
  intros Hm. destruct (native_bucket m Hm) as (m' & Hp & Hs & E). destruct Hm as (Hn & _ & Hf).
  unfold NapiValuesBucket.NewInstance, ValuesBucket.GetAll. rewrite create_object_ok, E. split.
  - intros Hnull. exists m'. split; [done|]. split; [done|]. apply (set_properties_ok JSUtils.DEFAULT_BUF_SIZE m' []); [by rewrite Hp|].
    rewrite Hp, Forall_forall. rewrite Forall_forall in Hf. intros [k v] Hin. destruct (Hf _ Hin) as [_ [Hv|Hv]]; [done|]. simpl in Hv. subst v.
    destruct Hnull. by apply list_elem_of_fmap_2 with (f := snd) in Hin.
  - intros [[k v] [Hv Hin]]%list_elem_of_fmap_1. simpl in Hv. subst v. apply (set_properties_null _ _ k).
    + apply list_elem_of_fmap. exists (k, JNull). by rewrite Hp.
    + apply Forall_fmap. rewrite Hp. eapply Forall_impl; [exact Hf|]. intros p [_ Hv]. by eapply column_js.
Qed.

Theorem null_column_unconvertible m k :
  plain_object JSUtils.DEFAULT_BUF_SIZE m -> k ∉ m.*1 ->
  NapiValuesBucket.NewInstance (ValuesBucket.PutNull (NapiValuesBucket.GetNativeObject (JObject m)) k) = Ok None.
Proof.
  intros Hm Hk. destruct (native_bucket m (plain_columns _ m Hm)) as (m' & Hp & Hs & E). unfold NapiValuesBucket.NewInstance. rewrite create_object_ok.
  unfold ValuesBucket.PutNull, ValuesBucket.insert_value, ValuesBucket.GetAll. simpl. rewrite E.
  assert (Hk' : k ∉ (prod_map id value_of <$> m').*1).
  { rewrite <- list_fmap_compose. change (fst ∘ prod_map id value_of) with (fun x : string * js => x.1). by rewrite Hp. }
  eapply (set_properties_null _ _ k).
  - rewrite sm_insert_perm by done. left.
  - rewrite sm_insert_perm by done. constructor; [by eexists|]. apply Forall_fmap. rewrite Hp. destruct Hm as (_ & _ & Hf).
    eapply Forall_impl; [exact Hf|]. intros p [_ Hv]. simpl. eexists. by apply (value_js JSUtils.DEFAULT_BUF_SIZE).
Qed.

(** *** Buckets of DataShare: texts of any length *)
Definition share_value_of (v : js) : DataShareValueObject :=
  match v with
  | JString s => DataShareValueObject.new_string s
  | JNumber d => DataShareValueObject.new_double d
  | JBoolean b => DataShareValueObject.new_bool b
  | JTypedArray _ data => DataShareValueObject.new_blob data
  | _ => DataShareValueObject.new_null
  end.

Lemma share_bucket limit m :
  plain_object limit m ->
  exists m', m' ≡ₚ m /\ sm_sorted m' /\
    DataShareValuesBucket.valuesMap (NapiDataShareValuesBucket.GetValueBucketObject new_bucket (JObject m)) =
      prod_map id share_value_of <$> m'.
Proof.
  intros (Hn & Hl & Hf). apply put_all; [done|done|done|]. intros b k v Hm. rewrite Forall_forall in Hf.
  destruct (Hf _ Hm) as [Hk Hv]. simpl in *. inversion Hk; subst. rewrite unwrap_string by done. split; [by destruct k|].
  unfold NapiDataShareValuesBucket.SetValuesBucketObject. rewrite typeof_ok. destruct Hv as [s| | |]; simpl.
  - rewrite unwrap_string by done. by destruct s.
  - by rewrite double_ok.
  - by rewrite bool_ok.
  - unfold DataShareJSUtils.Convert2U8Vector. by rewrite convert_blob.
Qed.
End Buckets.

(** ** A runtime

    An instance of the interface that keeps the laws: numbers are encoded as IEEE
    doubles, texts are cut at the end of the buffer. *)
Definition double_of (n : Z) : Z :=
  if n =? 0 then 0
  else
    let a := Z.abs n in
    let e := Z.log2 a in
    (if n <? 0 then 2 ^ 63 else 0) + (e + 1023) * 2 ^ 52 + (a * 2 ^ (52 - e) - 2 ^ 52).
Definition integer_of (d : Z) : Z :=
  match decode_double d with
  | Finite negative m e =>
      let v := if 0 <=? e then m * 2 ^ e else m / 2 ^ (- e) in if negative then - v else v
  | _ => 0
  end.

Lemma decode_parts (s : bool) e m :
  1 <= e <= 2046 -> 0 <= m < 2 ^ 52 ->
  decode_double ((if s then 2 ^ 63 else 0) + e * 2 ^ 52 + m) = Finite s (m + 2 ^ 52) (e - 1075).
Proof.
  intros He Hm. unfold decode_double, decode_fp. set (b := (if s then 2 ^ 63 else 0) + e * 2 ^ 52 + m).
  assert (Hmod : Z.land b (2 ^ 52 - 1) = m).
  { change (2 ^ 52 - 1) with (Z.ones 52). rewrite Z.land_ones by done. unfold b. symmetry.
    apply (Z.mod_unique _ _ ((if s then 2 ^ 11 else 0) + e)); [lia|]. destruct s; lia. }
  assert (Hdiv : Z.shiftr b 52 = (if s then 2 ^ 11 else 0) + e).
  { rewrite Z.shiftr_div_pow2 by done. unfold b. symmetry. apply (Z.div_unique _ _ _ m); [lia|]. destruct s; lia. }
  assert (Hexp : Z.land (Z.shiftr b 52) (2 ^ 11 - 1) = e).
  { rewrite Hdiv. change (2 ^ 11 - 1) with (Z.ones 11). rewrite Z.land_ones by done. symmetry.
    apply (Z.mod_unique _ _ (if s then 1 else 0)); [lia|]. destruct s; lia. }
  assert (Hsign : Z.testbit b (52 + 11) = s).
  { rewrite Z.testbit_eqb by done. replace (b / 2 ^ (52 + 11)) with (if s then 1 else 0); [by destruct s|].
    unfold b. apply (Z.div_unique _ _ _ (e * 2 ^ 52 + m)); [lia|]. destruct s; lia. }
  rewrite Hsign, Hexp, Hmod. destruct (Z.eqb_spec e (2 ^ 11 - 1)); [lia|]. destruct (Z.eqb_spec e 0); [lia|].
  f_equal. lia.
Qed.

Lemma integer_of_double n : Z.abs n < 2 ^ 53 -> integer_of (double_of n) = n.
Proof.
  intros Hn. unfold double_of. destruct (Z.eqb_spec n 0) as [->|H0]; [done|]. set (a := Z.abs n). set (e := Z.log2 a).
  assert (Ha : 0 < a) by lia. pose proof (Z.log2_spec a Ha) as [Hlo Hhi]. fold e in Hlo, Hhi.
  assert (He : 0 <= e) by apply Z.log2_nonneg. assert (He' : e <= 52).
  { unfold e. assert (Z.log2 a < 53); [|lia]. apply Z.log2_lt_pow2; lia. }
  assert (Hp : 2 ^ 52 = 2 ^ e * 2 ^ (52 - e)) by (rewrite <- Z.pow_add_r by lia; f_equal; lia).
  assert (Hq : 0 < 2 ^ (52 - e)) by lia. rewrite Z.pow_succ_r in Hhi by lia. unfold integer_of.
  rewrite (decode_parts (n <? 0)) by nia. replace (a * 2 ^ (52 - e) - 2 ^ 52 + 2 ^ 52) with (a * 2 ^ (52 - e)) by lia.
  replace (e + 1023 - 1075) with (e - 52) by lia.
  assert (E : (if 0 <=? e - 52 then a * 2 ^ (52 - e) * 2 ^ (e - 52) else a * 2 ^ (52 - e) / 2 ^ (- (e - 52))) = a).
  { destruct (Z.leb_spec 0 (e - 52)).
    - replace (52 - e) with 0 by lia. replace (e - 52) with 0 by lia. lia.
    - replace (- (e - 52)) with (52 - e) by lia. apply Z.div_mul. lia. }
  cbv zeta. rewrite E. destruct (Z.ltb_spec n 0); lia.
Qed.

Definition node : Napi := {|
  napi_typeof := type_of;
  string_length v := match v with JString s => Some (Z.of_nat (String.length s)) | _ => None end;
  napi_get_value_string_utf8 v n := match v with JString s => Some (take (Z.to_nat (n - 1)) (bytes_of s)) | _ => None end;
  napi_get_value_double v := match v with JNumber d => Some d | _ => None end;
  napi_get_value_bool v := match v with JBoolean b => Some b | _ => None end;
  napi_get_value_int32 v := match v with JNumber d => Some (s32 (integer_of d)) | _ => None end;
  napi_get_value_int64 v := match v with JNumber d => Some (integer_of d) | _ => None end;
  napi_get_array_length v := match v with JArray l => Some (Z.of_nat (length l)) | _ => None end;
  napi_get_element v i := match v with JArray l => l !! Z.to_nat i | _ => None end;
  napi_is_typedarray v := Some (match v with JTypedArray _ _ => true | _ => false end);
  napi_get_typedarray_info v := match v with JTypedArray t data => Some (t, Some data) | _ => None end;
  napi_get_property_names v := match v with JObject m => Some (JArray ((fun p => JString p.1) <$> m)) | _ => None end;
  napi_get_property v k :=
    match v, k with JObject m, JString k => Some (default JUndefined (sm_find k m)) | _, _ => None end;
  napi_get_named_property v k := match v with JObject m => Some (default JUndefined (sm_find k m)) | _ => None end;
  napi_unwrap v := match v with JInstance p => Some p | _ => None end;
  napi_create_string_utf8 s := Some (JString s);
  napi_create_int32 n := Some (JNumber (double_of n));
  napi_create_int64 n := Some (JNumber (double_of n));
  napi_create_double d := Some (JNumber d);
  napi_get_boolean b := Some (JBoolean b);
  napi_create_array_with_length n := Some (JArray (replicate (Z.to_nat n) JUndefined));
  napi_set_element v i x := match v, x with JArray l, Some x => Some (JArray (<[Z.to_nat i := x]> l)) | _, _ => None end;
  napi_create_arraybuffer n := Some (JArrayBuffer (replicate (Z.to_nat n) zero));
  napi_create_typedarray t n b o :=
    match b with JArrayBuffer data => Some (JTypedArray t (take (Z.to_nat n) (drop (Z.to_nat o) data))) | _ => None end;
  napi_create_object := Some (JObject []);
  napi_set_named_property o k x :=
    match o, x with JObject m, Some x => Some (JObject (m ++ [(k, x)])) | _, _ => None end;
|}.

Lemma sm_find_NoDup {V} (m : list (string * V)) k v : NoDup m.*1 -> (k, v) ∈ m -> sm_find k m = Some v.
Proof.
  induction m as [|[k' v'] m IH]; [by intros _ ?%not_elem_of_nil|]. simpl. intros [Hk' Hn]%NoDup_cons Hin.
  apply elem_of_cons in Hin as [[= <- <-]|Hin]; [by rewrite decide_True|]. rewrite decide_False; [by apply IH|].
  intros ->. apply Hk'. apply list_elem_of_fmap. by exists (k', v).
Qed.

#[global] Instance node_laws : @NapiLaws node.
Proof.
  split; simpl; try done.
  - by intros [].
  - intros s n Hn. eexists. split; [done|]. split; [apply prefix_take|]. rewrite length_take. lia.
  - intros s n Hn. rewrite take_ge; [done|]. rewrite length_bytes_of. lia.
  - by intros [].
  - intros v Hv. destruct v; try done. by edestruct Hv.
  - intros l i v. by rewrite Nat2Z.id.
  - intros v Hv. destruct v; try done. by edestruct Hv.
  - intros t data. exists (Some data). by split; [|left].
  - intros m k v Hn Hin. by rewrite (sm_find_NoDup m k v).
  - intros v Hv. destruct v; try done. by edestruct Hv.
  - intros n Hn. eexists. split; [done|]. rewrite integer_of_double by lia. f_equal. apply s32_small. lia.
  - intros n Hn. eexists. split; [done|]. by rewrite integer_of_double by lia.
  - intros n. by rewrite Nat2Z.id.
  - intros l i v _. by rewrite Nat2Z.id.
  - intros n. by rewrite Nat2Z.id.
  - intros t data. rewrite drop_0, Nat2Z.id. by rewrite take_ge.
  - by intros [].
Qed.

Definition safe_copies : SecureC.
Proof.
  refine (@Build_SecureC (fun d c => if (0 <? d) then 0 else 1) (fun d c => if (0 <? d) then 0 else 1) _ _ _).
  - intros d c [Hd _] _. by destruct (Z.ltb_spec 0 d); [|lia].
  - done.
  - intros d c [Hd _] _. by destruct (Z.ltb_spec 0 d); [|lia].
Defined.

Definition demo_object : list (string * js) :=
  [("name", JString "Lisa"); ("age", JNumber (double_of 18)); ("married", JBoolean false);
   ("photo", JTypedArray napi_uint8_array ["255"; "216"]%char)].

Lemma demo_object_plain : plain_object JSUtils.DEFAULT_BUF_SIZE demo_object.
Proof.
  split; [|split; [done|]].
  - apply (bool_decide_unpack _). by vm_compute.
  - unfold demo_object. repeat constructor; try (by apply (bool_decide_unpack _); vm_compute); done.
Qed.

Lemma bucket_object_roundtrip_witness :
  (exists m', m' ≡ₚ demo_object /\ sm_sorted m' /\
    @NapiValuesBucket.NewInstance node safe_copies (@NapiValuesBucket.GetNativeObject node (JObject demo_object)) =
      Ok (Some (JObject m'))) /\
  @NapiValuesBucket.NewInstance node safe_copies (@NapiValuesBucket.GetNativeObject node (JObject [("note", JNull)])) = Ok None.
Proof.
  split.
  - apply (@bucket_object_roundtrip node node_laws safe_copies demo_object); [apply plain_columns, demo_object_plain|].
    simpl. repeat (rewrite not_elem_of_cons; split; [done|]). apply not_elem_of_nil.
  - apply (@bucket_object_roundtrip node node_laws safe_copies [("note", JNull)]); [|by apply list_elem_of_singleton].
    split; [apply NoDup_singleton|]. split; [done|]. apply Forall_cons. split; [|by apply Forall_nil].
    split; [constructor; [apply (bool_decide_unpack _); by vm_compute|done]|by right].
Defined.

(** The properties come back in the order of their names. *)
Example demo_object_back :
  @NapiValuesBucket.NewInstance node safe_copies (@NapiValuesBucket.GetNativeObject node (JObject demo_object)) =
    Ok (Some (JObject [("age", JNumber (double_of 18)); ("married", JBoolean false); ("name", JString "Lisa");
      ("photo", JTypedArray napi_uint8_array ["255"; "216"]%char)])).
Proof. vm_compute. reflexivity. Qed.

Lemma null_column_unconvertible_witness :
  @NapiValuesBucket.NewInstance node safe_copies
    (ValuesBucket.PutNull (@NapiValuesBucket.GetNativeObject node (JObject demo_object)) "note") = Ok None.
Proof.
  apply (@null_column_unconvertible node node_laws safe_copies); [exact demo_object_plain|].
  apply (bool_decide_unpack _). by vm_compute.
Defined.
