(* ===== verification/JsPredicates.v ===== *)
(** * Predicates of the bindings

    Models of frameworks/js/napi/rdb/src/napi_rdb_predicates.cpp,
    data_share/common/src/datashare_predicates_proxy.cpp,
    dataability/src/napi_data_ability_predicates.cpp and napi_predicates_utils.cpp. A
    JavaScript object wraps a native object of predicates; a method converts its
    arguments, calls the method of the native object and returns the JavaScript object,
    so that calls can be chained. *)
From S2P Require Import Prelude Strings StdMap Memory AbsPredicates AbsPredicatesSpec RdbPredicates Parcel DataSharePredicatesObject DataSharePredicates RdbUtils RdbUtilsSpec DataAbility SharedBlock Napi.
From Stdlib Require Import Ascii.

#[local] Open Scope list_scope.

Module AP := AbsPredicates.
Module RP := RdbPredicates.
Module SP := DataSharePredicates.
Module DA := DataAbility.DataAbilityPredicates.

(** ** napi_rdb_predicates.cpp *)
Module RdbPredicatesProxy.
Section Proxy.
Context `{Napi} `{DistributedPredicates}.

Abbreviation method := (method RP.AbsRdbPredicates).
Abbreviation text := (fun v => JSUtils.Convert2String v true).
Abbreviation any := JSUtils.ConvertAny2String.
Abbreviation texts := JSUtils.Convert2StrVector.
(** The native method on the predicates behind [this]. *)
Definition GetNativePredicates (c : call) (f : RP.AbsRdbPredicates -> outcome RP.AbsRdbPredicates) : method := change_native c f.

(** [new]; called as a function, it makes a new instance itself. [p] is the address of
    the new proxy. *)
Definition New (p : Z) (c : call) : method :=
  NAPI_ASSERT (bool_decide (napi_typeof (arg c 0) = napi_string)) "Table name should be a string."
    (wrapped p (RP.new_RdbPredicates (text (arg c 0)))).

(** An instance around predicates that exist. *)
Definition NewInstance (p : Z) (value : RP.AbsRdbPredicates) : method := fun h =>
  match JSUtils.Convert2JSValue_string (RP.GetTableName value) with
  | None => Undefined
  | Some name =>
      r <-- New p (mkCall JUndefined [name]) h;
      match r with
      | (Replies v, h) => Ok (Replies v, <[p := value]> h)
      | (Raises _, h) => Ok (Replies None, h)
      end
  end.

Definition EqualTo (c : call) : method :=
  NAPI_ASSERT (argc c >? 0) "RdbPredicatesProxy::EqualTo Invalid argvs!"
    (let field := text (arg c 0) in
     let value := any (arg c 1) in
     GetNativePredicates c (fun p => Ok (RP.EqualTo p field value))).
Definition NotEqualTo (c : call) : method :=
  NAPI_ASSERT (argc c >? 0) "RdbPredicatesProxy::NotEqualTo Invalid argvs!"
    (let field := text (arg c 0) in
     let value := any (arg c 1) in
     GetNativePredicates c (fun p => Ok (RP.NotEqualTo p field value))).
Definition BeginWrap (c : call) : method := GetNativePredicates c (fun p => Ok (inherited AP.BeginWrap p)).
Definition EndWrap (c : call) : method := GetNativePredicates c (fun p => Ok (inherited AP.EndWrap p)).
Definition Or (c : call) : method := GetNativePredicates c (fun p => Ok (RP.Or p)).
Definition And (c : call) : method := GetNativePredicates c (fun p => Ok (RP.And p)).
Definition Contains (c : call) : method :=
  NAPI_ASSERT (argc c >? 0) "RdbPredicatesProxy::Contains Invalid argvs!"
    (let field := text (arg c 0) in
     let value := any (arg c 1) in
     GetNativePredicates c (fun p => Ok (inherited (fun b => AP.Contains b field value) p))).
Definition BeginsWith (c : call) : method :=
  NAPI_ASSERT (argc c >? 0) "RdbPredicatesProxy::BeginsWith Invalid argvs!"
    (let field := text (arg c 0) in
     let value := any (arg c 1) in
     GetNativePredicates c (fun p => Ok (inherited (fun b => AP.BeginsWith b field value) p))).
Definition EndsWith (c : call) : method :=
  NAPI_ASSERT (argc c >? 0) "RdbPredicatesProxy::EndsWith Invalid argvs!"
    (let field := text (arg c 0) in
     let value := any (arg c 1) in
     GetNativePredicates c (fun p => Ok (inherited (fun b => AP.EndsWith b field value) p))).
Definition IsNull (c : call) : method :=
  NAPI_ASSERT (argc c >? 0) "RdbPredicatesProxy::IsNull Invalid argvs!"
    (let field := text (arg c 0) in GetNativePredicates c (fun p => Ok (inherited (fun b => AP.IsNull b field) p))).
Definition IsNotNull (c : call) : method :=
  NAPI_ASSERT (argc c >? 0) "RdbPredicatesProxy::IsNotNull Invalid argvs!"
    (let field := text (arg c 0) in GetNativePredicates c (fun p => Ok (inherited (fun b => AP.IsNotNull b field) p))).
Definition Like (c : call) : method :=
  NAPI_ASSERT (argc c >? 0) "RdbPredicatesProxy::Like Invalid argvs!"
    (let field := text (arg c 0) in
     let value := any (arg c 1) in
     GetNativePredicates c (fun p => Ok (inherited (fun b => AP.Like b field value) p))).
Definition Glob (c : call) : method :=
  NAPI_ASSERT (argc c >? 0) "RdbPredicatesProxy::Glob Invalid argvs!"
    (let field := text (arg c 0) in
     let value := any (arg c 1) in
     GetNativePredicates c (fun p => Ok (inherited (fun b => AP.Glob b field value) p))).
Definition Between (c : call) : method :=
  NAPI_ASSERT (argc c >? 0) "RdbPredicatesProxy::Between Invalid argvs!"
    (let field := text (arg c 0) in
     let low := any (arg c 1) in
     let high := any (arg c 2) in
     GetNativePredicates c (fun p => Ok (inherited (fun b => AP.Between b field low high) p))).
Definition NotBetween (c : call) : method :=
  NAPI_ASSERT (argc c >? 0) "RdbPredicatesProxy::NotBetween Invalid argvs!"
    (let field := text (arg c 0) in
     let low := any (arg c 1) in
     let high := any (arg c 2) in
     GetNativePredicates c (fun p => Ok (inherited (fun b => AP.NotBetween b field low high) p))).
Definition GreaterThan (c : call) : method :=
  NAPI_ASSERT (argc c >? 0) "RdbPredicatesProxy::GreaterThan Invalid argvs!"
    (let field := text (arg c 0) in
     let value := any (arg c 1) in
     GetNativePredicates c (fun p => Ok (inherited (fun b => AP.GreaterThan b field value) p))).
Definition LessThan (c : call) : method :=
  NAPI_ASSERT (argc c >? 0) "RdbPredicatesProxy::LessThan Invalid argvs!"
    (let field := text (arg c 0) in
     let value := any (arg c 1) in
     GetNativePredicates c (fun p => Ok (inherited (fun b => AP.LessThan b field value) p))).
Definition GreaterThanOrEqualTo (c : call) : method :=
  NAPI_ASSERT (argc c >? 0) "RdbPredicatesProxy::GreaterThanOrEqualTo Invalid argvs!"
    (let field := text (arg c 0) in
     let value := any (arg c 1) in
     GetNativePredicates c (fun p => Ok (inherited (fun b => AP.GreaterThanOrEqualTo b field value) p))).
Definition LessThanOrEqualTo (c : call) : method :=
  NAPI_ASSERT (argc c >? 0) "RdbPredicatesProxy::LessThanOrEqualTo Invalid argvs!"
    (let field := text (arg c 0) in
     let value := any (arg c 1) in
     GetNativePredicates c (fun p => Ok (inherited (fun b => AP.LessThanOrEqualTo b field value) p))).
Definition OrderByAsc (c : call) : method :=
  NAPI_ASSERT (argc c >? 0) "RdbPredicatesProxy::OrderByAsc Invalid argvs!"
    (let field := text (arg c 0) in GetNativePredicates c (fun p => Ok (RP.OrderByAsc p field))).
Definition OrderByDesc (c : call) : method :=
  NAPI_ASSERT (argc c >? 0) "RdbPredicatesProxy::OrderByDesc Invalid argvs!"
    (let field := text (arg c 0) in GetNativePredicates c (fun p => Ok (RP.OrderByDesc p field))).
Definition Distinct (c : call) : method := GetNativePredicates c (fun p => Ok (inherited AP.Distinct p)).
Definition Limit (c : call) : method :=
  NAPI_ASSERT (argc c >? 0) "RdbPredicatesProxy::Limit Invalid argvs!"
    (let limit := default 0 (napi_get_value_int32 (arg c 0)) in GetNativePredicates c (fun p => Ok (inherited (fun b => AP.Limit b limit) p))).
Definition Offset (c : call) : method :=
  NAPI_ASSERT (argc c >? 0) "RdbPredicatesProxy::Offset Invalid argvs!"
    (let offset := default 0 (napi_get_value_int32 (arg c 0)) in GetNativePredicates c (fun p => Ok (inherited (fun b => AP.Offset b offset) p))).
Definition GroupBy (c : call) : method :=
  NAPI_ASSERT (argc c >? 0) "RdbPredicatesProxy::GroupBy Invalid argvs!"
    (let fields := texts (arg c 0) in GetNativePredicates c (fun p => Ok (inherited (fun b => AP.GroupBy b fields) p))).
Definition IndexedBy (c : call) : method :=
  NAPI_ASSERT (argc c >? 0) "RdbPredicatesProxy::IndexedBy Invalid argvs!"
    (let indexName := text (arg c 0) in GetNativePredicates c (fun p => Ok (inherited (fun b => AP.IndexedBy b indexName) p))).
Definition In (c : call) : method :=
  NAPI_ASSERT (argc c >? 0) "RdbPredicatesProxy::In Invalid argvs!"
    (let field := text (arg c 0) in
     let values := texts (arg c 1) in
     GetNativePredicates c (fun p => Ok (inherited (fun b => AP.In b field values) p))).
Definition NotIn (c : call) : method :=
  NAPI_ASSERT (argc c >? 0) "RdbPredicatesProxy::NotIn Invalid argvs!"
    (let field := text (arg c 0) in
     let values := texts (arg c 1) in
     GetNativePredicates c (fun p => Ok (inherited (fun b => AP.NotIn b field values) p))).
Definition Using (c : call) : method :=
  NAPI_ASSERT (argc c =? 1) "RdbPredicatesProxy::Using Invalid argvs!"
    (let fields := texts (arg c 0) in GetNativePredicates c (fun p => Ok (RP.Using p fields))).
Definition LeftOuterJoin (c : call) : method :=
  NAPI_ASSERT (argc c =? 1) "RdbPredicatesProxy::LeftOuterJoin Invalid argvs!"
    (let tablename := text (arg c 0) in GetNativePredicates c (fun p => Ok (RP.LeftOuterJoin p tablename))).
Definition InnerJoin (c : call) : method :=
  NAPI_ASSERT (argc c =? 1) "RdbPredicatesProxy::InnerJoin Invalid argvs!"
    (let tablename := text (arg c 0) in GetNativePredicates c (fun p => Ok (RP.InnerJoin p tablename))).
Definition On (c : call) : method :=
  NAPI_ASSERT (argc c =? 1) "RdbPredicatesProxy::On Invalid argvs!"
    (let clauses := texts (arg c 0) in GetNativePredicates c (fun p => Ok (RP.On p clauses))).
Definition Clear (c : call) : method := GetNativePredicates c (fun p => Ok (RP.Clear p)).
Definition CrossJoin (c : call) : method :=
  NAPI_ASSERT (argc c =? 1) "RdbPredicatesProxy::CrossJoin Invalid argvs!"
    (let tablename := text (arg c 0) in GetNativePredicates c (fun p => Ok (RP.CrossJoin p tablename))).
Definition GetJoinCount (c : call) : method := read_native c (fun p => JSUtils.Convert2JSValue_int32 (RP.GetJoinCount p)).
Definition SetJoinCount (c : call) : method :=
  NAPI_ASSERT (argc c =? 1) "RdbPredicatesProxy::SetJoinCount Invalid argvs!"
    (let joinCount := default 0 (napi_get_value_int32 (arg c 0)) in GetNativePredicates c (fun p => Ok (RP.SetJoinCount p joinCount))).
Definition GetJoinTypes (c : call) : method := read_native c (fun p => JSUtils.Convert2JSValue_strings (RP.GetJoinTypes p)).
Definition GetJoinTableNames (c : call) : method := read_native c (fun p => JSUtils.Convert2JSValue_strings (RP.GetJoinTableNames p)).
Definition GetJoinConditions (c : call) : method := read_native c (fun p => JSUtils.Convert2JSValue_strings (RP.GetJoinConditions p)).
Definition SetJoinConditions (c : call) : method :=
  NAPI_ASSERT (argc c =? 1) "RdbPredicatesProxy::SetJoinConditions Invalid argvs!"
    (let joinConditions := texts (arg c 0) in GetNativePredicates c (fun p => Ok (RP.SetJoinConditions p joinConditions))).
Definition SetJoinTableNames (c : call) : method :=
  NAPI_ASSERT (argc c =? 1) "RdbPredicatesProxy::SetJoinTableNames Invalid argvs!"
    (let joinNames := texts (arg c 0) in GetNativePredicates c (fun p => Ok (RP.SetJoinTableNames p joinNames))).
Definition SetJoinTypes (c : call) : method :=
  NAPI_ASSERT (argc c =? 1) "RdbPredicatesProxy::SetJoinTypes Invalid argvs!"
    (let joinTypes := texts (arg c 0) in GetNativePredicates c (fun p => Ok (RP.SetJoinTypes p joinTypes))).
Definition InDevices (c : call) : method :=
  NAPI_ASSERT (argc c =? 1) "RdbPredicatesProxy::InDevices Invalid args!"
    (let devices := texts (arg c 0) in GetNativePredicates c (fun p => Ok (RP.InDevices p devices))).
Definition InAllDevices (c : call) : method := GetNativePredicates c (fun p => Ok (RP.InAllDevices p)).

Definition functions : list (string * (call -> method)) :=
  [("equalTo", EqualTo); ("notEqualTo", NotEqualTo); ("beginWrap", BeginWrap);
   ("endWrap", EndWrap); ("or", Or); ("and", And); ("contains", Contains);
   ("beginsWith", BeginsWith); ("endsWith", EndsWith); ("isNull", IsNull);
   ("isNotNull", IsNotNull); ("like", Like); ("glob", Glob); ("between", Between);
   ("notBetween", NotBetween); ("greaterThan", GreaterThan); ("lessThan", LessThan);
   ("greaterThanOrEqualTo", GreaterThanOrEqualTo); ("lessThanOrEqualTo", LessThanOrEqualTo);
   ("orderByAsc", OrderByAsc); ("orderByDesc", OrderByDesc); ("distinct", Distinct);
   ("limitAs", Limit); ("offsetAs", Offset); ("groupBy", GroupBy); ("indexedBy", IndexedBy);
   ("in", In); ("notIn", NotIn); ("using", Using); ("leftOuterJoin", LeftOuterJoin);
   ("innerJoin", InnerJoin); ("on", On); ("clear", Clear); ("crossJoin", CrossJoin);
   ("inDevices", InDevices); ("inAllDevices", InAllDevices)].
Definition getters : list (string * (call -> method)) :=
  [("joinCount", GetJoinCount); ("joinConditions", GetJoinConditions);
   ("joinNames", GetJoinTableNames); ("joinTypes", GetJoinTypes)].
Definition setters : list (string * (call -> method)) :=
  [("joinCount", SetJoinCount); ("joinConditions", SetJoinConditions);
   ("joinNames", SetJoinTableNames); ("joinTypes", SetJoinTypes)].
End Proxy.
End RdbPredicatesProxy.

(** ** datashare_predicates_proxy.cpp *)
Module DataSharePredicatesProxy.
Section Proxy.
Context `{Napi}.

Abbreviation method := (method DataSharePredicates).
Abbreviation text := DataShareJSUtils.short_text.
Abbreviation any := DataShareJSUtils.ConvertAny2String.
Abbreviation texts := (fun v => DataShareJSUtils.ConvertAny2String <$> JSUtils.array_of v).
Definition GetNativePredicates (c : call) (f : DataSharePredicates -> outcome DataSharePredicates) : method := change_native c f.

(** The new object; [mode] is what its memory holds. *)
Definition New (p : Z) (mode : SettingMode) (c : call) : method := wrapped p (SP.new_DataSharePredicates mode).
Definition NewInstance (p : Z) (mode : SettingMode) (value : DataSharePredicates) : method := fun h =>
  r <-- New p mode (mkCall JUndefined []) h; Ok (r.1, <[p := value]> r.2).
(** The predicates in an argument; none for a null pointer. *)
Definition GetNativePredicatesObject (arg : option js) (h : gmap Z DataSharePredicates) : outcome (option DataSharePredicates) :=
  match arg with
  | None => Ok None
  | Some v => pn <-- native_object v h; Ok (Some pn.2)
  end.

Definition EqualTo (c : call) : method :=
  NAPI_ASSERT (argc c >? 0) "DataSharePredicatesProxy::EqualTo Invalid argvs!"
    (let field := text (arg c 0) in
     match napi_typeof (arg c 1) with
     | napi_number =>
         let value := default 0 (napi_get_value_double (arg c 1)) in
         GetNativePredicates c (fun d => Ok (SP.EqualTo_double d field value))
     | napi_boolean =>
         let value := default false (napi_get_value_bool (arg c 1)) in
         GetNativePredicates c (fun d => Ok (SP.EqualTo_bool d field value))
     | napi_string =>
         let value := text (arg c 1) in
         GetNativePredicates c (fun d => Ok (SP.EqualTo_string d field value))
     | _ => unchanged c
     end).
Definition NotEqualTo (c : call) : method :=
  NAPI_ASSERT (argc c >? 0) "DataSharePredicatesProxy::NotEqualTo Invalid argvs!"
    (let field := text (arg c 0) in
     match napi_typeof (arg c 1) with
     | napi_number =>
         let value := default 0 (napi_get_value_double (arg c 1)) in
         GetNativePredicates c (fun d => Ok (SP.NotEqualTo_double d field value))
     | napi_boolean =>
         let value := default false (napi_get_value_bool (arg c 1)) in
         GetNativePredicates c (fun d => Ok (SP.NotEqualTo_bool d field value))
     | napi_string =>
         let value := text (arg c 1) in
         GetNativePredicates c (fun d => Ok (SP.NotEqualTo_string d field value))
     | _ => unchanged c
     end).
Definition BeginWrap (c : call) : method := GetNativePredicates c (fun p => Ok (SP.BeginWrap p)).
Definition EndWrap (c : call) : method := GetNativePredicates c (fun p => Ok (SP.EndWrap p)).
Definition Or (c : call) : method := GetNativePredicates c (fun p => Ok (SP.Or p)).
Definition And (c : call) : method := GetNativePredicates c (fun p => Ok (SP.And p)).
Definition Contains (c : call) : method :=
  NAPI_ASSERT (argc c >? 0) "DataSharePredicatesProxy::Contains Invalid argvs!"
    (let field := text (arg c 0) in
     let value := any (arg c 1) in
     GetNativePredicates c (fun p => Ok (SP.Contains p field value))).
Definition BeginsWith (c : call) : method :=
  NAPI_ASSERT (argc c >? 0) "DataSharePredicatesProxy::BeginsWith Invalid argvs!"
    (let field := text (arg c 0) in
     let value := any (arg c 1) in
     GetNativePredicates c (fun p => Ok (SP.BeginsWith p field value))).
Definition EndsWith (c : call) : method :=
  NAPI_ASSERT (argc c >? 0) "DataSharePredicatesProxy::EndsWith Invalid argvs!"
    (let field := text (arg c 0) in
     let value := any (arg c 1) in
     GetNativePredicates c (fun p => Ok (SP.EndsWith p field value))).
Definition IsNull (c : call) : method :=
  NAPI_ASSERT (argc c >? 0) "DataSharePredicatesProxy::IsNull Invalid argvs!"
    (let field := text (arg c 0) in GetNativePredicates c (fun p => Ok (SP.IsNull p field))).
Definition IsNotNull (c : call) : method :=
  NAPI_ASSERT (argc c >? 0) "DataSharePredicatesProxy::IsNotNull Invalid argvs!"
    (let field := text (arg c 0) in GetNativePredicates c (fun p => Ok (SP.IsNotNull p field))).
Definition Like (c : call) : method :=
  NAPI_ASSERT (argc c >? 0) "DataSharePredicatesProxy::Like Invalid argvs!"
    (let field := text (arg c 0) in
     let value := any (arg c 1) in
     GetNativePredicates c (fun p => Ok (SP.Like p field value))).
Definition Unlike (c : call) : method :=
  NAPI_ASSERT (argc c >? 0) "DataSharePredicatesProxy::Unlike Invalid argvs!"
    (let field := text (arg c 0) in
     let value := any (arg c 1) in
     GetNativePredicates c (fun p => Ok (SP.Unlike p field value))).
Definition Glob (c : call) : method :=
  NAPI_ASSERT (argc c >? 0) "DataSharePredicatesProxy::Glob Invalid argvs!"
    (let field := text (arg c 0) in
     let value := any (arg c 1) in
     GetNativePredicates c (fun p => Ok (SP.Glob p field value))).
Definition Between (c : call) : method :=
  NAPI_ASSERT (argc c >? 0) "DataSharePredicatesProxy::Between Invalid argvs!"
    (let field := text (arg c 0) in
     let low := any (arg c 1) in
     let high := any (arg c 2) in
     GetNativePredicates c (fun p => Ok (SP.Between p field low high))).
Definition NotBetween (c : call) : method :=
  NAPI_ASSERT (argc c >? 0) "DataSharePredicatesProxy::NotBetween Invalid argvs!"
    (let field := text (arg c 0) in
     let low := any (arg c 1) in
     let high := any (arg c 2) in
     GetNativePredicates c (fun p => Ok (SP.NotBetween p field low high))).
Definition GreaterThan (c : call) : method :=
  NAPI_ASSERT (argc c >? 0) "DataSharePredicatesProxy::GreaterThan Invalid argvs!"
    (let field := text (arg c 0) in
     match napi_typeof (arg c 1) with
     | napi_number =>
         let value := default 0 (napi_get_value_double (arg c 1)) in
         GetNativePredicates c (fun d => Ok (SP.GreaterThan_double d field value))
     | napi_string =>
         let value := text (arg c 1) in
         GetNativePredicates c (fun d => Ok (SP.GreaterThan_string d field value))
     | _ => unchanged c
     end).
Definition LessThan (c : call) : method :=
  NAPI_ASSERT (argc c >? 0) "DataSharePredicatesProxy::LessThan Invalid argvs!"
    (let field := text (arg c 0) in
     match napi_typeof (arg c 1) with
     | napi_number =>
         let value := default 0 (napi_get_value_double (arg c 1)) in
         GetNativePredicates c (fun d => Ok (SP.LessThan_double d field value))
     | napi_string =>
         let value := text (arg c 1) in
         GetNativePredicates c (fun d => Ok (SP.LessThan_string d field value))
     | _ => unchanged c
     end).
Definition GreaterThanOrEqualTo (c : call) : method :=
  NAPI_ASSERT (argc c >? 0) "DataSharePredicatesProxy::GreaterThanOrEqualTo Invalid argvs!"
    (let field := text (arg c 0) in
     match napi_typeof (arg c 1) with
     | napi_number =>
         let value := default 0 (napi_get_value_double (arg c 1)) in
         GetNativePredicates c (fun d => Ok (SP.GreaterThanOrEqualTo_double d field value))
     | napi_string =>
         let value := text (arg c 1) in
         GetNativePredicates c (fun d => Ok (SP.GreaterThanOrEqualTo_string d field value))
     | _ => unchanged c
     end).
Definition LessThanOrEqualTo (c : call) : method :=
  NAPI_ASSERT (argc c >? 0) "DataSharePredicatesProxy::LessThanOrEqualTo Invalid argvs!"
    (let field := text (arg c 0) in
     match napi_typeof (arg c 1) with
     | napi_number =>
         let value := default 0 (napi_get_value_double (arg c 1)) in
         GetNativePredicates c (fun d => Ok (SP.LessThanOrEqualTo_double d field value))
     | napi_string =>
         let value := text (arg c 1) in
         GetNativePredicates c (fun d => Ok (SP.LessThanOrEqualTo_string d field value))
     | _ => unchanged c
     end).
Definition OrderByAsc (c : call) : method :=
  NAPI_ASSERT (argc c >? 0) "DataSharePredicatesProxy::OrderByAsc Invalid argvs!"
    (let field := text (arg c 0) in GetNativePredicates c (fun p => Ok (SP.OrderByAsc p field))).
Definition OrderByDesc (c : call) : method :=
  NAPI_ASSERT (argc c >? 0) "DataSharePredicatesProxy::OrderByDesc Invalid argvs!"
    (let field := text (arg c 0) in GetNativePredicates c (fun p => Ok (SP.OrderByDesc p field))).
Definition Distinct (c : call) : method := GetNativePredicates c (fun p => Ok (SP.Distinct p)).
Definition Limit (c : call) : method :=
  NAPI_ASSERT (argc c >? 0) "DataSharePredicatesProxy::Limit Invalid argvs!"
    (let number := default 0 (napi_get_value_int32 (arg c 0)) in
     let offset := default 0 (napi_get_value_int32 (arg c 1)) in
     GetNativePredicates c (fun p => Ok (SP.Limit p number offset))).
Definition GroupBy (c : call) : method :=
  NAPI_ASSERT (argc c >? 0) "DataSharePredicatesProxy::GroupBy Invalid argvs!"
    (let fields := texts (arg c 0) in GetNativePredicates c (fun p => SP.GroupBy p fields)).
Definition IndexedBy (c : call) : method :=
  NAPI_ASSERT (argc c >? 0) "DataSharePredicatesProxy::IndexedBy Invalid argvs!"
    (let indexName := text (arg c 0) in GetNativePredicates c (fun p => Ok (SP.IndexedBy p indexName))).
Definition In (c : call) : method :=
  NAPI_ASSERT (argc c >? 0) "DataSharePredicatesProxy::In Invalid argvs!"
    (let field := text (arg c 0) in
     let values := texts (arg c 1) in
     GetNativePredicates c (fun p => Ok (SP.In_string p field values))).
Definition NotIn (c : call) : method :=
  NAPI_ASSERT (argc c >? 0) "DataSharePredicatesProxy::NotIn Invalid argvs!"
    (let field := text (arg c 0) in
     let values := texts (arg c 1) in
     GetNativePredicates c (fun p => Ok (SP.NotIn_string p field values))).
Definition PrefixKey (c : call) : method :=
  NAPI_ASSERT (argc c >? 0) "DataSharePredicatesProxy::PrefixKey Invalid argvs!"
    (let prefix := text (arg c 0) in GetNativePredicates c (fun p => Ok (SP.KeyPrefix p prefix))).
Definition InKeys (c : call) : method :=
  NAPI_ASSERT (argc c >? 0) "DataSharePredicatesProxy::InKeys Invalid argvs!"
    (let keys := texts (arg c 0) in GetNativePredicates c (fun p => SP.InKeys p keys)).

Definition functions : list (string * (call -> method)) :=
  [("equalTo", EqualTo); ("notEqualTo", NotEqualTo); ("beginWrap", BeginWrap);
   ("endWrap", EndWrap); ("or", Or); ("and", And); ("contains", Contains);
   ("beginsWith", BeginsWith); ("endsWith", EndsWith); ("isNull", IsNull);
   ("isNotNull", IsNotNull); ("like", Like); ("unlike", Unlike); ("glob", Glob);
   ("between", Between); ("notBetween", NotBetween); ("greaterThan", GreaterThan);
   ("lessThan", LessThan); ("greaterThanOrEqualTo", GreaterThanOrEqualTo);
   ("lessThanOrEqualTo", LessThanOrEqualTo); ("orderByAsc", OrderByAsc);
   ("orderByDesc", OrderByDesc); ("distinct", Distinct); ("limit", Limit); ("groupBy", GroupBy);
   ("indexedBy", IndexedBy); ("in", In); ("notIn", NotIn); ("prefixKey", PrefixKey);
   ("inKeys", InKeys)].
End Proxy.
End DataSharePredicatesProxy.

(** ** napi_data_ability_predicates.cpp *)
Module DataAbilityPredicatesProxy.
Section Proxy.
Context `{Napi}.
(** What reading an indeterminate flag gives. *)
Context (undef : bool).

Abbreviation method := (method DA.DataAbilityPredicates).
Abbreviation text := (fun v => JSUtils.Convert2String v true).
Abbreviation any := JSUtils.ConvertAny2String.
Abbreviation texts := JSUtils.Convert2StrVector.
Definition GetNativePredicates (c : call) (f : DA.DataAbilityPredicates -> outcome DA.DataAbilityPredicates) : method :=
  change_native c f.

Definition on_base (f : AP.AbsPredicates -> AP.AbsPredicates) (d : DA.DataAbilityPredicates) : DA.DataAbilityPredicates :=
  DA.mkDap (f (DA.base d)) (DA.isRawSelection d) (DA.judgeSource d).

Definition New (p : Z) (c : call) : method := wrapped p DA.new_predicates.
Definition NewInstance (p : Z) (value : DA.DataAbilityPredicates) : method := fun h =>
  r <-- New p (mkCall JUndefined []) h; Ok (r.1, <[p := value]> r.2).

Definition EqualTo (c : call) : method :=
  NAPI_ASSERT (argc c >? 0) "DataAbilityPredicatesProxy::EqualTo Invalid argvs!"
    (let field := text (arg c 0) in
     let value := any (arg c 1) in
     GetNativePredicates c (fun p => Ok (on_base (fun b => AP.EqualTo b field value) p))).
Definition NotEqualTo (c : call) : method :=
  NAPI_ASSERT (argc c >? 0) "DataAbilityPredicatesProxy::NotEqualTo Invalid argvs!"
    (let field := text (arg c 0) in
     let value := any (arg c 1) in
     GetNativePredicates c (fun p => Ok (on_base (fun b => AP.NotEqualTo b field value) p))).
Definition BeginWrap (c : call) : method := GetNativePredicates c (fun p => Ok (on_base AP.BeginWrap p)).
Definition EndWrap (c : call) : method := GetNativePredicates c (fun p => Ok (on_base AP.EndWrap p)).
Definition Or (c : call) : method := GetNativePredicates c (fun p => Ok (on_base AP.Or p)).
Definition And (c : call) : method := GetNativePredicates c (fun p => Ok (on_base AP.And p)).
Definition Contains (c : call) : method :=
  NAPI_ASSERT (argc c >? 0) "DataAbilityPredicatesProxy::Contains Invalid argvs!"
    (let field := text (arg c 0) in
     let value := any (arg c 1) in
     GetNativePredicates c (fun p => Ok (on_base (fun b => AP.Contains b field value) p))).
Definition BeginsWith (c : call) : method :=
  NAPI_ASSERT (argc c >? 0) "DataAbilityPredicatesProxy::BeginsWith Invalid argvs!"
    (let field := text (arg c 0) in
     let value := any (arg c 1) in
     GetNativePredicates c (fun p => Ok (on_base (fun b => AP.BeginsWith b field value) p))).
Definition EndsWith (c : call) : method :=
  NAPI_ASSERT (argc c >? 0) "DataAbilityPredicatesProxy::EndsWith Invalid argvs!"
    (let field := text (arg c 0) in
     let value := any (arg c 1) in
     GetNativePredicates c (fun p => Ok (on_base (fun b => AP.EndsWith b field value) p))).
Definition IsNull (c : call) : method :=
  NAPI_ASSERT (argc c >? 0) "DataAbilityPredicatesProxy::IsNull Invalid argvs!"
    (let field := text (arg c 0) in GetNativePredicates c (fun p => Ok (on_base (fun b => AP.IsNull b field) p))).
Definition IsNotNull (c : call) : method :=
  NAPI_ASSERT (argc c >? 0) "DataAbilityPredicatesProxy::IsNotNull Invalid argvs!"
    (let field := text (arg c 0) in GetNativePredicates c (fun p => Ok (on_base (fun b => AP.IsNotNull b field) p))).
Definition Like (c : call) : method :=
  NAPI_ASSERT (argc c >? 0) "DataAbilityPredicatesProxy::Like Invalid argvs!"
    (let field := text (arg c 0) in
     let value := any (arg c 1) in
     GetNativePredicates c (fun p => Ok (on_base (fun b => AP.Like b field value) p))).
Definition Glob (c : call) : method :=
  NAPI_ASSERT (argc c >? 0) "DataAbilityPredicatesProxy::Glob Invalid argvs!"
    (let field := text (arg c 0) in
     let value := any (arg c 1) in
     GetNativePredicates c (fun p => Ok (on_base (fun b => AP.Glob b field value) p))).
Definition Between (c : call) : method :=
  NAPI_ASSERT (argc c >? 0) "DataAbilityPredicatesProxy::Between Invalid argvs!"
    (let field := text (arg c 0) in
     let low := any (arg c 1) in
     let high := any (arg c 2) in
     GetNativePredicates c (fun p => Ok (on_base (fun b => AP.Between b field low high) p))).
Definition NotBetween (c : call) : method :=
  NAPI_ASSERT (argc c >? 0) "DataAbilityPredicatesProxy::NotBetween Invalid argvs!"
    (let field := text (arg c 0) in
     let low := any (arg c 1) in
     let high := any (arg c 2) in
     GetNativePredicates c (fun p => Ok (on_base (fun b => AP.NotBetween b field low high) p))).
Definition GreaterThan (c : call) : method :=
  NAPI_ASSERT (argc c >? 0) "DataAbilityPredicatesProxy::GreaterThan Invalid argvs!"
    (let field := text (arg c 0) in
     let value := any (arg c 1) in
     GetNativePredicates c (fun p => Ok (on_base (fun b => AP.GreaterThan b field value) p))).
Definition LessThan (c : call) : method :=
  NAPI_ASSERT (argc c >? 0) "DataAbilityPredicatesProxy::LessThan Invalid argvs!"
    (let field := text (arg c 0) in
     let value := any (arg c 1) in
     GetNativePredicates c (fun p => Ok (on_base (fun b => AP.LessThan b field value) p))).
Definition GreaterThanOrEqualTo (c : call) : method :=
  NAPI_ASSERT (argc c >? 0) "DataAbilityPredicatesProxy::GreaterThanOrEqualTo Invalid argvs!"
    (let field := text (arg c 0) in
     let value := any (arg c 1) in
     GetNativePredicates c (fun p => Ok (on_base (fun b => AP.GreaterThanOrEqualTo b field value) p))).
Definition LessThanOrEqualTo (c : call) : method :=
  NAPI_ASSERT (argc c >? 0) "DataAbilityPredicatesProxy::LessThanOrEqualTo Invalid argvs!"
    (let field := text (arg c 0) in
     let value := any (arg c 1) in
     GetNativePredicates c (fun p => Ok (on_base (fun b => AP.LessThanOrEqualTo b field value) p))).
Definition OrderByAsc (c : call) : method :=
  NAPI_ASSERT (argc c >? 0) "DataAbilityPredicatesProxy::OrderByAsc Invalid argvs!"
    (let field := text (arg c 0) in GetNativePredicates c (fun p => Ok (on_base (fun b => AP.OrderByAsc b field) p))).
Definition OrderByDesc (c : call) : method :=
  NAPI_ASSERT (argc c >? 0) "DataAbilityPredicatesProxy::OrderByDesc Invalid argvs!"
    (let field := text (arg c 0) in GetNativePredicates c (fun p => Ok (on_base (fun b => AP.OrderByDesc b field) p))).
Definition Distinct (c : call) : method := GetNativePredicates c (fun p => Ok (on_base AP.Distinct p)).
Definition Limit (c : call) : method :=
  NAPI_ASSERT (argc c >? 0) "DataAbilityPredicatesProxy::Limit Invalid argvs!"
    (let limit := default 0 (napi_get_value_int32 (arg c 0)) in GetNativePredicates c (fun p => Ok (on_base (fun b => AP.Limit b limit) p))).
Definition Offset (c : call) : method :=
  NAPI_ASSERT (argc c >? 0) "DataAbilityPredicatesProxy::Offset Invalid argvs!"
    (let offset := default 0 (napi_get_value_int32 (arg c 0)) in GetNativePredicates c (fun p => Ok (on_base (fun b => AP.Offset b offset) p))).
Definition GroupBy (c : call) : method :=
  NAPI_ASSERT (argc c >? 0) "DataAbilityPredicatesProxy::GroupBy Invalid argvs!"
    (let fields := texts (arg c 0) in GetNativePredicates c (fun p => Ok (on_base (fun b => AP.GroupBy b fields) p))).
Definition IndexedBy (c : call) : method :=
  NAPI_ASSERT (argc c >? 0) "DataAbilityPredicatesProxy::IndexedBy Invalid argvs!"
    (let indexName := text (arg c 0) in GetNativePredicates c (fun p => Ok (on_base (fun b => AP.IndexedBy b indexName) p))).
Definition In (c : call) : method :=
  NAPI_ASSERT (argc c >? 0) "DataAbilityPredicatesProxy::In Invalid argvs!"
    (let field := text (arg c 0) in
     let values := texts (arg c 1) in
     GetNativePredicates c (fun p => Ok (on_base (fun b => AP.In b field values) p))).
Definition NotIn (c : call) : method :=
  NAPI_ASSERT (argc c >? 0) "DataAbilityPredicatesProxy::NotIn Invalid argvs!"
    (let field := text (arg c 0) in
     let values := texts (arg c 1) in
     GetNativePredicates c (fun p => Ok (on_base (fun b => AP.NotIn b field values) p))).
Definition Clear (c : call) : method := GetNativePredicates c (fun p => Ok (on_base AP.Clear p)).
Definition IsRawSelection (c : call) : method :=
  read_native c (fun p => JSUtils.Convert2JSValue_bool (default undef (DA.IsRawSelection p))).
Definition GetWhereClause (c : call) : method := read_native c (fun p => JSUtils.Convert2JSValue_string (AP.GetWhereClause (DA.base p))).
Definition SetWhereClause (c : call) : method :=
  NAPI_ASSERT (argc c >? 0) "DataAbilityPredicatesProxy::SetWhereClause Invalid argvs!"
    (let whereClause := text (arg c 0) in GetNativePredicates c (fun p => Ok (on_base (fun b => AP.SetWhereClause b whereClause) p))).
Definition GetWhereArgs (c : call) : method := read_native c (fun p => JSUtils.Convert2JSValue_strings (AP.GetWhereArgs (DA.base p))).
Definition SetWhereArgs (c : call) : method :=
  NAPI_ASSERT (argc c >? 0) "DataAbilityPredicatesProxy::SetWhereArgs Invalid argvs!"
    (let whereArgs := texts (arg c 0) in GetNativePredicates c (fun p => Ok (on_base (fun b => AP.SetWhereArgs b whereArgs) p))).
Definition GetOrder (c : call) : method := read_native c (fun p => JSUtils.Convert2JSValue_string (AP.GetOrder (DA.base p))).
Definition SetOrder (c : call) : method :=
  NAPI_ASSERT (argc c >? 0) "DataAbilityPredicatesProxy::SetOrder Invalid argvs!"
    (let order := text (arg c 0) in GetNativePredicates c (fun p => Ok (on_base (fun b => AP.SetOrder b order) p))).
Definition GetLimit (c : call) : method := read_native c (fun p => JSUtils.Convert2JSValue_int32 (AP.GetLimit (DA.base p))).
Definition GetOffset (c : call) : method := read_native c (fun p => JSUtils.Convert2JSValue_int32 (AP.GetOffset (DA.base p))).
Definition IsDistinct (c : call) : method := read_native c (fun p => JSUtils.Convert2JSValue_bool (AP.IsDistinct (DA.base p))).
Definition GetGroup (c : call) : method := read_native c (fun p => JSUtils.Convert2JSValue_string (AP.GetGroup (DA.base p))).
Definition GetIndex (c : call) : method := read_native c (fun p => JSUtils.Convert2JSValue_string (AP.GetIndex (DA.base p))).
Definition IsNeedAnd (c : call) : method := read_native c (fun p => JSUtils.Convert2JSValue_bool (AP.IsNeedAnd (DA.base p))).
Definition IsSorted (c : call) : method := read_native c (fun p => JSUtils.Convert2JSValue_bool (AP.IsSorted (DA.base p))).

Definition functions : list (string * (call -> method)) :=
  [("equalTo", EqualTo); ("notEqualTo", NotEqualTo); ("beginWrap", BeginWrap);
   ("endWrap", EndWrap); ("or", Or); ("and", And); ("contains", Contains);
   ("beginsWith", BeginsWith); ("endsWith", EndsWith); ("isNull", IsNull);
   ("isNotNull", IsNotNull); ("like", Like); ("glob", Glob); ("between", Between);
   ("notBetween", NotBetween); ("greaterThan", GreaterThan); ("lessThan", LessThan);
   ("greaterThanOrEqualTo", GreaterThanOrEqualTo); ("lessThanOrEqualTo", LessThanOrEqualTo);
   ("orderByAsc", OrderByAsc); ("orderByDesc", OrderByDesc); ("distinct", Distinct);
   ("limitAs", Limit); ("offsetAs", Offset); ("groupBy", GroupBy); ("indexedBy", IndexedBy);
   ("in", In); ("notIn", NotIn); ("clear", Clear); ("isRawSelection", IsRawSelection)].
Definition getters : list (string * (call -> method)) :=
  [("whereClause", GetWhereClause); ("whereArgs", GetWhereArgs); ("order", GetOrder);
   ("limit", GetLimit); ("offset", GetOffset); ("isDistinct", IsDistinct); ("group", GetGroup);
   ("index", GetIndex); ("isNeedAnd", IsNeedAnd); ("isSorted", IsSorted)].
Definition setters : list (string * (call -> method)) :=
  [("whereClause", SetWhereClause); ("whereArgs", SetWhereArgs); ("order", SetOrder)].
End Proxy.
End DataAbilityPredicatesProxy.

(** ** napi_predicates_utils.cpp: predicates of the database from those of a data ability *)
Module PredicatesUtilsBinding.
Section Binding.
Context `{Napi} `{DistributedPredicates}.

Definition CreateRdbPredicates (p : Z) (c : call) (proxies : gmap Z DA.DataAbilityPredicates) : method RP.AbsRdbPredicates :=
  NAPI_ASSERT (argc c =? 2) "DataAbilityJsKit::CreateRdbPredicates Invalid argvs!"
    (NAPI_ASSERT (bool_decide (napi_typeof (arg c 0) = napi_string)) "Table name should be a string."
      (let tableName := JSUtils.Convert2String (arg c 0) true in
       NAPI_ASSERT (bool_decide (napi_typeof (arg c 1) = napi_object)) "Table name should be an object."
         (NAPI_ASSERT (bool_decide (is_Some (napi_unwrap (arg c 1)))) "napi_unwrap failed"
           (fun h =>
              pn <-- native_object (arg c 1) proxies;
              let abs := DA.base pn.2 in
              let predicates := RP.new_RdbPredicates tableName in
              let predicates := inherited (fun b =>
                PredicatesUtils.SetWhereClauseAndArgs b (AP.GetWhereClause abs) (AP.GetWhereArgs abs)) predicates in
              let predicates := inherited (fun b =>
                PredicatesUtils.SetAttributes b (AP.IsDistinct abs) (AP.GetIndex abs) (AP.GetGroup abs) (AP.GetOrder abs)
                  (AP.GetLimit abs) (AP.GetOffset abs)) predicates in
              RdbPredicatesProxy.NewInstance p predicates h)))).
End Binding.
End PredicatesUtilsBinding.

(** ** The calls both kinds of predicates have

    What a JavaScript call means as a call of the native predicates: texts as they are,
    other values as the text the bindings make of them. *)
Definition arg_text (v : js) : string :=
  match v with
  | JString s => s
  | JNumber d => to_string_fp (decode_double d)
  | JBoolean b => if b then "1" else "0"
  | JTypedArray _ data => String.string_of_list_ascii data
  | _ => ""
  end.
Definition scalar_of (v : js) : option SP.scalar :=
  match v with JString s => Some (SP.SString s) | JNumber d => Some (SP.SDouble d) | _ => None end.

Definition comparisons : list (string * SP.comparison_op) :=
  [("equalTo", SP.CEq); ("notEqualTo", SP.CNe); ("greaterThan", SP.CGt); ("lessThan", SP.CLt);
   ("greaterThanOrEqualTo", SP.CGe); ("lessThanOrEqualTo", SP.CLe)].
Definition text_tests : list (string * SP.text_op) :=
  [("contains", SP.TContains); ("beginsWith", SP.TBeginsWith); ("endsWith", SP.TEndsWith); ("like", SP.TLike); ("glob", SP.TGlob)].

Inductive means : string * list js -> share_call -> Prop :=
| means_compare name op f v s :
    (name, op) ∈ comparisons -> scalar_of v = Some s -> means (name, [JString f; v]) (CallCompare op f s)
| means_bool (positive : bool) f b :
    means (if positive then "equalTo" else "notEqualTo", [JString f; JBoolean b]) (CallBool positive f b)
| means_text name t f v : (name, t) ∈ text_tests -> means (name, [JString f; v]) (CallText t f (arg_text v))
| means_null (positive : bool) f : means (if positive then "isNull" else "isNotNull", [JString f]) (CallNull positive f)
| means_between (positive : bool) f low high :
    means (if positive then "between" else "notBetween", [JString f; low; high]) (CallBetween positive f (arg_text low) (arg_text high))
| means_in (positive : bool) f l :
    means (if positive then "in" else "notIn", [JString f; JArray l]) (CallIn positive f (VStrings (arg_text <$> l)))
| means_begin : means ("beginWrap", []) CallBeginWrap
| means_end : means ("endWrap", []) CallEndWrap
| means_or : means ("or", []) CallOr
| means_and : means ("and", []) CallAnd
| means_distinct : means ("distinct", []) CallDistinct
| means_order (asc : bool) f : means (if asc then "orderByAsc" else "orderByDesc", [JString f]) (CallOrderBy asc f)
| means_group v l : means ("groupBy", [JArray (v :: l)]) (CallGroupBy (arg_text <$> (v :: l)))
| means_index n : means ("indexedBy", [JString n]) (CallIndexedBy n).

(** Texts that fit the buffers of both bindings. *)
Definition TEXT_LIMIT : Z := 1023.
Definition argument_ok (v : js) : Prop :=
  plain TEXT_LIMIT v \/ exists l, v = JArray l /\ Z.of_nat (length l) < 2 ^ 32 /\ Forall (plain TEXT_LIMIT) l.

Lemma means_portable c s : means c s -> portable s = true.
Proof. destruct 1 as [name op f v s Hin Hs| | | | | | | | | | | | |]; simpl; try done. by destruct v, op; simplify_eq/=. Qed.

#[local] Opaque decode_double to_string_fp.

Section Texts.
Context `{NapiLaws}.

Lemma any_text v : plain TEXT_LIMIT v -> JSUtils.ConvertAny2String v = arg_text v /\ DataShareJSUtils.ConvertAny2String v = arg_text v.
Proof.
  intros Hv. unfold JSUtils.ConvertAny2String, DataShareJSUtils.ConvertAny2String, DataShareJSUtils.short_text.
  rewrite typeof_ok. unfold TEXT_LIMIT in Hv. destruct Hv as [s Hn Hl|d|b|data Hl]; cbn [type_of arg_text].
  - rewrite convert_string; [|exact Hn|unfold JSUtils.DEFAULT_BUF_SIZE; lia].
    rewrite string_whole by (unfold DataShareJSUtils.DEFAULT_BUF_SIZE; lia). split; [done|]. by apply buffer_text_whole.
  - by rewrite double_ok.
  - by rewrite bool_ok.
  - unfold DataShareJSUtils.Convert2U8Vector. by rewrite convert_blob.
Qed.

Lemma short_texts s :
  plain TEXT_LIMIT (JString s) -> JSUtils.Convert2String (JString s) true = s /\ DataShareJSUtils.short_text (JString s) = s.
Proof.
  intros Hv. destruct (any_text _ Hv) as [E1 E2]. unfold JSUtils.ConvertAny2String, DataShareJSUtils.ConvertAny2String in *.
  by rewrite typeof_ok in *.
Qed.

Lemma any_texts l :
  Z.of_nat (length l) < 2 ^ 32 -> Forall (plain TEXT_LIMIT) l ->
  JSUtils.Convert2StrVector (JArray l) = arg_text <$> l /\
  DataShareJSUtils.ConvertAny2String <$> JSUtils.array_of (JArray l) = arg_text <$> l.
Proof.
  intros Hl Hf. unfold JSUtils.Convert2StrVector. rewrite array_of_ok by done.
  split; apply list_fmap_ext; intros i v Hv; apply any_text; eapply Forall_lookup_1; done.
Qed.
End Texts.

Section Programs.
Context `{NapiLaws} `{DistributedPredicates}.

Lemma native_object_ok {N} p (n : N) h : h !! p = Some n -> native_object (JInstance p) h = Ok (p, n).
Proof. intros Hp. unfold native_object. by rewrite unwrap_ok, Hp. Qed.

Lemma change_native_ok {N} p (n n' : N) f args h :
  h !! p = Some n -> f n = Ok n' ->
  change_native (mkCall (JInstance p) args) f h = Ok (Replies (Some (JInstance p)), <[p := n']> h).
Proof. intros Hp Hf. unfold change_native. simpl. rewrite (native_object_ok p n h Hp). simpl. by rewrite Hf. Qed.

(** A call on the database's predicates is the call it means. *)
Ltac arguments :=
  repeat match goal with
  | Hf : Forall argument_ok (_ :: _) |- _ => apply Forall_cons in Hf as [? Hf]
  | Hf : Forall argument_ok [] |- _ => clear Hf
  | Hk : argument_ok (JString _) |- _ => destruct Hk as [Hk|(? & ? & _)]; [|done]
  | Hk : argument_ok (JBoolean _) |- _ => clear Hk
  | Hk : argument_ok (JNumber _) |- _ => clear Hk
  | Hk : argument_ok (JArray _) |- _ => destruct Hk as [Hk|(? & Hk & ? & ?)]; [by inversion Hk|injection Hk as <-]
  end.

(** An argument of a comparison has a text even when it is an array: the empty one. *)
Lemma any_argument v :
  argument_ok v -> JSUtils.ConvertAny2String v = arg_text v /\ DataShareJSUtils.ConvertAny2String v = arg_text v.
Proof.
  intros [Hv|(l & -> & _)]; [by apply any_text|]. unfold JSUtils.ConvertAny2String, DataShareJSUtils.ConvertAny2String,
    DataShareJSUtils.Convert2U8Vector, JSUtils.Convert2U8Vector. rewrite typeof_ok. simpl.
  pose proof (typedarray_other (JArray l) ltac:(done)) as Ht. by destruct (napi_is_typedarray (JArray l)) as [[]|].
Qed.

Ltac named Hin :=
  repeat (apply elem_of_cons in Hin as [[= -> ->]|Hin]); try by apply not_elem_of_nil in Hin.
Ltac native := apply (change_native_ok _ _ _ _ _ _ ltac:(eassumption)); unfold arg; simpl.

Lemma rdb_call c s h p n :
  means c s -> Forall argument_ok c.2 -> h !! p = Some n ->
  dispatch RdbPredicatesProxy.functions c.1 (mkCall (JInstance p) c.2) h =
    Ok (Replies (Some (JInstance p)), <[p := direct s n]> h).
Proof.
  intros Hm Hf Hp. destruct Hm as [name op f v s Hin Hs|positive f b|name t f v Hin|positive f|positive f low high|positive f l| | | | | |asc f|v l|name];
    simpl in Hf; arguments.
  - destruct (any_argument v) as [Ev _]; [done|]. destruct (short_texts f) as [Ef _]; [done|].
    assert (Hs' : arg_text v = scalar_text s) by (by destruct v; simplify_eq/=).
    named Hin. all: native; by rewrite Ef, Ev, Hs'.
  - destruct (short_texts f) as [Ef _]; [done|]. destruct positive; native; rewrite Ef; unfold JSUtils.ConvertAny2String;
      rewrite typeof_ok; simpl; by rewrite bool_ok.
  - destruct (any_argument v) as [Ev _]; [done|]. destruct (short_texts f) as [Ef _]; [done|]. named Hin. all: native; by rewrite Ef, Ev.
  - destruct (short_texts f) as [Ef _]; [done|]. destruct positive; native; by rewrite Ef.
  - destruct (any_argument low) as [El _], (any_argument high) as [Eh _]; [done..|]. destruct (short_texts f) as [Ef _]; [done|].
    destruct positive; native; by rewrite Ef, El, Eh.
  - destruct (any_texts l) as [El _]; [done..|]. destruct (short_texts f) as [Ef _]; [done|].
    destruct positive; native; by rewrite Ef, El.
  - by native.
  - by native.
  - by native.
  - by native.
  - by native.
  - destruct (short_texts f) as [Ef _]; [done|]. destruct asc; native; by rewrite Ef.
  - destruct (any_texts (v :: l)) as [El _]; [done..|]. native. by rewrite El.
  - destruct (short_texts name) as [Ef _]; [done|]. native. by rewrite Ef.
Qed.

(** A comparison looks at the type of the value first. *)
Ltac shared :=
  match goal with |- dispatch _ _ ?c ?h = _ =>
    unfold dispatch; simpl; unfold DataSharePredicatesProxy.EqualTo, DataSharePredicatesProxy.NotEqualTo,
      DataSharePredicatesProxy.GreaterThan, DataSharePredicatesProxy.LessThan, DataSharePredicatesProxy.GreaterThanOrEqualTo,
      DataSharePredicatesProxy.LessThanOrEqualTo, NAPI_ASSERT, arg; simpl; rewrite typeof_ok; simpl; rewrite ?double_ok, ?bool_ok end; native.

Lemma shared_call c s h p d d' :
  means c s -> Forall argument_ok c.2 -> h !! p = Some d -> run_call s d = Ok d' ->
  dispatch DataSharePredicatesProxy.functions c.1 (mkCall (JInstance p) c.2) h = Ok (Replies (Some (JInstance p)), <[p := d']> h).
Proof.
  intros Hm Hf Hp Hr. destruct Hm as [name op f v s Hin Hs|positive f b|name t f v Hin|positive f|positive f low high|positive f l| | | | | |asc f|v l|name];
    simpl in Hf; arguments.
  - destruct (short_texts f) as [_ Ef]; [done|]. injection Hr as <-. destruct v as [| | |x|x| | | | | | | | |]; simplify_eq/=; arguments.
    + named Hin. all: shared; by rewrite Ef.
    + destruct (short_texts x) as [_ Ex]; [done|]. named Hin. all: shared; by rewrite Ef, Ex.
  - destruct (short_texts f) as [_ Ef]; [done|]. destruct positive; injection Hr as <-; shared; by rewrite Ef.
  - destruct (any_argument v) as [_ Ev]; [done|]. destruct (short_texts f) as [_ Ef]; [done|]. injection Hr as <-.
    named Hin. all: native; by rewrite Ef, Ev.
  - destruct (short_texts f) as [_ Ef]; [done|]. destruct positive; injection Hr as <-; native; by rewrite Ef.
  - destruct (any_argument low) as [_ El], (any_argument high) as [_ Eh]; [done..|]. destruct (short_texts f) as [_ Ef]; [done|].
    destruct positive; injection Hr as <-; native; by rewrite Ef, El, Eh.
  - destruct (any_texts l) as [_ El]; [done..|]. destruct (short_texts f) as [_ Ef]; [done|].
    destruct positive; injection Hr as <-; native; by rewrite Ef, El.
  - by native.
  - by native.
  - by native.
  - by native.
  - by native.
  - destruct (short_texts f) as [_ Ef]; [done|]. destruct asc; injection Hr as <-; native; by rewrite Ef.
  - destruct (any_texts (v :: l)) as [_ El]; [done..|]. native. by rewrite El.
  - destruct (short_texts name) as [_ Ef]; [done|]. injection Hr as <-. native. by rewrite Ef.
Qed.

(** *** Programs *)
Lemma rdb_program program cs : forall h p n,
  Forall2 means program cs -> Forall (fun c => Forall argument_ok c.2) program -> h !! p = Some n ->
  invoke_all RdbPredicatesProxy.functions (JInstance p) program h =
    Ok (Replies (Some (JInstance p)), <[p := foldl (fun n c => direct c n) n cs]> h).
Proof.
  intros h p n Hm. revert h n. induction Hm as [|[name args] s program cs Hc _ IH]; intros h n Hf Hp; simpl.
  - by rewrite insert_id.
  - apply Forall_cons in Hf as [Hargs Hf]. pose proof (rdb_call (name, args) s h p n Hc Hargs Hp) as E. simpl in E. rewrite E. simpl.
    rewrite (IH _ (direct s n)) by (done || by rewrite lookup_insert_eq). by rewrite insert_insert_eq.
Qed.

Lemma shared_program program cs : forall h p d d',
  Forall2 means program cs -> Forall (fun c => Forall argument_ok c.2) program -> h !! p = Some d -> run_calls cs d = Ok d' ->
  invoke_all DataSharePredicatesProxy.functions (JInstance p) program h = Ok (Replies (Some (JInstance p)), <[p := d']> h).
Proof.
  intros h p d d' Hm. revert h d. induction Hm as [|[name args] s program cs Hc _ IH]; intros h d Hf Hp Hr; simpl in *.
  - injection Hr as <-. by rewrite insert_id.
  - apply Forall_cons in Hf as [Hargs Hf]. destruct (run_call s d) as [d1| | |] eqn:E; try done. simpl in Hr.
    pose proof (shared_call (name, args) s h p d d1 Hc Hargs Hp E) as E1. simpl in E1. rewrite E1. simpl.
    rewrite (IH _ d1) by (done || by rewrite lookup_insert_eq). by rewrite insert_insert_eq.
Qed.

Lemma means_all_portable program cs : Forall2 means program cs -> Forall (fun c => portable c = true) cs.
Proof. induction 1; constructor; [by eapply means_portable|done]. Qed.
Lemma js_portable_supported c : portable c = true -> supported c = true.
Proof. by destruct c as [? ? []| | | | | | | | | | | | | | | | | | |]. Qed.
End Programs.

Section Transfer.
Context `{NapiLaws} `{DistributedPredicates} `{ParcelLaws}.

(** C31: A JavaScript program means the same on shared predicates as on those of the
    database, for the calls that [means] lists: those that both classes have, with all
    their arguments, comparisons with a text or a number, [equalTo] and [notEqualTo] with a
    truth value too, [groupBy] with at least one field, without the limits; texts have at
    most 1023 bytes and no zero character. Such calls, made one after the other on a new
    [DataSharePredicates] object and on a new [RdbPredicates] object, never throw; when
    the shared object is sent to the provider and adapted to the table there, the
    provider has exactly the predicates of the local object. [missing_value],
    [no_fields_break] and [js_limit_breaks] show what happens with the other calls. *)
Theorem js_shared_equals_local program cs table (p q : Z) z0 z1 par :
  Forall2 means program cs -> Forall (fun c => Forall argument_ok c.2) program ->
  plain TEXT_LIMIT (JString table) -> Z.of_nat (length cs) < 2147483648 -> holds par [] ->
  exists local shared par1 par2 received,
    (r <-- RdbPredicatesProxy.New p (mkCall JUndefined [JString table]) ∅;
     invoke_all RdbPredicatesProxy.functions (JInstance p) program r.2) =
      Ok (Replies (Some (JInstance p)), {[p := local]}) /\
    (r <-- DataSharePredicatesProxy.New q (mode_of_code z0) (mkCall JUndefined []) ∅;
     invoke_all DataSharePredicatesProxy.functions (JInstance q) program r.2) =
      Ok (Replies (Some (JInstance q)), {[q := shared]}) /\
    SP.Marshalling shared par = Some par1 /\ SP.Unmarshalling (mode_of_code z1) par1 = Some (received, par2) /\
    ToPredicates received table = Ok local.
Proof.
  intros Hm Hf Ht Hl Hpar. pose proof (means_all_portable _ _ Hm) as Hport.
  assert (Hsup : Forall (fun c => supported c = true) cs) by (eapply Forall_impl; [exact Hport|apply js_portable_supported]).
  destruct (shared_predicates_equiv z0 z1 cs table par Hsup Hl Hpar) as (d & Erun & _ & par1 & par2 & d' & Em & Eu & _ & Ha).
  exists (foldl (fun n c => direct c n) (RP.new_RdbPredicates table) cs), d, par1, par2, d'. split_and!; try done.
  - unfold RdbPredicatesProxy.New, NAPI_ASSERT, arg. simpl. rewrite typeof_ok. simpl.
    destruct (short_texts table Ht) as [E _]. rewrite E.
    rewrite (rdb_program _ cs _ _ (RP.new_RdbPredicates table)) by (done || by rewrite lookup_insert_eq).
    by rewrite insert_insert_eq.
  - simpl. rewrite (shared_program _ cs _ _ (SP.new_DataSharePredicates (mode_of_code z0)) d) by (done || by rewrite lookup_insert_eq).
    by rewrite insert_insert_eq.
  - by apply Ha.
Qed.
End Transfer.

(** ** A program *)
Definition demo_program : list (string * list js) :=
  [("equalTo", [JString "name"; JString "Lisa"]); ("or", []); ("beginWrap", []);
   ("greaterThan", [JString "age"; JNumber (double_of 18)]); ("and", []);
   ("in", [JString "city"; JArray [JString "Rome"; JNumber (double_of 7)]]); ("endWrap", []);
   ("orderByDesc", [JString "age"]); ("distinct", [])].
Definition demo_meaning : list share_call :=
  [CallCompare SP.CEq "name" (SP.SString "Lisa"); CallOr; CallBeginWrap; CallCompare SP.CGt "age" (SP.SDouble (double_of 18));
   CallAnd; CallIn true "city" (VStrings ["Rome"; "7.000000"]); CallEndWrap; CallOrderBy false "age"; CallDistinct].

Lemma demo_program_means : Forall2 means demo_program demo_meaning.
Proof.
  repeat (apply Forall2_cons; split); [| | | | | | | | |by apply Forall2_nil].
  - apply means_compare; [by repeat constructor|done].
  - apply means_or.
  - apply means_begin.
  - apply means_compare; [by repeat constructor|done].
  - apply means_and.
  - replace ["Rome"; "7.000000"] with (arg_text <$> [JString "Rome"; JNumber (double_of 7)])
      by (vm_compute; reflexivity). exact (means_in true _ _).
  - apply means_end.
  - exact (means_order false _).
  - apply means_distinct.
Qed.

Ltac plain_value := constructor; first [apply (bool_decide_unpack _); by vm_compute|done].
Ltac plain_argument := left; by plain_value.

Lemma js_shared_equals_local_witness :
  exists local shared par1 par2 received,
    (r <-- RdbPredicatesProxy.New (H := node) 1 (mkCall JUndefined [JString "person"]) ∅;
     invoke_all (RdbPredicatesProxy.functions (H := node) (H0 := recorded)) (JInstance 1) demo_program r.2) =
      Ok (Replies (Some (JInstance 1)), {[1 := local]}) /\
    (r <-- DataSharePredicatesProxy.New 2 (mode_of_code 0) (mkCall JUndefined []) ∅;
     invoke_all (DataSharePredicatesProxy.functions (H := node)) (JInstance 2) demo_program r.2) =
      Ok (Replies (Some (JInstance 2)), {[2 := shared]}) /\
    SP.Marshalling (H := parcel_list) shared [] = Some par1 /\
    SP.Unmarshalling (H := parcel_list) (mode_of_code 1) par1 = Some (received, par2) /\
    ToPredicates (H := recorded) received "person" = Ok local.
Proof.
  apply (@js_shared_equals_local node node_laws recorded parcel_list parcel_list_laws demo_program demo_meaning "person" 1 2 0 1 []).
  - exact demo_program_means.
  - unfold demo_program. repeat (apply Forall_cons; split); try done; simpl;
      repeat (apply Forall_cons; split); try done; try plain_argument.
    right. eexists. split; [done|]. split; [done|]. repeat (apply Forall_cons; split); try done; plain_value.
  - constructor; [by apply (bool_decide_unpack _); vm_compute|done].
  - done.
  - done.
Defined.

(** ** Where the two bindings and their documentation part *)

(** What a method of the database's predicates builds. *)
Definition rdb_where (program : list (string * list js)) : option (string * list string) :=
  match invoke_all (RdbPredicatesProxy.functions (H := node) (H0 := recorded)) (JInstance 1) program
          {[1 := RP.new_RdbPredicates "person"]} with
  | Ok (Replies _, h) => p ← h !! 1; Some (AP.GetWhereClause (RP.base p), AP.GetWhereArgs (RP.base p))
  | _ => None
  end.

(** The double 1e-7. *)
Definition tiny : Z := 0x3E7AD7F29ABCAF48.
Example small_numbers_are_zero :
  rdb_where [("equalTo", [JString "x"; JNumber tiny])] = rdb_where [("equalTo", [JString "x"; JNumber 0])] /\
  rdb_where [("equalTo", [JString "x"; JNumber 0])] = Some ("`x` = ? ", ["0.000000"]).
Proof. split; vm_compute; reflexivity. Qed.

(** A missing value is compared with as a text, and on shared predicates ignored. *)
Example missing_value :
  rdb_where [("equalTo", [JString "x"])] = Some ("`x` = ? ", ["invalid type"]) /\
  (forall d : DataSharePredicates,
     invoke_all (DataSharePredicatesProxy.functions (H := node)) (JInstance 2) [("equalTo", [JString "x"])] {[2 := d]} =
       Ok (Replies (Some (JInstance 2)), {[2 := d]})).
Proof. split; [vm_compute; reflexivity|done]. Qed.

(** Grouping by no field throws a C++ exception, which no binding catches; so does asking for no keys. *)
Definition shared_after (program : list (string * list js)) : outcome (reply * gmap Z DataSharePredicates) :=
  invoke_all (DataSharePredicatesProxy.functions (H := node)) (JInstance 2) program {[2 := SP.new_DataSharePredicates (mode_of_code 0)]}.
Example no_fields_break :
  shared_after [("groupBy", [JArray []])] = Throws /\ shared_after [("inKeys", [JArray []])] = Throws.
Proof. split; vm_compute; reflexivity. Qed.

(** A limit that JavaScript sets makes the provider throw once it has received it. *)
Definition received (d : DataSharePredicates) : option DataSharePredicates :=
  p ← SP.Marshalling (H := parcel_list) d []; r ← SP.Unmarshalling (H := parcel_list) (mode_of_code 1) p; Some r.1.
Example js_limit_breaks :
  let d := SP.Limit (SP.new_DataSharePredicates (mode_of_code 0)) 10 0 in
  shared_after [("limit", [JNumber (double_of 10); JNumber (double_of 0)])] = Ok (Replies (Some (JInstance 2)), {[2 := d]}) /\
  match received d with Some d' => ToPredicates (H := recorded) d' "person" = Throws | None => False end.
Proof. split; vm_compute; reflexivity. Qed.
