(* ===== verification/NapiAsync.v ===== *)
(** * Asynchronous calls of the bindings

    Model of frameworks/js/napi/common/include/napi_async_proxy.h: a call converts its
    arguments on the thread of the script, its work runs on a thread of the runtime's
    pool, and its completion runs on the thread of the script again, where it settles
    the promise the call returned or calls the callback it was given. *)
From S2P Require Import Prelude Strings StdMap Memory Napi.

#[local] Open Scope list_scope.

Definition MAX_INPUT_COUNT : Z := 10.
Definition OK : Z := 0.
Definition ERR : Z := -1.

(** A native function goes on, waits for another thread, or ends the process. *)
Inductive progress (A : Type) :=
| Goes (a : A)
| Blocks
| Dies.
#[global] Arguments Goes {A} a.
#[global] Arguments Blocks {A}.
#[global] Arguments Dies {A}.

(** The context of a call: what the class [T] adds, the native object behind [this], the
    callback, and the error a parser has thrown. *)
Record AysncContext (T : Type) := mkContext {
  own : T;
  boundObj : option Z;
  callbackRef : option js;
  thrown : option string;
}.
#[global] Arguments mkContext {T} _ _ _ _.
#[global] Arguments own {T} _.
#[global] Arguments boundObj {T} _.
#[global] Arguments callbackRef {T} _.
#[global] Arguments thrown {T} _.

Definition with_own {T} (ctx : AysncContext T) (t : T) : AysncContext T :=
  mkContext t (boundObj ctx) (callbackRef ctx) (thrown ctx).
Definition with_bound {T} (ctx : AysncContext T) (p : option Z) : AysncContext T :=
  mkContext (own ctx) p (callbackRef ctx) (thrown ctx).
Definition with_callback {T} (ctx : AysncContext T) (f : js) : AysncContext T :=
  mkContext (own ctx) (boundObj ctx) (Some f) (thrown ctx).
Definition with_error {T} (ctx : AysncContext T) (message : string) : AysncContext T :=
  mkContext (own ctx) (boundObj ctx) (callbackRef ctx) (Some message).

(** What the completion of a call reports: a value, which may be missing, or an error. *)
Inductive report :=
| Success (output : option js)
| Failure (message : string).

Inductive promise :=
| Pending
| Resolved (v : js)
| Rejected (message : string).

(** What the call itself gives: a promise, undefined, or an exception. *)
Inductive handle :=
| APromise (p : nat)
| Nothing
| Throwing (message : string).

(** Where a work is; one that has finished, with what it reported. *)
Inductive stage :=
| Queued
| Executed (execStatus : Z)
| Finished (a : report).
Definition finished (st : stage) : bool := match st with Finished _ => true | _ => false end.

(** What a report makes of a promise. *)
Definition promise_of (a : report) : promise :=
  match a with Success (Some v) => Resolved v | Success None => Pending | Failure m => Rejected m end.

Section Proxy.
Context `{Napi} {S T : Type}.

(** *** Arguments

    Executing changes only what the class [T] adds to the context. *)

Definition InputParser : Type := js -> AysncContext T -> S -> outcome (AysncContext T * S).
Definition NapiAsyncExecute : Type := AysncContext T -> S -> progress (Z * T * S).
Definition NapiAsyncComplete : Type := AysncContext T -> S -> progress (Z * option js * S).

Definition Init (t : T) : AysncContext T := mkContext t None None None.

Definition DefParserThis : InputParser := fun self ctx s =>
  Ok (match napi_unwrap self with Some p => with_bound ctx (Some p) | None => ctx end, s).

(** The argument after the last that has a parser is the callback. *)
Fixpoint parse_arguments (parsers : list InputParser) (args : list js) (ctx : AysncContext T) (s : S)
  : outcome (AysncContext T * S) :=
  match args, parsers with
  | [], _ => Ok (ctx, s)
  | a :: _, [] => Ok (if bool_decide (napi_typeof a = napi_function) then with_callback ctx a else ctx, s)
  | a :: args, parserFunction :: parsers =>
      r <-- parserFunction a ctx s; parse_arguments parsers args r.1 r.2
  end.

Definition ParseInputs (parsers : list InputParser) (parserThis : InputParser) (c : call) (ctx : AysncContext T) (s : S)
  : outcome (AysncContext T * S) :=
  r <-- (if argc c <=? MAX_INPUT_COUNT then parse_arguments parsers (argv c) ctx s else Ok (ctx, s));
  parserThis (this c) r.1 r.2.

(** *** Work *)

(** [destroy] is the destructor of the context, which the completion runs last. *)
Record work := mkWork {
  context : AysncContext T;
  deferred : option nat;
  execFunc : NapiAsyncExecute;
  completeFunc : NapiAsyncComplete;
  destroy : AysncContext T -> S -> S;
  reached : stage;
}.
Definition at_stage (w : work) (ctx : AysncContext T) (st : stage) : work :=
  mkWork ctx (deferred w) (execFunc w) (completeFunc w) (destroy w) st.

(** The runtime: the native state, the works in the order of the calls, the promises and
    the callbacks called. *)
Record Runtime := mkRuntime {
  native : S;
  works : list work;
  promises : list promise;
  called : list (js * report);
}.

(** With an exception pending no promise is made; the exception reaches the script when
    the call returns. *)
Definition DoAsyncWork (ctx : AysncContext T) (exec : NapiAsyncExecute) (complete : NapiAsyncComplete)
    (delete : AysncContext T -> S -> S) (r : Runtime) : handle * Runtime :=
  match thrown ctx, callbackRef ctx with
  | None, None =>
      let p := length (promises r) in
      (APromise p, mkRuntime (native r) (works r ++ [mkWork ctx (Some p) exec complete delete Queued]) (promises r ++ [Pending]) (called r))
  | e, _ =>
      (match e with Some message => Throwing message | None => Nothing end,
       mkRuntime (native r) (works r ++ [mkWork ctx None exec complete delete Queued]) (promises r) (called r))
  end.

(** A call from the script: parse, then start the work. *)
Definition async_call (t : T) (parsers : list InputParser) (parserThis : InputParser) (exec : NapiAsyncExecute)
    (complete : NapiAsyncComplete) (delete : AysncContext T -> S -> S) (c : call) (r : Runtime) : outcome (handle * Runtime) :=
  cs <-- ParseInputs parsers parserThis c (Init t) (native r);
  Ok (DoAsyncWork cs.1 exec complete delete (mkRuntime cs.2 (works r) (promises r) (called r))).

(** *** Completion *)
Definition report_of (execStatus completeStatus : Z) (output : option js) : report :=
  if (execStatus =? OK) && (completeStatus =? OK) then Success output else Failure "async call failed".

(** A promise is not resolved with a null pointer; without a promise the callback is
    called, if there is one. *)
Definition settle (w : work) (a : report) (ps : list promise) (cs : list (js * report)) : list promise * list (js * report) :=
  match deferred w with
  | Some p =>
      (match a with
       | Success (Some v) => <[p := Resolved v]> ps
       | Success None => ps
       | Failure m => <[p := Rejected m]> ps
       end, cs)
  | None =>
      (ps, match callbackRef (context w) with
           | Some f => cs ++ [(f, a)]
           | None => cs
           end)
  end.

Definition execute (i : nat) (r : Runtime) : option (progress Runtime) :=
  w ← works r !! i;
  match reached w with
  | Queued =>
      Some (match execFunc w (context w) (native r) with
            | Goes (st, t, s) => Goes (mkRuntime s (<[i := at_stage w (with_own (context w) t) (Executed st)]> (works r)) (promises r) (called r))
            | Blocks => Blocks
            | Dies => Dies
            end)
  | _ => None
  end.

Definition complete (i : nat) (r : Runtime) : option (progress Runtime) :=
  w ← works r !! i;
  match reached w with
  | Executed execStatus =>
      Some (match completeFunc w (context w) (native r) with
            | Goes (completeStatus, output, s) =>
                let a := report_of execStatus completeStatus output in
                let (ps, cs) := settle w a (promises r) (called r) in
                Goes (mkRuntime (destroy w (context w) s) (<[i := at_stage w (context w) (Finished a)]> (works r)) ps cs)
            | Blocks => Blocks
            | Dies => Dies
            end)
  | _ => None
  end.

(** A script that awaits the call: its work is executed and completed. *)
Definition await (i : nat) (r : Runtime) : progress Runtime :=
  match execute i r with
  | Some (Goes r) => default Blocks (complete i r)
  | Some other => other
  | None => Blocks
  end.

(** What [await] on a call gives: an exception of the call itself looks like that of a
    rejected promise, and a call that returns undefined is not waited for. *)
Definition awaited (m : Runtime -> outcome (handle * Runtime)) (r : Runtime) : progress (promise * Runtime) :=
  match m r with
  | Ok (APromise p, r) =>
      match await (pred (length (works r))) r with
      | Goes r => Goes (default Pending (promises r !! p), r)
      | Blocks => Blocks
      | Dies => Dies
      end
  | Ok (Throwing message, r) => Goes (Rejected message, r)
  | Ok (Nothing, r) => Goes (Resolved JUndefined, r)
  | _ => Dies
  end.
End Proxy.
#[global] Arguments work : clear implicits.
#[global] Arguments Runtime : clear implicits.
#[global] Arguments InputParser : clear implicits.
#[global] Arguments NapiAsyncExecute : clear implicits.
#[global] Arguments NapiAsyncComplete : clear implicits.

(** ** Every call is answered once

    The script calls, the threads of the pool execute works in any order, the thread of
    the script completes works that were executed, and other code changes the native
    state. A state has the runtime and what the calls gave the script, in their order:
    the [i]-th call has the [i]-th work. *)
Section Machine.
Context {S T : Type}.
Implicit Types (r : Runtime S T) (w : work S T).

Inductive step : Runtime S T * list handle -> Runtime S T * list handle -> Prop :=
| step_call ctx exec comp del r hs h r' : DoAsyncWork ctx exec comp del r = (h, r') -> step (r, hs) (r', hs ++ [h])
| step_execute i r hs r' : execute i r = Some (Goes r') -> step (r, hs) (r', hs)
| step_complete i r hs r' : complete i r = Some (Goes r') -> step (r, hs) (r', hs)
| step_native s r hs : step (r, hs) (mkRuntime s (works r) (promises r) (called r), hs).

Definition start (s : S) : Runtime S T * list handle := (mkRuntime s [] [] [], []).

(** The callback a work has called, with what it was given. *)
Definition answered (w : work S T) : option (js * report) :=
  match reached w, deferred w, callbackRef (context w) with Finished a, None, Some f => Some (f, a) | _, _, _ => None end.
(** The promise of a work, in the state the work has brought it to. *)
Definition outcome_of (w : work S T) : promise := match reached w with Finished a => promise_of a | _ => Pending end.
(** What a call gives belongs to its work: an exception when one was thrown, a promise
    when there is no callback, and nothing when there is one. *)
Definition gives (w : work S T) (h : handle) : Prop :=
  match h with
  | Throwing m => thrown (context w) = Some m /\ deferred w = None
  | APromise p => thrown (context w) = None /\ callbackRef (context w) = None /\ deferred w = Some p
  | Nothing => thrown (context w) = None /\ is_Some (callbackRef (context w)) /\ deferred w = None
  end.

Record async_inv r (hs : list handle) : Prop := {
  inv_given : Forall2 gives (works r) hs;
  inv_promises : omap deferred (works r) = seq 0 (length (promises r));
  inv_settled i w p : works r !! i = Some w -> deferred w = Some p -> promises r !! p = Some (outcome_of w);
  inv_called : called r ≡ₚ omap answered (works r);
}.

Lemma deferred_bound r hs i w p :
  async_inv r hs -> works r !! i = Some w -> deferred w = Some p -> (p < length (promises r))%nat.
Proof.
  intros Hi Hw Hp. assert (Hin : p ∈ omap deferred (works r)) by (apply list_elem_of_omap; exists w; split; [by eapply list_elem_of_lookup_2|done]).
  rewrite (inv_promises _ _ Hi) in Hin. apply elem_of_seq in Hin. lia.
Qed.

(** A promise belongs to one work. *)
Lemma omap_NoDup_inj {A B} (f : A -> option B) (l : list A) i j x y b :
  NoDup (omap f l) -> l !! i = Some x -> l !! j = Some y -> f x = Some b -> f y = Some b -> i = j.
Proof.
  revert i j. induction l as [|a l IH]; [done|]. intros [|i] [|j] Hn Hx Hy Fx Fy; simpl in *; simplify_eq; try done.
  - rewrite Fx in Hn. apply NoDup_cons in Hn as [Hn _]. destruct Hn. apply list_elem_of_omap. exists y. split; [by eapply list_elem_of_lookup_2|done].
  - rewrite Fy in Hn. apply NoDup_cons in Hn as [Hn _]. destruct Hn. apply list_elem_of_omap. exists x. split; [by eapply list_elem_of_lookup_2|done].
  - f_equal. apply (IH i j); try done. destruct (f a); [by apply NoDup_cons in Hn as [_ ?]|done].
Qed.

Lemma deferred_inj r hs i j w w' p :
  async_inv r hs -> works r !! i = Some w -> works r !! j = Some w' -> deferred w = Some p -> deferred w' = Some p -> i = j.
Proof. intros Hi. apply omap_NoDup_inj. rewrite (inv_promises _ _ Hi). apply NoDup_seq. Qed.

(** Replacing an element by one with the same image. *)
Lemma omap_insert_same {A B} (f : A -> option B) (l : list A) i x y :
  l !! i = Some x -> f x = f y -> omap f (<[i := y]> l) = omap f l.
Proof.
  revert i. induction l as [|a l IH]; [done|]. intros [|i] Hx E; simpl in *; simplify_eq; [by rewrite E|].
  destruct (f a); [f_equal|]; exact (IH i Hx E).
Qed.
Lemma omap_insert_new {A B} (f : A -> option B) (l : list A) i x y b :
  l !! i = Some x -> f x = None -> f y = Some b -> omap f (<[i := y]> l) ≡ₚ b :: omap f l.
Proof.
  revert i. induction l as [|a l IH]; [done|]. intros [|i] Hx Ex Ey; simpl in *; simplify_eq; [by rewrite Ex, Ey|].
  destruct (f a); [|exact (IH i Hx Ex Ey)]. etrans; [apply perm_skip, (IH i Hx Ex Ey)|apply perm_swap].
Qed.

(** A work at another stage gives what it gave. *)
Lemma given_stage r hs i w w' :
  Forall2 gives (works r) hs -> works r !! i = Some w -> (forall h, gives w h -> gives w' h) ->
  Forall2 gives (<[i := w']> (works r)) hs.
Proof.
  intros Hg Hw Hs. destruct (Forall2_lookup_l _ _ _ _ _ Hg Hw) as (h & Hh & Hgh).
  rewrite <- (list_insert_id hs i h) by done. apply Forall2_insert; auto.
Qed.

Lemma call_inv ctx exec comp del r hs h r' :
  async_inv r hs -> DoAsyncWork ctx exec comp del r = (h, r') -> async_inv r' (hs ++ [h]).
Proof.
  intros Hi E. unfold DoAsyncWork in E.
  destruct (thrown ctx) as [m|] eqn:Et; [|destruct (callbackRef ctx) as [f|] eqn:Ecb]; simplify_eq; split; simpl.
  all: rewrite ?omap_app; simpl; rewrite ?app_nil_r, ?length_app, ?seq_app; simpl;
    try (by apply Hi); try (by rewrite (inv_promises _ _ Hi)).
  all: try (apply Forall2_app; [apply Hi|]; repeat constructor; simpl; by eauto).
  all: try (unfold answered; simpl; by rewrite ?app_nil_r; apply Hi).
  all: intros i w p Hw Hp; apply lookup_app_Some in Hw as [Hw|[_ Hw]]; [|apply list_lookup_singleton_Some in Hw as [_ <-]; simpl in *; simplify_eq].
  - by eapply inv_settled.
  - by eapply inv_settled.
  - rewrite lookup_app_l by (by eapply deferred_bound). by eapply inv_settled.
  - by rewrite lookup_app_r, Nat.sub_diag.
Qed.

Lemma execute_inv i r hs r' : async_inv r hs -> execute i r = Some (Goes r') -> async_inv r' hs.
Proof.
  intros Hi. unfold execute. destruct (works r !! i) as [w|] eqn:Hw; [|done]. simpl. destruct (reached w) eqn:Er; try done.
  destruct (execFunc w (context w) (native r)) as [[[st t] s]| |]; intros [= <-]. split; simpl.
  - eapply given_stage; [apply Hi|done|]. by intros [].
  - rewrite (omap_insert_same deferred _ i w) by done. apply Hi.
  - intros j w' p Hj Hp. apply list_lookup_insert_Some in Hj as [(<- & <- & _)|[_ Hj]]; [|by eapply inv_settled].
    simpl in *. rewrite (inv_settled _ _ Hi i w p Hw Hp). unfold outcome_of. by rewrite Er.
  - rewrite (omap_insert_same answered _ i w); [apply Hi|done|]. unfold answered. by rewrite Er.
Qed.

Lemma complete_inv i r hs r' : async_inv r hs -> complete i r = Some (Goes r') -> async_inv r' hs.
Proof.
  intros Hi. unfold complete. destruct (works r !! i) as [w|] eqn:Hw; [|done]. simpl. destruct (reached w) as [|est|] eqn:Er; try done.
  destruct (completeFunc w (context w) (native r)) as [[[st out] s]| |]; try done.
  generalize (report_of est st out). intros a. destruct (settle w a _ _) as [ps cs] eqn:Es. intros [= <-].
  assert (Hg : Forall2 gives (<[i := at_stage w (context w) (Finished a)]> (works r)) hs).
  { eapply given_stage; [apply Hi|done|]. by intros []. }
  unfold settle in Es. destruct (deferred w) as [p|] eqn:Ed.
  - assert (Hp : promises r !! p = Some Pending).
    { rewrite (inv_settled _ _ Hi i w p Hw Ed). unfold outcome_of. by rewrite Er. }
    assert (ps = <[p := promise_of a]> (promises r) /\ cs = called r) as [-> ->].
    { destruct a as [[v|]|m]; simplify_eq/=; try done. by rewrite list_insert_id. }
    pose proof (deferred_bound _ _ _ _ _ Hi Hw Ed) as Hb. split; simpl; [done| | |].
    + rewrite length_insert, (omap_insert_same deferred _ i w) by done. apply Hi.
    + intros j w' p' Hj Hp'. apply list_lookup_insert_Some in Hj as [(<- & <- & _)|[Hne Hj]]; simpl in *.
      * assert (p' = p) as -> by congruence. by rewrite list_lookup_insert_eq.
      * assert (p' <> p) by (intros ->; apply Hne; by eapply deferred_inj). rewrite list_lookup_insert_ne by done. by eapply inv_settled.
    + rewrite (omap_insert_same answered _ i w); [apply Hi|done|]. unfold answered. simpl. by rewrite Er, Ed.
  - simplify_eq. split; simpl; [done| | |].
    + rewrite (omap_insert_same deferred _ i w) by done. apply Hi.
    + intros j w' p' Hj Hp. apply list_lookup_insert_Some in Hj as [(<- & <- & _)|[Hne Hj]]; simpl in *; [congruence|by eapply inv_settled].
    + destruct (callbackRef (context w)) as [f|] eqn:Ef.
      * rewrite (omap_insert_new answered _ i w _ (f, a)), (inv_called _ _ Hi); try done.
        { by rewrite (comm (++)). } { unfold answered. by rewrite Er. } { unfold answered. simpl. by rewrite Ed, Ef. }
      * rewrite (omap_insert_same answered _ i w); [apply Hi|done|]. unfold answered. simpl. by rewrite Er, Ed, Ef.
Qed.

Lemma async_step_inv c c' : step c c' -> async_inv c.1 c.2 -> async_inv c'.1 c'.2.
Proof.
  intros [ctx exec comp del r hs h r' E|i r hs r' E|i r hs r' E|s r hs] Hi; simpl in *;
    [by eapply call_inv|by eapply execute_inv|by eapply complete_inv|]. split; apply Hi.
Qed.
Lemma steps_inv c c' : rtc step c c' -> async_inv c.1 c.2 -> async_inv c'.1 c'.2.
Proof. induction 1; eauto using async_step_inv. Qed.
Lemma start_inv s : async_inv (start s).1 (start s).2.
Proof. split; simpl; [constructor|done|done|constructor]. Qed.

(** A promise that is settled keeps its value. *)
Lemma settled_stays c c' p q :
  async_inv c.1 c.2 -> step c c' -> promises c.1 !! p = Some q -> q <> Pending -> promises c'.1 !! p = Some q.
Proof.
  intros Hi Hs Hp Hq. destruct Hs as [ctx exec comp del r hs h r' E|i r hs r' E|i r hs r' E|]; simpl in *; [| | |done].
  - unfold DoAsyncWork in E. destruct (thrown ctx); [by simplify_eq|]. destruct (callbackRef ctx); [by simplify_eq|].
    simplify_eq. simpl. by apply lookup_app_l_Some.
  - unfold execute in E. destruct (works r !! i) as [w|]; [|done]. simpl in E. destruct (reached w); try done.
    by destruct (execFunc w _ _) as [[[? ?] ?]| |]; simplify_eq.
  - unfold complete in E. destruct (works r !! i) as [w|] eqn:Hw; [|done]. simpl in E. destruct (reached w) as [|est|] eqn:Er; try done.
    destruct (completeFunc w _ _) as [[[st out] s]| |]; try done. destruct (settle w _ _ _) as [ps cs] eqn:Es. simplify_eq/=.
    unfold settle in Es. destruct (deferred w) as [p'|] eqn:Ed; [|by simplify_eq].
    assert (p' <> p).
    { intros ->. destruct Hq. pose proof (inv_settled _ _ Hi i w p Hw Ed) as Hs. unfold outcome_of in Hs. rewrite Er in Hs. congruence. }
    destruct (report_of _ _ _) as [[v|]|m]; simplify_eq; by rewrite ?list_lookup_insert_ne.
Qed.

(** C35: What answers an asynchronous call, whatever the order in which the pool executes
    works and the script completes them. A call gives the script an
    exception when one was thrown while its arguments were read; otherwise a promise of
    its own, when it was given no callback; otherwise nothing. The promise is pending
    until the work has finished, and is then settled with what the work reported, and
    keeps that for ever; it stays pending if the work succeeded without giving a value.
    The callbacks called, with what they were given, are those of the finished works
    that have one and no promise, each once. *)
Theorem calls_answered_once s r hs :
  rtc step (start s) (r, hs) ->
  Forall2 (fun w h =>
    match h with
    | Throwing m => thrown (context w) = Some m /\ deferred w = None
    | APromise p =>
        thrown (context w) = None /\ callbackRef (context w) = None /\ deferred w = Some p /\
        promises r !! p = Some (match reached w with Finished a => promise_of a | _ => Pending end)
    | Nothing => thrown (context w) = None /\ is_Some (callbackRef (context w)) /\ deferred w = None
    end) (works r) hs /\
  NoDup (omap deferred (works r)) /\
  called r ≡ₚ omap answered (works r) /\
  (forall r' hs' p q, rtc step (r, hs) (r', hs') -> promises r !! p = Some q -> q <> Pending -> promises r' !! p = Some q).
Proof.
  intros Hr. pose proof (steps_inv _ _ Hr (start_inv s)) as Hi. simpl in Hi. split_and!.
  - apply Forall2_same_length_lookup. split; [by eapply Forall2_length, Hi|]. intros i w h Hw Hh.
    pose proof (Forall2_lookup_lr _ _ _ _ _ _ (inv_given _ _ Hi) Hw Hh) as Hg. destruct h as [p| |m]; try done.
    destruct Hg as (H1 & H2 & H3). split_and!; try done. by eapply inv_settled.
  - rewrite (inv_promises _ _ Hi). apply NoDup_seq.
  - apply Hi.
  - intros r' hs' p q Hsteps. clear Hr. change r with (r, hs).1 in Hi. change hs with (r, hs).2 in Hi at 2.
    change r with (r, hs).1. change r' with (r', hs').1. revert Hi. generalize dependent (r', hs'). generalize (r, hs). clear.
    intros c c' Hsteps. induction Hsteps as [|c1 c2 c3 H12 H23 IH]; [done|]. intros Hi Hp Hq.
    apply IH; [by eapply async_step_inv| |done]. by eapply settled_stays.
Qed.

(** *** Every work finishes, unless it waits for ever or ends the process *)
Definition goes_on (w : work S T) : Prop :=
  forall ctx s, (exists a, execFunc w ctx s = Goes a) /\ (exists a, completeFunc w ctx s = Goes a).
Definition remaining (st : stage) : nat := match st with Queued => 2 | Executed _ => 1 | Finished _ => 0 end.
Definition remaining_work (r : Runtime S T) : nat := sum_list_with (fun w => remaining (reached w)) (works r).

Lemma sum_replace {A} (f : A -> nat) (l : list A) i x y :
  l !! i = Some x -> (sum_list_with f (<[i := y]> l) + f x = sum_list_with f l + f y)%nat.
Proof.
  revert i. induction l as [|a l IH]; [done|]. intros [|i] Hx; [injection Hx as ->; simpl; lia|].
  change (f a + sum_list_with f (<[i := y]> l) + f x = f a + sum_list_with f l + f y)%nat. pose proof (IH i Hx). lia.
Qed.

Lemma unfinished_step r hs i w :
  Forall goes_on (works r) -> works r !! i = Some w -> finished (reached w) = false ->
  exists r', step (r, hs) (r', hs) /\ Forall goes_on (works r') /\ (remaining_work r' < remaining_work r)%nat.
Proof.
  intros Hg Hw Hr. pose proof (Forall_lookup_1 _ _ i w Hg Hw) as Hgo. destruct (Hgo (context w) (native r)) as [[[[st t] s] Ee] [[[cst out] s'] Ec]].
  destruct (reached w) as [|est|] eqn:Er; [| |done].
  - eexists. split; [apply (step_execute i); unfold execute; rewrite Hw; simpl; by rewrite Er, Ee|]. simpl. split; [by apply Forall_insert|].
    pose proof (sum_replace (fun w => remaining (reached w)) _ i w (at_stage w (with_own (context w) t) (Executed st)) Hw) as Hsum.
    simpl in Hsum. rewrite Er in Hsum. unfold remaining_work. simpl in *. lia.
  - set (a := report_of est cst out). destruct (settle w a (promises r) (called r)) as [ps cs] eqn:Es. eexists.
    split; [apply (step_complete i); unfold complete; rewrite Hw; simpl; fold a; by rewrite Er, Ec; fold a; rewrite Es|]. simpl.
    split; [by apply Forall_insert|].
    pose proof (sum_replace (fun w => remaining (reached w)) _ i w (at_stage w (context w) (Finished a)) Hw) as Hsum.
    simpl in Hsum. rewrite Er in Hsum. unfold remaining_work. simpl in *. lia.
Qed.

Theorem works_finish r hs :
  Forall goes_on (works r) -> exists r', rtc step (r, hs) (r', hs) /\ Forall (fun w => finished (reached w) = true) (works r').
Proof.
  remember (remaining_work r) as n eqn:En. revert r En. induction (lt_wf n) as [n _ IH]. intros r -> Hg.
  destruct (decide (Forall (fun w => finished (reached w) = true) (works r))) as [Hf|Hf]; [by exists r|].
  apply not_Forall_Exists, Exists_exists in Hf as (w & Hin & Hw); [|solve_decision]. apply list_elem_of_lookup in Hin as [i Hi].
  destruct (unfinished_step r hs i w Hg Hi) as (r1 & Hs & Hg1 & Hlt); [by apply not_true_iff_false in Hw|].
  destruct (IH _ Hlt r1 eq_refl Hg1) as (r2 & H12 & Hfin).
  exists r2. split; [by eapply rtc_l|done].
Qed.
End Machine.

(** ** Awaiting one call *)
Lemma lookup_snoc {A} (l : list A) x : (l ++ [x]) !! length l = Some x.
Proof. by rewrite lookup_app_r, Nat.sub_diag. Qed.
Lemma insert_snoc {A} (l : list A) x y : <[length l := y]> (l ++ [x]) = l ++ [y].
Proof. by rewrite insert_app_r_alt, Nat.sub_diag. Qed.

Lemma awaited_ok `{Napi} {S T} (t : T) parsers parserThis exec comp del c (r : Runtime S T) ctx s1 st t' s2 cst out s3 :
  ParseInputs parsers parserThis c (Init t) (native r) = Ok (ctx, s1) -> thrown ctx = None -> callbackRef ctx = None ->
  exec ctx s1 = Goes (st, t', s2) -> comp (with_own ctx t') s2 = Goes (cst, out, s3) ->
  exists r', awaited (async_call t parsers parserThis exec comp del c) r = Goes (promise_of (report_of st cst out), r') /\
    native r' = del (with_own ctx t') s3.
Proof.
  intros Ep Et Ec Ee Ecm. unfold awaited, async_call. rewrite Ep. simpl. unfold DoAsyncWork. rewrite Et, Ec. simpl.
  rewrite length_app, Nat.add_1_r. simpl. unfold await, execute. simpl. rewrite lookup_snoc. simpl. rewrite Ee. simpl.
  unfold complete. simpl. rewrite insert_snoc, lookup_snoc. simpl. unfold at_stage. simpl. rewrite Ecm. unfold settle. simpl.
  destruct (report_of st cst out) as [[v|]|m]; simpl; eexists; (split; [by rewrite ?insert_snoc, lookup_snoc|done]).
Qed.

Lemma awaited_stuck `{Napi} {S T} (t : T) parsers parserThis exec comp del c (r : Runtime S T) ctx s1 :
  ParseInputs parsers parserThis c (Init t) (native r) = Ok (ctx, s1) -> thrown ctx = None -> callbackRef ctx = None ->
  (exec ctx s1 = Blocks -> awaited (async_call t parsers parserThis exec comp del c) r = Blocks) /\
  (exec ctx s1 = Dies -> awaited (async_call t parsers parserThis exec comp del c) r = Dies).
Proof.
  intros Ep Et Ec. unfold awaited, async_call. rewrite Ep. simpl. unfold DoAsyncWork. rewrite Et, Ec. simpl.
  rewrite length_app, Nat.add_1_r. simpl. unfold await, execute. simpl. rewrite lookup_snoc. simpl. split; by intros ->.
Qed.

(** Two calls on a counter, the second with a callback; the second ends first. *)
Definition counter_exec : NapiAsyncExecute Z unit := fun _ s => Goes (OK, tt, s + 1).
Definition counter_complete : NapiAsyncComplete Z unit := fun _ s => Goes (OK, Some (JNumber s), s).
Definition two_calls : Runtime Z unit :=
  (DoAsyncWork (with_callback (Init tt) (JFunction 9)) counter_exec counter_complete (fun _ s => s)
    (DoAsyncWork (Init tt) counter_exec counter_complete (fun _ s => s) (start 0).1).2).2.
Definition second_done : Runtime Z unit := match await 1 two_calls with Goes r => r | _ => two_calls end.

Lemma calls_answered_once_witness :
  NoDup (omap deferred (works second_done)) /\ called second_done ≡ₚ omap answered (works second_done).
Proof.
  destruct (calls_answered_once 0 second_done [APromise 0; Nothing]) as (_ & Hn & Hc & _); [|exact (conj Hn Hc)].
  eapply rtc_l; [by apply (step_call (Init tt) counter_exec counter_complete (fun _ s => s))|].
  eapply rtc_l; [by apply (step_call (with_callback (Init tt) (JFunction 9)) counter_exec counter_complete (fun _ s => s))|].
  eapply rtc_l; [eapply (step_execute 1); reflexivity|]. eapply rtc_l; [eapply (step_complete 1); reflexivity|]. apply rtc_refl.
Defined.

Example second_before_first :
  promises second_done = [Pending] /\ called second_done = [(JFunction 9, Success (Some (JNumber 1)))] /\
  exists r, await 0 second_done = Goes r /\ promises r = [Resolved (JNumber 2)].
Proof. split_and!; [done..|]. by eexists. Qed.
