(* ===== verification/JsPreferences.v ===== *)
(** * Preferences of the bindings

    Models of frameworks/js/napi/preferences/src: napi_preferences.cpp and
    napi_storage.cpp (the classes around preferences objects),
    napi_preferences_helper.cpp and napi_storage_helper.cpp (opening and deleting them)
    and napi_system_storage.cpp (one store of short texts). *)
From S2P Require Import Prelude Strings StdMap Memory Disk PreferencesErrno PreferencesXml PreferencesImpl PreferencesSpec PreferencesHelper Napi NapiAsync.
From Stdlib Require Import Ascii.

#[local] Open Scope list_scope.

Module PI := PreferencesImpl.

(** ** The native state

    Preferences objects with the tasks each has in its pool; the JavaScript objects that
    hold them, each with the observer registered last; the functions of the observers
    made so far, and the calls they got. *)
Record Object := mkObject { object_impl : PreferencesImpl; object_tasks : list task }.
Record Proxy := mkProxy { value_ : nat; observer_ : option Z }.
Record Kit := mkKit {
  proxies : gmap Z Proxy;
  objects : gmap nat Object;
  opener : Helper;
  storage : FS;
  observers : list js;
  heard : list (js * string);
}.
Definition with_proxies (k : Kit) (ps : gmap Z Proxy) : Kit :=
  mkKit ps (objects k) (opener k) (storage k) (observers k) (heard k).
Definition with_object (k : Kit) (n : nat) (o : Object) : Kit :=
  mkKit (proxies k) (<[n := o]> (objects k)) (opener k) (storage k) (observers k) (heard k).
Definition with_opener (k : Kit) (h : Helper) (f : FS) : Kit :=
  mkKit (proxies k) (objects k) h f (observers k) (heard k).
Definition with_observer_function (k : Kit) (f : js) : Kit :=
  mkKit (proxies k) (objects k) (opener k) (storage k) (observers k ++ [f]) (heard k).

(** Only the proxy an observer was registered on owns it. *)
Definition alive (k : Kit) (o : Z) : bool :=
  existsb (fun p => bool_decide (observer_ p.2 = Some o)) (map_to_list (proxies k)).

(** [OnChange] of an observer calls its function with the key. *)
Definition OnChange (fs : list js) (n : Z * string) : option (js * string) :=
  f ← fs !! Z.to_nat n.1; Some (f, n.2).

(** A method of a preferences object. *)
Definition on_object {A} (n : nat) (m : P A) (k : Kit) : progress (A * Kit) :=
  match objects k !! n with
  | None => Dies
  | Some o =>
      match m (mkWorld (object_impl o) (storage k) (object_tasks o) []) with
      | PI.Returns (a, w) =>
          Goes (a, mkKit (proxies k) (<[n := mkObject (impl w) (tasks w)]> (objects k)) (opener k) (fs w) (observers k)
                  (heard k ++ omap (OnChange (observers k)) (notified w)))
      | PI.Waits => Blocks
      | PI.Terminates => Dies
      end
  end.

(** The object behind a pointer to a proxy; a null pointer is dereferenced. *)
Definition on_proxy {A} (p : option Z) (m : P A) (k : Kit) : progress (A * Kit) :=
  match p with
  | Some p => match proxies k !! p with Some x => on_object (value_ x) m k | None => Dies end
  | None => Dies
  end.

Section Kit.
Context `{Napi} `{RealPath} `{Xml} `{FloatText}.

(** [PreferencesHelper::GetPreferences]; [Init] schedules the loading of a new object. *)
Definition open_preferences (path : string) (k : Kit) : Z * option nat * Kit :=
  let '(code, pref, h) := GetPreferences path (opener k) in
  let k := with_opener k h (storage k) in
  match pref with
  | None => (code, None, k)
  | Some n =>
      match objects k !! n, created h !! n with
      | None, Some filePath =>
          match PI.Init start_code (mkWorld (new_PreferencesImpl filePath) (storage k) [] []) with
          | PI.Returns (_, w) => (code, Some n, with_object k n (mkObject (impl w) (tasks w)))
          | _ => (code, Some n, k)
          end
      | _, _ => (code, Some n, k)
      end
  end.
Definition delete_preferences (path : string) (k : Kit) : Z * Kit :=
  let '((code, h), f) := DeletePreferences path (opener k) (storage k) in (code, with_opener k h f).
Definition remove_from_cache (path : string) (k : Kit) : Z * Kit :=
  let '(code, h) := RemovePreferencesFromCache path (opener k) in (code, with_opener k h (storage k)).

(** A text read into a buffer of [n] bytes; [None] when the value is not a text, and the
    buffer stays as it was. *)
Definition read_text (v : js) (n : nat) : option string :=
  JSUtils.buffer_text <$> napi_get_value_string_utf8 v (Z.of_nat n).

(** ** What both classes do alike *)
Record PreferencesAysncContext := mkPrefContext {
  key : string;
  defValue : PreferencesValue;
  allElements : prefs;
  hasKey : bool;
}.
Definition new_context : PreferencesAysncContext := mkPrefContext "" (PInt 0) [] false.

Definition ParseKey : InputParser Kit PreferencesAysncContext := fun arg ctx k =>
  let c := own ctx in
  Ok (with_own ctx (mkPrefContext (default "" (read_text arg MAX_KEY_LENGTH)) (defValue c) (allElements c) (hasKey c)), k).

Definition def_value (arg : js) : option PreferencesValue :=
  match napi_typeof arg with
  | napi_number => Some (PDouble (default 0 (napi_get_value_double arg)))
  | napi_string => Some (PString (default "" (read_text arg MAX_VALUE_LENGTH)))
  | napi_boolean => Some (PBool (default false (napi_get_value_bool arg)))
  | _ => None
  end.
Definition ParseDefValue : InputParser Kit PreferencesAysncContext := fun arg ctx k =>
  let c := own ctx in
  Ok (match def_value arg with
      | Some v => with_own ctx (mkPrefContext (key c) v (allElements c) (hasKey c))
      | None => ctx
      end, k).

Definition finished {A} (f : A -> Z * PreferencesAysncContext) (r : progress (A * Kit)) : progress (Z * PreferencesAysncContext * Kit) :=
  match r with Goes (a, k) => Goes ((f a).1, (f a).2, k) | Blocks => Blocks | Dies => Dies end.

(** The value found, of the type of the default. *)
Definition get_typed (key : string) (defValue : PreferencesValue) : option (P PreferencesValue) :=
  match defValue with
  | PBool b => Some (PBool <$> GetBool key b)
  | PString s => Some (PString <$> GetString key s)
  | PDouble d => Some (PDouble <$> GetDouble key d)
  | _ => None
  end.
Definition put_typed (key : string) (value : PreferencesValue) : option (P Z) :=
  match value with
  | PBool b => Some (PutBool key b)
  | PString s => Some (PutString key s)
  | PDouble d => Some (PutDouble key d)
  | _ => None
  end.

Definition get_execute : NapiAsyncExecute Kit PreferencesAysncContext := fun ctx k =>
  let c := own ctx in
  match get_typed (key c) (defValue c) with
  | Some m => finished (fun v => (OK, mkPrefContext (key c) v (allElements c) (hasKey c))) (on_proxy (boundObj ctx) m k)
  | None => Goes (ERR, c, k)
  end.
Definition get_complete : NapiAsyncComplete Kit PreferencesAysncContext := fun ctx k =>
  match defValue (own ctx) with
  | PBool b => Goes (OK, napi_get_boolean b, k)
  | PString s => Goes (OK, napi_create_string_utf8 s, k)
  | PDouble d => Goes (OK, napi_create_double d, k)
  | _ => Goes (ERR, None, k)
  end.

Definition put_execute : NapiAsyncExecute Kit PreferencesAysncContext := fun ctx k =>
  let c := own ctx in
  match put_typed (key c) (defValue c) with
  | Some m => finished (fun code => (code, c)) (on_proxy (boundObj ctx) m k)
  | None => Goes (ERR, c, k)
  end.

(** An operation that answers with a code. *)
Definition code_execute (m : PreferencesAysncContext -> Kit -> P Z) : NapiAsyncExecute Kit PreferencesAysncContext := fun ctx k =>
  finished (fun code => (code, own ctx)) (on_proxy (boundObj ctx) (m (own ctx) k) k).
Definition has_execute : NapiAsyncExecute Kit PreferencesAysncContext := fun ctx k =>
  let c := own ctx in
  finished (fun b => (OK, mkPrefContext (key c) (defValue c) (allElements c) b)) (on_proxy (boundObj ctx) (PI.HasKey (key c)) k).
Definition all_execute : NapiAsyncExecute Kit PreferencesAysncContext := fun ctx k =>
  let c := own ctx in
  finished (fun m => (OK, mkPrefContext (key c) (defValue c) m (hasKey c))) (on_proxy (boundObj ctx) PI.GetAll k).

Definition undefined_complete {T} : NapiAsyncComplete Kit T := fun _ k => Goes (OK, Some JUndefined, k).
Definition has_complete : NapiAsyncComplete Kit PreferencesAysncContext := fun ctx k =>
  let output := napi_get_boolean (hasKey (own ctx)) in Goes (if bool_decide (is_Some output) then OK else ERR, output, k).

(** The elements as an object; what is neither a truth value nor a double is taken for a
    text, and an exception nobody catches is thrown when it is none. *)
Definition element_output (value : PreferencesValue) : progress (option js) :=
  match value with
  | PBool b => Goes (napi_get_boolean b)
  | PDouble d => Goes (napi_create_double d)
  | PString s => Goes (napi_create_string_utf8 s)
  | _ => Dies
  end.
Fixpoint set_elements (output : js) (allElements : prefs) : progress (Z * option js) :=
  match allElements with
  | [] => Goes (OK, Some output)
  | (key, value) :: allElements =>
      match element_output value with
      | Goes (Some v) =>
          match napi_set_named_property output key (Some v) with
          | Some output => set_elements output allElements
          | None => Goes (ERR, Some output)
          end
      | Goes None => Goes (ERR, Some output)
      | Blocks => Blocks
      | Dies => Dies
      end
  end.
Definition GetAllExecute : NapiAsyncComplete Kit PreferencesAysncContext := fun ctx k =>
  match napi_create_object with
  | None => Goes (ERR, None, k)
  | Some output =>
      match set_elements output (allElements (own ctx)) with
      | Goes (code, output) => Goes (code, output, k)
      | Blocks => Blocks
      | Dies => Dies
      end
  end.

(** The contexts hold nothing to release. *)
Definition start_work {T} (t : T) (parsers : list (InputParser Kit T)) (exec : NapiAsyncExecute Kit T) (comp : NapiAsyncComplete Kit T)
  : call -> Runtime Kit T -> outcome (handle * Runtime Kit T) :=
  async_call t parsers DefParserThis exec comp (fun _ k => k).
End Kit.

(** ** Objects

    The constructors, the observers and the sync methods run on the thread of the
    script. The message of a failed [napi_unwrap] is the runtime's. *)
Section Objects.
Context `{Napi} `{RealPath} `{Xml} `{FloatText}.

Definition assert_that (assertion : bool) (message : string) (m : Kit -> progress (reply * Kit)) : Kit -> progress (reply * Kit) :=
  fun k => if assertion then m k else Goes (Raises message, k).
Definition has_type (v : js) (t : napi_valuetype) : bool := bool_decide (napi_typeof v = t).
Definition unwrapped (c : call) (m : Z -> Kit -> progress (reply * Kit)) : Kit -> progress (reply * Kit) :=
  match napi_unwrap (this c) with Some p => m p | None => fun k => Goes (Raises "Invalid argument", k) end.

(** [p] is the address of the new proxy. *)
Definition new_proxy (p : Z) (c : call) (k : Kit) : reply * Kit :=
  if negb (has_type (arg c 0) napi_string) then (Raises "input type not string", k)
  else
    match read_text (arg c 0) PATH_MAX with
    | None => (Replies None, k)
    | Some path =>
        let '(errCode, preference, k) := open_preferences path k in
        match preference with
        | None => (Raises "failed to call native", k)
        | Some n => (Replies (Some (JInstance p)), with_proxies k (<[p := mkProxy n None]> (proxies k)))
        end
    end.
(** The status of [napi_new_instance] and the instance; an exception stays pending. *)
Definition new_instance (p : Z) (arg : js) (k : Kit) : option js * Kit :=
  match new_proxy p (mkCall JUndefined [arg]) k with
  | (Replies v, k) => (v, k)
  | (Raises _, k) => (None, k)
  end.
Definition destroy_proxy (p : Z) (k : Kit) : Kit := with_proxies k (delete p (proxies k)).

(** A second observer takes the place of the first, which nobody owns then. *)
Definition register_observer (c : call) : Kit -> progress (reply * Kit) :=
  assert_that (has_type (arg c 0) napi_string) "key not string type"
    (assert_that (has_type (arg c 1) napi_function) "observer not function type"
      (unwrapped c (fun p k =>
        match proxies k !! p with
        | None => Dies
        | Some x =>
            let o := Z.of_nat (length (observers k)) in
            let k := with_observer_function k (arg c 1) in
            let k := with_proxies k (<[p := mkProxy (value_ x) (Some o)]> (proxies k)) in
            match on_proxy (Some p) (PI.RegisterObserver o) k with
            | Goes (_, k) => Goes (Replies None, k)
            | Blocks => Blocks
            | Dies => Dies
            end
        end))).
(** No observer has the number -1. *)
Definition unregister_observer (c : call) : Kit -> progress (reply * Kit) :=
  assert_that (has_type (arg c 0) napi_string) "key not string type"
    (assert_that (has_type (arg c 1) napi_function) "observer not function type"
      (unwrapped c (fun p k =>
        match proxies k !! p with
        | None => Dies
        | Some x =>
            match on_proxy (Some p) (PI.UnRegisterObserver (alive k) (default (-1) (observer_ x))) k with
            | Goes (_, k) => Goes (Replies None, with_proxies k (<[p := mkProxy (value_ x) None]> (proxies k)))
            | Blocks => Blocks
            | Dies => Dies
            end
        end))).
End Objects.

(** ** napi_preferences.cpp *)
Module PreferencesProxy.
Section Class.
Context `{Napi} `{RealPath} `{Xml} `{FloatText}.

Definition New : Z -> call -> Kit -> reply * Kit := new_proxy.
Definition NewInstance : Z -> js -> Kit -> option js * Kit := new_instance.
Definition Destructor : Z -> Kit -> Kit := destroy_proxy.
Definition RegisterObserver : call -> Kit -> progress (reply * Kit) := register_observer.
Definition UnRegisterObserver : call -> Kit -> progress (reply * Kit) := unregister_observer.

Abbreviation method := (call -> Runtime Kit PreferencesAysncContext -> outcome (handle * Runtime Kit PreferencesAysncContext)).
Definition GetAll : method := start_work new_context [] all_execute GetAllExecute.
Definition GetValue : method := start_work new_context [ParseKey; ParseDefValue] get_execute get_complete.
Definition SetValue : method := start_work new_context [ParseKey; ParseDefValue] put_execute undefined_complete.
Definition Delete : method := start_work new_context [ParseKey] (code_execute (fun c _ => PI.Delete (key c))) undefined_complete.
Definition HasKey : method := start_work new_context [ParseKey] has_execute has_complete.
Definition Flush : method := start_work new_context [] (code_execute (fun _ k => PI.FlushSync (alive k))) undefined_complete.
Definition Clear : method := start_work new_context [] (code_execute (fun _ _ => PI.Clear)) undefined_complete.

Definition functions : list (string * method) :=
  [("put", SetValue); ("get", GetValue); ("getAll", GetAll); ("delete", Delete); ("clear", Clear); ("has", HasKey); ("flush", Flush)].
Definition sync_functions : list (string * (call -> Kit -> progress (reply * Kit))) :=
  [("on", RegisterObserver); ("off", UnRegisterObserver)].
End Class.
End PreferencesProxy.

(** ** napi_storage.cpp *)
Module StorageProxy.
Section Class.
Context `{Napi} `{RealPath} `{Xml} `{FloatText}.

Definition New : Z -> call -> Kit -> reply * Kit := new_proxy.
Definition NewInstance : Z -> js -> Kit -> option js * Kit := new_instance.
Definition Destructor : Z -> Kit -> Kit := destroy_proxy.
Definition RegisterObserver : call -> Kit -> progress (reply * Kit) := register_observer.
Definition UnRegisterObserver : call -> Kit -> progress (reply * Kit) := unregister_observer.

(** The context has no elements here. *)
Abbreviation method := (call -> Runtime Kit PreferencesAysncContext -> outcome (handle * Runtime Kit PreferencesAysncContext)).
Definition GetValue : method := start_work new_context [ParseKey; ParseDefValue] get_execute get_complete.
Definition SetValue : method := start_work new_context [ParseKey; ParseDefValue] put_execute undefined_complete.
Definition Delete : method := start_work new_context [ParseKey] (code_execute (fun c _ => PI.Delete (key c))) undefined_complete.
Definition HasKey : method := start_work new_context [ParseKey] has_execute has_complete.
Definition Flush : method := start_work new_context [] (code_execute (fun _ k => PI.FlushSync (alive k))) undefined_complete.
Definition Clear : method := start_work new_context [] (code_execute (fun _ _ => PI.Clear)) undefined_complete.

(** *** Synchronous methods *)
Definition sync_method : Type := call -> Kit -> progress (reply * Kit).
Definition returning {A} (f : A -> reply) (r : progress (A * Kit)) : progress (reply * Kit) :=
  match r with Goes (a, k) => Goes (f a, k) | Blocks => Blocks | Dies => Dies end.
(** [NAPI_CALL] throws when the value cannot be made. *)
Definition made (v : option js) : reply := match v with Some v => Replies (Some v) | None => Raises "Invalid argument" end.
Definition ok_or (message : string) (result : Z) : reply := if result =? E_OK then Replies None else Raises message.
(** The key of a call with [n] arguments. *)
Definition with_key (n : Z) (c : call) (m : string -> Kit -> progress (reply * Kit)) : Kit -> progress (reply * Kit) :=
  assert_that (argc c =? n) "Wrong number of arguments"
    (assert_that (has_type (arg c 0) napi_string) "type mismatch for key"
      (match read_text (arg c 0) MAX_KEY_LENGTH with
       | Some key => m key
       | None => fun k => Goes (Raises "Invalid argument", k)
       end)).

Definition GetValueSync : sync_method := fun c =>
  with_key 2 c (fun key => unwrapped c (fun p =>
    match napi_typeof (arg c 1) with
    | napi_number =>
        match napi_get_value_double (arg c 1) with
        | Some value => fun k => returning (fun d => made (napi_create_double d)) (on_proxy (Some p) (GetDouble key value) k)
        | None => fun k => Goes (Raises "Invalid argument", k)
        end
    | napi_string => fun k =>
        let value := default "" (read_text (arg c 1) MAX_VALUE_LENGTH) in
        returning (fun s => made (napi_create_string_utf8 s)) (on_proxy (Some p) (GetString key value) k)
    | napi_boolean =>
        match napi_get_value_bool (arg c 1) with
        | Some value => fun k => returning (fun b => made (napi_get_boolean b)) (on_proxy (Some p) (GetBool key value) k)
        | None => fun k => Goes (Raises "Invalid argument", k)
        end
    | _ => fun k => Goes (Raises "Wrong second parameter type", k)
    end)).
Definition SetValueSync : sync_method := fun c =>
  with_key 2 c (fun key => unwrapped c (fun p =>
    match napi_typeof (arg c 1) with
    | napi_number =>
        match napi_get_value_double (arg c 1) with
        | Some value => fun k => returning (ok_or "call PutDouble failed") (on_proxy (Some p) (PutDouble key value) k)
        | None => fun k => Goes (Raises "Invalid argument", k)
        end
    | napi_string => fun k =>
        let value := default "" (read_text (arg c 1) MAX_VALUE_LENGTH) in
        returning (ok_or "call PutString failed") (on_proxy (Some p) (PutString key value) k)
    | napi_boolean =>
        match napi_get_value_bool (arg c 1) with
        | Some value => fun k => returning (ok_or "call PutBool failed") (on_proxy (Some p) (PutBool key value) k)
        | None => fun k => Goes (Raises "Invalid argument", k)
        end
    | _ => fun k => Goes (Raises "Wrong second parameter type", k)
    end)).
Definition DeleteSync : sync_method := fun c =>
  with_key 1 c (fun key => unwrapped c (fun p k => returning (ok_or "call Delete failed") (on_proxy (Some p) (PI.Delete key) k))).
Definition HasKeySync : sync_method := fun c =>
  with_key 1 c (fun key => unwrapped c (fun p k => returning (fun b => made (napi_get_boolean b)) (on_proxy (Some p) (PI.HasKey key) k))).
Definition FlushSync : sync_method := fun c =>
  unwrapped c (fun p k => returning (fun result => made (napi_create_int64 result)) (on_proxy (Some p) (PI.FlushSync (alive k)) k)).
Definition ClearSync : sync_method := fun c =>
  unwrapped c (fun p k => returning (ok_or "call Clear failed") (on_proxy (Some p) PI.Clear k)).

Definition functions : list (string * method) :=
  [("put", SetValue); ("get", GetValue); ("delete", Delete); ("clear", Clear); ("has", HasKey); ("flush", Flush)].
Definition sync_functions : list (string * sync_method) :=
  [("putSync", SetValueSync); ("getSync", GetValueSync); ("deleteSync", DeleteSync); ("clearSync", ClearSync);
   ("hasSync", HasKeySync); ("flushSync", FlushSync); ("on", RegisterObserver); ("off", UnRegisterObserver)].
End Class.
End StorageProxy.

(** ** Opening and deleting

    [p] is the address of the proxy that a completion makes. *)
Record HelperAysncContext := mkHelperContext { path : string; app : option JSAbility.Context }.

Section Helpers.
Context `{Napi} `{RealPath} `{Xml} `{FloatText} `{AbilityRuntime}.
Abbreviation helper_method := (call -> Runtime Kit HelperAysncContext -> outcome (handle * Runtime Kit HelperAysncContext)).
Abbreviation helper_execute := (NapiAsyncExecute Kit HelperAysncContext).

Definition new_helper_context : HelperAysncContext := mkHelperContext "" None.
Definition open_execute : helper_execute := fun ctx k =>
  let '(errCode, _, k) := open_preferences (path (own ctx)) k in Goes (errCode, own ctx, k).
Definition delete_execute : helper_execute := fun ctx k =>
  let '(errCode, k) := delete_preferences (path (own ctx)) k in Goes (errCode, own ctx, k).
Definition remove_execute : helper_execute := fun ctx k =>
  let '(errCode, k) := remove_from_cache (path (own ctx)) k in Goes (errCode, own ctx, k).
(** The path goes through a C string. *)
Definition instance_complete (p : Z) : NapiAsyncComplete Kit HelperAysncContext := fun ctx k =>
  match napi_create_string_utf8 (c_str (path (own ctx))) with
  | None => Goes (ERR, None, k)
  | Some v => let '(output, k) := new_instance p v k in Goes (if bool_decide (is_Some output) then OK else ERR, output, k)
  end.
End Helpers.

(** ** napi_preferences_helper.cpp *)
Module PreferencesHelperBinding.
Section Binding.
Context `{Napi} `{RealPath} `{Xml} `{FloatText} `{AbilityRuntime}.
Abbreviation helper_method := (call -> Runtime Kit HelperAysncContext -> outcome (handle * Runtime Kit HelperAysncContext)).

Definition ParseContext : InputParser Kit HelperAysncContext := fun object ctx k =>
  match JSAbility.GetContext object with
  | None => Ok (with_error ctx "ParseContext get context failed.", k)
  | context => Ok (with_own ctx (mkHelperContext (path (own ctx)) context), k)
  end.
Definition ParseName : InputParser Kit HelperAysncContext := fun value ctx k =>
  match app (own ctx) with
  | None => Ok (with_error ctx "ParseName context is null.", k)
  | Some context =>
      let name := JSUtils.Convert2String value true in
      if empty name then Ok (with_error ctx "Get preferences name empty.", k)
      else if existsb (fun c => Ascii.eqb c "/") (String.list_ascii_of_string name)
      then Ok (with_error ctx "A name without path should be input.", k)
      else Ok (with_own ctx (mkHelperContext (JSAbility.GetDatabaseDir context +:+ "/" +:+ name) (Some context)), k)
  end.

Definition GetPreferences (p : Z) : helper_method := start_work new_helper_context [ParseContext; ParseName] open_execute (instance_complete p).
Definition DeletePreferences : helper_method := start_work new_helper_context [ParseContext; ParseName] delete_execute undefined_complete.
Definition RemovePreferencesFromCache : helper_method := start_work new_helper_context [ParseContext; ParseName] remove_execute undefined_complete.
End Binding.
End PreferencesHelperBinding.

(** ** napi_storage_helper.cpp *)
Module StorageHelperBinding.
Section Binding.
Context `{Napi} `{RealPath} `{Xml} `{FloatText}.
Abbreviation helper_method := (call -> Runtime Kit HelperAysncContext -> outcome (handle * Runtime Kit HelperAysncContext)).

(** The buffer is not initialised when the value is not a text. *)
Definition ParseString : InputParser Kit HelperAysncContext := fun value ctx k =>
  match read_text value PATH_MAX with
  | Some path => Ok (with_own ctx (mkHelperContext path (app (own ctx))), k)
  | None => Undefined
  end.
Definition GetStorage (p : Z) : helper_method := start_work new_helper_context [ParseString] open_execute (instance_complete p).
Definition DeleteStorage : helper_method := start_work new_helper_context [ParseString] delete_execute undefined_complete.
Definition RemoveStorageFromCache : helper_method := start_work new_helper_context [ParseString] remove_execute undefined_complete.

Definition GetInputPath (c : call) : option string :=
  if negb (has_type (arg c 0) napi_string) then None else read_text (arg c 0) PATH_MAX.
Definition GetStorageSync (p : Z) (c : call) (k : Kit) : reply * Kit := StorageProxy.New p (mkCall JUndefined [arg c 0]) k.
Definition DeleteStorageSync (c : call) (k : Kit) : reply * Kit :=
  match GetInputPath c with
  | None => (Raises "Input path error", k)
  | Some path => let '(errCode, k) := delete_preferences path k in (if errCode =? E_OK then Replies None else Raises "deleteStorage failed", k)
  end.
Definition RemoveStorageFromCacheSync (c : call) (k : Kit) : reply * Kit :=
  match GetInputPath c with
  | None => (Raises "Input path error", k)
  | Some path => let '(errCode, k) := remove_from_cache path k in (if errCode =? E_OK then Replies None else Raises "removeStorageFromCache failed", k)
  end.
End Binding.
End StorageHelperBinding.

(** ** napi_system_storage.cpp

    The options of a call are an object with texts and callbacks; the store is the file
    default.xml of the application. *)
Module SystemStorage.
Record AsyncContext := mkAsyncContext {
  key : string;
  def : string;
  val : string;
  success : option js;
  fail : option js;
  complete : option js;
  output : Z;
}.
Definition MAX_KEY_LENGTH : nat := 32.
Definition MAX_VALUE_LENGTH : nat := 128.
Definition set_output (c : AsyncContext) (code : Z) : AsyncContext :=
  mkAsyncContext (key c) (def c) (val c) (success c) (fail c) (complete c) code.
Definition set_val (c : AsyncContext) (v : string) : AsyncContext :=
  mkAsyncContext (key c) (def c) v (success c) (fail c) (complete c) (output c).

Section Storage.
Context `{Napi} `{RealPath} `{Xml} `{FloatText} `{AbilityRuntime}.

(** The text parsed, if any, and the error thrown. *)
Definition ParseString (object : js) (name : string) (enable : bool) : option string * option string :=
  match napi_get_named_property object name with
  | Some value =>
      let key := JSUtils.Convert2String value true in
      if enable || negb (empty key) then (Some key, None) else (None, Some "StorageOptions is empty.")
  | None => (None, None)
  end.
Definition ParseFunction (object : js) (name : string) : option js * option string :=
  match napi_get_named_property object name with
  | Some value =>
      if bool_decide (napi_typeof value = napi_function) then (Some value, None)
      else (None, Some "Wrong argument, function expected.")
  | None => (None, None)
  end.

Definition GetMessageInfo (errCode : Z) : string :=
  if errCode =? E_KEY_EMPTY then "The key string is null or empty."
  else if errCode =? E_KEY_EXCEED_LENGTH_LIMIT then "The key string length should shorter than 32."
  else if errCode =? E_VALUE_EXCEED_LENGTH_LIMIT then "The value string length should shorter than 128."
  else if errCode =? E_DEFAULT_EXCEED_LENGTH_LIMIT then "The default string length should shorter than 128."
  else "unknown err".

(** The callbacks called, in order, with their arguments; and whether the promise is
    resolved, which it is not after a function of the runtime has failed. *)
Definition Complete (ctx : AsyncContext) : list (js * list js) * bool :=
  let after_success (calls : list (js * list js)) (rest : list (js * list js) -> list (js * list js) * bool) :=
    if output ctx =? E_OK then
      match success ctx with
      | None => rest calls
      | Some f => match napi_create_string_utf8 (val ctx) with Some v => rest (calls ++ [(f, [v])]) | None => (calls, false) end
      end
    else rest calls in
  let after_fail (calls : list (js * list js)) (rest : list (js * list js) -> list (js * list js) * bool) :=
    if negb (output ctx =? E_OK) then
      match fail ctx with
      | None => rest calls
      | Some f =>
          match napi_create_string_utf8 (GetMessageInfo (output ctx)), napi_create_int32 (output ctx) with
          | Some m, Some code => rest (calls ++ [(f, [m; code])])
          | _, _ => (calls, false)
          end
      end
    else rest calls in
  after_success [] (fun calls => after_fail calls (fun calls =>
    match complete ctx with
    | None => (calls, true)
    | Some f => (calls ++ [(f, [])], true)
    end)).

Definition GetPrefName : option string :=
  context ← JSAbility.GetContext JUndefined; Some (JSAbility.GetPreferencesDir context +:+ "/default.xml").

Definition executor : Type := AsyncContext -> Kit -> progress (AsyncContext * Kit).

(** The error of the call, if any, and the context its work has. *)
Definition Operate (c : call) : string + option string * AsyncContext :=
  if negb (argc c =? 1) then inl "Not enough arguments, expected 1."
  else if negb (has_type (arg c 0) napi_object) then inl "Wrong argument type, object expected."
  else
    let '(key, e1) := ParseString (arg c 0) "key" true in
    let '(value, e2) := ParseString (arg c 0) "value" false in
    let '(def, e3) := ParseString (arg c 0) "default" false in
    let '(success, e4) := ParseFunction (arg c 0) "success" in
    let '(fail, e5) := ParseFunction (arg c 0) "fail" in
    let '(complete, e6) := ParseFunction (arg c 0) "complete" in
    inr (head (omap id [e1; e2; e3; e4; e5; e6]),
         mkAsyncContext (default "" key) (default "" def) (default "" value) success fail complete E_ERROR).

(** A step with the preferences of the store; the code of opening them comes first. *)
Definition with_store (ctx : AsyncContext) (m : AsyncContext -> option nat -> Kit -> progress (AsyncContext * Kit)) (k : Kit) : progress (AsyncContext * Kit) :=
  match GetPrefName with
  | None => Dies
  | Some prefName => let '(code, pref, k) := open_preferences prefName k in m (set_output ctx code) pref k
  end.
Definition if_opened (m : nat -> Kit -> progress (Z * Kit)) (ctx : AsyncContext) (pref : option nat) (k : Kit) : progress (AsyncContext * Kit) :=
  if negb (output ctx =? E_OK) then Goes (ctx, k)
  else
    match pref with
    | None => Dies
    | Some n => match m n k with Goes (code, k) => Goes (set_output ctx code, k) | Blocks => Blocks | Dies => Dies end
    end.
Definition too_long (s : string) (n : nat) : bool := (n <? String.length s)%nat.

Definition NapiGet : executor := fun ctx k =>
  if too_long (key ctx) MAX_KEY_LENGTH then Goes (set_output ctx E_KEY_EXCEED_LENGTH_LIMIT, k)
  else if too_long (def ctx) MAX_VALUE_LENGTH then Goes (set_output ctx E_DEFAULT_EXCEED_LENGTH_LIMIT, k)
  else
    with_store ctx (fun ctx pref k =>
      match pref with
      | None => Dies
      | Some n =>
          match on_object n (GetString (key ctx) (def ctx)) k with
          | Goes (v, k) => Goes (set_val ctx v, k)
          | Blocks => Blocks
          | Dies => Dies
          end
      end) k.
Definition NapiSet : executor := fun ctx k =>
  if too_long (key ctx) MAX_KEY_LENGTH then Goes (set_output ctx E_KEY_EXCEED_LENGTH_LIMIT, k)
  else if too_long (val ctx) MAX_VALUE_LENGTH then Goes (set_output ctx E_VALUE_EXCEED_LENGTH_LIMIT, k)
  else with_store ctx (if_opened (fun n => on_object n (PutString (key ctx) (val ctx)))) k.
Definition NapiDelete : executor := fun ctx k =>
  if too_long (key ctx) MAX_KEY_LENGTH then Goes (set_output ctx E_KEY_EXCEED_LENGTH_LIMIT, k)
  else with_store ctx (if_opened (fun n => on_object n (PI.Delete (key ctx)))) k.
Definition NapiClear : executor := fun ctx k => with_store ctx (if_opened (fun n => on_object n PI.Clear)) k.

(** A call whose work runs to its end: the error thrown, the callbacks called. *)
Definition run (e : executor) (c : call) (k : Kit) : progress (option string * list (js * list js) * bool * Kit) :=
  match Operate c with
  | inl message => Goes (Some message, [], false, k)
  | inr (thrown, ctx) =>
      match e ctx k with
      | Goes (ctx, k) => let '(calls, resolved) := Complete ctx in Goes (thrown, calls, resolved, k)
      | Blocks => Blocks
      | Dies => Dies
      end
  end.

Definition functions : list (string * executor) :=
  [("get", NapiGet); ("delete", NapiDelete); ("clear", NapiClear); ("set", NapiSet)].
End Storage.
End SystemStorage.

(** * What scripts see

    ** A map of values

    A script that awaits its calls on one preferences object sees the finite map of the
    native object: keys below 80 bytes, truth values, numbers and texts. *)
Inductive js_op :=
| JsPut (key : string) (value : js)
| JsGet (key : string) (defValue : js)
| JsHas (key : string)
| JsDelete (key : string)
| JsClear.

Definition op_call (o : js_op) : string * list js :=
  match o with
  | JsPut key value => ("put", [JString key; value])
  | JsGet key defValue => ("get", [JString key; defValue])
  | JsHas key => ("has", [JString key])
  | JsDelete key => ("delete", [JString key])
  | JsClear => ("clear", [])
  end.

(** Values of the two sides. *)
Definition stored (v : js) : PreferencesValue :=
  match v with JNumber d => PDouble d | JString s => PString s | JBoolean b => PBool b | _ => PInt 0 end.
Definition shown (v : PreferencesValue) : js :=
  match v with PDouble d => JNumber d | PString s => JString s | PBool b => JBoolean b | _ => JUndefined end.
Definition op_data (o : js_op) : data_op :=
  match o with
  | JsPut key value => DPut key (stored value)
  | JsGet key defValue => DGet key (stored defValue)
  | JsHas key => DHas key
  | JsDelete key => DDelete key
  | JsClear => DClear
  end.
Definition seen (a : answer) : promise :=
  match a with
  | Code code => if code =? E_OK then Resolved JUndefined else Rejected "async call failed"
  | Found b => Resolved (JBoolean b)
  | Value v => Resolved (shown v)
  end.

Lemma seen_code code : promise_of (report_of code OK (Some JUndefined)) = seen (Code code).
Proof. unfold report_of, OK. simpl. unfold E_OK. rewrite andb_true_r. by destruct (code =? 0). Qed.

Inductive value_ok : js -> Prop :=
| number_ok d : value_ok (JNumber d)
| truth_ok b : value_ok (JBoolean b)
| text_ok s : plain 8191 (JString s) -> value_ok (JString s).
Definition key_ok (key : string) : Prop := plain 79 (JString key).
Definition op_ok (o : js_op) : Prop :=
  match o with
  | JsPut key value | JsGet key value => key_ok key /\ value_ok value
  | JsHas key | JsDelete key => key_ok key
  | JsClear => True
  end.

Lemma P_fmap_inv {A B} (f : A -> B) (m : P A) w b w' :
  (f <$> m) w = PI.Returns (b, w') -> exists a, m w = PI.Returns (a, w') /\ b = f a.
Proof. unfold fmap, P_fmap. destruct (m w) as [[a w1]| |]; [|done..]. intros [= <- <-]. by exists a. Qed.

#[local] Arguments on_proxy : simpl never.

Section Scripts.
Context `{NapiLaws} `{RealPath} `{Xml} `{FloatText}.
Abbreviation runtime := (Runtime Kit PreferencesAysncContext).

(** The calls of a script on the object [p], each awaited. *)
Definition await_op (p : Z) (o : js_op) (r : runtime) : progress (promise * runtime) :=
  match sm_find (op_call o).1 PreferencesProxy.functions with
  | Some f => awaited (f (mkCall (JInstance p) (op_call o).2)) r
  | None => Dies
  end.
Fixpoint await_ops (p : Z) (os : list js_op) (r : runtime) : progress (list promise * runtime) :=
  match os with
  | [] => Goes ([], r)
  | o :: os =>
      match await_op p o r with
      | Goes (a, r) => match await_ops p os r with Goes (l, r) => Goes (a :: l, r) | Blocks => Blocks | Dies => Dies end
      | Blocks => Blocks
      | Dies => Dies
      end
  end.

Lemma read_text_plain s n : plain (Z.of_nat n - 1) (JString s) -> read_text (JString s) n = Some s.
Proof.
  intros Hp. inversion Hp; subst. unfold read_text. rewrite string_whole by lia. simpl. by rewrite buffer_text_whole.
Qed.

(** The binding's key is the script's. *)
Lemma key_read key ctx k :
  key_ok key -> ParseKey (JString key) ctx k = Ok (with_own ctx (mkPrefContext key (defValue (own ctx)) (allElements (own ctx)) (hasKey (own ctx))), k).
Proof. intros Hk. unfold ParseKey. by rewrite read_text_plain. Qed.

Lemma value_read v : value_ok v -> def_value v = Some (stored v).
Proof.
  unfold def_value. rewrite typeof_ok. intros [d|b|s Hs]; simpl; [by rewrite double_ok|by rewrite bool_ok|].
  by rewrite read_text_plain.
Qed.

Definition holds_object (p : Z) (n : nat) (o : Object) (k : Kit) : Prop :=
  (exists ob, proxies k !! p = Some (mkProxy n ob)) /\ objects k !! n = Some o.

(** A data operation on the object behind a proxy. *)
Lemma on_proxy_data p n obj o k :
  holds_object p n obj k -> loaded_ (object_impl obj) = true -> sm_sorted (map_ (object_impl obj)) ->
  exists p', on_proxy (Some p) (run_data o) k = Goes ((spec_data o (abs (object_impl obj))).1, with_object k n (mkObject p' (object_tasks obj))) /\
    abs p' = (spec_data o (abs (object_impl obj))).2 /\ loaded_ p' = true /\ sm_sorted (map_ p').
Proof.
  intros [[ob Hp] Hn] Hl Hs. destruct (data_refines o (mkWorld (object_impl obj) (storage k) (object_tasks obj) []) Hl Hs) as (p' & E & Ha & Hl' & Hs').
  exists p'. split; [|done]. unfold on_proxy. rewrite Hp. simpl. unfold on_object. rewrite Hn, E. simpl. unfold with_object. by rewrite app_nil_r.
Qed.

Lemma on_proxy_fmap {A B} (f : A -> B) (m : P A) p k b k' :
  on_proxy p (f <$> m) k = Goes (b, k') -> exists a, on_proxy p m k = Goes (a, k') /\ b = f a.
Proof.
  unfold on_proxy, on_object. destruct p as [p|]; [|done]. destruct (proxies k !! p); [|done]. destruct (objects k !! _) as [o|]; [|done].
  unfold fmap, P_fmap. destruct (m _) as [[a w]| |]; [|done..]. intros [= <- <-]. by exists a.
Qed.
Lemma on_proxy_fmap_to {A B} (f : A -> B) (m : P A) p k a k' :
  on_proxy p m k = Goes (a, k') -> on_proxy p (f <$> m) k = Goes (f a, k').
Proof.
  unfold on_proxy, on_object. destruct p as [p|]; [|done]. destruct (proxies k !! p); [|done]. destruct (objects k !! _) as [o|]; [|done].
  unfold fmap, P_fmap. destruct (m _) as [[a' w]| |]; [|done..]. by intros [= <- <-].
Qed.

Definition context_of (p : Z) (key : string) (v : PreferencesValue) : AysncContext PreferencesAysncContext :=
  mkContext (mkPrefContext key v [] false) (Some p) None None.

Lemma parse_key_value p key v k :
  key_ok key -> value_ok v ->
  ParseInputs [ParseKey; ParseDefValue] DefParserThis (mkCall (JInstance p) [JString key; v]) (Init new_context) k =
    Ok (context_of p key (stored v), k).
Proof.
  intros Hk Hv. unfold ParseInputs. cbn [argv parse_arguments]. rewrite key_read by done. unfold ParseDefValue.
  rewrite value_read by done. simpl. unfold DefParserThis. by rewrite unwrap_ok.
Qed.
Lemma parse_key p key k :
  key_ok key ->
  ParseInputs [ParseKey] DefParserThis (mkCall (JInstance p) [JString key]) (Init new_context) k = Ok (context_of p key (PInt 0), k).
Proof.
  intros Hk. unfold ParseInputs. cbn [argv parse_arguments]. rewrite key_read by done. simpl. unfold DefParserThis. by rewrite unwrap_ok.
Qed.
Lemma parse_none p (k : Kit) :
  ParseInputs [] DefParserThis (mkCall (JInstance p) []) (Init new_context) k = Ok (context_of p "" (PInt 0), k).
Proof. unfold ParseInputs. simpl. unfold DefParserThis. by rewrite unwrap_ok. Qed.

(** One awaited call, in terms of the operation on the native object. *)
Lemma await_op_data p o (r : runtime) a k' :
  op_ok o -> on_proxy (Some p) (run_data (op_data o)) (native r) = Goes (a, k') ->
  exists r', await_op p o r = Goes (seen a, r') /\ native r' = k'.
Proof.
  intros Ho E. unfold await_op.
  assert (Hw : forall t parsers exec comp c ctx st t' cst out,
    ParseInputs parsers DefParserThis c (Init t) (native r) = Ok (ctx, native r) -> thrown ctx = None -> callbackRef ctx = None ->
    exec ctx (native r) = Goes (st, t', k') -> comp (with_own ctx t') k' = Goes (cst, out, k') -> promise_of (report_of st cst out) = seen a ->
    exists r', awaited (start_work t parsers exec comp c) r = Goes (seen a, r') /\ native r' = k').
  { intros t parsers exec comp c ctx st t' cst out Hp Ht Hc He Hm <-. exact (awaited_ok _ _ _ _ _ _ _ _ _ _ _ _ _ _ _ _ Hp Ht Hc He Hm). }
  destruct o as [key v|key v|key|key|]; simpl in Ho, E |- *.
  - destruct Ho as [Hk Hv]. destruct Hv as [d|b|s Hs]; simpl in E; apply on_proxy_fmap in E as (code & E & ->);
      (eapply Hw; [apply parse_key_value; [done|once (by constructor)]|done|done|unfold put_execute; simpl; by rewrite E|done|apply seen_code]).
  - destruct Ho as [Hk Hv].
    destruct Hv as [d|b|s Hs]; simpl in E; apply on_proxy_fmap in E as (x & E & ->);
      (eapply Hw; [apply parse_key_value; [done|once (by constructor)]|done|done
                  |unfold get_execute; simpl; rewrite (on_proxy_fmap_to _ _ _ _ _ _ E); done|done|]); simpl.
    + by rewrite create_double_ok.
    + by rewrite get_boolean_ok.
    + by rewrite create_string_ok.
  - apply on_proxy_fmap in E as (b & E & ->).
    eapply Hw; [by apply parse_key|done|done|unfold has_execute; simpl; by rewrite E|done|]. simpl. by rewrite get_boolean_ok.
  - apply on_proxy_fmap in E as (code & E & ->).
    eapply Hw; [by apply parse_key|done|done|unfold code_execute; simpl; by rewrite E|done|apply seen_code].
  - apply on_proxy_fmap in E as (code & E & ->).
    eapply Hw; [by apply parse_none|done|done|unfold code_execute; simpl; by rewrite E|done|apply seen_code].
Qed.

(** C36: Scripts see a map. The awaited calls of a script on an object whose preferences
    are loaded give what the specification of the native object gives: a put, a delete
    or a clear resolves to undefined or is rejected, a get resolves to the value found or
    to the default, and the object afterwards holds the map of the specification; files
    and other objects are as they were. Keys have less than 80 bytes, texts less than
    8192. *)
Theorem js_preferences_refine_map os : forall p n obj (r : runtime),
  Forall op_ok os -> holds_object p n obj (native r) ->
  loaded_ (object_impl obj) = true -> sm_sorted (map_ (object_impl obj)) ->
  exists r' p', await_ops p os r = Goes (seen <$> (spec_datas (op_data <$> os) (abs (object_impl obj))).1, r') /\
    native r' = with_object (native r) n (mkObject p' (object_tasks obj)) /\
    abs p' = (spec_datas (op_data <$> os) (abs (object_impl obj))).2.
Proof.
  induction os as [|o os IH]; intros p n obj r Hok Hh Hl Hs.
  { exists r, (object_impl obj). split_and!; try done. destruct Hh as [_ Hn]. destruct (native r), obj. unfold with_object. simpl in *.
    by rewrite insert_id. }
  apply Forall_cons in Hok as [Ho Hok]. destruct (on_proxy_data p n obj (op_data o) (native r) Hh Hl Hs) as (p1 & E1 & Ha1 & Hl1 & Hs1).
  destruct (await_op_data p o r _ _ Ho E1) as (r1 & Er1 & En1).
  destruct (IH p n (mkObject p1 (object_tasks obj)) r1 Hok) as (r2 & p2 & Er2 & En2 & Ha2); [|done|done|].
  { rewrite En1. destruct Hh as [Hp _]. split; [done|]. simpl. by rewrite lookup_insert_eq. }
  exists r2, p2. cbn [await_ops fmap list_fmap spec_datas object_impl object_tasks] in *. rewrite Er1, Er2, Ha1 in *.
  destruct (spec_data (op_data o) (abs (object_impl obj))) as [a st]. simpl in *.
  destruct (spec_datas (op_data <$> os) st) as [l st2]. split_and!; [done| |done].
  rewrite En2, En1. unfold with_object. simpl. by rewrite insert_insert_eq.
Qed.

(** ** Synchronous and asynchronous calls *)

(** The calls of [Storage], synchronous and awaited. *)
Definition await_storage (p : Z) (o : js_op) (r : runtime) : progress (promise * runtime) :=
  match sm_find (op_call o).1 StorageProxy.functions with
  | Some f => awaited (f (mkCall (JInstance p) (op_call o).2)) r
  | None => Dies
  end.
Definition sync_storage (p : Z) (o : js_op) (k : Kit) : progress (reply * Kit) :=
  match sm_find ((op_call o).1 +:+ "Sync") StorageProxy.sync_functions with
  | Some f => f (mkCall (JInstance p) (op_call o).2) k
  | None => Dies
  end.

(** A value for a value, an exception for a rejection. *)
Definition agrees (a : reply) (b : promise) : Prop :=
  match a, b with
  | Replies (Some v), Resolved v' => v = v'
  | Replies None, Resolved v' => v' = JUndefined
  | Raises _, Rejected _ => True
  | _, _ => False
  end.

Lemma await_storage_same p o r : await_storage p o r = await_op p o r.
Proof. by destruct o. Qed.

Lemma on_proxy_fmap_stuck {A B} (f : A -> B) (m : P A) p k :
  (on_proxy p (f <$> m) k = Blocks <-> on_proxy p m k = Blocks) /\ (on_proxy p (f <$> m) k = Dies <-> on_proxy p m k = Dies).
Proof.
  unfold on_proxy, on_object. destruct p as [p|]; [|done]. destruct (proxies k !! p); [|done]. destruct (objects k !! _) as [o|]; [|done].
  unfold fmap, P_fmap. by destruct (m _) as [[a' w]| |].
Qed.

Lemma with_key_ok n c key m k :
  argc c = n -> arg c 0 = JString key -> key_ok key -> StorageProxy.with_key n c m k = m key k.
Proof.
  intros Hn Ha Hk. unfold StorageProxy.with_key, assert_that, has_type. rewrite Ha, typeof_ok, Hn, Z.eqb_refl. simpl. by rewrite read_text_plain.
Qed.

Lemma returning_data {A} (f : A -> reply) (g : A -> answer) (m : P A) p k :
  (forall a, agrees (f a) (seen (g a))) ->
  match on_proxy p (g <$> m) k with
  | Goes (a, k') => exists rep, StorageProxy.returning f (on_proxy p m k) = Goes (rep, k') /\ agrees rep (seen a)
  | Blocks => StorageProxy.returning f (on_proxy p m k) = Blocks
  | Dies => StorageProxy.returning f (on_proxy p m k) = Dies
  end.
Proof.
  intros Hfg. unfold on_proxy, on_object. destruct p as [p|]; [|done]. destruct (proxies k !! p); [|done].
  destruct (objects k !! _) as [o|]; [|done]. unfold fmap, P_fmap. destruct (m _) as [[a w]| |]; [|done..]. by exists (f a).
Qed.
Lemma ok_or_agrees message code : agrees (StorageProxy.ok_or message code) (seen (Code code)).
Proof. unfold StorageProxy.ok_or. simpl. by destruct (code =? E_OK). Qed.

(** The synchronous call in terms of the operation on the native object. *)
Lemma sync_storage_data p o k :
  op_ok o ->
  match on_proxy (Some p) (run_data (op_data o)) k with
  | Goes (a, k') => exists rep, sync_storage p o k = Goes (rep, k') /\ agrees rep (seen a)
  | Blocks => sync_storage p o k = Blocks
  | Dies => sync_storage p o k = Dies
  end.
Proof.
  intros Ho. unfold sync_storage. destruct o as [key v|key v|key|key|]; simpl in Ho |- *.
  - destruct Ho as [Hk Hv]. unfold StorageProxy.SetValueSync. rewrite (with_key_ok _ _ key) by done. unfold unwrapped, arg. simpl.
    rewrite unwrap_ok, typeof_ok. destruct Hv as [d|b|s Hs]; simpl.
    + rewrite double_ok. apply returning_data. intros code. apply ok_or_agrees.
    + rewrite bool_ok. apply returning_data. intros code. apply ok_or_agrees.
    + rewrite read_text_plain by done. apply returning_data. intros code. apply ok_or_agrees.
  - destruct Ho as [Hk Hv]. unfold StorageProxy.GetValueSync. rewrite (with_key_ok _ _ key) by done. unfold unwrapped, arg. simpl.
    rewrite unwrap_ok, typeof_ok. destruct Hv as [d|b|s Hs]; simpl.
    + rewrite double_ok. apply returning_data. intros x. by rewrite create_double_ok.
    + rewrite bool_ok. apply returning_data. intros x. by rewrite get_boolean_ok.
    + rewrite read_text_plain by done. apply returning_data. intros x. by rewrite create_string_ok.
  - unfold StorageProxy.HasKeySync. rewrite (with_key_ok _ _ key) by done. unfold unwrapped. simpl. rewrite unwrap_ok.
    apply returning_data. intros x. by rewrite get_boolean_ok.
  - unfold StorageProxy.DeleteSync. rewrite (with_key_ok _ _ key) by done. unfold unwrapped. simpl. rewrite unwrap_ok.
    apply returning_data. intros x. apply ok_or_agrees.
  - unfold StorageProxy.ClearSync, unwrapped. simpl. rewrite unwrap_ok. apply returning_data. intros x. apply ok_or_agrees.
Qed.

(** When the operation cannot be run, neither is the work. *)
Lemma await_op_stuck p o (r : runtime) :
  op_ok o ->
  (on_proxy (Some p) (run_data (op_data o)) (native r) = Blocks -> await_op p o r = Blocks) /\
  (on_proxy (Some p) (run_data (op_data o)) (native r) = Dies -> await_op p o r = Dies).
Proof.
  intros Ho. unfold await_op.
  assert (Hw : forall {A} (m : P A) (g : A -> answer) parsers exec comp c ctx,
    ParseInputs parsers DefParserThis c (Init new_context) (native r) = Ok (ctx, native r) -> thrown ctx = None -> callbackRef ctx = None ->
    (on_proxy (Some p) m (native r) = Blocks -> exec ctx (native r) = Blocks) ->
    (on_proxy (Some p) m (native r) = Dies -> exec ctx (native r) = Dies) ->
    (on_proxy (Some p) (g <$> m) (native r) = Blocks -> awaited (start_work new_context parsers exec comp c) r = Blocks) /\
    (on_proxy (Some p) (g <$> m) (native r) = Dies -> awaited (start_work new_context parsers exec comp c) r = Dies)).
  { intros A m g parsers exec comp c ctx Hp Ht Hc He1 He2. destruct (on_proxy_fmap_stuck g m (Some p) (native r)) as [-> ->].
    destruct (awaited_stuck _ _ _ exec comp (fun _ k => k) _ _ _ _ Hp Ht Hc) as [Hb Hd]. split; auto. }
  destruct o as [key v|key v|key|key|]; simpl in Ho |- *.
  - destruct Ho as [Hk Hv]. destruct Hv as [d|b|s Hs];
      (eapply Hw; [apply parse_key_value; [done|once (by constructor)]|done|done|..]; unfold put_execute; simpl; by intros ->).
  - destruct Ho as [Hk Hv]. destruct Hv as [d|b|s Hs];
      (eapply Hw; [apply parse_key_value; [done|once (by constructor)]|done|done|..]; unfold get_execute; simpl;
       intros E; eapply on_proxy_fmap_stuck in E; by rewrite E).
  - eapply Hw; [by apply parse_key|done|done|..]; unfold has_execute; simpl; by intros ->.
  - eapply Hw; [by apply parse_key|done|done|..]; unfold code_execute; simpl; by intros ->.
  - eapply Hw; [by apply parse_none|done|done|..]; unfold code_execute; simpl; by intros ->.
Qed.

(** *** Flushing

    A task of the pool ends with one of two codes. *)
Definition flush_code (code : Z) : Prop := code = E_OK \/ code = E_ERROR.
Definition coded {A} (m : F ((bool * Z) * A)) : Prop := forall w, flush_code (m w).1.1.2.
Lemma coded_bind {A B} (m : F B) (f : B -> F ((bool * Z) * A)) : (forall b, coded (f b)) -> coded (m ≫= f).
Proof. intros Hf w. unfold mbind, F_bind. destruct (m w) as [b w']. apply Hf. Qed.
Lemma coded_ret {A} b code (a : A) : flush_code code -> coded (mret ((b, code), a)).
Proof. by intros Hc w. Qed.

Lemma write_codes pref mcr : coded (PI.WriteToDiskFile pref mcr).
Proof.
  assert (Hm : coded (PI.write_map pref mcr)).
  { apply coded_bind. intros []; repeat (apply coded_bind; intros ?); apply coded_ret; unfold flush_code; auto. }
  apply coded_bind. intros []; [|done]. destruct (negb _); [apply coded_ret; unfold flush_code; auto|]. apply coded_bind. intros [].
  - by apply coded_bind.
  - apply coded_bind. intros []; [apply coded_ret; unfold flush_code; auto|done].
Qed.
Lemma run_task_codes t w r w' : PI.run_task t w = PI.Returns (r, w') -> flush_code r.2.
Proof.
  unfold PI.run_task. unfold mbind, P_bind. simpl. destruct t as [|mcr].
  - unfold on_disk. destruct (PI.LoadFromDisk _ _) as [[p| | |] ?]; simpl; try done. intros [= <- _]. by right.
  - unfold on_disk. pose proof (write_codes (impl w) mcr (fs w)) as Hc. destruct (PI.WriteToDiskFile _ _ _) as [r' ?]. simpl in *. by intros [= <- _].
Qed.
Lemma run_tasks_codes ts : forall last w r w', flush_code last.2 -> PI.run_tasks ts last w = PI.Returns (r, w') -> flush_code r.2.
Proof.
  induction ts as [|t ts IH]; intros last w r w' Hl; simpl; [by intros [= <- _]|]. unfold mbind, P_bind.
  destruct (PI.run_task t w) as [[r1 w1]| |] eqn:E; try done. apply IH. by eapply run_task_codes.
Qed.
Lemma flush_codes live w code w' : PI.FlushSync live w = PI.Returns (code, w') -> flush_code code.
Proof.
  unfold PI.FlushSync, PI.drain. unfold mbind, P_bind. simpl.
  destruct (PI.run_tasks _ _ _) as [[r w1]| |] eqn:E; try done. simpl. intros [= <- _]. eapply run_tasks_codes; [|exact E]. by right.
Qed.
Lemma on_proxy_flush live p k code k' : on_proxy p (PI.FlushSync live) k = Goes (code, k') -> flush_code code.
Proof.
  unfold on_proxy, on_object. destruct p as [p|]; [|done]. destruct (proxies k !! p); [|done]. destruct (objects k !! _); [|done].
  destruct (PI.FlushSync live _) as [[? ?]| |] eqn:E; try done. intros [= <- _]. by eapply flush_codes.
Qed.

(** The awaited flush and the synchronous one. *)
Definition await_flush (p : Z) (r : runtime) : progress (promise * runtime) := awaited (StorageProxy.Flush (mkCall (JInstance p) [])) r.
Definition sync_flush (p : Z) (k : Kit) : progress (reply * Kit) := StorageProxy.FlushSync (mkCall (JInstance p) []) k.

Lemma flush_as_flush p (r : runtime) :
  match await_flush p r with
  | Goes (a, r') => exists code d, flush_code code /\ sync_flush p (native r) = Goes (Replies (Some (JNumber d)), native r') /\
      napi_get_value_int64 (JNumber d) = Some code /\ a = seen (Code code)
  | Blocks => sync_flush p (native r) = Blocks
  | Dies => sync_flush p (native r) = Dies
  end.
Proof.
  unfold await_flush, sync_flush, StorageProxy.FlushSync, unwrapped. simpl. rewrite unwrap_ok.
  destruct (awaited_stuck new_context [] DefParserThis (code_execute (fun _ k => PI.FlushSync (alive k))) undefined_complete (fun _ k => k)
    (mkCall (JInstance p) []) r _ _ (parse_none p (native r)) eq_refl eq_refl) as [Hb Hd].
  unfold StorageProxy.Flush, start_work. revert Hb Hd. unfold code_execute at 1 3. simpl.
  destruct (on_proxy (Some p) (PI.FlushSync (alive (native r))) (native r)) as [[code k']| |] eqn:E; simpl; intros Hb Hd;
    [|by rewrite Hb|by rewrite Hd].
  clear Hb Hd. pose proof (on_proxy_flush _ _ _ _ _ E) as Hc.
  destruct (create_int64_ok code) as (d & Ed & Hd); [destruct Hc as [->| ->]; unfold E_OK, E_ERROR, E_BASE; lia|].
  edestruct (awaited_ok new_context [] DefParserThis (code_execute (fun _ k => PI.FlushSync (alive k))) undefined_complete (fun _ k => k)
    (mkCall (JInstance p) []) r) as (r' & -> & ->); [apply parse_none|done|done|unfold code_execute; simpl; by rewrite E|reflexivity|].
  exists code, d. split; [done|]. unfold StorageProxy.made. rewrite Ed. split; [done|]. split; [done|]. apply seen_code.
Qed.

(** C37: The synchronous methods of a storage do what the awaited asynchronous ones do.
    Each leaves the same native state, and waits or ends the process when the work does.
    [putSync], [getSync], [deleteSync], [clearSync] and [hasSync] return the value the
    promise resolves to and throw when it is rejected, for keys below 80 bytes and values
    that are numbers, truth values or texts below 8192 bytes, all without a zero byte.
    [flushSync] never throws:
    it returns the code of the flush as a number, where the promise of [flush] resolves
    to nothing when the code is that of success and is rejected otherwise. *)
Theorem storage_sync_as_async p (r : runtime) :
  (forall o, op_ok o ->
    match await_storage p o r with
    | Goes (a, r') => exists rep, sync_storage p o (native r) = Goes (rep, native r') /\ agrees rep a
    | Blocks => sync_storage p o (native r) = Blocks
    | Dies => sync_storage p o (native r) = Dies
    end) /\
  match await_flush p r with
  | Goes (a, r') => exists code d, sync_flush p (native r) = Goes (Replies (Some (JNumber d)), native r') /\
      napi_get_value_int64 (JNumber d) = Some code /\ a = (if code =? E_OK then Resolved JUndefined else Rejected "async call failed")
  | Blocks => sync_flush p (native r) = Blocks
  | Dies => sync_flush p (native r) = Dies
  end.
Proof.
  split.
  - intros o Ho. rewrite await_storage_same. pose proof (sync_storage_data p o (native r) Ho) as Hs. destruct (await_op_stuck p o r Ho) as [Hb Hd].
    destruct (on_proxy (Some p) (run_data (op_data o)) (native r)) as [[a k']| |] eqn:E; [|by rewrite Hb|by rewrite Hd].
    destruct (await_op_data p o r a k' Ho E) as (r' & -> & ->). exact Hs.
  - pose proof (flush_as_flush p r) as Hf. destruct (await_flush p r) as [[a r']| |]; [|done..]. destruct Hf as (code & d & _ & ? & ? & ?). by exists code, d.
Qed.

(** *** Keys from scripts

    Whatever a script gives as a key, the binding cuts it below the length that the
    native object refuses, so that no call fails because of a long key. *)
Lemma buffer_text_length t : (String.length (JSUtils.buffer_text t) <= length t)%nat.
Proof. unfold JSUtils.buffer_text. induction t as [|c t IH]; [done|]. simpl. case_decide; simpl; lia. Qed.

Theorem js_keys_fit v ctx k ctx' k' :
  ParseKey v ctx k = Ok (ctx', k') -> CheckKey (key (own ctx')) <> E_KEY_EXCEED_MAX_LENGTH.
Proof.
  intros [= <- <-]. simpl. set (s := default "" (read_text v MAX_KEY_LENGTH)).
  assert (Hs : (String.length s < 80)%nat); [|unfold CheckKey, MAX_KEY_LENGTH; destruct (empty s); [done|]; by destruct (Nat.ltb_spec 80 (String.length s)); [lia|]].
  unfold s, read_text. destruct (decide (type_of v = napi_string)) as [Ht|Ht]; [|rewrite string_other by done; simpl; lia].
  destruct v; try done. destruct (string_cut s0 (Z.of_nat MAX_KEY_LENGTH)) as (t & -> & _ & Hl); [done|]. simpl.
  pose proof (buffer_text_length t). unfold MAX_KEY_LENGTH in Hl. lia.
Qed.
End Scripts.

(** ** Demonstrations *)
Definition no_float_text : FloatText := {| stof := fun _ => Throws; stod := fun _ => Throws |}.
Definition demo_kit : Kit :=
  mkKit {[1 := mkProxy 0 None]} {[0%nat := mkObject (mkPreferences true 0 0 [] [("a", PDouble (double_of 1))] [] "/data/p.xml") []]}
    new_Helper (mkFS ∅ [] []) [] [].
Definition demo_runtime : Runtime Kit PreferencesAysncContext := mkRuntime demo_kit [] [] [].
Definition demo_script : list js_op :=
  [JsGet "a" (JNumber 0); JsPut "b" (JString "x"); JsGet "b" (JString ""); JsGet "a" (JString "none"); JsDelete "a"; JsHas "a"; JsPut "" (JBoolean true)].

Lemma demo_script_ok : Forall op_ok demo_script.
Proof.
  unfold demo_script. repeat (apply Forall_cons; split); simpl; try done; unfold key_ok;
    try (split; [constructor; [apply (bool_decide_unpack _); by vm_compute|done]|]).
  all: try (by constructor; [apply (bool_decide_unpack _); vm_compute|]).
  all: try (constructor; constructor; [apply (bool_decide_unpack _); by vm_compute|done]).
  all: try by constructor.
Qed.

Lemma js_preferences_refine_map_witness :
  exists r' p', @await_ops node tree_xml no_float_text 1 demo_script demo_runtime =
      Goes ([Resolved (JNumber (double_of 1)); Resolved JUndefined; Resolved (JString "x"); Resolved (JString "none");
             Resolved JUndefined; Resolved (JBoolean false); Rejected "async call failed"], r') /\
    native r' = with_object demo_kit 0 (mkObject p' []) /\ (abs p').1 = {["b" := PString "x"]}.
Proof.
  destruct (@js_preferences_refine_map node node_laws tree_xml no_float_text demo_script 1 0
    (mkObject (mkPreferences true 0 0 [] [("a", PDouble (double_of 1))] [] "/data/p.xml") []) demo_runtime) as (r' & p' & E & En & Ea).
  - exact demo_script_ok.
  - split; [by eexists|done].
  - done.
  - by repeat constructor.
  - exists r', p'. split; [exact E|]. split; [exact En|]. rewrite Ea. done.
Defined.

Lemma storage_sync_as_async_witness :
  exists rep r', @await_storage node tree_xml no_float_text 1 (JsPut "b" (JBoolean true)) demo_runtime = Goes (Resolved JUndefined, r') /\
    @sync_storage node tree_xml no_float_text 1 (JsPut "b" (JBoolean true)) demo_kit = Goes (rep, native r') /\ agrees rep (Resolved JUndefined).
Proof.
  destruct (@storage_sync_as_async node node_laws tree_xml no_float_text 1 demo_runtime) as [Hs _].
  destruct (Hs (JsPut "b" (JBoolean true))) as (rep & E & Ha); [split; [constructor; [apply (bool_decide_unpack _); by vm_compute|done]|constructor]|].
  exists rep. eexists. split; [reflexivity|]. split; [exact E|exact Ha].
Defined.

(** *** Long keys *)
Definition long_key (last : string) : string := String.string_of_list_ascii (replicate 79 "k"%char) +:+ last.

(** Two keys that agree in their first 79 bytes are one key: nothing is refused. *)
Example long_keys_collide :
  match @await_ops node tree_xml no_float_text 1
          [JsPut (long_key "1") (JString "one"); JsPut (long_key "2") (JString "two"); JsGet (long_key "1") (JString "")] demo_runtime with
  | Goes (l, _) => l = [Resolved JUndefined; Resolved JUndefined; Resolved (JString "two")]
  | _ => False
  end.
Proof. vm_compute. reflexivity. Qed.

(** *** Values of other types *)

(** Preferences that native code has written with an integer end the process of a script
    that asks for all of them. *)
Definition integer_kit : Kit :=
  with_object demo_kit 0 (mkObject (mkPreferences true 0 0 [] [("n", PInt 7)] [] "/data/p.xml") []).
Example get_all_ends_process :
  awaited (@PreferencesProxy.GetAll node (mkCall (JInstance 1) [])) (mkRuntime integer_kit [] [] []) = Dies.
Proof. vm_compute. reflexivity. Qed.

(** A value that is neither a number, a text nor a truth value is not stored. *)
Example put_null_rejected :
  match @await_op node tree_xml no_float_text 1 (JsPut "b" JNull) demo_runtime with
  | Goes (a, r) => a = Rejected "async call failed" /\ native r = demo_kit
  | _ => False
  end.
Proof. vm_compute. split; reflexivity. Qed.

(** *** Observers *)

(** After a second [on] the first function hears nothing. *)
Definition after {A} (r : progress (A * Kit)) (k : Kit) : Kit := match r with Goes (_, k) => k | _ => k end.
Example second_observer_replaces :
  let on f k := after (@PreferencesProxy.RegisterObserver node (mkCall (JInstance 1) [JString "change"; JFunction f]) k) k in
  let k := on 11 (on 10 demo_kit) in
  let k := after (@sync_storage node tree_xml no_float_text 1 (JsPut "b" (JBoolean true)) k) k in
  let k := after (@StorageProxy.FlushSync node tree_xml no_float_text (mkCall (JInstance 1) []) k) k in
  heard k = [(JFunction 11, "b")].
Proof. vm_compute. reflexivity. Qed.

(** *** The system storage *)
Definition demo_ability : AbilityRuntime :=
  {| IsStageContext := fun _ => None; GetStageModeContext := fun _ => None;
     GetCurrentAbility := Some (Some (mkAppContext "/data/db" "/data/prefs" "bundle", None)) |}.
(** The store is open and loaded. *)
Definition store_kit : Kit :=
  mkKit ∅ {[0%nat := mkObject (mkPreferences true 0 0 [] [] [] "/data/prefs/default.xml") []]}
    (mkHelper [("/data/prefs/default.xml", 0%nat)] ["/data/prefs/default.xml"]) (mkFS ∅ [] []) [] [].
Definition callbacks : list (string * js) := [("success", JFunction 1); ("fail", JFunction 2); ("complete", JFunction 3)].
Definition options (l : list (string * string)) : call :=
  mkCall JUndefined [JObject (((fun p => (p.1, JString p.2)) <$> l) ++ callbacks)].
Abbreviation operate e c k := (@SystemStorage.run node e c k).
Abbreviation set_it := (@SystemStorage.NapiSet demo_realpath demo_ability).
Abbreviation get_it := (@SystemStorage.NapiGet demo_realpath demo_ability).

(** A text that was set is got. *)
Example system_set_get :
  match operate set_it (options [("key", "k"); ("value", "v"); ("default", "d")]) store_kit with
  | Goes (e, calls, resolved, k) =>
      e = None /\ calls = [(JFunction 1, [JString "v"]); (JFunction 3, [])] /\ resolved = true /\
      match operate get_it (options [("key", "k"); ("value", "-"); ("default", "d")]) k with
      | Goes (e, calls, _, _) => e = None /\ calls = [(JFunction 1, [JString "v"]); (JFunction 3, [])]
      | _ => False
      end
  | _ => False
  end.
Proof. vm_compute. repeat split. Qed.

(** Without a default the call throws, and sets the text all the same. *)
Example system_set_throws :
  match operate set_it (options [("key", "k"); ("value", "v")]) store_kit with
  | Goes (e, calls, _, _) => e = Some "StorageOptions is empty." /\ calls = [(JFunction 1, [JString "v"]); (JFunction 3, [])]
  | _ => False
  end.
Proof. vm_compute. repeat split. Qed.
