(* ===== verification/JsRdbStore.v ===== *)
(** * The relational store of the bindings

    Models of frameworks/js/napi/rdb/src/napi_rdb_store.cpp and
    napi_rdb_store_helper.cpp. The bindings call the store and its result sets through
    their abstract classes: these are the interface [NativeStores], in terms of the
    calls made and the thread that makes them. *)
From S2P Require Import Prelude Strings StdMap Memory RdbErrno SharedBlock ValueObject ValuesBucket SharedResultSet AbsPredicates RdbPredicates Disk RdbHelper Napi NapiAsync.
From Stdlib Require Import Ascii.

#[local] Open Scope list_scope.

(** ** Calls of the native classes *)
Section Calls.
Context `{DistributedPredicates}.

(** [RdbStore]: codes come with what the call writes to its out parameter. A result set
    is known by its address; [None] is a null pointer. Synchronising changes the
    predicates, and calls back with the result. *)
Inductive store_call : Type -> Type :=
| CInsert (table : string) (values : ValuesBucket) : store_call (Z * Z)
| CReplace (table : string) (values : ValuesBucket) : store_call (Z * Z)
| CUpdate (values : ValuesBucket) (predicates : AbsRdbPredicates) : store_call (Z * Z)
| CDelete (predicates : AbsRdbPredicates) : store_call (Z * Z)
| CCount (predicates : AbsRdbPredicates) : store_call (Z * Z)
| CQuery (predicates : AbsRdbPredicates) (columns : list string) : store_call (option Z)
| CQuerySql (sql : string) (selectionArgs : list string) : store_call (option Z)
| CQueryByStep (sql : string) (selectionArgs : list string) : store_call (option Z)
| CExecuteSql (sql : string) (bindArgs : list ValueObject) : store_call Z
| CBackup (databasePath : string) (key : list byte) : store_call Z
| CAttach (alias pathName : string) (key : list byte) : store_call Z
| CChangeDbFileForRestore (newPath backupPath : string) (key : list byte) : store_call Z
| CChangeEncryptKey (key : list byte) : store_call Z
| CBeginTransaction : store_call Z
| CRollBack : store_call Z
| CCommit : store_call Z
| CMarkAsCommit : store_call Z
| CEndTransaction : store_call Z
| CIsInTransaction : store_call bool
| CIsHoldingConnection : store_call bool
| CIsReadOnly : store_call bool
| CIsMemoryRdb : store_call bool
| CIsOpen : store_call bool
| CGetPath : store_call string
| CGetVersion : store_call (Z * Z)
| CSetVersion (version : Z) : store_call Z
| CSetDistributedTables (tables : list string) : store_call bool
| CObtainDistributedTableName (device table : string) : store_call string
| CSync (mode : Z) (predicates : AbsRdbPredicates) : store_call (bool * AbsRdbPredicates * option (list (string * Z)))
| CSubscribe (mode : Z) (observer : Z) : store_call bool
| CUnSubscribe (mode : Z) (observer : Z) : store_call bool.

(** [ResultSet]: an out parameter that is not written is [None]. *)
Inductive set_call : Type -> Type :=
| RGoToFirstRow : set_call Z
| RGetColumnIndex (columnName : string) : set_call (option Z)
| RGetColumnType (columnIndex : Z) : set_call (option ColumnType)
| RClose : set_call Z.

(** The store objects over their state [W], called by a thread. *)
Class NativeStores (W : Type) := {
  on_store : forall A, Z -> Z -> store_call A -> W -> progress (A * W);
  on_set : forall A, Z -> Z -> set_call A -> W -> progress (A * W);
  SUBSCRIBE_MODE_MAX : Z;
}.
#[global] Arguments on_store {W _ A} _ _ _ _.
#[global] Arguments on_set {W _ A} _ _ _ _.

(** ** The native state

    A JavaScript store holds a native store, the count of its strong references, and the
    observers of each mode with their functions. *)
Record StoreProxy := mkStoreProxy {
  rdbStore_ : option Z;
  ref_ : Z;
  observers_ : list (Z * (Z * js));
}.
Record Kit (W : Type) := mkKit {
  proxies : gmap Z StoreProxy;
  predicates : gmap Z AbsRdbPredicates;
  sets : gmap Z Z;
  next_observer : Z;
  world : W;
}.
End Calls.
#[global] Arguments mkKit {_ W} _ _ _ _ _.
#[global] Arguments proxies {_ W} _.
#[global] Arguments predicates {_ W} _.
#[global] Arguments sets {_ W} _.
#[global] Arguments next_observer {_ W} _.
#[global] Arguments world {_ W} _.

(** ** The context of a call *)
Record RdbStoreContext := mkStoreContext {
  device : string;
  tableName : string;
  tablesName : list string;
  selectionArgs : list string;
  sql : string;
  predicatesProxy : option Z;
  columns : list string;
  valuesBucket : ValuesBucket;
  numberMaps : list (string * ValueObject);
  bindArgs : list ValueObject;
  rowId : Z;
  newKey : list byte;
  resultSet : option Z;
  aliasName : string;
  pathName : string;
  destName : string;
  srcName : string;
  enumArg : Z;
  syncResult : list (string * Z);
}.
Definition new_store_context : RdbStoreContext :=
  mkStoreContext "" "" [] [] "" None [] ValuesBucket_empty [] [] 0 [] None "" "" "" "" 0 [].
Definition set_device (c : RdbStoreContext) (v : string) : RdbStoreContext :=
  mkStoreContext v (tableName c) (tablesName c) (selectionArgs c) (sql c) (predicatesProxy c) (columns c) (valuesBucket c) (numberMaps c) (bindArgs c) (rowId c) (newKey c) (resultSet c) (aliasName c) (pathName c) (destName c) (srcName c) (enumArg c) (syncResult c).
Definition set_tableName (c : RdbStoreContext) (v : string) : RdbStoreContext :=
  mkStoreContext (device c) v (tablesName c) (selectionArgs c) (sql c) (predicatesProxy c) (columns c) (valuesBucket c) (numberMaps c) (bindArgs c) (rowId c) (newKey c) (resultSet c) (aliasName c) (pathName c) (destName c) (srcName c) (enumArg c) (syncResult c).
Definition set_tablesName (c : RdbStoreContext) (v : list string) : RdbStoreContext :=
  mkStoreContext (device c) (tableName c) v (selectionArgs c) (sql c) (predicatesProxy c) (columns c) (valuesBucket c) (numberMaps c) (bindArgs c) (rowId c) (newKey c) (resultSet c) (aliasName c) (pathName c) (destName c) (srcName c) (enumArg c) (syncResult c).
Definition set_selectionArgs (c : RdbStoreContext) (v : list string) : RdbStoreContext :=
  mkStoreContext (device c) (tableName c) (tablesName c) v (sql c) (predicatesProxy c) (columns c) (valuesBucket c) (numberMaps c) (bindArgs c) (rowId c) (newKey c) (resultSet c) (aliasName c) (pathName c) (destName c) (srcName c) (enumArg c) (syncResult c).
Definition set_sql (c : RdbStoreContext) (v : string) : RdbStoreContext :=
  mkStoreContext (device c) (tableName c) (tablesName c) (selectionArgs c) v (predicatesProxy c) (columns c) (valuesBucket c) (numberMaps c) (bindArgs c) (rowId c) (newKey c) (resultSet c) (aliasName c) (pathName c) (destName c) (srcName c) (enumArg c) (syncResult c).
Definition set_predicatesProxy (c : RdbStoreContext) (v : option Z) : RdbStoreContext :=
  mkStoreContext (device c) (tableName c) (tablesName c) (selectionArgs c) (sql c) v (columns c) (valuesBucket c) (numberMaps c) (bindArgs c) (rowId c) (newKey c) (resultSet c) (aliasName c) (pathName c) (destName c) (srcName c) (enumArg c) (syncResult c).
Definition set_columns (c : RdbStoreContext) (v : list string) : RdbStoreContext :=
  mkStoreContext (device c) (tableName c) (tablesName c) (selectionArgs c) (sql c) (predicatesProxy c) v (valuesBucket c) (numberMaps c) (bindArgs c) (rowId c) (newKey c) (resultSet c) (aliasName c) (pathName c) (destName c) (srcName c) (enumArg c) (syncResult c).
Definition set_valuesBucket (c : RdbStoreContext) (v : ValuesBucket) : RdbStoreContext :=
  mkStoreContext (device c) (tableName c) (tablesName c) (selectionArgs c) (sql c) (predicatesProxy c) (columns c) v (numberMaps c) (bindArgs c) (rowId c) (newKey c) (resultSet c) (aliasName c) (pathName c) (destName c) (srcName c) (enumArg c) (syncResult c).
Definition set_numberMaps (c : RdbStoreContext) (v : list (string * ValueObject)) : RdbStoreContext :=
  mkStoreContext (device c) (tableName c) (tablesName c) (selectionArgs c) (sql c) (predicatesProxy c) (columns c) (valuesBucket c) v (bindArgs c) (rowId c) (newKey c) (resultSet c) (aliasName c) (pathName c) (destName c) (srcName c) (enumArg c) (syncResult c).
Definition set_bindArgs (c : RdbStoreContext) (v : list ValueObject) : RdbStoreContext :=
  mkStoreContext (device c) (tableName c) (tablesName c) (selectionArgs c) (sql c) (predicatesProxy c) (columns c) (valuesBucket c) (numberMaps c) v (rowId c) (newKey c) (resultSet c) (aliasName c) (pathName c) (destName c) (srcName c) (enumArg c) (syncResult c).
Definition set_rowId (c : RdbStoreContext) (v : Z) : RdbStoreContext :=
  mkStoreContext (device c) (tableName c) (tablesName c) (selectionArgs c) (sql c) (predicatesProxy c) (columns c) (valuesBucket c) (numberMaps c) (bindArgs c) v (newKey c) (resultSet c) (aliasName c) (pathName c) (destName c) (srcName c) (enumArg c) (syncResult c).
Definition set_newKey (c : RdbStoreContext) (v : list byte) : RdbStoreContext :=
  mkStoreContext (device c) (tableName c) (tablesName c) (selectionArgs c) (sql c) (predicatesProxy c) (columns c) (valuesBucket c) (numberMaps c) (bindArgs c) (rowId c) v (resultSet c) (aliasName c) (pathName c) (destName c) (srcName c) (enumArg c) (syncResult c).
Definition set_resultSet (c : RdbStoreContext) (v : option Z) : RdbStoreContext :=
  mkStoreContext (device c) (tableName c) (tablesName c) (selectionArgs c) (sql c) (predicatesProxy c) (columns c) (valuesBucket c) (numberMaps c) (bindArgs c) (rowId c) (newKey c) v (aliasName c) (pathName c) (destName c) (srcName c) (enumArg c) (syncResult c).
Definition set_aliasName (c : RdbStoreContext) (v : string) : RdbStoreContext :=
  mkStoreContext (device c) (tableName c) (tablesName c) (selectionArgs c) (sql c) (predicatesProxy c) (columns c) (valuesBucket c) (numberMaps c) (bindArgs c) (rowId c) (newKey c) (resultSet c) v (pathName c) (destName c) (srcName c) (enumArg c) (syncResult c).
Definition set_pathName (c : RdbStoreContext) (v : string) : RdbStoreContext :=
  mkStoreContext (device c) (tableName c) (tablesName c) (selectionArgs c) (sql c) (predicatesProxy c) (columns c) (valuesBucket c) (numberMaps c) (bindArgs c) (rowId c) (newKey c) (resultSet c) (aliasName c) v (destName c) (srcName c) (enumArg c) (syncResult c).
Definition set_destName (c : RdbStoreContext) (v : string) : RdbStoreContext :=
  mkStoreContext (device c) (tableName c) (tablesName c) (selectionArgs c) (sql c) (predicatesProxy c) (columns c) (valuesBucket c) (numberMaps c) (bindArgs c) (rowId c) (newKey c) (resultSet c) (aliasName c) (pathName c) v (srcName c) (enumArg c) (syncResult c).
Definition set_srcName (c : RdbStoreContext) (v : string) : RdbStoreContext :=
  mkStoreContext (device c) (tableName c) (tablesName c) (selectionArgs c) (sql c) (predicatesProxy c) (columns c) (valuesBucket c) (numberMaps c) (bindArgs c) (rowId c) (newKey c) (resultSet c) (aliasName c) (pathName c) (destName c) v (enumArg c) (syncResult c).
Definition set_enumArg (c : RdbStoreContext) (v : Z) : RdbStoreContext :=
  mkStoreContext (device c) (tableName c) (tablesName c) (selectionArgs c) (sql c) (predicatesProxy c) (columns c) (valuesBucket c) (numberMaps c) (bindArgs c) (rowId c) (newKey c) (resultSet c) (aliasName c) (pathName c) (destName c) (srcName c) v (syncResult c).
Definition set_syncResult (c : RdbStoreContext) (v : list (string * Z)) : RdbStoreContext :=
  mkStoreContext (device c) (tableName c) (tablesName c) (selectionArgs c) (sql c) (predicatesProxy c) (columns c) (valuesBucket c) (numberMaps c) (bindArgs c) (rowId c) (newKey c) (resultSet c) (aliasName c) (pathName c) (destName c) (srcName c) (enumArg c) v.

(** ** napi_rdb_store.cpp *)
Module RdbStoreProxy.
Section Store.
Context `{Napi} `{DistributedPredicates} {W : Type} `{!NativeStores W}.
(** The threads of the script and of the pool, and what converting a double that is out
    of range to an integer gives. *)
Context (script_thread pool_thread : Z) (out_of_range : Z -> Z).
Abbreviation kit := (Kit W).
Abbreviation parser := (InputParser kit RdbStoreContext).
Abbreviation context := (AysncContext RdbStoreContext).

Definition with_proxy (k : kit) (p : Z) (x : StoreProxy) : kit :=
  mkKit (<[p := x]> (proxies k)) (predicates k) (sets k) (next_observer k) (world k).
Definition with_world (k : kit) (w : W) : kit := mkKit (proxies k) (predicates k) (sets k) (next_observer k) w.
Definition with_set (k : kit) (p rs : Z) : kit :=
  mkKit (proxies k) (predicates k) (<[p := rs]> (sets k)) (next_observer k) (world k).

(** *** Objects *)

(** [napi_wrap] makes a weak reference. *)
Definition Initialize (p : Z) (k : kit) : kit := with_proxy k p (mkStoreProxy None 0 []).
Definition NewInstance (p : Z) (value : option Z) (k : kit) : option js * kit :=
  (Some (JInstance p), with_proxy (Initialize p k) p (mkStoreProxy value 0 [])).

Definition GetNativeInstance (self : js) (k : kit) : option Z * kit :=
  match napi_unwrap self with
  | None => (None, k)
  | Some p =>
      (Some p, match proxies k !! p with
               | Some x => with_proxy k p (mkStoreProxy (rdbStore_ x) (ref_ x + 1) (observers_ x))
               | None => k
               end)
  end.
(** A reference that is weak already stays so. *)
Definition Release (p : Z) (k : kit) : kit :=
  match proxies k !! p with
  | Some x => if ref_ x >? 0 then with_proxy k p (mkStoreProxy (rdbStore_ x) (ref_ x - 1) (observers_ x)) else k
  | None => k
  end.
(** The destructor of a context. *)
Definition delete_context (ctx : context) (k : kit) : kit :=
  match boundObj ctx with Some p => Release p k | None => k end.

(** A method of the store behind a proxy; null pointers are dereferenced. *)
Definition on_rdbStore {A} (tid : Z) (p : option Z) (c : store_call A) (k : kit) : progress (A * kit) :=
  match p with
  | None => Dies
  | Some p =>
      match proxies k !! p with
      | Some (mkStoreProxy (Some s) _ _) =>
          match on_store tid s c (world k) with Goes (a, w) => Goes (a, with_world k w) | Blocks => Blocks | Dies => Dies end
      | _ => Dies
      end
  end.
Definition on_result {A} (tid rs : Z) (c : set_call A) (k : kit) : progress (A * kit) :=
  match on_set tid rs c (world k) with Goes (a, w) => Goes (a, with_world k w) | Blocks => Blocks | Dies => Dies end.
Definition then_ {A B} (r : progress (A * kit)) (f : A -> kit -> progress B) : progress B :=
  match r with Goes (a, k) => f a k | Blocks => Blocks | Dies => Dies end.

(** *** Arguments *)
Definition parse_with (f : RdbStoreContext -> js -> RdbStoreContext) : parser := fun arg ctx k => Ok (with_own ctx (f (own ctx) arg), k).
Abbreviation text v := (JSUtils.Convert2String v true).

Definition ParseThis : parser := fun arg ctx k =>
  let '(p, k) := GetNativeInstance arg k in Ok (with_bound ctx p, k).
Definition ParseTableName : parser := parse_with (fun c v => set_tableName c (text v)).
Definition ParseDevice : parser := parse_with (fun c v => set_device c (text v)).
Definition ParseTablesName : parser := parse_with (fun c v =>
  set_tablesName c (tablesName c ++
    omap (fun e => if bool_decide (napi_typeof e = napi_string) then Some (text e) else None) (JSUtils.array_of v))).
Definition ParseEnumArg : parser := parse_with (fun c v => set_enumArg c (default (enumArg c) (napi_get_value_int32 v))).
(** A null pointer is dereferenced when the argument holds no predicates. *)
Definition ParsePredicates : parser := fun arg ctx k =>
  match napi_unwrap arg with
  | None => Undefined
  | Some q =>
      match predicates k !! q with
      | None => Undefined
      | Some x => Ok (with_own ctx (set_tableName (set_predicatesProxy (own ctx) (Some q)) (GetTableName x)), k)
      end
  end.
Definition ParseNewKey : parser := parse_with (fun c v => set_newKey c (JSUtils.Convert2U8Vector v)).
Definition ParseDestName : parser := parse_with (fun c v => set_destName c (text v)).
Definition ParseSrcName : parser := parse_with (fun c v => set_srcName c (text v)).
Definition ParseColumns : parser := parse_with (fun c v => set_columns c (JSUtils.Convert2StrVector v)).
Definition ParseAlias : parser := parse_with (fun c v => set_aliasName c (text v)).
Definition ParsePath : parser := parse_with (fun c v => set_pathName c (text v)).
Definition ParseSelectionArgs : parser := parse_with (fun c v => set_selectionArgs c (JSUtils.Convert2StrVector v)).
Definition ParseSql : parser := parse_with (fun c v => set_sql c (text v)).

(** Numbers wait until the type of their column is known. *)
Definition put_property (c : RdbStoreContext) (keyStr : string) (value : js) : RdbStoreContext :=
  match napi_typeof value with
  | napi_string => set_valuesBucket c (ValuesBucket.PutString (valuesBucket c) keyStr (JSUtils.Convert2String value false))
  | napi_number => set_numberMaps c (sm_insert keyStr (ValueObject_double (default 0 (napi_get_value_double value))) (numberMaps c))
  | napi_boolean => set_valuesBucket c (ValuesBucket.PutBool (valuesBucket c) keyStr (default false (napi_get_value_bool value)))
  | napi_null => set_valuesBucket c (ValuesBucket.PutNull (valuesBucket c) keyStr)
  | napi_object => set_valuesBucket c (ValuesBucket.PutBlob (valuesBucket c) keyStr (JSUtils.Convert2U8Vector value))
  | _ => c
  end.
Definition ParseValuesBucket : parser := parse_with (fun c arg =>
  foldl (fun c key => put_property c (text key) (default JUndefined (napi_get_property arg key))) c (NapiValuesBucket.keys_of arg)).

Definition bind_arg (element : js) : option ValueObject :=
  match napi_typeof element with
  | napi_boolean => ValueObject_bool <$> napi_get_value_bool element
  | napi_number => ValueObject_double <$> napi_get_value_double element
  | napi_null => Some ValueObject_null
  | napi_string => Some (ValueObject_string (text element))
  | napi_object => Some (ValueObject_blob (JSUtils.Convert2U8Vector element))
  | _ => None
  end.
Definition BindArgs : parser := parse_with (fun c v => set_bindArgs c (omap bind_arg (JSUtils.array_of v))).

(** *** Numbers *)
Definition to_int64 (d : Z) : Z :=
  match decode_double d with
  | Finite _ _ _ => let n := integer_of d in if (-9223372036854775808 <=? n) && (n <? 9223372036854775808) then n else out_of_range d
  | _ => out_of_range d
  end.
Definition put_number (b : ValuesBucket) (columnType : ColumnType) (name : string) (value : Z) : ValuesBucket :=
  match columnType with
  | TYPE_INTEGER => ValuesBucket.PutLong b name (to_int64 value)
  | _ => ValuesBucket.PutDouble b name value
  end.
Definition double_value (v : ValueObject) : Z := match ValueObject.GetDouble v with Ok d => d | _ => 0 end.
(** The column has the type it has in the row the result set is at. *)
Fixpoint convert_numbers (rs : Z) (numbers : list (string * ValueObject)) (b : ValuesBucket) (k : kit) : progress (ValuesBucket * kit) :=
  match numbers with
  | [] => Goes (b, k)
  | (name, v) :: numbers =>
      then_ (on_result pool_thread rs (RGetColumnIndex name) k) (fun index k =>
      then_ (on_result pool_thread rs (RGetColumnType (default (-1) index)) k) (fun columnType k =>
        convert_numbers rs numbers (put_number b (default TYPE_FLOAT columnType) name (double_value v)) k))
  end.
Definition JSNumber2NativeType (p : option Z) (c : RdbStoreContext) (k : kit) : progress (RdbStoreContext * kit) :=
  then_ (on_rdbStore pool_thread p (CQueryByStep ("SELECT * FROM " +:+ tableName c +:+ " LIMIT 1") []) k) (fun result k =>
    match result with
    | None => Dies
    | Some rs =>
        then_ (on_result pool_thread rs RGoToFirstRow k) (fun _ k =>
        then_ (convert_numbers rs (numberMaps c) (valuesBucket c) k) (fun b k =>
        then_ (on_result pool_thread rs RClose k) (fun _ k => Goes (set_numberMaps (set_valuesBucket c b) [], k))))
    end).

(** *** Asynchronous methods *)
Abbreviation execute := (NapiAsyncExecute kit RdbStoreContext).
Abbreviation complete := (NapiAsyncComplete kit RdbStoreContext).
Abbreviation method := (call -> Runtime kit RdbStoreContext -> outcome (handle * Runtime kit RdbStoreContext)).

Definition start_work (parsers : list parser) (exec : execute) (comp : complete) : method :=
  async_call new_store_context parsers ParseThis exec comp delete_context.

Definition ask {A} (ctx : context) (c : store_call A) (g : A -> Z * RdbStoreContext) (k : kit) : progress (Z * RdbStoreContext * kit) :=
  then_ (on_rdbStore pool_thread (boundObj ctx) c k) (fun a k => Goes ((g a).1, (g a).2, k)).
Definition with_predicates {B} (c : RdbStoreContext) (k : kit) (f : Z -> AbsRdbPredicates -> progress B) : progress B :=
  match predicatesProxy c with
  | Some q => match predicates k !! q with Some x => f q x | None => Dies end
  | None => Dies
  end.

(** Codes are reported as they are, or as [OK] and [ERR]. *)
Definition counted (c : RdbStoreContext) (r : Z * Z) : Z * RdbStoreContext := (r.1, set_rowId c r.2).
Definition succeeded (c : RdbStoreContext) (errCode : Z) : Z * RdbStoreContext := (if errCode =? E_OK then OK else ERR, c).
Definition found (c : RdbStoreContext) (rs : option Z) : Z * RdbStoreContext := (if bool_decide (is_Some rs) then OK else ERR, set_resultSet c rs).

Definition checked (output : option js) (k : kit) : progress (Z * option js * kit) :=
  Goes (if bool_decide (is_Some output) then OK else ERR, output, k).
Definition number_complete : complete := fun ctx k => checked (napi_create_int64 (rowId (own ctx))) k.
Definition undefined_complete : complete := fun _ k => Goes (OK, Some JUndefined, k).

Definition Insert : method := start_work [ParseTableName; ParseValuesBucket]
  (fun ctx k => then_ (JSNumber2NativeType (boundObj ctx) (own ctx) k) (fun c k => ask ctx (CInsert (tableName c) (valuesBucket c)) (counted c) k))
  number_complete.
Definition Delete : method := start_work [ParsePredicates]
  (fun ctx k => with_predicates (own ctx) k (fun _ x => ask ctx (CDelete x) (counted (own ctx)) k)) number_complete.
Definition Update : method := start_work [ParseValuesBucket; ParsePredicates]
  (fun ctx k => then_ (JSNumber2NativeType (boundObj ctx) (own ctx) k) (fun c k =>
     with_predicates c k (fun _ x => ask ctx (CUpdate (valuesBucket c) x) (counted c) k))) number_complete.

(** *** Result sets

    [p] is the address of the new object that wraps the result set; a null result set
    is dereferenced. *)
Definition set_complete (p : Z) : complete := fun ctx k =>
  match resultSet (own ctx) with
  | Some rs => Goes (OK, Some (JInstance p), with_set k p rs)
  | None => Dies
  end.
Definition Query (p : Z) : method := start_work [ParsePredicates; ParseColumns]
  (fun ctx k => with_predicates (own ctx) k (fun _ x => ask ctx (CQuery x (columns (own ctx))) (found (own ctx)) k)) (set_complete p).
Definition QuerySql (p : Z) : method := start_work [ParseSql; ParseSelectionArgs]
  (fun ctx k => ask ctx (CQuerySql (sql (own ctx)) (selectionArgs (own ctx))) (found (own ctx)) k) (set_complete p).
(** The result set is dropped with the context. *)
Definition QueryByStep : method := start_work [ParseSql; ParseColumns]
  (fun ctx k => ask ctx (CQueryByStep (sql (own ctx)) (columns (own ctx)))
     (fun rs => (if bool_decide (is_Some rs) then OK else ERR, own ctx)) k) undefined_complete.

Definition ExecuteSql : method := start_work [ParseSql; BindArgs]
  (fun ctx k => ask ctx (CExecuteSql (sql (own ctx)) (bindArgs (own ctx))) (fun code => (code, own ctx)) k) undefined_complete.
Definition Count : method := start_work [ParsePredicates]
  (fun ctx k => with_predicates (own ctx) k (fun _ x => ask ctx (CCount x) (counted (own ctx)) k)) number_complete.
Definition Replace : method := start_work [ParseTableName; ParseValuesBucket]
  (fun ctx k => then_ (JSNumber2NativeType (boundObj ctx) (own ctx) k) (fun c k => ask ctx (CReplace (tableName c) (valuesBucket c)) (counted c) k))
  number_complete.
Definition Backup : method := start_work [ParseTableName]
  (fun ctx k => ask ctx (CBackup (tableName (own ctx)) (newKey (own ctx))) (succeeded (own ctx)) k) undefined_complete.
(** These two report the opposite. *)
Definition failed (c : RdbStoreContext) (errCode : Z) : Z * RdbStoreContext := (if negb (errCode =? E_OK) then OK else ERR, c).
Definition Attach : method := start_work [ParseAlias; ParsePath; ParseNewKey]
  (fun ctx k => ask ctx (CAttach (aliasName (own ctx)) (pathName (own ctx)) (newKey (own ctx))) (failed (own ctx)) k) undefined_complete.
Definition EndTransaction : method := start_work [] (fun ctx k => ask ctx CEndTransaction (failed (own ctx)) k) undefined_complete.
Definition MarkAsCommit : method := start_work [] (fun ctx k => ask ctx CMarkAsCommit (succeeded (own ctx)) k) undefined_complete.
Definition ChangeDbFileForRestore : method := start_work [ParseDestName; ParseSrcName]
  (fun ctx k => ask ctx (CChangeDbFileForRestore (destName (own ctx)) (srcName (own ctx)) (newKey (own ctx))) (succeeded (own ctx)) k) undefined_complete.
Definition ChangeEncryptKey : method := start_work [ParseNewKey]
  (fun ctx k => ask ctx (CChangeEncryptKey (newKey (own ctx))) (succeeded (own ctx)) k) undefined_complete.
Definition SetDistributedTables : method := start_work [ParseTablesName]
  (fun ctx k => ask ctx (CSetDistributedTables (tablesName (own ctx))) (fun res => (if res then OK else ERR, own ctx)) k) undefined_complete.
Definition ObtainDistributedTableName : method := start_work [ParseDevice; ParseTableName]
  (fun ctx k => ask ctx (CObtainDistributedTableName (device (own ctx)) (tableName (own ctx)))
     (fun name => (if empty name then ERR else OK, set_tableName (own ctx) name)) k)
  (fun ctx k => checked (napi_create_string_utf8 (tableName (own ctx))) k).
Definition with_changed (k : kit) (q : Z) (x : AbsRdbPredicates) : kit :=
  mkKit (proxies k) (<[q := x]> (predicates k)) (sets k) (next_observer k) (world k).
Definition Sync : method := start_work [ParseEnumArg; ParsePredicates]
  (fun ctx k => with_predicates (own ctx) k (fun q x =>
     then_ (on_rdbStore pool_thread (boundObj ctx) (CSync (enumArg (own ctx)) x) k) (fun r k =>
       let '(res, x, result) := r in
       Goes (if res then OK else ERR, set_syncResult (own ctx) (default (syncResult (own ctx)) result), with_changed k q x))))
  (fun ctx k => checked (JSUtils.Convert2JSValue_sync (syncResult (own ctx))) k).

(** *** Synchronous methods and properties

    They take a reference to the object; only those of transactions and events give it
    back, and of the former only when they succeed. *)
Definition sync_method : Type := call -> kit -> progress (reply * kit).
Definition on_this (c : call) (message : string) (m : Z -> kit -> progress (reply * kit)) : kit -> progress (reply * kit) := fun k =>
  let '(p, k) := GetNativeInstance (this c) k in
  match p with Some p => m p k | None => Goes (Raises message, k) end.
Definition property {A} (c : store_call A) (f : A -> option js) : sync_method := fun cl =>
  on_this cl "RdbStoreProxy is nullptr" (fun p k => then_ (on_rdbStore script_thread (Some p) c k) (fun a k => Goes (Replies (f a), k))).
Definition transaction (c : store_call Z) (message : string) : sync_method := fun cl =>
  on_this cl "RdbStoreProxy is nullptr" (fun p k => then_ (on_rdbStore script_thread (Some p) c k) (fun errCode k =>
    if errCode =? E_OK then Goes (Replies None, Release p k) else Goes (Raises message, k))).

Definition IsHoldingConnection : sync_method := property CIsHoldingConnection JSUtils.Convert2JSValue_bool.
Definition IsReadOnly : sync_method := property CIsReadOnly JSUtils.Convert2JSValue_bool.
Definition IsMemoryRdb : sync_method := property CIsMemoryRdb JSUtils.Convert2JSValue_bool.
Definition GetPath : sync_method := property CGetPath JSUtils.Convert2JSValue_string.
Definition IsInTransaction : sync_method := property CIsInTransaction JSUtils.Convert2JSValue_bool.
Definition IsOpen : sync_method := property CIsOpen JSUtils.Convert2JSValue_bool.
(** The code of the call, not the version. *)
Definition GetVersion : sync_method := property CGetVersion (fun r => JSUtils.Convert2JSValue_int32 r.1).
Definition BeginTransaction : sync_method := transaction CBeginTransaction "call BeginTransaction failed".
Definition RollBack : sync_method := transaction CRollBack "call RollBack failed".
Definition Commit : sync_method := transaction CCommit "call Commit failed".
Definition SetVersion : sync_method := fun c k =>
  if negb (argc c =? 1) then Goes (Raises "RdbStoreProxy::SetVersion Invalid argvs!", k)
  else on_this c "RdbStoreProxy is nullptr" (fun p k =>
    then_ (on_rdbStore script_thread (Some p) (CSetVersion (default 0 (napi_get_value_int32 (arg c 0)))) k) (fun _ k => Goes (Replies (Some (this c)), k))) k.

(** *** Events *)
Definition MIN_ON_EVENT_ARG_NUM : Z := 2.
Definition MAX_ON_EVENT_ARG_NUM : Z := 5.
Definition same_function (v w : js) : bool := match v, w with JFunction f, JFunction g => f =? g | _, _ => false end.
(** The mode and the function of a subscription, when both are valid. *)
Definition event_arguments (argv : nat -> js) : option (Z * js) :=
  if negb (bool_decide (napi_typeof (argv 0%nat) = napi_number)) then None
  else
    let mode := default SUBSCRIBE_MODE_MAX (napi_get_value_int32 (argv 0%nat)) in
    if (mode <? 0) || (mode >=? SUBSCRIBE_MODE_MAX) then None
    else if negb (bool_decide (napi_typeof (argv 1%nat) = napi_function)) then None
    else Some (mode, argv 1%nat).
Definition of_mode (mode : Z) (l : list (Z * (Z * js))) : list (Z * (Z * js)) := List.filter (fun o => o.1 =? mode) l.
Definition with_observer (k : kit) (p : Z) (x : StoreProxy) (mode : Z) (f : js) : kit :=
  mkKit (<[p := mkStoreProxy (rdbStore_ x) (ref_ x) (observers_ x ++ [(mode, (next_observer k, f))])]> (proxies k))
    (predicates k) (sets k) (next_observer k + 1) (world k).
Definition OnDataChangeEvent (p : Z) (argv : nat -> js) (k : kit) : progress (unit * kit) :=
  match event_arguments argv, proxies k !! p with
  | Some (mode, f), Some x =>
      if existsb (fun o => same_function o.2.2 f) (of_mode mode (observers_ x)) then Goes (tt, k)
      else then_ (on_rdbStore script_thread (Some p) (CSubscribe mode (next_observer k)) k) (fun res k =>
        if res then Goes (tt, with_observer k p x mode f)
        else Goes (tt, mkKit (proxies k) (predicates k) (sets k) (next_observer k + 1) (world k)))
  | _, _ => Goes (tt, k)
  end.
(** The first observer of the mode with that function leaves the list. *)
Fixpoint erase_first (mode : Z) (f : js) (l : list (Z * (Z * js))) : option (Z * list (Z * (Z * js))) :=
  match l with
  | [] => None
  | o :: l =>
      if (o.1 =? mode) && same_function o.2.2 f then Some (o.2.1, l)
      else match erase_first mode f l with Some (id, l) => Some (id, o :: l) | None => None end
  end.
Definition OffDataChangeEvent (p : Z) (argv : nat -> js) (k : kit) : progress (unit * kit) :=
  match event_arguments argv, proxies k !! p with
  | Some (mode, f), Some x =>
      match erase_first mode f (observers_ x) with
      | None => Goes (tt, k)
      | Some (id, l) =>
          then_ (on_rdbStore script_thread (Some p) (CUnSubscribe mode id) k) (fun _ k =>
            Goes (tt, with_proxy k p (mkStoreProxy (rdbStore_ x) (ref_ x) l)))
      end
  | _, _ => Goes (tt, k)
  end.
Definition event (e : Z -> (nat -> js) -> kit -> progress (unit * kit)) (message : string) : sync_method := fun c k =>
  if (argc c <? MIN_ON_EVENT_ARG_NUM) || (argc c >? MAX_ON_EVENT_ARG_NUM) then Goes (Raises message, k)
  else on_this c message (fun p k =>
    then_ (if decide (text (arg c 0) = "dataChange") then e p (fun i => arg c (S i)) k else Goes (tt, k)) (fun _ k =>
      Goes (Replies None, Release p k))) k.
Definition OnEvent : sync_method := event OnDataChangeEvent "RdbStoreProxy::OnEvent: invalid args".
Definition OffEvent : sync_method := event OffDataChangeEvent "RdbStoreProxy::OffEvent: invalid args".

(** The class; [p] is the address of the object a query makes. *)
Definition functions (p : Z) : list (string * method) :=
  [("delete", Delete); ("update", Update); ("insert", Insert); ("querySql", QuerySql p); ("query", Query p);
   ("executeSql", ExecuteSql); ("replace", Replace); ("backup", Backup); ("count", Count); ("addAttach", Attach);
   ("queryByStep", QueryByStep); ("markAsCommit", MarkAsCommit); ("endTransaction", EndTransaction);
   ("restore", ChangeDbFileForRestore); ("changeEncryptKey", ChangeEncryptKey); ("setDistributedTables", SetDistributedTables);
   ("obtainDistributedTableName", ObtainDistributedTableName); ("sync", Sync)].
Definition sync_functions : list (string * sync_method) :=
  [("beginTransaction", BeginTransaction); ("rollBack", RollBack); ("commit", Commit); ("on", OnEvent); ("off", OffEvent)].
Definition getters : list (string * sync_method) :=
  [("version", GetVersion); ("isInTransaction", IsInTransaction); ("isOpen", IsOpen); ("path", GetPath);
   ("isHoldingConnection", IsHoldingConnection); ("isReadOnly", IsReadOnly); ("isMemoryRdb", IsMemoryRdb)].
Definition setters : list (string * sync_method) := [("version", SetVersion)].
End Store.
End RdbStoreProxy.

(** ** napi_rdb_store_helper.cpp

    *** Callbacks of an open store

    The callbacks of a script are kept and called when the call that opens the store
    completes. *)
Module OpenCallback.
Record OpenCallback := mkOpenCallback {
  ref_ : js;
  onOpen_ : js;
  onCreate_ : js;
  onUpgrade_ : js;
  onDowngrade_ : js;
  callbacks_ : list (js * list (option js));
}.
Section Callbacks.
Context `{Napi}.

Definition new_callback (jsObj : js) : OpenCallback :=
  let property name := default JUndefined (napi_get_named_property jsObj name) in
  mkOpenCallback jsObj (property "onOpen") (property "onCreate") (property "onUpgrade") (property "onDowngrade") [].
Definition emplace (o : OpenCallback) (c : js * list (option js)) : OpenCallback :=
  mkOpenCallback (ref_ o) (onOpen_ o) (onCreate_ o) (onUpgrade_ o) (onDowngrade_ o) (callbacks_ o ++ [c]).
(** The new version is called the current one, the old version the target. *)
Definition versions (oldVersion newVersion : Z) : option js :=
  o ← napi_create_object;
  let o := default o (napi_set_named_property o "currentVersion" (napi_create_int32 newVersion)) in
  Some (default o (napi_set_named_property o "targetVersion" (napi_create_int32 oldVersion))).
Definition OnCreate (o : OpenCallback) : Z * OpenCallback := (E_OK, emplace o (onCreate_ o, [])).
Definition OnUpgrade (oldVersion newVersion : Z) (o : OpenCallback) : Z * OpenCallback :=
  (E_OK, emplace o (onUpgrade_ o, [Some JUndefined; versions oldVersion newVersion])).
Definition OnDowngrade (oldVersion newVersion : Z) (o : OpenCallback) : Z * OpenCallback :=
  (E_OK, emplace o (onDowngrade_ o, [Some JUndefined; versions oldVersion newVersion])).
Definition OnOpen (o : OpenCallback) : Z * OpenCallback := (E_OK, emplace o (onOpen_ o, [])).
(** The calls made, in order; what they return is not looked at. *)
Definition DelayNotify (o : OpenCallback) : list (js * list (option js)) := callbacks_ o.
End Callbacks.
End OpenCallback.

Module RdbHelperBinding.
Import RdbStoreConfig (RdbStoreConfig).

(** The callback of an opening has no place for the functions of a script: it is made
    without any. *)
Record HelperRdbContext := mkRdbContext {
  config : RdbStoreConfig;
  version : Z;
  opened : option Z;
  app : option JSAbility.Context;
}.
(** The helper's cache, the stores, directories and files it works with. *)
Record HelperKit `{RdbStores} `{DistributedPredicates} (W : Type) := mkHelperKit {
  cache : list (string * RdbStore);
  native_stores : stores;
  directories : gset string;
  database_files : FS;
  store_kit : Kit W;
}.
#[global] Arguments mkHelperKit {_ _ W} _ _ _ _ _.
#[global] Arguments cache {_ _ W} _.
#[global] Arguments native_stores {_ _ W} _.
#[global] Arguments directories {_ _ W} _.
#[global] Arguments database_files {_ _ W} _.
#[global] Arguments store_kit {_ _ W} _.

Section Helper.
Context `{Napi} `{AbilityRuntime} `{RdbStores} `{DistributedTypes} `{DistributedPredicates} {W : Type} `{!NativeStores W}.
(** The C library, and the addresses of stores. *)
Context (mkdir : string -> bool) (realpath : string -> option string) (address : RdbStore -> Z).
Abbreviation kit := (HelperKit W).
Abbreviation parser := (InputParser kit HelperRdbContext).
Abbreviation method := (call -> Runtime kit HelperRdbContext -> outcome (handle * Runtime kit HelperRdbContext)).

Definition empty_config : RdbStoreConfig := RdbStoreConfig.new_config "" MODE_DISK false [] "" "" "" "".
Definition new_rdb_context : HelperRdbContext := mkRdbContext empty_config 0 None None.
Definition with_config (c : HelperRdbContext) (f : RdbStoreConfig -> RdbStoreConfig) : HelperRdbContext :=
  mkRdbContext (f (config c)) (version c) (opened c) (app c).
Definition with_directories (k : kit) (d : gset string) : kit :=
  mkHelperKit (cache k) (native_stores k) d (database_files k) (store_kit k).

Definition ParseContext : parser := fun object ctx k =>
  match JSAbility.GetContext object with
  | None => Ok (with_error ctx "ParseContext get context failed.", k)
  | context => Ok (with_own ctx (mkRdbContext (config (own ctx)) (version (own ctx)) (opened (own ctx)) context), k)
  end.
(** [std::string::substr] throws when the position is beyond the end. *)
Definition substr (s : string) (pos : Z) (n : nat) : outcome string :=
  if (0 <=? pos) && (pos <=? Z.of_nat (String.length s)) then Ok (String.substring (Z.to_nat pos) n s) else Throws.
(** The three characters before the directory; [npos] and what is below zero are huge. *)
Definition GetEncryptLevel (databaseDir : string) : outcome string :=
  match String.index 0 "/database" databaseDir with
  | Some pos => substr databaseDir (Z.of_nat pos - 3) 3
  | None => Throws
  end.
(** Without a context of its own the call asks for that of the application; a null
    pointer is dereferenced when there is none. *)
Definition with_app (ctx : AysncContext HelperRdbContext) (k : kit) (f : AysncContext HelperRdbContext -> JSAbility.Context -> kit -> outcome (AysncContext HelperRdbContext * kit))
  : outcome (AysncContext HelperRdbContext * kit) :=
  r <-- match app (own ctx) with None => ParseContext JUndefined ctx k | Some _ => Ok (ctx, k) end;
  match app (own r.1) with Some a => f r.1 a r.2 | None => Undefined end.

Definition bytes_Z (l : list byte) : list Z := (fun b => Z.of_N (Ascii.N_of_ascii b)) <$> l.
Definition ParseStoreConfig : parser := fun object ctx k =>
  match napi_get_named_property object "name" with
  | None => Ok (with_error ctx "no database name found in config.", k)
  | Some value =>
      let name := JSUtils.Convert2String value true in
      if empty name then Ok (with_error ctx "Get database name empty.", k)
      else
        let ctx := with_own ctx (with_config (own ctx) (RdbStoreConfig.SetName name)) in
        let ctx := match napi_get_named_property object "encryptKey" with
                   | Some v => with_own ctx (with_config (own ctx) (RdbStoreConfig.SetEncryptKey (bytes_Z (JSUtils.Convert2U8Vector v))))
                   | None => ctx
                   end in
        with_app ctx k (fun ctx a k =>
          let databaseDir := JSAbility.GetDatabaseDir a in
          let '(realPath, errorCode, d) := GetDefaultDatabasePath mkdir realpath databaseDir name E_OK (directories k) in
          let k := with_directories k d in
          if negb (errorCode =? E_OK) then Ok (with_error ctx "Get database real path failed.", k)
          else
            let set f ctx := with_own ctx (with_config (own ctx) f) in
            let ctx := set (RdbStoreConfig.SetPath realPath) ctx in
            let ctx := set (RdbStoreConfig.SetAppModuleName (JSAbility.GetModuleName a)) ctx in
            relativePath <-- substr realPath (Z.of_nat (String.length databaseDir) + 1) (String.length realPath);
            let ctx := set (RdbStoreConfig.SetRelativePath relativePath) ctx in
            level <-- GetEncryptLevel databaseDir;
            let ctx := set (RdbStoreConfig.SetEncryptLevel level) ctx in
            Ok (set (fun c => snd (RdbStoreConfig.SetBundleName (JSAbility.GetBundleName a) c)) ctx, k))
  end.
Definition ParsePath : parser := fun arg ctx k =>
  let path := JSUtils.Convert2String arg true in
  if empty path then Ok (with_error ctx "Get database name empty.", k)
  else if existsb (fun c => Ascii.eqb c "/") (String.list_ascii_of_string path) then Ok (with_error ctx "A name without path should be input.", k)
  else
    with_app ctx k (fun ctx a k =>
      let '(realPath, errorCode, d) := GetDefaultDatabasePath mkdir realpath (JSAbility.GetDatabaseDir a) path E_OK (directories k) in
      let k := with_directories k d in
      if negb (errorCode =? E_OK) then Ok (with_error ctx "Get database real path failed.", k)
      else Ok (with_own ctx (with_config (own ctx) (RdbStoreConfig.SetPath realPath)), k)).
Definition ParseVersion : parser := fun arg ctx k =>
  Ok (with_own ctx (mkRdbContext (config (own ctx)) (default (version (own ctx)) (napi_get_value_int32 arg)) (opened (own ctx)) (app (own ctx))), k).

(** The callback that [getRdbStore] opens stores with. *)
Definition DefaultOpenCallback : RdbOpenCallback :=
  {| RdbHelper.OnCreate := fun _ w => Some (E_OK, w); RdbHelper.OnUpgrade := fun _ _ _ w => Some (E_OK, w);
     RdbHelper.OnDowngrade := fun _ _ _ w => Some (E_OK, w); RdbHelper.OnOpen := fun _ w => Some (E_OK, w) |}.

(** A context as the first argument is optional. *)
Definition with_context (c : call) (parsers : list parser) : list parser := if JSAbility.CheckContext c then ParseContext :: parsers else parsers.
Definition open_execute : NapiAsyncExecute kit HelperRdbContext := fun ctx k =>
  let c := own ctx in
  match RdbHelper.GetRdbStore (config c) (version c) DefaultOpenCallback (cache k) (native_stores k) with
  | None => Blocks
  | Some (errCode, s, c', w) =>
      Goes (if errCode =? E_OK then OK else ERR, mkRdbContext (config c) (version c) (address <$> s) (app c),
            mkHelperKit c' w (directories k) (database_files k) (store_kit k))
  end.
(** [p] is the address of the new object; there are no callbacks to call. *)
Definition open_complete (p : Z) : NapiAsyncComplete kit HelperRdbContext := fun ctx k =>
  let '(output, s) := RdbStoreProxy.NewInstance p (opened (own ctx)) (store_kit k) in
  Goes (if bool_decide (is_Some output) then OK else ERR, output,
        mkHelperKit (cache k) (native_stores k) (directories k) (database_files k) s).
Definition GetRdbStore (p : Z) : method := fun c =>
  async_call new_rdb_context (with_context c [ParseStoreConfig; ParseVersion]) DefParserThis open_execute (open_complete p) (fun _ k => k) c.

Definition delete_execute : NapiAsyncExecute kit HelperRdbContext := fun ctx k =>
  let '((ret, c'), f) := RdbHelper.DeleteRdbStore (RdbStoreConfig.GetPath (config (own ctx))) (cache k) (database_files k) in
  Goes (if ret =? E_OK then OK else ERR, own ctx, mkHelperKit c' (native_stores k) (directories k) f (store_kit k)).
Definition delete_complete : NapiAsyncComplete kit HelperRdbContext := fun _ k =>
  let output := napi_create_int64 E_OK in Goes (if bool_decide (is_Some output) then OK else ERR, output, k).
Definition DeleteRdbStore : method := fun c =>
  async_call new_rdb_context (with_context c [ParsePath]) DefParserThis delete_execute delete_complete (fun _ k => k) c.
End Helper.
End RdbHelperBinding.

(** * References

    A store object must live while a work uses it: the works that were started on it and
    have not finished hold strong references to it, and so do, for ever, the properties
    that were used and the transactions that failed. *)
Section References.
Context `{Napi} `{DistributedPredicates} {W : Type} `{!NativeStores W}.
Context (script_thread pool_thread : Z) (out_of_range : Z -> Z).
Import RdbStoreProxy.
Abbreviation kit := (Kit W).
Abbreviation runtime := (Runtime kit RdbStoreContext).
Implicit Types (k : kit) (r : runtime).

Definition keeps_proxies (exec : NapiAsyncExecute kit RdbStoreContext) : Prop :=
  forall ctx k st c k', exec ctx k = Goes (st, c, k') -> proxies k' = proxies k.
Definition completes_proxies (comp : NapiAsyncComplete kit RdbStoreContext) : Prop :=
  forall ctx k st out k', comp ctx k = Goes (st, out, k') -> proxies k' = proxies k.
Definition parses_proxies (f : InputParser kit RdbStoreContext) : Prop :=
  forall v ctx k ctx' k', f v ctx k = Ok (ctx', k') -> k' = k /\ boundObj ctx' = boundObj ctx.

(** What the methods are made of leaves the objects alone. *)
Lemma then_keeps {A B} (m : progress (A * kit)) (f : A -> kit -> progress (B * kit)) k b k' :
  (forall a k1, m = Goes (a, k1) -> proxies k1 = proxies k) ->
  (forall a k1 b k2, f a k1 = Goes (b, k2) -> proxies k2 = proxies k1) ->
  then_ m f = Goes (b, k') -> proxies k' = proxies k.
Proof. intros Hm Hf. destruct m as [[a k1]| |]; [|done..]. simpl. intros E. by rewrite (Hf _ _ _ _ E), (Hm a k1). Qed.

Lemma on_rdbStore_keeps {A} tid p (c : store_call A) k a k' : on_rdbStore tid p c k = Goes (a, k') -> proxies k' = proxies k.
Proof.
  unfold on_rdbStore. destruct p as [p|]; [|done]. destruct (proxies k !! p) as [[[s|] ? ?]|]; try done.
  destruct (on_store tid s c (world k)) as [[? ?]| |]; [|done..]. by intros [= _ <-].
Qed.
Lemma on_result_keeps {A} tid rs (c : set_call A) k a k' : on_result tid rs c k = Goes (a, k') -> proxies k' = proxies k.
Proof. unfold on_result. destruct (on_set tid rs c (world k)) as [[? ?]| |]; [|done..]. by intros [= _ <-]. Qed.

Lemma convert_numbers_keeps rs numbers : forall b k b' k',
  convert_numbers pool_thread out_of_range rs numbers b k = Goes (b', k') -> proxies k' = proxies k.
Proof.
  induction numbers as [|[name v] numbers IH]; intros b k b' k'; simpl; [by intros [= _ <-]|].
  apply then_keeps; [intros ? ?; apply on_result_keeps|]. intros index k1 b1 k2. apply then_keeps; [intros ? ?; apply on_result_keeps|].
  intros ? k3 b3 k4. apply IH.
Qed.
Lemma JSNumber2NativeType_keeps p c k c' k' :
  JSNumber2NativeType pool_thread out_of_range p c k = Goes (c', k') -> proxies k' = proxies k.
Proof.
  unfold JSNumber2NativeType. apply then_keeps; [intros ? ?; apply on_rdbStore_keeps|]. intros [rs|] k1 b1 k2; [|done].
  apply then_keeps; [intros ? ?; apply on_result_keeps|]. intros _ k3 b3 k4.
  apply then_keeps; [intros ? ?; apply convert_numbers_keeps|]. intros b k5 b5 k6.
  apply then_keeps; [intros ? ?; apply on_result_keeps|]. by intros _ k7 b7 k8 [= _ <-].
Qed.
Lemma ask_keeps {A} ctx (c : store_call A) g k b k' : ask pool_thread ctx c g k = Goes (b, k') -> proxies k' = proxies k.
Proof. apply then_keeps; [intros ? ?; apply on_rdbStore_keeps|]. by intros a k1 b1 k2 [= _ <-]. Qed.
Lemma with_predicates_keeps {B} c k (f : Z -> AbsRdbPredicates -> progress (B * kit)) b k' :
  (forall q x, f q x = Goes (b, k') -> proxies k' = proxies k) -> with_predicates c k f = Goes (b, k') -> proxies k' = proxies k.
Proof. intros Hf. unfold with_predicates. destruct (predicatesProxy c) as [q|]; [|done]. destruct (predicates k !! q); [apply Hf|done]. Qed.

Record method_ok (f : call -> runtime -> outcome (handle * runtime)) : Prop := {
  ok_made : exists parsers exec comp, f = start_work parsers exec comp /\ keeps_proxies exec /\ completes_proxies comp /\ Forall parses_proxies parsers;
}.

Lemma parse_with_ok f : parses_proxies (parse_with f).
Proof. by intros v ctx k ctx' k' [= <- <-]. Qed.
Lemma ParsePredicates_ok : parses_proxies ParsePredicates.
Proof.
  intros v ctx k ctx' k'. unfold ParsePredicates. destruct (napi_unwrap v) as [q|]; [|done].
  destruct (predicates k !! q); [|done]. by intros [= <- <-].
Qed.
Lemma number_complete_ok : completes_proxies number_complete.
Proof. by intros ctx k st out k' [= _ _ <-]. Qed.
Lemma undefined_complete_ok : completes_proxies undefined_complete.
Proof. by intros ctx k st out k' [= _ _ <-]. Qed.
Lemma set_complete_ok p : completes_proxies (set_complete p).
Proof. intros ctx k st out k'. unfold set_complete. destruct (resultSet (own ctx)); [|done]. by intros [= _ _ <-]. Qed.

Lemma functions_ok p : Forall (fun e => method_ok e.2) (functions pool_thread out_of_range p).
Proof.
  unfold functions.
  repeat (apply Forall_cons; split; [split; do 3 eexists; split; [reflexivity|]; split_and!|]); [..|by apply Forall_nil].
  all: try (repeat first [apply Forall_nil_2|apply Forall_cons; split]; first [apply parse_with_ok|apply ParsePredicates_ok]).
  all: try apply number_complete_ok; try apply undefined_complete_ok; try apply set_complete_ok; try (by intros ctx k st out k' [= _ _ <-]).
  all: intros ctx k st c k' E; revert E.
  all: try (apply ask_keeps).
  all: try (apply with_predicates_keeps; intros q x; apply ask_keeps).
  all: try (apply then_keeps; [intros ? ?; apply JSNumber2NativeType_keeps|]; intros c1 k1 b k2;
            first [apply ask_keeps|apply with_predicates_keeps; intros q x; apply ask_keeps]).
  apply with_predicates_keeps. intros q x. apply then_keeps; [intros ? ?; apply on_rdbStore_keeps|].
  by intros [[res x'] result] k1 b k2 [= _ <-].
Qed.

(** *** The count

    [refs k n]: there are [n p] references to the object at [p]. *)
Definition refs (k : kit) (n : Z -> nat) : Prop := forall p x, proxies k !! p = Some x -> ref_ x = Z.of_nat (n p).
Definition occurrences (p : Z) (l : list Z) : nat := length (List.filter (Z.eqb p) l).

Lemma refs_ext k n n' : refs k n -> (forall p, n p = n' p) -> refs k n'.
Proof. intros Hr E p x Hx. by rewrite (Hr p x Hx), E. Qed.
Lemma refs_same k k' n : refs k n -> proxies k' = proxies k -> refs k' n.
Proof. intros Hr E p x Hx. apply (Hr p). by rewrite <- E. Qed.

(** Looking up the native object of a value takes a reference to it. *)
Lemma get_refs self k n : refs k n -> refs (GetNativeInstance self k).2 (fun p => n p + occurrences p (option_list (napi_unwrap self)))%nat.
Proof.
  intros Hr p x. unfold GetNativeInstance, occurrences. destruct (napi_unwrap self) as [q|]; simpl; [|intros Hx; rewrite (Hr p x Hx); lia].
  destruct (proxies k !! q) as [y|] eqn:Ey.
  - simpl. destruct (decide (p = q)) as [->|Hne].
    + rewrite lookup_insert_eq, Z.eqb_refl. intros [= <-]. simpl. rewrite (Hr q y Ey). lia.
    + rewrite lookup_insert_ne by done. intros Hx. rewrite (Hr p x Hx). rewrite (proj2 (Z.eqb_neq p q)) by done. simpl. lia.
  - intros Hx. rewrite (Hr p x Hx). rewrite (proj2 (Z.eqb_neq p q)) by congruence. simpl. lia.
Qed.
(** A count of zero stays at zero. *)
Lemma release_refs q k n : refs k n -> refs (Release q k) (fun p => n p - occurrences p [q])%nat.
Proof.
  intros Hr p x. unfold Release, occurrences. simpl. destruct (proxies k !! q) as [y|] eqn:Ey.
  - destruct (decide (p = q)) as [->|Hne].
    + pose proof (Hr q y Ey). rewrite Z.eqb_refl. destruct (ref_ y >? 0) eqn:Eg; simpl; [rewrite lookup_insert_eq|rewrite Ey]; intros [= <-]; simpl; lia.
    + rewrite (proj2 (Z.eqb_neq p q)) by done. simpl. intros Hx. rewrite Nat.sub_0_r. apply Hr.
      destruct (ref_ y >? 0); simpl in Hx; [by rewrite lookup_insert_ne in Hx|done].
  - intros Hx. rewrite (proj2 (Z.eqb_neq p q)) by congruence. simpl. rewrite (Hr p x Hx). lia.
Qed.

(** The reference a work has, until it has finished. *)
Definition pins (p : Z) (w : work kit RdbStoreContext) : nat :=
  if finished (reached w) then 0 else occurrences p (option_list (boundObj (NapiAsync.context w))).
Definition pinned (p : Z) (ws : list (work kit RdbStoreContext)) : nat := sum_list_with (pins p) ws.

(** The references that are never given back: a property that was read or set keeps one,
    and so does a transaction that failed. *)
Definition kept_by_property (c : call) (rep : reply) : list Z :=
  match rep with Replies _ => option_list (napi_unwrap (this c)) | Raises _ => [] end.
Definition kept_by_function (name : string) (c : call) (rep : reply) : list Z :=
  match rep with
  | Replies _ => []
  | Raises _ => if bool_decide (name = "on" \/ name = "off") then [] else option_list (napi_unwrap (this c))
  end.

Abbreviation getters := (getters script_thread).
Abbreviation setters := (setters script_thread).
Abbreviation sync_functions := (sync_functions script_thread).
Definition with_native (r : runtime) (k : kit) : runtime := mkRuntime k (works r) (promises r) (called r).

(** The script calls the methods and uses the properties, and the threads execute and
    complete the works; with the references that were kept for ever. *)
Inductive store_step : runtime * list Z -> runtime * list Z -> Prop :=
| call_step p name f c h r r' l :
    (name, f) ∈ functions pool_thread out_of_range p -> f c r = Ok (h, r') -> store_step (r, l) (r', l)
| execute_step i r r' l : execute i r = Some (Goes r') -> store_step (r, l) (r', l)
| complete_step i r r' l : complete i r = Some (Goes r') -> store_step (r, l) (r', l)
| property_step name f c rep k r l :
    (name, f) ∈ getters ++ setters -> f c (native r) = Goes (rep, k) ->
    store_step (r, l) (with_native r k, l ++ kept_by_property c rep)
| function_step name f c rep k r l :
    (name, f) ∈ sync_functions -> f c (native r) = Goes (rep, k) ->
    store_step (r, l) (with_native r k, l ++ kept_by_function name c rep).

Definition work_ok (w : work kit RdbStoreContext) : Prop :=
  keeps_proxies (execFunc w) /\ completes_proxies (completeFunc w) /\ destroy w = delete_context.
Definition refs_inv (s : runtime * list Z) : Prop :=
  refs (native s.1) (fun p => pinned p (works s.1) + occurrences p s.2)%nat /\ Forall work_ok (works s.1).

Lemma pinned_snoc p ws w : pinned p (ws ++ [w]) = (pinned p ws + pins p w)%nat.
Proof. unfold pinned. rewrite sum_list_with_app. simpl. lia. Qed.
Lemma occurrences_app p l l' : occurrences p (l ++ l') = (occurrences p l + occurrences p l')%nat.
Proof. unfold occurrences. by rewrite List.filter_app, length_app. Qed.

Lemma parse_arguments_keeps parsers : forall args ctx k ctx' k',
  Forall parses_proxies parsers -> parse_arguments parsers args ctx k = Ok (ctx', k') -> k' = k.
Proof.
  induction parsers as [|f parsers IH]; intros [|v args] ctx k ctx' k' Hf; simpl; try (by intros [= _ <-]).
  apply Forall_cons in Hf as [Hf Hfs]. destruct (f v ctx k) as [[ctx1 k1]| | |] eqn:E; try done. simpl. apply Hf in E as [-> _]. by apply IH.
Qed.
Lemma parse_this_ok parsers c t k ctx k' :
  Forall parses_proxies parsers -> ParseInputs parsers ParseThis c (Init t) k = Ok (ctx, k') ->
  boundObj ctx = napi_unwrap (this c) /\ k' = (GetNativeInstance (this c) k).2.
Proof.
  intros Hf. unfold ParseInputs.
  assert (Hp : forall ctx1 k1, (if argc c <=? MAX_INPUT_COUNT then parse_arguments parsers (argv c) (Init t) k else Ok (Init t, k)) = Ok (ctx1, k1) -> k1 = k).
  { intros ctx1 k1. destruct (_ <=? _); [by apply parse_arguments_keeps|by intros [= _ <-]]. }
  destruct (if argc c <=? MAX_INPUT_COUNT then _ else _) as [[ctx1 k1]| | |] eqn:E; try done. simpl. rewrite (Hp ctx1 k1 eq_refl).
  unfold ParseThis. destruct (GetNativeInstance (this c) k) as [q k2] eqn:Eg. intros [= <- <-]. split; [|done].
  unfold GetNativeInstance in Eg. destruct (napi_unwrap (this c)); by injection Eg as <- <-.
Qed.

(** Starting a work on a proxy takes a reference to it. *)
Lemma call_refs parsers exec comp c h r r' l :
  refs_inv (r, l) -> keeps_proxies exec -> completes_proxies comp -> Forall parses_proxies parsers ->
  start_work parsers exec comp c r = Ok (h, r') -> refs_inv (r', l).
Proof.
  intros [Hr Hw] He Hc Hp. simpl in Hr, Hw. unfold start_work, async_call.
  destruct (ParseInputs parsers ParseThis c (Init new_store_context) (native r)) as [[ctx k]| | |] eqn:E; try done. simpl.
  apply parse_this_ok in E as [Eb ->]; [|done]. pose proof (get_refs (this c) (native r) _ Hr) as Hk. rewrite <- Eb in Hk.
  set (k := (GetNativeInstance (this c) (native r)).2) in *.
  intros [= E]. assert (Hr' : native r' = k /\ exists d, works r' = works r ++ [mkWork ctx d exec comp delete_context Queued]).
  { unfold DoAsyncWork in E. destruct (thrown ctx); [|destruct (callbackRef ctx)]; injection E as _ <-; simpl; eauto. }
  destruct Hr' as [En [d Ew]]. split; simpl; rewrite Ew; [|apply Forall_app; split; [done|by repeat constructor]].
  rewrite En. eapply refs_ext; [exact Hk|]. intros p. rewrite pinned_snoc. unfold pins. simpl. lia.
Qed.

Lemma execute_refs i r r' l : refs_inv (r, l) -> execute i r = Some (Goes r') -> refs_inv (r', l).
Proof.
  intros [Hr Hw]. simpl in Hr, Hw. unfold execute. destruct (works r !! i) as [w|] eqn:Ew; [|done]. simpl. destruct (reached w) eqn:Est; try done.
  pose proof (Forall_lookup_1 _ _ _ _ Hw Ew) as (He & Hc & Hd).
  destruct (execFunc w _ _) as [[[st t] k]| |] eqn:Ee; intros [= <-]. apply He in Ee. split; simpl; [|by apply Forall_insert].
  eapply refs_ext; [by eapply refs_same|]. intros p. simpl.
  pose proof (sum_replace (pins p) _ i w (at_stage w (with_own (NapiAsync.context w) t) (Executed st)) Ew) as Hs.
  unfold pins in Hs at 2 4. simpl in Hs. rewrite Est in Hs. simpl in Hs. unfold pinned. lia.
Qed.

Lemma complete_refs i r r' l : refs_inv (r, l) -> complete i r = Some (Goes r') -> refs_inv (r', l).
Proof.
  intros [Hr Hw]. simpl in Hr, Hw. unfold complete. destruct (works r !! i) as [w|] eqn:Ew; [|done]. simpl. destruct (reached w) as [|est|] eqn:Est; try done.
  pose proof (Forall_lookup_1 _ _ _ _ Hw Ew) as (He & Hc & Hd).
  destruct (completeFunc w _ _) as [[[st out] k]| |] eqn:Ee; try done. destruct (settle w _ _ _) as [ps cs]. intros [= <-].
  apply Hc in Ee. split; simpl; [|by apply Forall_insert]. rewrite Hd.
  apply (refs_same _ k) in Hr; [|done].
  assert (Hs : forall p, (pinned p (<[i:=at_stage w (NapiAsync.context w) (Finished (report_of est st out))]> (works r)) +
    occurrences p (option_list (boundObj (NapiAsync.context w))) = pinned p (works r))%nat).
  { intros p. pose proof (sum_replace (pins p) _ i w (at_stage w (NapiAsync.context w) (Finished (report_of est st out))) Ew) as Hs.
    unfold pins in Hs at 2 4. simpl in Hs. rewrite Est in Hs. simpl in Hs. unfold pinned. lia. }
  unfold delete_context. destruct (boundObj (NapiAsync.context w)) as [q|].
  - eapply refs_ext; [by apply release_refs|]. intros p. specialize (Hs p). simpl in *. lia.
  - eapply refs_ext; [exact Hr|]. intros p. specialize (Hs p). unfold occurrences in *. simpl in *. lia.
Qed.

(** *** The synchronous methods and the properties *)
Lemma on_this_refs c message (m : Z -> kit -> progress (reply * kit)) k n rep k' (kept : reply -> list Z) :
  refs k n -> on_this c message m k = Goes (rep, k') ->
  (napi_unwrap (this c) = None -> kept (Raises message) = []) ->
  (forall p k1, napi_unwrap (this c) = Some p -> refs k1 (fun q => n q + occurrences q [p])%nat -> m p k1 = Goes (rep, k') ->
    refs k' (fun q => n q + occurrences q (kept rep))%nat) ->
  refs k' (fun q => n q + occurrences q (kept rep))%nat.
Proof.
  intros Hr E Hn Hm. unfold on_this in E. pose proof (get_refs (this c) k n Hr) as Hg. unfold GetNativeInstance in *.
  destruct (napi_unwrap (this c)) as [p|]; simpl in *; [by eapply Hm|]. injection E as <- <-. by rewrite Hn.
Qed.

Lemma property_refs {A} (sc : store_call A) f c k n rep k' :
  refs k n -> property script_thread sc f c k = Goes (rep, k') -> refs k' (fun q => n q + occurrences q (kept_by_property c rep))%nat.
Proof.
  intros Hr E. refine (on_this_refs _ _ _ _ _ _ _ (kept_by_property c) Hr E _ _); [done|]. intros p k1 Ep Hk.
  destruct (on_rdbStore script_thread (Some p) sc k1) as [[a k2]| |] eqn:Eo; simpl; [|done..]. intros [= <- <-]. simpl. rewrite Ep.
  eapply refs_same; [exact Hk|by eapply on_rdbStore_keeps].
Qed.
Lemma transaction_refs name sc message c k n rep k' :
  name <> "on" -> name <> "off" -> refs k n -> transaction script_thread sc message c k = Goes (rep, k') ->
  refs k' (fun q => n q + occurrences q (kept_by_function name c rep))%nat.
Proof.
  intros Hon Hoff Hr E. refine (on_this_refs _ _ _ _ _ _ _ (kept_by_function name c) Hr E _ _).
  { simpl. intros ->. by destruct (bool_decide _). }
  intros p k1 Ep Hk. destruct (on_rdbStore script_thread (Some p) sc k1) as [[code k2]| |] eqn:Eo; simpl; [|done..].
  apply (refs_same _ k2) in Hk; [|by eapply on_rdbStore_keeps]. destruct (code =? E_OK); intros [= <- <-]; simpl.
  - eapply refs_ext; [apply release_refs, Hk|]. intros q. simpl. change (occurrences q []) with 0%nat. lia.
  - rewrite bool_decide_false by (by intros [?|?]). by rewrite Ep.
Qed.

(** A subscription changes the observers of the object only. *)
Lemma observers_refs k n p x o : refs k n -> proxies k !! p = Some x -> refs (with_proxy k p (mkStoreProxy (rdbStore_ x) (ref_ x) o)) n.
Proof.
  intros Hr Hx q y. simpl. destruct (decide (q = p)) as [->|Hne]; [rewrite lookup_insert_eq; intros [= <-]; exact (Hr p x Hx)|].
  rewrite lookup_insert_ne by done. apply Hr.
Qed.
Lemma on_change_refs p args k n a k' : refs k n -> OnDataChangeEvent script_thread p args k = Goes (a, k') -> refs k' n.
Proof.
  intros Hr. unfold OnDataChangeEvent. destruct (event_arguments args) as [[mode f]|]; [|by intros [= _ <-]].
  destruct (proxies k !! p) as [x|] eqn:Ex; [|by intros [= _ <-]]. destruct (existsb _ _); [by intros [= _ <-]|].
  destruct (on_rdbStore _ _ _ k) as [[res k2]| |] eqn:Eo; simpl; [|done..]. apply on_rdbStore_keeps in Eo.
  apply (refs_same _ k2) in Hr; [|done]. rewrite <- Eo in Ex. destruct res; intros [= _ <-]; [|done].
  eapply refs_same; [by apply (observers_refs k2 n p x (observers_ x ++ [(mode, (next_observer k2, f))]))|done].
Qed.
Lemma off_change_refs p args k n a k' : refs k n -> OffDataChangeEvent script_thread p args k = Goes (a, k') -> refs k' n.
Proof.
  intros Hr. unfold OffDataChangeEvent. destruct (event_arguments args) as [[mode f]|]; [|by intros [= _ <-]].
  destruct (proxies k !! p) as [x|] eqn:Ex; [|by intros [= _ <-]]. destruct (erase_first mode f _) as [[id o]|]; [|by intros [= _ <-]].
  destruct (on_rdbStore _ _ _ k) as [[res k2]| |] eqn:Eo; simpl; [|done..]. apply on_rdbStore_keeps in Eo.
  apply (refs_same _ k2) in Hr; [|done]. rewrite <- Eo in Ex. intros [= _ <-]. by apply observers_refs.
Qed.
Lemma event_refs name e message c k n rep k' :
  (forall p args k n a k', refs k n -> e p args k = Goes (a, k') -> refs k' n) -> name = "on" \/ name = "off" ->
  refs k n -> event e message c k = Goes (rep, k') -> refs k' (fun q => n q + occurrences q (kept_by_function name c rep))%nat.
Proof.
  intros He Hname Hr. assert (Hkept : forall rep, kept_by_function name c rep = []).
  { intros []; simpl; [done|]. by rewrite bool_decide_true. }
  unfold event. destruct (_ || _).
  { intros [= <- <-]. eapply refs_ext; [exact Hr|]. intros p. rewrite Hkept. unfold occurrences. simpl. lia. }
  intros E. refine (on_this_refs _ _ _ _ _ _ _ (kept_by_function name c) Hr E _ _); [by intros _|].
  intros p k1 Ep Hk. rewrite Hkept. intros Em. eapply (refs_ext _ (fun q => n q + occurrences q [p] - occurrences q [p])%nat); [|intros q; simpl; change (occurrences q []) with 0%nat; lia].
  destruct (if decide _ then _ else _) as [[? k2]| |] eqn:Ee; simpl in Em; try done. injection Em as _ <-. apply (release_refs p k2 (fun q => n q + occurrences q [p])%nat).
  destruct (decide _); [by eapply He|by injection Ee as _ <-].
Qed.

Lemma properties_ok name f c k n rep k' :
  (name, f) ∈ getters ++ setters -> refs k n -> f c k = Goes (rep, k') -> refs k' (fun q => n q + occurrences q (kept_by_property c rep))%nat.
Proof.
  intros Hin Hr. apply elem_of_app in Hin as [Hin|Hin].
  - unfold RdbStoreProxy.getters in Hin. repeat (apply elem_of_cons in Hin as [Hin|Hin]; [injection Hin as -> ->; by apply property_refs|]). by apply not_elem_of_nil in Hin.
  - apply list_elem_of_singleton in Hin. injection Hin as -> ->. unfold SetVersion. destruct (negb _).
    + intros [= <- <-]. eapply refs_ext; [exact Hr|]. intros p. unfold occurrences. simpl. lia.
    + intros E. refine (on_this_refs _ _ _ _ _ _ _ (kept_by_property c) Hr E _ _); [done|]. intros p k1 Ep Hk.
      destruct (on_rdbStore script_thread (Some p) _ k1) as [[a k2]| |] eqn:Eo; simpl; [|done..]. intros [= <- <-]. simpl. rewrite Ep.
      eapply refs_same; [exact Hk|by eapply on_rdbStore_keeps].
Qed.
Lemma sync_functions_ok name f c k n rep k' :
  (name, f) ∈ sync_functions -> refs k n -> f c k = Goes (rep, k') -> refs k' (fun q => n q + occurrences q (kept_by_function name c rep))%nat.
Proof.
  intros Hin Hr. unfold RdbStoreProxy.sync_functions in Hin.
  do 3 (apply elem_of_cons in Hin as [Hin|Hin]; [injection Hin as -> ->; by apply transaction_refs|]).
  apply elem_of_cons in Hin as [Hin|Hin]; [|apply list_elem_of_singleton in Hin]; injection Hin as -> ->;
    (apply event_refs; [|auto|done]); [apply on_change_refs|apply off_change_refs].
Qed.

Lemma store_step_inv s s' : store_step s s' -> refs_inv s -> refs_inv s'.
Proof.
  intros [p name f c h r r' l Hin E|i r r' l E|i r r' l E|name f c rep k r l Hin E|name f c rep k r l Hin E] Hi.
  - pose proof (functions_ok p) as Hf. rewrite Forall_forall in Hf. destruct (Hf _ Hin) as [(parsers & exec & comp & Ef & ? & ? & ?)]. simpl in Ef. subst f. by eapply call_refs.
  - by eapply execute_refs.
  - by eapply complete_refs.
  - destruct Hi as [Hr Hw]. split; [|done]. simpl in *. eapply refs_ext; [by eapply properties_ok|]. intros q. simpl. rewrite occurrences_app. lia.
  - destruct Hi as [Hr Hw]. split; [|done]. simpl in *. eapply refs_ext; [by eapply sync_functions_ok|]. intros q. simpl. rewrite occurrences_app. lia.
Qed.

(** C34: What keeps a store object alive. From a state in which no store object is
    referenced, through calls of all its methods, uses of its properties, and executions
    and completions of the works in any order, the count of references to a store object
    is the number of its works that have not finished, plus one for each time one of its
    properties was read or its version set, and for each transaction call that failed,
    on it: these are never given back. So the object lives while a work may use it; it
    can be collected when all have finished, if none of the latter happened. *)
Theorem works_pin_store r r' l :
  works r = [] -> (forall p x, proxies (native r) !! p = Some x -> ref_ x = 0) -> rtc store_step (r, []) (r', l) ->
  forall p x, proxies (native r') !! p = Some x -> ref_ x = Z.of_nat (pinned p (works r') + occurrences p l).
Proof.
  intros Hn Hzero Hsteps. enough (refs_inv (r', l)) as Hi by apply Hi. assert (Hr : refs_inv (r, [])).
  { split; simpl; rewrite Hn; [exact Hzero|constructor]. }
  clear Hn Hzero. induction Hsteps as [|s1 s2 s3 H12 _ IH]; [done|]. by eapply IH, store_step_inv.
Qed.
End References.

(** * Values of a script in their columns

    A store reads the first row of a table to learn the types of its columns. [usable]
    are the states in which it answers, [reading] those in which the result set of the
    row is open. *)
Section Columns.
Context `{NapiLaws} `{DistributedPredicates} {W : Type} `{!NativeStores W}.
Context (pool_thread : Z) (out_of_range : Z -> Z).
Import RdbStoreProxy.
Implicit Types (c : RdbStoreContext) (w : W).

Record reads_table (s : Z) (table : string) (type_in : string -> option ColumnType) (usable : W -> Prop) (reading : Z -> W -> Prop) : Prop := {
  reader_opens w : usable w -> exists rs w1,
    on_store pool_thread s (CQueryByStep ("SELECT * FROM " +:+ table +:+ " LIMIT 1") []) w = Goes (Some rs, w1) /\ reading rs w1;
  reader_first rs w : reading rs w -> exists code w1, on_set pool_thread rs RGoToFirstRow w = Goes (code, w1) /\ reading rs w1;
  reader_index rs w name : reading rs w -> exists i w1, on_set pool_thread rs (RGetColumnIndex name) w = Goes (i, w1) /\ reading rs w1 /\
    exists w2, on_set pool_thread rs (RGetColumnType (default (-1) i)) w1 = Goes (type_in name, w2) /\ reading rs w2;
  reader_closes rs w : reading rs w -> exists code w1, on_set pool_thread rs RClose w = Goes (code, w1) /\ usable w1;
}.

(** The values of JavaScript that a column can hold. *)
Inductive storable : js -> Prop :=
| storable_string s : no_nul s -> storable (JString s)
| storable_number d : storable (JNumber d)
| storable_boolean b : storable (JBoolean b)
| storable_null : storable JNull
| storable_bytes data : storable (JTypedArray napi_uint8_array data).
Definition storable_object (m : list (string * js)) : Prop :=
  NoDup m.*1 /\ Z.of_nat (length m) < 2 ^ 32 /\ Forall (fun p => plain JSUtils.DEFAULT_BUF_SIZE (JString p.1) /\ storable p.2) m.

(** What is stored: a number as an integer only in a column of integers. *)
Definition typed_number (type_in : string -> option ColumnType) (name : string) (d : Z) : ValueObject :=
  match type_in name with Some TYPE_INTEGER => ValueObject_long (to_int64 out_of_range d) | _ => ValueObject_double d end.
Definition column_value (type_in : string -> option ColumnType) (name : string) (v : js) : ValueObject :=
  match v with JNumber d => typed_number type_in name d | _ => value_of v end.

(** *** Parsing *)
Definition other_value (v : js) : option ValueObject := match v with JNumber _ => None | _ => Some (value_of v) end.
Definition number_value (v : js) : option ValueObject := match v with JNumber d => Some (ValueObject_double d) | _ => None end.
Record parsed_columns c (m : list (string * js)) : Prop := {
  parsed_bucket : sm_sorted (ValuesBucket.valuesMap (valuesBucket c)) /\ forall k, sm_find k (ValuesBucket.valuesMap (valuesBucket c)) = sm_find k m ≫= other_value;
  parsed_numbers : sm_sorted (numberMaps c) /\ forall k, sm_find k (numberMaps c) = sm_find k m ≫= number_value;
}.

Lemma sm_find_snoc {V} (m : list (string * V)) k v k' : k ∉ m.*1 ->
  sm_find k' (m ++ [(k, v)]) = if decide (k' = k) then Some v else sm_find k' m.
Proof.
  induction m as [|[k0 v0] m IH]; simpl; [done|]. intros [Hne Hk]%not_elem_of_cons. rewrite (IH Hk). repeat case_decide; congruence.
Qed.
Lemma sm_find_fresh {V} (m : list (string * V)) k : k ∉ m.*1 -> sm_find k m = None.
Proof. induction m as [|[k0 v0] m IH]; simpl; [done|]. intros [Hne Hk]%not_elem_of_cons. rewrite decide_False by done. by apply IH. Qed.
Lemma sorted_keys {V} (m : list (string * V)) : sm_sorted m -> NoDup m.*1.
Proof.
  induction 1 as [|[k v] m Hs IH Hf]; simpl; constructor; [|done]. intros (p & E & Hin)%list_elem_of_fmap. rewrite Forall_forall in Hf.
  apply Hf in Hin. simpl in Hin. rewrite E in Hin. by apply key_lt_irrefl in Hin.
Qed.
Lemma insert_found {V} (l : list (string * V)) (f : js -> option V) m k v x :
  sm_sorted l -> (forall k, sm_find k l = sm_find k m ≫= f) -> k ∉ m.*1 -> f v = Some x ->
  sm_sorted (sm_insert k x l) /\ forall k', sm_find k' (sm_insert k x l) = sm_find k' (m ++ [(k, v)]) ≫= f.
Proof.
  intros Hs Hl Hk Hf. split; [by apply sm_insert_sorted|]. intros k'. rewrite sm_find_insert, sm_find_snoc by done.
  rewrite (Hl k), sm_find_fresh by done. simpl. case_decide; [by rewrite <- Hf|apply Hl].
Qed.
Lemma skip_found {V} (l : list (string * V)) (f : js -> option V) m k v :
  sm_sorted l -> (forall k, sm_find k l = sm_find k m ≫= f) -> k ∉ m.*1 -> f v = None ->
  sm_sorted l /\ forall k', sm_find k' l = sm_find k' (m ++ [(k, v)]) ≫= f.
Proof.
  intros Hs Hl Hk Hf. split; [done|]. intros k'. rewrite sm_find_snoc by done. case_decide as E; [|done]. subst.
  by rewrite Hl, sm_find_fresh.
Qed.

Lemma put_property_ok c m k v :
  parsed_columns c m -> k ∉ m.*1 -> storable v ->
  parsed_columns (put_property c k v) (m ++ [(k, v)]) /\ tableName (put_property c k v) = tableName c.
Proof.
  intros [[Hs Hb] [Hns Hn]] Hk Hv. unfold put_property. rewrite typeof_ok.
  destruct Hv; simpl; (split; [|done]); split; simpl; try (by apply skip_found);
    first [apply (insert_found _ _ _ _ _ _ Hs Hb Hk)|apply (insert_found _ _ _ _ _ _ Hns Hn Hk)]; simpl.
  - by rewrite convert_string_long.
  - by rewrite double_ok.
  - by rewrite bool_ok.
  - done.
  - by rewrite convert_blob.
Qed.

Lemma parse_columns m2 : forall m1 c,
  storable_object (m1 ++ m2) -> parsed_columns c m1 ->
  let c' := foldl (fun c key => put_property c (JSUtils.Convert2String key true) (default JUndefined (napi_get_property (JObject (m1 ++ m2)) key))) c
              ((fun p => JString p.1) <$> m2) in
  parsed_columns c' (m1 ++ m2) /\ tableName c' = tableName c.
Proof.
  induction m2 as [|[k v] m2 IH]; intros m1 c Ho Hc; simpl; [by rewrite app_nil_r|].
  pose proof Ho as (Hn & Hl & Hf). assert (Hin : (k, v) ∈ m1 ++ (k, v) :: m2) by (apply elem_of_app; right; left).
  rewrite Forall_forall in Hf. destruct (Hf _ Hin) as [Hk Hv]. simpl in Hk, Hv. inversion Hk; subst. rewrite convert_string, (property_ok _ k v) by done. simpl.
  assert (Hfresh : k ∉ m1.*1) by (rewrite fmap_app in Hn; apply NoDup_app in Hn as (_ & Hd & _); intros Hk1; apply (Hd k Hk1); left).
  destruct (put_property_ok c m1 k v Hc Hfresh Hv) as [Hc' Ht].
  rewrite (app_assoc m1 [(k, v)] m2 : m1 ++ (k, v) :: m2 = _) in Ho |- *. destruct (IH (m1 ++ [(k, v)]) _ Ho Hc') as [Hp Ht2]. split; [exact Hp|]. etrans; [exact Ht2|exact Ht].
Qed.

(** *** Converting *)
Lemma convert_numbers_ok s table type_in usable reading rs numbers :
  reads_table s table type_in usable reading -> forall b (k : Kit W),
  NoDup numbers.*1 -> Forall (fun p => exists d, p.2 = ValueObject_double d) numbers ->
  sm_sorted (ValuesBucket.valuesMap b) -> (forall name, name ∈ numbers.*1 -> sm_find name (ValuesBucket.valuesMap b) = None) -> reading rs (world k) ->
  exists b' w', convert_numbers pool_thread out_of_range rs numbers b k = Goes (b', with_world k w') /\ reading rs w' /\
    forall name, sm_find name (ValuesBucket.valuesMap b') =
      match sm_find name numbers with Some v => Some (typed_number type_in name (double_value v)) | None => sm_find name (ValuesBucket.valuesMap b) end.
Proof.
  intros Hr. induction numbers as [|[n v] numbers IH]; intros b k Hn Hd Hs Hfresh Hw.
  - exists b, (world k). split; [by destruct k|done].
  - simpl in Hn. apply NoDup_cons in Hn as [Hn1 Hn]. apply Forall_cons in Hd as [[d Hd1] Hd]. simpl in Hd1. subst v.
    destruct (reader_index _ _ _ _ _ Hr rs _ n Hw) as (i & w1 & E1 & Hw1 & w2 & E2 & Hw2).
    assert (En : put_number out_of_range b (default TYPE_FLOAT (type_in n)) n d = ValuesBucket.insert_value b n (typed_number type_in n d)).
    { unfold put_number, typed_number. by destruct (type_in n) as [[]|]. }
    edestruct (IH (ValuesBucket.insert_value b n (typed_number type_in n d)) (with_world k w2)) as (b' & w' & E & Hw' & Hf);
      [done|done|by apply sm_insert_sorted| |done|].
    { intros n' Hn'. unfold ValuesBucket.insert_value. simpl. rewrite sm_find_insert by done. rewrite decide_False by (intros ->; done). apply Hfresh. by right. }
    exists b', w'. split; [|split; [done|]].
    + simpl. unfold on_result. rewrite E1. simpl. rewrite E2. cbn -[put_number]. change (double_value (ValueObject_double d)) with d. rewrite En. exact E.
    + intros n'. rewrite Hf. simpl. destruct (decide (n' = n)) as [->|Hne].
      * rewrite (sm_find_fresh numbers n) by done. rewrite sm_find_insert by done. by rewrite decide_True, Hfresh by (done || left).
      * destruct (sm_find n' numbers); [done|]. rewrite sm_find_insert by done. by rewrite decide_False.
Qed.

Lemma JSNumber2NativeType_ok s type_in usable reading p x c m k :
  reads_table s (tableName c) type_in usable reading -> proxies k !! p = Some x -> rdbStore_ x = Some s -> usable (world k) -> parsed_columns c m ->
  exists c' w', JSNumber2NativeType pool_thread out_of_range (Some p) c k = Goes (c', with_world k w') /\ usable w' /\ tableName c' = tableName c /\
    forall name, sm_find name (ValuesBucket.valuesMap (valuesBucket c')) = column_value type_in name <$> sm_find name m.
Proof.
  intros Hr Hp Hx Hu [[Hs Hb] [Hns Hn]]. destruct x as [o n l]. simpl in Hx. subst o. unfold JSNumber2NativeType, on_rdbStore. rewrite Hp.
  destruct (reader_opens _ _ _ _ _ Hr _ Hu) as (rs & w1 & -> & Hw1). simpl. unfold on_result. simpl.
  destruct (reader_first _ _ _ _ _ Hr _ _ Hw1) as (code & w2 & -> & Hw2). simpl.
  destruct (convert_numbers_ok s (tableName c) type_in usable reading rs (numberMaps c) Hr (valuesBucket c) (with_world k w2)) as (b' & w3 & E & Hw3 & Hf);
    [by apply sorted_keys| |done| |done|].
  { apply Forall_forall. intros [name v] Hin. apply elem_of_sm_find in Hin; [|done]. rewrite Hn in Hin.
    destruct (sm_find name m) as [[]|]; simplify_eq/=. by eexists. }
  { intros name Hin. rewrite Hb. apply list_elem_of_fmap in Hin as ([name' v] & -> & Hin). apply elem_of_sm_find in Hin; [|done]. rewrite Hn in Hin. simpl.
    destruct (sm_find name' m) as [[]|]; by simplify_eq/=. }
  change (with_world (with_world k w1) w2) with (with_world k w2). rewrite E. simpl.
  destruct (reader_closes _ _ _ _ _ Hr _ _ Hw3) as (code' & w4 & -> & Hw4). simpl. eexists _, w4. split; [reflexivity|]. split; [done|]. split; [done|].
  intros name. simpl. rewrite Hf, Hn, Hb. by destruct (sm_find name m) as [[]|].
Qed.

Lemma ParseValuesBucket_ok m c ctx (k : Kit W) :
  storable_object m -> own ctx = c -> parsed_columns c [] ->
  exists c', ParseValuesBucket (JObject m) ctx k = Ok (with_own ctx c', k) /\ parsed_columns c' m /\ tableName c' = tableName c.
Proof.
  intros Hm Ec Hc. subst c. pose proof Hm as (_ & Hl & _). unfold ParseValuesBucket, parse_with. rewrite keys_of_ok by done.
  destruct (parse_columns m [] (own ctx) Hm Hc) as [Hp Ht]. eexists. by split.
Qed.

(** C33: An insertion stores what the script gave. Awaiting [insert] on an object of
    columns calls the native store once the types of the columns are known, with a
    bucket that has exactly the columns of the object: texts of any length, truth values,
    nulls and bytes as they are, and numbers as integers in the columns of integers and
    as doubles elsewhere. The promise is resolved with the row the store gave, or
    rejected when the store failed. *)
Theorem insert_typed_columns s table type_in usable reading p x m (r : Runtime (Kit W) RdbStoreContext) :
  reads_table s table type_in usable reading ->
  (forall w b, usable w -> exists code row w', on_store pool_thread s (CInsert table b) w = Goes ((code, row), w') /\ Z.abs row < 2 ^ 53) ->
  plain JSUtils.DEFAULT_BUF_SIZE (JString table) -> storable_object m ->
  proxies (native r) !! p = Some x -> rdbStore_ x = Some s -> usable (world (native r)) ->
  exists b w code row v r',
    on_store pool_thread s (CInsert table b) w = Goes ((code, row), world (native r')) /\
    (forall name, sm_find name (ValuesBucket.valuesMap b) = column_value type_in name <$> sm_find name m) /\
    awaited (Insert pool_thread out_of_range (mkCall (JInstance p) [JString table; JObject m])) r = Goes (v, r') /\
    (code = E_OK -> exists d, v = Resolved (JNumber d) /\ napi_get_value_int64 (JNumber d) = Some row) /\
    (code <> E_OK -> v = Rejected "async call failed").
Proof.
  intros Hr Hi Ht Hm Hp Hx Hu. inversion Ht; subst.
  destruct (ParseValuesBucket_ok m (set_tableName new_store_context table) (with_own (Init new_store_context) (set_tableName new_store_context table)) (native r) Hm)
    as (c & Ec & Hc & Et); [done|split; (split; [apply Sorted.SSorted_nil|done])|].
  set (k1 := with_proxy (native r) p (mkStoreProxy (rdbStore_ x) (ref_ x + 1) (observers_ x))).
  assert (Hparse : ParseInputs [ParseTableName; ParseValuesBucket] ParseThis (mkCall (JInstance p) [JString table; JObject m]) (Init new_store_context) (native r) =
    Ok (with_bound (with_own (Init new_store_context) c) (Some p), k1)).
  { unfold ParseInputs. change (argc _ <=? MAX_INPUT_COUNT) with true. cbn -[ParseTableName ParseValuesBucket ParseThis].
    assert (ParseTableName (JString table) (Init new_store_context) (native r) = Ok (with_own (Init new_store_context) (set_tableName new_store_context table), native r)) as ->
      by (unfold ParseTableName, parse_with; by rewrite convert_string).
    cbn -[ParseValuesBucket ParseThis]. rewrite Ec. cbn -[ParseThis]. unfold ParseThis, GetNativeInstance. cbn [this]. rewrite unwrap_ok, Hp. reflexivity. }
  change (tableName c = table) in Et. rewrite <- Et in Hr.
  destruct (JSNumber2NativeType_ok s type_in usable reading p (mkStoreProxy (rdbStore_ x) (ref_ x + 1) (observers_ x)) c m k1 Hr) as (c' & w & En & Hw & Et' & Hb);
    [apply lookup_insert_eq|done|done|done|].
  destruct (Hi w (valuesBucket c') Hw) as (code & row & w' & Eins & Hrow). destruct (create_int64_ok row Hrow) as (d & Ed & Hd).
  assert (Ex : exists r', awaited (Insert pool_thread out_of_range (mkCall (JInstance p) [JString table; JObject m])) r =
    Goes (promise_of (report_of code OK (Some (JNumber d))), r') /\ world (native r') = w').
  { destruct x as [o n l]. simpl in Hx. subst o.
    edestruct (awaited_ok new_store_context [ParseTableName; ParseValuesBucket] ParseThis
      (fun ctx k => then_ (JSNumber2NativeType pool_thread out_of_range (boundObj ctx) (own ctx) k) (fun c k => ask pool_thread ctx (CInsert (tableName c) (valuesBucket c)) (counted c) k))
      number_complete delete_context (mkCall (JInstance p) [JString table; JObject m]) r) as (r' & E & En'); [exact Hparse|done|done| | |].
    - simpl. rewrite En. simpl. unfold ask, on_rdbStore. simpl. rewrite lookup_insert_eq, Et', Et, Eins. reflexivity.
    - unfold number_complete, checked. simpl. rewrite Ed. reflexivity.
    - exists r'. split; [exact E|]. rewrite En'. unfold delete_context, Release. cbn [boundObj with_own with_bound]. by repeat case_match. }
  destruct Ex as (r' & Ea & Ew). exists (valuesBucket c'), w, code, row. eexists _, r'. rewrite Ew. split; [exact Eins|]. split; [exact Hb|]. split; [exact Ea|].
  unfold report_of. change OK with E_OK. destruct (Z.eqb_spec code E_OK) as [->|Hne]; (split; [|done]); intros Hc'; [by exists d|congruence].
Qed.
End Columns.

(** ** A store that records its calls

    Every table has one row of integers; every call succeeds. *)
Section Demo.
Import RdbStoreProxy.

Definition recorded_calls : Type := list {A & store_call (H := recorded) A}.
Definition demo_answer {A} (c : store_call (H := recorded) A) : A :=
  match c in store_call B return B with
  | CInsert _ _ | CReplace _ _ | CUpdate _ _ | CDelete _ | CCount _ => (E_OK, 1)
  | CQuery _ _ | CQuerySql _ _ | CQueryByStep _ _ => Some 70
  | CExecuteSql _ _ | CBackup _ _ | CAttach _ _ _ | CChangeDbFileForRestore _ _ _ | CChangeEncryptKey _ => E_OK
  | CBeginTransaction | CRollBack | CCommit | CMarkAsCommit | CEndTransaction | CSetVersion _ => E_OK
  | CIsInTransaction | CIsHoldingConnection | CIsReadOnly | CIsMemoryRdb => false
  | CIsOpen => true
  | CGetPath => "/data/a.db"
  | CGetVersion => (E_OK, 5)
  | CSetDistributedTables _ => true
  | CObtainDistributedTableName _ table => table
  | CSync _ x => (true, x, Some [("device", 0)])
  | CSubscribe _ _ | CUnSubscribe _ _ => true
  end.
Definition demo_set_answer {A} (c : set_call A) : A :=
  match c in set_call B return B with
  | RGoToFirstRow | RClose => E_OK
  | RGetColumnIndex _ => Some 0
  | RGetColumnType _ => Some TYPE_INTEGER
  end.
Instance demo_native : @NativeStores recorded recorded_calls := {|
  on_store A tid s c w := Goes (demo_answer c, w ++ [existT A c]);
  on_set A tid s c w := Goes (demo_set_answer c, w);
  SUBSCRIBE_MODE_MAX := 2;
|}.

Abbreviation demo_state := (Runtime (@Kit recorded recorded_calls) RdbStoreContext).

Definition demo_store_kit : @Kit recorded recorded_calls :=
  mkKit {[1 := mkStoreProxy (Some 10) 0 []]} ∅ ∅ 0 [].
Abbreviation demo_runtime r := (mkRuntime (T := RdbStoreContext) r [] [] []).
Abbreviation demo_functions := (@functions node recorded _ demo_native 2 (fun _ => 0) 90).
Definition run_call (name : string) (args : list js) (r : demo_state)
  : progress (promise * demo_state) :=
  match sm_find name demo_functions with Some f => awaited (f (mkCall (JInstance 1) args)) r | None => Dies end.
Definition run_sync (l : list (string * @sync_method recorded recorded_calls)) (name : string) (args : list js)
    (k : @Kit recorded recorded_calls) : progress (reply * @Kit recorded recorded_calls) :=
  match sm_find name l with Some f => f (mkCall (JInstance 1) args) k | None => Dies end.
Abbreviation demo_getters := (@getters node recorded _ demo_native 1).
Abbreviation demo_sync := (@sync_functions node recorded _ demo_native 1).
Definition references (k : @Kit recorded recorded_calls) : option Z := ref_ <$> proxies k !! 1.

Definition started (name : string) (args : list js) (r : demo_state)
  : demo_state :=
  match f ← sm_find name demo_functions; Some (f (mkCall (JInstance 1) args) r) with Some (Ok (_, r')) => r' | _ => r end.
Definition executed (i : nat) (r : demo_state)
  : demo_state :=
  match execute i r with Some (Goes r') => r' | _ => r end.

(** Two works were started, and the second has run. *)
Definition one_ran : demo_state :=
  executed 1 (started "insert" [JString "t"; JObject [("a", JNumber (double_of 3))]]
    (started "executeSql" [JString "CREATE TABLE t (a)"] (demo_runtime demo_store_kit))).

Abbreviation demo_step := (store_step (H := node) (NativeStores0 := demo_native) 1 2 (fun _ => 0)).
Lemma started_step name args r l : started name args r = r \/ demo_step (r, l) (started name args r, l).
Proof.
  unfold started. destruct (sm_find name demo_functions) as [f|] eqn:Ef; [|by left]. simpl.
  destruct (f (mkCall (JInstance 1) args) r) as [[h r']| | |] eqn:E; try (by left). right. eapply call_step; [|exact E].
  by apply sm_find_elem.
Qed.
Lemma executed_step i r l : executed i r = r \/ demo_step (r, l) (executed i r, l).
Proof. unfold executed. destruct (execute i r) as [[r'| |]|] eqn:E; try (by left). right. by eapply execute_step. Qed.
Lemma step_rtc {A B} (R : A * B -> A * B -> Prop) x y l z : (y = x \/ R (x, l) (y, l)) -> rtc R (y, l) z -> rtc R (x, l) z.
Proof. intros [->|Hr] Hz; [done|by eapply rtc_l]. Qed.

(** Then the script reads whether the store is open. *)
Definition then_read : demo_state :=
  with_native one_ran (match run_sync demo_getters "isOpen" [] (native one_ran) with Goes (_, k) => k | _ => native one_ran end).

Lemma works_pin_store_witness :
  exists x, proxies (native then_read) !! 1 = Some x /\ ref_ x = Z.of_nat (pinned 1 (works then_read) + occurrences 1 [1]).
Proof.
  assert (is_Some (proxies (native then_read) !! 1)) as [x Hx] by (vm_compute; by eexists).
  exists x. split; [exact Hx|]. revert Hx.
  apply (@works_pin_store node recorded recorded_calls demo_native 1 2 (fun _ => 0) (demo_runtime demo_store_kit)).
  - done.
  - intros p y. simpl. intros [<- <-]%lookup_singleton_Some. done.
  - transitivity (one_ran, @nil Z).
    + eapply step_rtc; [apply started_step|]. eapply step_rtc; [apply started_step|]. eapply step_rtc; [apply executed_step|]. apply rtc_refl.
    + apply rtc_once. refine (@property_step node recorded recorded_calls demo_native 1 2 (fun _ => 0) "isOpen" (@IsOpen node recorded recorded_calls demo_native 1) (mkCall (JInstance 1) []) (Replies (Some (JBoolean true))) _ one_ran [] _ _); [|vm_compute; reflexivity].
      apply elem_of_app. left. by do 2 right; left.
Defined.

(** One work of two is unfinished after the second completes. *)
Example one_ran_pins :
  references (native one_ran) = Some 2 /\
  match complete 1 one_ran with Some (Goes r) => references (native r) = Some 1 | _ => False end.
Proof. vm_compute. split; reflexivity. Qed.

Definition integer_column (name : string) : option ColumnType := Some TYPE_INTEGER.
Lemma demo_reads_table table :
  @reads_table recorded recorded_calls demo_native 2 10 table integer_column (fun _ => True) (fun _ _ => True).
Proof.
  split; intros; simpl; [by eexists _, _|by eexists _, _| |by eexists _, _].
  eexists _, _. split; [done|]. split; [done|]. by eexists.
Qed.

Definition demo_row : list (string * js) := [("name", JString "x"); ("a", JNumber (double_of 3)); ("none", JNull)].
Lemma insert_typed_columns_witness :
  exists b w code row v r',
    on_store 2 10 (CInsert "t" b) w = Goes ((code, row), world (native r')) /\
    (forall name, sm_find name (ValuesBucket.valuesMap b) = column_value (fun _ => 0) integer_column name <$> sm_find name demo_row) /\
    awaited (@Insert node recorded recorded_calls demo_native 2 (fun _ => 0) (mkCall (JInstance 1) [JString "t"; JObject demo_row])) (demo_runtime demo_store_kit) = Goes (v, r') /\
    (code = E_OK -> exists d, v = Resolved (JNumber d) /\ napi_get_value_int64 (Napi := node) (JNumber d) = Some row) /\
    (code <> E_OK -> v = Rejected "async call failed").
Proof.
  apply (@insert_typed_columns node node_laws recorded recorded_calls demo_native 2 (fun _ => 0) 10 "t" integer_column (fun _ => True) (fun _ _ => True) 1
    (mkStoreProxy (Some 10) 0 []) demo_row (demo_runtime demo_store_kit)).
  - apply demo_reads_table.
  - intros w b _. by eexists _, _, _.
  - constructor; [apply (bool_decide_unpack _); by vm_compute|done].
  - split; [apply (bool_decide_unpack _); by vm_compute|]. split; [done|].
    repeat (apply Forall_cons; split); try apply Forall_nil_2; (split; [constructor; [apply (bool_decide_unpack _); by vm_compute|done]|]);
      constructor. apply (bool_decide_unpack _). by vm_compute.
  - done.
  - done.
  - done.
Defined.

(** *** What the script sees *)

(** Three and a half becomes three in a column whose first row holds an integer. *)
Definition three_and_half : Z := 4615063718147915776.
Example numbers_truncated :
  match run_call "insert" [JString "t"; JObject [("a", JNumber three_and_half)]] (demo_runtime demo_store_kit) with
  | Goes (v, r) =>
      v = Resolved (JNumber (double_of 1)) /\
      world (native r) = [existT _ (CQueryByStep "SELECT * FROM t LIMIT 1" []);
                          existT _ (CInsert "t" (ValuesBucket.PutLong ValuesBucket_empty "a" 3))]
  | _ => False
  end.
Proof. vm_compute. split; reflexivity. Qed.

(** A store that attaches a database, or ends a transaction, reports that it failed. *)
Example success_reported_as_failure :
  match run_call "addAttach" [JString "b"; JString "/data/b.db"] (demo_runtime demo_store_kit), run_call "endTransaction" [] (demo_runtime demo_store_kit) with
  | Goes (v, _), Goes (v', _) => v = Rejected "async call failed" /\ v' = Rejected "async call failed"
  | _, _ => False
  end.
Proof. vm_compute. split; reflexivity. Qed.

(** The result set of a stepped query does not reach the script. *)
Example stepped_query_lost :
  match run_call "queryByStep" [JString "SELECT * FROM t"] (demo_runtime demo_store_kit) with
  | Goes (v, r) => v = Resolved JUndefined /\ sets (native r) = ∅
  | _ => False
  end.
Proof. vm_compute. split; reflexivity. Qed.

(** The version of a store at version five reads as zero, and reading it leaves a
    reference to the object behind. *)
Example version_is_code :
  match run_sync demo_getters "version" [] demo_store_kit with
  | Goes (v, k) => v = Replies (Some (JNumber (double_of 0))) /\ references k = Some 1
  | _ => False
  end.
Proof. vm_compute. split; reflexivity. Qed.

(** A function subscribes once to a mode. *)
Example subscribed_once :
  let on k := match run_sync demo_sync "on" [JString "dataChange"; JNumber (double_of 1); JFunction 5] k with Goes (_, k) => k | _ => k end in
  let k := on (on demo_store_kit) in
  length (world k) = 1%nat /\ observers_ <$> proxies k !! 1 = Some [(1, (0, JFunction 5))] /\ references k = Some 0 /\
  match run_sync demo_sync "off" [JString "dataChange"; JNumber (double_of 1); JFunction 5] k with
  | Goes (_, k) => observers_ <$> proxies k !! 1 = Some [] | _ => False
  end.
Proof. vm_compute. split_and!; reflexivity. Qed.
End Demo.
