(* ===== verification/JsResultSet.v ===== *)
(** * Result sets of the bindings

    Models of frameworks/js/napi/rdb/src/napi_result_set.cpp and
    data_share/common/src/datashare_result_set_proxy.cpp: the cursors a script reads rows
    with. A proxy holds the address of a native result set; every method finds it, calls
    it on the thread of the script, and converts what it wrote. Errors are not thrown: the
    script gets what the out parameter had before the call. *)
From S2P Require Import Prelude Strings StdMap Memory RdbErrno SharedBlock SharedBlockFill SharedBlockRepr SharedBlockProps SharedBlockFillSpec ResultSet SharedResultSet SharedResultSetSpec DataShareAbsResultSet DataShareResultSet Napi.
From Stdlib Require Import Ascii.

#[local] Open Scope list_scope.

(** ** Proxies *)
Record SetProxy := mkSetProxy {
  resultSet_ : option Z;
  sharedBlockName_ : string;
  sharedBlockAshmemFd_ : Z;
}.
Record SetHeap (S : Type) := mkSetHeap {
  set_proxies : gmap Z SetProxy;
  native_sets : gmap Z S;
}.
#[global] Arguments mkSetHeap {S}.
#[global] Arguments set_proxies {S}.
#[global] Arguments native_sets {S}.

Section Proxies.
Context `{Napi} {S : Type}.
Implicit Types (h : SetHeap S) (s : S).

Definition set_method : Type := call -> SetHeap S -> outcome (reply * SetHeap S).

Definition with_native h (a : Z) s : SetHeap S := mkSetHeap (set_proxies h) (<[a := s]> (native_sets h)).
Definition with_set_proxy h (p : Z) (x : SetProxy) : SetHeap S := mkSetHeap (<[p := x]> (set_proxies h)) (native_sets h).

(** A proxy of nothing, as [Initialize] wraps it. *)
Definition new_set_proxy : SetProxy := mkSetProxy None "" (-1).

(** The set behind the object of the call; null pointers are dereferenced. *)
Definition inner_set (c : call) h : outcome (Z * S) :=
  match napi_unwrap (this c) with
  | None => Undefined
  | Some p =>
      match x ← set_proxies h !! p; a ← resultSet_ x; s ← native_sets h !! a; Some (a, s) with
      | Some r => Ok r
      | None => Undefined
      end
  end.

(** A call of the native set: [v] is what it writes, or else the variable keeps
    [initial]; reading a variable that has no value yet is undefined. *)
Definition written {A} (initial : option A) (v : outcome A) : outcome A :=
  match v with
  | Err _ => match initial with Some a => Ok a | None => Undefined end
  | v => v
  end.
Definition read {A} (m : S -> outcome A * S) (initial : option A) (f : A -> option js) : set_method := fun c h =>
  r <-- inner_set c h;
  let '(v, s) := m r.2 in
  a <-- written initial v;
  Ok (Replies (f a), with_native h r.1 s).
(** The error code becomes a truth value, or is dropped. *)
Definition move (m : S -> outcome (Z * S)) (f : Z -> option js) : set_method := fun c h =>
  r <-- inner_set c h;
  e <-- m r.2;
  Ok (Replies (f e.1), with_native h r.1 e.2).
Definition is_ok (errCode : Z) : option js := JSUtils.Convert2JSValue_bool (errCode =? E_OK).
Definition no_result (errCode : Z) : option js := Some JUndefined.

(** The first argument as an integer; [NAPI_CALL] throws when it is no number. *)
Definition with_argument (m : js -> set_method) : set_method := fun c h =>
  if negb (argc c >? 0) then Ok (Raises "Invalid argvs!", h) else m (arg c 0) c h.
Definition with_index (m : Z -> set_method) : set_method :=
  with_argument (fun v c h => match napi_get_value_int32 v with Some i => m i c h | None => Ok (Raises "A number was expected", h) end).
Definition own_property (f : SetProxy -> option js) : set_method := fun c h =>
  match napi_unwrap (this c) with
  | None => Ok (Raises "Invalid argument", h)
  | Some p => match set_proxies h !! p with Some x => Ok (Replies (f x), h) | None => Undefined end
  end.

(** The destructor of a proxy closes a set that is open. *)
Definition finalize_set (isClosed : S -> bool) (close : S -> S) (p : Z) h : SetHeap S :=
  let h' := mkSetHeap (delete p (set_proxies h)) (native_sets h) in
  match x ← set_proxies h !! p; a ← resultSet_ x; s ← native_sets h !! a; Some (a, s) with
  | Some (a, s) => if negb (isClosed s) then with_native h' a (close s) else h'
  | None => h'
  end.
End Proxies.
#[global] Arguments set_method : clear implicits.

Definition column_code (t : ColumnType) : Z :=
  match t with
  | TYPE_NULL => 0 | TYPE_INTEGER => 1 | TYPE_FLOAT => 2 | TYPE_STRING => 3 | TYPE_BLOB => 4 | TYPE_OTHER code => code
  end.
Definition text_of (l : list byte) : string := String.string_of_list_ascii l.

(** ** napi_result_set.cpp *)
Module ResultSetProxy.
Section Methods.
Context `{Napi} `{SecureC} `{CLib} (store : Store).
(** The descriptor of the shared memory of a block. *)
Context (GetFd : SharedBlock -> Z).
Abbreviation S := SqliteSharedResultSet.
Abbreviation method := (set_method S).
#[local] Instance ops : ResultSetOps S := shared_ops store.
Implicit Types s : S.

Definition Initialize (p : Z) (h : SetHeap S) : SetHeap S := with_set_proxy h p new_set_proxy.
Definition NewInstance (p a : Z) (h : SetHeap S) : option js * SetHeap S :=
  let h := Initialize p h in
  let x := match native_sets h !! a ≫= SharedResultSet.GetBlock with
           | Some b => mkSetProxy (Some a) (mName b) (GetFd b)
           | None => mkSetProxy (Some a) "" (-1)
           end in
  (Some (JInstance p), with_set_proxy h p x).
Definition GetNativeObject (arg : js) (h : SetHeap S) : option Z :=
  p ← napi_unwrap arg; x ← set_proxies h !! p; resultSet_ x.
Definition GetInnerResultSet : call -> SetHeap S -> outcome (Z * S) := inner_set.
Definition finalize : Z -> SetHeap S -> SetHeap S := finalize_set isClosed (fun s => snd (SharedResultSet.Close s)).

(** *** Properties *)
Definition GetAllColumnNames : method :=
  read (fun s => let '(_, colNames, s) := SharedResultSet.GetAllColumnNames store s in (Ok colNames, s)) (Some []) JSUtils.Convert2JSValue_strings.
Definition GetColumnCount : method := read ResultSet.GetColumnCount (Some 0) JSUtils.Convert2JSValue_int32.
Definition IsEnded : method := read ResultSet.IsEnded (Some false) JSUtils.Convert2JSValue_bool.
Definition IsBegin : method := read (fun s => (Ok (ResultSet.IsStarted s), s)) (Some false) JSUtils.Convert2JSValue_bool.
Definition IsClosed : method := read (fun s => (Ok (isClosed s), s)) None napi_get_boolean.
Definition GetRowCount : method :=
  read (fun s => let '(_, count, s) := SharedResultSet.GetRowCount store s in (Ok count, s)) None JSUtils.Convert2JSValue_int32.
Definition GetRowIndex : method := read (fun s => (Ok (ResultSet.GetRowIndex s), s)) None JSUtils.Convert2JSValue_int32.
Definition IsAtFirstRow : method := read (fun s => (Ok (ResultSet.IsAtFirstRow s), s)) (Some false) JSUtils.Convert2JSValue_bool.
Definition IsAtLastRow : method := read ResultSet.IsAtLastRow (Some false) JSUtils.Convert2JSValue_bool.
Definition GetSharedBlockName : method := own_property (fun x => JSUtils.Convert2JSValue_string (sharedBlockName_ x)).
Definition GetSharedBlockAshmemFd : method := own_property (fun x => JSUtils.Convert2JSValue_int32 (sharedBlockAshmemFd_ x)).

(** *** Moves *)
Definition GoToRow : method := with_index (fun position => move (fun s => Ok (SharedResultSet.GoToRow store s position)) no_result).
Definition GoTo : method := with_index (fun offset => move (fun s => Ok (ResultSet.GoTo s offset)) no_result).
Definition GoToFirstRow : method := move (fun s => Ok (ResultSet.GoToFirstRow s)) is_ok.
Definition GoToLastRow : method := move (fun s => Ok (ResultSet.GoToLastRow s)) is_ok.
Definition GoToNextRow : method := move (fun s => Ok (ResultSet.GoToNextRow s)) is_ok.
Definition GoToPreviousRow : method := move (fun s => Ok (ResultSet.GoToPreviousRow s)) is_ok.
Definition Close : method := move (fun s => Ok (SharedResultSet.Close s)) is_ok.

(** *** Columns

    Integers and types have no initial value. *)
Definition GetLong : method := with_index (fun i => read (fun s => SharedResultSet.GetLong store s i) None JSUtils.Convert2JSValue_int64).
Definition GetInt : method := with_index (fun i => read (fun s => SharedResultSet.GetInt store s i) None JSUtils.Convert2JSValue_int32).
Definition GetColumnType : method :=
  with_index (fun i => read (fun s => (SharedResultSet.GetColumnType s i, s)) None (fun t => JSUtils.Convert2JSValue_int32 (column_code t))).
Definition GetColumnIndex : method := with_argument (fun v =>
  read (fun s => let '(_, index, s) := ResultSet.GetColumnIndex s (JSUtils.Convert2String v true) in (Ok (default (-1) index), s))
    (Some (-1)) JSUtils.Convert2JSValue_int32).
Definition GetColumnName : method := with_index (fun i => read (fun s => ResultSet.GetColumnName s i) (Some "") JSUtils.Convert2JSValue_string).
Definition GetBlob : method := with_index (fun i => read (fun s => SharedResultSet.GetBlob store s i) (Some []) JSUtils.Convert2JSValue_blob).
Definition GetString : method :=
  with_index (fun i => read (fun s => SharedResultSet.GetString store s i) (Some []) (fun l => JSUtils.Convert2JSValue_string (text_of l))).
Definition GetDouble : method := with_index (fun i => read (fun s => SharedResultSet.GetDouble store s i) (Some 0) JSUtils.Convert2JSValue_double).
Definition IsColumnNull : method := with_index (fun i => read (fun s => SharedResultSet.IsColumnNull store s i) (Some false) napi_get_boolean).

Definition GetConstructor : list (string * method) :=
  [("goToRow", GoToRow); ("getLong", GetLong); ("getColumnType", GetColumnType); ("goTo", GoTo); ("getColumnIndex", GetColumnIndex);
   ("getInt", GetInt); ("getColumnName", GetColumnName); ("close", Close); ("goToFirstRow", GoToFirstRow); ("goToLastRow", GoToLastRow);
   ("goToNextRow", GoToNextRow); ("goToPreviousRow", GoToPreviousRow); ("getBlob", GetBlob); ("getString", GetString);
   ("getDouble", GetDouble); ("isColumnNull", IsColumnNull);
   ("columnNames", GetAllColumnNames); ("columnCount", GetColumnCount); ("isEnded", IsEnded); ("isStarted", IsBegin);
   ("isClosed", IsClosed); ("rowCount", GetRowCount); ("rowIndex", GetRowIndex); ("isAtFirstRow", IsAtFirstRow);
   ("isAtLastRow", IsAtLastRow); ("sharedBlockName", GetSharedBlockName); ("sharedBlockAshmemFd", GetSharedBlockAshmemFd)].
End Methods.
End ResultSetProxy.

(** ** datashare_result_set_proxy.cpp *)
Module DataShareResultSetProxy.
Section Methods.
Context `{Napi} `{SecureC} `{CLib} {B : Type} `{ResultSetBridge B}.
Abbreviation S := (DataShareResultSet B).
Abbreviation method := (set_method S).
Implicit Types s : S.

Definition Initialize (p : Z) (h : SetHeap S) : SetHeap S := with_set_proxy h p new_set_proxy.
Definition NewInstance (p a : Z) (h : SetHeap S) : option js * SetHeap S :=
  (Some (JInstance p), with_set_proxy (Initialize p h) p (mkSetProxy (Some a) "" (-1))).
Definition GetNativeObject (arg : js) (h : SetHeap S) : option Z :=
  p ← napi_unwrap arg; x ← set_proxies h !! p; resultSet_ x.
Definition GetInnerResultSet : call -> SetHeap S -> outcome (Z * S) := inner_set.
Definition finalize : Z -> SetHeap S -> SetHeap S := finalize_set isClosed_ (fun s => snd (share_Close s)).

Definition GoToFirstRow : method := move DataShareAbsResultSet.GoToFirstRow is_ok.
Definition GoToLastRow : method := move DataShareAbsResultSet.GoToLastRow is_ok.
Definition GoToNextRow : method := move DataShareAbsResultSet.GoToNextRow is_ok.
Definition GoToPreviousRow : method := move DataShareAbsResultSet.GoToPreviousRow is_ok.
Definition GoTo : method := with_index (fun offset => move (fun s => DataShareAbsResultSet.GoTo s offset) no_result).
Definition GoToRow : method := with_index (fun position => move (fun s => DataShareResultSet.GoToRow s position) no_result).
Definition GetBlob : method := with_index (fun i => read (fun s => DataShareResultSet.GetBlob s i) (Some []) DataShareJSUtils.Convert2JSValue_blob).
Definition GetString : method :=
  with_index (fun i => read (fun s => DataShareResultSet.GetString s i) (Some []) (fun l => DataShareJSUtils.Convert2JSValue_string (text_of l))).
Definition GetLong : method := with_index (fun i => read (fun s => DataShareResultSet.GetLong s i) (Some (-1)) DataShareJSUtils.Convert2JSValue_int64).
Definition GetDouble : method := with_index (fun i => read (fun s => DataShareResultSet.GetDouble s i) (Some 0) DataShareJSUtils.Convert2JSValue_double).
Definition Close : method := move (fun s => Ok (share_Close s)) is_ok.
(** The name is cut to the buffer. *)
Definition GetColumnIndex : method := with_argument (fun v c h =>
  columnName <-- DataShareJSUtils.Convert2String v DataShareJSUtils.DEFAULT_BUF_SIZE;
  read (fun s => let '(index, s) := DataShareAbsResultSet.GetColumnIndex s columnName in
                 ((r <-- index; Ok (default (-1) r.2)), s)) (Some (-1)) DataShareJSUtils.Convert2JSValue_int32 c h).
Definition GetColumnName : method :=
  with_index (fun i => read (fun s => DataShareAbsResultSet.GetColumnName s i) (Some "") DataShareJSUtils.Convert2JSValue_string).
Definition GetDataType : method :=
  with_index (fun i => read (fun s => (DataShareResultSet.GetDataType s i, s)) (Some TYPE_NULL) (fun t => DataShareJSUtils.Convert2JSValue_int32 (column_code t))).
Definition GetAllColumnNames : method := read DataShareResultSet.GetAllColumnNames (Some []) DataShareJSUtils.Convert2JSValue_strings.
Definition GetColumnCount : method := read DataShareAbsResultSet.GetColumnCount (Some (-1)) DataShareJSUtils.Convert2JSValue_int32.
Definition GetRowCount : method := read DataShareResultSet.GetRowCount (Some (-1)) DataShareJSUtils.Convert2JSValue_int32.
Definition IsClosed : method := read (fun s => (Ok (isClosed_ s), s)) None napi_get_boolean.

Definition GetConstructor : list (string * method) :=
  [("goToFirstRow", GoToFirstRow); ("goToLastRow", GoToLastRow); ("goToNextRow", GoToNextRow); ("goToPreviousRow", GoToPreviousRow);
   ("goTo", GoTo); ("goToRow", GoToRow); ("getBlob", GetBlob); ("getString", GetString); ("getLong", GetLong); ("getDouble", GetDouble);
   ("close", Close); ("getColumnIndex", GetColumnIndex); ("getColumnName", GetColumnName); ("getDataType", GetDataType);
   ("columnNames", GetAllColumnNames); ("columnCount", GetColumnCount); ("rowCount", GetRowCount); ("isClosed", IsClosed)].
End Methods.
End DataShareResultSetProxy.

(** * Scripts that read a query

    What a script does with the result set of a query: it goes to the first row, asks for
    the type of each column and reads it with the method for that type, and goes on to
    the next row until there is none. *)
Section Script.
Context `{NapiLaws} `{SecureC} `{CLib} (store : Store).
Import ResultSetProxy.
Abbreviation heap := (SetHeap SqliteSharedResultSet).
Implicit Types (h : heap) (s : SqliteSharedResultSet).

Definition invoke (name : string) (p : Z) (args : list js) h : outcome (reply * heap) :=
  match sm_find name (GetConstructor store) with Some f => f (mkCall (JInstance p) args) h | None => Undefined end.
Definition value_of_reply (r : reply) : js := match r with Replies (Some v) => v | _ => JUndefined end.
Definition is_true (v : js) : bool := match v with JBoolean b => b | _ => false end.
Definition js_int (n : Z) : js := default JUndefined (napi_create_int32 n).

(** The method for a type of column. *)
Definition reader_of (type : option Z) : option string :=
  match type with
  | Some 1 => Some "getLong" | Some 2 => Some "getDouble" | Some 3 => Some "getString" | Some 4 => Some "getBlob" | _ => None
  end.
Definition read_column (p : Z) (i : nat) h : outcome (js * heap) :=
  t <-- invoke "getColumnType" p [js_int (Z.of_nat i)] h;
  match reader_of (napi_get_value_int32 (value_of_reply t.1)) with
  | None => Ok (JNull, t.2)
  | Some getter => r <-- invoke getter p [js_int (Z.of_nat i)] t.2; Ok (value_of_reply r.1, r.2)
  end.
Fixpoint read_columns (p : Z) (cs : list nat) h : outcome (list js * heap) :=
  match cs with
  | [] => Ok ([], h)
  | i :: cs => v <-- read_column p i h; vs <-- read_columns p cs v.2; Ok (v.1 :: vs.1, vs.2)
  end.
(** [do rows.push(...) while (rs.goToNextRow())] *)
Fixpoint read_on (fuel : nat) (p : Z) (columns : nat) h : outcome (list (list js) * heap) :=
  match fuel with
  | O => Undefined
  | S fuel =>
      row <-- read_columns p (seq 0 columns) h;
      next <-- invoke "goToNextRow" p [] row.2;
      if is_true (value_of_reply next.1)
      then rows <-- read_on fuel p columns next.2; Ok (row.1 :: rows.1, rows.2)
      else Ok ([row.1], next.2)
  end.
Definition read_all (fuel : nat) (p : Z) (columns : nat) h : outcome (list (list js) * heap) :=
  first <-- invoke "goToFirstRow" p [] h;
  if is_true (value_of_reply first.1) then read_on fuel p columns first.2 else Ok ([], first.2).

(** ** What it sees *)
Definition shown (v : value) (j : js) : Prop :=
  match v with
  | VNull => j = JNull
  | VLong z => exists d, j = JNumber d /\ napi_get_value_int64 j = Some z
  | VDouble bits => j = JNumber bits
  | VText bs => j = JString (text_of bs)
  | VBlob bs => j = JTypedArray napi_uint8_array bs
  end.
(** Values that JavaScript can hold. *)
Definition showable (v : value) : Prop :=
  match v with
  | VLong z => Z.abs z < 2 ^ 53
  | VText bs => zero ∉ bs
  | VBlob bs => Z.of_nat (length bs) <= SECUREC_MEM_MAX_LEN
  | _ => True
  end.

(** ** Calls *)
Definition holds h (p a : Z) s : Prop := exists x, set_proxies h !! p = Some x /\ resultSet_ x = Some a /\ native_sets h !! a = Some s.

Lemma inner_ok h p a s args : holds h p a s -> inner_set (mkCall (JInstance p) args) h = Ok (a, s).
Proof. intros (x & Hp & Ha & Hs). unfold inner_set. simpl. rewrite unwrap_ok, Hp. simpl. rewrite Ha. simpl. by rewrite Hs. Qed.
Lemma holds_with h p a s s' : holds h p a s -> holds (with_native h a s') p a s'.
Proof. intros (x & Hp & Ha & Hs). exists x. split; [done|]. split; [done|]. apply lookup_insert_eq. Qed.

Lemma read_ok {A} (m : SqliteSharedResultSet -> outcome A * SqliteSharedResultSet) initial f h p a s args v s' w :
  holds h p a s -> m s = (v, s') -> written initial v = Ok w ->
  read m initial f (mkCall (JInstance p) args) h = Ok (Replies (f w), with_native h a s').
Proof. intros Hh Hm Hw. unfold read. rewrite (inner_ok h p a s args Hh). simpl. rewrite Hm. simpl. by rewrite Hw. Qed.
Lemma move_ok m f h p a s args e s' :
  holds h p a s -> m s = Ok (e, s') -> move m f (mkCall (JInstance p) args) h = Ok (Replies (f e), with_native h a s').
Proof. intros Hh Hm. unfold move. rewrite (inner_ok h p a s args Hh). simpl. by rewrite Hm. Qed.
Lemma with_index_ok (m : Z -> set_method SqliteSharedResultSet) h p i :
  Z.of_nat i <= 2147483647 ->
  with_index m (mkCall (JInstance p) [js_int (Z.of_nat i)]) h = m (Z.of_nat i) (mkCall (JInstance p) [js_int (Z.of_nat i)]) h.
Proof.
  intros Hi. unfold with_index, with_argument, js_int.
  destruct (create_int32_ok (Z.of_nat i)) as (d & -> & Hd); [lia|]. unfold arg. simpl. by rewrite Hd.
Qed.

(** ** The set at a row *)
Context (names : list string) (rs : list (list value)) `{Hshows : !StoreShows store names rs}.
Abbreviation len := (Z.of_nat (length rs)).

Definition ready s (r : nat) : Prop :=
  set_inv store rs s /\ rs_rowPos s = Z.of_nat r /\ exists b, SharedResultSet.sharedBlock_ s = Some b /\ rowNum s = len /\ loaded rs b.

Lemma CheckState_ready s r i : ready s r -> ready (snd (SharedResultSet.CheckState store s i)) r.
Proof.
  intros Hs. pose proof Hs as (Hi & Hp & b & Hb & Hn & Hl). unfold SharedResultSet.CheckState. rewrite Hb. unfold ResultSet.GetColumnCount. simpl ResultSet.GetAllColumnNames.
  destruct (GetAllColumnNames_spec store names rs s b Hi Hb Hn Hl) as (s1 & -> & Hi1 & Hp1 & Hb1 & Hn1). cbn -[SharedResultSet.GetRowCount Z.geb Z.ltb].
  assert (Hs1 : ready s1 r) by (split; [done|]; split; [congruence|]; by exists b).
  case_match; [done|]. destruct (GetRowCount_spec store names rs s1 Hi1) as (s2 & b2 & -> & Hi2 & Hp2 & Hb2 & Hn2 & Hl2).
  assert (ready s2 r) by (split; [done|]; split; [congruence|]; by exists b2). by case_match.
Qed.

Lemma with_cell_ready {A} s r c v (f : SharedBlock -> Z -> outcome A) :
  ready s r -> (c < length names)%nat -> (vals ← rs !! r; vals !! c) = Some v ->
  exists b p s', SharedResultSet.with_cell store s (Z.of_nat c) f = (f b p, s') /\ ready s' r /\
    match v with
    | VNull => True
    | VLong z => cell_type b p = CELL_UNIT_TYPE_INTEGER /\ cell_long b p = z
    | VDouble z => cell_type b p = CELL_UNIT_TYPE_FLOAT /\ cell_double b p = z
    | VText bs => cell_type b p = CELL_UNIT_TYPE_STRING /\ GetCellUnitValue b p = (Z.of_nat (length bs) + 1, Some (bs ++ [zero]))
    | VBlob bs => cell_type b p = CELL_UNIT_TYPE_BLOB /\ GetCellUnitValue b p = (Z.of_nat (length bs), Some bs)
    end.
Proof.
  intros Hs Hc Hv. pose proof Hs as (Hi & Hp & b & Hb & Hn & Hl).
  destruct (with_cell_unit store names rs s b r c v f Hi Hb Hn Hl Hp Hc Hv) as (q & E & Hq).
  exists b, q, (snd (SharedResultSet.with_cell store s (Z.of_nat c) f)). split; [by rewrite <- E, <- surjective_pairing|]. split; [|by destruct v].
  unfold SharedResultSet.with_cell. pose proof (CheckState_ready s r (Z.of_nat c) Hs) as Hr.
  destruct (SharedResultSet.CheckState store s (Z.of_nat c)) as [code s']. simpl in Hr. repeat (case_match; try exact Hr).
Qed.

Definition type_of_value (v : value) : ColumnType :=
  match v with VNull => TYPE_NULL | VLong _ => TYPE_INTEGER | VDouble _ => TYPE_FLOAT | VText _ => TYPE_STRING | VBlob _ => TYPE_BLOB end.
Lemma column_type s r c v :
  ready s r -> (c < length names)%nat -> (vals ← rs !! r; vals !! c) = Some v ->
  SharedResultSet.GetColumnType s (Z.of_nat c) = Ok (type_of_value v).
Proof.
  intros (Hi & Hp & b & Hb & Hn & Hl) Hc Hv. apply bind_Some in Hv as (vals & Hvals & Hv). pose proof (lookup_lt_Some _ _ _ Hvals) as Hr.
  assert (Hcell : read_cell b (Z.of_nat r) (Z.of_nat c) = Some (cell_of v)).
  { destruct Hl as (_ & _ & Hl). rewrite Hl by done. rewrite Hvals. simpl. by rewrite Hv. }
  destruct (read_cell_unit _ _ _ _ Hcell) as (q & Hq & Hx). pose proof (@shows_len _ _ _ _ Hshows). destruct (@shows_cols _ _ _ _ Hshows). unfold COL_MAX_NUM in *.
  unfold SharedResultSet.GetColumnType. rewrite Hb, Hp, !u32_small by lia. rewrite Hq. unfold ColumnType_of.
  destruct v; simpl in Hx; [|destruct Hx as [Hx _]..]; by rewrite Hx.
Qed.

(** A method of the set that reads a column, at a row. *)
Lemma read_index {A} (m : SqliteSharedResultSet -> Z -> outcome A * SqliteSharedResultSet) initial f h p a s i v s' w :
  holds h p a s -> (i < length names)%nat -> m s (Z.of_nat i) = (v, s') -> written initial v = Ok w ->
  with_index (fun i => read (fun s => m s i) initial f) (mkCall (JInstance p) [js_int (Z.of_nat i)]) h = Ok (Replies (f w), with_native h a s').
Proof.
  intros Hh Hi Hm Hw. destruct (@shows_cols _ _ _ _ Hshows). unfold COL_MAX_NUM in *. rewrite with_index_ok by lia. by eapply read_ok.
Qed.

Lemma text_before_nul bs : zero ∉ bs -> c_str (bs ++ [zero]) = bs.
Proof.
  induction bs as [|x bs IH]; [done|]. intros [Hx Hbs]%not_elem_of_cons. simpl.
  rewrite (proj2 (Ascii.eqb_neq x _)) by (intros ->; by apply Hx). f_equal. by apply IH.
Qed.

Lemma getter_ok h p a s r c v :
  holds h p a s -> ready s r -> (c < length names)%nat -> (vals ← rs !! r; vals !! c) = Some v -> showable v -> v <> VNull ->
  exists getter j h' s', reader_of (Some (column_code (type_of_value v))) = Some getter /\
    invoke getter p [js_int (Z.of_nat c)] h = Ok (Replies (Some j), h') /\ holds h' p a s' /\ ready s' r /\ shown v j.
Proof.
  intros Hh Hs Hc Hv Hok Hne. assert (Hcell := fun A f => @with_cell_ready A s r c v f Hs Hc Hv).
  destruct v as [|z|bits|bs|bs]; [done| | | |]; simpl reader_of.
  - edestruct Hcell as (b & q & s' & E & Hr & Ht & Ev). destruct (create_int64_ok z Hok) as (d & Ed & Hd).
    exists "getLong", (JNumber d), (with_native h a s'), s'. split; [done|]. split; [|split; [by eapply holds_with|split; [done|by exists d]]].
    unfold invoke. simpl. unfold GetLong. erewrite (read_index (SharedResultSet.GetLong store)); [|exact Hh|done|exact E|].
    + unfold JSUtils.Convert2JSValue_int64. by rewrite Ed.
    + simpl. rewrite Ht, Ev. done.
  - edestruct Hcell as (b & q & s' & E & Hr & Ht & Ev).
    exists "getDouble", (JNumber bits), (with_native h a s'), s'. split; [done|]. split; [|split; [by eapply holds_with|done]].
    unfold invoke. simpl. unfold GetDouble. erewrite (read_index (SharedResultSet.GetDouble store)); [|exact Hh|done|exact E|].
    + unfold JSUtils.Convert2JSValue_double. by rewrite create_double_ok.
    + simpl. by rewrite Ht, Ev.
  - edestruct Hcell as (b & q & s' & E & Hr & Ht & Ev).
    exists "getString", (JString (text_of bs)), (with_native h a s'), s'. split; [done|]. split; [|split; [by eapply holds_with|done]].
    unfold invoke. simpl. unfold GetString. erewrite (read_index (SharedResultSet.GetString store)); [|exact Hh|done|exact E|].
    + unfold JSUtils.Convert2JSValue_string. by rewrite create_string_ok.
    + simpl. rewrite Ht, Ev. simpl. destruct bs as [|x bs]; [done|]. rewrite (proj2 (Z.leb_gt _ _)) by (simpl; lia). by rewrite text_before_nul.
  - edestruct Hcell as (b & q & s' & E & Hr & Ht & Ev).
    exists "getBlob", (JTypedArray napi_uint8_array bs), (with_native h a s'), s'. split; [done|]. split; [|split; [by eapply holds_with|done]].
    unfold invoke. simpl. unfold GetBlob. erewrite (read_index (SharedResultSet.GetBlob store)); [|exact Hh|done|exact E|].
    + by rewrite create_blob.
    + simpl. rewrite Ht, Ev. simpl. by destruct bs.
Qed.

Lemma read_column_ok h p a s r c v :
  holds h p a s -> ready s r -> (c < length names)%nat -> (vals ← rs !! r; vals !! c) = Some v -> showable v ->
  exists j h' s', read_column p c h = Ok (j, h') /\ holds h' p a s' /\ ready s' r /\ shown v j.
Proof.
  intros Hh Hs Hc Hv Hok. destruct (create_int32_ok (column_code (type_of_value v))) as (d & Ed & Hd); [destruct v; simpl; lia|].
  assert (Et : invoke "getColumnType" p [js_int (Z.of_nat c)] h = Ok (Replies (Some (JNumber d)), with_native h a s)).
  { unfold invoke. simpl. unfold GetColumnType.
    erewrite (read_index (fun s i => (SharedResultSet.GetColumnType s i, s))); [|exact Hh|done|reflexivity|by erewrite column_type].
    unfold JSUtils.Convert2JSValue_int32. by rewrite Ed. }
  unfold read_column. rewrite Et. simpl value_of_reply. cbn [fst snd]. simpl. rewrite Hd.
  pose proof (holds_with h p a s s Hh) as Hh'. assert (v = VNull \/ v <> VNull) as [->|Hne] by (destruct v; auto); [by eexists _, _, s|].
  destruct (getter_ok _ p a s r c v Hh' Hs Hc Hv Hok Hne) as (getter & j & h' & s' & -> & E & Hh2 & Hs2 & Hj). rewrite E. simpl. by eexists _, _, s'.
Qed.

(** *** Rows *)
Definition table_ok : Prop := Forall (fun row => length row = length names /\ Forall showable row) rs.

Lemma read_columns_ok vals r k : forall i h p a s,
  table_ok -> rs !! r = Some vals -> (i + k = length names)%nat -> holds h p a s -> ready s r ->
  exists l h' s', read_columns p (seq i k) h = Ok (l, h') /\ holds h' p a s' /\ ready s' r /\ Forall2 shown (drop i vals) l.
Proof.
  induction k as [|k IH]; intros i h p a s Ht Hr Hik Hh Hs; pose proof (Forall_lookup_1 _ _ _ _ Ht Hr) as [Hl Hok].
  - exists [], h, s. split; [done|]. split; [done|]. split; [done|]. rewrite drop_ge by lia. constructor.
  - destruct (lookup_lt_is_Some_2 vals i) as [v Hv]; [lia|].
    assert (Hvc : (vals ← rs !! r; vals !! i) = Some v) by (rewrite Hr; done).
    destruct (read_column_ok h p a s r i v Hh Hs ltac:(lia) Hvc (Forall_lookup_1 _ _ _ _ Hok Hv)) as (j & h1 & s1 & E1 & Hh1 & Hs1 & Hj).
    destruct (IH (S i) h1 p a s1 Ht Hr ltac:(lia) Hh1 Hs1) as (l & h2 & s2 & E2 & Hh2 & Hs2 & Hf).
    exists (j :: l), h2, s2. simpl. rewrite E1. simpl. rewrite E2. simpl. split; [done|]. split; [done|]. split; [done|].
    rewrite (drop_S vals v i Hv). by constructor.
Qed.

Lemma next_row h p a s r :
  holds h p a s -> ready s r -> (r < length rs)%nat ->
  exists h' s', holds h' p a s' /\
    invoke "goToNextRow" p [] h = Ok (Replies (Some (JBoolean (bool_decide (S r < length rs)%nat))), h') /\
    ((S r < length rs)%nat -> ready s' (S r)).
Proof.
  intros Hh Hs Hr. pose proof Hs as (Hi & Hp & _). pose proof (@shows_len _ _ _ _ Hshows).
  assert (Hm : exists s', ResultSet.GoToNextRow (H := shared_ops store) s = (if bool_decide (S r < length rs)%nat then RdbErrno.E_OK else RdbErrno.E_ERROR, s') /\
    ((S r < length rs)%nat -> ready s' (S r))).
  { case_bool_decide as Hlt.
    - destruct (GoToRow_inside store names rs s (S r) Hi Hlt) as (s' & b & E & Hi' & Hp' & Hb & Hn & Hl).
      exists s'. split; [|intros _; split; [done|]; split; [done|by exists b]]. unfold ResultSet.GoToNextRow. simpl. rewrite Hp, s32_small by lia.
      replace (Z.of_nat r + 1) with (Z.of_nat (S r)) by lia. exact E.
    - destruct (GoToNextRow_spec (H := shared_ops store) (inv := set_inv store rs) (count := len) s Hi) as (s' & Hi' & E & _).
      exists s'. split; [|done]. rewrite E. simpl. rewrite Hp. destruct (Z.ltb_spec (Z.of_nat r + 1) len); [lia|done]. }
  destruct Hm as (s' & E & Hready). exists (with_native h a s'), s'. split; [by eapply holds_with|]. split; [|done].
  unfold invoke. simpl. unfold GoToNextRow. erewrite move_ok; [|exact Hh|exact (f_equal Ok E)]. unfold is_ok, JSUtils.Convert2JSValue_bool. rewrite get_boolean_ok.
  by case_bool_decide.
Qed.

Lemma read_on_ok fuel : forall r h p a s,
  table_ok -> (r < length rs)%nat -> (length rs - r <= fuel)%nat -> holds h p a s -> ready s r ->
  exists rows h' s', read_on fuel p (length names) h = Ok (rows, h') /\ holds h' p a s' /\ Forall2 (Forall2 shown) (drop r rs) rows.
Proof.
  induction fuel as [|fuel IH]; intros r h p a s Ht Hr Hf Hh Hs; [lia|].
  destruct (lookup_lt_is_Some_2 rs r Hr) as [vals Hv]. rewrite (drop_S rs vals r Hv).
  destruct (read_columns_ok vals r (length names) 0 h p a s Ht Hv ltac:(lia) Hh Hs) as (l & h1 & s1 & E1 & Hh1 & Hs1 & Hl). rewrite drop_0 in Hl.
  destruct (next_row h1 p a s1 r Hh1 Hs1 Hr) as (h2 & s2 & Hh2 & E2 & Hs2). cbn [read_on]. rewrite E1. simpl. rewrite E2. simpl.
  case_bool_decide as Hlt.
  - destruct (IH (S r) h2 p a s2 Ht Hlt ltac:(lia) Hh2 (Hs2 Hlt)) as (rows & h3 & s3 & E3 & Hh3 & Hrows). rewrite E3. simpl.
    eexists _, h3, s3. split; [done|]. split; [done|]. by constructor.
  - eexists _, h2, s2. split; [done|]. split; [done|]. rewrite drop_ge by lia. by repeat constructor.
Qed.

(** C32: A script reads a query. Of a result that fits in the shared block, a script that
    goes through the rows with [goToFirstRow] and [goToNextRow], and reads every column
    with the method for its type, gets all rows in order and in each the values SQLite
    has there: integers that a double can hold, doubles to the bit, texts (the empty one
    too, which the native method reports as an error), bytes and nulls. The loop ends
    after as many rounds as there are rows. *)
Theorem script_reads_query h p a s :
  table_ok -> holds h p a s -> set_inv store rs s ->
  exists rows h', read_all (length rs) p (length names) h = Ok (rows, h') /\ Forall2 (Forall2 shown) rs rows.
Proof.
  intros Ht Hh Hi. unfold read_all. unfold invoke. simpl. unfold GoToFirstRow.
  destruct (decide (0 < length rs)%nat) as [Hlen|Hlen].
  - destruct (GoToRow_inside store names rs s 0 Hi Hlen) as (s1 & b & E & Hi1 & Hp1 & Hb & Hn & Hl).
    erewrite move_ok; [|exact Hh|exact (f_equal Ok E)].
    unfold is_ok, JSUtils.Convert2JSValue_bool. rewrite get_boolean_ok. simpl.
    destruct (read_on_ok (length rs) 0 (with_native h a s1) p a s1 Ht Hlen ltac:(lia)) as (rows & h' & s' & E' & _ & Hrows);
      [by eapply holds_with|split; [done|]; split; [done|by exists b]|]. by exists rows, h'.
  - assert (rs = []) as Hnil by (destruct rs; [done|simpl in Hlen; lia]).
    destruct (cursor_GoToRow (H := shared_ops store) (inv := set_inv store rs) (count := len) s 0 Hi) as (s1 & _ & E & _); [lia|].
    erewrite move_ok; [|exact Hh|exact (f_equal Ok E)].
    unfold is_ok, JSUtils.Convert2JSValue_bool. rewrite get_boolean_ok, Hnil. simpl. eexists _, _. by split.
Qed.
End Script.

(** ** The query of three rows *)
Definition demo_sets (s : SqliteSharedResultSet) : SetHeap SqliteSharedResultSet :=
  mkSetHeap {[1 := mkSetProxy (Some 10) "db" 3]} {[10 := s]}.
Abbreviation fresh_set := (new_SqliteSharedResultSet (Some block4k)).

Lemma demo_holds s : holds (demo_sets s) 1 10 s.
Proof. eexists. split; [reflexivity|]. by split. Qed.
Lemma demo_table_ok : @table_ok demo_names demo_result.
Proof. repeat (apply Forall_cons; split); try apply Forall_nil_2; (split; [done|]); repeat (apply Forall_cons; split); simpl; try lia; try apply Forall_nil_2; apply (bool_decide_unpack _); by vm_compute. Qed.

Lemma script_reads_query_witness :
  exists rows h', @read_all node _ clib_zero demo_store 3 1 2 (demo_sets fresh_set) = Ok (rows, h') /\
    Forall2 (Forall2 (@shown node)) demo_result rows.
Proof.
  apply (@script_reads_query node node_laws _ clib_zero demo_store demo_names demo_result demo_shows (demo_sets fresh_set) 1 10 fresh_set).
  - exact demo_table_ok.
  - apply demo_holds.
  - apply demo_set_inv.
Defined.

Example script_rows :
  match @read_all node _ clib_zero demo_store 3 1 2 (demo_sets fresh_set) with
  | Ok (rows, _) => rows = [[JNumber (double_of 1); JString "row"]; [JNumber (double_of 2); JString "row"]; [JNumber (double_of 3); JString "row"]]
  | _ => False
  end.
Proof. vm_compute. reflexivity. Qed.

(** A closed set: an integer is read from a variable that was never set, the type of a
    column through a null pointer; a text is empty. *)
Abbreviation closed_set := (snd (SharedResultSet.Close fresh_set)).
Example closed_set_reads :
  let at_column name := @invoke node _ clib_zero demo_store name 1 [JNumber (double_of 0)] (demo_sets closed_set) in
  at_column "getLong" = Undefined /\ at_column "getInt" = Undefined /\ at_column "getColumnType" = Undefined /\
  match at_column "getString" with Ok (v, _) => v = Replies (Some (JString "")) | _ => False end.
Proof. vm_compute. split_and!; reflexivity. Qed.
