(* ===== verification/JsDataShareHelper.v ===== *)
(** * The data share helper of the bindings

    Model of frameworks/js/napi/data_share/dataShare/src/napi_datashare_helper.cpp and
    napi_datashare_observer.cpp: a script creates a helper for a data share, calls it
    with a callback or for a promise, and observes changes. Every call is a work that a
    thread of the pool executes and the thread of the script completes. The native helper
    is the interface [NativeHelpers]; the conversions of the ability framework that the
    file calls, which are not part of the repository, are [AbilityNapi]. *)
From S2P Require Import Prelude Strings StdMap Memory SharedBlock DataShareValueObject DataShareValuesBucket DataSharePredicates Napi NapiAsync.
From Stdlib Require Import Ascii.

#[local] Open Scope list_scope.

Class AbilityNapi := {
  UnwrapStringFromJS : js -> string;
  UnwrapArrayStringFromJS : js -> list string;
  ConvertU8Vector : js -> list byte;
  IsArrayForNapiValue : js -> option Z;
  GetCallbackErrorValue : Z -> option js;
}.

(** ** The native helper *)
Inductive helper_call : Type -> Type :=
| HInsert (uri : string) (value : DataShareValuesBucket) : helper_call Z
| HBatchInsert (uri : string) (values : list DataShareValuesBucket) : helper_call Z
| HDelete (uri : string) (predicates : DataSharePredicates) : helper_call Z
| HUpdate (uri : string) (predicates : DataSharePredicates) (value : DataShareValuesBucket) : helper_call Z
| HQuery (uri : string) (predicates : DataSharePredicates) (columns : list string) : helper_call (option Z)
| HOpenFile (uri mode : string) : helper_call Z
| HGetType (uri : string) : helper_call string
| HGetFileTypes (uri mimeTypeFilter : string) : helper_call (list string)
| HNormalizeUri (uri : string) : helper_call string
| HDenormalizeUri (uri : string) : helper_call string
| HNotifyChange (uri : string) : helper_call unit
| HRegisterObserver (uri : string) (observer : Z) : helper_call unit
| HUnregisterObserver (uri : string) (observer : Z) : helper_call unit
| HRelease : helper_call bool.

(** [Creator] gives the address of a new helper, or a null pointer. *)
Class NativeHelpers (W : Type) := {
  on_helper : forall A, Z -> helper_call A -> W -> progress (A * W);
  Creator : option AppContext -> string -> W -> option Z * W;
}.
#[global] Arguments on_helper {W _ A} _ _ _.

(** ** State

    An observer refers to a function of the script, or not, or to one it has released. *)
Inductive reference := NoReference | Holds (f : js) | Deleted.
Record NAPIDataShareObserver := mkObserver {
  ref_ : reference;
  onCB_ : bool;
  workPre_ : Z;
  workRun_ : Z;
  intrust_ : Z;
}.
Record DSHelperOnOffCB := mkOnOff {
  on_helper_ : option Z;
  observer : Z;
  on_uri : string;
  on_callback : option js;
  on_result : Z;
}.
(** [registered] is [registerInstances_]; [changes] are the notifications queued for the
    thread of the script, by observer; [notified] the functions they called. *)
Record ShareKit (W : Type) := mkShareKit {
  helpers : gset Z;
  share_predicates : gmap Z DataSharePredicates;
  registered : list DSHelperOnOffCB;
  observers : gmap Z NAPIDataShareObserver;
  next_observer : Z;
  changes : list Z;
  notified : list js;
  share_sets : gmap Z Z;
  share_world : W;
}.
#[global] Arguments mkShareKit {W}.
#[global] Arguments helpers {W}.
#[global] Arguments share_predicates {W}.
#[global] Arguments registered {W}.
#[global] Arguments observers {W}.
#[global] Arguments next_observer {W}.
#[global] Arguments changes {W}.
#[global] Arguments notified {W}.
#[global] Arguments share_sets {W}.
#[global] Arguments share_world {W}.

(** What a call returns to the script. *)
Inductive given :=
| GPromise (p : nat)
| GNull
| GUndefined
| GValue (v : js)
| GThrows (message : string).

(** How a work ends: it calls a function with an error and a value, resolves its promise,
    or does something else. *)
Section Jobs.
Context {W : Type}.
Abbreviation kit := (ShareKit W).
Inductive finish :=
| CallsBack (f : kit -> option js * option js * kit)
| Resolves (f : kit -> option js * kit)
| Ends (f : kit -> progress kit).
Inductive job_stage := Waiting | Ran (f : finish) | Over.
Record job := mkJob {
  job_deferred : option nat;
  job_callback : option js;
  job_run : kit -> progress (finish * kit);
  job_stage_ : job_stage;
}.
Record ShareRuntime := mkShareRuntime {
  kit_of : kit;
  jobs : list job;
  share_promises : list promise;
  share_called : list (js * (option js * option js));
}.
Definition at_job_stage (j : job) (st : job_stage) : job := mkJob (job_deferred j) (job_callback j) (job_run j) st.

(** The thread of the pool. *)
Definition run_job (i : nat) (r : ShareRuntime) : option (progress ShareRuntime) :=
  j ← jobs r !! i;
  match job_stage_ j with
  | Waiting =>
      Some (match job_run j (kit_of r) with
            | Goes (f, k) => Goes (mkShareRuntime k (<[i := at_job_stage j (Ran f)]> (jobs r)) (share_promises r) (share_called r))
            | Blocks => Blocks
            | Dies => Dies
            end)
  | _ => None
  end.
(** The thread of the script. Without a function to call the completion ends early; a
    promise is not resolved with a null pointer. *)
Definition finish_job (i : nat) (r : ShareRuntime) : option (progress ShareRuntime) :=
  j ← jobs r !! i;
  match job_stage_ j with
  | Ran f =>
      let over := <[i := at_job_stage j Over]> (jobs r) in
      Some (match f with
            | CallsBack f =>
                match job_callback j with
                | Some callback => let '(e, v, k) := f (kit_of r) in Goes (mkShareRuntime k over (share_promises r) (share_called r ++ [(callback, (e, v))]))
                | None => Goes (mkShareRuntime (kit_of r) over (share_promises r) (share_called r))
                end
            | Resolves f =>
                let '(v, k) := f (kit_of r) in
                Goes (mkShareRuntime k over
                  (match job_deferred j, v with Some p, Some v => <[p := Resolved v]> (share_promises r) | _, _ => share_promises r end) (share_called r))
            | Ends f => match f (kit_of r) with Goes k => Goes (mkShareRuntime k over (share_promises r) (share_called r)) | Blocks => Blocks | Dies => Dies end
            end)
  | _ => None
  end.
End Jobs.
#[global] Arguments finish : clear implicits.
#[global] Arguments job : clear implicits.
#[global] Arguments ShareRuntime : clear implicits.

Definition NO_ERROR : Z := 0.
Definition INVALID_PARAMETER : Z := -1.
Definition ARGS_THREE : Z := 3.

(** The record of a call: the helper, the arguments, and what executing it sets. *)
Record HelperCB (A : Type) := mkHelperCB {
  dataShareHelper : option Z;
  uri : string;
  request : helper_call A;
  execResult : Z;
  result : A;
}.
#[global] Arguments mkHelperCB {A}.
#[global] Arguments dataShareHelper {A}.
#[global] Arguments uri {A}.
#[global] Arguments request {A}.
#[global] Arguments execResult {A}.
#[global] Arguments result {A}.

Section Helper.
Context `{Napi} `{AbilityNapi} `{AbilityRuntime} {W : Type} `{!NativeHelpers W}.
(** What a member that was never set holds. *)
Context (leftover : Z).
Abbreviation kit := (ShareKit W).
Abbreviation runtime := (ShareRuntime W).
Abbreviation method := (call -> runtime -> given * runtime).

Definition with_share_world (k : kit) (w : W) : kit :=
  mkShareKit (helpers k) (share_predicates k) (registered k) (observers k) (next_observer k) (changes k) (notified k) (share_sets k) w.
Definition with_registered (k : kit) (l : list DSHelperOnOffCB) : kit :=
  mkShareKit (helpers k) (share_predicates k) l (observers k) (next_observer k) (changes k) (notified k) (share_sets k) (share_world k).
Definition with_observer (k : kit) (o : Z) (x : NAPIDataShareObserver) : kit :=
  mkShareKit (helpers k) (share_predicates k) (registered k) (<[o := x]> (observers k)) (next_observer k) (changes k) (notified k) (share_sets k) (share_world k).
Definition with_helpers (k : kit) (s : gset Z) : kit :=
  mkShareKit s (share_predicates k) (registered k) (observers k) (next_observer k) (changes k) (notified k) (share_sets k) (share_world k).
Definition with_changes (k : kit) (l : list Z) (n : list js) : kit :=
  mkShareKit (helpers k) (share_predicates k) (registered k) (observers k) (next_observer k) l n (share_sets k) (share_world k).
Definition with_share_set (k : kit) (p a : Z) : kit :=
  mkShareKit (helpers k) (share_predicates k) (registered k) (observers k) (next_observer k) (changes k) (notified k) (<[p := a]> (share_sets k)) (share_world k).

(** A helper that was destroyed is used all the same. *)
Definition call_helper {A} (h : Z) (c : helper_call A) (k : kit) : progress (A * kit) :=
  if bool_decide (h ∈ helpers k)
  then match on_helper h c (share_world k) with Goes (a, w) => Goes (a, with_share_world k w) | Blocks => Blocks | Dies => Dies end
  else Dies.

(** ** Creation *)

(** The helper's address is what the object wraps. *)
Definition DataShareHelperConstructor (c : call) (k : kit) : (string + Z) * kit :=
  if negb (argc c >? 0) then (inl "Wrong number of arguments", k)
  else
    let created context strUri :=
      let '(h, w) := Creator context strUri (share_world k) in
      let k := with_share_world k w in
      match h with
      | None => (inl "DataShareHelperConstructor: dataShareHelper is nullptr", k)
      | Some h => (inr h, with_helpers k ({[h]} ∪ helpers k))
      end in
    if negb (default false (IsStageContext (arg c 0))) then
      match GetCurrentAbility with
      | None => (inl "DataShareHelperConstructor: failed to get native ability", k)
      | Some ability => created (fst <$> ability) (UnwrapStringFromJS (arg c 0))
      end
    else
      match GetStageModeContext (arg c 0) with
      | None => (inl "DataShareHelperConstructor: failed to get native context", k)
      | context => created context (UnwrapStringFromJS (arg c 1))
      end.
(** The constructor is always given three arguments. *)
Definition AcquireDataShareHelperWrap (c : call) (k : kit) : option given * kit :=
  if argc c >? ARGS_THREE then (None, k)
  else
    match DataShareHelperConstructor (mkCall (this c) [arg c 0; arg c 1; arg c 2]) k with
    | (inl message, k) => (Some (GThrows message), k)
    | (inr h, k) => (Some (GValue (JInstance h)), k)
    end.
Definition NAPI_AcquireDataShareHelperCommon (c : call) (k : kit) : given * kit :=
  let '(ret, k) := AcquireDataShareHelperWrap c k in (default GUndefined ret, k).
Definition NAPI_CreateDataShareHelper : call -> kit -> given * kit := NAPI_AcquireDataShareHelperCommon.

(** ** Arguments *)
Definition NapiValueToStringUtf8 : js -> string := UnwrapStringFromJS.
Definition string_argument (v : js) : string := if bool_decide (napi_typeof v = napi_string) then NapiValueToStringUtf8 v else "".
Definition SetValuesBucketObject (b : DataShareValuesBucket) (keyStr : string) (value : js) : DataShareValuesBucket :=
  match napi_typeof value with
  | napi_string => DataShareValuesBucket.PutString b keyStr (UnwrapStringFromJS value)
  | napi_number => DataShareValuesBucket.PutDouble b keyStr (default 0 (napi_get_value_double value))
  | napi_boolean => DataShareValuesBucket.PutBool b keyStr (default false (napi_get_value_bool value))
  | napi_null => DataShareValuesBucket.PutNull b keyStr
  | napi_object => DataShareValuesBucket.PutBlob b keyStr (ConvertU8Vector value)
  | _ => b
  end.
Definition AnalysisValuesBucket (arg : js) : DataShareValuesBucket :=
  foldl (fun b key => SetValuesBucketObject b (UnwrapStringFromJS key) (default JUndefined (napi_get_property arg key)))
    new_bucket (NapiValuesBucket.keys_of arg).
(** Elements are read until one cannot be had. *)
Fixpoint unwrap_elements (param : js) (i : Z) (n : nat) : list DataShareValuesBucket :=
  match n with
  | O => []
  | S n =>
      match napi_get_element param i with
      | Some jsValue => AnalysisValuesBucket jsValue :: unwrap_elements param (i + 1) n
      | None => []
      end
  end.
Definition UnwrapArrayObjectFromJS (param : js) : list DataShareValuesBucket :=
  match IsArrayForNapiValue param with Some arraySize => unwrap_elements param 0 (Z.to_nat arraySize) | None => [] end.
Definition NapiValueObject : js -> list DataShareValuesBucket := UnwrapArrayObjectFromJS.
(** The predicates are copied; without any they stay those of a new object. *)
Definition UnwrapDataSharePredicates (value : js) (k : kit) : DataSharePredicates :=
  default (new_DataSharePredicates (mode_of_code leftover)) (p ← napi_unwrap value; share_predicates k !! p).

(** ** Works *)
Definition execute (A : Type) : Type := HelperCB A -> kit -> progress (HelperCB A * kit).
Definition completion (A : Type) : Type := HelperCB A -> kit -> option js * option js * kit.
Definition resolution (A : Type) : Type := HelperCB A -> kit -> option js * kit.

Definition queue_job (j : job W) (g : given) (r : runtime) : given * runtime :=
  (g, mkShareRuntime (kit_of r) (jobs r ++ [j]) (share_promises r) (share_called r)).
Definition queue_async {A} (exec : execute A) (comp : completion A) (cb : HelperCB A) (callback : js) : runtime -> given * runtime :=
  queue_job (mkJob None (if bool_decide (napi_typeof callback = napi_function) then Some callback else None)
    (fun k => match exec cb k with Goes (cb, k) => Goes (CallsBack (comp cb), k) | Blocks => Blocks | Dies => Dies end) Waiting) GNull.
Definition queue_promise {A} (exec : execute A) (comp : resolution A) (cb : HelperCB A) (r : runtime) : given * runtime :=
  let p := length (share_promises r) in
  (GPromise p, mkShareRuntime (kit_of r)
    (jobs r ++ [mkJob (Some p) None (fun k => match exec cb k with Goes (cb, k) => Goes (Resolves (comp cb), k) | Blocks => Blocks | Dies => Dies end) Waiting])
    (share_promises r ++ [Pending]) (share_called r)).

(** More arguments than the method has, with a callback, are refused. *)
Definition wrap {A} (argcPromise : nat) (cb : call -> kit -> HelperCB A) (async : HelperCB A -> js -> runtime -> given * runtime)
    (promise : HelperCB A -> runtime -> given * runtime) (c : call) (r : runtime) : option given * runtime :=
  if argc c >? Z.of_nat argcPromise + 1 then (None, r)
  else
    let '(g, r) := if argc c >? Z.of_nat argcPromise then async (cb c (kit_of r)) (arg c argcPromise) r else promise (cb c (kit_of r)) r in
    (Some g, r).
Definition or_undefined (r : option given * runtime) : given * runtime := (default GUndefined r.1, r.2).

(** The helper is called when there is one, with a URI that is not empty. *)
Definition execute_uri {A} : execute A := fun cb k =>
  match dataShareHelper cb with
  | None => Goes (cb, k)
  | Some h =>
      if empty (uri cb) then Goes (mkHelperCB (Some h) (uri cb) (request cb) INVALID_PARAMETER (result cb), k)
      else match call_helper h (request cb) k with
           | Goes (a, k) => Goes (mkHelperCB (Some h) (uri cb) (request cb) NO_ERROR a, k)
           | Blocks => Blocks
           | Dies => Dies
           end
  end.
Definition calls_back {A} (value : A -> option js) : completion A := fun cb k => (GetCallbackErrorValue (execResult cb), value (result cb), k).
Definition resolves {A} (value : A -> option js) : resolution A := fun cb k => (value (result cb), k).
Definition new_cb {A} (c : call) (uri : string) (request : helper_call A) (initial : A) : HelperCB A :=
  mkHelperCB (napi_unwrap (this c)) uri request leftover initial.
Definition uri_of (c : call) : string := string_argument (arg c 0).

(** A text ends at its first NUL. *)
Definition text_value (s : string) : option js := napi_create_string_utf8 (JSUtils.buffer_text (bytes_of s)).
(** The array grows as its elements are set; what cannot be made ends it. *)
Fixpoint set_texts (array : js) (i : Z) (l : list string) : option js :=
  match l with
  | [] => Some array
  | s :: l => v ← text_value s; array ← napi_set_element array i (Some v); set_texts array (i + 1) l
  end.
Definition WrapGetFileTypesCB (l : list string) : option js :=
  array ← napi_create_array_with_length (Z.of_nat (length l)); set_texts array 0 l.

Definition InsertExecuteCB : execute Z := execute_uri.
Definition InsertAsyncCompleteCB : completion Z := calls_back napi_create_int32.
Definition InsertPromiseCompleteCB : resolution Z := resolves napi_create_int32.
Definition InsertAsync : HelperCB Z -> js -> runtime -> given * runtime := queue_async InsertExecuteCB InsertAsyncCompleteCB.
Definition InsertPromise : HelperCB Z -> runtime -> given * runtime := queue_promise InsertExecuteCB InsertPromiseCompleteCB.
Definition InsertWrap : call -> runtime -> option given * runtime :=
  wrap 2 (fun c k => new_cb c (uri_of c) (HInsert (uri_of c) (AnalysisValuesBucket (arg c 1))) 0) InsertAsync InsertPromise.
Definition NAPI_Insert : method := fun c r => or_undefined (InsertWrap c r).

(** The callback gets undefined, the promise zero. *)
Definition NotifyChangeExecuteCB : execute unit := execute_uri.
Definition NotifyChangeAsyncCompleteCB : completion unit := calls_back (fun _ => Some JUndefined).
Definition NotifyChangePromiseCompleteCB : resolution unit := resolves (fun _ => napi_create_int32 0).
Definition NotifyChangeAsync : HelperCB unit -> js -> runtime -> given * runtime := queue_async NotifyChangeExecuteCB NotifyChangeAsyncCompleteCB.
Definition NotifyChangePromise : HelperCB unit -> runtime -> given * runtime := queue_promise NotifyChangeExecuteCB NotifyChangePromiseCompleteCB.
Definition NotifyChangeWrap : call -> runtime -> option given * runtime :=
  wrap 1 (fun c k => new_cb c (uri_of c) (HNotifyChange (uri_of c)) tt) NotifyChangeAsync NotifyChangePromise.
Definition NAPI_NotifyChange : method := fun c r => or_undefined (NotifyChangeWrap c r).

Definition GetTypeExecuteCB : execute string := execute_uri.
Definition GetTypeAsyncCompleteCB : completion string := calls_back text_value.
Definition GetTypePromiseCompleteCB : resolution string := resolves text_value.
Definition GetTypeAsync : HelperCB string -> js -> runtime -> given * runtime := queue_async GetTypeExecuteCB GetTypeAsyncCompleteCB.
Definition GetTypePromise : HelperCB string -> runtime -> given * runtime := queue_promise GetTypeExecuteCB GetTypePromiseCompleteCB.
Definition GetTypeWrap : call -> runtime -> option given * runtime :=
  wrap 1 (fun c k => new_cb c (uri_of c) (HGetType (uri_of c)) "") GetTypeAsync GetTypePromise.
Definition NAPI_GetType : method := fun c r => or_undefined (GetTypeWrap c r).

Definition GetFileTypesExecuteCB : execute (list string) := execute_uri.
Definition GetFileTypesAsyncCompleteCB : completion (list string) := calls_back WrapGetFileTypesCB.
Definition GetFileTypesPromiseCompleteCB : resolution (list string) := resolves WrapGetFileTypesCB.
Definition GetFileTypesAsync : HelperCB (list string) -> js -> runtime -> given * runtime := queue_async GetFileTypesExecuteCB GetFileTypesAsyncCompleteCB.
Definition GetFileTypesPromise : HelperCB (list string) -> runtime -> given * runtime := queue_promise GetFileTypesExecuteCB GetFileTypesPromiseCompleteCB.
Definition GetFileTypesWrap : call -> runtime -> option given * runtime :=
  wrap 2 (fun c k => new_cb c (uri_of c) (HGetFileTypes (uri_of c) (string_argument (arg c 1))) []) GetFileTypesAsync GetFileTypesPromise.
Definition NAPI_GetFileTypes : method := fun c r => or_undefined (GetFileTypesWrap c r).

Definition NormalizeUriExecuteCB : execute string := execute_uri.
Definition NormalizeUriAsyncCompleteCB : completion string := calls_back text_value.
Definition NormalizeUriPromiseCompleteCB : resolution string := resolves text_value.
Definition NormalizeUriAsync : HelperCB string -> js -> runtime -> given * runtime := queue_async NormalizeUriExecuteCB NormalizeUriAsyncCompleteCB.
Definition NormalizeUriPromise : HelperCB string -> runtime -> given * runtime := queue_promise NormalizeUriExecuteCB NormalizeUriPromiseCompleteCB.
Definition NormalizeUriWrap : call -> runtime -> option given * runtime :=
  wrap 1 (fun c k => new_cb c (uri_of c) (HNormalizeUri (uri_of c)) "") NormalizeUriAsync NormalizeUriPromise.
Definition NAPI_NormalizeUri : method := fun c r => or_undefined (NormalizeUriWrap c r).

Definition DenormalizeUriExecuteCB : execute string := execute_uri.
Definition DenormalizeUriAsyncCompleteCB : completion string := calls_back text_value.
Definition DenormalizeUriPromiseCompleteCB : resolution string := resolves text_value.
Definition DenormalizeUriAsync : HelperCB string -> js -> runtime -> given * runtime := queue_async DenormalizeUriExecuteCB DenormalizeUriAsyncCompleteCB.
Definition DenormalizeUriPromise : HelperCB string -> runtime -> given * runtime := queue_promise DenormalizeUriExecuteCB DenormalizeUriPromiseCompleteCB.
Definition DenormalizeUriWrap : call -> runtime -> option given * runtime :=
  wrap 1 (fun c k => new_cb c (uri_of c) (HDenormalizeUri (uri_of c)) "") DenormalizeUriAsync DenormalizeUriPromise.
Definition NAPI_DenormalizeUri : method := fun c r => or_undefined (DenormalizeUriWrap c r).

Definition DeleteExecuteCB : execute Z := execute_uri.
Definition DeleteAsyncCompleteCB : completion Z := calls_back napi_create_int32.
Definition DeletePromiseCompleteCB : resolution Z := resolves napi_create_int32.
Definition DeleteAsync : HelperCB Z -> js -> runtime -> given * runtime := queue_async DeleteExecuteCB DeleteAsyncCompleteCB.
Definition DeletePromise : HelperCB Z -> runtime -> given * runtime := queue_promise DeleteExecuteCB DeletePromiseCompleteCB.
Definition DeleteWrap : call -> runtime -> option given * runtime :=
  wrap 2 (fun c k => new_cb c (uri_of c) (HDelete (uri_of c) (UnwrapDataSharePredicates (arg c 1) k)) 0) DeleteAsync DeletePromise.
Definition NAPI_Delete : method := fun c r => or_undefined (DeleteWrap c r).

Definition UpdateExecuteCB : execute Z := execute_uri.
Definition UpdateAsyncCompleteCB : completion Z := calls_back napi_create_int32.
Definition UpdatePromiseCompleteCB : resolution Z := resolves napi_create_int32.
Definition UpdateAsync : HelperCB Z -> js -> runtime -> given * runtime := queue_async UpdateExecuteCB UpdateAsyncCompleteCB.
Definition UpdatePromise : HelperCB Z -> runtime -> given * runtime := queue_promise UpdateExecuteCB UpdatePromiseCompleteCB.
Definition UpdateWrap : call -> runtime -> option given * runtime :=
  wrap 3 (fun c k => new_cb c (uri_of c) (HUpdate (uri_of c) (UnwrapDataSharePredicates (arg c 1) k) (AnalysisValuesBucket (arg c 2))) 0) UpdateAsync UpdatePromise.
Definition NAPI_Update : method := fun c r => or_undefined (UpdateWrap c r).

Definition OpenFileExecuteCB : execute Z := execute_uri.
Definition OpenFileAsyncCompleteCB : completion Z := calls_back napi_create_int32.
Definition OpenFilePromiseCompleteCB : resolution Z := resolves napi_create_int32.
Definition OpenFileAsync : HelperCB Z -> js -> runtime -> given * runtime := queue_async OpenFileExecuteCB OpenFileAsyncCompleteCB.
Definition OpenFilePromise : HelperCB Z -> runtime -> given * runtime := queue_promise OpenFileExecuteCB OpenFilePromiseCompleteCB.
Definition OpenFileWrap : call -> runtime -> option given * runtime :=
  wrap 2 (fun c k => new_cb c (uri_of c) (HOpenFile (uri_of c) (string_argument (arg c 1))) 0) OpenFileAsync OpenFilePromise.
Definition NAPI_OpenFile : method := fun c r => or_undefined (OpenFileWrap c r).

Definition BatchInsertExecuteCB : execute Z := execute_uri.
Definition BatchInsertAsyncCompleteCB : completion Z := calls_back napi_create_int32.
Definition BatchInsertPromiseCompleteCB : resolution Z := resolves napi_create_int32.
Definition BatchInsertAsync : HelperCB Z -> js -> runtime -> given * runtime := queue_async BatchInsertExecuteCB BatchInsertAsyncCompleteCB.
Definition BatchInsertPromise : HelperCB Z -> runtime -> given * runtime := queue_promise BatchInsertExecuteCB BatchInsertPromiseCompleteCB.
Definition BatchInsertWrap : call -> runtime -> option given * runtime :=
  wrap 2 (fun c k => new_cb c (uri_of c) (HBatchInsert (uri_of c) (NapiValueObject (arg c 1))) 0) BatchInsertAsync BatchInsertPromise.
Definition NAPI_BatchInsert : method := fun c r => or_undefined (BatchInsertWrap c r).

(** *** Query

    The call fails when there is no result set; [p] is the address of the new object. *)
Definition execute_query : execute (option Z) := fun cb k =>
  match dataShareHelper cb with
  | None => Goes (cb, k)
  | Some h =>
      if empty (uri cb) then Goes (mkHelperCB (Some h) (uri cb) (request cb) INVALID_PARAMETER (result cb), k)
      else match call_helper h (request cb) k with
           | Goes (Some a, k) => Goes (mkHelperCB (Some h) (uri cb) (request cb) NO_ERROR (Some a), k)
           | Goes (None, k) => Goes (mkHelperCB (Some h) (uri cb) (request cb) INVALID_PARAMETER (result cb), k)
           | Blocks => Blocks
           | Dies => Dies
           end
  end.
Definition WrapResultSet (p : Z) (resultSet : option Z) (k : kit) : option js * kit :=
  match resultSet with
  | None => (Some JUndefined, k)
  | Some a => (Some (JInstance p), with_share_set k p a)
  end.
Definition QueryExecuteCB : execute (option Z) := execute_query.
Definition QueryAsyncCompleteCB (p : Z) : completion (option Z) := fun cb k => let (v, k) := WrapResultSet p (result cb) k in (GetCallbackErrorValue (execResult cb), v, k).
Definition QueryPromiseCompleteCB (p : Z) : resolution (option Z) := fun cb k => WrapResultSet p (result cb) k.
Definition QueryAsync (p : Z) : HelperCB (option Z) -> js -> runtime -> given * runtime := queue_async QueryExecuteCB (QueryAsyncCompleteCB p).
Definition QueryPromise (p : Z) : HelperCB (option Z) -> runtime -> given * runtime := queue_promise QueryExecuteCB (QueryPromiseCompleteCB p).
Definition QueryWrap (p : Z) : call -> runtime -> option given * runtime :=
  wrap 3 (fun c k => new_cb c (uri_of c) (HQuery (uri_of c) (UnwrapDataSharePredicates (arg c 1) k) (UnwrapArrayStringFromJS (arg c 2))) None) (QueryAsync p) (QueryPromise p).
Definition NAPI_Query (p : Z) : method := fun c r => or_undefined (QueryWrap p c r).

(** *** Release *)
Definition execute_release : execute bool := fun cb k =>
  match dataShareHelper cb with
  | None => Goes (cb, k)
  | Some h =>
      match call_helper h (request cb) k with
      | Goes (a, k) => Goes (mkHelperCB (Some h) (uri cb) (request cb) (execResult cb) a, k)
      | Blocks => Blocks
      | Dies => Dies
      end
  end.
Definition ReleaseExecuteCB : execute bool := execute_release.
Definition ReleaseAsyncCompleteCB : completion bool := fun cb k => (GetCallbackErrorValue NO_ERROR, napi_get_boolean (result cb), k).
Definition ReleasePromiseCompleteCB : resolution bool := resolves napi_get_boolean.
Definition ReleaseAsync : HelperCB bool -> js -> runtime -> given * runtime := queue_async ReleaseExecuteCB ReleaseAsyncCompleteCB.
Definition ReleasePromise : HelperCB bool -> runtime -> given * runtime := queue_promise ReleaseExecuteCB ReleasePromiseCompleteCB.
Definition ReleaseWrap : call -> runtime -> option given * runtime :=
  wrap 0 (fun c k => new_cb c "" HRelease false) ReleaseAsync ReleasePromise.
Definition NAPI_Release : method := fun c r => or_undefined (ReleaseWrap c r).

(** ** napi_datashare_observer.cpp *)
Section Observers.
Implicit Types o : NAPIDataShareObserver.

Definition new_observer (ref : reference) : NAPIDataShareObserver := mkObserver ref false 0 0 0.
(** Deleting a reference that is gone is undefined. *)
Definition ReleaseJSCallback o : progress NAPIDataShareObserver :=
  match ref_ o with
  | NoReference => Goes o
  | Holds _ => Goes (mkObserver Deleted (onCB_ o) (workPre_ o) (workRun_ o) (intrust_ o))
  | Deleted => Dies
  end.
Definition SetAssociatedObject o (object : bool) : NAPIDataShareObserver := mkObserver (ref_ o) object (workPre_ o) (workRun_ o) (intrust_ o).
Definition ChangeWorkPre o : NAPIDataShareObserver := mkObserver (ref_ o) (onCB_ o) 1 (workRun_ o) (intrust_ o).
Definition ChangeWorkRun o : NAPIDataShareObserver := mkObserver (ref_ o) (onCB_ o) (workPre_ o) 1 (intrust_ o).
Definition ChangeWorkInt o : NAPIDataShareObserver := mkObserver (ref_ o) (onCB_ o) (workPre_ o) (workRun_ o) 1.
Definition ChangeWorkPreDone o : NAPIDataShareObserver := mkObserver (ref_ o) (onCB_ o) 0 (workRun_ o) (intrust_ o).
Definition ChangeWorkRunDone o : NAPIDataShareObserver := mkObserver (ref_ o) (onCB_ o) (workPre_ o) 0 0.
Definition GetWorkPre o : Z := workPre_ o.
Definition GetWorkInt o : Z := intrust_ o.
Definition GetWorkRun o : Z := workRun_ o.
Definition GetAssociatedObject o : bool := onCB_ o.
Definition SetCallbackRef o (ref : reference) : NAPIDataShareObserver := mkObserver ref (onCB_ o) (workPre_ o) (workRun_ o) (intrust_ o).

(** Whether there is an event loop, and whether it takes the work. When it does not, the
    mark that a change is pending stays. *)
Definition OnChange (loop queued : bool) o : bool * NAPIDataShareObserver :=
  match ref_ o with
  | NoReference => (false, o)
  | _ =>
      let o := ChangeWorkPre o in
      if negb loop then (false, ChangeWorkPreDone o) else (queued, o)
  end.
(** The function called, and the observer after it; a reference that was released is
    used all the same. *)
Definition OnChangeJSThreadWorker o : progress (js * NAPIDataShareObserver) :=
  let o := ChangeWorkRun o in
  match ref_ o with
  | Holds f =>
      if GetWorkInt o =? 1
      then match ReleaseJSCallback o with Goes o => Goes (f, SetAssociatedObject o false) | Blocks => Blocks | Dies => Dies end
      else Goes (f, ChangeWorkPreDone (ChangeWorkRunDone o))
  | _ => Dies
  end.
End Observers.

(** A change, on any thread; and the work on the thread of the script. *)
Definition notify (loop queued : bool) (id : Z) (k : kit) : kit :=
  match observers k !! id with
  | None => k
  | Some o =>
      let (queues, o) := OnChange loop queued o in
      let k := with_observer k id o in
      if queues then with_changes k (changes k ++ [id]) (notified k) else k
  end.
Definition next_change (k : kit) : option (progress kit) :=
  match changes k with
  | [] => None
  | id :: rest =>
      o ← observers k !! id;
      Some (match OnChangeJSThreadWorker o with
            | Goes (f, o) => Goes (with_changes (with_observer k id o) rest (notified k ++ [f]))
            | Blocks => Blocks
            | Dies => Dies
            end)
  end.

(** ** Observing *)
Definition queue_event (run : kit -> progress (finish W * kit)) (k : kit) (r : runtime) : given * runtime :=
  queue_job (mkJob None None run Waiting) GNull (mkShareRuntime k (jobs r) (share_promises r) (share_called r)).
Definition release_observer (id : Z) (k : kit) : progress kit :=
  match observers k !! id with
  | None => Goes k
  | Some o => match ReleaseJSCallback o with Goes o => Goes (with_observer k id o) | Blocks => Blocks | Dies => Dies end
  end.

Definition RegisterExecuteCB (onCB : DSHelperOnOffCB) (k : kit) : progress kit :=
  match on_helper_ onCB with
  | None => Goes k
  | Some h =>
      if negb (on_result onCB =? INVALID_PARAMETER) && negb (empty (on_uri onCB)) && bool_decide (is_Some (on_callback onCB))
      then match call_helper h (HRegisterObserver (on_uri onCB) (observer onCB)) k with Goes (_, k) => Goes k | Blocks => Blocks | Dies => Dies end
      else Goes k
  end.
Definition RegisterCompleteCB (onCB : DSHelperOnOffCB) (k : kit) : progress kit :=
  if on_result onCB =? NO_ERROR then Goes k else release_observer (observer onCB) k.
(** The record of an observer that was accepted is kept. *)
Definition RegisterAsync (callback : js) (onCB : DSHelperOnOffCB) (r : runtime) : given * runtime :=
  let k := kit_of r in
  let is_function := bool_decide (napi_typeof callback = napi_function) in
  let id := next_observer k in
  let onCB := mkOnOff (on_helper_ onCB) id (on_uri onCB) (if is_function then Some callback else None)
                (if is_function then on_result onCB else INVALID_PARAMETER) in
  let o := SetCallbackRef (new_observer NoReference) (if is_function then Holds callback else NoReference) in
  let k := mkShareKit (helpers k) (share_predicates k) (if on_result onCB =? NO_ERROR then registered k ++ [onCB] else registered k)
             (<[id := o]> (observers k)) (id + 1) (changes k) (notified k) (share_sets k) (share_world k) in
  queue_event (fun k => match RegisterExecuteCB onCB k with Goes k => Goes (Ends (RegisterCompleteCB onCB), k) | Blocks => Blocks | Dies => Dies end) k r.
Definition RegisterWrap (c : call) (r : runtime) : option given * runtime :=
  if argc c >? ARGS_THREE then (None, r)
  else
    let is_text v := bool_decide (napi_typeof v = napi_string) in
    let valid := is_text (arg c 0) && bool_decide (NapiValueToStringUtf8 (arg c 0) = "dataChange") && is_text (arg c 1) in
    let '(g, r) := RegisterAsync (arg c 2) (mkOnOff (napi_unwrap (this c)) 0 (string_argument (arg c 1)) None (if valid then NO_ERROR else INVALID_PARAMETER)) r in
    (Some g, r).
Definition NAPI_Register : method := fun c r => or_undefined (RegisterWrap c r).

(** *** No longer observing *)
Definition strict_equals (v w : option js) : bool := match v, w with Some (JFunction f), Some (JFunction g) => f =? g | _, _ => false end.
(** All records of the URI, and with that function if there is one, whatever their helper. *)
Definition FindRegisterObsByCallBack (offCB : DSHelperOnOffCB) (l : list DSHelperOnOffCB) : list DSHelperOnOffCB * list DSHelperOnOffCB :=
  let found x := bool_decide (on_uri x = on_uri offCB) && strict_equals (on_callback offCB) (on_callback x) in
  (List.filter found l, List.filter (fun x => negb (found x)) l).
Definition FindRegisterObs (offCB : DSHelperOnOffCB) (l : list DSHelperOnOffCB) : list DSHelperOnOffCB * list DSHelperOnOffCB :=
  match on_helper_ offCB, on_callback offCB with
  | None, _ => ([], l)
  | Some _, Some _ => FindRegisterObsByCallBack offCB l
  | Some _, None =>
      if empty (on_uri offCB) then ([], l)
      else let found x := bool_decide (on_uri x = on_uri offCB) in (List.filter found l, List.filter (fun x => negb (found x)) l)
  end.
(** The records found are unregistered with their own helpers. *)
Fixpoint unregister (l : list DSHelperOnOffCB) (k : kit) : progress kit :=
  match l with
  | [] => Goes k
  | x :: l =>
      match on_helper_ x with
      | None => Dies
      | Some h => match call_helper h (HUnregisterObserver (on_uri x) (observer x)) k with Goes (_, k) => unregister l k | Blocks => Blocks | Dies => Dies end
      end
  end.
Definition UnRegisterExecuteCB (offCB : DSHelperOnOffCB) (NotifyList : list DSHelperOnOffCB) (k : kit) : progress kit :=
  match on_helper_ offCB with None => Goes k | Some _ => unregister NotifyList k end.
(** An observer with a change under way is left to that change. *)
Fixpoint destroy_observers (l : list DSHelperOnOffCB) (k : kit) : progress kit :=
  match l with
  | [] => Goes k
  | x :: l =>
      match observers k !! observer x with
      | None => destroy_observers l k
      | Some o =>
          if (GetWorkPre o =? 1) && (GetWorkRun o =? 0)
          then destroy_observers l (with_observer k (observer x) (ChangeWorkInt (SetAssociatedObject o true)))
          else match release_observer (observer x) k with Goes k => destroy_observers l k | Blocks => Blocks | Dies => Dies end
      end
  end.
(** Without a helper, executing has deleted the record that the completion uses. *)
Definition UnRegisterCompleteCB (offCB : DSHelperOnOffCB) (DestoryList : list DSHelperOnOffCB) (k : kit) : progress kit :=
  match on_helper_ offCB with None => Dies | Some _ => destroy_observers DestoryList k end.
Definition UnRegisterAsync (offCB : DSHelperOnOffCB) (r : runtime) : given * runtime :=
  let k := kit_of r in
  let '(NotifyList, l) := if on_result offCB =? NO_ERROR then FindRegisterObs offCB (registered k) else ([], registered k) in
  queue_event (fun k => match UnRegisterExecuteCB offCB NotifyList k with
                        | Goes k => Goes (Ends (UnRegisterCompleteCB offCB NotifyList), k) | Blocks => Blocks | Dies => Dies end)
    (with_registered k l) r.
Definition UnRegisterWrap (c : call) (r : runtime) : option given * runtime :=
  if negb (argc c <=? ARGS_THREE) then (Some (GThrows "UnRegisterWrap: Wrong argument count"), r)
  else
    let has v t := bool_decide (napi_typeof v = t) in
    let type_ok := has (arg c 0) napi_string && bool_decide (NapiValueToStringUtf8 (arg c 0) = "dataChange") in
    let '(valid, uri, callback) :=
      if argc c >? 2
      then (has (arg c 1) napi_string && has (arg c 2) napi_function, string_argument (arg c 1), if has (arg c 2) napi_function then Some (arg c 2) else None)
      else (has (arg c 1) napi_string || has (arg c 1) napi_function, string_argument (arg c 1), if has (arg c 1) napi_function then Some (arg c 1) else None) in
    let '(g, r) := UnRegisterAsync (mkOnOff (napi_unwrap (this c)) 0 uri callback (if type_ok && valid then NO_ERROR else INVALID_PARAMETER)) r in
    (Some g, r).
Definition NAPI_UnRegister : method := fun c r => or_undefined (UnRegisterWrap c r).

(** *** The end of an object

    The finalizer releases the helper through the first record that has it, and destroys
    it; other records keep its address. *)
Fixpoint erase_helper (h : Z) (l : list DSHelperOnOffCB) : option (list DSHelperOnOffCB) :=
  match l with
  | [] => None
  | x :: l => if bool_decide (on_helper_ x = Some h) then Some l else (x ::.) <$> erase_helper h l
  end.
Definition finalize_helper (h : Z) (k : kit) : progress kit :=
  let destroyed k := Goes (with_helpers k (helpers k ∖ {[h]})) in
  match erase_helper h (registered k) with
  | None => destroyed k
  | Some l => match call_helper h HRelease k with Goes (_, k) => destroyed (with_registered k l) | Blocks => Blocks | Dies => Dies end
  end.

(** The class; [p] is the address of the object a query makes. *)
Definition DataShareHelperInit (p : Z) : list (string * method) :=
  [("insert", NAPI_Insert); ("notifyChange", NAPI_NotifyChange); ("on", NAPI_Register); ("off", NAPI_UnRegister);
   ("delete", NAPI_Delete); ("query", NAPI_Query p); ("update", NAPI_Update); ("batchInsert", NAPI_BatchInsert);
   ("openFile", NAPI_OpenFile); ("getType", NAPI_GetType); ("getFileTypes", NAPI_GetFileTypes); ("normalizeUri", NAPI_NormalizeUri);
   ("denormalizeUri", NAPI_DenormalizeUri); ("release", NAPI_Release)].
End Helper.

(** * Observers

    A change may be queued when the script stops observing: the observer is then left to
    the queued change, which calls the function once more and releases it. One mark says
    that a change is queued, however many are. *)
Section Observing.
Context `{Napi} {W : Type} `{!NativeHelpers W}.
Abbreviation kit := (ShareKit W).
Implicit Types (k : kit) (off : gset Z).









End Observing.

(** * Calls

    What the functions of the ability framework do with the values they are for. *)
Class AbilityNapiLaws `{AbilityNapi} : Prop := {
  unwrap_text s : no_nul s -> UnwrapStringFromJS (JString s) = s;
  unwrap_texts l : Forall no_nul l -> UnwrapArrayStringFromJS (JArray (JString <$> l)) = l;
  convert_bytes data : ConvertU8Vector (JTypedArray napi_uint8_array data) = data;
  is_array l : Z.of_nat (length l) < 2 ^ 32 -> IsArrayForNapiValue (JArray l) = Some (Z.of_nat (length l));
}.

(** What a script may ask of a helper, with the values it gives. *)
Inductive share_op : Type -> Type :=
| OpInsert (uri : string) (m : list (string * js)) : share_op Z
| OpBatchInsert (uri : string) (ms : list (list (string * js))) : share_op Z
| OpDelete (uri : string) (q : Z) : share_op Z
| OpUpdate (uri : string) (q : Z) (m : list (string * js)) : share_op Z
| OpQuery (uri : string) (q : Z) (columns : list string) : share_op (option Z)
| OpOpenFile (uri mode : string) : share_op Z
| OpGetType (uri : string) : share_op string
| OpGetFileTypes (uri mimeTypeFilter : string) : share_op (list string)
| OpNormalizeUri (uri : string) : share_op string
| OpDenormalizeUri (uri : string) : share_op string
| OpNotifyChange (uri : string) : share_op unit
| OpRelease : share_op bool.

Inductive sharable : js -> Prop :=
| sharable_string s : no_nul s -> sharable (JString s)
| sharable_number d : sharable (JNumber d)
| sharable_boolean b : sharable (JBoolean b)
| sharable_null : sharable JNull
| sharable_bytes data : sharable (JTypedArray napi_uint8_array data).
Definition sharable_object (m : list (string * js)) : Prop :=
  NoDup m.*1 /\ Z.of_nat (length m) < 2 ^ 32 /\ Forall (fun p => no_nul p.1 /\ sharable p.2) m.
Definition share_value (v : js) : DataShareValueObject :=
  match v with
  | JString s => new_string s | JNumber d => new_double d | JBoolean b => new_bool b | JTypedArray _ data => new_blob data | _ => new_null
  end.
(** A bucket with the columns of an object, in the order of their names. *)
Definition bucket_holds (m : list (string * js)) (b : DataShareValuesBucket) : Prop :=
  exists m', m' ≡ₚ m /\ sm_sorted m' /\ DataShareValuesBucket.valuesMap b = prod_map id share_value <$> m'.

Section Calling.
Context `{NapiLaws} `{AbilityNapiLaws} {W : Type} `{!NativeHelpers W} (leftover p : Z).
Abbreviation kit := (ShareKit W).
Abbreviation runtime := (ShareRuntime W).
Implicit Types (k : kit) (r : runtime).

Definition op_name {A} (o : share_op A) : string :=
  match o with
  | OpInsert _ _ => "insert" | OpBatchInsert _ _ => "batchInsert" | OpDelete _ _ => "delete" | OpUpdate _ _ _ => "update" | OpQuery _ _ _ => "query"
  | OpOpenFile _ _ => "openFile" | OpGetType _ => "getType" | OpGetFileTypes _ _ => "getFileTypes" | OpNormalizeUri _ => "normalizeUri"
  | OpDenormalizeUri _ => "denormalizeUri" | OpNotifyChange _ => "notifyChange" | OpRelease => "release"
  end.
Definition op_args {A} (o : share_op A) : list js :=
  match o with
  | OpInsert u m => [JString u; JObject m] | OpBatchInsert u ms => [JString u; JArray (JObject <$> ms)] | OpDelete u q => [JString u; JInstance q]
  | OpUpdate u q m => [JString u; JInstance q; JObject m] | OpQuery u q columns => [JString u; JInstance q; JArray (JString <$> columns)]
  | OpOpenFile u mode => [JString u; JString mode] | OpGetFileTypes u filter => [JString u; JString filter]
  | OpGetType u | OpNormalizeUri u | OpDenormalizeUri u | OpNotifyChange u => [JString u] | OpRelease => []
  end.
(** Well-formed arguments. *)
Definition op_wf {A} (o : share_op A) k : Prop :=
  let text u := no_nul u /\ empty u = false in
  match o with
  | OpInsert u m => text u /\ sharable_object m
  | OpBatchInsert u ms => text u /\ Z.of_nat (length ms) < 2 ^ 32 /\ Forall sharable_object ms
  | OpDelete u q => text u /\ is_Some (share_predicates k !! q)
  | OpUpdate u q m => text u /\ is_Some (share_predicates k !! q) /\ sharable_object m
  | OpQuery u q columns => text u /\ is_Some (share_predicates k !! q) /\ Forall no_nul columns
  | OpOpenFile u s | OpGetFileTypes u s => text u /\ no_nul s
  | OpGetType u | OpNormalizeUri u | OpDenormalizeUri u | OpNotifyChange u => text u
  | OpRelease => True
  end.
(** The native call that is meant. *)
Definition op_calls {A} (o : share_op A) k : helper_call A -> Prop :=
  match o in share_op B return helper_call B -> Prop with
  | OpInsert u m => fun c => exists b, bucket_holds m b /\ c = HInsert u b
  | OpBatchInsert u ms => fun c => exists bs, Forall2 bucket_holds ms bs /\ c = HBatchInsert u bs
  | OpDelete u q => fun c => exists x, share_predicates k !! q = Some x /\ c = HDelete u x
  | OpUpdate u q m => fun c => exists x b, share_predicates k !! q = Some x /\ bucket_holds m b /\ c = HUpdate u x b
  | OpQuery u q columns => fun c => exists x, share_predicates k !! q = Some x /\ c = HQuery u x columns
  | OpOpenFile u mode => fun c => c = HOpenFile u mode
  | OpGetType u => fun c => c = HGetType u
  | OpGetFileTypes u filter => fun c => c = HGetFileTypes u filter
  | OpNormalizeUri u => fun c => c = HNormalizeUri u
  | OpDenormalizeUri u => fun c => c = HDenormalizeUri u
  | OpNotifyChange u => fun c => c = HNotifyChange u
  | OpRelease => fun c => c = HRelease
  end.
(** What the script gets for what the helper returned: the value of the promise, and that
    given to a callback. *)
Definition op_promise {A} (o : share_op A) : A -> option js :=
  match o in share_op B return B -> option js with
  | OpInsert _ _ | OpBatchInsert _ _ | OpDelete _ _ | OpUpdate _ _ _ | OpOpenFile _ _ => fun a => napi_create_int32 a
  | OpQuery _ _ _ => fun a => Some (match a with Some _ => JInstance p | None => JUndefined end)
  | OpGetType _ | OpNormalizeUri _ | OpDenormalizeUri _ => fun a => text_value a
  | OpGetFileTypes _ _ => fun a => WrapGetFileTypesCB a
  | OpNotifyChange _ => fun _ => napi_create_int32 0
  | OpRelease => fun a => napi_get_boolean a
  end.
Definition op_callback {A} (o : share_op A) : A -> option js :=
  match o in share_op B return B -> option js with OpNotifyChange _ => fun _ => Some JUndefined | o => op_promise o end.
Definition op_error {A} (o : share_op A) : A -> Z :=
  match o in share_op B return B -> Z with
  | OpQuery _ _ _ => fun a => match a with Some _ => NO_ERROR | None => INVALID_PARAMETER end
  | _ => fun _ => NO_ERROR
  end.

(** ** Running a call to its end *)
Definition run_last r : progress runtime :=
  let i := pred (length (jobs r)) in
  match run_job i r with
  | Some (Goes r) => default Blocks (finish_job i r)
  | Some other => other
  | None => Blocks
  end.
Definition invoke_share {A} (o : share_op A) (h : Z) (extra : list js) r : given * runtime :=
  match sm_find (op_name o) (DataShareHelperInit leftover p) with
  | Some f => f (mkCall (JInstance h) (op_args o ++ extra)) r
  | None => (GUndefined, r)
  end.

Lemma promise_runs {A} (exec : execute (W := W) A) (comp : resolution A) cb r cb' k' v k'' :
  exec cb (kit_of r) = Goes (cb', k') -> comp cb' k' = (Some v, k'') ->
  exists r', run_last (queue_promise exec comp cb r).2 = Goes r' /\ (queue_promise exec comp cb r).1 = GPromise (length (share_promises r)) /\
    kit_of r' = k'' /\ share_promises r' = share_promises r ++ [Resolved v] /\ share_called r' = share_called r.
Proof.
  intros He Hc. unfold run_last, queue_promise. simpl. rewrite length_app, Nat.add_1_r. simpl.
  unfold run_job. simpl. rewrite lookup_snoc. simpl. rewrite He. simpl. unfold finish_job. simpl. rewrite insert_snoc, lookup_snoc. simpl. rewrite Hc.
  simpl. eexists. split; [reflexivity|]. simpl. by rewrite insert_snoc.
Qed.
Lemma callback_runs {A} (exec : execute (W := W) A) (comp : completion A) cb f r cb' k' e v k'' :
  exec cb (kit_of r) = Goes (cb', k') -> comp cb' k' = (e, v, k'') ->
  exists r', run_last (queue_async exec comp cb (JFunction f) r).2 = Goes r' /\ (queue_async exec comp cb (JFunction f) r).1 = GNull /\
    kit_of r' = k'' /\ share_promises r' = share_promises r /\ share_called r' = share_called r ++ [(JFunction f, (e, v))].
Proof.
  intros He Hc. unfold run_last, queue_async. rewrite typeof_ok, bool_decide_true by done. simpl. rewrite length_app, Nat.add_1_r. simpl.
  unfold run_job. simpl. rewrite lookup_snoc. simpl. rewrite He. simpl. unfold finish_job. simpl. rewrite insert_snoc, lookup_snoc. simpl. rewrite Hc.
  simpl. eexists. by split.
Qed.

Lemma wrapped_call {A} n (cbf : call -> kit -> HelperCB A) exec (comp : completion A) (res : resolution A) args h r cb cb' k' :
  length args = n -> (forall l, cbf (mkCall (JInstance h) (args ++ l)) (kit_of r) = cb) -> exec cb (kit_of r) = Goes (cb', k') ->
  let call l := or_undefined (wrap n cbf (queue_async exec comp) (queue_promise exec res) (mkCall (JInstance h) (args ++ l)) r) in
  (forall v k'', res cb' k' = (Some v, k'') -> exists r', (call []).1 = GPromise (length (share_promises r)) /\ run_last (call []).2 = Goes r' /\
     kit_of r' = k'' /\ share_promises r' = share_promises r ++ [Resolved v]) /\
  (forall f e v k'', comp cb' k' = (e, v, k'') -> exists r', (call [JFunction f]).1 = GNull /\ run_last (call [JFunction f]).2 = Goes r' /\
     kit_of r' = k'' /\ share_called r' = share_called r ++ [(JFunction f, (e, v))]).
Proof.
  intros Hl Hcb He call. split.
  - intros v k'' Hres. destruct (promise_runs exec res cb r cb' k' v k'' He Hres) as (r' & E & Eg & Hk & Hp & _). exists r'.
    assert (Ec : call [] = ((queue_promise exec res cb r).1, (queue_promise exec res cb r).2)).
    { unfold call, or_undefined, wrap, argc. simpl. rewrite Hcb, app_nil_r, Hl.
      destruct (Z.gtb_spec (Z.of_nat n) (Z.of_nat n + 1)), (Z.gtb_spec (Z.of_nat n) (Z.of_nat n)); try lia. reflexivity. }
    rewrite Ec. simpl. by split_and!.
  - intros f e v k'' Hcomp. destruct (callback_runs exec comp cb f r cb' k' e v k'' He Hcomp) as (r' & E & Eg & Hk & _ & Hc). exists r'.
    assert (Ec : call [JFunction f] = ((queue_async exec comp cb (JFunction f) r).1, (queue_async exec comp cb (JFunction f) r).2)).
    { assert (Ha : arg (mkCall (JInstance h) (args ++ [JFunction f])) n = JFunction f) by (unfold arg; simpl; by rewrite <- Hl, lookup_snoc).
      unfold call, or_undefined, wrap. rewrite Ha, Hcb. unfold argc. simpl. rewrite length_app, Hl. simpl.
      destruct (Z.gtb_spec (Z.of_nat (n + 1)) (Z.of_nat n + 1)), (Z.gtb_spec (Z.of_nat (n + 1)) (Z.of_nat n)); try lia. reflexivity. }
    rewrite Ec. simpl. by split_and!.
Qed.

(** ** Arguments *)
Lemma string_argument_ok s : no_nul s -> string_argument (JString s) = s.
Proof. intros Hs. unfold string_argument, NapiValueToStringUtf8. rewrite typeof_ok, bool_decide_true by done. by apply unwrap_text. Qed.
Lemma AnalysisValuesBucket_ok m : sharable_object m -> bucket_holds m (AnalysisValuesBucket (JObject m)).
Proof.
  intros (Hn & Hl & Hf). unfold bucket_holds, AnalysisValuesBucket. apply (put_all DataShareValuesBucket.valuesMap); [done|done|done|].
  intros b name v Hin. rewrite Forall_forall in Hf. destruct (Hf _ Hin) as [Hname Hv]. simpl in *. split; [by apply unwrap_text|].
  unfold SetValuesBucketObject. rewrite typeof_ok. destruct Hv; simpl.
  - by rewrite unwrap_text.
  - by rewrite double_ok.
  - by rewrite bool_ok.
  - done.
  - by rewrite convert_bytes.
Qed.
Lemma unwrap_elements_ok ms : forall pre, Forall sharable_object ms ->
  Forall2 bucket_holds ms (unwrap_elements (JArray (pre ++ (JObject <$> ms))) (Z.of_nat (length pre)) (length ms)).
Proof.
  induction ms as [|m ms IH]; intros pre Hf; [constructor|]. apply Forall_cons in Hf as [Hm Hf]. simpl.
  assert (Hlk : (pre ++ JObject m :: (JObject <$> ms)) !! length pre = Some (JObject m)) by (rewrite lookup_app_r, Nat.sub_diag by lia; done).
  rewrite (element_ok _ _ _ Hlk). constructor; [by apply AnalysisValuesBucket_ok|].
  specialize (IH (pre ++ [JObject m]) Hf). rewrite <- app_assoc, length_app in IH. simpl in IH.
  replace (Z.of_nat (length pre) + 1) with (Z.of_nat (length pre + 1)) by lia. exact IH.
Qed.
Lemma NapiValueObject_ok ms : Z.of_nat (length ms) < 2 ^ 32 -> Forall sharable_object ms ->
  Forall2 bucket_holds ms (NapiValueObject (JArray (JObject <$> ms))).
Proof.
  intros Hl Hf. unfold NapiValueObject, UnwrapArrayObjectFromJS. rewrite is_array by (by rewrite length_fmap).
  rewrite Nat2Z.id, length_fmap. by apply (unwrap_elements_ok ms []).
Qed.

Lemma execute_uri_ok {A} h u (c : helper_call A) e0 init k a w :
  empty u = false -> h ∈ helpers k -> on_helper h c (share_world k) = Goes (a, w) ->
  execute_uri (mkHelperCB (Some h) u c e0 init) k = Goes (mkHelperCB (Some h) u c NO_ERROR a, with_share_world k w).
Proof. intros Hu Hh Hw. unfold execute_uri, call_helper. simpl. rewrite Hu, bool_decide_true by done. by rewrite Hw. Qed.

(** What a call gives the script, when the helper answers. *)
Definition answered_with {A} (o : share_op A) h r (a : A) (w : W) : Prop :=
  (forall v, op_promise o a = Some v -> exists r',
     (invoke_share o h [] r).1 = GPromise (length (share_promises r)) /\ run_last (invoke_share o h [] r).2 = Goes r' /\
     share_world (kit_of r') = w /\ share_promises r' = share_promises r ++ [Resolved v]) /\
  (forall f, exists r',
     (invoke_share o h [JFunction f] r).1 = GNull /\ run_last (invoke_share o h [JFunction f] r).2 = Goes r' /\
     share_world (kit_of r') = w /\ share_called r' = share_called r ++ [(JFunction f, (GetCallbackErrorValue (op_error o a), op_callback o a))]).

(** The calls that are made with a URI and end with a value alone. *)
Lemma answered_uri {A} (o : share_op A) n cbf (value cvalue : A -> option js) h r u c init a w :
  (forall l, invoke_share o h l r = or_undefined (wrap n cbf (queue_async execute_uri (calls_back cvalue)) (queue_promise execute_uri (resolves value))
     (mkCall (JInstance h) (op_args o ++ l)) r)) ->
  length (op_args o) = n -> (forall l, cbf (mkCall (JInstance h) (op_args o ++ l)) (kit_of r) = mkHelperCB (Some h) u c leftover init) ->
  op_promise o a = value a -> op_callback o a = cvalue a -> op_error o a = NO_ERROR ->
  empty u = false -> h ∈ helpers (kit_of r) -> on_helper h c (share_world (kit_of r)) = Goes (a, w) -> answered_with o h r a w.
Proof.
  intros Hinv Hl Hcb Hv Hcv He Hu Hh Hw. pose proof (execute_uri_ok h u c leftover init (kit_of r) a w Hu Hh Hw) as Hx.
  destruct (wrapped_call n cbf execute_uri (calls_back cvalue) (resolves value) (op_args o) h r _ _ _ Hl Hcb Hx) as [Hp Hc]. split.
  - intros v Ev. rewrite Hinv. destruct (Hp v (with_share_world (kit_of r) w)) as (r' & E1 & E2 & Ek & Es); [unfold resolves; simpl; by rewrite <- Hv, Ev|].
    exists r'. rewrite Ek. by split_and!.
  - intros f. rewrite Hinv. destruct (Hc f _ _ _ eq_refl) as (r' & E1 & E2 & Ek & Es). exists r'. rewrite Ek, Es, He, Hcv. by split_and!.
Qed.

Lemma new_cb_ok {A} h l u (c : helper_call A) init : new_cb leftover (mkCall (JInstance h) l) u c init = mkHelperCB (Some h) u c leftover init.
Proof. unfold new_cb. simpl. by rewrite unwrap_ok. Qed.
Lemma predicates_ok q k x : share_predicates k !! q = Some x -> UnwrapDataSharePredicates leftover (JInstance q) k = x.
Proof. intros Hx. unfold UnwrapDataSharePredicates. rewrite unwrap_ok. simpl. by rewrite Hx. Qed.

Lemma answered_query u q columns x h r a w :
  no_nul u -> empty u = false -> share_predicates (kit_of r) !! q = Some x -> Forall no_nul columns -> h ∈ helpers (kit_of r) ->
  on_helper h (HQuery u x columns) (share_world (kit_of r)) = Goes (a, w) -> answered_with (OpQuery u q columns) h r a w.
Proof.
  intros Hu Hne Hx Hc Hh Hw.
  assert (He : execute_query (mkHelperCB (Some h) u (HQuery u x columns) leftover None) (kit_of r) =
    Goes (mkHelperCB (Some h) u (HQuery u x columns) (op_error (OpQuery u q columns) a) a, with_share_world (kit_of r) w)).
  { unfold execute_query, call_helper. simpl. rewrite Hne, bool_decide_true by done. rewrite Hw. by destruct a. }
  edestruct (wrapped_call 3 (fun c k => new_cb leftover c (uri_of c) (HQuery (uri_of c) (UnwrapDataSharePredicates leftover (arg c 1) k) (UnwrapArrayStringFromJS (arg c 2))) None)
    execute_query (QueryAsyncCompleteCB p) (QueryPromiseCompleteCB p) (op_args (OpQuery u q columns)) h r) as [Hp Hcb]; [done| |exact He|].
  { intros l. simpl. unfold uri_of, arg. simpl. by rewrite new_cb_ok, string_argument_ok, (predicates_ok q _ x), unwrap_texts. }
  split.
  - intros v [= <-]. destruct a as [s|].
    + destruct (Hp _ _ eq_refl) as (r' & E1 & E2 & Ek & Es). exists r'. rewrite Ek. by split_and!.
    + destruct (Hp _ _ eq_refl) as (r' & E1 & E2 & Ek & Es). exists r'. rewrite Ek. by split_and!.
  - intros f. destruct a as [s|]; (destruct (Hcb f _ _ _ eq_refl) as (r' & E1 & E2 & Ek & Es); exists r'; rewrite Ek; by split_and!).
Qed.

Lemma answered_release h r a w :
  h ∈ helpers (kit_of r) -> on_helper h HRelease (share_world (kit_of r)) = Goes (a, w) -> answered_with OpRelease h r a w.
Proof.
  intros Hh Hw.
  assert (He : execute_release (mkHelperCB (Some h) "" HRelease leftover false) (kit_of r) = Goes (mkHelperCB (Some h) "" HRelease leftover a, with_share_world (kit_of r) w)).
  { unfold execute_release, call_helper. simpl. rewrite bool_decide_true by done. by rewrite Hw. }
  edestruct (wrapped_call 0 (fun c k => new_cb leftover c "" HRelease false) execute_release ReleaseAsyncCompleteCB ReleasePromiseCompleteCB [] h r) as [Hp Hcb];
    [done|intros l; apply new_cb_ok|exact He|]. split.
  - intros v Hv. destruct (Hp v (with_share_world (kit_of r) w)) as (r' & E1 & E2 & Ek & Es);
      [unfold ReleasePromiseCompleteCB, resolves; simpl in *; by rewrite Hv|]. exists r'. rewrite Ek. by split_and!.
  - intros f. destruct (Hcb f _ _ _ eq_refl) as (r' & E1 & E2 & Ek & Es). exists r'. rewrite Ek. by split_and!.
Qed.

(** C38: Calls of a helper reach the data share. A script that calls any method of a
    helper with well-formed arguments makes one call of the native helper, with the URI,
    the predicates, the columns and buckets that hold exactly the values of the objects;
    when the helper returns, the promise is resolved with its result, and a call with a
    callback instead of a promise calls it once, with no error and that result (an error
    if a query gave no result set). *)
Theorem share_calls_reach_helper {A} (o : share_op A) h r :
  op_wf o (kit_of r) -> h ∈ helpers (kit_of r) ->
  exists c, op_calls o (kit_of r) c /\
    forall a w, on_helper h c (share_world (kit_of r)) = Goes (a, w) -> answered_with o h r a w.
Proof.
  intros Hwf Hh. destruct o as [u m|u ms|u q|u q m|u q columns|u mode|u|u filter|u|u|u|]; simpl in Hwf.
  - destruct Hwf as ((Hu & Hne) & Hm). exists (HInsert u (AnalysisValuesBucket (JObject m))). split; [simpl; exists (AnalysisValuesBucket (JObject m)); split; [by apply AnalysisValuesBucket_ok|done]|]. intros a w Hw.
    apply (answered_uri _ 2 (fun c k => new_cb leftover c (uri_of c) (HInsert (uri_of c) (AnalysisValuesBucket (arg c 1))) 0) napi_create_int32 napi_create_int32 h r u (HInsert u (AnalysisValuesBucket (JObject m))) 0 a w); try done.
    intros l. rewrite new_cb_ok. unfold uri_of, arg. simpl. by rewrite string_argument_ok.
  - destruct Hwf as ((Hu & Hne) & Hl & Hms). exists (HBatchInsert u (NapiValueObject (JArray (JObject <$> ms)))). split; [simpl; eexists; split; [by apply NapiValueObject_ok|done]|]. intros a w Hw.
    apply (answered_uri _ 2 (fun c k => new_cb leftover c (uri_of c) (HBatchInsert (uri_of c) (NapiValueObject (arg c 1))) 0) napi_create_int32 napi_create_int32 h r u (HBatchInsert u (NapiValueObject (JArray (JObject <$> ms)))) 0 a w); try done.
    intros l. rewrite new_cb_ok. unfold uri_of, arg. simpl. by rewrite string_argument_ok.
  - destruct Hwf as ((Hu & Hne) & x & Hx). exists (HDelete u x). split; [simpl; by exists x|]. intros a w Hw.
    apply (answered_uri _ 2 (fun c k => new_cb leftover c (uri_of c) (HDelete (uri_of c) (UnwrapDataSharePredicates leftover (arg c 1) k)) 0) napi_create_int32 napi_create_int32 h r u (HDelete u x) 0 a w); try done.
    intros l. rewrite new_cb_ok. unfold uri_of, arg. simpl. by rewrite string_argument_ok, (predicates_ok q _ x).
  - destruct Hwf as ((Hu & Hne) & (x & Hx) & Hm). exists (HUpdate u x (AnalysisValuesBucket (JObject m))). split; [simpl; eexists x, _; split_and!; [done|by apply AnalysisValuesBucket_ok|done]|]. intros a w Hw.
    apply (answered_uri _ 3 (fun c k => new_cb leftover c (uri_of c) (HUpdate (uri_of c) (UnwrapDataSharePredicates leftover (arg c 1) k) (AnalysisValuesBucket (arg c 2))) 0) napi_create_int32 napi_create_int32 h r u (HUpdate u x (AnalysisValuesBucket (JObject m))) 0 a w); try done.
    intros l. rewrite new_cb_ok. unfold uri_of, arg. simpl. by rewrite string_argument_ok, (predicates_ok q _ x).
  - destruct Hwf as ((Hu & Hne) & (x & Hx) & Hc). exists (HQuery u x columns). split; [simpl; by exists x|]. intros a w Hw.
    by apply (answered_query u q columns x).
  - destruct Hwf as ((Hu & Hne) & Hs). exists (HOpenFile u mode). split; [simpl; done|]. intros a w Hw.
    apply (answered_uri _ 2 (fun c k => new_cb leftover c (uri_of c) (HOpenFile (uri_of c) (string_argument (arg c 1))) 0) napi_create_int32 napi_create_int32 h r u (HOpenFile u mode) 0 a w); try done.
    intros l. rewrite new_cb_ok. unfold uri_of, arg. simpl. by rewrite string_argument_ok, string_argument_ok.
  - destruct Hwf as (Hu & Hne). exists (HGetType u). split; [simpl; done|]. intros a w Hw.
    apply (answered_uri _ 1 (fun c k => new_cb leftover c (uri_of c) (HGetType (uri_of c)) "") text_value text_value h r u (HGetType u) "" a w); try done.
    intros l. rewrite new_cb_ok. unfold uri_of, arg. simpl. by rewrite string_argument_ok.
  - destruct Hwf as ((Hu & Hne) & Hs). exists (HGetFileTypes u filter). split; [simpl; done|]. intros a w Hw.
    apply (answered_uri _ 2 (fun c k => new_cb leftover c (uri_of c) (HGetFileTypes (uri_of c) (string_argument (arg c 1))) []) WrapGetFileTypesCB WrapGetFileTypesCB h r u (HGetFileTypes u filter) [] a w); try done.
    intros l. rewrite new_cb_ok. unfold uri_of, arg. simpl. by rewrite string_argument_ok, string_argument_ok.
  - destruct Hwf as (Hu & Hne). exists (HNormalizeUri u). split; [simpl; done|]. intros a w Hw.
    apply (answered_uri _ 1 (fun c k => new_cb leftover c (uri_of c) (HNormalizeUri (uri_of c)) "") text_value text_value h r u (HNormalizeUri u) "" a w); try done.
    intros l. rewrite new_cb_ok. unfold uri_of, arg. simpl. by rewrite string_argument_ok.
  - destruct Hwf as (Hu & Hne). exists (HDenormalizeUri u). split; [simpl; done|]. intros a w Hw.
    apply (answered_uri _ 1 (fun c k => new_cb leftover c (uri_of c) (HDenormalizeUri (uri_of c)) "") text_value text_value h r u (HDenormalizeUri u) "" a w); try done.
    intros l. rewrite new_cb_ok. unfold uri_of, arg. simpl. by rewrite string_argument_ok.
  - destruct Hwf as (Hu & Hne). exists (HNotifyChange u). split; [simpl; done|]. intros a w Hw.
    apply (answered_uri _ 1 (fun c k => new_cb leftover c (uri_of c) (HNotifyChange (uri_of c)) tt) (fun _ => napi_create_int32 0) (fun _ => Some JUndefined) h r u (HNotifyChange u) tt a w); try done.
    intros l. rewrite new_cb_ok. unfold uri_of, arg. simpl. by rewrite string_argument_ok.
  - exists HRelease. split; [done|]. intros a w Hw. by apply answered_release.
Qed.
End Calling.

(** ** A helper that records its calls *)
Section Demo.
Instance demo_ability : AbilityNapi := {|
  UnwrapStringFromJS v := match v with JString s => JSUtils.buffer_text (bytes_of s) | _ => "" end;
  UnwrapArrayStringFromJS v := match v with JArray l => omap (fun e => match e with JString s => Some (JSUtils.buffer_text (bytes_of s)) | _ => None end) l | _ => [] end;
  ConvertU8Vector v := match v with JTypedArray napi_uint8_array data => data | _ => [] end;
  IsArrayForNapiValue v := match v with JArray l => Some (Z.of_nat (length l)) | _ => None end;
  GetCallbackErrorValue e := Some (JObject [("code", JNumber (double_of e))]);
|}.
Instance demo_ability_laws : @AbilityNapiLaws demo_ability.
Proof.
  split; simpl; try done.
  - apply buffer_text_whole.
  - intros l. induction 1 as [|s l Hs _ IH]; [done|]. simpl. rewrite buffer_text_whole by done. by f_equal.
Qed.

Definition recorded_helper_calls : Type := list (Z * {A & helper_call A}).
Definition demo_helper_answer {A} (c : helper_call A) : A :=
  match c in helper_call B return B with
  | HInsert _ _ => 7
  | HBatchInsert _ values => Z.of_nat (length values)
  | HDelete _ _ | HUpdate _ _ _ | HOpenFile _ _ => 1
  | HQuery _ _ _ => Some 70
  | HGetType _ => "text/plain"
  | HGetFileTypes _ _ => ["image/png"]
  | HNormalizeUri uri | HDenormalizeUri uri => uri
  | HNotifyChange _ | HRegisterObserver _ _ | HUnregisterObserver _ _ => tt
  | HRelease => true
  end.
Instance demo_helpers : NativeHelpers recorded_helper_calls := {|
  on_helper A h c w := Goes (demo_helper_answer c, w ++ [(h, existT A c)]);
  Creator _ _ w := (Some 10, w);
|}.
Abbreviation demo_kit := (mkShareKit (W := recorded_helper_calls) {[10; 11]} ∅ [] ∅ 0 [] [] ∅ []).
Abbreviation demo_start := (mkShareRuntime demo_kit [] [] []).
Abbreviation demo_class := (@DataShareHelperInit node demo_ability recorded_helper_calls demo_helpers 0 90).
Definition script (name : string) (h : Z) (args : list js) (r : ShareRuntime recorded_helper_calls) : ShareRuntime recorded_helper_calls :=
  match sm_find name demo_class with Some f => (f (mkCall (JInstance h) args) r).2 | None => r end.
Definition run_all (r : progress (ShareRuntime recorded_helper_calls)) (script : ShareRuntime recorded_helper_calls -> ShareRuntime recorded_helper_calls)
  : progress (ShareRuntime recorded_helper_calls) :=
  match r with Goes r => run_last (script r) | other => other end.
Definition native_calls (r : ShareRuntime recorded_helper_calls) : recorded_helper_calls := share_world (kit_of r).

Lemma share_calls_reach_helper_witness :
  exists c, op_calls (OpInsert "datashare:///a" [("n", JNumber (double_of 3))]) demo_kit c /\
    forall a w, on_helper 10 c [] = Goes (a, w) ->
      @answered_with node demo_ability recorded_helper_calls demo_helpers 0 90 Z (OpInsert "datashare:///a" [("n", JNumber (double_of 3))]) 10 demo_start a w.
Proof.
  apply (@share_calls_reach_helper node node_laws demo_ability demo_ability_laws recorded_helper_calls demo_helpers 0 90 Z
    (OpInsert "datashare:///a" [("n", JNumber (double_of 3))]) 10 demo_start).
  - split; [split; [apply (bool_decide_unpack _); by vm_compute|done]|]. split; [apply (bool_decide_unpack _); by vm_compute|]. split; [done|].
    apply Forall_cons. split; [|apply Forall_nil_2]. split; [apply (bool_decide_unpack _); by vm_compute|constructor].
  - apply (bool_decide_unpack _). by vm_compute.
Defined.

(** *** Failures that promises do not show *)

(** Without a URI nothing is inserted, and the promise is resolved with row zero; a
    callback gets the error. *)
Example empty_uri_resolves :
  match run_last (script "insert" 10 [JString ""; JObject []] demo_start), run_last (script "insert" 10 [JString ""; JObject []; JFunction 5] demo_start) with
  | Goes r, Goes r' =>
      share_promises r = [Resolved (JNumber (double_of 0))] /\ native_calls r = [] /\
      share_called r' = [(JFunction 5, (Some (JObject [("code", JNumber (double_of (-1)))]), Some (JNumber (double_of 0))))]
  | _, _ => False
  end.
Proof. vm_compute. split_and!; reflexivity. Qed.

(** A work does not keep its helper: when the object is collected first, the work uses a
    helper that is gone. *)
Example collected_helper_used :
  let r := script "getType" 10 [JString "datashare:///a"] demo_start in
  match finalize_helper 10 (kit_of r) with
  | Goes k => run_last (mkShareRuntime k (jobs r) (share_promises r) (share_called r)) = Dies
  | _ => False
  end.
Proof. vm_compute. reflexivity. Qed.

(** *** Observers *)
Abbreviation observe h f := (script "on" h [JString "dataChange"; JString "datashare:///a"; JFunction f]).

(** Stopping to observe a URI stops the observers of other helpers too. *)
Example off_reaches_other_helpers :
  match run_all (run_all (run_last (observe 10 5 demo_start)) (observe 11 6)) (script "off" 10 [JString "dataChange"; JString "datashare:///a"]) with
  | Goes r => registered (kit_of r) = [] /\ drop 2 (native_calls r) =
      [(10, existT _ (HUnregisterObserver "datashare:///a" 0)); (11, existT _ (HUnregisterObserver "datashare:///a" 1))]
  | _ => False
  end.
Proof. vm_compute. split; reflexivity. Qed.

(** [off] on an object that is no helper ends the process. *)
Example off_without_helper_dies :
  match sm_find "off" demo_class with
  | Some f => run_last (f (mkCall JUndefined [JString "dataChange"; JString "datashare:///a"]) demo_start).2 = Dies
  | None => False
  end.
Proof. vm_compute. reflexivity. Qed.

(** The finalizer forgets one observer of the helper: the other one is unregistered with
    a helper that is gone. *)
Example second_observer_dangles :
  match run_all (run_last (observe 10 5 demo_start)) (observe 10 6) with
  | Goes r =>
      match finalize_helper 10 (kit_of r) with
      | Goes k => run_last (script "off" 11 [JString "dataChange"; JString "datashare:///a"] (mkShareRuntime k (jobs r) (share_promises r) (share_called r))) = Dies
      | _ => False
      end
  | _ => False
  end.
Proof. vm_compute. reflexivity. Qed.

(** One change queued when observing ends: its function is called once more and then
    released. *)
Definition one_observer : ShareKit recorded_helper_calls :=
  mkShareKit {[10]} ∅ [] {[0 := new_observer (Holds (JFunction 5))]} 1 [] [] ∅ [].
Definition the_record : DSHelperOnOffCB := mkOnOff (Some 10) 0 "datashare:///a" (Some (JFunction 5)) NO_ERROR.
Definition ended_with_change : ShareKit recorded_helper_calls :=
  match destroy_observers [the_record] (notify true true 0 one_observer) with Goes k => k | _ => one_observer end.

Example called_then_released :
  match next_change ended_with_change with
  | Some (Goes k) => notified k = [JFunction 5] /\ ref_ <$> observers k !! 0 = Some Deleted
  | _ => False
  end.
Proof. vm_compute. split; reflexivity. Qed.

(** With two changes queued the function is released while the second one needs it. *)
Definition off_then (k : ShareKit recorded_helper_calls) (f : ShareKit recorded_helper_calls -> option (progress (ShareKit recorded_helper_calls))) :=
  match destroy_observers [the_record] k with Goes k => f k | _ => None end.
Definition then_change (r : option (progress (ShareKit recorded_helper_calls))) : option (progress (ShareKit recorded_helper_calls)) :=
  match r with Some (Goes k) => next_change k | _ => None end.
Example two_changes_dangle : off_then (notify true true 0 (notify true true 0 one_observer)) (fun k => then_change (next_change k)) = Some Dies.
Proof. vm_compute. reflexivity. Qed.
(** The first of two changes clears the mark: the second finds its function released. *)
Example second_change_dangles :
  match next_change (notify true true 0 (notify true true 0 one_observer)) with
  | Some (Goes k) => off_then k next_change = Some Dies | _ => False
  end.
Proof. vm_compute. reflexivity. Qed.
(** A change that comes while observing ends. *)
Example late_change_dangles : off_then one_observer (fun k => next_change (notify true true 0 k)) = Some Dies.
Proof. vm_compute. reflexivity. Qed.
(** A change that the event loop refuses leaves its mark: the function is never released. *)
Example refused_change_leaks :
  match destroy_observers [the_record] (notify true false 0 one_observer) with
  | Goes k => changes k = [] /\ ref_ <$> observers k !! 0 = Some (Holds (JFunction 5)) | _ => False
  end.
Proof. vm_compute. split; reflexivity. Qed.
End Demo.
